(* ===== verification/_CoqProject ===== *)
-Q . S2P
Prelude.v
Bytes.v
CString.v
KState.v
KList.v
Spinlock.v
SpinlockSMP.v
Kernel.v
Csr.v
Riscv.v
Machine.v
Kalloc.v
Vm.v
PageTable.v
Uvm.v
Uvmcopy.v
PageFree.v
AddressSpace.v
Sched.v
Console.v
ConsoleProof.v
Virtio.v
Disk.v
Bio.v
Cache.v
Log.v
Commit.v
Transaction.v
VirtioRefine.v
Crash.v
Fs.v
Tx.v
Balloc.v
Dinode.v
Inode.v
FileIO.v
Atomic.v
FileSystem.v
Icache.v
Dir.v
DirProof.v
Tree.v
Pipe.v
PipeProof.v
File.v
Proc.v
ProcMem.v
UserRead.v
Process.v
Wait.v
Lifecycle.v
Exec.v
Sysfile.v
Link.v
PathNames.v
Syscall.v
Trap.v
Boot.v
Asm.v
AsmProof.v
User.v
Ulib.v
Umalloc.v
Grep.v
Utils.v
Shell.v
Tools.v
ShellParse.v
ShellRun.v
Nsh.v
Buddy.v
BuddyMem.v
BuddyProof.v
BuddyInit.v
BuddyClient.v
Mkfs.v
MkfsProof.v
