(* ===== verification/Prelude.v ===== *)
(** * Mushroom OS (xv6-riscv): a verification library

    Mushroom OS is a teaching kernel for RISC-V multiprocessors: processes
    with Sv39 address spaces, a scheduler, spin locks and sleep locks, a
    virtio disk with a buffer cache, a write-ahead log and a Unix file system
    on top of it, pipes, a console, system calls, a small set of user programs
    with a shell, and mkfs, the host program that writes the disk image.  The
    C functions are translated into Gallina functions that keep their names;
    the theorems are about these functions.

    ** How C becomes Gallina

    - Integers are [Z]; [u8], [u16], [u32], [u64], [s16], [s32] are the
      conversions the compiler inserts (Prelude).  Physical memory, disk
      blocks and buffers are byte stores with little-endian loads and stores
      (Bytes); string.c is CString.
    - Kernel code is a computation [M St A] (Prelude): it returns ([Ok]),
      panics ([Panic]), gives up the CPU in sched() and can be resumed on the
      state the scheduler finds later ([Swtch]), or never returns ([Stuck]).
      [run] and [runE E] are total-correctness postconditions: the code
      returns, in [runE] whatever states related by the environment [E] it is
      resumed on.  C loops are [loop], with fuel computed from the data, and
      the theorems show that the fuel is enough ([run_loop], [runE_loop] ask
      for a measure below it).
    - [KState.kstate] is the record of all static variables, one record per
      struct.  A pointer into a static table is an index, a pointer to a page
      from kalloc is an address, and page tables, free pages and user memory
      are bytes in [mm].
    - A user program is a tree of system calls ([User.prog]); the reply of a
      read is any non-empty part of the input that is left.

    ** The kernel, bottom up

    - Locks: Spinlock (spinlock.c on one hart), Kernel (the view [owns] of the
      locks a hart holds), SpinlockSMP (acquire and release interleaved on
      several harts, one memory access at a time: mutual exclusion, interrupts
      restored, every waiting hart can get the lock).
    - Memory: Riscv (riscv.h, memlayout.h), Kalloc (kalloc.c), Vm (vm.c),
      PageTable (Sv39 tables in memory as mappings), Uvm and Uvmcopy (user
      address spaces and the pages they own), PageFree (freewalk, uvmfree and
      uvmcreate: every page of a page table goes back to the free list),
      AddressSpace (the theorems: mappages, uvmunmap, uvmalloc, uvmcopy,
      copyin, copyout).
    - The buddy allocator: KList (list.c, lists threaded through the free
      memory), Buddy (buddy.c), BuddyMem (the layout of its data and the
      bits and lists in memory), BuddyProof (bd_malloc and bd_free keep a
      tree of free, used and split blocks), BuddyInit (bd_init builds it),
      BuddyClient (the theorems: any sequence of calls after bd_init gets
      disjoint blocks outside the allocator's data that keep what is written
      to them; termination of firstk; the panic for memory of a power of two).
    - Assembly: Csr (the control registers of riscv.h), Asm (swtch.S,
      trampoline.S, kernelvec.S, entry.S, initcode.S and the stubs of usys.pl
      as lists of instructions, executed on a hart that translates addresses
      through the page table in satp), AsmProof (the theorems: traps from
      user space give back every register and interrupts in the kernel every
      one but tp, swtch returns to the thread that saved the context, the
      stubs reach the right entry of the table of system calls).
    - Processes: Sched (sched, sleep, wakeup, scheduler, sleep locks), Proc
      (fork, exit, wait), ProcMem (the memory of all processes: well-formed
      page tables, no page in two places; allocproc and freeproc keep it),
      Process and Wait (fork, growproc and wait, every branch), Lifecycle (the
      theorems: a child is a copy in pages of its own, wait() sleeps until it
      can reap a child and gives its pages back, growing and shrinking keep
      the bytes), Exec, Trap (trap.c, plic.c), Syscall, Sysfile, Boot
      (start.c, main.c), File (file.c), Pipe with PipeProof (pipes are
      first-in first-out, across blocking and counter overflow), Console with
      ConsoleProof (the interrupt handler is a line editor, and a process
      reads the lines that were typed, in order).
    - Disk: Virtio (virtio_disk.c) and Bio (bio.c).  [Disk.DiskEnv] is the
      interface between them; VirtioRefine discharges it for every device that
      satisfies the class [BlockDevice].  Cache relates the buffers to the
      logical contents of the disk.
    - Log: Log (log.c), Commit (write_log, install_trans, recovery and the
      crash argument), Transaction (begin_op, log_write, end_op), Crash (the
      theorems on the virtio disk: a file-system operation is atomic with
      respect to crashes).
    - Files: Fs (fs.c up to writei), Tx (blocks inside a transaction), Balloc
      (the bitmap), Dinode (the layout of inodes), Inode (bmap; a file as a
      map from offsets to bytes), FileIO (readi, writei, iupdate), Atomic and
      FileSystem (the theorems: a write is atomic with respect to crashes,
      reads return what was written, allocation), UserRead (readi to kernel
      and to user memory, on every path).
    - Names: Dir (the rest of fs.c), Icache (the table of inodes: iget, ilock,
      iunlock, iput count references and keep valid entries equal to the
      disk), DirProof (a directory as a list of entries, a path as a list of
      names; dirlookup, dirlink and namex against them), Tree (the tree of
      inodes and what changing one of them keeps), Link (sys_link inside a
      transaction, every branch), PathNames (the theorems: namei finds what
      the names lead to; link is atomic with respect to crashes and takes
      everything back when it fails).

    ** User programs and the host

    - User (user.h), Ulib (ulib.c, printf.c), Umalloc (umalloc.c: malloc and
      free keep a heap of disjoint blocks), Grep (the matcher decides the
      language of the pattern; grep prints the matching lines of an input
      whose lines fit its buffer), Utils and
      Tools (the small programs; ls lists every entry of a directory).
    - Shell (sh.c), ShellParse (the parser accepts exactly the grammar and
      always ends), ShellRun (the processes a command line starts).  Nsh
      (nsh.c) is a second, simpler shell: what it parses and how it runs a
      pipeline.
    - Mkfs (mkfs.c) and MkfsProof: the image satisfies what the theorems about
      the kernel's file system assume of a disk, and the kernel finds every
      file under its name; the tree of names is well formed unless the
      entries of the root directory fill its blocks exactly.

    ** Assumptions and bounds

    - The disk device is a parameter: [VirtioRefine.BlockDevice] states what
      the virtio specification promises.  While a process waits for the disk
      the environment runs the device, the interrupt handler and the
      scheduler, and no other process; the theorems about pipes,
      the console and wait() are for environments in which other threads use
      the pipe, type, or run and exit.
    - A crash keeps a prefix of the sequence of block writes; writing one
      block is atomic.
    - Fuel: loops over tables use the table's size, copies the byte count, the
      parser four times the length of the line plus four, malloc twice the
      number of free blocks plus three; [Sched.wait_fuel] (1024) bounds the
      retries of code that sleeps in a loop, each of which is a switch.
    - One process at a time works on the tree of names, whose inodes have
      blocks of their own and a link count other than 0: the theorems about
      names start from a state in which no operation is in progress
      ([Link.at_rest]) and end in such a state.
    - The theorems about fork and growproc are for one call from start to end
      on one hart; other threads run while wait() sleeps, and wake it only a
      bounded number of times for nothing.  fork() asks for nine free pages: with fewer, proc_pagetable() ignores that
      mappages() failed or uvmcopy() panics.
    - Machine, Crash, FileSystem, UserRead, PathNames, AddressSpace, Lifecycle,
      PipeProof and ConsoleProof hold the concrete machines on which the theorems are
      instantiated.

    ** Not modelled

    - TLB and memory-ordering effects.  The C code sees a switch as the
      continuation of [Swtch]; that swtch.S saves and restores what this needs
      is a theorem of AsmProof.
    - The test programs of user/ (usertests.c, testsh.c, stressfs.c and the
      like): fixed sequences of system calls that compare replies with
      expected values.
    - The bodies of the threads of uthread.c, which never run because the
      switch of stacks is missing there.
    - ramdisk.c, which is not part of the build, kernel.ld (its symbols are
      [KState.linkmap]) and the declarations of defs.h. *)

From Stdlib Require Export ZArith Lia.
From stdpp Require Export base tactics option numbers strings list list_numbers gmap.

#[global] Open Scope Z_scope.

(** ** Machine integers

    A C integer is a [Z]; the functions below are the conversions the
    compiler inserts when a value is stored in an object of that type. *)

Definition u8 (x : Z) : Z := x mod 2 ^ 8.
Definition u16 (x : Z) : Z := x mod 2 ^ 16.
Definition u32 (x : Z) : Z := x mod 2 ^ 32.
Definition u64 (x : Z) : Z := x mod 2 ^ 64.
Definition s16 (x : Z) : Z := (x + 2 ^ 15) mod 2 ^ 16 - 2 ^ 15.
Definition s32 (x : Z) : Z := (x + 2 ^ 31) mod 2 ^ 32 - 2 ^ 31.

(** ** Outcomes of kernel code

    Running a C function from a state ends in one of four ways: it returns,
    it calls [panic], it gives up the CPU inside [sched] (and can be resumed
    on the state the scheduler finds later), or it never returns (a spin on a
    lock another hart holds, or a loop whose fuel is exhausted). *)

Inductive outcome (St A : Type) : Type :=
| Ok (a : A) (s : St)
| Panic (msg : string)
| Swtch (s : St) (k : St -> outcome St A)
| Stuck (why : string).
Arguments Ok {St A} a s.
Arguments Panic {St A} msg.
Arguments Swtch {St A} s k.
Arguments Stuck {St A} why.

Definition M (St A : Type) : Type := St -> outcome St A.

Section monad.
Context {St : Type}.

Definition ret {A} (a : A) : M St A := fun s => Ok a s.

Fixpoint bind_outcome {A B} (o : outcome St A) (f : A -> M St B) : outcome St B :=
  match o with
  | Ok a s => f a s
  | Panic msg => Panic msg
  | Swtch s k => Swtch s (fun s' => bind_outcome (k s') f)
  | Stuck why => Stuck why
  end.

Definition bind {A B} (m : M St A) (f : A -> M St B) : M St B :=
  fun s => bind_outcome (m s) f.

Definition gets {A} (f : St -> A) : M St A := fun s => Ok (f s) s.
Definition modify (f : St -> St) : M St unit := fun s => Ok tt (f s).
Definition panic {A} (msg : string) : M St A := fun _ => Panic msg.
Definition stuck {A} (why : string) : M St A := fun _ => Stuck why.
Definition when (b : bool) (m : M St unit) : M St unit := if b then m else ret tt.
(** The context switch: the caller stops here and continues on whatever
    state it is resumed with. *)
Definition swtch : M St unit := fun s => Swtch s (fun s' => Ok tt s').
End monad.

Declare Scope c_scope.
Delimit Scope c_scope with c.
Notation "x <- m ;; k" := (bind m (fun x => k))
  (at level 100, m at next level, right associativity) : c_scope.
Notation "m ;; k" := (bind m (fun _ => k))
  (at level 100, right associativity) : c_scope.
#[global] Open Scope c_scope.

(** ** Loops

    [loop] is the general C loop: the body returns [inl x] to continue with
    the loop variables [x], or [inr r] to leave the loop with [r].
    [for_each] is the loop over the elements of a fixed sequence; its body
    returns [Some r] for [break]/[return]/[goto]. *)

Section loops.
Context {St : Type}.

Fixpoint loop {X R} (fuel : nat) (body : X -> M St (X + R)) (x : X) : M St R :=
  match fuel with
  | O => stuck "fuel"
  | S n =>
      r <- body x ;;
      match r with
      | inl x' => loop n body x'
      | inr r => ret r
      end
  end.

Fixpoint for_each {X R} (l : list X) (body : X -> M St (option R)) : M St (option R) :=
  match l with
  | [] => ret None
  | x :: l' =>
      r <- body x ;;
      match r with
      | Some r => ret (Some r)
      | None => for_each l' body
      end
  end.

(** A loop with no early exit. *)
Fixpoint iter_each {X} (l : list X) (body : X -> M St unit) : M St unit :=
  match l with
  | [] => ret tt
  | x :: l' => body x ;; iter_each l' body
  end.
End loops.

(** ** Total-correctness postconditions

    [run m s Q]: from [s], [m] returns (no panic, no context switch, no
    exhausted fuel) with a result and a state that satisfy [Q]. *)

Definition run {St A} (m : M St A) (s : St) (Q : A -> St -> Prop) : Prop :=
  match m s with
  | Ok a s' => Q a s'
  | _ => False
  end.

Section run_rules.
Context {St : Type}.
Implicit Types s : St.

Lemma run_ret {A} (a : A) s Q : run (ret a) s Q <-> Q a s.
Proof. done. Qed.

Lemma run_gets {A} (f : St -> A) s Q : run (gets f) s Q <-> Q (f s) s.
Proof. done. Qed.

Lemma run_modify (f : St -> St) s Q : run (modify f) s Q <-> Q tt (f s).
Proof. done. Qed.

Lemma run_bind {A B} (m : M St A) (f : A -> M St B) s Q :
  run (bind m f) s Q <-> run m s (fun a s' => run (f a) s' Q).
Proof. unfold run, bind. by destruct (m s). Qed.

Lemma run_mono {A} (m : M St A) s (Q Q' : A -> St -> Prop) :
  run m s Q -> (forall a s', Q a s' -> Q' a s') -> run m s Q'.
Proof. unfold run. destruct (m s); naive_solver. Qed.

Lemma run_eq {A} (m : M St A) s Q :
  run m s Q <-> exists a s', m s = Ok a s' /\ Q a s'.
Proof.
  unfold run. destruct (m s) as [a0 s0| | |]; split; try done.
  - intros HQ. by exists a0, s0.
  - intros (a1 & s1 & [= <- <-] & HQ). done.
  - by intros (a1 & s1 & ? & _).
  - by intros (a1 & s1 & ? & _).
  - by intros (a1 & s1 & ? & _).
Qed.

Lemma bind_ok {A B} (m : M St A) (f : A -> M St B) s a s' :
  m s = Ok a s' -> bind m f s = f a s'.
Proof. unfold bind. by intros ->. Qed.

Lemma bind_panic {A B} (m : M St A) (f : A -> M St B) s msg :
  m s = Panic msg -> bind m f s = Panic msg.
Proof. unfold bind. by intros ->. Qed.

Lemma run_when b (m : M St unit) s Q :
  run (when b m) s Q <-> if b then run m s Q else Q tt s.
Proof. by destruct b. Qed.

(** Loop rules: an invariant indexed by the elements already visited. *)
Lemma run_iter_each {X} (l : list X) (body : X -> M St unit) s
    (I : list X -> St -> Prop) (Q : unit -> St -> Prop) :
  I [] s ->
  (forall pre x post s', l = pre ++ x :: post -> I pre s' ->
     run (body x) s' (fun _ s'' => I (pre ++ [x]) s'')) ->
  (forall s', I l s' -> Q tt s') ->
  run (iter_each l body) s Q.
Proof.
  intros H0 Hstep HQ.
  assert (forall post pre s', l = pre ++ post -> I pre s' ->
            run (iter_each post body) s' Q) as Hgen.
  { induction post as [|x post IH]; intros pre s' Hl HI; simpl.
    - apply HQ. by rewrite Hl, app_nil_r.
    - apply run_bind. eapply run_mono; [by eapply Hstep|].
      intros ? s'' HI'. eapply (IH (pre ++ [x])); [|done].
      by rewrite <-app_assoc. }
  by eapply (Hgen l []).
Qed.

Lemma run_for_each {X R} (l : list X) (body : X -> M St (option R)) s
    (I : list X -> St -> Prop) (Q : option R -> St -> Prop) :
  I [] s ->
  (forall pre x post s', l = pre ++ x :: post -> I pre s' ->
     run (body x) s' (fun r s'' =>
       match r with Some _ => Q r s'' | None => I (pre ++ [x]) s'' end)) ->
  (forall s', I l s' -> Q None s') ->
  run (for_each l body) s Q.
Proof.
  intros H0 Hstep HQ.
  assert (forall post pre s', l = pre ++ post -> I pre s' ->
            run (for_each post body) s' Q) as Hgen.
  { induction post as [|x post IH]; intros pre s' Hl HI; simpl.
    - apply HQ. by rewrite Hl, app_nil_r.
    - apply run_bind. eapply run_mono; [by eapply Hstep|].
      intros [rr|] s'' HI'; [done|]. eapply (IH (pre ++ [x])); [|done].
      by rewrite <-app_assoc. }
  by eapply (Hgen l []).
Qed.

(** A loop returns when a measure bounded by the fuel decreases. *)
Lemma run_loop {X R} (body : X -> M St (X + R)) (I : X -> St -> Prop)
    (measure : X -> St -> nat) (Q : R -> St -> Prop) :
  (forall x s, I x s ->
     run (body x) s (fun r s' =>
       match r with
       | inl x' => I x' s' /\ (measure x' s' < measure x s)%nat
       | inr r => Q r s'
       end)) ->
  forall fuel x s, I x s -> (measure x s < fuel)%nat -> run (loop fuel body x) s Q.
Proof.
  intros Hstep. induction fuel as [|fuel IH]; intros x s HI Hm; [lia|].
  simpl. apply run_bind. eapply run_mono; [by apply Hstep|].
  intros [x'|r] s'; simpl; [|done]. intros [HI' Hlt]. apply IH; [done|lia].
Qed.
End run_rules.

(** ** Postconditions of code that may give up the CPU

    [runE E m s Q] is [run] in an environment [E]: where [m] switches to the
    scheduler in state [s'], some state related to it by [E] exists in which
    it is resumed, and from every such state it goes on to return with [Q]. *)

Fixpoint outcomeE {St A} (E : St -> St -> Prop) (o : outcome St A) (Q : A -> St -> Prop) : Prop :=
  match o with
  | Ok a s => Q a s
  | Swtch s k => (exists s', E s s') /\ forall s', E s s' -> outcomeE E (k s') Q
  | _ => False
  end.

Definition runE {St A} (E : St -> St -> Prop) (m : M St A) (s : St) (Q : A -> St -> Prop) : Prop :=
  outcomeE E (m s) Q.

Section runE_rules.
Context {St : Type} (E : St -> St -> Prop).
Implicit Types s : St.

Lemma run_runE {A} (m : M St A) s Q : run m s Q -> runE E m s Q.
Proof. unfold run, runE. by destruct (m s). Qed.

Lemma outcomeE_mono {A} (o : outcome St A) (Q Q' : A -> St -> Prop) :
  outcomeE E o Q -> (forall a s', Q a s' -> Q' a s') -> outcomeE E o Q'.
Proof.
  induction o as [a s|msg|s k IH|why]; cbn; [naive_solver|done| |done].
  intros [Hex Hk] HQ. split; [done|]. intros s' HE. by apply IH; [apply Hk|].
Qed.

Lemma runE_mono {A} (m : M St A) s (Q Q' : A -> St -> Prop) :
  runE E m s Q -> (forall a s', Q a s' -> Q' a s') -> runE E m s Q'.
Proof. apply outcomeE_mono. Qed.

Lemma runE_bind {A B} (m : M St A) (f : A -> M St B) s Q :
  runE E m s (fun a s' => runE E (f a) s' Q) -> runE E (bind m f) s Q.
Proof.
  unfold runE, bind. induction (m s) as [a s1|msg|s1 k IH|why]; cbn; [done|done| |done].
  intros [Hex Hk]. split; [done|]. intros s' HE. by apply IH, Hk.
Qed.

Lemma runE_ret {A} (a : A) s (Q : A -> St -> Prop) : Q a s -> runE E (ret a) s Q.
Proof. done. Qed.
Lemma runE_gets {A} (f : St -> A) s (Q : A -> St -> Prop) : Q (f s) s -> runE E (gets f) s Q.
Proof. done. Qed.
Lemma runE_modify (f : St -> St) s (Q : unit -> St -> Prop) : Q tt (f s) -> runE E (modify f) s Q.
Proof. done. Qed.
Lemma runE_when (b : bool) (m : M St unit) s (Q : unit -> St -> Prop) :
  (if b then runE E m s Q else Q tt s) -> runE E (when b m) s Q.
Proof. by destruct b. Qed.

Lemma runE_iter_each {X} (l : list X) (body : X -> M St unit) s
    (I : list X -> St -> Prop) (Q : unit -> St -> Prop) :
  I [] s ->
  (forall pre x post s', l = pre ++ x :: post -> I pre s' ->
     runE E (body x) s' (fun _ s'' => I (pre ++ [x]) s'')) ->
  (forall s', I l s' -> Q tt s') ->
  runE E (iter_each l body) s Q.
Proof.
  intros H0 Hstep HQ.
  assert (forall post pre s', l = pre ++ post -> I pre s' ->
            runE E (iter_each post body) s' Q) as Hgen.
  { induction post as [|x post IH]; intros pre s' Hl HI; simpl.
    - apply HQ. by rewrite Hl, app_nil_r.
    - apply runE_bind. eapply runE_mono; [by eapply Hstep|].
      intros ? s'' HI'. eapply (IH (pre ++ [x])); [|done].
      by rewrite <-app_assoc. }
  by eapply (Hgen l []).
Qed.

(** A counted loop, [for(i = 0; i < n; i++)]. *)
Lemma runE_seqZ (n : Z) (body : Z -> M St unit) s (I : nat -> St -> Prop) (Q : unit -> St -> Prop) :
  I 0%nat s ->
  (forall i s', Z.of_nat i < n -> I i s' -> runE E (body (Z.of_nat i)) s' (fun _ => I (S i))) ->
  (forall s', I (Z.to_nat n) s' -> Q tt s') ->
  runE E (iter_each (seqZ 0 n) body) s Q.
Proof.
  intros H0 Hstep HQ.
  eapply (runE_iter_each _ _ _ (fun pre => I (length pre))); [done| |].
  - intros pre x post s' Hl HI. rewrite length_app, Nat.add_comm. cbn.
    assert (Hx : seqZ 0 n !! length pre = Some x) by (rewrite Hl; by apply list_lookup_middle).
    apply lookup_seqZ in Hx as [-> Hlt]. by apply Hstep.
  - intros s'. rewrite length_seqZ. apply HQ.
Qed.

Lemma runE_loop {X R} (body : X -> M St (X + R)) (I : X -> St -> Prop)
    (measure : X -> St -> nat) (Q : R -> St -> Prop) :
  (forall x s, I x s ->
     runE E (body x) s (fun r s' =>
       match r with
       | inl x' => I x' s' /\ (measure x' s' < measure x s)%nat
       | inr r => Q r s'
       end)) ->
  forall fuel x s, I x s -> (measure x s < fuel)%nat -> runE E (loop fuel body x) s Q.
Proof.
  intros Hstep. induction fuel as [|fuel IH]; intros x s HI Hm; [lia|].
  simpl. apply runE_bind. eapply runE_mono; [by apply Hstep|].
  intros [x'|r] s'; simpl; [|done]. intros [HI' Hlt]. apply IH; [done|lia].
Qed.
End runE_rules.

(** ** Proof automation shared by the components *)

Create HintDb kernel.
Create Rewrite HintDb kernel.

(** Symbolic execution of straight-line code under [run]. *)
Ltac wp_step :=
  match goal with
  | |- run (bind _ _) _ _ => apply run_bind
  | |- run (ret _) _ _ => apply run_ret
  | |- run (gets _) _ _ => apply run_gets
  | |- run (modify _) _ _ => apply run_modify
  | |- run (when _ _) _ _ => apply run_when
  | |- runE _ (bind _ _) _ _ => apply runE_bind
  | |- runE _ (ret _) _ _ => apply runE_ret
  | |- runE _ (gets _) _ _ => apply runE_gets
  | |- runE _ (modify _) _ _ => apply runE_modify
  | |- runE _ (when _ _) _ _ => apply runE_when
  end; cbv beta.
Ltac wp := repeat wp_step.

(** Boolean tests of the code against the hypotheses about them. *)
Ltac case_test :=
  match goal with
  | |- context [if ?b then _ else _] =>
      lazymatch b with
      | Z.eqb ?x ?y => destruct (Z.eqb_spec x y)
      | Z.ltb ?x ?y => destruct (Z.ltb_spec x y)
      | Z.leb ?x ?y => destruct (Z.leb_spec x y)
      | Nat.eqb ?x ?y => destruct (Nat.eqb_spec x y)
      | Nat.ltb ?x ?y => destruct (Nat.ltb_spec x y)
      | bool_decide _ => destruct b eqn:?
      | _ => destruct b eqn:?
      end
  end.

(** ** Generic lemmas on integers, lists and options *)

Lemma u8_range x : 0 <= u8 x < 256.
Proof. unfold u8. apply Z.mod_pos_bound. lia. Qed.
Lemma u8_small x : 0 <= x < 256 -> u8 x = x.
Proof. intros H. unfold u8. by apply Z.mod_small. Qed.
Lemma u32_range x : 0 <= u32 x < 2 ^ 32.
Proof. unfold u32. apply Z.mod_pos_bound. lia. Qed.
Lemma u64_range x : 0 <= u64 x < 2 ^ 64.
Proof. unfold u64. apply Z.mod_pos_bound. lia. Qed.
Lemma u32_small x : 0 <= x < 2 ^ 32 -> u32 x = x.
Proof. intros. unfold u32. by apply Z.mod_small. Qed.
Lemma u64_small x : 0 <= x < 2 ^ 64 -> u64 x = x.
Proof. intros. unfold u64. by apply Z.mod_small. Qed.
Lemma s32_small x : - 2 ^ 31 <= x < 2 ^ 31 -> s32 x = x.
Proof. intros. unfold s32. rewrite Z.mod_small; lia. Qed.
Lemma s32_range x : - 2 ^ 31 <= s32 x < 2 ^ 31.
Proof. unfold s32. pose proof (Z.mod_pos_bound (x + 2 ^ 31) (2 ^ 32)). lia. Qed.

Lemma s32_add x y : s32 (s32 x + y) = s32 (x + y).
Proof. unfold s32. f_equal. replace ((x + 2 ^ 31) mod 2 ^ 32 - 2 ^ 31 + y + 2 ^ 31) with ((x + 2 ^ 31) mod 2 ^ 32 + y) by lia. rewrite Z.add_mod_idemp_l by lia. f_equal. lia. Qed.

Lemma u32_u32 x : u32 (u32 x) = u32 x.
Proof. unfold u32. by rewrite Z.mod_mod. Qed.
Lemma u32_s32 x : u32 (s32 x) = u32 x.
Proof.
  unfold u32, s32. rewrite Zminus_mod, Z.mod_mod, <-Zminus_mod by done. by rewrite Z.add_simpl_r.
Qed.

Lemma list_filter_ext_in {A} (P Q : A -> Prop) `{!forall x, Decision (P x), !forall x, Decision (Q x)} (l : list A) :
  (forall x, x ∈ l -> P x <-> Q x) -> filter P l = filter Q l.
Proof.
  induction l as [|x l IH]; intros Hiff; [done|]. rewrite !filter_cons. rewrite IH by (intros y Hy; apply Hiff, elem_of_cons; by right).
  destruct (decide (P x)) as [HP|HP], (decide (Q x)) as [HQ|HQ]; try done; exfalso; [apply HQ|apply HP]; apply (Hiff x); try done; apply elem_of_cons; by left.
Qed.

#[export] Hint Resolve u8_range u32_range u64_range s32_range : kernel.
#[export] Hint Rewrite u32_small u64_small s32_small using lia : kernel.
