(* ===== verification/Bytes.v ===== *)
(** * Byte-addressed stores

    Physical memory, disk blocks and on-stack buffers are all arrays of
    bytes that the C code reads and writes through casts to 16-, 32- and
    64-bit objects.  [ByteStore] is the interface such an array offers;
    little-endian loads and stores are defined once against it, with the
    round-trip and disjointness lemmas the components rely on.  Physical
    memory ([gmap Z Z]) and fixed buffers ([list Z]) are its instances. *)

From S2P Require Import Prelude.

Class ByteStore (B : Type) := {
  valid_at : B -> Z -> Prop;
  getb : B -> Z -> Z;
  setb : B -> Z -> Z -> B;
  getb_range : forall m a, 0 <= getb m a < 256;
  getb_setb_eq : forall m a v, valid_at m a -> getb (setb m a v) a = u8 v;
  getb_setb_ne : forall m a b v, a <> b -> getb (setb m a v) b = getb m b;
  valid_setb : forall m a v b, valid_at (setb m a v) b <-> valid_at m b
}.

(** Physical memory: a finite map from addresses to bytes, zero where nothing
    was written (QEMU hands the kernel zeroed RAM). *)
Abbreviation mem := (gmap Z Z).

Definition mem_getb (m : mem) (a : Z) : Z := u8 (default 0 (m !! a)).
Definition mem_setb (m : mem) (a v : Z) : mem := <[a := u8 v]> m.

#[export] Instance mem_store : ByteStore mem.
Proof.
  refine {| valid_at _ _ := True; getb := mem_getb; setb := mem_setb |};
    unfold mem_getb, mem_setb.
  - intros. apply u8_range.
  - intros m a v _. rewrite lookup_insert_eq. simpl. unfold u8. by rewrite Z.mod_mod.
  - intros. by rewrite lookup_insert_ne.
  - done.
Defined.

(** A fixed buffer: [unsigned char buf[n]]; writes out of its range are not
    representable, so they are excluded by [valid_at]. *)
Definition list_getb (l : list Z) (a : Z) : Z :=
  if a <? 0 then 0 else u8 (default 0 (l !! Z.to_nat a)).
Definition list_setb (l : list Z) (a v : Z) : list Z :=
  if a <? 0 then l else <[Z.to_nat a := u8 v]> l.

#[export] Instance list_store : ByteStore (list Z).
Proof.
  refine {| valid_at l a := 0 <= a < Z.of_nat (length l);
            getb := list_getb; setb := list_setb |}; unfold list_getb, list_setb.
  - intros l a. case_test; [lia|]. apply u8_range.
  - intros l a v [??]. destruct (Z.ltb_spec a 0); [lia|].
    rewrite list_lookup_insert_eq by lia. simpl. unfold u8. by rewrite Z.mod_mod.
  - intros l a b v Hne. destruct (Z.ltb_spec a 0), (Z.ltb_spec b 0); try done.
    rewrite list_lookup_insert_ne by lia. done.
  - intros l a v b. destruct (Z.ltb_spec a 0); [done|]. by rewrite length_insert.
Defined.

Section loads_and_stores.
Context {B : Type} `{!ByteStore B}.
Implicit Types m : B.

Definition valid_range m (a n : Z) : Prop :=
  forall b, a <= b < a + n -> valid_at m b.

Fixpoint ldn (n : nat) m (a : Z) : Z :=
  match n with
  | O => 0
  | S n' => getb m a + 256 * ldn n' m (a + 1)
  end.

Fixpoint stn (n : nat) m (a v : Z) : B :=
  match n with
  | O => m
  | S n' => stn n' (setb m a v) (a + 1) (v / 256)
  end.

Definition ld16 m a := ldn 2 m a.
Definition ld32 m a := ldn 4 m a.
Definition ld64 m a := ldn 8 m a.
Definition st16 m a v := stn 2 m a v.
Definition st32 m a v := stn 4 m a v.
Definition st64 m a v := stn 8 m a v.

(** The bytes [a, a+n) as a list, and writing a list of bytes at [a]. *)
Fixpoint get_bytes (n : nat) m (a : Z) : list Z :=
  match n with
  | O => []
  | S n' => getb m a :: get_bytes n' m (a + 1)
  end.

Fixpoint set_bytes m (a : Z) (bs : list Z) : B :=
  match bs with
  | [] => m
  | b :: bs' => set_bytes (setb m a b) (a + 1) bs'
  end.

Lemma valid_range_setb m a n b v :
  valid_range m a n -> valid_range (setb m b v) a n.
Proof. intros H c Hc. apply valid_setb. by apply H. Qed.

Lemma valid_range_sub m a n a' n' :
  valid_range m a n -> a <= a' -> a' + n' <= a + n -> valid_range m a' n'.
Proof. intros H ?? c ?. apply H. lia. Qed.

Lemma valid_stn n : forall m a v b, valid_at (stn n m a v) b <-> valid_at m b.
Proof.
  induction n as [|n IH]; intros; simpl; [done|]. rewrite IH. apply valid_setb.
Qed.

Lemma valid_set_bytes bs : forall m a b, valid_at (set_bytes m a bs) b <-> valid_at m b.
Proof.
  induction bs as [|x bs IH]; intros; simpl; [done|]. rewrite IH. apply valid_setb.
Qed.

Lemma getb_stn_ne n : forall m a v b,
  b < a \/ a + Z.of_nat n <= b -> getb (stn n m a v) b = getb m b.
Proof.
  induction n as [|n IH]; intros m a v b Hb; simpl; [done|].
  rewrite IH by lia. apply getb_setb_ne. lia.
Qed.

Lemma ldn_ext n : forall m m' a,
  (forall b, a <= b < a + Z.of_nat n -> getb m b = getb m' b) ->
  ldn n m a = ldn n m' a.
Proof.
  induction n as [|n IH]; intros m m' a H; simpl; [done|].
  rewrite (H a) by lia. rewrite (IH m m' (a + 1)); [done|].
  intros b Hb. apply H. lia.
Qed.

Lemma ldn_range n : forall m a, 0 <= ldn n m a < 2 ^ (8 * Z.of_nat n).
Proof.
  induction n as [|n IH]; intros m a; [simpl; lia|].
  cbn [ldn]. pose proof (getb_range m a). specialize (IH m (a + 1)).
  rewrite Nat2Z.inj_succ, Z.mul_succ_r, Z.pow_add_r by lia.
  change (2 ^ 8) with 256. lia.
Qed.

(** Store then load: the value truncated to the object's width. *)
Lemma ldn_stn_eq n : forall m a v,
  valid_range m a (Z.of_nat n) ->
  ldn n (stn n m a v) a = v mod 2 ^ (8 * Z.of_nat n).
Proof.
  induction n as [|n IH]; intros m a v Hv.
  - simpl. by rewrite Z.mod_1_r.
  - cbn [ldn stn].
    rewrite getb_stn_ne by lia.
    rewrite getb_setb_eq by (apply Hv; lia).
    rewrite IH.
    2: { apply valid_range_setb. eapply valid_range_sub; [exact Hv| |]; lia. }
    rewrite Nat2Z.inj_succ, Z.mul_succ_r, (Z.add_comm _ 8), Z.pow_add_r by lia.
    change (2 ^ 8) with 256 in *. unfold u8. change (2 ^ 8) with 256.
    rewrite Z.rem_mul_r; lia.
Qed.

Lemma ldn_stn_ne n k m a b v :
  b + Z.of_nat k <= a \/ a + Z.of_nat n <= b ->
  ldn k (stn n m a v) b = ldn k m b.
Proof. intros H. apply ldn_ext. intros c Hc. apply getb_stn_ne. lia. Qed.

Lemma ldn_S n m a : ldn (S n) m a = getb m a + 256 * ldn n m (a + 1).
Proof. done. Qed.

Lemma length_get_bytes n : forall m a, length (get_bytes n m a) = n.
Proof. induction n; intros; simpl; congruence. Qed.

Lemma lookup_get_bytes n : forall m a i,
  (i < n)%nat -> get_bytes n m a !! i = Some (getb m (a + Z.of_nat i)).
Proof.
  induction n as [|n IH]; intros m a [|i] Hi; simpl; try lia.
  - by rewrite Z.add_0_r.
  - rewrite IH by lia. do 2 f_equal. lia.
Qed.

Lemma get_bytes_ext n m m' a a' :
  (forall i, 0 <= i < Z.of_nat n -> getb m (a + i) = getb m' (a' + i)) ->
  get_bytes n m a = get_bytes n m' a'.
Proof.
  intros H. apply list_eq_same_length with (n := n); rewrite ?length_get_bytes; try done.
  intros i x y Hi. rewrite !lookup_get_bytes by done.
  rewrite H by lia. congruence.
Qed.

Lemma getb_set_bytes bs : forall m a b,
  valid_range m a (Z.of_nat (length bs)) ->
  getb (set_bytes m a bs) b =
    if bool_decide (a <= b < a + Z.of_nat (length bs))
    then u8 (default 0 (bs !! Z.to_nat (b - a))) else getb m b.
Proof.
  induction bs as [|x bs IH]; intros m a b Hv; cbn [set_bytes length] in *.
  - case_bool_decide; [lia|done].
  - rewrite IH.
    2: { apply valid_range_setb. eapply valid_range_sub; [exact Hv| |]; lia. }
    destruct (decide (b = a)) as [->|Hne].
    + rewrite bool_decide_eq_false_2, bool_decide_eq_true_2 by lia.
      rewrite Z.sub_diag. simpl. apply getb_setb_eq. apply Hv. lia.
    + rewrite getb_setb_ne by done.
      repeat case_bool_decide; try lia; try done.
      replace (Z.to_nat (b - a)) with (S (Z.to_nat (b - (a + 1)))) by lia. done.
Qed.

Lemma get_set_bytes bs m a :
  valid_range m a (Z.of_nat (length bs)) ->
  Forall (fun b => 0 <= b < 256) bs ->
  get_bytes (length bs) (set_bytes m a bs) a = bs.
Proof.
  intros Hv Hb. apply list_eq_same_length with (n := length bs);
    rewrite ?length_get_bytes; try done.
  intros i x y Hi. rewrite lookup_get_bytes by done.
  rewrite getb_set_bytes by done. rewrite bool_decide_eq_true_2 by lia.
  replace (Z.to_nat (a + Z.of_nat i - a)) with i by lia.
  intros [= <-] Hy. rewrite Hy. simpl. eapply Forall_lookup_1 in Hb; [|exact Hy].
  unfold u8. rewrite Z.mod_small; [done|]. change (2 ^ 8) with 256. lia.
Qed.
End loads_and_stores.

Arguments ldn {B _} n m a : simpl never.
Arguments stn {B _} n m a v : simpl never.
#[export] Hint Resolve valid_range_setb : kernel.
