(* ===== verification/CString.v ===== *)
(** * Memory and string primitives (kernel/string.c)

    Each function is translated loop for loop over a [ByteStore]; pointers
    are addresses in the store, and a C [while] over a counter becomes a
    recursion on the remaining count.  The theorems give the contents of
    every byte after the call, overlapping [memmove] included. *)

From S2P Require Import Prelude Bytes.

Module CString.

Section ops.
Context {B : Type} `{!ByteStore B}.
Implicit Types m : B.

(** [for(i = 0; i < n; i++) cdst[i] = c;] *)
Fixpoint memset_loop (k : nat) m (cdst i c : Z) : B :=
  match k with
  | O => m
  | S k' => memset_loop k' (setb m (cdst + i) c) cdst (i + 1) c
  end.

Definition memset m (dst c n : Z) : B := memset_loop (Z.to_nat n) m dst 0 c.

(** [while(n-- > 0) *d++ = *s++;] *)
Fixpoint copy_up (k : nat) m (d s : Z) : B :=
  match k with
  | O => m
  | S k' => copy_up k' (setb m d (getb m s)) (d + 1) (s + 1)
  end.

(** [while(n-- > 0) *--d = *--s;] *)
Fixpoint copy_down (k : nat) m (d s : Z) : B :=
  match k with
  | O => m
  | S k' => copy_down k' (setb m (d - 1) (getb m (s - 1))) (d - 1) (s - 1)
  end.

Definition memmove m (dst src n : Z) : B :=
  if (src <? dst) && (dst <? src + n)
  then copy_down (Z.to_nat n) m (dst + n) (src + n)
  else copy_up (Z.to_nat n) m dst src.

Definition memcpy m (dst src n : Z) : B := memmove m dst src n.

(** [while(n-- > 0) *s++ = 0;] *)
Fixpoint zero_fill (k : nat) m (s : Z) : B :=
  match k with
  | O => m
  | S k' => zero_fill k' (setb m s 0) (s + 1)
  end.

(** [for(n = 0; s[n]; n++);] with [fuel] the number of bytes the caller's
    buffer can hold; [None] when no NUL is found in them. *)
Fixpoint strlen_loop (fuel : nat) m (s n : Z) : option Z :=
  match fuel with
  | O => None
  | S fuel' =>
      if getb m (s + n) =? 0 then Some n else strlen_loop fuel' m s (n + 1)
  end.

Definition strlen (fuel : nat) m (s : Z) : option Z := strlen_loop fuel m s 0.
End ops.

(** The copies of C strings: [s] is in one object, [t] in another. *)
Section string_copies.
Context {B B2 : Type} `{!ByteStore B, !ByteStore B2}.
Implicit Types m : B.

(** [while(n-- > 0 && ( *s++ = *t++ ) != 0); while(n-- > 0) *s++ = 0;] *)
Fixpoint strncpy_loop (k : nat) m (mt : B2) (s t : Z) : B :=
  match k with
  | O => m
  | S k' =>
      let m := setb m s (getb mt t) in
      if getb mt t =? 0 then zero_fill k' m (s + 1)
      else strncpy_loop k' m mt (s + 1) (t + 1)
  end.

Definition strncpy m (mt : B2) (s t n : Z) : B := strncpy_loop (Z.to_nat n) m mt s t.

(** [while(--n > 0 && ( *s++ = *t++ ) != 0); *s = 0;]; [k] is [n - 1]. *)
Fixpoint safestrcpy_loop (k : nat) m (mt : B2) (s t : Z) : B :=
  match k with
  | O => setb m s 0
  | S k' =>
      let m := setb m s (getb mt t) in
      if getb mt t =? 0 then setb m (s + 1) 0
      else safestrcpy_loop k' m mt (s + 1) (t + 1)
  end.

Definition safestrcpy m (mt : B2) (s t n : Z) : B :=
  if n <=? 0 then m else safestrcpy_loop (Z.to_nat (n - 1)) m mt s t.
End string_copies.

Section compare.
Context {B1 B2 : Type} `{!ByteStore B1} `{!ByteStore B2}.

Fixpoint memcmp_loop (k : nat) (m1 : B1) (m2 : B2) (s1 s2 : Z) : Z :=
  match k with
  | O => 0
  | S k' =>
      if getb m1 s1 =? getb m2 s2 then memcmp_loop k' m1 m2 (s1 + 1) (s2 + 1)
      else getb m1 s1 - getb m2 s2
  end.

Definition memcmp (m1 : B1) (m2 : B2) (v1 v2 n : Z) : Z := memcmp_loop (Z.to_nat n) m1 m2 v1 v2.

(** [while(n > 0 && *p && *p == *q) n--, p++, q++;] *)
Fixpoint strncmp_loop (k : nat) (m1 : B1) (m2 : B2) (p q : Z) : Z :=
  match k with
  | O => 0
  | S k' =>
      let a := getb m1 p in let b := getb m2 q in
      if negb (a =? 0) && (a =? b) then strncmp_loop k' m1 m2 (p + 1) (q + 1)
      else a - b
  end.

Definition strncmp (m1 : B1) (m2 : B2) (p q n : Z) : Z := strncmp_loop (Z.to_nat n) m1 m2 p q.
End compare.

(** ** Contents after each operation *)

Section specs.
Context {B : Type} `{!ByteStore B}.
Implicit Types m : B.

Lemma getb_memset_loop c k : forall m dst i a,
  valid_range m (dst + i) (Z.of_nat k) ->
  getb (memset_loop k m dst i c) a =
    if bool_decide (dst + i <= a < dst + i + Z.of_nat k) then u8 c else getb m a.
Proof.
  induction k as [|k IH]; intros m dst i a Hv; cbn [memset_loop].
  - rewrite bool_decide_eq_false_2 by lia. done.
  - rewrite IH.
    2: { apply valid_range_setb. eapply valid_range_sub; [exact Hv| |]; lia. }
    destruct (decide (a = dst + i)) as [->|Hne].
    + rewrite bool_decide_eq_false_2, bool_decide_eq_true_2 by lia.
      apply getb_setb_eq, Hv. lia.
    + rewrite getb_setb_ne by done. repeat case_bool_decide; try lia; done.
Qed.

Lemma getb_memset m dst c n a :
  valid_range m dst n ->
  getb (memset m dst c n) a =
    if bool_decide (dst <= a < dst + n) then u8 c else getb m a.
Proof.
  intros Hv. unfold memset. rewrite getb_memset_loop.
  - repeat case_bool_decide; try lia; done.
  - intros b Hb. apply Hv. lia.
Qed.

Lemma valid_memset_loop c k : forall m dst i a,
  valid_at (memset_loop k m dst i c) a <-> valid_at m a.
Proof.
  induction k as [|k IH]; intros; cbn [memset_loop]; [done|]. rewrite IH. apply valid_setb.
Qed.

Lemma valid_memset m dst c n a : valid_at (memset m dst c n) a <-> valid_at m a.
Proof. apply valid_memset_loop. Qed.

(** Copying upwards is right when the destination does not start inside
    the source. *)
Lemma getb_copy_up k : forall m d s a,
  valid_range m d (Z.of_nat k) ->
  d <= s \/ s + Z.of_nat k <= d ->
  getb (copy_up k m d s) a =
    if bool_decide (d <= a < d + Z.of_nat k) then getb m (s + (a - d)) else getb m a.
Proof.
  induction k as [|k IH]; intros m d s a Hv Hd; cbn [copy_up].
  - rewrite bool_decide_eq_false_2 by lia. done.
  - rewrite IH; [| |lia].
    2: { apply valid_range_setb. eapply valid_range_sub; [exact Hv| |]; lia. }
    destruct (decide (a = d)) as [->|Hne].
    + rewrite bool_decide_eq_false_2, bool_decide_eq_true_2 by lia.
      rewrite getb_setb_eq by (apply Hv; lia). rewrite Z.sub_diag, Z.add_0_r.
      unfold u8. pose proof (getb_range m s). rewrite Z.mod_small; lia.
    + repeat case_bool_decide; try lia.
      * rewrite getb_setb_ne by lia. f_equal. lia.
      * by rewrite getb_setb_ne by lia.
Qed.

(** Copying downwards is right when the destination does not end inside
    the source. *)
Lemma getb_copy_down k : forall m d s a,
  valid_range m (d - Z.of_nat k) (Z.of_nat k) ->
  s <= d ->
  getb (copy_down k m d s) a =
    if bool_decide (d - Z.of_nat k <= a < d) then getb m (s + (a - d)) else getb m a.
Proof.
  induction k as [|k IH]; intros m d s a Hv Hd; cbn [copy_down].
  - rewrite bool_decide_eq_false_2 by lia. done.
  - rewrite IH; [| |lia].
    2: { apply valid_range_setb. eapply valid_range_sub; [exact Hv| |]; lia. }
    destruct (decide (a = d - 1)) as [->|Hne].
    + rewrite bool_decide_eq_false_2, bool_decide_eq_true_2 by lia.
      rewrite getb_setb_eq by (apply Hv; lia).
      replace (s + (d - 1 - d)) with (s - 1) by lia.
      unfold u8. pose proof (getb_range m (s - 1)). rewrite Z.mod_small; lia.
    + repeat case_bool_decide; try lia.
      * rewrite getb_setb_ne by lia. f_equal. lia.
      * by rewrite getb_setb_ne by lia.
Qed.

(** [memmove] moves the old contents of the source whatever the overlap. *)
Lemma getb_memmove m dst src n a :
  valid_range m dst n -> 0 <= n ->
  getb (memmove m dst src n) a =
    if bool_decide (dst <= a < dst + n) then getb m (src + (a - dst)) else getb m a.
Proof.
  intros Hv Hn. unfold memmove.
  destruct (Z.ltb_spec src dst), (Z.ltb_spec dst (src + n)); cbn [andb].
  - rewrite getb_copy_down; [|intros b Hb; apply Hv; lia|lia].
    repeat case_bool_decide; try lia; done || (f_equal; lia).
  - rewrite getb_copy_up; [|intros b Hb; apply Hv; lia|lia].
    repeat case_bool_decide; try lia; done.
  - rewrite getb_copy_up; [|intros b Hb; apply Hv; lia|lia].
    repeat case_bool_decide; try lia; done.
  - rewrite getb_copy_up; [|intros b Hb; apply Hv; lia|lia].
    repeat case_bool_decide; try lia; done.
Qed.

Lemma getb_zero_fill k : forall m s a,
  valid_range m s (Z.of_nat k) ->
  getb (zero_fill k m s) a =
    if bool_decide (s <= a < s + Z.of_nat k) then 0 else getb m a.
Proof.
  induction k as [|k IH]; intros m s a Hv; cbn [zero_fill].
  - rewrite bool_decide_eq_false_2 by lia. done.
  - rewrite IH.
    2: { apply valid_range_setb. eapply valid_range_sub; [exact Hv| |]; lia. }
    destruct (decide (a = s)) as [->|Hne].
    + rewrite bool_decide_eq_false_2, bool_decide_eq_true_2 by lia.
      rewrite getb_setb_eq by (apply Hv; lia). done.
    + rewrite getb_setb_ne by done. repeat case_bool_decide; try lia; done.
Qed.

(** A string of length [len] at [s]: no NUL before [len], one at [len]. *)
Definition cstr m (s len : Z) : Prop :=
  0 <= len /\ getb m (s + len) = 0 /\ forall i, 0 <= i < len -> getb m (s + i) <> 0.

Lemma strlen_loop_spec m s len : cstr m s len ->
  forall fuel n, 0 <= n <= len -> (Z.to_nat (len - n) < fuel)%nat ->
  strlen_loop fuel m s n = Some len.
Proof.
  intros (H0 & Hz & Hnz). induction fuel as [|fuel IH]; intros n Hn Hf; [lia|].
  cbn [strlen_loop]. destruct (Z.eqb_spec (getb m (s + n)) 0) as [He|He].
  - f_equal. destruct (decide (n = len)); [done|]. exfalso. apply (Hnz n); lia || done.
  - destruct (decide (n = len)) as [->|]; [done|]. apply IH; lia.
Qed.
End specs.

Section compare_specs.
Context {B1 B2 : Type} `{!ByteStore B1} `{!ByteStore B2}.

(** [strncmp] returns 0 exactly when the two arrays agree on their first
    [n] bytes, or agree up to and including a NUL within them. *)
Definition str_agree (m1 : B1) (m2 : B2) (p q : Z) (n : nat) : Prop :=
  forall i, 0 <= i < Z.of_nat n ->
    (forall j, 0 <= j < i -> getb m1 (p + j) <> 0) ->
    getb m1 (p + i) = getb m2 (q + i).

Lemma strncmp_loop_zero k : forall (m1 : B1) (m2 : B2) p q,
  strncmp_loop k m1 m2 p q = 0 <-> str_agree m1 m2 p q k.
Proof.
  induction k as [|k IH]; intros m1 m2 p q; cbn [strncmp_loop].
  - split; [intros _ i ?; lia|done].
  - destruct (Z.eqb_spec (getb m1 p) 0) as [Hz|Hz]; cbn [negb andb].
    + split.
      * intros Hd i Hi Hnz. destruct (decide (i = 0)) as [->|].
        { rewrite !Z.add_0_r. lia. }
        exfalso. apply (Hnz 0); [lia|]. by rewrite Z.add_0_r.
      * intros Ha. specialize (Ha 0 ltac:(lia)). rewrite !Z.add_0_r in Ha.
        rewrite Ha; [lia|intros; lia].
    + destruct (Z.eqb_spec (getb m1 p) (getb m2 q)) as [He|He].
      * rewrite IH. split.
        -- intros Ha i Hi Hnz. destruct (decide (i = 0)) as [->|].
           { by rewrite !Z.add_0_r. }
           specialize (Ha (i - 1) ltac:(lia)).
           replace (p + 1 + (i - 1)) with (p + i) in Ha by lia.
           replace (q + 1 + (i - 1)) with (q + i) in Ha by lia.
           apply Ha. intros j Hj.
           replace (p + 1 + j) with (p + (j + 1)) by lia. apply Hnz. lia.
        -- intros Ha i Hi Hnz. specialize (Ha (i + 1) ltac:(lia)).
           replace (p + (i + 1)) with (p + 1 + i) in Ha by lia.
           replace (q + (i + 1)) with (q + 1 + i) in Ha by lia.
           apply Ha. intros j Hj. destruct (decide (j = 0)) as [->|].
           { by rewrite Z.add_0_r. }
           replace (p + j) with (p + 1 + (j - 1)) by lia. apply Hnz. lia.
      * split; [lia|]. intros Ha. specialize (Ha 0 ltac:(lia)).
        rewrite !Z.add_0_r in Ha. exfalso. apply He, Ha. intros; lia.
Qed.
End compare_specs.

End CString.

(** Page-sized calls must not be unfolded by conversion. *)
#[global] Opaque CString.memset CString.memmove CString.copy_up CString.copy_down.
