(* ===== verification/KState.v ===== *)
(** * The kernel's data structures and global state

    The structs of kernel/*.h and the static variables of kernel/*.c as
    records, one per C struct, and [kstate], the record of all of them.
    Pointers into a static table (processes, buffers, inodes, files) are
    indices into the corresponding list; pointers to kalloc'ed pages are
    physical addresses.  Every record comes with one setter per field. *)

From S2P Require Import Prelude Bytes.

(** ** Constants (param.h, memlayout.h, riscv.h, fs.h, stat.h, fcntl.h) *)

Abbreviation NPROC := 10%nat.
Abbreviation NCPU := 8%nat.
Abbreviation NOFILE := 16%nat.
Abbreviation NFILE := 100%nat.
Abbreviation NINODE := 50%nat.
Abbreviation NDEV := 10.
Abbreviation ROOTDEV := 0%nat.
Abbreviation MAXARG := 32.
Abbreviation MAXOPBLOCKS := 10.
Abbreviation LOGSIZE := 30.
Abbreviation NBUF := 30%nat.
Abbreviation FSSIZE := 2000.
Abbreviation MAXPATH := 128.
Abbreviation NDISK := 2%nat.

Abbreviation PGSIZE := 4096.
Abbreviation PGSHIFT := 12.
Abbreviation KERNBASE := 2147483648.
Abbreviation PHYSTOP := 2281701376.
Abbreviation UART0 := 268435456.
Abbreviation CLINT := 33554432.
Abbreviation PLIC := 201326592.
Abbreviation MAXVA := 274877906944.
Abbreviation TRAMPOLINE := 274877902848.
Abbreviation TRAPFRAME := 274877898752.

Abbreviation PTE_V := 1.
Abbreviation PTE_R := 2.
Abbreviation PTE_W := 4.
Abbreviation PTE_X := 8.
Abbreviation PTE_U := 16.

Abbreviation BSIZE := 1024.
Abbreviation ROOTINO := 1.
Abbreviation NDIRECT := 12.
Abbreviation NINDIRECT := 256.
Abbreviation MAXFILE := 268.
Abbreviation IPB := 16.
Abbreviation BPB := 8192.
Abbreviation DIRSIZ := 14.
Abbreviation FSMAGIC := 270544960.
Abbreviation T_DIR := 1.
Abbreviation T_FILE := 2.
Abbreviation T_DEVICE := 3.
Abbreviation O_RDONLY := 0.
Abbreviation O_WRONLY := 1.
Abbreviation O_RDWR := 2.
Abbreviation O_CREATE := 512.
Abbreviation CONSOLE := 1%nat.
Abbreviation PIPESIZE := 512.
Abbreviation INPUT_BUF := 128.
Abbreviation NUM := 8.

(** ** Identities: locks, sleep channels, registers *)

(** The spin locks of the system, by the object they are embedded in. *)
Inductive lockid :=
| LKmem | LBcache | LIcache | LFtable | LPid | LTicks | LCons | LPr | LBuddy
| LLog (dev : nat) | LProc (p : nat) | LVdisk (n : nat) | LPipe (pi : Z)
| LBuf (b : nat) | LInode (i : nat).

#[export] Instance lockid_eq_dec : EqDecision lockid.
Proof. solve_decision. Defined.

Definition lockid_code (l : lockid) : nat * Z :=
  match l with
  | LKmem => (0%nat, 0) | LBcache => (1%nat, 0) | LIcache => (2%nat, 0)
  | LFtable => (3%nat, 0) | LPid => (4%nat, 0) | LTicks => (5%nat, 0)
  | LCons => (6%nat, 0) | LPr => (7%nat, 0) | LBuddy => (8%nat, 0)
  | LLog d => (9%nat, Z.of_nat d) | LProc p => (10%nat, Z.of_nat p)
  | LVdisk n => (11%nat, Z.of_nat n) | LPipe a => (12%nat, a)
  | LBuf b => (13%nat, Z.of_nat b) | LInode i => (14%nat, Z.of_nat i)
  end.

Definition lockid_decode (c : nat * Z) : option lockid :=
  let n := Z.to_nat c.2 in
  match c.1 with
  | 0 => Some LKmem | 1 => Some LBcache | 2 => Some LIcache | 3 => Some LFtable
  | 4 => Some LPid | 5 => Some LTicks | 6 => Some LCons | 7 => Some LPr
  | 8 => Some LBuddy | 9 => Some (LLog n) | 10 => Some (LProc n)
  | 11 => Some (LVdisk n) | 12 => Some (LPipe c.2) | 13 => Some (LBuf n)
  | 14 => Some (LInode n) | _ => None
  end%nat.

#[export] Instance lockid_countable : Countable lockid.
Proof.
  refine (inj_countable lockid_code lockid_decode _).
  intros []; cbn; by rewrite ?Nat2Z.id.
Defined.

(** The addresses processes sleep on. *)
Inductive chan :=
| ChLog | ChProc (p : nat) | ChTicks | ChPipeRead (pi : Z) | ChPipeWrite (pi : Z)
| ChCons | ChBuf (b : nat) | ChDiskFree (n : nat)
| ChSleepBuf (b : nat) | ChSleepInode (i : nat).

#[export] Instance chan_eq_dec : EqDecision chan.
Proof. solve_decision. Defined.

(** Control and status registers of a hart. *)
Inductive csr :=
| SSTATUS | STVEC | SEPC | SCAUSE | STVAL | SIP | SIE | SATP
| MSTATUS | MEPC | MEDELEG | MIDELEG | MIE | MTVEC | MSCRATCH.

#[export] Instance csr_eq_dec : EqDecision csr.
Proof. solve_decision. Defined.

Definition csr_code (c : csr) : nat :=
  match c with
  | SSTATUS => 0 | STVEC => 1 | SEPC => 2 | SCAUSE => 3 | STVAL => 4 | SIP => 5
  | SIE => 6 | SATP => 7 | MSTATUS => 8 | MEPC => 9 | MEDELEG => 10
  | MIDELEG => 11 | MIE => 12 | MTVEC => 13 | MSCRATCH => 14
  end%nat.

Definition csr_decode (n : nat) : option csr :=
  match n with
  | 0 => Some SSTATUS | 1 => Some STVEC | 2 => Some SEPC | 3 => Some SCAUSE
  | 4 => Some STVAL | 5 => Some SIP | 6 => Some SIE | 7 => Some SATP
  | 8 => Some MSTATUS | 9 => Some MEPC | 10 => Some MEDELEG | 11 => Some MIDELEG
  | 12 => Some MIE | 13 => Some MTVEC | 14 => Some MSCRATCH | _ => None
  end%nat.

#[export] Instance csr_countable : Countable csr.
Proof. refine (inj_countable csr_code csr_decode _). by intros []. Defined.

(** Addresses of code the kernel stores: only their identity matters. *)
Inductive codeptr := CNull | CForkret.

#[export] Instance codeptr_inhabited : Inhabited codeptr := populate CNull.

(** ** Locks and harts *)

(** struct spinlock (spinlock.h). *)
Record spinlock := mkSpin {
  lk_locked : bool;  (* Is the lock held? *)
  lk_name : string;
  lk_cpu : option nat;  (* The cpu holding the lock. *)
  lk_n : Z;  (* acquire() calls *)
  lk_nts : Z  (* failed test-and-sets *)
}.
#[export] Instance spinlock_inhabited : Inhabited spinlock := populate (mkSpin inhabitant inhabitant inhabitant inhabitant inhabitant).
Definition set_lk_locked (v : bool) (r : spinlock) : spinlock :=
  mkSpin v (lk_name r) (lk_cpu r) (lk_n r) (lk_nts r).
Definition set_lk_name (v : string) (r : spinlock) : spinlock :=
  mkSpin (lk_locked r) v (lk_cpu r) (lk_n r) (lk_nts r).
Definition set_lk_cpu (v : option nat) (r : spinlock) : spinlock :=
  mkSpin (lk_locked r) (lk_name r) v (lk_n r) (lk_nts r).
Definition set_lk_n (v : Z) (r : spinlock) : spinlock :=
  mkSpin (lk_locked r) (lk_name r) (lk_cpu r) v (lk_nts r).
Definition set_lk_nts (v : Z) (r : spinlock) : spinlock :=
  mkSpin (lk_locked r) (lk_name r) (lk_cpu r) (lk_n r) v.

(** struct cpu (proc.h), with the control registers of the hart it describes; the saved scheduler context is the continuation of [swtch]. *)
Record cpu := mkCpu {
  c_proc : option nat;  (* The process running on this cpu, or null. *)
  c_noff : Z;  (* Depth of push_off() nesting. *)
  c_intena : bool;  (* Were interrupts enabled before push_off()? *)
  c_csr : gmap csr Z  (* the hart's registers *)
}.
#[export] Instance cpu_inhabited : Inhabited cpu := populate (mkCpu inhabitant inhabitant inhabitant inhabitant).
Definition set_c_proc (v : option nat) (r : cpu) : cpu :=
  mkCpu v (c_noff r) (c_intena r) (c_csr r).
Definition set_c_noff (v : Z) (r : cpu) : cpu :=
  mkCpu (c_proc r) v (c_intena r) (c_csr r).
Definition set_c_intena (v : bool) (r : cpu) : cpu :=
  mkCpu (c_proc r) (c_noff r) v (c_csr r).
Definition set_c_csr (v : gmap csr Z) (r : cpu) : cpu :=
  mkCpu (c_proc r) (c_noff r) (c_intena r) v.

(** What push_off/pop_off and the spin locks read and write. *)
Record sync := mkSync {
  hart : nat;  (* tp: the hart executing *)
  cpus : list cpu;
  locks : gmap lockid spinlock;
  lock_table : list lockid  (* locks[0..nlock) of spinlock.c *)
}.
#[export] Instance sync_inhabited : Inhabited sync := populate (mkSync inhabitant inhabitant inhabitant inhabitant).
Definition set_hart (v : nat) (r : sync) : sync :=
  mkSync v (cpus r) (locks r) (lock_table r).
Definition set_cpus (v : list cpu) (r : sync) : sync :=
  mkSync (hart r) v (locks r) (lock_table r).
Definition set_locks (v : gmap lockid spinlock) (r : sync) : sync :=
  mkSync (hart r) (cpus r) v (lock_table r).
Definition set_lock_table (v : list lockid) (r : sync) : sync :=
  mkSync (hart r) (cpus r) (locks r) v.

(** struct sleeplock (sleeplock.h); its inner spin lock is [LBuf]/[LInode]. *)
Record sleeplock := mkSleep {
  sl_locked : bool;  (* Is the lock held? *)
  sl_pid : Z  (* Process holding lock *)
}.
#[export] Instance sleeplock_inhabited : Inhabited sleeplock := populate (mkSleep inhabitant inhabitant).
Definition set_sl_locked (v : bool) (r : sleeplock) : sleeplock :=
  mkSleep v (sl_pid r).
Definition set_sl_pid (v : Z) (r : sleeplock) : sleeplock :=
  mkSleep (sl_locked r) v.

(** ** Processes (proc.h) *)

Inductive procstate := UNUSED | SLEEPING | RUNNABLE | RUNNING | ZOMBIE.

#[export] Instance procstate_eq_dec : EqDecision procstate.
Proof. solve_decision. Defined.
#[export] Instance procstate_inhabited : Inhabited procstate := populate UNUSED.

(** struct context: saved registers for kernel context switches. *)
Record context := mkContext {
  ctx_ra : codeptr;
  ctx_sp : Z;
  ctx_s : list Z  (* s0..s11 *)
}.
#[export] Instance context_inhabited : Inhabited context := populate (mkContext inhabitant inhabitant inhabitant).
Definition set_ctx_ra (v : codeptr) (r : context) : context :=
  mkContext v (ctx_sp r) (ctx_s r).
Definition set_ctx_sp (v : Z) (r : context) : context :=
  mkContext (ctx_ra r) v (ctx_s r).
Definition set_ctx_s (v : list Z) (r : context) : context :=
  mkContext (ctx_ra r) (ctx_sp r) v.

(** struct proc; its lock is [LProc]. *)
Record proc := mkProc {
  p_state : procstate;  (* Process state *)
  p_parent : option nat;  (* Parent process *)
  p_chan : option chan;  (* If non-zero, sleeping on chan *)
  p_killed : bool;  (* If non-zero, have been killed *)
  p_xstate : Z;  (* Exit status to be returned to parent's wait *)
  p_pid : Z;  (* Process ID *)
  p_kstack : Z;  (* Virtual address of kernel stack *)
  p_sz : Z;  (* Size of process memory (bytes) *)
  p_pagetable : Z;  (* Page table *)
  p_tf : Z;  (* data page for trampoline.S *)
  p_context : context;  (* swtch() here to run process *)
  p_ofile : list (option nat);  (* Open files *)
  p_cwd : option nat;  (* Current directory *)
  p_name : list Z  (* Process name (debugging) *)
}.
#[export] Instance proc_inhabited : Inhabited proc := populate (mkProc inhabitant inhabitant inhabitant inhabitant inhabitant inhabitant inhabitant inhabitant inhabitant inhabitant inhabitant inhabitant inhabitant inhabitant).
Definition set_p_state (v : procstate) (r : proc) : proc :=
  mkProc v (p_parent r) (p_chan r) (p_killed r) (p_xstate r) (p_pid r) (p_kstack r) (p_sz r) (p_pagetable r) (p_tf r) (p_context r) (p_ofile r) (p_cwd r) (p_name r).
Definition set_p_parent (v : option nat) (r : proc) : proc :=
  mkProc (p_state r) v (p_chan r) (p_killed r) (p_xstate r) (p_pid r) (p_kstack r) (p_sz r) (p_pagetable r) (p_tf r) (p_context r) (p_ofile r) (p_cwd r) (p_name r).
Definition set_p_chan (v : option chan) (r : proc) : proc :=
  mkProc (p_state r) (p_parent r) v (p_killed r) (p_xstate r) (p_pid r) (p_kstack r) (p_sz r) (p_pagetable r) (p_tf r) (p_context r) (p_ofile r) (p_cwd r) (p_name r).
Definition set_p_killed (v : bool) (r : proc) : proc :=
  mkProc (p_state r) (p_parent r) (p_chan r) v (p_xstate r) (p_pid r) (p_kstack r) (p_sz r) (p_pagetable r) (p_tf r) (p_context r) (p_ofile r) (p_cwd r) (p_name r).
Definition set_p_xstate (v : Z) (r : proc) : proc :=
  mkProc (p_state r) (p_parent r) (p_chan r) (p_killed r) v (p_pid r) (p_kstack r) (p_sz r) (p_pagetable r) (p_tf r) (p_context r) (p_ofile r) (p_cwd r) (p_name r).
Definition set_p_pid (v : Z) (r : proc) : proc :=
  mkProc (p_state r) (p_parent r) (p_chan r) (p_killed r) (p_xstate r) v (p_kstack r) (p_sz r) (p_pagetable r) (p_tf r) (p_context r) (p_ofile r) (p_cwd r) (p_name r).
Definition set_p_kstack (v : Z) (r : proc) : proc :=
  mkProc (p_state r) (p_parent r) (p_chan r) (p_killed r) (p_xstate r) (p_pid r) v (p_sz r) (p_pagetable r) (p_tf r) (p_context r) (p_ofile r) (p_cwd r) (p_name r).
Definition set_p_sz (v : Z) (r : proc) : proc :=
  mkProc (p_state r) (p_parent r) (p_chan r) (p_killed r) (p_xstate r) (p_pid r) (p_kstack r) v (p_pagetable r) (p_tf r) (p_context r) (p_ofile r) (p_cwd r) (p_name r).
Definition set_p_pagetable (v : Z) (r : proc) : proc :=
  mkProc (p_state r) (p_parent r) (p_chan r) (p_killed r) (p_xstate r) (p_pid r) (p_kstack r) (p_sz r) v (p_tf r) (p_context r) (p_ofile r) (p_cwd r) (p_name r).
Definition set_p_tf (v : Z) (r : proc) : proc :=
  mkProc (p_state r) (p_parent r) (p_chan r) (p_killed r) (p_xstate r) (p_pid r) (p_kstack r) (p_sz r) (p_pagetable r) v (p_context r) (p_ofile r) (p_cwd r) (p_name r).
Definition set_p_context (v : context) (r : proc) : proc :=
  mkProc (p_state r) (p_parent r) (p_chan r) (p_killed r) (p_xstate r) (p_pid r) (p_kstack r) (p_sz r) (p_pagetable r) (p_tf r) v (p_ofile r) (p_cwd r) (p_name r).
Definition set_p_ofile (v : list (option nat)) (r : proc) : proc :=
  mkProc (p_state r) (p_parent r) (p_chan r) (p_killed r) (p_xstate r) (p_pid r) (p_kstack r) (p_sz r) (p_pagetable r) (p_tf r) (p_context r) v (p_cwd r) (p_name r).
Definition set_p_cwd (v : option nat) (r : proc) : proc :=
  mkProc (p_state r) (p_parent r) (p_chan r) (p_killed r) (p_xstate r) (p_pid r) (p_kstack r) (p_sz r) (p_pagetable r) (p_tf r) (p_context r) (p_ofile r) v (p_name r).
Definition set_p_name (v : list Z) (r : proc) : proc :=
  mkProc (p_state r) (p_parent r) (p_chan r) (p_killed r) (p_xstate r) (p_pid r) (p_kstack r) (p_sz r) (p_pagetable r) (p_tf r) (p_context r) (p_ofile r) (p_cwd r) v.

(** The static variables of proc.c, trap.c and main.c. *)
Record ptable := mkPtable {
  procs : list proc;
  initproc : nat;
  nextpid : Z;
  first : bool;  (* static variable of forkret *)
  ticks : Z;  (* trap.c *)
  started : bool  (* main.c *)
}.
#[export] Instance ptable_inhabited : Inhabited ptable := populate (mkPtable inhabitant inhabitant inhabitant inhabitant inhabitant inhabitant).
Definition set_procs (v : list proc) (r : ptable) : ptable :=
  mkPtable v (initproc r) (nextpid r) (first r) (ticks r) (started r).
Definition set_initproc (v : nat) (r : ptable) : ptable :=
  mkPtable (procs r) v (nextpid r) (first r) (ticks r) (started r).
Definition set_nextpid (v : Z) (r : ptable) : ptable :=
  mkPtable (procs r) (initproc r) v (first r) (ticks r) (started r).
Definition set_first (v : bool) (r : ptable) : ptable :=
  mkPtable (procs r) (initproc r) (nextpid r) v (ticks r) (started r).
Definition set_ticks (v : Z) (r : ptable) : ptable :=
  mkPtable (procs r) (initproc r) (nextpid r) (first r) v (started r).
Definition set_started (v : bool) (r : ptable) : ptable :=
  mkPtable (procs r) (initproc r) (nextpid r) (first r) (ticks r) v.

(** ** Buffer cache, log and inodes (buf.h, log.c, fs.h, file.h) *)

(** struct buf; [bufs] holds bcache.buf[0..NBUF) and bcache.head at index NBUF. *)
Record buf := mkBuf {
  b_valid : bool;  (* has data been read from disk? *)
  b_disk : bool;  (* does disk own buf? *)
  b_dev : nat;
  b_blockno : Z;
  b_lock : sleeplock;
  b_refcnt : Z;
  b_prev : nat;  (* LRU cache list *)
  b_next : nat;
  b_data : list Z  (* uchar data[BSIZE] *)
}.
#[export] Instance buf_inhabited : Inhabited buf := populate (mkBuf inhabitant inhabitant inhabitant inhabitant inhabitant inhabitant inhabitant inhabitant inhabitant).
Definition set_b_valid (v : bool) (r : buf) : buf :=
  mkBuf v (b_disk r) (b_dev r) (b_blockno r) (b_lock r) (b_refcnt r) (b_prev r) (b_next r) (b_data r).
Definition set_b_disk (v : bool) (r : buf) : buf :=
  mkBuf (b_valid r) v (b_dev r) (b_blockno r) (b_lock r) (b_refcnt r) (b_prev r) (b_next r) (b_data r).
Definition set_b_dev (v : nat) (r : buf) : buf :=
  mkBuf (b_valid r) (b_disk r) v (b_blockno r) (b_lock r) (b_refcnt r) (b_prev r) (b_next r) (b_data r).
Definition set_b_blockno (v : Z) (r : buf) : buf :=
  mkBuf (b_valid r) (b_disk r) (b_dev r) v (b_lock r) (b_refcnt r) (b_prev r) (b_next r) (b_data r).
Definition set_b_lock (v : sleeplock) (r : buf) : buf :=
  mkBuf (b_valid r) (b_disk r) (b_dev r) (b_blockno r) v (b_refcnt r) (b_prev r) (b_next r) (b_data r).
Definition set_b_refcnt (v : Z) (r : buf) : buf :=
  mkBuf (b_valid r) (b_disk r) (b_dev r) (b_blockno r) (b_lock r) v (b_prev r) (b_next r) (b_data r).
Definition set_b_prev (v : nat) (r : buf) : buf :=
  mkBuf (b_valid r) (b_disk r) (b_dev r) (b_blockno r) (b_lock r) (b_refcnt r) v (b_next r) (b_data r).
Definition set_b_next (v : nat) (r : buf) : buf :=
  mkBuf (b_valid r) (b_disk r) (b_dev r) (b_blockno r) (b_lock r) (b_refcnt r) (b_prev r) v (b_data r).
Definition set_b_data (v : list Z) (r : buf) : buf :=
  mkBuf (b_valid r) (b_disk r) (b_dev r) (b_blockno r) (b_lock r) (b_refcnt r) (b_prev r) (b_next r) v.

(** struct log, with its in-memory header lh. *)
Record logst := mkLog {
  l_start : Z;
  l_size : Z;
  l_outstanding : Z;  (* how many FS sys calls are executing. *)
  l_committing : bool;  (* in commit(), please wait. *)
  l_dev : nat;
  l_n : Z;  (* lh.n *)
  l_block : list Z  (* lh.block[LOGSIZE] *)
}.
#[export] Instance logst_inhabited : Inhabited logst := populate (mkLog inhabitant inhabitant inhabitant inhabitant inhabitant inhabitant inhabitant).
Definition set_l_start (v : Z) (r : logst) : logst :=
  mkLog v (l_size r) (l_outstanding r) (l_committing r) (l_dev r) (l_n r) (l_block r).
Definition set_l_size (v : Z) (r : logst) : logst :=
  mkLog (l_start r) v (l_outstanding r) (l_committing r) (l_dev r) (l_n r) (l_block r).
Definition set_l_outstanding (v : Z) (r : logst) : logst :=
  mkLog (l_start r) (l_size r) v (l_committing r) (l_dev r) (l_n r) (l_block r).
Definition set_l_committing (v : bool) (r : logst) : logst :=
  mkLog (l_start r) (l_size r) (l_outstanding r) v (l_dev r) (l_n r) (l_block r).
Definition set_l_dev (v : nat) (r : logst) : logst :=
  mkLog (l_start r) (l_size r) (l_outstanding r) (l_committing r) v (l_n r) (l_block r).
Definition set_l_n (v : Z) (r : logst) : logst :=
  mkLog (l_start r) (l_size r) (l_outstanding r) (l_committing r) (l_dev r) v (l_block r).
Definition set_l_block (v : list Z) (r : logst) : logst :=
  mkLog (l_start r) (l_size r) (l_outstanding r) (l_committing r) (l_dev r) (l_n r) v.

(** struct superblock (fs.h). *)
Record superblock := mkSb {
  sb_magic : Z;
  sb_size : Z;
  sb_nblocks : Z;
  sb_ninodes : Z;
  sb_nlog : Z;
  sb_logstart : Z;
  sb_inodestart : Z;
  sb_bmapstart : Z
}.
#[export] Instance superblock_inhabited : Inhabited superblock := populate (mkSb inhabitant inhabitant inhabitant inhabitant inhabitant inhabitant inhabitant inhabitant).
Definition set_sb_magic (v : Z) (r : superblock) : superblock :=
  mkSb v (sb_size r) (sb_nblocks r) (sb_ninodes r) (sb_nlog r) (sb_logstart r) (sb_inodestart r) (sb_bmapstart r).
Definition set_sb_size (v : Z) (r : superblock) : superblock :=
  mkSb (sb_magic r) v (sb_nblocks r) (sb_ninodes r) (sb_nlog r) (sb_logstart r) (sb_inodestart r) (sb_bmapstart r).
Definition set_sb_nblocks (v : Z) (r : superblock) : superblock :=
  mkSb (sb_magic r) (sb_size r) v (sb_ninodes r) (sb_nlog r) (sb_logstart r) (sb_inodestart r) (sb_bmapstart r).
Definition set_sb_ninodes (v : Z) (r : superblock) : superblock :=
  mkSb (sb_magic r) (sb_size r) (sb_nblocks r) v (sb_nlog r) (sb_logstart r) (sb_inodestart r) (sb_bmapstart r).
Definition set_sb_nlog (v : Z) (r : superblock) : superblock :=
  mkSb (sb_magic r) (sb_size r) (sb_nblocks r) (sb_ninodes r) v (sb_logstart r) (sb_inodestart r) (sb_bmapstart r).
Definition set_sb_logstart (v : Z) (r : superblock) : superblock :=
  mkSb (sb_magic r) (sb_size r) (sb_nblocks r) (sb_ninodes r) (sb_nlog r) v (sb_inodestart r) (sb_bmapstart r).
Definition set_sb_inodestart (v : Z) (r : superblock) : superblock :=
  mkSb (sb_magic r) (sb_size r) (sb_nblocks r) (sb_ninodes r) (sb_nlog r) (sb_logstart r) v (sb_bmapstart r).
Definition set_sb_bmapstart (v : Z) (r : superblock) : superblock :=
  mkSb (sb_magic r) (sb_size r) (sb_nblocks r) (sb_ninodes r) (sb_nlog r) (sb_logstart r) (sb_inodestart r) v.

(** struct inode: in-memory copy of an inode. *)
Record inode := mkInode {
  i_dev : nat;  (* Device number *)
  i_inum : Z;  (* Inode number *)
  i_ref : Z;  (* Reference count *)
  i_lock : sleeplock;  (* protects everything below here *)
  i_valid : bool;  (* inode has been read from disk? *)
  i_type : Z;  (* copy of disk inode *)
  i_major : Z;
  i_minor : Z;
  i_nlink : Z;
  i_size : Z;
  i_addrs : list Z  (* addrs[NDIRECT+1] *)
}.
#[export] Instance inode_inhabited : Inhabited inode := populate (mkInode inhabitant inhabitant inhabitant inhabitant inhabitant inhabitant inhabitant inhabitant inhabitant inhabitant inhabitant).
Definition set_i_dev (v : nat) (r : inode) : inode :=
  mkInode v (i_inum r) (i_ref r) (i_lock r) (i_valid r) (i_type r) (i_major r) (i_minor r) (i_nlink r) (i_size r) (i_addrs r).
Definition set_i_inum (v : Z) (r : inode) : inode :=
  mkInode (i_dev r) v (i_ref r) (i_lock r) (i_valid r) (i_type r) (i_major r) (i_minor r) (i_nlink r) (i_size r) (i_addrs r).
Definition set_i_ref (v : Z) (r : inode) : inode :=
  mkInode (i_dev r) (i_inum r) v (i_lock r) (i_valid r) (i_type r) (i_major r) (i_minor r) (i_nlink r) (i_size r) (i_addrs r).
Definition set_i_lock (v : sleeplock) (r : inode) : inode :=
  mkInode (i_dev r) (i_inum r) (i_ref r) v (i_valid r) (i_type r) (i_major r) (i_minor r) (i_nlink r) (i_size r) (i_addrs r).
Definition set_i_valid (v : bool) (r : inode) : inode :=
  mkInode (i_dev r) (i_inum r) (i_ref r) (i_lock r) v (i_type r) (i_major r) (i_minor r) (i_nlink r) (i_size r) (i_addrs r).
Definition set_i_type (v : Z) (r : inode) : inode :=
  mkInode (i_dev r) (i_inum r) (i_ref r) (i_lock r) (i_valid r) v (i_major r) (i_minor r) (i_nlink r) (i_size r) (i_addrs r).
Definition set_i_major (v : Z) (r : inode) : inode :=
  mkInode (i_dev r) (i_inum r) (i_ref r) (i_lock r) (i_valid r) (i_type r) v (i_minor r) (i_nlink r) (i_size r) (i_addrs r).
Definition set_i_minor (v : Z) (r : inode) : inode :=
  mkInode (i_dev r) (i_inum r) (i_ref r) (i_lock r) (i_valid r) (i_type r) (i_major r) v (i_nlink r) (i_size r) (i_addrs r).
Definition set_i_nlink (v : Z) (r : inode) : inode :=
  mkInode (i_dev r) (i_inum r) (i_ref r) (i_lock r) (i_valid r) (i_type r) (i_major r) (i_minor r) v (i_size r) (i_addrs r).
Definition set_i_size (v : Z) (r : inode) : inode :=
  mkInode (i_dev r) (i_inum r) (i_ref r) (i_lock r) (i_valid r) (i_type r) (i_major r) (i_minor r) (i_nlink r) v (i_addrs r).
Definition set_i_addrs (v : list Z) (r : inode) : inode :=
  mkInode (i_dev r) (i_inum r) (i_ref r) (i_lock r) (i_valid r) (i_type r) (i_major r) (i_minor r) (i_nlink r) (i_size r) v.

(** The static variables of fs.c. *)
Record fsst := mkFs {
  sb : superblock;
  icache : list inode  (* icache.inode[NINODE] *)
}.
#[export] Instance fsst_inhabited : Inhabited fsst := populate (mkFs inhabitant inhabitant).
Definition set_sb (v : superblock) (r : fsst) : fsst :=
  mkFs v (icache r).
Definition set_icache (v : list inode) (r : fsst) : fsst :=
  mkFs (sb r) v.

(** ** Files, pipes and devices (file.h, pipe.c, console.c) *)

Inductive filetype := FD_NONE | FD_PIPE | FD_INODE | FD_DEVICE.

#[export] Instance filetype_eq_dec : EqDecision filetype.
Proof. solve_decision. Defined.
#[export] Instance filetype_inhabited : Inhabited filetype := populate FD_NONE.

(** struct file. *)
Record file := mkFile {
  f_type : filetype;
  f_ref : Z;  (* reference count *)
  f_readable : bool;
  f_writable : bool;
  f_pipe : Z;  (* FD_PIPE *)
  f_ip : nat;  (* FD_INODE and FD_DEVICE *)
  f_off : Z;  (* FD_INODE and FD_DEVICE *)
  f_major : Z;  (* FD_DEVICE *)
  f_minor : Z  (* FD_DEVICE *)
}.
#[export] Instance file_inhabited : Inhabited file := populate (mkFile inhabitant inhabitant inhabitant inhabitant inhabitant inhabitant inhabitant inhabitant inhabitant).
Definition set_f_type (v : filetype) (r : file) : file :=
  mkFile v (f_ref r) (f_readable r) (f_writable r) (f_pipe r) (f_ip r) (f_off r) (f_major r) (f_minor r).
Definition set_f_ref (v : Z) (r : file) : file :=
  mkFile (f_type r) v (f_readable r) (f_writable r) (f_pipe r) (f_ip r) (f_off r) (f_major r) (f_minor r).
Definition set_f_readable (v : bool) (r : file) : file :=
  mkFile (f_type r) (f_ref r) v (f_writable r) (f_pipe r) (f_ip r) (f_off r) (f_major r) (f_minor r).
Definition set_f_writable (v : bool) (r : file) : file :=
  mkFile (f_type r) (f_ref r) (f_readable r) v (f_pipe r) (f_ip r) (f_off r) (f_major r) (f_minor r).
Definition set_f_pipe (v : Z) (r : file) : file :=
  mkFile (f_type r) (f_ref r) (f_readable r) (f_writable r) v (f_ip r) (f_off r) (f_major r) (f_minor r).
Definition set_f_ip (v : nat) (r : file) : file :=
  mkFile (f_type r) (f_ref r) (f_readable r) (f_writable r) (f_pipe r) v (f_off r) (f_major r) (f_minor r).
Definition set_f_off (v : Z) (r : file) : file :=
  mkFile (f_type r) (f_ref r) (f_readable r) (f_writable r) (f_pipe r) (f_ip r) v (f_major r) (f_minor r).
Definition set_f_major (v : Z) (r : file) : file :=
  mkFile (f_type r) (f_ref r) (f_readable r) (f_writable r) (f_pipe r) (f_ip r) (f_off r) v (f_minor r).
Definition set_f_minor (v : Z) (r : file) : file :=
  mkFile (f_type r) (f_ref r) (f_readable r) (f_writable r) (f_pipe r) (f_ip r) (f_off r) (f_major r) v.

(** Entries of devsw[]: which driver function is installed, if any. *)
Inductive devread := F_consoleread.
Inductive devwrite := F_consolewrite.
#[export] Instance devread_inhabited : Inhabited devread := populate F_consoleread.
#[export] Instance devwrite_inhabited : Inhabited devwrite := populate F_consolewrite.

(** struct pipe, stored in a page of its own; its lock is [LPipe]. *)
Record pipe := mkPipe {
  pi_data : list Z;  (* data[PIPESIZE] *)
  pi_nread : Z;  (* number of bytes read *)
  pi_nwrite : Z;  (* number of bytes written *)
  pi_readopen : bool;  (* read fd is still open *)
  pi_writeopen : bool  (* write fd is still open *)
}.
#[export] Instance pipe_inhabited : Inhabited pipe := populate (mkPipe inhabitant inhabitant inhabitant inhabitant inhabitant).
Definition set_pi_data (v : list Z) (r : pipe) : pipe :=
  mkPipe v (pi_nread r) (pi_nwrite r) (pi_readopen r) (pi_writeopen r).
Definition set_pi_nread (v : Z) (r : pipe) : pipe :=
  mkPipe (pi_data r) v (pi_nwrite r) (pi_readopen r) (pi_writeopen r).
Definition set_pi_nwrite (v : Z) (r : pipe) : pipe :=
  mkPipe (pi_data r) (pi_nread r) v (pi_readopen r) (pi_writeopen r).
Definition set_pi_readopen (v : bool) (r : pipe) : pipe :=
  mkPipe (pi_data r) (pi_nread r) (pi_nwrite r) v (pi_writeopen r).
Definition set_pi_writeopen (v : bool) (r : pipe) : pipe :=
  mkPipe (pi_data r) (pi_nread r) (pi_nwrite r) (pi_readopen r) v.

(** The console (console.c, printf.c) and the UART behind it. *)
Record consst := mkCons {
  cn_buf : list Z;  (* buf[INPUT_BUF] *)
  cn_r : Z;  (* Read index *)
  cn_w : Z;  (* Write index *)
  cn_e : Z;  (* Edit index *)
  pr_locking : bool;  (* printf.c *)
  panicked : bool;  (* printf.c: freeze other CPUs *)
  uart_out : list Z;  (* bytes written to THR *)
  uart_in : list Z;  (* bytes waiting in RHR *)
  uart_busy : nat  (* polls before THR is empty *)
}.
#[export] Instance consst_inhabited : Inhabited consst := populate (mkCons inhabitant inhabitant inhabitant inhabitant inhabitant inhabitant inhabitant inhabitant inhabitant).
Definition set_cn_buf (v : list Z) (r : consst) : consst :=
  mkCons v (cn_r r) (cn_w r) (cn_e r) (pr_locking r) (panicked r) (uart_out r) (uart_in r) (uart_busy r).
Definition set_cn_r (v : Z) (r : consst) : consst :=
  mkCons (cn_buf r) v (cn_w r) (cn_e r) (pr_locking r) (panicked r) (uart_out r) (uart_in r) (uart_busy r).
Definition set_cn_w (v : Z) (r : consst) : consst :=
  mkCons (cn_buf r) (cn_r r) v (cn_e r) (pr_locking r) (panicked r) (uart_out r) (uart_in r) (uart_busy r).
Definition set_cn_e (v : Z) (r : consst) : consst :=
  mkCons (cn_buf r) (cn_r r) (cn_w r) v (pr_locking r) (panicked r) (uart_out r) (uart_in r) (uart_busy r).
Definition set_pr_locking (v : bool) (r : consst) : consst :=
  mkCons (cn_buf r) (cn_r r) (cn_w r) (cn_e r) v (panicked r) (uart_out r) (uart_in r) (uart_busy r).
Definition set_panicked (v : bool) (r : consst) : consst :=
  mkCons (cn_buf r) (cn_r r) (cn_w r) (cn_e r) (pr_locking r) v (uart_out r) (uart_in r) (uart_busy r).
Definition set_uart_out (v : list Z) (r : consst) : consst :=
  mkCons (cn_buf r) (cn_r r) (cn_w r) (cn_e r) (pr_locking r) (panicked r) v (uart_in r) (uart_busy r).
Definition set_uart_in (v : list Z) (r : consst) : consst :=
  mkCons (cn_buf r) (cn_r r) (cn_w r) (cn_e r) (pr_locking r) (panicked r) (uart_out r) v (uart_busy r).
Definition set_uart_busy (v : nat) (r : consst) : consst :=
  mkCons (cn_buf r) (cn_r r) (cn_w r) (cn_e r) (pr_locking r) (panicked r) (uart_out r) (uart_in r) v.

(** ** The disk driver and the disks (virtio.h, virtio_disk.c) *)

(** What a descriptor's address can point to. *)
Inductive dmaptr :=
| DNull
| DPhys (pa : Z)          (* physical memory *)
| DData (b : nat)         (* bcache.buf[b].data *)
| DStatus (i : nat).      (* disk[n].info[i].status *)

#[export] Instance dmaptr_eq_dec : EqDecision dmaptr.
Proof. solve_decision. Defined.
#[export] Instance dmaptr_inhabited : Inhabited dmaptr := populate DNull.

(** struct VRingDesc. *)
Record vdesc := mkDesc {
  d_addr : dmaptr;
  d_len : Z;
  d_flags : Z;
  d_next : Z
}.
#[export] Instance vdesc_inhabited : Inhabited vdesc := populate (mkDesc inhabitant inhabitant inhabitant inhabitant).
Definition set_d_addr (v : dmaptr) (r : vdesc) : vdesc :=
  mkDesc v (d_len r) (d_flags r) (d_next r).
Definition set_d_len (v : Z) (r : vdesc) : vdesc :=
  mkDesc (d_addr r) v (d_flags r) (d_next r).
Definition set_d_flags (v : Z) (r : vdesc) : vdesc :=
  mkDesc (d_addr r) (d_len r) v (d_next r).
Definition set_d_next (v : Z) (r : vdesc) : vdesc :=
  mkDesc (d_addr r) (d_len r) (d_flags r) v.

(** struct disk. *)
Record vdisk := mkVdisk {
  v_desc : list vdesc;
  v_avail_idx : Z;  (* avail[1] *)
  v_avail : list Z;  (* avail[2..] *)
  v_used_id : Z;  (* used->id, written by the device *)
  v_used : list Z;  (* used->elems[].id *)
  v_free : list bool;  (* is a descriptor free? *)
  v_used_idx : Z;  (* we've looked this far in used *)
  v_info_b : list (option nat);  (* info[].b *)
  v_info_status : list Z;  (* info[].status *)
  v_init : bool  (* initialized? *)
}.
#[export] Instance vdisk_inhabited : Inhabited vdisk := populate (mkVdisk inhabitant inhabitant inhabitant inhabitant inhabitant inhabitant inhabitant inhabitant inhabitant inhabitant).
Definition set_v_desc (v : list vdesc) (r : vdisk) : vdisk :=
  mkVdisk v (v_avail_idx r) (v_avail r) (v_used_id r) (v_used r) (v_free r) (v_used_idx r) (v_info_b r) (v_info_status r) (v_init r).
Definition set_v_avail_idx (v : Z) (r : vdisk) : vdisk :=
  mkVdisk (v_desc r) v (v_avail r) (v_used_id r) (v_used r) (v_free r) (v_used_idx r) (v_info_b r) (v_info_status r) (v_init r).
Definition set_v_avail (v : list Z) (r : vdisk) : vdisk :=
  mkVdisk (v_desc r) (v_avail_idx r) v (v_used_id r) (v_used r) (v_free r) (v_used_idx r) (v_info_b r) (v_info_status r) (v_init r).
Definition set_v_used_id (v : Z) (r : vdisk) : vdisk :=
  mkVdisk (v_desc r) (v_avail_idx r) (v_avail r) v (v_used r) (v_free r) (v_used_idx r) (v_info_b r) (v_info_status r) (v_init r).
Definition set_v_used (v : list Z) (r : vdisk) : vdisk :=
  mkVdisk (v_desc r) (v_avail_idx r) (v_avail r) (v_used_id r) v (v_free r) (v_used_idx r) (v_info_b r) (v_info_status r) (v_init r).
Definition set_v_free (v : list bool) (r : vdisk) : vdisk :=
  mkVdisk (v_desc r) (v_avail_idx r) (v_avail r) (v_used_id r) (v_used r) v (v_used_idx r) (v_info_b r) (v_info_status r) (v_init r).
Definition set_v_used_idx (v : Z) (r : vdisk) : vdisk :=
  mkVdisk (v_desc r) (v_avail_idx r) (v_avail r) (v_used_id r) (v_used r) (v_free r) v (v_info_b r) (v_info_status r) (v_init r).
Definition set_v_info_b (v : list (option nat)) (r : vdisk) : vdisk :=
  mkVdisk (v_desc r) (v_avail_idx r) (v_avail r) (v_used_id r) (v_used r) (v_free r) (v_used_idx r) v (v_info_status r) (v_init r).
Definition set_v_info_status (v : list Z) (r : vdisk) : vdisk :=
  mkVdisk (v_desc r) (v_avail_idx r) (v_avail r) (v_used_id r) (v_used r) (v_free r) (v_used_idx r) (v_info_b r) v (v_init r).
Definition set_v_init (v : bool) (r : vdisk) : vdisk :=
  mkVdisk (v_desc r) (v_avail_idx r) (v_avail r) (v_used_id r) (v_used r) (v_free r) (v_used_idx r) (v_info_b r) (v_info_status r) v.

(** The hardware: disk images (with the history of block writes, for reasoning about crashes) and the interrupt controller. *)
Record devst := mkDev {
  disk_img : gmap (nat * Z) (list Z);  (* the blocks of each disk *)
  disk_trace : list (nat * Z * list Z);  (* writes, oldest first *)
  mmio : gmap Z Z  (* memory-mapped registers: PLIC, CLINT, UART, virtio *)
}.
#[export] Instance devst_inhabited : Inhabited devst := populate (mkDev inhabitant inhabitant inhabitant).
Definition set_disk_img (v : gmap (nat * Z) (list Z)) (r : devst) : devst :=
  mkDev v (disk_trace r) (mmio r).
Definition set_disk_trace (v : list (nat * Z * list Z)) (r : devst) : devst :=
  mkDev (disk_img r) v (mmio r).
Definition set_mmio (v : gmap Z Z) (r : devst) : devst :=
  mkDev (disk_img r) (disk_trace r) v.

(** Addresses fixed by the linker script kernel.ld. *)
Record linkmap := mkLink {
  ld_end : Z;  (* first address after kernel *)
  ld_etext : Z;  (* end of kernel code *)
  ld_trampoline : Z;  (* trampoline.S *)
  ld_uservec : Z;  (* uservec - trampoline *)
  ld_userret : Z;  (* userret - trampoline *)
  ld_usertrap : Z;
  ld_kernelvec : Z;
  ld_main : Z;
  ld_timervec : Z;
  ld_mscratch0 : Z;  (* uint64 mscratch0[NCPU * 32] *)
  ld_disk_pages : list Z  (* disk[n].pages *)
}.
#[export] Instance linkmap_inhabited : Inhabited linkmap := populate (mkLink inhabitant inhabitant inhabitant inhabitant inhabitant inhabitant inhabitant inhabitant inhabitant inhabitant inhabitant).
Definition set_ld_end (v : Z) (r : linkmap) : linkmap :=
  mkLink v (ld_etext r) (ld_trampoline r) (ld_uservec r) (ld_userret r) (ld_usertrap r) (ld_kernelvec r) (ld_main r) (ld_timervec r) (ld_mscratch0 r) (ld_disk_pages r).
Definition set_ld_etext (v : Z) (r : linkmap) : linkmap :=
  mkLink (ld_end r) v (ld_trampoline r) (ld_uservec r) (ld_userret r) (ld_usertrap r) (ld_kernelvec r) (ld_main r) (ld_timervec r) (ld_mscratch0 r) (ld_disk_pages r).
Definition set_ld_trampoline (v : Z) (r : linkmap) : linkmap :=
  mkLink (ld_end r) (ld_etext r) v (ld_uservec r) (ld_userret r) (ld_usertrap r) (ld_kernelvec r) (ld_main r) (ld_timervec r) (ld_mscratch0 r) (ld_disk_pages r).
Definition set_ld_uservec (v : Z) (r : linkmap) : linkmap :=
  mkLink (ld_end r) (ld_etext r) (ld_trampoline r) v (ld_userret r) (ld_usertrap r) (ld_kernelvec r) (ld_main r) (ld_timervec r) (ld_mscratch0 r) (ld_disk_pages r).
Definition set_ld_userret (v : Z) (r : linkmap) : linkmap :=
  mkLink (ld_end r) (ld_etext r) (ld_trampoline r) (ld_uservec r) v (ld_usertrap r) (ld_kernelvec r) (ld_main r) (ld_timervec r) (ld_mscratch0 r) (ld_disk_pages r).
Definition set_ld_usertrap (v : Z) (r : linkmap) : linkmap :=
  mkLink (ld_end r) (ld_etext r) (ld_trampoline r) (ld_uservec r) (ld_userret r) v (ld_kernelvec r) (ld_main r) (ld_timervec r) (ld_mscratch0 r) (ld_disk_pages r).
Definition set_ld_kernelvec (v : Z) (r : linkmap) : linkmap :=
  mkLink (ld_end r) (ld_etext r) (ld_trampoline r) (ld_uservec r) (ld_userret r) (ld_usertrap r) v (ld_main r) (ld_timervec r) (ld_mscratch0 r) (ld_disk_pages r).
Definition set_ld_main (v : Z) (r : linkmap) : linkmap :=
  mkLink (ld_end r) (ld_etext r) (ld_trampoline r) (ld_uservec r) (ld_userret r) (ld_usertrap r) (ld_kernelvec r) v (ld_timervec r) (ld_mscratch0 r) (ld_disk_pages r).
Definition set_ld_timervec (v : Z) (r : linkmap) : linkmap :=
  mkLink (ld_end r) (ld_etext r) (ld_trampoline r) (ld_uservec r) (ld_userret r) (ld_usertrap r) (ld_kernelvec r) (ld_main r) v (ld_mscratch0 r) (ld_disk_pages r).
Definition set_ld_mscratch0 (v : Z) (r : linkmap) : linkmap :=
  mkLink (ld_end r) (ld_etext r) (ld_trampoline r) (ld_uservec r) (ld_userret r) (ld_usertrap r) (ld_kernelvec r) (ld_main r) (ld_timervec r) v (ld_disk_pages r).
Definition set_ld_disk_pages (v : list Z) (r : linkmap) : linkmap :=
  mkLink (ld_end r) (ld_etext r) (ld_trampoline r) (ld_uservec r) (ld_userret r) (ld_usertrap r) (ld_kernelvec r) (ld_main r) (ld_timervec r) (ld_mscratch0 r) v.

(** ** The whole kernel *)

(** Everything a kernel function can read or write. *)
Record kstate := mkK {
  sy : sync;  (* harts and spin locks *)
  mm : mem;  (* physical memory *)
  freelist : Z;  (* kmem.freelist *)
  kernel_pagetable : Z;
  pt : ptable;
  bufs : list buf;  (* bcache *)
  logs : list logst;  (* log[NDISK] *)
  fs : fsst;
  ftable : list file;  (* ftable.file[NFILE] *)
  devsw : list (option devread * option devwrite);
  pipes : gmap Z pipe;  (* by address *)
  cons : consst;
  vdisks : list vdisk;  (* disk[NDISK] *)
  dev : devst;
  ld : linkmap
}.
#[export] Instance kstate_inhabited : Inhabited kstate := populate (mkK inhabitant inhabitant inhabitant inhabitant inhabitant inhabitant inhabitant inhabitant inhabitant inhabitant inhabitant inhabitant inhabitant inhabitant inhabitant).
Definition set_sy (v : sync) (r : kstate) : kstate :=
  mkK v (mm r) (freelist r) (kernel_pagetable r) (pt r) (bufs r) (logs r) (fs r) (ftable r) (devsw r) (pipes r) (cons r) (vdisks r) (dev r) (ld r).
Definition set_mm (v : mem) (r : kstate) : kstate :=
  mkK (sy r) v (freelist r) (kernel_pagetable r) (pt r) (bufs r) (logs r) (fs r) (ftable r) (devsw r) (pipes r) (cons r) (vdisks r) (dev r) (ld r).
Definition set_freelist (v : Z) (r : kstate) : kstate :=
  mkK (sy r) (mm r) v (kernel_pagetable r) (pt r) (bufs r) (logs r) (fs r) (ftable r) (devsw r) (pipes r) (cons r) (vdisks r) (dev r) (ld r).
Definition set_kernel_pagetable (v : Z) (r : kstate) : kstate :=
  mkK (sy r) (mm r) (freelist r) v (pt r) (bufs r) (logs r) (fs r) (ftable r) (devsw r) (pipes r) (cons r) (vdisks r) (dev r) (ld r).
Definition set_pt (v : ptable) (r : kstate) : kstate :=
  mkK (sy r) (mm r) (freelist r) (kernel_pagetable r) v (bufs r) (logs r) (fs r) (ftable r) (devsw r) (pipes r) (cons r) (vdisks r) (dev r) (ld r).
Definition set_bufs (v : list buf) (r : kstate) : kstate :=
  mkK (sy r) (mm r) (freelist r) (kernel_pagetable r) (pt r) v (logs r) (fs r) (ftable r) (devsw r) (pipes r) (cons r) (vdisks r) (dev r) (ld r).
Definition set_logs (v : list logst) (r : kstate) : kstate :=
  mkK (sy r) (mm r) (freelist r) (kernel_pagetable r) (pt r) (bufs r) v (fs r) (ftable r) (devsw r) (pipes r) (cons r) (vdisks r) (dev r) (ld r).
Definition set_fs (v : fsst) (r : kstate) : kstate :=
  mkK (sy r) (mm r) (freelist r) (kernel_pagetable r) (pt r) (bufs r) (logs r) v (ftable r) (devsw r) (pipes r) (cons r) (vdisks r) (dev r) (ld r).
Definition set_ftable (v : list file) (r : kstate) : kstate :=
  mkK (sy r) (mm r) (freelist r) (kernel_pagetable r) (pt r) (bufs r) (logs r) (fs r) v (devsw r) (pipes r) (cons r) (vdisks r) (dev r) (ld r).
Definition set_devsw (v : list (option devread * option devwrite)) (r : kstate) : kstate :=
  mkK (sy r) (mm r) (freelist r) (kernel_pagetable r) (pt r) (bufs r) (logs r) (fs r) (ftable r) v (pipes r) (cons r) (vdisks r) (dev r) (ld r).
Definition set_pipes (v : gmap Z pipe) (r : kstate) : kstate :=
  mkK (sy r) (mm r) (freelist r) (kernel_pagetable r) (pt r) (bufs r) (logs r) (fs r) (ftable r) (devsw r) v (cons r) (vdisks r) (dev r) (ld r).
Definition set_cons (v : consst) (r : kstate) : kstate :=
  mkK (sy r) (mm r) (freelist r) (kernel_pagetable r) (pt r) (bufs r) (logs r) (fs r) (ftable r) (devsw r) (pipes r) v (vdisks r) (dev r) (ld r).
Definition set_vdisks (v : list vdisk) (r : kstate) : kstate :=
  mkK (sy r) (mm r) (freelist r) (kernel_pagetable r) (pt r) (bufs r) (logs r) (fs r) (ftable r) (devsw r) (pipes r) (cons r) v (dev r) (ld r).
Definition set_dev (v : devst) (r : kstate) : kstate :=
  mkK (sy r) (mm r) (freelist r) (kernel_pagetable r) (pt r) (bufs r) (logs r) (fs r) (ftable r) (devsw r) (pipes r) (cons r) (vdisks r) v (ld r).
Definition set_ld (v : linkmap) (r : kstate) : kstate :=
  mkK (sy r) (mm r) (freelist r) (kernel_pagetable r) (pt r) (bufs r) (logs r) (fs r) (ftable r) (devsw r) (pipes r) (cons r) (vdisks r) (dev r) v.

(** A kernel function: a computation on the kernel state. *)
Abbreviation K := (M kstate).
