(* ===== verification/KList.v ===== *)
(** * Doubly-linked lists in memory (kernel/list.c)

    A list node is two 64-bit pointers in memory, [next] at offset 0 and
    [prev] at offset 8; a list is circular through its head.  [dll] relates
    the memory to the sequence of its elements, and every operation is
    specified on that sequence and on the bytes it leaves alone. *)

From S2P Require Import Prelude Bytes.

Module KList.

Definition next (m : mem) (e : Z) : Z := ld64 m e.
Definition prev (m : mem) (e : Z) : Z := ld64 m (e + 8).
Definition set_next (m : mem) (e v : Z) : mem := st64 m e v.
Definition set_prev (m : mem) (e v : Z) : mem := st64 m (e + 8) v.

Definition lst_init (m : mem) (lst : Z) : mem :=
  let m := set_next m lst lst in
  set_prev m lst lst.

Definition lst_empty (m : mem) (lst : Z) : bool := next m lst =? lst.

Definition lst_remove (m : mem) (e : Z) : mem :=
  let m := set_next m (prev m e) (next m e) in
  set_prev m (next m e) (prev m e).

(** [None] is panic("lst_pop"). *)
Definition lst_pop (m : mem) (lst : Z) : option (Z * mem) :=
  if next m lst =? lst then None
  else
    let p := next m lst in
    Some (p, lst_remove m p).

Definition lst_push (m : mem) (lst p : Z) : mem :=
  let m := set_next m p (next m lst) in
  let m := set_prev m p lst in
  let m := set_prev m (next m lst) p in
  set_next m lst p.

(** The pointers lst_print() prints, for a list of at most [fuel] elements. *)
Fixpoint lst_print (fuel : nat) (m : mem) (lst p : Z) : option (list Z) :=
  if p =? lst then Some []
  else match fuel with
       | O => None
       | S fuel => cons p <$> lst_print fuel m lst (next m p)
       end.

(** ** Nodes *)

Definition node (e : Z) : Prop := 0 <= e /\ e + 16 < 2 ^ 64.
Definition far (p q : Z) : Prop := p + 16 <= q \/ q + 16 <= p.
Definition in_node (e x : Z) : Prop := e <= x < e + 16.

Lemma far_sym p q : far p q -> far q p.
Proof. unfold far. lia. Qed.

Lemma ld64_st64_eq (m : mem) a v : 0 <= v < 2 ^ 64 -> ld64 (st64 m a v) a = v.
Proof. intros Hv. unfold ld64, st64. rewrite ldn_stn_eq by done. by apply Z.mod_small. Qed.
Lemma ld64_st64_ne (m : mem) a b v : a + 8 <= b \/ b + 8 <= a -> ld64 (st64 m a v) b = ld64 m b.
Proof. intros Hd. apply ldn_stn_ne. cbn. lia. Qed.

(** [seg m l]: the nodes of [l] are linked in that order. *)
Fixpoint seg (m : mem) (l : list Z) : Prop :=
  match l with
  | x :: (y :: _) as l' => next m x = y /\ prev m y = x /\ seg m l'
  | _ => True
  end.

(** The list with head [h] and elements [l]. *)
Record dll (m : mem) (h : Z) (l : list Z) : Prop := {
  dl_nodes : Forall node (h :: l);
  dl_far : forall i j x y, (h :: l) !! i = Some x -> (h :: l) !! j = Some y -> i <> j -> far x y;
  dl_seg : seg m (h :: l ++ [h])
}.

Lemma seg_app m l1 x l2 : seg m (l1 ++ x :: l2) <-> seg m (l1 ++ [x]) /\ seg m (x :: l2).
Proof.
  induction l1 as [|y l1 IH]; [cbn; tauto|]. destruct l1 as [|z l1]; cbn [app seg] in *; [tauto|].
  rewrite IH. tauto.
Qed.

(** The last node's [next] and the first one's [prev] do not matter. *)
Lemma seg_ext m m' u a : (forall y, y ∈ u -> next m' y = next m y) ->
  (forall y, y ∈ tail (u ++ [a]) -> prev m' y = prev m y) -> seg m (u ++ [a]) -> seg m' (u ++ [a]).
Proof.
  induction u as [|x u IH]; [done|]. intros Hn Hp. destruct u as [|y u]; cbn [app seg tail] in *.
  - intros (H1 & H2 & _). rewrite Hn, Hp by set_solver. done.
  - intros (H1 & H2 & H3). rewrite Hn, Hp by set_solver. split_and!; [done|done|].
    apply IH; [set_solver|set_solver|done].
Qed.

Lemma next_ext m m' e : (forall x, in_node e x -> getb m' x = getb m x) -> next m' e = next m e /\ prev m' e = prev m e.
Proof. intros Hs. split; (apply ldn_ext; intros b Hb; apply Hs; unfold in_node; cbn in Hb; lia). Qed.

Lemma dll_ext m m' h l : (forall e x, e ∈ h :: l -> in_node e x -> getb m' x = getb m x) -> dll m h l -> dll m' h l.
Proof.
  intros Hs [D1 D2 D3]. assert (He : forall e, e ∈ h :: l -> next m' e = next m e /\ prev m' e = prev m e) by (intros e He; apply next_ext; eauto).
  split; [done|done|]. apply (seg_ext m m' (h :: l) h); [|cbn|done]; intros y Hy; apply He; set_solver.
Qed.

Lemma dll_far m h l x y : dll m h l -> x ∈ h :: l -> y ∈ h :: l -> x <> y -> far x y.
Proof.
  intros D [i Hi]%list_elem_of_lookup [j Hj]%list_elem_of_lookup Hne. eapply (dl_far _ _ _ D); [done|done|]. congruence.
Qed.

Lemma dll_node m h l x : dll m h l -> x ∈ h :: l -> node x.
Proof. intros D Hx. pose proof (dl_nodes _ _ _ D) as Hn. rewrite Forall_forall in Hn. by apply Hn. Qed.

Lemma dll_nodup m h l : dll m h l -> NoDup (h :: l).
Proof.
  intros D. apply NoDup_alt. intros i j x Hi Hj. destruct (decide (i = j)) as [|Hne]; [done|].
  pose proof (dl_far _ _ _ D i j x x Hi Hj Hne) as Hf. unfold far in Hf. lia.
Qed.

Lemma dll_init m h : node h -> dll (lst_init m h) h [].
Proof.
  intros [H0 H1]. split; [by repeat constructor|..].
  - intros [|i] [|j] x y; cbn; try done.
  - cbn. unfold lst_init, next, prev, set_next, set_prev. rewrite ld64_st64_ne by lia. rewrite !ld64_st64_eq by lia. done.
Qed.

Lemma dll_empty m h l : dll m h l -> lst_empty m h = bool_decide (l = []).
Proof.
  intros D. pose proof (dl_seg _ _ _ D) as Hs. unfold lst_empty. destruct l as [|x l]; cbn in Hs.
  - destruct Hs as (-> & _). by rewrite Z.eqb_refl.
  - destruct Hs as (-> & _). apply Z.eqb_neq. apply dll_nodup, NoDup_cons in D as [D _]. set_solver.
Qed.

(** ** Push and remove *)

(** The bytes of the nodes of a list. *)
Definition touches (l : list Z) (x : Z) : Prop := exists e, e ∈ l /\ in_node e x.

Lemma getb_link (m : mem) a v x : ~ (a <= x < a + 8) -> getb (st64 m a v) x = getb m x.
Proof. intros Hx. apply getb_stn_ne. cbn. lia. Qed.

Lemma links_next m a v e : far a e \/ a = e -> next (set_prev m a v) e = next m e.
Proof. unfold next, set_prev, far. intros Hd. apply ld64_st64_ne. lia. Qed.
Lemma links_prev m a v e : far a e \/ a = e -> prev (set_next m a v) e = prev m e.
Proof. unfold prev, set_next, far. intros Hd. apply ld64_st64_ne. lia. Qed.
Lemma next_next m a v e : far a e -> next (set_next m a v) e = next m e.
Proof. unfold next, set_next, far. intros Hd. apply ld64_st64_ne. lia. Qed.
Lemma prev_prev m a v e : far a e -> prev (set_prev m a v) e = prev m e.
Proof. unfold prev, set_prev, far. intros Hd. apply ld64_st64_ne. lia. Qed.
Lemma next_eq m a v : node v -> next (set_next m a v) a = v.
Proof. intros [? ?]. apply ld64_st64_eq. lia. Qed.
Lemma prev_eq m a v : node v -> prev (set_prev m a v) a = v.
Proof. intros [? ?]. apply ld64_st64_eq. lia. Qed.

Lemma getb_set_next m a v x : ~ in_node a x -> getb (set_next m a v) x = getb m x.
Proof. unfold in_node, set_next. intros Hx. apply getb_link. lia. Qed.
Lemma getb_set_prev m a v x : ~ in_node a x -> getb (set_prev m a v) x = getb m x.
Proof. unfold in_node, set_prev. intros Hx. apply getb_link. lia. Qed.

(** The first node after the head. *)
Definition first (h : Z) (l : list Z) : Z := default h (head l).

Lemma first_elem h l : first h l ∈ h :: l.
Proof. destruct l; set_solver. Qed.

Lemma dll_first m h l : dll m h l -> next m h = first h l /\ prev m (first h l) = h.
Proof. intros D. pose proof (dl_seg _ _ _ D) as Hs. destruct l as [|x l]; cbn in *; tauto. Qed.

Lemma lst_push_eq m h l p : dll m h l -> far p h ->
  lst_push m h p = set_next (set_prev (set_prev (set_next m p (first h l)) p h) (first h l) p) h p.
Proof.
  intros D Hf. destruct (dll_first _ _ _ D) as [H1 H2]. unfold lst_push. rewrite H1.
  rewrite (links_next _ p), next_next, H1 by (done || by left). done.
Qed.

Lemma getb_lst_push m h l p x : dll m h l -> far p h -> ~ touches (h :: p :: l) x -> getb (lst_push m h p) x = getb m x.
Proof.
  intros D Hf Hx. assert (Hn : forall e, e ∈ h :: p :: l -> ~ in_node e x) by (intros e He Hi; apply Hx; by exists e).
  pose proof (first_elem h l). rewrite (lst_push_eq _ _ _ _ D Hf). rewrite getb_set_next, !getb_set_prev, getb_set_next; [done|apply Hn; set_solver..].
Qed.

Lemma dll_push m h l p : dll m h l -> node p -> (forall e, e ∈ h :: l -> far p e) -> dll (lst_push m h p) h (p :: l).
Proof.
  intros D Hp Hf. pose proof (dll_nodup _ _ _ D) as Hnd. assert (Hh : node h) by (eapply dll_node; [done|set_solver]).
  assert (Hff : forall x y, x ∈ h :: l -> y ∈ h :: l -> x <> y -> far x y) by (intros; by eapply dll_far).
  pose proof (dl_seg _ _ _ D) as Hs. pose proof (dll_first _ _ _ D) as [E1 E2].
  split.
  - pose proof (dl_nodes _ _ _ D) as Hn. rewrite !Forall_cons in *. tauto.
  - intros i j x y. destruct i as [|[|i]], j as [|[|j]]; cbn [lookup list_lookup]; intros Hi Hj Hne; simplify_eq; try done.
    + apply far_sym, Hf. set_solver.
    + apply (dl_far _ _ _ D 0%nat (S j)); done.
    + apply Hf. set_solver.
    + apply Hf, elem_of_cons. right. by eapply list_elem_of_lookup_2.
    + apply (dl_far _ _ _ D (S i) 0%nat); done.
    + apply far_sym, Hf, elem_of_cons. right. by eapply list_elem_of_lookup_2.
    + apply (dl_far _ _ _ D (S i) (S j)); try done. lia.
  - rewrite (lst_push_eq _ _ _ _ D) by (apply Hf; set_solver). set (f := first h l) in *.
    assert (Hfp : far p f) by (apply Hf, first_elem). assert (Hph : far p h) by (apply Hf; set_solver).
    assert (Hfn : node f) by (eapply dll_node; [done|apply first_elem]).
    assert (Hhf : far h f \/ h = f) by (destruct (decide (h = f)); [by right|left; apply Hff; [set_solver|apply first_elem|done]]).
    cbn [app seg]. split_and!.
    + by apply next_eq.
    + rewrite links_prev by (left; by apply far_sym). rewrite prev_prev by (by apply far_sym). by apply prev_eq.
    + assert (Hnp : next (set_next (set_prev (set_prev (set_next m p f) p h) f p) h p) p = f).
      { rewrite next_next by (by apply far_sym). rewrite links_next by (left; by apply far_sym). rewrite links_next by (by right). by apply next_eq. }
      assert (Hpf : prev (set_next (set_prev (set_prev (set_next m p f) p h) f p) h p) f = p).
      { rewrite links_prev by done. by apply prev_eq. }
      destruct l as [|x l]; cbn [app seg]; [done|]. change f with x in *. split_and!; [done|done|].
      apply NoDup_cons in Hnd as [N1 N2]. apply NoDup_cons in N2 as [N2 _].
      apply (seg_ext m _ (x :: l) h); [| |by destruct Hs as (_ & _ & Hs)].
      * intros y Hy. rewrite next_next by (apply Hff; set_solver). rewrite links_next by (destruct (decide (x = y)); [by right|left; apply Hff; set_solver]).
        rewrite links_next by (left; apply Hf; set_solver). apply next_next, Hf. set_solver.
      * cbn [tail app]. intros y Hy. rewrite links_prev by (destruct (decide (h = y)); [by right|left; apply Hff; set_solver]).
        rewrite prev_prev by (apply Hff; set_solver). rewrite prev_prev by (apply Hf; set_solver). apply links_prev. left. apply Hf. set_solver.
Qed.

(** The node before [x] and the node after it. *)
Lemma lst_remove_eq m h l1 x l2 : dll m h (l1 ++ x :: l2) ->
  exists u a b v, h :: l1 = u ++ [a] /\ l2 ++ [h] = b :: v /\ lst_remove m x = set_prev (set_next m a b) b a.
Proof.
  intros D. pose proof (dl_seg _ _ _ D) as Hs. destruct (exists_last (l := h :: l1)) as (u & a & Eu); [done|].
  destruct (l2 ++ [h]) as [|b v] eqn:Eb; [by destruct l2|]. exists u, a, b, v. split_and!; [done|done|].
  assert (El : h :: (l1 ++ x :: l2) ++ [h] = u ++ a :: x :: b :: v).
  { rewrite <-app_assoc. cbn [app]. rewrite Eb. change (h :: l1 ++ x :: b :: v) with ((h :: l1) ++ x :: b :: v). rewrite Eu, <-app_assoc. done. }
  rewrite El in Hs. apply seg_app in Hs as [_ (H1 & H2 & H3 & H4 & _)].
  assert (Hax : far a x).
  { eapply (dll_far _ _ _ a x D).
    - assert (a ∈ h :: l1) by (rewrite Eu; set_solver). set_solver.
    - set_solver.
    - apply dll_nodup in D. change (h :: l1 ++ x :: l2) with ((h :: l1) ++ x :: l2) in D. rewrite Eu in D. apply NoDup_app in D as (_ & D & _).
      intros ->. apply (D x); set_solver. }
  unfold lst_remove. rewrite H3, H2. by rewrite links_prev, next_next, H2, H3 by (done || by left).
Qed.

Lemma dll_remove m h l1 x l2 : dll m h (l1 ++ x :: l2) -> dll (lst_remove m x) h (l1 ++ l2).
Proof.
  intros D. pose proof (dll_nodup _ _ _ D) as Hnd. pose proof (dl_seg _ _ _ D) as Hs. pose proof (dl_nodes _ _ _ D) as Hn.
  assert (Hff : forall y z, y ∈ h :: l1 ++ x :: l2 -> z ∈ h :: l1 ++ x :: l2 -> y <> z -> far y z) by (intros; by eapply dll_far).
  destruct (lst_remove_eq _ _ _ _ _ D) as (u & a & b & v & Eu & Eb & ->). rewrite Forall_forall in Hn.
  assert (Hsub : forall y, y ∈ h :: l1 ++ l2 -> y ∈ h :: l1 ++ x :: l2) by set_solver.
  assert (Hnd' : NoDup (h :: l1 ++ l2)).
  { change (h :: l1 ++ x :: l2) with ((h :: l1) ++ x :: l2) in Hnd. change (h :: l1 ++ l2) with ((h :: l1) ++ l2).
    apply NoDup_app in Hnd as (N1 & N2 & N3%NoDup_cons). apply NoDup_app. split_and!; [done|set_solver|by apply N3]. }
  split.
  - rewrite Forall_forall. intros y Hy. by apply Hn, Hsub.
  - intros i j y z Hi Hj Hne. apply Hff; [apply Hsub; by eapply list_elem_of_lookup_2..|]. intros ->. apply Hne. by eapply NoDup_lookup.
  - assert (Hua : forall y, y ∈ u ++ [a] <-> y ∈ h :: l1) by (intros y; by rewrite Eu). assert (Hbv : forall y, y ∈ b :: v <-> y ∈ l2 ++ [h]) by (intros y; by rewrite Eb).
    assert (Ha : a ∈ h :: l1) by (apply Hua; set_solver). assert (Hb : b ∈ l2 ++ [h]) by (apply Hbv; set_solver).
    assert (El : h :: (l1 ++ x :: l2) ++ [h] = u ++ a :: x :: b :: v).
    { rewrite <-app_assoc. cbn [app]. rewrite Eb. change (h :: l1 ++ x :: b :: v) with ((h :: l1) ++ x :: b :: v). rewrite Eu, <-app_assoc. done. }
    replace (h :: (l1 ++ l2) ++ [h]) with (u ++ a :: b :: v) by (rewrite <-app_assoc, Eb, app_comm_cons, Eu, <-app_assoc; done).
    rewrite El in Hs. apply seg_app in Hs as [S1 (_ & _ & _ & _ & S2)].
    assert (Nu : NoDup (u ++ [a])) by (rewrite <-Eu; change (h :: l1 ++ l2) with ((h :: l1) ++ l2) in Hnd'; by apply NoDup_app in Hnd' as (? & _)).
    assert (Nv : NoDup (b :: v)) by (rewrite <-Eb; apply NoDup_cons in Hnd' as [N1 N2]; apply NoDup_app in N2 as (_ & _ & N2); apply NoDup_app; split_and!; [done|set_solver|apply NoDup_singleton]).
    assert (Hab : far b a \/ b = a) by (destruct (decide (b = a)); [by right|left; apply Hff; set_solver]).
    apply seg_app. split; [|split; [|split]].
    + apply (seg_ext m _ u a); [| |done]; intros y Hy.
      * assert (Hy' : y ∈ h :: l1) by (apply Hua; set_solver). rewrite links_next by (destruct (decide (b = y)); [by right|left; apply Hff; set_solver]).
        apply next_next, Hff; [set_solver..|]. intros ->. apply NoDup_app in Nu as (_ & Nu & _). apply (Nu y); set_solver.
      * assert (Hy' : y ∈ l1) by (rewrite <-Eu in Hy; done).
        assert (b <> y). { intros ->. rewrite elem_of_app in Hb. apply NoDup_cons in Hnd' as [N1 N2]. apply NoDup_app in N2 as (_ & N2 & _). set_solver. }
        rewrite prev_prev by (apply Hff; set_solver). apply links_prev. destruct (decide (a = y)); [by right|left; apply Hff; set_solver].
    + rewrite links_next by done. apply next_eq. apply Hn. set_solver.
    + apply prev_eq, Hn. set_solver.
    + change (seg (set_prev (set_next m a b) b a) (b :: v)). destruct (exists_last (l := b :: v)) as (w & z & Ez); [done|]. rewrite Ez in S2 |- *. rewrite Ez in Nv. assert (z = h /\ w = l2) as [-> ->] by (rewrite <-Eb in Ez; by apply app_inj_tail in Ez as [-> ->]).
      apply (seg_ext m _ l2 h); [| |done]; intros y Hy.
      * rewrite links_next by (destruct (decide (b = y)); [by right|left; apply Hff; set_solver]). apply next_next, Hff; [set_solver..|].
        intros ->. change (h :: l1 ++ l2) with ((h :: l1) ++ l2) in Hnd'. apply NoDup_app in Hnd' as (_ & N & _). by apply (N y).
      * rewrite <-Ez in Hy. cbn [tail] in Hy. assert (Hy' : y ∈ l2 ++ [h]) by (apply Hbv; set_solver). rewrite <-Ez in Nv. apply NoDup_cons in Nv as [Nb _].
        rewrite prev_prev by (apply Hff; set_solver). apply links_prev. destruct (decide (a = y)); [by right|left; apply Hff; set_solver].
Qed.

Lemma getb_lst_remove m h l1 x l2 y : dll m h (l1 ++ x :: l2) -> ~ touches (h :: l1 ++ l2) y -> getb (lst_remove m x) y = getb m y.
Proof.
  intros D Hy. destruct (lst_remove_eq _ _ _ _ _ D) as (u & a & b & v & Eu & Eb & ->).
  assert (Hn : forall e, e ∈ h :: l1 ++ l2 -> ~ in_node e y) by (intros e He Hi; apply Hy; by exists e).
  assert (a ∈ h :: l1) by (rewrite Eu; set_solver). assert (b ∈ l2 ++ [h]) by (rewrite Eb; set_solver).
  rewrite getb_set_prev, getb_set_next; [done|apply Hn; set_solver..].
Qed.

Lemma lst_pop_spec m h x l : dll m h (x :: l) ->
  lst_pop m h = Some (x, lst_remove m x) /\ dll (lst_remove m x) h l.
Proof.
  intros D. destruct (dll_first _ _ _ D) as [E _]. cbn in E. unfold lst_pop. rewrite E. split; [|by apply (dll_remove m h [] x l)].
  destruct (Z.eqb_spec x h) as [->|Hne]; [|done]. apply dll_nodup, NoDup_cons in D as [D _]. set_solver.
Qed.

(** lst_print() visits the elements in order, and ends. *)
Lemma lst_print_spec m h l : forall fuel, dll m h l -> (length l <= fuel)%nat -> lst_print fuel m h (next m h) = Some l.
Proof.
  intros fuel D Hf. destruct (dll_first _ _ _ D) as [E _]. rewrite E. pose proof (dl_seg _ _ _ D) as Hs. apply dll_nodup, NoDup_cons in D as [Hnh _].
  clear E. revert fuel Hf. assert (Hs' : seg m (l ++ [h])) by (destruct l; [done|by destruct Hs as (_ & _ & Hs)]). clear Hs.
  induction l as [|x l IH]; intros fuel Hf; [destruct fuel; cbn; by rewrite Z.eqb_refl|]. destruct fuel as [|fuel]; [cbn in Hf; lia|].
  change (first h (x :: l)) with x. cbn [lst_print]. destruct (Z.eqb_spec x h) as [->|Hne]; [set_solver|].
  assert (Hn : next m x = first h l) by (destruct l; cbn in *; tauto). rewrite Hn, IH; [done|set_solver| |cbn in Hf; lia].
  destruct l; [done|]. by destruct Hs' as (_ & _ & Hs').
Qed.

End KList.
