(* ===== verification/Spinlock.v ===== *)
(** * Interrupt nesting and spin locks (kernel/spinlock.c, riscv.h)

    [push_off]/[pop_off] and [acquire]/[release]/[holding] as computations on
    [sync] (the harts and the spin locks).  They run on one hart; a lock that
    another hart holds makes [acquire] spin, which is the [Stuck] outcome.
    The interleaving of several harts inside [acquire] and [release] is the
    subject of [SpinlockSMP].

    The lemmas give the exact state after each call and show that a
    balanced critical section restores the interrupt state it found. *)

From S2P Require Import Prelude Bytes KState.

Module Spinlock.

Abbreviation L := (M sync).

(** ** The current hart *)

Definition the_cpu (y : sync) : cpu := cpus y !!! hart y.
Definition set_the_cpu (c : cpu) (y : sync) : sync :=
  set_cpus (<[hart y := c]> (cpus y)) y.

Definition cpuid : L nat := gets hart.
Definition mycpu : L nat := cpuid.

Definition r_csr (r : csr) : L Z :=
  gets (fun y => default 0 (c_csr (the_cpu y) !! r)).
Definition w_csr (r : csr) (v : Z) : L unit :=
  modify (fun y => set_the_cpu (set_c_csr (<[r := v]> (c_csr (the_cpu y))) (the_cpu y)) y).

Definition SSTATUS_SPP := Z.shiftl 1 8.
Definition SSTATUS_SPIE := Z.shiftl 1 5.
Definition SSTATUS_SIE := Z.shiftl 1 1.

Definition intr_on : L unit :=
  x <- r_csr SSTATUS ;; w_csr SSTATUS (Z.lor x SSTATUS_SIE).
Definition intr_off : L unit :=
  x <- r_csr SSTATUS ;; w_csr SSTATUS (Z.ldiff x SSTATUS_SIE).
Definition intr_get : L bool :=
  x <- r_csr SSTATUS ;; ret (negb (Z.land x SSTATUS_SIE =? 0)).

(** ** push_off / pop_off *)

Definition push_off : L unit :=
  old <- intr_get ;;
  when old intr_off ;;
  c <- gets the_cpu ;;
  when (c_noff c =? 0) (modify (fun y => set_the_cpu (set_c_intena old (the_cpu y)) y)) ;;
  modify (fun y => set_the_cpu (set_c_noff (c_noff (the_cpu y) + 1) (the_cpu y)) y).

Definition pop_off : L unit :=
  i <- intr_get ;;
  if i then panic "pop_off - interruptible" else
  c <- gets the_cpu ;;
  if c_noff c <? 1 then panic "pop_off" else
  modify (fun y => set_the_cpu (set_c_noff (c_noff (the_cpu y) - 1) (the_cpu y)) y) ;;
  c <- gets the_cpu ;;
  when ((c_noff c =? 0) && c_intena c) intr_on.

(** ** Locks *)

Definition lock_of (lk : lockid) (y : sync) : spinlock :=
  default (mkSpin false "" None 0 0) (locks y !! lk).
Definition set_lock (lk : lockid) (l : spinlock) (y : sync) : sync :=
  set_locks (<[lk := l]> (locks y)) y.

Abbreviation NLOCK := 1000%nat.

Definition initlock (lk : lockid) (name : string) : L unit :=
  modify (set_lock lk (mkSpin false name None 0 0)) ;;
  t <- gets lock_table ;;
  if (NLOCK <=? length t)%nat then panic "initlock" else
  modify (set_lock_table (t ++ [lk])).

(** Check whether this cpu is holding the lock. *)
Definition holding (lk : lockid) : L bool :=
  l <- gets (lock_of lk) ;;
  c <- mycpu ;;
  ret (lk_locked l && bool_decide (lk_cpu l = Some c)).

(** [__sync_lock_test_and_set(&lk->locked, 1)]: the old value. *)
Definition test_and_set (lk : lockid) : L bool :=
  l <- gets (lock_of lk) ;;
  modify (set_lock lk (set_lk_locked true l)) ;;
  ret (lk_locked l).

Definition acquire (lk : lockid) : L unit :=
  push_off ;;
  h <- holding lk ;;
  if h then panic "acquire" else
  l <- gets (lock_of lk) ;;
  modify (set_lock lk (set_lk_n (u32 (lk_n l + 1)) l)) ;;
  old <- test_and_set lk ;;
  if old then stuck "acquire: spinning on a lock held by another hart" else
  c <- mycpu ;;
  l <- gets (lock_of lk) ;;
  modify (set_lock lk (set_lk_cpu (Some c) l)).

Definition release (lk : lockid) : L unit :=
  h <- holding lk ;;
  if negb h then panic "release" else
  l <- gets (lock_of lk) ;;
  modify (set_lock lk (set_lk_cpu None l)) ;;
  l <- gets (lock_of lk) ;;
  modify (set_lock lk (set_lk_locked false l)) ;;
  pop_off.

(** ** Interrupt bit *)

Definition sie_bit (x : Z) : bool := negb (Z.land x SSTATUS_SIE =? 0).

Lemma sie_bit_testbit x : sie_bit x = Z.testbit x 1.
Proof.
  unfold sie_bit, SSTATUS_SIE. change (Z.shiftl 1 1) with (2 ^ 1).
  destruct (Z.testbit x 1) eqn:E.
  - apply negb_true_iff, Z.eqb_neq. intros H.
    assert (Z.testbit (Z.land x (2 ^ 1)) 1 = false) as H' by (rewrite H; apply Z.bits_0).
    rewrite Z.land_spec, E, Z.pow2_bits_true in H' by lia. done.
  - apply negb_false_iff, Z.eqb_eq. apply Z.bits_inj'. intros n Hn.
    rewrite Z.land_spec, Z.bits_0, Z.pow2_bits_eqb by lia.
    destruct (Z.eqb_spec 1 n) as [<-|]; [by rewrite E|apply andb_false_r].
Qed.

Lemma sie_bit_off x : sie_bit (Z.ldiff x SSTATUS_SIE) = false.
Proof.
  rewrite sie_bit_testbit. unfold SSTATUS_SIE. rewrite Z.ldiff_spec.
  change (Z.shiftl 1 1) with (2 ^ 1). rewrite Z.pow2_bits_true by lia. apply andb_false_r.
Qed.

(** Turning interrupts off and on again restores the register. *)
Lemma sie_off_on x : sie_bit x = true -> Z.lor (Z.ldiff x SSTATUS_SIE) SSTATUS_SIE = x.
Proof.
  rewrite sie_bit_testbit. intros H. unfold SSTATUS_SIE.
  change (Z.shiftl 1 1) with (2 ^ 1). apply Z.bits_inj'. intros n Hn.
  rewrite Z.lor_spec, Z.ldiff_spec, Z.pow2_bits_eqb by lia.
  destruct (Z.eqb_spec 1 n) as [<-|]; [by rewrite H|].
  by rewrite andb_true_r, orb_false_r.
Qed.

(** ** Exact effect of each operation *)

Definition wf_sync (y : sync) : Prop := (hart y < length (cpus y))%nat.
Definition sstatus (y : sync) : Z := default 0 (c_csr (the_cpu y) !! SSTATUS).
Definition intr_enabled (y : sync) : bool := sie_bit (sstatus y).

Lemma the_cpu_set c y : wf_sync y -> the_cpu (set_the_cpu c y) = c.
Proof.
  intros H. unfold the_cpu, set_the_cpu. cbn.
  rewrite list_lookup_total_alt, list_lookup_insert_eq; done.
Qed.

Lemma wf_set_the_cpu c y : wf_sync y -> wf_sync (set_the_cpu c y).
Proof. unfold wf_sync, set_the_cpu. cbn. by rewrite length_insert. Qed.

Lemma hart_set_the_cpu c y : hart (set_the_cpu c y) = hart y.
Proof. done. Qed.

Lemma set_set_the_cpu c c' y : set_the_cpu c (set_the_cpu c' y) = set_the_cpu c y.
Proof. unfold set_the_cpu. cbn. by rewrite list_insert_insert_eq. Qed.

Lemma set_the_cpu_id y : wf_sync y -> set_the_cpu (the_cpu y) y = y.
Proof.
  intros H. unfold set_the_cpu, the_cpu. destruct y as [h cs ls t]. cbn in *.
  unfold set_cpus. cbn. f_equal. apply list_insert_id.
  by rewrite list_lookup_lookup_total_lt.
Qed.

Lemma lock_of_set_the_cpu lk c y : lock_of lk (set_the_cpu c y) = lock_of lk y.
Proof. done. Qed.
Lemma the_cpu_set_lock lk l y : the_cpu (set_lock lk l y) = the_cpu y.
Proof. done. Qed.
Lemma lock_of_set_lock_eq lk l y : lock_of lk (set_lock lk l y) = l.
Proof. unfold lock_of, set_lock. cbn. by rewrite lookup_insert_eq. Qed.
Lemma lock_of_set_lock_ne lk lk' l y :
  lk <> lk' -> lock_of lk' (set_lock lk l y) = lock_of lk' y.
Proof. intros. unfold lock_of, set_lock. cbn. by rewrite lookup_insert_ne. Qed.
Lemma set_set_lock lk l l' y : set_lock lk l (set_lock lk l' y) = set_lock lk l y.
Proof. unfold set_lock. cbn. by rewrite insert_insert_eq. Qed.
Lemma set_lock_set_the_cpu lk l c y :
  set_lock lk l (set_the_cpu c y) = set_the_cpu c (set_lock lk l y).
Proof. done. Qed.

(** The cpu record after push_off, and after a pop_off that matches it. *)
Definition pushed (c : cpu) : cpu :=
  let x := default 0 (c_csr c !! SSTATUS) in
  let c1 := if sie_bit x
            then set_c_csr (<[SSTATUS := Z.ldiff x SSTATUS_SIE]> (c_csr c)) c else c in
  let c2 := if c_noff c =? 0 then set_c_intena (sie_bit x) c1 else c1 in
  set_c_noff (c_noff c + 1) c2.

Definition popped (c : cpu) : cpu :=
  let c1 := set_c_noff (c_noff c - 1) c in
  if (c_noff c1 =? 0) && c_intena c1
  then set_c_csr (<[SSTATUS := Z.lor (default 0 (c_csr c !! SSTATUS)) SSTATUS_SIE]> (c_csr c)) c1
  else c1.

Definition pushed_sync (y : sync) : sync := set_the_cpu (pushed (the_cpu y)) y.
Definition popped_sync (y : sync) : sync := set_the_cpu (popped (the_cpu y)) y.

Lemma set_set_c_noff v w c : set_c_noff v (set_c_noff w c) = set_c_noff v c.
Proof. done. Qed.

Lemma push_off_eq y : wf_sync y -> push_off y = Ok tt (pushed_sync y).
Proof.
  intros Hwf. unfold push_off, pushed_sync, pushed, intr_get, intr_off, r_csr, w_csr.
  unfold bind, gets, modify, when, ret. cbn [bind_outcome].
  fold (sie_bit (default 0 (c_csr (the_cpu y) !! SSTATUS))).
  destruct (sie_bit _) eqn:Es; cbn [bind_outcome];
    rewrite ?the_cpu_set by auto; cbn [c_noff set_c_csr];
    destruct (c_noff (the_cpu y) =? 0); cbn [bind_outcome];
    by rewrite ?the_cpu_set, ?set_set_the_cpu by auto using wf_set_the_cpu.
Qed.

Lemma pop_off_eq y :
  wf_sync y -> intr_enabled y = false -> 1 <= c_noff (the_cpu y) ->
  pop_off y = Ok tt (popped_sync y).
Proof.
  intros Hwf Hi Hn. unfold pop_off, popped_sync, popped, intr_get, intr_on, r_csr, w_csr.
  unfold bind, gets, modify, when, ret. cbn [bind_outcome].
  unfold intr_enabled, sstatus, sie_bit in Hi. rewrite Hi.
  destruct (Z.ltb_spec (c_noff (the_cpu y)) 1); [lia|]. cbn [bind_outcome].
  rewrite the_cpu_set by done. cbn [c_noff c_intena set_c_noff].
  destruct (_ && _); cbn [bind_outcome]; [|done].
  by rewrite the_cpu_set, set_set_the_cpu by done.
Qed.

Lemma pushed_not_interruptible y : wf_sync y -> intr_enabled (pushed_sync y) = false.
Proof.
  intros Hwf. unfold intr_enabled, sstatus, pushed_sync. rewrite the_cpu_set by done.
  unfold pushed. set (x := default 0 (c_csr (the_cpu y) !! SSTATUS)). destruct (sie_bit x) eqn:E;
    destruct (c_noff (the_cpu y) =? 0); cbn [c_csr set_c_noff set_c_intena set_c_csr];
    rewrite ?lookup_insert_eq; cbn [default from_option]; first [apply sie_bit_off | exact E].
Qed.

(** [pop_off] undoes the [push_off] that matches it: nesting depth and
    interrupt state are those found, only the saved [intena] is refreshed. *)
Definition refreshed (c : cpu) : cpu :=
  if c_noff c =? 0
  then set_c_intena (sie_bit (default 0 (c_csr c !! SSTATUS))) c else c.

Definition intr_consistent (c : cpu) : Prop :=
  0 <= c_noff c /\
  (c_noff c <> 0 -> sie_bit (default 0 (c_csr c !! SSTATUS)) = false).

Lemma popped_pushed c : intr_consistent c -> popped (pushed c) = refreshed c.
Proof.
  destruct c as [pr no ie cs]. intros [Hn Hc]. unfold popped, pushed, refreshed.
  cbn [c_csr c_noff] in *. set (x := default 0 (cs !! SSTATUS)) in *.
  destruct (Z.eqb_spec no 0) as [->|Hz].
  - destruct (sie_bit x) eqn:E; cbn; [|done].
    rewrite lookup_insert_eq. cbn. rewrite insert_insert_eq, sie_off_on by done.
    unfold set_c_csr, set_c_intena. cbn. f_equal. apply insert_id.
    subst x. destruct (cs !! SSTATUS) eqn:Ec; [done|].
    exfalso. cbn in E. by rewrite sie_bit_testbit in E.
  - rewrite Hc by done. cbn. unfold set_c_noff. cbn.
    replace (no + 1 - 1) with no by lia. by destruct (Z.eqb_spec no 0).
Qed.

(** The state inside a critical section and after it. *)
Definition acquired (lk : lockid) (y : sync) : sync :=
  let l := lock_of lk y in
  set_lock lk (mkSpin true (lk_name l) (Some (hart y)) (u32 (lk_n l + 1)) (lk_nts l))
    (pushed_sync y).

Definition released (lk : lockid) (y : sync) : sync :=
  let l := lock_of lk y in
  popped_sync (set_lock lk (mkSpin false (lk_name l) None (lk_n l) (lk_nts l)) y).

Definition lock_free (lk : lockid) (y : sync) : Prop := lk_locked (lock_of lk y) = false.

Lemma holding_free lk y : lock_free lk y -> holding lk y = Ok false y.
Proof. intros H. unfold holding, bind, gets, mycpu, cpuid, gets, ret. cbn. by rewrite H. Qed.

Lemma acquire_eq lk y :
  wf_sync y -> lock_free lk y -> acquire lk y = Ok tt (acquired lk y).
Proof.
  intros Hwf Hf. unfold acquire. rewrite (bind_ok _ _ _ _ _ (push_off_eq y Hwf)).
  rewrite (bind_ok _ _ _ false (pushed_sync y)) by by apply holding_free.
  unfold bind, gets, modify, test_and_set, mycpu, cpuid, ret, bind, gets, modify.
  cbn [bind_outcome].
  rewrite !lock_of_set_lock_eq. change (lock_of lk (pushed_sync y)) with (lock_of lk y).
  cbn [lk_locked set_lk_n set_lk_cpu set_lk_locked]. rewrite Hf. cbn [bind_outcome].
  rewrite !lock_of_set_lock_eq, !set_set_lock. done.
Qed.

Lemma acquire_holding lk y :
  wf_sync y -> lk_locked (lock_of lk y) = true -> lk_cpu (lock_of lk y) = Some (hart y) ->
  acquire lk y = Panic "acquire".
Proof.
  intros Hwf Hl Hc. unfold acquire. rewrite (bind_ok _ _ _ _ _ (push_off_eq y Hwf)).
  rewrite (bind_ok _ _ _ true (pushed_sync y)); [done|].
  unfold holding, bind, gets, mycpu, cpuid, gets, ret. cbn [bind_outcome].
  change (lock_of lk (pushed_sync y)) with (lock_of lk y).
  by rewrite Hl, Hc, bool_decide_eq_true_2.
Qed.

Definition held (lk : lockid) (y : sync) : Prop :=
  lk_locked (lock_of lk y) = true /\ lk_cpu (lock_of lk y) = Some (hart y).

Lemma holding_held lk y : held lk y -> holding lk y = Ok true y.
Proof.
  intros [Hl Hc]. unfold holding, bind, gets, mycpu, cpuid, gets, ret. cbn.
  by rewrite Hl, Hc, bool_decide_eq_true_2.
Qed.

Lemma release_eq lk y :
  wf_sync y -> held lk y -> intr_enabled y = false -> 1 <= c_noff (the_cpu y) ->
  release lk y = Ok tt (released lk y).
Proof.
  intros Hwf Hh Hi Hn. unfold release.
  rewrite (bind_ok _ _ _ true y) by by apply holding_held. cbn [negb].
  unfold bind, gets, modify. cbn [bind_outcome].
  rewrite lock_of_set_lock_eq, set_set_lock. cbn [set_lk_locked set_lk_cpu lk_name lk_n lk_nts lk_cpu].
  rewrite pop_off_eq; done.
Qed.

Lemma release_not_holding lk y : ~ held lk y -> release lk y = Panic "release".
Proof.
  intros Hh. unfold release, holding, bind, gets, mycpu, cpuid, gets, ret. cbn [bind_outcome].
  destruct (lk_locked _) eqn:E; [|done]. rewrite bool_decide_eq_false_2; [done|].
  intros ?. by apply Hh.
Qed.

Lemma held_acquired lk y : held lk (acquired lk y).
Proof. unfold held, acquired. by rewrite lock_of_set_lock_eq. Qed.

Lemma wf_acquired lk y : wf_sync y -> wf_sync (acquired lk y).
Proof. intros. unfold acquired. by apply (wf_set_the_cpu). Qed.

Lemma acquired_noff lk y :
  wf_sync y -> c_noff (the_cpu (acquired lk y)) = c_noff (the_cpu y) + 1.
Proof.
  intros. unfold acquired. rewrite the_cpu_set_lock. unfold pushed_sync.
  by rewrite the_cpu_set.
Qed.

Lemma acquired_not_interruptible lk y : wf_sync y -> intr_enabled (acquired lk y) = false.
Proof. intros. by apply (pushed_not_interruptible y). Qed.

(** What a balanced acquire/release leaves behind: the statistics of the
    lock, and the refreshed [intena]. *)
Definition used (lk : lockid) (y : sync) : sync :=
  let l := lock_of lk y in
  set_lock lk (mkSpin false (lk_name l) None (u32 (lk_n l + 1)) (lk_nts l))
    (set_the_cpu (refreshed (the_cpu y)) y).

Lemma released_acquired lk y :
  wf_sync y -> intr_consistent (the_cpu y) -> released lk (acquired lk y) = used lk y.
Proof.
  intros Hwf Hc. unfold released, used, acquired.
  rewrite lock_of_set_lock_eq, set_set_lock. cbn [lk_name lk_n lk_nts].
  unfold popped_sync. rewrite the_cpu_set_lock. unfold pushed_sync.
  rewrite the_cpu_set by done. rewrite popped_pushed by done.
  rewrite <-set_lock_set_the_cpu, set_set_the_cpu. done.
Qed.

End Spinlock.
