(* ===== verification/SpinlockSMP.v ===== *)
(** * Spin locks on several harts (kernel/spinlock.c)

    The harts contend for one lock.  A step is one memory access of one hart
    in acquire() or release(), so that every interleaving of the accesses is a
    sequence of steps; push_off() and pop_off() touch only the hart's own
    state and are one step each.

    The theorems: at most one hart is in its critical section, the checks of
    acquire() and release() never fail, interrupts are off from push_off() to
    pop_off() and come back as they were, and the harts never deadlock. *)

From S2P Require Import Prelude Bytes KState Spinlock.

Module SpinlockSMP.

(** ** The harts *)

(** The next access of a hart. *)
Inductive pc :=
| Outside                        (* not in acquire() or release(), not holding *)
| A_locked                       (* acquire: holding() reads lk->locked *)
| A_owner                        (* acquire: holding() reads lk->cpu *)
| A_count                        (* fetch-and-add of lk->n *)
| A_tas                          (* test-and-set of lk->locked *)
| A_spin                         (* fetch-and-add of lk->nts *)
| A_cpu                          (* lk->cpu = mycpu() *)
| Inside                         (* the critical section *)
| R_locked                       (* release: holding() reads lk->locked *)
| R_owner                        (* release: holding() reads lk->cpu *)
| R_clear                        (* lk->cpu = 0 *)
| R_unlock                       (* lk->locked = 0 *)
| R_pop                          (* pop_off() *)
| Panicked (msg : string).

Record thread := mkThread { t_pc : pc; t_sie : bool; t_noff : Z; t_intena : bool }.
Definition at_pc (p : pc) (t : thread) : thread := mkThread p (t_sie t) (t_noff t) (t_intena t).

Definition push_off (t : thread) : thread :=
  let old := t_sie t in
  mkThread (t_pc t) false (t_noff t + 1) (if t_noff t =? 0 then old else t_intena t).

Definition pop_off (t : thread) : thread :=
  if t_sie t then at_pc (Panicked "pop_off - interruptible") t
  else if t_noff t <? 1 then at_pc (Panicked "pop_off") t
  else
    let noff := t_noff t - 1 in
    mkThread Outside (if (noff =? 0) && t_intena t then true else false) noff (t_intena t).

(** The next access of hart [h]. *)
Definition access (h : nat) (lk : spinlock) (t : thread) : spinlock * thread :=
  match t_pc t with
  | Outside => (lk, at_pc A_locked (push_off t))
  | A_locked => (lk, at_pc (if lk_locked lk then A_owner else A_count) t)
  | A_owner => (lk, at_pc (if bool_decide (lk_cpu lk = Some h) then Panicked "acquire" else A_count) t)
  | A_count => (set_lk_n (u32 (lk_n lk + 1)) lk, at_pc A_tas t)
  | A_tas => (set_lk_locked true lk, at_pc (if lk_locked lk then A_spin else A_cpu) t)
  | A_spin => (set_lk_nts (u32 (lk_nts lk + 1)) lk, at_pc A_tas t)
  | A_cpu => (set_lk_cpu (Some h) lk, at_pc Inside t)
  | Inside => (lk, at_pc R_locked t)
  | R_locked => (lk, at_pc (if lk_locked lk then R_owner else Panicked "release") t)
  | R_owner => (lk, at_pc (if bool_decide (lk_cpu lk = Some h) then R_clear else Panicked "release") t)
  | R_clear => (set_lk_cpu None lk, at_pc R_unlock t)
  | R_unlock => (set_lk_locked false lk, at_pc R_pop t)
  | R_pop => (lk, pop_off t)
  | Panicked _ => (lk, t)
  end.

Record machine := mkMachine { m_lock : spinlock; m_harts : list thread }.

Definition advance (h : nat) (m : machine) : machine :=
  match m_harts m !! h with
  | None => m
  | Some t => let '(lk, t') := access h (m_lock m) t in mkMachine lk (<[h := t']> (m_harts m))
  end.

Inductive step : machine -> machine -> Prop :=
| step_hart m h t : m_harts m !! h = Some t -> step m (advance h m).

(** The lock is free and no hart uses it; a hart that holds other locks has
    its interrupts off. *)
Definition initial (m : machine) : Prop :=
  lk_locked (m_lock m) = false /\ lk_cpu (m_lock m) = None /\
  forall h t, m_harts m !! h = Some t -> t_pc t = Outside /\ 0 <= t_noff t /\ (0 < t_noff t -> t_sie t = false).

Definition reachable (m0 m : machine) : Prop := initial m0 /\ rtc step m0 m.

(** ** Regions *)

(** From the successful test-and-set to the release of the lock. *)
Definition critical (p : pc) : bool :=
  match p with A_cpu | Inside | R_locked | R_owner | R_clear | R_unlock => true | _ => false end.
(** The part of it in which lk->cpu is this hart. *)
Definition owner (p : pc) : bool :=
  match p with Inside | R_locked | R_owner | R_clear => true | _ => false end.

(** The interrupt state of a hart that started as [t0]. *)
Definition masked (t0 t : thread) : Prop :=
  match t_pc t with
  | Outside => t_sie t = t_sie t0 /\ t_noff t = t_noff t0
  | Panicked _ => False
  | _ => t_sie t = false /\ t_noff t = t_noff t0 + 1 /\ (t_noff t0 = 0 -> t_intena t = t_sie t0)
  end.

(** [holder] is the hart in its critical section. *)
Record inv (m0 m : machine) (holder : option nat) : Prop := {
  i_len : length (m_harts m) = length (m_harts m0);
  i_locked : lk_locked (m_lock m) = bool_decide (is_Some holder);
  i_crit : forall h t, m_harts m !! h = Some t -> critical (t_pc t) = bool_decide (holder = Some h);
  i_holder : forall h, holder = Some h -> exists t, m_harts m !! h = Some t /\ lk_cpu (m_lock m) = if owner (t_pc t) then Some h else None;
  i_none : holder = None -> lk_cpu (m_lock m) = None;
  i_masked : forall h t0 t, m_harts m0 !! h = Some t0 -> m_harts m !! h = Some t -> masked t0 t
}.

(** ** Invariance *)

Lemma owner_critical p : owner p = true -> critical p = true.
Proof. by destruct p. Qed.

(** The checks of acquire() and release() succeed. *)
Lemma checks m0 m o h t : inv m0 m o -> m_harts m !! h = Some t ->
  (critical (t_pc t) = true -> o = Some h /\ lk_locked (m_lock m) = true) /\ (owner (t_pc t) = true <-> lk_cpu (m_lock m) = Some h).
Proof.
  intros I Ht. pose proof (i_crit _ _ _ I _ _ Ht) as Hc. split; [|split].
  - rewrite Hc. intros ->%bool_decide_eq_true. by rewrite (i_locked _ _ _ I).
  - intros Ho. pose proof (owner_critical _ Ho) as Hcr. rewrite Hc in Hcr. apply bool_decide_eq_true in Hcr. destruct (i_holder _ _ _ I _ Hcr) as (t' & Ht' & ->). simplify_eq. by rewrite Ho.
  - intros Hcpu. destruct o as [h'|]; [|by rewrite (i_none _ _ _ I) in Hcpu]. destruct (i_holder _ _ _ I _ eq_refl) as (t' & Ht' & E). rewrite E in Hcpu. destruct (owner (t_pc t')) eqn:Eo; [|done]. by simplify_eq.
Qed.

(** What an access does to the holder and to the owner field. *)
Definition local_ok (h : nat) (lk lk' : spinlock) (p p' : pc) (o o' : option nat) : Prop :=
  lk_locked lk' = bool_decide (is_Some o') /\ critical p' = bool_decide (o' = Some h) /\
  ((o' = o /\ (o <> Some h -> lk_cpu lk' = lk_cpu lk)) \/ o = None /\ o' = Some h \/ o = Some h /\ o' = None /\ lk_cpu lk' = None) /\
  (o' = Some h -> lk_cpu lk' = if owner p' then Some h else None).

Lemma access_ok m0 m o h t lk t' : inv m0 m o -> m_harts m !! h = Some t -> access h (m_lock m) t = (lk, t') ->
  exists o', local_ok h (m_lock m) lk (t_pc t) (t_pc t') o o'.
Proof.
  intros I Ht Ha. destruct (checks _ _ _ _ _ I Ht) as [Hc Ho]. pose proof (i_crit _ _ _ I _ _ Ht) as Hcr. pose proof (i_locked _ _ _ I) as Hl.
  assert (Hsame : forall p, critical p = critical (t_pc t) -> owner p = owner (t_pc t) -> forall lk', lk_locked lk' = lk_locked (m_lock m) -> lk_cpu lk' = lk_cpu (m_lock m) -> local_ok h (m_lock m) lk' (t_pc t) p o o).
  { intros p E1 E2 lk' E3 E4. split_and!; [congruence|congruence|by left|]. intros ->. destruct (i_holder _ _ _ I _ eq_refl) as (u & Hu & E). simplify_eq. by rewrite E4, E, E2. }
  destruct t as [p sie noff ie]. unfold access in Ha. cbn in *. destruct p; cbn in *; simplify_eq; cbn.
  - exists o. by apply Hsame.
  - exists o. destruct (lk_locked (m_lock m)) eqn:E; by apply Hsame.
  - exists o. rewrite (bool_decide_false (lk_cpu (m_lock m) = Some h)) by (intros E; by apply Ho in E). by apply Hsame.
  - exists o. by apply Hsame.
  - destruct (lk_locked (m_lock m)) eqn:E; [exists o; by apply Hsame|]. exists (Some h). destruct o; [by rewrite bool_decide_true in Hl|]. split_and!; cbn; try done; [by rewrite bool_decide_true|right; left; done|by rewrite (i_none _ _ _ I)].
  - exists o. by apply Hsame.
  - destruct (Hc eq_refl) as [-> El]. exists (Some h). split_and!; cbn; try done. by left.
  - exists o. by apply Hsame.
  - destruct (Hc eq_refl) as [-> El]. rewrite El. exists (Some h). by apply Hsame.
  - destruct (Hc eq_refl) as [-> El]. rewrite bool_decide_true by (by apply Ho). exists (Some h). by apply Hsame.
  - destruct (Hc eq_refl) as [-> El]. exists (Some h). split_and!; cbn; try done. by left.
  - destruct (Hc eq_refl) as [-> El]. exists None. split_and!; cbn; try done. right; right. split_and!; try done. destruct (lk_cpu (m_lock m)) as [h'|] eqn:E; [|done].
    destruct (i_holder _ _ _ I _ eq_refl) as (u & Hu & E'). rewrite Ht in Hu. injection Hu as <-. cbn in E'. congruence.
  - exists o. unfold pop_off. cbn. destruct sie; [by apply Hsame|]. destruct (noff <? 1); by apply Hsame.
  - exists o. by apply Hsame.
Qed.

Lemma access_masked m0 m o h t lk t' t0 : inv m0 m o -> m_harts m !! h = Some t -> access h (m_lock m) t = (lk, t') ->
  masked t0 t -> 0 <= t_noff t0 -> (0 < t_noff t0 -> t_sie t0 = false) -> masked t0 t'.
Proof.
  intros I Ht Ha Hm H1 H2. destruct (checks _ _ _ _ _ I Ht) as [Hc Ho]. destruct t as [p sie noff ie]. unfold access, masked in *. cbn in *. destruct p; cbn in *; simplify_eq; cbn; try done.
  - destruct Hm as [-> ->]. split_and!; [done|done|]. by intros ->.
  - by destruct (lk_locked _).
  - by rewrite bool_decide_false by (intros E; by apply Ho in E).
  - by destruct (lk_locked _).
  - destruct (Hc eq_refl) as [_ ->]. done.
  - by rewrite bool_decide_true by (by apply Ho).
  - destruct Hm as (-> & -> & Hie). unfold pop_off. cbn. destruct (Z.ltb_spec (t_noff t0 + 1) 1); [lia|]. cbn. split; [|lia]. replace (t_noff t0 + 1 - 1) with (t_noff t0) by lia.
    destruct (Z.eqb_spec (t_noff t0) 0) as [E|]; cbn; [rewrite Hie by done; by destruct (t_sie t0)|]. symmetry. apply H2. lia.
Qed.

Lemma step_inv m0 m m' o : initial m0 -> inv m0 m o -> step m m' -> exists o', inv m0 m' o'.
Proof.
  intros (_ & _ & Hinit) I Hs. destruct Hs as [m h t Ht]. unfold advance. rewrite Ht. destruct (access h (m_lock m) t) as [lk t'] eqn:Ha.
  destruct (access_ok _ _ _ _ _ _ _ I Ht Ha) as (o' & E1 & E2 & E3 & E4). exists o'.
  assert (Hself : <[h := t']> (m_harts m) !! h = Some t') by (apply list_lookup_insert_eq; by eapply lookup_lt_Some).
  assert (Hother : forall x, x <> h -> <[h := t']> (m_harts m) !! x = m_harts m !! x) by (intros; by rewrite list_lookup_insert_ne).
  split; cbn.
  - rewrite length_insert. apply I.
  - done.
  - intros x u Hx. destruct (decide (x = h)) as [->|Hne]; [rewrite Hself in Hx; by simplify_eq|]. rewrite Hother in Hx by done. rewrite (i_crit _ _ _ I _ _ Hx).
    destruct E3 as [[-> _]|[[-> ->]|(-> & -> & _)]]; [done|..]; by rewrite !bool_decide_false by congruence.
  - intros x Hx. destruct (decide (x = h)) as [->|Hne]; [exists t'; split; [done|by apply E4]|]. rewrite Hother by done.
    destruct E3 as [[-> Hcpu]|[[-> ->]|(-> & -> & _)]]; [|by simplify_eq|done]. rewrite Hcpu by congruence. by apply (i_holder _ _ _ I).
  - intros ->. destruct E3 as [[<- Hcpu]|[[-> ?]|(_ & _ & ?)]]; [|done|done]. rewrite Hcpu by done. by apply (i_none _ _ _ I).
  - intros x t0 u H0 Hx. destruct (decide (x = h)) as [->|Hne]; [|rewrite Hother in Hx by done; by eapply (i_masked _ _ _ I)]. rewrite Hself in Hx. simplify_eq.
    destruct (Hinit _ _ H0) as (_ & ? & ?). eapply access_masked; try done. by eapply (i_masked _ _ _ I).
Qed.

Lemma steps_inv m0 m m' : initial m0 -> rtc step m m' -> forall o, inv m0 m o -> exists o', inv m0 m' o'.
Proof. intros Hi Hr. induction Hr as [m|m m1 m2 Hs Hr IH]; intros o I; [by exists o|]. destruct (step_inv _ _ _ _ Hi I Hs) as [o1 I1]. by eapply IH. Qed.

Lemma reachable_inv m0 m : reachable m0 m -> exists o, inv m0 m o.
Proof.
  intros [Hi Hr]. apply (steps_inv m0 m0 m Hi Hr None). destruct Hi as (Hl & Hc & Hh). split; [done|done| |done|done|].
  - intros h t Ht. destruct (Hh _ _ Ht) as (-> & _). by rewrite bool_decide_false.
  - intros h t0 t H1 H2. simplify_eq. destruct (Hh _ _ H1) as (E & _). unfold masked. by rewrite E.
Qed.


(** ** Progress *)

(** The accesses the holder still makes before it releases the lock. *)
Definition remaining (p : pc) : nat :=
  match p with A_cpu => 6 | Inside => 5 | R_locked => 4 | R_owner => 3 | R_clear => 2 | R_unlock => 1 | _ => 0 end.

Definition run_schedule (hs : list nat) (m : machine) : machine := foldl (fun m h => advance h m) m hs.

Lemma holder_advances m0 m h t : inv m0 m (Some h) -> m_harts m !! h = Some t -> exists lk t', advance h m = mkMachine lk (<[h := t']> (m_harts m)) /\
  (critical (t_pc t') = true /\ (remaining (t_pc t') < remaining (t_pc t))%nat \/ lk_locked lk = false).
Proof.
  intros I Ht. destruct (checks _ _ _ _ _ I Ht) as [Hc Ho]. pose proof (i_crit _ _ _ I _ _ Ht) as Hcr. rewrite bool_decide_true in Hcr by done. destruct (Hc Hcr) as [_ Hl].
  unfold advance. rewrite Ht. destruct (access h (m_lock m) t) as [lk t'] eqn:Ha. exists lk, t'. split; [done|]. destruct t as [p sie noff ie]. unfold access in Ha. cbn in *.
  destruct p; cbn in *; try discriminate Hcr; injection Ha as <- <-; cbn; try (rewrite Hl; cbn); try (left; split; [done|cbn; lia]); [|by right].
  rewrite bool_decide_true by (by apply Ho). left. split; [done|cbn; lia].
Qed.

Lemma step_advance m h t : m_harts m !! h = Some t -> step m (advance h m).
Proof. apply step_hart. Qed.

Lemma holder_releases m0 h w k : initial m0 -> forall m t u, inv m0 m (Some h) -> m_harts m !! h = Some t -> m_harts m !! w = Some u -> critical (t_pc u) = false -> (remaining (t_pc t) <= k)%nat ->
  exists n, (n <= k)%nat /\ let m' := run_schedule (replicate n h) m in inv m0 m' None /\ m_harts m' !! w = Some u.
Proof.
  intros Hi. induction k as [|k IH]; intros m t u I Ht Hu Hpc Hk.
  - pose proof (i_crit _ _ _ I _ _ Ht) as Hcr. rewrite bool_decide_true in Hcr by done. destruct (t_pc t); cbn in *; done || lia.
  - assert (Hne : w <> h) by (intros ->; pose proof (i_crit _ _ _ I _ _ Hu) as Hcr; rewrite Hpc, bool_decide_true in Hcr by done; done).
    destruct (holder_advances _ _ _ _ I Ht) as (lk & t' & E & Hcase). assert (Hu' : m_harts (advance h m) !! w = Some u) by (by rewrite E; cbn; rewrite list_lookup_insert_ne).
    destruct (step_inv _ _ _ _ Hi I (step_advance _ _ _ Ht)) as [o' I'].
    destruct Hcase as [[Hcr Hlt]|Hl].
    2: { exists 1%nat. split; [lia|]. split; [|exact Hu']. destruct o' as [x|]; [|exact I']. pose proof (i_locked _ _ _ I') as El. rewrite E, bool_decide_true in El by done. cbn in El. congruence. }
    assert (Ht' : m_harts (advance h m) !! h = Some t') by (rewrite E; cbn; apply list_lookup_insert_eq; by eapply lookup_lt_Some).
    pose proof (i_crit _ _ _ I' _ _ Ht') as Ho'. rewrite Hcr in Ho'. symmetry in Ho'. apply bool_decide_eq_true in Ho' as ->.
    destruct (IH _ _ _ I' Ht' Hu' Hpc) as (n & Hn & H1 & H2); [lia|]. exists (S n). split; [lia|]. done.
Qed.

(** In acquire(), before the lock is taken. *)
Definition acquiring (p : pc) : bool :=
  match p with A_locked | A_owner | A_count | A_tas | A_spin => true | _ => false end.

Lemma acquiring_outside p : acquiring p = true -> critical p = false.
Proof. by destruct p. Qed.

Lemma schedule_app hs hs' m : run_schedule (hs ++ hs') m = run_schedule hs' (run_schedule hs m).
Proof. apply foldl_app. Qed.

Lemma advance_at m w u : m_harts m !! w = Some u -> m_lock (advance w m) = (access w (m_lock m) u).1 /\ m_harts (advance w m) !! w = Some (access w (m_lock m) u).2.
Proof.
  intros Hu. unfold advance. rewrite Hu. destruct (access w (m_lock m) u) as [lk u']. cbn. split; [done|]. apply list_lookup_insert_eq. by eapply lookup_lt_Some.
Qed.

(** The accesses left until acquire() returns, when the lock is free. *)
Definition to_take (p : pc) : nat :=
  match p with A_locked | A_owner => 4 | A_count | A_spin => 3 | A_tas => 2 | _ => 0 end.

Lemma takes_free m0 m w u : inv m0 m None -> m_harts m !! w = Some u -> acquiring (t_pc u) = true ->
  exists k, (k <= 4)%nat /\ let m' := run_schedule (replicate k w) m in
    (exists u', m_harts m' !! w = Some u' /\ t_pc u' = Inside) /\ lk_locked (m_lock m') = true /\ lk_cpu (m_lock m') = Some w.
Proof.
  intros I Hu Hp. exists (to_take (t_pc u)). split; [destruct (t_pc u); cbn; lia|]. pose proof (i_locked _ _ _ I) as Hl. pose proof (i_none _ _ _ I eq_refl) as Hc.
  rewrite bool_decide_false in Hl by (by intros []). destruct u as [p sie noff ie]. cbn in Hp.
  assert (Htake : forall m1 s1 n1 e1, m_harts m1 !! w = Some (mkThread A_tas s1 n1 e1) -> lk_locked (m_lock m1) = false ->
    (exists u', m_harts (advance w (advance w m1)) !! w = Some u' /\ t_pc u' = Inside) /\ lk_locked (m_lock (advance w (advance w m1))) = true /\ lk_cpu (m_lock (advance w (advance w m1))) = Some w).
  { intros m1 s1 n1 e1 H1 L1. destruct (advance_at _ _ _ H1) as [E1 H2]. cbn in E1, H2. rewrite L1 in H2. destruct (advance_at _ _ _ H2) as [E2 H3]. rewrite E2, E1. cbn. split; [by eexists|done]. }
  assert (Hcount : forall m1 s1 n1 e1, m_harts m1 !! w = Some (mkThread A_count s1 n1 e1) -> lk_locked (m_lock m1) = false ->
    (exists u', m_harts (advance w (advance w (advance w m1))) !! w = Some u' /\ t_pc u' = Inside) /\ lk_locked (m_lock (advance w (advance w (advance w m1)))) = true /\ lk_cpu (m_lock (advance w (advance w (advance w m1)))) = Some w).
  { intros m1 s1 n1 e1 H1 L1. destruct (advance_at _ _ _ H1) as [E1 H2]. eapply Htake; [exact H2|]. by rewrite E1. }
  destruct (advance_at _ _ _ Hu) as [E1 H2]. destruct p; try discriminate Hp; cbn [to_take t_pc replicate run_schedule foldl]; cbn in E1, H2.
  - rewrite Hl in H2. eapply Hcount; [exact H2|by rewrite E1].
  - rewrite Hc, bool_decide_false in H2 by done. eapply Hcount; [exact H2|by rewrite E1].
  - by eapply Hcount.
  - by eapply Htake.
  - eapply Htake; [exact H2|by rewrite E1].
Qed.

(** ** Claims *)

(** C4: Spin locks exclude each other.  Whatever the interleaving of the
    harts' memory accesses in acquire() and release(), at most one hart is
    between its successful test-and-set and its release of the lock; no
    check of acquire(), release() or pop_off() panics; interrupts are off on
    a hart from push_off() to pop_off(), and a hart that has left release()
    has the interrupt state and nesting depth it started with. *)
Theorem spinlock_mutual_exclusion m0 m : reachable m0 m ->
  (forall h h' t t', m_harts m !! h = Some t -> m_harts m !! h' = Some t' -> critical (t_pc t) = true -> critical (t_pc t') = true -> h = h') /\
  (forall h t0 t, m_harts m0 !! h = Some t0 -> m_harts m !! h = Some t ->
     match t_pc t with
     | Panicked _ => False
     | Outside => t_sie t = t_sie t0 /\ t_noff t = t_noff t0
     | _ => t_sie t = false
     end).
Proof.
  intros Hr. destruct (reachable_inv _ _ Hr) as [o I]. split.
  - intros h h' t t' Ht Ht' Hc Hc'. rewrite (i_crit _ _ _ I _ _ Ht) in Hc. rewrite (i_crit _ _ _ I _ _ Ht') in Hc'. apply bool_decide_eq_true in Hc, Hc'. congruence.
  - intros h t0 t H0 Ht. pose proof (i_masked _ _ _ I _ _ _ H0 Ht) as Hm. unfold masked in Hm. by destruct (t_pc t); try destruct Hm.
Qed.

(** Two harts, one of which holds another lock. *)
Definition lock0 : spinlock := mkSpin false "lock" None 0 0.
Definition two_harts : machine := mkMachine lock0 [mkThread Outside true 0 false; mkThread Outside false 1 true].
Lemma two_harts_initial : initial two_harts.
Proof. split_and!; [done|done|]. intros [|[|h]] t; cbn; intros [= <-]; split_and!; done || lia. Qed.
Lemma schedule_reachable hs : Forall (fun h => h < 2)%nat hs -> forall m, length (m_harts m) = 2%nat -> rtc step m (run_schedule hs m).
Proof.
  induction 1 as [|h hs Hh _ IH]; intros m Hlen; [done|]. cbn. destruct (lookup_lt_is_Some_2 (m_harts m) h) as [t Ht]; [lia|]. eapply rtc_l; [by apply (step_hart m h t)|].
  apply IH. unfold advance. rewrite Ht. destruct (access h (m_lock m) t). cbn. by rewrite length_insert.
Qed.

Lemma spinlock_mutual_exclusion_witness : let m := run_schedule [0; 0; 1; 1; 0; 0; 1; 0; 1]%nat two_harts in
  (t_pc <$> m_harts m) = [Inside; A_spin] /\ forall h h' t t', m_harts m !! h = Some t -> m_harts m !! h' = Some t' -> critical (t_pc t) = true -> critical (t_pc t') = true -> h = h'.
Proof.
  intros m. split; [vm_compute; reflexivity|]. apply (spinlock_mutual_exclusion two_harts m). split; [exact two_harts_initial|]. apply schedule_reachable; [repeat constructor; lia|reflexivity].
Defined.

(** C33: A hart in acquire() can always get the lock.  In every reachable state,
    for every hart that has entered acquire() and has not got the lock (it is
    about to read the lock, to count, to test-and-set, or in the loop after a
    test-and-set that failed), there is a hart whose next at most six accesses
    release the lock, or the lock is free; and then at most four accesses of
    the waiting hart take it and return from acquire() as the owner.  So the
    harts never deadlock, and a failed test-and-set is tried again. *)
Theorem spinlock_progress m0 m w u : reachable m0 m -> m_harts m !! w = Some u -> acquiring (t_pc u) = true ->
  exists h n k, (n <= 6)%nat /\ (k <= 4)%nat /\ let m' := run_schedule (replicate n h ++ replicate k w) m in
    (exists u', m_harts m' !! w = Some u' /\ t_pc u' = Inside) /\ lk_locked (m_lock m') = true /\ lk_cpu (m_lock m') = Some w.
Proof.
  intros Hr Hu Hpc. destruct (reachable_inv _ _ Hr) as [o I]. destruct o as [h|].
  - destruct (i_holder _ _ _ I h eq_refl) as (t & Ht & _).
    destruct (holder_releases m0 h w 6 (proj1 Hr) m t u I Ht Hu (acquiring_outside _ Hpc)) as (n & Hn & I' & Hw); [destruct (t_pc t); cbn; lia|].
    destruct (takes_free _ _ _ _ I' Hw Hpc) as (k & Hk & Hm). exists h, n, k. split; [done|]. split; [done|]. cbv zeta. rewrite schedule_app. exact Hm.
  - destruct (takes_free _ _ _ _ I Hu Hpc) as (k & Hk & Hm). exists w, 0%nat, k. split; [lia|]. split; [done|]. exact Hm.
Qed.

(** The second hart has failed its test-and-set while the first one holds the lock. *)
Lemma spinlock_progress_witness : let m := run_schedule [0; 0; 1; 1; 0; 0; 1; 0; 1]%nat two_harts in (t_pc <$> m_harts m) = [Inside; A_spin] /\
  exists h n k, (n <= 6)%nat /\ (k <= 4)%nat /\ let m' := run_schedule (replicate n h ++ replicate k 1%nat) m in
    (exists u', m_harts m' !! 1%nat = Some u' /\ t_pc u' = Inside) /\ lk_locked (m_lock m') = true /\ lk_cpu (m_lock m') = Some 1%nat.
Proof.
  intros m. split; [vm_compute; reflexivity|]. eapply (spinlock_progress two_harts m 1%nat).
  - split; [exact two_harts_initial|]. apply schedule_reachable; [repeat constructor; lia|reflexivity].
  - vm_compute. reflexivity.
  - reflexivity.
Defined.

End SpinlockSMP.
