(* ===== verification/Kernel.v ===== *)
(** * Kernel computations: lifting the lock layer and reasoning about it

    [lift_sy] runs a [sync] computation inside the kernel state.  [owns] is
    the abstract view of the lock layer that the other components use: which
    hart and process are executing and exactly which spin locks this hart
    holds, in place of counters, nesting depths and register bits.  The rules
    for acquire, release and myproc are stated on it. *)

From S2P Require Import Prelude Bytes KState Spinlock.

Fixpoint lift_outcome {A} (s : kstate) (o : outcome sync A) : outcome kstate A :=
  match o with
  | Ok a y => Ok a (set_sy y s)
  | Panic msg => Panic msg
  | Swtch y k => Swtch (set_sy y s) (fun s' => lift_outcome s' (k (sy s')))
  | Stuck why => Stuck why
  end.

Definition lift_sy {A} (m : M sync A) : K A := fun s => lift_outcome s (m (sy s)).

Definition acquire (lk : lockid) : K unit := lift_sy (Spinlock.acquire lk).
Definition release (lk : lockid) : K unit := lift_sy (Spinlock.release lk).
Definition holding (lk : lockid) : K bool := lift_sy (Spinlock.holding lk).
Definition initlock (lk : lockid) (name : string) : K unit :=
  lift_sy (Spinlock.initlock lk name).
Definition push_off : K unit := lift_sy Spinlock.push_off.
Definition pop_off : K unit := lift_sy Spinlock.pop_off.
Definition cpuid : K nat := lift_sy Spinlock.cpuid.
Definition r_csr (r : csr) : K Z := lift_sy (Spinlock.r_csr r).
Definition w_csr (r : csr) (v : Z) : K unit := lift_sy (Spinlock.w_csr r v).
Definition intr_on : K unit := lift_sy Spinlock.intr_on.
Definition intr_off : K unit := lift_sy Spinlock.intr_off.
Definition intr_get : K bool := lift_sy Spinlock.intr_get.
Definition the_cpu (s : kstate) : cpu := Spinlock.the_cpu (sy s).
Definition set_the_cpu (c : cpu) (s : kstate) : kstate :=
  set_sy (Spinlock.set_the_cpu c (sy s)) s.

(** Return the current struct proc *, or zero if none (proc.c). *)
Definition myproc : K (option nat) :=
  push_off ;;
  c <- gets the_cpu ;;
  pop_off ;;
  ret (c_proc c).

(** The index of the running process; only used where one is running. *)
Definition myproc' : K nat :=
  p <- myproc ;;
  match p with Some p => ret p | None => panic "no process" end.

Definition proc_at (i : nat) (s : kstate) : proc := procs (pt s) !!! i.
Definition set_proc_at (i : nat) (p : proc) (s : kstate) : kstate :=
  set_pt (set_procs (<[i := p]> (procs (pt s))) (pt s)) s.
Definition upd_proc (i : nat) (f : proc -> proc) : K unit :=
  modify (fun s => set_proc_at i (f (proc_at i s)) s).

(** ** The abstract view of the lock layer *)

Record owns (h : nat) (p : option nat) (ls : list lockid) (y : sync) : Prop := {
  own_wf : Spinlock.wf_sync y;
  own_hart : hart y = h;
  own_proc : c_proc (Spinlock.the_cpu y) = p;
  own_noff : c_noff (Spinlock.the_cpu y) = Z.of_nat (length ls);
  own_intr : ls <> [] -> Spinlock.intr_enabled y = false;
  own_nodup : NoDup ls;
  own_locks : forall lk, if bool_decide (lk ∈ ls)
                         then Spinlock.held lk y else Spinlock.lock_free lk y
}.

Lemma own_free h p ls y lk : owns h p ls y -> lk ∉ ls -> Spinlock.lock_free lk y.
Proof. intros [] Hn. specialize (own_locks0 lk). by rewrite bool_decide_eq_false_2 in own_locks0. Qed.
Lemma own_held h p ls y lk : owns h p ls y -> lk ∈ ls -> Spinlock.held lk y.
Proof. intros [] Hn. specialize (own_locks0 lk). by rewrite bool_decide_eq_true_2 in own_locks0. Qed.

Section lock_rules.
Import Spinlock.

Lemma owns_consistent h p ls y : owns h p ls y -> intr_consistent (Spinlock.the_cpu y).
Proof.
  intros []. split; [lia|]. intros Hn. apply own_intr0.
  intros ->. apply Hn. by rewrite own_noff0.
Qed.

Lemma pushed_proc c : c_proc (pushed c) = c_proc c.
Proof. unfold pushed. by repeat case_match. Qed.
Lemma popped_proc c : c_proc (popped c) = c_proc c.
Proof. unfold popped. by repeat case_match. Qed.
Lemma popped_noff c : c_noff (popped c) = c_noff c - 1.
Proof. unfold popped. by repeat case_match. Qed.

Lemma owns_acquired h p ls y lk :
  owns h p ls y -> lk ∉ ls -> owns h p (lk :: ls) (acquired lk y).
Proof.
  intros Ho Hlk. pose proof Ho as [Hwf Hh Hp Hn Hi Hnd Hl]. split.
  - by apply wf_acquired.
  - done.
  - unfold acquired. rewrite the_cpu_set_lock. unfold pushed_sync.
    rewrite the_cpu_set by done. by rewrite pushed_proc.
  - rewrite acquired_noff by done. cbn [length]. lia.
  - intros _. by apply acquired_not_interruptible.
  - by constructor.
  - intros lk'. destruct (decide (lk' = lk)) as [->|Hne].
    + rewrite bool_decide_eq_true_2 by set_solver. apply held_acquired.
    + specialize (Hl lk'). unfold held, lock_free, acquired in *.
      rewrite lock_of_set_lock_ne by done.
      change (lock_of lk' (pushed_sync y)) with (lock_of lk' y).
      repeat case_bool_decide; rewrite ?elem_of_cons in *; tauto.
Qed.

(** The lock released is the most recent one or not: order does not matter
    to the nesting counter. *)
Fixpoint drop_lock (lk : lockid) (ls : list lockid) : list lockid :=
  match ls with
  | [] => []
  | x :: ls' => if decide (x = lk) then drop_lock lk ls' else x :: drop_lock lk ls'
  end.

Lemma elem_drop lk lk' ls : lk' ∈ drop_lock lk ls <-> lk' <> lk /\ lk' ∈ ls.
Proof.
  induction ls as [|x ls IH]; cbn; [set_solver|].
  destruct (decide (x = lk)) as [->|]; set_solver.
Qed.

Lemma drop_none lk ls : lk ∉ ls -> drop_lock lk ls = ls.
Proof.
  induction ls as [|x ls IH]; intros H; [done|]. cbn.
  rewrite decide_False by set_solver. f_equal. apply IH. set_solver.
Qed.

Lemma drop_head lk ls : lk ∉ ls -> drop_lock lk (lk :: ls) = ls.
Proof. intros H. cbn. rewrite decide_True by done. by apply drop_none. Qed.

Lemma drop_cons_ne lk x ls : x <> lk -> drop_lock lk (x :: ls) = x :: drop_lock lk ls.
Proof. intros H. cbn. by rewrite decide_False. Qed.

Lemma NoDup_drop lk ls : NoDup ls -> NoDup (drop_lock lk ls).
Proof.
  induction 1 as [|x ls Hx Hnd IH]; cbn; [constructor|].
  destruct (decide (x = lk)); [done|]. constructor; [|done]. rewrite elem_drop. tauto.
Qed.

Lemma length_drop lk ls : NoDup ls -> lk ∈ ls -> length ls = S (length (drop_lock lk ls)).
Proof.
  induction 1 as [|x ls Hx Hnd IH]; intros Hin; [set_solver|].
  destruct (decide (x = lk)) as [->|Hne].
  - by rewrite drop_head.
  - rewrite drop_cons_ne by done. cbn. f_equal. apply IH. set_solver.
Qed.

Lemma owns_released h p ls y lk :
  owns h p ls y -> lk ∈ ls -> owns h p (drop_lock lk ls) (released lk y).
Proof.
  intros Ho Hin. pose proof Ho as [Hwf Hh Hp Hn Hi Hnd Hl].
  set (y1 := set_lock lk (mkSpin false (lk_name (lock_of lk y)) None
               (lk_n (lock_of lk y)) (lk_nts (lock_of lk y))) y).
  assert (Hwf1 : wf_sync y1) by done.
  assert (Hlen := length_drop lk ls Hnd Hin).
  assert (Hc : Spinlock.the_cpu (released lk y) = popped (Spinlock.the_cpu y)).
  { unfold released. fold y1. unfold popped_sync. by rewrite the_cpu_set. }
  split.
  - unfold released. fold y1. by apply wf_set_the_cpu.
  - done.
  - by rewrite Hc, popped_proc.
  - rewrite Hc, popped_noff, Hn. lia.
  - intros Hne. unfold intr_enabled, sstatus. rewrite Hc. unfold popped. cbn.
    rewrite Hn, Hlen. destruct (drop_lock lk ls) as [|? ls'] eqn:E; [done|].
    cbn [length]. destruct (Z.eqb_spec (Z.of_nat (S (S (length ls'))) - 1) 0); [lia|].
    cbn. apply Hi. intros ->. set_solver.
  - by apply NoDup_drop.
  - intros lk'. unfold held, lock_free, released. fold y1.
    change (lock_of lk' (popped_sync y1)) with (lock_of lk' y1).
    destruct (decide (lk' = lk)) as [->|Hne].
    + rewrite bool_decide_eq_false_2 by (rewrite elem_drop; tauto).
      unfold y1. by rewrite lock_of_set_lock_eq.
    + specialize (Hl lk'). unfold y1. rewrite lock_of_set_lock_ne by done.
      unfold held, lock_free in Hl. case_bool_decide as H1; case_bool_decide as H2;
        rewrite elem_drop in *; tauto.
Qed.

Lemma owns_push_pop h p ls y :
  owns h p ls y ->
  exists y', pop_off (pushed_sync y) = Ok tt y' /\ owns h p ls y'.
Proof.
  intros Ho. pose proof Ho as [Hwf Hh Hp Hn Hi Hnd Hl].
  assert (Hcons := owns_consistent _ _ _ _ Ho).
  assert (Hpc : Spinlock.the_cpu (pushed_sync y) = pushed (Spinlock.the_cpu y)).
  { unfold pushed_sync. by rewrite the_cpu_set. }
  eexists. split.
  - apply pop_off_eq; [by apply wf_set_the_cpu|by apply pushed_not_interruptible|].
    rewrite Hpc. cbn. lia.
  - assert (Hc : Spinlock.the_cpu (popped_sync (pushed_sync y)) = refreshed (Spinlock.the_cpu y)).
    { unfold popped_sync. rewrite the_cpu_set by by apply wf_set_the_cpu.
      rewrite Hpc. by apply popped_pushed. }
    split; [by apply wf_set_the_cpu, wf_set_the_cpu|done| | | |done|].
    + rewrite Hc. unfold refreshed. by case_match.
    + rewrite Hc. unfold refreshed. by case_match.
    + intros Hne. unfold intr_enabled, sstatus. rewrite Hc. unfold refreshed.
      specialize (Hi Hne). by case_match.
    + intros lk. specialize (Hl lk). done.
Qed.

End lock_rules.

Section run_lock_rules.
Lemma run_acquire h p ls lk s (Q : unit -> kstate -> Prop) :
  owns h p ls (sy s) -> lk ∉ ls ->
  (forall y', owns h p (lk :: ls) y' -> Q tt (set_sy y' s)) ->
  run (acquire lk) s Q.
Proof.
  intros Ho Hlk HQ. unfold run, acquire, lift_sy.
  rewrite Spinlock.acquire_eq; [|by apply Ho|by eapply own_free]. cbn.
  apply HQ. by apply owns_acquired.
Qed.

Lemma run_release h p ls lk s (Q : unit -> kstate -> Prop) :
  owns h p ls (sy s) -> lk ∈ ls ->
  (forall y', owns h p (drop_lock lk ls) y' -> Q tt (set_sy y' s)) ->
  run (release lk) s Q.
Proof.
  intros Ho Hlk HQ. unfold run, release, lift_sy.
  rewrite Spinlock.release_eq.
  - cbn. apply HQ. by apply owns_released.
  - apply Ho.
  - by eapply own_held.
  - apply Ho. intros ->. set_solver.
  - destruct Ho. rewrite own_noff0. destruct ls; [set_solver|]. cbn. lia.
Qed.

Lemma run_holding h p ls lk s (Q : bool -> kstate -> Prop) :
  owns h p ls (sy s) -> Q (bool_decide (lk ∈ ls)) s -> run (holding lk) s Q.
Proof.
  intros Ho HQ. unfold run, holding, lift_sy. case_bool_decide.
  - rewrite Spinlock.holding_held by by eapply own_held. by destruct s.
  - rewrite Spinlock.holding_free by by eapply own_free. by destruct s.
Qed.

Lemma run_myproc h p ls s (Q : option nat -> kstate -> Prop) :
  owns h p ls (sy s) ->
  (forall y', owns h p ls y' -> Q p (set_sy y' s)) ->
  run myproc s Q.
Proof.
  intros Ho HQ. unfold myproc. wp. unfold run at 1, push_off, lift_sy.
  rewrite Spinlock.push_off_eq by apply Ho. cbn [lift_outcome]. wp.
  unfold run, pop_off, lift_sy.
  change (sy (set_sy (Spinlock.pushed_sync (sy s)) s)) with (Spinlock.pushed_sync (sy s)).
  destruct (owns_push_pop _ _ _ _ Ho) as (y' & -> & Ho'). cbn [lift_outcome].
  unfold the_cpu. change (sy (set_sy (Spinlock.pushed_sync (sy s)) s)) with (Spinlock.pushed_sync (sy s)).
  unfold Spinlock.pushed_sync. rewrite Spinlock.the_cpu_set by apply Ho.
  rewrite pushed_proc, (own_proc _ _ _ _ Ho). by apply HQ.
Qed.

Lemma run_myproc' h p ls s (Q : nat -> kstate -> Prop) :
  owns h (Some p) ls (sy s) ->
  (forall y', owns h (Some p) ls y' -> Q p (set_sy y' s)) ->
  run myproc' s Q.
Proof.
  intros Ho HQ. unfold myproc'. wp. eapply run_myproc; [done|]. intros y' Ho'. wp. by apply HQ.
Qed.
End run_lock_rules.

(** Side conditions on lock lists. *)
Lemma not_elem_cons_lock (lk x : lockid) ls : lk <> x -> lk ∉ ls -> lk ∉ x :: ls.
Proof. set_solver. Qed.
#[export] Hint Resolve not_elem_cons_lock not_elem_of_nil : kernel.
