(* ===== verification/Csr.v ===== *)
(** * Control and status registers (kernel/riscv.h)

    The inline functions that read and write the registers of the hart that
    runs, and the bits the kernel uses of them. *)

From S2P Require Import Prelude KState Spinlock Kernel.

Module Csr.

Definition r_mstatus : K Z := r_csr MSTATUS.
Definition w_mstatus (x : Z) : K unit := w_csr MSTATUS x.
Definition w_mepc (x : Z) : K unit := w_csr MEPC x.
Definition r_sstatus : K Z := r_csr SSTATUS.
Definition w_sstatus (x : Z) : K unit := w_csr SSTATUS x.
Definition r_sip : K Z := r_csr SIP.
Definition w_sip (x : Z) : K unit := w_csr SIP x.
Definition r_sie : K Z := r_csr SIE.
Definition w_sie (x : Z) : K unit := w_csr SIE x.
Definition r_mie : K Z := r_csr MIE.
Definition w_mie (x : Z) : K unit := w_csr MIE x.
Definition w_sepc (x : Z) : K unit := w_csr SEPC x.
Definition r_sepc : K Z := r_csr SEPC.
Definition r_medeleg : K Z := r_csr MEDELEG.
Definition w_medeleg (x : Z) : K unit := w_csr MEDELEG x.
Definition r_mideleg : K Z := r_csr MIDELEG.
Definition w_mideleg (x : Z) : K unit := w_csr MIDELEG x.
Definition w_stvec (x : Z) : K unit := w_csr STVEC x.
Definition r_stvec : K Z := r_csr STVEC.
Definition w_mtvec (x : Z) : K unit := w_csr MTVEC x.
Definition w_satp (x : Z) : K unit := w_csr SATP x.
Definition r_satp : K Z := r_csr SATP.
Definition w_mscratch (x : Z) : K unit := w_csr MSCRATCH x.
Definition r_scause : K Z := r_csr SCAUSE.
Definition r_stval : K Z := r_csr STVAL.

(** ** Bits *)

Definition MSTATUS_MPP_MASK : Z := Z.shiftl 3 11.
Definition MSTATUS_MPP_S : Z := Z.shiftl 1 11.
Definition MSTATUS_MIE : Z := Z.shiftl 1 3.
Definition SSTATUS_SPP : Z := Z.shiftl 1 8.
Definition SSTATUS_SPIE : Z := Z.shiftl 1 5.
Definition SIE_SEIE : Z := Z.shiftl 1 9.
Definition SIE_STIE : Z := Z.shiftl 1 5.
Definition SIE_SSIE : Z := Z.shiftl 1 1.
Definition MIE_MTIE : Z := Z.shiftl 1 7.

End Csr.
