(* ===== verification/Riscv.v ===== *)
(** * Address arithmetic (kernel/riscv.h, kernel/memlayout.h)

    The macros that round addresses to pages, take a virtual address apart
    into page-table indices, and convert between physical addresses and page
    table entries, on 64-bit values with their wrap-around, and the
    arithmetic facts the page-table code relies on. *)

From S2P Require Import Prelude Bytes KState.

Definition PGROUNDUP (sz : Z) : Z := Z.ldiff (u64 (sz + PGSIZE - 1)) (PGSIZE - 1).
Definition PGROUNDDOWN (a : Z) : Z := Z.ldiff a (PGSIZE - 1).

Definition PA2PTE (pa : Z) : Z := u64 (Z.shiftl (Z.shiftr pa 12) 10).
Definition PTE2PA (pte : Z) : Z := u64 (Z.shiftl (Z.shiftr pte 10) 12).
Definition PTE_FLAGS (pte : Z) : Z := Z.land pte 1023.

Definition PXMASK : Z := 511.
Definition PXSHIFT (level : Z) : Z := PGSHIFT + 9 * level.
Definition PX (level va : Z) : Z := Z.land (Z.shiftr va (PXSHIFT level)) PXMASK.

Definition SATP_SV39 : Z := Z.shiftl 8 60.
Definition MAKE_SATP (pagetable : Z) : Z := Z.lor SATP_SV39 (Z.shiftr pagetable 12).

Definition KSTACK (p : Z) : Z := TRAMPOLINE - (p + 1) * 2 * PGSIZE.
Definition VIRTION (n : Z) : Z := 268435456 + (n + 1) * 4096.

(** Bit [flag] of a page table entry. *)
Definition pte_has (pte flag : Z) : bool := negb (Z.land pte flag =? 0).

(** ** Rounding *)

Lemma ldiff_page x : Z.ldiff x 4095 = x / 4096 * 4096.
Proof.
  change 4095 with (Z.ones 12). rewrite Z.ldiff_ones_r by lia.
  rewrite Z.shiftl_mul_pow2, Z.shiftr_div_pow2 by lia. done.
Qed.

Lemma PGROUNDDOWN_eq a : PGROUNDDOWN a = a / 4096 * 4096.
Proof. apply ldiff_page. Qed.

Lemma PGROUNDUP_eq a : 0 <= a <= 2 ^ 64 - 4096 -> PGROUNDUP a = (a + 4095) / 4096 * 4096.
Proof.
  intros. unfold PGROUNDUP. rewrite u64_small by lia.
  change (PGSIZE - 1) with 4095. rewrite ldiff_page. do 2 f_equal. lia.
Qed.

Lemma PGROUNDDOWN_spec a :
  PGROUNDDOWN a mod 4096 = 0 /\ PGROUNDDOWN a <= a < PGROUNDDOWN a + 4096.
Proof.
  rewrite PGROUNDDOWN_eq. rewrite Z.mod_mul by lia.
  pose proof (Z.div_mod a 4096 ltac:(lia)). pose proof (Z.mod_pos_bound a 4096). lia.
Qed.

Lemma PGROUNDUP_spec a :
  0 <= a <= 2 ^ 64 - 4096 ->
  PGROUNDUP a mod 4096 = 0 /\ a <= PGROUNDUP a < a + 4096.
Proof.
  intros H. rewrite PGROUNDUP_eq by done. rewrite Z.mod_mul by lia.
  pose proof (Z.div_mod (a + 4095) 4096 ltac:(lia)).
  pose proof (Z.mod_pos_bound (a + 4095) 4096). lia.
Qed.

Lemma PGROUNDDOWN_aligned a : a mod 4096 = 0 -> PGROUNDDOWN a = a.
Proof. intros H. rewrite PGROUNDDOWN_eq. pose proof (Z.div_mod a 4096). lia. Qed.

Lemma PGROUNDUP_aligned a : 0 <= a <= 2 ^ 64 - 4096 -> a mod 4096 = 0 -> PGROUNDUP a = a.
Proof.
  intros H Ha. rewrite PGROUNDUP_eq by done. pose proof (Z.div_mod a 4096 ltac:(lia)).
  assert (a + 4095 = (a / 4096) * 4096 + 4095) as -> by lia.
  rewrite Z.div_add_l by lia. change (4095 / 4096) with 0. lia.
Qed.

(** ** Page table entries *)

Lemma PA2PTE_eq pa : 0 <= pa < 2 ^ 56 -> PA2PTE pa = pa / 4096 * 1024.
Proof.
  intros H. unfold PA2PTE. rewrite Z.shiftl_mul_pow2, Z.shiftr_div_pow2 by lia.
  change (2 ^ 12) with 4096. change (2 ^ 10) with 1024.
  apply u64_small. pose proof (Z.div_mod pa 4096 ltac:(lia)).
  pose proof (Z.mod_pos_bound pa 4096). lia.
Qed.

(** An entry built from a page address and flag bits: the address comes back
    unchanged, and so do the flags. *)
Lemma lor_flags pa fl : 0 <= pa < 2 ^ 56 -> 0 <= fl < 1024 ->
  Z.lor (PA2PTE pa) fl = pa / 4096 * 1024 + fl.
Proof.
  intros Hp Hf. rewrite PA2PTE_eq by done. symmetry.
  rewrite <-Z.add_lor_land.
  enough (Z.land (pa / 4096 * 1024) fl = 0) as -> by lia.
  apply Z.bits_inj'. intros n Hn. rewrite Z.land_spec, Z.bits_0.
  change 1024 with (2 ^ 10). destruct (decide (n < 10)).
  - by rewrite Z.mul_pow2_bits_low.
  - rewrite andb_comm, Z.bits_above_log2; [done|lia|].
    destruct (decide (fl = 0)) as [->|]; [cbn; lia|].
    apply Z.log2_lt_pow2; [lia|]. apply Z.lt_le_trans with (2 ^ 10); [lia|].
    apply Z.pow_le_mono_r; lia.
Qed.

Lemma PTE2PA_of pa fl : 0 <= pa < 2 ^ 56 -> pa mod 4096 = 0 -> 0 <= fl < 1024 ->
  PTE2PA (Z.lor (PA2PTE pa) fl) = pa.
Proof.
  intros Hp Ha Hf. rewrite lor_flags by done. unfold PTE2PA.
  rewrite Z.shiftl_mul_pow2, Z.shiftr_div_pow2 by lia.
  change (2 ^ 12) with 4096. change (2 ^ 10) with 1024.
  rewrite Z.div_add_l by lia. rewrite (Z.div_small fl) by lia.
  pose proof (Z.div_mod pa 4096 ltac:(lia)). rewrite u64_small; lia.
Qed.

Lemma PTE_FLAGS_of pa fl : 0 <= pa < 2 ^ 56 -> 0 <= fl < 1024 ->
  PTE_FLAGS (Z.lor (PA2PTE pa) fl) = fl.
Proof.
  intros Hp Hf. rewrite lor_flags by done. unfold PTE_FLAGS.
  change 1023 with (Z.ones 10). rewrite Z.land_ones by lia.
  change (2 ^ 10) with 1024.
  rewrite Z.add_comm, Z.mod_add by lia. by apply Z.mod_small.
Qed.

Lemma pte_range pa fl : 0 <= pa < 2 ^ 56 -> 0 <= fl < 1024 ->
  0 <= Z.lor (PA2PTE pa) fl < 2 ^ 64.
Proof.
  intros Hp Hf. rewrite lor_flags by done.
  pose proof (Z.div_mod pa 4096 ltac:(lia)). pose proof (Z.mod_pos_bound pa 4096). lia.
Qed.

Lemma pte_has_flags pte flag : 0 <= flag < 1024 ->
  pte_has pte flag = pte_has (PTE_FLAGS pte) flag.
Proof.
  intros Hf. unfold pte_has, PTE_FLAGS. do 2 f_equal. rewrite <-Z.land_assoc. f_equal.
  change 1023 with (Z.ones 10). rewrite Z.land_comm, Z.land_ones by lia.
  symmetry. apply Z.mod_small. done.
Qed.

(** ** Page-table indices *)

Lemma PX_eq level va : 0 <= level -> PX level va = va / 2 ^ (12 + 9 * level) mod 512.
Proof.
  intros. unfold PX, PXMASK, PXSHIFT. change 511 with (Z.ones 9).
  rewrite Z.land_ones by lia. rewrite Z.shiftr_div_pow2 by lia. done.
Qed.

Lemma PX_range level va : 0 <= level -> 0 <= PX level va < 512.
Proof. intros. rewrite PX_eq by done. apply Z.mod_pos_bound. lia. Qed.

Lemma PX_top va : 0 <= va < MAXVA -> PX 2 va < 256.
Proof.
  intros Hv. rewrite PX_eq by lia. change (12 + 9 * 2) with 30.
  rewrite Z.mod_small; [apply Z.div_lt_upper_bound; lia|]. split; [apply Z.div_pos; lia|apply Z.div_lt_upper_bound; lia].
Qed.

(** The address with given indices. *)
Lemma PX_of i2 i1 i0 : 0 <= i2 < 256 -> 0 <= i1 < 512 -> 0 <= i0 < 512 ->
  let va := ((i2 * 512 + i1) * 512 + i0) * 4096 in 0 <= va < MAXVA /\ PX 2 va = i2 /\ PX 1 va = i1 /\ PX 0 va = i0.
Proof.
  intros H2 H1 H0 va. split; [unfold va; lia|]. rewrite !PX_eq by lia.
  change (2 ^ (12 + 9 * 2)) with (4096 * (512 * 512)). change (2 ^ (12 + 9 * 1)) with (4096 * 512). change (2 ^ (12 + 9 * 0)) with 4096.
  rewrite <-!Z.div_div by lia. unfold va. rewrite Z.div_mul by lia.
  assert (((i2 * 512 + i1) * 512 + i0) / 512 = i2 * 512 + i1) as -> by (symmetry; apply Z.div_unique_pos with i0; lia).
  assert ((i2 * 512 + i1) / 512 = i2) as -> by (symmetry; apply Z.div_unique_pos with i1; lia).
  rewrite (Z.mod_small i2) by lia. split; [done|]. split; symmetry.
  - apply Z.mod_unique_pos with i2; lia.
  - apply Z.mod_unique_pos with (i2 * 512 + i1); lia.
Qed.

(** Two virtual addresses below MAXVA with the same three indices lie in the
    same page. *)
Lemma PX_inj va va' :
  0 <= va < MAXVA -> 0 <= va' < MAXVA ->
  PX 2 va = PX 2 va' -> PX 1 va = PX 1 va' -> PX 0 va = PX 0 va' ->
  va / 4096 = va' / 4096.
Proof.
  intros Hv Hv'. rewrite !PX_eq by lia.
  change (2 ^ (12 + 9 * 2)) with (4096 * (512 * 512)).
  change (2 ^ (12 + 9 * 1)) with (4096 * 512).
  change (2 ^ (12 + 9 * 0)) with 4096.
  rewrite <-!Z.div_div by lia.
  set (q := va / 4096). set (q' := va' / 4096). intros H2 H1 H0.
  assert (0 <= q < 512 * 512 * 256) by (subst q; split; [apply Z.div_pos; lia|apply Z.div_lt_upper_bound; lia]).
  assert (0 <= q' < 512 * 512 * 256) by (subst q'; split; [apply Z.div_pos; lia|apply Z.div_lt_upper_bound; lia]).
  rewrite !Z.div_div in H2 by lia.
  rewrite (Z.mod_small (q / (512 * 512))), (Z.mod_small (q' / (512 * 512))) in H2.
  2, 3: split; [apply Z.div_pos; lia|apply Z.div_lt_upper_bound; lia].
  rewrite <-!Z.div_div in H2 by lia.
  pose proof (Z.div_mod q 512). pose proof (Z.div_mod q' 512).
  pose proof (Z.div_mod (q / 512) 512). pose proof (Z.div_mod (q' / 512) 512). lia.
Qed.
