(* ===== verification/Machine.v ===== *)
(** * A concrete machine

    One small, fully concrete kernel state: hart 0 runs process 0 with no
    lock held, all tables are in their initial state.  The examples that show
    the hypotheses of the theorems are satisfiable start from it. *)

From S2P Require Import Prelude Bytes KState Spinlock Kernel Riscv.

Module Machine.

Definition sync0 (me : option nat) : sync :=
  mkSync 0 (replicate NCPU (mkCpu me 0 false ∅)) ∅ [].

Definition proc0 (i : nat) : proc :=
  mkProc (if (i =? 0)%nat then RUNNING else UNUSED) None None false 0
    (if (i =? 0)%nat then 1 else 0) (KSTACK (Z.of_nat i)) 0 0 0
    (mkContext CNull 0 (replicate 12 0)) (replicate NOFILE None) None (replicate 16 0).

Definition buf0 (i : nat) : buf :=
  mkBuf false false 0 0 (mkSleep false 0) 0
    (if (i =? 30)%nat then 0 else S i) (if (i =? 0)%nat then 30 else pred i)%nat
    (replicate 1024 0).

Definition log0 : logst := mkLog 2 30 0 false 0 0 (replicate 30 0).
Definition inode0 : inode :=
  mkInode 0 0 0 (mkSleep false 0) false 0 0 0 0 0 (replicate 13 0).
Definition file0 : file := mkFile FD_NONE 0 false false 0 0 0 0 0.
Definition vdisk0 : vdisk :=
  mkVdisk (replicate 8 (mkDesc DNull 0 0 0)) 0 (replicate 8 0) 0 (replicate 8 0)
    (replicate 8 true) 0 (replicate 8 None) (replicate 8 0) true.

(** 0x80030000: the end of a kernel image of 192 kilobytes. *)
Definition kernel_end : Z := KERNBASE + 196608.

Definition machine : kstate := {|
  sy := sync0 (Some 0%nat);
  mm := ∅;
  freelist := 0;
  kernel_pagetable := 0;
  pt := mkPtable (proc0 <$> seq 0 NPROC) 1 2 false 0 true;
  bufs := buf0 <$> seq 0 31;
  logs := replicate NDISK log0;
  fs := mkFs (mkSb FSMAGIC 2000 1954 200 30 2 32 45) (replicate NINODE inode0);
  ftable := replicate NFILE file0;
  devsw := replicate 10 (None, None);
  pipes := ∅;
  cons := mkCons (replicate 128 0) 0 0 0 false false [] [] 0;
  vdisks := replicate NDISK vdisk0;
  dev := mkDev ∅ [] ∅;
  ld := mkLink kernel_end (KERNBASE + 32768) (KERNBASE + 28672) 0 144 0 0 0 0 0 [0; 0]
|}.

Lemma owns_sync0 me : owns 0 me [] (sync0 me).
Proof.
  split; [unfold Spinlock.wf_sync; cbn; lia|done..|constructor|].
  intros lk. rewrite bool_decide_eq_false_2 by set_solver.
  unfold Spinlock.lock_free, Spinlock.lock_of. cbn. by rewrite lookup_empty.
Qed.

Lemma owns_machine : owns 0 (Some 0%nat) [] (sy machine).
Proof. apply owns_sync0. Qed.

End Machine.
