(* ===== verification/Kalloc.v ===== *)
(** * Physical page allocator (kernel/kalloc.c)

    The free list is threaded through the free pages themselves: the first
    eight bytes of a free page hold the address of the next one.  [kmem_ok]
    ties the list in memory to a mathematical list of distinct, page-aligned
    pages between the end of the kernel and PHYSTOP; every operation is shown
    to preserve it and to touch no byte outside the page it is about. *)

From S2P Require Import Prelude Bytes CString KState Spinlock Kernel Riscv Machine.

Module Kalloc.

Definition kfree (pa : Z) : K unit :=
  e <- gets (fun s => ld_end (ld s)) ;;
  if negb (pa mod PGSIZE =? 0) || (pa <? e) || (PHYSTOP <=? pa) then panic "kfree" else
  (* Fill with junk to catch dangling refs. *)
  modify (fun s => set_mm (CString.memset (mm s) pa 1 PGSIZE) s) ;;
  acquire LKmem ;;
  modify (fun s => set_mm (st64 (mm s) pa (freelist s)) s) ;;
  modify (set_freelist pa) ;;
  release LKmem.

Definition kalloc : K Z :=
  acquire LKmem ;;
  r <- gets freelist ;;
  when (negb (r =? 0)) (modify (fun s => set_freelist (ld64 (mm s) r) s)) ;;
  release LKmem ;;
  when (negb (r =? 0)) (modify (fun s => set_mm (CString.memset (mm s) r 5 PGSIZE) s)) ;;
  ret r.

Definition freerange (pa_start pa_end : Z) : K unit :=
  let p := PGROUNDUP pa_start in
  loop (S (Z.to_nat ((pa_end - p) / PGSIZE + 1)))
    (fun p => if p + PGSIZE <=? pa_end
              then kfree p ;; ret (inl (p + PGSIZE))
              else ret (inr tt)) p.

Definition kinit : K unit :=
  initlock LKmem "kmem" ;;
  e <- gets (fun s => ld_end (ld s)) ;;
  freerange e PHYSTOP.

(** ** The free list in memory *)

Fixpoint chain (m : mem) (r : Z) (l : list Z) : Prop :=
  match l with
  | [] => r = 0
  | x :: l' => r = x /\ chain m (ld64 m x) l'
  end.

Definition is_page (e pa : Z) : Prop := pa mod PGSIZE = 0 /\ e <= pa < PHYSTOP.

Record kmem_ok (s : kstate) (l : list Z) : Prop := {
  km_end : 0 < ld_end (ld s);
  km_chain : chain (mm s) (freelist s) l;
  km_nodup : NoDup l;
  km_pages : Forall (is_page (ld_end (ld s))) l
}.

(** Two memories agree outside the page at [pa]. *)
Definition same_but_page (pa : Z) (m m' : mem) : Prop :=
  forall a, ~ (pa <= a < pa + PGSIZE) -> getb m' a = getb m a.

Definition page_filled (m : mem) (pa v : Z) : Prop :=
  forall a, pa <= a < pa + PGSIZE -> getb m a = v.

Lemma valid_mem (m : mem) a n : valid_range m a n.
Proof. done. Qed.

Lemma chain_ext m m' l : forall r,
  Forall (fun x => ld64 m' x = ld64 m x) l -> chain m r l -> chain m' r l.
Proof.
  induction l as [|x l IH]; intros r Hl; cbn; [done|].
  inversion_clear Hl as [|?? Hx Hl']. intros [-> Hc]. split; [done|].
  rewrite Hx. by apply IH.
Qed.

Lemma pages_disjoint e p q : is_page e p -> is_page e q -> p <> q ->
  p + PGSIZE <= q \/ q + PGSIZE <= p.
Proof.
  intros [Hp _] [Hq _] Hne.
  apply Z.mod_divide in Hp as [a ->]; [|lia]. apply Z.mod_divide in Hq as [b ->]; [|lia].
  assert (a <> b) by congruence. lia.
Qed.

Lemma same_but_page_ld64 pa e m m' x :
  same_but_page pa m m' -> is_page e pa -> is_page e x -> x <> pa -> ld64 m' x = ld64 m x.
Proof.
  intros Hs Hpa Hx Hne. apply ldn_ext. intros b Hb. apply Hs.
  destruct (pages_disjoint e x pa); try done; lia.
Qed.

Lemma chain_same_but_page pa e m m' l r :
  same_but_page pa m m' -> is_page e pa -> Forall (is_page e) l -> pa ∉ l ->
  chain m r l -> chain m' r l.
Proof.
  intros Hs Hpa Hl Hnin. apply chain_ext. apply Forall_forall. intros x Hx.
  eapply same_but_page_ld64; try done.
  - by eapply Forall_forall in Hl.
  - intros ->. done.
Qed.

Lemma memset_page_same pa c (m : mem) : same_but_page pa m (CString.memset m pa c PGSIZE).
Proof. intros a Ha. rewrite CString.getb_memset by done. by rewrite bool_decide_eq_false_2. Qed.

Lemma memset_page_filled pa c (m : mem) : page_filled (CString.memset m pa c PGSIZE) pa (u8 c).
Proof. intros a Ha. rewrite CString.getb_memset by done. by rewrite bool_decide_eq_true_2. Qed.

Lemma st64_same_but_page pa v (m m' : mem) :
  same_but_page pa m m' -> same_but_page pa m (st64 m' pa v).
Proof.
  intros Hs a Ha. unfold st64. rewrite getb_stn_ne by lia. by apply Hs.
Qed.

(** ** Specifications *)

Section specs.
Context (h : nat) (p : option nat) (ls : list lockid).

(** [kalloc] on a non-empty list hands out its first page, filled with 5s. *)
Lemma kalloc_some s pg l :
  owns h p ls (sy s) -> LKmem ∉ ls -> kmem_ok s (pg :: l) ->
  run kalloc s (fun r s' =>
    r = pg /\ kmem_ok s' l /\ owns h p ls (sy s') /\
    page_filled (mm s') pg 5 /\ same_but_page pg (mm s) (mm s') /\
    exists y' m' f', s' = set_sy y' (set_mm m' (set_freelist f' s))).
Proof.
  intros Ho Hl [He [Hf Hc] Hnd Hpg].
  apply NoDup_cons in Hnd as [Hnin Hnd]. apply Forall_cons in Hpg as [Hp Hpg].
  assert (pg <> 0) by (destruct Hp; lia).
  unfold kalloc. wp. eapply run_acquire; [done..|]. intros y1 Ho1. wp. cbn [freelist set_sy].
  rewrite Hf. destruct (Z.eqb_spec pg 0); [done|]. cbn [negb]. wp.
  eapply run_release; [exact Ho1|set_solver|]. intros y2 Ho2.
  rewrite drop_head in Ho2 by done. wp. cbn [mm set_sy set_freelist].
  pose proof (memset_page_same pg 5 (mm s)) as Hsame.
  pose proof (memset_page_filled pg 5 (mm s)) as Hfill.
  generalize dependent (CString.memset (mm s) pg 5 PGSIZE). intros m2 Hsame Hfill.
  split; [done|]. split; [|split; [done|]].
  - split; cbn; try done. by eapply chain_same_but_page.
  - split; [done|]. split; [done|]. by exists y2, m2, (ld64 (mm s) pg).
Qed.

(** [kalloc] on an empty list returns 0 and changes nothing. *)
Lemma kalloc_none s :
  owns h p ls (sy s) -> LKmem ∉ ls -> kmem_ok s [] ->
  run kalloc s (fun r s' =>
    r = 0 /\ owns h p ls (sy s') /\ exists y', s' = set_sy y' s).
Proof.
  intros Ho Hl [He Hf Hnd Hpg]. cbn in Hf.
  unfold kalloc. wp. eapply run_acquire; [done..|]. intros y1 Ho1. wp. cbn [freelist set_sy].
  rewrite Hf. cbn. wp.
  eapply run_release; [exact Ho1|set_solver|]. intros y2 Ho2.
  rewrite drop_head in Ho2 by done. wp. split; [done|]. split; [done|]. by exists y2.
Qed.

(** [kfree] pushes a page that is not already free. *)
Lemma kfree_ok s pa l :
  owns h p ls (sy s) -> LKmem ∉ ls -> kmem_ok s l ->
  is_page (ld_end (ld s)) pa -> pa ∉ l ->
  run (kfree pa) s (fun _ s' =>
    kmem_ok s' (pa :: l) /\ owns h p ls (sy s') /\
    same_but_page pa (mm s) (mm s') /\
    exists y' m', s' = set_sy y' (set_mm m' (set_freelist pa s))).
Proof.
  intros Ho Hl [He Hc Hnd Hpg] [Ha Hr] Hnin.
  unfold kfree. wp. rewrite Ha. cbn [Z.eqb negb orb].
  destruct (Z.ltb_spec pa (ld_end (ld s))); [lia|].
  destruct (Z.leb_spec PHYSTOP pa); [lia|]. cbn [orb]. wp.
  eapply run_acquire; [exact Ho|done|]. intros y1 Ho1. wp. cbn [mm freelist set_sy set_mm].
  eapply run_release; [exact Ho1|set_solver|]. intros y2 Ho2.
  rewrite drop_head in Ho2 by done. set (m1 := st64 _ pa _).
  assert (Hs : same_but_page pa (mm s) m1).
  { subst m1. apply st64_same_but_page, memset_page_same. }
  split; [|split; [done|split; [done|by exists y2, m1]]].
  split; cbn; [done| |by constructor|constructor; [by split|done]].
  split; [done|]. unfold ld64 at 1. subst m1. unfold st64.
  rewrite ldn_stn_eq by done.
  assert (0 <= freelist s < 2 ^ 64).
  { destruct l as [|x l]; cbn in Hc; [by rewrite Hc|]. destruct Hc as [-> _].
    apply Forall_cons in Hpg as [[_ ?] _]. lia. }
  rewrite Z.mod_small by (change (8 * Z.of_nat 8) with 64; lia).
  eapply chain_same_but_page; [exact Hs|by split|done..].
Qed.

(** A page that is misaligned or outside [end, PHYSTOP) is refused. *)
Lemma kfree_panics s pa :
  ~ is_page (ld_end (ld s)) pa -> kfree pa s = Panic "kfree".
Proof.
  intros Hn. unfold kfree, bind, gets. cbn [bind_outcome].
  destruct (Z.eqb_spec (pa mod PGSIZE) 0); cbn [negb orb]; [|done].
  destruct (Z.ltb_spec pa (ld_end (ld s))); cbn [orb]; [done|].
  destruct (Z.leb_spec PHYSTOP pa); [done|]. exfalso. apply Hn. split; [done|lia].
Qed.

(** The pages [freerange] adds, in the order the list ends up with. *)
Definition page_range (a : Z) (n : nat) : list Z :=
  reverse ((fun i => a + Z.of_nat i * PGSIZE) <$> seq 0 n).

Lemma page_range_S a n : page_range a (S n) = (a + Z.of_nat n * PGSIZE) :: page_range a n.
Proof.
  unfold page_range. rewrite seq_S, fmap_app, reverse_app. done.
Qed.

Lemma elem_page_range a n q :
  q ∈ page_range a n <-> exists i, (i < n)%nat /\ q = a + Z.of_nat i * PGSIZE.
Proof.
  unfold page_range. rewrite elem_of_reverse, list_elem_of_fmap.
  setoid_rewrite elem_of_seq. split; intros (i & ? & ?); exists i; lia.
Qed.

(** [freerange] on an empty allocator frees exactly the whole pages of
    [pa_start, pa_end), and returns. *)
Lemma freerange_ok s pa_start pa_end :
  owns h p ls (sy s) -> LKmem ∉ ls -> kmem_ok s [] ->
  ld_end (ld s) <= pa_start <= pa_end -> pa_end <= PHYSTOP ->
  run (freerange pa_start pa_end) s (fun _ s' =>
    kmem_ok s' (page_range (PGROUNDUP pa_start)
                 (Z.to_nat ((pa_end - PGROUNDUP pa_start) / PGSIZE))) /\
    owns h p ls (sy s')).
Proof.
  intros Ho Hl Hk Hr He. unfold freerange. set (q0 := PGROUNDUP pa_start).
  set (N := Z.to_nat ((pa_end - q0) / PGSIZE)).
  pose proof (km_end _ _ Hk) as He0.
  destruct (PGROUNDUP_spec pa_start ltac:(lia)) as [Hal Hq]. fold q0 in Hal, Hq.
  set (e := ld_end (ld s)) in *.
  eapply (run_loop _ (fun q s' => exists i : nat,
      q = q0 + Z.of_nat i * PGSIZE /\ (q <= pa_end \/ i = 0%nat) /\
      ld_end (ld s') = e /\ kmem_ok s' (page_range q0 i) /\ owns h p ls (sy s'))
    (fun q _ => Z.to_nat ((pa_end - q) / PGSIZE + 1))).
  - clearbody e. clear s Ho Hk. intros q s (i & -> & Hi & Hld & Hk & Ho).
    destruct (Z.leb_spec (q0 + Z.of_nat i * PGSIZE + PGSIZE) pa_end) as [Hle|Hgt].
    + wp. eapply run_mono.
      { eapply kfree_ok; [done..| |].
        - split; [|lia]. by rewrite Z.mod_add.
        - rewrite elem_page_range. intros (j & Hj & ?). lia. }
      intros _ s' (Hk' & Ho' & _ & y' & m' & ->). wp. split.
      * exists (S i). rewrite page_range_S. split; [lia|]. split; [lia|]. done.
      * assert (0 <= (pa_end - (q0 + Z.of_nat i * PGSIZE + PGSIZE)) / PGSIZE)
          by (apply Z.div_pos; lia).
        replace (pa_end - (q0 + Z.of_nat i * PGSIZE))
          with ((pa_end - (q0 + Z.of_nat i * PGSIZE + PGSIZE)) + 1 * PGSIZE) by lia.
        rewrite Z.div_add by lia. lia.
    + wp. split; [|done]. enough (N = i) as -> by done.
      subst N. destruct Hi as [Hi| ->].
      * assert ((pa_end - q0) / PGSIZE = Z.of_nat i) as ->; [|lia].
        symmetry. apply Z.div_unique_pos with (pa_end - q0 - Z.of_nat i * PGSIZE); lia.
      * assert ((pa_end - q0) / PGSIZE < 1); [|lia]. apply Z.div_lt_upper_bound; lia.
  - exists 0%nat. split; [lia|]. split; [by right|]. done.
  - lia.
Qed.
End specs.

(** ** The allocator's contract *)

(** Allocation.  On a well-formed free list, kalloc returns: 0, changing
    nothing, when the list is empty; otherwise the first page of the list,
    filled with 5s, with no other byte of memory changed and the rest of the
    list as the new free list.  The set of locks held is as before. *)
Theorem kalloc_correct h p ls s l :
  owns h p ls (sy s) -> LKmem ∉ ls -> kmem_ok s l ->
  run kalloc s (fun r s' =>
    owns h p ls (sy s') /\
    match l with
    | [] => r = 0 /\ kmem_ok s' [] /\ mm s' = mm s
    | pg :: l' => r = pg /\ kmem_ok s' l' /\ page_filled (mm s') pg 5 /\
                  same_but_page pg (mm s) (mm s')
    end).
Proof.
  intros Ho Hl Hk. destruct l as [|pg l].
  - eapply run_mono; [by eapply kalloc_none|]. intros r s' (-> & Ho' & y' & ->).
    split; [done|]. split; [done|]. split; [by destruct Hk|done].
  - eapply run_mono; [by eapply kalloc_some|].
    intros r s' (-> & Hk' & Ho' & Hf & Hs & _). done.
Qed.

(** One free page, the last one of the machine's memory. *)
Definition one_page : kstate :=
  set_freelist (PHYSTOP - PGSIZE) Machine.machine.

Lemma one_page_ok : kmem_ok one_page [PHYSTOP - PGSIZE].
Proof.
  split; cbn; try done.
  - apply NoDup_singleton.
  - constructor; [|done]. split; [done|]. unfold Machine.kernel_end. lia.
Qed.

Lemma kalloc_correct_witness :
  run kalloc one_page (fun r s' =>
    owns 0 (Some 0%nat) [] (sy s') /\ r = PHYSTOP - PGSIZE /\ kmem_ok s' [] /\
    page_filled (mm s') (PHYSTOP - PGSIZE) 5 /\
    same_but_page (PHYSTOP - PGSIZE) (mm one_page) (mm s')).
Proof.
  apply (kalloc_correct 0 (Some 0%nat) [] one_page [PHYSTOP - PGSIZE]).
  - apply Machine.owns_machine.
  - set_solver.
  - apply one_page_ok.
Defined.

End Kalloc.
