(* ===== verification/Vm.v ===== *)
(** * Page tables and user memory (kernel/vm.c)

    Sv39 page tables live in physical memory: a table is a page of 512
    64-bit entries, three levels deep.  Every function of vm.c is a
    computation on the kernel state that reads and writes those entries. *)

From S2P Require Import Prelude Bytes CString KState Spinlock Kernel Csr Riscv Kalloc.

Module Vm.
Import Csr Kalloc.

Definition load64 (a : Z) : K Z := gets (fun s => ld64 (mm s) a).
Definition store64 (a v : Z) : K unit := modify (fun s => set_mm (st64 (mm s) a v) s).
Definition k_memset (dst c n : Z) : K unit :=
  modify (fun s => set_mm (CString.memset (mm s) dst c n) s).
Definition k_memmove (dst src n : Z) : K unit :=
  modify (fun s => set_mm (CString.memmove (mm s) dst src n) s).

(** Address of the PTE for [va], or 0; with [alloc] missing tables are created. *)
Definition walk (pagetable va : Z) (alloc : bool) : K Z :=
  if MAXVA <=? va then panic "walk" else
  loop 3 (fun '(level, pagetable) =>
    if 0 <? level then
      let pte := pagetable + 8 * PX level va in
      e <- load64 pte ;;
      if pte_has e PTE_V then ret (inl (level - 1, PTE2PA e))
      else if negb alloc then ret (inr 0)
      else
        pagetable <- kalloc ;;
        if pagetable =? 0 then ret (inr 0)
        else
          k_memset pagetable 0 PGSIZE ;;
          store64 pte (Z.lor (PA2PTE pagetable) PTE_V) ;;
          ret (inl (level - 1, pagetable))
    else ret (inr (pagetable + 8 * PX 0 va))) (2, pagetable).

(** Look up a user virtual address: its physical page, or 0. *)
Definition walkaddr (pagetable va : Z) : K Z :=
  if MAXVA <=? va then ret 0 else
  pte <- walk pagetable va false ;;
  if pte =? 0 then ret 0 else
  e <- load64 pte ;;
  if negb (pte_has e PTE_V) then ret 0 else
  if negb (pte_has e PTE_U) then ret 0 else
  ret (PTE2PA e).

(** Iterations of the [for(;;)] of mappages and uvmunmap: up to [last], or,
    when the range is empty or wraps, until [walk] panics at MAXVA. *)
Definition range_fuel (a last : Z) : nat :=
  if a <=? last then S (Z.to_nat ((last - a) / PGSIZE))
  else Z.to_nat (MAXVA / PGSIZE + 2).

Definition mappages (pagetable va size pa perm : Z) : K Z :=
  let a := PGROUNDDOWN va in
  let last := PGROUNDDOWN (u64 (va + size - 1)) in
  loop (range_fuel a last) (fun '(a, pa) =>
    pte <- walk pagetable a true ;;
    if pte =? 0 then ret (inr (-1)) else
    e <- load64 pte ;;
    if pte_has e PTE_V then panic "remap" else
    store64 pte (Z.lor (Z.lor (PA2PTE pa) perm) PTE_V) ;;
    if a =? last then ret (inr 0)
    else ret (inl (u64 (a + PGSIZE), u64 (pa + PGSIZE)))) (a, pa).

Definition kvmmap (va pa sz perm : Z) : K unit :=
  kpt <- gets kernel_pagetable ;;
  r <- mappages kpt va sz pa perm ;;
  if r =? 0 then ret tt else panic "kvmmap".

Definition kvminit : K unit :=
  kpt <- kalloc ;;
  modify (set_kernel_pagetable kpt) ;;
  k_memset kpt 0 PGSIZE ;;
  et <- gets (fun s => ld_etext (ld s)) ;;
  tr <- gets (fun s => ld_trampoline (ld s)) ;;
  kvmmap UART0 UART0 PGSIZE (Z.lor PTE_R PTE_W) ;;
  kvmmap (VIRTION 0) (VIRTION 0) PGSIZE (Z.lor PTE_R PTE_W) ;;
  kvmmap (VIRTION 1) (VIRTION 1) PGSIZE (Z.lor PTE_R PTE_W) ;;
  kvmmap CLINT CLINT 65536 (Z.lor PTE_R PTE_W) ;;
  kvmmap PLIC PLIC 4194304 (Z.lor PTE_R PTE_W) ;;
  kvmmap KERNBASE KERNBASE (et - KERNBASE) (Z.lor PTE_R PTE_X) ;;
  kvmmap et et (PHYSTOP - et) (Z.lor PTE_R PTE_W) ;;
  kvmmap TRAMPOLINE tr PGSIZE (Z.lor PTE_R PTE_X).

(** sfence.vma flushes the TLB, which the model does not have. *)
Definition kvminithart : K unit :=
  kpt <- gets kernel_pagetable ;;
  w_satp (MAKE_SATP kpt).

Definition kvmpa (va : Z) : K Z :=
  let off := va mod PGSIZE in
  kpt <- gets kernel_pagetable ;;
  pte <- walk kpt va false ;;
  if pte =? 0 then panic "kvmpa" else
  e <- load64 pte ;;
  if negb (pte_has e PTE_V) then panic "kvmpa" else
  ret (u64 (PTE2PA e + off)).

Definition uvmunmap (pagetable va size : Z) (do_free : bool) : K unit :=
  let a := PGROUNDDOWN va in
  let last := PGROUNDDOWN (u64 (va + size - 1)) in
  loop (range_fuel a last) (fun a =>
    pte <- walk pagetable a false ;;
    if pte =? 0 then panic "uvmunmap: walk" else
    e <- load64 pte ;;
    if negb (pte_has e PTE_V) then panic "uvmunmap: not mapped" else
    if PTE_FLAGS e =? PTE_V then panic "uvmunmap: not a leaf" else
    when do_free (kfree (PTE2PA e)) ;;
    store64 pte 0 ;;
    if a =? last then ret (inr tt) else ret (inl (u64 (a + PGSIZE)))) a.

Definition uvmcreate : K Z :=
  pagetable <- kalloc ;;
  if pagetable =? 0 then panic "uvmcreate: out of memory" else
  k_memset pagetable 0 PGSIZE ;;
  ret pagetable.

Definition PTE_WRXU : Z := Z.lor (Z.lor (Z.lor PTE_W PTE_R) PTE_X) PTE_U.

Definition uvminit (pagetable : Z) (src : list Z) : K unit :=
  if PGSIZE <=? Z.of_nat (length src) then panic "inituvm: more than a page" else
  mem <- kalloc ;;
  k_memset mem 0 PGSIZE ;;
  mappages pagetable 0 PGSIZE mem PTE_WRXU ;;
  modify (fun s => set_mm (set_bytes (mm s) mem src) s).

Definition uvmdealloc (pagetable oldsz newsz : Z) : K Z :=
  if oldsz <=? newsz then ret oldsz else
  let newup := PGROUNDUP newsz in
  when (newup <? PGROUNDUP oldsz) (uvmunmap pagetable newup (oldsz - newup) true) ;;
  ret newsz.

Definition uvmalloc (pagetable oldsz newsz : Z) : K Z :=
  if newsz <? oldsz then ret oldsz else
  let oldsz := PGROUNDUP oldsz in
  loop (S (Z.to_nat ((newsz - oldsz) / PGSIZE + 1))) (fun a =>
    if a <? newsz then
      mem <- kalloc ;;
      if mem =? 0 then
        uvmdealloc pagetable a oldsz ;; ret (inr 0)
      else
        k_memset mem 0 PGSIZE ;;
        r <- mappages pagetable a PGSIZE mem PTE_WRXU ;;
        if negb (r =? 0) then
          kfree mem ;; uvmdealloc pagetable a oldsz ;; ret (inr 0)
        else ret (inl (u64 (a + PGSIZE)))
    else ret (inr newsz)) oldsz.

(** [level] counts the levels below [pagetable] (Sv39 has two). *)
Fixpoint freewalk (level : nat) (pagetable : Z) : K unit :=
  iter_each (seqZ 0 512) (fun i =>
    pte <- load64 (pagetable + 8 * i) ;;
    if pte_has pte PTE_V && (Z.land pte 14 =? 0) then
      match level with
      | O => stuck "freewalk: more than three levels"
      | S level' =>
          freewalk level' (PTE2PA pte) ;;
          store64 (pagetable + 8 * i) 0
      end
    else if pte_has pte PTE_V then panic "freewalk: leaf"
    else ret tt) ;;
  kfree pagetable.

Definition uvmfree (pagetable sz : Z) : K unit :=
  uvmunmap pagetable 0 sz true ;;
  freewalk 2 pagetable.

Definition uvmcopy (old new sz : Z) : K Z :=
  r <- loop (S (Z.to_nat (sz / PGSIZE + 1))) (fun i =>
    if i <? sz then
      pte <- walk old i false ;;
      if pte =? 0 then panic "uvmcopy: pte should exist" else
      e <- load64 pte ;;
      if negb (pte_has e PTE_V) then panic "uvmcopy: page not present" else
      let pa := PTE2PA e in
      let flags := PTE_FLAGS e in
      mem <- kalloc ;;
      if mem =? 0 then ret (inr (Some i)) else
      k_memmove mem pa PGSIZE ;;
      r <- mappages new i PGSIZE mem flags ;;
      if negb (r =? 0) then kfree mem ;; ret (inr (Some i))
      else ret (inl (u64 (i + PGSIZE)))
    else ret (inr None)) 0 ;;
  match r with
  | None => ret 0
  | Some i => uvmunmap new 0 i true ;; ret (-1)   (* err: *)
  end.

Definition uvmclear (pagetable va : Z) : K unit :=
  pte <- walk pagetable va false ;;
  if pte =? 0 then panic "uvmclear" else
  e <- load64 pte ;;
  store64 pte (Z.ldiff e PTE_U).

(** Copy from kernel to user: [src] holds the [len] bytes at the kernel
    address. *)
Definition copyout (pagetable dstva : Z) (src : list Z) : K Z :=
  loop (S (S (length src))) (fun '(dstva, src) =>
    let len := Z.of_nat (length src) in
    if 0 <? len then
      let va0 := PGROUNDDOWN dstva in
      pa0 <- walkaddr pagetable va0 ;;
      if pa0 =? 0 then ret (inr (-1)) else
      let n := PGSIZE - (dstva - va0) in
      let n := if len <? n then len else n in
      modify (fun s => set_mm (set_bytes (mm s) (pa0 + (dstva - va0))
                                 (take (Z.to_nat n) src)) s) ;;
      ret (inl (u64 (va0 + PGSIZE), drop (Z.to_nat n) src))
    else ret (inr 0)) (dstva, src).

(** Copy from user to kernel: the status and the bytes stored at [dst]. *)
Definition copyin (pagetable srcva len : Z) : K (Z * list Z) :=
  loop (S (S (Z.to_nat len))) (fun '(srcva, len, dst) =>
    if 0 <? len then
      let va0 := PGROUNDDOWN srcva in
      pa0 <- walkaddr pagetable va0 ;;
      if pa0 =? 0 then ret (inr (-1, dst)) else
      let n := PGSIZE - (srcva - va0) in
      let n := if len <? n then len else n in
      bs <- gets (fun s => get_bytes (Z.to_nat n) (mm s) (pa0 + (srcva - va0))) ;;
      ret (inl (u64 (va0 + PGSIZE), len - n, dst ++ bs))
    else ret (inr (0, dst))) (srcva, len, []).

(** The inner loop of copyinstr over at most [n] bytes of one page: whether a
    NUL was found, and the bytes stored (the NUL included). *)
Fixpoint copystr_page (n : nat) (m : mem) (p : Z) : bool * list Z :=
  match n with
  | O => (false, [])
  | S n' =>
      if getb m p =? 0 then (true, [0])
      else let '(got, bs) := copystr_page n' m (p + 1) in (got, getb m p :: bs)
  end.

Definition copyinstr (pagetable srcva max : Z) : K (Z * list Z) :=
  loop (S (S (Z.to_nat max))) (fun '(srcva, max, dst) =>
    if 0 <? max then
      let va0 := PGROUNDDOWN srcva in
      pa0 <- walkaddr pagetable va0 ;;
      if pa0 =? 0 then ret (inr (-1, dst)) else
      let n := PGSIZE - (srcva - va0) in
      let n := if max <? n then max else n in
      r <- gets (fun s => copystr_page (Z.to_nat n) (mm s) (pa0 + (srcva - va0))) ;;
      let '(got_null, bs) := r in
      if (got_null : bool) then ret (inr (0, dst ++ bs))
      else ret (inl (u64 (va0 + PGSIZE), max - n, dst ++ bs))
    else ret (inr (-1, dst))) (srcva, max, []).

End Vm.
