(* ===== verification/PageTable.v ===== *)
(** * Page tables as mappings (kernel/vm.c)

    [pte_of m root va] is the entry that translates [va] in the Sv39 table at
    [root], 0 if there is none.  [ptree] is the invariant of a page table in
    memory: its tables are distinct pages, each reached by one entry.  walk,
    mappages and uvmunmap are specified as changes of that mapping. *)

From S2P Require Import Prelude Bytes CString KState Spinlock Kernel Riscv Machine Kalloc Vm.

Module PageTable.
Import Kalloc Vm.

(** ** The mapping *)

Definition entry (m : mem) (t i : Z) : Z := ld64 m (t + 8 * i).

(** The table the entry for [va] in table [t] of level [l] leads to. *)
Definition next (m : mem) (t l va : Z) : option Z :=
  if pte_has (entry m t (PX l va)) PTE_V then Some (PTE2PA (entry m t (PX l va))) else None.

(** The address of the leaf entry for [va]. *)
Definition leaf (m : mem) (root va : Z) : option Z :=
  t1 ← next m root 2 va;
  t0 ← next m t1 1 va;
  Some (t0 + 8 * PX 0 va).

Definition pte_of (m : mem) (root va : Z) : Z :=
  match leaf m root va with Some a => ld64 m a | None => 0 end.

(** walk without allocation computes the leaf address. *)
Lemma walk_lookup root va s : va < MAXVA ->
  walk root va false s = Ok (default 0 (leaf (mm s) root va)) s.
Proof.
  intros Hva. unfold walk. destruct (Z.leb_spec MAXVA va); [lia|].
  cbn [loop]. unfold bind, load64, gets, ret, leaf, next, entry. cbn [bind_outcome].
  change (0 <? 2) with true. change (0 <? 2 - 1) with true. change (0 <? 2 - 1 - 1) with false. cbv iota beta.
  cbn [bind_outcome]. destruct (pte_has _ PTE_V); cbn [bind_outcome negb]; [|done].
  change (2 - 1) with 1. change (0 <? 1) with true. cbv iota beta.
  cbn [mbind option_bind]. by destruct (pte_has _ PTE_V).
Qed.

(** Only the page number matters. *)
Lemma PX_page l va va' : va / PGSIZE = va' / PGSIZE -> 0 <= l -> PX l va = PX l va'.
Proof.
  intros H Hl. rewrite !PX_eq by done. rewrite Z.pow_add_r by lia. change (2 ^ 12) with PGSIZE.
  rewrite <-!Z.div_div by lia. by rewrite H.
Qed.

(** ** Table trees *)

(** [lv] gives the level of every table page of the tree at [root]. *)
Record ptree (m : mem) (root : Z) (lv : gmap Z nat) : Prop := {
  pt_root : lv !! root = Some 2%nat;
  pt_top : forall t l, lv !! t = Some l -> (l <= 2)%nat /\ (l = 2%nat -> t = root);
  pt_page : forall t l, lv !! t = Some l -> t mod PGSIZE = 0 /\ 0 < t < 2 ^ 56;
  pt_child : forall t l i, lv !! t = Some (S l) -> 0 <= i < 512 ->
    pte_has (entry m t i) PTE_V = true -> lv !! PTE2PA (entry m t i) = Some l;
  pt_inj : forall t l i t' l' i',
    lv !! t = Some (S l) -> 0 <= i < 512 -> pte_has (entry m t i) PTE_V = true ->
    lv !! t' = Some (S l') -> 0 <= i' < 512 -> pte_has (entry m t' i') PTE_V = true ->
    PTE2PA (entry m t i) = PTE2PA (entry m t' i') -> t = t' /\ i = i';
  pt_table : forall t l i, lv !! t = Some (S l) -> 0 <= i < 512 -> pte_has (entry m t i) PTE_V = true ->
    Z.land (entry m t i) 14 = 0 /\ (l = 1%nat -> i < 256);
  pt_reach : forall t l, lv !! t = Some l -> t <> root ->
    exists t' i, lv !! t' = Some (S l) /\ 0 <= i < 512 /\ pte_has (entry m t' i) PTE_V = true /\ PTE2PA (entry m t' i) = t
}.

(** Entries of distinct places do not overlap. *)
Lemma entry_disjoint t i t' i' : t mod PGSIZE = 0 -> t' mod PGSIZE = 0 ->
  0 <= i < 512 -> 0 <= i' < 512 -> (t, i) <> (t', i') ->
  t + 8 * i + 8 <= t' + 8 * i' \/ t' + 8 * i' + 8 <= t + 8 * i.
Proof.
  intros Ht Ht' Hi Hi' Hne. apply Z.mod_divide in Ht as [a ->]; [|lia]. apply Z.mod_divide in Ht' as [b ->]; [|lia].
  destruct (decide (a = b)) as [->|]; [|lia]. assert (i <> i') by congruence. lia.
Qed.

Lemma entry_st64_ne m t i t' i' v : t mod PGSIZE = 0 -> t' mod PGSIZE = 0 ->
  0 <= i < 512 -> 0 <= i' < 512 -> (t, i) <> (t', i') ->
  entry (st64 m (t + 8 * i) v) t' i' = entry m t' i'.
Proof.
  intros. unfold entry, ld64, st64. apply ldn_stn_ne.
  destruct (entry_disjoint t i t' i'); try done; lia.
Qed.
Lemma entry_st64_eq m t i v : 0 <= v < 2 ^ 64 -> entry (st64 m (t + 8 * i) v) t i = v.
Proof. intros. unfold entry, ld64, st64. rewrite ldn_stn_eq by done. by apply Z.mod_small. Qed.

Section tree.
Context (m : mem) (root : Z) (lv : gmap Z nat) (HT : ptree m root lv).

Lemma next_level t l va t' : lv !! t = Some (S l) -> 0 <= Z.of_nat (S l) ->
  next m t (Z.of_nat (S l)) va = Some t' -> lv !! t' = Some l.
Proof.
  intros Ht _ Hn. unfold next in Hn. destruct (pte_has _ _) eqn:Hv; [|done]. injection Hn as <-.
  eapply pt_child; [done|done|apply PX_range; lia|done].
Qed.

(** Distinct pages have distinct leaf entries. *)
Lemma leaf_inj va va' a : 0 <= va < MAXVA -> 0 <= va' < MAXVA ->
  leaf m root va = Some a -> leaf m root va' = Some a -> va / PGSIZE = va' / PGSIZE.
Proof.
  intros Hva Hva' H H'. unfold leaf in *.
  destruct (next m root 2 va) as [t1|] eqn:E1; [|done]. destruct (next m root 2 va') as [t1'|] eqn:E1'; [|done].
  cbn in H, H'. destruct (next m t1 1 va) as [t0|] eqn:E0; [|done]. destruct (next m t1' 1 va') as [t0'|] eqn:E0'; [|done].
  cbn in H, H'. injection H as <-. injection H' as H'.
  pose proof (next_level root 1 va t1 (pt_root _ _ _ HT) ltac:(lia) E1) as L1.
  pose proof (next_level root 1 va' t1' (pt_root _ _ _ HT) ltac:(lia) E1') as L1'.
  pose proof (next_level t1 0 va t0 L1 ltac:(lia) E0) as L0. pose proof (next_level t1' 0 va' t0' L1' ltac:(lia) E0') as L0'.
  pose proof (pt_page _ _ _ HT _ _ L0) as [P0 _]. pose proof (pt_page _ _ _ HT _ _ L0') as [P0' _].
  pose proof (PX_range 0 va ltac:(lia)) as R0. pose proof (PX_range 0 va' ltac:(lia)) as R0'.
  assert (t0 = t0' /\ PX 0 va = PX 0 va') as [-> X0].
  { apply Z.mod_divide in P0 as [x ->]; [|lia]. apply Z.mod_divide in P0' as [y ->]; [|lia].
    split; [|lia]. assert (x = y) by lia. by subst. }
  unfold next in E0, E0', E1, E1'.
  destruct (pte_has (entry m t1 (PX 1 va)) PTE_V) eqn:V1; [|done]. destruct (pte_has (entry m t1' (PX 1 va')) PTE_V) eqn:V1'; [|done].
  destruct (pte_has (entry m root (PX 2 va)) PTE_V) eqn:V2; [|done]. destruct (pte_has (entry m root (PX 2 va')) PTE_V) eqn:V2'; [|done].
  injection E0 as E0. injection E0' as E0'. injection E1 as E1. injection E1' as E1'.
  destruct (pt_inj _ _ _ HT t1 0 (PX 1 va) t1' 0 (PX 1 va')) as [-> X1]; try done; try (apply PX_range; lia); [congruence|].
  destruct (pt_inj _ _ _ HT root 1 (PX 2 va) root 1 (PX 2 va')) as [_ X2]; try exact (pt_root _ _ _ HT); try done; try (apply PX_range; lia); [congruence|].
  by apply PX_inj.
Qed.

(** *** Changing a leaf entry *)

Lemma leaf_ext m' : (forall t l i, lv !! t = Some (S l) -> 0 <= i < 512 -> entry m' t i = entry m t i) ->
  ptree m' root lv /\ forall va, leaf m' root va = leaf m root va.
Proof.
  intros H. split.
  - split; try apply HT.
    + intros t l i Ht Hi. rewrite (H t l i Ht Hi). by apply HT.
    + intros t l i t' l' i' Ht Hi Hv Ht' Hi' Hv'. rewrite (H t l i), (H t' l' i') in * by done. by eapply HT.
    + intros t l i Ht Hi. rewrite (H t l i Ht Hi). by apply HT.
    + intros t l Ht Hr. destruct (pt_reach _ _ _ HT t l Ht Hr) as (t' & i & Ht' & Hi & Hx). exists t', i. by rewrite (H t' l i).
  - intros va. unfold leaf, next. rewrite (H root 1%nat) by (apply HT || apply PX_range; lia).
    destruct (pte_has (entry m root (PX 2 va)) PTE_V) eqn:V; [|done]. cbn.
    rewrite (H _ 0%nat); [done| |apply PX_range; lia].
    eapply pt_child; [done|apply HT|apply PX_range; lia|done].
Qed.

(** The table and index of a leaf entry. *)
Lemma leaf_split va a : leaf m root va = Some a ->
  exists t0, a = t0 + 8 * PX 0 va /\ lv !! t0 = Some 0%nat.
Proof.
  unfold leaf. destruct (next m root 2 va) as [t1|] eqn:E1; [|done]. cbn.
  destruct (next m t1 1 va) as [t0|] eqn:E0; [|done]. cbn. intros [= <-]. exists t0. split; [done|].
  pose proof (next_level root 1 va t1 (pt_root _ _ _ HT) ltac:(lia) E1) as L1.
  exact (next_level t1 0 va t0 L1 ltac:(lia) E0).
Qed.

Lemma set_leaf va a v : 0 <= va < MAXVA -> leaf m root va = Some a -> 0 <= v < 2 ^ 64 ->
  let m' := st64 m a v in
  ptree m' root lv /\
  forall va', 0 <= va' < MAXVA ->
    pte_of m' root va' = if bool_decide (va' / PGSIZE = va / PGSIZE) then v else pte_of m root va'.
Proof.
  intros Hva Ha Hv m'. destruct (leaf_split va a Ha) as (t0 & -> & L0). pose proof (pt_page _ _ _ HT _ _ L0) as [P0 _].
  destruct (leaf_ext m') as [HT' Hleaf].
  { intros t l i Ht Hi. pose proof (pt_page _ _ _ HT _ _ Ht) as [Pt _].
    apply entry_st64_ne; try done; [apply PX_range; lia|]. intros [= -> _]. congruence. }
  split; [done|]. intros va' Hva'. unfold pte_of. rewrite Hleaf. case_bool_decide as Heq.
  - replace (leaf m root va') with (leaf m root va).
    + rewrite Ha. by apply (entry_st64_eq m t0 (PX 0 va)).
    + unfold leaf, next. by rewrite !(PX_page _ va' va Heq) by lia.
  - destruct (leaf m root va') as [a'|] eqn:Ha'; [|done]. destruct (leaf_split va' a' Ha') as (t0' & -> & L0').
    pose proof (pt_page _ _ _ HT _ _ L0') as [P0' _].
    apply (entry_st64_ne m t0 (PX 0 va) t0' (PX 0 va')); try done; try (apply PX_range; lia).
    intros [= <- Hx]. apply Heq. symmetry. apply (leaf_inj va va' (t0 + 8 * PX 0 va)); try done. by rewrite Hx.
Qed.

(** *** Adding a table *)

Section new_table.
Context (m' : mem) (t pg i : Z) (l : nat).
Context (Ht : lv !! t = Some (S l)) (Hi : 0 <= i < 512) (Hlow : l = 1%nat -> i < 256) (Hinv : pte_has (entry m t i) PTE_V = false).
Context (Hpg : lv !! pg = None) (Ppg : pg mod PGSIZE = 0 /\ 0 < pg < 2 ^ 56).
Context (Hnew : entry m' t i = Z.lor (PA2PTE pg) PTE_V) (Hzero : forall j, 0 <= j < 512 -> entry m' pg j = 0).
Context (Hold : forall t' l' j, lv !! t' = Some l' -> 0 <= j < 512 -> (t', j) <> (t, i) -> entry m' t' j = entry m t' j).

Let lv' := <[pg := l]> lv.

Lemma new_valid : pte_has (entry m' t i) PTE_V = true /\ PTE2PA (entry m' t i) = pg.
Proof using Hnew Ppg.
  clear -Hnew Ppg.
  rewrite Hnew. split.
  - rewrite pte_has_flags, PTE_FLAGS_of by lia. done.
  - apply PTE2PA_of; lia.
Qed.

Lemma zero_invalid j : 0 <= j < 512 -> pte_has (entry m' pg j) PTE_V = false.
Proof. intros Hj. by rewrite Hzero. Qed.

(** Where a valid entry of a non-leaf table leads. *)
Lemma new_entry t' l' j : lv' !! t' = Some (S l') -> 0 <= j < 512 -> pte_has (entry m' t' j) PTE_V = true ->
  t' <> pg /\ lv !! t' = Some (S l') /\
  ((t', j) = (t, i) /\ PTE2PA (entry m' t' j) = pg /\ l' = l \/
   (t', j) <> (t, i) /\ entry m' t' j = entry m t' j).
Proof.
  intros Ht' Hj Hv. destruct (decide (t' = pg)) as [->|Hne]; [by rewrite zero_invalid in Hv|].
  unfold lv' in Ht'. rewrite lookup_insert_ne in Ht' by done. split; [done|]. split; [done|].
  destruct (decide ((t', j) = (t, i))) as [[= -> ->]|Hd].
  - left. split; [done|]. split; [apply new_valid|]. congruence.
  - right. split; [done|]. by eapply Hold.
Qed.

Lemma table_pte : Z.land (Z.lor (PA2PTE pg) PTE_V) 14 = 0.
Proof using Ppg.
  clear -Ppg.
  change 14 with (Z.land 1023 14). rewrite Z.land_assoc. change (Z.land (Z.lor (PA2PTE pg) PTE_V) 1023) with (PTE_FLAGS (Z.lor (PA2PTE pg) PTE_V)).
  by rewrite PTE_FLAGS_of by lia.
Qed.

(** The tables that were reachable still are, and so is the new one. *)
Lemma new_reach t' l' : lv' !! t' = Some l' -> t' <> root ->
  exists t2 j, lv' !! t2 = Some (S l') /\ 0 <= j < 512 /\ pte_has (entry m' t2 j) PTE_V = true /\ PTE2PA (entry m' t2 j) = t'.
Proof.
  intros Hl' Hr. unfold lv' in *. destruct (decide (t' = pg)) as [->|Hne].
  - rewrite lookup_insert_eq in Hl'. injection Hl' as <-. exists t, i. rewrite lookup_insert_ne by congruence. destruct new_valid. done.
  - rewrite lookup_insert_ne in Hl' by done. destruct (pt_reach _ _ _ HT t' l' Hl' Hr) as (t2 & j & Ht2 & Hj & Hv & Hp).
    assert (Hne2 : (t2, j) <> (t, i)) by (intros [= -> ->]; congruence). exists t2, j. rewrite lookup_insert_ne by congruence. by rewrite (Hold t2 (S l') j).
Qed.

Lemma new_ptree : ptree m' root lv'.
Proof.
  destruct HT as [H1 H2 H3 H4 H5 H6 _]. split.
  - unfold lv'. rewrite lookup_insert_ne; [done|]. intros ->. congruence.
  - intros t' l' Hl'. unfold lv' in Hl'. destruct (decide (pg = t')) as [<-|Hne].
    + rewrite lookup_insert_eq in Hl'. injection Hl' as <-. destruct (H2 _ _ Ht). split; [lia|]. lia.
    + rewrite lookup_insert_ne in Hl' by done. by apply H2.
  - intros t' l' Hl'. unfold lv' in Hl'. destruct (decide (pg = t')) as [<-|Hne]; [done|].
    rewrite lookup_insert_ne in Hl' by done. by eapply H3.
  - intros t' l' j Hl' Hj Hv. destruct (new_entry _ _ _ Hl' Hj Hv) as (_ & Hl & [(_ & -> & ->)|(_ & Heq)]).
    + by apply lookup_insert_eq.
    + rewrite Heq in Hv |- *. pose proof (H4 _ _ _ Hl Hj Hv) as Hc. unfold lv'.
      rewrite lookup_insert_ne; [done|]. congruence.
  - intros t1 l1 i1 t2 l2 i2 Hl1 Hi1 Hv1 Hl2 Hi2 Hv2 Heq.
    destruct (new_entry _ _ _ Hl1 Hi1 Hv1) as (_ & Hl1' & [([= -> ->] & Hp1 & _)|(_ & He1)]);
    destruct (new_entry _ _ _ Hl2 Hi2 Hv2) as (_ & Hl2' & [([= -> ->] & Hp2 & _)|(_ & He2)]).
    + done.
    + exfalso. rewrite He2 in Hv2, Heq. pose proof (H4 _ _ _ Hl2' Hi2 Hv2). congruence.
    + exfalso. rewrite He1 in Hv1, Heq. pose proof (H4 _ _ _ Hl1' Hi1 Hv1). congruence.
    + rewrite He1 in Hv1, Heq. rewrite He2 in Hv2, Heq. by eapply H5.
  - intros t' l' j Hl' Hj Hv. destruct (new_entry _ _ _ Hl' Hj Hv) as (_ & Hl & [([= -> ->] & _ & ->)|(_ & Heq)]).
    + rewrite Hnew. split; [apply table_pte|done].
    + rewrite Heq in Hv |- *. by apply (H6 t').
  - apply new_reach.
Qed.

(** The mapping is the one before: the new table maps nothing. *)
Lemma new_pte_of va : pte_of m' root va = pte_of m root va.
Proof.
  pose proof (PX_range 2 va ltac:(lia)) as R2. pose proof (PX_range 1 va ltac:(lia)) as R1.
  pose proof (PX_range 0 va ltac:(lia)) as R0. destruct new_valid as [Hv' Hp'].
  unfold pte_of, leaf. destruct (decide ((root, PX 2 va) = (t, i))) as [[= Hr Hx]|Hne2].
  - assert (next m' root 2 va = Some pg) as -> by (unfold next; by rewrite Hr, Hx, Hv', Hp').
    assert (next m root 2 va = None) as -> by (unfold next; by rewrite Hr, Hx, Hinv).
    cbn. unfold next. by rewrite zero_invalid.
  - assert (Hn2 : next m' root 2 va = next m root 2 va).
    { unfold next. by rewrite (Hold root 2%nat) by (done || apply HT). }
    rewrite Hn2. destruct (next m root 2 va) as [t1|] eqn:E1; [|done]. cbn.
    pose proof (next_level root 1 va t1 (pt_root _ _ _ HT) ltac:(lia) E1) as L1.
    destruct (decide ((t1, PX 1 va) = (t, i))) as [[= -> Hx]|Hne1].
    + unfold next. rewrite Hx, Hv', Hp', Hinv. cbn. exact (Hzero _ R0).
    + assert (Hn1 : next m' t1 1 va = next m t1 1 va).
      { unfold next. by rewrite (Hold t1 1%nat). }
      rewrite Hn1. destruct (next m t1 1 va) as [t0|] eqn:E0; [|done]. cbn.
      pose proof (next_level t1 0 va t0 L1 ltac:(lia) E0) as L0.
      apply (Hold t0 0%nat); [done|done|]. intros [= -> _]. congruence.
Qed.
End new_table.
End tree.

(** ** walk with allocation *)

Definition page_of (a : Z) : Z := a / PGSIZE * PGSIZE.

Lemma page_of_in t a : t mod PGSIZE = 0 -> t <= a < t + PGSIZE -> page_of a = t.
Proof.
  intros Ht Ha. unfold page_of. apply Z.mod_divide in Ht as [k ->]; [|lia].
  enough (a / PGSIZE = k) as -> by done. symmetry. apply Z.div_unique_pos with (a - k * PGSIZE); lia.
Qed.

(** States that differ in the lock layer, memory and free list only. *)
Definition vm_shape (s s' : kstate) : Prop := exists y m f, s' = set_sy y (set_mm m (set_freelist f s)).

Lemma vm_shape_refl s : vm_shape s s.
Proof. exists (sy s), (mm s), (freelist s). by destruct s. Qed.
Lemma vm_shape_mm m s s' : vm_shape s s' -> vm_shape s (set_mm m s').
Proof. intros (y & m' & f & ->). by exists y, m, f. Qed.

(** A page table, with the free pages it can grow into. *)
Record vm_ok (s : kstate) (root : Z) (lv : gmap Z nat) (fl : list Z) : Prop := {
  vo_tree : ptree (mm s) root lv;
  vo_kmem : kmem_ok s fl;
  vo_fresh : forall t, t ∈ fl -> lv !! t = None
}.

(** The table at [root] has grown by some free pages; it maps what it mapped. *)
Record grown (root : Z) (s s' : kstate) (lv lv' : gmap Z nat) (fl fl' : list Z) : Prop := {
  gr_ok : vm_ok s' root lv' fl';
  gr_shape : vm_shape s s';
  gr_sub : lv ⊆ lv';
  gr_used : exists used, fl = used ++ fl' /\ dom lv' = dom lv ∪ list_to_set used;
  gr_frame : forall a, lv' !! page_of a = None -> getb (mm s') a = getb (mm s) a;
  gr_keep : forall t l i, lv !! t = Some (S l) -> 0 <= i < 512 ->
    pte_has (entry (mm s) t i) PTE_V = true -> entry (mm s') t i = entry (mm s) t i;
  gr_pte : forall va, pte_of (mm s') root va = pte_of (mm s) root va
}.

Lemma grown_refl root s lv fl y : vm_ok s root lv fl -> grown root s (set_sy y s) lv lv fl fl.
Proof.
  intros [H1 [? ? ? ?] H3]. split; try done.
  - exists y, (mm s), (freelist s). by destruct s.
  - exists []. split; [done|]. cbn. by rewrite union_empty_r_L.
Qed.

Lemma grown_trans root s s1 s2 lv lv1 lv2 fl fl1 fl2 :
  grown root s s1 lv lv1 fl fl1 -> grown root s1 s2 lv1 lv2 fl1 fl2 -> grown root s s2 lv lv2 fl fl2.
Proof.
  intros [A1 (y1 & m1 & f1 & A2) A3 (u1 & A4 & A4') A5 A6 A7] [B1 (y2 & m2 & f2 & B2) B3 (u2 & B4 & B4') B5 B6 B7]. split.
  - done.
  - exists y2, m2, f2. by rewrite B2, A2.
  - by etransitivity.
  - exists (u1 ++ u2). rewrite A4, B4. split; [by rewrite app_assoc|].
    by rewrite B4', A4', list_to_set_app_L, union_assoc_L.
  - intros a Ha. rewrite B5, A5; [done| |done]. by eapply lookup_weaken_None.
  - intros t l i Ht Hi Hv. rewrite (B6 t l i); [by eapply A6|by eapply lookup_weaken|done|].
    by rewrite (A6 t l i).
  - intros va. by rewrite B7, A7.
Qed.

(** Bytes outside a page, and outside an entry of a table. *)
Lemma aligned_disjoint t x b : t mod PGSIZE = 0 -> x mod PGSIZE = 0 -> x <> t -> x <= b < x + PGSIZE -> ~ t <= b < t + PGSIZE.
Proof.
  intros Ht Hx Hne Hb. apply Z.mod_divide in Ht as [k ->]; [|lia]. apply Z.mod_divide in Hx as [j ->]; [|lia].
  assert (j <> k) by congruence. lia.
Qed.

Section add_table.
Context (s s1 : kstate) (root : Z) (lv : gmap Z nat) (pg : Z) (fl : list Z).
Context (Hok : vm_ok s root lv (pg :: fl)).
Context (Hk1 : kmem_ok s1 fl) (Hsame : same_but_page pg (mm s) (mm s1)).
Context (Hs1 : vm_shape s s1).
Context (t i : Z) (l : nat) (Ht : lv !! t = Some (S l)) (Hi : 0 <= i < 512) (Hlow : l = 1%nat -> i < 256).
Context (Hinv : pte_has (entry (mm s) t i) PTE_V = false).

Let m3 := st64 (CString.memset (mm s1) pg 0 PGSIZE) (t + 8 * i) (Z.lor (PA2PTE pg) PTE_V).

Lemma pg_facts : pg mod PGSIZE = 0 /\ 0 < pg < 2 ^ 56 /\ lv !! pg = None /\ pg <> t /\ t mod PGSIZE = 0 /\ pg ∉ fl.
Proof using Hok Ht.
  clear -Hok Ht.
  destruct Hok as [HT [He Hc Hnd Hp] Hf]. apply Forall_cons in Hp as [[Ha Hr] _]. apply NoDup_cons in Hnd as [Hn _].
  pose proof (Hf pg ltac:(apply elem_of_cons; by left)) as Hpg.
  split_and!; try done; try lia; [congruence|]. by apply (pt_page _ _ _ HT t (S l)).
Qed.

(** Bytes that are neither in the new page nor in the changed entry. *)
Lemma m3_other b : ~ pg <= b < pg + PGSIZE -> ~ t + 8 * i <= b < t + 8 * i + 8 -> getb m3 b = getb (mm s) b.
Proof.
  intros Hb1 Hb2. unfold m3, st64. rewrite getb_stn_ne by lia. rewrite memset_page_same by done. by apply Hsame.
Qed.

Lemma m3_old t' l' j : lv !! t' = Some l' -> 0 <= j < 512 -> (t', j) <> (t, i) -> entry m3 t' j = entry (mm s) t' j.
Proof.
  intros Ht' Hj Hne. destruct pg_facts as (P1 & P2 & P3 & P4 & P5 & P6).
  pose proof (pt_page _ _ _ (vo_tree _ _ _ _ Hok) _ _ Ht') as [Pt' _].
  unfold entry. apply ldn_ext. intros b Hb. apply m3_other.
  - apply (aligned_disjoint pg t'); try done; [congruence|]. lia.
  - destruct (entry_disjoint t' j t i); try done; lia.
Qed.

Lemma m3_zero j : 0 <= j < 512 -> entry m3 pg j = 0.
Proof.
  intros Hj. destruct pg_facts as (P1 & P2 & P3 & P4 & P5 & P6). unfold m3.
  rewrite entry_st64_ne by (done || congruence). unfold entry.
  transitivity (ld64 (∅ : mem) 0); [|done].
  assert (Hz : forall n a, pg <= a -> a + Z.of_nat n <= pg + PGSIZE ->
    ldn n (CString.memset (mm s1) pg 0 PGSIZE) a = 0).
  { induction n as [|n IH]; intros a H1 H2; [done|]. rewrite ldn_S, memset_page_filled, IH by lia. done. }
  apply Hz; lia.
Qed.

Lemma m3_kmem : kmem_ok (set_mm m3 s1) fl.
Proof.
  destruct pg_facts as (P1 & P2 & P3 & P4 & P5 & P6). destruct Hk1 as [He Hc Hnd Hp]. split; try done.
  eapply chain_ext; [|exact Hc]. apply Forall_forall. intros x Hx. cbn [mm set_mm]. apply ldn_ext. intros b Hb.
  eapply Forall_forall in Hp as [Hxa _]; [|exact Hx].
  assert (Hxt : x <> t). { intros ->. rewrite (vo_fresh _ _ _ _ Hok t) in Ht by (apply elem_of_cons; by right). done. }
  assert (Hxp : x <> pg) by congruence.
  assert (Hn1 : ~ pg <= b < pg + PGSIZE) by (apply (aligned_disjoint pg x); (done || lia)).
  unfold m3, st64. rewrite getb_stn_ne.
  - by apply memset_page_same.
  - pose proof (aligned_disjoint t x b P5 Hxa Hxt ltac:(lia)). lia.
Qed.

Lemma grown_add : grown root s (set_mm m3 s1) lv (<[pg := l]> lv) (pg :: fl) fl.
Proof.
  destruct pg_facts as (P1 & P2 & P3 & P4 & P5 & P6). pose proof (vo_tree _ _ _ _ Hok) as HT.
  assert (Hnew : entry m3 t i = Z.lor (PA2PTE pg) PTE_V).
  { apply entry_st64_eq. apply pte_range; lia. }
  split.
  - split; [|apply m3_kmem|].
    + by eapply (new_ptree (mm s) root lv HT m3 t pg i l); eauto using m3_zero, m3_old.
    + intros t' Ht'. rewrite lookup_insert_ne by congruence. apply (vo_fresh _ _ _ _ Hok), elem_of_cons. by right.
  - by apply vm_shape_mm.
  - by apply insert_subseteq.
  - exists [pg]. split; [done|]. rewrite dom_insert_L. cbn. by rewrite union_empty_r_L, union_comm_L.
  - intros a Ha. cbn [mm set_mm]. apply m3_other.
    + intros Hin. rewrite (page_of_in pg a P1 Hin), lookup_insert_eq in Ha. done.
    + intros Hin. rewrite (page_of_in t a P5) in Ha by lia. rewrite lookup_insert_ne in Ha by done. congruence.
  - intros t' l' j Ht' Hj Hv. cbn [mm set_mm]. eapply m3_old; [done|done|]. intros [= -> ->]. congruence.
  - intros va. cbn [mm set_mm]. eapply (new_pte_of (mm s) root lv HT m3 t pg i l); eauto using m3_zero, m3_old.
Qed.
End add_table.

Section walk.
Context (h : nat) (me : option nat) (ls : list lockid) (Hls : LKmem ∉ ls).

(** One level of walk(): find the next table, or make it. *)
Lemma run_walk_step s root lv fl t l va (Q : (Z * Z + Z) -> kstate -> Prop) :
  owns h me ls (sy s) -> vm_ok s root lv fl -> lv !! t = Some (S l) -> 0 <= va < MAXVA ->
  (forall t' s' lv' fl', owns h me ls (sy s') -> grown root s s' lv lv' fl fl' ->
     lv' !! t' = Some l -> next (mm s') t (Z.of_nat (S l)) va = Some t' -> (length fl <= S (length fl'))%nat ->
     Q (inl (Z.of_nat (S l) - 1, t')) s') ->
  (forall s', owns h me ls (sy s') -> fl = [] -> grown root s s' lv lv fl [] -> Q (inr 0) s') ->
  run (let pte := t + 8 * PX (Z.of_nat (S l)) va in
       e <- load64 pte ;;
       if pte_has e PTE_V then ret (inl (Z.of_nat (S l) - 1, PTE2PA e))
       else if negb true then ret (inr 0)
       else
         pagetable <- kalloc ;;
         if pagetable =? 0 then ret (inr 0)
         else
           k_memset pagetable 0 PGSIZE ;;
           store64 pte (Z.lor (PA2PTE pagetable) PTE_V) ;;
           ret (inl (Z.of_nat (S l) - 1, pagetable))) s Q.
Proof.
  intros Ho Hok Ht Hva HQ HQ0. pose proof (PX_range (Z.of_nat (S l)) va ltac:(lia)) as HR.
  assert (Hlow : l = 1%nat -> PX (Z.of_nat (S l)) va < 256) by (intros ->; by apply PX_top).
  set (i := PX (Z.of_nat (S l)) va) in *. cbv zeta. unfold load64. wp. fold (entry (mm s) t i).
  pose proof (vo_tree _ _ _ _ Hok) as HT. destruct (pte_has (entry (mm s) t i) PTE_V) eqn:Hv.
  - wp. pose proof (grown_refl root s lv fl (sy s) Hok) as Hg. replace (set_sy (sy s) s) with s in Hg by by destruct s.
    eapply HQ; [done|exact Hg|by eapply pt_child| |lia]. unfold next. fold i. by rewrite Hv.
  - cbn [negb]. wp. destruct fl as [|pg fl].
    + eapply run_mono; [by eapply kalloc_none, (vo_kmem _ _ _ _ Hok)|]. intros r s' (-> & Ho' & y' & ->).
      change (0 =? 0) with true. cbv iota. wp. apply HQ0; [done|done|]. by apply grown_refl.
    + eapply run_mono; [by eapply kalloc_some, (vo_kmem _ _ _ _ Hok)|].
      intros r s1 (-> & Hk1 & Ho1 & _ & Hsame & Hs1).
      destruct (pg_facts s root lv pg fl Hok t l Ht) as (P1 & P2 & P3 & P4 & P5 & P6).
      destruct (Z.eqb_spec pg 0); [lia|]. unfold k_memset, store64. wp.
      pose proof (grown_add s s1 root lv pg fl Hok Hk1 Hsame Hs1 t i l Ht HR Hlow Hv) as Hg.
      eapply HQ; [exact Ho1|exact Hg|by apply lookup_insert_eq| |done]. cbn [mm set_mm]. unfold next. fold i.
      set (m3 := st64 _ _ _). destruct (new_valid m3 t pg i) as [-> ->]; [done| |done].
      apply entry_st64_eq, pte_range; lia.
Qed.

(** walk() with allocation: the leaf entry exists afterwards, or memory is
    exhausted; the mapping is unchanged in both cases. *)
Lemma run_walk_alloc s root lv fl va (Q : Z -> kstate -> Prop) :
  owns h me ls (sy s) -> vm_ok s root lv fl -> 0 <= va < MAXVA ->
  (forall r s' lv' fl', owns h me ls (sy s') -> grown root s s' lv lv' fl fl' ->
     (r = 0 /\ fl' = [] /\ (length fl < 2)%nat \/
      r <> 0 /\ leaf (mm s') root va = Some r /\ (length fl <= 2 + length fl')%nat) -> Q r s') ->
  run (walk root va true) s Q.
Proof.
  intros Ho Hok Hva HQ. unfold walk. destruct (Z.leb_spec MAXVA va); [lia|]. cbn [loop]. apply run_bind.
  change (0 <? 2) with true. cbv iota. pose proof (pt_root _ _ _ (vo_tree _ _ _ _ Hok)) as Hroot.
  eapply (run_walk_step s root lv fl root 1); [done|done|done|done| |].
  2: { intros s' Ho' -> Hg. wp. eapply HQ; [done|exact Hg|]. left. split_and!; [done|done|cbn; lia]. }
  intros t1 s1 lv1 fl1 Ho1 Hg1 L1 N1 Len1. cbv beta iota. apply run_bind. change (0 <? Z.of_nat 2 - 1) with true. cbv iota.
  eapply (run_walk_step s1 root lv1 fl1 t1 0); [done|apply Hg1|done|done| |].
  2: { intros s' Ho' -> Hg. wp. eapply HQ; [done|by eapply grown_trans|]. left. cbn in Len1. split_and!; [done|done|lia]. }
  intros t0 s2 lv2 fl2 Ho2 Hg2 L0 N0 Len2. cbv beta iota. apply run_bind. change (0 <? Z.of_nat 1 - 1) with false. cbv iota.
  wp. eapply HQ; [done|by eapply grown_trans|]. right.
  pose proof (pt_page _ _ _ (vo_tree _ _ _ _ (gr_ok _ _ _ _ _ _ _ Hg2)) _ _ L0) as [_ ?].
  pose proof (PX_range 0 va ltac:(lia)). split_and!; [lia| |lia]. unfold leaf.
  assert (next (mm s2) root 2 va = Some t1) as ->; [|cbn; change 1 with (Z.of_nat 1); by rewrite N0].
  change (Z.of_nat 2) with 2 in N1. unfold next in N1 |- *. destruct (pte_has (entry (mm s1) root (PX 2 va)) PTE_V) eqn:V; [|done].
  rewrite (gr_keep _ _ _ _ _ _ _ Hg2 root 1 (PX 2 va)); [by rewrite V| |apply PX_range; lia|done].
  apply (vo_tree _ _ _ _ (gr_ok _ _ _ _ _ _ _ Hg1)).
Qed.
End walk.

(** ** mappages *)

(** The table now maps [va] to entry [f va]. *)
Record remapped (root : Z) (s s' : kstate) (lv lv' : gmap Z nat) (fl fl' : list Z) (f : Z -> Z) : Prop := {
  rm_ok : vm_ok s' root lv' fl';
  rm_shape : vm_shape s s';
  rm_sub : lv ⊆ lv';
  rm_used : exists used, fl = used ++ fl' /\ dom lv' = dom lv ∪ list_to_set used;
  rm_frame : forall a, lv' !! page_of a = None -> getb (mm s') a = getb (mm s) a;
  rm_pte : forall va, 0 <= va < MAXVA -> pte_of (mm s') root va = f va
}.

Lemma vm_shape_trans s s1 s2 : vm_shape s s1 -> vm_shape s1 s2 -> vm_shape s s2.
Proof. intros (y & m & f & ->) (y' & m' & f' & ->). by exists y', m', f'. Qed.

Lemma grown_remapped root s s' lv lv' fl fl' : grown root s s' lv lv' fl fl' ->
  remapped root s s' lv lv' fl fl' (pte_of (mm s) root).
Proof. by intros [H1 H2 H3 H4 H5 H6 H7]. Qed.

Lemma remapped_trans root s s1 s2 lv lv1 lv2 fl fl1 fl2 f g :
  remapped root s s1 lv lv1 fl fl1 f -> remapped root s1 s2 lv1 lv2 fl1 fl2 g ->
  remapped root s s2 lv lv2 fl fl2 g.
Proof.
  intros [A1 A2 A3 (u1 & A4 & A4') A5 A6] [B1 B2 B3 (u2 & B4 & B4') B5 B6]. split.
  - done.
  - by eapply vm_shape_trans.
  - by etransitivity.
  - exists (u1 ++ u2). rewrite A4, B4. split; [by rewrite app_assoc|].
    by rewrite B4', A4', list_to_set_app_L, union_assoc_L.
  - intros a Ha. rewrite B5, A5; [done| |done]. by eapply lookup_weaken_None.
  - done.
Qed.

Lemma remapped_ext root s s' lv lv' fl fl' f g : (forall va, 0 <= va < MAXVA -> f va = g va) ->
  remapped root s s' lv lv' fl fl' f -> remapped root s s' lv lv' fl fl' g.
Proof. intros Hfg [H1 H2 H3 H4 H5 H6]. split; try done. intros va Hva. by rewrite <-Hfg, H6. Qed.

(** Storing a leaf entry. *)
Lemma remapped_store root s lv fl va a v : vm_ok s root lv fl -> 0 <= va < MAXVA ->
  leaf (mm s) root va = Some a -> 0 <= v < 2 ^ 64 ->
  remapped root s (set_mm (st64 (mm s) a v) s) lv lv fl fl
    (fun va' => if bool_decide (va' / PGSIZE = va / PGSIZE) then v else pte_of (mm s) root va').
Proof.
  intros [HT Hk Hf] Hva Ha Hv. destruct (set_leaf _ _ _ HT va a v Hva Ha Hv) as [HT' Hpte].
  destruct (leaf_split _ _ _ HT va a Ha) as (t0 & -> & L0). pose proof (pt_page _ _ _ HT _ _ L0) as [P0 _].
  pose proof (PX_range 0 va ltac:(lia)) as R0. split; try done.
  - split; [done| |done]. destruct Hk as [He Hc Hnd Hp]. split; try done. eapply chain_ext; [|exact Hc].
    apply Forall_forall. intros x Hx. cbn [mm set_mm]. apply ldn_ext. intros b Hb. unfold st64. apply getb_stn_ne.
    eapply Forall_forall in Hp as [Hxa _]; [|exact Hx].
    assert (Hxt : x <> t0) by (intros ->; rewrite (Hf t0 Hx) in L0; done).
    pose proof (aligned_disjoint t0 x b P0 Hxa Hxt ltac:(lia)). lia.
  - exists (sy s), (st64 (mm s) (t0 + 8 * PX 0 va) v), (freelist s). by destruct s.
  - exists []. split; [done|]. cbn. by rewrite union_empty_r_L.
  - intros b Hb. cbn [mm set_mm]. unfold st64. apply getb_stn_ne.
    destruct (decide (t0 + 8 * PX 0 va <= b < t0 + 8 * PX 0 va + 8)); [|lia].
    rewrite (page_of_in t0 b P0) in Hb by lia. congruence.
Qed.

(** The entry mappages() installs. *)
Definition leaf_pte (pa perm : Z) : Z := Z.lor (PA2PTE pa) (Z.lor perm PTE_V).

(** The mapping [f] with [k] pages from page [q] on mapped to [pa] and up. *)
Definition map_range (f : Z -> Z) (q : Z) (k : nat) (pa perm : Z) (va : Z) : Z :=
  if bool_decide (q <= va / PGSIZE < q + Z.of_nat k)
  then leaf_pte (pa + (va / PGSIZE - q) * PGSIZE) perm else f va.

Lemma map_range_S f q k pa perm va :
  map_range f q (S k) pa perm va =
    if bool_decide (va / PGSIZE = q + Z.of_nat k) then leaf_pte (pa + Z.of_nat k * PGSIZE) perm
    else map_range f q k pa perm va.
Proof.
  unfold map_range. repeat case_bool_decide; try lia; try done. do 3 f_equal. lia.
Qed.

Lemma flags_V_range g : 0 <= g < 1024 -> 0 <= Z.lor g PTE_V < 1024.
Proof.
  intros Hg. split; [apply Z.lor_nonneg; lia|]. change 1024 with (2 ^ 10).
  destruct (decide (Z.lor g PTE_V = 0)) as [->|Hne]; [lia|].
  apply Z.log2_lt_pow2; [assert (0 <= Z.lor g PTE_V) by (apply Z.lor_nonneg; lia); lia|].
  rewrite Z.log2_lor by lia. apply Z.max_lub_lt; [|done].
  destruct (decide (g = 0)) as [->|]; [cbn; lia|]. apply Z.log2_lt_pow2; lia.
Qed.

Lemma leaf_pte_range pa perm : 0 <= pa < 2 ^ 56 -> 0 <= perm < 1024 -> 0 <= leaf_pte pa perm < 2 ^ 64.
Proof. intros Hp Hperm. by apply pte_range, flags_V_range. Qed.

Section mappages.
Context (h : nat) (me : option nat) (ls : list lockid) (Hls : LKmem ∉ ls).
Context (s : kstate) (root : Z) (lv : gmap Z nat) (fl : list Z) (q pa perm : Z) (n : nat).
Context (Hok : vm_ok s root lv fl) (Ho : owns h me ls (sy s)).
Context (Hq : 0 <= q) (Hqn : (q + Z.of_nat n) * PGSIZE <= MAXVA) (Hn : (0 < n)%nat).
Context (Hpa : 0 <= pa /\ pa + Z.of_nat n * PGSIZE <= 2 ^ 56) (Hperm : 0 <= perm < 1024).
Context (Hfree : forall va, q <= va / PGSIZE < q + Z.of_nat n -> pte_has (pte_of (mm s) root va) PTE_V = false).
Let f := pte_of (mm s) root.

(** [k] pages are mapped; the next ones are still free. *)
Definition mapped_to (k : nat) (s' : kstate) : Prop :=
  exists lv' fl', owns h me ls (sy s') /\ remapped root s s' lv lv' fl fl' (map_range f q k pa perm) /\
    (length fl <= 2 * k + length fl')%nat.

(** One iteration. *)
Lemma run_map_page k s1 (Q : (Z * Z + Z) -> kstate -> Prop) (last : Z) : (k < n)%nat -> mapped_to k s1 ->
  last = (q + Z.of_nat n - 1) * PGSIZE ->
  let a := (q + Z.of_nat k) * PGSIZE in let pa' := pa + Z.of_nat k * PGSIZE in
  (forall s2, mapped_to (S k) s2 ->
    Q (if a =? last then inr 0 else inl (a + PGSIZE, pa' + PGSIZE)) s2) ->
  (forall s2 lv2, owns h me ls (sy s2) -> remapped root s s2 lv lv2 fl [] (map_range f q k pa perm) ->
    (length fl < 2 * n)%nat -> Q (inr (-1)) s2) ->
  run (pte <- walk root a true ;;
    if pte =? 0 then ret (inr (-1)) else
    e <- load64 pte ;;
    if pte_has e PTE_V then panic "remap" else
    store64 pte (Z.lor (Z.lor (PA2PTE pa') perm) PTE_V) ;;
    if a =? last then ret (inr 0)
    else ret (inl (u64 (a + PGSIZE), u64 (pa' + PGSIZE)))) s1 Q.
Proof.
  intros Hk (lv1 & fl1 & Ho1 & H1 & Len1) Hl a pa' HQ HQ1. assert (Hva : 0 <= a < MAXVA) by (unfold a; lia).
  assert (Hdiv : a / PGSIZE = q + Z.of_nat k) by (unfold a; apply Z.div_mul; lia).
  apply run_bind. eapply run_walk_alloc; [done|exact Ho1|apply H1|done|].
  intros r s2 lv2 fl2 Ho2 Hg Hr. pose proof (grown_remapped _ _ _ _ _ _ _ Hg) as H2.
  assert (H12 : remapped root s s2 lv lv2 fl fl2 (map_range f q k pa perm)).
  { eapply remapped_ext; [|by eapply remapped_trans]. intros va Hr'. apply H1, Hr'. }
  destruct Hr as [(-> & -> & Len)|(Hne & Hleaf & Len)].
  { change (0 =? 0) with true. cbv iota. wp. eapply HQ1; [done|exact H12|lia]. }
  destruct (Z.eqb_spec r 0); [lia|]. unfold load64, store64. wp.
  assert (He : pte_of (mm s2) root a = ld64 (mm s2) r) by (unfold pte_of; by rewrite Hleaf).
  rewrite <-He, (rm_pte _ _ _ _ _ _ _ _ H12) by done.
  unfold map_range at 1. rewrite Hdiv. rewrite bool_decide_false by lia. unfold f at 1. rewrite Hfree by lia.
  wp. rewrite <-Z.lor_assoc. fold (leaf_pte pa' perm).
  assert (Hm : mapped_to (S k) (set_mm (st64 (mm s2) r (leaf_pte pa' perm)) s2)).
  { exists lv2, fl2. split_and!; [done| |lia]. eapply remapped_ext; [|eapply remapped_trans; [exact H12|]].
    2: { eapply remapped_store; [apply H12|exact Hva|exact Hleaf|]. apply leaf_pte_range; [unfold pa'; lia|done]. }
    intros va' Hr'. cbv beta. rewrite map_range_S, Hdiv. case_bool_decide; [done|]. by apply H12. }
  specialize (HQ _ Hm). destruct (a =? last) eqn:El; wp; [done|].
  rewrite !u64_small by (unfold a, pa' in *; lia). done.
Qed.

(** mappages() on [n] unmapped pages from virtual page [q] on: all of them
    are mapped, or memory ran out after [k] of them. *)
Lemma run_mappages_pages (Q : Z -> kstate -> Prop) :
  (forall s' lv' fl', owns h me ls (sy s') -> remapped root s s' lv lv' fl fl' (map_range f q n pa perm) ->
     (length fl <= 2 * n + length fl')%nat -> Q 0 s') ->
  (forall k s' lv', (k < n)%nat -> owns h me ls (sy s') ->
     remapped root s s' lv lv' fl [] (map_range f q k pa perm) -> (length fl < 2 * n)%nat -> Q (-1) s') ->
  forall va size, PGROUNDDOWN va = q * PGSIZE -> PGROUNDDOWN (u64 (va + size - 1)) = (q + Z.of_nat n - 1) * PGSIZE ->
  run (mappages root va size pa perm) s Q.
Proof.
  intros HQ HQ1 va size Ha Hlast. unfold mappages. rewrite Ha, Hlast. set (last := (q + Z.of_nat n - 1) * PGSIZE).
  eapply (run_loop _ (fun x s' => exists k, (k < n)%nat /\ x = ((q + Z.of_nat k) * PGSIZE, pa + Z.of_nat k * PGSIZE) /\ mapped_to k s')
    (fun x _ => Z.to_nat ((last - x.1) / PGSIZE))).
  - intros x s1 (k & Hk & -> & Hm). eapply (run_map_page k s1 _ last); [done|done|done| |].
    + intros s2 Hm2. destruct (Z.eqb_spec ((q + Z.of_nat k) * PGSIZE) last) as [El|El].
      * unfold last in El. assert (S k = n) as <- by lia. destruct Hm2 as (lv2 & fl2 & Ho2 & H2 & Len2). by eapply HQ.
      * unfold last in *. assert (S k <> n) by nia. split.
        -- exists (S k). split_and!; [lia| |done]. f_equal; lia.
        -- cbn [fst].
           replace ((q + Z.of_nat n - 1) * PGSIZE - ((q + Z.of_nat k) * PGSIZE + PGSIZE)) with ((Z.of_nat n - 2 - Z.of_nat k) * PGSIZE) by lia.
           replace ((q + Z.of_nat n - 1) * PGSIZE - (q + Z.of_nat k) * PGSIZE) with ((Z.of_nat n - 1 - Z.of_nat k) * PGSIZE) by lia.
           rewrite !Z.div_mul by lia. lia.
    + intros s2 lv2 Ho2 H2 Len2. by eapply HQ1.
  - exists 0%nat. split_and!; [lia|f_equal; lia|]. exists lv, fl. split_and!; [done| |lia].
    pose proof (grown_remapped _ _ _ _ _ _ _ (grown_refl root s lv fl (sy s) Hok)) as Hr.
    replace (set_sy (sy s) s) with s in Hr by by destruct s. eapply remapped_ext; [|exact Hr].
    intros va' _. unfold map_range. by rewrite bool_decide_false by lia.
  - cbn [fst]. unfold range_fuel. destruct (Z.leb_spec (q * PGSIZE) last); [lia|]. unfold last in *. lia.
Qed.
End mappages.

End PageTable.
