(* ===== verification/Uvm.v ===== *)
(** * User address spaces (kernel/vm.c)

    The abstract view of a process's memory: [um] maps each user page to its
    frame and flags, [vget] reads the memory through it.  uvmunmap, uvmalloc,
    uvmdealloc, uvmcopy, copyout and copyin are specified on that view, with
    the pages the page table, the address space and the free list own
    between them accounted for ([owned]). *)

From S2P Require Import Prelude Bytes CString KState Spinlock Kernel Riscv Machine Kalloc Vm PageTable.

Module Uvm.
Import Kalloc Vm PageTable.

(** User pages: virtual page number to frame and flags. *)
Abbreviation umap := (gmap Z (Z * Z)).

Definition user_flags (g : Z) : Prop := 0 <= g < 1024 /\ Z.lor g PTE_V <> PTE_V.

Record uvm_ok (s : kstate) (root : Z) (lv : gmap Z nat) (fl : list Z) (um : umap) : Prop := {
  uo_vm : vm_ok s root lv fl;
  uo_pte : forall vp fr g, um !! vp = Some (fr, g) ->
    (0 <= vp /\ (vp + 1) * PGSIZE <= MAXVA) /\ user_flags g /\ pte_of (mm s) root (vp * PGSIZE) = leaf_pte fr g;
  uo_frame : forall vp fr g, um !! vp = Some (fr, g) ->
    is_page (ld_end (ld s)) fr /\ (fr ∉ fl) /\ lv !! fr = None;
  uo_inj : forall vp vp' fr g g', um !! vp = Some (fr, g) -> um !! vp' = Some (fr, g') -> vp = vp'
}.

(** The invariant is about memory, the free list and the link map only. *)
Lemma uvm_frame root lv s s' fl um : mm s' = mm s -> ld s' = ld s -> freelist s' = freelist s -> uvm_ok s root lv fl um -> uvm_ok s' root lv fl um.
Proof.
  intros Hm Hl Hf [[Ht [K1 K2 K3 K4] Hv] Hp Hfr Hi]. split; [split; [by rewrite Hm|split|done]|..]; rewrite ?Hm, ?Hl, ?Hf; done.
Qed.

(** The byte at a user address. *)
Definition vget (m : mem) (um : umap) (va : Z) : option Z :=
  match um !! (va / PGSIZE) with
  | Some (fr, _) => Some (getb m (fr + va mod PGSIZE))
  | None => None
  end.

Definition frames (um : umap) : gset Z := map_img (fst <$> um).

(** Every page the table, the free list and the address space hold. *)
Definition owned (lv : gmap Z nat) (fl : list Z) (um : umap) : gset Z :=
  dom lv ∪ list_to_set fl ∪ frames um.

Lemma elem_of_frames um fr : fr ∈ frames um <-> exists vp g, um !! vp = Some (fr, g).
Proof.
  unfold frames. rewrite elem_of_map_img. split.
  - intros [vp H]. rewrite lookup_fmap in H. destruct (um !! vp) as [[fr' g]|] eqn:E; [|done].
    injection H as <-. by exists vp, g.
  - intros (vp & g & H). exists vp. by rewrite lookup_fmap, H.
Qed.

Lemma elem_of_owned lv fl um x :
  x ∈ owned lv fl um <-> is_Some (lv !! x) \/ x ∈ fl \/ exists vp g, um !! vp = Some (x, g).
Proof. unfold owned. rewrite !elem_of_union, elem_of_dom, elem_of_list_to_set, elem_of_frames. tauto. Qed.

(** A page none of them holds. *)
Definition spare (s : kstate) (lv : gmap Z nat) (fl : list Z) (um : umap) (pg : Z) : Prop :=
  is_page (ld_end (ld s)) pg /\ pg ∉ owned lv fl um.

Lemma frame_byte fr va : fr mod PGSIZE = 0 -> page_of (fr + va mod PGSIZE) = fr.
Proof. intros H. apply page_of_in; [done|]. pose proof (Z.mod_pos_bound va PGSIZE ltac:(lia)). lia. Qed.

Lemma vget_ext m m' um : (forall vp fr g a, um !! vp = Some (fr, g) -> fr <= a < fr + PGSIZE -> getb m' a = getb m a) ->
  forall va, vget m' um va = vget m um va.
Proof.
  intros H va. unfold vget. destruct (um !! (va / PGSIZE)) as [[fr g]|] eqn:E; [|done]. f_equal.
  eapply H; [done|]. pose proof (Z.mod_pos_bound va PGSIZE ltac:(lia)). lia.
Qed.

(** ** Tables unchanged *)

Lemma ptree_same m m' root lv : ptree m root lv ->
  (forall a, is_Some (lv !! page_of a) -> getb m' a = getb m a) ->
  ptree m' root lv /\ (forall va, leaf m' root va = leaf m root va) /\ forall va, pte_of m' root va = pte_of m root va.
Proof.
  intros HT H. assert (He : forall t l i, lv !! t = Some l -> 0 <= i < 512 -> entry m' t i = entry m t i).
  { intros t l i Ht Hi. pose proof (pt_page _ _ _ HT _ _ Ht) as [Pt _]. apply ldn_ext. intros b Hb. apply H.
    rewrite (page_of_in t) by (done || lia). by rewrite Ht. }
  destruct (leaf_ext m root lv HT m') as [HT' Hl]. { intros t l i Ht. by eapply He. }
  split_and!; [done|done|]. intros va. unfold pte_of. rewrite Hl. destruct (leaf m root va) as [a|] eqn:Ha; [|done].
  destruct (leaf_split _ _ _ HT va a Ha) as (t0 & -> & L0). apply (He t0 0%nat); [done|apply PX_range; lia].
Qed.

Section steps.
Context (s s' : kstate) (root : Z) (lv : gmap Z nat) (um : umap) (Hs : vm_shape s s').

Lemma shape_ld : ld s' = ld s.
Proof. by destruct Hs as (y & m & f & ->). Qed.

(** Memory changes only inside page [pg], which holds nothing. *)
Lemma uvm_other_page fl pg fl' : uvm_ok s root lv fl um -> kmem_ok s' fl' -> same_but_page pg (mm s) (mm s') ->
  (forall x, x ∈ fl' -> x = pg \/ x ∈ fl) -> pg mod PGSIZE = 0 -> pg ∉ dom lv -> pg ∉ frames um ->
  uvm_ok s' root lv fl' um /\ (forall va, vget (mm s') um va = vget (mm s) um va) /\
  (forall va, leaf (mm s') root va = leaf (mm s) root va) /\
  forall va, pte_of (mm s') root va = pte_of (mm s) root va.
Proof.
  intros [[HT Hk Hf] Hp Hfr Hi] Hk' Hsame Hsub Hpg Hnl Hnf. apply not_elem_of_dom in Hnl.
  destruct (ptree_same (mm s) (mm s') root lv HT) as (HT' & Hl & Hpte).
  { intros a [l Ha]. apply Hsame. intros Hin. rewrite (page_of_in pg a) in Ha by done. congruence. }
  split; [split|split; [|done]].
  - split; [done|done|]. intros t Ht. destruct (Hsub t Ht) as [->|Ht']; [done|by apply Hf].
  - intros vp fr g H. rewrite Hpte. by apply Hp.
  - intros vp fr g H. rewrite shape_ld. destruct (Hfr _ _ _ H) as (? & ? & ?). split_and!; [done| |done].
    intros Hin. destruct (Hsub _ Hin) as [->|]; [|done]. apply Hnf, elem_of_frames. eauto.
  - done.
  - apply vget_ext. intros vp fr g a H Ha. apply Hsame. destruct (Hfr _ _ _ H) as ([Hal _] & _ & _).
    apply (aligned_disjoint pg fr); [done|done| |done]. intros ->. apply Hnf, elem_of_frames. eauto.
Qed.

(** The table grew or changed without touching the mapped user pages. *)
Lemma uvm_remapped fl fl' lv' f : uvm_ok s root lv fl um -> remapped root s s' lv lv' fl fl' f ->
  (forall vp, is_Some (um !! vp) -> f (vp * PGSIZE) = pte_of (mm s) root (vp * PGSIZE)) ->
  uvm_ok s' root lv' fl' um /\ (forall va, vget (mm s') um va = vget (mm s) um va) /\
  owned lv' fl' um = owned lv fl um.
Proof.
  intros [[HT Hk Hf] Hp Hfr Hi] [A1 A2 A3 (u & A4 & A4') A5 A6] Hkeep.
  assert (Hnew : forall fr, fr ∉ fl -> lv !! fr = None -> lv' !! fr = None).
  { intros fr Hn Hl. apply not_elem_of_dom. rewrite A4'. rewrite elem_of_union, elem_of_dom, elem_of_list_to_set, Hl.
    intros [[??]|Hu]; [done|]. apply Hn. rewrite A4. apply elem_of_app. by left. }
  split; [split|split].
  - done.
  - intros vp fr g H. destruct (Hp _ _ _ H) as (Hr & Hg & Hpt). split_and!; try done; try lia.
    rewrite A6, Hkeep; [done|by rewrite H|lia].
  - intros vp fr g H. rewrite shape_ld. destruct (Hfr _ _ _ H) as (Ha & Hn & Hl). split_and!; [done| |by apply Hnew].
    intros Hin. apply Hn. rewrite A4. apply elem_of_app. by right.
  - done.
  - apply vget_ext. intros vp fr g a H Ha. destruct (Hfr _ _ _ H) as ([Hal _] & Hn & Hl). apply A5.
    rewrite (page_of_in fr) by done. by apply Hnew.
  - unfold owned. rewrite A4', A4, list_to_set_app_L. by rewrite (union_assoc_L (dom lv)).
Qed.
End steps.

(** ** Leaf entries *)

Section leaf_pte.
Context (fr g : Z) (Hfr : fr mod PGSIZE = 0) (Hr : 0 <= fr < 2 ^ 56) (Hg : 0 <= g < 1024).

Lemma leaf_pte_flags : PTE_FLAGS (leaf_pte fr g) = Z.lor g PTE_V.
Proof. unfold leaf_pte. apply PTE_FLAGS_of; [done|by apply flags_V_range]. Qed.

Lemma leaf_pte_addr : PTE2PA (leaf_pte fr g) = fr.
Proof. apply PTE2PA_of; [done|done|by apply flags_V_range]. Qed.

Lemma leaf_pte_has flag : 0 <= flag < 1024 -> pte_has (leaf_pte fr g) flag = pte_has (Z.lor g PTE_V) flag.
Proof. intros. rewrite pte_has_flags by done. by rewrite leaf_pte_flags. Qed.

Lemma leaf_pte_valid : pte_has (leaf_pte fr g) PTE_V = true.
Proof.
  rewrite leaf_pte_has by lia. unfold pte_has. rewrite Z.land_lor_distr_l.
  apply negb_true_iff, Z.eqb_neq. rewrite Z.lor_eq_0_iff. by intros [_ ?].
Qed.

Lemma leaf_pte_user : pte_has (leaf_pte fr g) PTE_U = pte_has g PTE_U.
Proof.
  rewrite leaf_pte_has by lia. unfold pte_has. rewrite Z.land_lor_distr_l.
  change (Z.land PTE_V PTE_U) with 0. by rewrite Z.lor_0_r.
Qed.
End leaf_pte.

Lemma is_page_range e fr : 0 < e -> is_page e fr -> fr mod PGSIZE = 0 /\ 0 < fr < 2 ^ 56.
Proof. intros He [Ha Hr]. split; [done|lia]. Qed.

(** walk() without allocation, and the entries of user pages. *)
Lemma run_walk_lookup s root va (Q : Z -> kstate -> Prop) : va < MAXVA -> Q (default 0 (leaf (mm s) root va)) s ->
  run (walk root va false) s Q.
Proof. intros Hva HQ. unfold run. by rewrite walk_lookup. Qed.

Lemma run_walk s root va r (Q : Z -> kstate -> Prop) : va < MAXVA -> leaf (mm s) root va = Some r -> Q r s ->
  run (walk root va false) s Q.
Proof. intros Hva Hl HQ. apply run_walk_lookup; [done|]. by rewrite Hl. Qed.

Lemma user_leaf s root lv fl um vp fr g : uvm_ok s root lv fl um -> um !! vp = Some (fr, g) ->
  exists r, r <> 0 /\ leaf (mm s) root (vp * PGSIZE) = Some r /\ ld64 (mm s) r = leaf_pte fr g.
Proof.
  intros [[HT [He _ _ _] Hf] Hp Hfr Hi] H. destruct (Hp _ _ _ H) as (Hr & [Hg _] & Hpt).
  destruct (Hfr _ _ _ H) as (Hpg & _). destruct (is_page_range _ _ He Hpg).
  unfold pte_of in Hpt. destruct (leaf (mm s) root (vp * PGSIZE)) as [r|] eqn:E.
  - exists r. split_and!; [|done|done]. destruct (leaf_split _ _ _ HT _ _ E) as (t0 & -> & L0).
    pose proof (pt_page _ _ _ HT _ _ L0). pose proof (PX_range 0 (vp * PGSIZE) ltac:(lia)). lia.
  - exfalso. pose proof (leaf_pte_valid fr g) as Hv. rewrite <-Hpt in Hv. discriminate Hv; lia.
Qed.

(** ** Unmapping *)

Definition um_del (um : umap) (q : Z) (n : nat) : umap :=
  filter (fun kv => ~ (q <= kv.1 < q + Z.of_nat n)) um.

Lemma um_del_lookup um q n vp :
  um_del um q n !! vp = if bool_decide (q <= vp < q + Z.of_nat n) then None else um !! vp.
Proof.
  unfold um_del. case_bool_decide as H.
  - apply map_lookup_filter_None. right. intros x _ Hn. by apply Hn.
  - destruct (um !! vp) as [x|] eqn:E.
    + apply map_lookup_filter_Some. by split.
    + apply map_lookup_filter_None. by left.
Qed.

Lemma um_del_0 um q : um_del um q 0 = um.
Proof. apply map_eq. intros vp. rewrite um_del_lookup. rewrite bool_decide_false by lia. done. Qed.

Lemma um_del_S um q n : um_del um q (S n) = delete (q + Z.of_nat n) (um_del um q n).
Proof.
  apply map_eq. intros vp. rewrite um_del_lookup. destruct (decide (vp = q + Z.of_nat n)) as [->|Hne].
  - rewrite lookup_delete_eq. by rewrite bool_decide_true by lia.
  - rewrite lookup_delete_ne, um_del_lookup by done. repeat case_bool_decide; lia || done.
Qed.

Lemma vget_del m um q n va :
  vget m (um_del um q n) va = if bool_decide (q <= va / PGSIZE < q + Z.of_nat n) then None else vget m um va.
Proof. unfold vget. rewrite um_del_lookup. by case_bool_decide. Qed.

Lemma uvm_delete s root lv fl um vp : uvm_ok s root lv fl um -> uvm_ok s root lv fl (delete vp um).
Proof.
  intros [Hv Hp Hfr Hi]. split; [done|..].
  - intros vp' fr g [_ H]%lookup_delete_Some. by apply Hp.
  - intros vp' fr g [_ H]%lookup_delete_Some. by eapply Hfr.
  - intros vp1 vp2 fr g g' [_ H1]%lookup_delete_Some [_ H2]%lookup_delete_Some. by eapply Hi.
Qed.

(** A frame taken out of the address space is spare. *)
Lemma spare_delete s root lv fl um vp fr g : uvm_ok s root lv fl um -> um !! vp = Some (fr, g) ->
  spare s lv fl (delete vp um) fr /\ owned lv fl um = {[fr]} ∪ owned lv fl (delete vp um).
Proof.
  intros [Hv Hp Hfr Hi] H. destruct (Hfr _ _ _ H) as (Hpg & Hn & Hl). split.
  - split; [done|]. rewrite elem_of_owned, Hl. intros [[??]|[?|(vp' & g' & [Hne H']%lookup_delete_Some)]]; try done.
    by apply Hne, (Hi _ _ _ _ _ H H').
  - apply set_eq. intros x. rewrite elem_of_union, elem_of_singleton, !elem_of_owned. split.
    + intros [?|[?|(vp' & g' & H')]]; [tauto|tauto|]. destruct (decide (vp' = vp)) as [->|Hne]; [left; congruence|].
      do 3 right. exists vp', g'. by rewrite lookup_delete_ne.
    + intros [->|[?|[?|(vp' & g' & [_ H']%lookup_delete_Some)]]]; [|tauto|tauto|]; eauto 6.
Qed.

(** Freeing a spare page. *)
Lemma run_kfree_spare h me ls s root lv fl um pg (Q : unit -> kstate -> Prop) :
  LKmem ∉ ls -> owns h me ls (sy s) -> uvm_ok s root lv fl um -> spare s lv fl um pg ->
  (forall s', owns h me ls (sy s') -> vm_shape s s' -> uvm_ok s' root lv (pg :: fl) um ->
     same_but_page pg (mm s) (mm s') ->
     (forall va, vget (mm s') um va = vget (mm s) um va) ->
     (forall va, leaf (mm s') root va = leaf (mm s) root va) ->
     (forall va, pte_of (mm s') root va = pte_of (mm s) root va) ->
     owned lv (pg :: fl) um = {[pg]} ∪ owned lv fl um -> Q tt s') ->
  run (kfree pg) s Q.
Proof.
  intros Hls Ho Hok [Hpg Hn] HQ. unfold owned in Hn. rewrite !not_elem_of_union, not_elem_of_list_to_set in Hn.
  destruct Hn as [[Hnl Hnf] Hnu].
  eapply run_mono; [eapply kfree_ok; [done|done|apply Hok|done|done]|].
  intros [] s' (Hk & Ho' & Hsame & y & m & Hs'). assert (Hsh : vm_shape s s') by (rewrite Hs'; by exists y, m, pg).
  destruct (uvm_other_page s s' root lv um Hsh fl pg (pg :: fl)) as (H1 & H2 & H3 & H4); try done.
  { intros x Hx%elem_of_cons. tauto. }
  { apply Hpg. }
  apply HQ; try done. unfold owned. cbn. clear. set_solver.
Qed.

(** The entries of the table that are not user pages: the trampoline and the
    trap frame. *)
Definition kpte (m : mem) (root : Z) (um : umap) (va : Z) : option Z :=
  if bool_decide (um !! (va / PGSIZE) = None) && pte_has (pte_of m root va) PTE_V then Some (pte_of m root va) else None.

Lemma kpte_same m m' root um va : pte_of m' root va = pte_of m root va -> kpte m' root um va = kpte m root um va.
Proof. intros H. unfold kpte. by rewrite H. Qed.
Lemma kpte_user m root um va x : um !! (va / PGSIZE) = Some x -> kpte m root um va = None.
Proof. intros H. unfold kpte. by rewrite H. Qed.
Lemma kpte_invalid m root um va : pte_has (pte_of m root va) PTE_V = false -> kpte m root um va = None.
Proof. intros H. unfold kpte. by rewrite H, andb_false_r. Qed.

(** What every operation on an address space keeps: the pages between the
    table, the free list and the user pages are the same ones, memory
    outside them is untouched, and so are the other entries of the table. *)
Record evolves (h : nat) (me : option nat) (ls : list lockid) (root : Z) (s s' : kstate)
    (lv lv' : gmap Z nat) (fl fl' : list Z) (um um' : umap) : Prop := {
  ev_owns : owns h me ls (sy s');
  ev_shape : vm_shape s s';
  ev_ok : uvm_ok s' root lv' fl' um';
  ev_sub : lv ⊆ lv';
  ev_owned : owned lv' fl' um' = owned lv fl um;
  ev_other : forall a, page_of a ∉ owned lv fl um -> getb (mm s') a = getb (mm s) a;
  ev_kpte : forall va, 0 <= va < MAXVA -> kpte (mm s') root um' va = kpte (mm s) root um va
}.

Section unmap.
Context (h : nat) (me : option nat) (ls : list lockid) (Hls : LKmem ∉ ls) (root : Z).

Lemma evolves_refl s lv fl um : owns h me ls (sy s) -> uvm_ok s root lv fl um ->
  evolves h me ls root s s lv lv fl fl um um.
Proof. intros Ho Hok. split; try done. apply vm_shape_refl. Qed.

Lemma evolves_trans s s1 s2 lv lv1 lv2 fl fl1 fl2 um um1 um2 :
  evolves h me ls root s s1 lv lv1 fl fl1 um um1 -> evolves h me ls root s1 s2 lv1 lv2 fl1 fl2 um1 um2 ->
  evolves h me ls root s s2 lv lv2 fl fl2 um um2.
Proof.
  intros [A1 A2 A3 A4 A5 A6 A7] [B1 B2 B3 B4 B5 B6 B7]. split; try done.
  - by eapply vm_shape_trans.
  - by etransitivity.
  - congruence.
  - intros a Ha. rewrite B6, A6; [done|done|]. by rewrite A5.
  - intros va Hva. by rewrite B7, A7.
Qed.

(** [um'] is what is left of [um]. *)
Definition shrunk (lv : gmap Z nat) (s s' : kstate) (fl : list Z) (um um' : umap) : Prop :=
  exists fl', evolves h me ls root s s' lv lv fl fl' um um' /\ forall va, vget (mm s') um' va = vget (mm s) um' va.

(** One iteration of uvmunmap() with do_free. *)
Lemma run_unmap_page s lv fl um vp fr g (Q : (Z + unit) -> kstate -> Prop) (last : Z) :
  owns h me ls (sy s) -> uvm_ok s root lv fl um -> um !! vp = Some (fr, g) ->
  (forall s', shrunk lv s s' fl um (delete vp um) ->
    Q (if vp * PGSIZE =? last then inr tt else inl (u64 (vp * PGSIZE + PGSIZE))) s') ->
  run (pte <- walk root (vp * PGSIZE) false ;;
    if pte =? 0 then panic "uvmunmap: walk" else
    e <- load64 pte ;;
    if negb (pte_has e PTE_V) then panic "uvmunmap: not mapped" else
    if PTE_FLAGS e =? PTE_V then panic "uvmunmap: not a leaf" else
    when true (kfree (PTE2PA e)) ;;
    store64 pte 0 ;;
    if vp * PGSIZE =? last then ret (inr tt) else ret (inl (u64 (vp * PGSIZE + PGSIZE)))) s Q.
Proof.
  intros Ho Hok Hvp HQ. destruct (uo_pte _ _ _ _ _ Hok _ _ _ Hvp) as (Hr & [Hg Hgv] & _).
  destruct (uo_frame _ _ _ _ _ Hok _ _ _ Hvp) as (Hpg & _ & _).
  destruct (is_page_range _ _ (km_end _ _ (vo_kmem _ _ _ _ (uo_vm _ _ _ _ _ Hok))) Hpg) as [Hal Hfr].
  destruct (user_leaf _ _ _ _ _ _ _ _ Hok Hvp) as (r & Hr0 & Hleaf & Hld).
  apply run_bind. eapply run_walk; [lia|done|]. destruct (Z.eqb_spec r 0); [done|]. unfold load64, store64. wp.
  rewrite Hld, leaf_pte_valid, leaf_pte_flags, leaf_pte_addr by (done || lia). cbn [negb].
  destruct (Z.eqb_spec (Z.lor g PTE_V) PTE_V); [done|]. unfold when. apply run_bind.
  destruct (spare_delete _ _ _ _ _ _ _ _ Hok Hvp) as [Hsp Hown].
  eapply run_kfree_spare; [done|done|by apply uvm_delete|exact Hsp|].
  intros s1 Ho1 Hs1 Hok1 Hsm1 Hv1 Hl1 Hp1 Hown1. wp.
  pose proof (remapped_store root s1 lv (fr :: fl) (vp * PGSIZE) r 0 (uo_vm _ _ _ _ _ Hok1) ltac:(lia)
    ltac:(by rewrite Hl1) ltac:(lia)) as Hst.
  set (s2 := set_mm _ s1) in *. assert (Hs2 : vm_shape s1 s2) by apply Hst.
  destruct (uvm_remapped s1 s2 root lv (delete vp um) Hs2 _ _ _ _ Hok1 Hst) as (Hok2 & Hv2 & Hown2).
  { intros vp' [[fr' g'] [Hne _]%lookup_delete_Some]. rewrite bool_decide_false; [done|]. rewrite !Z.div_mul by lia. done. }
  assert (Hsh : shrunk lv s s2 fl um (delete vp um)).
  { exists (fr :: fl). split; [split|].
    - done.
    - by eapply vm_shape_trans.
    - done.
    - done.
    - congruence.
    - intros a Ha. rewrite Hown in Ha. rewrite not_elem_of_union, not_elem_of_singleton, elem_of_owned in Ha.
      rewrite (rm_frame _ _ _ _ _ _ _ _ Hst), Hsm1; [done| |].
      + intros Hin. destruct Ha as [Ha _]. by rewrite (page_of_in fr) in Ha.
      + destruct (lv !! page_of a) eqn:E; [|done]. destruct Ha as [_ []]. left. by eexists.
    - intros va Hva. pose proof (rm_pte _ _ _ _ _ _ _ _ Hst va Hva) as Hpt. rewrite Z.div_mul in Hpt by lia. destruct (decide (va / PGSIZE = vp)) as [E|E].
      + rewrite bool_decide_true in Hpt by done. rewrite (kpte_user (mm s) root um va (fr, g)) by by rewrite E. apply kpte_invalid. by rewrite Hpt.
      + rewrite bool_decide_false in Hpt by done. rewrite (kpte_same (mm s)) by by rewrite Hpt, Hp1. unfold kpte. by rewrite lookup_delete_ne by done.
    - intros va. by rewrite Hv2, Hv1. }
  specialize (HQ s2 Hsh). destruct (_ =? last); by wp.
Qed.

(** uvmunmap() with do_free, on [n] mapped pages. *)
Lemma run_uvmunmap s lv fl um q n va size (Q : unit -> kstate -> Prop) :
  owns h me ls (sy s) -> uvm_ok s root lv fl um -> (0 < n)%nat ->
  (forall i, (i < n)%nat -> is_Some (um !! (q + Z.of_nat i))) ->
  PGROUNDDOWN va = q * PGSIZE -> PGROUNDDOWN (u64 (va + size - 1)) = (q + Z.of_nat n - 1) * PGSIZE ->
  (forall s', shrunk lv s s' fl um (um_del um q n) -> Q tt s') ->
  run (uvmunmap root va size true) s Q.
Proof.
  intros Ho Hok Hn Hmap Ha Hlast HQ. unfold uvmunmap. rewrite Ha, Hlast. set (last := (q + Z.of_nat n - 1) * PGSIZE).
  assert (Hmax : 0 <= q /\ (q + Z.of_nat n) * PGSIZE <= MAXVA).
  { destruct (Hmap 0%nat Hn) as [[fr g] H0]. destruct (Hmap (n - 1)%nat ltac:(lia)) as [[fr' g'] H1].
    destruct (uo_pte _ _ _ _ _ Hok _ _ _ H0) as (? & _). destruct (uo_pte _ _ _ _ _ Hok _ _ _ H1) as (? & _). lia. }
  eapply (run_loop _ (fun x s' => exists k, (k < n)%nat /\ x = (q + Z.of_nat k) * PGSIZE /\ shrunk lv s s' fl um (um_del um q k))
    (fun x _ => Z.to_nat ((last - x) / PGSIZE))).
  - intros x s1 (k & Hk & -> & Hsh1). destruct Hsh1 as (fl1 & He1 & Hv1) eqn:E1; clear E1.
    assert (exists fr g, um_del um q k !! (q + Z.of_nat k) = Some (fr, g)) as (fr & g & Hkk).
    { rewrite um_del_lookup, bool_decide_false by lia. destruct (Hmap k Hk) as [[fr g] ?]. by exists fr, g. }
    eapply (run_unmap_page s1 lv fl1 _ _ fr g _ last); [apply He1|apply He1|done|]. intros s2 Hsh2.
    assert (Hsh : shrunk lv s s2 fl um (um_del um q (S k))).
    { rewrite um_del_S. destruct Hsh2 as (fl2 & He2 & Hv2). exists fl2. split; [by eapply evolves_trans|].
      intros va'. rewrite Hv2. specialize (Hv1 va'). unfold vget in *.
      destruct (delete _ _ !! _) as [[fr' g']|] eqn:E; [|done]. apply lookup_delete_Some in E as [_ E]. by rewrite E in Hv1. }
    destruct (Z.eqb_spec ((q + Z.of_nat k) * PGSIZE) last) as [El|El].
    + apply HQ. unfold last in El. assert (S k = n) as <- by lia. done.
    + unfold last in *. rewrite u64_small by lia. split.
      * exists (S k). split_and!; [nia|lia|done].
      * replace ((q + Z.of_nat n - 1) * PGSIZE - ((q + Z.of_nat k) * PGSIZE + PGSIZE)) with ((Z.of_nat n - 2 - Z.of_nat k) * PGSIZE) by lia.
        replace ((q + Z.of_nat n - 1) * PGSIZE - (q + Z.of_nat k) * PGSIZE) with ((Z.of_nat n - 1 - Z.of_nat k) * PGSIZE) by lia.
        rewrite !Z.div_mul by lia. nia.
  - exists 0%nat. split_and!; [lia|lia|]. rewrite um_del_0. exists fl. split; [by apply evolves_refl|done].
  - unfold range_fuel. destruct (Z.leb_spec (q * PGSIZE) last); [lia|]. unfold last in *. lia.
Qed.
End unmap.

(** ** Adding pages *)

Section map.
Context (h : nat) (me : option nat) (ls : list lockid) (Hls : LKmem ∉ ls).
Context (root : Z).

Lemma head_spare s lv pg fl um : uvm_ok s root lv (pg :: fl) um ->
  spare s lv fl um pg /\ owned lv (pg :: fl) um = {[pg]} ∪ owned lv fl um.
Proof.
  intros [[HT [He Hc Hnd Hp] Hf] Hpt Hfr Hi]. apply Forall_cons in Hp as [Hp _]. apply NoDup_cons in Hnd as [Hn _]. split.
  - split; [done|]. rewrite elem_of_owned. intros [[l Hl]|[?|(vp & g & H)]]; [|done|].
    + rewrite (Hf pg) in Hl by (apply elem_of_cons; by left). done.
    + destruct (Hfr _ _ _ H) as (_ & Hn' & _). apply Hn', elem_of_cons. by left.
  - unfold owned. cbn. clear. set_solver.
Qed.

Lemma run_kalloc_page s lv pg fl um (Q : Z -> kstate -> Prop) :
  owns h me ls (sy s) -> uvm_ok s root lv (pg :: fl) um ->
  (forall s', owns h me ls (sy s') -> vm_shape s s' -> uvm_ok s' root lv fl um -> spare s' lv fl um pg ->
     same_but_page pg (mm s) (mm s') -> pg <> 0 ->
     (forall va, vget (mm s') um va = vget (mm s) um va) ->
     (forall va, pte_of (mm s') root va = pte_of (mm s) root va) -> Q pg s') ->
  run kalloc s Q.
Proof.
  intros Ho Hok HQ. destruct (head_spare _ _ _ _ _ Hok) as [[Hpg Hn] _].
  pose proof (km_end _ _ (vo_kmem _ _ _ _ (uo_vm _ _ _ _ _ Hok))) as He.
  eapply run_mono; [eapply kalloc_some; [done|done|apply Hok]|].
  intros r s' (-> & Hk & Ho' & _ & Hsame & y & m & f & Hs').
  assert (Hsh : vm_shape s s') by (rewrite Hs'; by exists y, m, f).
  pose proof Hn as Hn2. unfold owned in Hn2. rewrite !not_elem_of_union in Hn2. destruct Hn2 as [[Hnl _] Hnu].
  destruct (uvm_other_page s s' root lv um Hsh (pg :: fl) pg fl) as (H1 & H2 & H3 & H4); try done.
  { intros x Hx. right. apply elem_of_cons. by right. }
  { apply Hpg. }
  apply HQ; try done; [by rewrite <-(shape_ld _ _ Hsh) in Hpg|]. destruct Hpg. lia.
Qed.

(** A spare page becomes the frame of page [vp]. *)
Lemma uvm_insert s lv fl um vp pg g : uvm_ok s root lv fl um -> spare s lv fl um pg -> um !! vp = None ->
  0 <= vp /\ (vp + 1) * PGSIZE <= MAXVA -> user_flags g -> pte_of (mm s) root (vp * PGSIZE) = leaf_pte pg g ->
  uvm_ok s root lv fl (<[vp := (pg, g)]> um) /\ owned lv fl (<[vp := (pg, g)]> um) = {[pg]} ∪ owned lv fl um.
Proof.
  intros [Hv Hp Hfr Hi] [Hpg Hn] Hnone Hr Hg Hpte. rewrite elem_of_owned in Hn. split; [split|].
  - done.
  - intros vp' fr g' [(<- & [= <- <-])|(_ & H)]%lookup_insert_Some; [done|by apply Hp].
  - intros vp' fr g' [(<- & [= <- <-])|(_ & H)]%lookup_insert_Some; [|by eapply Hfr].
    split_and!; [done|tauto|]. destruct (lv !! pg) eqn:E; [|done]. destruct Hn. left. by eexists.
  - intros vp1 vp2 fr g1 g2 [(<- & [= <- <-])|(_ & H1)]%lookup_insert_Some
      [(<- & E2)|(_ & H2)]%lookup_insert_Some; [done| | |by eapply Hi].
    + destruct Hn. eauto.
    + injection E2 as -> ->. destruct Hn. eauto.
  - apply set_eq. intros x. rewrite elem_of_union, elem_of_singleton, !elem_of_owned. split.
    + intros [?|[?|(vp' & g' & [(<- & [= <- <-])|(_ & H)]%lookup_insert_Some)]]; eauto 6.
    + intros [->|[?|[?|(vp' & g' & H)]]]; [|tauto|tauto|].
      * do 2 right. exists vp, g. by rewrite lookup_insert_eq.
      * do 2 right. exists vp', g'. rewrite lookup_insert_ne; [done|congruence].
Qed.

Lemma vget_insert m um vp pg g va :
  vget m (<[vp := (pg, g)]> um) va = if bool_decide (va / PGSIZE = vp) then Some (getb m (pg + va mod PGSIZE)) else vget m um va.
Proof.
  unfold vget. case_bool_decide as E; [rewrite E, lookup_insert_eq; done|]. by rewrite lookup_insert_ne.
Qed.

(** A table that has grown keeps spare pages spare. *)
Lemma spare_remapped s s' lv fl lv' fl' f um pg : spare s lv fl um pg -> remapped root s s' lv lv' fl fl' f ->
  spare s' lv' fl' um pg /\ forall a, pg <= a < pg + PGSIZE -> getb (mm s') a = getb (mm s) a.
Proof.
  intros [Hpg Hn] [A1 A2 A3 (u & A4 & A4') A5 A6]. rewrite elem_of_owned in Hn.
  assert (Hn' : lv' !! pg = None).
  { apply not_elem_of_dom. rewrite A4', elem_of_union, elem_of_dom, elem_of_list_to_set. intros [?|?]; [tauto|].
    apply Hn. right. left. rewrite A4. apply elem_of_app. by left. }
  split; [split|].
  - by rewrite (shape_ld _ _ A2).
  - rewrite elem_of_owned, Hn'. intros [[??]|[?|?]]; [done| |tauto]. apply Hn. right. left. rewrite A4. apply elem_of_app. by right.
  - intros a Ha. apply A5. rewrite (page_of_in pg) by (apply Hpg || done). done.
Qed.

(** mappages() of one user page. *)
Lemma run_map_user s lv fl um vp pg g (Q : Z -> kstate -> Prop) :
  owns h me ls (sy s) -> uvm_ok s root lv fl um -> spare s lv fl um pg -> um !! vp = None ->
  pte_has (pte_of (mm s) root (vp * PGSIZE)) PTE_V = false ->
  0 <= vp /\ (vp + 1) * PGSIZE <= MAXVA -> user_flags g ->
  (forall s' lv' fl', owns h me ls (sy s') -> (length fl <= 2 + length fl')%nat ->
     remapped root s s' lv lv' fl fl' (map_range (pte_of (mm s) root) vp 1 pg g) ->
     uvm_ok s' root lv' fl' (<[vp := (pg, g)]> um) ->
     owned lv' fl' (<[vp := (pg, g)]> um) = {[pg]} ∪ owned lv fl um ->
     (forall va, vget (mm s') (<[vp := (pg, g)]> um) va =
        if bool_decide (va / PGSIZE = vp) then Some (getb (mm s) (pg + va mod PGSIZE)) else vget (mm s) um va) ->
     Q 0 s') ->
  (forall s' lv', owns h me ls (sy s') -> (length fl < 2)%nat ->
     remapped root s s' lv lv' fl [] (pte_of (mm s) root) ->
     uvm_ok s' root lv' [] um -> spare s' lv' [] um pg -> owned lv' [] um = owned lv fl um ->
     (forall va, vget (mm s') um va = vget (mm s) um va) -> Q (-1) s') ->
  run (mappages root (vp * PGSIZE) PGSIZE pg g) s Q.
Proof.
  intros Ho Hok Hsp Hnone Hinv Hr Hg HQ HQ1. destruct Hsp as [Hpg Hn] eqn:E. clear E.
  destruct (is_page_range _ _ (km_end _ _ (vo_kmem _ _ _ _ (uo_vm _ _ _ _ _ Hok))) Hpg) as [Hal Hfr].
  assert (Hdown : PGROUNDDOWN (vp * PGSIZE) = vp * PGSIZE) by (apply PGROUNDDOWN_aligned, Z.mod_mul; lia).
  eapply (run_mappages_pages h me ls Hls s root lv fl vp pg g 1); try done; try lia.
  - apply Hok.
  - destruct Hpg. lia.
  - apply Hg.
  - intros va Hva. replace (pte_of (mm s) root va) with (pte_of (mm s) root (vp * PGSIZE)); [done|].
    assert (Heq : va / PGSIZE = vp * PGSIZE / PGSIZE) by (rewrite Z.div_mul; lia).
    unfold pte_of, leaf, next. by rewrite !(PX_page _ _ _ Heq) by lia.
  - intros s' lv' fl' Ho' Hrm Hlen. destruct (spare_remapped _ _ _ _ _ _ _ _ _ Hsp Hrm) as [Hsp' Hdata].
    destruct (uvm_remapped s s' root lv um (rm_shape _ _ _ _ _ _ _ _ Hrm) _ _ _ _ Hok Hrm) as (Hok' & Hv' & Hown').
    { intros vp' [x Hx]. unfold map_range. rewrite bool_decide_false; [done|]. rewrite Z.div_mul by lia.
      intros ?. assert (vp' = vp) as -> by lia. congruence. }
    assert (Hpte : pte_of (mm s') root (vp * PGSIZE) = leaf_pte pg g).
    { rewrite (rm_pte _ _ _ _ _ _ _ _ Hrm) by lia. unfold map_range. rewrite Z.div_mul by lia.
      rewrite bool_decide_true by lia. f_equal. lia. }
    destruct (uvm_insert s' lv' fl' um vp pg g Hok' Hsp' Hnone Hr Hg Hpte) as [Hok2 Hown2].
    eapply HQ; try done; [by rewrite Hown2, Hown'|]. intros va. rewrite vget_insert, Hv', Hdata; [done|].
    pose proof (Z.mod_pos_bound va PGSIZE ltac:(lia)). lia.
  - intros k s' lv' Hk Ho' Hrm Hlen. assert (k = 0%nat) as -> by lia.
    assert (Hrm' : remapped root s s' lv lv' fl [] (pte_of (mm s) root)).
    { eapply remapped_ext; [|exact Hrm]. intros va _. unfold map_range. by rewrite bool_decide_false by lia. }
    destruct (uvm_remapped s s' root lv um (rm_shape _ _ _ _ _ _ _ _ Hrm) _ _ _ _ Hok Hrm') as (Hok' & Hv' & Hown'); [done|].
    destruct (spare_remapped _ _ _ _ _ _ _ _ _ Hsp Hrm) as [Hsp' Hdata]. eapply HQ1; try done.
  - rewrite u64_small by lia. rewrite PGROUNDDOWN_eq. change 4096 with PGSIZE.
    replace ((vp * PGSIZE + PGSIZE - 1) / PGSIZE) with vp; [lia|]. apply Z.div_unique_pos with (PGSIZE - 1); lia.
Qed.

(** Filling a spare page. *)
Lemma uvm_fill s lv fl um pg m' : uvm_ok s root lv fl um -> spare s lv fl um pg -> same_but_page pg (mm s) m' ->
  uvm_ok (set_mm m' s) root lv fl um /\ spare (set_mm m' s) lv fl um pg /\
  (forall va, vget m' um va = vget (mm s) um va) /\ forall va, pte_of m' root va = pte_of (mm s) root va.
Proof.
  intros Hok Hsp Hsame. destruct Hsp as [Hpg Hn] eqn:E. clear E. unfold owned in Hn. rewrite !not_elem_of_union, not_elem_of_list_to_set in Hn.
  destruct (uvm_other_page s (set_mm m' s) root lv um (vm_shape_mm m' s s (vm_shape_refl s)) fl pg fl)
    as (H1 & H2 & H3 & H4); try tauto; try apply Hpg.
  destruct Hok as [[_ [He Hc Hnd Hp] _] _ _ _]. split; try done. by eapply chain_same_but_page; [exact Hsame|exact Hpg|exact Hp|apply Hn|].
Qed.

(** What a successful or a failed allocation of page [vp] leaves. *)
Definition got_page (s s' : kstate) lv lv' fl fl' um vp (g : Z) (bytes : Z -> Z) : Prop :=
  exists pg, pg ∈ fl /\ evolves h me ls root s s' lv lv' fl fl' um (<[vp := (pg, g)]> um) /\
    (forall va, vget (mm s') (<[vp := (pg, g)]> um) va =
       if bool_decide (va / PGSIZE = vp) then Some (bytes (va mod PGSIZE)) else vget (mm s) um va) /\
    (forall va, 0 <= va < MAXVA -> va / PGSIZE <> vp -> pte_of (mm s') root va = pte_of (mm s) root va).
Definition no_page (s s' : kstate) lv lv' fl fl' um : Prop :=
  evolves h me ls root s s' lv lv' fl fl' um um /\ (forall va, vget (mm s') um va = vget (mm s) um va).

(** Only the new page and the pages of the table and free list change. *)
Lemma remapped_other s s2 s' lv lv' fl fl' f um pg : (forall a, page_of a <> pg -> getb (mm s2) a = getb (mm s) a) ->
  remapped root s2 s' lv lv' fl fl' f -> forall a, page_of a ∉ {[pg]} ∪ owned lv fl um -> getb (mm s') a = getb (mm s) a.
Proof.
  intros H [A1 A2 A3 (u & A4 & A4') A5 A6] a Ha. rewrite not_elem_of_union, not_elem_of_singleton, elem_of_owned in Ha.
  destruct Ha as [Hp Ho]. rewrite A5; [by apply H|]. apply not_elem_of_dom. rewrite A4', elem_of_union, elem_of_dom, elem_of_list_to_set.
  intros [?|?]; apply Ho; [by left|right; left]. rewrite A4. apply elem_of_app. by left.
Qed.

(** kalloc, fill the page, map it: the loop body of uvmalloc() and uvmcopy(). *)
Lemma run_new_page {A} s lv fl um vp g bytes (fill : Z -> K unit) (kno kyes : K A) (Q : A -> kstate -> Prop) :
  owns h me ls (sy s) -> uvm_ok s root lv fl um -> um !! vp = None ->
  pte_has (pte_of (mm s) root (vp * PGSIZE)) PTE_V = false ->
  0 <= vp /\ (vp + 1) * PGSIZE <= MAXVA -> user_flags g ->
  (forall s1 pg R, pg ∈ fl -> same_but_page pg (mm s) (mm s1) ->
     (forall m', same_but_page pg (mm s1) m' -> (forall i, 0 <= i < PGSIZE -> getb m' (pg + i) = bytes i) ->
        R tt (set_mm m' s1)) -> run (fill pg) s1 R) ->
  (forall s' lv' fl', (length fl <= 3 + length fl')%nat -> got_page s s' lv lv' fl fl' um vp g bytes -> run kyes s' Q) ->
  (forall s' lv' fl', (length fl < 3)%nat -> no_page s s' lv lv' fl fl' um -> run kno s' Q) ->
  run (mem <- kalloc ;;
       if mem =? 0 then kno else
       fill mem ;;
       r <- mappages root (vp * PGSIZE) PGSIZE mem g ;;
       if negb (r =? 0) then kfree mem ;; kno else kyes) s Q.
Proof.
  intros Ho Hok Hnone Hinv Hr Hg Hfill Hyes Hno. apply run_bind. destruct fl as [|pg fl].
  { eapply run_mono; [eapply kalloc_none; [done|done|apply Hok]|]. intros r s' (-> & Ho' & y & ->).
    change (0 =? 0) with true. cbv iota. apply (Hno _ lv []); [cbn; lia|]. split; [|done]. pose proof (grown_remapped _ _ _ _ _ _ _ (grown_refl root s lv [] y (uo_vm _ _ _ _ _ Hok))) as Hrm.
    destruct (uvm_remapped s (set_sy y s) root lv um (rm_shape _ _ _ _ _ _ _ _ Hrm) _ _ _ _ Hok Hrm) as (Hok' & _ & _); [done|].
    split; try done. apply Hrm. }
  destruct (head_spare _ _ _ _ _ Hok) as [Hsp0 Hown0].
  eapply run_kalloc_page; [done|done|]. intros s1 Ho1 Hs1 Hok1 Hsp1 Hsm1 Hpg0 Hv1 Hp1.
  destruct (Z.eqb_spec pg 0); [done|]. apply run_bind. apply Hfill; [apply elem_of_cons; by left|done|]. intros m2 Hsm2 Hbytes.
  destruct (uvm_fill _ _ _ _ _ _ Hok1 Hsp1 Hsm2) as (Hok2 & Hsp2 & Hv2 & Hp2). apply run_bind.
  assert (Hother : forall a, page_of a <> pg -> getb m2 a = getb (mm s) a).
  { intros a Ha. rewrite Hsm2, Hsm1; [done|..]; intros Hin; apply Ha, page_of_in; try done; apply Hsp1. }
  eapply run_map_user; [done|exact Hok2|exact Hsp2|done| |done|done| |].
  - cbn [mm set_mm]. by rewrite Hp2, Hp1.
  - intros s' lv' fl' Ho' Hlen Hrm Hok' Hown' Hv'. change (negb (0 =? 0)) with false. cbv iota.
    apply (Hyes s' lv' fl'); [cbn; lia|]. exists pg. split; [apply elem_of_cons; by left|]. split; [|split].
    + split; try done; [|apply Hrm|by rewrite Hown'| |].
      * eapply vm_shape_trans; [by apply vm_shape_mm|apply Hrm].
      * rewrite Hown0. by eapply remapped_other; [|exact Hrm].
      * intros va Hva. destruct (decide (va / PGSIZE = vp)) as [E|E].
        -- rewrite (kpte_user _ _ _ va (pg, g)) by (rewrite E; apply lookup_insert_eq). symmetry. apply kpte_invalid. rewrite <-Hinv. f_equal.
           assert (Heq : va / PGSIZE = vp * PGSIZE / PGSIZE) by (rewrite Z.div_mul; lia). unfold pte_of, leaf, next. by rewrite !(PX_page _ _ _ Heq) by lia.
        -- rewrite (kpte_same (mm s)); [unfold kpte; by rewrite lookup_insert_ne by done|]. rewrite (rm_pte _ _ _ _ _ _ _ _ Hrm) by done. unfold map_range.
           rewrite bool_decide_false by lia. cbn [mm set_mm]. by rewrite Hp2, Hp1.
    + intros va. rewrite Hv'. cbn [mm set_mm]. rewrite Hv2, Hv1, Hbytes; [done|]. apply Z.mod_pos_bound. lia.
    + intros va Hva Hne. rewrite (rm_pte _ _ _ _ _ _ _ _ Hrm) by done. unfold map_range.
      rewrite bool_decide_false by lia. cbn [mm set_mm]. by rewrite Hp2, Hp1.
  - intros s' lv' Ho' Hlen Hrm Hok' Hsp' Hown' Hv'. change (negb (-1 =? 0)) with true. cbv iota. apply run_bind.
    eapply run_kfree_spare; [done|done|exact Hok'|exact Hsp'|]. intros s3 Ho3 Hs3 Hok3 Hsm3 Hv3 _ Hp3 Hown3.
    apply (Hno s3 lv' [pg]); [cbn; lia|]. split.
    + split; try done; [|apply Hrm|by rewrite Hown3, Hown'| |].
      * eapply vm_shape_trans; [|exact Hs3]. eapply vm_shape_trans; [by apply vm_shape_mm|apply Hrm].
      * rewrite Hown0. intros a Ha. rewrite Hsm3; [by eapply remapped_other; [|exact Hrm|]|].
        intros Hin. rewrite not_elem_of_union, not_elem_of_singleton in Ha. destruct Ha as [Ha _]. apply Ha, page_of_in; [|done]. apply Hsp1.
      * intros va Hva. apply kpte_same. rewrite Hp3, (rm_pte _ _ _ _ _ _ _ _ Hrm) by done. cbn [mm set_mm]. by rewrite Hp2, Hp1.
    + intros va. rewrite Hv3, Hv'. cbn [mm set_mm]. by rewrite Hv2, Hv1.
Qed.
End map.

(** ** Growing and shrinking *)

(** Pages a size covers. *)
Definition pages (sz : Z) : Z := (sz + PGSIZE - 1) / PGSIZE.

Lemma pages_up sz : 0 <= sz <= MAXVA -> PGROUNDUP sz = pages sz * PGSIZE.
Proof. intros H. rewrite PGROUNDUP_eq by lia. unfold pages. do 2 f_equal. lia. Qed.

Lemma pages_bounds sz : pages sz * PGSIZE - PGSIZE < sz <= pages sz * PGSIZE.
Proof. unfold pages. pose proof (Z.div_mod (sz + PGSIZE - 1) PGSIZE ltac:(lia)). pose proof (Z.mod_pos_bound (sz + PGSIZE - 1) PGSIZE ltac:(lia)). lia. Qed.

Lemma pages_last sz : 0 < sz <= MAXVA -> PGROUNDDOWN (u64 (sz - 1)) = (pages sz - 1) * PGSIZE.
Proof.
  intros H. rewrite u64_small by lia. rewrite PGROUNDDOWN_eq. change 4096 with PGSIZE. f_equal.
  symmetry. apply Z.div_unique_pos with (sz - 1 - (pages sz - 1) * PGSIZE); pose proof (pages_bounds sz); lia.
Qed.

Lemma pages_page q : pages (q * PGSIZE) = q.
Proof. unfold pages. symmetry. apply Z.div_unique_pos with (PGSIZE - 1); lia. Qed.

(** A page below the last one of a size is below MAXVA. *)
Lemma page_below vp sz : sz <= MAXVA -> vp < pages sz -> (vp + 1) * PGSIZE <= MAXVA.
Proof. intros H Hvp. pose proof (pages_bounds sz). change MAXVA with (67108864 * PGSIZE) in *. lia. Qed.

Lemma um_del_insert (um : umap) q k x : um !! (q + Z.of_nat k) = None ->
  um_del (<[q + Z.of_nat k := x]> um) q (S k) = um_del um q k.
Proof.
  intros Hn. apply map_eq. intros vp. rewrite !um_del_lookup. destruct (decide (vp = q + Z.of_nat k)) as [->|Hne].
  - rewrite bool_decide_true, bool_decide_false by lia. done.
  - rewrite lookup_insert_ne by done. repeat case_bool_decide; done || lia.
Qed.

Section grow.
Context (h : nat) (me : option nat) (ls : list lockid) (Hls : LKmem ∉ ls) (root : Z).

(** uvmdealloc() *)
Lemma run_uvmdealloc s lv fl um oldsz newsz (Q : Z -> kstate -> Prop) :
  owns h me ls (sy s) -> uvm_ok s root lv fl um -> 0 <= oldsz <= MAXVA -> 0 <= newsz <= MAXVA ->
  (forall vp, pages newsz <= vp < pages oldsz -> is_Some (um !! vp)) ->
  (forall s', shrunk h me ls root lv s s' fl um (um_del um (pages newsz) (Z.to_nat (pages oldsz - pages newsz))) ->
     Q (Z.min oldsz newsz) s') ->
  run (uvmdealloc root oldsz newsz) s Q.
Proof.
  intros Ho Hok Hold Hnew Hmap HQ. pose proof (pages_bounds oldsz) as Bo. pose proof (pages_bounds newsz) as Bn.
  assert (Hsame : pages oldsz <= pages newsz ->
    shrunk h me ls root lv s s fl um (um_del um (pages newsz) (Z.to_nat (pages oldsz - pages newsz)))).
  { intros Hle. replace (Z.to_nat _) with 0%nat by lia. rewrite um_del_0. exists fl. split; [by apply evolves_refl|done]. }
  unfold uvmdealloc. destruct (Z.leb_spec oldsz newsz).
  { wp. replace oldsz with (Z.min oldsz newsz) at 1 by lia. apply HQ, Hsame. apply Z.div_le_mono; lia. }
  rewrite !pages_up by lia. unfold when. destruct (Z.ltb_spec (pages newsz * PGSIZE) (pages oldsz * PGSIZE)); wp.
  - eapply (run_uvmunmap h me ls Hls root s lv fl um (pages newsz) (Z.to_nat (pages oldsz - pages newsz))); try done; try lia.
    + intros i Hi. apply Hmap. lia.
    + apply PGROUNDDOWN_aligned, Z.mod_mul. lia.
    + replace (_ + (_ - _) - 1) with (oldsz - 1) by lia. rewrite pages_last by lia. f_equal. lia.
    + intros s' Hs'. wp. replace newsz with (Z.min oldsz newsz) by lia. by apply HQ.
  - replace newsz with (Z.min oldsz newsz) at 1 by lia. apply HQ, Hsame. lia.
Qed.

(** *** uvmalloc() *)

Section alloc.
Context (s : kstate) (lv : gmap Z nat) (fl : list Z) (um : umap) (oldsz newsz : Z).
Context (Ho : owns h me ls (sy s)) (Hok : uvm_ok s root lv fl um).
Context (Hsz : 0 <= oldsz <= newsz) (Hmax : newsz <= MAXVA).
Let q0 := pages oldsz.
Let q1 := pages newsz.
Context (Hfree : forall vp, q0 <= vp < q1 -> um !! vp = None /\ pte_has (pte_of (mm s) root (vp * PGSIZE)) PTE_V = false).

(** [k] zeroed pages have been added. *)
Definition allocated (k : nat) (s' : kstate) : Prop :=
  exists lv' fl' um', evolves h me ls root s s' lv lv' fl fl' um um' /\
    um_del um' q0 k = um /\ (forall vp, q0 <= vp < q0 + Z.of_nat k -> exists fr, um' !! vp = Some (fr, PTE_WRXU)) /\
    (forall va, vget (mm s') um' va =
       if bool_decide (q0 <= va / PGSIZE < q0 + Z.of_nat k) then Some 0 else vget (mm s) um va) /\
    (forall vp, q0 + Z.of_nat k <= vp < q1 -> pte_has (pte_of (mm s') root (vp * PGSIZE)) PTE_V = false) /\
    (length fl <= 3 * k + length fl')%nat.

(** Memory ran out: the address space is as before. *)
Definition alloc_failed (s' : kstate) : Prop :=
  exists lv' fl', evolves h me ls root s s' lv lv' fl fl' um um /\
    (forall va, vget (mm s') um va = vget (mm s) um va) /\ (length fl < 3 * Z.to_nat (q1 - q0))%nat.

Lemma pages_mono : q0 <= q1.
Proof. apply Z.div_le_mono; lia. Qed.

Lemma allocated_0 : allocated 0 s.
Proof.
  exists lv, fl, um. split; [by apply evolves_refl|]. rewrite um_del_0. split; [done|]. split; [lia|]. split; [|split; [|lia]].
  - intros va. by rewrite bool_decide_false by lia.
  - intros vp Hvp. apply Hfree. lia.
Qed.

Lemma allocated_none k lv' fl' um' s' vp : evolves h me ls root s s' lv lv' fl fl' um um' -> um_del um' q0 k = um ->
  q0 + Z.of_nat k <= vp < q1 -> um' !! vp = None.
Proof.
  intros He Hd Hvp. destruct (Hfree vp ltac:(lia)) as [Hn _]. rewrite <-Hd, um_del_lookup in Hn.
  by rewrite bool_decide_false in Hn by lia.
Qed.

(** Undoing the [k] pages when there is no memory for the next one. *)
Lemma run_alloc_undo k s1 lv1 fl1 um1 s2 lv2 fl2 (Q : (Z + Z) -> kstate -> Prop) :
  evolves h me ls root s s1 lv lv1 fl fl1 um um1 -> um_del um1 q0 k = um ->
  (forall vp, q0 <= vp < q0 + Z.of_nat k -> exists fr, um1 !! vp = Some (fr, PTE_WRXU)) ->
  (forall va, vget (mm s1) um1 va =
     if bool_decide (q0 <= va / PGSIZE < q0 + Z.of_nat k) then Some 0 else vget (mm s) um va) ->
  no_page h me ls root s1 s2 lv1 lv2 fl1 fl2 um1 -> (length fl < 3 * Z.to_nat (q1 - q0))%nat ->
  (q0 + Z.of_nat k) * PGSIZE <= MAXVA ->
  (forall s', alloc_failed s' -> Q (inr 0) s') ->
  run (uvmdealloc root ((q0 + Z.of_nat k) * PGSIZE) (q0 * PGSIZE) ;; ret (inr 0)) s2 Q.
Proof.
  intros He1 Hd Hmap Hv1 [He2 Hv2] Hlen Hk HQ. pose proof (pages_bounds oldsz) as Bo. fold q0 in Bo. apply run_bind.
  eapply (run_uvmdealloc s2 lv2 fl2 um1); [apply He2|apply He2|lia|lia|..]; rewrite !pages_page.
  - intros vp Hvp. destruct (Hmap vp Hvp) as [fr ?]. by eexists.
  - replace (Z.to_nat (q0 + Z.of_nat k - q0)) with k by lia. rewrite Hd. intros s3 (fl3 & He3 & Hv3).
    wp. apply HQ. exists lv2, fl3. split; [|split; [|done]].
    + eapply evolves_trans; [|exact He3]. by eapply evolves_trans.
    + intros va. rewrite Hv3, <-Hd, !vget_del, Hv2, Hv1. case_bool_decide; [done|]. rewrite <-Hd at 1.
      rewrite vget_del. by rewrite bool_decide_false by done.
Qed.

Lemma run_alloc_step k s1 (Q : (Z + Z) -> kstate -> Prop) : q0 + Z.of_nat k < q1 -> allocated k s1 ->
  (forall s', allocated (S k) s' -> Q (inl ((q0 + Z.of_nat k + 1) * PGSIZE)) s') ->
  (forall s', alloc_failed s' -> Q (inr 0) s') ->
  run (mem <- kalloc ;;
      if mem =? 0 then
        uvmdealloc root ((q0 + Z.of_nat k) * PGSIZE) (q0 * PGSIZE) ;; ret (inr 0)
      else
        k_memset mem 0 PGSIZE ;;
        r <- mappages root ((q0 + Z.of_nat k) * PGSIZE) PGSIZE mem PTE_WRXU ;;
        if negb (r =? 0) then
          kfree mem ;; uvmdealloc root ((q0 + Z.of_nat k) * PGSIZE) (q0 * PGSIZE) ;; ret (inr 0)
        else ret (inl (u64 ((q0 + Z.of_nat k) * PGSIZE + PGSIZE)))) s1 Q.
Proof.
  intros Hk (lv1 & fl1 & um1 & He1 & Hd & Hmap & Hv1 & Hp1 & Hlen1) HQ HQ0.
  pose proof (pages_bounds newsz) as Bn. fold q1 in Bn. pose proof (pages_bounds oldsz) as Bo. fold q0 in Bo.
  assert (Hlt : (q0 + Z.of_nat k + 1) * PGSIZE <= MAXVA) by (apply (page_below _ newsz); [done|fold q1; lia]).
  eapply (run_new_page h me ls Hls root s1 lv1 fl1 um1 (q0 + Z.of_nat k) PTE_WRXU (fun _ => 0) (fun mem => k_memset mem 0 PGSIZE));
    [apply He1|apply He1| |apply Hp1; lia|lia|split; [done|done]| | |].
  - eapply allocated_none; [exact He1|done|lia].
  - intros s2 pg R _ _ HR. unfold k_memset. wp. apply HR; [apply memset_page_same|].
    intros i Hi. apply (memset_page_filled pg 0). lia.
  - intros s2 lv2 fl2 Hlen2 (pg & Hin & He2 & Hv2 & Hp2). wp. rewrite u64_small by lia.
    replace (_ * PGSIZE + PGSIZE) with ((q0 + Z.of_nat k + 1) * PGSIZE) by lia. apply HQ.
    eexists lv2, fl2, _. split; [by eapply evolves_trans|]. split; [|split; [|split; [|split; [|lia]]]].
    + rewrite um_del_insert; [done|]. eapply allocated_none; [exact He1|done|lia].
    + intros vp Hvp. destruct (decide (vp = q0 + Z.of_nat k)) as [->|Hne]; [rewrite lookup_insert_eq; by eexists|].
      rewrite lookup_insert_ne by done. apply Hmap. lia.
    + intros va. rewrite Hv2, Hv1. repeat case_bool_decide; done || lia.
    + intros vp Hvp. rewrite Hp2; [apply Hp1; lia| |rewrite Z.div_mul; lia].
      assert ((vp + 1) * PGSIZE <= MAXVA) by (apply (page_below _ newsz); [done|fold q1; lia]). lia.
  - intros s2 lv2 fl2 Hlen2 Hno. eapply run_alloc_undo; try done; lia.
Qed.

Lemma run_uvmalloc (Q : Z -> kstate -> Prop) :
  (forall s', allocated (Z.to_nat (q1 - q0)) s' -> Q newsz s') -> (forall s', alloc_failed s' -> Q 0 s') ->
  run (uvmalloc root oldsz newsz) s Q.
Proof.
  intros HQ HQ0. unfold uvmalloc. destruct (Z.ltb_spec newsz oldsz); [lia|]. rewrite pages_up by lia. fold q0.
  pose proof (pages_bounds newsz) as Bn. fold q1 in Bn. pose proof (pages_bounds oldsz) as Bo. fold q0 in Bo.
  pose proof pages_mono as Hmono.
  eapply (run_loop _ (fun a s' => exists k, q0 + Z.of_nat k <= q1 /\ a = (q0 + Z.of_nat k) * PGSIZE /\ allocated k s')
    (fun a _ => Z.to_nat (q1 - a / PGSIZE))).
  - intros a s1 (k & Hk & -> & Hal). destruct (Z.ltb_spec ((q0 + Z.of_nat k) * PGSIZE) newsz).
    + eapply run_alloc_step; [lia|done| |done]. intros s' Hal'. split.
      * exists (S k). split_and!; [lia|lia|done].
      * rewrite !Z.div_mul by lia. lia.
    + wp. apply HQ. replace (Z.to_nat (q1 - q0)) with k by lia. done.
  - exists 0%nat. split_and!; [lia|lia|apply allocated_0].
  - rewrite Z.div_mul by lia. enough (q1 - q0 <= (newsz - q0 * PGSIZE) / PGSIZE + 1) by lia.
    pose proof (Z.div_mod (newsz - q0 * PGSIZE) PGSIZE ltac:(lia)). pose proof (Z.mod_pos_bound (newsz - q0 * PGSIZE) PGSIZE ltac:(lia)). lia.
Qed.
End alloc.
End grow.

(** ** Copying between kernel and user memory *)

Section user_write.
Context (s : kstate) (root : Z) (lv : gmap Z nat) (fl : list Z) (um : umap) (vp fr g : Z) (m' : mem).
Context (Hok : uvm_ok s root lv fl um) (Hvp : um !! vp = Some (fr, g)) (Hsame : same_but_page fr (mm s) m').

(** Writing to a frame changes that user page only. *)
Lemma uvm_user_write : uvm_ok (set_mm m' s) root lv fl um /\ (forall va, pte_of m' root va = pte_of (mm s) root va) /\
  forall va, vget m' um va = if bool_decide (va / PGSIZE = vp) then Some (getb m' (fr + va mod PGSIZE)) else vget (mm s) um va.
Proof.
  destruct (spare_delete _ _ _ _ _ _ _ _ Hok Hvp) as [Hsp _].
  destruct (uvm_fill root s lv fl (delete vp um) fr m' (uvm_delete _ _ _ _ _ _ Hok) Hsp Hsame) as (Hok' & Hsp' & Hv & Hp).
  destruct (uo_pte _ _ _ _ _ Hok _ _ _ Hvp) as (Hr & Hg & Hpte).
  destruct (uvm_insert root (set_mm m' s) lv fl (delete vp um) vp fr g Hok' Hsp' (lookup_delete_eq _ _) Hr Hg) as [Hok2 _].
  { cbn [mm set_mm]. by rewrite Hp. }
  rewrite insert_delete_eq, insert_id in Hok2 by done. split; [done|]. split; [done|]. intros va.
  rewrite <-(insert_id um vp (fr, g) Hvp) at 1. rewrite <-insert_delete_eq, vget_insert. case_bool_decide as E; [done|].
  rewrite Hv. unfold vget. by rewrite lookup_delete_ne.
Qed.
End user_write.

(** *** copyin(), for any page table *)

(** The user-readable byte at [va], if there is one. *)
Definition uread (m : mem) (root va : Z) : option Z :=
  let e := pte_of m root va in
  if (va <? MAXVA) && pte_has e PTE_V && pte_has e PTE_U && negb (PTE2PA e =? 0)
  then Some (getb m (PTE2PA e + va mod PGSIZE)) else None.

Lemma pte_of_page m root va va' : va / PGSIZE = va' / PGSIZE -> pte_of m root va = pte_of m root va'.
Proof. intros Heq. unfold pte_of, leaf, next. by rewrite !(PX_page _ _ _ Heq) by lia. Qed.

Lemma page_split va : va = va / PGSIZE * PGSIZE + va mod PGSIZE /\ 0 <= va mod PGSIZE < PGSIZE.
Proof. pose proof (Z.div_mod va PGSIZE ltac:(lia)). pose proof (Z.mod_pos_bound va PGSIZE ltac:(lia)). lia. Qed.

Lemma page_below_max va : va < MAXVA -> va / PGSIZE * PGSIZE + PGSIZE <= MAXVA.
Proof. intros H. pose proof (page_split va). change MAXVA with (67108864 * PGSIZE) in *. lia. Qed.

Lemma in_page va a : va / PGSIZE * PGSIZE <= a < va / PGSIZE * PGSIZE + PGSIZE ->
  a / PGSIZE = va / PGSIZE /\ a mod PGSIZE = a - va / PGSIZE * PGSIZE.
Proof.
  intros H. assert (E : a / PGSIZE = va / PGSIZE) by (symmetry; apply Z.div_unique_pos with (a - va / PGSIZE * PGSIZE); lia).
  split; [done|]. rewrite <-E. pose proof (page_split a). lia.
Qed.

Lemma leaf_nonzero m root lv (HT : ptree m root lv) va r : leaf m root va = Some r -> r <> 0.
Proof.
  intros E. destruct (leaf_split _ _ _ HT _ _ E) as (t0 & -> & L0).
  pose proof (pt_page _ _ _ HT _ _ L0). pose proof (PX_range 0 va ltac:(lia)). lia.
Qed.

(** walkaddr() on the page of [va]: 0 exactly when no byte of it is readable. *)
Lemma run_walkaddr_page s root lv va : ptree (mm s) root lv -> 0 <= va ->
  run (walkaddr root (va / PGSIZE * PGSIZE)) s (fun pa s' => s' = s /\
    (pa = 0 /\ uread (mm s) root va = None \/
     pa <> 0 /\ va < MAXVA /\ pa = PTE2PA (pte_of (mm s) root va) /\ forall a, va / PGSIZE * PGSIZE <= a < va / PGSIZE * PGSIZE + PGSIZE ->
       uread (mm s) root a = Some (getb (mm s) (pa + (a - va / PGSIZE * PGSIZE))))).
Proof.
  intros HT H0. set (b := va / PGSIZE * PGSIZE). pose proof (page_split va) as Hsp.
  assert (Hbm : MAXVA <= b <-> MAXVA <= va). { split; [lia|]. intros ?. destruct (Z_le_gt_dec MAXVA b); [done|].
    pose proof (page_below_max b ltac:(lia)) as Hb. unfold b in Hb at 1. rewrite Z.div_mul in Hb by lia. lia. }
  unfold walkaddr. destruct (Z.leb_spec MAXVA b) as [Hm|Hm].
  { wp. split; [done|]. left. split; [done|]. unfold uread. destruct (Z.ltb_spec va MAXVA); [lia|done]. }
  assert (Hpt : forall a, b <= a < b + PGSIZE -> pte_of (mm s) root a = pte_of (mm s) root b).
  { intros a Ha. apply pte_of_page. destruct (in_page va a Ha) as [-> _]. unfold b. by rewrite Z.div_mul. }
  assert (Hlt : forall a, b <= a < b + PGSIZE -> (a <? MAXVA) = true).
  { intros a Ha. apply Z.ltb_lt. pose proof (page_below_max b Hm) as Hb. unfold b in Hb at 1. rewrite Z.div_mul in Hb by lia. fold b in Hb. lia. }
  assert (Hin : b <= va < b + PGSIZE) by (unfold b; lia).
  assert (Hrd : forall a, b <= a < b + PGSIZE -> uread (mm s) root a =
    let e := pte_of (mm s) root b in
    if pte_has e PTE_V && pte_has e PTE_U && negb (PTE2PA e =? 0) then Some (getb (mm s) (PTE2PA e + (a - b))) else None).
  { intros a Ha. unfold uread. rewrite (Hpt a Ha), (Hlt a Ha). destruct (in_page va a Ha) as [_ ->]. done. }
  pose proof (Hrd va Hin) as Hva. set (e := pte_of (mm s) root b) in *. cbv zeta in *.
  apply run_bind. eapply run_walk_lookup; [lia|]. unfold e, pte_of in Hva, Hrd.
  destruct (leaf (mm s) root b) as [r|] eqn:E.
  - pose proof (leaf_nonzero _ _ _ HT _ _ E) as Hr. change (default 0 (Some r)) with r. apply Z.eqb_neq in Hr. rewrite Hr. unfold load64. wp.
    set (e' := ld64 (mm s) r) in *. destruct (pte_has e' PTE_V); cbn [negb andb] in *; [|by wp; auto].
    destruct (pte_has e' PTE_U); cbn [negb andb] in *; [|by wp; auto]. wp. split; [done|].
    destruct (Z.eqb_spec (PTE2PA e') 0); cbn [negb] in *; [by left|]. right. split_and!; [done|lia| |done]. rewrite Hpt by done. unfold e, pte_of. by rewrite E.
  - change (default 0 None =? 0) with true. cbv iota. wp. auto.
Qed.

Lemma PGROUNDDOWN_page va : PGROUNDDOWN va = va / PGSIZE * PGSIZE.
Proof. apply PGROUNDDOWN_eq. Qed.

(** copyin() reads the whole range, or stops at an unreadable address. *)
Lemma run_copyin s root lv srcva len : ptree (mm s) root lv -> 0 <= srcva -> 0 <= len ->
  run (copyin root srcva len) s (fun '(r, bs) s' => s' = s /\
    (r = 0 /\ Z.of_nat (length bs) = len /\
       (forall i, (i < length bs)%nat -> uread (mm s) root (srcva + Z.of_nat i) = bs !! i) \/
     r = -1 /\ exists i, 0 <= i < len /\ uread (mm s) root (srcva + i) = None)).
Proof.
  intros HT H0 Hlen. unfold copyin.
  eapply (run_loop _ (fun '(va, n, dst) s' => s' = s /\ n = len - Z.of_nat (length dst) /\ 0 <= n /\
      (0 < n -> va = srcva + Z.of_nat (length dst)) /\
      forall i, (i < length dst)%nat -> uread (mm s) root (srcva + Z.of_nat i) = dst !! i)
    (fun '(va, n, dst) _ => Z.to_nat n)); cycle 1.
  { split_and!; cbn; try lia; done. }
  { cbn. lia. }
  intros [[va n] dst] s1 (-> & Hn & Hn0 & Hva & Hdst). destruct (Z.ltb_spec 0 n) as [Hpos|Hz].
  2: { wp. split; [done|]. left. split_and!; [done|lia|done]. }
  specialize (Hva Hpos). rewrite PGROUNDDOWN_page. apply run_bind.
  eapply run_mono; [eapply run_walkaddr_page; [exact HT|lia]|]. intros pa s2 (-> & [[-> Hnone]|(Hpa & Hm & _ & Hread)]).
  { change (0 =? 0) with true. cbv iota. wp. split; [done|]. right. split; [done|].
    exists (Z.of_nat (length dst)). split; [lia|]. by rewrite <-Hva. }
  destruct (Z.eqb_spec pa 0); [done|]. wp. pose proof (page_split va) as Hsp. pose proof (page_below_max va Hm).
  set (c := if n <? PGSIZE - (va - va / PGSIZE * PGSIZE) then n else PGSIZE - (va - va / PGSIZE * PGSIZE)).
  assert (Hc : 0 < c <= n /\ c <= PGSIZE - (va - va / PGSIZE * PGSIZE) /\ (c < n -> va + c = va / PGSIZE * PGSIZE + PGSIZE)).
  { unfold c. destruct (Z.ltb_spec n (PGSIZE - (va - va / PGSIZE * PGSIZE))); lia. }
  clearbody c. rewrite length_app, length_get_bytes. split; [|lia]. split_and!; [done|lia|lia| |].
  - intros ?. rewrite u64_small by lia. lia.
  - intros i Hi. destruct (decide (i < length dst)%nat) as [Hl|Hl]; [rewrite lookup_app_l by done; by apply Hdst|].
    rewrite lookup_app_r, lookup_get_bytes by lia. rewrite Hread by lia. do 2 f_equal. lia.
Qed.

Lemma user_frame s root lv fl um va fr g : uvm_ok s root lv fl um -> um !! (va / PGSIZE) = Some (fr, g) ->
  PTE2PA (pte_of (mm s) root va) = fr.
Proof.
  intros Hok Hvp. destruct (uo_pte _ _ _ _ _ Hok _ _ _ Hvp) as (Hr & [Hg _] & Hpt).
  destruct (uo_frame _ _ _ _ _ Hok _ _ _ Hvp) as (Hpg & _ & _).
  destruct (is_page_range _ _ (km_end _ _ (vo_kmem _ _ _ _ (uo_vm _ _ _ _ _ Hok))) Hpg) as [Hal Hfr].
  rewrite (pte_of_page _ _ va (va / PGSIZE * PGSIZE)) by (by rewrite Z.div_mul by lia).
  rewrite Hpt, leaf_pte_addr; (done || lia).
Qed.

(** *** copyout() *)

(** Every address user code can reach is in [um]. *)
Definition user_only (s : kstate) (root : Z) (um : umap) : Prop :=
  forall va, 0 <= va -> is_Some (uread (mm s) root va) -> is_Some (um !! (va / PGSIZE)).

Lemma uread_none m m' root va : (forall va, pte_of m' root va = pte_of m root va) ->
  uread m' root va = None <-> uread m root va = None.
Proof. intros H. unfold uread. rewrite H. by destruct (_ && _). Qed.

Section copyout.
Context (s : kstate) (root : Z) (lv : gmap Z nat) (fl : list Z) (um : umap) (dstva : Z) (src : list Z).
Context (Hok : uvm_ok s root lv fl um) (Huser : user_only s root um) (H0 : 0 <= dstva).

(** The first [k] bytes are in user memory, and nothing else has changed. *)
Definition copied_out (k : nat) (s' : kstate) : Prop :=
  exists m', s' = set_mm m' s /\ uvm_ok s' root lv fl um /\ (forall va, pte_of m' root va = pte_of (mm s) root va) /\
  (forall va, vget m' um va =
    if bool_decide (dstva <= va < dstva + Z.of_nat k) then Some (u8 (default 0 (src !! Z.to_nat (va - dstva)))) else vget (mm s) um va) /\
  forall a, page_of a ∉ frames um -> getb m' a = getb (mm s) a.

Lemma copied_out_0 : copied_out 0 s.
Proof.
  exists (mm s). split; [by destruct s|]. split_and!; try done. intros va. by rewrite bool_decide_false by lia.
Qed.

(** One page's worth. *)
Lemma copied_out_step k s1 fr g c : copied_out k s1 -> um !! ((dstva + Z.of_nat k) / PGSIZE) = Some (fr, g) ->
  (k + c <= length src)%nat -> (dstva + Z.of_nat k) mod PGSIZE + Z.of_nat c <= PGSIZE ->
  copied_out (k + c) (set_mm (set_bytes (mm s1) (fr + (dstva + Z.of_nat k) mod PGSIZE) (take c (drop k src))) s1).
Proof.
  intros (m1 & -> & Hok1 & Hp1 & Hv1 & Hf1) Hvp Hc Hfit. set (va := dstva + Z.of_nat k) in *. cbn [mm set_mm].
  pose proof (page_split va) as Hsp. assert (Hlen : length (take c (drop k src)) = c) by (rewrite length_take, length_skipn; lia).
  set (m2 := set_bytes _ _ _).
  assert (Hm2 : forall b, getb m2 b = if bool_decide (fr + va mod PGSIZE <= b < fr + va mod PGSIZE + Z.of_nat c)
    then u8 (default 0 (take c (drop k src) !! Z.to_nat (b - (fr + va mod PGSIZE)))) else getb m1 b).
  { intros b. unfold m2. rewrite getb_set_bytes by done. by rewrite Hlen. }
  destruct (uvm_user_write (set_mm m1 s) root lv fl um _ fr g m2 Hok1 Hvp) as (Hok2 & Hp2 & Hv2).
  { intros b Hb. rewrite Hm2. rewrite bool_decide_false by lia. done. }
  exists m2. split; [done|]. split; [done|]. split; [intros a; by rewrite Hp2, <-Hp1|]. split.
  2: { intros a Ha. rewrite Hm2, bool_decide_false; [by apply Hf1|]. intros Hin. apply Ha. destruct (uo_frame _ _ _ _ _ Hok1 _ _ _ Hvp) as ([Hal _] & _).
    rewrite (page_of_in fr a Hal) by lia. apply elem_of_frames. eauto. }
  intros a. rewrite Hv2. cbn [mm set_mm]. case_bool_decide as Hpg; pose proof (page_split a) as Ha.
  - assert (Hvg : vget m1 um a = Some (getb m1 (fr + a mod PGSIZE))) by (unfold vget; by rewrite Hpg, Hvp).
    rewrite Hm2. rewrite Hpg in Ha. repeat case_bool_decide; try lia.
    + do 3 f_equal. rewrite lookup_take_lt, lookup_drop by lia. f_equal. lia.
    + rewrite <-Hvg, Hv1. rewrite bool_decide_true by lia. done.
    + rewrite <-Hvg, Hv1. rewrite bool_decide_false by lia. done.
  - rewrite Hv1. assert (~ (va <= a < va + Z.of_nat c)).
    { intros ?. apply Hpg. destruct (in_page va a) as [-> _]; lia. }
    repeat case_bool_decide; done || lia.
Qed.

(** copyout() writes the whole buffer, or stops at an address user code
    cannot reach; nothing else changes. *)
Lemma run_copyout :
  run (copyout root dstva src) s (fun r s' => exists k, copied_out k s' /\
    (r = 0 /\ k = length src \/ r = -1 /\ (k < length src)%nat /\ uread (mm s) root (dstva + Z.of_nat k) = None)).
Proof.
  unfold copyout.
  eapply (run_loop _ (fun '(va, bs) s' => exists k, (k <= length src)%nat /\ bs = drop k src /\
      (bs <> [] -> va = dstva + Z.of_nat k) /\ copied_out k s') (fun '(va, bs) _ => length bs)); cycle 1.
  { exists 0%nat. split_and!; [lia|done|lia|apply copied_out_0]. }
  { lia. }
  intros [va bs] s1 (k & Hk & -> & Hva & Hc). destruct Hc as (m1 & Hs1 & Hok1 & Hp1 & Hv1 & Hf1) eqn:E; clear E.
  rewrite length_skipn. destruct (Z.ltb_spec 0 (Z.of_nat (length src - k))) as [Hpos|Hz].
  2: { wp. exists k. split; [done|]. left. split; [done|lia]. }
  assert (va = dstva + Z.of_nat k) as ->.
  { apply Hva. intros Hnil. apply (f_equal length) in Hnil. rewrite length_skipn in Hnil. cbn in Hnil. lia. }
  clear Hva. set (va := dstva + Z.of_nat k) in *. rewrite PGROUNDDOWN_page. apply run_bind.
  eapply run_mono; [eapply run_walkaddr_page; [apply Hok1|lia]|]. intros pa s2 (-> & [[-> Hnone]|(Hpa & Hm & Hfr & Hread)]).
  { change (0 =? 0) with true. cbv iota. wp. exists k. split; [done|]. right. split_and!; [done|lia|].
    rewrite Hs1 in Hnone. cbn [mm set_mm] in Hnone. by eapply (uread_none (mm s) m1). }
  destruct (Z.eqb_spec pa 0); [done|]. pose proof (page_split va) as Hsp. pose proof (page_below_max va Hm).
  assert (exists g, um !! (va / PGSIZE) = Some (pa, g)) as [g Hvp].
  { destruct (Huser va ltac:(lia)) as [[fr g] Hvp].
    - destruct (uread (mm s) root va) eqn:Hu; [done|]. rewrite <-(uread_none _ m1) in Hu by done.
      rewrite Hs1 in Hread. cbn [mm set_mm] in Hread. rewrite Hread in Hu by lia. done.
    - exists g. rewrite Hvp. do 2 f_equal. subst pa. symmetry. by eapply user_frame. }
  wp. set (c := if Z.of_nat (length src - k) <? PGSIZE - (va - va / PGSIZE * PGSIZE) then Z.of_nat (length src - k)
    else PGSIZE - (va - va / PGSIZE * PGSIZE)).
  assert (Hc2 : 0 < c <= Z.of_nat (length src - k) /\ c <= PGSIZE - (va - va / PGSIZE * PGSIZE) /\
    (c < Z.of_nat (length src - k) -> va + c = va / PGSIZE * PGSIZE + PGSIZE)).
  { unfold c. destruct (Z.ltb_spec (Z.of_nat (length src - k)) (PGSIZE - (va - va / PGSIZE * PGSIZE))); lia. }
  clearbody c. rewrite drop_drop. split.
  - exists (k + Z.to_nat c)%nat. split_and!; [lia|done| |].
    + intros Hne. rewrite u64_small by lia. assert (c < Z.of_nat (length src - k)); [|lia].
      destruct (Z_lt_ge_dec c (Z.of_nat (length src - k))); [done|]. destruct Hne. apply skipn_all2. lia.
    + replace (va - va / PGSIZE * PGSIZE) with (va mod PGSIZE) by lia. eapply copied_out_step; [exact Hc|exact Hvp|lia|fold va; lia].
  - rewrite !length_skipn. lia.
Qed.
End copyout.

End Uvm.
