(* ===== verification/Uvmcopy.v ===== *)
(** * Copying an address space (uvmcopy of kernel/vm.c)

    fork() copies the parent's memory into the child's page table.  The two
    page tables share one free list and own disjoint pages. *)

From S2P Require Import Prelude Bytes CString KState Spinlock Kernel Riscv Machine Kalloc Vm PageTable Uvm.

Module Uvmcopy.
Import Kalloc Vm PageTable Uvm.

(** The pages of two address spaces, free list aside. *)
Definition apart (lvo : gmap Z nat) (umo : umap) (lv : gmap Z nat) (um : umap) : Prop :=
  forall x, (is_Some (lvo !! x) \/ x ∈ frames umo) -> lv !! x = None /\ x ∉ frames um.

Section other.
Context (h : nat) (me : option nat) (ls : list lockid).
Context (s s' : kstate) (old root : Z) (lvo lv lv' : gmap Z nat) (fl fl' : list Z) (umo um um' : umap).
Context (Hold : uvm_ok s old lvo fl umo) (Hap : apart lvo umo lv um).
Context (Hev : evolves h me ls root s s' lv lv' fl fl' um um').

Lemma old_not_owned x : is_Some (lvo !! x) \/ x ∈ frames umo -> x ∉ owned lv fl um.
Proof.
  intros Hx. destruct (Hap x Hx) as [Hl Hf]. rewrite elem_of_owned, Hl. intros [[??]|[Hin|Hu]]; [done| |].
  - destruct Hx as [Hx|(vp & g & Hvp)%elem_of_frames].
    + rewrite (vo_fresh _ _ _ _ (uo_vm _ _ _ _ _ Hold)) in Hx by done. by destruct Hx.
    + by destruct (uo_frame _ _ _ _ _ Hold _ _ _ Hvp) as (_ & ? & _).
  - by apply Hf, elem_of_frames.
Qed.

(** Work on one address space leaves the other one alone. *)
Lemma other_space : uvm_ok s' old lvo fl' umo /\ (forall va, vget (mm s') umo va = vget (mm s) umo va) /\
  (forall fr vp g a, umo !! vp = Some (fr, g) -> fr <= a < fr + PGSIZE -> getb (mm s') a = getb (mm s) a).
Proof.
  destruct Hold as [[HT Hk Hf] Hp Hfr Hi].
  destruct (ptree_same (mm s) (mm s') old lvo HT) as (HT' & _ & Hpte).
  { intros a Ha. apply Hev, old_not_owned. by left. }
  assert (Hd : forall fr vp g a, umo !! vp = Some (fr, g) -> fr <= a < fr + PGSIZE -> getb (mm s') a = getb (mm s) a).
  { intros fr vp g a Hvp Ha. destruct (Hfr _ _ _ Hvp) as ([Hal _] & _). apply Hev, old_not_owned. right.
    rewrite (page_of_in fr) by done. apply elem_of_frames. eauto. }
  assert (Hin : forall x, x ∈ fl' -> x ∈ owned lv fl um).
  { intros x Hx. rewrite <-(ev_owned _ _ _ _ _ _ _ _ _ _ _ _ Hev). apply elem_of_owned. tauto. }
  split_and!; [split|..]; try done.
  - split; [done|apply Hev|]. intros t Ht. destruct (lvo !! t) eqn:E; [|done].
    destruct (old_not_owned t); [left; by eexists|by apply Hin].
  - intros vp fr g Hvp. rewrite Hpte. by apply Hp.
  - intros vp fr g Hvp. rewrite (shape_ld _ _ (ev_shape _ _ _ _ _ _ _ _ _ _ _ _ Hev)).
    destruct (Hfr _ _ _ Hvp) as (? & ? & ?). split_and!; [done| |done]. intros Hx. apply Hin in Hx. revert Hx.
    apply old_not_owned. right. apply elem_of_frames. eauto.
  - apply vget_ext. intros vp fr g a Hvp Ha. by eapply Hd.
Qed.
End other.

Section copy.
Context (h : nat) (me : option nat) (ls : list lockid) (Hls : LKmem ∉ ls).
Context (s : kstate) (old new : Z) (lvo lv : gmap Z nat) (fl : list Z) (umo um : umap) (sz : Z).
Context (Ho : owns h me ls (sy s)) (Hold : uvm_ok s old lvo fl umo) (Hnew : uvm_ok s new lv fl um).
Context (Hap : apart lvo umo lv um) (Hsz : 0 <= sz <= MAXVA).
Let n := pages sz.
Context (Hmap : forall vp, 0 <= vp < n -> is_Some (umo !! vp)).
Context (Hfree : forall vp, 0 <= vp < n -> um !! vp = None /\ pte_has (pte_of (mm s) new (vp * PGSIZE)) PTE_V = false).

(** The first [k] pages of the parent are in the child. *)
Definition copied (k : nat) (s' : kstate) (lv' : gmap Z nat) (fl' : list Z) (um' : umap) : Prop :=
  evolves h me ls new s s' lv lv' fl fl' um um' /\
  um_del um' 0 k = um /\ (forall vp, 0 <= vp < Z.of_nat k -> is_Some (um' !! vp)) /\
  (forall vp fr g, 0 <= vp < Z.of_nat k -> umo !! vp = Some (fr, g) -> exists fr', um' !! vp = Some (fr', Z.lor g PTE_V)) /\
  (forall va, vget (mm s') um' va =
     if bool_decide (0 <= va / PGSIZE < Z.of_nat k) then vget (mm s) umo va else vget (mm s) um va) /\
  (forall vp, Z.of_nat k <= vp < n -> pte_has (pte_of (mm s') new (vp * PGSIZE)) PTE_V = false) /\
  (length fl <= 3 * k + length fl')%nat.

Lemma copied_0 : copied 0 s lv fl um.
Proof.
  split; [by apply evolves_refl|]. rewrite um_del_0. split; [done|]. split_and!; try lia.
  - intros va. by rewrite bool_decide_false by lia.
  - intros vp Hvp. apply Hfree. lia.
Qed.

Lemma copied_none k s' lv' fl' um' vp : copied k s' lv' fl' um' -> Z.of_nat k <= vp < n -> um' !! vp = None.
Proof.
  intros (_ & Hd & _) Hvp. destruct (Hfree vp ltac:(lia)) as [Hn _]. rewrite <-Hd, um_del_lookup in Hn.
  by rewrite bool_decide_false in Hn by lia.
Qed.

(** One more page. *)
Lemma copied_S k s1 lv1 fl1 um1 s2 lv2 fl2 fr g pg : copied k s1 lv1 fl1 um1 -> Z.of_nat k < n ->
  umo !! Z.of_nat k = Some (fr, g) ->
  (length fl1 <= 3 + length fl2)%nat ->
  evolves h me ls new s1 s2 lv1 lv2 fl1 fl2 um1 (<[Z.of_nat k := (pg, Z.lor g PTE_V)]> um1) ->
  (forall va, vget (mm s2) (<[Z.of_nat k := (pg, Z.lor g PTE_V)]> um1) va =
    if bool_decide (va / PGSIZE = Z.of_nat k) then Some (getb (mm s1) (fr + va mod PGSIZE)) else vget (mm s1) um1 va) ->
  (forall va, 0 <= va < MAXVA -> va / PGSIZE <> Z.of_nat k -> pte_of (mm s2) new va = pte_of (mm s1) new va) ->
  copied (S k) s2 lv2 fl2 (<[Z.of_nat k := (pg, Z.lor g PTE_V)]> um1).
Proof.
  intros Hc Hk Hvp Hlen2 He2 Hv2 Hp2. pose proof Hc as (He1 & Hd & Hmap1 & Hfl1 & Hv1 & Hp1 & Hlen1).
  destruct (other_space h me ls s s1 old new lvo lv lv1 fl fl1 umo um um1 Hold Hap He1) as (_ & Hvo1 & _).
  split; [by eapply evolves_trans|]. split; [|split; [|split; [|split; [|split; [|lia]]]]].
  - rewrite <-Hd. apply (um_del_insert um1 0 k). eapply copied_none; [exact Hc|lia].
  - intros vp Hvp'. destruct (decide (vp = Z.of_nat k)) as [->|Hne]; [by rewrite lookup_insert_eq|].
    rewrite lookup_insert_ne by done. apply Hmap1. lia.
  - intros vp fr' g' Hvp' Hl. destruct (decide (vp = Z.of_nat k)) as [->|Hne].
    + rewrite lookup_insert_eq. exists pg. congruence.
    + rewrite lookup_insert_ne by done. eapply Hfl1; [lia|done].
  - intros va. rewrite Hv2, Hv1. case_bool_decide as E.
    + rewrite bool_decide_true by lia. rewrite <-Hvo1. unfold vget. by rewrite E, Hvp.
    + repeat case_bool_decide; done || lia.
  - intros vp Hvp'. rewrite Hp2; [apply Hp1; lia| |rewrite Z.div_mul; lia].
    assert ((vp + 1) * PGSIZE <= MAXVA) by (apply (page_below _ sz); [lia|fold n; lia]). lia.
Qed.

(** One page. *)
Lemma run_copy_step k s1 lv1 fl1 um1 (Q : (Z + option Z) -> kstate -> Prop) : Z.of_nat k < n -> copied k s1 lv1 fl1 um1 ->
  (forall s' lv' fl' um', copied (S k) s' lv' fl' um' -> Q (inl ((Z.of_nat k + 1) * PGSIZE)) s') ->
  (forall s' lv' fl', no_page h me ls new s1 s' lv1 lv' fl1 fl' um1 -> (length fl < 3 * S k)%nat ->
     Q (inr (Some (Z.of_nat k * PGSIZE))) s') ->
  run (pte <- walk old (Z.of_nat k * PGSIZE) false ;;
      if pte =? 0 then panic "uvmcopy: pte should exist" else
      e <- load64 pte ;;
      if negb (pte_has e PTE_V) then panic "uvmcopy: page not present" else
      let pa := PTE2PA e in
      let flags := PTE_FLAGS e in
      mem <- kalloc ;;
      if mem =? 0 then ret (inr (Some (Z.of_nat k * PGSIZE))) else
      k_memmove mem pa PGSIZE ;;
      r <- mappages new (Z.of_nat k * PGSIZE) PGSIZE mem flags ;;
      if negb (r =? 0) then kfree mem ;; ret (inr (Some (Z.of_nat k * PGSIZE)))
      else ret (inl (u64 (Z.of_nat k * PGSIZE + PGSIZE)))) s1 Q.
Proof.
  intros Hk Hc HQ HQ1. pose proof Hc as (He1 & Hd & Hmap1 & Hfl1 & Hv1 & Hp1 & Hlen1).
  destruct (other_space h me ls s s1 old new lvo lv lv1 fl fl1 umo um um1 Hold Hap He1) as (Hold1 & Hvo1 & Hdo1).
  destruct (Hmap (Z.of_nat k) ltac:(lia)) as [[fr g] Hvp].
  destruct (uo_pte _ _ _ _ _ Hold1 _ _ _ Hvp) as (Hr & [Hg Hgv] & _).
  destruct (uo_frame _ _ _ _ _ Hold1 _ _ _ Hvp) as (Hpg & Hnfl & _).
  destruct (is_page_range _ _ (km_end _ _ (vo_kmem _ _ _ _ (uo_vm _ _ _ _ _ Hold1))) Hpg) as [Hal Hfr].
  destruct (user_leaf _ _ _ _ _ _ _ _ Hold1 Hvp) as (r & Hr0 & Hleaf & Hld).
  apply run_bind. eapply run_walk; [lia|done|]. destruct (Z.eqb_spec r 0); [done|]. unfold load64. wp.
  rewrite Hld, leaf_pte_valid, leaf_pte_flags, leaf_pte_addr by (done || lia). cbn [negb]. cbv zeta.
  assert (Hlt : (Z.of_nat k + 1) * PGSIZE <= MAXVA) by (apply (page_below _ sz); [lia|done]).
  eapply (run_new_page h me ls Hls new s1 lv1 fl1 um1 (Z.of_nat k) (Z.lor g PTE_V) (fun i => getb (mm s1) (fr + i))
    (fun mem => k_memmove mem fr PGSIZE)); [apply He1|apply He1| |apply Hp1; lia|lia| | | |].
  - eapply copied_none; [exact Hc|lia].
  - split; [by apply flags_V_range|]. by rewrite <-Z.lor_assoc.
  - intros s2 pg R Hin Hsm HR. unfold k_memmove. wp.
    assert (Hpgal : pg mod PGSIZE = 0).
    { eapply Forall_forall in Hin as Hpp; [|apply (km_pages _ _ (vo_kmem _ _ _ _ (uo_vm _ _ _ _ _ Hold1)))]. apply Hpp. }
    apply HR.
    + intros a Ha. rewrite CString.getb_memmove by done. by rewrite bool_decide_false by lia.
    + intros i Hi. rewrite CString.getb_memmove by done. rewrite bool_decide_true by lia.
      replace (fr + (pg + i - pg)) with (fr + i) by lia. apply Hsm.
      apply (aligned_disjoint pg fr); [done|done|congruence|lia].
  - intros s2 lv2 fl2 Hlen2 (pg & Hin & He2 & Hv2 & Hp2). wp. rewrite u64_small by lia.
    replace (_ * PGSIZE + PGSIZE) with ((Z.of_nat k + 1) * PGSIZE) by lia.
    apply (HQ s2 lv2 fl2 (<[Z.of_nat k := (pg, Z.lor g PTE_V)]> um1)).
    by eapply copied_S.
  - intros s2 lv2 fl2 Hlen2 Hno. wp. eapply HQ1; [done|lia].
Qed.

(** Memory ran out: the child is as before. *)
Definition copy_failed (s' : kstate) : Prop :=
  exists lv' fl', evolves h me ls new s s' lv lv' fl fl' um um /\
    (forall va, vget (mm s') um va = vget (mm s) um va) /\ (length fl < 3 * Z.to_nat n)%nat.

(** The error path: unmapping the [k] pages copied so far. *)
Lemma run_copy_undo k s1 lv1 fl1 um1 s2 lv2 fl2 (Q : Z -> kstate -> Prop) : copied k s1 lv1 fl1 um1 ->
  no_page h me ls new s1 s2 lv1 lv2 fl1 fl2 um1 -> (0 < k)%nat -> Z.of_nat k < n -> (length fl < 3 * S k)%nat ->
  (forall s', copy_failed s' -> Q (-1) s') ->
  run (uvmunmap new 0 (Z.of_nat k * PGSIZE) true ;; ret (-1)) s2 Q.
Proof.
  intros (He1 & Hd & Hmap1 & _ & Hv1 & _) [He2 Hv2] Hk0 Hk Hlen HQ.
  assert (Hlt : (Z.of_nat k + 1) * PGSIZE <= MAXVA) by (apply (page_below _ sz); [lia|done]). apply run_bind.
  eapply (run_uvmunmap h me ls Hls new s2 lv2 fl2 um1 0 k); [apply He2|apply He2|done| |done| |].
  - intros i Hi. apply Hmap1. lia.
  - rewrite u64_small by lia. rewrite PGROUNDDOWN_eq. change 4096 with PGSIZE.
    replace ((0 + Z.of_nat k * PGSIZE - 1) / PGSIZE) with (Z.of_nat k - 1); [lia|].
    apply Z.div_unique_pos with (PGSIZE - 1); lia.
  - rewrite Hd. intros s3 (fl3 & He3 & Hv3). wp. apply HQ. exists lv2, fl3. split; [|split; [|lia]].
    + eapply evolves_trans; [|exact He3]. by eapply evolves_trans.
    + intros va. rewrite Hv3, <-Hd, !vget_del, Hv2, Hv1. rewrite Z.add_0_l. case_bool_decide; [done|]. rewrite <-Hd at 1.
      rewrite vget_del, Z.add_0_l. by rewrite bool_decide_false by done.
Qed.

Lemma run_uvmcopy (Q : Z -> kstate -> Prop) : (3 <= length fl)%nat ->
  (forall s' lv' fl' um', copied (Z.to_nat n) s' lv' fl' um' -> Q 0 s') ->
  (forall s', copy_failed s' -> Q (-1) s') ->
  run (uvmcopy old new sz) s Q.
Proof.
  intros Hmin HQ HQ1. unfold uvmcopy. apply run_bind. pose proof (pages_bounds sz) as Bn. fold n in Bn.
  eapply (run_loop _ (fun i s' => exists k lv' fl' um', Z.of_nat k <= n /\ i = Z.of_nat k * PGSIZE /\ copied k s' lv' fl' um')
    (fun i _ => Z.to_nat (n - i / PGSIZE))).
  - intros i s1 (k & lv1 & fl1 & um1 & Hk & -> & Hc). destruct (Z.ltb_spec (Z.of_nat k * PGSIZE) sz).
    + eapply run_copy_step; [lia|exact Hc| |].
      * intros s' lv' fl' um' Hc'. split; [|rewrite !Z.div_mul by lia; lia].
        exists (S k), lv', fl', um'. split_and!; [lia|lia|done].
      * intros s' lv' fl' Hno Hlen. eapply run_copy_undo; [exact Hc|exact Hno|lia|lia|done|done].
    + wp. eapply HQ. replace (Z.to_nat n) with k by lia. done.
  - exists 0%nat, lv, fl, um. split_and!; [lia|lia|apply copied_0].
  - change (0 / PGSIZE) with 0. pose proof (Z.div_mod sz PGSIZE ltac:(lia)). pose proof (Z.mod_pos_bound sz PGSIZE ltac:(lia)). lia.
Qed.
End copy.

End Uvmcopy.
