(* ===== verification/PageFree.v ===== *)
(** * Making and freeing page tables (uvmcreate, uvmfree of kernel/vm.c)

    A fresh page table is a zeroed page.  freewalk() frees the tables of an
    address space that maps nothing any more: it visits each table once and
    every page of the tree is on the free list afterwards. *)

From S2P Require Import Prelude Bytes CString KState Spinlock Kernel Riscv Machine Kalloc Vm PageTable Uvm.

Module PageFree.
Import Kalloc Vm PageTable Uvm.

Lemma list_bind_ext {X Y} (f g : X -> list Y) (l : list X) : (forall x, x ∈ l -> f x = g x) -> (l ≫= f) = (l ≫= g).
Proof.
  induction l as [|x l IH]; intros H; [done|]. cbn. f_equal; [apply H, elem_of_cons; by left|]. apply IH. intros y Hy. apply H, elem_of_cons. by right.
Qed.

(** ** The tables below a table *)

Fixpoint tabs (m : mem) (l : nat) (t : Z) : list Z :=
  match l with
  | O => [t]
  | S l' => (seqZ 0 512 ≫= fun i => if pte_has (entry m t i) PTE_V then tabs m l' (PTE2PA (entry m t i)) else []) ++ [t]
  end.

(** The entries of a table that lead to tables, and nothing else is valid. *)
Fixpoint tables_only (m : mem) (l : nat) (t : Z) : Prop :=
  forall i, 0 <= i < 512 -> pte_has (entry m t i) PTE_V = true ->
    match l with O => False | S l' => Z.land (entry m t i) 14 = 0 /\ tables_only m l' (PTE2PA (entry m t i)) end.

Lemma elem_tabs_S m l t x : x ∈ tabs m (S l) t <->
  x = t \/ exists i, 0 <= i < 512 /\ pte_has (entry m t i) PTE_V = true /\ x ∈ tabs m l (PTE2PA (entry m t i)).
Proof.
  cbn [tabs]. rewrite elem_of_app, list_elem_of_singleton, list_elem_of_bind. split.
  - intros [(i & Hx & Hi%elem_of_seqZ)| ->]; [right|by left].
    destruct (pte_has (entry m t i) PTE_V) eqn:Hv; [|by apply elem_of_nil in Hx]. exists i. split_and!; (lia || done).
  - intros [->|(i & Hi & Hv & Hx)]; [by right|left]. exists i. rewrite Hv. split; [done|]. apply elem_of_seqZ. lia.
Qed.
Lemma tabs_self m l t : t ∈ tabs m l t.
Proof. destruct l; [by apply list_elem_of_singleton|]. apply elem_tabs_S. by left. Qed.

(** The tables below [t] depend on their own pages only. *)
Lemma tabs_ext m m' l : forall t, (forall x, x ∈ tabs m l t -> x mod PGSIZE = 0) -> (forall a, page_of a ∈ tabs m l t -> getb m' a = getb m a) ->
  tabs m' l t = tabs m l t /\ (tables_only m l t -> tables_only m' l t).
Proof.
  induction l as [|l IH]; intros t Hal Hm.
  all: assert (He : forall i, 0 <= i < 512 -> entry m' t i = entry m t i) by
    (intros i Hi; apply ldn_ext; intros b Hb; apply Hm; rewrite (page_of_in t) by (apply Hal, tabs_self || lia); apply tabs_self).
  { split; [done|]. intros H i Hi. rewrite He by done. by apply H. }
  assert (Hc : forall i, 0 <= i < 512 -> pte_has (entry m t i) PTE_V = true -> forall x, x ∈ tabs m l (PTE2PA (entry m t i)) -> x ∈ tabs m (S l) t).
  { intros i Hi Hv x Hx. apply elem_tabs_S. right. by exists i. }
  assert (IH' : forall i, 0 <= i < 512 -> pte_has (entry m t i) PTE_V = true -> tabs m' l (PTE2PA (entry m t i)) = tabs m l (PTE2PA (entry m t i)) /\
    (tables_only m l (PTE2PA (entry m t i)) -> tables_only m' l (PTE2PA (entry m t i)))).
  { intros i Hi Hv. apply IH; [intros x Hx; by eapply Hal, Hc|intros a Ha; by eapply Hm, Hc]. }
  split.
  - cbn [tabs]. f_equal. apply list_bind_ext. intros i Hj%elem_of_seqZ. rewrite He by lia.
    destruct (pte_has (entry m t i) PTE_V) eqn:Hv; [|done]. apply IH'; [lia|done].
  - intros H i Hi. rewrite He by done. intros Hv. destruct (H i Hi Hv) as [H1 H2]. split; [done|]. by apply IH'.
Qed.

(** ** The tables of a tree *)

Section tree.
Context (m : mem) (root : Z) (lv : gmap Z nat) (HT : ptree m root lv).

Lemma tabs_level l : forall t x, lv !! t = Some l -> x ∈ tabs m l t -> exists l', (l' <= l)%nat /\ lv !! x = Some l' /\ (l' = l -> x = t).
Proof using HT.
  induction l as [|l IH]; intros t x Ht Hx.
  - apply list_elem_of_singleton in Hx as ->. exists 0%nat. done.
  - apply elem_tabs_S in Hx as [->|(i & Hi & Hv & Hx)]; [by exists (S l)|].
    destruct (IH _ _ (pt_child _ _ _ HT t l i Ht Hi Hv) Hx) as (l' & Hl & Hl' & _). exists l'. split_and!; [lia|done|lia].
Qed.

(** Trees below different tables of a level share no table. *)
Lemma tabs_unique l : forall t t' x, lv !! t = Some l -> lv !! t' = Some l -> x ∈ tabs m l t -> x ∈ tabs m l t' -> t = t'.
Proof using HT.
  induction l as [|l IH]; intros t t' x Ht Ht' Hx Hx'.
  { apply list_elem_of_singleton in Hx as ->. by apply list_elem_of_singleton in Hx' as ->. }
  destruct (tabs_level _ _ _ Ht Hx) as (l1 & _ & L1 & E1). destruct (tabs_level _ _ _ Ht' Hx') as (l2 & _ & L2 & E2).
  assert (l1 = l2) as <- by congruence.
  apply elem_tabs_S in Hx as [->|(i & Hi & Hv & Hx)]; [apply E2; congruence|].
  apply elem_tabs_S in Hx' as [->|(i' & Hi' & Hv' & Hx')]; [symmetry; apply E1; congruence|].
  pose proof (pt_child _ _ _ HT t l i Ht Hi Hv) as C. pose proof (pt_child _ _ _ HT t' l i' Ht' Hi' Hv') as C'.
  by destruct (pt_inj _ _ _ HT t l i t' l i' Ht Hi Hv Ht' Hi' Hv' (IH _ _ _ C C' Hx Hx')) as [-> _].
Qed.

Lemma tabs_NoDup l : forall t, lv !! t = Some l -> NoDup (tabs m l t).
Proof using HT.
  induction l as [|l IH]; intros t Ht; [apply NoDup_singleton|]. cbn [tabs]. apply NoDup_app. split_and!; [|intros x Hx ->%list_elem_of_singleton|apply NoDup_singleton].
  - apply NoDup_bind; [|intros i Hi%elem_of_seqZ|apply NoDup_seqZ].
    + intros i i' x Hi%elem_of_seqZ Hi'%elem_of_seqZ. destruct (pte_has (entry m t i) PTE_V) eqn:Hv; [|by intros ?%elem_of_nil].
      destruct (pte_has (entry m t i') PTE_V) eqn:Hv'; [|by intros _ ?%elem_of_nil]. intros Hx Hx'.
      assert (0 <= i < 512) by lia. assert (0 <= i' < 512) by lia.
      by destruct (pt_inj _ _ _ HT t l i t l i') as [_ ->]; try done; eapply tabs_unique; eauto using pt_child.
    + destruct (pte_has (entry m t i) PTE_V) eqn:Hv; [|constructor]. apply IH. apply (pt_child _ _ _ HT t l i); (done || lia).
  - apply list_elem_of_bind in Hx as (i & Hx & Hi%elem_of_seqZ). destruct (pte_has (entry m t i) PTE_V) eqn:Hv; [|by apply elem_of_nil in Hx].
    destruct (tabs_level l _ _ (pt_child _ _ _ HT t l i Ht ltac:(lia) Hv) Hx) as (l' & Hl & Hl' & _). rewrite Ht in Hl'. injection Hl' as <-. lia.
Qed.

(** The tree holds every table. *)
Lemma tabs_all x : is_Some (lv !! x) <-> x ∈ tabs m 2 root.
Proof using HT.
  split.
  - intros [k Hk]. pose proof (pt_root _ _ _ HT) as Hroot.
    assert (Hup : forall y l, lv !! y = Some l -> (l < 2)%nat -> exists t i, lv !! t = Some (S l) /\ 0 <= i < 512 /\ pte_has (entry m t i) PTE_V = true /\ PTE2PA (entry m t i) = y).
    { intros y l Hy Hl. apply (pt_reach _ _ _ HT); [done|]. intros ->. rewrite Hroot in Hy. injection Hy as <-. lia. }
    assert (Htop : forall t, lv !! t = Some 2%nat -> t = root) by (intros t Ht; by apply (pt_top _ _ _ HT t 2)).
    assert (H1 : forall y, lv !! y = Some 1%nat -> forall z, z ∈ tabs m 1 y -> z ∈ tabs m 2 root).
    { intros y Hy z Hz. destruct (Hup y 1%nat Hy ltac:(lia)) as (t & i & Ht & Hi & Hv & Hp). rewrite (Htop t Ht) in *.
      apply elem_tabs_S. right. exists i. by rewrite Hp. }
    destruct (pt_top _ _ _ HT _ _ Hk) as [Hle _]. destruct k as [|[|[|k]]]; [..|lia].
    + destruct (Hup x 0%nat Hk ltac:(lia)) as (t & i & Ht & Hi & Hv & Hp). apply (H1 t Ht), elem_tabs_S. right. exists i. split; [done|]. split; [done|]. rewrite Hp. apply tabs_self.
    + apply (H1 x Hk), tabs_self.
    + rewrite (Htop x Hk). apply tabs_self.
  - intros Hx. destruct (tabs_level 2 root x (pt_root _ _ _ HT) Hx) as (l' & _ & Hl & _). by eexists.
Qed.

(** A tree that maps nothing has no leaf entries. *)
Lemma tables_only_level l : (forall va, 0 <= va < MAXVA -> pte_has (pte_of m root va) PTE_V = false) -> forall t, lv !! t = Some l -> tables_only m l t.
Proof using HT.
  intros Hun. induction l as [|l IH]; intros t Ht i Hi Hv.
  - assert (Hr : forall l', (l' < 2)%nat -> lv !! root <> Some l') by (intros l' Hl; rewrite (pt_root _ _ _ HT); intros [= <-]; lia).
    destruct (pt_reach _ _ _ HT t 0 Ht) as (t1 & i1 & H1 & Hi1 & Hv1 & P1); [intros ->; by eapply (Hr 0%nat); [lia|]|].
    destruct (pt_reach _ _ _ HT t1 1 H1) as (t2 & i2 & H2 & Hi2 & Hv2 & P2); [intros ->; by eapply (Hr 1%nat); [lia|]|].
    destruct (pt_table _ _ _ HT t2 1 i2 H2 Hi2 Hv2) as [_ Hlow]. destruct (pt_top _ _ _ HT t2 2 H2) as [_ E2]. rewrite (E2 eq_refl) in *.
    destruct (PX_of i2 i1 i) as (Hva & X2 & X1 & X0); [split; [lia|by apply Hlow]|done|done|]. specialize (Hun _ Hva).
    unfold pte_of, leaf, next in Hun. rewrite X2, Hv2 in Hun. cbn [mbind option_bind] in Hun. rewrite X1, P2, Hv1 in Hun. cbn [mbind option_bind] in Hun.
    rewrite X0, P1 in Hun. change (ld64 m (t + 8 * i)) with (entry m t i) in Hun. congruence.
  - split; [by apply (pt_table _ _ _ HT t l i)|]. apply IH. by apply (pt_child _ _ _ HT t l i).
Qed.
End tree.

(** ** freewalk *)

(** Changes in one page that is not free. *)
Lemma kmem_other_page s fl pg m' : kmem_ok s fl -> pg mod PGSIZE = 0 -> pg ∉ fl -> same_but_page pg (mm s) m' -> kmem_ok (set_mm m' s) fl.
Proof.
  intros [He Hc Hnd Hp] Ht Hn Hs. split; try done. eapply chain_ext; [|exact Hc]. apply Forall_forall. intros x Hx. cbn [mm set_mm]. apply ldn_ext.
  intros b Hb. apply Hs. eapply Forall_forall in Hp as [Hxa _]; [|exact Hx]. apply (aligned_disjoint pg x); (done || congruence || lia).
Qed.

Lemma kmem_store s fl t a v : kmem_ok s fl -> t mod PGSIZE = 0 -> t ∉ fl -> t <= a -> a + 8 <= t + PGSIZE -> kmem_ok (set_mm (st64 (mm s) a v) s) fl.
Proof. intros Hk Ht Hn H1 H2. apply (kmem_other_page s fl t); try done. intros b Hb. unfold st64. apply getb_stn_ne. lia. Qed.

Section freewalk.
Context (h : nat) (me : option nat) (ls : list lockid) (Hls : LKmem ∉ ls).

(** The pages [X] have been given to the free list. *)
Record released (s s' : kstate) (fl fl' X : list Z) : Prop := {
  rl_owns : owns h me ls (sy s');
  rl_shape : vm_shape s s';
  rl_kmem : kmem_ok s' fl';
  rl_free : forall x, x ∈ fl' <-> x ∈ fl \/ x ∈ X;
  rl_other : forall a, page_of a ∉ X -> getb (mm s') a = getb (mm s) a
}.

Lemma run_release_page s t fl (Q : unit -> kstate -> Prop) : owns h me ls (sy s) -> kmem_ok s fl -> is_page (ld_end (ld s)) t -> t ∉ fl ->
  (forall s' fl', released s s' fl fl' [t] -> Q tt s') -> run (kfree t) s Q.
Proof using Hls.
  intros Ho Hk Ht Hn HQ. eapply run_mono; [by apply (kfree_ok h me ls s t fl)|]. intros [] s' (Hk' & Ho' & Hs & y & m & ->). apply (HQ _ (t :: fl)). split; try done.
  - by exists y, m, t.
  - intros x. rewrite elem_of_cons, list_elem_of_singleton. tauto.
  - intros a Ha. apply Hs. intros Hin. apply Ha, list_elem_of_singleton. apply (page_of_in t); [apply Ht|done].
Qed.

Section table.
Context (l : nat) (t : Z) (s : kstate) (fl : list Z).
Context (IH : forall c s1 fl1 (Q : unit -> kstate -> Prop), owns h me ls (sy s1) -> kmem_ok s1 fl1 -> tables_only (mm s1) l c -> NoDup (tabs (mm s1) l c) ->
  (forall x, x ∈ tabs (mm s1) l c -> is_page (ld_end (ld s1)) x /\ x ∉ fl1) ->
  (forall s' fl', released s1 s' fl1 fl' (tabs (mm s1) l c) -> Q tt s') -> run (freewalk l c) s1 Q).
Abbreviation sub := (fun i => if pte_has (entry (mm s) t i) PTE_V then tabs (mm s) l (PTE2PA (entry (mm s) t i)) else []).
Context (Htab : tables_only (mm s) (S l) t) (Hnd : NoDup (tabs (mm s) (S l) t)) (Hpg : forall x, x ∈ tabs (mm s) (S l) t -> is_page (ld_end (ld s)) x /\ x ∉ fl).

(** After the entries of [pre]: their tables are free, and the other entries
    are as they were. *)
Definition visited (pre : list Z) (s' : kstate) : Prop := exists fl', owns h me ls (sy s') /\ vm_shape s s' /\ kmem_ok s' fl' /\
  (forall x, x ∈ fl' <-> x ∈ fl \/ x ∈ (pre ≫= sub)) /\
  forall a, page_of a ∉ (pre ≫= sub) -> (forall i, i ∈ pre -> ~ t + 8 * i <= a < t + 8 * i + 8) -> getb (mm s') a = getb (mm s) a.

(** The pages of entry [i] are not among those before it. *)
Lemma visit_split pre i post : seqZ 0 512 = pre ++ i :: post -> 0 <= i < 512 /\ (i ∉ pre) /\ (forall j, j ∈ pre -> 0 <= j < 512) /\ (t ∉ (pre ≫= sub)) /\ (t ∉ sub i) /\
  (forall x, x ∈ sub i -> x ∉ (pre ≫= sub)) /\ NoDup (sub i) /\ (forall x, x ∈ sub i -> is_page (ld_end (ld s)) x /\ x ∉ fl) /\ is_page (ld_end (ld s)) t /\ t ∉ fl.
Proof using Hnd Hpg.
  intros Hsp. pose proof (NoDup_seqZ 0 512) as N. assert (R : forall j, j ∈ seqZ 0 512 -> 0 <= j < 512) by (intros j Hj%elem_of_seqZ; lia).
  pose proof Hnd as Hnd'. pose proof Hpg as Hpg'. cbn [tabs] in Hnd', Hpg'. rewrite Hsp in N, R, Hnd', Hpg'. rewrite bind_app in Hnd', Hpg'. cbn [mbind list_bind] in Hnd', Hpg'.
  apply NoDup_app in N as (_ & N & _). apply NoDup_app in Hnd' as (Hnd1 & Hnt & _). apply NoDup_app in Hnd1 as (_ & Hdis & Hnd2). apply NoDup_app in Hnd2 as (Hnd2 & _ & _).
  assert (Hself : forall P : Prop, (t ∈ ((pre ≫= sub) ++ sub i ++ (post ≫= sub)) ++ [t] -> P) -> P) by (intros P HP; apply HP, elem_of_app; right; by apply list_elem_of_singleton).
  split; [apply R, elem_of_app; right; apply elem_of_cons; by left|]. split; [intros Hin; apply (N i Hin), elem_of_cons; by left|].
  split; [intros j Hj; apply R, elem_of_app; by left|]. split; [intros Hin; apply (Hnt t); [apply elem_of_app; by left|by apply list_elem_of_singleton]|].
  split; [intros Hin; apply (Hnt t); [apply elem_of_app; right; apply elem_of_app; by left|by apply list_elem_of_singleton]|].
  split; [intros x Hx Hp; apply (Hdis x Hp), elem_of_app; by left|]. split; [done|].
  split; [intros x Hx; apply Hpg', elem_of_app; left; apply elem_of_app; right; apply elem_of_app; by left|]. apply Hself, Hpg'.
Qed.

Lemma visited_entry pre i post s1 : seqZ 0 512 = pre ++ i :: post -> visited pre s1 -> entry (mm s1) t i = entry (mm s) t i.
Proof using Hnd Hpg.
  intros Hsp (fl1 & _ & _ & _ & _ & Hm1). destruct (visit_split pre i post Hsp) as (Hi & Hni & Hpre & Ht & _ & _ & _ & _ & [Hal _] & _).
  apply ldn_ext. intros b Hb. apply Hm1; [by rewrite (page_of_in t) by (done || lia)|]. intros j Hj Hr. assert (i = j) by lia. by subst.
Qed.

Lemma run_visit pre i post s1 : seqZ 0 512 = pre ++ i :: post -> visited pre s1 ->
  run (pte <- load64 (t + 8 * i) ;;
    if pte_has pte PTE_V && (Z.land pte 14 =? 0) then freewalk l (PTE2PA pte) ;; store64 (t + 8 * i) 0
    else if pte_has pte PTE_V then panic "freewalk: leaf" else ret tt) s1 (fun _ s2 => visited (pre ++ [i]) s2).
Proof using All.
  intros Hsp Hvis. pose proof (visited_entry pre i post s1 Hsp Hvis) as He. destruct Hvis as (fl1 & Ho1 & Hs1 & Hk1 & Hf1 & Hm1).
  destruct (visit_split pre i post Hsp) as (Hi & Hni & Hpre & Ht & Hti & Hdis & Hndi & Hpgi & Htp & Htf). unfold load64. wp. fold (entry (mm s1) t i). rewrite He.
  assert (Hsub : (pre ++ [i]) ≫= sub = (pre ≫= sub) ++ sub i) by (rewrite bind_app; cbn; by rewrite app_nil_r).
  pose proof (Htab i Hi) as Hti'. unfold visited. rewrite Hsub. destruct (pte_has (entry (mm s) t i) PTE_V) eqn:Hv.
  2: { cbn [andb]. wp. exists fl1. rewrite app_nil_r. split_and!; try done. intros a Ha Hb. apply Hm1; [done|]. intros j Hj. apply Hb, elem_of_app. by left. }
  destruct (Hti' eq_refl) as [-> Htc]. change (0 =? 0) with true. cbn [andb]. set (c := PTE2PA _) in *. wp.
  destruct (tabs_ext (mm s) (mm s1) l c) as [Htabs Hto].
  { intros x Hx. by apply Hpgi. }
  { intros a Ha. apply Hm1; [by apply Hdis|]. intros j Hj Hr. apply Hti. rewrite <-(page_of_in t a); [done|apply Htp|]. specialize (Hpre j Hj). lia. }
  assert (Hld : ld s1 = ld s) by by apply shape_ld.
  eapply (IH c s1 fl1); [done|done|by apply Hto|by rewrite Htabs| |].
  { intros x Hx. rewrite Htabs in Hx. rewrite Hld. split; [by apply Hpgi|]. rewrite Hf1. intros [Hin|Hin]; [by apply Hpgi in Hx as [_ ?]|]. by apply (Hdis x). }
  rewrite Htabs. intros s2 fl2 [R1 R2 R3 R4 R5]. unfold store64. wp. exists fl2. split_and!.
  - done.
  - apply vm_shape_mm. by eapply vm_shape_trans.
  - apply (kmem_store s2 fl2 t); [done|apply Htp| |lia|lia]. rewrite R4, Hf1. tauto.
  - intros x. rewrite R4, Hf1, elem_of_app. tauto.
  - cbn [mm set_mm]. intros a Ha Hb. rewrite elem_of_app in Ha. unfold st64.
    assert (Hbi : ~ t + 8 * i <= a < t + 8 * i + 8) by (apply Hb, elem_of_app; right; by apply list_elem_of_singleton).
    rewrite getb_stn_ne by lia. rewrite R5, Hm1; [done|tauto| |tauto]. intros j Hj. apply Hb, elem_of_app. by left.
Qed.
End table.

(** freewalk() frees every table below [t], once. *)
Lemma run_freewalk l : forall t s fl (Q : unit -> kstate -> Prop), owns h me ls (sy s) -> kmem_ok s fl -> tables_only (mm s) l t -> NoDup (tabs (mm s) l t) ->
  (forall x, x ∈ tabs (mm s) l t -> is_page (ld_end (ld s)) x /\ x ∉ fl) ->
  (forall s' fl', released s s' fl fl' (tabs (mm s) l t) -> Q tt s') -> run (freewalk l t) s Q.
Proof using Hls.
  induction l as [|l IH]; intros t s fl Q Ho Hk Htab Hnd Hpg HQ; cbn [freewalk]; apply run_bind.
  - eapply (run_iter_each _ _ s (fun _ s1 => s1 = s)); [done| |].
    + intros pre i post s1 Hsp ->. unfold load64. wp. fold (entry (mm s) t i). assert (Hi : 0 <= i < 512).
      { assert (Hin : i ∈ seqZ 0 512) by (rewrite Hsp; apply elem_of_app; right; apply elem_of_cons; by left). apply elem_of_seqZ in Hin. lia. }
      destruct (pte_has (entry (mm s) t i) PTE_V) eqn:Hv; [|by wp]. by destruct (Htab i Hi Hv).
    + intros s1 ->. destruct (Hpg t (tabs_self _ _ _)). by eapply run_release_page.
  - eapply (run_iter_each _ _ s (visited l t s fl)).
    + exists fl. split_and!; try done; [apply vm_shape_refl|]. intros x. cbn. rewrite elem_of_nil. tauto.
    + intros pre i post s1 Hsp Hvis. eapply (run_visit l t s fl IH Htab Hnd Hpg pre i post s1 Hsp Hvis).
    + intros s1 (fl1 & Ho1 & Hs1 & Hk1 & Hf1 & Hm1). destruct (Hpg t (tabs_self _ _ _)) as [Htp Htf].
      eapply run_release_page; [done|done|by rewrite (shape_ld _ _ Hs1)| |].
      { rewrite Hf1. intros [?|Hin]; [done|]. cbn [tabs] in Hnd. apply NoDup_app in Hnd as (_ & Hnd & _). apply (Hnd t Hin). by apply list_elem_of_singleton. }
      intros s2 fl2 [R1 R2 R3 R4 R5]. apply (HQ s2 fl2). cbn [tabs]. split; try done; [by eapply vm_shape_trans|..].
      * intros x. rewrite R4, Hf1, elem_of_app. tauto.
      * intros a Ha. rewrite elem_of_app in Ha. rewrite R5 by tauto. apply Hm1; [tauto|]. intros i Hi%elem_of_seqZ Hr. apply Ha. right. apply list_elem_of_singleton.
        apply page_of_in; [apply Htp|lia].
Qed.
End freewalk.

(** ** Making a page table *)

(** A zeroed page is a page table that maps nothing. *)
Lemma zero_ptree m pg : pg mod PGSIZE = 0 -> 0 < pg < 2 ^ 56 -> (forall i, 0 <= i < 512 -> entry m pg i = 0) -> ptree m pg {[pg := 2%nat]}.
Proof.
  intros Ha Hr Hz. assert (Hl : forall t l, ({[pg := 2%nat]} : gmap Z nat) !! t = Some l -> t = pg /\ l = 2%nat) by by intros t l [<- <-]%lookup_singleton_Some.
  split; [by apply lookup_singleton_eq|..].
  - by intros t l [-> ->]%Hl.
  - by intros t l [-> ->]%Hl.
  - intros t l i [-> [= ->]]%Hl Hi. by rewrite Hz.
  - intros t l i t' l' i' [-> [= ->]]%Hl Hi. by rewrite Hz.
  - intros t l i [-> [= ->]]%Hl Hi. by rewrite Hz.
  - by intros t l [-> ->]%Hl.
Qed.

Lemma memset_zero_entry m pg i : pg mod PGSIZE = 0 -> 0 <= i < 512 -> entry (CString.memset m pg 0 PGSIZE) pg i = 0.
Proof.
  intros Ha Hi. unfold entry. assert (Hz : forall n a, pg <= a -> a + Z.of_nat n <= pg + PGSIZE -> ldn n (CString.memset m pg 0 PGSIZE) a = 0).
  { induction n as [|n IH]; intros a H1 H2; [done|]. rewrite ldn_S, memset_page_filled, IH by lia. done. }
  apply Hz; lia.
Qed.

Lemma zero_unmapped m pg va : (forall i, 0 <= i < 512 -> entry m pg i = 0) -> pte_has (pte_of m pg va) PTE_V = false.
Proof. intros Hz. unfold pte_of, leaf, next. rewrite Hz by (apply PX_range; lia). done. Qed.

Section make.
Context (h : nat) (me : option nat) (ls : list lockid) (Hls : LKmem ∉ ls).

Lemma run_uvmcreate s pg fl (Q : Z -> kstate -> Prop) : owns h me ls (sy s) -> kmem_ok s (pg :: fl) ->
  (forall s', owns h me ls (sy s') -> vm_shape s s' -> vm_ok s' pg {[pg := 2%nat]} fl -> same_but_page pg (mm s) (mm s') ->
     (forall va, pte_has (pte_of (mm s') pg va) PTE_V = false) -> Q pg s') -> run uvmcreate s Q.
Proof using Hls.
  intros Ho Hk HQ. pose proof Hk as [_ _ [Hn _]%NoDup_cons [Hpg _]%Forall_cons]. pose proof (km_end _ _ Hk). destruct (is_page_range _ _ ltac:(done) Hpg) as [Ha Hr].
  unfold uvmcreate. apply run_bind. eapply run_mono; [by eapply kalloc_some|]. intros r s1 (-> & Hk1 & Ho1 & _ & Hsame & Hsh). destruct (Z.eqb_spec pg 0); [lia|]. unfold k_memset. wp.
  pose proof (memset_page_same pg 0 (mm s1)) as Hs2. apply HQ; cbn [sy mm set_mm].
  - done.
  - by apply vm_shape_mm.
  - split; [apply zero_ptree; try done; intros i Hi; by apply memset_zero_entry|by apply (kmem_other_page s1 fl pg)|].
    intros x Hx. apply lookup_singleton_ne. by intros ->.
  - intros a Hna. rewrite Hs2 by done. by apply Hsame.
  - intros va. apply zero_unmapped. intros i Hi. by apply memset_zero_entry.
Qed.

(** ** Unmapping and freeing *)

(** uvmunmap() of one page that is not a user page, without freeing it. *)
Lemma run_unmap_keep s root lv fl um q pa g (Q : unit -> kstate -> Prop) : owns h me ls (sy s) -> uvm_ok s root lv fl um -> um !! q = None ->
  0 <= q -> (q + 1) * PGSIZE <= MAXVA -> pte_of (mm s) root (q * PGSIZE) = leaf_pte pa g -> pa mod PGSIZE = 0 -> 0 <= pa < 2 ^ 56 -> user_flags g ->
  (forall s', owns h me ls (sy s') -> vm_shape s s' -> uvm_ok s' root lv fl um -> (forall va, vget (mm s') um va = vget (mm s) um va) ->
     (forall a, lv !! page_of a = None -> getb (mm s') a = getb (mm s) a) ->
     (forall va, 0 <= va < MAXVA -> pte_of (mm s') root va = if bool_decide (va / PGSIZE = q) then 0 else pte_of (mm s) root va) -> Q tt s') ->
  run (uvmunmap root (q * PGSIZE) PGSIZE false) s Q.
Proof.
  intros Ho Hok Hq Hq0 Hq1 Hpt Ha Hr [Hg Hgv] HQ. pose proof (uo_vm _ _ _ _ _ Hok) as [HT _ _]. unfold uvmunmap.
  assert (Hd : PGROUNDDOWN (q * PGSIZE) = q * PGSIZE) by (apply PGROUNDDOWN_aligned, Z.mod_mul; lia).
  assert (Hl : PGROUNDDOWN (u64 (q * PGSIZE + PGSIZE - 1)) = q * PGSIZE).
  { rewrite u64_small by lia. rewrite PGROUNDDOWN_page. f_equal. symmetry. apply Z.div_unique_pos with (PGSIZE - 1); lia. }
  rewrite Hd, Hl. unfold range_fuel. destruct (Z.leb_spec (q * PGSIZE) (q * PGSIZE)); [|lia]. rewrite Z.sub_diag. cbn [loop Z.to_nat]. change (0 / PGSIZE) with 0. cbn [loop Z.to_nat]. apply run_bind.
  assert (exists r, leaf (mm s) root (q * PGSIZE) = Some r) as [r Hleaf].
  { unfold pte_of in Hpt. destruct (leaf (mm s) root (q * PGSIZE)) as [r|]; [by exists r|]. exfalso. pose proof (leaf_pte_valid pa g) as Hv. rewrite <-Hpt in Hv. discriminate Hv; lia. }
  assert (Hr0 : r <> 0) by by eapply leaf_nonzero. assert (Hld : ld64 (mm s) r = leaf_pte pa g) by (unfold pte_of in Hpt; by rewrite Hleaf in Hpt).
  apply run_bind. eapply run_walk; [lia|done|]. destruct (Z.eqb_spec r 0); [done|]. unfold load64, store64. wp.
  rewrite Hld, leaf_pte_valid, leaf_pte_flags by (done || lia). cbn [negb]. destruct (Z.eqb_spec (Z.lor g PTE_V) PTE_V); [done|]. unfold when. wp. rewrite Z.eqb_refl. wp.
  pose proof (remapped_store root s lv fl (q * PGSIZE) r 0 (uo_vm _ _ _ _ _ Hok) ltac:(lia) Hleaf ltac:(lia)) as Hst.
  set (s2 := set_mm _ s) in *. assert (Hs2 : vm_shape s s2) by apply Hst. rewrite Z.div_mul in Hst by lia.
  destruct (uvm_remapped s s2 root lv um Hs2 _ _ _ _ Hok Hst) as (Hok2 & Hv2 & _).
  { intros vp' [x Hx]. rewrite Z.div_mul, bool_decide_false by (lia || congruence). done. }
  apply HQ; try done; apply Hst.
Qed.

(** uvmfree() of an address space with nothing but user pages: all its pages
    are free. *)
Lemma run_uvmfree s root lv fl um sz (Q : unit -> kstate -> Prop) : owns h me ls (sy s) -> uvm_ok s root lv fl um ->
  (forall t, is_Some (lv !! t) -> is_page (ld_end (ld s)) t) -> 0 < sz <= MAXVA -> (forall vp, is_Some (um !! vp) <-> 0 <= vp < pages sz) ->
  (forall va, 0 <= va < MAXVA -> kpte (mm s) root um va = None) ->
  (forall s' fl', owns h me ls (sy s') -> vm_shape s s' -> kmem_ok s' fl' -> (forall x, x ∈ fl' <-> x ∈ owned lv fl um) ->
     (forall a, page_of a ∉ owned lv fl um -> getb (mm s') a = getb (mm s) a) -> Q tt s') ->
  run (uvmfree root sz) s Q.
Proof.
  intros Ho Hok Htab Hsz Hum Hk HQ. unfold uvmfree. apply run_bind. assert (Hp : 0 < pages sz) by (pose proof (pages_bounds sz); lia).
  eapply (run_uvmunmap h me ls Hls root s lv fl um 0 (Z.to_nat (pages sz))); [done|done|lia| |done| |].
  { intros i Hi. apply Hum. lia. }
  { rewrite Z.add_0_l, Z2Nat.id by lia. by apply pages_last. }
  intros s1 (fl1 & He & _). assert (Hdel : um_del um 0 (Z.to_nat (pages sz)) = ∅).
  { apply map_eq. intros vp. rewrite um_del_lookup, lookup_empty, Z.add_0_l, Z2Nat.id by lia. case_bool_decide as Hb; [done|].
    destruct (um !! vp) eqn:E; [|done]. exfalso. apply Hb, Hum. by rewrite E. }
  rewrite Hdel in He. pose proof (uo_vm _ _ _ _ _ (ev_ok _ _ _ _ _ _ _ _ _ _ _ _ He)) as [HT1 Hk1 Hf1]. pose proof (shape_ld _ _ (ev_shape _ _ _ _ _ _ _ _ _ _ _ _ He)) as Hld.
  assert (Hun : forall va, 0 <= va < MAXVA -> pte_has (pte_of (mm s1) root va) PTE_V = false).
  { intros va Hva. pose proof (ev_kpte _ _ _ _ _ _ _ _ _ _ _ _ He va Hva) as Hkp. rewrite Hk in Hkp by done. unfold kpte in Hkp. rewrite lookup_empty in Hkp.
    by destruct (pte_has _ _). }
  eapply (run_freewalk h me ls Hls 2 root s1 fl1); [apply He|done|by apply (tables_only_level _ root lv HT1), HT1|by apply (tabs_NoDup _ root lv HT1), HT1| |].
  { intros x Hx%(tabs_all _ root lv HT1). rewrite Hld. split; [by apply Htab|]. intros Hin. rewrite (Hf1 x Hin) in Hx. by destruct Hx. }
  assert (Hown : forall x, x ∈ owned lv fl um <-> x ∈ fl1 \/ x ∈ tabs (mm s1) 2 root).
  { intros x. rewrite <-(ev_owned _ _ _ _ _ _ _ _ _ _ _ _ He), elem_of_owned, <-(tabs_all _ root lv HT1). split; [intros [?|[?|(vp & g & ?)]]|]; [tauto|tauto|by rewrite lookup_empty in *|tauto]. }
  intros s2 fl2 [R1 R2 R3 R4 R5]. apply (HQ s2 fl2); try done.
  - eapply vm_shape_trans; [apply He|done].
  - intros x. by rewrite R4, Hown.
  - intros a Ha. rewrite R5; [by apply He|]. rewrite Hown in Ha. tauto.
Qed.
End make.

End PageFree.
