(* ===== verification/AddressSpace.v ===== *)
(** * Address spaces: the theorems on kernel/vm.c

    The statements on mappages, uvmunmap, uvmalloc, uvmcopy, copyout and
    copyin, each with a concrete machine on which it applies: a parent page
    table with one mapped page, an empty child page table, and seven free
    pages. *)

From S2P Require Import Prelude Bytes CString KState Spinlock Kernel Riscv Machine Kalloc Vm PageTable Uvm Uvmcopy.

Module AddressSpace.
Import Kalloc Vm PageTable Uvm Uvmcopy.

(** ** A concrete machine *)

Definition P (i : Z) : Z := PHYSTOP - i * PGSIZE.

Definition parent : Z := P 1.
Definition child : Z := P 5.
Definition free_pages : list Z := [P 6; P 7; P 8; P 9; P 10; P 11; P 12].

(** The parent's three tables; the free list links. *)
Definition vm_memory : mem :=
  let m := st64 ∅ (P 1) (Z.lor (PA2PTE (P 2)) PTE_V) in
  let m := st64 m (P 2) (Z.lor (PA2PTE (P 3)) PTE_V) in
  let m := st64 m (P 3) (leaf_pte (P 4) PTE_WRXU) in
  let m := st64 m (P 4 + 8) 42 in
  foldr (fun '(p, q) m => st64 m p q) m (zip free_pages (tail free_pages ++ [0])).

Definition vm_machine : kstate := set_mm vm_memory (set_freelist (P 6) Machine.machine).

Definition parent_tables : gmap Z nat := {[ P 1 := 2%nat; P 2 := 1%nat; P 3 := 0%nat ]}.
Definition parent_pages : umap := {[ 0 := (P 4, PTE_WRXU) ]}.
Definition child_tables : gmap Z nat := {[ P 5 := 2%nat ]}.

Lemma vm_machine_kmem : kmem_ok vm_machine free_pages.
Proof.
  split; [done|..].
  - vm_compute. repeat split.
  - apply (bool_decide_unpack _). vm_compute. exact I.
  - repeat constructor; vm_compute; done.
Qed.

Lemma table_entries : Forall (fun i => entry vm_memory (P 5) i = 0 /\
    (i <> 0 -> entry vm_memory (P 1) i = 0 /\ entry vm_memory (P 2) i = 0 /\ entry vm_memory (P 3) i = 0)) (seqZ 0 512).
Proof. apply (bool_decide_unpack _). vm_compute. exact I. Qed.

#[local] Opaque vm_memory.

Lemma entry_child i : 0 <= i < 512 -> entry vm_memory (P 5) i = 0.
Proof. intros Hi. pose proof table_entries as T. eapply Forall_forall in T as [H _]; [exact H|]. apply elem_of_seqZ. lia. Qed.

Lemma entry_parent i : 0 <= i < 512 -> i <> 0 ->
  entry vm_memory (P 1) i = 0 /\ entry vm_memory (P 2) i = 0 /\ entry vm_memory (P 3) i = 0.
Proof. intros Hi Hne. pose proof table_entries as T. eapply Forall_forall in T as [_ H]; [by apply H|]. apply elem_of_seqZ. lia. Qed.

(** The only valid entries of the parent's upper tables are the first ones. *)
Lemma parent_valid t l i : parent_tables !! t = Some (S l) -> 0 <= i < 512 -> pte_has (entry vm_memory t i) PTE_V = true ->
  i = 0 /\ (t = P 1 /\ l = 1%nat /\ PTE2PA (entry vm_memory t i) = P 2 \/
            t = P 2 /\ l = 0%nat /\ PTE2PA (entry vm_memory t i) = P 3).
Proof.
  intros Ht Hi Hv. unfold parent_tables in Ht.
  apply lookup_insert_Some in Ht as [[<- [= <-]]|[_ Ht]].
  { destruct (decide (i = 0)) as [->|Hne]; [split; [done|]; left; split_and!; vm_compute; done|].
    destruct (entry_parent i Hi Hne) as [E _]. by rewrite E in Hv. }
  apply lookup_insert_Some in Ht as [[<- [= <-]]|[_ Ht]].
  { destruct (decide (i = 0)) as [->|Hne]; [split; [done|]; right; split_and!; vm_compute; done|].
    destruct (entry_parent i Hi Hne) as (_ & E & _). by rewrite E in Hv. }
  by apply lookup_singleton_Some in Ht as [_ [=]].
Qed.

Lemma P_inj i j : P i = P j -> i = j.
Proof. unfold P. lia. Qed.

Lemma P_page i : 0 < i < 100 -> P i mod PGSIZE = 0 /\ 0 < P i < 2 ^ 56.
Proof. intros Hi. unfold P. split; [|lia]. change PHYSTOP with (557056 * PGSIZE). rewrite <-Z.mul_sub_distr_r. apply Z.mod_mul. lia. Qed.

Lemma tables_page lv t l : lv !! t = Some l -> lv = parent_tables \/ lv = child_tables ->
  exists i, 0 < i < 6 /\ t = P i /\ (l <= 2)%nat /\ (l = 2%nat -> lv = parent_tables /\ i = 1 \/ lv = child_tables /\ i = 5).
Proof.
  intros Ht [->| ->].
  - unfold parent_tables in Ht. apply lookup_insert_Some in Ht as [[<- <-]|[_ Ht]]; [exists 1; split_and!; (done || lia || auto)|].
    apply lookup_insert_Some in Ht as [[<- <-]|[_ Ht]]; [exists 2; split_and!; (done || lia)|].
    apply lookup_singleton_Some in Ht as [<- <-]. exists 3; split_and!; (done || lia).
  - unfold child_tables in Ht. apply lookup_singleton_Some in Ht as [<- <-]. exists 5; split_and!; (done || lia || auto).
Qed.

Lemma parent_tree : ptree vm_memory parent parent_tables.
Proof.
  split.
  - done.
  - intros t l Ht. destruct (tables_page _ _ _ Ht (or_introl eq_refl)) as (i & Hi & -> & Hl & Htop). split; [done|].
    intros Hl2. destruct (Htop Hl2) as [[_ ->]|[Hx _]]; [done|]. exfalso. apply (f_equal (lookup (P 1))) in Hx. by vm_compute in Hx.
  - intros t l Ht. destruct (tables_page _ _ _ Ht (or_introl eq_refl)) as (i & Hi & -> & _). apply P_page. lia.
  - intros t l i Ht Hi Hv. by destruct (parent_valid _ _ _ Ht Hi Hv) as [_ [(-> & -> & ->)|(-> & -> & ->)]].
  - intros t l i t' l' i' Ht Hi Hv Ht' Hi' Hv' Heq.
    destruct (parent_valid _ _ _ Ht Hi Hv) as [Ei Hc]. destruct (parent_valid _ _ _ Ht' Hi' Hv') as [Ei' Hc'].
    split; [|lia]. destruct Hc as [(A & _ & B)|(A & _ & B)]; destruct Hc' as [(A' & _ & B')|(A' & _ & B')];
      pose proof (P_inj _ _ (eq_trans (eq_sym B) (eq_trans Heq B'))); try lia; by rewrite A, A'.
  - intros t l i Ht Hi Hv. destruct (parent_valid _ _ _ Ht Hi Hv) as [-> [(-> & _ & _)|(-> & _ & _)]]; (split; [by vm_compute|lia]).
  - intros t l Ht Hr. destruct (tables_page _ _ _ Ht (or_introl eq_refl)) as (i & Hi & -> & _). assert (i = 2 \/ i = 3) as [->| ->].
    { assert (i = 1 \/ i = 2 \/ i = 3 \/ i = 4 \/ i = 5) as [->|[->|[->|[->| ->]]]] by lia; try tauto; by vm_compute in Ht. }
    + exists (P 1), 0. assert (l = 1%nat) as -> by (vm_compute in Ht; congruence). split_and!; try done; vm_compute; done.
    + exists (P 2), 0. assert (l = 0%nat) as -> by (vm_compute in Ht; congruence). split_and!; try done; vm_compute; done.
Qed.

Lemma child_tree : ptree vm_memory child child_tables.
Proof.
  assert (Hc : forall t l, child_tables !! t = Some l -> t = P 5 /\ l = 2%nat).
  { unfold child_tables. intros t l Ht. by apply lookup_singleton_Some in Ht as [<- <-]. }
  split.
  - done.
  - intros t l Ht. destruct (Hc _ _ Ht) as [-> ->]. done.
  - intros t l Ht. destruct (Hc _ _ Ht) as [-> ->]. by apply P_page.
  - intros t l i Ht Hi Hv. destruct (Hc _ _ Ht) as [-> _]. by rewrite entry_child in Hv.
  - intros t l i t' l' i' Ht Hi Hv. destruct (Hc _ _ Ht) as [-> _]. by rewrite entry_child in Hv.
  - intros t l i Ht Hi Hv. destruct (Hc _ _ Ht) as [-> _]. by rewrite entry_child in Hv.
  - intros t l Ht Hr. by destruct (Hc _ _ Ht) as [-> _].
Qed.

Lemma parent_ok : uvm_ok vm_machine parent parent_tables free_pages parent_pages.
Proof.
  assert (Hp : forall vp fr g, parent_pages !! vp = Some (fr, g) -> vp = 0 /\ fr = P 4 /\ g = PTE_WRXU).
  { unfold parent_pages. by intros vp fr g [<- [= <- <-]]%lookup_singleton_Some. }
  split.
  - split; [apply parent_tree|apply vm_machine_kmem|].
    apply Forall_forall. by repeat constructor.
  - intros vp fr g (-> & -> & ->)%Hp. split_and!; try lia; vm_compute; done.
  - intros vp fr g (-> & -> & ->)%Hp. split_and!; [by split|apply (bool_decide_unpack _); vm_compute; exact I|done].
  - by intros vp vp' fr g g' (-> & _)%Hp (-> & _)%Hp.
Qed.

Lemma child_ok : uvm_ok vm_machine child child_tables free_pages ∅.
Proof.
  split; [|by intros ??? ?%lookup_empty_Some|by intros ??? ?%lookup_empty_Some|by intros ????? ?%lookup_empty_Some].
  split; [apply child_tree|apply vm_machine_kmem|]. apply Forall_forall. by repeat constructor.
Qed.

Lemma child_unmapped va : pte_has (pte_of vm_memory child va) PTE_V = false.
Proof. unfold pte_of, leaf, next. rewrite entry_child by (apply PX_range; lia). done. Qed.

(** ** The theorems *)

(** Uvmalloc() grows an address space from [oldsz] to [newsz] with zeroed
    pages, keeping the contents of the old ones; when memory runs out (which
    takes fewer than three free pages per page asked for) it returns 0 and the
    address space is as before.  In both cases no page is lost: the page table,
    the free list and the user pages hold between them what they held, and
    no other memory changes. *)
Theorem uvmalloc_correct h me ls s root lv fl um oldsz newsz :
  LKmem ∉ ls -> owns h me ls (sy s) -> uvm_ok s root lv fl um ->
  0 <= oldsz <= newsz -> newsz <= MAXVA ->
  (forall vp, pages oldsz <= vp < pages newsz ->
     um !! vp = None /\ pte_has (pte_of (mm s) root (vp * PGSIZE)) PTE_V = false) ->
  run (uvmalloc root oldsz newsz) s (fun r s' => exists lv' fl' um',
    evolves h me ls root s s' lv lv' fl fl' um um' /\
    (r = newsz /\
       (forall vp, pages oldsz <= vp < pages newsz -> exists fr, um' !! vp = Some (fr, PTE_WRXU)) /\
       (forall va, vget (mm s') um' va =
          if bool_decide (pages oldsz <= va / PGSIZE < pages newsz) then Some 0 else vget (mm s) um va) \/
     r = 0 /\ um' = um /\ (forall va, vget (mm s') um va = vget (mm s) um va) /\
       Z.of_nat (length fl) < 3 * (pages newsz - pages oldsz))).
Proof.
  intros Hls Ho Hok Hsz Hmax Hfree. assert (pages oldsz <= pages newsz) by (apply Z.div_le_mono; lia).
  apply (run_uvmalloc h me ls Hls root s lv fl um oldsz newsz Ho Hok Hsz Hmax Hfree).
  - intros s' (lv' & fl' & um' & He & _ & Hmap & Hv & _). rewrite Z2Nat.id, Zplus_minus in * by lia.
    exists lv', fl', um'. split; [done|]. left. split_and!; [done| |].
    + intros vp Hvp. apply Hmap. lia.
    + intros va. by rewrite Hv.
  - intros s' (lv' & fl' & He & Hv & Hlen). exists lv', fl', um. split; [done|]. right. split_and!; try done. lia.
Qed.

Lemma uvmalloc_correct_witness :
  run (uvmalloc child 0 5000) vm_machine (fun r s' => exists lv' fl' um',
    evolves 0 (Some 0%nat) [] child vm_machine s' child_tables lv' free_pages fl' ∅ um' /\
    (r = 5000 /\
       (forall vp, pages 0 <= vp < pages 5000 -> exists fr, um' !! vp = Some (fr, PTE_WRXU)) /\
       (forall va, vget (mm s') um' va =
          if bool_decide (pages 0 <= va / PGSIZE < pages 5000) then Some 0 else vget (mm vm_machine) ∅ va) \/
     r = 0 /\ um' = ∅ /\ (forall va, vget (mm s') ∅ va = vget (mm vm_machine) ∅ va) /\
       Z.of_nat (length free_pages) < 3 * (pages 5000 - pages 0))).
Proof.
  apply (uvmalloc_correct 0 (Some 0%nat) [] vm_machine child child_tables free_pages ∅ 0 5000).
  - apply not_elem_of_nil.
  - apply Machine.owns_machine.
  - apply child_ok.
  - lia.
  - lia.
  - intros vp _. split; [done|]. apply child_unmapped.
Defined.

(** Uvmunmap() with do_free takes the pages of a mapped range out of the
    address space and puts their frames on the free list; the other user
    pages keep their contents and no page is lost. *)
Theorem uvmunmap_correct h me ls s root lv fl um q n va size :
  LKmem ∉ ls -> owns h me ls (sy s) -> uvm_ok s root lv fl um -> (0 < n)%nat ->
  (forall i, (i < n)%nat -> is_Some (um !! (q + Z.of_nat i))) ->
  PGROUNDDOWN va = q * PGSIZE -> PGROUNDDOWN (u64 (va + size - 1)) = (q + Z.of_nat n - 1) * PGSIZE ->
  run (uvmunmap root va size true) s (fun _ s' => exists fl',
    evolves h me ls root s s' lv lv fl fl' um (um_del um q n) /\
    forall va, vget (mm s') (um_del um q n) va =
      if bool_decide (q <= va / PGSIZE < q + Z.of_nat n) then None else vget (mm s) um va).
Proof.
  intros Hls Ho Hok Hn Hmap Ha Hlast. eapply run_uvmunmap; try done.
  intros s' (fl' & He & Hv). exists fl'. split; [done|]. intros va'. by rewrite Hv, vget_del.
Qed.

Lemma uvmunmap_correct_witness :
  run (uvmunmap parent 0 PGSIZE true) vm_machine (fun _ s' => exists fl',
    evolves 0 (Some 0%nat) [] parent vm_machine s' parent_tables parent_tables free_pages fl' parent_pages (um_del parent_pages 0 1) /\
    forall va, vget (mm s') (um_del parent_pages 0 1) va =
      if bool_decide (0 <= va / PGSIZE < 0 + Z.of_nat 1) then None else vget (mm vm_machine) parent_pages va).
Proof.
  apply (uvmunmap_correct 0 (Some 0%nat) [] vm_machine parent parent_tables free_pages parent_pages 0 1 0 PGSIZE).
  - apply not_elem_of_nil.
  - apply Machine.owns_machine.
  - apply parent_ok.
  - lia.
  - intros i Hi. assert (i = 0%nat) as -> by lia. by eexists.
  - done.
  - done.
Defined.

(** Uvmcopy() gives the child a copy of the parent's first [sz] bytes, page
    by page in fresh frames, or returns -1 and leaves the child's address space
    as it was.  The parent's address space is unchanged, and the child's
    pages are those it had and those taken from the free list.  At
    least three free pages are assumed; see [uvmcopy_no_memory_panics]. *)
Theorem uvmcopy_correct h me ls s old new lvo lv fl umo um sz :
  LKmem ∉ ls -> owns h me ls (sy s) -> uvm_ok s old lvo fl umo -> uvm_ok s new lv fl um ->
  apart lvo umo lv um -> 0 <= sz <= MAXVA -> (forall vp, 0 <= vp < pages sz -> is_Some (umo !! vp)) ->
  (forall vp, 0 <= vp < pages sz -> um !! vp = None /\ pte_has (pte_of (mm s) new (vp * PGSIZE)) PTE_V = false) ->
  (3 <= length fl)%nat ->
  run (uvmcopy old new sz) s (fun r s' => exists lv' fl' um',
    evolves h me ls new s s' lv lv' fl fl' um um' /\
    uvm_ok s' old lvo fl' umo /\ (forall va, vget (mm s') umo va = vget (mm s) umo va) /\
    (r = 0 /\
       (forall vp fr g, 0 <= vp < pages sz -> umo !! vp = Some (fr, g) -> exists fr', um' !! vp = Some (fr', Z.lor g PTE_V)) /\
       (forall va, vget (mm s') um' va =
          if bool_decide (0 <= va / PGSIZE < pages sz) then vget (mm s) umo va else vget (mm s) um va) \/
     r = -1 /\ um' = um /\ (forall va, vget (mm s') um va = vget (mm s) um va) /\
       Z.of_nat (length fl) < 3 * pages sz)).
Proof.
  intros Hls Ho Hold Hnew Hap Hsz Hmap Hfree Hlen3. assert (0 <= pages sz) by (apply Z.div_pos; lia).
  eapply (run_uvmcopy h me ls Hls s old new lvo lv fl umo um sz); try done.
  - intros s' lv' fl' um' (He & _ & _ & Hfl & Hv & _). rewrite Z2Nat.id in * by done. exists lv', fl', um'. split; [done|].
    destruct (other_space _ _ _ _ _ _ _ _ _ _ _ _ _ _ _ Hold Hap He) as (Hold' & Hvo & _). split; [done|]. split; [done|].
    left. done.
  - intros s' (lv' & fl' & He & Hv & Hlen). exists lv', fl', um. split; [done|].
    destruct (other_space _ _ _ _ _ _ _ _ _ _ _ _ _ _ _ Hold Hap He) as (Hold' & Hvo & _). split; [done|]. split; [done|].
    right. split_and!; try done. lia.
Qed.

Lemma parent_child_apart : apart parent_tables parent_pages child_tables ∅.
Proof.
  intros x Hx. split; [|intros (vp & g & H)%elem_of_frames; by rewrite lookup_empty in H].
  unfold child_tables. apply lookup_singleton_None. intros <-. destruct Hx as [[l Hl]|(vp & g & H)%elem_of_frames].
  - destruct (tables_page _ _ _ Hl (or_introl eq_refl)) as (i & Hi & E & _). apply P_inj in E as <-. by vm_compute in Hl.
  - unfold parent_pages in H. by apply lookup_singleton_Some in H as [_ [=]].
Qed.

Lemma uvmcopy_correct_witness :
  run (uvmcopy parent child 100) vm_machine (fun r s' => exists lv' fl' um',
    evolves 0 (Some 0%nat) [] child vm_machine s' child_tables lv' free_pages fl' ∅ um' /\
    uvm_ok s' parent parent_tables fl' parent_pages /\
    (forall va, vget (mm s') parent_pages va = vget (mm vm_machine) parent_pages va) /\
    (r = 0 /\
       (forall vp fr g, 0 <= vp < pages 100 -> parent_pages !! vp = Some (fr, g) -> exists fr', um' !! vp = Some (fr', Z.lor g PTE_V)) /\
       (forall va, vget (mm s') um' va =
          if bool_decide (0 <= va / PGSIZE < pages 100) then vget (mm vm_machine) parent_pages va else vget (mm vm_machine) ∅ va) \/
     r = -1 /\ um' = ∅ /\ (forall va, vget (mm s') ∅ va = vget (mm vm_machine) ∅ va) /\
       Z.of_nat (length free_pages) < 3 * pages 100)).
Proof.
  apply (uvmcopy_correct 0 (Some 0%nat) [] vm_machine parent child parent_tables child_tables free_pages parent_pages ∅ 100).
  - apply not_elem_of_nil.
  - apply Machine.owns_machine.
  - apply parent_ok.
  - apply child_ok.
  - apply parent_child_apart.
  - lia.
  - intros vp Hvp. assert (vp = 0) as -> by (change (pages 100) with 1 in Hvp; lia). by eexists.
  - intros vp _. split; [done|]. apply child_unmapped.
  - cbn. lia.
Defined.

(** *** fork() without memory *)

Definition panics {A} (m : K A) (s : kstate) : Prop := exists msg, m s = Panic msg.

Lemma panics_then {A B} (m : K A) (k : A -> K B) s : run m s (fun a s' => panics (k a) s') -> panics (bind m k) s.
Proof. unfold run, panics, bind. destruct (m s); try done. Qed.
Lemma panics_first {A B} (m : K A) (k : A -> K B) s : panics m s -> panics (bind m k) s.
Proof. unfold panics, bind. intros [msg ->]. by exists msg. Qed.

(** uvmunmap(pagetable, 0, 0) does not unmap an empty range: it starts at
    page 0. *)
Lemma uvmunmap_nothing_panics s root : pte_has (pte_of (mm s) root 0) PTE_V = false -> panics (uvmunmap root 0 0 true) s.
Proof.
  intros Hinv. unfold uvmunmap. change (PGROUNDDOWN 0) with 0. set (last := PGROUNDDOWN _).
  assert (exists f, range_fuel 0 last = S f) as [f ->].
  { unfold range_fuel. change (0 <=? last) with true. by eexists. }
  cbn [loop]. apply panics_first, panics_then. eapply run_walk_lookup; [lia|]. unfold pte_of in Hinv.
  destruct (leaf (mm s) root 0) as [r|]; [change (default 0 (Some r)) with r|by eexists].
  destruct (Z.eqb_spec r 0); [by eexists|]. apply panics_then. unfold load64. wp. rewrite Hinv. by eexists.
Qed.

(** C39: when no page is free at all, uvmcopy() (and so fork()) panics instead
    of returning -1: the error path calls uvmunmap(new, 0, 0, 1), and
    uvmunmap() does not accept an empty range. *)
Theorem uvmcopy_no_memory_panics h me ls s old new lvo umo sz :
  LKmem ∉ ls -> owns h me ls (sy s) -> uvm_ok s old lvo [] umo -> 0 < sz <= MAXVA ->
  is_Some (umo !! 0) -> pte_has (pte_of (mm s) new 0) PTE_V = false ->
  panics (uvmcopy old new sz) s.
Proof.
  intros Hls Ho Hold Hsz [[fr g] Hvp] Hinv. destruct (uo_pte _ _ _ _ _ Hold _ _ _ Hvp) as (Hr & [Hg Hgv] & _).
  destruct (uo_frame _ _ _ _ _ Hold _ _ _ Hvp) as (Hpg & _).
  destruct (is_page_range _ _ (km_end _ _ (vo_kmem _ _ _ _ (uo_vm _ _ _ _ _ Hold))) Hpg) as [Hal Hfr].
  destruct (user_leaf _ _ _ _ _ _ _ _ Hold Hvp) as (r & Hr0 & Hleaf & Hld).
  unfold uvmcopy. apply panics_then. cbn [loop]. apply run_bind. destruct (Z.ltb_spec 0 sz); [|lia].
  apply run_bind. eapply run_walk; [lia|exact Hleaf|]. destruct (Z.eqb_spec r 0); [done|]. unfold load64. wp.
  rewrite Hld, leaf_pte_valid by (done || lia). cbn [negb]. apply run_bind.
  eapply run_mono; [eapply kalloc_none; [done|done|apply Hold]|]. intros a s' (-> & Ho' & y & ->).
  change (0 =? 0) with true. cbv iota. wp. apply panics_first. by apply uvmunmap_nothing_panics.
Qed.

(** The machine with its free list empty. *)
Definition full_machine : kstate := set_freelist 0 vm_machine.

Lemma full_machine_ok : uvm_ok full_machine parent parent_tables [] parent_pages.
Proof.
  destruct parent_ok as [[HT [He _ _ _] _] Hp Hf Hi]. split; [|exact Hp| |exact Hi].
  - split; [exact HT| |by intros ? ?%elem_of_nil]. split; [exact He|done|constructor|constructor].
  - intros vp fr g H. destruct (Hf _ _ _ H) as (? & _ & ?). split_and!; [done|apply not_elem_of_nil|done].
Qed.

Lemma uvmcopy_no_memory_panics_witness : panics (uvmcopy parent child 100) full_machine.
Proof.
  apply (uvmcopy_no_memory_panics 0 (Some 0%nat) [] full_machine parent child parent_tables parent_pages 100).
  - apply not_elem_of_nil.
  - apply Machine.owns_machine.
  - apply full_machine_ok.
  - lia.
  - by eexists.
  - apply child_unmapped.
Defined.

(** *** Mapping and copying *)

(** mappages() on [n] unmapped pages maps page [q + i] to [pa + i * PGSIZE]
    with the given permissions, or returns -1 when the free list is used up
    (fewer than two free pages per page asked for).  No other address
    changes its translation, and memory outside the page table's own pages
    is untouched. *)
Theorem mappages_correct h me ls s root lv fl q n va size pa perm :
  LKmem ∉ ls -> owns h me ls (sy s) -> vm_ok s root lv fl ->
  0 <= q -> (q + Z.of_nat n) * PGSIZE <= MAXVA -> (0 < n)%nat ->
  0 <= pa /\ pa + Z.of_nat n * PGSIZE <= 2 ^ 56 -> 0 <= perm < 1024 ->
  (forall va, q <= va / PGSIZE < q + Z.of_nat n -> pte_has (pte_of (mm s) root va) PTE_V = false) ->
  PGROUNDDOWN va = q * PGSIZE -> PGROUNDDOWN (u64 (va + size - 1)) = (q + Z.of_nat n - 1) * PGSIZE ->
  run (mappages root va size pa perm) s (fun r s' => exists lv' fl' k,
    owns h me ls (sy s') /\
    remapped root s s' lv lv' fl fl' (map_range (pte_of (mm s) root) q k pa perm) /\
    (r = 0 /\ k = n \/ r = -1 /\ (k < n)%nat /\ fl' = [] /\ (length fl < 2 * n)%nat)).
Proof.
  intros Hls Ho Hok Hq Hqn Hn Hpa Hperm Hfree Ha Hlast.
  eapply (run_mappages_pages h me ls Hls s root lv fl q pa perm n); try done.
  - intros s' lv' fl' Ho' Hr _. exists lv', fl', n. auto.
  - intros k s' lv' Hk Ho' Hr Hlen. exists lv', [], k. auto 8.
Qed.

Lemma mappages_correct_witness :
  run (mappages child 100 8000 (P 20) PTE_R) vm_machine (fun r s' => exists lv' fl' k,
    owns 0 (Some 0%nat) [] (sy s') /\
    remapped child vm_machine s' child_tables lv' free_pages fl' (map_range (pte_of (mm vm_machine) child) 0 k (P 20) PTE_R) /\
    (r = 0 /\ k = 2%nat \/ r = -1 /\ (k < 2)%nat /\ fl' = [] /\ (length free_pages < 2 * 2)%nat)).
Proof.
  apply (mappages_correct 0 (Some 0%nat) [] vm_machine child child_tables free_pages 0 2 100 8000 (P 20) PTE_R).
  - apply not_elem_of_nil.
  - apply Machine.owns_machine.
  - apply child_ok.
  - lia.
  - lia.
  - lia.
  - unfold P. lia.
  - lia.
  - intros va _. apply child_unmapped.
  - done.
  - done.
Defined.

(** copyin() returns 0 and the [len] bytes of user memory at [srcva] when
    all of them are mapped, valid and user-accessible, and -1 otherwise; it
    changes nothing. *)
Theorem copyin_correct s root lv srcva len :
  ptree (mm s) root lv -> 0 <= srcva -> 0 <= len ->
  run (copyin root srcva len) s (fun '(r, bs) s' => s' = s /\
    (r = 0 /\ Z.of_nat (length bs) = len /\
       (forall i, (i < length bs)%nat -> uread (mm s) root (srcva + Z.of_nat i) = bs !! i) \/
     r = -1 /\ exists i, 0 <= i < len /\ uread (mm s) root (srcva + i) = None)).
Proof. apply run_copyin. Qed.

Lemma copyin_correct_witness :
  run (copyin parent 4000 200) vm_machine (fun '(r, bs) s' => s' = vm_machine /\
    (r = 0 /\ Z.of_nat (length bs) = 200 /\
       (forall i, (i < length bs)%nat -> uread (mm vm_machine) parent (4000 + Z.of_nat i) = bs !! i) \/
     r = -1 /\ exists i, 0 <= i < 200 /\ uread (mm vm_machine) parent (4000 + i) = None)).
Proof. apply (copyin_correct vm_machine parent parent_tables 4000 200); [apply parent_tree|lia|lia]. Defined.

(** copyout() writes a prefix of [src] at [dstva] in user memory: all of it
    when it returns 0, and when it returns -1 the part before the first page
    user code cannot reach.  The translation, the page table and
    every other user byte are as before. *)
Theorem copyout_correct s root lv fl um dstva src :
  uvm_ok s root lv fl um -> user_only s root um -> 0 <= dstva ->
  run (copyout root dstva src) s (fun r s' => exists k m', s' = set_mm m' s /\
    uvm_ok s' root lv fl um /\ (forall va, pte_of m' root va = pte_of (mm s) root va) /\
    (forall va, vget m' um va =
       if bool_decide (dstva <= va < dstva + Z.of_nat k)
       then Some (u8 (default 0 (src !! Z.to_nat (va - dstva)))) else vget (mm s) um va) /\
    (r = 0 /\ k = length src \/ r = -1 /\ (k < length src)%nat /\ uread (mm s) root (dstva + Z.of_nat k) = None)).
Proof.
  intros Hok Hu H0. eapply run_mono; [by apply (run_copyout s root lv fl um dstva src)|].
  intros r s' (k & (m' & Hs' & Hok' & Hp & Hv & _) & Hr). by exists k, m'.
Qed.

Lemma parent_user_only : user_only vm_machine parent parent_pages.
Proof.
  intros va H0 [b Hb]. unfold uread in Hb. destruct (Z.ltb_spec va MAXVA); [|done].
  destruct (pte_has (pte_of (mm vm_machine) parent va) PTE_V) eqn:V; [|done].
  enough (E : va / PGSIZE = 0) by (rewrite E; by eexists). change 0 with (0 / PGSIZE). revert V.
  change (mm vm_machine) with vm_memory. change parent with (P 1). unfold pte_of, leaf, next.
  pose proof (PX_range 2 va ltac:(lia)) as R2. pose proof (PX_range 1 va ltac:(lia)) as R1. pose proof (PX_range 0 va ltac:(lia)) as R0.
  destruct (decide (PX 2 va = 0)) as [E2|N2]; [|by rewrite (proj1 (entry_parent _ R2 N2))].
  rewrite E2. assert (pte_has (entry vm_memory (P 1) 0) PTE_V = true /\ PTE2PA (entry vm_memory (P 1) 0) = P 2) as [-> ->]
    by (vm_compute; done). cbn [mbind option_bind].
  destruct (decide (PX 1 va = 0)) as [E1|N1]; [|by rewrite (proj1 (proj2 (entry_parent _ R1 N1)))].
  rewrite E1. assert (pte_has (entry vm_memory (P 2) 0) PTE_V = true /\ PTE2PA (entry vm_memory (P 2) 0) = P 3) as [-> ->]
    by (vm_compute; done). cbn [mbind option_bind]. fold (entry vm_memory (P 3) (PX 0 va)).
  destruct (decide (PX 0 va = 0)) as [E0|N0]; [|by rewrite (proj2 (proj2 (entry_parent _ R0 N0)))].
  intros _. apply PX_inj; try done; lia.
Qed.

Lemma copyout_correct_witness :
  run (copyout parent 4090 [1; 2; 3; 4; 5; 6; 7; 8]) vm_machine (fun r s' => exists k m', s' = set_mm m' vm_machine /\
    uvm_ok s' parent parent_tables free_pages parent_pages /\
    (forall va, pte_of m' parent va = pte_of (mm vm_machine) parent va) /\
    (forall va, vget m' parent_pages va =
       if bool_decide (4090 <= va < 4090 + Z.of_nat k)
       then Some (u8 (default 0 ([1; 2; 3; 4; 5; 6; 7; 8] !! Z.to_nat (va - 4090)))) else vget (mm vm_machine) parent_pages va) /\
    (r = 0 /\ k = 8%nat \/ r = -1 /\ (k < 8)%nat /\ uread (mm vm_machine) parent (4090 + Z.of_nat k) = None)).
Proof.
  apply (copyout_correct vm_machine parent parent_tables free_pages parent_pages 4090 [1; 2; 3; 4; 5; 6; 7; 8]).
  - apply parent_ok.
  - apply parent_user_only.
  - lia.
Defined.

(** On a user page the translation reads the frame. *)
Lemma uread_vget s root lv fl um va : uvm_ok s root lv fl um -> is_Some (um !! (va / PGSIZE)) ->
  is_Some (uread (mm s) root va) -> uread (mm s) root va = vget (mm s) um va.
Proof.
  intros Hok [[fr g] Hvp] Hu. pose proof (user_frame _ _ _ _ _ _ _ _ Hok Hvp) as Hf. unfold uread, vget in *.
  rewrite Hvp, Hf in *. destruct (_ && _); [done|by destruct Hu].
Qed.

(** The pages of [n] bytes at [addr] are user pages. *)
Definition user_range (um : umap) (addr n : Z) : Prop :=
  forall va, addr <= va < addr + n -> exists fr g, um !! (va / PGSIZE) = Some (fr, g) /\ pte_has g PTE_U = true.

Lemma user_range_read s root lv fl um addr n va : uvm_ok s root lv fl um -> user_range um addr n -> addr <= va < addr + n -> is_Some (uread (mm s) root va).
Proof.
  intros Hok Hr Hva. destruct (Hr va Hva) as (fr & g & Hp & Hg). destruct (uo_pte _ _ _ _ _ Hok _ _ _ Hp) as ((H0 & Hm) & (Hfl & _) & Hpte). destruct (uo_frame _ _ _ _ _ Hok _ _ _ Hp) as (Hpg & _).
  pose proof (is_page_range _ _ (km_end _ _ (vo_kmem _ _ _ _ (uo_vm _ _ _ _ _ Hok))) Hpg) as Hfr. pose proof (Z.div_mod va PGSIZE ltac:(lia)) as Hd. pose proof (Z.mod_pos_bound va PGSIZE ltac:(lia)) as Hb.
  unfold uread. rewrite (pte_of_page _ _ va (va / PGSIZE * PGSIZE)) by (by rewrite Z.div_mul). rewrite Hpte. destruct Hpg as (Hal & _).
  rewrite leaf_pte_valid, leaf_pte_user, leaf_pte_addr, Hg by (done || lia). destruct (Z.ltb_spec va MAXVA); [|lia]. destruct (Z.eqb_spec fr 0); [lia|]. by eexists.
Qed.

(** C31: what copyout() writes, copyin() reads back. *)
Theorem copyout_copyin s root lv fl um va src :
  uvm_ok s root lv fl um -> user_only s root um -> 0 <= va ->
  (forall i, (i < length src)%nat -> is_Some (uread (mm s) root (va + Z.of_nat i))) ->
  run (r <- copyout root va src ;; rb <- copyin root va (Z.of_nat (length src)) ;; ret (r, rb)) s
    (fun '(r, (r', bs)) _ => r = 0 /\ r' = 0 /\ bs = u8 <$> src).
Proof.
  intros Hok Hu H0 Hall. apply run_bind. eapply run_mono; [by apply (run_copyout s root lv fl um va src)|].
  intros r s' (k & (m' & -> & Hok' & Hp & Hv & _) & Hr).
  assert (r = 0 /\ k = length src) as [-> ->].
  { destruct Hr as [?|(_ & Hk & Hn)]; [done|]. destruct (Hall k Hk) as [? E]. congruence. }
  apply run_bind. eapply run_mono; [apply (run_copyin _ root lv va); [apply Hok'|done|lia]|].
  intros [r' bs] s2 (-> & [(-> & Hlen & Hbs)|(_ & i & Hi & Hn)]); wp.
  - split_and!; [done|done|]. apply list_eq. intros i. rewrite list_lookup_fmap.
    destruct (decide (i < length src)%nat) as [Hi|Hi]; [|rewrite !lookup_ge_None_2 by lia; done].
    rewrite <-Hbs by lia. cbn [mm set_mm]. rewrite (uread_vget (set_mm m' s) root lv fl um).
    + cbn [mm set_mm]. rewrite Hv. rewrite bool_decide_true by lia. replace (Z.to_nat _) with i by lia.
      destruct (lookup_lt_is_Some_2 src i Hi) as [x ->]. done.
    + done.
    + apply Hu; [lia|]. by apply Hall.
    + cbn [mm set_mm]. destruct (uread m' root _) eqn:E; [done|]. rewrite (uread_none (mm s)) in E by done.
      destruct (Hall i Hi). congruence.
  - exfalso. cbn [mm set_mm] in Hn. rewrite (uread_none (mm s)) in Hn by done.
    destruct (Hall (Z.to_nat i) ltac:(lia)) as [? E]. rewrite Z2Nat.id in E by lia. congruence.
Qed.

Lemma copyout_copyin_witness :
  run (r <- copyout parent 100 [7; 8; 9] ;; rb <- copyin parent 100 3 ;; ret (r, rb)) vm_machine
    (fun '(r, (r', bs)) _ => r = 0 /\ r' = 0 /\ bs = [7; 8; 9]).
Proof.
  apply (copyout_copyin vm_machine parent parent_tables free_pages parent_pages 100 [7; 8; 9]).
  - apply parent_ok.
  - apply parent_user_only.
  - lia.
  - intros i Hi. do 3 (destruct i as [|i]; [vm_compute; by eexists|]). cbn in Hi. lia.
Defined.

End AddressSpace.
