(* ===== verification/Sched.v ===== *)
(** * Giving up and getting the CPU (kernel/proc.c, kernel/sleeplock.c)

    sleep, wakeup, sched, yield, the per-hart scheduler, kill, the copies to
    and from the current process, and sleep locks.  A thread that gives up
    the CPU in [sched] is an outcome [Swtch s k]: [k] is what the thread does
    when the scheduler switches back to it, on the state of that moment. *)

From S2P Require Import Prelude Bytes CString KState Spinlock Kernel Riscv Kalloc Vm.

Module Sched.
Import Vm.

(** How often a thread may find its condition still false after being woken
    before the model stops following it. *)
Definition wait_fuel : nat := 1024.

(** ** proc.c *)

Definition allocpid : K Z :=
  acquire LPid ;;
  pid <- gets (fun s => nextpid (pt s)) ;;
  modify (fun s => set_pt (set_nextpid (s32 (pid + 1)) (pt s)) s) ;;
  release LPid ;;
  ret pid.

(** Switch to scheduler.  Must hold only p->lock. *)
Definition sched : K unit :=
  p <- myproc' ;;
  h <- holding (LProc p) ;;
  if negb h then panic "sched p->lock" else
  c <- gets the_cpu ;;
  if negb (c_noff c =? 1) then panic "sched locks" else
  st <- gets (fun s => p_state (proc_at p s)) ;;
  if bool_decide (st = RUNNING) then panic "sched running" else
  i <- intr_get ;;
  if (i : bool) then panic "sched interruptible" else
  intena <- gets (fun s => c_intena (the_cpu s)) ;;
  swtch ;;
  modify (fun s => set_the_cpu (set_c_intena intena (the_cpu s)) s).

Definition yield : K unit :=
  p <- myproc' ;;
  acquire (LProc p) ;;
  upd_proc p (set_p_state RUNNABLE) ;;
  sched ;;
  release (LProc p).

(** One pass of the scheduler's [for(;;)]: whether a process was run. *)
Definition scheduler_round : K bool :=
  intr_on ;;
  intr_off ;;
  r <- loop (S NPROC) (fun '(p, found) =>
    if (p <? NPROC)%nat then
      acquire (LProc p) ;;
      st <- gets (fun s => p_state (proc_at p s)) ;;
      found <- (if bool_decide (st = RUNNABLE) then
                  upd_proc p (set_p_state RUNNING) ;;
                  modify (fun s => set_the_cpu (set_c_proc (Some p) (the_cpu s)) s) ;;
                  swtch ;;
                  modify (fun s => set_the_cpu (set_c_proc None (the_cpu s)) s) ;;
                  ret true
                else ret found) ;;
      modify (fun s => set_the_cpu (set_c_intena false (the_cpu s)) s) ;;
      release (LProc p) ;;
      ret (inl (S p, found))
    else ret (inr found)) (O, false) ;;
  ret r.   (* if(found == 0) wfi: wait for an interrupt *)

(** [rounds] passes of the endless scheduling loop. *)
Definition scheduler (rounds : nat) : K unit :=
  modify (fun s => set_the_cpu (set_c_proc None (the_cpu s)) s) ;;
  loop rounds (fun _ => scheduler_round ;; ret (inl tt)) tt.

(** Atomically release lock and sleep on chan; reacquires it when awakened. *)
Definition sleep (ch : chan) (lk : lockid) : K unit :=
  p <- myproc' ;;
  when (negb (bool_decide (lk = LProc p))) (acquire (LProc p) ;; release lk) ;;
  upd_proc p (set_p_chan (Some ch)) ;;
  upd_proc p (set_p_state SLEEPING) ;;
  sched ;;
  upd_proc p (set_p_chan None) ;;
  when (negb (bool_decide (lk = LProc p))) (release (LProc p) ;; acquire lk).

(** Wake up all processes sleeping on chan. *)
Definition wakeup (ch : chan) : K unit :=
  iter_each (seq 0 NPROC) (fun p =>
    acquire (LProc p) ;;
    q <- gets (proc_at p) ;;
    when (bool_decide (p_state q = SLEEPING) && bool_decide (p_chan q = Some ch))
      (upd_proc p (set_p_state RUNNABLE)) ;;
    release (LProc p)).

(** Wake up p if it is sleeping in wait(); used by exit(). *)
Definition wakeup1 (p : nat) : K unit :=
  h <- holding (LProc p) ;;
  if negb h then panic "wakeup1" else
  q <- gets (proc_at p) ;;
  when (bool_decide (p_chan q = Some (ChProc p)) && bool_decide (p_state q = SLEEPING))
    (upd_proc p (set_p_state RUNNABLE)).

Definition kill (pid : Z) : K Z :=
  r <- for_each (seq 0 NPROC) (fun p =>
    acquire (LProc p) ;;
    q <- gets (proc_at p) ;;
    if p_pid q =? pid then
      upd_proc p (set_p_killed true) ;;
      when (bool_decide (p_state q = SLEEPING)) (upd_proc p (set_p_state RUNNABLE)) ;;
      release (LProc p) ;;
      ret (Some 0)
    else
      release (LProc p) ;;
      ret None) ;;
  ret (default (-1) r).

(** Copy to either a user address, or kernel address, depending on [user_dst]. *)
Definition either_copyout (user_dst : bool) (dst : Z) (src : list Z) : K Z :=
  p <- myproc ;;
  if user_dst then
    match p with
    | None => panic "no process"
    | Some p =>
        pgt <- gets (fun s => p_pagetable (proc_at p s)) ;;
        copyout pgt dst src
    end
  else
    modify (fun s => set_mm (set_bytes (mm s) dst src) s) ;; ret 0.

(** Copy from either a user address, or kernel address: the status and the
    bytes stored at the destination. *)
Definition either_copyin (user_src : bool) (src len : Z) : K (Z * list Z) :=
  p <- myproc ;;
  if user_src then
    match p with
    | None => panic "no process"
    | Some p =>
        pgt <- gets (fun s => p_pagetable (proc_at p s)) ;;
        copyin pgt src len
    end
  else
    bs <- gets (fun s => get_bytes (Z.to_nat len) (mm s) src) ;; ret (0, bs).

(** ** sleeplock.c

    A sleep lock is embedded in a buffer or an inode; an accessor says where
    it is, and which spin lock and sleep channel belong to it. *)

Record slock := mkSlock {
  sk_lk : lockid;
  sk_chan : chan;
  sk_get : kstate -> sleeplock;
  sk_set : sleeplock -> kstate -> kstate
}.

Definition upd_slock (k : slock) (f : sleeplock -> sleeplock) : K unit :=
  modify (fun s => sk_set k (f (sk_get k s)) s).

Definition initsleeplock (k : slock) : K unit :=
  initlock (sk_lk k) "sleep lock" ;;
  upd_slock k (set_sl_locked false) ;;
  upd_slock k (set_sl_pid 0).

Definition acquiresleep (k : slock) : K unit :=
  acquire (sk_lk k) ;;
  loop wait_fuel (fun _ =>
    l <- gets (sk_get k) ;;
    if sl_locked l then sleep (sk_chan k) (sk_lk k) ;; ret (inl tt)
    else ret (inr tt)) tt ;;
  upd_slock k (set_sl_locked true) ;;
  p <- myproc' ;;
  pid <- gets (fun s => p_pid (proc_at p s)) ;;
  upd_slock k (set_sl_pid pid) ;;
  release (sk_lk k).

Definition releasesleep (k : slock) : K unit :=
  acquire (sk_lk k) ;;
  upd_slock k (set_sl_locked false) ;;
  upd_slock k (set_sl_pid 0) ;;
  wakeup (sk_chan k) ;;
  release (sk_lk k).

Definition holdingsleep (k : slock) : K bool :=
  acquire (sk_lk k) ;;
  l <- gets (sk_get k) ;;
  r <- (if sl_locked l then
          p <- myproc' ;;
          pid <- gets (fun s => p_pid (proc_at p s)) ;;
          ret (sl_pid l =? pid)
        else ret false) ;;
  release (sk_lk k) ;;
  ret r.

Definition buf_at (b : nat) (s : kstate) : buf := bufs s !!! b.
Definition set_buf_at (b : nat) (v : buf) (s : kstate) : kstate :=
  set_bufs (<[b := v]> (bufs s)) s.
Definition inode_at (i : nat) (s : kstate) : inode := icache (fs s) !!! i.
Definition set_inode_at (i : nat) (v : inode) (s : kstate) : kstate :=
  set_fs (set_icache (<[i := v]> (icache (fs s))) (fs s)) s.

(** &b->lock and &ip->lock *)
Definition buf_lock (b : nat) : slock := {|
  sk_lk := LBuf b; sk_chan := ChSleepBuf b;
  sk_get s := b_lock (buf_at b s);
  sk_set l s := set_buf_at b (set_b_lock l (buf_at b s)) s
|}.
Definition inode_lock (i : nat) : slock := {|
  sk_lk := LInode i; sk_chan := ChSleepInode i;
  sk_get s := i_lock (inode_at i s);
  sk_set l s := set_inode_at i (set_i_lock l (inode_at i s)) s
|}.

(** ** What wakeups do to the process table *)

(** A process sleeping on [ch] becomes runnable. *)
Definition woken (ch : chan) (q : proc) : proc :=
  if bool_decide (p_state q = SLEEPING) && bool_decide (p_chan q = Some ch)
  then set_p_state RUNNABLE q else q.

Definition wake_all (ch : chan) (t : ptable) : ptable := set_procs (woken ch <$> procs t) t.

Lemma proc_at_lookup i s q : procs (pt s) !! i = Some q -> proc_at i s = q.
Proof. intros H. unfold proc_at. by rewrite list_lookup_total_alt, H. Qed.

Section wakeup.
Context (h : nat) (me : option nat) (ls : list lockid).

Definition no_proc_lock : Prop := forall i, LProc i ∉ ls.

Lemma run_wakeup_one ch i q s (Q : unit -> kstate -> Prop) :
  owns h me ls (sy s) -> no_proc_lock -> procs (pt s) !! i = Some q ->
  (forall y', owns h me ls y' ->
     Q tt (set_sy y' (set_pt (set_procs (<[i := woken ch q]> (procs (pt s))) (pt s)) s))) ->
  run (acquire (LProc i) ;;
       q <- gets (proc_at i) ;;
       when (bool_decide (p_state q = SLEEPING) && bool_decide (p_chan q = Some ch))
         (upd_proc i (set_p_state RUNNABLE)) ;;
       release (LProc i)) s Q.
Proof.
  intros Ho Hn Hq HQ. wp. eapply run_acquire; [done|apply Hn|]. intros y1 Ho1. wp.
  rewrite (proc_at_lookup i (set_sy y1 s) q) by done. unfold woken in HQ.
  destruct (bool_decide (p_state q = SLEEPING) && bool_decide (p_chan q = Some ch)).
  - unfold upd_proc. wp. eapply run_release; [exact Ho1|set_solver|].
    intros y2 Ho2. rewrite drop_head in Ho2 by apply Hn.
    rewrite (proc_at_lookup i (set_sy y1 s) q) by done. exact (HQ y2 Ho2).
  - eapply run_release; [exact Ho1|set_solver|]. intros y2 Ho2.
    rewrite drop_head in Ho2 by apply Hn.
    specialize (HQ y2 Ho2). rewrite list_insert_id in HQ by done.
    by destruct s as [? ? ? ? [] ? ? ? ? ? ? ? ? ? ?].
Qed.

Lemma run_wakeup ch s (Q : unit -> kstate -> Prop) :
  owns h me ls (sy s) -> no_proc_lock -> length (procs (pt s)) = NPROC ->
  (forall y', owns h me ls y' -> Q tt (set_sy y' (set_pt (wake_all ch (pt s)) s))) ->
  run (wakeup ch) s Q.
Proof.
  intros Ho Hn Hlen HQ. unfold wakeup.
  eapply (run_iter_each _ _ _ (fun pre s' => exists y', owns h me ls y' /\
      s' = set_sy y' (set_pt (set_procs ((woken ch <$> take (length pre) (procs (pt s))) ++
                                          drop (length pre) (procs (pt s))) (pt s)) s))).
  - exists (sy s). split; [done|]. by destruct s as [? ? ? ? [] ? ? ? ? ? ? ? ? ? ?].
  - intros pre i post s' Hl (y' & Hy & ->).
    assert (i = length pre) as ->.
    { apply (f_equal (fun l => l !! length pre)) in Hl.
      rewrite list_lookup_middle in Hl by done. apply lookup_seq in Hl. lia. }
    assert (length pre < NPROC)%nat.
    { apply (f_equal length) in Hl. rewrite length_seq, length_app in Hl. cbn in Hl. lia. }
    destruct (lookup_lt_is_Some_2 (procs (pt s)) (length pre)) as [q Hq]; [lia|].
    assert (Hlt : length (woken ch <$> take (length pre) (procs (pt s))) = length pre)
      by (rewrite length_fmap, length_take; lia).
    eapply run_wakeup_one; [exact Hy|done| |].
    + cbn [pt set_sy set_pt procs set_procs]. rewrite lookup_app_r by lia.
      rewrite Hlt, Nat.sub_diag, lookup_drop, Nat.add_0_r. exact Hq.
    + intros y2 Ho2. exists y2. split; [done|]. cbn [pt set_sy set_pt procs set_procs].
      unfold set_sy, set_pt, set_procs; cbn. do 3 f_equal.
      rewrite length_app. cbn [length]. rewrite Nat.add_1_r, (take_S_r _ _ q), fmap_app by done.
      rewrite (drop_S _ q) by done. rewrite insert_app_r_alt by lia.
      rewrite Hlt, Nat.sub_diag, <-app_assoc. done.
  - intros s' (y' & Hy & ->). rewrite length_seq, take_ge, drop_ge, app_nil_r by lia.
    by apply HQ.
Qed.
End wakeup.

(** ** Sleep locks

    What the code of sleeplock.c needs of the place a sleep lock is stored. *)

Class SleepLock (k : slock) := {
  sk_valid : kstate -> Prop;
  sk_get_sy : forall y s, sk_get k (set_sy y s) = sk_get k s;
  sk_set_sy : forall l y s, sk_set k l (set_sy y s) = set_sy y (sk_set k l s);
  sk_get_set : forall l s, sk_valid s -> sk_get k (sk_set k l s) = l;
  sk_set_set : forall l l' s, sk_set k l (sk_set k l' s) = sk_set k l s;
  sk_sy : forall l s, sy (sk_set k l s) = sy s;
  sk_pt : forall l s, pt (sk_set k l s) = pt s
}.

#[export] Instance buf_SleepLock b : SleepLock (buf_lock b).
Proof.
  refine {| sk_valid s := (b < length (bufs s))%nat |}; try done.
  - intros l s Hb. cbn. unfold buf_at, set_buf_at. cbn.
    by rewrite list_lookup_total_insert_eq.
  - intros l l' s. cbn. unfold buf_at, set_buf_at. cbn. unfold set_bufs; cbn. f_equal.
    destruct (decide (b < length (bufs s))%nat).
    + rewrite list_lookup_total_insert_eq by done. by rewrite list_insert_insert_eq.
    + by rewrite !list_insert_ge by (rewrite ?length_insert; lia).
Defined.

#[export] Instance inode_SleepLock i : SleepLock (inode_lock i).
Proof.
  refine {| sk_valid s := (i < length (icache (fs s)))%nat |}; try done.
  - intros l s Hb. cbn. unfold inode_at, set_inode_at. cbn.
    by rewrite list_lookup_total_insert_eq.
  - intros l l' s. cbn. unfold inode_at, set_inode_at. cbn.
    unfold set_fs, set_icache; cbn. do 2 f_equal.
    destruct (decide (i < length (icache (fs s)))%nat).
    + rewrite list_lookup_total_insert_eq by done. by rewrite list_insert_insert_eq.
    + by rewrite !list_insert_ge by (rewrite ?length_insert; lia).
Defined.

Lemma pt_set_sy y s : pt (set_sy y s) = pt s.
Proof. done. Qed.

Ltac sk_simpl :=
  repeat first [ rewrite pt_set_sy | rewrite sk_get_sy | rewrite sk_set_sy | rewrite sk_set_set
               | rewrite sk_pt | rewrite sk_sy | rewrite sk_get_set by done ].

Section sleeplock.
Context (h p : nat) (ls : list lockid) (k : slock) `{!SleepLock k}.

(** A free sleep lock is taken at once, and records its owner's pid. *)
Lemma run_acquiresleep s (Q : unit -> kstate -> Prop) :
  owns h (Some p) ls (sy s) -> sk_lk k ∉ ls -> sk_valid s ->
  sl_locked (sk_get k s) = false ->
  (forall y', owns h (Some p) ls y' ->
     Q tt (set_sy y' (sk_set k (mkSleep true (p_pid (proc_at p s))) s))) ->
  run (acquiresleep k) s Q.
Proof.
  intros Ho Hlk Hv Hfree HQ. unfold acquiresleep. wp.
  eapply run_acquire; [done..|]. intros y1 Ho1.
  unfold wait_fuel. cbn [loop]. wp. rewrite sk_get_sy, Hfree. wp. unfold upd_slock. wp.
  eapply run_myproc'; [rewrite sk_sy; exact Ho1|]. intros y2 Ho2. wp. unfold proc_at. cbn [pt set_sy].
  sk_simpl.
  eapply run_release; [exact Ho2|set_solver|]. intros y3 Ho3. rewrite drop_head in Ho3 by done.
  sk_simpl. exact (HQ y3 Ho3).
Qed.

Lemma run_releasesleep s (Q : unit -> kstate -> Prop) :
  owns h (Some p) ls (sy s) -> sk_lk k ∉ ls -> (forall i, sk_lk k <> LProc i) ->
  no_proc_lock ls -> sk_valid s -> length (procs (pt s)) = NPROC ->
  (forall y', owns h (Some p) ls y' ->
     Q tt (set_sy y' (set_pt (wake_all (sk_chan k) (pt s)) (sk_set k (mkSleep false 0) s)))) ->
  run (releasesleep k) s Q.
Proof.
  intros Ho Hlk Hnp Hls Hv Hlen HQ. unfold releasesleep. wp.
  eapply run_acquire; [done..|]. intros y1 Ho1. unfold upd_slock. wp.
  sk_simpl.
  eapply run_wakeup; [cbn; exact Ho1| |cbn; by rewrite sk_pt|].
  { intros i. apply not_elem_cons_lock; [|apply Hls]. intros Heq. by eapply Hnp. }
  intros y2 Ho2. cbn [pt set_sy]. rewrite sk_pt.
  eapply run_release; [exact Ho2|set_solver|]. intros y3 Ho3. rewrite drop_head in Ho3 by done.
  exact (HQ y3 Ho3).
Qed.

Lemma run_holdingsleep s (Q : bool -> kstate -> Prop) :
  owns h (Some p) ls (sy s) -> sk_lk k ∉ ls ->
  (forall y', owns h (Some p) ls y' ->
     Q (sl_locked (sk_get k s) && (sl_pid (sk_get k s) =? p_pid (proc_at p s))) (set_sy y' s)) ->
  run (holdingsleep k) s Q.
Proof.
  intros Ho Hlk HQ. unfold holdingsleep. wp.
  eapply run_acquire; [done..|]. intros y1 Ho1. wp. rewrite sk_get_sy.
  destruct (sl_locked (sk_get k s)); cbn [andb] in HQ; wp.
  - eapply run_myproc'; [exact Ho1|]. intros y2 Ho2. wp.
    eapply run_release; [exact Ho2|set_solver|]. intros y3 Ho3.
    rewrite drop_head in Ho3 by done. wp. by apply HQ.
  - eapply run_release; [exact Ho1|set_solver|]. intros y3 Ho3.
    rewrite drop_head in Ho3 by done. wp. by apply HQ.
Qed.
End sleeplock.

(** ** Giving up the CPU *)

Lemma proc_at_set i q s : (i < length (procs (pt s)))%nat -> proc_at i (set_proc_at i q s) = q.
Proof. intros. unfold proc_at, set_proc_at. cbn. by apply list_lookup_total_insert_eq. Qed.
Lemma set_proc_at_twice i q q' s : set_proc_at i q (set_proc_at i q' s) = set_proc_at i q s.
Proof. unfold set_proc_at. cbn. by rewrite list_insert_insert_eq. Qed.

Lemma owns_set_cpu h p ls y c :
  owns h p ls y -> c_noff c = c_noff (Spinlock.the_cpu y) -> c_csr c = c_csr (Spinlock.the_cpu y) ->
  owns h (c_proc c) ls (Spinlock.set_the_cpu c y).
Proof.
  intros [Hwf Hh Hp Hn Hi Hnd Hl] Hc1 Hc2.
  split; unfold Spinlock.intr_enabled, Spinlock.sstatus in *; rewrite ?Spinlock.the_cpu_set by done;
    try done; [by apply Spinlock.wf_set_the_cpu|congruence|]. by rewrite Hc2.
Qed.

Lemma owns_set_intena h p ls y i :
  owns h p ls y -> owns h p ls (Spinlock.set_the_cpu (set_c_intena i (Spinlock.the_cpu y)) y).
Proof.
  intros Ho. rewrite <-(own_proc _ _ _ _ Ho).
  apply (owns_set_cpu _ p _ _ (set_c_intena i (Spinlock.the_cpu y))); done.
Qed.

Lemma run_intr_get h p ls s (Q : bool -> kstate -> Prop) :
  owns h p ls (sy s) -> ls <> [] -> Q false s -> run intr_get s Q.
Proof.
  intros Ho Hls HQ. pose proof (own_intr _ _ _ _ Ho Hls) as Hi.
  unfold Spinlock.intr_enabled, Spinlock.sie_bit, Spinlock.sstatus in Hi.
  unfold run, intr_get, lift_sy, Spinlock.intr_get, Spinlock.r_csr, bind, gets, ret. cbn.
  rewrite Hi. by destruct s.
Qed.

(** sched passes its checks when exactly p->lock is held and p is not
    RUNNING; the saved interrupt state is the thread's own, not the hart's. *)
Lemma runE_sched E h p s (Q : unit -> kstate -> Prop) :
  owns h (Some p) [LProc p] (sy s) -> p_state (proc_at p s) <> RUNNING ->
  (forall y, owns h (Some p) [LProc p] y ->
     (exists s', E (set_sy y s) s') /\
     forall s', E (set_sy y s) s' ->
       Q tt (set_the_cpu (set_c_intena (c_intena (Spinlock.the_cpu y)) (the_cpu s')) s')) ->
  runE E sched s Q.
Proof.
  intros Ho Hst HQ. unfold sched. wp. eapply run_runE, run_myproc'; [done|]. intros y Hy. wp.
  eapply run_runE, run_holding; [exact Hy|]. rewrite bool_decide_eq_true_2 by set_solver. cbn [negb]. wp.
  unfold the_cpu at 1. cbn [sy set_sy]. rewrite (own_noff _ _ _ _ Hy).
  change (negb (Z.of_nat (length [LProc p]) =? 1)) with false. cbv iota. wp.
  change (proc_at p (set_sy y s)) with (proc_at p s). rewrite bool_decide_eq_false_2 by done. wp.
  eapply run_runE, run_intr_get; [exact Hy|done|]. cbv iota. wp.
  destruct (HQ y Hy) as [Hex Hall]. unfold runE, swtch. cbn [outcomeE]. split; [done|].
  intros s' HE. cbn. by apply Hall.
Qed.

(** sleep gives up the condition lock and the CPU together: the thread is
    marked SLEEPING on the channel, with only p->lock held, when it leaves. *)
Lemma runE_sleep E h p ch lk s (Q : unit -> kstate -> Prop) :
  owns h (Some p) [lk] (sy s) -> lk <> LProc p -> (p < length (procs (pt s)))%nat ->
  (forall y, owns h (Some p) [LProc p] y ->
     let s1 := set_sy y (set_proc_at p (set_p_state SLEEPING (set_p_chan (Some ch) (proc_at p s))) s) in
     (exists s', E s1 s') /\
     forall s', E s1 s' -> owns h (Some p) [LProc p] (sy s') /\
       forall y', owns h (Some p) [lk] y' ->
         Q tt (set_sy y' (set_proc_at p (set_p_chan None (proc_at p s')) s'))) ->
  runE E (sleep ch lk) s Q.
Proof.
  intros Ho Hlk Hp HQ. unfold sleep. wp. eapply run_runE, run_myproc'; [done|]. intros y0 Hy0. wp.
  rewrite bool_decide_eq_false_2 by done. cbn [negb]. wp.
  eapply run_runE, run_acquire; [exact Hy0|set_solver|]. intros y1 Hy1. wp.
  eapply run_runE, run_release; [exact Hy1|set_solver|]. intros y2 Hy2.
  rewrite drop_cons_ne, drop_head in Hy2 by (done || set_solver).
  unfold upd_proc. wp. rewrite proc_at_set, set_proc_at_twice by done.
  change (proc_at p (set_sy _ _)) with (proc_at p s). eapply runE_sched; [exact Hy2| |].
  { by rewrite proc_at_set. }
  intros y3 Hy3. destruct (HQ y3 Hy3) as [Hex Hall]. split; [exact Hex|].
  intros s' HE. destruct (Hall s' HE) as [Hy' HQ']. wp.
  eapply run_runE, run_release; [by apply owns_set_intena|set_solver|].
  intros y5 Hy5. rewrite drop_head in Hy5 by set_solver.
  eapply run_runE, run_acquire; [exact Hy5|set_solver|]. intros y6 Hy6. apply HQ'. done.
Qed.

End Sched.
