(* ===== verification/Console.v ===== *)
(** * UART, console and formatted output (kernel/uart.c, printf.c, console.c)

    Output ends in [uart_out], the bytes written to the transmit register.
    Input arrives in [uart_in] and reaches the line buffer [cons.buf] through
    the interrupt handler, which does erase and kill processing. *)

From S2P Require Import Prelude Bytes CString KState Spinlock Kernel Riscv Kalloc Vm Sched.

Module Console.
Import Sched.

(** ** uart.c *)

Definition upd_cons (f : consst -> consst) : K unit :=
  modify (fun s => set_cons (f (cons s)) s).
Definition mmio_write (a v : Z) : K unit :=
  modify (fun s => set_dev (set_mmio (<[a := v]> (mmio (dev s))) (dev s)) s).
Definition mmio_read (a : Z) : K Z :=
  gets (fun s => default 0 (mmio (dev s) !! a)).

Definition WriteReg (reg v : Z) : K unit := mmio_write (UART0 + reg) (u8 v).
Definition IER : Z := 1.
Definition FCR : Z := 2.
Definition LCR : Z := 3.

Definition uartinit : K unit :=
  WriteReg IER 0 ;;
  WriteReg LCR 128 ;;
  WriteReg 0 3 ;;
  WriteReg 1 0 ;;
  WriteReg LCR 3 ;;
  WriteReg FCR 7 ;;
  WriteReg IER 1.

(** LSR: bit 5 (transmitter empty) once [uart_busy] polls have passed, bit 0
    when input is waiting. *)
Definition read_LSR : K Z :=
  c <- gets cons ;;
  upd_cons (set_uart_busy (pred (uart_busy c))) ;;
  ret (Z.lor (if (uart_busy c =? 0)%nat then 32 else 0)
             (match uart_in c with [] => 0 | _ => 1 end)).

Definition uartputc (c : Z) : K unit :=
  busy <- gets (fun s => uart_busy (cons s)) ;;
  loop (S (S busy)) (fun _ =>
    lsr <- read_LSR ;;
    if Z.land lsr (Z.shiftl 1 5) =? 0 then ret (inl tt) else ret (inr tt)) tt ;;
  modify (fun s => set_cons (set_uart_out (uart_out (cons s) ++ [u8 c]) (cons s)) s).

Definition uartgetc : K Z :=
  lsr <- read_LSR ;;
  if Z.land lsr 1 =? 0 then ret (-1) else
  inp <- gets (fun s => uart_in (cons s)) ;;
  upd_cons (set_uart_in (tail inp)) ;;
  ret (u8 (default 0 (head inp))).

(** ** consputc and printf.c *)

Definition BACKSPACE : Z := 256.

Definition consputc (c : Z) : K unit :=
  p <- gets (fun s => panicked (cons s)) ;;
  if (p : bool) then stuck "panicked" else
  if c =? BACKSPACE then uartputc 8 ;; uartputc 32 ;; uartputc 8
  else uartputc c.

(** static char digits[] = "0123456789abcdef" *)
Definition digit (d : Z) : Z := if d <? 10 then 48 + d else 87 + d.

(** buf[0..i): the digits of [x], least significant first. *)
Fixpoint digits_of (fuel : nat) (x base : Z) : list Z :=
  match fuel with
  | O => []
  | S n => digit (x mod base) :: (if x / base =? 0 then [] else digits_of n (x / base) base)
  end.

Definition int_chars (xx base : Z) (sign : bool) : list Z :=
  let neg := sign && (xx <? 0) in
  let x := if neg then u32 (- xx) else u32 xx in
  rev (digits_of 32 x base ++ (if neg then [45] else [])).

Definition printint (xx base : Z) (sign : bool) : K unit :=
  iter_each (int_chars xx base sign) consputc.

Definition ptr_chars (x : Z) : list Z :=
  48 :: 120 :: map (fun i => digit (Z.shiftr (u64 (Z.shiftl x (4 * i))) 60)) (seqZ 0 16).

Definition printptr (x : Z) : K unit := iter_each (ptr_chars x) consputc.

(** The variable arguments of printf. *)
Inductive parg := AInt (x : Z) | AStr (s : list Z) | ANull.

Definition str (s : string) : list Z :=
  map (fun c => Z.of_N (Ascii.N_of_ascii c)) (String.list_ascii_of_string s).

(** One conversion: [c] is the character after the percent sign. *)
Definition printf_conv (c : Z) (ap : list parg) : K (list parg) :=
  if c =? 100 (* d *) then
    match ap with AInt x :: ap => printint (s32 x) 10 true ;; ret ap | _ => stuck "va_arg" end
  else if c =? 120 (* x *) then
    match ap with AInt x :: ap => printint (s32 x) 16 true ;; ret ap | _ => stuck "va_arg" end
  else if c =? 112 (* p *) then
    match ap with AInt x :: ap => printptr (u64 x) ;; ret ap | _ => stuck "va_arg" end
  else if c =? 115 (* s *) then
    match ap with
    | AStr s :: ap => iter_each s consputc ;; ret ap
    | ANull :: ap => iter_each (str "(null)") consputc ;; ret ap
    | _ => stuck "va_arg"
    end
  else if c =? 37 (* % *) then consputc 37 ;; ret ap
  else consputc 37 ;; consputc c ;; ret ap.

Fixpoint printf_loop (fmt : list Z) (ap : list parg) : K unit :=
  match fmt with
  | [] => ret tt
  | c :: fmt' =>
      if negb (c =? 37) then consputc c ;; printf_loop fmt' ap
      else match fmt' with
           | [] => ret tt
           | c :: fmt'' => ap <- printf_conv c ap ;; printf_loop fmt'' ap
           end
  end.

Definition printf (fmt : string) (ap : list parg) : K unit :=
  locking <- gets (fun s => pr_locking (cons s)) ;;
  when locking (acquire LPr) ;;
  printf_loop (str fmt) ap ;;
  when locking (release LPr).

Definition hint : string :=
  "HINT: restart xv6 using 'make qemu-gdb', type 'b panic' (to set breakpoint in panic) in the gdb window, followed by 'c' (continue), and when the kernel hits the breakpoint, type 'bt' to get a backtrace".

(** What panic(s) does before it spins; every [Panic msg] outcome stands for
    this followed by an endless loop. *)
Definition panic_report (s : string) : K unit :=
  upd_cons (set_pr_locking false) ;;
  printf "PANIC: " [] ;;
  printf s [] ;;
  iter_each [10] consputc ;;
  printf hint [] ;;
  iter_each [10] consputc ;;
  upd_cons (set_panicked true).

Definition printfinit : K unit :=
  initlock LPr "pr" ;;
  upd_cons (set_pr_locking true).

(** ** procdump (proc.c) *)

Definition state_name (st : procstate) : string :=
  match st with
  | UNUSED => "unused" | SLEEPING => "sleep " | RUNNABLE => "runble"
  | RUNNING => "run   " | ZOMBIE => "zombie"
  end.

(** The NUL-terminated string in a char array. *)
Fixpoint c_str (l : list Z) : list Z :=
  match l with
  | [] => []
  | c :: l' => if c =? 0 then [] else c :: c_str l'
  end.

Definition newline : string := String.String (Ascii.ascii_of_nat 10) String.EmptyString.

Definition procdump : K unit :=
  printf newline [] ;;
  iter_each (seq 0 NPROC) (fun i =>
    p <- gets (proc_at i) ;;
    if bool_decide (p_state p = UNUSED) then ret tt else
    printf "%d %s %s" [AInt (p_pid p); AStr (str (state_name (p_state p))); AStr (c_str (p_name p))] ;;
    printf newline []).

(** ** console.c *)

(** C(x): Control-x *)
Definition ctrl (x : Z) : Z := x - 64.

(** cons.buf[i % INPUT_BUF] *)
Definition cbuf (c : consst) (i : Z) : Z := cn_buf c !!! Z.to_nat (u32 i mod INPUT_BUF).
Definition set_cbuf (i v : Z) (c : consst) : consst :=
  set_cn_buf (<[Z.to_nat (u32 i mod INPUT_BUF) := u8 v]> (cn_buf c)) c.

Definition consolewrite (user_src : bool) (src n : Z) : K Z :=
  acquire LCons ;;
  loop (S (Z.to_nat n)) (fun i =>
    if i <? n then
      r <- either_copyin user_src (u64 (src + i)) 1 ;;
      let '(st, bs) := r in
      if st =? -1 then ret (inr tt) else
      consputc (default 0 (head bs)) ;;
      ret (inl (i + 1))
    else ret (inr tt)) 0 ;;
  release LCons ;;
  ret n.

(** Wait until the interrupt handler has put some input into cons.buf;
    [false] when the process was killed meanwhile. *)
Definition wait_input : K bool :=
  loop wait_fuel (fun _ =>
    c <- gets cons ;;
    if cn_r c =? cn_w c then
      p <- myproc' ;;
      killed <- gets (fun s => p_killed (proc_at p s)) ;;
      if (killed : bool) then ret (inr false)
      else sleep ChCons LCons ;; ret (inl tt)
    else ret (inr true)) tt.

Definition consoleread (user_dst : bool) (dst n : Z) : K Z :=
  let target := n in
  acquire LCons ;;
  r <- loop (S (Z.to_nat n)) (fun '(dst, n) =>
    if 0 <? n then
      ok <- wait_input ;;
      if negb ok then ret (inr None) else
      c <- gets (fun s => cbuf (cons s) (cn_r (cons s))) ;;
      modify (fun s => set_cons (set_cn_r (u32 (cn_r (cons s) + 1)) (cons s)) s) ;;
      if c =? ctrl 68 then
        when (n <? target)
          (modify (fun s => set_cons (set_cn_r (u32 (cn_r (cons s) - 1)) (cons s)) s)) ;;
        ret (inr (Some n))
      else
        st <- either_copyout user_dst dst [c] ;;
        if st =? -1 then ret (inr (Some n)) else
        if c =? 10 then ret (inr (Some (n - 1)))
        else ret (inl (u64 (dst + 1), n - 1))
    else ret (inr (Some n))) (dst, n) ;;
  release LCons ;;
  match r with
  | None => ret (-1)
  | Some n => ret (target - n)
  end.

(** ^U: erase back to the start of the line. *)
Definition kill_line : K unit :=
  loop (S (Z.to_nat INPUT_BUF)) (fun _ =>
    c <- gets cons ;;
    if negb (cn_e c =? cn_w c) && negb (cbuf c (cn_e c - 1) =? 10) then
      upd_cons (set_cn_e (u32 (cn_e c - 1))) ;;
      consputc BACKSPACE ;;
      ret (inl tt)
    else ret (inr tt)) tt.

Definition consoleintr (c : Z) : K unit :=
  acquire LCons ;;
  (if c =? ctrl 80 then procdump
   else if c =? ctrl 85 then kill_line
   else if (c =? ctrl 72) || (c =? 127) then
     k <- gets cons ;;
     if negb (cn_e k =? cn_w k) then
       upd_cons (set_cn_e (u32 (cn_e k - 1))) ;;
       consputc BACKSPACE
     else ret tt
   else
     k <- gets cons ;;
     if negb (c =? 0) && (u32 (cn_e k - cn_r k) <? INPUT_BUF) then
       let c := if c =? 13 then 10 else c in
       consputc c ;;
       upd_cons (set_cbuf (cn_e k) c) ;;
       upd_cons (set_cn_e (u32 (cn_e k + 1))) ;;
       k <- gets cons ;;
       if (c =? 10) || (c =? ctrl 68) || (cn_e k =? u32 (cn_r k + INPUT_BUF)) then
         upd_cons (set_cn_w (cn_e k)) ;;
         wakeup ChCons
       else ret tt
     else ret tt) ;;
  release LCons.

(** trap.c calls here when the uart interrupts. *)
Definition uartintr : K unit :=
  n <- gets (fun s => length (uart_in (cons s))) ;;
  loop (S n) (fun _ =>
    c <- uartgetc ;;
    if c =? -1 then ret (inr tt) else consoleintr c ;; ret (inl tt)) tt.

Definition consoleinit : K unit :=
  initlock LCons "cons" ;;
  uartinit ;;
  modify (fun s => set_devsw (<[CONSOLE := (Some F_consoleread, Some F_consolewrite)]> (devsw s)) s).

End Console.
