(* ===== verification/ConsoleProof.v ===== *)
(** * The console: line editing and formatted output

    The input ring of console.c as two lists: the bytes a read may take, and
    the bytes of the line that is still being edited.  [keyed] is what one key
    does to them; consoleintr() implements it and echoes what it should,
    uartintr() does so for everything that was typed, and consoleread() gives
    a process the lines in order.  printf() writes the formatted text. *)

From S2P Require Import Prelude Bytes CString KState Spinlock Kernel Riscv Machine Kalloc Vm PageTable Uvm AddressSpace Sched Console.

Module ConsoleProof.
Import Kalloc Vm PageTable Uvm Sched Console.

Abbreviation len l := (Z.of_nat (length l)).

(** ** The ring *)

Record ring_ok (ready pend : list Z) (c : consst) : Prop := {
  ro_len : length (cn_buf c) = Z.to_nat INPUT_BUF;
  ro_r : 0 <= cn_r c < 2 ^ 32;
  ro_w : cn_w c = u32 (cn_r c + len ready);
  ro_e : cn_e c = u32 (cn_r c + len ready + len pend);
  ro_cap : len ready + len pend <= INPUT_BUF;
  ro_bytes : forall i x, (ready ++ pend) !! i = Some x -> cbuf c (cn_r c + Z.of_nat i) = x
}.

Lemma ring_slot x : u32 x mod INPUT_BUF = x mod INPUT_BUF.
Proof. unfold u32. change (2 ^ 32) with (INPUT_BUF * 33554432). by rewrite Z.rem_mul_r, (Z.mul_comm INPUT_BUF), Z.mod_add, Z.mod_mod by lia. Qed.
Lemma cbuf_slot c x : cbuf c x = cn_buf c !!! Z.to_nat (x mod INPUT_BUF).
Proof. unfold cbuf. by rewrite ring_slot. Qed.
Lemma u32_plus x y : u32 (u32 x + y) = u32 (x + y).
Proof. unfold u32. by rewrite Zplus_mod_idemp_l. Qed.

Lemma u32_inj x y : u32 x = u32 y -> Z.abs (x - y) < 2 ^ 32 -> x = y.
Proof. unfold u32. intros E H. pose proof (Z.div_mod x (2 ^ 32)). pose proof (Z.div_mod y (2 ^ 32)). nia. Qed.

Lemma ring_level ready pend c : ring_ok ready pend c -> u32 (cn_e c - cn_r c) = len ready + len pend.
Proof.
  intros R. rewrite (ro_e _ _ _ R), <-Z.add_opp_r, u32_plus. rewrite u32_small; [lia|]. pose proof (ro_cap _ _ _ R). lia.
Qed.
Lemma ring_pending ready pend c : ring_ok ready pend c -> (cn_e c =? cn_w c) = bool_decide (pend = []).
Proof.
  intros R. rewrite (ro_e _ _ _ R), (ro_w _ _ _ R). pose proof (ro_cap _ _ _ R). case_bool_decide as E; [subst; apply Z.eqb_eq; f_equal; cbn; lia|].
  apply Z.eqb_neq. intros Hu. apply u32_inj in Hu; [|lia]. destruct pend; [done|]. cbn in Hu. lia.
Qed.
Lemma ring_line ready pend c : ring_ok ready pend c -> u32 (cn_e c - cn_w c) = len pend.
Proof.
  intros R. pose proof (ro_cap _ _ _ R). rewrite (ro_e _ _ _ R), (ro_w _ _ _ R). unfold u32. rewrite Zminus_mod_idemp_l, Zminus_mod_idemp_r, Z.mod_small; lia.
Qed.
Lemma ring_ready ready pend c : ring_ok ready pend c -> (cn_r c =? cn_w c) = bool_decide (ready = []).
Proof.
  intros R. rewrite (ro_w _ _ _ R). pose proof (ro_cap _ _ _ R). pose proof (ro_r _ _ _ R). case_bool_decide as E; [subst; apply Z.eqb_eq; cbn; rewrite u32_small; lia|].
  apply Z.eqb_neq. intros Hu. rewrite <-(u32_small (cn_r c)) in Hu at 1 by done. apply u32_inj in Hu; [|lia]. destruct ready; [done|]. cbn in Hu. lia.
Qed.

(** A byte more in the line. *)
Lemma ring_push ready pend c b : ring_ok ready pend c -> len ready + len pend < INPUT_BUF -> 0 <= b < 256 ->
  ring_ok ready (pend ++ [b]) (set_cn_e (u32 (cn_e c + 1)) (set_cbuf (cn_e c) b c)).
Proof.
  intros [R1 R2 R3 R4 R5 R6] Hcap Hb. split; [by cbn; rewrite length_insert|done|done| | |].
  - cbn. rewrite R4, u32_plus, length_app. cbn. f_equal. lia.
  - rewrite length_app. cbn. lia.
  - intros i x Hx. rewrite cbuf_slot. cbn. rewrite R4, u32_u32, ring_slot. rewrite app_assoc in Hx. destruct (decide (i < length (ready ++ pend))%nat) as [Hi|Hi].
    + rewrite lookup_app_l in Hx by done. rewrite list_lookup_total_insert_ne; [rewrite <-cbuf_slot; by apply R6|]. rewrite length_app in Hi. intros E. apply Z2Nat.inj in E; [|apply Z.mod_pos_bound; lia..].
      pose proof (Z.div_mod (cn_r c + len ready + len pend) INPUT_BUF). pose proof (Z.div_mod (cn_r c + Z.of_nat i) INPUT_BUF). nia.
    + rewrite lookup_app_r in Hx by lia. apply list_lookup_singleton_Some in Hx as [Hi' <-]. rewrite length_app in Hi'. assert (Hil : i = (length ready + length pend)%nat) by (rewrite length_app in Hi; lia). subst i.
      replace (cn_r c + Z.of_nat (length ready + length pend)) with (cn_r c + len ready + len pend) by lia. rewrite list_lookup_total_insert_eq; [by apply Z.mod_small|].
      rewrite R1. apply Z2Nat.inj_lt; [apply Z.mod_pos_bound; lia|lia|apply Z.mod_pos_bound; lia].
Qed.

(** The line becomes ready. *)
Lemma ring_commit ready pend c : ring_ok ready pend c -> ring_ok (ready ++ pend) [] (set_cn_w (cn_e c) c).
Proof.
  intros [R1 R2 R3 R4 R5 R6]. split; [done|done| | | |]; cbn; rewrite ?length_app; [rewrite R4; f_equal; lia|rewrite R4; f_equal; lia|lia|]. intros i x. rewrite app_nil_r. apply R6.
Qed.

(** One byte of the line erased. *)
Lemma ring_erase ready pend b c : ring_ok ready (pend ++ [b]) c ->
  cbuf c (cn_e c - 1) = b /\ ring_ok ready pend (set_cn_e (u32 (cn_e c - 1)) c).
Proof.
  intros [R1 R2 R3 R4 R5 R6]. rewrite length_app in R4, R5. cbn in R4, R5.
  assert (He : u32 (cn_e c - 1) = u32 (cn_r c + len ready + len pend)) by (rewrite R4, <-Z.add_opp_r, u32_plus; f_equal; lia). split.
  - unfold cbuf. rewrite He, ring_slot. specialize (R6 (length ready + length pend)%nat b). rewrite app_assoc, list_lookup_middle in R6 by (by rewrite length_app).
    rewrite <-R6 by done. rewrite cbuf_slot. do 3 f_equal. lia.
  - split; [done|done|done|exact He|lia|]. intros i x Hx. apply R6. rewrite app_assoc. by apply lookup_app_l_Some.
Qed.

(** The first ready byte taken. *)
Lemma ring_take b ready pend c : ring_ok (b :: ready) pend c ->
  cbuf c (cn_r c) = b /\ ring_ok ready pend (set_cn_r (u32 (cn_r c + 1)) c).
Proof.
  intros [R1 R2 R3 R4 R5 R6]. cbn [length] in *. split; [rewrite <-(R6 0%nat b) by done; f_equal; cbn; lia|]. split; [done|apply u32_range| | |lia|]; cbn.
  - rewrite R3, u32_plus. f_equal. lia.
  - rewrite R4, <-(Z.add_assoc (u32 _)), u32_plus. f_equal. lia.
  - intros i x Hx. rewrite <-(R6 (S i) x) by done. rewrite !cbuf_slot. cbn. rewrite <-(ring_slot (u32 _ + _)), u32_plus, ring_slot. do 3 f_equal. lia.
Qed.

(** ... and put back. *)
Lemma take_back c : 0 <= cn_r c < 2 ^ 32 -> set_cn_r (u32 (cn_r (set_cn_r (u32 (cn_r c + 1)) c) - 1)) (set_cn_r (u32 (cn_r c + 1)) c) = c.
Proof. intros Hr. cbn. rewrite <-Z.add_opp_r, u32_plus, u32_small by lia. destruct c. unfold set_cn_r. cbn. f_equal. lia. Qed.

(** ** Output *)

(** [bs] was written to the UART, and nothing else happened. *)
Definition printed (bs : list Z) (c c' : consst) : Prop := exists n, c' = set_uart_out (uart_out c ++ bs) (set_uart_busy n c).

Lemma printed_nil c : printed [] c c.
Proof. exists (uart_busy c). rewrite app_nil_r. by destruct c. Qed.
Lemma printed_trans bs bs' c1 c2 c3 : printed bs c1 c2 -> printed bs' c2 c3 -> printed (bs ++ bs') c1 c3.
Proof. intros [n ->] [n' ->]. exists n'. cbn. by rewrite app_assoc. Qed.
Lemma printed_ring bs c c' ready pend : printed bs c c' -> ring_ok ready pend c -> ring_ok ready pend c'.
Proof. intros [n ->] [R1 R2 R3 R4 R5 R6]. by split. Qed.

Lemma run_uartputc c s (Q : unit -> kstate -> Prop) :
  (forall k, printed [u8 c] (cons s) k -> Q tt (set_cons k s)) -> run (uartputc c) s Q.
Proof.
  intros HQ. unfold uartputc. wp.
  eapply (run_loop _ (fun _ s' => exists n, s' = set_cons (set_uart_busy n (cons s)) s) (fun _ s' => uart_busy (cons s'))).
  - intros _ s' [n ->]. unfold read_LSR, upd_cons. wp. cbn. destruct n as [|n]; cbn [Nat.eqb pred].
    + replace (Z.land (Z.lor 32 (match uart_in (cons s) with [] => 0 | _ => 1 end)) (Z.shiftl 1 5) =? 0) with false by (by destruct (uart_in (cons s))).
      wp. apply (HQ (set_uart_out (uart_out (cons s) ++ [u8 c]) (set_uart_busy 0%nat (cons s)))). by exists 0%nat.
    + replace (Z.land (Z.lor 0 (match uart_in (cons s) with [] => 0 | _ => 1 end)) (Z.shiftl 1 5) =? 0) with true by (by destruct (uart_in (cons s))).
      wp. split; [by exists n|]. cbn. lia.
  - exists (uart_busy (cons s)). by destruct s as [? ? ? ? ? ? ? ? ? ? ? [] ? ? ?].
  - lia.
Qed.

(** What consputc() sends for a character. *)
Definition sent (c : Z) : list Z := if c =? BACKSPACE then [8; 32; 8] else [u8 c].

Lemma run_consputc c s (Q : unit -> kstate -> Prop) : panicked (cons s) = false ->
  (forall k, printed (sent c) (cons s) k -> Q tt (set_cons k s)) -> run (consputc c) s Q.
Proof.
  intros Hp HQ. unfold consputc. wp. rewrite Hp. unfold sent in HQ. destruct (c =? BACKSPACE); [|by apply run_uartputc].
  wp. apply run_uartputc. intros k1 P1. wp. apply run_uartputc. intros k2 P2. apply run_uartputc. intros k3 P3. apply (HQ k3).
  apply (printed_trans [8] [32; 8] _ k1); [done|]. by apply (printed_trans [32] [8] _ k2).
Qed.

Lemma run_puts bs : forall s (Q : unit -> kstate -> Prop), panicked (cons s) = false ->
  (forall k, printed (bs ≫= sent) (cons s) k -> Q tt (set_cons k s)) -> run (iter_each bs consputc) s Q.
Proof.
  induction bs as [|b bs IH]; intros s Q Hp HQ; cbn [iter_each].
  - wp. specialize (HQ (cons s) (printed_nil _)). by destruct s.
  - wp. apply run_consputc; [done|]. intros k1 P1. apply IH; [destruct P1 as [n ->]; done|]. intros k2 P2. apply (HQ k2). cbn. by eapply printed_trans.
Qed.

(** ** printf() *)

(** The text of one conversion, and the arguments that are left. *)
Definition conv_text (c : Z) (ap : list parg) : option (list Z * list parg) :=
  if c =? 100 then match ap with AInt x :: ap => Some (int_chars (s32 x) 10 true, ap) | _ => None end
  else if c =? 120 then match ap with AInt x :: ap => Some (int_chars (s32 x) 16 true, ap) | _ => None end
  else if c =? 112 then match ap with AInt x :: ap => Some (ptr_chars (u64 x), ap) | _ => None end
  else if c =? 115 then match ap with AStr s :: ap => Some (s, ap) | ANull :: ap => Some (str "(null)", ap) | _ => None end
  else if c =? 37 then Some ([37], ap)
  else Some ([37; c], ap).

(** The text printf() writes; none if an argument is missing. *)
Fixpoint format (fmt : list Z) (ap : list parg) : option (list Z) :=
  match fmt with
  | [] => Some []
  | c :: fmt' =>
      if negb (c =? 37) then (fun l => c :: l) <$> format fmt' ap
      else match fmt' with
           | [] => Some []
           | c :: fmt'' => '(txt, ap) ← conv_text c ap; app txt <$> format fmt'' ap
           end
  end.

Lemma run_conv c ap txt ap' s (Q : list parg -> kstate -> Prop) : panicked (cons s) = false -> conv_text c ap = Some (txt, ap') ->
  (forall k, printed (txt ≫= sent) (cons s) k -> Q ap' (set_cons k s)) -> run (printf_conv c ap) s Q.
Proof.
  intros Hp E HQ. unfold conv_text in E. unfold printf_conv. unfold printint, printptr.
  repeat (case_match; try discriminate E); injection E as <- <-; wp; try (apply run_puts; [done|]; intros k P; wp; by apply (HQ k)).
  - apply run_consputc; [done|]. intros k P. wp. by apply (HQ k).
  - apply run_consputc; [done|]. intros k P. wp. apply run_consputc; [destruct P as [n ->]; done|]. intros k' P'. wp. apply (HQ k'). change [37; c] with ([37] ++ [c]). rewrite bind_app. apply (printed_trans _ _ _ _ _ P). cbn [mbind list_bind]. by rewrite app_nil_r.
Qed.

Lemma run_format fmt : forall ap txt s (Q : unit -> kstate -> Prop), panicked (cons s) = false -> format fmt ap = Some txt ->
  (forall k, printed (txt ≫= sent) (cons s) k -> Q tt (set_cons k s)) -> run (printf_loop fmt ap) s Q.
Proof.
  induction fmt as [fmt IH] using (induction_ltof1 _ (@length Z)). unfold ltof in IH. intros ap txt s Q Hp E HQ. destruct fmt as [|c fmt]; cbn [printf_loop format] in *.
  - injection E as <-. wp. specialize (HQ (cons s) (printed_nil _)). by destruct s.
  - destruct (negb (c =? 37)).
    + destruct (format fmt ap) as [txt'|] eqn:E'; [|done]. injection E as <-. wp. apply run_consputc; [done|]. intros k P. eapply (IH fmt ltac:(cbn; lia)); [destruct P as [n ->]; done|exact E'|].
      intros k' P'. apply (HQ k'). by eapply printed_trans.
    + destruct fmt as [|d fmt]; [injection E as <-; wp; specialize (HQ (cons s) (printed_nil _)); by destruct s|].
      destruct (conv_text d ap) as [[t1 ap']|] eqn:E1; [|done]. cbn in E. destruct (format fmt ap') as [t2|] eqn:E2; [|done]. injection E as <-.
      wp. eapply run_conv; [done|exact E1|]. intros k P. eapply (IH fmt ltac:(cbn; lia)); [destruct P as [n ->]; done|exact E2|].
      intros k' P'. apply (HQ k'). rewrite bind_app. by eapply printed_trans.
Qed.

Section kernel.
Context (h : nat) (me : option nat) (ls : list lockid) (Hpr : LPr ∉ ls).

Lemma run_printf fmt ap txt s (Q : unit -> kstate -> Prop) : owns h me ls (sy s) -> panicked (cons s) = false -> format (str fmt) ap = Some txt ->
  (forall y k, owns h me ls y -> printed (txt ≫= sent) (cons s) k -> Q tt (set_sy y (set_cons k s))) -> run (printf fmt ap) s Q.
Proof using Hpr.
  intros Ho Hp E HQ. unfold printf. wp. destruct (pr_locking (cons s)).
  - wp. eapply run_acquire; [exact Ho|done|]. intros y Hy. wp. eapply run_format; [done|exact E|]. intros k P. wp. eapply run_release; [exact Hy|set_solver|].
    intros y' Hy'. rewrite drop_head in Hy' by done. by apply (HQ y' k).
  - wp. eapply run_format; [done|exact E|]. intros k P. wp. specialize (HQ (sy s) k Ho P). by destruct s.
Qed.

(** *** procdump() *)

Definition dump_line (q : proc) : list Z :=
  if bool_decide (p_state q = UNUSED) then []
  else int_chars (s32 (p_pid q)) 10 true ++ [32] ++ str (state_name (p_state q)) ++ [32] ++ c_str (p_name q) ++ [10].

Lemma line_text (a b c : list Z) : (a ++ 32 :: (b ++ 32 :: (c ++ []))) ++ [10] = a ++ [32] ++ b ++ [32] ++ c ++ [10].
Proof. rewrite app_nil_r, <-!app_assoc. cbn. by rewrite <-!app_assoc. Qed.

Definition dump_text (t : ptable) : list Z := 10 :: (procs t ≫= dump_line).

Lemma run_dump_line i q s (Q : unit -> kstate -> Prop) : owns h me ls (sy s) -> panicked (cons s) = false -> procs (pt s) !! i = Some q ->
  (forall y k, owns h me ls y -> printed (dump_line q ≫= sent) (cons s) k -> Q tt (set_sy y (set_cons k s))) ->
  run (p <- gets (proc_at i) ;;
       if bool_decide (p_state p = UNUSED) then ret tt else
       printf "%d %s %s" [AInt (p_pid p); AStr (str (state_name (p_state p))); AStr (c_str (p_name p))] ;;
       printf newline []) s Q.
Proof using Hpr.
  intros Ho Hp Hq HQ. wp. rewrite (proc_at_lookup i s q Hq). unfold dump_line in HQ. destruct (bool_decide _); wp; [specialize (HQ (sy s) (cons s) Ho (printed_nil _)); by destruct s|].
  eapply run_printf; [done|done|reflexivity|]. intros y k Hy P. eapply run_printf; [exact Hy|destruct P as [n ->]; done|reflexivity|]. intros y' k' Hy' P'. apply (HQ y' k' Hy').
  pose proof (printed_trans _ _ _ _ _ P P') as P2. rewrite <-bind_app in P2. rewrite <-line_text. exact P2.
Qed.

Lemma run_procdump s (Q : unit -> kstate -> Prop) : owns h me ls (sy s) -> panicked (cons s) = false -> length (procs (pt s)) = NPROC ->
  (forall y k, owns h me ls y -> printed (dump_text (pt s) ≫= sent) (cons s) k -> Q tt (set_sy y (set_cons k s))) -> run procdump s Q.
Proof using Hpr.
  intros Ho Hp Hlen HQ. unfold procdump. wp. eapply run_printf; [done|done|reflexivity|]. intros y k Hy P.
  eapply (run_iter_each _ _ _ (fun pre s' => exists y k, owns h me ls y /\ printed ((10 :: (take (length pre) (procs (pt s)) ≫= dump_line)) ≫= sent) (cons s) k /\ s' = set_sy y (set_cons k s))).
  - by exists y, k.
  - intros pre i post s' Hl (y1 & k1 & Hy1 & P1 & ->). assert (i = length pre /\ (length pre < NPROC)%nat) as [-> Hlt].
    { apply (f_equal (fun l => l !! length pre)) in Hl. rewrite list_lookup_middle in Hl by done. apply lookup_seq in Hl. lia. }
    destruct (lookup_lt_is_Some_2 (procs (pt s)) (length pre)) as [q Hq]; [lia|]. eapply run_dump_line; [exact Hy1|destruct P1 as [n ->]; done|exact Hq|].
    intros y2 k2 Hy2 P2. exists y2, k2. split; [done|]. split; [|done]. rewrite length_app. cbn [length]. rewrite Nat.add_1_r, (take_S_r _ _ q) by done.
    pose proof (printed_trans _ _ _ _ _ P1 P2) as P3. rewrite <-bind_app in P3. revert P3. rewrite (bind_app dump_line). cbn. by rewrite app_nil_r.
  - intros s' (y1 & k1 & Hy1 & P1 & ->). rewrite length_seq, take_ge in P1 by lia. by apply HQ.
Qed.
End kernel.

(** ** Keys *)

(** The bytes a read may take, the line being edited, the process table and
    the bytes on the screen. *)
Record line := mkLine { l_ready : list Z; l_pend : list Z; l_tab : ptable; l_out : list Z }.

Definition erased : list Z := [8; 32; 8].

(** What a key does: ^P lists the processes, ^U erases the line, ^H and DEL
    erase a byte; any other key is added to the line if there is room, and
    return, ^D or a full buffer finish the line and wake the readers. *)
Definition keyed (c : Z) (l : line) : line :=
  let n := len (l_ready l) + len (l_pend l) in
  if c =? ctrl 80 then mkLine (l_ready l) (l_pend l) (l_tab l) (l_out l ++ mbind sent (dump_text (l_tab l)))
  else if c =? ctrl 85 then mkLine (l_ready l) [] (l_tab l) (l_out l ++ mjoin (replicate (length (l_pend l)) erased))
  else if (c =? ctrl 72) || (c =? 127) then
    if bool_decide (l_pend l = []) then l
    else mkLine (l_ready l) (take (length (l_pend l) - 1) (l_pend l)) (l_tab l) (l_out l ++ erased)
  else if (c =? 0) || (INPUT_BUF <=? n) then l
  else
    let c := if c =? 13 then 10 else c in
    if (c =? 10) || (c =? ctrl 68) || (n + 1 =? INPUT_BUF) then
      mkLine (l_ready l ++ l_pend l ++ [c]) [] (wake_all ChCons (l_tab l)) (l_out l ++ [c])
    else mkLine (l_ready l) (l_pend l ++ [c]) (l_tab l) (l_out l ++ [c]).

Record console_ok (l : line) (s : kstate) : Prop := {
  ck_ring : ring_ok (l_ready l) (l_pend l) (cons s);
  ck_line : 10 ∉ l_pend l;
  ck_on : panicked (cons s) = false;
  ck_tab : pt s = l_tab l;
  ck_procs : length (procs (pt s)) = NPROC;
  ck_out : uart_out (cons s) = l_out l
}.

(** Only the locks, the process table and the console changed. *)
Definition rest (s s' : kstate) : Prop := s' = set_sy (sy s') (set_pt (pt s') (set_cons (cons s') s)).

Lemma rest_refl s : rest s s.
Proof. by destruct s. Qed.
Lemma rest_trans s1 s2 s3 : rest s1 s2 -> rest s2 s3 -> rest s1 s3.
Proof. unfold rest. intros -> ->. done. Qed.

(** A line without a newline that is not empty ends in some other byte. *)
Lemma last_byte (l : list Z) : 10 ∉ l -> l <> [] -> exists l' b, l = l' ++ [b] /\ b <> 10 /\ (10 ∉ l') /\ take (length l - 1) l = l'.
Proof.
  intros Hn Hl. destruct l as [|b l' _] using rev_ind; [done|]. exists l', b. apply not_elem_of_app in Hn as [H1 H2]. split; [done|]. split; [set_solver|]. split; [done|].
  rewrite length_app. cbn. rewrite Nat.add_sub. by rewrite take_app_length.
Qed.

Section keys.
Context (h : nat) (me : option nat) (ls : list lockid) (Hpr : LPr ∉ ls) (Hcons : LCons ∉ ls) (Hproc : no_proc_lock ls).

Lemma run_kill_line l s (Q : unit -> kstate -> Prop) : console_ok l s ->
  (forall k, console_ok (mkLine (l_ready l) [] (l_tab l) (l_out l ++ mjoin (replicate (length (l_pend l)) erased))) (set_cons k s) -> uart_in k = uart_in (cons s) -> Q tt (set_cons k s)) ->
  run kill_line s Q.
Proof using Type.
  intros Ok HQ. unfold kill_line.
  eapply (run_loop _ (fun _ s' => exists k pend, s' = set_cons k s /\ uart_in k = uart_in (cons s) /\ length pend <= length (l_pend l) /\
    console_ok (mkLine (l_ready l) pend (l_tab l) (l_out l ++ mjoin (replicate (length (l_pend l) - length pend) erased))) s')%nat
    (fun _ s' => Z.to_nat (u32 (cn_e (cons s') - cn_w (cons s'))))).
  - intros _ s' (k & pend & -> & Hin & Hlen & Ok'). pose proof (ck_ring _ _ Ok') as R. pose proof (ck_line _ _ Ok') as Hl. cbn in R, Hl. wp. cbn. rewrite (ring_pending _ _ _ R). case_bool_decide as E; cbn [negb andb].
    + subst pend. wp. apply HQ; [|done]. cbn in Ok'. by rewrite Nat.sub_0_r in Ok'.
    + destruct (last_byte pend Hl E) as (pend' & b & -> & Hb & Hl' & _). destruct (ring_erase _ _ _ _ R) as [-> R']. destruct (Z.eqb_spec b 10); [done|]. cbn [negb]. unfold upd_cons. wp.
      apply run_consputc; [apply Ok'|]. intros k' P. wp. pose proof (printed_ring _ _ _ _ _ P R') as R2. destruct P as [w ->]. split.
      * exists (set_uart_out (uart_out k ++ erased) (set_uart_busy w (set_cn_e (u32 (cn_e k - 1)) k))), pend'. rewrite length_app in *. cbn in Hlen. split; [done|]. split; [done|]. split; [lia|].
        split; [exact R2|exact Hl'|apply Ok'|apply Ok'|apply Ok'|]. pose proof (ck_out _ _ Ok') as Ho. cbn in Ho |- *. rewrite Ho, <-app_assoc. f_equal. replace (length (l_pend l) - length pend')%nat with (S (length (l_pend l) - (length pend' + 1)))%nat by lia.
        by rewrite replicate_S_end, join_app.
      * pose proof (ring_line _ _ _ R) as E1. pose proof (ring_line _ _ _ R2) as E2. rewrite length_app in E1. cbn in E1, E2 |- *. lia.
  - exists (cons s), (l_pend l). rewrite Nat.sub_diag. cbn. rewrite app_nil_r. split; [by destruct s|]. split; [done|]. split; [done|]. by destruct l.
  - pose proof (ck_ring _ _ Ok) as R. pose proof (ro_cap _ _ _ R). rewrite (ring_line _ _ _ R). lia.
Qed.

(** A printable key: echoed, stored, and perhaps the end of the line. *)
Lemma run_store l c s (Q : unit -> kstate -> Prop) : owns h me (LCons :: ls) (sy s) -> console_ok l s -> 0 <= c < 256 -> len (l_ready l) + len (l_pend l) < INPUT_BUF ->
  (forall y t k, owns h me (LCons :: ls) y -> uart_in k = uart_in (cons s) ->
     let fin := (c =? 10) || (c =? ctrl 68) || (len (l_ready l) + len (l_pend l) + 1 =? INPUT_BUF) in
     console_ok (if fin then mkLine (l_ready l ++ l_pend l ++ [c]) [] (wake_all ChCons (l_tab l)) (l_out l ++ [c]) else mkLine (l_ready l) (l_pend l ++ [c]) (l_tab l) (l_out l ++ [c])) (set_sy y (set_pt t (set_cons k s))) ->
     Q tt (set_sy y (set_pt t (set_cons k s)))) ->
  run (consputc c ;;
       upd_cons (set_cbuf (cn_e (cons s)) c) ;;
       upd_cons (set_cn_e (u32 (cn_e (cons s) + 1))) ;;
       k <- gets cons ;;
       if (c =? 10) || (c =? ctrl 68) || (cn_e k =? u32 (cn_r k + INPUT_BUF)) then
         upd_cons (set_cn_w (cn_e k)) ;;
         wakeup ChCons
       else ret tt) s Q.
Proof using Hpr Hproc Hcons.
  intros Ho Ok Hc Hcap HQ. wp. apply run_consputc; [apply Ok|]. intros k1 P. unfold upd_cons. wp. cbn [cons set_cons].
  pose proof (printed_ring _ _ _ _ _ P (ck_ring _ _ Ok)) as R1. destruct P as [w E1]. assert (Hs : sent c = [c]) by (unfold sent, BACKSPACE; destruct (Z.eqb_spec c 256); [lia|]; by rewrite u8_small). rewrite Hs in E1.
  assert (Ee : cn_e (cons s) = cn_e k1) by (by rewrite E1). rewrite Ee. pose proof (ring_push _ _ _ c R1 Hcap Hc) as R2. set (k2 := set_cn_e _ _) in *.
  assert (Hout : uart_out k2 = l_out l ++ [c]) by (unfold k2; cbn; rewrite E1; cbn; by rewrite (ck_out _ _ Ok)). assert (Hon : panicked k2 = false) by (unfold k2; cbn; rewrite E1; apply Ok). assert (Hin : uart_in k2 = uart_in (cons s)) by (unfold k2; cbn; by rewrite E1).
  assert (Hfull : (cn_e k2 =? u32 (cn_r k2 + INPUT_BUF)) = (len (l_ready l) + len (l_pend l) + 1 =? INPUT_BUF)).
  { rewrite (ro_e _ _ _ R2), length_app. cbn [length]. apply eq_true_iff_eq. rewrite !Z.eqb_eq. split; [intros E; apply u32_inj in E; lia|intros E; f_equal; lia]. }
  rewrite Hfull. pose proof (ck_tab _ _ Ok) as Ht. pose proof (ck_procs _ _ Ok) as Hn. cbv zeta in HQ.
  destruct ((c =? 10) || (c =? ctrl 68) || (_ =? INPUT_BUF)) eqn:Hfin.
  - wp. pose proof (ring_commit _ _ _ R2) as R3. eapply (run_wakeup h me (LCons :: ls)); [exact Ho|intros i; apply not_elem_cons_lock; [done|apply Hproc]|exact Hn|]. intros y Hy. cbn [pt set_cons].
    apply (HQ y (wake_all ChCons (pt s)) (set_cn_w (cn_e k2) k2)); [done|done|]. split; try done; cbn; [set_solver|by rewrite Ht|by rewrite length_fmap].
  - wp. specialize (HQ (sy s) (pt s) k2 Ho Hin). replace (set_sy (sy s) (set_pt (pt s) (set_cons k2 s))) with (set_cons k2 s) in HQ by (by destruct s). apply HQ. split; try done. cbn. apply not_elem_of_app. split; [apply Ok|].
    apply orb_false_iff in Hfin as [Hfin _]. apply orb_false_iff in Hfin as [Hfin _]. apply Z.eqb_neq in Hfin. set_solver.
Qed.

Lemma run_consoleintr l c s (Q : unit -> kstate -> Prop) : owns h me ls (sy s) -> console_ok l s -> 0 <= c < 256 ->
  (forall s', owns h me ls (sy s') -> console_ok (keyed c l) s' -> rest s s' -> uart_in (cons s') = uart_in (cons s) -> Q tt s') -> run (consoleintr c) s Q.
Proof using Hpr Hcons Hproc.
  intros Ho Ok Hc HQ. unfold consoleintr. wp. eapply run_acquire; [exact Ho|done|]. intros y1 Hy1. wp.
  assert (Hrel : forall s1, owns h me (LCons :: ls) (sy s1) -> console_ok (keyed c l) s1 -> rest s s1 -> uart_in (cons s1) = uart_in (cons s) -> run (release LCons) s1 Q).
  { intros s1 Ho1 Ok1 Hr1 Hi1. eapply run_release; [exact Ho1|set_solver|]. intros y2 Hy2. rewrite drop_head in Hy2 by done. apply HQ; [done|by destruct Ok1| |done]. unfold rest in *. rewrite Hr1. done. }
  assert (Ok1 : console_ok l (set_sy y1 s)) by (by destruct Ok). unfold keyed in Hrel. destruct (c =? ctrl 80).
  { eapply (run_procdump h me (LCons :: ls)); [set_solver|exact Hy1|apply Ok|apply Ok|]. intros y2 k Hy2 P. pose proof (printed_ring _ _ _ _ _ P (ck_ring _ _ Ok)) as R. destruct P as [w ->]. cbn. apply Hrel; [done| |done|done].
    destruct Ok as [_ H2 H3 H4 H5 H6]. split; try done. cbn. by rewrite <-H4, H6. }
  destruct (c =? ctrl 85).
  { eapply run_kill_line; [exact Ok1|]. intros k Ok2 Hi. by apply Hrel. }
  destruct ((c =? ctrl 72) || (c =? 127)).
  { wp. cbn. rewrite (ring_pending _ _ _ (ck_ring _ _ Ok)). case_bool_decide as E; cbn [negb]; [wp; by apply Hrel|]. destruct (last_byte _ (ck_line _ _ Ok) E) as (pend & b & E1 & _ & Hl & E2). rewrite E2 in Hrel.
    pose proof (ck_ring _ _ Ok) as R. rewrite E1 in R. destruct (ring_erase _ _ _ _ R) as [_ R1]. unfold upd_cons. wp. apply run_consputc; [apply Ok|]. intros k P. pose proof (printed_ring _ _ _ _ _ P R1) as R2. destruct P as [w ->].
    apply Hrel; [done| |done|done]. destruct Ok as [_ H2 H3 H4 H5 H6]. split; try done. cbn. by rewrite H6. }
  wp. cbn. rewrite (ring_level _ _ _ (ck_ring _ _ Ok)). destruct (c =? 0); cbn [negb andb orb] in *; [wp; by apply Hrel|].
  destruct (Z.ltb_spec (len (l_ready l) + len (l_pend l)) INPUT_BUF) as [Hlt|Hge], (Z.leb_spec INPUT_BUF (len (l_ready l) + len (l_pend l))); try lia; [|wp; by apply Hrel].
  change (cn_e (cons s)) with (cn_e (cons (set_sy y1 s))). eapply run_store; [exact Hy1|exact Ok1|destruct (c =? 13); lia|done|]. intros y2 t k Hy2 Hi fin Ok2. by apply Hrel.
Qed.

(** *** uartintr() *)

Lemma console_io l n s : console_ok l s -> console_ok l (set_cons (set_uart_busy n (cons s)) s).
Proof using Type. intros [[] ? ? ? ? ?]. by split. Qed.
Lemma console_in l cs s k : console_ok l (set_cons k s) -> console_ok l (set_cons (set_uart_in cs k) s).
Proof using Type. intros [[] ? ? ? ? ?]. by split. Qed.

Lemma run_uartgetc s (Q : Z -> kstate -> Prop) :
  (forall n, match uart_in (cons s) with
             | [] => Q (-1) (set_cons (set_uart_busy n (cons s)) s)
             | c :: cs => Q (u8 c) (set_cons (set_uart_in cs (set_uart_busy n (cons s))) s)
             end) -> run uartgetc s Q.
Proof using Type.
  intros HQ. unfold uartgetc, read_LSR, upd_cons. wp. cbn. specialize (HQ (pred (uart_busy (cons s)))). destruct (uart_in (cons s)) as [|c cs] eqn:E.
  - replace (Z.land (Z.lor (if (uart_busy (cons s) =? 0)%nat then 32 else 0) 0) 1 =? 0) with true by (by destruct (_ =? 0)%nat). wp; exact HQ.
  - replace (Z.land (Z.lor (if (uart_busy (cons s) =? 0)%nat then 32 else 0) 1) 1 =? 0) with false by (by destruct (_ =? 0)%nat). wp. cbn. rewrite E. exact HQ.
Qed.

Lemma run_uartintr s l cs (Q : unit -> kstate -> Prop) : owns h me ls (sy s) -> console_ok l s -> uart_in (cons s) = cs -> Forall (fun c => 0 <= c < 256) cs ->
  (forall s', owns h me ls (sy s') -> console_ok (foldl (flip keyed) l cs) s' -> rest s s' -> uart_in (cons s') = [] -> Q tt s') -> run uartintr s Q.
Proof using Hpr Hcons Hproc.
  intros Ho Ok Hin Hb HQ. unfold uartintr. wp. rewrite Hin.
  eapply (run_loop _ (fun _ s' => exists pre post, cs = pre ++ post /\ owns h me ls (sy s') /\ console_ok (foldl (flip keyed) l pre) s' /\ rest s s' /\ uart_in (cons s') = post)
    (fun _ s' => length (uart_in (cons s')))).
  - intros _ s1 (pre & post & -> & Ho1 & Ok1 & Hr1 & Hi1). wp. apply run_uartgetc. intros n. rewrite Hi1. destruct post as [|c post].
    + change (-1 =? -1) with true. cbv iota. wp. rewrite app_nil_r in HQ. apply HQ; [done|by apply console_io| |done]. eapply rest_trans; [exact Hr1|]. unfold rest. cbn. by destruct s1.
    + apply Forall_app in Hb as [_ Hb]. apply Forall_cons in Hb as [Hc _]. replace (u8 c) with c by (by rewrite u8_small). destruct (Z.eqb_spec c (-1)); [lia|]. wp.
      eapply run_consoleintr; [exact Ho1| |exact Hc|].
      { apply console_in, console_io. exact Ok1. }
      intros s2 Ho2 Ok2 Hr2 Hi2. wp. cbn in Hi2. split; [|rewrite Hi2; cbn; lia]. exists (pre ++ [c]), post. rewrite <-app_assoc, foldl_app. split; [done|]. split; [done|]. split; [done|]. split; [|done].
      eapply rest_trans; [exact Hr1|]. eapply rest_trans; [|exact Hr2]. unfold rest. cbn. by destruct s1.
  - exists [], cs. split; [done|]. split; [done|]. split; [done|]. split; [apply rest_refl|done].
  - rewrite Hin. lia.
Qed.
End keys.

(** ** Reading *)

Section reader.
Context (h p : nat) (root : Z) (lv : gmap Z nat) (E : kstate -> kstate -> Prop) (um : umap).

(** Process [p] on hart [h] with address space [um] holds [ls]. *)
Record view (ready pend : list Z) (ls : list lockid) (s : kstate) : Prop := {
  v_owns : owns h (Some p) ls (sy s);
  v_len : length (procs (pt s)) = NPROC;
  v_p : (p < NPROC)%nat;
  v_pgt : p_pagetable (proc_at p s) = root;
  v_ring : ring_ok ready pend (cons s);
  v_uvm : exists fl, uvm_ok s root lv fl um;
  v_only : user_only s root um
}.

Lemma cview_sy ready pend ls ls' s y : view ready pend ls s -> owns h (Some p) ls' y -> view ready pend ls' (set_sy y s).
Proof using Type. intros [H1 H2 H3 H4 H5 [fl H6] H7] Ho. split; try done. exists fl. by eapply uvm_frame; [..|exact H6]. Qed.
Lemma cview_cons ready pend ready' pend' ls s k : view ready pend ls s -> ring_ok ready' pend' k -> view ready' pend' ls (set_cons k s).
Proof using Type. intros [H1 H2 H3 H4 H5 [fl H6] H7] R. split; try done. exists fl. by eapply uvm_frame; [..|exact H6]. Qed.
Lemma cview_proc ready pend ls s q : view ready pend ls s -> p_pagetable q = root -> view ready pend ls (set_proc_at p q s).
Proof using Type.
  intros [H1 H2 H3 H4 H5 [fl H6] H7] Hq. split; try done; [cbn; by rewrite length_insert|by rewrite proc_at_set by lia|]. exists fl. by eapply uvm_frame; [..|exact H6].
Qed.

(** While the reader sleeps, keys are handled: bytes are added to what is
    ready; its memory is left alone; it runs again when there is something
    to read or when it was killed. *)
Definition typing_env : Prop := forall s ready pend,
  view ready pend [LProc p] s -> p_state (proc_at p s) = SLEEPING -> p_chan (proc_at p s) = Some ChCons ->
  (exists s', E s s') /\
  forall s', E s s' -> exists more pend', view (ready ++ more) pend' [LProc p] s' /\ (forall va, vget (mm s') um va = vget (mm s) um va) /\
    (ready ++ more <> [] \/ p_killed (proc_at p s') = true).

Context (Henv : typing_env).

Lemma runE_sleep_cons s ready pend (Q : unit -> kstate -> Prop) : view ready pend [LCons] s ->
  (forall s' more pend', view (ready ++ more) pend' [LCons] s' -> (forall va, vget (mm s') um va = vget (mm s) um va) ->
     ready ++ more <> [] \/ p_killed (proc_at p s') = true -> Q tt s') ->
  runE E (sleep ChCons LCons) s Q.
Proof using Henv.
  intros Hv HQ. assert (Hlen : (p < length (procs (pt s)))%nat) by (destruct Hv; lia). eapply runE_sleep; [apply Hv|done|done|]. intros y Hy s1.
  assert (Hv1 : view ready pend [LProc p] s1) by (apply (cview_sy _ _ [LCons]); [|done]; apply cview_proc; [done|apply Hv]).
  assert (Hp1 : proc_at p s1 = set_p_state SLEEPING (set_p_chan (Some ChCons) (proc_at p s))) by (by apply proc_at_set).
  destruct (Henv s1 ready pend Hv1) as [Hex Hall]; [by rewrite Hp1..|]. split; [exact Hex|]. intros s' HE. destruct (Hall s' HE) as (more & pend' & Hv' & Hu & Hstop). split; [apply Hv'|].
  intros y' Hy'. assert (Hlen' : (p < length (procs (pt s')))%nat) by (destruct Hv'; lia). apply (HQ _ more pend').
  - apply (cview_sy _ _ [LProc p]); [|done]. apply cview_proc; [done|apply Hv'].
  - exact Hu.
  - change (proc_at p (set_sy y' ?s)) with (proc_at p s). by rewrite proc_at_set by done.
Qed.

Lemma runE_wait_input s ready pend (Q : bool -> kstate -> Prop) : view ready pend [LCons] s ->
  (forall s' more pend' (ok : bool), view (ready ++ more) pend' [LCons] s' -> (forall va, vget (mm s') um va = vget (mm s) um va) ->
     (if ok then ready ++ more <> [] else p_killed (proc_at p s') = true) -> Q ok s') ->
  runE E wait_input s Q.
Proof using Henv.
  intros Hv HQ. unfold wait_input.
  eapply (runE_loop _ _ (fun _ s' => exists more pend', view (ready ++ more) pend' [LCons] s' /\ forall va, vget (mm s') um va = vget (mm s) um va)
    (fun _ s' => if (cn_r (cons s') =? cn_w (cons s')) && negb (p_killed (proc_at p s')) then 1%nat else 0%nat)).
  - intros _ s1 (more & pend1 & Hv1 & Hu1). wp. pose proof (ring_ready _ _ _ (v_ring _ _ _ _ Hv1)) as Hr. destruct (cn_r (cons s1) =? cn_w (cons s1)) eqn:Hrw; symmetry in Hr.
    + wp. eapply run_runE, run_myproc'; [apply Hv1|]. intros y2 Hy2. wp. change (proc_at p (set_sy y2 s1)) with (proc_at p s1). pose proof (cview_sy _ _ _ _ _ _ Hv1 Hy2) as Hv2.
      destruct (p_killed (proc_at p s1)) eqn:Hk; wp; [by apply (HQ _ more pend1)|]. eapply runE_sleep_cons; [exact Hv2|]. intros s3 more3 pend3 Hv3 Hu3 Hd. wp. split.
      * exists (more ++ more3), pend3. rewrite app_assoc. split; [done|]. intros va. rewrite Hu3. apply Hu1.
      * cbn. pose proof (ring_ready _ _ _ (v_ring _ _ _ _ Hv3)) as Hr3. rewrite Hr3. destruct Hd as [Hd|Hd]; [rewrite bool_decide_false by done|rewrite Hd, andb_false_r]; cbn; lia.
    + wp. apply (HQ _ more pend1); [done|done|]. by apply bool_decide_eq_false in Hr.
  - exists [], pend. by rewrite app_nil_r.
  - unfold wait_fuel. destruct (_ && _); lia.
Qed.

(** The first [i] bytes of [ready0] and what came after it were copied. *)
Definition copied (s0 : kstate) (addr : Z) (st : list Z) (i : nat) (s : kstate) : Prop :=
  forall va, vget (mm s) um va = if bool_decide (addr <= va < addr + Z.of_nat i) then Some (u8 (default 0 (st !! Z.to_nat (va - addr)))) else vget (mm s0) um va.

(** What a read delivers: [i] bytes of the stream [st] of finished lines, at
    most [n], none after a newline, no ^D among them.  It ends when [n] bytes
    or a line are there, at ^D, which stays for the next read unless nothing
    was read, or where user memory cannot be written; [left] is what is still
    ready then. *)
Definition delivered (s0 : kstate) (addr n : Z) (st left : list Z) (i : nat) (s : kstate) : Prop :=
  Z.of_nat i <= n /\ (i <= length st)%nat /\ (forall j, (j < i)%nat -> st !! j <> Some (ctrl 68)) /\ (forall j, (S j < i)%nat -> st !! j <> Some 10) /\ copied s0 addr st i s /\
  (left = drop i st /\ (Z.of_nat i = n \/ exists j, i = S j /\ st !! j = Some 10) \/
   Z.of_nat i < n /\ st !! i = Some (ctrl 68) /\ left = drop (if (i =? 0)%nat then 1 else i) st \/
   Z.of_nat i < n /\ uread (mm s) root (addr + Z.of_nat i) = None /\ left = drop (S i) st).

(** The loop of consoleread() after [i] bytes. *)
Definition reading (s0 : kstate) (addr : Z) (ready0 : list Z) (i : nat) (s : kstate) : Prop := exists more pend,
  view (drop i (ready0 ++ more)) pend [LCons] s /\ (i <= length (ready0 ++ more))%nat /\
  (forall j, (j < i)%nat -> (ready0 ++ more) !! j <> Some 10 /\ (ready0 ++ more) !! j <> Some (ctrl 68)) /\ copied s0 addr (ready0 ++ more) i s.

Definition read_done (s0 : kstate) (addr n : Z) (ready0 : list Z) (ls : list lockid) (r : option Z) (s : kstate) : Prop := exists more pend left,
  view left pend ls s /\
  match r with
  | None => p_killed (proc_at p s) = true
  | Some m => exists i, m = n - Z.of_nat i /\ delivered s0 addr n (ready0 ++ more) left i s
  end.

(** The next byte goes to user memory. *)
Lemma run_copy_byte s addr (c : Z) left pend (Q : Z -> kstate -> Prop) : view left pend [LCons] s -> 0 <= addr < 2 ^ 64 ->
  (forall s', view left pend [LCons] s' -> (forall va, vget (mm s') um va = if bool_decide (va = addr) then Some (u8 c) else vget (mm s) um va) -> Q 0 s') ->
  (forall s', view left pend [LCons] s' -> (forall va, vget (mm s') um va = vget (mm s) um va) -> uread (mm s') root addr = None -> Q (-1) s') ->
  run (either_copyout true addr [c]) s Q.
Proof using Type.
  intros Hv Ha Hok Hbad. unfold either_copyout. wp. eapply run_myproc; [apply Hv|]. intros y Hy. cbv iota. wp. change (proc_at p (set_sy y s)) with (proc_at p s). rewrite (v_pgt _ _ _ _ Hv).
  pose proof (cview_sy _ _ _ _ _ _ Hv Hy) as Hv1. destruct (v_uvm _ _ _ _ Hv1) as [fl Hu]. eapply run_mono; [apply (run_copyout _ root lv fl um _ [c] Hu (v_only _ _ _ _ Hv1)); lia|].
  intros st s2 (k & (m' & -> & Hu2 & Hp2 & Hm2 & _) & Hst). change (mm (set_sy y s)) with (mm s) in *.
  assert (Hv2 : view left pend [LCons] (set_mm m' (set_sy y s))).
  { destruct Hv1 as [V1 V2 V3 V4 V5 V6 V7]. split; try done; [by exists fl|]. intros va H0 Hs. apply (V7 va H0). apply not_eq_None_Some. intros Hn. apply (uread_none (mm s) m' root va) in Hn; [|done]. cbn in Hs. rewrite Hn in Hs. by destruct Hs. }
  destruct Hst as [[-> Hk]|(-> & Hk & Hnone)]; cbn in Hk.
  - apply Hok; [done|]. intros va. cbn [mm set_mm]. rewrite Hm2. subst k. repeat case_bool_decide; try lia; try done. subst va. by replace (Z.to_nat _) with 0%nat by lia.
  - replace k with 0%nat in * by lia. apply Hbad; [done| |]; [intros va; cbn [mm set_mm]; rewrite Hm2; by rewrite bool_decide_false by lia|]. cbn. rewrite Z.add_0_r in Hnone. by apply (uread_none (mm s) m').
Qed.

Lemma copied_ext s0 addr st more i s s' : (i <= length st)%nat -> copied s0 addr st i s -> (forall va, vget (mm s') um va = vget (mm s) um va) -> copied s0 addr (st ++ more) i s'.
Proof using Type. intros Hi Hc Hu va. rewrite Hu, Hc. case_bool_decide; [|done]. rewrite lookup_app_l by lia. done. Qed.

Lemma copied_snoc s0 addr st i c s s' : st !! i = Some c -> copied s0 addr st i s ->
  (forall va, vget (mm s') um va = if bool_decide (va = addr + Z.of_nat i) then Some (u8 c) else vget (mm s) um va) -> copied s0 addr st (S i) s'.
Proof using Type.
  intros Hi Hc Hu va. rewrite Hu, Hc. repeat case_bool_decide; try lia; try done. subst va. replace (Z.to_nat _) with i by lia. by rewrite Hi.
Qed.

Lemma runE_turn s0 addr target ready0 i s (Q : (Z * Z) + option Z -> kstate -> Prop) : reading s0 addr ready0 i s -> Z.of_nat i < target -> 0 <= addr -> addr + target < 2 ^ 64 ->
  (forall s', reading s0 addr ready0 (S i) s' -> Q (inl (addr + Z.of_nat (S i), target - Z.of_nat (S i))) s') ->
  (forall r s', read_done s0 addr target ready0 [LCons] r s' -> Q (inr r) s') ->
  runE E (ok <- wait_input ;;
      if negb ok then ret (inr None) else
      c <- gets (fun s => cbuf (cons s) (cn_r (cons s))) ;;
      modify (fun s => set_cons (set_cn_r (u32 (cn_r (cons s) + 1)) (cons s)) s) ;;
      if c =? ctrl 68 then
        when (target - Z.of_nat i <? target)
          (modify (fun s => set_cons (set_cn_r (u32 (cn_r (cons s) - 1)) (cons s)) s)) ;;
        ret (inr (Some (target - Z.of_nat i)))
      else
        st <- either_copyout true (addr + Z.of_nat i) [c] ;;
        if st =? -1 then ret (inr (Some (target - Z.of_nat i))) else
        if c =? 10 then ret (inr (Some (target - Z.of_nat i - 1)))
        else ret (inl (u64 (addr + Z.of_nat i + 1), target - Z.of_nat i - 1))) s Q.
Proof using Henv.
  intros (more & pend & Hv & Hi & Hno & Hc) Hlt Ha Hb Hnext Hdone. wp. eapply runE_wait_input; [exact Hv|]. intros s1 more1 pend1 ok Hv1 Hu1 Hok.
  rewrite <-drop_app_le, <-app_assoc in Hv1, Hok by done. destruct ok; cbn [negb]; [|wp; apply Hdone; by exists (more ++ more1), pend1, (drop i (ready0 ++ more ++ more1))].
  set (st := ready0 ++ more ++ more1) in *. destruct (st !! i) as [c|] eqn:Ei; [|apply lookup_ge_None in Ei; by rewrite drop_ge in Hok by lia].
  assert (Hsub : forall j, (j < i)%nat -> st !! j <> Some 10 /\ st !! j <> Some (ctrl 68)) by (intros j Hj; unfold st; rewrite app_assoc, lookup_app_l by lia; by apply Hno).
  assert (Hc1 : copied s0 addr st i s1) by (unfold st; rewrite app_assoc; by eapply copied_ext). assert (Hil : (i < length st)%nat) by (by eapply lookup_lt_Some).
  pose proof (v_ring _ _ _ _ Hv1) as R. rewrite (drop_S st c) in R by done. destruct (ring_take _ _ _ _ R) as [Ec R2]. wp. rewrite Ec. set (s2 := set_cons _ s1).
  assert (Hv2 : view (drop (S i) st) pend1 [LCons] s2) by (by eapply cview_cons). destruct (Z.eqb_spec c (ctrl 68)) as [->|Hd].
  - wp. assert (Hfin : forall left s3, view left pend1 [LCons] s3 -> mm s3 = mm s1 -> left = drop (if (i =? 0)%nat then 1 else i) st -> Q (inr (Some (target - Z.of_nat i))) s3).
    { intros left s3 Hv3 Hm3 Hl. apply Hdone. exists (more ++ more1), pend1, left. split; [done|]. exists i. split; [done|]. fold st; split_and!; [lia|lia|intros j Hj; by apply Hsub|intros j Hj; apply Hsub; lia|intros va; by rewrite Hm3, Hc1|]. right. left. done. }
    destruct i as [|i]; cbn [Nat.eqb] in Hfin.
    + rewrite Z.sub_0_r, Z.ltb_irrefl. wp. rewrite Z.sub_0_r in Hfin. by apply (Hfin (drop 1 st)).
    + destruct (Z.ltb_spec (target - Z.of_nat (S i)) target); [|lia]. wp. apply (Hfin (drop (S i) st)); [|done|done]. cbn [cons set_cons s2].
      change (set_cons ?k s2) with (set_cons k s1). rewrite take_back by apply R. eapply cview_cons; [exact Hv1|]. by rewrite (drop_S st (ctrl 68)).
  - wp. eapply run_runE, run_copy_byte; [exact Hv2|lia| |].
    + intros s3 Hv3 Hu3. change (0 =? -1) with false. cbv iota. assert (Hc3 : copied s0 addr st (S i) s3) by (by eapply copied_snoc). destruct (Z.eqb_spec c 10) as [->|Hn].
      * wp. apply Hdone. exists (more ++ more1), pend1, (drop (S i) st). split; [done|]. exists (S i). split; [lia|]. fold st. split_and!; [lia|lia| | |done|].
        -- intros j Hj E1. destruct (decide (j = i)) as [->|]; [rewrite Ei in E1; discriminate|]. by apply (Hsub j); [lia|].
        -- intros j Hj. apply Hsub. lia.
        -- left. split; [done|]. right. by exists i.
      * wp. rewrite u64_small by lia. replace (addr + Z.of_nat i + 1) with (addr + Z.of_nat (S i)) by lia. replace (target - Z.of_nat i - 1) with (target - Z.of_nat (S i)) by lia. apply Hnext.
        exists (more ++ more1), pend1. split; [done|]. split; [unfold st in Hil; lia|]. split; [|done]. intros j Hj. destruct (decide (j = i)) as [->|]; [fold st; rewrite Ei; split; congruence|apply Hsub; lia].
    + intros s3 Hv3 Hu3 Hnone. wp. apply Hdone. exists (more ++ more1), pend1, (drop (S i) st). split; [done|]. exists i. split; [done|]. fold st; split_and!; [lia|lia|intros j Hj; by apply Hsub|intros j Hj; apply Hsub; lia|intros va; rewrite Hu3; apply Hc1|]. right. right. done.
Qed.

Lemma runE_consoleread s ready pend addr n : view ready pend [] s -> 0 <= n -> 0 <= addr -> addr + n < 2 ^ 64 ->
  runE E (consoleread true addr n) s (fun r s' => exists more pend' left, view left pend' [] s' /\
    (r = -1 /\ p_killed (proc_at p s') = true \/ exists i, r = Z.of_nat i /\ delivered s addr n (ready ++ more) left i s')).
Proof using Henv.
  intros Hv Hn Ha Hb. unfold consoleread. wp. eapply run_runE, run_acquire; [apply Hv|set_solver|]. intros y1 Hy1. wp. pose proof (cview_sy _ _ _ _ _ _ Hv Hy1) as Hv1.
  eapply runE_mono.
  - eapply (runE_loop _ _ (fun '(dst, m) s' => exists i, dst = addr + Z.of_nat i /\ m = n - Z.of_nat i /\ 0 <= m /\ reading s addr ready i s') (fun '(_, m) _ => Z.to_nat m) (read_done s addr n ready [LCons])).
    + intros [dst m] s1 (i & -> & -> & Hm & Hr). destruct (Z.ltb_spec 0 (n - Z.of_nat i)).
      * eapply runE_turn; [exact Hr|lia|done|done| |done]. intros s2 Hr2. split; [|lia]. exists (S i). split; [done|]. split; [done|]. split; [lia|done].
      * wp. destruct Hr as (more & pend1 & Hv2 & Hi & Hno & Hc). exists more, pend1, (drop i (ready ++ more)). split; [done|]. exists i. split; [done|].
        split_and!; [lia|lia|intros j Hj; by apply Hno|intros j Hj; apply Hno; lia|done|]. left. split; [done|]. left. lia.
    + exists 0%nat. split; [lia|]. split; [lia|]. split; [lia|]. exists [], pend. rewrite app_nil_r. split; [by rewrite drop_0|]. split; [lia|]. split; [intros j Hj; lia|]. intros va. by rewrite bool_decide_false by lia.
    + lia.
  - intros r s2 (more & pend2 & left & Hv2 & Hr). wp. eapply run_runE, run_release; [apply Hv2|set_solver|]. intros y3 Hy3. rewrite drop_head in Hy3 by set_solver. pose proof (cview_sy _ _ _ _ _ _ Hv2 Hy3) as Hv3.
    destruct r as [m|]; wp; exists more, pend2, left; (split; [done|]); [right|by left]. destruct Hr as (i & -> & Hd). exists i. split; [lia|done].
Qed.
End reader.

(** Keys never change the page table of a process. *)
Lemma keyed_pagetable p cs : forall l, (p < length (procs (l_tab l)))%nat ->
  length (procs (l_tab (foldl (flip keyed) l cs))) = length (procs (l_tab l)) /\
  p_pagetable (procs (l_tab (foldl (flip keyed) l cs)) !!! p) = p_pagetable (procs (l_tab l) !!! p).
Proof.
  induction cs as [|c cs IH]; intros l Hp; [done|]. cbn [foldl].
  assert (Hk : length (procs (l_tab (keyed c l))) = length (procs (l_tab l)) /\ p_pagetable (procs (l_tab (keyed c l)) !!! p) = p_pagetable (procs (l_tab l) !!! p)).
  { assert (Hw : length (procs (wake_all ChCons (l_tab l))) = length (procs (l_tab l)) /\ p_pagetable (procs (wake_all ChCons (l_tab l)) !!! p) = p_pagetable (procs (l_tab l) !!! p)).
    { cbn. rewrite length_fmap. split; [done|]. rewrite !list_lookup_total_alt, list_lookup_fmap. destruct (lookup_lt_is_Some_2 _ _ Hp) as [q ->]. cbn. unfold woken. by destruct (_ && _). }
    unfold keyed. cbv zeta. repeat (case_match; try done). }
  destruct Hk as [Hl Ht]. destruct (IH (keyed c l)) as [Hl' Ht']; [by rewrite Hl|]. unfold flip at 2 4. by rewrite Hl', Ht'.
Qed.

Lemma view_typed h p root lv um l ready pend cs s s' : view h p root lv um ready pend [] s -> console_ok l s -> owns h (Some p) [] (sy s') -> console_ok (foldl (flip keyed) l cs) s' -> rest s s' ->
  view h p root lv um (l_ready (foldl (flip keyed) l cs)) (l_pend (foldl (flip keyed) l cs)) [] s'.
Proof.
  intros [H1 H2 H3 H4 H5 [fl H6] H7] Ok Ho' Ok' Hr. assert (Hm : mm s' = mm s /\ ld s' = ld s /\ freelist s' = freelist s) by (by rewrite Hr). destruct Hm as (Hm & Hl & Hf).
  destruct (keyed_pagetable p cs l) as [_ Hp]; [rewrite <-(ck_tab _ _ Ok); lia|]. split; [done|apply Ok'|done| |apply Ok'| |].
  - unfold proc_at. rewrite (ck_tab _ _ Ok'), Hp, <-(ck_tab _ _ Ok). done.
  - exists fl. by eapply uvm_frame; [..|exact H6].
  - intros va. rewrite Hm. apply H7.
Qed.

(** A finished line in front of the stream is what a read of enough bytes
    delivers, unless user memory cannot be written. *)
Lemma delivered_line root um s0 addr n w more left i s : delivered root um s0 addr n ((w ++ [10]) ++ more) left i s -> 10 ∉ w -> ctrl 68 ∉ w -> len w < n ->
  (i <= length w)%nat /\ uread (mm s) root (addr + Z.of_nat i) = None \/ i = S (length w) /\ forall j c, (w ++ [10]) !! j = Some c -> vget (mm s) um (addr + Z.of_nat j) = Some (u8 c).
Proof.
  intros (Hn & Hi & Hd & Hnl & Hc & Hend) H10 H4 Hlen.
  assert (Hnew : ((w ++ [10]) ++ more) !! length w = Some 10) by (rewrite lookup_app_l by (rewrite length_app; cbn; lia); by apply list_lookup_middle).
  assert (Hin : forall j c, ((w ++ [10]) ++ more) !! j = Some c -> (j < length w)%nat -> c ∈ w) by (intros j c Hj Hlt; rewrite <-app_assoc, lookup_app_l in Hj by done; by eapply list_elem_of_lookup_2).
  assert (Hle : (i <= S (length w))%nat) by (destruct (decide (S (length w) < i)%nat) as [Hlt|]; [|lia]; by destruct (Hnl _ Hlt)).
  destruct (decide (i = S (length w))) as [->|Hne].
  - right. split; [done|]. intros j c Hj. rewrite Hc, bool_decide_true; [|apply lookup_lt_Some in Hj; rewrite length_app in Hj; cbn in Hj; lia]. replace (Z.to_nat _) with j by lia. by rewrite (lookup_app_l_Some _ _ _ _ Hj).
  - left. split; [lia|]. destruct Hend as [[_ [He|(j & -> & Hj)]]|[(_ & H4' & _)|(_ & Hu & _)]]; [lia| | |done].
    + exfalso. apply H10, (Hin j); [done|lia].
    + exfalso. destruct (decide (i = length w)) as [->|]; [rewrite Hnew in H4'; discriminate|]. apply H4, (Hin i); [done|lia].
Qed.

(** ** Lines, one read each *)

Definition lines_of (ws : list (list Z)) : list Z := ws ≫= fun w => w ++ [10].

(** The read [rd] (address and size) has room for the line [w]. *)
Definition line_fits (um : umap) (w : list Z) (rd : Z * Z) : Prop :=
  (10 ∉ w) /\ (ctrl 68 ∉ w) /\ len w < rd.2 /\ 0 <= rd.1 /\ rd.1 + rd.2 < 2 ^ 64 /\ AddressSpace.user_range um rd.1 rd.2.

Definition apart (reads : list (Z * Z)) : Prop := forall i j a n a' n', reads !! i = Some (a, n) -> reads !! j = Some (a', n') -> i <> j -> a + n <= a' \/ a' + n' <= a.

(** A program that reads into one buffer after the other, until a read fails. *)
Fixpoint read_lines (reads : list (Z * Z)) : K (list Z) :=
  match reads with
  | [] => ret []
  | (a, n) :: reads' =>
      r <- consoleread true a n ;;
      if r <? 0 then ret [r] else
      rs <- read_lines reads' ;;
      ret (r :: rs)
  end.

Section lines.
Context (h p : nat) (root : Z) (lv : gmap Z nat) (E : kstate -> kstate -> Prop) (um : umap) (Henv : typing_env h p root lv E um).
Abbreviation view := (view h p root lv um).

Lemma runE_read_line s w tl pend a n (Q : Z -> kstate -> Prop) : line_fits um w (a, n) -> view ((w ++ [10]) ++ tl) pend [] s ->
  (forall s', p_killed (proc_at p s') = true -> Q (-1) s') ->
  (forall s' more pend', view (tl ++ more) pend' [] s' -> (forall j c, (w ++ [10]) !! j = Some c -> vget (mm s') um (a + Z.of_nat j) = Some (u8 c)) ->
     (forall va, ~ a <= va < a + n -> vget (mm s') um va = vget (mm s) um va) -> Q (len w + 1) s') ->
  runE E (consoleread true a n) s Q.
Proof using Henv.
  intros (H10 & H4 & Hn & Ha & Hend & Hu) Hv HQk HQ. cbn [fst snd] in *. eapply runE_mono; [eapply runE_consoleread; [exact Henv|exact Hv|lia|done|done]|].
  intros r s2 (more & pend2 & rem & Hv2 & [[-> Hk]|(i & -> & Hd)]); [by apply HQk|]. rewrite <-app_assoc in Hd. destruct (v_uvm _ _ _ _ _ _ _ _ _ Hv2) as [fl Hok].
  assert (Hno : forall k, Z.of_nat k < n -> uread (mm s2) root (a + Z.of_nat k) <> None).
  { intros k Hk. apply not_eq_None_Some, (AddressSpace.user_range_read s2 root lv fl um a n); [done|done|lia]. }
  destruct (delivered_line _ _ _ _ _ _ _ _ _ _ Hd H10 H4 Hn) as [[Hi Hx]|[-> Hm]]; [exfalso; apply (Hno i); [lia|done]|].
  destruct Hd as (Hin & _ & _ & _ & Hc & Hr). assert (Hrem : rem = tl ++ more).
  { assert (Hdr : drop (S (length w)) ((w ++ [10]) ++ tl ++ more) = tl ++ more) by (apply drop_app_length'; rewrite length_app; cbn; lia).
    destruct Hr as [[-> _]|[(_ & _ & ->)|(Hlt & Hx & _)]]; [done|done|by destruct (Hno (S (length w)) Hlt)]. }
  subst rem. replace (Z.of_nat (S (length w))) with (len w + 1) by lia. eapply HQ; [exact Hv2|exact Hm|]. intros va Hva. rewrite Hc. by rewrite bool_decide_false by lia.
Qed.

Lemma runE_read_lines ws reads : Forall2 (line_fits um) ws reads -> apart reads -> forall s tl pend, view (lines_of ws ++ tl) pend [] s ->
  runE E (read_lines reads) s (fun rs s' =>
    (p_killed (proc_at p s') = true /\ exists k, rs = ((fun w => len w + 1) <$> take k ws) ++ [-1]) \/
    rs = (fun w => len w + 1) <$> ws /\
    (forall va, (forall rd, rd ∈ reads -> ~ rd.1 <= va < rd.1 + rd.2) -> vget (mm s') um va = vget (mm s) um va) /\
    forall k w rd j c, ws !! k = Some w -> reads !! k = Some rd -> (w ++ [10]) !! j = Some c -> vget (mm s') um (rd.1 + Z.of_nat j) = Some (u8 c)).
Proof using Henv.
  induction 1 as [|w [a n] ws reads Hf Hfs IH]; intros Hap s tl pend Hv; cbn [read_lines]; wp.
  { right. split_and!; [done|done|]. intros k w rd j c Hk. by rewrite lookup_nil in Hk. }
  change (lines_of (w :: ws)) with ((w ++ [10]) ++ lines_of ws) in Hv. rewrite <-app_assoc in Hv. pose proof Hf as (_ & _ & Hn & _). cbn [fst snd] in Hn. eapply runE_read_line; [exact Hf|exact Hv| |].
  - intros s1 Hk. change (-1 <? 0) with true. cbv iota. wp. left. split; [done|]. by exists 0%nat.
  - intros s1 more pend1 Hv1 Hm1 Hu1. destruct (Z.ltb_spec (len w + 1) 0); [lia|]. wp. rewrite <-app_assoc in Hv1. eapply runE_mono; [eapply (IH ltac:(intros i j a1 n1 a2 n2 H1 H2 H3; by eapply (Hap (S i) (S j)); [..|lia]) s1); exact Hv1|].
    intros rs s2 [[Hk (k & ->)]|(-> & Hout & Hin)]; wp.
    + left. split; [done|]. by exists (S k).
    + right. split_and!; [done| |].
      * intros va Hva. rewrite Hout by (intros rd Hrd; apply Hva; by right). apply Hu1. apply (Hva (a, n)). by left.
      * intros [|k] w' rd j c Hw Hrd Hj; [|by eapply Hin]. cbn in Hw, Hrd. simplify_eq. cbn [fst]. rewrite Hout; [by apply Hm1|].
        intros [a' n'] (i & Hi)%list_elem_of_lookup_1. pose proof (Hap 0%nat (S i) a n a' n' eq_refl Hi ltac:(lia)). apply lookup_lt_Some in Hj. rewrite length_app in Hj. cbn in Hj |- *. lia.
Qed.
End lines.

(** ** Claims *)

(** C21: the UART interrupt handler edits lines.  uartintr() takes every byte
    that was typed, in order, and does with each what [keyed] says to the
    finished lines, the line being edited, the sleeping readers and the
    screen; the ring holds exactly these two lists, across the wrap-around of
    its indices, and nothing else in the kernel changes. *)
Theorem uartintr_correct h me s l cs : owns h me [] (sy s) -> console_ok l s -> uart_in (cons s) = cs -> Forall (fun c => 0 <= c < 256) cs ->
  run uartintr s (fun _ s' => owns h me [] (sy s') /\ console_ok (foldl (flip keyed) l cs) s' /\ rest s s' /\ uart_in (cons s') = []).
Proof. intros Ho Ok Hin Hb. eapply (run_uartintr h me []); try done; try (by apply not_elem_of_nil). intros i. apply not_elem_of_nil. Qed.


(** C19: the lines that are typed are read, in order.  If the typed keys finish
    the lines [ws] (which editing keys may have changed on the way, and in
    which there is no ^D), then after the interrupt a process that reads with
    one call of read per line, each into user memory of its own with room for
    the line, gets the lines one after the other: the k-th read returns the
    length of the k-th line with its newline, and its bytes are at the k-th
    address in the end; or a read returns -1, and then the process has been
    killed and the reads before it returned their lines. *)
Theorem console_roundtrip h p root lv E um s l ready pend ws tl reads : typing_env h p root lv E um -> view h p root lv um ready pend [] s -> console_ok l s ->
  Forall (fun c => 0 <= c < 256) (uart_in (cons s)) -> l_ready (foldl (flip keyed) l (uart_in (cons s))) = lines_of ws ++ tl ->
  Forall2 (line_fits um) ws reads -> apart reads ->
  runE E (uartintr ;; read_lines reads) s (fun rs s' =>
    (p_killed (proc_at p s') = true /\ exists k, rs = ((fun w => len w + 1) <$> take k ws) ++ [-1]) \/
    rs = (fun w => len w + 1) <$> ws /\
    forall k w rd j c, ws !! k = Some w -> reads !! k = Some rd -> (w ++ [10]) !! j = Some c -> vget (mm s') um (rd.1 + Z.of_nat j) = Some (u8 c)).
Proof.
  intros Henv Hv Ok Hb Hline Hf Hap. wp. eapply run_runE, (run_uartintr h (Some p) []); try done; try (by apply not_elem_of_nil); [intros i; apply not_elem_of_nil|apply Hv|].
  intros s1 Ho1 Ok1 Hr1 Hi1. pose proof (view_typed _ _ _ _ _ _ _ _ _ _ _ Hv Ok Ho1 Ok1 Hr1) as Hv1. rewrite Hline in Hv1.
  eapply runE_mono; [by eapply runE_read_lines|]. intros rs s2 [Hk|(-> & _ & Hin)]; [by left|]. by right.
Qed.

(** ** Examples *)

(** Process 0 with the parent's address space; the indices of the ring are
    about to wrap around, and [l], [x], backspace, [s], return, [p] and return
    are typed. *)
Definition typed_cons : consst := mkCons (replicate 128 0) (2 ^ 32 - 2) (2 ^ 32 - 2) (2 ^ 32 - 2) true false [] [108; 120; 8; 115; 13; 112; 13] 3.
Definition typed_machine : kstate :=
  let s := AddressSpace.vm_machine in
  let s := set_proc_at 0 (set_p_pagetable AddressSpace.parent (proc_at 0 s)) s in
  set_cons typed_cons s.
Definition line0 : line := mkLine [] [] (pt typed_machine) [].

Lemma typed_ring : ring_ok [] [] typed_cons.
Proof. split; [reflexivity|cbn; lia|reflexivity|reflexivity|cbn; lia|]. intros i x Hx. cbn in Hx. by rewrite lookup_nil in Hx. Qed.
Lemma typed_console : console_ok line0 typed_machine.
Proof. split; [apply typed_ring|apply not_elem_of_nil|reflexivity..]. Qed.
Lemma typed_view : view 0 0 AddressSpace.parent AddressSpace.parent_tables AddressSpace.parent_pages [] [] [] typed_machine.
Proof.
  split; [apply Machine.owns_machine|reflexivity|lia|reflexivity|apply typed_ring|exists AddressSpace.free_pages; eapply uvm_frame; [..|exact AddressSpace.parent_ok]; reflexivity|].
  intros va. apply AddressSpace.parent_user_only.
Qed.
Lemma typed_line : l_ready (foldl (flip keyed) line0 [108; 120; 8; 115; 13; 112; 13]) = lines_of [[108; 115]; [112]] ++ [].
Proof. vm_compute. reflexivity. Qed.

(** Somebody presses return while the reader sleeps. *)
Definition finish (c : consst) : consst :=
  if cn_r c =? cn_w c then
    let c := if cn_e c =? cn_w c then set_cn_e (u32 (cn_e c + 1)) (set_cbuf (cn_e c) 10 c) else c in
    set_cn_w (cn_e c) c
  else c.
Definition return_env (s s' : kstate) : Prop := s' = set_cons (finish (cons s)) s.

Lemma return_typing h p root lv um : typing_env h p root lv return_env um.
Proof.
  intros s ready pend Hv _ _. split; [by eexists|]. intros s' ->. pose proof (v_ring _ _ _ _ _ _ _ _ _ Hv) as R. unfold finish.
  rewrite (ring_ready _ _ _ R), (ring_pending _ _ _ R). case_bool_decide as E1; [subst ready|exists [], pend; rewrite app_nil_r; replace (set_cons (cons s) s) with s by (by destruct s); by auto].
  case_bool_decide as E2; cbv zeta.
  - subst pend. exists [10], []. split; [|by auto]. eapply cview_cons; [exact Hv|]. apply (ring_commit [] ([] ++ [10])), ring_push; [done|done|lia].
  - exists pend, []. split; [|by auto]. eapply cview_cons; [exact Hv|]. by apply (ring_commit [] pend).
Qed.

Lemma uartintr_correct_witness : run uartintr typed_machine (fun _ s' => owns 0 (Some 0%nat) [] (sy s') /\
  console_ok (foldl (flip keyed) line0 [108; 120; 8; 115; 13; 112; 13]) s' /\ rest typed_machine s' /\ uart_in (cons s') = []).
Proof.
  exact (uartintr_correct 0 (Some 0%nat) typed_machine line0 [108; 120; 8; 115; 13; 112; 13] Machine.owns_machine typed_console eq_refl ltac:(repeat constructor; lia)).
Defined.


Lemma console_roundtrip_witness :
  runE return_env (uartintr ;; read_lines [(8, 100); (108, 100)]) typed_machine (fun rs s' =>
    (p_killed (proc_at 0 s') = true /\ exists k, rs = ((fun w => len w + 1) <$> take k [[108; 115]; [112]]) ++ [-1]) \/
    rs = [3; 2] /\ forall k w rd j c, [[108; 115]; [112]] !! k = Some w -> [(8, 100); (108, 100)] !! k = Some rd -> (w ++ [10]) !! j = Some c ->
      vget (mm s') AddressSpace.parent_pages (rd.1 + Z.of_nat j) = Some (u8 c)).
Proof.
  assert (Hu : forall a, 0 <= a -> a + 100 <= PGSIZE -> AddressSpace.user_range AddressSpace.parent_pages a 100).
  { intros a H0 H1 va Hva. exists (AddressSpace.P 4), PTE_WRXU. rewrite Z.div_small by lia. split; [apply lookup_singleton_eq|reflexivity]. }
  apply (console_roundtrip 0 0 AddressSpace.parent AddressSpace.parent_tables return_env AddressSpace.parent_pages typed_machine line0 [] [] [[108; 115]; [112]] [] [(8, 100); (108, 100)] (return_typing _ _ _ _ _) typed_view typed_console).
  - repeat constructor; lia.
  - exact typed_line.
  - repeat constructor; cbn [fst snd]; try lia; try (apply (bool_decide_unpack _); vm_compute; exact I); apply Hu; lia.
  - intros [|[|i]] [|[|j]] a n a' n' Hi Hj Hne; cbn in Hi, Hj; simplify_eq; lia.
Defined.
End ConsoleProof.
