(* ===== verification/Virtio.v ===== *)
(** * The virtio block device driver (kernel/virtio_disk.c)

    Descriptors, the available ring and the used ring are typed views of
    disk[n].pages; a descriptor's address is a [dmaptr].  The device itself is
    not part of the kernel: it acts on the rings between the notification and
    the interrupt, see VirtioRefine. *)

From S2P Require Import Prelude Bytes CString KState Spinlock Kernel Riscv Kalloc Vm Sched Console.

Module Virtio.
Import Vm Sched Console.

Definition VIRTIO_MMIO_MAGIC_VALUE : Z := 0.
Definition VIRTIO_MMIO_VERSION : Z := 4.
Definition VIRTIO_MMIO_DEVICE_ID : Z := 8.
Definition VIRTIO_MMIO_VENDOR_ID : Z := 12.
Definition VIRTIO_MMIO_DEVICE_FEATURES : Z := 16.
Definition VIRTIO_MMIO_DRIVER_FEATURES : Z := 32.
Definition VIRTIO_MMIO_GUEST_PAGE_SIZE : Z := 40.
Definition VIRTIO_MMIO_QUEUE_SEL : Z := 48.
Definition VIRTIO_MMIO_QUEUE_NUM_MAX : Z := 52.
Definition VIRTIO_MMIO_QUEUE_NUM : Z := 56.
Definition VIRTIO_MMIO_QUEUE_PFN : Z := 64.
Definition VIRTIO_MMIO_QUEUE_NOTIFY : Z := 80.
Definition VIRTIO_MMIO_STATUS : Z := 112.
Definition VRING_DESC_F_NEXT : Z := 1.
Definition VRING_DESC_F_WRITE : Z := 2.
Definition VIRTIO_BLK_T_IN : Z := 0.
Definition VIRTIO_BLK_T_OUT : Z := 1.

(** R(n, r): the address of register r of disk n. *)
Definition R (n : nat) (r : Z) : Z := VIRTION (Z.of_nat n) + r.

Definition disk_at (n : nat) (s : kstate) : vdisk := vdisks s !!! n.
Definition set_disk_at (n : nat) (d : vdisk) (s : kstate) : kstate :=
  set_vdisks (<[n := d]> (vdisks s)) s.
Definition upd_disk (n : nat) (f : vdisk -> vdisk) : K unit :=
  modify (fun s => set_disk_at n (f (disk_at n s)) s).

Definition clear_bits (x : Z) (bits : list Z) : Z :=
  foldl (fun x b => Z.ldiff x (Z.shiftl 1 b)) x bits.

(** disk[n].pages is zeroed: no descriptor, both rings empty. *)
Definition zero_pages (d : vdisk) : vdisk :=
  set_v_desc (replicate 8 (mkDesc DNull 0 0 0))
    (set_v_avail_idx 0 (set_v_avail (replicate 8 0)
      (set_v_used_id 0 (set_v_used (replicate 8 0) d)))).

(** [pages_pa]: the physical address of disk[n].pages. *)
Definition virtio_disk_init (pages_pa : Z) (n : nat) : K unit :=
  i <- gets (fun s => v_init (disk_at n s)) ;;
  if (i : bool) then ret tt else
  printf "virtio disk init %d" [AInt (Z.of_nat n)] ;; iter_each [10] consputc ;;
  initlock (LVdisk n) "virtio_disk" ;;
  magic <- mmio_read (R n VIRTIO_MMIO_MAGIC_VALUE) ;;
  version <- mmio_read (R n VIRTIO_MMIO_VERSION) ;;
  device_id <- mmio_read (R n VIRTIO_MMIO_DEVICE_ID) ;;
  vendor <- mmio_read (R n VIRTIO_MMIO_VENDOR_ID) ;;
  if negb (magic =? 1953655158) || negb (version =? 1) || negb (device_id =? 2)
     || negb (vendor =? 1431127377)
  then panic "could not find virtio disk" else
  let status := Z.lor 0 1 in
  mmio_write (R n VIRTIO_MMIO_STATUS) status ;;
  let status := Z.lor status 2 in
  mmio_write (R n VIRTIO_MMIO_STATUS) status ;;
  features <- mmio_read (R n VIRTIO_MMIO_DEVICE_FEATURES) ;;
  mmio_write (R n VIRTIO_MMIO_DRIVER_FEATURES)
    (u32 (clear_bits features [5; 7; 11; 12; 27; 29; 28])) ;;
  let status := Z.lor status 8 in
  mmio_write (R n VIRTIO_MMIO_STATUS) status ;;
  let status := Z.lor status 4 in
  mmio_write (R n VIRTIO_MMIO_STATUS) status ;;
  mmio_write (R n VIRTIO_MMIO_GUEST_PAGE_SIZE) PGSIZE ;;
  mmio_write (R n VIRTIO_MMIO_QUEUE_SEL) 0 ;;
  max <- mmio_read (R n VIRTIO_MMIO_QUEUE_NUM_MAX) ;;
  if max =? 0 then panic "virtio disk has no queue 0" else
  if max <? NUM then panic "virtio disk max queue too short" else
  mmio_write (R n VIRTIO_MMIO_QUEUE_NUM) NUM ;;
  upd_disk n zero_pages ;;
  mmio_write (R n VIRTIO_MMIO_QUEUE_PFN) (u32 (Z.shiftr pages_pa PGSHIFT)) ;;
  iter_each (seq 0 8) (fun i =>
    modify (fun s => set_disk_at n (set_v_free (<[i := true]> (v_free (disk_at n s))) (disk_at n s)) s)) ;;
  upd_disk n (set_v_init true).

(** Find a free descriptor, mark it non-free, return its index. *)
Definition alloc_desc (n : nat) : K (option nat) :=
  for_each (seq 0 8) (fun i =>
    d <- gets (disk_at n) ;;
    if (v_free d !!! i : bool) then
      upd_disk n (set_v_free (<[i := false]> (v_free d))) ;; ret (Some i)
    else ret None).

Definition free_desc (n i : nat) : K unit :=
  if (8 <=? i)%nat then panic "virtio_disk_intr 1" else
  d <- gets (disk_at n) ;;
  if (v_free d !!! i : bool) then panic "virtio_disk_intr 2" else
  upd_disk n (set_v_desc (<[i := set_d_addr DNull (v_desc d !!! i)]> (v_desc d))) ;;
  upd_disk n (set_v_free (<[i := true]> (v_free d))) ;;
  wakeup (ChDiskFree n).

(** Free a chain of descriptors; a descriptor already free panics, so the
    loop ends after at most NUM of them. *)
Definition free_chain (n i : nat) : K unit :=
  loop 10 (fun i =>
    free_desc n i ;;
    d <- gets (fun s => v_desc (disk_at n s) !!! i) ;;
    if negb (Z.land (d_flags d) VRING_DESC_F_NEXT =? 0) then ret (inl (Z.to_nat (d_next d)))
    else ret (inr tt)) i.

Definition alloc3_desc (n : nat) : K (option (list nat)) :=
  loop 4 (fun idx =>
    if (length idx <? 3)%nat then
      i <- alloc_desc n ;;
      match i with
      | Some i => ret (inl (idx ++ [i]))
      | None => iter_each idx (free_desc n) ;; ret (inr None)
      end
    else ret (inr (Some idx))) [].

Definition set_desc (n i : nat) (v : vdesc) : K unit :=
  modify (fun s => set_disk_at n (set_v_desc (<[i := v]> (v_desc (disk_at n s))) (disk_at n s)) s).

(** The address of buf0 in the frame of virtio_disk_rw on the kernel stack. *)
Definition buf0_offset : Z := 2048.

(** struct virtio_blk_outhdr at physical address [a]. *)
Definition store_outhdr (a type sector : Z) (m : mem) : mem :=
  st64 (st32 (st32 m a type) (a + 4) 0) (a + 8) sector.

Definition virtio_disk_rw (n b : nat) (write : bool) : K unit :=
  blockno <- gets (fun s => b_blockno (buf_at b s)) ;;
  let sector := u32 (blockno * 2) in
  acquire (LVdisk n) ;;
  idx <- loop wait_fuel (fun _ =>
    r <- alloc3_desc n ;;
    match r with
    | Some idx => ret (inr idx)
    | None => sleep (ChDiskFree n) (LVdisk n) ;; ret (inl tt)
    end) tt ;;
  let idx0 := idx !!! 0%nat in
  let idx1 := idx !!! 1%nat in
  let idx2 := idx !!! 2%nat in
  p <- myproc' ;;
  sp <- gets (fun s => p_kstack (proc_at p s)) ;;
  a0 <- kvmpa (sp + buf0_offset) ;;
  modify (fun s => set_mm (store_outhdr a0 (if write then VIRTIO_BLK_T_OUT else VIRTIO_BLK_T_IN)
                             sector (mm s)) s) ;;
  set_desc n idx0 (mkDesc (DPhys a0) 16 VRING_DESC_F_NEXT (Z.of_nat idx1)) ;;
  set_desc n idx1 (mkDesc (DData b) BSIZE
    (Z.lor (if write then 0 else VRING_DESC_F_WRITE) VRING_DESC_F_NEXT) (Z.of_nat idx2)) ;;
  modify (fun s => set_disk_at n (set_v_info_status
            (<[idx0 := 0]> (v_info_status (disk_at n s))) (disk_at n s)) s) ;;
  set_desc n idx2 (mkDesc (DStatus idx0) 1 VRING_DESC_F_WRITE 0) ;;
  modify (fun s => set_buf_at b (set_b_disk true (buf_at b s)) s) ;;
  modify (fun s => set_disk_at n (set_v_info_b
            (<[idx0 := Some b]> (v_info_b (disk_at n s))) (disk_at n s)) s) ;;
  ai <- gets (fun s => v_avail_idx (disk_at n s)) ;;
  modify (fun s => set_disk_at n (set_v_avail
            (<[Z.to_nat (ai mod NUM) := Z.of_nat idx0]> (v_avail (disk_at n s))) (disk_at n s)) s) ;;
  upd_disk n (set_v_avail_idx (u16 (ai + 1))) ;;
  mmio_write (R n VIRTIO_MMIO_QUEUE_NOTIFY) 0 ;;
  loop wait_fuel (fun _ =>
    d <- gets (fun s => b_disk (buf_at b s)) ;;
    if (d : bool) then sleep (ChBuf b) (LVdisk n) ;; ret (inl tt) else ret (inr tt)) tt ;;
  modify (fun s => set_disk_at n (set_v_info_b
            (<[idx0 := None]> (v_info_b (disk_at n s))) (disk_at n s)) s) ;;
  free_chain n idx0 ;;
  release (LVdisk n).

Definition virtio_disk_intr (n : nat) : K unit :=
  acquire (LVdisk n) ;;
  loop 9 (fun _ =>
    d <- gets (disk_at n) ;;
    if v_used_idx d mod NUM =? v_used_id d mod NUM then ret (inr tt) else
    let id := Z.to_nat (v_used d !!! Z.to_nat (v_used_idx d)) in
    if negb (v_info_status d !!! id =? 0) then panic "virtio_disk_intr status" else
    match v_info_b d !!! id with
    | None => stuck "null buf"
    | Some b =>
        modify (fun s => set_buf_at b (set_b_disk false (buf_at b s)) s) ;;
        wakeup (ChBuf b) ;;
        upd_disk n (set_v_used_idx ((v_used_idx d + 1) mod NUM)) ;;
        ret (inl tt)
    end) tt ;;
  release (LVdisk n).

End Virtio.
