(* ===== verification/Disk.v ===== *)
(** * The disk as the buffer cache sees it

    [DiskEnv E] is what the file system relies on: in the environment [E],
    which runs the device and its interrupt while a process sleeps,
    virtio_disk_rw returns after moving one block between a buffer and the
    disk and changes nothing else the file system can see.  The driver's own
    theorems (VirtioRefine) discharge it. *)

From S2P Require Import Prelude Bytes CString KState Spinlock Kernel Riscv Kalloc Vm Sched Console Virtio.

Module Disk.
Import Sched Virtio.

(** Process tables that differ at most in who sleeps, and on what. *)
Definition proc_core (q : proc) : proc := set_p_chan None (set_p_state UNUSED q).
Definition pt_sim (t t' : ptable) : Prop :=
  proc_core <$> procs t = proc_core <$> procs t' /\ set_procs [] t = set_procs [] t'.

#[export] Instance pt_sim_equiv : Equivalence pt_sim.
Proof.
  split; unfold pt_sim.
  - done.
  - intros ?? [? ?]. done.
  - intros ??? [? ?] [? ?]. split; congruence.
Qed.

Lemma pt_sim_length t t' : pt_sim t t' -> length (procs t) = length (procs t').
Proof. intros [H _]. apply (f_equal length) in H. by rewrite !length_fmap in H. Qed.

Lemma pt_sim_proc t t' i : pt_sim t t' ->
  proc_core (procs t !!! i) = proc_core (procs t' !!! i).
Proof.
  intros Hs. pose proof (pt_sim_length _ _ Hs) as Hlen.
  rewrite !list_lookup_total_alt. destruct (procs t !! i) as [q|] eqn:Hq.
  - destruct (lookup_lt_is_Some_2 (procs t') i) as [q' Hq'].
    { rewrite <-Hlen. by eapply lookup_lt_Some. }
    rewrite Hq'. cbn. destruct Hs as [Hs _].
    apply (f_equal (.!! i)) in Hs. rewrite !list_lookup_fmap, Hq, Hq' in Hs. by apply (inj Some) in Hs.
  - rewrite (lookup_ge_None_2 (procs t')); [done|].
    rewrite <-Hlen. by apply lookup_ge_None.
Qed.

Lemma pt_sim_pid t t' i : pt_sim t t' -> p_pid (procs t !!! i) = p_pid (procs t' !!! i).
Proof. intros H. by apply (f_equal p_pid (pt_sim_proc _ _ i H)). Qed.

Lemma pt_sim_wake ch t : pt_sim t (wake_all ch t).
Proof.
  split; [|done]. cbn. rewrite <-list_fmap_compose. apply list_fmap_ext. intros i q _.
  cbn. unfold woken. by case_match.
Qed.

(** What one disk access may change: [s] with buffers [bs] and devices [d],
    up to the lock layer, the sleepers, the driver's rings and its request
    headers on the kernel stacks. *)
Definition io_upd (y : sync) (m : mem) (t : ptable) (v : list vdisk) (bs : list buf)
    (d : devst) (s : kstate) : kstate :=
  mkK y m (freelist s) (kernel_pagetable s) t bs (logs s) (fs s) (ftable s) (devsw s)
    (pipes s) (cons s) v d (ld s).

Abbreviation block := (list Z).
Abbreviation bkey := (nat * Z)%type.
Abbreviation disk := (gmap bkey block).

(** The devices after block [k] of the disk was overwritten. *)
Definition write_dev (k : bkey) (data : block) (d : devst) : devst :=
  mkDev (<[k := data]> (disk_img d)) (disk_trace d ++ [(k.1, k.2, data)]) (mmio d).

Class DiskEnv (E : kstate -> kstate -> Prop) := {
  (** the driver is idle and the running process can use it *)
  ready : nat -> kstate -> Prop;
  (** addresses of request headers *)
  scratch : Z -> Prop;
  (** memory the rest of the kernel may write *)
  buffer : Z -> Prop;
  ready_ext : forall p s s',
    ready p s -> (forall a, ~ buffer a -> getb (mm s') a = getb (mm s) a) -> kernel_pagetable s' = kernel_pagetable s ->
    pt_sim (pt s) (pt s') -> vdisks s' = vdisks s -> ld s' = ld s ->
    dom (disk_img (dev s')) = dom (disk_img (dev s)) -> mmio (dev s') = mmio (dev s) ->
    length (bufs s') = length (bufs s) -> ready p s';
  rw_read : forall h p s b v data,
    owns h (Some p) [] (sy s) -> ready p s -> (b < NBUF)%nat -> bufs s !! b = Some v ->
    disk_img (dev s) !! (b_dev v, b_blockno v) = Some data ->
    runE E (virtio_disk_rw (b_dev v) b false) s (fun _ s' => exists y m t vd,
      owns h (Some p) [] y /\ pt_sim (pt s) t /\
      (forall a, ~ scratch a -> getb m a = getb (mm s) a) /\
      s' = io_upd y m t vd (<[b := set_b_data data (set_b_disk false v)]> (bufs s)) (dev s) s /\
      ready p s');
  rw_write : forall h p s b v,
    owns h (Some p) [] (sy s) -> ready p s -> (b < NBUF)%nat -> bufs s !! b = Some v ->
    is_Some (disk_img (dev s) !! (b_dev v, b_blockno v)) ->
    runE E (virtio_disk_rw (b_dev v) b true) s (fun _ s' => exists y m t vd,
      owns h (Some p) [] y /\ pt_sim (pt s) t /\
      (forall a, ~ scratch a -> getb m a = getb (mm s) a) /\
      s' = io_upd y m t vd (<[b := set_b_disk false v]> (bufs s))
             (write_dev (b_dev v, b_blockno v) (b_data v) (dev s)) s /\
      ready p s')
}.

Section io.
Context (E : kstate -> kstate -> Prop) `{HE : !DiskEnv E} (h p : nat).

(** [s'] is [s] with buffers [bs] and devices [d], as far as the file system
    is concerned, and disk accesses remain possible. *)
Definition io (s : kstate) (bs : list buf) (d : devst) (s' : kstate) : Prop :=
  exists y m t v, s' = io_upd y m t v bs d s /\ owns h (Some p) [] y /\
    pt_sim (pt s) t /\ (forall a, ~ scratch a -> getb m a = getb (mm s) a) /\
    length (procs t) = NPROC /\ ready p s'.

Lemma io_owns s bs d s' : io s bs d s' -> owns h (Some p) [] (sy s').
Proof. intros (y & m & t & v & -> & ? & _). done. Qed.
Lemma io_ready s bs d s' : io s bs d s' -> ready p s'.
Proof. intros (y & m & t & v & _ & _ & _ & _ & _ & ?). done. Qed.
Lemma io_bufs s bs d s' : io s bs d s' -> bufs s' = bs.
Proof. intros (y & m & t & v & -> & _). done. Qed.
Lemma io_dev s bs d s' : io s bs d s' -> dev s' = d.
Proof. intros (y & m & t & v & -> & _). done. Qed.
Lemma io_logs s bs d s' : io s bs d s' -> logs s' = logs s.
Proof. intros (y & m & t & v & -> & _). done. Qed.
Lemma io_fs s bs d s' : io s bs d s' -> fs s' = fs s.
Proof. intros (y & m & t & v & -> & _). done. Qed.
Lemma io_nproc s bs d s' : io s bs d s' -> length (procs (pt s')) = NPROC.
Proof. intros (y & m & t & v & -> & _ & _ & _ & ? & _). done. Qed.
Lemma io_pt s bs d s' : io s bs d s' -> pt_sim (pt s) (pt s').
Proof. intros (y & m & t & v & -> & _ & ? & _). done. Qed.
Lemma io_pid s bs d s' i : io s bs d s' -> p_pid (proc_at i s') = p_pid (proc_at i s).
Proof. intros H. symmetry. apply pt_sim_pid. by eapply io_pt. Qed.

Lemma io_trans s bs d s1 bs' d' s2 : io s bs d s1 -> io s1 bs' d' s2 -> io s bs' d' s2.
Proof.
  intros (y & m & t & v & -> & Ho & Ht & Hm & Hn & Hr) (y' & m' & t' & v' & -> & Ho' & Ht' & Hm' & Hn' & Hr').
  exists y', m', t', v'. split; [done|]. split; [done|]. split; [by etrans|].
  split; [|done]. intros a Ha. rewrite Hm' by done. by apply Hm.
Qed.
End io.

End Disk.
