(* ===== verification/Bio.v ===== *)
(** * The buffer cache (kernel/bio.c, kernel/buf.h)

    [bufs] holds bcache.buf[0..NBUF) followed by bcache.head (index NBUF).
    The LRU list is the circular doubly-linked list through b->prev and
    b->next. *)

From S2P Require Import Prelude Bytes CString KState Spinlock Kernel Riscv Kalloc Vm Sched Console Virtio Disk.

Module Bio.
Import Sched Virtio Disk.

(** &bcache.head *)
Definition bhead : nat := NBUF.

Definition upd_buf (b : nat) (f : buf -> buf) : K unit :=
  modify (fun s => set_buf_at b (f (buf_at b s)) s).
Definition bnext (b : nat) : K nat := gets (fun s => b_next (buf_at b s)).
Definition bprev (b : nat) : K nat := gets (fun s => b_prev (buf_at b s)).

(** b->next = head.next; b->prev = &head; head.next->prev = b; head.next = b *)
Definition link_front (b : nat) : K unit :=
  hn <- bnext bhead ;;
  upd_buf b (set_b_next hn) ;;
  upd_buf b (set_b_prev bhead) ;;
  hn <- bnext bhead ;;
  upd_buf hn (set_b_prev b) ;;
  upd_buf bhead (set_b_next b).

Definition binit : K unit :=
  initlock LBcache "bcache" ;;
  upd_buf bhead (set_b_prev bhead) ;;
  upd_buf bhead (set_b_next bhead) ;;
  iter_each (seq 0 NBUF) (fun b =>
    hn <- bnext bhead ;;
    upd_buf b (set_b_next hn) ;;
    upd_buf b (set_b_prev bhead) ;;
    initsleeplock (buf_lock b) ;;
    hn <- bnext bhead ;;
    upd_buf hn (set_b_prev b) ;;
    upd_buf bhead (set_b_next b)).

(** The two searches of bget: for the block from head.next on, and for an
    unused buffer from head.prev back; they return the buffer found. *)
Definition bget_cached (dev : nat) (blockno : Z) : K (option nat) :=
  b0 <- bnext bhead ;;
  loop (S NBUF) (fun b =>
    if (b =? bhead)%nat then ret (inr None) else
    v <- gets (buf_at b) ;;
    if (b_dev v =? dev)%nat && (b_blockno v =? blockno) then ret (inr (Some b))
    else ret (inl (b_next v))) b0.

Definition bget_unused : K (option nat) :=
  b0 <- bprev bhead ;;
  loop (S NBUF) (fun b =>
    if (b =? bhead)%nat then ret (inr None) else
    v <- gets (buf_at b) ;;
    if b_refcnt v =? 0 then ret (inr (Some b))
    else ret (inl (b_prev v))) b0.

Definition bget (dev : nat) (blockno : Z) : K nat :=
  acquire LBcache ;;
  r <- bget_cached dev blockno ;;
  match r with
  | Some b =>
      modify (fun s => set_buf_at b (set_b_refcnt (u32 (b_refcnt (buf_at b s) + 1)) (buf_at b s)) s) ;;
      release LBcache ;;
      acquiresleep (buf_lock b) ;;
      ret b
  | None =>
      r <- bget_unused ;;
      match r with
      | Some b =>
          upd_buf b (set_b_dev dev) ;;
          upd_buf b (set_b_blockno blockno) ;;
          upd_buf b (set_b_valid false) ;;
          upd_buf b (set_b_refcnt 1) ;;
          release LBcache ;;
          acquiresleep (buf_lock b) ;;
          ret b
      | None => panic "bget: no buffers"
      end
  end.

Definition bread (dev : nat) (blockno : Z) : K nat :=
  b <- bget dev blockno ;;
  v <- gets (buf_at b) ;;
  when (negb (b_valid v))
    (virtio_disk_rw (b_dev v) b false ;; upd_buf b (set_b_valid true)) ;;
  ret b.

Definition bwrite (b : nat) : K unit :=
  h <- holdingsleep (buf_lock b) ;;
  if negb h then panic "bwrite" else
  dev <- gets (fun s => b_dev (buf_at b s)) ;;
  virtio_disk_rw dev b true.

Definition brelse (b : nat) : K unit :=
  h <- holdingsleep (buf_lock b) ;;
  if negb h then panic "brelse" else
  releasesleep (buf_lock b) ;;
  acquire LBcache ;;
  modify (fun s => set_buf_at b (set_b_refcnt (u32 (b_refcnt (buf_at b s) - 1)) (buf_at b s)) s) ;;
  rc <- gets (fun s => b_refcnt (buf_at b s)) ;;
  when (rc =? 0)
    (nx <- bnext b ;; pv <- bprev b ;;
     upd_buf nx (set_b_prev pv) ;;
     nx <- bnext b ;; pv <- bprev b ;;
     upd_buf pv (set_b_next nx) ;;
     link_front b) ;;
  release LBcache.

Definition bpin (b : nat) : K unit :=
  acquire LBcache ;;
  modify (fun s => set_buf_at b (set_b_refcnt (u32 (b_refcnt (buf_at b s) + 1)) (buf_at b s)) s) ;;
  release LBcache.

Definition bunpin (b : nat) : K unit :=
  acquire LBcache ;;
  modify (fun s => set_buf_at b (set_b_refcnt (u32 (b_refcnt (buf_at b s) - 1)) (buf_at b s)) s) ;;
  release LBcache.

(** ** The LRU ring *)

(** Following [f] from [x] visits [l] and ends at [e]. *)
Fixpoint nch (f : nat -> nat) (x : nat) (l : list nat) (e : nat) : Prop :=
  match l with
  | [] => f x = e
  | y :: l' => f x = y /\ nch f y l' e
  end.

Definition upd_fn (f : nat -> nat) (k v : nat) : nat -> nat :=
  fun x => if decide (x = k) then v else f x.

Lemma upd_fn_eq f k v : upd_fn f k v k = v.
Proof. unfold upd_fn. by rewrite decide_True. Qed.
Lemma upd_fn_ne f k v x : x <> k -> upd_fn f k v x = f x.
Proof. intros. unfold upd_fn. by rewrite decide_False. Qed.

Lemma nch_ext f g l : forall x e,
  (forall y, y ∈ x :: l -> g y = f y) -> nch f x l e -> nch g x l e.
Proof.
  induction l as [|y l IH]; intros x e Hg; cbn.
  - intros <-. apply Hg. set_solver.
  - intros [Hx Hl]. split; [rewrite Hg by set_solver; done|].
    apply IH; [|done]. intros z Hz. apply Hg. set_solver.
Qed.

Lemma nch_upd f l x e k v : k ∉ x :: l -> nch f x l e -> nch (upd_fn f k v) x l e.
Proof.
  intros Hk. apply nch_ext. intros y Hy. apply upd_fn_ne. intros ->. done.
Qed.

Lemma last_cons_default (l : list nat) x y : List.last (y :: l) x = List.last l y.
Proof.
  revert x y. induction l as [|z l IH]; intros x y; [done|].
  change (List.last (z :: l) x = List.last (z :: l) y). by rewrite !IH.
Qed.

Lemma last_default_in (l : list nat) y : List.last l y ∈ y :: l.
Proof.
  revert y. induction l as [|z l IH]; intros y; [set_solver|].
  rewrite last_cons_default. specialize (IH z). set_solver.
Qed.

(** Unlinking [b]: its predecessor now points to its successor. *)
Lemma nch_unlink f b l2 e : forall l1 x,
  NoDup (x :: l1 ++ b :: l2) -> nch f x (l1 ++ b :: l2) e ->
  nch (upd_fn f (List.last l1 x) (f b)) x (l1 ++ l2) e.
Proof.
  induction l1 as [|y l1 IH]; intros x Hnd; cbn [app].
  - intros [Hx Hl]. cbn [List.last]. destruct l2 as [|z l2].
    + cbn in Hl |- *. by rewrite upd_fn_eq.
    + destruct Hl as [Hb Hl]. split; [by rewrite upd_fn_eq|].
      apply nch_upd; [|done]. apply NoDup_cons in Hnd as [Hnd _]. set_solver.
  - intros [Hx Hl]. apply NoDup_cons in Hnd as [Hn Hnd]. specialize (IH y Hnd Hl).
    rewrite last_cons_default. split; [|done]. rewrite upd_fn_ne; [done|].
    intros Heq. apply Hn. rewrite Heq. pose proof (last_default_in l1 y). set_solver.
Qed.

(** Inserting [b] after the start, and before the end. *)
Lemma nch_front f x l e b :
  b ∉ x :: l -> NoDup (x :: l) -> nch f x l e ->
  nch (upd_fn (upd_fn f b (f x)) x b) x (b :: l) e.
Proof.
  intros Hb Hnd Hl. apply NoDup_cons in Hnd as [Hx _]. split; [by rewrite upd_fn_eq|].
  destruct l as [|y l]; cbn in Hl |- *.
  - rewrite upd_fn_ne by set_solver. by rewrite upd_fn_eq.
  - destruct Hl as [Hy Hl]. split.
    + rewrite upd_fn_ne by set_solver. by rewrite upd_fn_eq.
    + apply nch_upd; [done|]. apply nch_upd; [set_solver|done].
Qed.

Lemma nch_back f e b : forall l x,
  b ∉ x :: l -> NoDup (x :: l) -> nch f x l e ->
  nch (upd_fn (upd_fn f b e) (List.last l x) b) x (l ++ [b]) e.
Proof.
  induction l as [|y l IH]; intros x Hb Hnd Hl.
  - cbn. split; [by rewrite upd_fn_eq|]. rewrite upd_fn_ne by set_solver. by rewrite upd_fn_eq.
  - destruct Hl as [Hx Hl]. apply NoDup_cons in Hnd as [Hn Hnd].
    specialize (IH y ltac:(set_solver) Hnd Hl).
    pose proof (last_default_in l y). rewrite last_cons_default. split; [|done].
    rewrite !upd_fn_ne; [done|set_solver|]. intros ->. done.
Qed.

Definition nx (bs : list buf) (x : nat) : nat := b_next (bs !!! x).
Definition pv (bs : list buf) (x : nat) : nat := b_prev (bs !!! x).

(** The circular list visits [l], most recently used first, and returns to
    the head; [l] is an arrangement of all the buffers. *)
Record ring (bs : list buf) (l : list nat) : Prop := {
  ring_perm : l ≡ₚ seq 0 NBUF;
  ring_next : nch (nx bs) bhead l bhead;
  ring_prev : nch (pv bs) bhead (rev l) bhead
}.

Lemma ring_elem bs l b : ring bs l -> b ∈ l <-> (b < NBUF)%nat.
Proof. intros Hr. rewrite (ring_perm _ _ Hr), elem_of_seq. lia. Qed.
Lemma ring_length bs l : ring bs l -> length l = NBUF.
Proof. intros Hr. by rewrite (ring_perm _ _ Hr). Qed.
Lemma ring_NoDup bs l : ring bs l -> NoDup (bhead :: l).
Proof.
  intros Hr. apply NoDup_cons. split.
  - intros Hb%(ring_elem _ _ _ Hr). unfold bhead in Hb. lia.
  - rewrite (ring_perm _ _ Hr). apply NoDup_seq.
Qed.

(** Each search visits the ring in its direction and returns the first match. *)
Definition key_is (dev : nat) (blockno : Z) (bs : list buf) (b : nat) : bool :=
  (b_dev (bs !!! b) =? dev)%nat && (b_blockno (bs !!! b) =? blockno).
Definition is_unused (bs : list buf) (b : nat) : bool := b_refcnt (bs !!! b) =? 0.

Lemma scan_next s dev blockno : forall l x fuel,
  bhead ∉ l -> nch (nx (bufs s)) x l bhead -> (length l < fuel)%nat ->
  loop fuel (fun b =>
    if (b =? bhead)%nat then ret (inr None) else
    v <- gets (buf_at b) ;;
    if (b_dev v =? dev)%nat && (b_blockno v =? blockno) then ret (inr (Some b))
    else ret (inl (b_next v))) (nx (bufs s) x) s
  = Ok (List.find (key_is dev blockno (bufs s)) l) s.
Proof.
  induction l as [|y l IH]; intros x [|fuel] Hne Hp Hf; cbn in Hf; try lia.
  - cbn in Hp. cbn [loop]. rewrite Hp. reflexivity.
  - destruct Hp as [Hn Hp]. cbn [loop]. rewrite Hn.
    destruct (Nat.eqb_spec y bhead); [set_solver|].
    unfold bind at 1, bind at 1, gets. cbn [bind_outcome List.find].
    unfold key_is at 1. change (buf_at y s) with (bufs s !!! y).
    destruct (_ && _); [done|]. cbn. apply IH; [set_solver|done|lia].
Qed.

Lemma scan_prev s : forall l x fuel,
  bhead ∉ l -> nch (pv (bufs s)) x l bhead -> (length l < fuel)%nat ->
  loop fuel (fun b =>
    if (b =? bhead)%nat then ret (inr None) else
    v <- gets (buf_at b) ;;
    if b_refcnt v =? 0 then ret (inr (Some b))
    else ret (inl (b_prev v))) (pv (bufs s) x) s
  = Ok (List.find (is_unused (bufs s)) l) s.
Proof.
  induction l as [|y l IH]; intros x [|fuel] Hne Hp Hf; cbn in Hf; try lia.
  - cbn in Hp. cbn [loop]. rewrite Hp. reflexivity.
  - destruct Hp as [Hn Hp]. cbn [loop]. rewrite Hn.
    destruct (Nat.eqb_spec y bhead); [set_solver|].
    unfold bind at 1, bind at 1, gets. cbn [bind_outcome List.find].
    unfold is_unused at 1. change (buf_at y s) with (bufs s !!! y).
    destruct (_ =? _); [done|]. cbn. apply IH; [set_solver|done|lia].
Qed.

Lemma ring_not_head bs l : ring bs l -> bhead ∉ l.
Proof. intros Hr. by apply ring_NoDup, NoDup_cons in Hr as [? _]. Qed.

Lemma bget_cached_eq s l dev blockno :
  ring (bufs s) l ->
  bget_cached dev blockno s = Ok (List.find (key_is dev blockno (bufs s)) l) s.
Proof.
  intros Hr. unfold bget_cached, bnext. rewrite (bind_ok _ _ _ (nx (bufs s) bhead) s) by done.
  apply scan_next; [by eapply ring_not_head|apply Hr|]. rewrite (ring_length _ _ Hr). lia.
Qed.

Lemma bget_unused_eq s l :
  ring (bufs s) l ->
  bget_unused s = Ok (List.find (is_unused (bufs s)) (rev l)) s.
Proof.
  intros Hr. unfold bget_unused, bprev. rewrite (bind_ok _ _ _ (pv (bufs s) bhead) s) by done.
  apply scan_prev; [|apply Hr|].
  - rewrite rev_alt. fold (reverse l). rewrite elem_of_reverse. by eapply ring_not_head.
  - rewrite length_rev, (ring_length _ _ Hr). lia.
Qed.

(** ** Moving a buffer to the front *)

Definition set_nx (x v : nat) (bs : list buf) : list buf := <[x := set_b_next v (bs !!! x)]> bs.
Definition set_pv (x v : nat) (bs : list buf) : list buf := <[x := set_b_prev v (bs !!! x)]> bs.

(** The part of a buffer that is not its place in the ring. *)
Definition bcore (v : buf) : buf := set_b_next 0 (set_b_prev 0 v).

Lemma nx_set_nx bs x v : (x < length bs)%nat -> forall y, nx (set_nx x v bs) y = upd_fn (nx bs) x v y.
Proof.
  intros Hx y. unfold nx, set_nx, upd_fn. case_decide as Hd.
  - subst. by rewrite list_lookup_total_insert_eq.
  - by rewrite list_lookup_total_insert_ne.
Qed.
Lemma pv_set_pv bs x v : (x < length bs)%nat -> forall y, pv (set_pv x v bs) y = upd_fn (pv bs) x v y.
Proof.
  intros Hx y. unfold pv, set_pv, upd_fn. case_decide as Hd.
  - subst. by rewrite list_lookup_total_insert_eq.
  - by rewrite list_lookup_total_insert_ne.
Qed.
Lemma pv_set_nx bs x v y : (x < length bs)%nat -> pv (set_nx x v bs) y = pv bs y.
Proof.
  intros Hx. unfold pv, set_nx. destruct (decide (x = y)) as [->|].
  - by rewrite list_lookup_total_insert_eq.
  - by rewrite list_lookup_total_insert_ne.
Qed.
Lemma nx_set_pv bs x v y : (x < length bs)%nat -> nx (set_pv x v bs) y = nx bs y.
Proof.
  intros Hx. unfold nx, set_pv. destruct (decide (x = y)) as [->|].
  - by rewrite list_lookup_total_insert_eq.
  - by rewrite list_lookup_total_insert_ne.
Qed.

Lemma bcore_insert (bs : list buf) (x : nat) w :
  (forall v, bs !! x = Some v -> bcore w = bcore v) -> bcore <$> <[x := w]> bs = bcore <$> bs.
Proof.
  intros H. rewrite list_fmap_insert. destruct (bs !! x) as [v|] eqn:Hx.
  - apply list_insert_id. rewrite list_lookup_fmap, Hx. cbn. by rewrite (H v).
  - apply list_insert_ge. rewrite length_fmap. by apply lookup_ge_None.
Qed.

Lemma bcore_set_nx bs x v : bcore <$> set_nx x v bs = bcore <$> bs.
Proof. apply bcore_insert. intros w Hw. by rewrite list_lookup_total_alt, Hw. Qed.
Lemma bcore_set_pv bs x v : bcore <$> set_pv x v bs = bcore <$> bs.
Proof. apply bcore_insert. intros w Hw. by rewrite list_lookup_total_alt, Hw. Qed.

Definition move_front (b : nat) (bs : list buf) : list buf :=
  let bs1 := set_pv (nx bs b) (pv bs b) bs in
  let bs2 := set_nx (pv bs1 b) (nx bs1 b) bs1 in
  let bs3 := set_nx b (nx bs2 bhead) bs2 in
  let bs4 := set_pv b bhead bs3 in
  let bs5 := set_pv (nx bs4 bhead) b bs4 in
  set_nx bhead b bs5.

Lemma bcore_move_front b bs : bcore <$> move_front b bs = bcore <$> bs.
Proof. unfold move_front. by rewrite !bcore_set_nx, !bcore_set_pv, bcore_set_nx, bcore_set_nx, bcore_set_pv. Qed.

Lemma nch_at f l1 b l2 e : forall x, nch f x (l1 ++ b :: l2) e -> f b = hd e l2.
Proof.
  induction l1 as [|y l1 IH]; intros x; cbn.
  - intros [_ H]. by destruct l2; [|destruct H].
  - intros [_ H]. by eapply IH.
Qed.
Lemma nch_start f x l e : nch f x l e -> f x = hd e l.
Proof. by destruct l; [|intros []]. Qed.

Lemma hd_rev (l : list nat) e : hd e (rev l) = List.last l e.
Proof.
  induction l as [|x l IH] using rev_ind; [done|]. by rewrite rev_app_distr, last_last.
Qed.
Lemma last_rev (l : list nat) e : List.last (rev l) e = hd e l.
Proof. by rewrite <-hd_rev, rev_involutive. Qed.

Lemma ring_bounds bs l x : ring bs l -> x ∈ bhead :: l -> (x < 31)%nat.
Proof.
  intros Hr [->|Hx]%elem_of_cons; [unfold bhead; lia|].
  apply (ring_elem _ _ _ Hr) in Hx. lia.
Qed.

Lemma length_set_nx x v bs : length (set_nx x v bs) = length bs.
Proof. apply length_insert. Qed.
Lemma length_set_pv x v bs : length (set_pv x v bs) = length bs.
Proof. apply length_insert. Qed.

(** What the six assignments do to the two link functions. *)
Lemma move_front_links bs b :
  length bs = 31%nat -> (b < 31)%nat -> b <> bhead -> (pv bs b < 31)%nat -> (nx bs b < 31)%nat ->
  let f1 := upd_fn (nx bs) (pv bs b) (nx bs b) in
  let g1 := upd_fn (pv bs) (nx bs b) (pv bs b) in
  (f1 bhead < 31)%nat ->
  (forall y, nx (move_front b bs) y = upd_fn (upd_fn f1 b (f1 bhead)) bhead b y) /\
  (forall y, pv (move_front b bs) y = upd_fn (upd_fn g1 b bhead) (f1 bhead) b y).
Proof.
  intros Hlen Hb Hbh HP HN f1 g1 Hhn. unfold move_front.
  set (bs1 := set_pv (nx bs b) (pv bs b) bs).
  assert (E1n : forall y, nx bs1 y = nx bs y) by (intros; apply nx_set_pv; lia).
  assert (E1p : forall y, pv bs1 y = g1 y) by (intros; apply pv_set_pv; lia).
  assert (Hp1 : pv bs1 b = pv bs b) by (rewrite E1p; unfold g1, upd_fn; by case_decide).
  rewrite Hp1, (E1n b). set (bs2 := set_nx (pv bs b) (nx bs b) bs1).
  assert (E2n : forall y, nx bs2 y = f1 y).
  { intros. unfold bs2. rewrite nx_set_nx by (unfold bs1; rewrite length_set_pv; lia).
    unfold f1, upd_fn. by rewrite E1n. }
  assert (E2p : forall y, pv bs2 y = g1 y).
  { intros. unfold bs2. rewrite pv_set_nx by (unfold bs1; rewrite length_set_pv; lia). apply E1p. }
  assert (L2 : length bs2 = 31%nat) by (unfold bs2, bs1; by rewrite length_set_nx, length_set_pv).
  rewrite E2n. set (bs4 := set_pv b bhead (set_nx b (f1 bhead) bs2)).
  assert (L4 : length bs4 = 31%nat) by (unfold bs4; by rewrite length_set_pv, length_set_nx).
  assert (E4n : forall y, nx bs4 y = upd_fn f1 b (f1 bhead) y).
  { intros. unfold bs4. rewrite nx_set_pv by (rewrite length_set_nx; lia).
    rewrite nx_set_nx by lia. unfold upd_fn. by rewrite E2n. }
  assert (E4p : forall y, pv bs4 y = upd_fn g1 b bhead y).
  { intros. unfold bs4. rewrite pv_set_pv by (rewrite length_set_nx; lia). unfold upd_fn.
    rewrite pv_set_nx by lia. by rewrite E2p. }
  rewrite E4n, upd_fn_ne by done. split; intros y.
  - rewrite nx_set_nx by (rewrite length_set_pv; unfold bhead; lia). unfold upd_fn at 1 2.
    case_decide; [done|]. rewrite nx_set_pv by lia. apply E4n.
  - rewrite pv_set_nx by (rewrite length_set_pv; unfold bhead; lia).
    rewrite pv_set_pv by lia. unfold upd_fn at 1 2. case_decide; [done|]. apply E4p.
Qed.

Lemma NoDup_rev_cons (x : nat) l : NoDup (x :: l) -> NoDup (x :: rev l).
Proof.
  rewrite !NoDup_cons, rev_alt. fold (reverse l).
  by rewrite elem_of_reverse, reverse_Permutation.
Qed.
Lemma elem_rev_cons (y x : nat) l : y ∉ x :: l -> y ∉ x :: rev l.
Proof. rewrite rev_alt. fold (reverse l). by rewrite !elem_of_cons, elem_of_reverse. Qed.

Lemma ring_move_front bs l1 b l2 :
  length bs = 31%nat -> ring bs (l1 ++ b :: l2) -> ring (move_front b bs) (b :: l1 ++ l2).
Proof.
  intros Hlen Hr. pose proof (ring_NoDup _ _ Hr) as Hnd.
  assert (Hb : (b < 31)%nat) by (eapply ring_bounds; [done|set_solver]).
  assert (Hbh : b <> bhead) by (apply NoDup_cons in Hnd as [? _]; set_solver).
  assert (Hrev : rev (l1 ++ b :: l2) = rev l2 ++ b :: rev l1)
    by by rewrite rev_app_distr; cbn; rewrite <-app_assoc.
  pose proof (ring_prev _ _ Hr) as Hpv. rewrite Hrev in Hpv.
  assert (Hnb : nx bs b = hd bhead l2) by (eapply nch_at, Hr).
  assert (Hpb : pv bs b = List.last l1 bhead) by (rewrite (nch_at _ _ _ _ _ _ Hpv); apply hd_rev).
  assert (Hnd1 : NoDup (b :: bhead :: l1 ++ l2)).
  { revert Hnd. change (bhead :: l1 ++ b :: l2) with ((bhead :: l1) ++ b :: l2).
    by rewrite <-Permutation_middle. }
  apply NoDup_cons in Hnd1 as [Hbn Hnd1].
  assert (Hf1 : nch (upd_fn (nx bs) (pv bs b) (nx bs b)) bhead (l1 ++ l2) bhead).
  { rewrite Hpb. apply nch_unlink; [done|apply Hr]. }
  assert (Hg1 : nch (upd_fn (pv bs) (nx bs b) (pv bs b)) bhead (rev (l1 ++ l2)) bhead).
  { rewrite rev_app_distr, Hnb, <-last_rev. apply nch_unlink; [|done].
    rewrite <-Hrev. by apply NoDup_rev_cons. }
  pose proof (nch_start _ _ _ _ Hf1) as Hhn.
  destruct (move_front_links bs b) as [En Ep]; [done..| | | |].
  { rewrite Hpb. eapply ring_bounds; [exact Hr|]. pose proof (last_default_in l1 bhead). set_solver. }
  { rewrite Hnb. eapply ring_bounds; [exact Hr|]. destruct l2; set_solver. }
  { rewrite Hhn. eapply ring_bounds; [exact Hr|]. destruct l1; cbn; [destruct l2|]; set_solver. }
  split.
  - rewrite <-(ring_perm _ _ Hr). by rewrite Permutation_middle.
  - eapply nch_ext; [|eapply nch_front; [exact Hbn|exact Hnd1|exact Hf1]]. intros y _. apply En.
  - cbn [rev]. eapply nch_ext; [|eapply nch_back; [by eapply elem_rev_cons|by apply NoDup_rev_cons|exact Hg1]].
    intros y _. rewrite Ep, last_rev. by rewrite <-Hhn.
Qed.

(** ** The buffers bget returns *)

Lemma buf_at_lookup b v s : bufs s !! b = Some v -> buf_at b s = v.
Proof. intros H. unfold buf_at. by rewrite list_lookup_total_alt, H. Qed.

Lemma bufs_set_buf_at b v s : bufs (set_buf_at b v s) = <[b := v]> (bufs s).
Proof. done. Qed.

Lemma lookup_set_buf_at b v w s :
  bufs s !! b = Some w -> bufs (set_buf_at b v s) !! b = Some v.
Proof. intros H. cbn. apply list_lookup_insert_eq. by eapply lookup_lt_Some. Qed.

Lemma buf_at_set b v w s : bufs s !! b = Some w -> buf_at b (set_buf_at b v s) = v.
Proof. intros H. eapply buf_at_lookup, lookup_set_buf_at, H. Qed.

Lemma set_buf_at_twice b v v' s : set_buf_at b v (set_buf_at b v' s) = set_buf_at b v s.
Proof. unfold set_buf_at, set_bufs. cbn. by rewrite list_insert_insert_eq. Qed.

Lemma set_buf_at_sy b v y s : set_buf_at b v (set_sy y s) = set_sy y (set_buf_at b v s).
Proof. done. Qed.

Lemma set_buf_at_id b v s : bufs s !! b = Some v -> set_buf_at b v s = s.
Proof. intros H. unfold set_buf_at. rewrite list_insert_id by done. by destruct s. Qed.

(** Taking the sleep lock of a free buffer. *)
Definition lock_by (pid : Z) (v : buf) : buf := set_b_lock (mkSleep true pid) v.

Section bget.
Context (h p : nat).

Lemma run_lock_buf s b v (Q : unit -> kstate -> Prop) :
  owns h (Some p) [] (sy s) -> bufs s !! b = Some v -> sl_locked (b_lock v) = false ->
  (forall y', owns h (Some p) [] y' ->
     Q tt (set_sy y' (set_buf_at b (lock_by (p_pid (proc_at p s)) v) s))) ->
  run (acquiresleep (buf_lock b)) s Q.
Proof.
  intros Ho Hv Hl HQ. eapply run_acquiresleep; [done|set_solver|by eapply lookup_lt_Some| |].
  - cbn. by rewrite (buf_at_lookup _ _ _ Hv).
  - intros y' Hy. cbn. rewrite (buf_at_lookup _ _ _ Hv). by apply HQ.
Qed.

(** The block is cached in [b]. *)
Lemma run_bget_hit s l dev blockno b v (Q : nat -> kstate -> Prop) :
  owns h (Some p) [] (sy s) -> ring (bufs s) l ->
  List.find (key_is dev blockno (bufs s)) l = Some b ->
  bufs s !! b = Some v -> sl_locked (b_lock v) = false ->
  (forall y', owns h (Some p) [] y' ->
     Q b (set_sy y' (set_buf_at b
            (lock_by (p_pid (proc_at p s)) (set_b_refcnt (u32 (b_refcnt v + 1)) v)) s))) ->
  run (bget dev blockno) s Q.
Proof.
  intros Ho Hr Hf Hv Hl HQ. unfold bget. wp. eapply run_acquire; [done|set_solver|].
  intros y1 Ho1. wp. unfold run at 1. rewrite (bget_cached_eq (set_sy y1 s) l) by done.
  change (bufs (set_sy y1 s)) with (bufs s). rewrite Hf. wp.
  eapply run_release; [exact Ho1|set_solver|]. intros y2 Ho2.
  rewrite drop_head in Ho2 by set_solver. wp.
  rewrite (buf_at_lookup b v (set_sy y1 s)) by done.
  eapply run_lock_buf; [exact Ho2|by eapply (lookup_set_buf_at _ _ v)|done|].
  intros y3 Ho3. wp. rewrite !set_buf_at_sy, set_buf_at_twice. exact (HQ y3 Ho3).
Qed.

(** The block is not cached; [b] is the least recently used free buffer. *)
Definition recycled (dev : nat) (blockno : Z) (v : buf) : buf :=
  set_b_refcnt 1 (set_b_valid false (set_b_blockno blockno (set_b_dev dev v))).

Lemma run_bget_miss s l dev blockno b v (Q : nat -> kstate -> Prop) :
  owns h (Some p) [] (sy s) -> ring (bufs s) l ->
  List.find (key_is dev blockno (bufs s)) l = None ->
  List.find (is_unused (bufs s)) (rev l) = Some b ->
  bufs s !! b = Some v -> sl_locked (b_lock v) = false ->
  (forall y', owns h (Some p) [] y' ->
     Q b (set_sy y' (set_buf_at b
            (lock_by (p_pid (proc_at p s)) (recycled dev blockno v)) s))) ->
  run (bget dev blockno) s Q.
Proof.
  intros Ho Hr Hf Hu Hv Hl HQ. unfold bget. wp. eapply run_acquire; [done|set_solver|].
  intros y1 Ho1. wp. unfold run at 1. rewrite (bget_cached_eq (set_sy y1 s) l) by done.
  change (bufs (set_sy y1 s)) with (bufs s). rewrite Hf. wp.
  unfold run at 1. rewrite (bget_unused_eq (set_sy y1 s) l) by done.
  change (bufs (set_sy y1 s)) with (bufs s). rewrite Hu. unfold upd_buf. wp.
  rewrite (buf_at_lookup b v (set_sy y1 s)) by done.
  rewrite !set_buf_at_twice, !(buf_at_set b _ v) by done.
  eapply run_release; [exact Ho1|set_solver|]. intros y2 Ho2.
  rewrite drop_head in Ho2 by set_solver. wp.
  eapply run_lock_buf; [exact Ho2|by eapply (lookup_set_buf_at _ _ v)|done|].
  intros y3 Ho3. wp. rewrite !set_buf_at_sy, set_buf_at_twice. exact (HQ y3 Ho3).
Qed.

(** Every buffer is in use. *)
Lemma bget_no_buffers s l dev blockno :
  owns h (Some p) [] (sy s) -> ring (bufs s) l ->
  List.find (key_is dev blockno (bufs s)) l = None ->
  List.find (is_unused (bufs s)) (rev l) = None ->
  bget dev blockno s = Panic "bget: no buffers".
Proof.
  intros Ho Hr Hf Hu. unfold bget.
  assert (Ha : run (acquire LBcache) s (fun _ s' => exists y', s' = set_sy y' s)).
  { eapply run_acquire; [done|set_solver|]. intros y' _. by exists y'. }
  apply run_eq in Ha as ([] & s' & Ha & y' & ->). rewrite (bind_ok _ _ _ _ _ Ha).
  erewrite bind_ok by by apply (bget_cached_eq (set_sy y' s) l).
  change (bufs (set_sy y' s)) with (bufs s). rewrite Hf.
  erewrite bind_ok by by apply (bget_unused_eq (set_sy y' s) l).
  change (bufs (set_sy y' s)) with (bufs s). by rewrite Hu.
Qed.
End bget.

(** ** Releasing and pinning *)

Definition unlocked (v : buf) : buf := set_b_lock (mkSleep false 0) v.
Definition add_ref (d : Z) (v : buf) : buf := set_b_refcnt (u32 (b_refcnt v + d)) v.

(** The buffers after brelse(b). *)
Definition released_bufs (b : nat) (v : buf) (bs : list buf) : list buf :=
  let v' := add_ref (-1) (unlocked v) in
  let bs' := <[b := v']> bs in
  if b_refcnt v' =? 0 then move_front b bs' else bs'.

Section brelse.
Context (h p : nat).

Lemma run_move_front s b (Q : unit -> kstate -> Prop) :
  Q tt (set_bufs (move_front b (bufs s)) s) ->
  run (nx <- bnext b ;; pv <- bprev b ;;
       upd_buf nx (set_b_prev pv) ;;
       nx <- bnext b ;; pv <- bprev b ;;
       upd_buf pv (set_b_next nx) ;;
       link_front b) s Q.
Proof. intros HQ. exact HQ. Qed.

Lemma run_brelse s b v (Q : unit -> kstate -> Prop) :
  owns h (Some p) [] (sy s) -> length (procs (pt s)) = NPROC ->
  bufs s !! b = Some v -> b_lock v = mkSleep true (p_pid (proc_at p s)) ->
  (forall y', owns h (Some p) [] y' ->
     Q tt (set_sy y' (set_pt (wake_all (ChSleepBuf b) (pt s))
             (set_bufs (released_bufs b v (bufs s)) s)))) ->
  run (brelse b) s Q.
Proof.
  intros Ho Hlen Hv Hl HQ. unfold brelse. wp.
  eapply run_holdingsleep; [typeclasses eauto|exact Ho|set_solver|]. intros y1 Ho1.
  cbn [sk_get buf_lock]. rewrite (buf_at_lookup b v s Hv), Hl. cbn [sl_locked sl_pid andb].
  rewrite Z.eqb_refl. cbn [negb]. wp.
  eapply run_releasesleep; [exact Ho1|set_solver|done|intros i; set_solver| |done|].
  { cbn. by eapply lookup_lt_Some. }
  intros y2 Ho2. wp. eapply run_acquire; [exact Ho2|set_solver|]. intros y3 Ho3. wp.
  cbn [sk_set buf_lock sk_chan]. change (buf_at b (set_sy y1 s)) with (buf_at b s).
  rewrite (buf_at_lookup b v s Hv). fold (unlocked v).
  set (s1 := set_sy y3 _).
  assert (H1 : bufs s1 !! b = Some (unlocked v)).
  { cbn. apply list_lookup_insert_eq. by eapply lookup_lt_Some. }
  rewrite (buf_at_lookup b _ s1 H1). change (u32 (b_refcnt (unlocked v) - 1)) with (u32 (b_refcnt (unlocked v) + -1)).
  fold (add_ref (-1) (unlocked v)). rewrite (buf_at_set b _ _ s1 H1).
  unfold released_bufs in HQ. destruct (b_refcnt (add_ref (-1) (unlocked v)) =? 0).
  - apply run_move_front. eapply run_release; [exact Ho3|set_solver|]. intros y4 Ho4.
    rewrite drop_head in Ho4 by set_solver. specialize (HQ y4 Ho4). revert HQ.
    unfold set_buf_at at 1. subst s1. cbn [bufs set_bufs set_sy set_pt].
    unfold set_buf_at. cbn [bufs set_bufs set_sy set_pt]. rewrite list_insert_insert_eq. done.
  - eapply run_release; [exact Ho3|set_solver|]. intros y4 Ho4.
    rewrite drop_head in Ho4 by set_solver. specialize (HQ y4 Ho4). revert HQ.
    unfold set_buf_at at 1. subst s1. cbn [bufs set_bufs set_sy set_pt].
    unfold set_buf_at. cbn [bufs set_bufs set_sy set_pt]. rewrite list_insert_insert_eq. done.
Qed.

Lemma brelse_not_holding s b v :
  owns h (Some p) [] (sy s) -> bufs s !! b = Some v ->
  sl_locked (b_lock v) && (sl_pid (b_lock v) =? p_pid (proc_at p s)) = false ->
  brelse b s = Panic "brelse".
Proof.
  intros Ho Hv Hl. unfold brelse.
  assert (Hh : run (holdingsleep (buf_lock b)) s (fun r s' => r = false)).
  { eapply run_holdingsleep; [typeclasses eauto|exact Ho|set_solver|]. intros y _.
    cbn [sk_get buf_lock]. by rewrite (buf_at_lookup b v s Hv). }
  apply run_eq in Hh as (r & s' & Hh & ->). by rewrite (bind_ok _ _ _ _ _ Hh).
Qed.

Lemma run_addref ls s b v d (Q : unit -> kstate -> Prop) :
  owns h (Some p) ls (sy s) -> LBcache ∉ ls -> bufs s !! b = Some v ->
  (forall y', owns h (Some p) ls y' ->
     Q tt (set_sy y' (set_bufs (<[b := add_ref d v]> (bufs s)) s))) ->
  run (acquire LBcache ;;
       modify (fun s => set_buf_at b (set_b_refcnt (u32 (b_refcnt (buf_at b s) + d)) (buf_at b s)) s) ;;
       release LBcache) s Q.
Proof.
  intros Ho Hls Hv HQ. wp. eapply run_acquire; [exact Ho|done|]. intros y1 Ho1. wp.
  rewrite (buf_at_lookup b v (set_sy y1 s)) by done.
  eapply run_release; [exact Ho1|set_solver|]. intros y2 Ho2.
  rewrite drop_head in Ho2 by done. exact (HQ y2 Ho2).
Qed.

Lemma run_bpin ls s b v (Q : unit -> kstate -> Prop) :
  owns h (Some p) ls (sy s) -> LBcache ∉ ls -> bufs s !! b = Some v ->
  (forall y', owns h (Some p) ls y' ->
     Q tt (set_sy y' (set_bufs (<[b := add_ref 1 v]> (bufs s)) s))) ->
  run (bpin b) s Q.
Proof. apply run_addref. Qed.

Lemma run_bunpin ls s b v (Q : unit -> kstate -> Prop) :
  owns h (Some p) ls (sy s) -> LBcache ∉ ls -> bufs s !! b = Some v ->
  (forall y', owns h (Some p) ls y' ->
     Q tt (set_sy y' (set_bufs (<[b := add_ref (-1) v]> (bufs s)) s))) ->
  run (bunpin b) s Q.
Proof. apply (run_addref ls s b v (-1)). Qed.
End brelse.

End Bio.
