(* ===== verification/Cache.v ===== *)
(** * What the buffer cache promises

    [cache bs dsk ct rc] relates the buffers to two maps from blocks to
    contents: [dsk], what is on the disk, and [ct], the logical contents that
    bread returns; they differ only on blocks kept in the cache.  [rc] counts
    the references to each block.  Every operation of bio.c is specified on
    these maps, so that the log never looks at a buffer it does not hold. *)

From S2P Require Import Prelude Bytes CString KState Spinlock Kernel Riscv Kalloc Vm Sched Console Virtio Disk Bio.

Module Cache.
Import Sched Virtio Disk Bio.

Definition bk (v : buf) : bkey := (b_dev v, b_blockno v).
Definition is_locked (v : buf) : bool := sl_locked (b_lock v).

(** Buffer [b] of the array (not the list head) is [v]. *)
Definition buf_is (bs : list buf) (b : nat) (v : buf) : Prop :=
  (b < NBUF)%nat /\ bs !! b = Some v.

Record cache (bs : list buf) (dsk ct : disk) (rc : gmap bkey Z) : Prop := {
  ca_len : length bs = 31%nat;
  ca_ring : exists l, ring bs l;
  ca_uniq : forall b b' v v', buf_is bs b v -> buf_is bs b' v' ->
    bk v = bk v' -> bk v <> (0%nat, 0) -> b = b';
  ca_rc : forall b v, buf_is bs b v -> b_refcnt v = default 0 (rc !! bk v);
  ca_pos : forall k c, rc !! k = Some c -> 0 < c < 2 ^ 32 /\ k <> (0%nat, 0) /\
    exists b v, buf_is bs b v /\ bk v = k;
  ca_data : forall b v, buf_is bs b v -> is_locked v = false -> b_valid v = true ->
    ct !! bk v = Some (b_data v);
  ca_clean : forall k, ct !! k <> dsk !! k ->
    exists b v, buf_is bs b v /\ bk v = k /\ b_valid v = true /\ 0 < b_refcnt v
}.

(** Buffers nobody references are not locked, those of [X] excepted. *)
Definition locks_ok (X : list nat) (bs : list buf) : Prop :=
  forall b v, buf_is bs b v -> b ∉ X -> b_refcnt v = 0 -> is_locked v = false.

(** The process [pid] holds buffer [b], which contains [data] of block [k]. *)
Definition held (bs : list buf) (b : nat) (k : bkey) (data : block) (pid : Z) : Prop :=
  exists v, buf_is bs b v /\ bk v = k /\ b_lock v = mkSleep true pid /\
    b_valid v = true /\ b_data v = data.

(** Nobody holds block [k]. *)
Definition free_block (bs : list buf) (k : bkey) : Prop :=
  forall b v, buf_is bs b v -> bk v = k -> is_locked v = false.

(** [c] references to [k]; an entry of 0 is no entry. *)
Definition set_rc (k : bkey) (c : Z) (rc : gmap bkey Z) : gmap bkey Z :=
  if decide (c = 0) then delete k rc else <[k := c]> rc.

Lemma lookup_set_rc k c rc : default 0 (set_rc k c rc !! k) = c.
Proof.
  unfold set_rc. case_decide; subst.
  - by rewrite lookup_delete_eq.
  - by rewrite lookup_insert_eq.
Qed.
Lemma lookup_set_rc_ne k k' c rc : k <> k' -> set_rc k c rc !! k' = rc !! k'.
Proof.
  intros. unfold set_rc. case_decide; [by rewrite lookup_delete_ne|by rewrite lookup_insert_ne].
Qed.

Lemma set_rc_set_rc k c c' rc : set_rc k c (set_rc k c' rc) = set_rc k c rc.
Proof.
  apply map_eq. intros k'. destruct (decide (k = k')) as [<-|Hne].
  - unfold set_rc. repeat case_decide; by rewrite ?lookup_delete_eq, ?lookup_insert_eq.
  - by rewrite !lookup_set_rc_ne.
Qed.
Lemma set_rc_comm k k' c c' rc : k <> k' ->
  set_rc k c (set_rc k' c' rc) = set_rc k' c' (set_rc k c rc).
Proof.
  intros Hne. unfold set_rc. repeat case_decide.
  - apply delete_delete.
  - by rewrite delete_insert_ne.
  - by rewrite delete_insert_ne.
  - by rewrite insert_insert_ne.
Qed.

Lemma buf_is_insert bs b v w b' v' :
  bs !! b = Some v -> buf_is (<[b := w]> bs) b' v' ->
  (b' = b /\ v' = w /\ (b < NBUF)%nat) \/ (b' <> b /\ buf_is bs b' v').
Proof.
  intros Hb [Hlt Hl]. destruct (decide (b' = b)) as [->|Hne].
  - left. rewrite list_lookup_insert_eq in Hl by by eapply lookup_lt_Some. by simplify_eq.
  - right. by rewrite list_lookup_insert_ne in Hl.
Qed.

Lemma buf_is_insert_eq bs b v w : buf_is bs b v -> buf_is (<[b := w]> bs) b w.
Proof. intros [? H]. split; [done|]. apply list_lookup_insert_eq. by eapply lookup_lt_Some. Qed.

Lemma buf_is_insert_ne bs b w b' v' :
  b' <> b -> buf_is bs b' v' -> buf_is (<[b := w]> bs) b' v'.
Proof. intros Hne [? H]. split; [done|]. by rewrite list_lookup_insert_ne. Qed.

Lemma buf_is_fun bs b v v' : buf_is bs b v -> buf_is bs b v' -> v = v'.
Proof. intros [_ H] [_ H']. congruence. Qed.

(** A change that keeps the links keeps the ring. *)
Lemma ring_insert bs l b v w :
  bs !! b = Some v -> b_next w = b_next v -> b_prev w = b_prev v ->
  ring bs l -> ring (<[b := w]> bs) l.
Proof.
  intros Hb Hn Hp [H1 H2 H3].
  assert (Hnx : forall y, nx (<[b := w]> bs) y = nx bs y).
  { intros y. unfold nx. destruct (decide (y = b)) as [->|].
    - rewrite list_lookup_total_insert_eq by by eapply lookup_lt_Some.
      by rewrite list_lookup_total_alt, Hb.
    - by rewrite list_lookup_total_insert_ne. }
  assert (Hpv : forall y, pv (<[b := w]> bs) y = pv bs y).
  { intros y. unfold pv. destruct (decide (y = b)) as [->|].
    - rewrite list_lookup_total_insert_eq by by eapply lookup_lt_Some.
      by rewrite list_lookup_total_alt, Hb.
    - by rewrite list_lookup_total_insert_ne. }
  split; [done|..]; (eapply nch_ext; [|eassumption]); auto.
Qed.

(** The one step all operations are made of: buffer [b] becomes [w], for the
    same block or, if it was unused, for a block that was not cached. *)
Lemma cache_put bs dsk ct rc b v w :
  cache bs dsk ct rc -> buf_is bs b v ->
  b_next w = b_next v -> b_prev w = b_prev v ->
  bk w <> (0%nat, 0) -> 0 <= b_refcnt w < 2 ^ 32 ->
  (bk w = bk v /\ (b_valid v = true -> b_valid w = true) \/
   b_refcnt v = 0 /\ (forall b' v', buf_is bs b' v' -> bk v' <> bk w)) ->
  (is_locked w = false -> b_valid w = true -> ct !! bk w = Some (b_data w)) ->
  (0 < b_refcnt w \/ ct !! bk w = dsk !! bk w) ->
  cache (<[b := w]> bs) dsk ct (set_rc (bk w) (b_refcnt w) rc).
Proof.
  intros HC Hv Hn Hp Hk0 Hr Hk Hdata Hcl. pose proof Hv as [Hlt Hb].
  assert (Hother : forall b' v', buf_is bs b' v' -> b' <> b -> bk v' <> bk w).
  { intros b' v' Hv' Hne. destruct Hk as [[Hk _]|[_ Hk]]; [|by eapply Hk].
    intros Heq. apply Hne. eapply (ca_uniq _ _ _ _ HC b' b); eauto; congruence. }
  assert (Hold : bk w <> bk v -> rc !! bk v = None).
  { intros Hne. destruct Hk as [[Hk _]|[Hk _]]; [done|].
    pose proof (ca_rc _ _ _ _ HC b v Hv) as Hrc.
    destruct (rc !! bk v) as [c|] eqn:Hc; [|done]. apply (ca_pos _ _ _ _ HC) in Hc as [Hc _].
    cbn in Hrc. lia. }
  split.
  - rewrite length_insert. apply HC.
  - destruct (ca_ring _ _ _ _ HC) as [l Hl]. exists l. by eapply ring_insert.
  - intros b1 b2 v1 v2 H1 H2 Heq Hne.
    destruct (buf_is_insert _ _ _ _ _ _ Hb H1) as [(-> & -> & _)|[Hn1 H1']];
      destruct (buf_is_insert _ _ _ _ _ _ Hb H2) as [(-> & -> & _)|[Hn2 H2']]; [done|..].
    + destruct (Hother _ _ H2' Hn2). done.
    + destruct (Hother _ _ H1' Hn1). done.
    + by eapply (ca_uniq _ _ _ _ HC).
  - intros b1 v1 H1. destruct (buf_is_insert _ _ _ _ _ _ Hb H1) as [(-> & -> & _)|[Hn1 H1']].
    + by rewrite lookup_set_rc.
    + rewrite lookup_set_rc_ne; [by eapply (ca_rc _ _ _ _ HC)|].
      intros Heq. by destruct (Hother _ _ H1' Hn1).
  - intros k c Hc. destruct (decide (k = bk w)) as [->|Hne].
    + assert (c = b_refcnt w) as ->.
      { pose proof (lookup_set_rc (bk w) (b_refcnt w) rc) as Hd. by rewrite Hc in Hd. }
      split; [|split; [done|exists b, w; split; [by eapply buf_is_insert_eq|done]]].
      unfold set_rc in Hc. case_decide; [by rewrite lookup_delete_eq in Hc|]. lia.
    + rewrite lookup_set_rc_ne in Hc by done.
      destruct (ca_pos _ _ _ _ HC k c Hc) as (Hpos & Hk' & b1 & v1 & H1 & <-).
      split; [done|]. split; [done|]. exists b1, v1. split; [|done].
      apply buf_is_insert_ne; [|done]. intros ->.
      assert (v1 = v) as -> by by eapply buf_is_fun. by rewrite Hold in Hc.
  - intros b1 v1 H1. destruct (buf_is_insert _ _ _ _ _ _ Hb H1) as [(-> & -> & _)|[Hn1 H1']]; [done|].
    by eapply (ca_data _ _ _ _ HC).
  - intros k Hd. destruct (ca_clean _ _ _ _ HC k Hd) as (b1 & v1 & H1 & <- & Hval & Hpos).
    destruct (decide (b1 = b)) as [->|Hne].
    + assert (v1 = v) as -> by by eapply buf_is_fun.
      destruct Hk as [[Hk Hkv]|[Hk _]]; [|lia].
      exists b, w. split; [by eapply buf_is_insert_eq|]. split; [done|]. split; [auto|].
      destruct Hcl as [?|Hcl]; [done|]. rewrite Hk in Hcl. done.
    + exists b1, v1. split; [by apply buf_is_insert_ne|done].
Qed.

(** Overwriting block [k], on the disk and in the logical contents, while its
    buffer is locked. *)
Lemma cache_write bs dsk ct rc b v data :
  cache bs dsk ct rc -> buf_is bs b v -> bk v <> (0%nat, 0) -> is_locked v = true ->
  cache bs (<[bk v := data]> dsk) (<[bk v := data]> ct) rc.
Proof.
  intros HC Hv Hk Hl. pose proof HC as [H1 H2 H3 H4 H5 H6 H7]. split; try done.
  - intros b' v' Hv' Hl' Hval. rewrite lookup_insert_ne; [by eapply H6|].
    intros Heq. assert (b = b') as <- by by eapply H3.
    assert (v = v') as <- by by eapply buf_is_fun. congruence.
  - intros k Hne. destruct (decide (bk v = k)) as [<-|Hk'].
    + by rewrite !lookup_insert_eq in Hne.
    + rewrite !lookup_insert_ne in Hne by done. by apply H7.
Qed.

(** Changing the logical contents of a block whose buffer is locked. *)
Lemma cache_log bs dsk ct rc b v data :
  cache bs dsk ct rc -> buf_is bs b v -> bk v <> (0%nat, 0) -> is_locked v = true ->
  b_valid v = true -> 0 < b_refcnt v ->
  cache bs dsk (<[bk v := data]> ct) rc.
Proof.
  intros HC Hv Hk Hl Hval Hpos. pose proof HC as [H1 H2 H3 H4 H5 H6 H7]. split; try done.
  - intros b' v' Hv' Hl' Hval'. rewrite lookup_insert_ne; [by eapply H6|].
    intros Heq. assert (b = b') as <- by by eapply H3.
    assert (v = v') as <- by by eapply buf_is_fun. congruence.
  - intros k Hne. destruct (decide (bk v = k)) as [<-|Hk']; [by exists b, v|].
    rewrite lookup_insert_ne in Hne by done. by apply H7.
Qed.

(** The invariant does not depend on the order of the ring. *)
Lemma bcore_lookup bs bs' b v :
  bcore <$> bs' = bcore <$> bs -> buf_is bs' b v -> exists v', buf_is bs b v' /\ bcore v' = bcore v.
Proof.
  intros Heq [Hlt Hb]. apply (f_equal (.!! b)) in Heq. rewrite !list_lookup_fmap, Hb in Heq.
  destruct (bs !! b) as [v'|] eqn:Hv'; [|done]. apply (inj Some) in Heq. by exists v'.
Qed.

Lemma bcore_fields v v' : bcore v = bcore v' ->
  bk v = bk v' /\ b_refcnt v = b_refcnt v' /\ b_valid v = b_valid v' /\ b_lock v = b_lock v' /\
  b_data v = b_data v'.
Proof. destruct v, v'. unfold bcore, bk. cbn. intros [= -> -> -> -> -> -> ->]. done. Qed.

Lemma cache_core bs bs' dsk ct rc l :
  bcore <$> bs' = bcore <$> bs -> ring bs' l -> cache bs dsk ct rc -> cache bs' dsk ct rc.
Proof.
  intros Heq Hl [H1 H2 H3 H4 H5 H6 H7].
  assert (Hback : forall b v, buf_is bs b v -> exists v', buf_is bs' b v' /\ bcore v' = bcore v)
    by (intros; by eapply bcore_lookup).
  split.
  - apply (f_equal length) in Heq. by rewrite !length_fmap, H1 in Heq.
  - by exists l.
  - intros b b' v v' (w & Hw & Ew)%(bcore_lookup _ _ _ _ Heq) (w' & Hw' & Ew')%(bcore_lookup _ _ _ _ Heq) Hk Hk0.
    apply bcore_fields in Ew as (Ek & _), Ew' as (Ek' & _). eapply H3; [exact Hw|exact Hw'|congruence..].
  - intros b v (w & Hw & Ew)%(bcore_lookup _ _ _ _ Heq). apply bcore_fields in Ew as (<- & <- & _). by eapply H4.
  - intros k c Hc. destruct (H5 k c Hc) as (? & ? & b & v & Hb & <-). split; [done|]. split; [done|].
    destruct (Hback _ _ Hb) as (v' & Hv' & Ew). apply bcore_fields in Ew as (<- & _). by exists b, v'.
  - intros b v (w & Hw & Ew)%(bcore_lookup _ _ _ _ Heq). unfold is_locked.
    apply bcore_fields in Ew as (<- & _ & <- & <- & <-). by eapply H6.
  - intros k Hne. destruct (H7 k Hne) as (b & v & Hb & <- & Hval & Hpos).
    destruct (Hback _ _ Hb) as (v' & Hv' & Ew). apply bcore_fields in Ew as (Ek & Er & Ev & _).
    exists b, v'. rewrite Ek, Er, Ev. done.
Qed.

Lemma held_core bs bs' b k data pid :
  bcore <$> bs' = bcore <$> bs -> held bs b k data pid -> held bs' b k data pid.
Proof.
  intros Heq (v & Hb & <- & Hl & Hval & <-). symmetry in Heq.
  destruct (bcore_lookup _ _ _ _ Heq Hb) as (v' & Hv' & Ew).
  apply bcore_fields in Ew as (Ek & _ & Ev & El & Ed). exists v'. rewrite Ek, Ev, El, Ed. done.
Qed.

Lemma locks_ok_core bs bs' X :
  bcore <$> bs' = bcore <$> bs -> locks_ok X bs -> locks_ok X bs'.
Proof.
  intros Heq HX b v (w & Hw & Ew)%(bcore_lookup _ _ _ _ Heq). unfold is_locked.
  apply bcore_fields in Ew as (_ & <- & _ & <- & _). by eapply HX.
Qed.

(** ** Finding a buffer *)

Lemma key_is_true dev blockno bs b v :
  buf_is bs b v -> key_is dev blockno bs b = true <-> bk v = (dev, blockno).
Proof.
  intros [_ Hb]. unfold key_is, bk. rewrite list_lookup_total_alt, Hb. cbn.
  rewrite andb_true_iff, Nat.eqb_eq, Z.eqb_eq. split; [intros [-> ->]; done|by intros [= -> ->]].
Qed.

Lemma buf_is_total bs b : length bs = 31%nat -> (b < NBUF)%nat -> exists v, buf_is bs b v.
Proof.
  intros Hl Hb. destruct (lookup_lt_is_Some_2 bs b) as [v Hv]; [lia|]. by exists v.
Qed.

(** A block that is cached is found, in its only buffer. *)
Lemma find_cached bs dsk ct rc l b v :
  cache bs dsk ct rc -> ring bs l -> buf_is bs b v -> bk v <> (0%nat, 0) ->
  List.find (key_is (b_dev v) (b_blockno v) bs) l = Some b.
Proof.
  intros HC Hl Hv Hk. destruct (List.find _ l) as [b'|] eqn:Hf.
  - apply find_some in Hf as [Hin Hkey]. apply list_elem_of_In, (ring_elem _ _ _ Hl) in Hin.
    destruct (buf_is_total bs b') as [v' Hv']; [apply HC|done|].
    apply (key_is_true _ _ _ _ v' Hv') in Hkey. f_equal. symmetry.
    by eapply (ca_uniq _ _ _ _ HC b b').
  - eapply find_none in Hf; [|by apply list_elem_of_In, (ring_elem _ _ _ Hl), Hv].
    apply not_true_iff_false in Hf. destruct Hf. by apply (key_is_true _ _ _ _ v).
Qed.

Lemma find_not_cached bs dsk ct rc l dev blockno b v :
  cache bs dsk ct rc -> ring bs l -> List.find (key_is dev blockno bs) l = None ->
  buf_is bs b v -> bk v <> (dev, blockno).
Proof.
  intros HC Hl Hf Hv Hk. eapply find_none in Hf; [|by apply list_elem_of_In, (ring_elem _ _ _ Hl), Hv].
  apply not_true_iff_false in Hf. destruct Hf. by apply (key_is_true _ _ _ _ v).
Qed.

(** With fewer than NBUF blocks referenced, some buffer is free. *)
Lemma find_unused bs dsk ct rc l :
  cache bs dsk ct rc -> ring bs l -> (size rc < NBUF)%nat ->
  exists b v, List.find (is_unused bs) (rev l) = Some b /\ buf_is bs b v /\ b_refcnt v = 0.
Proof.
  intros HC Hl Hsz. destruct (List.find (is_unused bs) (rev l)) as [b|] eqn:Hf.
  - apply find_some in Hf as [Hin Hu]. rewrite <-in_rev in Hin.
    apply list_elem_of_In, (ring_elem _ _ _ Hl) in Hin.
    destruct (buf_is_total bs b) as [v Hv]; [apply HC|done|]. exists b, v.
    split; [done|]. split; [done|]. unfold is_unused in Hu.
    rewrite list_lookup_total_alt, (proj2 Hv) in Hu. cbn in Hu. lia.
  - exfalso. assert (Hall : forall b v, buf_is bs b v -> bk v ∈ dom rc).
    { intros b v Hv. eapply find_none in Hf; [|rewrite <-in_rev; by apply list_elem_of_In, (ring_elem _ _ _ Hl), Hv].
      unfold is_unused in Hf. rewrite list_lookup_total_alt, (proj2 Hv) in Hf. cbn in Hf.
      rewrite (ca_rc _ _ _ _ HC b v Hv) in Hf. apply elem_of_dom.
      destruct (rc !! bk v); [done|]. done. }
    assert (Hinj : NoDup ((fun b => bk (bs !!! b)) <$> seq 0 NBUF)).
    { apply NoDup_fmap_2_strong; [|apply NoDup_seq]. intros b b' Hb Hb' Heq.
      apply elem_of_seq in Hb, Hb'. destruct (buf_is_total bs b) as [v Hv]; [apply HC|lia|].
      destruct (buf_is_total bs b') as [v' Hv']; [apply HC|lia|].
      rewrite !list_lookup_total_alt, (proj2 Hv), (proj2 Hv') in Heq. cbn in Heq.
      eapply (ca_uniq _ _ _ _ HC); eauto. apply Hall, elem_of_dom in Hv as [c Hc].
      by apply (ca_pos _ _ _ _ HC) in Hc as (_ & ? & _). }
    assert (Hsub : list_to_set ((fun b => bk (bs !!! b)) <$> seq 0 NBUF) ⊆ dom rc).
    { intros k. rewrite elem_of_list_to_set, list_elem_of_fmap. intros (b & -> & Hb).
      apply elem_of_seq in Hb. destruct (buf_is_total bs b) as [v Hv]; [apply HC|lia|].
      rewrite list_lookup_total_alt, (proj2 Hv). by eapply Hall. }
    apply subseteq_size in Hsub. rewrite size_list_to_set, length_fmap, length_seq, size_dom in Hsub by done.
    lia.
Qed.

(** ** Holding a block *)

(** What an operation on block [k] leaves alone: who holds the others. *)
Definition same_others (k : bkey) (bs bs' : list buf) : Prop :=
  forall k2, k2 <> k ->
    (forall b data pid, held bs b k2 data pid -> held bs' b k2 data pid) /\
    (free_block bs k2 -> free_block bs' k2).

Lemma same_others_insert bs b v w k :
  buf_is bs b v -> bk w = k -> (bk v = k \/ is_locked v = false) ->
  same_others k bs (<[b := w]> bs).
Proof.
  intros Hv Hk Hvk k2 Hne. split.
  - intros b2 data pid (v2 & Hv2 & Hk2 & Hl & Hrest).
    exists v2. split; [|done]. apply buf_is_insert_ne; [|done]. intros ->.
    assert (v2 = v) as -> by by eapply buf_is_fun.
    destruct Hvk as [?|Hvk]; [congruence|]. unfold is_locked in Hvk. by rewrite Hl in Hvk.
  - intros Hfree b2 v2 H2 Hk2.
    destruct (buf_is_insert _ _ _ _ _ _ (proj2 Hv) H2) as [(-> & -> & _)|[_ H2']]; [congruence|].
    by eapply Hfree.
Qed.

Lemma same_others_core k bs bs' bs2 :
  bcore <$> bs2 = bcore <$> bs' -> same_others k bs bs' -> same_others k bs bs2.
Proof.
  intros Heq Hs k2 Hne. destruct (Hs k2 Hne) as [H1 H2]. split.
  - intros. by eapply held_core, H1.
  - intros Hf b v (w & Hw & Ew)%(bcore_lookup _ _ _ _ Heq) <-.
    apply bcore_fields in Ew as (Ek & _ & _ & El & _). unfold is_locked. rewrite <-El.
    by eapply H2.
Qed.

(** The effect of bread on the buffers: some buffer now holds the block. *)
Record got (bs bs' : list buf) (dsk ct : disk) (rc : gmap bkey Z) (b : nat) (k : bkey)
    (data : block) (pid : Z) : Prop := {
  got_cache : cache bs' dsk ct (set_rc k (default 0 (rc !! k) + 1) rc);
  got_locks : locks_ok [] bs';
  got_held : held bs' b k data pid;
  got_others : same_others k bs bs'
}.

Lemma got_intro bs dsk ct rc b v w k data pid :
  cache bs dsk ct rc -> locks_ok [] bs -> k <> (0%nat, 0) -> free_block bs k ->
  0 <= default 0 (rc !! k) /\ default 0 (rc !! k) + 1 < 2 ^ 32 ->
  buf_is bs b v -> b_next w = b_next v -> b_prev w = b_prev v ->
  bk w = k -> b_lock w = mkSleep true pid -> b_valid w = true -> b_data w = data ->
  b_refcnt w = default 0 (rc !! k) + 1 ->
  (bk v = k \/ b_refcnt v = 0 /\ (forall b' v', buf_is bs b' v' -> bk v' <> k)) ->
  got bs (<[b := w]> bs) dsk ct rc b k data pid.
Proof.
  intros HC HL Hk0 Hfree Hc Hv Hn Hp <- Hl Hval <- Hr Hvk.
  assert (Hlw : is_locked w = true) by (unfold is_locked; by rewrite Hl). split.
  - rewrite <-Hr. eapply cache_put; try done; [lia| |by rewrite Hlw|lia].
    destruct Hvk as [->|Hvk]; [by left|by right].
  - intros b2 v2 H2 _ Hr2.
    destruct (buf_is_insert _ _ _ _ _ _ (proj2 Hv) H2) as [(-> & -> & _)|[_ H2']]; [lia|].
    eapply HL; [done|set_solver|done].
  - exists w. split; [by eapply buf_is_insert_eq|done].
  - eapply same_others_insert; [done|done|]. destruct Hvk as [Hk|[Hz _]]; [by left|right].
    eapply HL; [done|set_solver|done].
Qed.

(** What is on disk is what bread returns, for a block without valid buffer. *)
Lemma ct_is_dsk bs dsk ct rc k :
  cache bs dsk ct rc ->
  (forall b v, buf_is bs b v -> bk v = k -> b_valid v = false) -> ct !! k = dsk !! k.
Proof.
  intros HC Hno. destruct (decide (ct !! k = dsk !! k)) as [|Hne]; [done|].
  destruct (ca_clean _ _ _ _ HC k Hne) as (b & v & Hv & Hk & Hval & _).
  rewrite (Hno b v) in Hval by done. done.
Qed.

Lemma rc_nonneg bs dsk ct rc k : cache bs dsk ct rc -> 0 <= default 0 (rc !! k).
Proof.
  intros HC. destruct (rc !! k) as [c|] eqn:Hc; [|done].
  apply (ca_pos _ _ _ _ HC) in Hc as [? _]. cbn. lia.
Qed.

Lemma set_rc_id bs dsk ct rc k : cache bs dsk ct rc -> set_rc k (default 0 (rc !! k)) rc = rc.
Proof.
  intros HC. unfold set_rc. destruct (rc !! k) as [c|] eqn:Hc; cbn.
  - pose proof (ca_pos _ _ _ _ HC k c Hc) as [? _]. rewrite decide_False by lia. by apply insert_id.
  - rewrite decide_True by done. by apply delete_id.
Qed.

(** Any change to the data of a buffer that is held. *)
Lemma cache_set_held bs dsk ct rc b k data pid w X :
  cache bs dsk ct rc -> locks_ok X bs -> k <> (0%nat, 0) -> held bs b k data pid ->
  (forall v, buf_is bs b v -> b_next w = b_next v /\ b_prev w = b_prev v /\ bk w = bk v /\
     b_lock w = b_lock v /\ b_valid w = true /\ b_refcnt w = b_refcnt v) ->
  (0 < default 0 (rc !! k) \/ ct !! k = dsk !! k) ->
  cache (<[b := w]> bs) dsk ct rc /\ locks_ok X (<[b := w]> bs) /\
  held (<[b := w]> bs) b k (b_data w) pid /\ same_others k bs (<[b := w]> bs).
Proof.
  intros HC HL Hk0 (v & Hv & <- & Hl & Hval & <-) Hw Hcl.
  destruct (Hw v Hv) as (Hn & Hp & Hkw & Hlw & Hvalw & Hrw).
  pose proof (ca_rc _ _ _ _ HC b v Hv) as Hrc.
  assert (Hlk : is_locked w = true) by (unfold is_locked; by rewrite Hlw, Hl).
  split; [|split; [|split]].
  - rewrite <-(set_rc_id _ _ _ _ (bk v) HC) at 1. rewrite <-Hrc, <-Hkw, <-Hrw.
    eapply cache_put; try done.
    + by rewrite Hkw.
    + rewrite Hrw, Hrc. destruct (rc !! bk v) as [c|] eqn:Hc; cbn; [|lia].
      apply (ca_pos _ _ _ _ HC) in Hc as [? _]. lia.
    + by left.
    + by rewrite Hlk.
    + rewrite Hrw, Hrc, Hkw. done.
  - intros b2 v2 H2 HX Hr2.
    destruct (buf_is_insert _ _ _ _ _ _ (proj2 Hv) H2) as [(-> & -> & _)|[_ H2']]; [|by eapply HL].
    rewrite Hrw in Hr2. pose proof (HL b v Hv HX Hr2) as Hbad. unfold is_locked in Hbad. by rewrite Hl in Hbad.
  - exists w. split; [by eapply buf_is_insert_eq|]. rewrite Hkw, Hlw. done.
  - eapply same_others_insert; [done|done|by left].
Qed.

(** Changing the number of references to a block that is held. *)
Lemma cache_add_ref bs dsk ct rc b k data pid d v X :
  cache bs dsk ct rc -> locks_ok X bs -> k <> (0%nat, 0) -> held bs b k data pid ->
  buf_is bs b v -> let c' := u32 (default 0 (rc !! k) + d) in
  (0 < c' \/ ct !! k = dsk !! k) ->
  cache (<[b := add_ref d v]> bs) dsk ct (set_rc k c' rc) /\
  locks_ok (b :: X) (<[b := add_ref d v]> bs) /\
  held (<[b := add_ref d v]> bs) b k data pid /\ same_others k bs (<[b := add_ref d v]> bs).
Proof.
  intros HC HL Hk0 (v' & Hv' & Hkv & Hl & Hval & Hd) Hv c' Hcl.
  assert (v' = v) as -> by by eapply buf_is_fun.
  assert (Hr : b_refcnt (add_ref d v) = c').
  { cbn. by rewrite (ca_rc _ _ _ _ HC b v Hv), Hkv. }
  assert (Hlk : is_locked (add_ref d v) = true) by (unfold is_locked; cbn; by rewrite Hl).
  split; [|split; [|split]].
  - rewrite <-Hr, <-Hkv. change (bk v) with (bk (add_ref d v)). eapply cache_put; try done.
    + change (bk (add_ref d v)) with (bk v). by rewrite Hkv.
    + rewrite Hr. apply u32_range.
    + by left.
    + by rewrite Hlk.
    + rewrite Hr. change (bk (add_ref d v)) with (bk v). by rewrite Hkv.
  - intros b2 v2 H2 HX Hr2. apply not_elem_of_cons in HX as [Hne HX].
    destruct (buf_is_insert _ _ _ _ _ _ (proj2 Hv) H2) as [(-> & -> & _)|[_ H2']]; [done|by eapply HL].
  - exists (add_ref d v). split; [by eapply buf_is_insert_eq|done].
  - eapply same_others_insert; [done| |by left]. done.
Qed.

(** Releasing a buffer that is held. *)
Lemma cache_release bs dsk ct rc b k data pid v X :
  cache bs dsk ct rc -> locks_ok (b :: X) bs -> k <> (0%nat, 0) -> held bs b k data pid ->
  buf_is bs b v -> ct !! k = Some data ->
  let c' := u32 (default 0 (rc !! k) - 1) in
  (0 < c' \/ ct !! k = dsk !! k) ->
  let bs' := released_bufs b v bs in
  cache bs' dsk ct (set_rc k c' rc) /\ locks_ok X bs' /\ free_block bs' k /\ same_others k bs bs'.
Proof.
  intros HC HL Hk0 (v' & Hv' & Hkv & Hl & Hval & Hd) Hv Hct c' Hcl.
  assert (v' = v) as -> by by eapply buf_is_fun.
  set (w := add_ref (-1) (unlocked v)). set (bs1 := <[b := w]> bs).
  assert (Hr : b_refcnt w = c').
  { cbn. by rewrite (ca_rc _ _ _ _ HC b v Hv), Hkv. }
  assert (Hkw : bk w = k) by done.
  assert (HC1 : cache bs1 dsk ct (set_rc k c' rc)).
  { rewrite <-Hr, <-Hkw. eapply cache_put; try done.
    - by rewrite Hkw.
    - rewrite Hr. apply u32_range.
    - by left.
    - intros _ _. rewrite Hkw. cbn. by rewrite Hd.
    - rewrite Hr, Hkw. done. }
  assert (HL1 : locks_ok X bs1).
  { intros b2 v2 H2 HX Hr2.
    destruct (buf_is_insert _ _ _ _ _ _ (proj2 Hv) H2) as [(-> & -> & _)|[Hne H2']]; [done|].
    eapply HL; [done|set_solver|done]. }
  assert (HF1 : free_block bs1 k).
  { intros b2 v2 H2 Hk2.
    destruct (buf_is_insert _ _ _ _ _ _ (proj2 Hv) H2) as [(-> & -> & _)|[Hne H2']]; [done|].
    destruct Hne. eapply (ca_uniq _ _ _ _ HC); eauto; congruence. }
  assert (HO1 : same_others k bs bs1) by (eapply same_others_insert; [done|done|by left]).
  assert (Hmv : exists l', ring (move_front b bs1) l').
  { destruct (ca_ring _ _ _ _ HC1) as [l1 Hl1].
    destruct (list_elem_of_split l1 b) as (la & lb & ->).
    { apply (ring_elem _ _ _ Hl1), Hv. }
    exists (b :: la ++ lb). apply ring_move_front; [apply HC1|done]. }
  destruct Hmv as [l' Hl']. unfold released_bufs. fold w bs1.
  destruct (b_refcnt w =? 0); [|done].
  pose proof (bcore_move_front b bs1) as Hcore. split; [|split; [|split]].
  - by eapply cache_core.
  - by eapply locks_ok_core.
  - intros b2 v2 (w2 & H2 & Ew)%(bcore_lookup _ _ _ _ Hcore) Hk2.
    apply bcore_fields in Ew as (Ek & _ & _ & El & _). unfold is_locked. rewrite <-El.
    eapply HF1; [done|congruence].
  - by eapply same_others_core.
Qed.

(** ** The operations *)

Section ops.
Context (E : kstate -> kstate -> Prop) `{HE : !DiskEnv E} (h p : nat).

Abbreviation io := (io E h p).

(** Process [p] runs on hart [h], holds no spin lock, and can use the disk. *)
Record sys (s : kstate) : Prop := {
  sys_owns : owns h (Some p) [] (sy s);
  sys_ready : ready p s;
  sys_nproc : length (procs (pt s)) = NPROC
}.

Lemma io_sys s bs d s' : io s bs d s' -> sys s'.
Proof.
  intros H. split; [by eapply io_owns|by eapply io_ready|by eapply io_nproc].
Qed.

Lemma io_intro s y t bs :
  sys s -> owns h (Some p) [] y -> pt_sim (pt s) t -> length bs = length (bufs s) ->
  io s bs (dev s) (set_sy y (set_pt t (set_bufs bs s))).
Proof.
  intros [Ho Hr Hn] Hy Ht Hl. exists y, (mm s), t, (vdisks s). split; [done|]. split; [done|].
  split; [done|]. split; [done|]. split; [by rewrite <-(pt_sim_length _ _ Ht)|].
  eapply ready_ext; [exact Hr|done..].
Qed.

Lemma io_refl s : sys s -> io s (bufs s) (dev s) s.
Proof.
  intros Hs. replace s with (set_sy (sy s) (set_pt (pt s) (set_bufs (bufs s) s))) at 4 by by destruct s.
  apply io_intro; [done|apply Hs|done|done].
Qed.

(** Reading a block from the disk into its buffer. *)
Lemma runE_fill s b v data (Q : unit -> kstate -> Prop) :
  sys s -> buf_is (bufs s) b v -> disk_img (dev s) !! bk v = Some data ->
  (forall s', io s (<[b := set_b_valid true (set_b_data data (set_b_disk false v))]> (bufs s)) (dev s) s' ->
     Q tt s') ->
  runE E (virtio_disk_rw (b_dev v) b false ;; upd_buf b (set_b_valid true)) s Q.
Proof.
  intros [Ho Hr Hn] [Hlt Hb] Hd HQ. wp. eapply runE_mono; [by eapply rw_read|].
  intros _ s' (y & m & t & vd & Hy & Ht & Hm & -> & Hr'). unfold upd_buf. wp. apply HQ.
  exists y, m, t, vd. split; [|split; [done|split; [done|split; [done|split; [by rewrite <-(pt_sim_length _ _ Ht)|]]]]].
  - unfold set_buf_at, set_bufs, io_upd, buf_at. cbn. f_equal.
    rewrite list_lookup_total_insert_eq by by eapply lookup_lt_Some. by rewrite list_insert_insert_eq.
  - eapply ready_ext; [exact Hr'|done..|]. cbn. by rewrite !length_insert.
Qed.

Lemma runE_locked_bread s b v data (Q : nat -> kstate -> Prop) :
  sys s -> buf_is (bufs s) b v -> (b_valid v = true -> b_data v = data) ->
  (b_valid v = false -> disk_img (dev s) !! bk v = Some data) ->
  (forall w s', b_next w = b_next v -> b_prev w = b_prev v -> bk w = bk v -> b_lock w = b_lock v ->
     b_valid w = true -> b_data w = data -> b_refcnt w = b_refcnt v ->
     io s (<[b := w]> (bufs s)) (dev s) s' -> Q b s') ->
  runE E (v <- gets (buf_at b) ;;
          when (negb (b_valid v)) (virtio_disk_rw (b_dev v) b false ;; upd_buf b (set_b_valid true)) ;;
          ret b) s Q.
Proof.
  intros Hs Hv H1 H2 HQ. wp. rewrite (buf_at_lookup b v s) by apply Hv.
  destruct (b_valid v) eqn:Hval; cbn [negb].
  - wp. apply (HQ v); auto. rewrite list_insert_id by apply Hv. by apply io_refl.
  - eapply runE_fill; [done..|auto|]. intros s' Hio. wp. by eapply HQ; [..|exact Hio].
Qed.

Lemma io_set_buf s y b v : sys s -> owns h (Some p) [] y ->
  io s (<[b := v]> (bufs s)) (dev s) (set_sy y (set_buf_at b v s)).
Proof.
  intros Hs Hy. replace (set_sy y (set_buf_at b v s))
    with (set_sy y (set_pt (pt s) (set_bufs (<[b := v]> (bufs s)) s))) by done.
  apply io_intro; [done..|]. apply length_insert.
Qed.

(** bread returns the logical contents of the block, in a buffer the caller
    holds. *)
Lemma runE_bread s ct rc dev blockno data (Q : nat -> kstate -> Prop) :
  sys s -> cache (bufs s) (disk_img (KState.dev s)) ct rc -> locks_ok [] (bufs s) ->
  (dev, blockno) <> (0%nat, 0) -> ct !! (dev, blockno) = Some data ->
  free_block (bufs s) (dev, blockno) ->
  (size rc < NBUF)%nat \/ is_Some (rc !! (dev, blockno)) ->
  default 0 (rc !! (dev, blockno)) + 1 < 2 ^ 32 ->
  (forall b bs' s', io s bs' (KState.dev s) s' ->
     got (bufs s) bs' (disk_img (KState.dev s)) ct rc b (dev, blockno) data (p_pid (proc_at p s)) ->
     Q b s') ->
  runE E (bread dev blockno) s Q.
Proof.
  intros Hs HC HL Hk Hct Hfree Hroom Hc HQ. destruct (ca_ring _ _ _ _ HC) as [l Hl].
  pose proof (rc_nonneg _ _ _ _ (dev, blockno) HC) as Hc0.
  unfold bread. apply runE_bind.
  destruct (List.find (key_is dev blockno (bufs s)) l) as [b|] eqn:Hf.
  - (* cached *)
    pose proof Hf as Hf'. apply find_some in Hf' as [Hin Hkey].
    apply list_elem_of_In, (ring_elem _ _ _ Hl) in Hin.
    destruct (buf_is_total (bufs s) b) as [v Hv]; [apply HC|done|].
    apply (key_is_true _ _ _ _ v Hv) in Hkey.
    assert (Hul : is_locked v = false) by by eapply Hfree.
    eapply run_runE, (run_bget_hit h p); [apply Hs|done|done|apply Hv|done|]. intros y Hy.
    set (v1 := lock_by _ _). pose proof (io_set_buf s y b v1 Hs Hy) as Hio.
    eapply (runE_locked_bread _ b v1 data).
    + by eapply io_sys.
    + cbn. by eapply buf_is_insert_eq.
    + intros Hval. pose proof (ca_data _ _ _ _ HC b v Hv Hul Hval) as Hd.
      rewrite Hkey, Hct in Hd. by injection Hd.
    + intros Hval. change (bk v1) with (bk v). rewrite Hkey. cbn [KState.dev set_sy set_buf_at set_bufs].
      rewrite <-(ct_is_dsk _ _ _ _ (dev, blockno) HC); [done|].
      intros b' v' Hv' Hk'. assert (b' = b) as ->.
      { eapply (ca_uniq _ _ _ _ HC); eauto; congruence. }
      assert (v' = v) as -> by by eapply buf_is_fun. done.
    + intros w s' Hn Hp Hkw Hlw Hvalw Hdw Hrw Hio'. cbn in Hio'. rewrite list_insert_insert_eq in Hio'.
      eapply HQ; [eapply io_trans; [exact Hio|exact Hio']|]. eapply (got_intro _ _ _ _ b v w); try done.
      * by rewrite Hkw.
      * rewrite Hrw. cbn. rewrite (ca_rc _ _ _ _ HC b v Hv), Hkey. apply u32_small. lia.
      * by left.
  - (* recycle the least recently used free buffer *)
    assert (Hno : forall b v, buf_is (bufs s) b v -> bk v <> (dev, blockno))
      by (intros; by eapply find_not_cached).
    assert (Hrcn : rc !! (dev, blockno) = None).
    { destruct (rc !! (dev, blockno)) eqn:Hrc; [|done].
      apply (ca_pos _ _ _ _ HC) in Hrc as (_ & _ & b & v & Hv & Hkv). by destruct (Hno b v). }
    destruct Hroom as [Hroom|Hroom]; [|by rewrite Hrcn in Hroom; destruct Hroom].
    destruct (find_unused _ _ _ _ _ HC Hl Hroom) as (b & v & Hu & Hv & Hz).
    assert (Hul : is_locked v = false) by (eapply HL; [done|set_solver|done]).
    eapply run_runE, (run_bget_miss h p); [apply Hs|done|done|done|apply Hv|done|]. intros y Hy.
    set (v1 := lock_by _ _). pose proof (io_set_buf s y b v1 Hs Hy) as Hio.
    eapply (runE_locked_bread _ b v1 data).
    + by eapply io_sys.
    + cbn. by eapply buf_is_insert_eq.
    + done.
    + intros _. change (bk v1) with (dev, blockno). cbn [KState.dev set_sy set_buf_at set_bufs].
      rewrite <-(ct_is_dsk _ _ _ _ (dev, blockno) HC); [done|]. intros b' v' Hv' Hk'. by destruct (Hno b' v').
    + intros w s' Hn Hp Hkw Hlw Hvalw Hdw Hrw Hio'. cbn in Hio'. rewrite list_insert_insert_eq in Hio'.
      eapply HQ; [eapply io_trans; [exact Hio|exact Hio']|]. eapply (got_intro _ _ _ _ b v w); try done.
      * rewrite Hrw, Hrcn. done.
      * by right.
Qed.

(** The pid of the running process, which its sleep locks carry. *)
Definition me (s : kstate) : Z := p_pid (proc_at p s).

Lemma io_me s bs d s' : io s bs d s' -> me s' = me s.
Proof. apply io_pid. Qed.

Lemma held_buf s b k data : held (bufs s) b k data (me s) ->
  exists v, buf_is (bufs s) b v /\ bk v = k /\ b_lock v = mkSleep true (me s) /\
    b_valid v = true /\ b_data v = data.
Proof. done. Qed.

(** bwrite makes the disk block equal to the buffer. *)
Lemma runE_bwrite s ct rc b k data X (Q : unit -> kstate -> Prop) :
  sys s -> cache (bufs s) (disk_img (dev s)) ct rc -> locks_ok X (bufs s) ->
  k <> (0%nat, 0) -> held (bufs s) b k data (me s) -> is_Some (disk_img (dev s) !! k) ->
  (0 < default 0 (rc !! k) \/ ct !! k = disk_img (dev s) !! k) ->
  (forall bs' s', io s bs' (write_dev k data (dev s)) s' ->
     cache bs' (<[k := data]> (disk_img (dev s))) (<[k := data]> ct) rc ->
     locks_ok X bs' -> held bs' b k data (me s) -> same_others k (bufs s) bs' -> Q tt s') ->
  runE E (bwrite b) s Q.
Proof.
  intros Hs HC HL Hk0 Hheld Hdsk Hcl HQ. destruct (held_buf _ _ _ _ Hheld) as (v & Hv & Hkv & Hl & Hval & Hd).
  unfold bwrite. wp. eapply run_runE, run_holdingsleep; [typeclasses eauto|apply Hs|set_solver|].
  intros y Hy. cbn [sk_get buf_lock]. rewrite (buf_at_lookup b v s) by apply Hv.
  rewrite Hl. cbn [sl_locked sl_pid andb]. unfold me. rewrite Z.eqb_refl. cbn [negb]. wp.
  change (buf_at b (set_sy y s)) with (buf_at b s). rewrite (buf_at_lookup b v s) by apply Hv.
  eapply runE_mono.
  { apply (rw_write h p (set_sy y s) b v); [exact Hy| |apply Hv|apply Hv|].
    - eapply ready_ext; [apply Hs|done..].
    - change (b_dev v, b_blockno v) with (bk v). by rewrite Hkv. }
  intros [] s' (y' & m & t & vd & Hy' & Ht & Hm & -> & Hr'). cbn [bufs dev set_sy] in *.
  change (b_dev v, b_blockno v) with (bk v) in *. rewrite Hkv, Hd in *.
  destruct (cache_set_held _ _ _ _ b k data (me s) (set_b_disk false v) X HC HL Hk0 Hheld)
    as (HC' & HL' & Hheld' & Ho'); [|done|].
  { intros v' Hv'. assert (v' = v) as -> by by eapply buf_is_fun. done. }
  cbn [b_data set_b_disk] in Hheld'. rewrite Hd in Hheld'.
  eapply HQ; [| |exact HL'|exact Hheld'|exact Ho'].
  - exists y', m, t, vd. split; [done|]. split; [done|]. split; [done|]. split; [done|].
    split; [|done]. rewrite <-(pt_sim_length _ _ Ht). apply Hs.
  - rewrite <-Hkv. change (bk v) with (bk (set_b_disk false v)). eapply cache_write; [done|by eapply buf_is_insert_eq| |].
    + change (bk (set_b_disk false v)) with (bk v). by rewrite Hkv.
    + unfold is_locked. cbn. by rewrite Hl.
Qed.

(** brelse gives the block back. *)
Lemma runE_brelse s ct rc b k data X (Q : unit -> kstate -> Prop) :
  sys s -> cache (bufs s) (disk_img (dev s)) ct rc -> locks_ok (b :: X) (bufs s) ->
  k <> (0%nat, 0) -> held (bufs s) b k data (me s) -> ct !! k = Some data ->
  let c' := u32 (default 0 (rc !! k) - 1) in
  (0 < c' \/ ct !! k = disk_img (dev s) !! k) ->
  (forall bs' s', io s bs' (dev s) s' -> cache bs' (disk_img (dev s)) ct (set_rc k c' rc) ->
     locks_ok X bs' -> free_block bs' k -> same_others k (bufs s) bs' -> Q tt s') ->
  runE E (brelse b) s Q.
Proof.
  intros Hs HC HL Hk0 Hheld Hct c' Hcl HQ. pose proof Hheld as (v & Hv & Hkv & Hl & Hval & Hd).
  destruct (cache_release _ _ _ _ b k data (me s) v X HC HL Hk0 Hheld Hv Hct Hcl) as (HC' & HL' & HF' & HO').
  eapply run_runE, (run_brelse h p); [apply Hs|apply Hs|apply Hv|exact Hl|]. intros y Hy.
  eapply HQ; [|exact HC'|exact HL'|exact HF'|exact HO'].
  apply io_intro; [done|done|apply pt_sim_wake|]. by rewrite (ca_len _ _ _ _ HC'), (ca_len _ _ _ _ HC).
Qed.

(** bpin and bunpin change the number of references. *)
Lemma runE_addref s ct rc b k data X d (Q : unit -> kstate -> Prop) (m : K unit) :
  (forall v Q, buf_is (bufs s) b v -> (forall y', owns h (Some p) [] y' ->
     Q tt (set_sy y' (set_bufs (<[b := add_ref d v]> (bufs s)) s))) -> run m s Q) ->
  sys s -> cache (bufs s) (disk_img (dev s)) ct rc -> locks_ok X (bufs s) ->
  k <> (0%nat, 0) -> held (bufs s) b k data (me s) ->
  let c' := u32 (default 0 (rc !! k) + d) in
  (0 < c' \/ ct !! k = disk_img (dev s) !! k) ->
  (forall bs' s', io s bs' (dev s) s' -> cache bs' (disk_img (dev s)) ct (set_rc k c' rc) ->
     locks_ok (b :: X) bs' -> held bs' b k data (me s) -> same_others k (bufs s) bs' -> Q tt s') ->
  runE E m s Q.
Proof.
  intros Hm Hs HC HL Hk0 Hheld c' Hcl HQ. pose proof Hheld as (v & Hv & _).
  destruct (cache_add_ref _ _ _ _ b k data (me s) d v X HC HL Hk0 Hheld Hv Hcl) as (HC' & HL' & HF' & HO').
  apply run_runE. eapply Hm; [exact Hv|]. intros y Hy.
  eapply HQ; [|exact HC'|exact HL'|exact HF'|exact HO'].
  exact (io_set_buf s y b _ Hs Hy).
Qed.

Lemma runE_bunpin s ct rc b k data X (Q : unit -> kstate -> Prop) :
  sys s -> cache (bufs s) (disk_img (dev s)) ct rc -> locks_ok X (bufs s) ->
  k <> (0%nat, 0) -> held (bufs s) b k data (me s) ->
  let c' := u32 (default 0 (rc !! k) - 1) in
  (0 < c' \/ ct !! k = disk_img (dev s) !! k) ->
  (forall bs' s', io s bs' (dev s) s' -> cache bs' (disk_img (dev s)) ct (set_rc k c' rc) ->
     locks_ok (b :: X) bs' -> held bs' b k data (me s) -> same_others k (bufs s) bs' -> Q tt s') ->
  runE E (bunpin b) s Q.
Proof.
  intros Hs. apply (runE_addref _ _ _ _ _ _ _ (-1)); [|done].
  intros v Q' Hv HQ'. eapply (run_bunpin h p); [apply Hs|apply not_elem_of_nil|apply Hv|done].
Qed.

Lemma runE_bpin s ct rc b k data X (Q : unit -> kstate -> Prop) :
  sys s -> cache (bufs s) (disk_img (dev s)) ct rc -> locks_ok X (bufs s) ->
  k <> (0%nat, 0) -> held (bufs s) b k data (me s) ->
  let c' := u32 (default 0 (rc !! k) + 1) in
  (0 < c' \/ ct !! k = disk_img (dev s) !! k) ->
  (forall bs' s', io s bs' (dev s) s' -> cache bs' (disk_img (dev s)) ct (set_rc k c' rc) ->
     locks_ok (b :: X) bs' -> held bs' b k data (me s) -> same_others k (bufs s) bs' -> Q tt s') ->
  runE E (bpin b) s Q.
Proof.
  intros Hs. apply (runE_addref _ _ _ _ _ _ _ 1); [|done].
  intros v Q' Hv HQ'. eapply (run_bpin h p); [apply Hs|apply not_elem_of_nil|apply Hv|done].
Qed.

(** Assigning to the data of a buffer that is held. *)
Lemma runE_set_data s ct rc b k data X (f : kstate -> block) (Q : unit -> kstate -> Prop) :
  sys s -> cache (bufs s) (disk_img (dev s)) ct rc -> locks_ok X (bufs s) ->
  k <> (0%nat, 0) -> held (bufs s) b k data (me s) ->
  (0 < default 0 (rc !! k) \/ ct !! k = disk_img (dev s) !! k) ->
  (forall bs' s', io s bs' (dev s) s' -> cache bs' (disk_img (dev s)) ct rc ->
     locks_ok X bs' -> held bs' b k (f s) (me s) -> same_others k (bufs s) bs' -> Q tt s') ->
  runE E (modify (fun s => set_buf_at b (set_b_data (f s) (buf_at b s)) s)) s Q.
Proof.
  intros Hs HC HL Hk0 Hheld Hcl HQ. pose proof Hheld as (v & Hv & Hkv & Hl & Hval & Hd).
  wp. rewrite (buf_at_lookup b v s) by apply Hv.
  destruct (cache_set_held _ _ _ _ b k data (me s) (set_b_data (f s) v) X HC HL Hk0 Hheld)
    as (HC' & HL' & Hheld' & Ho'); [|done|].
  { intros v' Hv'. assert (v' = v) as -> by by eapply buf_is_fun. done. }
  eapply HQ; [|exact HC'|exact HL'|exact Hheld'|exact Ho'].
  pose proof (io_set_buf s (sy s) b (set_b_data (f s) v) Hs (sys_owns _ Hs)) as Hio.
  replace (set_buf_at b (set_b_data (f s) v) s) with (set_sy (sy s) (set_buf_at b (set_b_data (f s) v) s))
    by by destruct s. exact Hio.
Qed.

Lemma held_data s b k data : held (bufs s) b k data (me s) -> b_data (buf_at b s) = data.
Proof. intros (v & Hv & _ & _ & _ & <-). by rewrite (buf_at_lookup b v s) by apply Hv. Qed.

End ops.

End Cache.
