(* ===== verification/Log.v ===== *)
(** * The log (kernel/log.c)

    File-system calls bracket their writes with begin_op and end_op; the last
    one to end commits all of them: the blocks go to the log area, the header
    write is the commit point, then they are installed at home. *)

From S2P Require Import Prelude Bytes CString KState Spinlock Kernel Riscv Kalloc Vm Sched Console Virtio Bio.

Module Log.
Import Sched Bio.

Definition log_at (d : nat) (s : kstate) : logst := logs s !!! d.
Definition upd_log (d : nat) (f : logst -> logst) : K unit :=
  modify (fun s => set_logs (<[d := f (log_at d s)]> (logs s)) s).
(** lh.block[i] of the in-memory header; beyond LOGSIZE there is no entry. *)
Definition log_block (d : nat) (i : Z) : K Z :=
  if LOGSIZE <=? i then stuck "lh.block out of bounds"
  else gets (fun s => l_block (log_at d s) !!! Z.to_nat i).
Definition set_log_block (d : nat) (i v : Z) : K unit :=
  if LOGSIZE <=? i then stuck "lh.block out of bounds"
  else modify (fun s => set_logs (<[d := set_l_block (<[Z.to_nat i := v]> (l_block (log_at d s)))
                                           (log_at d s)]> (logs s)) s).
Definition log_n (d : nat) : K Z := gets (fun s => l_n (log_at d s)).

(** b->data as a whole: memmove(to->data, from->data, BSIZE). *)
Definition copy_data (to from : nat) : K unit :=
  modify (fun s => set_buf_at to (set_b_data (b_data (buf_at from s)) (buf_at to s)) s).

Definition install_one (dev : nat) (tail : Z) : K unit :=
  l <- gets (log_at dev) ;;
  lbuf <- bread dev (u32 (l_start l + tail + 1)) ;;
  bno <- log_block dev tail ;;
  dbuf <- bread dev (u32 bno) ;;
  copy_data dbuf lbuf ;;
  bwrite dbuf ;;
  bunpin dbuf ;;
  brelse lbuf ;;
  brelse dbuf.

Definition install_trans (dev : nat) : K unit :=
  n <- log_n dev ;;
  iter_each (seqZ 0 n) (install_one dev).

(** struct logheader at the start of a block: n, then block[]. *)
Definition read_head (dev : nat) : K unit :=
  st <- gets (fun s => l_start (log_at dev s)) ;;
  b <- bread dev (u32 st) ;;
  d <- gets (fun s => b_data (buf_at b s)) ;;
  upd_log dev (set_l_n (s32 (ld32 d 0))) ;;
  iter_each (seqZ 0 (s32 (ld32 d 0))) (fun i =>
    set_log_block dev i (s32 (ld32 d (4 + 4 * i)))) ;;
  brelse b.

Definition store_data32 (b : nat) (off v : Z) : K unit :=
  modify (fun s => set_buf_at b (set_b_data (st32 (b_data (buf_at b s)) off v) (buf_at b s)) s).

Definition write_head (dev : nat) : K unit :=
  st <- gets (fun s => l_start (log_at dev s)) ;;
  b <- bread dev (u32 st) ;;
  n <- log_n dev ;;
  store_data32 b 0 n ;;
  iter_each (seqZ 0 n) (fun i =>
    v <- log_block dev i ;;
    store_data32 b (4 + 4 * i) v) ;;
  bwrite b ;;
  brelse b.

Definition recover_from_log (dev : nat) : K unit :=
  read_head dev ;;
  install_trans dev ;;
  upd_log dev (set_l_n 0) ;;
  write_head dev.

(** sizeof(struct logheader) = 4 * (1 + LOGSIZE) *)
Definition initlog (dev : nat) (sb : superblock) : K unit :=
  if BSIZE <=? 4 * (1 + LOGSIZE) then panic "initlog: too big logheader" else
  initlock (LLog dev) "log" ;;
  upd_log dev (set_l_start (s32 (sb_logstart sb))) ;;
  upd_log dev (set_l_size (s32 (sb_nlog sb))) ;;
  upd_log dev (set_l_dev dev) ;;
  recover_from_log dev.

Definition begin_op (dev : nat) : K unit :=
  acquire (LLog dev) ;;
  loop wait_fuel (fun _ =>
    l <- gets (log_at dev) ;;
    if l_committing l then sleep ChLog (LLog dev) ;; ret (inl tt)
    else if LOGSIZE <? l_n l + (l_outstanding l + 1) * MAXOPBLOCKS then
      sleep ChLog (LLog dev) ;; ret (inl tt)
    else
      upd_log dev (set_l_outstanding (l_outstanding l + 1)) ;;
      release (LLog dev) ;;
      ret (inr tt)) tt.

Definition write_log_one (dev : nat) (tail : Z) : K unit :=
  l <- gets (log_at dev) ;;
  to <- bread dev (u32 (l_start l + tail + 1)) ;;
  bno <- log_block dev tail ;;
  from <- bread dev (u32 bno) ;;
  copy_data to from ;;
  bwrite to ;;
  brelse from ;;
  brelse to.

Definition write_log (dev : nat) : K unit :=
  n <- log_n dev ;;
  iter_each (seqZ 0 n) (write_log_one dev).

Definition commit (dev : nat) : K unit :=
  n <- log_n dev ;;
  when (0 <? n)
    (write_log dev ;;
     write_head dev ;;
     install_trans dev ;;
     upd_log dev (set_l_n 0) ;;
     write_head dev).

Definition end_op (dev : nat) : K unit :=
  acquire (LLog dev) ;;
  modify (fun s => set_logs (<[dev := set_l_outstanding (l_outstanding (log_at dev s) - 1)
                                        (log_at dev s)]> (logs s)) s) ;;
  l <- gets (log_at dev) ;;
  if l_committing l then panic "log[dev].committing" else
  let do_commit := l_outstanding l =? 0 in
  (if do_commit then upd_log dev (set_l_committing true) else wakeup ChLog) ;;
  release (LLog dev) ;;
  when do_commit
    (commit dev ;;
     acquire (LLog dev) ;;
     upd_log dev (set_l_committing false) ;;
     wakeup ChLog ;;
     release (LLog dev)).

(** The index at which [blockno] is already logged, or [n]. *)
Fixpoint absorb_index (i : nat) (n : nat) (blocks : list Z) (blockno : Z) : nat :=
  match n with
  | O => i
  | S n' => if u32 (blocks !!! i) =? blockno then i else absorb_index (S i) n' blocks blockno
  end.

Definition log_write (b : nat) : K unit :=
  dev <- gets (fun s => b_dev (buf_at b s)) ;;
  l <- gets (log_at dev) ;;
  if (LOGSIZE <=? l_n l) || (l_size l - 1 <=? l_n l) then panic "too big a transaction" else
  if l_outstanding l <? 1 then panic "log_write outside of trans" else
  acquire (LLog dev) ;;
  blockno <- gets (fun s => b_blockno (buf_at b s)) ;;
  l <- gets (log_at dev) ;;
  let i := absorb_index 0 (Z.to_nat (l_n l)) (l_block l) blockno in
  set_log_block dev (Z.of_nat i) (s32 blockno) ;;
  n <- log_n dev ;;
  when (Z.of_nat i =? n) (bpin b ;; upd_log dev (set_l_n (n + 1))) ;;
  release (LLog dev).

End Log.
