(* ===== verification/Commit.v ===== *)
(** * Atomicity of the log (kernel/log.c)

    write_log, write_head and install_trans are specified on the logical
    contents kept by the buffer cache (Cache).  From them: commit performs
    exactly the writes of the write-ahead protocol, recovery installs exactly
    the logged blocks, and a crash between any two block writes of a commit
    leaves a disk from which recovery produces either all or none of the
    transaction. *)

From S2P Require Import Prelude Bytes CString KState Spinlock Kernel Riscv Kalloc Vm Sched Console Virtio Disk Bio Cache Log.

Module Commit.
Import Sched Virtio Disk Bio Cache Log.

(** The disk and the device after a sequence of block writes. *)
Definition wr_ct (ws : list (bkey * block)) (d : disk) : disk :=
  foldl (fun d w => <[w.1 := w.2]> d) d ws.
Definition wr_dev (ws : list (bkey * block)) (d : devst) : devst :=
  foldl (fun d w => write_dev w.1 w.2 d) d ws.

Lemma wr_ct_snoc ws k x d : wr_ct (ws ++ [(k, x)]) d = <[k := x]> (wr_ct ws d).
Proof. unfold wr_ct. by rewrite foldl_app. Qed.
Lemma wr_dev_snoc ws k x d : wr_dev (ws ++ [(k, x)]) d = write_dev k x (wr_dev ws d).
Proof. unfold wr_dev. by rewrite foldl_app. Qed.
Lemma wr_ct_app ws ws' d : wr_ct (ws ++ ws') d = wr_ct ws' (wr_ct ws d).
Proof. apply foldl_app. Qed.
Lemma wr_dev_app ws ws' d : wr_dev (ws ++ ws') d = wr_dev ws' (wr_dev ws d).
Proof. apply foldl_app. Qed.

Lemma disk_img_wr ws : forall d, disk_img (wr_dev ws d) = wr_ct ws (disk_img d).
Proof. induction ws as [|w ws IH]; intros d; [done|]. apply (IH (write_dev w.1 w.2 d)). Qed.
Lemma disk_trace_wr ws : forall d,
  disk_trace (wr_dev ws d) = disk_trace d ++ ((fun w => (w.1.1, w.1.2, w.2)) <$> ws).
Proof.
  induction ws as [|w ws IH]; intros d; [by rewrite app_nil_r|].
  etransitivity; [apply (IH (write_dev w.1 w.2 d))|]. cbn. by rewrite <-app_assoc.
Qed.

Lemma wr_ct_notin ws k : k ∉ ws.*1 -> forall d, wr_ct ws d !! k = d !! k.
Proof.
  induction ws as [|[k' x] ws IH]; intros Hk d; [done|]. cbn in Hk. apply not_elem_of_cons in Hk as [Hne Hk].
  etransitivity; [by apply (IH Hk (<[k' := x]> d))|]. by apply lookup_insert_ne.
Qed.
Lemma wr_ct_some ws k : forall d, is_Some (d !! k) -> is_Some (wr_ct ws d !! k).
Proof.
  induction ws as [|[k' x] ws IH]; intros d Hk; [done|]. apply (IH (<[k' := x]> d)).
  destruct (decide (k' = k)) as [->|]; [by rewrite lookup_insert_eq|by rewrite lookup_insert_ne].
Qed.
(** A write to a block that no other write concerns. *)
Lemma wr_ct_lookup ws i k x d : NoDup ws.*1 -> ws !! i = Some (k, x) -> wr_ct ws d !! k = Some x.
Proof.
  revert i d. induction ws as [|[k' x'] ws IH]; intros [|i] d Hnd Hi; try done; cbn in *.
  - simplify_eq. apply NoDup_cons in Hnd as [Hn _]. 
    etransitivity; [by apply (wr_ct_notin ws k Hn (<[k := x]> d))|]. by rewrite lookup_insert_eq.
  - apply NoDup_cons in Hnd as [_ Hnd]. by apply (IH i (<[k' := x']> d)).
Qed.
Lemma wr_ct_ext ws d d' k : d !! k = d' !! k -> wr_ct ws d !! k = wr_ct ws d' !! k.
Proof.
  revert d d'. induction ws as [|[k' x] ws IH]; intros d d' H; [done|]. apply (IH (<[k' := x]> d) (<[k' := x]> d')).
  destruct (decide (k' = k)) as [->|]; [by rewrite !lookup_insert_eq|by rewrite !lookup_insert_ne].
Qed.

(** The blocks of the log: its header, the [i]-th copy and the [i]-th home. *)
Definition hdr_key (dv : nat) (L : logst) : bkey := (dv, u32 (l_start L)).
Definition log_key (dv : nat) (L : logst) (i : nat) : bkey := (dv, u32 (l_start L + Z.of_nat i + 1)).
Definition home_key (dv : nat) (L : logst) (i : nat) : bkey := (dv, u32 (l_block L !!! i)).
Definition log_keys dv L n := log_key dv L <$> seq 0 n.
Definition home_keys dv L n := home_key dv L <$> seq 0 n.

(** The blocks of a transaction of [n] blocks are distinct blocks. *)
Definition log_geom (dv : nat) (L : logst) (n : nat) : Prop :=
  NoDup ((0%nat, 0) :: hdr_key dv L :: log_keys dv L n ++ home_keys dv L n) /\ (n <= 29)%nat.

Lemma lookup_log_keys dv L n i : (i < n)%nat -> log_keys dv L n !! i = Some (log_key dv L i).
Proof. intros. unfold log_keys. by rewrite list_lookup_fmap, lookup_seq_lt. Qed.
Lemma lookup_home_keys dv L n i : (i < n)%nat -> home_keys dv L n !! i = Some (home_key dv L i).
Proof. intros. unfold home_keys. by rewrite list_lookup_fmap, lookup_seq_lt. Qed.

Lemma elem_log_keys dv L n k : k ∈ log_keys dv L n <-> exists i, (i < n)%nat /\ k = log_key dv L i.
Proof.
  unfold log_keys. rewrite list_elem_of_fmap. split.
  - intros (i & -> & Hi%elem_of_seq). exists i. split; [lia|done].
  - intros (i & Hi & ->). exists i. split; [done|]. apply elem_of_seq. lia.
Qed.
Lemma elem_home_keys dv L n k : k ∈ home_keys dv L n <-> exists i, (i < n)%nat /\ k = home_key dv L i.
Proof.
  unfold home_keys. rewrite list_elem_of_fmap. split.
  - intros (i & -> & Hi%elem_of_seq). exists i. split; [lia|done].
  - intros (i & Hi & ->). exists i. split; [done|]. apply elem_of_seq. lia.
Qed.

Lemma set_rc_none (k : bkey) (rc : gmap bkey Z) : rc !! k = None -> set_rc k 0 rc = rc.
Proof. intros. unfold set_rc. rewrite decide_True by done. by apply delete_id. Qed.

(** One reference less to each block of [ks]: bunpin of install_trans. *)
Definition unpin_all (ks : list bkey) (rc : gmap bkey Z) : gmap bkey Z :=
  foldl (fun r k => set_rc k (u32 (default 0 (r !! k) - 1)) r) rc ks.

Lemma unpin_snoc ks k rc : unpin_all (ks ++ [k]) rc =
  set_rc k (u32 (default 0 (unpin_all ks rc !! k) - 1)) (unpin_all ks rc).
Proof. unfold unpin_all. by rewrite foldl_app. Qed.
Lemma unpin_notin ks k : forall rc, k ∉ ks -> unpin_all ks rc !! k = rc !! k.
Proof.
  induction ks as [|k' ks IH]; intros rc Hk; [done|]. apply not_elem_of_cons in Hk as [Hne Hk].
  etransitivity; [by apply (IH (set_rc k' (u32 (default 0 (rc !! k') - 1)) rc))|].
  by rewrite lookup_set_rc_ne.
Qed.

(** The header block write_head makes of the in-memory header. *)
Definition put_head (L : logst) (n : nat) (data : block) : block :=
  foldl (fun d i => st32 d (4 + 4 * Z.of_nat i) (l_block L !!! i)) (st32 data 0 (Z.of_nat n)) (seq 0 n).

(** The in-memory header read_head makes of a header block. *)
Definition read_blocks (d : block) (n : nat) (bl : list Z) : list Z :=
  foldl (fun bl i => <[i := s32 (ld32 d (4 + 4 * Z.of_nat i))]> bl) bl (seq 0 n).
Definition read_log (d : block) (L : logst) : logst :=
  set_l_block (read_blocks d (Z.to_nat (s32 (ld32 d 0))) (l_block L)) (set_l_n (s32 (ld32 d 0)) L).

Lemma length_st32 (d : block) off v : length (st32 d off v) = length d.
Proof.
  unfold st32, stn. cbn. unfold list_setb. by repeat case_match; rewrite ?length_insert.
Qed.

Lemma put_head_S L n data d : d = foldl (fun d i => st32 d (4 + 4 * Z.of_nat i) (l_block L !!! i)) data (seq 0 n) ->
  foldl (fun d i => st32 d (4 + 4 * Z.of_nat i) (l_block L !!! i)) data (seq 0 (S n)) =
  st32 d (4 + 4 * Z.of_nat n) (l_block L !!! n).
Proof. intros ->. by rewrite seq_S, foldl_app. Qed.

Lemma put_blocks_spec L data n : (4 + 4 * n <= length data)%nat ->
  let d := foldl (fun d i => st32 d (4 + 4 * Z.of_nat i) (l_block L !!! i)) data (seq 0 n) in
  length d = length data /\ ld32 d 0 = ld32 data 0 /\
  forall i, (i < n)%nat -> ld32 d (4 + 4 * Z.of_nat i) = u32 (l_block L !!! i).
Proof.
  induction n as [|n IH]; intros Hlen; [split_and!; [done|done|lia]|].
  destruct IH as (Hl & H0 & Hb); [lia|]. cbv zeta. rewrite (put_head_S L n data _ eq_refl).
  set (d := foldl _ _ _) in *. split_and!.
  - by rewrite length_st32.
  - unfold ld32, st32. rewrite ldn_stn_ne by lia. done.
  - intros i Hi. unfold ld32, st32. destruct (decide (i = n)) as [->|].
    + rewrite ldn_stn_eq; [done|]. intros b Hb'. cbn. lia.
    + rewrite ldn_stn_ne by lia. apply Hb. lia.
Qed.

(** Reading back a header that was written. *)
Lemma put_head_spec L data n : (124 <= length data)%nat -> (n <= 29)%nat ->
  length (put_head L n data) = length data /\ ld32 (put_head L n data) 0 = Z.of_nat n /\
  forall i, (i < n)%nat -> ld32 (put_head L n data) (4 + 4 * Z.of_nat i) = u32 (l_block L !!! i).
Proof.
  intros Hlen Hn. destruct (put_blocks_spec L (st32 data 0 (Z.of_nat n)) n) as (Hl & H0 & Hb).
  { rewrite length_st32. lia. }
  unfold put_head. split_and!; [by rewrite Hl, length_st32| |done].
  rewrite H0. unfold ld32, st32. rewrite ldn_stn_eq; [apply Z.mod_small; lia|]. intros b Hb'. cbn. lia.
Qed.

Lemma read_blocks_spec d bl n : (n <= length bl)%nat ->
  length (read_blocks d n bl) = length bl /\
  forall i, (i < n)%nat -> read_blocks d n bl !!! i = s32 (ld32 d (4 + 4 * Z.of_nat i)).
Proof.
  unfold read_blocks. induction n as [|n IH]; intros Hn; [split; [done|lia]|].
  destruct IH as [Hl Hb]; [lia|]. rewrite seq_S, foldl_app. cbn. rewrite length_insert.
  split; [done|]. intros i Hi. destruct (decide (i = n)) as [->|].
  - apply list_lookup_total_insert_eq. lia.
  - rewrite list_lookup_total_insert_ne by lia. apply Hb. lia.
Qed.

Lemma unpin_pinned ks : forall rc, NoDup ks -> (forall k, k ∈ ks -> rc !! k = Some 1) -> unpin_all ks rc ⊆ rc.
Proof.
  induction ks as [|k ks IH]; intros rc Hnd H1; [done|]. apply NoDup_cons in Hnd as [Hk Hnd].
  change (unpin_all (k :: ks) rc) with (unpin_all ks (set_rc k (u32 (default 0 (rc !! k) - 1)) rc)).
  rewrite (H1 k) by set_solver. change (set_rc k _ rc) with (delete k rc).
  etransitivity; [apply IH; [done|]|apply delete_subseteq].
  intros k' Hk'. rewrite lookup_delete_ne by set_solver. apply H1. set_solver.
Qed.

(** Unpinning blocks that nobody references. *)
Lemma unpin_unpinned ks k : forall rc, NoDup ks -> k ∈ ks -> rc !! k = None ->
  unpin_all ks rc !! k = Some (2 ^ 32 - 1).
Proof.
  induction ks as [|k' ks IH]; intros rc Hnd Hin Hk; [by apply elem_of_nil in Hin|].
  apply NoDup_cons in Hnd as [Hn Hnd].
  change (unpin_all (k' :: ks) rc) with (unpin_all ks (set_rc k' (u32 (default 0 (rc !! k') - 1)) rc)).
  destruct (decide (k = k')) as [->|Hne].
  - rewrite unpin_notin by done. rewrite Hk. change (set_rc k' _ rc) with (<[k' := 2 ^ 32 - 1]> rc).
    apply lookup_insert_eq.
  - apply IH; [done|set_solver|]. by rewrite lookup_set_rc_ne.
Qed.

Lemma unpin_size ks : forall rc, (size (unpin_all ks rc) <= size rc + length ks)%nat.
Proof.
  induction ks as [|k ks IH]; intros rc; [cbn; lia|].
  etransitivity; [apply (IH (set_rc k (u32 (default 0 (rc !! k) - 1)) rc))|]. cbn.
  enough ((size (set_rc k (u32 (default 0%Z (rc !! k) - 1)%Z) rc) <= S (size rc))%nat) by lia.
  unfold set_rc. case_decide; [rewrite map_size_delete|rewrite map_size_insert]; destruct (rc !! k); cbn; lia.
Qed.

Section geometry.
Context (dv : nat) (L : logst) (n : nat) (Hg : log_geom dv L n).

Lemma geom_hdr0 : hdr_key dv L <> (0%nat, 0).
Proof. destruct Hg as [H _]. apply NoDup_cons in H as [H _]. set_solver. Qed.
Lemma geom_hdr_log : hdr_key dv L ∉ log_keys dv L n.
Proof. destruct Hg as [H _]. apply NoDup_cons in H as [_ H]. apply NoDup_cons in H as [H _]. set_solver. Qed.
Lemma geom_hdr_home : hdr_key dv L ∉ home_keys dv L n.
Proof. destruct Hg as [H _]. apply NoDup_cons in H as [_ H]. apply NoDup_cons in H as [H _]. set_solver. Qed.
Lemma geom_app : NoDup (log_keys dv L n ++ home_keys dv L n).
Proof. destruct Hg as [H _]. apply NoDup_cons in H as [_ H]. by apply NoDup_cons in H as [_ H]. Qed.
Lemma geom_log_nodup : NoDup (log_keys dv L n).
Proof. apply (NoDup_app _ (home_keys dv L n)), geom_app. Qed.
Lemma geom_home_nodup : NoDup (home_keys dv L n).
Proof. apply (NoDup_app (log_keys dv L n)), geom_app. Qed.
Lemma geom_disj k : k ∈ log_keys dv L n -> k ∉ home_keys dv L n.
Proof. apply (NoDup_app _ (home_keys dv L n)), geom_app. Qed.
Lemma geom_log0 i : (i < n)%nat -> log_key dv L i <> (0%nat, 0).
Proof.
  intros Hi Heq. destruct Hg as [H _]. apply NoDup_cons in H as [H _]. apply H, elem_of_cons. right.
  apply elem_of_app. left. apply elem_log_keys. by exists i.
Qed.
Lemma geom_home0 i : (i < n)%nat -> home_key dv L i <> (0%nat, 0).
Proof.
  intros Hi Heq. destruct Hg as [H _]. apply NoDup_cons in H as [H _]. apply H, elem_of_cons. right.
  apply elem_of_app. right. apply elem_home_keys. by exists i.
Qed.
Lemma geom_log_home i j : (i < n)%nat -> (j < n)%nat -> log_key dv L i <> home_key dv L j.
Proof.
  intros Hi Hj Heq. eapply (geom_disj (log_key dv L i)).
  - apply elem_log_keys. by exists i.
  - apply elem_home_keys. by exists j.
Qed.
Lemma geom_log_fresh i : (i < n)%nat -> log_key dv L i ∉ take i (log_keys dv L n).
Proof.
  intros Hi (j & Hj)%list_elem_of_lookup. apply lookup_take_Some in Hj as [Hj Hlt].
  pose proof (NoDup_lookup _ _ _ _ geom_log_nodup Hj (lookup_log_keys dv L n i Hi)). lia.
Qed.
Lemma geom_home_fresh i : (i < n)%nat -> home_key dv L i ∉ take i (home_keys dv L n).
Proof.
  intros Hi (j & Hj)%list_elem_of_lookup. apply lookup_take_Some in Hj as [Hj Hlt].
  pose proof (NoDup_lookup _ _ _ _ geom_home_nodup Hj (lookup_home_keys dv L n i Hi)). lia.
Qed.
Lemma geom_home_take i j : (i < n)%nat -> home_key dv L i ∉ take j (log_keys dv L n).
Proof.
  intros Hi Hin%elem_of_take. destruct Hin as (i' & Hin%list_elem_of_lookup_2 & _).
  eapply geom_disj; [exact Hin|]. apply elem_home_keys. by exists i.
Qed.
Lemma geom_log_take i j : (i < n)%nat -> log_key dv L i ∉ take j (home_keys dv L n).
Proof.
  intros Hi Hin%elem_of_take. destruct Hin as (i' & Hin%list_elem_of_lookup_2 & _).
  eapply geom_disj; [|exact Hin]. apply elem_log_keys. by exists i.
Qed.
End geometry.

Lemma take_S_zip {A B} (ks : list A) (xs : list B) i k x :
  ks !! i = Some k -> xs !! i = Some x -> take (S i) (zip ks xs) = take i (zip ks xs) ++ [(k, x)].
Proof.
  intros Hk Hx. apply take_S_r. rewrite lookup_zip_with, Hk. cbn. by rewrite Hx.
Qed.
Lemma fst_take_zip {A B} (ks : list A) (xs : list B) i :
  length ks = length xs -> (take i (zip ks xs)).*1 = take i ks.
Proof. intros Hl. rewrite fmap_take, fst_zip; [done|lia]. Qed.

Section blocks.
Context (E : kstate -> kstate -> Prop) `{HE : !DiskEnv E} (h p : nat).

Abbreviation io := (io E h p).
Abbreviation sys := (sys E h p).

(** [s'] is reached from [s] by disk accesses only. *)
Definition moves (s s' : kstate) : Prop := io s (bufs s') (dev s') s'.

Lemma moves_io s bs d s' : io s bs d s' -> moves s s'.
Proof.
  intros H. unfold moves. rewrite (io_bufs _ _ _ _ _ _ _ H), (io_dev _ _ _ _ _ _ _ H). done.
Qed.
Lemma moves_trans s s1 s2 : moves s s1 -> moves s1 s2 -> moves s s2.
Proof. apply io_trans. Qed.
(** Composes the moves of the hypotheses. *)
Ltac chain := first [eassumption | eapply moves_trans; [eassumption|chain]].

Lemma moves_log d s s' : moves s s' -> log_at d s' = log_at d s.
Proof. intros H. unfold log_at. by rewrite (io_logs _ _ _ _ _ _ _ H). Qed.

(** The cache is consistent and the process holds exactly the blocks of [H],
    in the given buffers and with the given contents. *)
Record hold (s : kstate) (ct : disk) (rc : gmap bkey Z) (X : list nat)
    (H : list (nat * bkey * block)) : Prop := {
  ho_sys : sys s;
  ho_cache : cache (bufs s) (disk_img (dev s)) ct rc;
  ho_locks : locks_ok X (bufs s);
  ho_held : forall b k data, (b, k, data) ∈ H -> held (bufs s) b k data (me p s);
  ho_free : forall k, k ∉ (fun x => x.1.2) <$> H -> free_block (bufs s) k;
  ho_keys : NoDup ((fun x => x.1.2) <$> H)
}.

#[local] Instance hold_perm s ct rc X : Proper ((≡ₚ) ==> iff) (hold s ct rc X).
Proof.
  assert (Hone : forall H H', H ≡ₚ H' -> hold s ct rc X H -> hold s ct rc X H').
  { intros H H' Hp [H1 H2 H3 H4 H5 H6]. split; try done.
    - intros b k data Hin. apply H4. by rewrite Hp.
    - intros k Hk. apply H5. by rewrite Hp.
    - by rewrite <-Hp. }
  intros H H' Hp. split; apply Hone; [done|by symmetry].
Qed.

Lemma io_norm s bs d s' : io s bs d s' ->
  bs = bufs s' /\ d = dev s' /\ me p s = me p s' /\ moves s s' /\ sys s'.
Proof.
  intros H. split; [by rewrite (io_bufs _ _ _ _ _ _ _ H)|]. split; [by rewrite (io_dev _ _ _ _ _ _ _ H)|].
  split; [by rewrite (io_me _ _ _ _ _ _ _ H)|]. split; [by eapply moves_io|by eapply io_sys].
Qed.

(** A step that concerns block [k] only. *)
Lemma hold_step s s' ct ct' rc rc' X X' b k data data' H :
  hold s ct rc X ((b, k, data) :: H) -> sys s' -> me p s = me p s' ->
  cache (bufs s') (disk_img (dev s')) ct' rc' -> locks_ok X' (bufs s') ->
  held (bufs s') b k data' (me p s) -> same_others k (bufs s) (bufs s') ->
  hold s' ct' rc' X' ((b, k, data') :: H).
Proof.
  intros [H1 H2 H3 H4 H5 H6] Hs Hme HC HL Hh Ho. cbn in H6. apply NoDup_cons in H6 as [Hk H6].
  split; try done.
  - intros b2 k2 d2 [[= -> -> ->]|Hin]%elem_of_cons; [by rewrite <-Hme|].
    rewrite <-Hme. apply Ho; [|apply H4; set_solver]. intros ->. apply Hk.
    apply list_elem_of_fmap. by exists (b2, k, d2).
  - intros k2 Hk2. cbn in Hk2. apply Ho; [set_solver|]. apply H5. cbn. set_solver.
  - cbn. by apply NoDup_cons.
Qed.

Section ops.
Context (s : kstate) (ct : disk) (rc : gmap bkey Z) (H : list (nat * bkey * block)).

Lemma hold_bread dv bn data (Q : nat -> kstate -> Prop) :
  hold s ct rc [] H -> (dv, bn) <> (0%nat, 0) -> (dv, bn) ∉ (fun x => x.1.2) <$> H ->
  ct !! (dv, bn) = Some data -> (size rc < 30)%nat \/ is_Some (rc !! (dv, bn)) ->
  default 0 (rc !! (dv, bn)) + 1 < 2 ^ 32 ->
  (forall b s', moves s s' -> dev s' = dev s ->
     hold s' ct (set_rc (dv, bn) (default 0 (rc !! (dv, bn)) + 1) rc) [] ((b, (dv, bn), data) :: H) ->
     Q b s') ->
  runE E (bread dv bn) s Q.
Proof.
  intros [H1 H2 H3 H4 H5 H6] Hk Hnin Hct Hroom Hc HQ.
  eapply (runE_bread E h p); [done|exact H2|done|done|done|by apply H5|done|done|].
  intros b bs' s' Hio [HC' HL' Hh' Ho']. destruct (io_norm _ _ _ _ Hio) as (-> & Hd & Hme & Hm & Hs').
  apply (HQ b s'); [done|done|]. rewrite Hd in HC'. split; try done.
  - intros b2 k2 d2 [[= -> -> ->]|Hin]%elem_of_cons; [by rewrite <-Hme|].
    rewrite <-Hme. apply Ho'; [|by apply H4]. intros ->. apply Hnin.
    apply list_elem_of_fmap. by exists (b2, (dv, bn), d2).
  - intros k2 Hk2. cbn in Hk2. apply Ho'; [set_solver|]. apply H5. set_solver.
  - cbn. by apply NoDup_cons.
Qed.

Lemma hold_set_data X b k data (f : kstate -> block) (Q : unit -> kstate -> Prop) :
  hold s ct rc X ((b, k, data) :: H) -> k <> (0%nat, 0) -> 0 < default 0 (rc !! k) ->
  (forall s', moves s s' -> dev s' = dev s -> hold s' ct rc X ((b, k, f s) :: H) -> Q tt s') ->
  runE E (modify (fun s => set_buf_at b (set_b_data (f s) (buf_at b s)) s)) s Q.
Proof.
  intros Hh Hk Hc HQ. pose proof Hh as [H1 H2 H3 H4 H5 H6].
  eapply (runE_set_data E h p); [done|exact H2|done|exact Hk|apply H4, elem_of_cons; by left|by left|].
  intros bs' s' Hio HC' HL' Hh' Ho'. destruct (io_norm _ _ _ _ Hio) as (-> & Hd & Hme & Hm & Hs').
  apply HQ; [done|done|]. rewrite Hd in HC'. by eapply hold_step.
Qed.

Lemma hold_bwrite X b k data (Q : unit -> kstate -> Prop) :
  hold s ct rc X ((b, k, data) :: H) -> k <> (0%nat, 0) -> 0 < default 0 (rc !! k) ->
  is_Some (disk_img (dev s) !! k) ->
  (forall s', moves s s' -> dev s' = write_dev k data (dev s) ->
     hold s' (<[k := data]> ct) rc X ((b, k, data) :: H) -> Q tt s') ->
  runE E (bwrite b) s Q.
Proof.
  intros Hh Hk Hc Hdsk HQ. pose proof Hh as [H1 H2 H3 H4 H5 H6].
  eapply (runE_bwrite E h p); [done|exact H2|done|exact Hk|apply H4, elem_of_cons; by left|done|by left|].
  intros bs' s' Hio HC' HL' Hh' Ho'. destruct (io_norm _ _ _ _ Hio) as (-> & Hd & Hme & Hm & Hs').
  apply HQ; [done|done|].
  change (<[k := data]> (disk_img (dev s))) with (disk_img (write_dev k data (dev s))) in HC'.
  rewrite Hd in HC'. by eapply hold_step.
Qed.

Lemma hold_brelse X b k data (Q : unit -> kstate -> Prop) :
  hold s ct rc (b :: X) ((b, k, data) :: H) -> k <> (0%nat, 0) -> ct !! k = Some data ->
  let c' := u32 (default 0 (rc !! k) - 1) in
  (0 < c' \/ ct !! k = disk_img (dev s) !! k) ->
  (forall s', moves s s' -> dev s' = dev s -> hold s' ct (set_rc k c' rc) X H -> Q tt s') ->
  runE E (brelse b) s Q.
Proof.
  intros Hh Hk Hct c' Hc HQ. pose proof Hh as [H1 H2 H3 H4 H5 H6].
  eapply (runE_brelse E h p); [done|exact H2|exact H3|exact Hk|apply H4, elem_of_cons; by left|done|done|].
  intros bs' s' Hio HC' HL' HF' Ho'. destruct (io_norm _ _ _ _ Hio) as (-> & Hd & Hme & Hm & Hs').
  apply HQ; [done|done|]. rewrite Hd in HC'. cbn in H6. apply NoDup_cons in H6 as [Hk6 H6].
  split; try done.
  - intros b2 k2 d2 Hin. rewrite <-Hme. apply Ho'; [|apply H4; set_solver]. intros ->. apply Hk6.
    apply list_elem_of_fmap. by exists (b2, k, d2).
  - intros k2 Hk2. destruct (decide (k2 = k)) as [->|]; [done|].
    apply Ho'; [done|]. apply H5. cbn. set_solver.
Qed.

Lemma hold_bunpin X b k data (Q : unit -> kstate -> Prop) :
  hold s ct rc X ((b, k, data) :: H) -> k <> (0%nat, 0) ->
  let c' := u32 (default 0 (rc !! k) - 1) in
  (0 < c' \/ ct !! k = disk_img (dev s) !! k) ->
  (forall s', moves s s' -> dev s' = dev s ->
     hold s' ct (set_rc k c' rc) (b :: X) ((b, k, data) :: H) -> Q tt s') ->
  runE E (bunpin b) s Q.
Proof.
  intros Hh Hk c' Hc HQ. pose proof Hh as [H1 H2 H3 H4 H5 H6].
  eapply (runE_bunpin E h p); [done|exact H2|exact H3|exact Hk|apply H4, elem_of_cons; by left|done|].
  intros bs' s' Hio HC' HL' Hh' Ho'. destruct (io_norm _ _ _ _ Hio) as (-> & Hd & Hme & Hm & Hs').
  apply HQ; [done|done|]. rewrite Hd in HC'. by eapply hold_step.
Qed.
End ops.

Lemma hold_weaken s ct rc X X' H : (forall b, b ∈ X -> b ∈ X') -> hold s ct rc X H -> hold s ct rc X' H.
Proof.
  intros HX [H1 H2 H3 H4 H5 H6]. split; try done. intros b v Hv Hb.
  apply (H3 b v Hv). intros Hin. by apply Hb, HX.
Qed.

Lemma hold_data s ct rc X H b k data : hold s ct rc X H -> (b, k, data) ∈ H -> b_data (buf_at b s) = data.
Proof. intros Hh Hin. eapply (held_data p). by eapply ho_held. Qed.

Lemma hold_copy_data s ct rc X to k data from k' x H (Q : unit -> kstate -> Prop) :
  hold s ct rc X ((to, k, data) :: H) -> (from, k', x) ∈ H -> k <> (0%nat, 0) ->
  0 < default 0 (rc !! k) ->
  (forall s', moves s s' -> dev s' = dev s -> hold s' ct rc X ((to, k, x) :: H) -> Q tt s') ->
  runE E (copy_data to from) s Q.
Proof.
  intros Hh Hin Hk Hc HQ. eapply hold_set_data; [exact Hh|done|done|]. intros s' Hm Hd H'.
  eapply HQ; [done|done|]. by rewrite (hold_data _ _ _ _ _ from k' x Hh) in H' by set_solver.
Qed.

Lemma hold_store_data32 s ct rc X b k data off v H (Q : unit -> kstate -> Prop) :
  hold s ct rc X ((b, k, data) :: H) -> k <> (0%nat, 0) -> 0 < default 0 (rc !! k) ->
  (forall s', moves s s' -> dev s' = dev s ->
     hold s' ct rc X ((b, k, st32 data off v) :: H) -> Q tt s') ->
  runE E (store_data32 b off v) s Q.
Proof.
  intros Hh Hk Hc HQ. eapply (hold_set_data _ _ _ _ _ _ _ _ (fun s => st32 (b_data (buf_at b s)) off v));
    [exact Hh|done|done|]. intros s' Hm Hd H'.
  eapply HQ; [done|done|]. rewrite (hold_data _ _ _ _ _ b k data Hh) in H' by (apply elem_of_cons; by left). done.
Qed.

(** *** One block of write_log and of install_trans *)

Section one.
Context (s : kstate) (ct : disk) (rc : gmap bkey Z) (dv : nat) (L : logst) (n i : nat).
Context (HL : log_at dv s = L) (Hg : log_geom dv L n) (Hi : (i < n)%nat).

Let kl : bkey := log_key dv L i.
Let kh : bkey := home_key dv L i.

Context (Hll : rc !! kl = None) (x y : block) (Hx : ct !! kl = Some x) (Hy : ct !! kh = Some y).
Context (Hdl : is_Some (disk_img (dev s) !! kl)) (Hdh : is_Some (disk_img (dev s) !! kh)).
Context (Hold : hold s ct rc [] []).

Let Hl0 : kl <> (0%nat, 0) := geom_log0 dv L n Hg i Hi.
Let Hh0 : kh <> (0%nat, 0) := geom_home0 dv L n Hg i Hi.
Let Hlh : kl <> kh := geom_log_home dv L n Hg i i Hi Hi.

Let c0 := default 0 (rc !! kh).

Lemma get_log_block s' (Q : Z -> kstate -> Prop) :
  moves s s' -> Q (l_block L !!! i) s' -> runE E (log_block dv (Z.of_nat i)) s' Q.
Proof.
  intros Hm HQ. unfold log_block. pose proof (proj2 Hg).
  destruct (Z.leb_spec LOGSIZE (Z.of_nat i)); [lia|].
  wp. by rewrite (moves_log dv _ _ Hm), HL, Nat2Z.id.
Qed.

Lemma u32_pred_succ c : 0 <= c < 2 ^ 32 -> u32 (c + 1 - 1) = c.
Proof. intros. rewrite Z.add_simpl_r. by apply u32_small. Qed.

Lemma rc_install : 0 <= c0 < 2 ^ 32 ->
  let r := set_rc kh (u32 (c0 + 1 - 1)) (set_rc kl 1 rc) in
  let r' := set_rc kl (u32 (default 0 (r !! kl) - 1)) r in
  set_rc kh (u32 (default 0 (r' !! kh) - 1)) r' = set_rc kh (u32 (c0 - 1)) rc.
Proof.
  intros Hc r r'. unfold r', r. rewrite u32_pred_succ by done.
  rewrite (lookup_set_rc_ne kl kh), (lookup_set_rc_ne kh kl), !lookup_set_rc by done.
  rewrite (set_rc_comm kl kh), !set_rc_set_rc by done.
  change (u32 (1 - 1)) with 0. by rewrite set_rc_none.
Qed.

Lemma rc_home : default 0 (set_rc kl 1 rc !! kh) = c0.
Proof. by rewrite lookup_set_rc_ne. Qed.

(** The two reads both procedures start with. *)
Lemma runE_read_pair (k : nat -> nat -> K unit) (Q : unit -> kstate -> Prop) :
  (size rc < 29)%nat \/ (size rc < 30)%nat /\ is_Some (rc !! kh) -> c0 + 1 < 2 ^ 32 ->
  (forall lb db s', moves s s' -> dev s' = dev s ->
     hold s' ct (set_rc kh (c0 + 1) (set_rc kl 1 rc)) [] [(db, kh, y); (lb, kl, x)] ->
     runE E (k lb db) s' Q) ->
  runE E (l <- gets (log_at dv) ;;
          lbuf <- bread dv (u32 (l_start l + Z.of_nat i + 1)) ;;
          bno <- log_block dv (Z.of_nat i) ;;
          dbuf <- bread dv (u32 bno) ;;
          k lbuf dbuf) s Q.
Proof.
  intros Hsz Hc HQ. wp. rewrite HL. eapply hold_bread; [exact Hold|done|set_solver|exact Hx|left; lia| |].
  { change (dv, u32 (l_start L + Z.of_nat i + 1)) with kl. rewrite Hll. cbn. lia. }
  change (dv, u32 (l_start L + Z.of_nat i + 1)) with kl. intros lb s1 Hm1 Hd1 H1. rewrite Hll in H1. change (default 0 None + 1) with 1 in H1.
  wp. eapply get_log_block; [done|]. wp.
  eapply hold_bread; [exact H1|done|set_solver|exact Hy| | |].
  - change (dv, u32 (l_block L !!! i)) with kh. rewrite lookup_set_rc_ne by done. destruct Hsz as [Hsz|[_ Hsz]]; [left|by right].
    unfold set_rc. rewrite decide_False by lia. rewrite map_size_insert_None by done. lia.
  - change (dv, u32 (l_block L !!! i)) with kh. rewrite rc_home. done.
  - change (dv, u32 (l_block L !!! i)) with kh. rewrite rc_home. intros db s2 Hm2 Hd2 H2. eapply HQ; [by eapply moves_trans|congruence|exact H2].
Qed.

Lemma runE_install_one (Q : unit -> kstate -> Prop) :
  (size rc < 29)%nat \/ (size rc < 30)%nat /\ is_Some (rc !! kh) -> 0 <= c0 -> c0 + 1 < 2 ^ 32 ->
  disk_img (dev s) !! kl = Some x ->
  (forall s', moves s s' -> dev s' = write_dev kh x (dev s) ->
     hold s' (<[kh := x]> ct) (set_rc kh (u32 (c0 - 1)) rc) [] [] -> Q tt s') ->
  runE E (install_one dv (Z.of_nat i)) s Q.
Proof.
  intros Hsz Hc0 Hc Hdx HQ. unfold install_one. apply runE_read_pair; [done|done|].
  intros lb db s1 Hm1 Hd1 H1. wp.
  eapply hold_copy_data; [exact H1|apply elem_of_cons; by left|done|rewrite lookup_set_rc; lia|].
  intros s2 Hm2 Hd2 H2.
  wp. eapply hold_bwrite; [exact H2|done|rewrite lookup_set_rc; lia|by rewrite Hd2, Hd1|].
  intros s3 Hm3 Hd3 H3. wp.
  assert (Hi3 : disk_img (dev s3) = <[kh := x]> (disk_img (dev s))) by (rewrite Hd3, Hd2, Hd1; done).
  eapply hold_bunpin; [exact H3|done|right; by rewrite Hi3, !lookup_insert_eq|].
  intros s4 Hm4 Hd4 H4. rewrite lookup_set_rc, set_rc_set_rc in H4.
  wp. eapply (hold_brelse _ _ _ _ [db]).
  { eapply (hold_weaken _ _ _ [db]); [set_solver|]. rewrite Permutation_swap. exact H4. }
  { done. } { by rewrite lookup_insert_ne. }
  { right. by rewrite Hd4, Hi3, !lookup_insert_ne, Hx, Hdx. }
  intros s5 Hm5 Hd5 H5. wp.
  eapply (hold_brelse _ _ _ _ []); [exact H5|done|by rewrite lookup_insert_eq| |].
  { right. by rewrite Hd5, Hd4, Hi3, !lookup_insert_eq. }
  intros s6 Hm6 Hd6 H6. apply HQ.
  - chain.
  - congruence.
  - rewrite rc_install in H6 by lia. done.
Qed.

Lemma rc_write_log : 0 <= c0 < 2 ^ 32 ->
  let r := set_rc kh (c0 + 1) (set_rc kl 1 rc) in
  let r' := set_rc kh (u32 (default 0 (r !! kh) - 1)) r in
  set_rc kl (u32 (default 0 (r' !! kl) - 1)) r' = rc.
Proof.
  intros Hc r r'. unfold r', r. rewrite lookup_set_rc, u32_pred_succ by done.
  rewrite set_rc_set_rc, (lookup_set_rc_ne kh kl), lookup_set_rc by done.
  rewrite (set_rc_comm kh kl), !set_rc_set_rc by done.
  change (u32 (1 - 1)) with 0. unfold c0. rewrite (set_rc_id _ _ _ _ _ (ho_cache _ _ _ _ _ Hold)).
  by apply set_rc_none.
Qed.

Lemma runE_write_log_one (Q : unit -> kstate -> Prop) :
  (size rc < 30)%nat -> 0 < c0 -> c0 + 1 < 2 ^ 32 ->
  (forall s', moves s s' -> dev s' = write_dev kl y (dev s) ->
     hold s' (<[kl := y]> ct) rc [] [] -> Q tt s') ->
  runE E (write_log_one dv (Z.of_nat i)) s Q.
Proof.
  intros Hsz Hc0 Hc HQ. unfold write_log_one. apply runE_read_pair; [|done|].
  { right. split; [done|]. unfold c0 in Hc0. destruct (rc !! kh); [done|cbn in Hc0; lia]. }
  intros lb db s1 Hm1 Hd1 H1. rewrite Permutation_swap in H1. wp.
  assert (Hr : 0 < default 0 (set_rc kh (c0 + 1) (set_rc kl 1 rc) !! kl))
    by (rewrite lookup_set_rc_ne, lookup_set_rc by done; lia).
  eapply hold_copy_data; [exact H1|apply elem_of_cons; by left|done|exact Hr|]. intros s2 Hm2 Hd2 H2.
  wp. eapply hold_bwrite; [exact H2|done|exact Hr|by rewrite Hd2, Hd1|]. intros s3 Hm3 Hd3 H3.
  assert (Hi3 : disk_img (dev s3) = <[kl := y]> (disk_img (dev s))) by (rewrite Hd3, Hd2, Hd1; done).
  wp. eapply (hold_brelse _ _ _ _ []).
  { eapply (hold_weaken _ _ _ []); [set_solver|]. rewrite Permutation_swap. exact H3. }
  { done. } { by rewrite lookup_insert_ne. }
  { left. rewrite lookup_set_rc, u32_pred_succ by lia. lia. }
  intros s4 Hm4 Hd4 H4. wp.
  eapply (hold_brelse _ _ _ _ []).
  { eapply (hold_weaken _ _ _ []); [set_solver|exact H4]. }
  { done. } { by rewrite lookup_insert_eq. }
  { right. by rewrite Hd4, Hi3, !lookup_insert_eq. }
  intros s5 Hm5 Hd5 H5. apply HQ.
  - chain.
  - congruence.
  - rewrite rc_write_log in H5 by lia. done.
Qed.
End one.

(** *** write_log *)

Lemma clean_none s ct rc X H k : hold s ct rc X H -> rc !! k = None -> ct !! k = disk_img (dev s) !! k.
Proof.
  intros Hh Hrc. destruct (decide (ct !! k = disk_img (dev s) !! k)) as [|Hne]; [done|].
  pose proof (ho_cache _ _ _ _ _ Hh) as HC.
  destruct (ca_clean _ _ _ _ HC k Hne) as (b & v & Hv & Hk & _ & Hpos).
  rewrite (ca_rc _ _ _ _ HC b v Hv), Hk, Hrc in Hpos. cbn in Hpos. lia.
Qed.

Section loops.
Context (s : kstate) (ct : disk) (rc : gmap bkey Z) (dv n : nat) (L : logst) (HL : log_at dv s = L).
Context (Hn : l_n L = Z.of_nat n) (Hg : log_geom dv L n).
Context (Hdisk : forall k, k ∈ log_keys dv L n ++ home_keys dv L n -> is_Some (disk_img (dev s) !! k)).
Context (Hlog0 : forall i, (i < n)%nat -> rc !! log_key dv L i = None).
Context (Hold : hold s ct rc [] []).

Lemma disk_log i : (i < n)%nat -> is_Some (disk_img (dev s) !! log_key dv L i).
Proof. intros Hi. apply Hdisk, elem_of_app. left. apply elem_log_keys. by exists i. Qed.
Lemma disk_home i : (i < n)%nat -> is_Some (disk_img (dev s) !! home_key dv L i).
Proof. intros Hi. apply Hdisk, elem_of_app. right. apply elem_home_keys. by exists i. Qed.

Lemma runE_write_log ds (Q : unit -> kstate -> Prop) :
  length ds = n -> (size rc < 30)%nat ->
  (forall i x, ds !! i = Some x -> ct !! home_key dv L i = Some x) ->
  (forall i, (i < n)%nat -> 0 < default 0 (rc !! home_key dv L i) < 2 ^ 32 - 1) ->
  let ws := zip (log_keys dv L n) ds in
  (forall s', moves s s' -> dev s' = wr_dev ws (dev s) -> hold s' (wr_ct ws ct) rc [] [] -> Q tt s') ->
  runE E (write_log dv) s Q.
Proof.
  intros Hds Hsz Hct Hrc ws HQ. unfold write_log, log_n. wp. rewrite HL, Hn.
  assert (Hlen : length (log_keys dv L n) = length ds) by (unfold log_keys; by rewrite length_fmap, length_seq).
  apply (runE_seqZ _ _ _ _ (fun i s' => moves s s' /\ dev s' = wr_dev (take i ws) (dev s) /\
           hold s' (wr_ct (take i ws) ct) rc [] [])).
  - rewrite take_0. split; [apply io_refl, Hold|done].
  - intros i s' Hi%Nat2Z.inj_lt (Hm & Hd & Hh).
    destruct (lookup_lt_is_Some_2 ds i) as [y Hy]; [lia|].
    destruct (disk_log i Hi) as [x Hx].
    assert (Hfst : (take i ws).*1 = take i (log_keys dv L n)) by (by apply fst_take_zip).
    assert (Hws : take (S i) ws = take i ws ++ [(log_key dv L i, y)])
      by (apply take_S_zip; [by apply lookup_log_keys|done]).
    eapply (runE_write_log_one s' (wr_ct (take i ws) ct) rc dv L n i); try done; try (by rewrite (moves_log dv _ _ Hm)).
    + by apply Hlog0.
    + rewrite wr_ct_notin by (rewrite Hfst; by apply geom_log_fresh).
      rewrite (clean_none s _ rc [] []) by (done || by apply Hlog0). exact Hx.
    + rewrite wr_ct_notin; [by apply Hct|]. rewrite Hfst.
      by apply geom_home_take.
    + rewrite Hd, disk_img_wr. by apply wr_ct_some, disk_log.
    + rewrite Hd, disk_img_wr. by apply wr_ct_some, disk_home.
    + apply Hrc. done.
    + specialize (Hrc i Hi). lia.
    + intros s'' Hm' Hd' Hh'. rewrite Hws, wr_ct_snoc, wr_dev_snoc. split; [chain|]. split; [congruence|done].
  - rewrite Nat2Z.id, take_ge. 2: { unfold ws. rewrite length_zip. lia. }
    intros s' (? & ? & ?). by apply HQ.
Qed.

Lemma runE_install_trans xs (Q : unit -> kstate -> Prop) :
  length xs = n ->
  (forall i x, xs !! i = Some x -> disk_img (dev s) !! log_key dv L i = Some x) ->
  (forall i, (i < n)%nat -> is_Some (ct !! home_key dv L i)) ->
  (forall i, (i < n)%nat -> 0 <= default 0 (rc !! home_key dv L i) < 2 ^ 32 - 1) ->
  (forall i, (i < n)%nat ->
     let r := unpin_all (take i (home_keys dv L n)) rc in
     (size r < 29)%nat \/ (size r < 30)%nat /\ is_Some (rc !! home_key dv L i)) ->
  let ws := zip (home_keys dv L n) xs in
  (forall s', moves s s' -> dev s' = wr_dev ws (dev s) ->
     hold s' (wr_ct ws ct) (unpin_all (home_keys dv L n) rc) [] [] -> Q tt s') ->
  runE E (install_trans dv) s Q.
Proof.
  intros Hxs Hdx Hct Hrc Hsz ws HQ. unfold install_trans, log_n. wp. rewrite HL, Hn.
  assert (Hlk : length (home_keys dv L n) = n) by (unfold home_keys; by rewrite length_fmap, length_seq).
  apply (runE_seqZ _ _ _ _ (fun i s' => moves s s' /\ dev s' = wr_dev (take i ws) (dev s) /\
           hold s' (wr_ct (take i ws) ct) (unpin_all (take i (home_keys dv L n)) rc) [] [])).
  - rewrite !take_0. split; [apply io_refl, Hold|done].
  - intros i s' Hi%Nat2Z.inj_lt (Hm & Hd & Hh).
    destruct (lookup_lt_is_Some_2 xs i) as [x Hx]; [lia|]. destruct (Hct i Hi) as [y Hy].
    assert (Hfst : (take i ws).*1 = take i (home_keys dv L n)) by (apply fst_take_zip; congruence).
    assert (Hws : take (S i) ws = take i ws ++ [(home_key dv L i, x)])
      by (apply take_S_zip; [by apply lookup_home_keys|done]).
    assert (Hrl : unpin_all (take i (home_keys dv L n)) rc !! log_key dv L i = None)
      by (rewrite unpin_notin by (by apply geom_log_take); by apply Hlog0).
    assert (Hrh : unpin_all (take i (home_keys dv L n)) rc !! home_key dv L i = rc !! home_key dv L i)
      by (apply unpin_notin; by apply geom_home_fresh).
    assert (Hlx : wr_ct (take i ws) (disk_img (dev s)) !! log_key dv L i = Some x).
    { rewrite wr_ct_notin by (rewrite Hfst; by apply geom_log_take). by apply Hdx. }
    rewrite <-disk_img_wr, <-Hd in Hlx.
    unshelve eapply (runE_install_one s' (wr_ct (take i ws) ct) (unpin_all (take i (home_keys dv L n)) rc)
              dv L n i _ Hg Hi Hrl x y); rewrite ?Hrh; try done; try (by rewrite (moves_log dv _ _ Hm)).
    + by rewrite (clean_none s' _ _ [] [] _ Hh Hrl).
    + rewrite wr_ct_notin; [done|]. rewrite Hfst. by apply geom_home_fresh.
    + rewrite Hd, disk_img_wr. by apply wr_ct_some, disk_home.
    + by apply Hsz.
    + by apply Hrc.
    + specialize (Hrc i Hi). lia.
    + intros s'' Hm' Hd' Hh'. rewrite Hws, wr_ct_snoc, wr_dev_snoc. split; [chain|]. split; [congruence|].
      rewrite (take_S_r _ _ _ (lookup_home_keys dv L n i Hi)), unpin_snoc, Hrh. done.
  - rewrite Nat2Z.id, !take_ge. 2: { rewrite Hlk. done. } 2: { unfold ws. rewrite length_zip. lia. }
    intros s' (? & ? & ?). by apply HQ.
Qed.
End loops.

(** *** The header block *)

Lemma hold_set_logs l s ct rc X H : hold s ct rc X H -> hold (set_logs l s) ct rc X H.
Proof.
  intros [[H1 H2 H3] HC HL Hh Hf Hk]. split; try done. split; [done| |done].
  eapply ready_ext; try exact H2; done.
Qed.

Lemma hold_ext y t l s ct rc X H : hold s ct rc X H -> owns h (Some p) [] y -> pt_sim (pt s) t ->
  hold (set_sy y (set_pt t (set_logs l s))) ct rc X H.
Proof.
  intros [[H1 H2 H3] HC HL Hh Hf Hk] Hy Ht. split; try done.
  - split; [done| |cbn; by rewrite <-(pt_sim_length _ _ Ht)]. eapply ready_ext; try exact H2; done.
  - intros b k data Hin. unfold me, proc_at. cbn. rewrite <-(pt_sim_pid _ _ p Ht). by apply Hh.
Qed.

Lemma moves_set_logs l s s' : moves s s' -> moves (set_logs l s) (set_logs l s').
Proof.
  intros (y & m & t & v & Hs & Hy & Ht & Hm & Hlen & Hr). exists y, m, t, v. split_and!; try done.
  - by rewrite Hs.
  - eapply ready_ext; try exact Hr; done.
Qed.

Section header.
Context (s : kstate) (ct : disk) (rc : gmap bkey Z) (dv : nat) (L : logst) (HL : log_at dv s = L).
Let hk := hdr_key dv L.
Context (data : block) (Hhk : hk <> (0%nat, 0)) (Hct : ct !! hk = Some data) (Hrc : rc !! hk = None).
Context (Hsz : (size rc < 30)%nat) (Hold : hold s ct rc [] []).

Lemma runE_write_head n (Q : unit -> kstate -> Prop) :
  l_n L = Z.of_nat n -> (n <= 29)%nat -> is_Some (disk_img (dev s) !! hk) ->
  let d := put_head L n data in
  (forall s', moves s s' -> dev s' = write_dev hk d (dev s) -> hold s' (<[hk := d]> ct) rc [] [] -> Q tt s') ->
  runE E (write_head dv) s Q.
Proof.
  intros Hn Hn29 Hdk d HQ. unfold write_head. wp. rewrite HL.
  eapply hold_bread; [exact Hold|done|set_solver|exact Hct|by left| |];
    change (dv, u32 (l_start L)) with hk; rewrite Hrc; [done|]. change (default 0 None + 1) with 1. intros b s1 Hm1 Hd1 H1.
  assert (Hr : 0 < default 0 (set_rc hk 1 rc !! hk)) by (rewrite lookup_set_rc; lia).
  unfold log_n. wp. rewrite (moves_log dv _ _ Hm1), HL, Hn.
  eapply hold_store_data32; [exact H1|done|exact Hr|]. intros s2 Hm2 Hd2 H2. wp.
  apply (runE_seqZ _ _ _ _ (fun i s' => moves s s' /\ dev s' = dev s /\ hold s' ct (set_rc hk 1 rc) []
    [(b, hk, foldl (fun d i => st32 d (4 + 4 * Z.of_nat i) (l_block L !!! i)) (st32 data 0 (Z.of_nat n)) (seq 0 i))])).
  - split; [chain|]. split; [congruence|done].
  - intros i s' Hi (Hm & Hd & Hh). wp. unfold log_block. destruct (Z.leb_spec LOGSIZE (Z.of_nat i)); [lia|].
    wp. rewrite (moves_log dv _ _ Hm), HL, Nat2Z.id. eapply hold_store_data32; [exact Hh|done|exact Hr|].
    intros s'' Hm' Hd' Hh'. split; [chain|]. split; [congruence|]. by erewrite put_head_S.
  - rewrite Nat2Z.id. intros s3 (Hm3 & Hd3 & H3). fold (put_head L n data) in H3. fold d in H3. wp.
    eapply hold_bwrite; [exact H3|done|exact Hr|by rewrite Hd3|]. intros s4 Hm4 Hd4 H4. wp.
    eapply (hold_brelse _ _ _ _ []).
    { eapply (hold_weaken _ _ _ []); [set_solver|exact H4]. }
    { done. } { by rewrite lookup_insert_eq. } { right. rewrite Hd4. cbn [write_dev disk_img]. by rewrite !lookup_insert_eq. }
    rewrite lookup_set_rc, set_rc_set_rc. change (u32 (1 - 1)) with 0. rewrite set_rc_none by done.
    intros s5 Hm5 Hd5 H5. apply HQ; [chain|congruence|done].
Qed.

Lemma runE_read_head (Q : unit -> kstate -> Prop) :
  (dv < length (logs s))%nat -> s32 (ld32 data 0) <= LOGSIZE ->
  (forall s', moves (set_logs (<[dv := read_log data L]> (logs s)) s) s' -> dev s' = dev s ->
     hold s' ct rc [] [] -> Q tt s') ->
  runE E (read_head dv) s Q.
Proof.
  intros Hdv Hn HQ. unfold read_head. wp. rewrite HL.
  eapply hold_bread; [exact Hold|done|set_solver|exact Hct|by left| |];
    change (dv, u32 (l_start L)) with hk; rewrite Hrc; [done|]. change (default 0 None + 1) with 1.
  intros b s1 Hm1 Hd1 H1. wp. rewrite (hold_data _ _ _ _ _ b hk data H1) by (apply elem_of_cons; by left).
  unfold upd_log. wp. rewrite (moves_log dv _ _ Hm1), HL.
  set (L1 := set_l_n (s32 (ld32 data 0)) L).
  apply (runE_seqZ _ _ _ _ (fun i s' =>
    s' = set_logs (<[dv := set_l_block (read_blocks data i (l_block L)) L1]> (logs s)) s1)).
  - rewrite (io_logs _ _ _ _ _ _ _ Hm1). by destruct L.
  - intros i s' Hi ->. unfold set_log_block. destruct (Z.leb_spec LOGSIZE (Z.of_nat i)); [lia|].
    wp. unfold log_at. cbn [logs set_logs]. rewrite list_lookup_total_insert_eq by done.
    rewrite Nat2Z.id, list_insert_insert_eq. unfold read_blocks. by rewrite seq_S, foldl_app.
  - intros s2 ->. fold (read_log data L). eapply (hold_brelse _ _ _ _ []).
    { eapply hold_set_logs, (hold_weaken _ _ _ []); [set_solver|exact H1]. }
    { done. } { exact Hct. } { right. by apply (clean_none _ _ _ _ _ _ Hold) in Hrc as ->; cbn; rewrite Hd1. }
    rewrite lookup_set_rc, set_rc_set_rc. change (u32 (1 - 1)) with 0. rewrite set_rc_none by done.
    intros s5 Hm5 Hd5 H5. apply HQ; [|by rewrite Hd5|done].
    eapply moves_trans; [by eapply moves_set_logs|exact Hm5].
Qed.
End header.

(** *** commit and recover_from_log *)

(** A transaction of [n] blocks with contents [ds] is ready to be committed:
    every home block is pinned by log_write, and nobody uses the log area. *)
Record txn (s : kstate) (dv : nat) (L : logst) (n : nat) (ct : disk)
    (rc : gmap bkey Z) (ds : list block) (hd : block) : Prop := {
  tx_hold : hold s ct rc [] [];
  tx_L : log_at dv s = L;
  tx_dv : (dv < length (logs s))%nat;
  tx_n : l_n L = Z.of_nat n;
  tx_pos : (0 < n)%nat;
  tx_geom : log_geom dv L n;
  tx_disk : forall k, k ∈ log_keys dv L n ++ home_keys dv L n ->
    is_Some (disk_img (dev s) !! k);
  tx_log : forall i, (i < n)%nat -> rc !! log_key dv L i = None;
  tx_pin : forall i, (i < n)%nat -> rc !! home_key dv L i = Some 1;
  tx_size : (size rc < 30)%nat;
  tx_len : length ds = n;
  tx_data : forall i x, ds !! i = Some x -> ct !! home_key dv L i = Some x;
  tx_hrc : rc !! hdr_key dv L = None;
  tx_hdr : disk_img (dev s) !! hdr_key dv L = Some hd
}.

(** The block writes of a commit, in order. *)
Definition commit_writes (dv : nat) (L : logst) (n : nat) (ds : list block) (hd : block) : list (bkey * block) :=
  zip (log_keys dv L n) ds ++ (hdr_key dv L, put_head L n hd) ::
  zip (home_keys dv L n) ds ++ [(hdr_key dv L, put_head (set_l_n 0 L) 0 (put_head L n hd))].

(** The block writes of a recovery. *)
Definition recovery_writes (dv : nat) (L : logst) (n : nat) (xs : list block) (hd : block) : list (bkey * block) :=
  zip (home_keys dv L n) xs ++ [(hdr_key dv L, put_head (set_l_n 0 L) 0 hd)].

Lemma log_at_insert dv L s : (dv < length (logs s))%nat ->
  log_at dv (set_logs (<[dv := L]> (logs s)) s) = L.
Proof. intros. unfold log_at. cbn [logs set_logs]. by apply list_lookup_total_insert_eq. Qed.

Section commit.
Context (s : kstate) (dv : nat) (L : logst) (n : nat) (ct : disk) (rc : gmap bkey Z).
Context (ds : list block) (hd : block) (T : txn s dv L n ct rc ds hd).

Lemma fst_zip_log : (zip (log_keys dv L n) ds).*1 = log_keys dv L n.
Proof. apply fst_zip. rewrite (tx_len _ _ _ _ _ _ _ _ T). unfold log_keys. by rewrite length_fmap, length_seq. Qed.
Lemma fst_zip_home : (zip (home_keys dv L n) ds).*1 = home_keys dv L n.
Proof. apply fst_zip. rewrite (tx_len _ _ _ _ _ _ _ _ T). unfold home_keys. by rewrite length_fmap, length_seq. Qed.

Lemma lookup_zip_log i x : ds !! i = Some x -> zip (log_keys dv L n) ds !! i = Some (log_key dv L i, x).
Proof.
  intros Hx. rewrite lookup_zip_with, lookup_log_keys, Hx; [done|].
  apply lookup_lt_Some in Hx. by rewrite <-(tx_len _ _ _ _ _ _ _ _ T).
Qed.
Lemma lookup_zip_home i x : ds !! i = Some x -> zip (home_keys dv L n) ds !! i = Some (home_key dv L i, x).
Proof.
  intros Hx. rewrite lookup_zip_with, lookup_home_keys, Hx; [done|].
  apply lookup_lt_Some in Hx. by rewrite <-(tx_len _ _ _ _ _ _ _ _ T).
Qed.

(** The log with its header: the transaction is committed. *)
Definition logged : list (bkey * block) := zip (log_keys dv L n) ds ++ [(hdr_key dv L, put_head L n hd)].

Lemma logged_hdr m : wr_ct logged m !! hdr_key dv L = Some (put_head L n hd).
Proof. unfold logged. rewrite wr_ct_snoc. apply lookup_insert_eq. Qed.
Lemma logged_log m i x : ds !! i = Some x -> wr_ct logged m !! log_key dv L i = Some x.
Proof.
  intros Hx. unfold logged. rewrite wr_ct_snoc, lookup_insert_ne.
  - eapply wr_ct_lookup; [|by apply lookup_zip_log]. rewrite fst_zip_log. eapply geom_log_nodup, T.
  - intros Heq. apply (geom_hdr_log _ _ _ (tx_geom _ _ _ _ _ _ _ _ T)). rewrite Heq. apply elem_log_keys.
    exists i. split; [|done]. apply lookup_lt_Some in Hx. by rewrite <-(tx_len _ _ _ _ _ _ _ _ T).
Qed.
Lemma logged_other m k : k <> hdr_key dv L -> k ∉ log_keys dv L n -> wr_ct logged m !! k = m !! k.
Proof.
  intros Hne Hk. unfold logged. rewrite wr_ct_snoc, lookup_insert_ne by done.
  by rewrite wr_ct_notin by (by rewrite fst_zip_log).
Qed.
Lemma logged_home m i : (i < n)%nat -> wr_ct logged m !! home_key dv L i = m !! home_key dv L i.
Proof.
  intros Hi. pose proof (tx_geom _ _ _ _ _ _ _ _ T) as Hg.
  assert (Hin : home_key dv L i ∈ home_keys dv L n) by (apply elem_home_keys; by exists i).
  apply logged_other.
  - intros Heq. apply (geom_hdr_home _ _ _ Hg). by rewrite <-Heq.
  - intros Hl. by eapply geom_disj.
Qed.

Lemma runE_log_phase (k : K unit) (Q : unit -> kstate -> Prop) :
  (forall s', moves s s' -> dev s' = wr_dev logged (dev s) -> hold s' (wr_ct logged ct) rc [] [] ->
     runE E k s' Q) ->
  runE E (write_log dv ;; write_head dv ;; k) s Q.
Proof.
  intros HQ. destruct T as [Hold HL Hdv Hn Hpos Hg Hdk Hlog Hpin Hsz Hlen Hdat Hhrc Hhdr].
  pose proof (geom_hdr0 _ _ _ Hg) as Hhk. wp.
  eapply (runE_write_log s ct rc dv n L HL Hn Hg Hdk Hlog Hold ds); try done.
  { intros i Hi. by rewrite (Hpin i Hi). }
  set (W1 := zip _ _). intros s1 Hm1 Hd1 H1. wp.
  assert (HL1 : log_at dv s1 = L) by (by rewrite (moves_log dv _ _ Hm1)).
  assert (Hnin : hdr_key dv L ∉ W1.*1) by (unfold W1; rewrite fst_zip_log; by apply geom_hdr_log).
  assert (Hc1 : wr_ct W1 ct !! hdr_key dv L = Some hd).
  { rewrite wr_ct_notin by done. by rewrite (clean_none _ _ _ _ _ _ Hold Hhrc). }
  eapply (runE_write_head s1 _ rc dv L HL1 hd Hhk Hc1 Hhrc Hsz H1 n _ Hn); [apply Hg| |].
  { rewrite Hd1, disk_img_wr, wr_ct_notin, Hhdr by done. done. }
  intros s2 Hm2 Hd2 H2. apply HQ; [chain| |]; unfold logged; fold W1.
  - by rewrite wr_dev_snoc, Hd2, Hd1.
  - by rewrite wr_ct_snoc.
Qed.

Lemma runE_install_phase s2 (Q : unit -> kstate -> Prop) :
  moves s s2 -> dev s2 = wr_dev logged (dev s) -> hold s2 (wr_ct logged ct) rc [] [] ->
  let ws := zip (home_keys dv L n) ds in
  (forall s', moves s s' -> dev s' = wr_dev (logged ++ ws) (dev s) ->
     hold s' (wr_ct (logged ++ ws) ct) (unpin_all (home_keys dv L n) rc) [] [] -> Q tt s') ->
  runE E (install_trans dv) s2 Q.
Proof.
  intros Hm2 Hd2 H2 ws HQ. pose proof T as [Hold HL Hdv Hn Hpos Hg Hdk Hlog Hpin Hsz Hlen Hdat Hhrc Hhdr].
  assert (HL2 : log_at dv s2 = L) by (by rewrite (moves_log dv _ _ Hm2)).
  unshelve eapply (runE_install_trans s2 _ rc dv n L HL2 Hn Hg _ Hlog H2 ds); try done.
  - intros k Hk. rewrite Hd2, disk_img_wr. by apply wr_ct_some, Hdk.
  - intros i x Hx. rewrite Hd2, disk_img_wr. by apply logged_log.
  - intros i Hi. rewrite logged_home by done. destruct (lookup_lt_is_Some_2 ds i) as [x Hx]; [lia|].
    exists x. by apply Hdat.
  - intros i Hi. by rewrite (Hpin i Hi).
  - intros i Hi r. right. split; [|by rewrite (Hpin i Hi)].
    eapply Nat.le_lt_trans; [apply map_subseteq_size, unpin_pinned|exact Hsz].
    + eapply sublist_NoDup; [by apply geom_home_nodup|]. apply sublist_take.
    + intros k (j & Hj & _)%elem_of_take. apply list_elem_of_lookup_2, elem_home_keys in Hj as (j' & ? & ->). auto.
  - intros s3 Hm3 Hd3 H3. apply HQ; [chain| |].
    + by rewrite wr_dev_app, Hd3, Hd2.
    + by rewrite wr_ct_app.
Qed.

Lemma runE_commit (Q : unit -> kstate -> Prop) :
  let W := commit_writes dv L n ds hd in
  (forall s', moves (set_logs (<[dv := set_l_n 0 L]> (logs s)) s) s' -> dev s' = wr_dev W (dev s) ->
     hold s' (wr_ct W ct) (unpin_all (home_keys dv L n) rc) [] [] -> Q tt s') ->
  runE E (commit dv) s Q.
Proof.
  intros W HQ. pose proof T as [Hold HL Hdv Hn Hpos Hg Hdk Hlog Hpin Hsz Hlen Hdat Hhrc Hhdr].
  unfold commit, log_n. wp. rewrite HL, Hn. destruct (Z.ltb_spec 0 (Z.of_nat n)); [|lia].
  apply runE_log_phase. intros s1 Hm1 Hd1 H1. wp.
  eapply runE_install_phase; [exact Hm1|done|done|]. set (ws := zip _ _). intros s2 Hm2 Hd2 H2.
  unfold upd_log. wp. rewrite (moves_log dv _ _ Hm2), HL, (io_logs _ _ _ _ _ _ _ Hm2).
  set (s3 := set_logs _ s2).
  assert (Hnin : hdr_key dv L ∉ ws.*1) by (unfold ws; rewrite fst_zip_home; by apply geom_hdr_home).
  unshelve eapply (runE_write_head s3 _ _ dv (set_l_n 0 L) _ (put_head L n hd) _ _ _ _ (hold_set_logs _ _ _ _ _ _ H2) 0%nat);
    try done; try lia.
  - unfold s3. rewrite <-(io_logs _ _ _ _ _ _ _ Hm2). apply log_at_insert. by rewrite (io_logs _ _ _ _ _ _ _ Hm2).
  - exact (geom_hdr0 _ _ _ Hg).
  - rewrite wr_ct_app, wr_ct_notin by done. apply logged_hdr.
  - rewrite unpin_notin; [done|]. exact (geom_hdr_home _ _ _ Hg).
  - eapply Nat.le_lt_trans; [apply map_subseteq_size, unpin_pinned|exact Hsz]; [by apply geom_home_nodup|].
    intros k (j & ? & ->)%elem_home_keys. auto.
  - cbn [dev s3 set_logs]. rewrite Hd2, disk_img_wr, wr_ct_app. apply wr_ct_some. by rewrite logged_hdr.
  - assert (HW : W = (logged ++ ws) ++ [(hdr_key dv L, put_head (set_l_n 0 L) 0 (put_head L n hd))])
      by (unfold W, commit_writes, logged; by rewrite <-!app_assoc).
    intros s4 Hm4 Hd4 H4. apply HQ; rewrite ?HW, ?wr_dev_snoc, ?wr_ct_snoc; try done.
    + eapply moves_trans; [eapply moves_set_logs, Hm2|exact Hm4].
    + rewrite Hd4. cbn [dev s3 set_logs]. by rewrite Hd2.
Qed.
End commit.

(** A kernel that has just booted on a disk whose log header says [n] blocks:
    the cache is empty, [L] is the log as initlog has set it up. *)
Record booted (s : kstate) (dv : nat) (L : logst) (n : nat) (xs : list block) (hd : block) : Prop := {
  bo_hold : hold s (disk_img (dev s)) ∅ [] [];
  bo_L : log_at dv s = L;
  bo_dv : (dv < length (logs s))%nat;
  bo_hdr : disk_img (dev s) !! hdr_key dv L = Some hd;
  bo_n : s32 (ld32 hd 0) = Z.of_nat n;
  bo_geom : log_geom dv (read_log hd L) n;
  bo_disk : forall k, k ∈ log_keys dv (read_log hd L) n ++ home_keys dv (read_log hd L) n ->
    is_Some (disk_img (dev s) !! k);
  bo_len : length xs = n;
  bo_log : forall i x, xs !! i = Some x -> disk_img (dev s) !! log_key dv L i = Some x
}.

Lemma runE_recover s dv L n xs hd (Q : unit -> kstate -> Prop) :
  booted s dv L n xs hd ->
  let W := recovery_writes dv (read_log hd L) n xs hd in
  (forall s', moves (set_logs (<[dv := set_l_n 0 (read_log hd L)]> (logs s)) s) s' ->
     dev s' = wr_dev W (dev s) ->
     hold s' (wr_ct W (disk_img (dev s))) (unpin_all (home_keys dv (read_log hd L) n) ∅) [] [] -> Q tt s') ->
  runE E (recover_from_log dv) s Q.
Proof.
  intros [Hold HL Hdv Hhdr Hn Hg Hdk Hlen Hlog] W HQ. set (L' := read_log hd L) in *.
  pose proof (geom_hdr0 _ _ _ Hg : hdr_key dv L <> _) as Hhk. pose proof (proj2 Hg) as Hn29.
  assert (Hsz : (size (∅ : gmap bkey Z) < 30)%nat) by (rewrite map_size_empty; lia).
  unfold recover_from_log. wp.
  eapply (runE_read_head s _ ∅ dv L HL hd Hhk Hhdr (lookup_empty _) Hsz Hold); [done|lia|]. fold L'.
  intros s1 Hm1 Hd1 H1. wp.
  assert (HL1 : log_at dv s1 = L') by (rewrite (moves_log dv _ _ Hm1); by apply log_at_insert).
  assert (Hlk : length (home_keys dv L' n) = n) by (unfold home_keys; by rewrite length_fmap, length_seq).
  unshelve eapply (runE_install_trans s1 _ ∅ dv n L' HL1 Hn Hg _ _ H1 xs); try done.
  - by rewrite Hd1.
  - by rewrite Hd1.
  - intros i Hi. apply Hdk, elem_of_app. right. apply elem_home_keys. by exists i.
  - intros i Hi r. left. eapply Nat.le_lt_trans; [apply unpin_size|].
    rewrite map_size_empty, length_take, Hlk. lia.
  - set (ws := zip _ _). intros s2 Hm2 Hd2 H2.
    unfold upd_log. wp. rewrite (moves_log dv _ _ Hm2), HL1.
    assert (Hl2 : logs s2 = <[dv := L']> (logs s))
      by (rewrite (io_logs _ _ _ _ _ _ _ Hm2), (io_logs _ _ _ _ _ _ _ Hm1); done).
    rewrite Hl2, list_insert_insert_eq. set (s3 := set_logs _ s2).
    assert (Hnin : hdr_key dv L' ∉ ws.*1).
    { unfold ws. rewrite fst_zip by lia. by apply geom_hdr_home. }
    unshelve eapply (runE_write_head s3 _ _ dv (set_l_n 0 L') _ hd _ _ _ _ (hold_set_logs _ _ _ _ _ _ H2) 0%nat);
      try done; try lia.
    + unfold log_at. cbn [logs s3 set_logs]. by apply list_lookup_total_insert_eq.
    + rewrite wr_ct_notin by done. done.
    + rewrite unpin_notin; [done|]. exact (geom_hdr_home _ _ _ Hg).
    + eapply Nat.le_lt_trans; [apply unpin_size|]. rewrite map_size_empty, Hlk. lia.
    + cbn [dev s3 set_logs]. rewrite Hd2, Hd1, disk_img_wr. apply wr_ct_some. by exists hd.
    + intros s4 Hm4 Hd4 H4. apply HQ; unfold W, recovery_writes; fold ws; rewrite ?wr_dev_snoc, ?wr_ct_snoc; try done.
      * eapply moves_trans; [exact (moves_set_logs _ _ _ (moves_trans _ _ _ Hm1 Hm2))|exact Hm4].
      * rewrite Hd4. cbn [dev s3 set_logs]. by rewrite Hd2, Hd1.
Qed.

End blocks.

(** *** Crashes *)

(** The disks agree outside the header and the first [n] blocks of the log. *)
Definition same_files (dv : nat) (L : logst) (n : nat) (d d' : disk) : Prop :=
  forall k, k <> hdr_key dv L -> k ∉ log_keys dv L n -> d !! k = d' !! k.

(** What initlog and the boot code establish before recover_from_log. *)
Record fresh_boot (E : kstate -> kstate -> Prop) `{!DiskEnv E} (h p dv : nat) (st : Z) (s : kstate) : Prop := {
  fb_hold : hold E h p s (disk_img (dev s)) ∅ [] [];
  fb_dv : (dv < length (logs s))%nat;
  fb_start : l_start (log_at dv s) = st;
  fb_blocks : length (l_block (log_at dv s)) = Z.to_nat LOGSIZE
}.

Section crash.
Context (E : kstate -> kstate -> Prop) `{HE : !DiskEnv E}.
Context (dv : nat) (L : logst) (n : nat) (Hg : log_geom dv L n).

(** Recovery from a header that lists nothing. *)
Lemma recover_empty h p s hd' : fresh_boot E h p dv (l_start L) s ->
  disk_img (dev s) !! hdr_key dv L = Some hd' -> s32 (ld32 hd' 0) = 0 -> length hd' = 1024%nat ->
  runE E (recover_from_log dv) s (fun _ s' => exists hd2,
    disk_img (dev s') = <[hdr_key dv L := hd2]> (disk_img (dev s)) /\ ld32 hd2 0 = 0).
Proof.
  intros [Hh Hdv Hst Hbl] Hhdr Hn Hl. set (L2 := log_at dv s) in *.
  assert (Hk : hdr_key dv L2 = hdr_key dv L) by (unfold hdr_key; by rewrite Hst).
  eapply (runE_recover E h p s dv L2 0 [] hd').
  - split; try done.
    + by rewrite Hk.
    + split; [|lia]. apply NoDup_cons. split; [|apply NoDup_singleton].
      change (hdr_key dv (read_log hd' L2)) with (hdr_key dv L2). rewrite Hk.
      pose proof (geom_hdr0 _ _ _ Hg). set_solver.
    + intros k Hin. by apply elem_of_nil in Hin.
  - intros s' _ Hd _. exists (put_head (set_l_n 0 (read_log hd' L2)) 0 hd'). split.
    + rewrite Hd. cbn. by change (hdr_key dv (read_log hd' L2)) with (hdr_key dv L2); rewrite Hk.
    + apply put_head_spec; lia.
Qed.

Context (ds : list block) (hd : block) (Hlen : length ds = n) (Hhd : length hd = 1024%nat).

(** The header written by commit reads back as the same transaction. *)
Lemma read_back_n : s32 (ld32 (put_head L n hd) 0) = Z.of_nat n.
Proof.
  pose proof (proj2 Hg). destruct (put_head_spec L hd n) as (_ & -> & _); [lia|lia|].
  apply s32_small. lia.
Qed.

Section read_back.
Context (L2 : logst) (Hst : l_start L2 = l_start L) (Hbl : length (l_block L2) = Z.to_nat LOGSIZE).
Let hd' := put_head L n hd.
Let L' := read_log hd' L2.

Lemma read_back_log m : log_keys dv L' m = log_keys dv L m.
Proof. unfold log_keys, log_key, L'. cbn. by rewrite Hst. Qed.
Lemma read_back_hdr : hdr_key dv L' = hdr_key dv L.
Proof. unfold hdr_key, L'. cbn. by rewrite Hst. Qed.
Lemma read_back_home : home_keys dv L' n = home_keys dv L n.
Proof.
  unfold home_keys. apply list_fmap_ext. intros j i Hji. apply lookup_seq in Hji as [-> Hi]. cbn in Hi.
  unfold home_key, L'. cbn [read_log set_l_block l_block]. unfold hd' at 2. rewrite read_back_n, Nat2Z.id. pose proof (proj2 Hg).
  destruct (read_blocks_spec hd' (l_block L2) n) as [_ ->]; [lia| |done].
  unfold hd'. destruct (put_head_spec L hd n) as (_ & _ & ->); [lia|lia| |done]. cbn. by rewrite u32_s32, u32_u32.
Qed.
Lemma read_back_geom : log_geom dv L' n.
Proof. destruct Hg as [H Hn]. split; [|done]. by rewrite read_back_log, read_back_hdr, read_back_home. Qed.
End read_back.

(** Recovery from the header of a committed transaction. *)
Lemma recover_logged h p s : fresh_boot E h p dv (l_start L) s ->
  disk_img (dev s) !! hdr_key dv L = Some (put_head L n hd) ->
  (forall i x, ds !! i = Some x -> disk_img (dev s) !! log_key dv L i = Some x) ->
  (forall i, (i < n)%nat -> is_Some (disk_img (dev s) !! home_key dv L i)) ->
  runE E (recover_from_log dv) s (fun _ s' => exists hd2,
    disk_img (dev s') = <[hdr_key dv L := hd2]> (wr_ct (zip (home_keys dv L n) ds) (disk_img (dev s))) /\
    ld32 hd2 0 = 0).
Proof.
  intros [Hh Hdv Hst Hbl] Hhdr Hlog Hhome. set (L2 := log_at dv s) in *.
  pose proof (read_back_geom L2 Hst Hbl) as Hg'. pose proof (proj2 Hg) as Hn.
  pose proof (read_back_home L2 Hbl) as Hh'. pose proof (read_back_log L2 Hst) as Hl'.
  pose proof (read_back_hdr L2 Hst) as Hd'.
  eapply (runE_recover E h p s dv L2 n ds (put_head L n hd)).
  - split; try done.
    + by rewrite <-Hhdr, <-Hd'.
    + apply read_back_n.
    + intros k. rewrite Hh', Hl', elem_of_app, elem_log_keys, elem_home_keys.
      intros [(i & Hi & ->)|(i & Hi & ->)]; [|by apply Hhome].
      destruct (lookup_lt_is_Some_2 ds i) as [x Hx]; [lia|]. exists x. by apply Hlog.
    + intros i x Hx. unfold log_key. rewrite Hst. by apply Hlog.
  - intros s' _ Hd _. set (L' := set_l_n 0 (read_log (put_head L n hd) L2)) in Hd.
    exists (put_head (set_l_n 0 (read_log (put_head L n hd) L2)) 0 (put_head L n hd)). split.
    + rewrite Hd, disk_img_wr. unfold recovery_writes. by rewrite wr_ct_snoc, Hd', Hh'.
    + apply put_head_spec; [|lia]. destruct (put_head_spec L hd n) as (-> & _); lia.
Qed.
End crash.



(** Where a crash can interrupt a commit: in the log, after the header, at
    the end. *)
Lemma commit_prefix dv L n ds hd pre : length ds = n -> pre `prefix_of` commit_writes dv L n ds hd ->
  (exists j, pre = take j (zip (log_keys dv L n) ds)) \/
  (exists j, pre = logged dv L n ds hd ++ take j (zip (home_keys dv L n) ds)) \/
  pre = commit_writes dv L n ds hd.
Proof.
  intros Hlen [post HW]. unfold logged, commit_writes in *.
  apply app_eq_app in HW as (l & [[H1 H2]|[H1 H2]]).
  - left. exists (length pre). by rewrite H1, take_app_length.
  - destruct l as [|w l]; cbn in H2.
    { left. exists (length pre). rewrite H1, app_nil_r, firstn_all. done. }
    injection H2 as <- H2. symmetry in H2. apply app_eq_app in H2 as (l' & [[-> Hl]|[Hl H2]]).
    + destruct l' as [|w' l']; cbn in Hl.
      * right. left. exists (length (zip (home_keys dv L n) ds)).
        by rewrite H1, firstn_all, app_nil_r, <-app_assoc.
      * right. right. injection Hl as <- Hl. symmetry in Hl. apply app_nil in Hl as [-> _]. done.
    + right. left. exists (length l). rewrite Hl, take_app_length. by rewrite H1, <-app_assoc.
Qed.

Section atomicity.
Context (E : kstate -> kstate -> Prop) `{HE : !DiskEnv E} (h p : nat).
Context (s : kstate) (dv : nat) (L : logst) (n : nat) (ct : disk) (rc : gmap bkey Z).
Context (ds : list block) (hd : block) (T : txn E h p s dv L n ct rc ds hd).
Let d0 := disk_img (dev s).
Context (Hhd : length hd = 1024%nat) (Hempty : s32 (ld32 hd 0) = 0).
Context (Hdirty : forall k, ct !! k <> d0 !! k -> k ∈ home_keys dv L n).

(** Writing the transaction home makes the logical contents of the cache. *)
Lemma homes_installed d :
  (forall k, k <> hdr_key dv L -> k ∉ log_keys dv L n -> k ∉ home_keys dv L n -> d !! k = d0 !! k) ->
  same_files dv L n (wr_ct (zip (home_keys dv L n) ds) d) ct.
Proof.
  intros Hd k Hk Hl. pose proof (tx_geom _ _ _ _ _ _ _ _ _ _ _ T) as Hg.
  pose proof (fst_zip_home _ _ _ _ _ _ _ _ _ _ _ T) as Hf. destruct (decide (k ∈ home_keys dv L n)) as [Hin|Hnin].
  - apply elem_home_keys in Hin as (i & Hi & ->).
    destruct (lookup_lt_is_Some_2 ds i) as [x Hx]; [by rewrite (tx_len _ _ _ _ _ _ _ _ _ _ _ T)|].
    rewrite (tx_data _ _ _ _ _ _ _ _ _ _ _ T i x Hx).
    eapply wr_ct_lookup; [rewrite Hf; by apply geom_home_nodup|by eapply lookup_zip_home].
  - rewrite wr_ct_notin by (by rewrite Hf). rewrite Hd by done.
    destruct (decide (ct !! k = d0 !! k)) as [->|Hne]; [done|]. by apply Hdirty in Hne.
Qed.

(** The disk at a crash after the header was written. *)
Lemma crash_logged j k : k <> hdr_key dv L -> k ∉ log_keys dv L n -> k ∉ home_keys dv L n ->
  wr_ct (logged dv L n ds hd ++ take j (zip (home_keys dv L n) ds)) d0 !! k = d0 !! k.
Proof.
  intros Hk Hl Hh. rewrite wr_ct_app, wr_ct_notin; [by eapply logged_other|].
  rewrite fmap_take, (fst_zip_home _ _ _ _ _ _ _ _ _ _ _ T). intros (i & Hi & _)%elem_of_take.
  by apply list_elem_of_lookup_2 in Hi.
Qed.

Lemma recover_early h' p' s2 j : fresh_boot E h' p' dv (l_start L) s2 ->
  disk_img (dev s2) = wr_ct (take j (zip (log_keys dv L n) ds)) d0 ->
  runE E (recover_from_log dv) s2 (fun _ s3 => same_files dv L n (disk_img (dev s3)) d0 /\
    exists hd2, disk_img (dev s3) !! hdr_key dv L = Some hd2 /\ ld32 hd2 0 = 0).
Proof.
  intros Hb Hd. pose proof (tx_geom _ _ _ _ _ _ _ _ _ _ _ T) as Hg.
  assert (Hnin : forall k, k ∉ log_keys dv L n -> disk_img (dev s2) !! k = d0 !! k).
  { intros k Hk. rewrite Hd. apply wr_ct_notin. rewrite fmap_take, (fst_zip_log _ _ _ _ _ _ _ _ _ _ _ T).
    intros (i & Hi & _)%elem_of_take. by apply list_elem_of_lookup_2 in Hi. }
  eapply runE_mono; [eapply (recover_empty E dv L n); [exact Hg|exact Hb| |exact Hempty|exact Hhd]|].
  - rewrite Hnin by (by apply geom_hdr_log). eapply tx_hdr, T.
  - intros _ s3 (hd2 & Hd3 & H0). rewrite Hd3. split.
    + intros k Hk Hl. rewrite lookup_insert_ne by done. by apply Hnin.
    + exists hd2. by rewrite lookup_insert_eq.
Qed.

Lemma recover_late h' p' s2 j : fresh_boot E h' p' dv (l_start L) s2 ->
  disk_img (dev s2) = wr_ct (logged dv L n ds hd ++ take j (zip (home_keys dv L n) ds)) d0 ->
  runE E (recover_from_log dv) s2 (fun _ s3 => same_files dv L n (disk_img (dev s3)) ct /\
    exists hd2, disk_img (dev s3) !! hdr_key dv L = Some hd2 /\ ld32 hd2 0 = 0).
Proof.
  intros Hb Hd. pose proof (tx_geom _ _ _ _ _ _ _ _ _ _ _ T) as Hg.
  pose proof (tx_len _ _ _ _ _ _ _ _ _ _ _ T) as Hlen.
  assert (Hnin : forall k, k ∉ home_keys dv L n -> disk_img (dev s2) !! k = wr_ct (logged dv L n ds hd) d0 !! k).
  { intros k Hk. rewrite Hd, wr_ct_app. apply wr_ct_notin. rewrite fmap_take, (fst_zip_home _ _ _ _ _ _ _ _ _ _ _ T).
    intros (i & Hi & _)%elem_of_take. by apply list_elem_of_lookup_2 in Hi. }
  eapply runE_mono; [eapply (recover_logged E dv L n Hg ds hd Hlen Hhd); [exact Hb| | |]|].
  - rewrite Hnin by (by apply geom_hdr_home). apply logged_hdr.
  - intros i x Hx. rewrite Hnin; [by eapply logged_log|].
    eapply geom_disj; [exact Hg|]. apply elem_log_keys. exists i. split; [|done].
    apply lookup_lt_Some in Hx. by rewrite <-Hlen.
  - intros i Hi. rewrite Hd. apply wr_ct_some. eapply (tx_disk _ _ _ _ _ _ _ _ _ _ _ T), elem_of_app.
    right. apply elem_home_keys. by exists i.
  - intros _ s3 (hd2 & Hd3 & H0). rewrite Hd3. split.
    + intros k Hk Hl. rewrite lookup_insert_ne by done. apply homes_installed; [|done|done].
      intros k' ???. rewrite Hd. by apply crash_logged.
    + exists hd2. by rewrite lookup_insert_eq.
Qed.

Lemma commit_final : same_files dv L n (wr_ct (commit_writes dv L n ds hd) d0) ct.
Proof.
  intros k Hk Hl. unfold commit_writes. rewrite cons_middle, !app_assoc, wr_ct_snoc, lookup_insert_ne by done.
  rewrite wr_ct_app. apply homes_installed; [|done|done]. intros k' ???. by eapply logged_other.
Qed.

Lemma recover_done h' p' s2 : fresh_boot E h' p' dv (l_start L) s2 ->
  disk_img (dev s2) = wr_ct (commit_writes dv L n ds hd) d0 ->
  runE E (recover_from_log dv) s2 (fun _ s3 => same_files dv L n (disk_img (dev s3)) ct /\
    exists hd2, disk_img (dev s3) !! hdr_key dv L = Some hd2 /\ ld32 hd2 0 = 0).
Proof.
  intros Hb Hd. pose proof (tx_geom _ _ _ _ _ _ _ _ _ _ _ T) as Hg. pose proof (proj2 Hg) as Hn.
  destruct (put_head_spec L hd n) as (Hl1 & _ & _); [lia|lia|].
  destruct (put_head_spec (set_l_n 0 L) (put_head L n hd) 0) as (Hl2 & H0 & _); [lia|lia|].
  eapply runE_mono; [eapply (recover_empty E dv L n); [exact Hg|exact Hb| | |]|].
  - rewrite Hd. unfold commit_writes. rewrite cons_middle, !app_assoc, wr_ct_snoc. apply lookup_insert_eq.
  - by rewrite H0.
  - by rewrite Hl2, Hl1.
  - intros _ s3 (hd2 & Hd3 & H3). rewrite Hd3. split.
    + intros k Hk Hl. rewrite lookup_insert_ne by done. rewrite Hd. by apply commit_final.
    + exists hd2. by rewrite lookup_insert_eq.
Qed.

(** Recovery from every crash. *)
Lemma crash_recovers pre : pre `prefix_of` commit_writes dv L n ds hd ->
  forall h' p' s2, fresh_boot E h' p' dv (l_start L) s2 -> disk_img (dev s2) = wr_ct pre d0 ->
  runE E (recover_from_log dv) s2 (fun _ s3 =>
    (same_files dv L n (disk_img (dev s3)) d0 \/ same_files dv L n (disk_img (dev s3)) ct) /\
    exists hd2, disk_img (dev s3) !! hdr_key dv L = Some hd2 /\ ld32 hd2 0 = 0).
Proof.
  intros Hpre h' p' s2 Hb Hd2. pose proof (tx_len _ _ _ _ _ _ _ _ _ _ _ T) as Hlen.
  destruct (commit_prefix _ _ _ _ _ _ Hlen Hpre) as [[j ->]|[[j ->]| ->]].
  - eapply runE_mono; [by eapply recover_early|]. intros _ s3 [??]. auto.
  - eapply runE_mono; [by eapply recover_late|]. intros _ s3 [??]. auto.
  - eapply runE_mono; [by eapply recover_done|]. intros _ s3 [??]. auto.
Qed.
End atomicity.

End Commit.
