(* ===== verification/Transaction.v ===== *)
(** * Transactions: begin_op, log_write, end_op (kernel/log.c)

    Between begin_op and end_op a file-system call changes blocks in the
    cache and registers them with log_write.  log_write keeps the invariant
    that commit needs: every block whose cached contents differ from the disk
    is listed in the header, once, and is pinned. *)

From S2P Require Import Prelude Bytes CString KState Spinlock Kernel Riscv Kalloc Vm Sched Console Virtio Disk Bio Cache Log Commit.

Module Transaction.
Import Sched Virtio Disk Bio Cache Log Commit.

(** ** Absorption *)

Lemma absorb_index_spec bl bn : forall n i,
  let r := absorb_index i n bl bn in
  (i <= r <= i + n)%nat /\ (forall j, (i <= j < r)%nat -> u32 (bl !!! j) <> bn) /\
  ((r < i + n)%nat -> u32 (bl !!! r) = bn).
Proof.
  induction n as [|n IH]; intros i; cbn.
  - split; [lia|]. split; lia.
  - destruct (Z.eqb_spec (u32 (bl !!! i)) bn) as [Heq|Hne].
    + split; [lia|]. split; [lia|done].
    + destruct (IH (S i)) as (H1 & H2 & H3). split; [lia|]. split; [|intros; apply H3; lia].
      intros j Hj. destruct (decide (j = i)) as [->|]; [done|]. apply H2. lia.
Qed.

(** The header after log_write of block [bn]. *)
Definition logged_in (L : logst) (n : nat) (bn : Z) : logst :=
  let i := absorb_index 0 n (l_block L) bn in
  set_l_n (if (i =? n)%nat then Z.of_nat n + 1 else Z.of_nat n)
    (set_l_block (<[i := s32 bn]> (l_block L)) L).
Definition logged_n (L : logst) (n : nat) (bn : Z) : nat :=
  if (absorb_index 0 n (l_block L) bn =? n)%nat then S n else n.

Section absorb.
Context (dv : nat) (L : logst) (n : nat) (bn : Z).
Context (Hl : length (l_block L) = 30%nat) (Hn : (n < 30)%nat) (Hbn : 0 <= bn < 2 ^ 32).
Let i := absorb_index 0 n (l_block L) bn.

Lemma home_key_logged j : (j < 30)%nat ->
  home_key dv (logged_in L n bn) j = if (j =? i)%nat then (dv, bn) else home_key dv L j.
Proof.
  intros Hj. unfold home_key, logged_in. cbn. fold i. destruct (Nat.eqb_spec j i) as [->|Hne].
  - rewrite list_lookup_total_insert_eq by lia. by rewrite u32_s32, u32_small.
  - by rewrite list_lookup_total_insert_ne.
Qed.

(** The list of home blocks: unchanged when the block was there already,
    extended by it otherwise. *)
Lemma home_keys_logged :
  home_keys dv (logged_in L n bn) (logged_n L n bn) =
    if (i =? n)%nat then home_keys dv L n ++ [(dv, bn)] else home_keys dv L n.
Proof.
  destruct (absorb_index_spec (l_block L) bn n 0) as (H1 & H2 & H3). fold i in H1, H2, H3.
  assert (Hpre : forall m, (m <= n)%nat -> home_keys dv (logged_in L n bn) m = home_keys dv L m).
  { intros m Hm. unfold home_keys. apply list_fmap_ext. intros j j' Hj. apply lookup_seq in Hj as [-> Hj]. cbn in *.
    rewrite home_key_logged by lia. destruct (Nat.eqb_spec j i) as [->|]; [|done].
    unfold home_key. by rewrite H3 by lia. }
  unfold logged_n. fold i. destruct (Nat.eqb_spec i n) as [Heq|Hne]; [|by apply Hpre].
  unfold home_keys at 1. rewrite seq_S, fmap_app. fold (home_keys dv (logged_in L n bn) n).
  rewrite Hpre by done. cbn. by rewrite home_key_logged, Heq, Nat.eqb_refl by lia.
Qed.

Lemma logged_in_keys : (dv, bn) ∈ home_keys dv (logged_in L n bn) (logged_n L n bn).
Proof.
  rewrite home_keys_logged. destruct (absorb_index_spec (l_block L) bn n 0) as (H1 & _ & H3). fold i in H1, H3.
  destruct (Nat.eqb_spec i n) as [Heq|Hne]; [set_solver|]. apply elem_home_keys. exists i. split; [lia|].
  unfold home_key. by rewrite H3 by lia.
Qed.

(** A block that is appended was not listed. *)
Lemma appended_fresh : i = n -> (dv, bn) ∉ home_keys dv L n.
Proof.
  intros Heq (j & Hj & [= Hk])%elem_home_keys.
  destruct (absorb_index_spec (l_block L) bn n 0) as (_ & H2 & _). fold i in H2.
  apply (H2 j); [lia|done].
Qed.

Lemma absorbed_iff : (i =? n)%nat = negb (bool_decide ((dv, bn) ∈ home_keys dv L n)).
Proof.
  destruct (absorb_index_spec (l_block L) bn n 0) as (H1 & _ & H3). fold i in H1, H3.
  destruct (Nat.eqb_spec i n) as [Heq|Hne].
  - by rewrite bool_decide_eq_false_2 by by apply appended_fresh.
  - rewrite bool_decide_eq_true_2; [done|]. apply elem_home_keys. exists i. split; [lia|].
    unfold home_key. by rewrite H3 by lia.
Qed.
End absorb.

(** ** log_write *)

Section log_write.
Context (E : kstate -> kstate -> Prop) `{HE : !DiskEnv E} (h p : nat).
Context (s : kstate) (ct : disk) (rc : gmap bkey Z) (dv : nat) (bn : Z) (b : nat) (data : block).
Context (H : list (nat * bkey * block)) (L : logst) (n : nat).
Let k : bkey := (dv, bn).
Let c := default 0 (rc !! k).
Context (Hold : hold E h p s ct rc [] ((b, k, data) :: H)) (Hk : k <> (0%nat, 0)).
Context (HL : log_at dv s = L) (Hdv : (dv < length (logs s))%nat) (Hbl : length (l_block L) = 30%nat).
Context (Hn : l_n L = Z.of_nat n) (Hc : 0 < c < 2 ^ 32 - 1).

Lemma held_here : exists v, buf_is (bufs s) b v /\ bk v = k /\ b_lock v = mkSleep true (me p s) /\
  b_valid v = true /\ b_data v = data /\ b_refcnt v = c.
Proof.
  destruct (ho_held _ _ _ _ _ _ _ _ Hold b k data) as (v & Hv & Hkv & Hl & Hval & Hd); [apply elem_of_cons; by left|].
  exists v. split_and!; try done. by rewrite (ca_rc _ _ _ _ (ho_cache _ _ _ _ _ _ _ _ Hold) b v Hv), Hkv.
Qed.

(** The logical contents of a block that is held follow its buffer. *)
Lemma hold_log : hold E h p s (<[k := data]> ct) rc [] ((b, k, data) :: H).
Proof.
  destruct held_here as (v & Hv & Hkv & Hl & Hval & Hd & Hr). destruct Hold as [H1 H2 H3 H4 H5 H6]. split; try done.
  rewrite <-Hkv. eapply cache_log; try done; [by rewrite Hkv|unfold is_locked; by rewrite Hl|by rewrite Hr; apply Hc].
Qed.

Lemma hold_set_sy y : owns h (Some p) [] y -> hold E h p (set_sy y s) (<[k := data]> ct) rc [] ((b, k, data) :: H).
Proof.
  intros Hy. exact (hold_ext E h p y (pt s) (logs s) s _ _ _ _ hold_log Hy (reflexivity _)).
Qed.

(** One more reference. *)
Lemma hold_pin y v : owns h (Some p) [] y -> buf_is (bufs s) b v ->
  hold E h p (set_sy y (set_bufs (<[b := add_ref 1 v]> (bufs s)) s)) (<[k := data]> ct)
    (set_rc k (c + 1) rc) [] ((b, k, data) :: H).
Proof.
  intros Hy Hv. pose proof hold_log as HG. destruct HG as [H1 H2 H3 H4 H5 H6].
  assert (Hu : u32 (c + 1) = c + 1) by (apply u32_small; lia).
  assert (Hhd : held (bufs s) b k data (me p s)) by (apply H4, elem_of_cons; by left).
  destruct (cache_add_ref _ _ _ _ b k data (me p s) 1 v [] H2 H3 Hk Hhd Hv) as (HC & HL' & Hh' & Ho').
  { left. fold c. rewrite Hu. lia. }
  fold c in HC. rewrite Hu in HC.
  eapply (hold_step E h p s); [apply hold_log|..|exact Ho'].
  - eapply io_sys, (io_set_buf E h p s y b (add_ref 1 v)); done.
  - done.
  - exact HC.
  - intros b2 v2 Hv2 _ H0. destruct (decide (b2 = b)) as [->|Hne].
    + exfalso. destruct Hh' as (w & Hw & Hkw & _). assert (v2 = w) as -> by by eapply buf_is_fun.
      rewrite (ca_rc _ _ _ _ HC b w Hw), Hkw, lookup_set_rc in H0. lia.
    + apply (HL' b2 v2 Hv2); [set_solver|done].
  - exact Hh'.
Qed.

Lemma runE_log_write (Q : unit -> kstate -> Prop) :
  0 <= bn < 2 ^ 32 -> (n < 30)%nat -> Z.of_nat n < l_size L - 1 -> 1 <= l_outstanding L ->
  let i := absorb_index 0 n (l_block L) bn in
  (forall s', hold E h p s' (<[k := data]> ct) (if (i =? n)%nat then set_rc k (c + 1) rc else rc) [] ((b, k, data) :: H) ->
     dev s' = dev s -> logs s' = <[dv := logged_in L n bn]> (logs s) ->
     (exists y bs l, s' = set_sy y (set_bufs bs (set_logs l s))) -> Q tt s') ->
  runE E (log_write b) s Q.
Proof.
  intros Hbn Hn30 Hsz Hout i HQ. destruct held_here as (v & Hv & Hkv & _). injection Hkv as Hd Hb.
  assert (Hbv : forall y, buf_at b (set_sy y s) = v) by (intros; apply list_lookup_total_correct, Hv).
  pose proof (Hbv (sy s)) as Hbs. change (buf_at b (set_sy (sy s) s)) with (buf_at b s) in Hbs.
  destruct (absorb_index_spec (l_block L) bn n 0) as (Hi & _). fold i in Hi.
  unfold log_write. wp. rewrite Hbs, Hd, HL, Hn.
  destruct (Z.leb_spec LOGSIZE (Z.of_nat n)); [lia|]. destruct (Z.leb_spec (l_size L - 1) (Z.of_nat n)); [lia|]. cbn [orb].
  destruct (Z.ltb_spec (l_outstanding L) 1); [lia|]. wp.
  eapply run_runE, run_acquire; [apply Hold|apply not_elem_of_nil|]. intros y1 Hy1. wp.
  rewrite Hbv, Hb. change (log_at dv (set_sy y1 s)) with (log_at dv s). rewrite HL, Hn, Nat2Z.id. fold i.
  unfold set_log_block. destruct (Z.leb_spec LOGSIZE (Z.of_nat i)); [lia|]. wp.
  change (log_at dv (set_sy y1 s)) with (log_at dv s). rewrite HL, Nat2Z.id.
  set (L1 := set_l_block _ L). set (s1 := set_logs _ _). unfold log_n. wp.
  assert (HL1 : log_at dv s1 = L1) by (by apply list_lookup_total_insert_eq). rewrite HL1.
  change (l_n L1) with (l_n L). rewrite Hn. destruct (Z.eqb_spec (Z.of_nat i) (Z.of_nat n)) as [Heq|Hne]; wp.
  - assert (i = n) as Hin by lia.
    eapply run_runE, (run_bpin h p [LLog dv]); [exact Hy1|set_solver|apply Hv|]. intros y2 Hy2.
    unfold upd_log. wp. eapply run_runE, run_release; [exact Hy2|set_solver|]. intros y3 Hy3.
    rewrite drop_head in Hy3 by set_solver. apply HQ.
    + rewrite Hin, Nat.eqb_refl. exact (hold_set_logs _ _ _ _ _ _ _ _ _ (hold_pin y3 v Hy3 Hv)).
    + done.
    + cbn [logs set_logs set_sy set_bufs s1]. unfold log_at. cbn [logs set_logs set_sy set_bufs s1].
      rewrite list_lookup_total_insert_eq, list_insert_insert_eq by done. unfold logged_in. fold i.
      destruct (Nat.eqb_spec i n); [done|lia].
    + by eexists _, _, _.
  - eapply run_runE, run_release; [exact Hy1|set_solver|]. intros y3 Hy3.
    rewrite drop_head in Hy3 by set_solver. apply HQ.
    + destruct (Nat.eqb_spec i n); [lia|]. exact (hold_set_logs _ _ _ _ _ _ _ _ _ (hold_set_sy y3 Hy3)).
    + done.
    + cbn [logs set_logs set_sy s1]. unfold logged_in. fold i. destruct (Nat.eqb_spec i n); [lia|]. f_equal.
      unfold L1. by rewrite <-Hn; destruct L.
    + exists y3, (bufs s), (logs s1). done.
Qed.
End log_write.

(** ** The invariant of a transaction in progress *)

Section transaction.
Context (E : kstate -> kstate -> Prop) `{HE : !DiskEnv E} (h p : nat).

(** The log lists [n] blocks of disk [dv]; the cache contents [ct] differ
    from the disk at most there; each of them is pinned once, and the process
    holds no block. *)
Record logging (s : kstate) (dv : nat) (L : logst) (n : nat) (ct : disk) (rc : gmap bkey Z) : Prop := {
  lg_hold : hold E h p s ct rc [] [];
  lg_L : log_at dv s = L;
  lg_dv : (dv < length (logs s))%nat;
  lg_blocks : length (l_block L) = 30%nat;
  lg_n : l_n L = Z.of_nat n;
  lg_out : 1 <= l_outstanding L;
  lg_size : l_size L = 30;
  lg_dirty : forall k, ct !! k <> disk_img (dev s) !! k -> k ∈ home_keys dv L n;
  lg_nodup : NoDup (home_keys dv L n);
  lg_rc : forall k, rc !! k = if bool_decide (k ∈ home_keys dv L n) then Some 1 else None
}.

(** Change a block: the pattern of every write to the disk in fs.c. *)
Definition update_block (dv : nat) (bn : Z) (f : block -> block) : K unit :=
  b <- bread dv bn ;;
  modify (fun s => set_buf_at b (set_b_data (f (b_data (buf_at b s))) (buf_at b s)) s) ;;
  log_write b ;;
  brelse b.

Lemma rc_dom s dv L n ct rc : logging s dv L n ct rc -> dom rc = list_to_set (home_keys dv L n).
Proof.
  intros G. apply set_eq. intros k. rewrite elem_of_dom, elem_of_list_to_set, (lg_rc _ _ _ _ _ _ G k).
  case_bool_decide; [done|]. split; [by intros [??]|done].
Qed.
Lemma rc_size s dv L n ct rc : logging s dv L n ct rc -> size rc = n.
Proof.
  intros G. rewrite <-size_dom, (rc_dom _ _ _ _ _ _ G), size_list_to_set by apply G.
  unfold home_keys. by rewrite length_fmap, length_seq.
Qed.

Context (s : kstate) (dv : nat) (L : logst) (n : nat) (ct : disk) (rc : gmap bkey Z).
Context (G : logging s dv L n ct rc).

(** The reference counts of the updated block around log_write. *)
Lemma rc_after_log_write bn : 0 <= bn < 2 ^ 32 -> (n < 30)%nat ->
  let k := (dv, bn) in let c := default 0 (rc !! k) in
  let r := if (absorb_index 0 n (l_block L) bn =? n)%nat
           then set_rc k (c + 1 + 1) (set_rc k (c + 1) rc) else set_rc k (c + 1) rc in
  default 0 (r !! k) = 2 /\ set_rc k 1 r = set_rc k 1 rc.
Proof.
  intros Hbn Hn k c r. unfold r. destruct (absorb_index_spec (l_block L) bn n 0) as (Hi & _ & Hin).
  destruct (Nat.eqb_spec (absorb_index 0 n (l_block L) bn) n) as [Heq|Hne].
  - rewrite !set_rc_set_rc, lookup_set_rc. split; [|done].
    unfold c. rewrite (lg_rc _ _ _ _ _ _ G), bool_decide_eq_false_2; [done|].
    apply appended_fresh; [apply G|lia|done].
  - rewrite set_rc_set_rc, lookup_set_rc. split; [|done].
    unfold c. rewrite (lg_rc _ _ _ _ _ _ G), bool_decide_eq_true_2; [done|].
    apply elem_home_keys. eexists. split; [|unfold k, home_key; by rewrite Hin by lia]. lia.
Qed.

Lemma logging_updated bn data s' : 0 <= bn < 2 ^ 32 -> (n < 29)%nat -> let k := (dv, bn) in
  hold E h p s' (<[k := data]> ct) (set_rc k 1 rc) [] [] -> dev s' = dev s ->
  logs s' = <[dv := logged_in L n bn]> (logs s) ->
  logging s' dv (logged_in L n bn) (logged_n L n bn) (<[k := data]> ct) (set_rc k 1 rc).
Proof.
  intros Hbn Hn k Hh Hd Hl. destruct G as [Hold HL Hdv Hbl Hln Hout Hls Hdirty Hnd Hrc].
  assert (Hsub : forall k', k' ∈ home_keys dv L n -> k' ∈ home_keys dv (logged_in L n bn) (logged_n L n bn)).
  { intros k' Hk'. rewrite home_keys_logged by (done || lia). case_match; set_solver. }
  split; try done.
  - unfold log_at. rewrite Hl. by apply list_lookup_total_insert_eq.
  - by rewrite Hl, length_insert.
  - cbn. by rewrite length_insert.
  - unfold logged_n. cbn. destruct (Nat.eqb_spec (absorb_index 0 n (l_block L) bn) n); lia.
  - intros k' Hk'. destruct (decide (k = k')) as [<-|Hne]; [apply logged_in_keys; (done || lia)|].
    apply Hsub, Hdirty. by rewrite lookup_insert_ne, Hd in Hk'.
  - rewrite home_keys_logged by (done || lia). destruct (Nat.eqb_spec (absorb_index 0 n (l_block L) bn) n); [|done].
    apply NoDup_app. split_and!; [done| |apply NoDup_singleton]. intros k' Hk' ->%list_elem_of_singleton.
    by apply (appended_fresh dv L n bn Hbl ltac:(lia)).
  - intros k'. rewrite home_keys_logged by (done || lia). destruct (decide (k = k')) as [<-|Hne].
    + rewrite bool_decide_eq_true_2; [by apply lookup_insert_eq|].
      rewrite <-home_keys_logged by (done || lia). apply logged_in_keys; (done || lia).
    + rewrite lookup_set_rc_ne, Hrc by done.
      enough (Hiff : k' ∈ home_keys dv L n <-> k' ∈ (if (absorb_index 0 n (l_block L) bn =? n)%nat
        then home_keys dv L n ++ [k] else home_keys dv L n)) by (repeat case_bool_decide; tauto).
      case_match; set_solver.
Qed.

Lemma runE_update_block bn f data (Q : unit -> kstate -> Prop) :
  (dv, bn) <> (0%nat, 0) -> 0 <= bn < 2 ^ 32 -> (n < 29)%nat -> ct !! (dv, bn) = Some data ->
  (forall s' rc', logging s' dv (logged_in L n bn) (logged_n L n bn) (<[(dv, bn) := f data]> ct) rc' ->
     dev s' = dev s -> Q tt s') ->
  runE E (update_block dv bn f) s Q.
Proof.
  intros Hk Hbn Hn Hct HQ. pose proof (rc_size _ _ _ _ _ _ G) as Hsz.
  destruct G as [Hold HL Hdv Hbl Hln Hout Hls Hdirty Hnd Hrc]. set (k := (dv, bn)) in *.
  set (c := default 0 (rc !! k)). assert (Hc : 0 <= c <= 1) by (unfold c; rewrite Hrc; case_bool_decide; cbn; lia).
  unfold update_block. apply runE_bind.
  eapply hold_bread; [exact Hold|done|set_solver|exact Hct|left; lia|fold k c; lia|]. fold k c.
  intros b s1 Hm1 Hd1 H1. apply runE_bind.
  eapply (hold_set_data E h p _ _ _ _ _ _ _ _ (fun s => f (b_data (buf_at b s)))); [exact H1|done|rewrite lookup_set_rc; lia|].
  intros s2 Hm2 Hd2 H2. rewrite (hold_data _ _ _ _ _ _ _ _ b k data H1) in H2 by (apply elem_of_cons; by left).
  assert (HL2 : log_at dv s2 = L) by (by rewrite (moves_log E h p dv _ _ Hm2), (moves_log E h p dv _ _ Hm1)).
  assert (Hl2 : logs s2 = logs s).
  { by rewrite (io_logs _ _ _ _ _ _ _ Hm2), (io_logs _ _ _ _ _ _ _ Hm1). }
  apply runE_bind.
  eapply (runE_log_write E h p s2 ct _ dv bn b (f data) [] L n H2 Hk HL2); try done; try lia.
  { by rewrite Hl2. } { fold k. rewrite lookup_set_rc. lia. }
  fold k. rewrite lookup_set_rc. set (i := absorb_index 0 n (l_block L) bn).
  intros s3 H3 Hd3 Hl3 _. destruct (rc_after_log_write bn) as [Hr1 Hr2]; [done|lia|]. fold k c i in Hr1, Hr2.
  eapply (hold_brelse E h p _ _ _ _ []).
  { eapply (hold_weaken E h p _ _ _ []); [set_solver|exact H3]. }
  { done. } { by rewrite lookup_insert_eq. } { left. fold k. rewrite Hr1. done. }
  fold k. rewrite Hr1. change (u32 (2 - 1)) with 1. rewrite Hr2. intros s4 Hm4 Hd4 H4. apply (HQ s4 (set_rc k 1 rc)); [|congruence].
  apply logging_updated; [done|lia|exact H4|congruence|].
  by rewrite (io_logs _ _ _ _ _ _ _ Hm4), Hl3, Hl2.
Qed.
End transaction.

(** ** A whole file-system operation *)

Section operation.
Context (E : kstate -> kstate -> Prop) `{HE : !DiskEnv E} (h p dv : nat).

(** Between operations: nothing is logged, cached changes are on the disk. *)
Record quiet (s : kstate) (L : logst) : Prop := {
  qu_hold : hold E h p s (disk_img (dev s)) ∅ [] [];
  qu_L : log_at dv s = L;
  qu_dv : (dv < length (logs s))%nat;
  qu_blocks : length (l_block L) = 30%nat;
  qu_n : l_n L = 0;
  qu_out : l_outstanding L = 0;
  qu_com : l_committing L = false;
  qu_size : l_size L = 30
}.

Lemma runE_begin_op s L (Q : unit -> kstate -> Prop) :
  quiet s L ->
  (forall s', logging E h p s' dv (set_l_outstanding 1 L) 0 (disk_img (dev s)) ∅ -> dev s' = dev s ->
     (exists y l, s' = set_sy y (set_logs l s) /\ l_start <$> l = l_start <$> logs s) -> Q tt s') ->
  runE E (begin_op dv) s Q.
Proof.
  intros [Hh HL Hdv Hbl Hn Hout Hcom Hsz] HQ. unfold begin_op. wp.
  eapply run_runE, run_acquire; [apply Hh|apply not_elem_of_nil|]. intros y1 Hy1.
  change wait_fuel with (S 1023). cbn [loop]. wp. change (log_at dv (set_sy y1 s)) with (log_at dv s).
  rewrite HL, Hcom, Hn, Hout. change (LOGSIZE <? 0 + (0 + 1) * MAXOPBLOCKS) with false. cbv iota.
  unfold upd_log. wp. change (log_at dv (set_sy y1 s)) with (log_at dv s). rewrite HL.
  eapply run_runE, run_release; [exact Hy1|set_solver|]. intros y2 Hy2. rewrite drop_head in Hy2 by set_solver. wp.
  apply HQ; [|done|]. 2: { exists y2, (<[dv := set_l_outstanding 1 L]> (logs s)). split; [done|].
    rewrite list_fmap_insert. apply list_insert_id. rewrite list_lookup_fmap, (list_lookup_lookup_total_lt _ _ Hdv). fold (log_at dv s). by rewrite HL. }
  split; try done.
  - exact (hold_ext E h p y2 (pt s) _ s _ _ _ _ Hh Hy2 (reflexivity _)).
  - unfold log_at. cbn. by apply list_lookup_total_insert_eq.
  - cbn. by rewrite length_insert.
  - constructor.
Qed.

(** The updates of an operation, and their effect. *)
Abbreviation updates := (list (Z * (block -> block))).
Definition run_updates (us : updates) : K unit :=
  iter_each us (fun u => update_block dv u.1 u.2).
Definition apply_updates (us : updates) (d : disk) : disk :=
  foldl (fun d u => alter u.2 (dv, u.1) d) d us.

Definition log_after (us : updates) (Ln : logst * nat) : logst * nat :=
  foldl (fun '(L, n) u => (logged_in L n u.1, logged_n L n u.1)) Ln us.

Lemma runE_updates us : forall s L n ct rc (Q : unit -> kstate -> Prop),
  logging E h p s dv L n ct rc -> (n + length us <= 29)%nat ->
  (forall u, u ∈ us -> (dv, u.1) <> (0%nat, 0) /\ 0 <= u.1 < 2 ^ 32 /\ is_Some (ct !! (dv, u.1))) ->
  (forall s' rc', logging E h p s' dv (log_after us (L, n)).1 (log_after us (L, n)).2 (apply_updates us ct) rc' ->
     dev s' = dev s -> Q tt s') ->
  runE E (run_updates us) s Q.
Proof.
  induction us as [|[bn f] us IH]; intros s L n ct rc Q G Hlen Hus HQ; unfold run_updates; cbn [iter_each].
  - apply (HQ s rc); [exact G|done].
  - destruct (Hus (bn, f)) as (Hk & Hbn & data & Hd); [set_solver|]. cbn in Hlen, Hk, Hbn, Hd.
    apply runE_bind. eapply (runE_update_block E h p _ _ _ _ _ _ G); [done|done|lia|exact Hd|].
    intros s1 rc1 G1 Hd1. eapply IH; [exact G1| | |].
    + unfold logged_n. case_match; lia.
    + intros u Hu. destruct (Hus u) as (H1 & H2 & H3); [set_solver|]. split_and!; try done; try lia.
      destruct (decide ((dv, bn) = (dv, u.1))) as [<-|Hne]; [by rewrite lookup_insert_eq|by rewrite lookup_insert_ne].
    + replace (<[(dv, bn) := f data]> ct) with (alter f (dv, bn) ct).
      * intros s2 rc2 G2 Hd2. apply (HQ s2 rc2); [exact G2|congruence].
      * apply map_eq. intros k. destruct (decide ((dv, bn) = k)) as [<-|Hne].
        -- by rewrite lookup_alter_eq, lookup_insert_eq, Hd.
        -- by rewrite lookup_alter_ne, lookup_insert_ne.
Qed.

(** The header after the updates. *)
Lemma log_after_spec us : forall L n, length (l_block L) = 30%nat -> (n + length us <= 29)%nat ->
  (forall u, u ∈ us -> 0 <= u.1 < 2 ^ 32) ->
  let L' := (log_after us (L, n)).1 in let n' := (log_after us (L, n)).2 in
  l_start L' = l_start L /\ l_outstanding L' = l_outstanding L /\ l_committing L' = l_committing L /\
  (n <= n' <= n + length us)%nat /\ (us <> [] -> 0 < n')%nat /\
  forall k, k ∈ home_keys dv L' n' -> k ∈ home_keys dv L n \/ exists u, u ∈ us /\ k = (dv, u.1).
Proof.
  induction us as [|[bn f] us IH]; intros L n Hl Hlen Hus.
  - cbn. split_and!; try done; try lia. by left.
  - change (log_after ((bn, f) :: us) (L, n)) with (log_after us (logged_in L n bn, logged_n L n bn)).
    cbn in Hlen. cbn [length]. destruct (IH (logged_in L n bn) (logged_n L n bn)) as (H1 & H2 & H3 & H4 & H5 & H6).
    + cbn. by rewrite length_insert.
    + unfold logged_n. case_match; lia.
    + intros u Hu. apply Hus. set_solver.
    + specialize (Hus (bn, f) ltac:(set_solver)). cbn in Hus.
      assert (Hn' : (n <= logged_n L n bn <= S n)%nat) by (unfold logged_n; case_match; lia).
      assert (Hpos : (0 < logged_n L n bn)%nat).
      { pose proof (logged_in_keys dv L n bn Hl ltac:(lia) Hus) as (i & Hi & _)%elem_home_keys. lia. }
      split_and!; try done; try lia.
      intros k [Hk|(u & Hu & ->)]%H6; [|right; exists u; split; [set_solver|done]].
      rewrite home_keys_logged in Hk by (done || lia). case_match; [|by left].
      apply elem_of_app in Hk as [Hk|Hk%list_elem_of_singleton]; [by left|]. right. exists (bn, f). split; [set_solver|done].
Qed.

(** Where the log is on the disk, and that the updates stay out of it. *)
Definition log_layout (L : logst) (us : updates) : Prop :=
  1 <= l_start L /\ l_start L + 31 < 2 ^ 32 /\
  forall u, u ∈ us -> 1 <= u.1 < 2 ^ 32 /\ (u.1 < l_start L \/ l_start L + 29 < u.1).

Lemma layout_geom L us L' n' : log_layout L us -> l_start L' = l_start L -> (n' <= 29)%nat ->
  NoDup (home_keys dv L' n') -> (forall k, k ∈ home_keys dv L' n' -> exists u, u ∈ us /\ k = (dv, u.1)) ->
  log_geom dv L' n'.
Proof.
  intros (H1 & H2 & Hus) Hst Hn Hnd Hk.
  assert (Hlk : forall i, (i < n')%nat -> log_key dv L' i = (dv, l_start L + Z.of_nat i + 1)).
  { intros i Hi. unfold log_key. rewrite Hst, u32_small by lia. done. }
  assert (Hhk : hdr_key dv L' = (dv, l_start L)) by (unfold hdr_key; by rewrite Hst, u32_small by lia).
  assert (Hhome : forall k, k ∈ home_keys dv L' n' -> exists z, k = (dv, z) /\ 1 <= z /\ (z < l_start L \/ l_start L + 29 < z)).
  { intros k (u & Hu & ->)%Hk. exists u.1. destruct (Hus u Hu). split; [done|lia]. }
  split; [|done]. rewrite Hhk. repeat rewrite NoDup_cons. split_and!.
  - rewrite elem_of_cons, elem_of_app. intros [[= _ ?]|[(i & Hi & Heq)%elem_log_keys|(z & [= _ ?] & ? & _)%Hhome]]; [lia| |lia].
    rewrite Hlk in Heq by done. injection Heq as _ ?. lia.
  - rewrite elem_of_app. intros [(i & Hi & Heq)%elem_log_keys|(z & [= <-] & ? & ?)%Hhome]; [|lia].
    rewrite Hlk in Heq by done. injection Heq as ?. lia.
  - apply NoDup_app. split_and!; [|intros k (i & Hi & ->)%elem_log_keys (z & Heq & Hz)%Hhome|done].
    + apply NoDup_fmap_2_strong; [|apply NoDup_seq]. intros i j Hi%elem_of_seq Hj%elem_of_seq.
      rewrite !Hlk by lia. intros [= ?]. lia.
    + rewrite Hlk in Heq by done. injection Heq as ?. lia.
Qed.

(** A logged transaction is ready to be committed. *)
Lemma txn_of_logging s L n ct rc hd :
  logging E h p s dv L n ct rc -> (0 < n)%nat -> log_geom dv L n ->
  (forall k, k ∈ log_keys dv L n ++ home_keys dv L n -> is_Some (disk_img (dev s) !! k)) ->
  (forall i, (i < n)%nat -> is_Some (ct !! home_key dv L i)) ->
  disk_img (dev s) !! hdr_key dv L = Some hd ->
  exists ds, txn E h p s dv L n ct rc ds hd.
Proof.
  intros G Hn Hg Hdk Hct Hhd. pose proof (rc_size _ _ _ _ _ _ _ _ _ G) as Hsz.
  exists ((fun i => default [] (ct !! home_key dv L i)) <$> seq 0 n).
  destruct G as [Hold HL Hdv Hbl Hln Hout Hls Hdirty Hnd Hrc]. split; try done.
  - intros i Hi. rewrite Hrc, bool_decide_eq_false_2; [done|]. eapply geom_disj; [exact Hg|].
    apply elem_log_keys. by exists i.
  - intros i Hi. rewrite Hrc, bool_decide_eq_true_2; [done|]. apply elem_home_keys. by exists i.
  - rewrite Hsz. pose proof (proj2 Hg). lia.
  - by rewrite length_fmap, length_seq.
  - intros i x Hx. rewrite list_lookup_fmap in Hx. apply fmap_Some in Hx as (j & Hj & ->).
    apply lookup_seq in Hj as [-> Hi]. cbn. destruct (Hct i Hi) as [x Hx]. by rewrite Hx.
  - rewrite Hrc, bool_decide_eq_false_2; [done|]. by apply geom_hdr_home.
Qed.

(** Log bookkeeping does not matter to the cache. *)
Lemma txn_set_logs s L n ct rc ds hd L' y : txn E h p s dv L n ct rc ds hd -> owns h (Some p) [] y ->
  l_start L' = l_start L -> l_block L' = l_block L -> l_n L' = l_n L ->
  txn E h p (set_sy y (set_logs (<[dv := L']> (logs s)) s)) dv L' n ct rc ds hd.
Proof.
  intros T Hy Hst Hbl Hn. destruct T as [Hh HL Hdv Hln Hpos Hg Hdk Hlog Hpin Hrs Hlen Hdat Hhrc Hhd].
  assert (Hhk : hdr_key dv L' = hdr_key dv L) by (unfold hdr_key; by rewrite Hst).
  assert (Hlk : forall i, log_key dv L' i = log_key dv L i) by (intros; unfold log_key; by rewrite Hst).
  assert (Hok : forall i, home_key dv L' i = home_key dv L i) by (intros; unfold home_key; by rewrite Hbl).
  assert (Hlks : log_keys dv L' n = log_keys dv L n) by (apply list_fmap_ext; auto).
  assert (Hoks : home_keys dv L' n = home_keys dv L n) by (apply list_fmap_ext; auto).
  split; rewrite ?Hlks, ?Hoks, ?Hhk; try done.
  - exact (hold_ext E h p y (pt s) _ s _ _ _ _ Hh Hy (reflexivity _)).
  - unfold log_at. cbn. by apply list_lookup_total_insert_eq.
  - cbn. by rewrite length_insert.
  - by rewrite Hn.
  - unfold log_geom. by rewrite Hlks, Hoks, Hhk.
  - intros i Hi. rewrite Hlk. by apply Hlog.
  - intros i Hi. rewrite Hok. by apply Hpin.
  - intros i x Hx. rewrite Hok. by apply Hdat.
Qed.

(** end_op of the last operation commits. *)
Lemma runE_end_op s L n ct rc ds hd (Q : unit -> kstate -> Prop) :
  txn E h p s dv L n ct rc ds hd -> l_outstanding L = 1 -> l_committing L = false ->
  let W := commit_writes dv L n ds hd in
  (forall s', dev s' = wr_dev W (dev s) ->
     hold E h p s' (wr_ct W ct) (unpin_all (home_keys dv L n) rc) [] [] ->
     log_at dv s' = set_l_n 0 (set_l_outstanding 0 L) -> (dv < length (logs s'))%nat -> fs s' = fs s -> pt_sim (pt s) (pt s') -> Q tt s') ->
  runE E (end_op dv) s Q.
Proof.
  intros T Hout Hcom W HQ. pose proof (tx_hold _ _ _ _ _ _ _ _ _ _ _ T) as Hh.
  pose proof (tx_L _ _ _ _ _ _ _ _ _ _ _ T) as HL. pose proof (tx_dv _ _ _ _ _ _ _ _ _ _ _ T) as Hdv.
  unfold end_op. wp. eapply run_runE, run_acquire; [apply Hh|apply not_elem_of_nil|]. intros y1 Hy1. wp.
  change (log_at dv (set_sy y1 s)) with (log_at dv s). rewrite HL, Hout.
  set (s1 := set_logs _ _). assert (HL1 : log_at dv s1 = set_l_outstanding 0 L) by (by apply list_lookup_total_insert_eq).
  rewrite HL1. cbn [l_committing l_outstanding set_l_outstanding]. rewrite Hcom. change (0 =? 0) with true. cbv iota.
  unfold upd_log. wp. rewrite HL1. eapply run_runE, run_release; [exact Hy1|set_solver|]. intros y2 Hy2.
  rewrite drop_head in Hy2 by set_solver. wp.
  set (L2 := set_l_committing true (set_l_outstanding 0 L)).
  match goal with |- runE _ _ ?x _ => replace x with (set_sy y2 (set_logs (<[dv := L2]> (logs s)) s)) end.
  2: { unfold s1. cbn [logs set_logs set_sy]. by rewrite list_insert_insert_eq. }
  eapply (runE_commit E h p _ dv L2 n ct rc ds hd); [by apply (txn_set_logs s L)|].
  intros s3 Hm3 Hd3 H3. wp.
  assert (HL3 : log_at dv s3 = set_l_n 0 L2).
  { rewrite (moves_log E h p dv _ _ Hm3). apply log_at_insert. cbn. by rewrite length_insert. }
  assert (Hdv3 : (dv < length (logs s3))%nat).
  { rewrite (io_logs _ _ _ _ _ _ _ Hm3). cbn. by rewrite !length_insert. }
  eapply run_runE, run_acquire; [apply H3|apply not_elem_of_nil|]. intros y4 Hy4. wp.
  change (log_at dv (set_sy y4 s3)) with (log_at dv s3). rewrite HL3.
  eapply run_runE, run_wakeup; [exact Hy4|intros i; set_solver|apply H3|]. intros y5 Hy5. wp.
  eapply run_runE, run_release; [exact Hy5|set_solver|]. intros y6 Hy6. rewrite drop_head in Hy6 by set_solver.
  apply HQ.
  - exact Hd3.
  - exact (hold_ext E h p y6 _ _ s3 _ _ _ _ H3 Hy6 (pt_sim_wake ChLog (pt s3))).
  - unfold log_at. cbn. rewrite list_lookup_total_insert_eq by done. rewrite <-Hcom. by destruct L.
  - cbn. by rewrite length_insert.
  - cbn. by rewrite (io_fs _ _ _ _ _ _ _ Hm3).
  - etrans; [exact (io_pt _ _ _ _ _ _ _ Hm3)|apply pt_sim_wake].
Qed.

(** end_op of an operation that logged nothing. *)
Lemma runE_end_op_none s L ct rc (Q : unit -> kstate -> Prop) :
  hold E h p s ct rc [] [] -> log_at dv s = L -> (dv < length (logs s))%nat -> l_n L = 0 -> l_outstanding L = 1 -> l_committing L = false ->
  (forall s', dev s' = dev s -> hold E h p s' ct rc [] [] -> log_at dv s' = set_l_outstanding 0 L -> (dv < length (logs s'))%nat -> fs s' = fs s ->
     pt_sim (pt s) (pt s') -> Q tt s') ->
  runE E (end_op dv) s Q.
Proof.
  intros Hh HL Hdv Hn Hout Hcom HQ.
  unfold end_op. wp. eapply run_runE, run_acquire; [apply Hh|apply not_elem_of_nil|]. intros y1 Hy1. wp.
  change (log_at dv (set_sy y1 s)) with (log_at dv s). rewrite HL, Hout.
  set (s1 := set_logs _ _). assert (HL1 : log_at dv s1 = set_l_outstanding 0 L) by (by apply list_lookup_total_insert_eq).
  rewrite HL1. cbn [l_committing l_outstanding set_l_outstanding]. rewrite Hcom. change (0 =? 0) with true. cbv iota.
  unfold upd_log. wp. rewrite HL1. eapply run_runE, run_release; [exact Hy1|set_solver|]. intros y2 Hy2.
  rewrite drop_head in Hy2 by set_solver. wp.
  set (L2 := set_l_committing true (set_l_outstanding 0 L)).
  match goal with |- runE _ _ ?x _ => replace x with (set_sy y2 (set_logs (<[dv := L2]> (logs s)) s)) end.
  2: { unfold s1. cbn [logs set_logs set_sy]. by rewrite list_insert_insert_eq. }
  set (s3 := set_sy y2 _). assert (HL3 : log_at dv s3 = L2) by (by apply list_lookup_total_insert_eq).
  assert (Hdv3 : (dv < length (logs s3))%nat) by (cbn; by rewrite length_insert).
  unfold commit, log_n. wp. rewrite HL3. cbn [l_n L2 set_l_committing set_l_outstanding]. rewrite Hn. change (0 <? 0) with false. cbn [when]. wp.
  eapply run_runE, run_acquire; [exact Hy2|apply not_elem_of_nil|]. intros y4 Hy4. wp.
  change (log_at dv (set_sy y4 s3)) with (log_at dv s3). rewrite HL3.
  eapply run_runE, run_wakeup; [exact Hy4|intros i; set_solver|apply Hh|]. intros y5 Hy5. wp.
  eapply run_runE, run_release; [exact Hy5|set_solver|]. intros y6 Hy6. rewrite drop_head in Hy6 by set_solver.
  apply HQ.
  - done.
  - exact (hold_ext E h p y6 _ _ s _ _ _ _ Hh Hy6 (pt_sim_wake ChLog (pt s))).
  - unfold log_at. cbn. rewrite list_lookup_total_insert_eq by done. rewrite <-Hcom. by destruct L.
  - cbn. by rewrite !length_insert.
  - done.
  - apply pt_sim_wake.
Qed.

Lemma apply_updates_some us k : forall d, is_Some (d !! k) -> is_Some (apply_updates us d !! k).
Proof.
  induction us as [|u us IH]; intros d Hd; [done|]. apply (IH (alter u.2 (dv, u.1) d)).
  destruct (decide ((dv, u.1) = k)) as [<-|]; [rewrite lookup_alter_eq; by apply fmap_is_Some|by rewrite lookup_alter_ne].
Qed.

Lemma same_files_mono L L' n n' d d' : l_start L' = l_start L -> (n' <= n)%nat ->
  same_files dv L' n' d d' -> same_files dv L n d d'.
Proof.
  intros Hst Hn H k Hk Hl. apply H.
  - unfold hdr_key in *. by rewrite Hst.
  - intros (i & Hi & ->)%elem_log_keys. apply Hl, elem_log_keys. exists i. split; [lia|].
    unfold log_key. by rewrite Hst.
Qed.

(** What is logged after the updates of an operation. *)
Lemma logged_txn s L us hd rc : let d0 := disk_img (dev s) in
  let L' := (log_after us (set_l_outstanding 1 L, 0%nat)).1 in
  let n' := (log_after us (set_l_outstanding 1 L, 0%nat)).2 in
  logging E h p s dv L' n' (apply_updates us d0) rc ->
  length (l_block L) = 30%nat -> log_layout L us -> us <> [] -> (length us <= 29)%nat ->
  (forall u, u ∈ us -> is_Some (d0 !! (dv, u.1))) ->
  (forall i, (i < 29)%nat -> is_Some (d0 !! log_key dv L i)) -> d0 !! hdr_key dv L = Some hd ->
  (n' <= length us)%nat /\ l_start L' = l_start L /\ l_outstanding L' = 1 /\ l_committing L' = l_committing L /\
  exists ds, txn E h p s dv L' n' (apply_updates us d0) rc ds hd.
Proof.
  intros d0 L' n' G Hbl Hlay Hne Hlen Hus Hlog Hhd. pose proof Hlay as (Hl1 & Hl2 & Hl3).
  destruct (log_after_spec us (set_l_outstanding 1 L) 0) as (H1 & H2 & H3 & H4 & H5 & H6); [done|lia| |].
  { intros u Hu. destruct (Hl3 u Hu). lia. }
  fold L' n' in H1, H2, H3, H4, H5, H6. cbn in H1, H2, H3.
  assert (Hk : forall k, k ∈ home_keys dv L' n' -> exists u, u ∈ us /\ k = (dv, u.1)).
  { intros k [Hin|?]%H6; [by apply elem_home_keys in Hin as (? & ? & _); lia|done]. }
  split_and!; [lia|done|done|done|]. apply (txn_of_logging s L' n' _ rc hd G); [by apply H5| | | |].
  - apply (layout_geom L us); [done|done|lia|apply G|done].
  - intros k [(i & Hi & ->)%elem_log_keys|(u & Hu & ->)%Hk]%elem_of_app; [|by apply Hus].
    unfold log_key. rewrite H1. apply Hlog. lia.
  - intros i Hi. apply apply_updates_some. destruct (Hk (home_key dv L' i)) as (u & Hu & ->); [|by apply Hus].
    apply elem_home_keys. by exists i.
  - unfold hdr_key. by rewrite H1.
Qed.

Section whole.
Context (s : kstate) (L : logst) (us : updates) (hd : block) (Hq : quiet s L) (Hlay : log_layout L us).
Let d0 := disk_img (dev s).
Context (Hne : us <> []) (Hlen : (length us <= 29)%nat).
Context (Hus : forall u, u ∈ us -> is_Some (d0 !! (dv, u.1))).
Context (Hlog : forall i, (i < 29)%nat -> is_Some (d0 !! log_key dv L i)) (Hhd : d0 !! hdr_key dv L = Some hd).

(** begin_op, the updates and end_op: everything is written by the commit. *)
Lemma runE_operation (Q : unit -> kstate -> Prop) :
  (forall s1 L' n' rc ds s', dev s1 = dev s -> (n' <= length us)%nat -> l_start L' = l_start L ->
     txn E h p s1 dv L' n' (apply_updates us d0) rc ds hd ->
     (forall k, apply_updates us d0 !! k <> d0 !! k -> k ∈ home_keys dv L' n') ->
     dev s' = wr_dev (commit_writes dv L' n' ds hd) (dev s) ->
     hold E h p s' (wr_ct (commit_writes dv L' n' ds hd) (apply_updates us d0)) (unpin_all (home_keys dv L' n') rc) [] [] ->
     log_at dv s' = set_l_n 0 (set_l_outstanding 0 L') -> Q tt s') ->
  runE E (begin_op dv ;; run_updates us ;; end_op dv) s Q.
Proof.
  intros HQ. wp. eapply runE_begin_op; [exact Hq|]. intros s1 G1 Hd1 _. wp.
  eapply (runE_updates us s1 _ _ _ _ _ G1); [cbn; lia| |].
  { intros u Hu. destruct Hlay as (_ & _ & Hl). destruct (Hl u Hu) as [Hb _]. split_and!; [|lia|lia|by apply Hus].
    intros [= _ ?]. lia. }
  intros s2 rc G2 Hd2.
  assert (Hi2 : disk_img (dev s2) = d0) by (unfold d0; by rewrite Hd2, Hd1).
  pose proof (logged_txn s2 L us hd rc) as HT. cbv zeta in HT. rewrite Hi2 in HT.
  destruct HT as (Hn' & Hst & Hout & Hcom & ds & T); try done; [apply Hq|].
  eapply (runE_end_op s2 _ _ _ _ ds hd _ T); [done|rewrite Hcom; apply Hq|].
  intros s3 Hd3 H3 HL3 _ _ _. eapply (HQ s2); try done; [congruence| |].
  - intros k Hk. apply (lg_dirty _ _ _ _ _ _ _ _ _ G2). by rewrite Hi2.
  - rewrite Hd3. by rewrite Hd2, Hd1.
Qed.
End whole.
End operation.

End Transaction.
