(* ===== verification/VirtioRefine.v ===== *)
(** * The virtio driver moves blocks (kernel/virtio_disk.c)

    The device is a parameter: [BlockDevice] states what the virtio
    specification promises of it, that it serves the one request the driver
    has made available.  While the requesting process sleeps, the hart runs
    the scheduler, the device and virtio_disk_intr ([env]); other processes
    do not run.  In that environment virtio_disk_rw satisfies the interface
    the buffer cache uses ([Disk.DiskEnv]), for both directions. *)

From S2P Require Import Prelude Bytes CString KState Spinlock Kernel Riscv Kalloc Vm Sched Console Virtio Disk.

Module VirtioRefine.
Import Vm Sched Console Virtio Disk.

(** ** The device *)

(** Disk [n] has been given exactly one request: a header at [a], the data of
    buffer [b] and a status byte, in descriptors [i], [j] and [k]. *)
Record request (n : nat) (s : kstate) (i j k : nat) (a : Z) (b : nat) (flags : Z) : Prop := {
  rq_idx : v_avail_idx (disk_at n s) = u16 (v_used_id (disk_at n s) + 1);
  rq_head : v_avail (disk_at n s) !! Z.to_nat (v_used_id (disk_at n s) mod NUM) = Some (Z.of_nat i);
  rq_0 : v_desc (disk_at n s) !! i = Some (mkDesc (DPhys a) 16 VRING_DESC_F_NEXT (Z.of_nat j));
  rq_1 : v_desc (disk_at n s) !! j = Some (mkDesc (DData b) BSIZE flags (Z.of_nat k));
  rq_2 : v_desc (disk_at n s) !! k = Some (mkDesc (DStatus i) 1 VRING_DESC_F_WRITE 0)
}.

(** The device reports the request of descriptor [i] as done. *)
Definition completed (i : nat) (d : vdisk) : vdisk :=
  set_v_used_id (u16 (v_used_id d + 1))
    (set_v_used (<[Z.to_nat (v_used_id d mod NUM) := Z.of_nat i]> (v_used d))
      (set_v_info_status (<[i := 0]> (v_info_status d)) d)).

Class BlockDevice (device : nat -> kstate -> kstate -> Prop) := {
  device_in : forall n s i j k a b bn data,
    request n s i j k a b (Z.lor VRING_DESC_F_WRITE VRING_DESC_F_NEXT) ->
    ld32 (mm s) a = VIRTIO_BLK_T_IN -> ld64 (mm s) (a + 8) = 2 * bn ->
    disk_img (dev s) !! (n, bn) = Some data ->
    (exists s', device n s s') /\
    forall s', device n s s' ->
      s' = set_disk_at n (completed i (disk_at n s)) (set_buf_at b (set_b_data data (buf_at b s)) s);
  device_out : forall n s i j k a b bn,
    request n s i j k a b VRING_DESC_F_NEXT ->
    ld32 (mm s) a = VIRTIO_BLK_T_OUT -> ld64 (mm s) (a + 8) = 2 * bn ->
    is_Some (disk_img (dev s) !! (n, bn)) ->
    (exists s', device n s s') /\
    forall s', device n s s' ->
      s' = set_disk_at n (completed i (disk_at n s))
             (set_dev (write_dev (n, bn) (b_data (buf_at b s)) (dev s)) s)
}.

(** ** The environment of a sleeping process *)

(** The scheduler after the process it ran switched back to it. *)
Definition leave (p : nat) : K unit :=
  modify (fun s => set_the_cpu (set_c_proc None (the_cpu s)) s) ;;
  modify (fun s => set_the_cpu (set_c_intena false (the_cpu s)) s) ;;
  release (LProc p).

(** The scheduler choosing process [p]. *)
Definition enter (p : nat) : K unit :=
  acquire (LProc p) ;;
  st <- gets (fun s => p_state (proc_at p s)) ;;
  if bool_decide (st = RUNNABLE) then
    upd_proc p (set_p_state RUNNING) ;;
    modify (fun s => set_the_cpu (set_c_proc (Some p) (the_cpu s)) s)
  else stuck "not runnable".

Definition env (device : nat -> kstate -> kstate -> Prop) (s s' : kstate) : Prop :=
  exists p b s1 s2,
    c_proc (the_cpu s) = Some p /\ p_chan (proc_at p s) = Some (ChBuf b) /\
    leave p s = Ok tt s1 /\
    device (b_dev (buf_at b s1)) s1 s2 /\
    (virtio_disk_intr (b_dev (buf_at b s1)) ;; enter p) s2 = Ok tt s'.

(** ** Disks at rest *)

Record idle (d : vdisk) : Prop := {
  id_free : v_free d = replicate 8 true;
  id_desc : length (v_desc d) = 8%nat;
  id_avail : length (v_avail d) = 8%nat;
  id_used : length (v_used d) = 8%nat;
  id_info : length (v_info_b d) = 8%nat;
  id_status : length (v_info_status d) = 8%nat;
  id_range : 0 <= v_used_id d < 2 ^ 16;
  id_idx : v_avail_idx d = v_used_id d;
  id_seen : v_used_idx d = v_used_id d mod NUM
}.

Section states.
Context (n : nat) (s : kstate) (Hn : (n < length (vdisks s))%nat).

Lemma disk_at_set d : disk_at n (set_disk_at n d s) = d.
Proof. unfold disk_at, set_disk_at. cbn. by apply list_lookup_total_insert_eq. Qed.
Lemma set_disk_at_twice d d' : set_disk_at n d (set_disk_at n d' s) = set_disk_at n d s.
Proof. unfold set_disk_at, set_vdisks. cbn. by rewrite list_insert_insert_eq. Qed.
Lemma set_disk_at_id : set_disk_at n (disk_at n s) s = s.
Proof.
  unfold set_disk_at, disk_at. rewrite list_insert_id by (by apply list_lookup_lookup_total_lt). by destruct s.
Qed.
End states.

Lemma v_free_set l d : v_free (set_v_free l d) = l.
Proof. done. Qed.
Lemma v_free_set_set l l' d : set_v_free l (set_v_free l' d) = set_v_free l d.
Proof. done. Qed.

Lemma set_mmio_id d : set_mmio (mmio d) d = d.
Proof. by destruct d. Qed.
Lemma set_dev_id s : set_dev (dev s) s = s.
Proof. by destruct s. Qed.

(** Three descriptors of an idle disk: the first three. *)
Lemma alloc3_idle n s : (n < length (vdisks s))%nat -> v_free (disk_at n s) = replicate 8 true ->
  alloc3_desc n s = Ok (Some [0; 1; 2]%nat)
    (set_disk_at n (set_v_free (replicate 3 false ++ replicate 5 true) (disk_at n s)) s).
Proof.
  intros Hn Hf. unfold alloc3_desc, alloc_desc, upd_disk. cbn -[set_disk_at disk_at set_v_free].
  unfold bind, gets, modify, ret. cbn -[set_disk_at disk_at set_v_free]. rewrite Hf.
  repeat (cbn -[set_disk_at disk_at set_v_free];
    rewrite ?disk_at_set, ?set_disk_at_twice, ?v_free_set, ?v_free_set_set by done; try reflexivity).
Qed.


(** ** What the hart does while the process sleeps *)

Lemma run_leave h p s (Q : unit -> kstate -> Prop) :
  owns h (Some p) [LProc p] (sy s) ->
  (forall y, owns h None [] y -> Q tt (set_sy y s)) -> run (leave p) s Q.
Proof.
  intros Ho HQ. unfold leave. wp.
  pose proof (owns_set_cpu _ _ _ _ (set_c_proc None (the_cpu s)) Ho eq_refl eq_refl) as H1.
  pose proof (owns_set_intena _ _ _ _ false H1) as H2.
  eapply run_release; [exact H2|set_solver|]. intros y Hy. rewrite drop_head in Hy by set_solver.
  by apply HQ.
Qed.

Lemma run_enter h p s (Q : unit -> kstate -> Prop) :
  owns h None [] (sy s) -> (p < length (procs (pt s)))%nat -> p_state (proc_at p s) = RUNNABLE ->
  (forall y, owns h (Some p) [LProc p] y ->
     Q tt (set_sy y (set_proc_at p (set_p_state RUNNING (proc_at p s)) s))) ->
  run (enter p) s Q.
Proof.
  intros Ho Hp Hst HQ. unfold enter. wp. eapply run_acquire; [exact Ho|set_solver|]. intros y Hy. wp.
  change (proc_at p (set_sy y s)) with (proc_at p s). rewrite bool_decide_eq_true_2 by done.
  unfold upd_proc. wp. change (proc_at p (set_sy y s)) with (proc_at p s).
  set (y' := Spinlock.set_the_cpu (set_c_proc (Some p) (Spinlock.the_cpu y)) y).
  assert (Hy' : owns h (Some p) [LProc p] y') by exact (owns_set_cpu _ _ _ _ (set_c_proc (Some p) _) Hy eq_refl eq_refl).
  exact (HQ y' Hy').
Qed.

(** One completion is waiting: the interrupt handler takes the buffer back
    and wakes its owner. *)
Section intr.
Context (h n : nat) (s : kstate) (d : vdisk) (b : nat) (v : buf).
Context (Hn : (n < length (vdisks s))%nat) (Hd : disk_at n s = d).
Context (Hseen : 0 <= v_used_idx d < NUM) (Hid : v_used_id d mod NUM = (v_used_idx d + 1) mod NUM).
Context (Hused : v_used d !! Z.to_nat (v_used_idx d) = Some 0).
Context (Hst : v_info_status d !! 0%nat = Some 0) (Hb : v_info_b d !! 0%nat = Some (Some b)).
Context (Hbuf : buf_at b s = v).

Lemma run_virtio_disk_intr (Q : unit -> kstate -> Prop) :
  owns h None [] (sy s) -> length (procs (pt s)) = NPROC ->
  (forall y, owns h None [] y ->
     Q tt (set_sy y (set_pt (wake_all (ChBuf b) (pt s))
            (set_disk_at n (set_v_used_idx ((v_used_idx d + 1) mod NUM) d)
              (set_buf_at b (set_b_disk false v) s))))) ->
  run (virtio_disk_intr n) s Q.
Proof.
  intros Ho Hlen HQ. unfold virtio_disk_intr. wp. eapply run_acquire; [exact Ho|set_solver|].
  intros y1 Hy1. cbn [loop]. wp. change (disk_at n (set_sy y1 s)) with (disk_at n s). rewrite Hd.
  destruct (Z.eqb_spec (v_used_idx d mod NUM) (v_used_id d mod NUM)) as [Heq|_].
  { exfalso. rewrite Hid in Heq. rewrite Z.mod_small in Heq by done.
    destruct (decide (v_used_idx d = 7)) as [H7|H7]; [rewrite H7 in Heq; done|].
    rewrite Z.mod_small in Heq; lia. }
  rewrite (list_lookup_total_correct _ _ _ Hused). change (Z.to_nat 0) with 0%nat.
  rewrite (list_lookup_total_correct _ _ _ Hst). change (negb (0 =? 0)) with false. cbv iota.
  rewrite (list_lookup_total_correct _ _ _ Hb). wp. change (buf_at b (set_sy y1 s)) with (buf_at b s). rewrite Hbuf.
  eapply run_wakeup; [exact Hy1|intros i; set_solver|done|]. intros y2 Hy2. unfold upd_disk. wp.
  set (s2 := set_sy y2 _). assert (Hn2 : (n < length (vdisks s2))%nat) by done.
  change (disk_at n s2) with (disk_at n s). rewrite Hd.
  rewrite disk_at_set by done. cbn [v_used_idx v_used_id set_v_used_idx].
  rewrite Z.mod_mod, Hid, Z.eqb_refl by done. wp.
  eapply run_release; [exact Hy2|set_solver|]. intros y3 Hy3. rewrite drop_head in Hy3 by set_solver.
  exact (HQ y3 Hy3).
Qed.
End intr.

Lemma run_ex {St A} (m : M St A) s Q : run m s Q -> exists a s', m s = Ok a s'.
Proof. unfold run. destruct (m s); by eauto. Qed.
Lemma run_Ok {St A} (m : M St A) s Q a s' : run m s Q -> m s = Ok a s' -> Q a s'.
Proof. unfold run. intros H Hm. by rewrite Hm in H. Qed.

Lemma pt_sim_insert t p q : (p < length (procs t))%nat -> proc_core q = proc_core (procs t !!! p) ->
  pt_sim t (set_procs (<[p := q]> (procs t)) t).
Proof.
  intros Hp Hq. split; [|done]. cbn. rewrite list_fmap_insert, Hq, list_insert_id; [done|].
  rewrite list_lookup_fmap, list_lookup_lookup_total_lt by done. done.
Qed.

Section wait.
Context (device : nat -> kstate -> kstate -> Prop) (h p : nat).
Context (n : nat) (s : kstate) (d : vdisk) (b : nat) (v v' : buf) (dv' : devst).
Context (Hn : (n < length (vdisks s))%nat) (Hd : disk_at n s = d).
Context (Hbuf : bufs s !! b = Some v) (Hbn : b_dev v = n) (Hbn' : b_dev v' = n).
Context (Hseen : 0 <= v_used_idx d < NUM) (Hid : v_used_id d mod NUM = v_used_idx d).
Context (Hul : length (v_used d) = 8%nat) (Hsl : length (v_info_status d) = 8%nat).
Context (Hb : v_info_b d !! 0%nat = Some (Some b)).
Context (Hp : (p < NPROC)%nat) (Hlen : length (procs (pt s)) = NPROC).
Context (Hserve : forall y t, let s1 := set_sy y (set_pt t s) in
  (exists s2, device n s1 s2) /\
  forall s2, device n s1 s2 ->
    s2 = set_disk_at n (completed 0 d) (set_bufs (<[b := v']> (bufs s)) (set_dev dv' s1))).

(** The disk after the interrupt handler has seen the completion. *)
Definition seen (d : vdisk) : vdisk := set_v_used_idx ((v_used_idx d + 1) mod NUM) (completed 0 d).

Definition waited (y : sync) (t : ptable) : kstate :=
  set_sy y (set_pt t (set_disk_at n (seen d)
    (set_bufs (<[b := set_b_disk false v']> (bufs s)) (set_dev dv' s)))).

Let t0 := set_procs (<[p := set_p_state SLEEPING (set_p_chan (Some (ChBuf b)) (proc_at p s))]> (procs (pt s))) (pt s).
Let t1 := wake_all (ChBuf b) t0.
Let t2 := set_procs (<[p := set_p_state RUNNING (procs t1 !!! p)]> (procs t1)) t1.

Lemma completed_mod : u16 (v_used_id d + 1) mod NUM = (v_used_idx d + 1) mod NUM.
Proof.
  unfold u16. change (2 ^ 16) with (8192 * NUM). rewrite Z.mod_mod_divide by (by exists 8192).
  rewrite <-Hid. by rewrite Zplus_mod_idemp_l.
Qed.

Lemma t1_p : p_state (procs t1 !!! p) = RUNNABLE.
Proof.
  unfold t1. cbn. rewrite list_lookup_total_alt, list_lookup_fmap, list_lookup_insert_eq by lia. cbn.
  unfold woken. cbn. rewrite !bool_decide_eq_true_2 by done. done.
Qed.

Lemma handler_state y1 y2 :
  let s2 := set_disk_at n (completed 0 d) (set_bufs (<[b := v']> (bufs s)) (set_dev dv' (set_sy y1 (set_pt t0 s)))) in
  set_sy y2 (set_pt (wake_all (ChBuf b) (pt s2))
    (set_disk_at n (set_v_used_idx ((v_used_idx (completed 0 d) + 1) mod NUM) (completed 0 d))
      (set_buf_at b (set_b_disk false v') s2))) = waited y2 t1.
Proof.
  unfold waited, set_disk_at, set_buf_at. cbn [vdisks bufs set_vdisks set_bufs set_dev set_sy set_pt].
  rewrite !list_insert_insert_eq. reflexivity.
Qed.

Lemma env_handler y1 (Q : unit -> kstate -> Prop) : owns h None [] y1 ->
  (forall y, owns h (Some p) [LProc p] y -> Q tt (waited y t2)) ->
  run (virtio_disk_intr n ;; enter p)
    (set_disk_at n (completed 0 d) (set_bufs (<[b := v']> (bufs s)) (set_dev dv' (set_sy y1 (set_pt t0 s))))) Q.
Proof.
  intros Hy1 HQ. set (s2 := set_disk_at n _ _). apply run_bind.
  assert (Hblt : (b < length (bufs s))%nat) by (by eapply lookup_lt_Some).
  eapply (run_virtio_disk_intr h n s2 (completed 0 d) b v'); try done.
  - cbn. by rewrite length_insert.
  - unfold s2. by apply (disk_at_set n (set_bufs _ (set_dev dv' (set_sy y1 (set_pt t0 s))))).
  - cbn. by rewrite completed_mod.
  - cbn [completed v_used set_v_used set_v_used_id v_used_idx]. rewrite Hid, list_lookup_insert_eq; [done|lia].
  - cbn. rewrite list_lookup_insert_eq; [done|lia].
  - unfold buf_at, s2. cbn. by rewrite list_lookup_total_insert_eq.
  - cbn. by rewrite length_insert.
  - intros y2 Hy2. unfold s2. rewrite handler_state. eapply run_enter; [exact Hy2| | |].
    + cbn. rewrite length_fmap, length_insert. lia.
    + unfold proc_at. cbn [pt waited set_sy set_pt]. by rewrite t1_p.
    + intros y3 Hy3. exact (HQ y3 Hy3).
Qed.

Lemma t2_sim : pt_sim (pt s) t2.
Proof.
  assert (Hp0 : (p < length (procs t0))%nat) by (cbn; rewrite length_insert; lia).
  transitivity t0; [apply pt_sim_insert; [lia|done]|].
  transitivity t1; [apply pt_sim_wake|]. apply pt_sim_insert; [|done].
  unfold t1. cbn -[t0]. by rewrite length_fmap.
Qed.

(** A process that waits for its buffer is resumed once, with the transfer
    done and the buffer handed back. *)
Lemma env_wait y : owns h (Some p) [LProc p] y ->
  let s1 := set_sy y (set_proc_at p (set_p_state SLEEPING (set_p_chan (Some (ChBuf b)) (proc_at p s))) s) in
  (exists s', env device s1 s') /\
  forall s', env device s1 s' -> exists y' t', owns h (Some p) [LProc p] y' /\ pt_sim (pt s) t' /\ s' = waited y' t'.
Proof.
  intros Hy s1. change s1 with (set_sy y (set_pt t0 s)).
  assert (Hleave : run (leave p) (set_sy y (set_pt t0 s))
    (fun _ s' => exists y1, owns h None [] y1 /\ s' = set_sy y1 (set_pt t0 s))).
  { eapply run_leave; [exact Hy|]. intros y1 Hy1. by exists y1. }
  assert (Hhand : forall y1, owns h None [] y1 -> run (virtio_disk_intr n ;; enter p)
    (set_disk_at n (completed 0 d) (set_bufs (<[b := v']> (bufs s)) (set_dev dv' (set_sy y1 (set_pt t0 s)))))
    (fun _ s' => exists y', owns h (Some p) [LProc p] y' /\ s' = waited y' t2)).
  { intros y1 Hy1. apply env_handler; [done|]. intros y' Hy'. by exists y'. }
  assert (Hdev : forall y1, b_dev (buf_at b (set_sy y1 (set_pt t0 s))) = n).
  { intros y1. unfold buf_at. cbn. by rewrite (list_lookup_total_correct _ _ _ Hbuf). }
  assert (Hchan : forall b', p_chan (proc_at p (set_sy y (set_pt t0 s))) = Some (ChBuf b') -> b' = b).
  { intros b'. unfold proc_at. cbn. rewrite list_lookup_total_insert_eq by lia. by intros [= ->]. }
  split.
  - destruct (run_ex _ _ _ Hleave) as ([] & s1' & H1).
    destruct (run_Ok _ _ _ _ _ Hleave H1) as (y1 & Hy1 & ->).
    destruct (Hserve y1 t0) as [[s2 H2] Hall]. pose proof (Hall s2 H2) as ->.
    destruct (run_ex _ _ _ (Hhand y1 Hy1)) as ([] & s' & H3).
    exists s', p, b, (set_sy y1 (set_pt t0 s)), (set_disk_at n (completed 0 d) (set_bufs (<[b := v']> (bufs s)) (set_dev dv' (set_sy y1 (set_pt t0 s))))).
    rewrite Hdev. split_and!; try done; [apply Hy|].
    unfold proc_at. cbn. by rewrite list_lookup_total_insert_eq by lia.
  - intros s' (p' & b' & s1' & s2 & Hc & Hch & H1 & H2 & H3).
    assert (p' = p) as ->. { pose proof (own_proc _ _ _ _ Hy) as Hp'. unfold the_cpu in Hc. cbn in Hc. congruence. }
    apply Hchan in Hch as ->. destruct (run_Ok _ _ _ _ _ Hleave H1) as (y1 & Hy1 & ->).
    rewrite Hdev in *. destruct (Hserve y1 t0) as [_ Hall]. apply Hall in H2 as ->.
    destruct (run_Ok _ _ _ _ _ (Hhand y1 Hy1) H3) as (y' & Hy' & ->). exists y', t2.
    split_and!; [done|apply t2_sim|done].
Qed.
End wait.

(** ** Freeing the descriptors *)

Definition freed (i : nat) (d : vdisk) : vdisk :=
  set_v_free (<[i := true]> (v_free d)) (set_v_desc (<[i := set_d_addr DNull (v_desc d !!! i)]> (v_desc d)) d).

Section free.
Context (h p n : nat).

Lemma run_free_desc i s d (Q : unit -> kstate -> Prop) :
  owns h (Some p) [LVdisk n] (sy s) -> length (procs (pt s)) = NPROC -> (n < length (vdisks s))%nat ->
  disk_at n s = d -> (i < 8)%nat -> v_free d !!! i = false ->
  (forall y, owns h (Some p) [LVdisk n] y ->
     Q tt (set_sy y (set_pt (wake_all (ChDiskFree n) (pt s)) (set_disk_at n (freed i d) s)))) ->
  run (free_desc n i) s Q.
Proof.
  intros Ho Hlen Hn Hd Hi Hf HQ. unfold free_desc. destruct (Nat.leb_spec 8 i); [lia|]. wp.
  rewrite Hd, Hf. unfold upd_disk. wp. rewrite Hd, disk_at_set, set_disk_at_twice by done.
  eapply run_wakeup; [exact Ho|intros j; set_solver|done|]. intros y Hy. exact (HQ y Hy).
Qed.

(** A chain of three descriptors. *)
Lemma run_free_chain s d a0 l0 a1 l1 fl a2 l2 (Q : unit -> kstate -> Prop) :
  owns h (Some p) [LVdisk n] (sy s) -> length (procs (pt s)) = NPROC -> (n < length (vdisks s))%nat ->
  disk_at n s = d -> v_free d = replicate 3 false ++ replicate 5 true -> length (v_desc d) = 8%nat ->
  v_desc d !! 0%nat = Some (mkDesc a0 l0 VRING_DESC_F_NEXT 1) ->
  v_desc d !! 1%nat = Some (mkDesc a1 l1 fl 2) -> Z.land fl VRING_DESC_F_NEXT <> 0 ->
  v_desc d !! 2%nat = Some (mkDesc a2 l2 VRING_DESC_F_WRITE 0) ->
  (forall y t, owns h (Some p) [LVdisk n] y -> pt_sim (pt s) t ->
     Q tt (set_sy y (set_pt t (set_disk_at n (freed 2 (freed 1 (freed 0 d))) s)))) ->
  run (free_chain n 0) s Q.
Proof.
  intros Ho Hlen Hn Hd Hf Hdl H0 H1 Hfl H2 HQ. unfold free_chain. cbn [loop]. wp.
  eapply run_free_desc; [exact Ho|done|done|exact Hd|lia|by rewrite Hf|]. intros y1 Hy1.
  set (s1 := set_sy y1 _). wp.
  assert (Hd1 : disk_at n s1 = freed 0 d) by exact (disk_at_set n s Hn _). rewrite Hd1.
  cbn [freed v_desc set_v_free set_v_desc]. rewrite list_lookup_total_insert_eq by lia.
  rewrite (list_lookup_total_correct _ _ _ H0). cbn [d_flags d_next set_d_addr]. change (negb (Z.land VRING_DESC_F_NEXT VRING_DESC_F_NEXT =? 0)) with true. cbv iota. wp.
  eapply (run_free_desc 1 s1); [exact Hy1| | |exact Hd1|lia| |].
  { cbn. by rewrite length_fmap. } { cbn. by rewrite length_insert. }
  { cbn. by rewrite Hf. }
  intros y2 Hy2. set (s2 := set_sy y2 _). wp.
  assert (Hd2 : disk_at n s2 = freed 1 (freed 0 d)) by (apply (disk_at_set n s1); cbn; by rewrite length_insert).
  rewrite Hd2. cbn [freed v_desc set_v_free set_v_desc]. rewrite list_lookup_total_insert_eq by (rewrite length_insert; lia).
  rewrite list_lookup_total_insert_ne by done. rewrite (list_lookup_total_correct _ _ _ H1). cbn [d_flags d_next set_d_addr].
  destruct (Z.eqb_spec (Z.land fl VRING_DESC_F_NEXT) 0); [done|]. cbn [negb]. wp.
  eapply (run_free_desc 2 s2); [exact Hy2| | |exact Hd2|lia| |].
  { cbn. by rewrite !length_fmap. } { cbn. by rewrite !length_insert. }
  { cbn. by rewrite Hf. }
  intros y3 Hy3. set (s3 := set_sy y3 _). wp.
  assert (Hd3 : disk_at n s3 = freed 2 (freed 1 (freed 0 d))) by (apply (disk_at_set n s2); cbn; by rewrite !length_insert).
  rewrite Hd3. cbn [freed v_desc set_v_free set_v_desc]. rewrite list_lookup_total_insert_eq by (rewrite !length_insert; lia).
  rewrite !list_lookup_total_insert_ne by done. rewrite (list_lookup_total_correct _ _ _ H2). cbn [d_flags d_next set_d_addr].
  change (negb (Z.land VRING_DESC_F_WRITE VRING_DESC_F_NEXT =? 0)) with false. cbv iota. wp.
  match goal with |- Q tt s3 => idtac end.
  replace s3 with (set_sy y3 (set_pt (pt s3) (set_disk_at n (freed 2 (freed 1 (freed 0 d))) s))).
  - apply HQ; [done|]. etransitivity; [apply pt_sim_wake|]. etransitivity; [apply pt_sim_wake|]. apply pt_sim_wake.
  - unfold s3, s2, s1, set_disk_at. cbn [vdisks set_vdisks set_sy set_pt]. by rewrite !list_insert_insert_eq.
Qed.
End free.

(** ** virtio_disk_rw *)

(** The request header in memory. *)
Lemma outhdr_type m t x sector : 0 <= t < 2 ^ 32 -> ld32 (store_outhdr x t sector m) x = t.
Proof.
  intros Ht. unfold store_outhdr, ld32, st32, st64. rewrite !ldn_stn_ne by lia.
  rewrite ldn_stn_eq by done. by apply Z.mod_small.
Qed.
Lemma outhdr_sector m t x sector : 0 <= sector < 2 ^ 64 -> ld64 (store_outhdr x t sector m) (x + 8) = sector.
Proof.
  intros Hs. unfold store_outhdr, ld64, st64. rewrite ldn_stn_eq by done. by apply Z.mod_small.
Qed.
Lemma outhdr_getb m t x sector c : ~ x <= c < x + 16 -> getb (store_outhdr x t sector m) c = getb m c.
Proof. intros Hc. unfold store_outhdr, st32, st64. rewrite !getb_stn_ne by lia. done. Qed.
Lemma sector_blockno bn : 0 <= bn < 2 ^ 31 -> u32 (bn * 2) = 2 * bn.
Proof. intros. rewrite u32_small; lia. Qed.

Section rw.
(** [A p]: where the request header of process [p] is in physical memory. *)
Context (device : nat -> kstate -> kstate -> Prop) `{HD : !BlockDevice device} (A : nat -> Z).
(** [W]: memory that holds neither the kernel page table nor the headers. *)
Context (W : Z -> Prop).

Definition header (a : Z) : Prop := exists p, A p <= a < A p + 16.

Record driver_ready (p : nat) (s : kstate) : Prop := {
  rd_procs : length (procs (pt s)) = NPROC;
  rd_p : (p < NPROC)%nat;
  rd_stack : forall s', kernel_pagetable s' = kernel_pagetable s ->
    (forall a, ~ header a -> ~ W a -> getb (mm s') a = getb (mm s) a) ->
    kvmpa (p_kstack (proc_at p s) + buf0_offset) s' = Ok (A p) s';
  rd_disks : forall n bn, is_Some (disk_img (dev s) !! (n, bn)) ->
    (n < length (vdisks s))%nat /\ idle (disk_at n s) /\ 0 <= bn < 2 ^ 31 /\
    mmio (dev s) !! R n VIRTIO_MMIO_QUEUE_NOTIFY = Some 0
}.

(** The rings once the request for buffer [b] is available. *)
Definition submitted (a : Z) (b : nat) (write : bool) (d : vdisk) : vdisk :=
  mkVdisk
    (<[2%nat := mkDesc (DStatus 0) 1 VRING_DESC_F_WRITE 0]>
      (<[1%nat := mkDesc (DData b) BSIZE (Z.lor (if write then 0 else VRING_DESC_F_WRITE) VRING_DESC_F_NEXT) 2]>
        (<[0%nat := mkDesc (DPhys a) 16 VRING_DESC_F_NEXT 1]> (v_desc d))))
    (u16 (v_avail_idx d + 1)) (<[Z.to_nat (v_avail_idx d mod NUM) := 0]> (v_avail d))
    (v_used_id d) (v_used d) (replicate 3 false ++ replicate 5 true) (v_used_idx d)
    (<[0%nat := Some b]> (v_info_b d)) (<[0%nat := 0]> (v_info_status d)) (v_init d).

Section one.
Context (h p : nat) (s : kstate) (b : nat) (v : buf) (write : bool).
Let n := b_dev v.
Context (Ho : owns h (Some p) [] (sy s)) (Hr : driver_ready p s).
Context (Hv : bufs s !! b = Some v) (Hdk : is_Some (disk_img (dev s) !! (n, b_blockno v))).
Let a := A p.
Let d := disk_at n s.

Definition submitted_state (y : sync) : kstate :=
  set_sy y (set_mm (store_outhdr a (if write then VIRTIO_BLK_T_OUT else VIRTIO_BLK_T_IN) (u32 (b_blockno v * 2)) (mm s))
    (set_disk_at n (submitted a b write d) (set_bufs (<[b := set_b_disk true v]> (bufs s)) s))).

(** States during the submission. *)
Definition G (y : sync) (m : mem) (d : vdisk) (bs : list buf) : kstate :=
  set_sy y (set_mm m (set_disk_at n d (set_bufs bs s))).

Lemma G_mm y m m' d' bs : set_mm m' (G y m d' bs) = G y m' d' bs.
Proof. done. Qed.
Lemma G_disk y m d' bs : (n < length (vdisks s))%nat -> disk_at n (G y m d' bs) = d'.
Proof. intros. by apply (disk_at_set n (set_bufs bs s)). Qed.
Lemma G_set_disk y m d' d2 bs : set_disk_at n d2 (G y m d' bs) = G y m d2 bs.
Proof. unfold G, set_disk_at. cbn [vdisks set_vdisks set_bufs set_mm set_sy]. by rewrite list_insert_insert_eq. Qed.
Lemma G_buf y m d' bs w : bs !! b = Some w -> buf_at b (G y m d' bs) = w.
Proof. intros. by apply list_lookup_total_correct. Qed.
Lemma G_set_buf y m d' bs w : set_buf_at b w (G y m d' bs) = G y m d' (<[b := w]> bs).
Proof. done. Qed.
Lemma G_notify y m d' bs : mmio (dev s) !! R n VIRTIO_MMIO_QUEUE_NOTIFY = Some 0 ->
  set_dev (set_mmio (<[R n VIRTIO_MMIO_QUEUE_NOTIFY := 0]> (mmio (dev (G y m d' bs)))) (dev (G y m d' bs)))
    (G y m d' bs) = G y m d' bs.
Proof.
  intros Hm. change (mmio (dev (G y m d' bs))) with (mmio (dev s)). rewrite insert_id by done.
  change (mmio (dev s)) with (mmio (dev (G y m d' bs))). by rewrite set_mmio_id, set_dev_id.
Qed.

Lemma runE_rw_submit (Q : unit -> kstate -> Prop) E :
  (forall y, owns h (Some p) [LVdisk n] y ->
     runE E (loop wait_fuel (fun _ =>
               d <- gets (fun s => b_disk (buf_at b s)) ;;
               if (d : bool) then sleep (ChBuf b) (LVdisk n) ;; ret (inl tt) else ret (inr tt)) tt ;;
             modify (fun s => set_disk_at n (set_v_info_b
               (<[0%nat := None]> (v_info_b (disk_at n s))) (disk_at n s)) s) ;;
             free_chain n 0 ;;
             release (LVdisk n)) (submitted_state y) Q) ->
  runE E (virtio_disk_rw n b write) s Q.
Proof.
  intros HQ. destruct Hr as [Hlen Hp Hstk Hdks]. destruct (Hdks _ _ Hdk) as (Hn & Hid & Hbn & Hmm).
  unfold virtio_disk_rw. wp. unfold buf_at at 1. rewrite (list_lookup_total_correct _ _ _ Hv).
  eapply run_runE, run_acquire; [exact Ho|apply not_elem_of_nil|]. intros y1 Hy1.
  unfold wait_fuel at 1. cbn [loop]. wp. unfold runE at 1. rewrite alloc3_idle; [|done|apply Hid]. cbn [outcomeE]. wp.
  cbn [lookup_total list_lookup_total].
  eapply run_runE, run_myproc'; [exact Hy1|]. intros y2 Hy2. wp.
  unfold runE at 1.
  rewrite Hstk; [|done|done]. cbn [outcomeE].
  change (set_sy y2 _) with (G y2 (mm s) (set_v_free (replicate 3 false ++ replicate 5 true) d) (bufs s)).
  unfold set_desc, upd_disk, mmio_write.
  do 7 (apply runE_bind, runE_modify; cbv beta;
    repeat first [rewrite G_mm | rewrite G_disk by done | rewrite G_set_disk
                 | rewrite G_set_buf | erewrite G_buf by exact Hv]).
  apply runE_bind, runE_gets. cbv beta. rewrite G_disk by done.
  do 2 (apply runE_bind, runE_modify; cbv beta; rewrite G_disk, G_set_disk by done).
  apply runE_bind, runE_modify. cbv beta. rewrite G_notify by done.
  exact (HQ y2 Hy2).
Qed.
Lemma submitted_request y y1 t : (n < length (vdisks s))%nat -> idle d ->
  request n (set_sy y1 (set_pt t (submitted_state y))) 0 1 2 a b
    (Z.lor (if write then 0 else VRING_DESC_F_WRITE) VRING_DESC_F_NEXT).
Proof.
  intros Hn Hid. assert (Hd1 : disk_at n (set_sy y1 (set_pt t (submitted_state y))) = submitted a b write d)
    by (unfold disk_at; cbn; by apply list_lookup_total_insert_eq).
  split; rewrite Hd1; cbn [submitted v_avail_idx v_used_id v_avail v_desc].
  - by rewrite (id_idx _ Hid).
  - rewrite (id_idx _ Hid), list_lookup_insert_eq; [done|]. rewrite (id_avail _ Hid).
    pose proof (Z.mod_pos_bound (v_used_id d) NUM). lia.
  - rewrite !list_lookup_insert_ne by done. apply list_lookup_insert_eq. rewrite (id_desc _ Hid). lia.
  - rewrite list_lookup_insert_ne by done. apply list_lookup_insert_eq. rewrite length_insert, (id_desc _ Hid). lia.
  - apply list_lookup_insert_eq. rewrite !length_insert, (id_desc _ Hid). lia.
Qed.

(** The states the device leaves, in the form of the waiting lemma. *)
Lemma served_read y y1 t data : (n < length (vdisks s))%nat -> (b < length (bufs s))%nat ->
  let s1 := set_sy y1 (set_pt t (submitted_state y)) in
  set_disk_at n (completed 0 (disk_at n s1)) (set_buf_at b (set_b_data data (buf_at b s1)) s1) =
  set_disk_at n (completed 0 (submitted a b write d))
    (set_bufs (<[b := set_b_data data (set_b_disk true v)]> (<[b := set_b_disk true v]> (bufs s))) (set_dev (dev s) s1)).
Proof.
  intros Hn Hb s1. assert (Hd1 : disk_at n s1 = submitted a b write d)
    by (unfold disk_at; cbn; by apply list_lookup_total_insert_eq).
  assert (Hb1 : buf_at b s1 = set_b_disk true v) by (unfold buf_at; cbn; by apply list_lookup_total_insert_eq).
  rewrite Hd1, Hb1. reflexivity.
Qed.

Lemma served_write y y1 t dv' : (n < length (vdisks s))%nat -> (b < length (bufs s))%nat ->
  let s1 := set_sy y1 (set_pt t (submitted_state y)) in
  dv' = write_dev (n, b_blockno v) (b_data v) (dev s) ->
  set_disk_at n (completed 0 (disk_at n s1)) (set_dev (write_dev (n, b_blockno v) (b_data (buf_at b s1)) (dev s1)) s1) =
  set_disk_at n (completed 0 (submitted a b write d))
    (set_bufs (<[b := set_b_disk true v]> (<[b := set_b_disk true v]> (bufs s))) (set_dev dv' s1)).
Proof.
  intros Hn Hb s1 ->. assert (Hd1 : disk_at n s1 = submitted a b write d)
    by (unfold disk_at; cbn; by apply list_lookup_total_insert_eq).
  assert (Hb1 : buf_at b s1 = set_b_disk true v) by (unfold buf_at; cbn; by apply list_lookup_total_insert_eq).
  rewrite Hd1, Hb1, list_insert_insert_eq. reflexivity.
Qed.

Context (v' : buf) (dv' : devst).
Context (Hdom : dom (disk_img dv') = dom (disk_img (dev s))) (Hmmio : mmio dv' = mmio (dev s)).
Context (Hv'n : b_dev v' = n).
Context (Hserve : forall y y1 t, let s1 := set_sy y1 (set_pt t (submitted_state y)) in
  (exists s2, device n s1 s2) /\
  forall s2, device n s1 s2 ->
    s2 = set_disk_at n (completed 0 (submitted a b write d))
           (set_bufs (<[b := v']> (<[b := set_b_disk true v]> (bufs s))) (set_dev dv' s1))).

(** The disk after the whole access. *)
Definition finished : vdisk :=
  let d := seen (submitted a b write d) in
  freed 2 (freed 1 (freed 0 (set_v_info_b (<[0%nat := None]> (v_info_b d)) d))).

Definition final (y : sync) (t : ptable) : kstate :=
  io_upd y (store_outhdr a (if write then VIRTIO_BLK_T_OUT else VIRTIO_BLK_T_IN) (u32 (b_blockno v * 2)) (mm s))
    t (<[n := finished]> (vdisks s)) (<[b := set_b_disk false v']> (bufs s)) dv' s.

Lemma idle_finished : idle d -> idle finished.
Proof.
  intros [H1 H2 H3 H4 H5 H6 H7 H8 H9]. unfold finished. split; try (cbn; rewrite !length_insert; done).
  - done.
  - cbn. unfold u16. apply Z.mod_pos_bound. lia.
  - cbn. by rewrite H8.
  - cbn. symmetry. by apply completed_mod.
Qed.

Lemma ready_final y t : pt_sim (pt s) t -> driver_ready p (final y t).
Proof.
  intros Ht. destruct Hr as [Hlen Hp Hstk Hdks]. split.
  - cbn. by rewrite <-(pt_sim_length _ _ Ht).
  - done.
  - intros s' Hk Hm. replace (p_kstack (proc_at p (final y t))) with (p_kstack (proc_at p s))
      by exact (f_equal p_kstack (pt_sim_proc _ _ p Ht)).
    apply Hstk; [done|]. intros a' Ha' HW. rewrite Hm by done.
    apply outhdr_getb. intros Hin. apply Ha'. by exists p.
  - intros n' bn Hs. assert (Hs' : is_Some (disk_img (dev s) !! (n', bn))).
    { apply elem_of_dom. rewrite <-Hdom. by apply elem_of_dom. }
    destruct (Hdks n' bn Hs') as (Hn & Hid & Hbn & Hmm). split_and!; try lia.
    + cbn. by rewrite length_insert.
    + unfold disk_at. cbn. destruct (decide (n' = n)) as [->|Hne].
      * rewrite list_lookup_total_insert_eq by done. by apply idle_finished.
      * by rewrite list_lookup_total_insert_ne.
    + cbn. by rewrite Hmmio.
Qed.

(** After the process was woken: return the descriptors and the lock. *)
Lemma run_rw_finish y t (Q : unit -> kstate -> Prop) :
  owns h (Some p) [LVdisk n] y -> pt_sim (pt s) t -> (n < length (vdisks s))%nat -> idle d ->
  length (procs (pt s)) = NPROC ->
  (forall y t, owns h (Some p) [] y -> pt_sim (pt s) t -> Q tt (final y t)) ->
  run (modify (fun s => set_disk_at n (set_v_info_b
         (<[0%nat := None]> (v_info_b (disk_at n s))) (disk_at n s)) s) ;;
       free_chain n 0 ;;
       release (LVdisk n))
    (io_upd y (store_outhdr a (if write then VIRTIO_BLK_T_OUT else VIRTIO_BLK_T_IN) (u32 (b_blockno v * 2)) (mm s))
       t (<[n := seen (submitted a b write d)]> (vdisks s)) (<[b := set_b_disk false v']> (bufs s)) dv' s) Q.
Proof.
  intros Hy Ht Hn Hid Hlen HQ. set (m := store_outhdr _ _ _ _). set (bs := <[b := _]> _).
  set (s1 := io_upd _ _ _ _ _ _ _). wp.
  assert (Hd1 : disk_at n s1 = seen (submitted a b write d)) by (by apply list_lookup_total_insert_eq).
  rewrite Hd1. set (d1 := set_v_info_b _ _).
  eapply (run_free_chain h p n _ d1); [exact Hy| | |apply disk_at_set|..]; try done.
  - cbn. by rewrite <-(pt_sim_length _ _ Ht).
  - cbn. by rewrite !length_insert.
  - cbn. by rewrite length_insert.
  - cbn. rewrite !length_insert. apply Hid.
  - cbn. rewrite !list_lookup_insert_ne by done. rewrite list_lookup_insert_eq; [done|]. rewrite (id_desc _ Hid). lia.
  - cbn. rewrite list_lookup_insert_ne by done. rewrite list_lookup_insert_eq; [done|].
    rewrite length_insert, (id_desc _ Hid). lia.
  - by destruct write.
  - cbn. rewrite list_lookup_insert_eq; [done|]. rewrite !length_insert, (id_desc _ Hid). lia.
  - intros y2 t2 Hy2 Ht2. eapply run_release; [exact Hy2|set_solver|]. intros y3 Hy3.
    rewrite drop_head in Hy3 by set_solver.
    match goal with |- Q tt ?x => replace x with (final y3 t2) end.
    + apply HQ; [done|]. by transitivity t.
    + unfold final, set_disk_at, s1. cbn [vdisks set_vdisks set_sy set_pt io_upd].
      rewrite !list_insert_insert_eq. reflexivity.
Qed.

Lemma runE_rw :
  runE (env device) (virtio_disk_rw n b write) s (fun _ s' => exists y t,
    owns h (Some p) [] y /\ pt_sim (pt s) t /\ s' = final y t).
Proof.
  destruct Hr as [Hlen Hp Hstk Hdks]. destruct (Hdks _ _ Hdk) as (Hn & Hid & Hbn & Hmm).
  assert (Hblt : (b < length (bufs s))%nat) by (by eapply lookup_lt_Some).
  apply runE_rw_submit. intros y Hy. set (s1 := submitted_state y). set (d1 := submitted a b write d).
  apply runE_bind. change wait_fuel with (S (S 1022)). cbn [loop]. wp.
  assert (Hb1 : buf_at b s1 = set_b_disk true v) by (unfold buf_at; cbn; by apply list_lookup_total_insert_eq).
  rewrite Hb1. cbn [b_disk set_b_disk]. wp.
  assert (Hd1 : disk_at n s1 = d1) by (unfold disk_at; cbn; by apply list_lookup_total_insert_eq).
  eapply (runE_sleep _ h p); [exact Hy|done|change (pt s1) with (pt s); by rewrite Hlen|]. intros y2 Hy2.
  destruct (env_wait device h p n s1 d1 b (set_b_disk true v) v' dv') with (y := y2) as [Hex Hall]; try done.
  - cbn. by rewrite length_insert.
  - cbn. by apply list_lookup_insert_eq.
  - change (v_used_idx d1) with (v_used_idx (disk_at n s)). rewrite (id_seen _ Hid). apply Z.mod_pos_bound. lia.
  - symmetry. apply Hid.
  - apply Hid.
  - unfold d1. cbn [submitted v_info_status]. rewrite length_insert. apply Hid.
  - unfold d1. cbn [submitted v_info_b]. apply list_lookup_insert_eq. unfold d. rewrite (id_info _ Hid). lia.
  - intros y3 t3. exact (Hserve y y3 t3).
  - split; [exact Hex|]. intros s' HE. destruct (Hall s' HE) as (y3 & t3 & Hy3 & Ht3 & ->). clear Hex Hall HE.
    split; [exact Hy3|]. intros y4 Hy4. wp.
    set (t4 := set_procs (<[p := set_p_chan None (procs t3 !!! p)]> (procs t3)) t3).
    match goal with |- runE _ _ ?x _ => replace x with
      (io_upd y4 (store_outhdr a (if write then VIRTIO_BLK_T_OUT else VIRTIO_BLK_T_IN) (u32 (b_blockno v * 2)) (mm s))
         t4 (<[n := seen d1]> (vdisks s)) (<[b := set_b_disk false v']> (bufs s)) dv' s) end.
    2: { unfold io_upd, waited, s1, submitted_state, set_disk_at. cbn. rewrite !list_insert_insert_eq. reflexivity. }
    unfold buf_at. cbn [bufs io_upd]. rewrite list_lookup_total_insert_eq by done. cbn [b_disk set_b_disk].
    do 2 (apply runE_ret; cbv beta iota). apply run_runE, run_rw_finish; try done.
    + transitivity t3; [done|]. apply pt_sim_insert; [|done]. rewrite <-(pt_sim_length _ _ Ht3). change (pt s1) with (pt s). lia.
    + intros y5 t5 Hy5 Ht5. exists y5, t5. done.
Qed.

End one.


(** The driver discharges the interface of the file system. *)
#[global] Instance driver_DiskEnv : DiskEnv (env device).
Proof using A W HD.
  refine {| ready := driver_ready; scratch := header; buffer := W |}.
  - intros p s s' [H1 H2 H3 H4] Hm Hk Ht Hv _ Hdom Hmm Hlen. split.
    + by rewrite <-(pt_sim_length _ _ Ht).
    + done.
    + intros s2 Hk2 Hm2. replace (p_kstack (proc_at p s')) with (p_kstack (proc_at p s))
        by exact (f_equal p_kstack (pt_sim_proc _ _ p Ht)).
      apply H3; [congruence|]. intros a Ha HW. by rewrite Hm2, Hm.
    + intros n bn Hs. unfold disk_at. rewrite Hv, Hmm. apply H4. apply elem_of_dom. rewrite <-Hdom.
      by apply elem_of_dom.
  - intros h p s b v data Ho Hr Hb Hv Hd.
    destruct (rd_disks _ _ Hr _ _ (mk_is_Some _ _ Hd)) as (Hn & Hid & Hbn & Hmm).
    eapply runE_mono; [eapply (runE_rw h p s b v false Ho Hr Hv (mk_is_Some _ _ Hd)
      (set_b_data data (set_b_disk true v)) (dev s)); try done|].
    + intros y y1 t s1.
      destruct (device_in (b_dev v) s1 0 1 2 (A p) b (b_blockno v) data) as [Hex Hall]; try done.
      * by apply (submitted_request p s b v false).
      * by apply outhdr_type.
      * rewrite <-sector_blockno by done. apply outhdr_sector.
        pose proof (u32_range (b_blockno v * 2)). lia.
      * split; [done|]. intros s2 H2. rewrite (Hall s2 H2). apply served_read; [done|by eapply lookup_lt_Some].
    + intros _ s' (y & t & Hy & Ht & ->). eexists y, _, t, _. split_and!; [done|done| |reflexivity|].
      * intros a Ha. apply outhdr_getb. intros Hin. apply Ha. by exists p.
      * by apply ready_final.
  - intros h p s b v Ho Hr Hb Hv Hd.
    destruct (rd_disks _ _ Hr _ _ Hd) as (Hn & Hid & Hbn & Hmm).
    assert (Hdom : dom (disk_img (write_dev (b_dev v, b_blockno v) (b_data v) (dev s))) = dom (disk_img (dev s))).
    { cbn. rewrite dom_insert_L. apply elem_of_dom in Hd. set_solver. }
    eapply runE_mono; [eapply (runE_rw h p s b v true Ho Hr Hv Hd (set_b_disk true v)
      (write_dev (b_dev v, b_blockno v) (b_data v) (dev s))); try done|].
    + intros y y1 t s1.
      destruct (device_out (b_dev v) s1 0 1 2 (A p) b (b_blockno v)) as [Hex Hall]; try done.
      * by apply (submitted_request p s b v true).
      * by apply outhdr_type.
      * rewrite <-sector_blockno by done. apply outhdr_sector.
        pose proof (u32_range (b_blockno v * 2)). lia.
      * split; [done|]. intros s2 H2. rewrite (Hall s2 H2). apply served_write; [done|by eapply lookup_lt_Some|done].
    + intros _ s' (y & t & Hy & Ht & ->). eexists y, _, t, _. split_and!; [done|done| |reflexivity|].
      * intros a Ha. apply outhdr_getb. intros Hin. apply Ha. by exists p.
      * by apply ready_final.
Defined.
End rw.

End VirtioRefine.
