(* ===== verification/Crash.v ===== *)
(** * Crash atomicity on the virtio disk

    The theorems of Commit, stated for the driver of virtio_disk.c and any
    device that satisfies [BlockDevice], with a concrete device and a concrete
    machine on which their hypotheses hold. *)

From S2P Require Import Prelude Bytes CString KState Spinlock Kernel Riscv Machine Kalloc Vm Sched Console Virtio Disk Bio Cache Log Commit Transaction VirtioRefine.

Module Crash.
Import Vm Sched Virtio Disk Bio Cache Log Commit Transaction VirtioRefine Machine.

Section theorems.
Context (device : nat -> kstate -> kstate -> Prop) `{HD : !BlockDevice device} (A : nat -> Z) (W : Z -> Prop).
Abbreviation E := (env device).
#[local] Instance disk_env : DiskEnv E := driver_DiskEnv device A W.

(** C13 Crash atomicity of a transaction.  commit() with [n] logged blocks
    returns, and the disk then holds the new contents [ct] of every block
    outside the log.  If the machine stops after any number of its block
    writes and reboots, recover_from_log() returns and leaves, outside the
    log, either exactly the old disk or exactly the new contents, with an
    empty log header; a transaction is never half done. *)
Theorem commit_crash_atomic h p s dv L n ct rc ds hd :
  txn E h p s dv L n ct rc ds hd -> length hd = 1024%nat -> s32 (ld32 hd 0) = 0 ->
  (forall k, ct !! k <> disk_img (dev s) !! k -> k ∈ home_keys dv L n) ->
  runE E (commit dv) s (fun _ s' =>
    dev s' = wr_dev (commit_writes dv L n ds hd) (dev s) /\
    same_files dv L n (disk_img (dev s')) ct /\
    forall pre, pre `prefix_of` commit_writes dv L n ds hd -> forall h' p' s2,
      fresh_boot E h' p' dv (l_start L) s2 -> disk_img (dev s2) = wr_ct pre (disk_img (dev s)) ->
      runE E (recover_from_log dv) s2 (fun _ s3 =>
        (same_files dv L n (disk_img (dev s3)) (disk_img (dev s)) \/ same_files dv L n (disk_img (dev s3)) ct) /\
        exists hd2, disk_img (dev s3) !! hdr_key dv L = Some hd2 /\ ld32 hd2 0 = 0)).
Proof.
  intros T Hhd H0 Hdirty. eapply (runE_commit E h p s dv L n ct rc ds hd T). intros s' _ Hd _. split_and!.
  - exact Hd.
  - rewrite Hd, disk_img_wr. by eapply (commit_final E h p).
  - by apply (crash_recovers E h p s dv L n ct rc).
Qed.

(** C1 A file-system operation is atomic.  begin_op(), any sequence of at most
    29 block updates through the cache and the log, and end_op() return; the
    disk then holds exactly the updated blocks.  Writes reach the disk only in
    end_op(), and after a crash between any two of them recovery produces the
    disk with all the updates or with none. *)
Theorem operation_atomic h p s dv L us hd :
  quiet E h p dv s L -> log_layout L us -> us <> [] -> (length us <= 29)%nat ->
  (forall u, u ∈ us -> is_Some (disk_img (dev s) !! (dv, u.1))) ->
  (forall i, (i < 29)%nat -> is_Some (disk_img (dev s) !! log_key dv L i)) ->
  disk_img (dev s) !! hdr_key dv L = Some hd -> length hd = 1024%nat -> s32 (ld32 hd 0) = 0 ->
  runE E (begin_op dv ;; run_updates dv us ;; end_op dv) s (fun _ s' => exists W,
    dev s' = wr_dev W (dev s) /\
    same_files dv L 29 (disk_img (dev s')) (apply_updates dv us (disk_img (dev s))) /\
    forall pre, pre `prefix_of` W -> forall h' p' s2,
      fresh_boot E h' p' dv (l_start L) s2 -> disk_img (dev s2) = wr_ct pre (disk_img (dev s)) ->
      runE E (recover_from_log dv) s2 (fun _ s3 =>
        same_files dv L 29 (disk_img (dev s3)) (disk_img (dev s)) \/
        same_files dv L 29 (disk_img (dev s3)) (apply_updates dv us (disk_img (dev s))))).
Proof.
  intros Hq Hlay Hne Hlen Hus Hlog Hhd Hl H0.
  eapply (runE_operation E h p dv s L us hd Hq Hlay Hne Hlen Hus Hlog Hhd).
  intros s1 L' n' rc ds s' Hd1 Hn' Hst T Hdirty Hd Hh _. exists (commit_writes dv L' n' ds hd).
  assert (Hmono : forall d d', same_files dv L' n' d d' -> same_files dv L 29 d d')
    by (intros; apply (same_files_mono dv L L' 29 n'); [done|lia|done]).
  split_and!; [done| |].
  - apply Hmono. rewrite Hd, disk_img_wr. pose proof (commit_final E h p s1 dv L' n' _ rc ds hd T) as HF.
    rewrite Hd1 in HF. by apply HF.
  - intros pre Hpre h' p' s2 Hb Hd2. pose proof (crash_recovers E h p s1 dv L' n' _ rc ds hd T Hl H0) as HF.
    rewrite Hd1 in HF. eapply runE_mono.
    + eapply (HF Hdirty pre Hpre); [by rewrite Hst|exact Hd2].
    + intros _ s3 [[H|H] _]; [left|right]; by apply Hmono.
Qed.

(** The write-ahead protocol.  commit() writes, in this order, the copies
    of the logged blocks, the header that lists them, the blocks in their home
    locations and an empty header, and nothing else; it ends with the cache
    consistent, an empty in-memory header and one pin less on every block. *)
Theorem commit_protocol h p s dv L n ct rc ds hd :
  txn E h p s dv L n ct rc ds hd ->
  runE E (commit dv) s (fun _ s' =>
    disk_trace (dev s') = disk_trace (dev s) ++ ((fun w => (w.1.1, w.1.2, w.2)) <$> commit_writes dv L n ds hd) /\
    hold E h p s' (wr_ct (commit_writes dv L n ds hd) ct) (unpin_all (home_keys dv L n) rc) [] [] /\
    l_n (log_at dv s') = 0).
Proof.
  intros T. eapply (runE_commit E h p s dv L n ct rc ds hd T). intros s' Hm Hd Hh. split_and!.
  - by rewrite Hd, disk_trace_wr.
  - done.
  - rewrite (moves_log E h p dv _ _ Hm), log_at_insert; [done|]. eapply tx_dv, T.
Qed.

(** Recovery.  recover_from_log() on a disk whose header lists [n] blocks
    writes each logged copy to its home, then an empty header. *)
Theorem recover_installs h p s dv L n xs hd :
  booted E h p s dv L n xs hd ->
  runE E (recover_from_log dv) s (fun _ s' =>
    disk_trace (dev s') = disk_trace (dev s) ++
      ((fun w => (w.1.1, w.1.2, w.2)) <$> recovery_writes dv (read_log hd L) n xs hd) /\
    forall i x, xs !! i = Some x -> disk_img (dev s') !! home_key dv (read_log hd L) i = Some x).
Proof.
  intros HB. eapply (runE_recover E h p s dv L n xs hd); [exact HB|]. intros s' _ Hd _.
  split; [by rewrite Hd, disk_trace_wr|]. intros i x Hx.
  pose proof (bo_geom _ _ _ _ _ _ _ _ _ HB) as Hg. pose proof (bo_len _ _ _ _ _ _ _ _ _ HB) as Hlen.
  assert (Hi : (i < n)%nat) by (rewrite <-Hlen; by eapply lookup_lt_Some).
  rewrite Hd, disk_img_wr. unfold recovery_writes. rewrite wr_ct_snoc, lookup_insert_ne.
  - eapply wr_ct_lookup.
    + rewrite fst_zip; [by apply geom_home_nodup|]. unfold home_keys. rewrite length_fmap, length_seq. lia.
    + rewrite lookup_zip_with, lookup_home_keys, Hx by done. done.
  - intros Heq. eapply geom_hdr_home; [exact Hg|]. rewrite Heq. apply elem_home_keys. by exists i.
Qed.

(** The driver reads a block.  virtio_disk_rw(b, 0) builds the request,
    sleeps until the interrupt handler takes the buffer back, frees the
    descriptors and returns; the buffer then holds the block of the disk, and
    nothing else the file system can see has changed. *)
Theorem virtio_disk_read h p s b v data :
  owns h (Some p) [] (sy s) -> driver_ready A W p s -> (b < NBUF)%nat -> bufs s !! b = Some v ->
  disk_img (dev s) !! (b_dev v, b_blockno v) = Some data ->
  runE E (virtio_disk_rw (b_dev v) b false) s (fun _ s' => exists y m t vd,
    owns h (Some p) [] y /\ pt_sim (pt s) t /\ (forall a, ~ header A a -> getb m a = getb (mm s) a) /\
    s' = io_upd y m t vd (<[b := set_b_data data (set_b_disk false v)]> (bufs s)) (dev s) s /\
    driver_ready A W p s').
Proof. exact (@rw_read E disk_env h p s b v data). Qed.

(** C27: The driver writes a block: virtio_disk_rw(b, 1) returns with the
    contents of the buffer on the disk, as one more write of its trace. *)
Theorem virtio_disk_write h p s b v :
  owns h (Some p) [] (sy s) -> driver_ready A W p s -> (b < NBUF)%nat -> bufs s !! b = Some v ->
  is_Some (disk_img (dev s) !! (b_dev v, b_blockno v)) ->
  runE E (virtio_disk_rw (b_dev v) b true) s (fun _ s' => exists y m t vd,
    owns h (Some p) [] y /\ pt_sim (pt s) t /\ (forall a, ~ header A a -> getb m a = getb (mm s) a) /\
    s' = io_upd y m t vd (<[b := set_b_disk false v]> (bufs s))
           (write_dev (b_dev v, b_blockno v) (b_data v) (dev s)) s /\
    driver_ready A W p s').
Proof. exact (@rw_write E disk_env h p s b v). Qed.

(** C26 The buffer cache.  bread() of a block that nobody holds returns a
    buffer locked by the caller with the block's logical contents, read from
    the disk only if it is not cached; the cache stays consistent, at most
    one buffer caches a block, and no other block or holder is affected. *)
Theorem bread_correct h p s ct rc H dv bn data :
  hold E h p s ct rc [] H -> (dv, bn) <> (0%nat, 0) -> (dv, bn) ∉ (fun x => x.1.2) <$> H ->
  ct !! (dv, bn) = Some data -> (size rc < NBUF)%nat \/ is_Some (rc !! (dv, bn)) ->
  default 0 (rc !! (dv, bn)) + 1 < 2 ^ 32 ->
  runE E (bread dv bn) s (fun b s' => moves E h p s s' /\ dev s' = dev s /\
    hold E h p s' ct (set_rc (dv, bn) (default 0 (rc !! (dv, bn)) + 1) rc) [] ((b, (dv, bn), data) :: H)).
Proof. intros Hh Hk Hnin Hct Hsz Hc. by eapply (hold_bread E h p s ct rc H). Qed.

(** log_write().  The block held in [b] becomes part of the transaction:
    if it is listed already the header is unchanged, otherwise it is appended
    and pinned; its new contents are what later reads of the block return. *)
Theorem log_write_correct h p s ct rc dv bn b data H L n :
  let k := (dv, bn) in
  hold E h p s ct rc [] ((b, k, data) :: H) -> k <> (0%nat, 0) -> log_at dv s = L ->
  (dv < length (logs s))%nat -> length (l_block L) = 30%nat -> l_n L = Z.of_nat n ->
  0 < default 0 (rc !! k) < 2 ^ 32 - 1 -> 0 <= bn < 2 ^ 32 -> (n < 30)%nat ->
  Z.of_nat n < l_size L - 1 -> 1 <= l_outstanding L ->
  runE E (log_write b) s (fun _ s' =>
    (home_keys dv (log_at dv s') (Z.to_nat (l_n (log_at dv s'))) =
       if bool_decide (k ∈ home_keys dv L n) then home_keys dv L n else home_keys dv L n ++ [k]) /\
    hold E h p s' (<[k := data]> ct)
      (if bool_decide (k ∈ home_keys dv L n) then rc else set_rc k (default 0 (rc !! k) + 1) rc) [] ((b, k, data) :: H) /\
    dev s' = dev s).
Proof.
  intros k Hh Hk HL Hdv Hbl Hn Hc Hbn Hn30 Hsz Hout.
  eapply (runE_log_write E h p s ct rc dv bn b data H L n); try done. intros s' Hh' Hd Hl _.
  assert (HL' : log_at dv s' = logged_in L n bn) by (unfold log_at; rewrite Hl; by apply list_lookup_total_insert_eq).
  assert (Hln : Z.to_nat (l_n (logged_in L n bn)) = logged_n L n bn) by (unfold logged_n, logged_in; cbn; case_match; lia).
  rewrite HL', Hln, home_keys_logged by done.
  pose proof (absorbed_iff dv L n bn Hbl Hn30) as Ha. fold k in Ha.
  destruct (absorb_index 0 n (l_block L) bn =? n)%nat, (bool_decide (k ∈ home_keys dv L n)); done.
Qed.

(** C40 Recovery drops references it never took.  The loop that recovery
    shares with commit() unpins every block it installs, although only
    log_write() pins: after recover_from_log() the reference count of each
    installed block has wrapped to 2^32 - 1. *)
Theorem recover_refcnt_underflow h p s dv L n xs hd i :
  booted E h p s dv L n xs hd -> (i < n)%nat ->
  runE E (recover_from_log dv) s (fun _ s' => exists b v,
    buf_is (bufs s') b v /\ bk v = home_key dv (read_log hd L) i /\ b_refcnt v = 2 ^ 32 - 1).
Proof.
  intros HB Hi. eapply (runE_recover E h p s dv L n xs hd); [exact HB|]. intros s' _ _ Hh.
  pose proof (bo_geom _ _ _ _ _ _ _ _ _ HB) as Hg. pose proof (ho_cache _ _ _ _ _ _ _ _ Hh) as HC.
  assert (Hrc : unpin_all (home_keys dv (read_log hd L) n) ∅ !! home_key dv (read_log hd L) i = Some (2 ^ 32 - 1)).
  { apply unpin_unpinned; [by apply geom_home_nodup|apply elem_home_keys; by exists i|apply lookup_empty]. }
  destruct (ca_pos _ _ _ _ HC _ _ Hrc) as (_ & _ & b & v & Hv & Hk). exists b, v. split_and!; [done|done|].
  by rewrite (ca_rc _ _ _ _ HC b v Hv), Hk, Hrc.
Qed.
End theorems.

(** ** A concrete device *)

(** Serve the request at the head of the available ring. *)
Definition serve (n : nat) (s : kstate) : option kstate :=
  let d := disk_at n s in
  i ← v_avail d !! Z.to_nat (v_used_id d mod NUM);
  d0 ← v_desc d !! Z.to_nat i;
  d1 ← v_desc d !! Z.to_nat (d_next d0);
  match d_addr d0, d_addr d1 with
  | DPhys a, DData b =>
      let k := (n, ld64 (mm s) (a + 8) / 2) in
      if ld32 (mm s) a =? VIRTIO_BLK_T_OUT then
        Some (set_disk_at n (completed (Z.to_nat i) d) (set_dev (write_dev k (b_data (buf_at b s)) (dev s)) s))
      else
        data ← disk_img (dev s) !! k;
        Some (set_disk_at n (completed (Z.to_nat i) d) (set_buf_at b (set_b_data data (buf_at b s)) s))
  | _, _ => None
  end.
Definition simple_disk (n : nat) (s s' : kstate) : Prop := serve n s = Some s'.

#[export] Instance simple_disk_ok : BlockDevice simple_disk.
Proof.
  assert (Hhalf : forall bn, 2 * bn / 2 = bn) by (intros; rewrite Z.mul_comm; by apply Z.div_mul).
  split; unfold simple_disk, serve.
  - intros n s i j k a b bn data [_ Hh H0 H1 _] Ht Hs Hd. rewrite Hh. cbn. rewrite Nat2Z.id, H0. cbn.
    rewrite Nat2Z.id, H1. cbn. rewrite Ht, Hs, Hhalf, Hd. cbn. split; [by eauto|]. by intros s' [= <-].
  - intros n s i j k a b bn [_ Hh H0 H1 _] Ht Hs Hd. rewrite Hh. cbn. rewrite Nat2Z.id, H0. cbn.
    rewrite Nat2Z.id, H1. cbn. rewrite Ht, Hs, Hhalf. cbn. split; [by eauto|]. by intros s' [= <-].
Qed.

(** ** A concrete machine

    The kernel page table maps the stack of process 0 to the page at
    0x80103000; disk 1 has a log at block 2, and a transaction that changes
    block 40 is ready. *)

Definition KPT : Z := KERNBASE + 1048576.
Definition stack_va : Z := KSTACK 0 + buf0_offset.
Definition stack_page : Z := KPT + 3 * PGSIZE.
Definition hdr_addr (p : nat) : Z := stack_page + buf0_offset.
Definition file_buffer (a : Z) : Prop := stack_page + PGSIZE <= a.
Definition pte_addr (l : Z) : Z := KPT + (2 - l) * PGSIZE + 8 * PX l stack_va.

Definition disk_mem : mem :=
  st64 (st64 (st64 (∅ : mem) (pte_addr 2) (Z.lor (PA2PTE (KPT + PGSIZE)) PTE_V))
    (pte_addr 1) (Z.lor (PA2PTE (KPT + 2 * PGSIZE)) PTE_V))
    (pte_addr 0) (Z.lor (PA2PTE stack_page) (Z.lor PTE_V (Z.lor PTE_R PTE_W))).

Definition zero_block : block := replicate 1024 0.
Definition new_block : block := replicate 1024 7.
Definition disk0 : disk :=
  list_to_map [((1%nat, 2), zero_block); ((1%nat, 3), zero_block); ((1%nat, 40), zero_block)].
Definition dev0 (d : disk) : devst :=
  mkDev d [] (list_to_map [(R 0 VIRTIO_MMIO_QUEUE_NOTIFY, 0); (R 1 VIRTIO_MMIO_QUEUE_NOTIFY, 0)]).

(** Just booted, with the log of disk 1 at block 2. *)
Definition boot_machine (d : disk) : kstate :=
  set_mm disk_mem (set_kernel_pagetable KPT (set_dev (dev0 d) machine)).

Definition dirty_buf : buf :=
  mkBuf true false 1 40 (mkSleep false 0) 1 1 30 new_block.
Definition txn_log : logst := mkLog 2 30 0 true 1 1 (<[0%nat := 40]> (replicate 30 0)).
Definition txn_machine : kstate :=
  set_bufs (<[0%nat := dirty_buf]> (bufs machine))
    (set_logs [log0; txn_log] (boot_machine disk0)).

Lemma stack_ready s' : kernel_pagetable s' = KPT ->
  (forall a, ~ header hdr_addr a -> ~ file_buffer a -> getb (mm s') a = getb disk_mem a) ->
  kvmpa stack_va s' = Ok (hdr_addr 0) s'.
Proof.
  intros Hk Hm.
  assert (Hpte : forall l, l = 0 \/ l = 1 \/ l = 2 -> ld64 (mm s') (pte_addr l) = ld64 disk_mem (pte_addr l)).
  { intros l Hl. apply ldn_ext. intros b Hb. assert (Hr : pte_addr l + 8 <= stack_page) by (destruct Hl as [->|[->| ->]]; vm_compute; discriminate).
    apply Hm; [intros [p Hp]; unfold hdr_addr, buf0_offset in Hp; lia|unfold file_buffer; lia]. }
  unfold kvmpa, walk, load64, bind, gets, ret. cbn [bind_outcome]. rewrite Hk.
  change (MAXVA <=? stack_va) with false. cbn [loop bind_outcome]. unfold bind, gets, ret. cbn [bind_outcome].
  change (0 <? 2) with true. cbv iota. cbn [bind_outcome].
  change (KPT + 8 * PX 2 stack_va) with (pte_addr 2). rewrite Hpte by auto.
  replace (ld64 disk_mem (pte_addr 2)) with (Z.lor (PA2PTE (KPT + PGSIZE)) PTE_V) by (vm_compute; reflexivity).
  change (pte_has (Z.lor (PA2PTE (KPT + PGSIZE)) PTE_V) PTE_V) with true. cbv iota. cbn [bind_outcome].
  change (0 <? 2 - 1) with true. cbv iota. cbn [bind_outcome].
  change (PTE2PA (Z.lor (PA2PTE (KPT + PGSIZE)) PTE_V) + 8 * PX (2 - 1) stack_va) with (pte_addr 1).
  rewrite Hpte by auto.
  replace (ld64 disk_mem (pte_addr 1)) with (Z.lor (PA2PTE (KPT + 2 * PGSIZE)) PTE_V) by (vm_compute; reflexivity).
  change (pte_has (Z.lor (PA2PTE (KPT + 2 * PGSIZE)) PTE_V) PTE_V) with true. cbv iota. cbn [bind_outcome].
  change (0 <? 2 - 1 - 1) with false. cbv iota. cbn [bind_outcome].
  change (PTE2PA (Z.lor (PA2PTE (KPT + 2 * PGSIZE)) PTE_V) + 8 * PX 0 stack_va) with (pte_addr 0).
  change (pte_addr 0 =? 0) with false. cbv iota. cbn [bind_outcome]. rewrite Hpte by auto.
  replace (ld64 disk_mem (pte_addr 0)) with (Z.lor (PA2PTE stack_page) (Z.lor PTE_V (Z.lor PTE_R PTE_W)))
    by (vm_compute; reflexivity).
  change (negb (pte_has _ PTE_V)) with false. cbv iota. reflexivity.
Qed.

Lemma idle_vdisk0 : idle vdisk0.
Proof. split; cbn; try done; lia. Qed.

(** Every block is a block of one of the two disks, below 2^31. *)
Definition small_disk (d : disk) : Prop := forall n bn, is_Some (d !! (n, bn)) -> (n < 2)%nat /\ 0 <= bn < 2 ^ 31.

Lemma small_disk0 : small_disk disk0.
Proof.
  intros n bn [x Hx]. unfold disk0 in Hx. apply elem_of_list_to_map_2 in Hx.
  rewrite !elem_of_cons, elem_of_nil in Hx. naive_solver lia.
Qed.

Lemma machine_ready s d : (forall a, ~ file_buffer a -> getb (mm s) a = getb disk_mem a) -> kernel_pagetable s = KPT -> length (procs (pt s)) = NPROC -> p_kstack (proc_at 0 s) = p_kstack (proc_at 0 machine) ->
  vdisks s = vdisks machine -> dev s = dev0 d -> small_disk d -> driver_ready hdr_addr file_buffer 0 s.
Proof.
  intros Hm Hk Hl Hp Hv Hd Hs. split.
  - done.
  - lia.
  - intros s' Hk' Hm'. rewrite Hp. apply stack_ready; [by rewrite Hk'|].
    intros a Ha HW. by rewrite Hm', Hm by done.
  - intros n bn Hn. rewrite Hd in Hn. apply Hs in Hn as [Hn Hbn]. unfold disk_at. rewrite Hv, Hd.
    destruct n as [|[|n]]; [..|lia]; (split_and!; [cbn; lia|apply idle_vdisk0|lia..|by vm_compute]).
Qed.

#[local] Instance machine_disk : DiskEnv (env simple_disk) := driver_DiskEnv simple_disk hdr_addr file_buffer.

Lemma ring_machine bs : length bs = 31%nat ->
  (forall i, (i < 31)%nat -> b_next (bs !!! i) = b_next (buf0 i) /\ b_prev (bs !!! i) = b_prev (buf0 i)) ->
  ring bs (rev (seq 0 30)).
Proof.
  intros Hlen H. assert (H1 : forall i, (i < 31)%nat -> b_next (bs !!! i) = b_next (buf0 i)) by (intros; by apply H).
  assert (H2 : forall i, (i < 31)%nat -> b_prev (bs !!! i) = b_prev (buf0 i)) by (intros; by apply H).
  split; [symmetry; apply Permutation_rev|..].
  - unfold nx, bhead. cbn. rewrite !H1 by lia. repeat split.
  - unfold pv, bhead. cbn. rewrite !H2 by lia. repeat split.
Qed.

Lemma lookup_buf0 b v : (buf0 <$> seq 0 31) !! b = Some v -> v = buf0 b.
Proof. rewrite list_lookup_fmap. intros (i & Hi & ->)%fmap_Some. by apply lookup_seq in Hi as [-> _]. Qed.

Lemma cache_boot d : cache (bufs machine) d d ∅.
Proof.
  split.
  - done.
  - exists (rev (seq 0 30)). apply ring_machine; [done|]. intros i Hi.
    destruct (lookup_lt_is_Some_2 (bufs machine) i) as [v Hv]; [done|].
    rewrite (list_lookup_total_correct _ _ _ Hv). by apply lookup_buf0 in Hv as ->.
  - intros b b' v v' [_ Hv%lookup_buf0] _ _ Hk. by subst v.
  - intros b v [_ Hv%lookup_buf0]. subst v. by rewrite lookup_empty.
  - intros k c Hk. by rewrite lookup_empty in Hk.
  - intros b v [_ Hv%lookup_buf0]. by subst v.
  - done.
Qed.

(** The empty cache of a machine that has just booted. *)
Lemma machine_hold s d : sy s = sy machine -> bufs s = bufs machine -> (forall a, ~ file_buffer a -> getb (mm s) a = getb disk_mem a) -> kernel_pagetable s = KPT ->
  length (procs (pt s)) = NPROC -> p_kstack (proc_at 0 s) = p_kstack (proc_at 0 machine) -> vdisks s = vdisks machine -> dev s = dev0 d -> small_disk d -> hold (env simple_disk) 0 0 s d ∅ [] [].
Proof.
  intros Hsy Hb Hm Hk Hl Hp Hv Hd Hs. split; rewrite ?Hb.
  - split; [rewrite Hsy; apply owns_machine| |done]. by apply (machine_ready _ d).
  - rewrite Hd. apply cache_boot.
  - intros b v [_ Hv'%lookup_buf0] _ _. by subst v.
  - intros b k x Hin. by apply elem_of_nil in Hin.
  - intros k _ b v [_ Hv'%lookup_buf0] _. by subst v.
  - constructor.
Qed.

Lemma boot_hold d : small_disk d -> hold (env simple_disk) 0 0 (boot_machine d) d ∅ [] [].
Proof. by apply machine_hold. Qed.

(** The cache with one dirty, pinned block. *)
Definition txn_ct : disk := <[(1%nat, 40) := new_block]> disk0.
Definition txn_rc : gmap bkey Z := {[ (1%nat, 40) := 1 ]}.

Lemma lookup_txn_buf b v : bufs txn_machine !! b = Some v -> b = 0%nat /\ v = dirty_buf \/ b <> 0%nat /\ v = buf0 b.
Proof.
  destruct (decide (b = 0%nat)) as [->|Hb].
  - intros [= <-]. auto.
  - cbn [txn_machine bufs set_bufs]. rewrite list_lookup_insert_ne by done. intros ->%lookup_buf0. auto.
Qed.

Lemma cache_txn : cache (bufs txn_machine) disk0 txn_ct txn_rc.
Proof.
  split.
  - done.
  - exists (rev (seq 0 30)). apply ring_machine; [done|]. intros i Hi.
    destruct (lookup_lt_is_Some_2 (bufs txn_machine) i) as [v Hv]; [done|].
    rewrite (list_lookup_total_correct _ _ _ Hv). by apply lookup_txn_buf in Hv as [[-> ->]|[_ ->]].
  - intros b b' v v' [_ [[-> ->]|[? ->]]%lookup_txn_buf] [_ [[-> ->]|[? ->]]%lookup_txn_buf]; by auto.
  - intros b v [_ [[-> ->]|[? ->]]%lookup_txn_buf]; vm_compute; done.
  - intros k c Hk. unfold txn_rc in Hk. apply lookup_singleton_Some in Hk as [<- <-]. split; [lia|]. split; [done|]. exists 0%nat, dirty_buf.
    split; [split; [lia|done]|done].
  - intros b v [_ [[-> ->]|[? ->]]%lookup_txn_buf]; [|done]. intros _ _. by vm_compute.
  - intros k Hk. destruct (decide (k = (1%nat, 40))) as [->|Hne].
    + exists 0%nat, dirty_buf. split; [split; [lia|done]|]. split; [done|]. split; [done|]. cbn. lia.
    + unfold txn_ct in Hk. by rewrite lookup_insert_ne in Hk.
Qed.

Lemma txn_hold : hold (env simple_disk) 0 0 txn_machine txn_ct txn_rc [] [].
Proof.
  split.
  - split; [apply owns_machine| |done]. apply (machine_ready _ disk0); try done. apply small_disk0.
  - apply cache_txn.
  - intros b v [_ [[-> ->]|[? ->]]%lookup_txn_buf] _; done.
  - intros b k x Hin. by apply elem_of_nil in Hin.
  - intros k _ b v [_ [[-> ->]|[? ->]]%lookup_txn_buf] _; done.
  - constructor.
Qed.

Lemma txn_ready : txn (env simple_disk) 0 0 txn_machine 1 txn_log 1 txn_ct txn_rc [new_block] zero_block.
Proof.
  split; [apply txn_hold|done|cbn; lia|done|lia|..].
  - split; [|lia]. apply (bool_decide_unpack _). by vm_compute.
  - intros k Hk. cbn in Hk. apply elem_of_cons in Hk as [->|Hk]; [by eexists|].
    apply list_elem_of_singleton in Hk as ->. by eexists.
  - intros i Hi. assert (i = 0%nat) as -> by lia. by vm_compute.
  - intros i Hi. assert (i = 0%nat) as -> by lia. by vm_compute.
  - unfold txn_rc. rewrite map_size_singleton. lia.
  - done.
  - intros [|i] x [= <-]. by vm_compute.
  - by vm_compute.
  - by vm_compute.
Qed.

Lemma txn_dirty k : txn_ct !! k <> disk_img (dev txn_machine) !! k -> k ∈ home_keys 1 txn_log 1.
Proof.
  intros Hk. destruct (decide (k = (1%nat, 40))) as [->|Hne].
  - apply elem_home_keys. exists 0%nat. split; [lia|done].
  - unfold txn_ct in Hk. by rewrite lookup_insert_ne in Hk.
Qed.

(** After a crash that hit the first home write. *)
Definition crash_disk : disk := wr_ct (logged 1 txn_log 1 [new_block] zero_block) disk0.

Lemma small_crash_disk : small_disk crash_disk.
Proof.
  intros n bn Hs. apply small_disk0. apply elem_of_dom. apply elem_of_dom in Hs.
  replace (dom disk0) with (dom crash_disk); [done|]. by vm_compute.
Qed.

Lemma boot_fresh d : small_disk d -> fresh_boot (env simple_disk) 0 0 1 2 (boot_machine d).
Proof. intros Hs. split; [by apply boot_hold|cbn; lia|done|done]. Qed.

(** The example transaction: committed, and recovered from a crash in the
    middle of the installation. *)
Lemma commit_crash_atomic_witness :
  runE (env simple_disk) (commit 1) txn_machine (fun _ s' =>
    disk_img (dev s') !! (1%nat, 40) = Some new_block /\
    runE (env simple_disk) (recover_from_log 1) (boot_machine crash_disk) (fun _ s3 =>
      disk_img (dev s3) !! (1%nat, 40) = Some zero_block \/ disk_img (dev s3) !! (1%nat, 40) = Some new_block)).
Proof.
  eapply runE_mono.
  - apply (commit_crash_atomic simple_disk hdr_addr file_buffer 0 0 txn_machine 1 txn_log 1 txn_ct txn_rc [new_block] zero_block txn_ready);
      [done|by vm_compute|]. apply txn_dirty.
  - intros _ s' (_ & Hs & Hc). split.
    + rewrite Hs; [done|done|]. apply (bool_decide_unpack _). by vm_compute.
    + eapply runE_mono; [apply (Hc (logged 1 txn_log 1 [new_block] zero_block)) with (h' := 0%nat) (p' := 0%nat)|].
      * by eexists.
      * apply (boot_fresh crash_disk), small_crash_disk.
      * done.
      * intros _ s3 [[H|H] _]; [left|right]; (rewrite H; [done|done|apply (bool_decide_unpack _); by vm_compute]).
Defined.

Lemma commit_protocol_witness :
  runE (env simple_disk) (commit 1) txn_machine (fun _ s' =>
    disk_trace (dev s') =
      [(1%nat, 3, new_block); (1%nat, 2, put_head txn_log 1 zero_block); (1%nat, 40, new_block);
       (1%nat, 2, put_head (set_l_n 0 txn_log) 0 (put_head txn_log 1 zero_block))] /\
    l_n (log_at 1 s') = 0).
Proof.
  eapply runE_mono; [apply (commit_protocol simple_disk hdr_addr file_buffer 0 0 txn_machine 1 txn_log 1 txn_ct txn_rc
                             [new_block] zero_block txn_ready)|].
  intros _ s' (Ht & _ & Hn). split; [exact Ht|exact Hn].
Defined.

(** A disk of 40 blocks; the operation fills block 40. *)
Definition disk40 : disk := list_to_map ((fun i => ((1%nat, Z.of_nat i), zero_block)) <$> seq 1 40).

Lemma lookup_disk40 z : 1 <= z <= 40 -> disk40 !! (1%nat, z) = Some zero_block.
Proof.
  intros Hz. apply elem_of_list_to_map_1.
  - rewrite <-list_fmap_compose. apply NoDup_fmap_2_strong; [|apply NoDup_seq].
    intros i j _ _ [= Heq]. lia.
  - apply list_elem_of_fmap. exists (Z.to_nat z). rewrite Z2Nat.id by lia. split; [done|]. apply elem_of_seq. lia.
Qed.
Lemma small_disk40 : small_disk disk40.
Proof.
  intros n bn [x Hx]. apply elem_of_list_to_map_2, list_elem_of_fmap in Hx as (i & [= -> ->] & Hi%elem_of_seq). lia.
Qed.

Definition fill : list (Z * (block -> block)) := [(40, fun _ => new_block)].

Lemma operation_atomic_witness :
  runE (env simple_disk) (begin_op 1 ;; run_updates 1 fill ;; end_op 1) (boot_machine disk40) (fun _ s' =>
    disk_img (dev s') !! (1%nat, 40) = Some new_block).
Proof.
  eapply runE_mono.
  - apply (operation_atomic simple_disk hdr_addr file_buffer 0 0 (boot_machine disk40) 1 log0 fill zero_block).
    + split; try done; [apply boot_hold, small_disk40|cbn; lia].
    + split; [cbn; lia|]. split; [cbn; lia|]. intros u ->%list_elem_of_singleton. cbn. lia.
    + done.
    + cbn. lia.
    + intros u ->%list_elem_of_singleton. exists zero_block. apply (lookup_disk40 40). lia.
    + intros i Hi. unfold log_key. cbn [l_start log0]. rewrite u32_small by lia.
      change (disk_img (dev (boot_machine disk40))) with disk40. rewrite lookup_disk40 by lia. done.
    + apply (lookup_disk40 2). lia.
    + done.
    + by vm_compute.
  - intros _ s' (W & _ & Hs & _). rewrite Hs; [|done|apply (bool_decide_unpack _); by vm_compute].
    cbn [apply_updates fill foldl fst snd]. rewrite lookup_alter_eq.
    change (disk_img (dev (boot_machine disk40))) with disk40. by rewrite lookup_disk40 by lia.
Defined.

(** Block 40 in a buffer of the idle machine. *)
Definition buf40 : buf := mkBuf false false 1 40 (mkSleep true 1) 1 1 30 new_block.
Definition driver_machine : kstate := set_bufs (<[0%nat := buf40]> (bufs machine)) (boot_machine disk40).

Lemma driver_machine_ready : driver_ready hdr_addr file_buffer 0 driver_machine.
Proof. apply (machine_ready _ disk40); try done. apply small_disk40. Qed.

Lemma virtio_disk_read_witness :
  runE (env simple_disk) (virtio_disk_rw 1 0 false) driver_machine (fun _ s' =>
    exists v, bufs s' !! 0%nat = Some v /\ b_data v = zero_block /\ b_disk v = false).
Proof.
  eapply runE_mono.
  - apply (virtio_disk_read simple_disk hdr_addr file_buffer 0 0 driver_machine 0 buf40 zero_block);
      [apply owns_machine|apply driver_machine_ready|lia|done|apply (lookup_disk40 40); lia].
  - intros _ s' (y & m & t & vd & _ & _ & _ & -> & _). eexists. done.
Defined.

Lemma virtio_disk_write_witness :
  runE (env simple_disk) (virtio_disk_rw 1 0 true) driver_machine (fun _ s' =>
    disk_trace (dev s') = [(1%nat, 40, new_block)]).
Proof.
  eapply runE_mono.
  - apply (virtio_disk_write simple_disk hdr_addr file_buffer 0 0 driver_machine 0 buf40);
      [apply owns_machine|apply driver_machine_ready|lia|done|exists zero_block; apply (lookup_disk40 40); lia].
  - intros _ s' (y & m & t & vd & _ & _ & _ & -> & _). done.
Defined.

Lemma bread_correct_witness :
  runE (env simple_disk) (bread 1 40) (boot_machine disk40) (fun b s' => b_data (buf_at b s') = zero_block).
Proof.
  eapply runE_mono.
  - apply (bread_correct simple_disk hdr_addr file_buffer 0 0 (boot_machine disk40) disk40 ∅ [] 1 40 zero_block);
      [apply boot_hold, small_disk40|done|apply not_elem_of_nil|apply lookup_disk40; lia|left; rewrite map_size_empty; lia|by vm_compute].
  - intros b s' (_ & _ & Hh). eapply (hold_data _ _ _ s'); [exact Hh|]. apply elem_of_cons. by left.
Defined.

(** The idle machine inside an operation. *)
Definition op_machine : kstate := set_logs [log0; set_l_outstanding 1 log0] (boot_machine disk40).

Lemma op_hold : hold (env simple_disk) 0 0 op_machine disk40 ∅ [] [].
Proof. apply hold_set_logs, boot_hold, small_disk40. Qed.

Lemma log_write_correct_witness :
  runE (env simple_disk) (b <- bread 1 40 ;; log_write b) op_machine (fun _ s' =>
    home_keys 1 (log_at 1 s') (Z.to_nat (l_n (log_at 1 s'))) = [(1%nat, 40)]).
Proof.
  apply runE_bind. eapply (hold_bread (env simple_disk) 0 0 op_machine disk40 ∅ [] 1 40 zero_block);
    [apply op_hold|done|apply not_elem_of_nil|apply lookup_disk40; lia|left; rewrite map_size_empty; lia|by vm_compute|].
  intros b s' Hm Hd Hh. eapply runE_mono.
  - apply (log_write_correct simple_disk hdr_addr file_buffer 0 0 s' disk40 (set_rc (1%nat, 40) 1 ∅) 1 40 b zero_block [] (set_l_outstanding 1 log0) 0);
      try exact Hh; try done; try (cbn; lia).
    + by rewrite (moves_log _ _ _ 1 _ _ Hm).
    + rewrite (io_logs _ _ _ _ _ _ _ Hm). cbn. lia.
  - intros _ s2 (Hk & _). rewrite Hk. by vm_compute.
Defined.

(** The machine that boots from the crashed disk. *)
Lemma crash_booted :
  booted (env simple_disk) 0 0 (boot_machine crash_disk) 1 log0 1 [new_block] (put_head txn_log 1 zero_block).
Proof.
  split; [apply boot_hold, small_crash_disk|done|cbn; lia|done|done|..].
  - split; [|lia]. apply (bool_decide_unpack _). by vm_compute.
  - intros k Hk. apply (bool_decide_unpack _).
    assert (Hk' : k = (1%nat, 3) \/ k = (1%nat, 40)).
    { cbn in Hk. apply elem_of_cons in Hk as [->|Hk]; [by left|]. apply list_elem_of_singleton in Hk as ->. by right. }
    by destruct Hk' as [->| ->]; vm_compute.
  - done.
  - intros [|i] x [= <-]. done.
Qed.

Lemma recover_installs_witness :
  runE (env simple_disk) (recover_from_log 1) (boot_machine crash_disk) (fun _ s' =>
    disk_img (dev s') !! (1%nat, 40) = Some new_block).
Proof.
  eapply runE_mono; [apply (recover_installs simple_disk hdr_addr file_buffer 0 0 _ 1 log0 1 [new_block] _ crash_booted)|].
  intros _ s' [_ H]. exact (H 0%nat new_block eq_refl).
Defined.

Lemma recover_refcnt_underflow_witness :
  runE (env simple_disk) (recover_from_log 1) (boot_machine crash_disk) (fun _ s' => exists b v,
    buf_is (bufs s') b v /\ bk v = (1%nat, 40) /\ b_refcnt v = 2 ^ 32 - 1).
Proof.
  assert (H0 : (0 < 1)%nat) by lia.
  exact (recover_refcnt_underflow simple_disk hdr_addr file_buffer 0 0 _ 1 log0 1 [new_block] _ 0 crash_booted H0).
Defined.

End Crash.
