(* ===== verification/Fs.v ===== *)
(** * Blocks and inodes (kernel/fs.c, first half)

    Superblock, free-block bitmap, on-disk inodes and the in-memory inode
    cache, block mapping, and reading and writing file contents. *)

From S2P Require Import Prelude Bytes CString KState Spinlock Kernel Riscv Kalloc Vm Sched Console Virtio Bio Log.

Module Fs.
Import Sched Bio Log.

(** ** Layout (fs.h) *)

Definition IBLOCK (i : Z) (sb : superblock) : Z := u32 (i / IPB + sb_inodestart sb).
Definition BBLOCK (b : Z) (sb : superblock) : Z := u32 (b / BPB + sb_bmapstart sb).

Definition the_sb : K superblock := gets (fun s => sb (fs s)).
Definition data_of (b : nat) : K (list Z) := gets (fun s => b_data (buf_at b s)).
Definition upd_data (b : nat) (f : list Z -> list Z) : K unit :=
  modify (fun s => set_buf_at b (set_b_data (f (b_data (buf_at b s))) (buf_at b s)) s).
Definition upd_inode (ip : nat) (f : inode -> inode) : K unit :=
  modify (fun s => set_inode_at ip (f (inode_at ip s)) s).

(** ** Superblock and block allocation *)

Definition decode_sb (d : list Z) : superblock :=
  mkSb (ld32 d 0) (ld32 d 4) (ld32 d 8) (ld32 d 12) (ld32 d 16) (ld32 d 20) (ld32 d 24) (ld32 d 28).

Definition readsb (dev : nat) : K unit :=
  bp <- bread dev 1 ;;
  d <- data_of bp ;;
  modify (fun s => set_fs (set_sb (decode_sb d) (fs s)) s) ;;
  brelse bp.

Definition fsinit (dev : nat) : K unit :=
  readsb dev ;;
  sb <- the_sb ;;
  if negb (sb_magic sb =? FSMAGIC) then panic "invalid file system" else
  initlog dev sb.

Definition bzero (dev : nat) (bno : Z) : K unit :=
  bp <- bread dev bno ;;
  upd_data bp (fun d => CString.memset d 0 0 BSIZE) ;;
  log_write bp ;;
  brelse bp.

(** The inner loop of balloc: the first clear bit [bi] of the bitmap block
    that covers blocks [b], [b]+1, ... *)
Fixpoint find_clear (k : nat) (d : list Z) (bi b size : Z) : option Z :=
  match k with
  | O => None
  | S k' =>
      if b + bi <? size then
        if Z.land (getb d (bi / 8)) (Z.shiftl 1 (bi mod 8)) =? 0 then Some bi
        else find_clear k' d (bi + 1) b size
      else None
  end.

Definition balloc (dev : nat) : K Z :=
  sb <- the_sb ;;
  loop (S (S (Z.to_nat (sb_size sb / BPB)))) (fun b =>
    if b <? sb_size sb then
      bp <- bread dev (BBLOCK b sb) ;;
      d <- data_of bp ;;
      match find_clear (Z.to_nat BPB) d 0 b (sb_size sb) with
      | Some bi =>
          upd_data bp (fun d => setb d (bi / 8) (Z.lor (getb d (bi / 8)) (Z.shiftl 1 (bi mod 8)))) ;;
          log_write bp ;;
          brelse bp ;;
          bzero dev (b + bi) ;;
          ret (inr (b + bi))
      | None => brelse bp ;; ret (inl (b + BPB))
      end
    else panic "balloc: out of blocks") 0.

Definition bfree (dev : nat) (b : Z) : K unit :=
  sb <- the_sb ;;
  bp <- bread dev (BBLOCK b sb) ;;
  let bi := b mod BPB in
  let m := Z.shiftl 1 (bi mod 8) in
  d <- data_of bp ;;
  if Z.land (getb d (bi / 8)) m =? 0 then panic "freeing free block" else
  upd_data bp (fun d => setb d (bi / 8) (Z.ldiff (getb d (bi / 8)) m)) ;;
  log_write bp ;;
  brelse bp.

(** ** Inodes *)

Definition iinit : K unit :=
  initlock LIcache "icache" ;;
  iter_each (seq 0 NINODE) (fun i => initsleeplock (inode_lock i)).

(** Find the inode with number inum on device dev and return the in-memory
    copy, without locking it or reading it from disk. *)
Definition iget (dev : nat) (inum : Z) : K nat :=
  acquire LIcache ;;
  r <- loop (S NINODE) (fun '(ip, empty) =>
    if (ip <? NINODE)%nat then
      i <- gets (inode_at ip) ;;
      if (0 <? i_ref i) && (i_dev i =? dev)%nat && (i_inum i =? inum) then
        upd_inode ip (set_i_ref (i_ref i + 1)) ;;
        release LIcache ;;
        ret (inr (inl ip))
      else
        ret (inl (S ip, match empty with
                        | None => if i_ref i =? 0 then Some ip else None
                        | Some _ => empty
                        end))
    else ret (inr (inr empty))) (O, None) ;;
  match r with
  | inl ip => ret ip
  | inr None => panic "iget: no inodes"
  | inr (Some ip) =>
      upd_inode ip (set_i_dev dev) ;;
      upd_inode ip (set_i_inum inum) ;;
      upd_inode ip (set_i_ref 1) ;;
      upd_inode ip (set_i_valid false) ;;
      release LIcache ;;
      ret ip
  end.

(** struct dinode at offset [off] of a block *)
Definition dinode_off (inum : Z) : Z := 64 * (inum mod IPB).
Definition di_type (d : list Z) (off : Z) : Z := s16 (ld16 d off).
Definition di_major (d : list Z) (off : Z) : Z := s16 (ld16 d (off + 2)).
Definition di_minor (d : list Z) (off : Z) : Z := s16 (ld16 d (off + 4)).
Definition di_nlink (d : list Z) (off : Z) : Z := s16 (ld16 d (off + 6)).
Definition di_size (d : list Z) (off : Z) : Z := ld32 d (off + 8).
Definition di_addrs (d : list Z) (off : Z) : list Z :=
  map (fun i => ld32 d (off + 12 + 4 * i)) (seqZ 0 13).

Fixpoint store_addrs (d : list Z) (off : Z) (addrs : list Z) : list Z :=
  match addrs with
  | [] => d
  | a :: addrs' => store_addrs (st32 d off a) (off + 4) addrs'
  end.

Definition store_dinode (d : list Z) (off : Z) (i : inode) : list Z :=
  let d := st16 d off (i_type i) in
  let d := st16 d (off + 2) (i_major i) in
  let d := st16 d (off + 4) (i_minor i) in
  let d := st16 d (off + 6) (i_nlink i) in
  let d := st32 d (off + 8) (i_size i) in
  store_addrs d (off + 12) (i_addrs i).

Definition ialloc (dev : nat) (type : Z) : K nat :=
  sb <- the_sb ;;
  loop (S (Z.to_nat (sb_ninodes sb))) (fun inum =>
    if inum <? sb_ninodes sb then
      bp <- bread dev (IBLOCK inum sb) ;;
      d <- data_of bp ;;
      let off := dinode_off inum in
      if di_type d off =? 0 then
        upd_data bp (fun d => CString.memset d off 0 64) ;;
        upd_data bp (fun d => st16 d off type) ;;
        log_write bp ;;
        brelse bp ;;
        ip <- iget dev inum ;;
        ret (inr ip)
      else
        brelse bp ;;
        ret (inl (inum + 1))
    else panic "ialloc: no inodes") 1.

(** Copy a modified in-memory inode to disk. *)
Definition iupdate (ip : nat) : K unit :=
  sb <- the_sb ;;
  i <- gets (inode_at ip) ;;
  bp <- bread (i_dev i) (IBLOCK (i_inum i) sb) ;;
  i <- gets (inode_at ip) ;;
  upd_data bp (fun d => store_dinode d (dinode_off (i_inum i)) i) ;;
  log_write bp ;;
  brelse bp.

Definition idup (ip : nat) : K nat :=
  acquire LIcache ;;
  modify (fun s => set_inode_at ip (set_i_ref (i_ref (inode_at ip s) + 1) (inode_at ip s)) s) ;;
  release LIcache ;;
  ret ip.

Definition load_dinode (d : list Z) (off : Z) (i : inode) : inode :=
  mkInode (i_dev i) (i_inum i) (i_ref i) (i_lock i) (i_valid i)
    (di_type d off) (di_major d off) (di_minor d off) (di_nlink d off)
    (di_size d off) (di_addrs d off).

Definition ilock (ip : nat) : K unit :=
  i <- gets (inode_at ip) ;;
  if i_ref i <? 1 then panic "ilock" else
  acquiresleep (inode_lock ip) ;;
  i <- gets (inode_at ip) ;;
  if i_valid i then ret tt else
  sb <- the_sb ;;
  bp <- bread (i_dev i) (IBLOCK (i_inum i) sb) ;;
  d <- data_of bp ;;
  upd_inode ip (load_dinode d (dinode_off (i_inum i))) ;;
  brelse bp ;;
  upd_inode ip (set_i_valid true) ;;
  i <- gets (inode_at ip) ;;
  if i_type i =? 0 then panic "ilock: no type" else ret tt.

Definition iunlock (ip : nat) : K unit :=
  h <- holdingsleep (inode_lock ip) ;;
  i <- gets (inode_at ip) ;;
  if negb h || (i_ref i <? 1) then panic "iunlock" else
  releasesleep (inode_lock ip).

(** ** Contents *)

(** Return the disk block address of the nth block in inode ip, allocating
    it if there is none. *)
Definition set_addr (ip : nat) (bn addr : Z) : K unit :=
  modify (fun s => set_inode_at ip (set_i_addrs (<[Z.to_nat bn := addr]>
            (i_addrs (inode_at ip s))) (inode_at ip s)) s).

Definition bmap (ip : nat) (bn : Z) : K Z :=
  i <- gets (inode_at ip) ;;
  if bn <? NDIRECT then
    let addr := i_addrs i !!! Z.to_nat bn in
    if addr =? 0 then
      addr <- balloc (i_dev i) ;;
      set_addr ip bn addr ;;
      ret addr
    else ret addr
  else
  let bn := bn - NDIRECT in
  if bn <? NINDIRECT then
    let addr := i_addrs i !!! Z.to_nat NDIRECT in
    addr <- (if addr =? 0 then
               addr <- balloc (i_dev i) ;;
               set_addr ip NDIRECT addr ;;
               ret addr
             else ret addr) ;;
    bp <- bread (i_dev i) addr ;;
    d <- data_of bp ;;
    let addr := ld32 d (4 * bn) in
    addr <- (if addr =? 0 then
               addr <- balloc (i_dev i) ;;
               upd_data bp (fun d => st32 d (4 * bn) addr) ;;
               log_write bp ;;
               ret addr
             else ret addr) ;;
    brelse bp ;;
    ret addr
  else panic "bmap: out of range".

(** Truncate inode (discard contents). *)
Definition itrunc (ip : nat) : K unit :=
  iter_each (seqZ 0 NDIRECT) (fun n =>
    i <- gets (inode_at ip) ;;
    let addr := i_addrs i !!! Z.to_nat n in
    when (negb (addr =? 0)) (bfree (i_dev i) addr ;; set_addr ip n 0)) ;;
  i <- gets (inode_at ip) ;;
  let addr := i_addrs i !!! Z.to_nat NDIRECT in
  when (negb (addr =? 0))
    (bp <- bread (i_dev i) addr ;;
     iter_each (seqZ 0 NINDIRECT) (fun j =>
       d <- data_of bp ;;
       when (negb (ld32 d (4 * j) =? 0)) (bfree (i_dev i) (ld32 d (4 * j)))) ;;
     brelse bp ;;
     bfree (i_dev i) addr ;;
     set_addr ip NDIRECT 0) ;;
  upd_inode ip (set_i_size 0) ;;
  iupdate ip.

(** Drop a reference to an in-memory inode; the last reference to an inode
    without links frees it on disk. *)
Definition iput (ip : nat) : K unit :=
  acquire LIcache ;;
  i <- gets (inode_at ip) ;;
  when ((i_ref i =? 1) && i_valid i && (i_nlink i =? 0))
    (acquiresleep (inode_lock ip) ;;
     release LIcache ;;
     itrunc ip ;;
     upd_inode ip (set_i_type 0) ;;
     iupdate ip ;;
     upd_inode ip (set_i_valid false) ;;
     releasesleep (inode_lock ip) ;;
     acquire LIcache) ;;
  modify (fun s => set_inode_at ip (set_i_ref (i_ref (inode_at ip s) - 1) (inode_at ip s)) s) ;;
  release LIcache.

Definition iunlockput (ip : nat) : K unit := iunlock ip ;; iput ip.

(** struct stat (stat.h) *)
Record stat := mkStat {
  st_dev : Z; st_ino : Z; st_type : Z; st_nlink : Z; st_size : Z
}.

Definition stati (ip : nat) : K stat :=
  i <- gets (inode_at ip) ;;
  ret (mkStat (Z.of_nat (i_dev i)) (i_inum i) (i_type i) (i_nlink i) (i_size i)).

(** The bytes of a struct stat (24 of them, the padding zero). *)
Definition stat_bytes (st : stat) : list Z :=
  let d := replicate 24 0 in
  let d := st32 d 0 (st_dev st) in
  let d := st32 d 4 (st_ino st) in
  let d := st16 d 8 (st_type st) in
  let d := st16 d 10 (st_nlink st) in
  st64 d 16 (st_size st).

Definition readi (ip : nat) (user_dst : bool) (dst off n : Z) : K Z :=
  i <- gets (inode_at ip) ;;
  if (i_size i <? off) || (u32 (off + n) <? off) then ret (-1) else
  let n := if i_size i <? u32 (off + n) then i_size i - off else n in
  loop (S (Z.to_nat n)) (fun '(tot, off, dst) =>
    if tot <? n then
      addr <- bmap ip (off / BSIZE) ;;
      bp <- bread (i_dev i) addr ;;
      let m := Z.min (n - tot) (BSIZE - off mod BSIZE) in
      d <- data_of bp ;;
      r <- either_copyout user_dst dst (get_bytes (Z.to_nat m) d (off mod BSIZE)) ;;
      brelse bp ;;
      if r =? -1 then ret (inr tt)
      else ret (inl (tot + m, off + m, u64 (dst + m)))
    else ret (inr tt)) (0, off, dst) ;;
  ret (s32 n).

(** either_copyin stores what it copied in bp->data, also when it fails. *)
Definition writei (ip : nat) (user_src : bool) (src off n : Z) : K Z :=
  i <- gets (inode_at ip) ;;
  if (i_size i <? off) || (u32 (off + n) <? off) then ret (-1) else
  if MAXFILE * BSIZE <? u32 (off + n) then ret (-1) else
  off <- loop (S (Z.to_nat n)) (fun '(tot, off, src) =>
    if tot <? n then
      addr <- bmap ip (off / BSIZE) ;;
      bp <- bread (i_dev i) addr ;;
      let m := Z.min (n - tot) (BSIZE - off mod BSIZE) in
      r <- either_copyin user_src src m ;;
      let '(st, bs) := r in
      upd_data bp (fun d => set_bytes d (off mod BSIZE) bs) ;;
      if st =? -1 then brelse bp ;; ret (inr off)
      else
        log_write bp ;;
        brelse bp ;;
        ret (inl (tot + m, off + m, u64 (src + m)))
    else ret (inr off)) (0, off, src) ;;
  when (0 <? n)
    (i <- gets (inode_at ip) ;;
     when (i_size i <? off) (upd_inode ip (set_i_size off)) ;;
     iupdate ip) ;;
  ret (s32 n).

End Fs.
