(* ===== verification/Tx.v ===== *)
(** * Blocks inside a transaction

    What the file system proper (fs.c) relies on between begin_op and end_op:
    bread, changes of a buffer, log_write and brelse as operations on the
    logical disk contents [ct].  [tx s lg ct H]: the blocks [lg] are logged,
    the process holds the buffers [H]. *)

From S2P Require Import Prelude Bytes CString KState Spinlock Kernel Riscv Kalloc Vm Sched Console Virtio Disk Bio Cache Log Commit Transaction.

Module Tx.
Import Sched Virtio Disk Bio Cache Log Commit Transaction.

(** References the log and the process hold on block [k]. *)
Definition refs (lg : gset bkey) (ks : list bkey) (k : bkey) : Z :=
  (if bool_decide (k ∈ lg) then 1 else 0) + (if bool_decide (k ∈ ks) then 1 else 0).
Definition nz (c : Z) : option Z := if bool_decide (c = 0) then None else Some c.

Lemma lookup_set_rc_nz k c rc : set_rc k c rc !! k = nz c.
Proof. unfold set_rc, nz. case_decide; case_bool_decide; try done; [apply lookup_delete_eq|apply lookup_insert_eq]. Qed.
Lemma default_nz c : default 0 (nz c) = c.
Proof. unfold nz. by case_bool_decide. Qed.

Definition keys (H : list (nat * bkey * block)) : list bkey := (fun x => x.1.2) <$> H.

Lemma refs_range lg ks k : 0 <= refs lg ks k <= 2.
Proof. unfold refs. repeat case_bool_decide; lia. Qed.
Lemma refs_cons lg k ks k' : k ∉ ks -> refs lg (k :: ks) k' = if bool_decide (k' = k) then refs lg ks k + 1 else refs lg ks k'.
Proof.
  intros Hk. unfold refs. destruct (decide (k' = k)) as [->|Hne].
  - rewrite (bool_decide_true (k = k)) by done. rewrite (bool_decide_true (k ∈ k :: ks)) by (apply elem_of_cons; by left).
    rewrite (bool_decide_false (k ∈ ks)) by done. lia.
  - rewrite (bool_decide_false (k' = k)) by done. f_equal.
    assert (k' ∈ k :: ks <-> k' ∈ ks) as Hiff by (rewrite elem_of_cons; tauto). by repeat case_bool_decide; tauto.
Qed.
Lemma refs_head lg k ks : 0 < refs lg (k :: ks) k.
Proof. unfold refs. rewrite (bool_decide_true (k ∈ _ :: _)) by (apply elem_of_cons; by left). case_bool_decide; lia. Qed.
Lemma refs_log lg k ks k' : refs ({[k]} ∪ lg) ks k' = if bool_decide (k' = k /\ k ∉ lg) then refs lg ks k' + 1 else refs lg ks k'.
Proof.
  unfold refs. destruct (decide (k' = k)) as [->|Hne].
  - rewrite (bool_decide_true (k ∈ {[k]} ∪ lg)) by (apply elem_of_union_l, elem_of_singleton_2; done).
    repeat case_bool_decide; tauto || lia.
  - rewrite (bool_decide_false (k' = k /\ _)) by tauto. f_equal.
    assert (k' ∈ {[k]} ∪ lg <-> k' ∈ lg) as Hiff by (rewrite elem_of_union, elem_of_singleton; tauto).
    by repeat case_bool_decide; tauto.
Qed.

Section tx.
Context (E : kstate -> kstate -> Prop) `{HE : !DiskEnv E} (h p dv : nat).

(** What block operations change: locks, sleepers, driver state, buffers and
    the log, whose place on the disk is fixed; the disk itself does not change
    before the commit. *)
Definition tmoves (s s' : kstate) : Prop :=
  exists l, moves E h p (set_logs l s) s' /\ dev s' = dev s /\ l_start <$> l = l_start <$> logs s.

Lemma tmoves_trans s s1 s2 : tmoves s s1 -> tmoves s1 s2 -> tmoves s s2.
Proof.
  intros (l & (y & m & t & v & Hs & Hy & Ht & Hm & Hl & Hr) & Hd & Hst) (l' & (y' & m' & t' & v' & Hs' & Hy' & Ht' & Hm' & Hl' & Hr') & Hd' & Hst').
  exists l'. split; [|split; [congruence|rewrite Hst', Hs; exact Hst]]. exists y', m', t', v'. split_and!; try done.
  - rewrite Hs' at 1. rewrite Hs. done.
  - rewrite Hs in Ht'. cbn in Ht'. etrans; [exact Ht|exact Ht'].
  - intros a Ha. rewrite Hm' by done. rewrite Hs. cbn. by apply Hm.
Qed.

Lemma tmoves_moves s s' : moves E h p s s' -> dev s' = dev s -> tmoves s s'.
Proof.
  intros Hm Hd. exists (logs s). split; [|done]. by replace (set_logs (logs s) s) with s by by destruct s.
Qed.

Lemma tmoves_fs s s' : tmoves s s' -> fs s' = fs s.
Proof. intros (l & Hm & _). by rewrite (io_fs _ _ _ _ _ _ _ Hm). Qed.
Lemma tmoves_mem s s' a : tmoves s s' -> ~ scratch a -> getb (mm s') a = getb (mm s) a.
Proof. intros (l & (y & m & t & v & -> & _ & _ & Hm & _) & _) Ha. by apply Hm. Qed.
Lemma tmoves_sys s s' : tmoves s s' -> sys E h p s'.
Proof. intros (l & Hm & _). by eapply io_sys. Qed.

Lemma tmoves_start s s' : tmoves s s' -> l_start <$> logs s' = l_start <$> logs s.
Proof. intros (l & Hm & _ & Hst). by rewrite (io_logs _ _ _ _ _ _ _ Hm). Qed.

Record tx (s : kstate) (lg : gset bkey) (ct : disk) (H : list (nat * bkey * block)) : Prop := mkTx {
  tx_ex : exists L rc, hold E h p s ct rc [] H /\ log_at dv s = L /\
    list_to_set (home_keys dv L (size lg)) = lg /\ NoDup (home_keys dv L (size lg)) /\
    l_n L = Z.of_nat (size lg) /\ length (l_block L) = 30%nat /\ (l_outstanding L = 1 /\ l_committing L = false) /\ l_size L = 30 /\
    forall k, rc !! k = nz (refs lg (keys H) k);
  tx_dv : (dv < length (logs s))%nat;
  tx_dirty : forall k, ct !! k <> disk_img (dev s) !! k -> k ∈ lg
}.

Lemma tmoves_refl s lg ct H : tx s lg ct H -> tmoves s s.
Proof.
  intros [(L & rc & Hh & _) _ _]. destruct (ho_sys _ _ _ _ _ _ _ _ Hh) as [Ho Hr Hn]. apply tmoves_moves; [|done].
  exists (sy s), (mm s), (pt s), (vdisks s). split_and!; try done. by destruct s.
Qed.

Lemma rc_room (rc : gmap bkey Z) lg ks : (forall k, rc !! k = nz (refs lg ks k)) -> (size rc <= size lg + length ks)%nat.
Proof.
  intros Hrc. rewrite <-size_dom. transitivity (size (lg ∪ list_to_set ks)).
  - apply subseteq_size. intros k Hk. apply elem_of_dom in Hk as [c Hk]. rewrite Hrc in Hk. unfold nz, refs in Hk.
    rewrite elem_of_union, elem_of_list_to_set. repeat case_bool_decide; tauto || done.
  - clear. induction ks as [|k ks IH]; cbn [list_to_set length]; [rewrite union_empty_r_L; lia|].
    transitivity (size ({[k]} ∪ (lg ∪ list_to_set ks : gset bkey))).
    + apply subseteq_size. set_solver.
    + rewrite size_union_alt, size_singleton. pose proof (subseteq_size ((lg ∪ list_to_set ks) ∖ {[k]}) (lg ∪ list_to_set ks) ltac:(set_solver)). lia.
Qed.

Section ops.
Context (s : kstate) (lg : gset bkey) (ct : disk) (H : list (nat * bkey * block)).

Lemma tx_bread bn data (Q : nat -> kstate -> Prop) : tx s lg ct H -> (dv, bn) <> (0%nat, 0) -> (dv, bn) ∉ keys H ->
  ct !! (dv, bn) = Some data -> (size lg + length H < 30)%nat ->
  (forall b s', tmoves s s' -> tx s' lg ct ((b, (dv, bn), data) :: H) -> Q b s') ->
  runE E (bread dv bn) s Q.
Proof.
  intros [(L & rc & Hh & HL & Hlg & Hnd & Hn & Hbl & [Hout Hcom] & Hsz & Hrc) Hdv Hdirty] Hk Hnin Hct Hroom HQ.
  pose proof (rc_room _ _ _ Hrc) as Hsize. unfold keys in Hsize. rewrite length_fmap in Hsize.
  assert (Hc : default 0 (rc !! (dv, bn)) = refs lg (keys H) (dv, bn)) by (by rewrite Hrc, default_nz).
  pose proof (refs_range lg (keys H) (dv, bn)).
  eapply hold_bread; [exact Hh|done|exact Hnin|exact Hct|left; lia|lia|]. rewrite Hc. intros b s' Hm Hd Hh'.
  apply HQ; [by apply tmoves_moves|]. split; [|by rewrite (io_logs _ _ _ _ _ _ _ Hm)|by rewrite Hd].
  exists L, (set_rc (dv, bn) (refs lg (keys H) (dv, bn) + 1) rc). split_and!; try done.
  - by rewrite (moves_log E h p dv _ _ Hm).
  - intros k. change (keys (_ :: H)) with ((dv, bn) :: keys H). rewrite refs_cons by done. case_bool_decide as Ek.
    + subst k. apply lookup_set_rc_nz.
    + rewrite lookup_set_rc_ne by done. apply Hrc.
Qed.

Lemma tx_upd b k data f (Q : unit -> kstate -> Prop) : tx s lg ct ((b, k, data) :: H) -> k <> (0%nat, 0) ->
  (forall s', tmoves s s' -> tx s' lg ct ((b, k, f data) :: H) -> Q tt s') ->
  runE E (modify (fun s => set_buf_at b (set_b_data (f (b_data (buf_at b s))) (buf_at b s)) s)) s Q.
Proof.
  intros [(L & rc & Hh & HL & Hlg & Hnd & Hn & Hbl & [Hout Hcom] & Hsz & Hrc) Hdv Hdirty] Hk HQ.
  eapply (hold_set_data E h p s ct rc H [] b k data (fun s => f (b_data (buf_at b s)))); [exact Hh|done| |].
  { rewrite Hrc, default_nz. apply refs_head. }
  intros s' Hm Hd Hh'. rewrite (hold_data _ _ _ _ _ _ _ _ b k data Hh) in Hh' by (apply elem_of_cons; by left).
  apply HQ; [by apply tmoves_moves|]. split; [|by rewrite (io_logs _ _ _ _ _ _ _ Hm)|by rewrite Hd].
  exists L, rc. split_and!; try done. by rewrite (moves_log E h p dv _ _ Hm).
Qed.

Lemma tx_data b k data : tx s lg ct H -> (b, k, data) ∈ H -> b_data (buf_at b s) = data.
Proof. intros [(L & rc & Hh & _) _ _] Hin. by eapply (hold_data E h p). Qed.

Lemma tx_brelse b k data (Q : unit -> kstate -> Prop) : tx s lg ct ((b, k, data) :: H) -> k <> (0%nat, 0) ->
  ct !! k = Some data ->
  (forall s', tmoves s s' -> tx s' lg ct H -> Q tt s') -> runE E (brelse b) s Q.
Proof.
  intros [(L & rc & Hh & HL & Hlg & Hnd & Hn & Hbl & [Hout Hcom] & Hsz & Hrc) Hdv Hdirty] Hk Hct HQ.
  pose proof (ho_keys _ _ _ _ _ _ _ _ Hh) as Hnk. apply NoDup_cons in Hnk as [Hnk _]. fold (keys H) in Hnk.
  pose proof (refs_range lg (keys H) k) as Hr.
  assert (Hc : default 0 (rc !! k) = refs lg (keys H) k + 1).
  { rewrite Hrc, default_nz. change (keys (_ :: H)) with (k :: keys H). rewrite refs_cons by done. by rewrite bool_decide_true. }
  eapply (hold_brelse E h p s ct rc H [] b k data).
  { eapply (hold_weaken E h p _ _ _ []); [intros ? ?%elem_of_nil; done|exact Hh]. }
  { done. } { done. }
  { rewrite Hc, Z.add_simpl_r, u32_small by lia. unfold refs. rewrite (bool_decide_false (k ∈ keys H)) by done.
    case_bool_decide as Hl; [left; lia|right]. destruct (decide (ct !! k = disk_img (dev s) !! k)); [done|]. by destruct Hl; apply Hdirty. }
  rewrite Hc, Z.add_simpl_r, u32_small by lia. intros s' Hm Hd Hh'.
  apply HQ; [by apply tmoves_moves|]. split; [|by rewrite (io_logs _ _ _ _ _ _ _ Hm)|by rewrite Hd].
  exists L, (set_rc k (refs lg (keys H) k) rc). split_and!; try done.
  - by rewrite (moves_log E h p dv _ _ Hm).
  - intros k'. destruct (decide (k = k')) as [<-|Hne]; [apply lookup_set_rc_nz|]. rewrite lookup_set_rc_ne, Hrc by done.
    change (keys (_ :: H)) with (k :: keys H). rewrite refs_cons by done. by rewrite bool_decide_false.
Qed.

Lemma tx_log_write b bn data (Q : unit -> kstate -> Prop) : let k := (dv, bn) in
  tx s lg ct ((b, k, data) :: H) -> k <> (0%nat, 0) -> 0 <= bn < 2 ^ 32 -> (size lg < 29)%nat ->
  (forall s', tmoves s s' -> tx s' ({[k]} ∪ lg) (<[k := data]> ct) ((b, k, data) :: H) -> Q tt s') ->
  runE E (log_write b) s Q.
Proof.
  intros k [(L & rc & Hh & HL & Hlg & Hnd & Hn & Hbl & [Hout Hcom] & Hsz & Hrc) Hdv Hdirty] Hk Hbn Hroom HQ.
  set (n := size lg) in *. change (keys (_ :: H)) with (k :: keys H) in Hrc.
  pose proof (refs_head lg k (keys H)) as Hpos. pose proof (refs_range lg (k :: keys H) k) as Hr.
  assert (Hc : default 0 (rc !! k) = refs lg (k :: keys H) k) by (by rewrite Hrc, default_nz).
  eapply (runE_log_write E h p s ct rc dv bn b data H L n Hh Hk HL Hdv Hbl Hn); [fold k; lia|done|lia|lia|lia|]. fold k. rewrite Hc.
  intros s' Hh' Hd Hl (y & bs & l & Hs'). rewrite (absorbed_iff dv L n bn Hbl ltac:(lia)) in Hh'. fold k in Hh'.
  assert (Hin : k ∈ home_keys dv L n <-> k ∈ lg) by (rewrite <-Hlg, elem_of_list_to_set; done).
  apply HQ.
  - exists l. split; [|split; [done|]]. 2: { subst s'. cbn in Hl. rewrite Hl, list_fmap_insert. apply list_insert_id. rewrite list_lookup_fmap, (list_lookup_lookup_total_lt _ _ Hdv).
      fold (log_at dv s). by rewrite HL. }
    destruct (ho_sys _ _ _ _ _ _ _ _ Hh') as [Hy Hrd Hnp]. subst s'.
    exists y, (mm s), (pt s), (vdisks s). split_and!; try done.
  - assert (Hlog' : log_at dv s' = logged_in L n bn) by (unfold log_at; rewrite Hl; by apply list_lookup_total_insert_eq).
    assert (Hhk : home_keys dv (logged_in L n bn) (logged_n L n bn) =
      if bool_decide (k ∈ lg) then home_keys dv L n else home_keys dv L n ++ [k]).
    { rewrite home_keys_logged by (done || lia). rewrite (absorbed_iff dv L n bn Hbl ltac:(lia)). fold k.
      rewrite (bool_decide_ext _ _ Hin). repeat case_bool_decide; tauto || done. }
    assert (Hln : logged_n L n bn = size ({[k]} ∪ lg)).
    { unfold logged_n. rewrite (absorbed_iff dv L n bn Hbl ltac:(lia)). fold k. rewrite (bool_decide_ext _ _ Hin).
      case_bool_decide as Hkl; cbn [negb].
      - by rewrite (subseteq_union_1_L {[k]} lg) by (by apply singleton_subseteq_l).
      - rewrite size_union by (by apply disjoint_singleton_l). by rewrite size_singleton. }
    split.
    + exists (logged_in L n bn). eexists. split; [exact Hh'|]. split; [exact Hlog'|]. rewrite <-Hln, Hhk. split_and!.
      * case_bool_decide; rewrite ?list_to_set_app_L, Hlg; set_solver.
      * case_bool_decide as Hkl; [done|]. apply NoDup_app. split_and!; [done| |apply NoDup_singleton].
        intros x Hx ->%list_elem_of_singleton. by apply Hkl, Hin.
      * unfold logged_n. cbn. destruct (_ =? n)%nat; lia.
      * cbn. by rewrite length_insert.
      * done.
      * done.
      * done.
      * intros k'. change (keys (_ :: H)) with (k :: keys H). rewrite refs_log. rewrite (bool_decide_ext _ _ Hin).
        destruct (decide (k = k')) as [<-|Hne].
        -- case_bool_decide as Hkl; cbn [negb]; [rewrite (bool_decide_false (_ /\ _)) by tauto; apply Hrc|].
           rewrite (bool_decide_true (_ /\ _)) by done. apply lookup_set_rc_nz.
        -- rewrite (bool_decide_false (_ /\ _)) by (intros [-> _]; done). case_bool_decide; cbn [negb]; [apply Hrc|].
           rewrite lookup_set_rc_ne by done. apply Hrc.
    + by rewrite Hl, length_insert.
    + intros k' Hk'. rewrite Hd in Hk'. destruct (decide (k = k')) as [<-|Hne]; [set_solver|].
      rewrite lookup_insert_ne in Hk' by done. apply elem_of_union. right. by apply Hdirty.
Qed.
End ops.
End tx.

End Tx.
