(* ===== verification/Balloc.v ===== *)
(** * The free-block bitmap (balloc and bfree of kernel/fs.c)

    The bitmap blocks of the disk are read as a predicate [used] on block
    numbers; balloc and bfree are specified on it, inside a transaction. *)

From S2P Require Import Prelude Bytes CString KState Spinlock Kernel Riscv Kalloc Vm Sched Console Virtio Disk Bio Cache Log Commit Transaction Fs Tx.

Module Balloc.
Import Sched Virtio Disk Bio Cache Log Commit Transaction Fs Tx.

(** ** Bits of a block *)

(** The test of balloc and bfree. *)
Definition bit (d : block) (bi : Z) : bool :=
  negb (Z.land (getb d (bi / 8)) (Z.shiftl 1 (bi mod 8)) =? 0).

Lemma bit_testbit d bi : 0 <= bi -> bit d bi = Z.testbit (getb d (bi / 8)) (bi mod 8).
Proof.
  intros Hbi. pose proof (Z.mod_pos_bound bi 8 ltac:(lia)) as Hm. unfold bit. rewrite Z.shiftl_1_l.
  set (x := getb d (bi / 8)). set (j := bi mod 8) in *. destruct (Z.testbit x j) eqn:E.
  - apply negb_true_iff, Z.eqb_neq. intros Hz. apply (f_equal (fun v => Z.testbit v j)) in Hz.
    rewrite Z.land_spec, Z.pow2_bits_true, E, Z.bits_0 in Hz by lia. done.
  - apply negb_false_iff, Z.eqb_eq. apply Z.bits_inj'. intros i Hi. rewrite Z.land_spec, Z.bits_0.
    destruct (decide (i = j)) as [->|Hne]; [by rewrite E|]. by rewrite Z.pow2_bits_false, andb_false_r by done.
Qed.

Lemma u8_testbit v j : 0 <= j < 8 -> Z.testbit (u8 v) j = Z.testbit v j.
Proof. intros Hj. unfold u8. by rewrite Z.mod_pow2_bits_low by lia. Qed.

Lemma same_byte bi bj : bi / 8 = bj / 8 -> bi mod 8 = bj mod 8 -> bi = bj.
Proof. intros H1 H2. rewrite (Z.div_mod bi 8), (Z.div_mod bj 8) by lia. by rewrite H1, H2. Qed.

Section set_bit.
Context (d : block) (bi : Z) (Hlen : length d = 1024%nat) (Hbi : 0 <= bi < BPB).

Lemma byte_of_bit : 0 <= bi / 8 < 1024.
Proof. split; [apply Z.div_pos; lia|apply Z.div_lt_upper_bound; lia]. Qed.

(** Replacing the byte of bit [bi] by one that differs in that bit only. *)
Lemma bit_update v (b : bool) bj :
  (forall j, 0 <= j < 8 -> Z.testbit v j = if bool_decide (j = bi mod 8) then b else Z.testbit (getb d (bi / 8)) j) ->
  0 <= bj -> bit (setb d (bi / 8) v) bj = if bool_decide (bj = bi) then b else bit d bj.
Proof.
  intros Hv Hbj. pose proof byte_of_bit as Hb. pose proof (Z.mod_pos_bound bj 8 ltac:(lia)) as Hm.
  rewrite !bit_testbit by lia. destruct (decide (bj / 8 = bi / 8)) as [E|E].
  - rewrite E, getb_setb_eq by (cbn; lia). rewrite u8_testbit, Hv by lia.
    destruct (decide (bj mod 8 = bi mod 8)) as [E'|E'].
    + rewrite !bool_decide_true; [done|by apply same_byte|done].
    + rewrite !bool_decide_false; [done|congruence|done].
  - rewrite getb_setb_ne by done. rewrite bool_decide_false; [done|]. congruence.
Qed.

Definition mark (d : block) : block := setb d (bi / 8) (Z.lor (getb d (bi / 8)) (Z.shiftl 1 (bi mod 8))).
Definition unmark (d : block) : block := setb d (bi / 8) (Z.ldiff (getb d (bi / 8)) (Z.shiftl 1 (bi mod 8))).

Lemma bit_mark bj : 0 <= bj -> bit (mark d) bj = if bool_decide (bj = bi) then true else bit d bj.
Proof.
  apply bit_update. intros j Hj. rewrite Z.lor_spec, Z.shiftl_1_l. case_bool_decide as E.
  - rewrite <-E, Z.pow2_bits_true by lia. apply orb_true_r.
  - by rewrite Z.pow2_bits_false, orb_false_r by done.
Qed.
Lemma bit_unmark bj : 0 <= bj -> bit (unmark d) bj = if bool_decide (bj = bi) then false else bit d bj.
Proof.
  apply bit_update. intros j Hj. rewrite Z.ldiff_spec, Z.shiftl_1_l. case_bool_decide as E.
  - rewrite <-E, Z.pow2_bits_true by lia. apply andb_false_r.
  - by rewrite Z.pow2_bits_false, andb_true_r by done.
Qed.
End set_bit.

Lemma length_setb (d : block) i v : length (setb d i v) = length d.
Proof. cbn. unfold list_setb. case_match; by rewrite ?length_insert. Qed.

(** The inner loop of balloc. *)
Lemma find_clear_spec k : forall d bi b size,
  match find_clear k d bi b size with
  | Some bj => bi <= bj < bi + Z.of_nat k /\ b + bj < size /\ bit d bj = false /\
      forall bj', bi <= bj' < bj -> bit d bj' = true
  | None => forall bj, bi <= bj < bi + Z.of_nat k -> b + bj < size -> bit d bj = true
  end.
Proof.
  induction k as [|k IH]; intros d bi b size; cbn [find_clear]; [lia|].
  destruct (Z.ltb_spec (b + bi) size) as [Hlt|Hge]; [|lia]. unfold bit in *.
  destruct (Z.eqb_spec (Z.land (getb d (bi / 8)) (Z.shiftl 1 (bi mod 8))) 0) as [Hz|Hnz].
  - split_and!; try lia; done || (rewrite Hz; done).
  - specialize (IH d (bi + 1) b size). destruct (find_clear k d (bi + 1) b size) as [bj|].
    + destruct IH as (H1 & H2 & H3 & H4). split_and!; [lia|lia|lia|done|]. intros bj' Hbj'.
      destruct (decide (bj' = bi)) as [->|]; [|apply H4; lia]. by apply negb_true_iff, Z.eqb_neq.
    + intros bj Hbj Hs. destruct (decide (bj = bi)) as [->|]; [by apply negb_true_iff, Z.eqb_neq|]. apply IH; lia.
Qed.

Definition zeroed (d : block) : Prop := length d = 1024%nat /\ forall i, getb d i = 0.

Lemma memset_zeroed (d : block) : length d = 1024%nat -> zeroed (CString.memset d 0 0 BSIZE).
Proof.
  intros Hlen. assert (Hv : valid_range d 0 BSIZE) by (intros a Ha; cbn; lia). split.
  - assert (H : forall a, valid_at (CString.memset d 0 0 BSIZE) a <-> valid_at d a).
    { intros a. apply CString.valid_memset. }
    cbn in H. pose proof (H 1023). pose proof (H 1024). lia.
  - intros i. rewrite CString.getb_memset by done. case_bool_decide; [done|].
    cbn. unfold list_getb. destruct (Z.ltb_spec i 0); [done|]. by rewrite lookup_ge_None_2 by lia.
Qed.

(** ** The bitmap of a disk *)

Section bitmap.
Context (dv : nat) (sb : superblock).

(** Block [b] is marked in the bitmap. *)
Definition used (ct : disk) (b : Z) : bool :=
  match ct !! (dv, BBLOCK b sb) with Some d => bit d (b mod BPB) | None => true end.

(** The last bitmap block; the data blocks follow. *)
Definition bmap_end : Z := sb_bmapstart sb + (sb_size sb - 1) / BPB.

(** [k] is a bitmap block. *)
Definition bitmap_key (k : bkey) : Prop := k.1 = dv /\ sb_bmapstart sb <= k.2 <= bmap_end.

(** The blocks file operations log: inodes, bitmap and data. *)
Definition fs_key (k : bkey) : Prop := k.1 = dv /\ sb_inodestart sb <= k.2 < sb_size sb.
Definition grows (lg lg' : gset bkey) : Prop := forall k, k ∈ lg' -> k ∈ lg \/ fs_key k.

Lemma grows_refl lg : grows lg lg.
Proof. by left. Qed.
Lemma grows_trans lg lg1 lg2 : grows lg lg1 -> grows lg1 lg2 -> grows lg lg2.
Proof. intros H1 H2 k [Hk|Hk]%H2; [by apply H1|by right]. Qed.
Lemma grows_add lg lg' k : grows lg lg' -> fs_key k -> grows lg ({[k]} ∪ lg').
Proof. intros H Hk k' [->%elem_of_singleton|Hk']%elem_of_union; [by right|by apply H]. Qed.

Lemma past_bitmap a : bmap_end < a -> ~ bitmap_key (dv, a).
Proof. unfold bitmap_key. cbn. lia. Qed.
Lemma before_bitmap a : a < sb_bmapstart sb -> ~ bitmap_key (dv, a).
Proof. unfold bitmap_key. cbn. lia. Qed.

(** The layout mkfs writes: the bitmap is inside the disk, all blocks are
    there, and those before the data blocks are marked. *)
Record geom (ct : disk) : Prop := {
  g_size : 0 < sb_size sb < 2 ^ 31;
  g_ino : 1 <= sb_inodestart sb <= sb_bmapstart sb;
  g_bmap : 0 < sb_bmapstart sb /\ bmap_end < sb_size sb;
  g_blocks : forall b, 0 <= b < sb_size sb -> exists d, ct !! (dv, b) = Some d /\ length d = 1024%nat;
  g_meta : forall b, 0 <= b <= bmap_end -> used ct b = true
}.

Lemma BBLOCK_eq ct b : geom ct -> 0 <= b < sb_size sb ->
  BBLOCK b sb = b / BPB + sb_bmapstart sb /\ 0 < BBLOCK b sb < sb_size sb /\ bitmap_key (dv, BBLOCK b sb).
Proof.
  intros [H1 _ [H2 H3] _ _] Hb. unfold BBLOCK, bitmap_key, bmap_end in *. cbn [fst snd]. pose proof (Z.div_le_mono b (sb_size sb - 1) BPB ltac:(lia) ltac:(lia)).
  pose proof (Z.div_pos b BPB ltac:(lia) ltac:(lia)). rewrite u32_small by lia. lia.
Qed.

Lemma bitmap_data ct b : geom ct -> 0 <= b < sb_size sb ->
  exists d, ct !! (dv, BBLOCK b sb) = Some d /\ length d = 1024%nat /\ used ct b = bit d (b mod BPB).
Proof.
  intros Hg Hb. destruct (BBLOCK_eq ct b Hg Hb) as (_ & Hr & _).
  destruct (g_blocks _ Hg (BBLOCK b sb) ltac:(lia)) as (d & Hd & Hl). exists d. split_and!; try done. unfold used. by rewrite Hd.
Qed.

(** Same bitmap block and same bit: same block. *)
Lemma BBLOCK_inj ct b b' : geom ct -> 0 <= b < sb_size sb -> 0 <= b' < sb_size sb ->
  BBLOCK b sb = BBLOCK b' sb -> b mod BPB = b' mod BPB -> b = b'.
Proof.
  intros Hg Hb Hb' HB Hm. destruct (BBLOCK_eq ct b Hg Hb) as (E & _). destruct (BBLOCK_eq ct b' Hg Hb') as (E' & _).
  rewrite (Z.div_mod b BPB), (Z.div_mod b' BPB) by lia. assert (b / BPB = b' / BPB) by lia. congruence.
Qed.

(** Changing the bit of [r] in its bitmap block. *)
Lemma used_update ct r d d' (v : bool) : geom ct -> 0 <= r < sb_size sb -> ct !! (dv, BBLOCK r sb) = Some d ->
  (forall bj, 0 <= bj -> bit d' bj = if bool_decide (bj = r mod BPB) then v else bit d bj) ->
  forall b, 0 <= b < sb_size sb ->
    used (<[(dv, BBLOCK r sb) := d']> ct) b = if bool_decide (b = r) then v else used ct b.
Proof.
  intros Hg Hr Hd Hbit b Hb. pose proof (Z.mod_pos_bound b BPB ltac:(lia)) as Hm. unfold used.
  destruct (decide (BBLOCK b sb = BBLOCK r sb)) as [E|E].
  - rewrite E, lookup_insert_eq, Hd, Hbit by lia. destruct (decide (b = r)) as [->|Hne]; [by rewrite !bool_decide_true|].
    rewrite !bool_decide_false; [done|done|]. intros Hmod. by apply Hne, (BBLOCK_inj ct).
  - rewrite lookup_insert_ne by congruence. rewrite bool_decide_false; [done|]. congruence.
Qed.

(** Writing a block that is not in the bitmap. *)
Lemma used_other ct k x b : geom ct -> 0 <= b < sb_size sb -> ~ bitmap_key k -> used (<[k := x]> ct) b = used ct b.
Proof.
  intros Hg Hb Hk. destruct (BBLOCK_eq ct b Hg Hb) as (_ & _ & Hbk). unfold used. rewrite lookup_insert_ne; [done|].
  intros ->. done.
Qed.

(** A free block is a data block. *)
Lemma free_data ct r : geom ct -> 0 <= r -> used ct r = false -> 0 < bmap_end < r.
Proof.
  intros Hg Hr Hf. pose proof (g_bmap _ Hg). pose proof (g_size _ Hg).
  assert (0 <= (sb_size sb - 1) / BPB) by (apply Z.div_pos; lia). split; [unfold bmap_end; lia|].
  destruct (Z_lt_ge_dec bmap_end r); [done|]. rewrite (g_meta _ Hg) in Hf by lia. done.
Qed.
End bitmap.

(** ** bfree and balloc inside a transaction *)

Section ops.
Context (E : kstate -> kstate -> Prop) `{HE : !DiskEnv E} (h p dv : nat) (sb : superblock).
Abbreviation tx := (tx E h p dv).
Abbreviation tmoves := (tmoves E h p).

Lemma run_the_sb s (Q : superblock -> kstate -> Prop) : KState.sb (fs s) = sb -> Q sb s -> runE E the_sb s Q.
Proof. intros Hsb HQ. unfold the_sb. wp. by rewrite Hsb. Qed.

Lemma runE_data_of s lg ct H b k data (Q : block -> kstate -> Prop) : tx s lg ct H -> (b, k, data) ∈ H -> Q data s ->
  runE E (data_of b) s Q.
Proof. intros Htx Hin HQ. unfold data_of. wp. by rewrite (tx_data _ _ _ _ _ _ _ _ _ _ _ Htx Hin). Qed.

Context (s : kstate) (lg : gset bkey) (ct : disk) (H : list (nat * bkey * block)).
Context (Htx : tx s lg ct H) (Hsb : KState.sb (fs s) = sb) (Hg : geom dv sb ct).
Context (Hfar : forall k, k ∈ keys H -> ~ bitmap_key dv sb k).

(** bfree() clears the bit of an allocated block. *)
Lemma runE_bfree b d (Q : unit -> kstate -> Prop) : 0 <= b < sb_size sb -> used dv sb ct b = true ->
  ct !! (dv, BBLOCK b sb) = Some d -> (size lg < 29)%nat -> (size lg + length H < 30)%nat ->
  (forall s', tmoves s s' ->
     tx s' ({[(dv, BBLOCK b sb)]} ∪ lg) (<[(dv, BBLOCK b sb) := unmark (b mod BPB) d]> ct) H -> Q tt s') ->
  runE E (bfree dv b) s Q.
Proof.
  intros Hb Hu Hd Hlg Hroom HQ. destruct (BBLOCK_eq dv sb ct b Hg Hb) as (_ & Hr & Hk). pose proof (g_size _ _ _ Hg).
  unfold bfree. apply runE_bind, run_the_sb; [done|]. apply runE_bind.
  assert (Hk0 : (dv, BBLOCK b sb) <> (0%nat, 0)) by (intros [= _ E0]; lia).
  eapply tx_bread; [exact Htx|done| |exact Hd|done|]. { intros Hin. by apply (Hfar _ Hin). }
  intros bp s1 M1 T1. apply runE_bind. eapply runE_data_of; [exact T1|apply elem_of_cons; by left|].
  unfold used in Hu. rewrite Hd in Hu. unfold bit in Hu. apply negb_true_iff in Hu. rewrite Hu. unfold upd_data. apply runE_bind.
  eapply (tx_upd _ _ _ _ _ _ _ _ _ _ d (unmark (b mod BPB))); [exact T1|done|]. intros s2 M2 T2. apply runE_bind.
  eapply tx_log_write; [exact T2|done|lia|done|]. intros s3 M3 T3.
  eapply tx_brelse; [exact T3|done|apply lookup_insert_eq|]. intros s4 M4 T4.
  apply HQ; [|done]. eapply tmoves_trans; [exact M1|]. eapply tmoves_trans; [exact M2|]. by eapply tmoves_trans.
Qed.

(** bzero() *)
Lemma runE_bzero bn d (Q : unit -> kstate -> Prop) : (dv, bn) <> (0%nat, 0) -> 0 <= bn < 2 ^ 32 -> (dv, bn) ∉ keys H ->
  ct !! (dv, bn) = Some d -> length d = 1024%nat -> (size lg < 29)%nat -> (size lg + length H < 30)%nat ->
  (forall s' z, tmoves s s' -> zeroed z -> tx s' ({[(dv, bn)]} ∪ lg) (<[(dv, bn) := z]> ct) H -> Q tt s') ->
  runE E (bzero dv bn) s Q.
Proof.
  intros Hk Hbn Hnin Hd Hlen Hlg Hroom HQ. unfold bzero. apply runE_bind.
  eapply tx_bread; [exact Htx|done|done|exact Hd|done|]. intros bp s1 M1 T1. unfold upd_data. apply runE_bind.
  eapply (tx_upd _ _ _ _ _ _ _ _ _ _ d (fun d => CString.memset d 0 0 BSIZE)); [exact T1|done|]. intros s2 M2 T2. apply runE_bind.
  eapply tx_log_write; [exact T2|done|lia|done|]. intros s3 M3 T3.
  eapply tx_brelse; [exact T3|done|apply lookup_insert_eq|]. intros s4 M4 T4.
  apply (HQ s4 (CString.memset d 0 0 BSIZE)); [|by apply memset_zeroed|done].
  eapply tmoves_trans; [exact M1|]. eapply tmoves_trans; [exact M2|]. by eapply tmoves_trans.
Qed.
End ops.

Lemma size_add (k : bkey) (lg : gset bkey) : (size ({[k]} ∪ lg) <= S (size lg))%nat.
Proof. rewrite size_union_alt, size_singleton. pose proof (subseteq_size (lg ∖ {[k]}) lg ltac:(set_solver)). lia. Qed.

Section taken.
Context (dv : nat) (sb : superblock) (ct : disk) (Hg : geom dv sb ct).

(** The disk after block [r] was taken: its bit is set and it is zeroed. *)
Definition taken (r : Z) (d z : block) : disk :=
  <[(dv, r) := z]> (<[(dv, BBLOCK r sb) := mark (r mod BPB) d]> ct).

Lemma used_taken r d z : 0 <= r < sb_size sb -> used dv sb ct r = false -> ct !! (dv, BBLOCK r sb) = Some d ->
  forall b, 0 <= b < sb_size sb -> used dv sb (taken r d z) b = if bool_decide (b = r) then true else used dv sb ct b.
Proof.
  intros Hr Hfree Hd b Hb. destruct (bitmap_data dv sb ct r Hg Hr) as (d' & Hd' & Hlen & _). simplify_eq.
  assert (Hmd : 0 <= r mod BPB < BPB) by (apply Z.mod_pos_bound; lia).
  destruct (BBLOCK_eq dv sb ct b Hg Hb) as (_ & _ & Kb).
  assert (Hnb : ~ bitmap_key dv sb (dv, r)) by (apply past_bitmap, (free_data dv sb ct); [done|lia|done]).
  transitivity (used dv sb (<[(dv, BBLOCK r sb) := mark (r mod BPB) d]> ct) b).
  - unfold taken, used. rewrite lookup_insert_ne; [done|]. intros E0. rewrite E0 in Hnb. done.
  - apply (used_update dv sb ct r d); try done. intros bj Hbj. by apply bit_mark.
Qed.

(** The layout survives allocation. *)
Lemma geom_taken r d z : 0 <= r < sb_size sb -> used dv sb ct r = false -> ct !! (dv, BBLOCK r sb) = Some d ->
  zeroed z -> geom dv sb (taken r d z).
Proof.
  intros Hr Hfree Hd [Hz _]. pose proof (used_taken r d z Hr Hfree Hd) as Hu.
  destruct (bitmap_data dv sb ct r Hg Hr) as (d' & Hd' & Hlen & _). simplify_eq.
  split; try apply Hg.
  - intros b Hb. unfold taken. destruct (decide (b = r)) as [->|Hne]; [rewrite lookup_insert_eq; by eexists|].
    rewrite lookup_insert_ne by congruence. destruct (decide (b = BBLOCK r sb)) as [->|Hne'].
    + rewrite lookup_insert_eq. eexists. split; [done|]. unfold mark. by rewrite length_setb.
    + rewrite lookup_insert_ne by congruence. by apply Hg.
  - intros b Hb. pose proof (g_bmap _ _ _ Hg). rewrite Hu by lia. case_bool_decide; [done|by apply Hg].
Qed.
End taken.

Lemma block_bit q bi : 0 <= bi < BPB ->
  (q * BPB + bi) / BPB = q /\ (q * BPB + bi) mod BPB = bi /\ q * BPB / BPB = q.
Proof.
  intros Hbi. rewrite Z.div_mul by lia. split_and!; [|symmetry; apply Z.mod_unique_pos with q; lia|done].
  symmetry. apply Z.div_unique_pos with bi; lia.
Qed.

Section balloc.
Context (E : kstate -> kstate -> Prop) `{HE : !DiskEnv E} (h p dv : nat) (sb : superblock).
Abbreviation tx := (tx E h p dv).
Abbreviation tmoves := (tmoves E h p).
Context (s : kstate) (lg : gset bkey) (ct : disk) (H : list (nat * bkey * block)).
Context (Htx : tx s lg ct H) (Hsb : KState.sb (fs s) = sb) (Hg : geom dv sb ct).
Context (Hfar : forall k, k ∈ keys H -> ~ bitmap_key dv sb k).
Context (Hheld : forall b, (dv, b) ∈ keys H -> used dv sb ct b = true).
Context (Hlg : (size lg < 28)%nat) (Hroom : (size lg + length H < 29)%nat).

(** The result of balloc(): the first free block. *)
Definition allocated (r : Z) (s' : kstate) : Prop :=
  exists d z, 0 < r < sb_size sb /\ used dv sb ct r = false /\ (forall b, 0 <= b < r -> used dv sb ct b = true) /\
    ct !! (dv, BBLOCK r sb) = Some d /\ zeroed z /\ tmoves s s' /\
    tx s' ({[(dv, r)]} ∪ ({[(dv, BBLOCK r sb)]} ∪ lg)) (taken dv sb ct r d z) H.

(** One bitmap block with a clear bit: mark it, zero the block. *)
Lemma runE_take q bi d bp s1 (Q : (Z + Z) -> kstate -> Prop) : let b := q * BPB in let r := b + bi in
  0 <= q -> 0 <= bi < BPB -> r < sb_size sb -> tmoves s s1 ->
  tx s1 lg ct ((bp, (dv, BBLOCK b sb), d) :: H) -> ct !! (dv, BBLOCK b sb) = Some d ->
  used dv sb ct r = false -> (forall b, 0 <= b < r -> used dv sb ct b = true) ->
  (forall s', allocated r s' -> Q (inr r) s') ->
  runE E (upd_data bp (fun d => setb d (bi / 8) (Z.lor (getb d (bi / 8)) (Z.shiftl 1 (bi mod 8)))) ;;
          log_write bp ;; brelse bp ;; bzero dv (b + bi) ;; ret (inr (b + bi))) s1 Q.
Proof.
  intros b r Hq Hbi Hr M1 T1 Hd Hfree Hbefore HQ.
  destruct (block_bit q bi Hbi) as (Hdr & Hmr & Hdb). fold b r in Hdr, Hmr, Hdb. assert (Hb : 0 <= b <= r) by (unfold r, b; lia).
  destruct (BBLOCK_eq dv sb ct b Hg ltac:(lia)) as (EB & RB & KB). destruct (BBLOCK_eq dv sb ct r Hg ltac:(lia)) as (ER & _ & _).
  assert (EBR : BBLOCK b sb = BBLOCK r sb) by lia. pose proof (g_size _ _ _ Hg).
  pose proof (free_data dv sb ct r Hg ltac:(lia) Hfree) as Hdat. assert (Hr0 : r <> 0) by lia.
  assert (Hnb : ~ bitmap_key dv sb (dv, r)) by (apply past_bitmap; lia).
  assert (Hk0 : (dv, BBLOCK b sb) <> (0%nat, 0)) by (intros [= _ E0]; lia).
  unfold upd_data. apply runE_bind. eapply (tx_upd _ _ _ _ _ _ _ _ _ _ d (mark bi)); [exact T1|done|]. intros s2 M2 T2. apply runE_bind.
  eapply tx_log_write; [exact T2|done|lia|lia|]. intros s3 M3 T3. apply runE_bind.
  eapply tx_brelse; [exact T3|done|apply lookup_insert_eq|]. intros s4 M4 T4. apply runE_bind.
  destruct (g_blocks _ _ _ Hg r ltac:(lia)) as (d0 & Hd0 & Hl0). pose proof (size_add (dv, BBLOCK b sb) lg).
  eapply (runE_bzero E h p dv s4 _ _ H T4 (b + bi) d0); try done; fold r; try lia.
  - intros [= _ E0]. done.
  - intros Hin. rewrite (Hheld _ Hin) in Hfree. done.
  - rewrite lookup_insert_ne; [done|]. intros E0. rewrite E0 in KB. done.
  - intros s5 z M5 Hz T5. wp. apply HQ. exists d, z. rewrite <-EBR. split_and!; try done; try lia.
    + eapply tmoves_trans; [exact M1|]. eapply tmoves_trans; [exact M2|]. eapply tmoves_trans; [exact M3|]. by eapply tmoves_trans.
    + unfold taken. by rewrite <-EBR, Hmr.
Qed.

Lemma runE_balloc (Q : Z -> kstate -> Prop) : (exists b, 0 <= b < sb_size sb /\ used dv sb ct b = false) ->
  (forall r s', allocated r s' -> Q r s') -> runE E (balloc dv) s Q.
Proof.
  intros (b0 & Hb0 & Hf0) HQ. pose proof (g_size _ _ _ Hg) as Hsz. unfold balloc. apply runE_bind, (run_the_sb E sb); [done|].
  eapply (runE_loop E _ (fun b s' => exists q, 0 <= q /\ b = q * BPB /\ tmoves s s' /\ tx s' lg ct H /\
      forall b', 0 <= b' < b -> b' < sb_size sb -> used dv sb ct b' = true) (fun b _ => Z.to_nat (sb_size sb / BPB + 1 - b / BPB))).
  2: { exists 0. split_and!; try done; try lia. by eapply tmoves_refl. }
  2: { change (0 / BPB) with 0. lia. }
  intros b s1 (q & Hq & -> & M1 & T1 & Hall).
  assert (Hlt : q * BPB < sb_size sb). { destruct (Z_lt_ge_dec (q * BPB) (sb_size sb)); [done|]. rewrite Hall in Hf0 by lia. done. }
  destruct (Z.ltb_spec (q * BPB) (sb_size sb)); [|lia]. apply runE_bind.
  destruct (BBLOCK_eq dv sb ct (q * BPB) Hg ltac:(lia)) as (EB & RB & KB).
  destruct (bitmap_data dv sb ct (q * BPB) Hg ltac:(lia)) as (d & Hd & Hlen & _).
  assert (Hu : forall bi, 0 <= bi < BPB -> q * BPB + bi < sb_size sb -> used dv sb ct (q * BPB + bi) = bit d bi).
  { intros bi Hbi Hs. unfold used. destruct (BBLOCK_eq dv sb ct (q * BPB + bi) Hg ltac:(lia)) as (E1 & _).
    destruct (block_bit q bi Hbi) as (Eq & Em & _). rewrite E1, Eq, Em.
    rewrite EB, Z.div_mul in Hd by lia. by rewrite Hd. }
  eapply tx_bread; [exact T1|intros [= _ E0]; lia|intros Hin; by apply (Hfar _ Hin)|exact Hd|lia|].
  intros bp s2 M2 T2. apply runE_bind. eapply runE_data_of; [exact T2|apply elem_of_cons; by left|].
  pose proof (tmoves_trans _ _ _ _ _ _ M1 M2) as M12.
  pose proof (find_clear_spec (Z.to_nat BPB) d 0 (q * BPB) (sb_size sb)) as Hfc.
  destruct (find_clear (Z.to_nat BPB) d 0 (q * BPB) (sb_size sb)) as [bi|].
  - destruct Hfc as (Hbi & Hs & Hbit & Hprev). eapply runE_take; try done; try lia.
    + by rewrite Hu by lia.
    + intros b' Hb'. destruct (Z_lt_ge_dec b' (q * BPB)); [apply Hall; lia|].
      replace b' with (q * BPB + (b' - q * BPB)) by lia. rewrite Hu by lia. apply Hprev. lia.
    + intros s' Ha. by apply HQ.
  - apply runE_bind. eapply tx_brelse; [exact T2|intros [= _ E0]; lia|exact Hd|]. intros s3 M3 T3. wp.
    assert (Hnext : forall b', 0 <= b' < q * BPB + BPB -> b' < sb_size sb -> used dv sb ct b' = true).
    { intros b' Hb' Hs. destruct (Z_lt_ge_dec b' (q * BPB)); [apply Hall; lia|].
      replace b' with (q * BPB + (b' - q * BPB)) by lia. rewrite Hu by lia. apply Hfc; lia. }
    split.
    + exists (q + 1). split_and!; [lia|lia|by eapply tmoves_trans|done|]. intros b' Hb'. apply Hnext. lia.
    + rewrite !(Z.div_mul q), (Z.add_comm (q * BPB)), Z.div_add by lia. change (BPB / BPB) with 1.
      pose proof (Z.div_le_mono (q * BPB) (sb_size sb) BPB ltac:(lia) ltac:(lia)) as Hle. rewrite Z.div_mul in Hle by lia. lia.
Qed.
End balloc.

End Balloc.
