(* ===== verification/Dinode.v ===== *)
(** * The on-disk inode (struct dinode of kernel/fs.h)

    The layout iupdate writes and ilock reads: the fields come back as they
    were stored, and the other inodes of the block keep theirs. *)

From S2P Require Import Prelude Bytes CString KState Spinlock Kernel Riscv Kalloc Vm Sched Console Virtio Disk Bio Cache Log Commit Fs.

Module Dinode.
Import Sched Virtio Disk Bio Cache Log Commit Fs.

(** The values the fields of a struct dinode can hold. *)
Record dinode_fits (i : inode) : Prop := {
  df_type : - 2 ^ 15 <= i_type i < 2 ^ 15;
  df_major : - 2 ^ 15 <= i_major i < 2 ^ 15;
  df_minor : - 2 ^ 15 <= i_minor i < 2 ^ 15;
  df_nlink : - 2 ^ 15 <= i_nlink i < 2 ^ 15;
  df_size : 0 <= i_size i < 2 ^ 32;
  df_len : length (i_addrs i) = 13%nat;
  df_addrs : forall (j : nat) a, i_addrs i !! j = Some a -> 0 <= a < 2 ^ 32
}.

Lemma s16_mod x : - 2 ^ 15 <= x < 2 ^ 15 -> s16 (x mod 2 ^ 16) = x.
Proof. intros Hx. unfold s16. rewrite Zplus_mod_idemp_l. rewrite Z.mod_small; lia. Qed.

Lemma length_stn n : forall (d : block) off v, length (stn n d off v) = length d.
Proof.
  induction n as [|n IH]; intros; [done|]. change (stn (S n) d off v) with (stn n (setb d off v) (off + 1) (v / 256)).
  rewrite IH. cbn. unfold list_setb. case_match; by rewrite ?length_insert.
Qed.

(** ** The address array *)

Lemma length_store_addrs l : forall d off, length (store_addrs d off l) = length d.
Proof. induction l as [|a l IH]; intros; cbn [store_addrs]; [done|]. rewrite IH. apply length_stn. Qed.

Lemma ldn_store_addrs_ne k l : forall d off b, b + Z.of_nat k <= off \/ off + 4 * Z.of_nat (length l) <= b ->
  ldn k (store_addrs d off l) b = ldn k d b.
Proof.
  induction l as [|a l IH]; intros d off b Hb; cbn [store_addrs length] in *; [done|].
  rewrite IH by lia. unfold st32. apply ldn_stn_ne. lia.
Qed.

Lemma ld32_store_addrs l : forall d off (j : nat) a, l !! j = Some a ->
  0 <= off -> off + 4 * Z.of_nat (length l) <= Z.of_nat (length d) ->
  ld32 (store_addrs d off l) (off + 4 * Z.of_nat j) = u32 a.
Proof.
  induction l as [|x l IH]; intros d off j a Hj H0 H1; [done|]. cbn [store_addrs length] in *. destruct j as [|j].
  - injection Hj as ->. rewrite Z.add_0_r. unfold ld32. rewrite ldn_store_addrs_ne by lia. unfold st32.
    rewrite ldn_stn_eq; [done|]. intros c Hc. cbn. lia.
  - replace (off + 4 * Z.of_nat (S j)) with (off + 4 + 4 * Z.of_nat j) by lia. apply IH; [done|lia|].
    unfold st32. rewrite length_stn. lia.
Qed.

(** ** The inode *)

Section dinode.
Context (d : block) (off : Z) (i : inode) (Hoff : 0 <= off) (Hlen : off + 64 <= Z.of_nat (length d)) (Hi : length (i_addrs i) = 13%nat).

Lemma length_store_dinode : length (store_dinode d off i) = length d.
Proof using Type. unfold store_dinode, st16, st32. by rewrite length_store_addrs, !length_stn. Qed.

(** Bytes outside the inode. *)
Lemma ldn_store_dinode_ne k b : b + Z.of_nat k <= off \/ off + 64 <= b -> ldn k (store_dinode d off i) b = ldn k d b.
Proof using Hi.
  intros Hb. unfold store_dinode, st16, st32. rewrite ldn_store_addrs_ne by lia. by rewrite !ldn_stn_ne by lia.
Qed.

Hypothesis (Hf : dinode_fits i).

Lemma di_size_store : di_size (store_dinode d off i) off = i_size i.
Proof using Hoff Hlen Hi Hf.
  unfold di_size, store_dinode, ld32, st16, st32. rewrite ldn_store_addrs_ne by lia. rewrite ldn_stn_eq.
  - apply Z.mod_small, Hf.
  - intros c Hc. cbn. rewrite !length_stn. lia.
Qed.

Lemma di_addrs_store : di_addrs (store_dinode d off i) off = i_addrs i.
Proof using Hoff Hlen Hi Hf.
  unfold di_addrs. apply list_eq_same_length with (n := 13%nat); [done|by rewrite length_map|].
  intros j x y Hj Hx Hy. rewrite list_lookup_fmap, lookup_seqZ_lt in Hx by lia. injection Hx as <-.
  unfold store_dinode. rewrite Z.add_0_l. rewrite (ld32_store_addrs _ _ _ _ y) by (done || rewrite ?Hi; unfold st16, st32; rewrite ?length_stn; lia).
  apply u32_small. by eapply Hf.
Qed.

(** One of the four 16-bit fields at the start. *)
Lemma ld16_store v b (d1 : block) : - 2 ^ 15 <= v < 2 ^ 15 -> length d1 = length d -> off <= b -> b + 2 <= off + 64 ->
  s16 (ld16 (st16 d1 b v) b) = v.
Proof using Hoff Hlen Hi Hf.
  intros Hv Hl H0 H1. unfold ld16, st16. rewrite ldn_stn_eq by (intros c Hc; cbn; lia). by apply s16_mod.
Qed.

Lemma load_store_dinode (j : inode) : i_dev j = i_dev i -> i_inum j = i_inum i -> i_ref j = i_ref i ->
  i_lock j = i_lock i -> i_valid j = i_valid i -> load_dinode (store_dinode d off i) off j = i.
Proof using Hoff Hlen Hi Hf.
  intros E1 E2 E3 E4 E5. unfold load_dinode. rewrite E1, E2, E3, E4, E5, di_size_store, di_addrs_store.
  destruct Hf as [F1 F2 F3 F4 _ _ _].
  assert (T1 : di_type (store_dinode d off i) off = i_type i).
  { unfold di_type, store_dinode, ld16, st32. rewrite ldn_store_addrs_ne by lia. unfold st16 at 1 2 3 4. rewrite 4!(ldn_stn_ne _ 2) by lia.
    apply (ld16_store _ off); [done|by unfold st16; rewrite ?length_stn|lia..]. }
  assert (T2 : di_major (store_dinode d off i) off = i_major i).
  { unfold di_major, store_dinode, ld16, st32. rewrite ldn_store_addrs_ne by lia. unfold st16 at 1 2 3 4. rewrite 3!(ldn_stn_ne _ 2) by lia.
    apply (ld16_store _ (off + 2)); [done|by unfold st16; rewrite ?length_stn|lia..]. }
  assert (T3 : di_minor (store_dinode d off i) off = i_minor i).
  { unfold di_minor, store_dinode, ld16, st32. rewrite ldn_store_addrs_ne by lia. unfold st16 at 1 2 3 4. rewrite 2!(ldn_stn_ne _ 2) by lia.
    apply (ld16_store _ (off + 4)); [done|by unfold st16; rewrite ?length_stn|lia..]. }
  assert (T4 : di_nlink (store_dinode d off i) off = i_nlink i).
  { unfold di_nlink, store_dinode, ld16, st32. rewrite ldn_store_addrs_ne by lia. unfold st16 at 1 2 3 4. rewrite 1!(ldn_stn_ne _ 2) by lia.
    apply (ld16_store _ (off + 6)); [done|by unfold st16; rewrite ?length_stn|lia..]. }
  rewrite T1, T2, T3, T4. by destruct i.
Qed.
End dinode.

(** Another inode of the same block. *)
Lemma load_store_other d off off' i j : length (i_addrs i) = 13%nat -> off + 64 <= off' \/ off' + 64 <= off ->
  load_dinode (store_dinode d off i) off' j = load_dinode d off' j.
Proof.
  intros Hi Hd. unfold load_dinode, di_type, di_major, di_minor, di_nlink, di_size, ld16, ld32.
  rewrite !(ldn_store_dinode_ne d off i Hi) by lia. f_equal. unfold di_addrs. apply map_ext_in. intros k Hk%list_elem_of_In%elem_of_seqZ.
  unfold ld32. apply ldn_store_dinode_ne; [done|lia].
Qed.

Lemma dinode_off_bound inum : 0 <= dinode_off inum /\ dinode_off inum + 64 <= 1024.
Proof. unfold dinode_off. pose proof (Z.mod_pos_bound inum IPB ltac:(lia)). lia. Qed.

(** Two inodes of one block are apart. *)
Lemma dinode_apart inum inum' : inum <> inum' -> inum / IPB = inum' / IPB ->
  dinode_off inum + 64 <= dinode_off inum' \/ dinode_off inum' + 64 <= dinode_off inum.
Proof.
  intros Hne Hd. unfold dinode_off. rewrite (Z.div_mod inum IPB), (Z.div_mod inum' IPB), Hd in Hne by lia. lia.
Qed.

End Dinode.
