(* ===== verification/Inode.v ===== *)
(** * Files as byte sequences (bmap of kernel/fs.c)

    A file is a map from block numbers to disk blocks ([fblk]) and, through
    it, a sequence of bytes ([fbyte]); holes read as zeros.  bmap gives every
    block of the file a disk block without changing its bytes. *)

From S2P Require Import Prelude Bytes CString KState Spinlock Kernel Riscv Kalloc Vm Sched Console Virtio Disk Bio Cache Log Commit Transaction Fs Tx Balloc.

Module Inode.
Import Sched Virtio Disk Bio Cache Log Commit Transaction Fs Tx Balloc.

Section files.
Context (dv : nat) (sb : superblock).
Abbreviation used := (used dv sb).
Abbreviation geom := (geom dv sb).
Abbreviation bitmap_key := (bitmap_key dv sb).
Implicit Types (ct : disk) (i : inode).

(** ** Free blocks *)

Definition free_blocks ct : list Z := filter (fun b => used ct b = false) (seqZ 0 (sb_size sb)).
Definition nfree ct : nat := length (free_blocks ct).

Lemma elem_free_blocks ct b : b ∈ free_blocks ct <-> used ct b = false /\ 0 <= b < sb_size sb.
Proof. unfold free_blocks. rewrite list_elem_of_filter, elem_of_seqZ, Z.add_0_l. done. Qed.

Lemma nfree_pos ct : (0 < nfree ct)%nat -> exists b, 0 <= b < sb_size sb /\ used ct b = false.
Proof.
  unfold nfree. destruct (free_blocks ct) as [|b l] eqn:E; [cbn; lia|]. intros _. exists b.
  assert (Hb : b ∈ free_blocks ct) by (rewrite E; apply elem_of_cons; by left). apply elem_free_blocks in Hb. tauto.
Qed.

Lemma nfree_ext ct ct' : (forall b, 0 <= b < sb_size sb -> used ct' b = used ct b) -> nfree ct' = nfree ct.
Proof.
  intros Hu. unfold nfree. apply Permutation_length, NoDup_Permutation; [apply NoDup_filter, NoDup_seqZ..|].
  intros b. rewrite !elem_free_blocks. split; intros [Hb Hs]; (split; [|done]); by rewrite ?Hu in *.
Qed.

Lemma nfree_taken ct ct' r : 0 <= r < sb_size sb -> used ct r = false ->
  (forall b, 0 <= b < sb_size sb -> used ct' b = if bool_decide (b = r) then true else used ct b) ->
  nfree ct = S (nfree ct').
Proof.
  intros Hr Hf Hu. unfold nfree. change (S (length ?l)) with (length (r :: l)). apply Permutation_length.
  apply NoDup_Permutation.
  - apply NoDup_filter, NoDup_seqZ.
  - apply NoDup_cons. split; [|apply NoDup_filter, NoDup_seqZ]. rewrite elem_free_blocks, Hu by done.
    rewrite bool_decide_true by done. by intros [? _].
  - intros b. rewrite elem_of_cons, !elem_free_blocks. split.
    + intros [Hb Hs]. destruct (decide (b = r)) as [->|Hne]; [by left|right]. rewrite Hu by done. by rewrite bool_decide_false.
    + intros [->|[Hb Hs]]; [done|]. split; [|done]. rewrite Hu in Hb by done. case_bool_decide; done.
Qed.

(** ** The blocks of a file *)

Definition ind i : Z := i_addrs i !!! 12%nat.
Definition fblk ct i (bn : Z) : Z :=
  if bn <? NDIRECT then i_addrs i !!! Z.to_nat bn
  else if ind i =? 0 then 0
  else match ct !! (dv, ind i) with Some d => ld32 d (4 * (bn - NDIRECT)) | None => 0 end.

Definition fbyte ct i (off : Z) : Z :=
  let a := fblk ct i (off / BSIZE) in
  if a =? 0 then 0 else match ct !! (dv, a) with Some d => getb d (off mod BSIZE) | None => 0 end.

(** An allocated data block. *)
Definition good ct (a : Z) : Prop := 0 < a < sb_size sb /\ used ct a = true /\ bmap_end sb < a.

Lemma good_nb ct a : good ct a -> ~ bitmap_key (dv, a).
Proof. intros (_ & _ & H). by apply past_bitmap. Qed.

Record file_ok ct i : Prop := {
  fo_dev : i_dev i = dv;
  fo_len : length (i_addrs i) = 13%nat;
  fo_blk : forall bn, 0 <= bn < MAXFILE -> fblk ct i bn <> 0 -> good ct (fblk ct i bn) /\ fblk ct i bn <> ind i;
  fo_ind : ind i <> 0 -> good ct (ind i);
  fo_inj : forall bn bn', 0 <= bn < MAXFILE -> 0 <= bn' < MAXFILE ->
    fblk ct i bn = fblk ct i bn' -> fblk ct i bn <> 0 -> bn = bn'
}.

(** [a] is a block of the file. *)
Definition blk_of ct i (a : Z) : Prop := a = ind i \/ exists bn, 0 <= bn < MAXFILE /\ a = fblk ct i bn.

(** Blocks of other files keep their data and stay outside the file. *)
Definition others ct ct' i i' : Prop := forall a, good ct a -> ~ blk_of ct i a ->
  good ct' a /\ ~ blk_of ct' i' a /\ ct' !! (dv, a) = ct !! (dv, a).

Lemma others_refl ct i : others ct ct i i.
Proof. by intros a Hg Hn. Qed.
Lemma others_trans ct ct1 ct2 i i1 i2 : others ct ct1 i i1 -> others ct1 ct2 i1 i2 -> others ct ct2 i i2.
Proof.
  intros H1 H2 a Hg Hn. destruct (H1 a Hg Hn) as (Hg1 & Hn1 & E1). destruct (H2 a Hg1 Hn1) as (Hg2 & Hn2 & E2).
  split_and!; try done. by rewrite E2.
Qed.

(** Another file keeps its blocks, its bytes and its place. *)
Lemma others_file ct ct' i i' j : others ct ct' i i' -> file_ok ct j ->
  (forall a, a <> 0 -> blk_of ct j a -> ~ blk_of ct i a) ->
  file_ok ct' j /\ (forall bn, 0 <= bn < MAXFILE -> fblk ct' j bn = fblk ct j bn) /\
  (forall off, 0 <= off -> off / BSIZE < MAXFILE -> fbyte ct' j off = fbyte ct j off) /\
  (forall a, a <> 0 -> blk_of ct' j a -> ~ blk_of ct' i' a).
Proof.
  intros Ho [J1 J2 J3 J4 J5] Hdis.
  assert (Hk : forall a, a <> 0 -> blk_of ct j a -> good ct' a /\ ~ blk_of ct' i' a /\ ct' !! (dv, a) = ct !! (dv, a)).
  { intros a Ha Hb. apply Ho; [|by apply Hdis]. destruct Hb as [->|(bn & Hbn & ->)]; [by apply J4|by apply J3]. }
  assert (Hf : forall bn, 0 <= bn < MAXFILE -> fblk ct' j bn = fblk ct j bn).
  { intros bn Hbn. unfold fblk. destruct (Z.ltb_spec bn NDIRECT); [done|]. destruct (Z.eqb_spec (ind j) 0); [done|].
    destruct (Hk (ind j)) as (_ & _ & ->); [done|by left|done]. }
  assert (Hb : forall a, blk_of ct' j a -> blk_of ct j a).
  { intros a [->|(bn & Hbn & ->)]; [by left|right]. exists bn. by rewrite Hf. }
  split_and!; try done.
  - split; try done.
    + intros bn Hbn. rewrite Hf by done. intros Hne. split; [|by apply J3]. apply Hk; [done|]. right. by exists bn.
    + intros Hne. apply Hk; [done|by left].
    + intros bn bn' Hbn Hbn'. rewrite !Hf by done. by apply J5.
  - intros off H0 H1. assert (Hd : 0 <= off / BSIZE < MAXFILE) by (split; [apply Z.div_pos; lia|done]).
    unfold fbyte. rewrite Hf by done. destruct (Z.eqb_spec (fblk ct j (off / BSIZE)) 0); [done|].
    destruct (Hk (fblk ct j (off / BSIZE))) as (_ & _ & ->); [done|right; by eexists|done].
  - intros a Ha Hb'. by apply Hk, Hb.
Qed.

Lemma good_data ct a : geom ct -> good ct a -> exists d, ct !! (dv, a) = Some d /\ length d = 1024%nat.
Proof. intros Hg [Ha _]. apply (g_blocks _ _ _ Hg). lia. Qed.

(** A file seen through another disk and inode with the same blocks and data. *)
Lemma fbyte_ext ct ct' i i' off : 0 <= off ->
  fblk ct' i' (off / BSIZE) = fblk ct i (off / BSIZE) ->
  (fblk ct i (off / BSIZE) <> 0 -> ct' !! (dv, fblk ct i (off / BSIZE)) = ct !! (dv, fblk ct i (off / BSIZE))) ->
  fbyte ct' i' off = fbyte ct i off.
Proof.
  intros Ho Hb Hd. unfold fbyte. rewrite Hb. destruct (Z.eqb_spec (fblk ct i (off / BSIZE)) 0); [done|]. by rewrite Hd.
Qed.

(** ** A new block *)

(** [ct'] is [ct] with free block [r] taken and zeroed; blocks in use keep
    their data, the one at [x] aside. *)
Record fresh ct ct' (r x : Z) : Prop := {
  fr_range : 0 < r < sb_size sb;
  fr_free : used ct r = false;
  fr_data : bmap_end sb < r;
  fr_used : forall b, 0 <= b < sb_size sb -> used ct' b = if bool_decide (b = r) then true else used ct b;
  fr_zero : exists z, ct' !! (dv, r) = Some z /\ zeroed z;
  fr_keep : forall a, good ct a -> a <> x -> ct' !! (dv, a) = ct !! (dv, a)
}.

Section fresh.
Context ct ct' i i' (r : Z).
Context (Hf : fresh ct ct' r (ind i)) (Hok : file_ok ct i) (Hdev : i_dev i' = dv) (Hlen : length (i_addrs i') = 13%nat).

Lemma good_mono a : good ct a -> good ct' a /\ a <> r.
Proof.
  intros (H1 & H2 & H3). split.
  - split_and!; try done; try lia. rewrite (fr_used _ _ _ _ Hf) by lia. case_bool_decide; done.
  - intros ->. pose proof (fr_free _ _ _ _ Hf). congruence.
Qed.

Lemma good_fresh : good ct' r.
Proof.
  pose proof (fr_range _ _ _ _ Hf). split_and!; [lia|lia| |apply Hf]. rewrite (fr_used _ _ _ _ Hf) by lia.
  by rewrite bool_decide_true.
Qed.

(** [r] becomes block [bn] of the file. *)
Section slot.
Context (bn : Z) (Hbn : 0 <= bn < MAXFILE) (Hnone : fblk ct i bn = 0) (Hind : ind i' = ind i).
Context (Hblk : forall b, 0 <= b < MAXFILE -> fblk ct' i' b = if bool_decide (b = bn) then r else fblk ct i b).

Lemma file_ok_slot : file_ok ct' i'.
Proof.
  pose proof (fr_range _ _ _ _ Hf) as Hr. split; [done|done|..].
  - intros b Hb Hne. rewrite Hblk in * by done. rewrite Hind. case_bool_decide as E.
    + split; [apply good_fresh|]. destruct (decide (ind i = 0)) as [->|Hi]; [lia|].
      pose proof (good_mono _ (fo_ind _ _ Hok Hi)) as [_ ?]. congruence.
    + destruct (fo_blk _ _ Hok b Hb Hne) as [Hg Hi]. split; [by apply good_mono|done].
  - rewrite Hind. intros Hi. by apply good_mono, Hok.
  - intros b b' Hb Hb'. rewrite !Hblk by done. repeat case_bool_decide; try congruence.
    + intros Heq _. exfalso. destruct (fo_blk _ _ Hok b' Hb') as [Hg _]; [lia|]. by apply good_mono in Hg as [_ Hg].
    + intros Heq Hne. exfalso. destruct (fo_blk _ _ Hok b Hb) as [Hg _]; [done|]. by apply good_mono in Hg as [_ Hg].
    + by apply Hok.
Qed.

Lemma fbyte_slot off : 0 <= off -> off / BSIZE < MAXFILE -> fbyte ct' i' off = fbyte ct i off.
Proof.
  intros Ho Hm. assert (Hb : 0 <= off / BSIZE < MAXFILE) by (split; [apply Z.div_pos; lia|done]).
  destruct (decide (off / BSIZE = bn)) as [E|E].
  - unfold fbyte. rewrite Hblk by done. rewrite bool_decide_true, E, Hnone by done. pose proof (fr_range _ _ _ _ Hf).
    destruct (Z.eqb_spec r 0); [lia|]. destruct (fr_zero _ _ _ _ Hf) as (z & -> & Hz). apply Hz.
  - apply fbyte_ext; [done|rewrite Hblk by done; by rewrite bool_decide_false|].
    intros Hne. destruct (fo_blk _ _ Hok _ Hb Hne) as [Hg Hi]. by apply Hf.
Qed.

Lemma others_slot : others ct ct' i i'.
Proof using All.
  intros a Hg Hn. destruct (good_mono a Hg) as [Hg' Hr]. assert (Ha : a <> ind i) by (intros ->; apply Hn; by left).
  split_and!; [done| |by apply Hf]. intros [->|(b & Hb & ->)]; [done|]. rewrite Hblk in * by done.
  case_bool_decide; [done|]. apply Hn. right. by exists b.
Qed.
End slot.

(** [r] becomes the indirect block. *)
Section indirect.
Context (Hnone : ind i = 0) (Hind : ind i' = r).
Context (Hdir : forall b, 0 <= b < NDIRECT -> i_addrs i' !!! Z.to_nat b = i_addrs i !!! Z.to_nat b).

Lemma fblk_indirect b : 0 <= b -> fblk ct' i' b = fblk ct i b.
Proof.
  intros Hb. unfold fblk. destruct (Z.ltb_spec b NDIRECT); [apply Hdir; lia|]. rewrite Hnone, Hind. cbn [Z.eqb].
  destruct (fr_zero _ _ _ _ Hf) as (z & -> & _ & Hz). destruct (r =? 0); [done|].
  unfold ld32, ldn. by rewrite !Hz.
Qed.

Lemma file_ok_indirect : file_ok ct' i'.
Proof.
  split; [done|done|..].
  - intros b Hb Hne. rewrite fblk_indirect in * by lia. destruct (fo_blk _ _ Hok b Hb Hne) as [Hg _].
    rewrite Hind. by apply good_mono.
  - intros _. rewrite Hind. apply good_fresh.
  - intros b b' Hb Hb'. rewrite !fblk_indirect by lia. by apply Hok.
Qed.

Lemma fbyte_indirect off : 0 <= off -> off / BSIZE < MAXFILE -> fbyte ct' i' off = fbyte ct i off.
Proof.
  intros Ho Hm. assert (Hb : 0 <= off / BSIZE < MAXFILE) by (split; [apply Z.div_pos; lia|done]).
  apply fbyte_ext; [done|apply fblk_indirect; lia|]. intros Hne. destruct (fo_blk _ _ Hok _ Hb Hne) as [Hg Hi]. by apply Hf.
Qed.

Lemma others_indirect : others ct ct' i i'.
Proof using All.
  intros a Hg Hn. destruct (good_mono a Hg) as [Hg' Hr]. assert (Ha : a <> ind i) by (intros ->; apply Hn; by left).
  split_and!; [done| |by apply Hf]. intros [->|(b & Hb & ->)]; [done|]. apply Hn. right. exists b.
  by rewrite fblk_indirect by lia.
Qed.
End indirect.
End fresh.
End files.

(** ** bmap in a transaction *)

Section bmap.
Context (E : kstate -> kstate -> Prop) `{HE : !DiskEnv E} (h p dv : nat) (sb : superblock) (ip : nat).
Abbreviation tx := (tx E h p dv).
Abbreviation tmoves := (tmoves E h p).
Abbreviation used := (used dv sb).
Abbreviation geom := (geom dv sb).
Abbreviation good := (good dv sb).
Abbreviation file_ok := (file_ok dv sb).
Abbreviation fblk := (fblk dv).
Abbreviation fbyte := (fbyte dv).
Abbreviation nfree := (nfree dv sb).
Abbreviation bitmap_key := (bitmap_key dv sb).

(** What an operation on inode [ip] may change: the lock layer, sleepers, the
    driver, buffers and log, the in-memory inode, and memory in [W]. *)
Definition calm (W : Z -> Prop) (s s' : kstate) : Prop :=
  exists y m t v bs l i, s' = mkK y m (freelist s) (kernel_pagetable s) t bs l
      (set_icache (<[ip := i]> (icache (fs s))) (fs s)) (ftable s) (devsw s) (pipes s) (cons s) v (dev s) (ld s) /\
    pt_sim (pt s) t /\ (forall a, ~ scratch a -> ~ W a -> getb m a = getb (mm s) a) /\ l_start <$> l = l_start <$> logs s.

Lemma calm_trans W s s1 s2 : calm W s s1 -> calm W s1 s2 -> calm W s s2.
Proof.
  intros (y & m & t & v & bs & l & i & -> & Ht & Hm & Hst) (y' & m' & t' & v' & bs' & l' & i' & -> & Ht' & Hm' & Hst').
  exists y', m', t', v', bs', l', i'. split; [|split; [by etrans|split; [|by etrans]]].
  - cbn. by rewrite list_insert_insert_eq.
  - intros a H1 H2. rewrite Hm' by done. by apply Hm.
Qed.

(** [i] is the in-memory copy of the inode. *)
Definition live (s : kstate) (i : inode) : Prop :=
  (ip < length (icache (fs s)))%nat /\ inode_at ip s = i /\ KState.sb (fs s) = sb.

Lemma calm_tmoves W s s' i : live s i -> tmoves s s' -> calm W s s' /\ live s' i.
Proof.
  intros (Hl & Hi & Hs) Hm. pose proof (tmoves_fs _ _ _ _ _ Hm) as Hfs. split; [|unfold live, inode_at; by rewrite Hfs].
  destruct Hm as (l & (y & m & t & v & Hs' & _ & Ht & Hm & _) & Hd & Hst). exists y, m, t, v, (bufs s'), l, i.
  split; [|split; [done|split; [|done]]].
  - rewrite Hs' at 1. unfold io_upd. rewrite Hd. cbn. f_equal. unfold inode_at in Hi. rewrite <-Hi.
    rewrite list_insert_id by (by apply list_lookup_lookup_total_lt). by destruct (fs s).
  - intros a Ha _. by apply Hm.
Qed.

Lemma tx_set_inode i s lg ct H : tx s lg ct H -> tx (set_inode_at ip i s) lg ct H.
Proof.
  intros [(L & rc & [[H1 H2 H3] HC HL Hh Hf Hk] & Hrest) Hdv Hdirty]. split; [|done|done].
  exists L, rc. split; [|done]. split; try done. split; [done| |done]. eapply ready_ext; try exact H2; done.
Qed.

Lemma set_inode_calm W i s i0 : live s i0 -> calm W s (set_inode_at ip i s) /\ live (set_inode_at ip i s) i.
Proof.
  intros (Hl & Hi & Hs). split.
  - exists (sy s), (mm s), (pt s), (vdisks s), (bufs s), (logs s), i. split; [by destruct s|]. done.
  - unfold live, inode_at. cbn. rewrite length_insert. split_and!; [done|by apply list_lookup_total_insert_eq|done].
Qed.

(** balloc() as a step to a disk with one more block in use. *)
Lemma runE_balloc_fresh s lg ct H i (Q : Z -> kstate -> Prop) : tx s lg ct H -> live s i -> geom ct ->
  (forall k, k ∈ keys H -> exists a, k = (dv, a) /\ good ct a) ->
  (size lg < 28)%nat -> (size lg + length H < 29)%nat -> (0 < nfree ct)%nat ->
  (forall r s' ct' lg', tmoves s s' -> live s' i -> tx s' lg' ct' H -> geom ct' -> (size lg' <= size lg + 2)%nat -> grows dv sb lg lg' ->
     (forall x, fresh dv sb ct ct' r x) -> nfree ct = S (nfree ct') ->
     (forall k, ct' !! k <> ct !! k -> bitmap_key k \/ k = (dv, r)) -> Q r s') ->
  runE E (balloc dv) s Q.
Proof.
  intros Htx Hlive Hg HH Hlg Hroom Hn HQ. destruct (nfree_pos _ _ _ Hn) as (b0 & Hb0).
  eapply (runE_balloc E h p dv sb s lg ct H Htx); try done.
  - apply Hlive.
  - intros k Hk. destruct (HH k Hk) as (a & -> & Ha). by eapply good_nb.
  - intros b Hb. destruct (HH _ Hb) as (a & [= ->] & Ha). apply Ha.
  - by exists b0.
  - intros r s' (d & z & Hr & Hf & _ & Hd & Hz & Hm & Htx').
    assert (Hr' : 0 <= r < sb_size sb) by lia.
    pose proof (used_taken dv sb ct Hg r d z Hr' Hf Hd) as Hu. destruct (BBLOCK_eq dv sb ct r Hg Hr') as (_ & _ & Kr).
    destruct (free_data dv sb ct r Hg ltac:(lia) Hf) as [_ Hdat]. pose proof (past_bitmap dv sb r Hdat) as Hnb.
    eapply HQ; [exact Hm|by eapply (calm_tmoves (fun _ => False))|exact Htx'|by apply geom_taken| | | |by eapply nfree_taken|].
    + pose proof (size_add (dv, r) ({[(dv, BBLOCK r sb)]} ∪ lg)). pose proof (size_add (dv, BBLOCK r sb) lg). lia.
    + pose proof (g_ino _ _ _ Hg). pose proof (g_bmap _ _ _ Hg). destruct (BBLOCK_eq dv sb ct r Hg Hr') as (_ & Hb1 & _ & Hb2).
      apply grows_add; [apply grows_add; [apply grows_refl|]|]; (split; [done|cbn in *; lia]).
    + intros x. split; try done; [unfold taken; rewrite lookup_insert_eq; by exists z|].
      intros a Ha _. pose proof (good_nb _ _ _ _ Ha). destruct Ha as (_ & Ha2 & _). unfold taken. rewrite !lookup_insert_ne; [done|congruence..].
    + intros k Hk. unfold taken in Hk. destruct (decide (k = (dv, r))) as [->|Hne]; [by right|left].
      rewrite lookup_insert_ne in Hk by done. destruct (decide (k = (dv, BBLOCK r sb))) as [->|Hne']; [done|].
      by rewrite lookup_insert_ne in Hk.
Qed.

Lemma bmap_end_ge ct : geom ct -> sb_bmapstart sb <= bmap_end sb.
Proof. intros Hg. unfold bmap_end. pose proof (g_size _ _ _ Hg). pose proof (Z.div_pos (sb_size sb - 1) BPB). lia. Qed.

(** Taking a block leaves the blocks before the bitmap alone. *)
Lemma meta_fresh ct ct' r : geom ct -> fresh dv sb ct ct' r 0 -> (forall k, ct' !! k <> ct !! k -> bitmap_key k \/ k = (dv, r)) ->
  forall b, b < sb_bmapstart sb -> ct' !! (dv, b) = ct !! (dv, b).
Proof.
  intros Hg Hf Hk b Hb. destruct (decide (ct' !! (dv, b) = ct !! (dv, b))) as [|Hne]; [done|exfalso].
  pose proof (bmap_end_ge ct Hg). destruct (Hk _ Hne) as [Hkey|[= ->]]; [by eapply before_bitmap; [|exact Hkey]|].
  pose proof (fr_data _ _ _ _ _ _ Hf). lia.
Qed.

(** The file after some of its holes got blocks: it has the same bytes. *)
Record extended (s s' : kstate) (lg lg' : gset bkey) (ct ct' : disk) (i i' : inode)
    (H : list (nat * bkey * block)) (c f : nat) : Prop := {
  ex_calm : calm (fun _ => False) s s';
  ex_live : live s' i';
  ex_tx : tx s' lg' ct' H;
  ex_geom : geom ct';
  ex_ok : file_ok ct' i';
  ex_bytes : forall off, 0 <= off -> off / BSIZE < MAXFILE -> fbyte ct' i' off = fbyte ct i off;
  ex_others : others dv sb ct ct' i i';
  ex_mapped : forall b, 0 <= b < MAXFILE -> fblk ct i b <> 0 -> fblk ct' i' b <> 0;
  ex_grows : grows dv sb lg lg';
  ex_log : (size lg' <= size lg + c)%nat;
  ex_free : (nfree ct <= nfree ct' + f)%nat;
  ex_inode : exists al, i' = set_i_addrs al i;
  ex_meta : forall b, b < sb_bmapstart sb -> ct' !! (dv, b) = ct !! (dv, b)
}.

Lemma extended_refl s lg ct i H : tx s lg ct H -> live s i -> geom ct -> file_ok ct i ->
  extended s s lg lg ct ct i i H 0 0.
Proof.
  intros Htx Hl Hg Hok. split; try done; try lia.
  - by eapply calm_tmoves; [|eapply tmoves_refl].
  - apply grows_refl.
  - exists (i_addrs i). by destruct i.
Qed.

Lemma extended_trans s s1 s2 lg lg1 lg2 ct ct1 ct2 i i1 i2 H H1 c c' f f' :
  extended s s1 lg lg1 ct ct1 i i1 H c f -> extended s1 s2 lg1 lg2 ct1 ct2 i1 i2 H1 c' f' ->
  extended s s2 lg lg2 ct ct2 i i2 H1 (c + c') (f + f').
Proof.
  intros [A1 A2 A3 A4 A5 A6 A0 A10 A11 A7 A8 (al & ->) A12] [B1 B2 B3 B4 B5 B6 B0 B10 B11 B7 B8 (al' & ->) B12]. split; try done; try lia.
  - by eapply calm_trans.
  - intros off Ho Hm. rewrite B6, A6 by done. done.
  - by eapply others_trans.
  - intros b Hb Hne. by apply B10, A10.
  - by eapply grows_trans.
  - by exists al'.
  - intros b Hb. by rewrite B12, A12.
Qed.

(** Steps that change no block of the file. *)
Lemma extended_moves s s1 s2 lg lg1 ct ct1 i i1 H H' c f : extended s s1 lg lg1 ct ct1 i i1 H c f ->
  tmoves s1 s2 -> tx s2 lg1 ct1 H' -> extended s s2 lg lg1 ct ct1 i i1 H' c f.
Proof.
  intros [A1 A2 A3 A4 A5 A6 A0 A10 A11 A7 A8 A9 A12] Hm Htx. destruct (calm_tmoves (fun _ => False) _ _ _ A2 Hm) as [Hc Hl].
  split; try done. by eapply calm_trans.
Qed.

(** The in-memory inode gets address [r] at index [n]. *)
Definition with_addr (n : nat) (r : Z) (i : inode) : inode := set_i_addrs (<[n := r]> (i_addrs i)) i.

Lemma with_addr_len n r i : length (i_addrs (with_addr n r i)) = length (i_addrs i).
Proof. apply length_insert. Qed.
Lemma with_addr_dev n r i : i_dev (with_addr n r i) = i_dev i.
Proof. done. Qed.

Lemma runE_set_addr s i n r (Q : unit -> kstate -> Prop) : live s i ->
  Q tt (set_inode_at ip (with_addr (Z.to_nat n) r i) s) -> runE E (set_addr ip n r) s Q.
Proof. intros (_ & Hi & _) HQ. unfold set_addr. wp. by rewrite Hi. Qed.

Lemma fblk_direct ct i bn : bn < NDIRECT -> fblk ct i bn = i_addrs i !!! Z.to_nat bn.
Proof. intros. unfold Inode.fblk. destruct (Z.ltb_spec bn NDIRECT); [done|lia]. Qed.

Lemma slot_direct ct ct' i r bn x : file_ok ct i -> fresh dv sb ct ct' r x -> 0 <= bn < NDIRECT -> ind i <> x ->
  forall b, 0 <= b < MAXFILE ->
    fblk ct' (with_addr (Z.to_nat bn) r i) b = if bool_decide (b = bn) then r else fblk ct i b.
Proof.
  intros Hok Hf Hbn Hx b Hb. destruct (Z_lt_ge_dec b NDIRECT) as [Hd|Hd].
  - rewrite !fblk_direct by lia. cbn. case_bool_decide as E0.
    + subst b. apply list_lookup_total_insert_eq. rewrite (fo_len _ _ _ _ Hok). lia.
    + apply list_lookup_total_insert_ne. lia.
  - rewrite bool_decide_false by lia. unfold Inode.fblk. destruct (Z.ltb_spec b NDIRECT); [lia|].
    assert (ind (with_addr (Z.to_nat bn) r i) = ind i) as -> by (unfold ind; cbn; apply list_lookup_total_insert_ne; lia).
    destruct (Z.eqb_spec (ind i) 0) as [Hz|Hz]; [done|]. rewrite (fr_keep _ _ _ _ _ _ Hf) by (done || by apply Hok). done.
Qed.

(** A direct block. *)
Lemma runE_bmap_direct s lg ct i bn (Q : Z -> kstate -> Prop) : tx s lg ct [] -> live s i -> geom ct -> file_ok ct i ->
  (size lg < 28)%nat -> (0 < nfree ct)%nat -> 0 <= bn < NDIRECT ->
  (forall s' lg' ct' i', extended s s' lg lg' ct ct' i i' [] 2 1 -> fblk ct' i' bn <> 0 -> Q (fblk ct' i' bn) s') ->
  runE E (let addr := i_addrs i !!! Z.to_nat bn in
    if addr =? 0 then
      addr <- balloc (i_dev i) ;;
      set_addr ip bn addr ;;
      ret addr
    else ret addr) s Q.
Proof.
  intros Htx Hl Hg Hok Hlg Hn Hbn HQ. cbv zeta. rewrite <-(fblk_direct ct i bn) by lia.
  destruct (Z.eqb_spec (fblk ct i bn) 0) as [Hz|Hnz].
  - rewrite (fo_dev _ _ _ _ Hok). apply runE_bind. eapply (runE_balloc_fresh s lg ct [] i); try done; [by intros k ?%elem_of_nil|cbn; lia|].
    intros r s1 ct1 lg1 M1 L1 T1 G1 Hs1 Hgr1 Hf1 Hn1 Hk1. apply runE_bind. eapply runE_set_addr; [exact L1|]. wp.
    set (i' := with_addr (Z.to_nat bn) r i). pose proof (slot_direct ct ct1 i r bn (ind i + 1) Hok (Hf1 _) Hbn ltac:(lia)) as Hblk. fold i' in Hblk.
    destruct (set_inode_calm (fun _ => False) i' s1 i L1) as [C2 L2].
    pose proof (fr_range _ _ _ _ _ _ (Hf1 0)) as Hr.
    assert (Hind : ind i' = ind i) by (unfold ind, i'; cbn; apply list_lookup_total_insert_ne; lia).
    assert (Hlen' : length (i_addrs i') = 13%nat) by (unfold i'; rewrite with_addr_len; apply Hok).
    assert (Hat : fblk ct1 i' bn = r) by (rewrite Hblk by lia; by rewrite bool_decide_true).
    rewrite <-Hat. apply (HQ _ lg1 ct1 i'); [|lia]. split; try done; try lia.
    + eapply calm_trans; [by eapply calm_tmoves|exact C2].
    + by apply tx_set_inode.
    + exact (file_ok_slot dv sb ct ct1 i i' r (Hf1 _) Hok (fo_dev _ _ _ _ Hok) Hlen' bn Hind Hblk).
    + exact (fbyte_slot dv sb ct ct1 i i' r (Hf1 _) Hok (fo_dev _ _ _ _ Hok) Hlen' bn Hz Hblk).
    + exact (others_slot dv sb ct ct1 i i' r (Hf1 _) Hok (fo_dev _ _ _ _ Hok) Hlen' bn ltac:(lia) Hz Hind Hblk).
    + intros b Hb Hne. rewrite Hblk by done. case_bool_decide; lia.
    + by eexists.
    + by apply (meta_fresh ct ct1 r).
  - wp. apply (HQ s lg ct i); [|done]. destruct (extended_refl s lg ct i [] Htx Hl Hg Hok). split; try done; lia.
Qed.

(** The indirect block. *)
Lemma runE_bmap_ind s lg ct i (Q : Z -> kstate -> Prop) : tx s lg ct [] -> live s i -> geom ct -> file_ok ct i ->
  (size lg < 28)%nat -> (0 < nfree ct)%nat ->
  (forall s' lg' ct' i', extended s s' lg lg' ct ct' i i' [] 2 1 -> ind i' <> 0 -> Q (ind i') s') ->
  runE E (if ind i =? 0 then
      addr <- balloc (i_dev i) ;;
      set_addr ip NDIRECT addr ;;
      ret addr
    else ret (ind i)) s Q.
Proof.
  intros Htx Hl Hg Hok Hlg Hn HQ. destruct (Z.eqb_spec (ind i) 0) as [Hz|Hnz].
  - rewrite (fo_dev _ _ _ _ Hok). apply runE_bind. eapply (runE_balloc_fresh s lg ct [] i); try done; [by intros k ?%elem_of_nil|cbn; lia|].
    intros r s1 ct1 lg1 M1 L1 T1 G1 Hs1 Hgr1 Hf1 Hn1 Hk1. apply runE_bind. eapply runE_set_addr; [exact L1|]. wp.
    set (i' := with_addr (Z.to_nat NDIRECT) r i). destruct (set_inode_calm (fun _ => False) i' s1 i L1) as [C2 L2].
    pose proof (fr_range _ _ _ _ _ _ (Hf1 0)) as Hr. pose proof (fo_len _ _ _ _ Hok) as Hlen.
    assert (Hind : ind i' = r) by (unfold ind, i'; cbn; apply list_lookup_total_insert_eq; lia).
    assert (Hlen' : length (i_addrs i') = 13%nat) by (unfold i'; by rewrite with_addr_len).
    assert (Hdir : forall b, 0 <= b < NDIRECT -> i_addrs i' !!! Z.to_nat b = i_addrs i !!! Z.to_nat b).
    { intros b Hb. unfold i'. cbn. apply list_lookup_total_insert_ne. lia. }
    rewrite <-Hind at 1. apply (HQ _ lg1 ct1 i'); [|lia]. split; try done; try lia.
    + eapply calm_trans; [by eapply calm_tmoves|exact C2].
    + by apply tx_set_inode.
    + exact (file_ok_indirect dv sb ct ct1 i i' r (Hf1 _) Hok (fo_dev _ _ _ _ Hok) Hlen' Hz Hind Hdir).
    + exact (fbyte_indirect dv sb ct ct1 i i' r (Hf1 _) Hok (fo_dev _ _ _ _ Hok) Hlen' Hz Hind Hdir).
    + exact (others_indirect dv sb ct ct1 i i' r (Hf1 _) Hok (fo_dev _ _ _ _ Hok) Hlen' Hz Hind Hdir).
    + intros b Hb. by rewrite (fblk_indirect dv sb ct ct1 i i' r (Hf1 _) (fo_dev _ _ _ _ Hok) Hlen' Hz Hind Hdir) by lia.
    + by eexists.
    + by apply (meta_fresh ct ct1 r).
  - wp. apply (HQ s lg ct i); [|done]. destruct (extended_refl s lg ct i [] Htx Hl Hg Hok). split; try done; lia.
Qed.

(** An entry of the indirect block. *)
Lemma fblk_entry ct i bn d : NDIRECT <= bn -> ind i <> 0 -> ct !! (dv, ind i) = Some d -> fblk ct i bn = ld32 d (4 * (bn - NDIRECT)).
Proof.
  intros Hbn Hi Hd. unfold Inode.fblk. destruct (Z.ltb_spec bn NDIRECT); [lia|]. destruct (Z.eqb_spec (ind i) 0); [done|]. by rewrite Hd.
Qed.

Lemma slot_entry ct ct' i r bn d : file_ok ct i -> geom ct -> fresh dv sb ct ct' r (ind i) -> NDIRECT <= bn < MAXFILE -> ind i <> 0 ->
  ct !! (dv, ind i) = Some d -> length d = 1024%nat -> ct' !! (dv, ind i) = Some (st32 d (4 * (bn - NDIRECT)) r) -> r < 2 ^ 32 ->
  forall b, 0 <= b < MAXFILE -> fblk ct' i b = if bool_decide (b = bn) then r else fblk ct i b.
Proof.
  intros Hok Hg Hf Hbn Hi Hd Hlen Hd' Hr32 b Hb. destruct (Z_lt_ge_dec b NDIRECT) as [Hlt|Hge].
  - rewrite !fblk_direct by lia. by rewrite bool_decide_false by lia.
  - rewrite (fblk_entry ct' i b _ ltac:(lia) Hi Hd'), (fblk_entry ct i b _ ltac:(lia) Hi Hd). unfold ld32, st32.
    pose proof (fr_range _ _ _ _ _ _ Hf). case_bool_decide as E0.
    + subst b. rewrite ldn_stn_eq; [apply Z.mod_small; lia|]. intros c Hc. cbn. lia.
    + rewrite ldn_stn_ne by lia. done.
Qed.

(** Writing a block that is not part of the bitmap. *)
Lemma geom_write ct a d : geom ct -> ~ bitmap_key (dv, a) -> length d = 1024%nat -> geom (<[(dv, a) := d]> ct).
Proof.
  intros Hg Hnb Hlen. pose proof (g_size _ _ _ Hg). split; try apply Hg.
  - intros b Hb. destruct (decide (b = a)) as [->|Hne]; [rewrite lookup_insert_eq; by eexists|].
    rewrite lookup_insert_ne by congruence. by apply Hg.
  - intros b Hb. pose proof (g_bmap _ _ _ Hg). rewrite used_other by (done || lia). by apply Hg.
Qed.

Lemma nfree_write ct a d : geom ct -> ~ bitmap_key (dv, a) -> nfree (<[(dv, a) := d]> ct) = nfree ct.
Proof.
  intros Hg Hnb. apply nfree_ext. intros b Hb. by apply used_other.
Qed.

Lemma fresh_write ct ct' r x d : geom ct' -> good ct x -> fresh dv sb ct ct' r x -> fresh dv sb ct (<[(dv, x) := d]> ct') r x.
Proof.
  intros Hg Hx [F1 F2 F3 F4 F5 F6]. split; try done.
  - intros b Hb. rewrite used_other by (done || by eapply good_nb). by apply F4.
  - rewrite lookup_insert_ne; [done|]. intros [= ->]. destruct Hx as (_ & ? & _). congruence.
  - intros a Ha Hne. rewrite lookup_insert_ne by congruence. by apply F6.
Qed.

(** The entry of an existing indirect block. *)
Lemma runE_bmap_entry s lg ct i bn (Q : Z -> kstate -> Prop) : tx s lg ct [] -> live s i -> geom ct -> file_ok ct i ->
  (size lg < 27)%nat -> (0 < nfree ct)%nat -> NDIRECT <= bn < MAXFILE -> ind i <> 0 ->
  (forall s' lg' ct' i', extended s s' lg lg' ct ct' i i' [] 3 1 -> fblk ct' i' bn <> 0 -> Q (fblk ct' i' bn) s') ->
  runE E (bp <- bread dv (ind i) ;;
    d <- data_of bp ;;
    let addr := ld32 d (4 * (bn - NDIRECT)) in
    addr <- (if addr =? 0 then
               addr <- balloc dv ;;
               upd_data bp (fun d => st32 d (4 * (bn - NDIRECT)) addr) ;;
               log_write bp ;;
               ret addr
             else ret addr) ;;
    brelse bp ;;
    ret addr) s Q.
Proof.
  intros Htx Hl Hg Hok Hlg Hn Hbn Hi HQ. pose proof (fo_ind _ _ _ _ Hok Hi) as Hgi. pose proof (g_size _ _ _ Hg) as Hsz.
  destruct (good_data _ _ _ _ Hg Hgi) as (d & Hd & Hlen). assert (Hk0 : (dv, ind i) <> (0%nat, 0)) by (intros [= _ E0]; done).
  apply runE_bind. eapply tx_bread; [exact Htx|done|apply not_elem_of_nil|exact Hd|cbn; lia|]. intros bp s1 M1 T1.
  destruct (calm_tmoves (fun _ => False) _ _ _ Hl M1) as [_ L1]. apply runE_bind.
  eapply runE_data_of; [exact T1|apply elem_of_cons; by left|]. cbv zeta. rewrite <-(fblk_entry ct i bn d) by (done || lia).
  destruct (extended_refl s lg ct i [] Htx Hl Hg Hok) as [X1 X2 X3 X4 X5 X6 X0 X10 X11 X7 X8 X9 X12].
  apply runE_bind. destruct (Z.eqb_spec (fblk ct i bn) 0) as [Hz|Hnz].
  - apply runE_bind. eapply (runE_balloc_fresh s1 lg ct _ i); [exact T1|done|done| |lia|cbn; lia|done|].
    { intros k [->|?%elem_of_nil]%elem_of_cons; [|done]. by exists (ind i). }
    intros r s2 ct2 lg2 M2 L2 T2 G2 Hs2 Hgr2 Hf2 Hn2 Hk2. pose proof (fr_range _ _ _ _ _ _ (Hf2 0)) as Hr.
    assert (Hd2 : ct2 !! (dv, ind i) = Some d) by (rewrite (fr_keep _ _ _ _ _ _ (Hf2 (ind i + 1))) by (done || lia); done).
    apply runE_bind. unfold upd_data. eapply (tx_upd _ _ _ _ _ _ _ _ _ _ d (fun d => st32 d (4 * (bn - NDIRECT)) r)); [exact T2|done|].
    intros s3 M3 T3. apply runE_bind. pose proof (good_nb _ _ _ _ Hgi) as Hgn. destruct Hgi as (Hgi1 & Hgi2 & Hgi3) eqn:Eg. clear Eg.
    eapply tx_log_write; [exact T3|done|lia|lia|]. intros s4 M4 T4. wp.
    eapply tx_brelse; [exact T4|done|apply lookup_insert_eq|]. intros s5 M5 T5. wp.
    set (ct3 := <[(dv, ind i) := _]> ct2) in *. pose proof (fresh_write ct ct2 r (ind i) (st32 d (4 * (bn - NDIRECT)) r) G2 ltac:(done) (Hf2 _)) as Hf3. fold ct3 in Hf3.
    assert (Hblk := slot_entry ct ct3 i r bn d Hok Hg Hf3 Hbn Hi Hd Hlen (lookup_insert_eq _ _ _) ltac:(lia)).
    assert (Hat : fblk ct3 i bn = r) by (rewrite Hblk by lia; by rewrite bool_decide_true).
    assert (Hm : tmoves s s5).
    { eapply tmoves_trans; [exact M1|]. eapply tmoves_trans; [exact M2|]. eapply tmoves_trans; [exact M3|]. by eapply tmoves_trans. }
    destruct (calm_tmoves (fun _ => False) _ _ _ Hl Hm) as [C5 L5]. pose proof (size_add (dv, ind i) lg2).
    rewrite <-Hat. apply (HQ s5 ({[(dv, ind i)]} ∪ lg2) ct3 i); [|lia]. split; try done; try lia.
    + apply geom_write; [done|done|]. by rewrite length_st32.
    + exact (file_ok_slot dv sb ct ct3 i i r Hf3 Hok (fo_dev _ _ _ _ Hok) (fo_len _ _ _ _ Hok) bn eq_refl Hblk).
    + exact (fbyte_slot dv sb ct ct3 i i r Hf3 Hok (fo_dev _ _ _ _ Hok) (fo_len _ _ _ _ Hok) bn Hz Hblk).
    + exact (others_slot dv sb ct ct3 i i r Hf3 Hok (fo_dev _ _ _ _ Hok) (fo_len _ _ _ _ Hok) bn ltac:(lia) Hz eq_refl Hblk).
    + intros b Hb Hne. rewrite Hblk by done. case_bool_decide; lia.
    + pose proof (g_ino _ _ _ Hg). apply grows_add; [done|]. split; [done|]. unfold bmap_end in *. cbn. pose proof (Z.div_pos (sb_size sb - 1) BPB). lia.
    + unfold ct3. rewrite nfree_write by done. lia.
    + intros b Hb. unfold ct3. rewrite lookup_insert_ne by (pose proof (bmap_end_ge ct Hg); intros [= E0]; lia). by apply (meta_fresh ct ct2 r).
  - wp. eapply tx_brelse; [exact T1|done|exact Hd|]. intros s2 M2 T2. wp. apply (HQ s2 lg ct i); [|done].
    destruct (calm_tmoves (fun _ => False) _ _ _ Hl (tmoves_trans _ _ _ _ _ _ M1 M2)) as [C2 L2]. split; try done; lia.
Qed.

(** bmap(): block [bn] of the file has a disk block afterwards, and the file
    has the same bytes. *)
Lemma runE_bmap s lg ct i bn (Q : Z -> kstate -> Prop) : tx s lg ct [] -> live s i -> geom ct -> file_ok ct i ->
  (size lg < 25)%nat -> (2 <= nfree ct)%nat -> 0 <= bn < MAXFILE ->
  (forall s' lg' ct' i', extended s s' lg lg' ct ct' i i' [] 5 2 -> fblk ct' i' bn <> 0 -> Q (fblk ct' i' bn) s') ->
  runE E (bmap ip bn) s Q.
Proof.
  intros Htx Hl Hg Hok Hlg Hn Hbn HQ. unfold bmap. apply runE_bind. destruct Hl as (Hl1 & Hi & Hs) eqn:E0. clear E0. wp. rewrite Hi.
  destruct (Z.ltb_spec bn NDIRECT).
  - eapply (runE_bmap_direct s lg ct i bn); try done; try lia. intros s' lg' ct' i' X Hne. apply (HQ s' lg' ct' i'); [|done].
    destruct X. split; try done; lia.
  - destruct (Z.ltb_spec (bn - NDIRECT) NINDIRECT); [|lia]. cbv zeta. apply runE_bind. change (Z.to_nat NDIRECT) with 12%nat. fold (ind i).
    eapply (runE_bmap_ind s lg ct i); try done; try lia. intros s1 lg1 ct1 i1 X1 Hne1.
    destruct (ex_inode _ _ _ _ _ _ _ _ _ _ _ X1) as [al Hi1].
    rewrite (fo_dev _ _ _ _ Hok). pose proof (ex_log _ _ _ _ _ _ _ _ _ _ _ X1). pose proof (ex_free _ _ _ _ _ _ _ _ _ _ _ X1).
    eapply (runE_bmap_entry s1 lg1 ct1 i1 bn); try apply X1; try done; try lia.
    intros s2 lg2 ct2 i2 X2 Hne2. apply (HQ s2 lg2 ct2 i2); [|done]. pose proof (extended_trans _ _ _ _ _ _ _ _ _ _ _ _ _ _ _ _ _ _ X1 X2) as X. done.
Qed.
End bmap.

End Inode.
