(* ===== verification/FileIO.v ===== *)
(** * Reading and writing files (readi, writei and iupdate of kernel/fs.c)

    readi copies bytes of the file to memory, writei bytes of memory into the
    file; both are specified on the byte view [fbyte] of the file. *)

From S2P Require Import Prelude Bytes CString KState Spinlock Kernel Riscv Kalloc Vm Sched Console Virtio Disk Bio Cache Log Commit Transaction Fs Tx Balloc Dinode Inode.

Module FileIO.
Import Sched Virtio Disk Bio Cache Log Commit Transaction Fs Tx Balloc Dinode Inode.

(** One piece of a transfer: [m] bytes within one block. *)
Lemma piece off n tot : 0 <= off -> 0 <= tot < n -> let m := Z.min (n - tot) (BSIZE - off mod BSIZE) in
  0 < m <= n - tot /\ 0 <= off mod BSIZE /\ off mod BSIZE + m <= BSIZE /\
  forall x, off <= x < off + m -> x / BSIZE = off / BSIZE /\ x mod BSIZE = off mod BSIZE + (x - off).
Proof.
  intros Ho Ht m. pose proof (Z.mod_pos_bound off BSIZE ltac:(lia)) as Hm. split_and!; try lia. intros x Hx.
  pose proof (Z.div_mod off BSIZE ltac:(lia)) as Hd. split.
  - symmetry. apply Z.div_unique_pos with (off mod BSIZE + (x - off)); lia.
  - symmetry. apply Z.mod_unique_pos with (off / BSIZE); lia.
Qed.

Lemma length_set_bytes bs : forall (d : block) a, length (set_bytes d a bs) = length d.
Proof.
  induction bs as [|b bs IH]; intros d a; [done|]. change (set_bytes d a (b :: bs)) with (set_bytes (setb d a b) (a + 1) bs).
  by rewrite IH, length_setb.
Qed.

(** A byte of the block after the piece [bs] was put at [o mod BSIZE]. *)
Lemma getb_piece (d : block) (bs : list Z) o x : length d = 1024%nat -> 0 <= o -> o mod BSIZE + Z.of_nat (length bs) <= BSIZE ->
  x / BSIZE = o / BSIZE ->
  getb (set_bytes d (o mod BSIZE) bs) (x mod BSIZE) =
    if bool_decide (o <= x < o + Z.of_nat (length bs)) then u8 (default 0 (bs !! Z.to_nat (x - o))) else getb d (x mod BSIZE).
Proof.
  intros Hlen Ho Hm Hx. pose proof (Z.mod_pos_bound o BSIZE ltac:(lia)). rewrite getb_set_bytes by (intros c Hc; cbn; lia).
  pose proof (Z.div_mod o BSIZE ltac:(lia)). pose proof (Z.div_mod x BSIZE ltac:(lia)).
  replace (x - o) with (x mod BSIZE - o mod BSIZE) by lia. repeat case_bool_decide; lia || done.
Qed.

(** Blocks a transfer of the bytes [o, e) touches. *)
Definition pieces (o e : Z) : Z := if o <? e then (e - 1) / BSIZE - o / BSIZE + 1 else 0.

Lemma pieces_step off e : 0 <= off < e -> let m := Z.min (e - off) (BSIZE - off mod BSIZE) in
  0 <= pieces (off + m) e /\ pieces (off + m) e + 1 <= pieces off e.
Proof.
  intros Ho m. pose proof (Z.mod_pos_bound off BSIZE ltac:(lia)) as Hm. pose proof (Z.div_mod off BSIZE ltac:(lia)) as Hd.
  unfold pieces. destruct (Z.ltb_spec off e); [|lia]. pose proof (Z.div_le_mono off (e - 1) BSIZE ltac:(lia) ltac:(lia)).
  destruct (Z.ltb_spec (off + m) e); [|lia]. pose proof (Z.div_le_mono (off + m) (e - 1) BSIZE ltac:(lia) ltac:(lia)).
  assert ((off + m) / BSIZE = off / BSIZE + 1); [|lia]. symmetry. apply Z.div_unique_pos with 0; lia.
Qed.

Section io.
Context (E : kstate -> kstate -> Prop) `{HE : !DiskEnv E} (h p dv : nat) (sb : superblock) (ip : nat).
Abbreviation tx := (tx E h p dv).
Abbreviation tmoves := (tmoves E h p).
Abbreviation geom := (geom dv sb).
Abbreviation file_ok := (file_ok dv sb).
Abbreviation fblk := (fblk dv).
Abbreviation fbyte := (fbyte dv).
Abbreviation nfree := (nfree dv sb).
Abbreviation calm := (calm E ip).
Abbreviation live := (live sb ip).
Abbreviation bitmap_key := (bitmap_key dv sb).

(** bmap() of a block that is there only reads. *)
Lemma runE_bmap_mapped s lg ct i bn (Q : Z -> kstate -> Prop) : tx s lg ct [] -> live s i -> geom ct -> file_ok ct i ->
  (size lg < 29)%nat -> 0 <= bn < MAXFILE -> fblk ct i bn <> 0 ->
  (forall s', tmoves s s' -> tx s' lg ct [] -> Q (fblk ct i bn) s') -> runE E (bmap ip bn) s Q.
Proof.
  intros Htx (Hl & Hi & Hs) Hg Hok Hlg Hbn Hne HQ. unfold bmap. apply runE_bind. wp. rewrite Hi.
  destruct (Z.ltb_spec bn NDIRECT) as [Hd|Hd].
  - rewrite fblk_direct in * by done. cbv zeta. destruct (Z.eqb_spec (i_addrs i !!! Z.to_nat bn) 0); [done|]. wp.
    apply HQ; [by eapply tmoves_refl|done].
  - destruct (Z.ltb_spec (bn - NDIRECT) NINDIRECT); [|lia]. cbv zeta. change (Z.to_nat NDIRECT) with 12%nat. fold (ind i).
    assert (Hind : ind i <> 0). { intros E0. unfold Inode.fblk in Hne. rewrite E0 in Hne. destruct (Z.ltb_spec bn NDIRECT); [lia|done]. }
    destruct (Z.eqb_spec (ind i) 0); [done|]. wp. rewrite (fo_dev _ _ _ _ Hok). pose proof (fo_ind _ _ _ _ Hok Hind) as Hgi.
    destruct (good_data _ _ _ _ Hg Hgi) as (d & Hdd & Hlen). assert (Hk0 : (dv, ind i) <> (0%nat, 0)) by (intros [= _ E0]; done).
    eapply tx_bread; [exact Htx|done|apply not_elem_of_nil|exact Hdd|cbn; lia|]. intros bp s1 M1 T1. apply runE_bind.
    eapply runE_data_of; [exact T1|apply elem_of_cons; by left|]. rewrite (fblk_entry dv ct i bn d) in * by (done || lia).
    apply runE_bind. destruct (Z.eqb_spec (ld32 d (4 * (bn - NDIRECT))) 0); [done|]. wp.
    eapply tx_brelse; [exact T1|done|exact Hdd|]. intros s2 M2 T2. wp. apply HQ; [by eapply tmoves_trans|done].
Qed.

Lemma tx_set_mm (m : mem) s lg ct H : tx s lg ct H -> (forall a, ~ buffer a -> getb m a = getb (mm s) a) -> tx (set_mm m s) lg ct H.
Proof.
  intros [(L & rc & [[H1 H2 H3] HC HL Hh Hf Hk] & Hrest) Hdv Hdirty] Hm. split; [|done|done].
  exists L, rc. split; [|done]. split; try done. split; [done| |done]. eapply ready_ext; try exact H2; done.
Qed.

Lemma tx_set_sy y s lg ct H : tx s lg ct H -> owns h (Some p) [] y -> tx (set_sy y s) lg ct H.
Proof.
  intros [(L & rc & Hh & Hrest) Hdv Hdirty] Hy. split; [|done|done].
  exists L, rc. split; [|done]. exact (hold_ext E h p y (pt s) (logs s) s _ _ _ _ Hh Hy (reflexivity _)).
Qed.

Lemma calm_set_mm (W : Z -> Prop) (m : mem) s i : live s i -> (forall a, ~ W a -> getb m a = getb (mm s) a) ->
  calm W s (set_mm m s) /\ live (set_mm m s) i.
Proof.
  intros (Hl & Hi & Hs) Hm. split; [|done]. exists (sy s), m, (pt s), (vdisks s), (bufs s), (logs s), i. split_and!; try done.
  - unfold set_mm. f_equal. unfold inode_at in Hi. rewrite <-Hi.
    rewrite list_insert_id by (by apply list_lookup_lookup_total_lt). by destruct (fs s).
  - intros a _ Ha. by apply Hm.
Qed.
Lemma calm_set_sy (W : Z -> Prop) y s i : live s i -> calm W s (set_sy y s) /\ live (set_sy y s) i.
Proof.
  intros (Hl & Hi & Hs). split; [|done]. exists y, (mm s), (pt s), (vdisks s), (bufs s), (logs s), i. split_and!; try done.
  unfold set_sy. f_equal. unfold inode_at in Hi. rewrite <-Hi.
  rewrite list_insert_id by (by apply list_lookup_lookup_total_lt). by destruct (fs s).
Qed.

(** either_copyout to kernel memory. *)
Lemma runE_copyout_kernel s lg ct H i dst bs (Q : Z -> kstate -> Prop) : tx s lg ct H -> live s i ->
  (forall a, dst <= a < dst + Z.of_nat (length bs) -> buffer a) ->
  (forall s', calm (fun a => dst <= a < dst + Z.of_nat (length bs)) s s' -> live s' i -> tx s' lg ct H ->
     mm s' = set_bytes (mm s) dst bs -> Q 0 s') ->
  runE E (either_copyout false dst bs) s Q.
Proof.
  intros Htx Hl Hb HQ. unfold either_copyout. apply runE_bind.
  assert (Ho : owns h (Some p) [] (sy s)) by (destruct Htx as [(L & rc & Hh & _) _ _]; apply Hh).
  eapply run_runE, run_myproc; [exact Ho|]. intros y Hy. wp. cbn [mm set_sy].
  set (m := set_bytes (mm s) dst bs).
  assert (Hm : forall a, ~ (dst <= a < dst + Z.of_nat (length bs)) -> getb m a = getb (mm s) a).
  { intros a Ha. unfold m. rewrite getb_set_bytes by done. by rewrite bool_decide_false. }
  destruct (calm_set_sy (fun a => dst <= a < dst + Z.of_nat (length bs)) y s i Hl) as [C1 L1].
  destruct (calm_set_mm (fun a => dst <= a < dst + Z.of_nat (length bs)) m (set_sy y s) i L1 Hm) as [C2 L2].
  apply HQ; [eapply calm_trans; [exact C1|exact C2]|done| |done]. apply tx_set_mm; [by apply tx_set_sy|].
  intros a Ha. apply Hm. intros Hin. by apply Ha, Hb.
Qed.

Lemma calm_weaken (W W' : Z -> Prop) s s' : (forall a, W a -> W' a) -> calm W s s' -> calm W' s s'.
Proof.
  intros HW (y & m & t & v & bs & l & i & Hs & Ht & Hm & Hst). exists y, m, t, v, bs, l, i. split_and!; try done.
  intros a Ha Hna. apply Hm; [done|]. intros Hw. by apply Hna, HW.
Qed.
Lemma calm_mem W s s' a : calm W s s' -> ~ scratch a -> ~ W a -> getb (mm s') a = getb (mm s) a.
Proof. intros (y & m & t & v & bs & l & i & -> & Ht & Hm & _) H1 H2. by apply Hm. Qed.

(** *** readi() *)

Section readi.
Context (s : kstate) (lg : gset bkey) (ct : disk) (i : inode) (off n dst : Z).
Context (Htx : tx s lg ct []) (Hlive : live s i) (Hg : geom ct) (Hok : file_ok ct i) (Hlg : (size lg < 29)%nat).
Context (Hoff : 0 <= off) (Hn : 0 <= n) (Hsz : off + n <= MAXFILE * BSIZE) (Hdst : 0 <= dst /\ dst + n < 2 ^ 64).
Context (Hbuf : forall a, dst <= a < dst + n -> buffer a /\ ~ scratch a).
Context (Hmap : forall bn, off / BSIZE <= bn -> bn * BSIZE < off + n -> fblk ct i bn <> 0).

(** [tot] bytes are in memory. *)
Definition have (tot : Z) (s' : kstate) : Prop :=
  calm (fun a => dst <= a < dst + n) s s' /\ live s' i /\ tx s' lg ct [] /\
  forall a, dst <= a < dst + tot -> getb (mm s') a = fbyte ct i (off + (a - dst)).

(** One block of the loop. *)
Lemma runE_read_piece tot s1 (Q : (Z * Z * Z + unit) -> kstate -> Prop) : 0 <= tot < n -> have tot s1 ->
  (forall s', let m := Z.min (n - tot) (BSIZE - (off + tot) mod BSIZE) in
     have (tot + m) s' -> Q (inl (tot + m, off + tot + m, dst + tot + m)) s') ->
  runE E (addr <- bmap ip ((off + tot) / BSIZE) ;;
      bp <- bread (i_dev i) addr ;;
      let m := Z.min (n - tot) (BSIZE - (off + tot) mod BSIZE) in
      d <- data_of bp ;;
      r <- either_copyout false (dst + tot) (get_bytes (Z.to_nat m) d ((off + tot) mod BSIZE)) ;;
      brelse bp ;;
      if r =? -1 then ret (inr tt)
      else ret (inl (tot + m, off + tot + m, u64 (dst + tot + m)))) s1 Q.
Proof.
  intros Ht (C1 & L1 & T1 & Hhave) HQ. set (o := off + tot) in *.
  destruct (piece o n tot ltac:(unfold o; lia) Ht) as (Hm1 & Hm2 & Hm3 & Hm4). set (m := Z.min _ _) in *.
  assert (Hbn : 0 <= o / BSIZE < MAXFILE /\ fblk ct i (o / BSIZE) <> 0).
  { pose proof (Z.div_mod o BSIZE ltac:(lia)). pose proof (Z.div_pos o BSIZE ltac:(unfold o; lia) ltac:(lia)). split; [unfold o in *; lia|].
    apply Hmap; [apply Z.div_le_mono; unfold o; lia|unfold o in *; lia]. }
  destruct Hbn as [Hbn Hne]. destruct (fo_blk _ _ _ _ Hok _ Hbn Hne) as [Hgood _].
  destruct (good_data _ _ _ _ Hg Hgood) as (d & Hd & Hlen).
  assert (Hk0 : (dv, fblk ct i (o / BSIZE)) <> (0%nat, 0)) by (intros [= _ E0]; done).
  apply runE_bind. eapply runE_bmap_mapped; try done. intros s2 M2 T2. destruct (calm_tmoves E h p sb ip (fun a => dst <= a < dst + n) _ _ _ L1 M2) as [C2 L2].
  rewrite (fo_dev _ _ _ _ Hok). apply runE_bind. eapply tx_bread; [exact T2|done|apply not_elem_of_nil|exact Hd|cbn; lia|].
  intros bp s3 M3 T3. destruct (calm_tmoves E h p sb ip (fun a => dst <= a < dst + n) _ _ _ L2 M3) as [C3 L3].
  apply runE_bind. eapply runE_data_of; [exact T3|apply elem_of_cons; by left|]. apply runE_bind.
  set (bs := get_bytes (Z.to_nat m) d (o mod BSIZE)). assert (Hbl : Z.of_nat (length bs) = m) by (unfold bs; rewrite length_get_bytes; lia).
  eapply (runE_copyout_kernel s3 lg ct _ i (dst + tot) bs); [exact T3|done|intros a Ha; apply Hbuf; lia|].
  intros s4 C4 L4 T4 Hmm. apply runE_bind. eapply tx_brelse; [exact T4|done|exact Hd|]. intros s5 M5 T5. change (0 =? -1) with false. cbv iota. wp.
  rewrite u64_small by lia. apply HQ. destruct (calm_tmoves E h p sb ip (fun a => dst <= a < dst + n) _ _ _ L4 M5) as [C5 L5].
  split_and!; [|done|done|].
  - eapply calm_trans; [exact C1|]. eapply calm_trans; [exact C2|]. eapply calm_trans; [exact C3|]. eapply calm_trans; [|exact C5].
    eapply calm_weaken; [|exact C4]. cbv beta. intros a Ha. lia.
  - intros a Ha. assert (Hns : ~ scratch a) by (apply Hbuf; lia).
    rewrite (tmoves_mem _ _ _ _ _ a M5 Hns), Hmm, getb_set_bytes by done. rewrite Hbl. case_bool_decide as Hin.
    + unfold bs. rewrite lookup_get_bytes by lia. cbn [from_option id]. destruct (Hm4 (off + (a - dst))) as [Ed Em]; [unfold o; lia|].
      unfold Inode.fbyte. rewrite Ed, Em. destruct (Z.eqb_spec (fblk ct i (o / BSIZE)) 0); [done|]. rewrite Hd.
      rewrite u8_small by apply getb_range. f_equal. unfold o. lia.
    + rewrite (tmoves_mem _ _ _ _ _ a M3 Hns), (tmoves_mem _ _ _ _ _ a M2 Hns). apply Hhave. lia.
Qed.

(** A call asks for [n0] bytes and gets the [n] that are there. *)
Lemma runE_readi n0 (Q : Z -> kstate -> Prop) : off <= i_size i < 2 ^ 31 -> off + n0 < 2 ^ 32 -> 0 <= n0 -> n = Z.min n0 (i_size i - off) ->
  (forall s', have n s' -> Q n s') -> runE E (readi ip false dst off n0) s Q.
Proof.
  intros Hsize Hn0 Hn0' Hmin HQ. unfold readi. apply runE_bind. pose proof Hlive as (_ & Hi & _). wp. rewrite Hi.
  destruct (Z.ltb_spec (i_size i) off); [lia|]. rewrite u32_small by lia. destruct (Z.ltb_spec (off + n0) off); [lia|]. cbn [orb].
  assert ((if i_size i <? off + n0 then i_size i - off else n0) = n) as -> by (destruct (Z.ltb_spec (i_size i) (off + n0)); lia). cbv zeta. apply runE_bind.
  eapply (runE_loop E _ (fun '(tot, o, d) s' => 0 <= tot <= n /\ o = off + tot /\ d = dst + tot /\ have tot s')
    (fun '(tot, _, _) _ => Z.to_nat (n - tot))).
  - intros [[tot o] d] s1 (Ht & -> & -> & Hh). destruct (Z.ltb_spec tot n).
    + eapply runE_read_piece; [lia|done|]. intros s' m Hh'.
      destruct (piece (off + tot) n tot ltac:(lia) ltac:(lia)) as (Hm1 & _). fold m in Hm1. split; [|lia]. split_and!; try lia. done.
    + wp. rewrite s32_small by lia. apply HQ. by replace n with tot by lia.
  - split_and!; try lia. split_and!; try done; [by eapply calm_tmoves; [|eapply tmoves_refl]|]. intros a Ha. lia.
  - lia.
Qed.
End readi.

(** *** Writing a data block of the file *)

Lemma good_fs_key ct a : geom ct -> good dv sb ct a -> fs_key dv sb (dv, a).
Proof using Type. intros Hg (H1 & _ & H2). pose proof (bmap_end_ge _ _ _ Hg). pose proof (g_ino _ _ _ Hg). split; [done|]. cbn. lia. Qed.

Section data_write.
Context (ct : disk) (i : inode) (bn : Z) (d' : block).
Context (Hg : geom ct) (Hok : file_ok ct i) (Hbn : 0 <= bn < MAXFILE) (Hne : fblk ct i bn <> 0) (Hlen : length d' = 1024%nat).
Abbreviation a := (fblk ct i bn).
Abbreviation ct' := (<[(dv, a) := d']> ct).

Lemma data_block : good dv sb ct a /\ a <> ind i.
Proof. by apply Hok. Qed.

Lemma good_data_write b : good dv sb ct' b <-> good dv sb ct b.
Proof.
  destruct data_block as [Ha _]. unfold good. split; intros (H1 & H2 & H3); (split_and!; try done; try lia).
  - by rewrite used_other in H2 by (done || lia || by eapply good_nb).
  - by rewrite used_other by (done || lia || by eapply good_nb).
Qed.

Lemma fblk_data_write b : fblk ct' i b = fblk ct i b.
Proof.
  destruct data_block as [_ Hi]. unfold Inode.fblk at 1 3. destruct (b <? NDIRECT); [done|]. destruct (ind i =? 0); [done|].
  rewrite lookup_insert_ne by congruence. done.
Qed.

Lemma file_ok_data_write : file_ok ct' i.
Proof.
  destruct Hok as [F1 F2 F3 F4 F5]. split; try done.
  - intros b Hb. rewrite fblk_data_write, good_data_write. by apply F3.
  - rewrite good_data_write. by apply F4.
  - intros b b'. rewrite !fblk_data_write. by apply F5.
Qed.

Lemma others_data_write : others dv sb ct ct' i i.
Proof.
  intros b Hb Hn. rewrite good_data_write. split_and!; [done| |].
  - intros [->|(c & Hc & ->)]; apply Hn; [by left|right]. exists c. by rewrite fblk_data_write.
  - apply lookup_insert_ne. intros [= <-]. apply Hn. right. by exists bn.
Qed.

Lemma fbyte_data_write x : 0 <= x -> x / BSIZE < MAXFILE ->
  fbyte ct' i x = if bool_decide (x / BSIZE = bn) then getb d' (x mod BSIZE) else fbyte ct i x.
Proof.
  intros Hx Hm. unfold Inode.fbyte. rewrite fblk_data_write. assert (0 <= x / BSIZE) by (apply Z.div_pos; lia). case_bool_decide as E0.
  - rewrite E0. destruct (Z.eqb_spec a 0); [done|]. by rewrite lookup_insert_eq.
  - destruct (Z.eqb_spec (fblk ct i (x / BSIZE)) 0); [done|]. rewrite lookup_insert_ne; [done|]. intros [= E1].
    apply E0. symmetry. by apply (fo_inj _ _ _ _ Hok).
Qed.
End data_write.

(** either_copyin from kernel memory. *)
Lemma runE_copyin_kernel s lg ct H i src n (Q : Z * list Z -> kstate -> Prop) : tx s lg ct H -> live s i ->
  (forall s', calm (fun _ => False) s s' -> live s' i -> tx s' lg ct H -> mm s' = mm s -> Q (0, get_bytes (Z.to_nat n) (mm s) src) s') ->
  runE E (either_copyin false src n) s Q.
Proof.
  intros Htx Hl HQ. unfold either_copyin. apply runE_bind.
  assert (Ho : owns h (Some p) [] (sy s)) by (destruct Htx as [(L & rc & Hh & _) _ _]; apply Hh).
  eapply run_runE, run_myproc; [exact Ho|]. intros y Hy. wp.
  destruct (calm_set_sy (fun _ => False) y s i Hl) as [C1 L1]. apply HQ; try done. by apply tx_set_sy.
Qed.

(** *** iupdate() *)

(** The inode's block is before the bitmap, as mkfs lays it out. *)
Definition iplace (inum : Z) : Prop := 0 <= inum /\ inum / IPB + sb_inodestart sb < sb_bmapstart sb.

Lemma IBLOCK_eq ct inum : geom ct -> iplace inum ->
  IBLOCK inum sb = inum / IPB + sb_inodestart sb /\ sb_inodestart sb <= IBLOCK inum sb < sb_bmapstart sb /\ sb_bmapstart sb <= bmap_end sb.
Proof.
  intros Hg [H0 Hp]. pose proof (g_bmap _ _ _ Hg). pose proof (g_size _ _ _ Hg). pose proof (bmap_end_ge _ _ _ Hg). pose proof (g_ino _ _ _ Hg).
  pose proof (Z.div_pos inum IPB ltac:(lia) ltac:(lia)). unfold IBLOCK in *. rewrite u32_small by lia. lia.
Qed.

Definition on_disk (ct : disk) (i : inode) : Prop := exists d, ct !! (dv, IBLOCK (i_inum i) sb) = Some d /\
  length d = 1024%nat /\ load_dinode d (dinode_off (i_inum i)) i = i.

(** Writing a block before the bitmap changes no file. *)
Section meta_write.
Context (ct : disk) (a : Z) (d' : block) (Hg : geom ct) (Ha : a < sb_bmapstart sb).
Abbreviation ct' := (<[(dv, a) := d']> ct).

Lemma others_meta_write i : file_ok ct i -> others dv sb ct ct' i i /\ file_ok ct' i /\
  (forall bn, fblk ct' i bn = fblk ct i bn) /\ forall x, 0 <= x -> x / BSIZE < MAXFILE -> fbyte ct' i x = fbyte ct i x.
Proof.
  intros [F1 F2 F3 F4 F5].
  pose proof (bmap_end_ge _ _ _ Hg) as Hb.
  assert (Hd : forall b, good dv sb ct b -> ct' !! (dv, b) = ct !! (dv, b)).
  { intros b (_ & _ & H). apply lookup_insert_ne. intros [= E0]. lia. }
  assert (Hgd : forall b, good dv sb ct' b <-> good dv sb ct b).
  { intros b. unfold good. split; intros (H1 & H2 & H3); (split_and!; try done; try lia);
      [rewrite used_other in H2|rewrite used_other]; try done; try lia; by apply before_bitmap. }
  assert (Hf : forall bn, fblk ct' i bn = fblk ct i bn).
  { intros bn. unfold Inode.fblk. destruct (bn <? NDIRECT); [done|]. destruct (Z.eqb_spec (ind i) 0); [done|]. rewrite Hd; [done|by apply F4]. }
  split_and!; [|split; [done|done|..]|done|].
  - intros b Hgb Hn. rewrite Hgd, Hd by done. split_and!; try done. intros [->|(c & Hc & ->)]; apply Hn; [by left|right].
    exists c. by rewrite Hf.
  - intros bn Hbn. rewrite Hf, Hgd. by apply F3.
  - rewrite Hgd. done.
  - intros bn bn'. rewrite !Hf. by apply F5.
  - intros x H0 H1. apply fbyte_ext; [done|apply Hf|]. intros Hne. apply Hd. apply F3; [split; [apply Z.div_pos; lia|done]|done].
Qed.
End meta_write.

(** Block numbers of a file fit in the dinode. *)
Lemma addrs_fit ct i : geom ct -> file_ok ct i -> forall (j : nat) a, i_addrs i !! j = Some a -> 0 <= a < 2 ^ 32.
Proof.
  intros Hg Hok j a Hj. pose proof (g_size _ _ _ Hg). pose proof (fo_len _ _ _ _ Hok) as Hl. pose proof (lookup_lt_Some _ _ _ Hj).
  destruct (decide (a = 0)) as [->|Hne]; [lia|]. enough (good dv sb ct a) as (H1 & _) by lia.
  apply list_lookup_total_correct in Hj. destruct (decide (j = 12)%nat) as [->|Hj12].
  - subst a. by apply Hok.
  - assert (E0 : fblk ct i (Z.of_nat j) = a) by (rewrite fblk_direct by lia; by rewrite Nat2Z.id). rewrite <-E0.
    apply (fo_blk _ _ _ _ Hok); [lia|]. by rewrite E0.
Qed.

Lemma runE_iupdate s lg ct i (Q : unit -> kstate -> Prop) : tx s lg ct [] -> live s i -> geom ct -> file_ok ct i ->
  (size lg < 29)%nat -> iplace (i_inum i) -> dinode_fits i ->
  (forall s' lg' ct', tmoves s s' -> live s' i -> tx s' lg' ct' [] -> geom ct' -> file_ok ct' i -> on_disk ct' i ->
     others dv sb ct ct' i i -> (forall bn, fblk ct' i bn = fblk ct i bn) ->
     (forall x, 0 <= x -> x / BSIZE < MAXFILE -> fbyte ct' i x = fbyte ct i x) -> (size lg' <= S (size lg))%nat -> grows dv sb lg lg' -> lg' <> ∅ ->
     (forall j, i_inum j <> i_inum i -> iplace (i_inum j) -> on_disk ct j -> on_disk ct' j) -> nfree ct' = nfree ct -> Q tt s') ->
  runE E (iupdate ip) s Q.
Proof.
  intros Htx Hl Hg Hok Hlg Hpl Hfit HQ. destruct Hl as (Hl1 & Hi & Hsb) eqn:E0. clear E0. unfold iupdate. apply runE_bind.
  eapply run_the_sb; [done|]. wp. rewrite Hi, (fo_dev _ _ _ _ Hok). pose proof (g_bmap _ _ _ Hg) as Hb. pose proof (g_ino _ _ _ Hg) as Hin.
  pose proof (g_size _ _ _ Hg) as Hsz. destruct (IBLOCK_eq ct _ Hg Hpl) as (Ei & Hri & Hbe).
  destruct (g_blocks _ _ _ Hg (IBLOCK (i_inum i) sb) ltac:(lia)) as (d & Hd & Hlen). set (k := IBLOCK (i_inum i) sb) in *.
  assert (Hk0 : (dv, k) <> (0%nat, 0)) by (intros [= _ E0]; lia).
  eapply tx_bread; [exact Htx|done|apply not_elem_of_nil|exact Hd|cbn; lia|]. intros bp s1 M1 T1. apply runE_bind, runE_gets.
  rewrite (proj1 (proj2 (proj2 (calm_tmoves E h p sb ip (fun _ => False) _ _ _ ltac:(done) M1)))). unfold upd_data.
  set (off := dinode_off (i_inum i)). apply runE_bind. eapply (tx_upd _ _ _ _ _ _ _ _ _ _ d (fun d => store_dinode d off i)); [exact T1|done|].
  intros s2 M2 T2. apply runE_bind. eapply tx_log_write; [exact T2|done|lia|lia|]. intros s3 M3 T3.
  eapply tx_brelse; [exact T3|done|apply lookup_insert_eq|]. intros s4 M4 T4.
  assert (M : tmoves s s4) by (eapply tmoves_trans; [exact M1|]; eapply tmoves_trans; [exact M2|]; by eapply tmoves_trans).
  destruct (others_meta_write ct k (store_dinode d off i) Hg ltac:(lia) i Hok) as (O1 & O2 & O3 & O4).
  pose proof (dinode_off_bound (i_inum i)) as Hob. fold off in Hob.
  eapply (HQ s4); [done|by eapply (calm_tmoves E h p sb ip (fun _ => False))|exact T4| |exact O2| |exact O1|done|done|apply size_add| |set_solver| |].
  - apply geom_write; [done|apply before_bitmap; lia|by rewrite length_store_dinode].
  - eexists. split; [apply lookup_insert_eq|]. split; [by rewrite length_store_dinode|]. apply load_store_dinode; try done; try lia. apply Hfit.
  - apply grows_add; [apply grows_refl|]. split; [done|]. cbn. lia.
  - intros j Hj Hpj (dj & Hdj & Hlj & Hload). unfold on_disk. set (kj := IBLOCK (i_inum j) sb) in *. destruct (decide (kj = k)) as [Ek|Ek].
    + destruct (IBLOCK_eq ct _ Hg Hpj) as (Ej & _). assert (Hdiv : i_inum i / IPB = i_inum j / IPB) by (unfold kj, k in Ek; lia).
      rewrite Ek in Hdj |- *. simplify_eq. eexists. split; [apply lookup_insert_eq|]. split; [by rewrite length_store_dinode|].
      rewrite load_store_other; [done|apply Hfit|]. apply dinode_apart; congruence.
    + exists dj. rewrite lookup_insert_ne by congruence. done.
  - apply nfree_write; [done|apply before_bitmap; lia].
Qed.

(** *** writei() *)

Section writei.
Context (s : kstate) (lg : gset bkey) (ct : disk) (i : inode) (off n src : Z).
Context (Htx : tx s lg ct []) (Hlive : live s i) (Hg : geom ct) (Hok : file_ok ct i).
Context (Hoff : 0 <= off) (Hn : 0 < n) (Hsz : off + n <= MAXFILE * BSIZE) (Hsrc : 0 <= src /\ src + n < 2 ^ 64).
Context (Hmem : forall a, src <= a < src + n -> ~ scratch a).
Context (Hlog : Z.of_nat (size lg) + 6 * pieces off (off + n) < 29) (Hfree : 2 * pieces off (off + n) <= Z.of_nat (nfree ct)).

(** [tot] bytes are in the file; the rest of it, and the other files, are as
    before. *)
Record wrote (tot : Z) (s' : kstate) (lg' : gset bkey) (ct' : disk) (i' : inode) : Prop := {
  w_calm : calm (fun _ => False) s s';
  w_live : live s' i';
  w_tx : tx s' lg' ct' [];
  w_geom : geom ct';
  w_ok : file_ok ct' i';
  w_inode : exists al, i' = set_i_addrs al i;
  w_others : others dv sb ct ct' i i';
  w_mapped : forall b, 0 <= b < MAXFILE -> fblk ct i b <> 0 \/ (0 < tot /\ off / BSIZE <= b /\ b * BSIZE < off + tot) -> fblk ct' i' b <> 0;
  w_grows : grows dv sb lg lg';
  w_log : Z.of_nat (size lg') + 6 * pieces (off + tot) (off + n) <= Z.of_nat (size lg) + 6 * pieces off (off + n);
  w_free : 2 * pieces (off + tot) (off + n) <= Z.of_nat (nfree ct');
  w_bytes : forall x, 0 <= x -> x / BSIZE < MAXFILE ->
    fbyte ct' i' x = if bool_decide (off <= x < off + tot) then getb (mm s) (src + (x - off)) else fbyte ct i x;
  w_meta : forall b, b < sb_bmapstart sb -> ct' !! (dv, b) = ct !! (dv, b)
}.

(** A block of the file got its bytes. *)
Lemma wrote_step tot s1 lg1 ct1 i1 s2 lg2 ct2 i2 s' d bs : let o := off + tot in
  let m := Z.min (n - tot) (BSIZE - o mod BSIZE) in let a := fblk ct2 i2 (o / BSIZE) in
  0 <= tot < n -> wrote tot s1 lg1 ct1 i1 -> extended E h p dv sb ip s1 s2 lg1 lg2 ct1 ct2 i1 i2 [] 5 2 -> a <> 0 ->
  ct2 !! (dv, a) = Some d -> length d = 1024%nat -> Z.of_nat (length bs) = m ->
  (forall j, 0 <= j < m -> bs !! Z.to_nat j = Some (getb (mm s) (src + tot + j))) ->
  calm (fun _ => False) s2 s' -> live s' i2 -> tx s' ({[(dv, a)]} ∪ lg2) (<[(dv, a) := set_bytes d (o mod BSIZE) bs]> ct2) [] ->
  wrote (tot + m) s' ({[(dv, a)]} ∪ lg2) (<[(dv, a) := set_bytes d (o mod BSIZE) bs]> ct2) i2.
Proof.
  intros o m a Ht [C1 L1 T1 G1 O1 (al & Hi1) W1 P1 K1 Hl1 Hf1 B1 J1] [C2 L2 T2 G2 O2 B2 W2 P2 K2 Hl2 Hf2 (al2 & Hi2) J2] Hne Hd Hlen Hbl Hbs C3 L3 T3.
  destruct (piece o n tot ltac:(unfold o; lia) Ht) as (Hm1 & Hm2 & Hm3 & Hm4). fold m in Hm1, Hm3, Hm4.
  destruct (pieces_step o (off + n) ltac:(unfold o; lia)) as (Hp0 & Hp1). replace (off + n - o) with (n - tot) in Hp0, Hp1 by (unfold o; lia).
  fold m in Hp0, Hp1. replace (o + m) with (off + (tot + m)) in Hp0, Hp1 by (unfold o; lia).
  pose proof (Z.div_mod o BSIZE ltac:(lia)). pose proof (Z.div_pos o BSIZE ltac:(unfold o; lia) ltac:(lia)).
  assert (Hbn : 0 <= o / BSIZE < MAXFILE) by (unfold o in *; lia). destruct (data_block ct2 i2 _ O2 Hbn Hne) as [Hgd _].
  fold a in Hgd. pose proof (good_nb _ _ _ _ Hgd) as Hnb. set (d' := set_bytes d (o mod BSIZE) bs) in *.
  assert (Hlen' : length d' = 1024%nat) by (unfold d'; by rewrite length_set_bytes).
  split; try done.
  - eapply calm_trans; [exact C1|]. eapply calm_trans; [exact C2|exact C3].
  - by apply geom_write.
  - by apply file_ok_data_write.
  - rewrite Hi2, Hi1. by exists al2.
  - eapply others_trans; [exact W1|]. eapply others_trans; [exact W2|]. by apply others_data_write.
  - intros b Hb Hor. unfold a. rewrite fblk_data_write by done. destruct (decide (b = o / BSIZE)) as [->|Hbo]; [done|].
    apply P2, P1; [done..|]. destruct Hor as [?|(_ & H1 & H2)]; [by left|right].
    destruct (Hm4 (o + m - 1) ltac:(lia)) as [Hq _]. fold o. pose proof (Z.div_mod (o + m - 1) BSIZE ltac:(lia)).
    pose proof (Z.mod_pos_bound (o + m - 1) BSIZE ltac:(lia)). assert (b < o / BSIZE) by nia.
    pose proof (Z.div_mod off BSIZE ltac:(lia)). pose proof (Z.mod_pos_bound off BSIZE ltac:(lia)). unfold o in *. split_and!; nia.
  - apply grows_add; [by eapply grows_trans|]. apply (good_fs_key ct2); done.
  - pose proof (size_add (dv, a) lg2). fold o in Hl1. lia.
  - rewrite nfree_write by done. fold o in Hf1. lia.
  - intros x Hx0 Hx1. unfold a. rewrite (fbyte_data_write ct2 i2 (o / BSIZE)) by done. rewrite B2, B1 by done.
    destruct (decide (x / BSIZE = o / BSIZE)) as [Eb|Eb].
    + rewrite (bool_decide_true (x / BSIZE = _)) by done. unfold d'. rewrite getb_piece by (done || lia || (unfold o; lia)). rewrite Hbl.
      destruct (decide (o <= x < o + m)) as [Hx|Hx].
      * rewrite !bool_decide_true by (unfold o in *; lia). rewrite Hbs by lia. cbn [from_option id]. rewrite u8_small by apply getb_range.
        f_equal. unfold o. lia.
      * rewrite (bool_decide_false (o <= x < o + m)) by done. specialize (B2 x Hx0 Hx1). rewrite B1 in B2 by done. unfold Inode.fbyte at 1 in B2.
        rewrite Eb in B2. fold a in B2. destruct (Z.eqb_spec a 0); [done|]. rewrite Hd in B2. rewrite B2.
        repeat case_bool_decide; unfold o in *; lia || done.
    + rewrite (bool_decide_false (x / BSIZE = _)) by done. assert (~ (o <= x < o + m)) by (intros Hx; by destruct (Hm4 x Hx)).
      repeat case_bool_decide; unfold o in *; lia || done.
  - intros b Hb. pose proof (bmap_end_ge dv sb ct2 G2). destruct Hgd as (_ & _ & Hgd). rewrite lookup_insert_ne by (intros [= E0]; lia). by rewrite J2, J1.
Qed.

(** One block of the loop. *)
Lemma runE_write_piece tot s1 lg1 ct1 i1 (Q : (Z * Z * Z + Z) -> kstate -> Prop) : 0 <= tot < n -> wrote tot s1 lg1 ct1 i1 ->
  (forall s' lg' ct' i', let m := Z.min (n - tot) (BSIZE - (off + tot) mod BSIZE) in
     wrote (tot + m) s' lg' ct' i' -> Q (inl (tot + m, off + tot + m, src + tot + m)) s') ->
  runE E (addr <- bmap ip ((off + tot) / BSIZE) ;;
      bp <- bread (i_dev i) addr ;;
      let m := Z.min (n - tot) (BSIZE - (off + tot) mod BSIZE) in
      r <- either_copyin false (src + tot) m ;;
      let '(st, bs) := r in
      upd_data bp (fun d => set_bytes d ((off + tot) mod BSIZE) bs) ;;
      if st =? -1 then brelse bp ;; ret (inr (off + tot))
      else
        log_write bp ;;
        brelse bp ;;
        ret (inl (tot + m, off + tot + m, u64 (src + tot + m)))) s1 Q.
Proof.
  intros Ht W HQ. pose proof W as [C1 L1 T1 G1 O1 (al & Hi1) W1 P1 K1 Hl1 Hf1 B1 _]. set (o := off + tot) in *.
  destruct (piece o n tot ltac:(unfold o; lia) Ht) as (Hm1 & Hm2 & Hm3 & Hm4).
  destruct (pieces_step o (off + n) ltac:(unfold o; lia)) as (Hp0 & Hp1). replace (off + n - o) with (n - tot) in Hp0, Hp1 by (unfold o; lia).
  set (m := Z.min _ _) in *. pose proof (Z.div_mod o BSIZE ltac:(lia)). pose proof (Z.div_pos o BSIZE ltac:(unfold o; lia) ltac:(lia)).
  assert (Hbn : 0 <= o / BSIZE < MAXFILE) by (unfold o in *; lia).
  apply runE_bind. eapply (runE_bmap E h p dv sb ip s1 lg1 ct1 i1); try done; try lia. intros s2 lg2 ct2 i2 X Hne.
  pose proof X as [C2 L2 T2 G2 O2 B2 W2 P2 K2 Hl2 Hf2 _ _]. destruct (data_block ct2 i2 _ O2 Hbn Hne) as [Hgd Hni].
  destruct (good_data _ _ _ _ G2 Hgd) as (d & Hd & Hlen). set (a := fblk ct2 i2 (o / BSIZE)) in *. pose proof (g_size _ _ _ G2).
  assert (Hk0 : (dv, a) <> (0%nat, 0)) by (intros [= _ E0]; done). rewrite (fo_dev _ _ _ _ Hok). apply runE_bind.
  eapply tx_bread; [exact T2|done|apply not_elem_of_nil|exact Hd|cbn; lia|]. intros bp s3 M3 T3.
  destruct (calm_tmoves E h p sb ip (fun _ => False) _ _ _ L2 M3) as [C3 L3]. apply runE_bind.
  eapply (runE_copyin_kernel s3); [exact T3|exact L3|]. intros s4 C4 L4 T4 Hmm. cbv iota beta.
  set (bs := get_bytes (Z.to_nat m) (mm s3) (src + tot)). assert (Hbl : Z.of_nat (length bs) = m) by (unfold bs; rewrite length_get_bytes; lia).
  apply runE_bind. unfold upd_data. eapply (tx_upd _ _ _ _ _ _ _ _ _ _ d (fun d => set_bytes d (o mod BSIZE) bs)); [exact T4|done|].
  intros s5 M5 T5. change (0 =? -1) with false. cbv iota. set (d' := set_bytes d _ _) in *.
  destruct Hgd as (Hgd1 & Hgd2 & Hgd3) eqn:E0. clear E0. apply runE_bind. eapply tx_log_write; [exact T5|done|lia|lia|].
  intros s6 M6 T6. apply runE_bind. eapply tx_brelse; [exact T6|done|apply lookup_insert_eq|]. intros s7 M7 T7. wp. rewrite u64_small by (unfold o in *; lia).
  destruct (calm_tmoves E h p sb ip (fun _ => False) _ _ _ L4 (tmoves_trans _ _ _ _ _ _ M5 (tmoves_trans _ _ _ _ _ _ M6 M7))) as [C7 L7].
  eapply (HQ s7). eapply (wrote_step tot s1 lg1 ct1 i1 s2); try done.
  - intros j Hj. change (0 <= j < m) in Hj. unfold bs. rewrite lookup_get_bytes by lia. f_equal. rewrite Z2Nat.id by lia. assert (Hns : ~ scratch (src + tot + j)) by (apply Hmem; lia).
    rewrite (tmoves_mem _ _ _ _ _ _ M3 Hns), (calm_mem _ _ _ _ C2 Hns), (calm_mem _ _ _ _ C1 Hns) by tauto. done.
  - eapply calm_trans; [exact C3|]. eapply calm_trans; [exact C4|exact C7].
Qed.

(** The whole call. *)
Record written (s' : kstate) (lg' : gset bkey) (ct' : disk) (i' : inode) : Prop := {
  wr_calm : calm (fun _ => False) s s';
  wr_live : live s' i';
  wr_tx : tx s' lg' ct' [];
  wr_geom : geom ct';
  wr_ok : file_ok ct' i';
  wr_inode : exists al, i' = set_i_size (Z.max (i_size i) (off + n)) (set_i_addrs al i);
  wr_disk : on_disk ct' i';
  wr_others : others dv sb ct ct' i i';
  wr_mapped : forall b, 0 <= b < MAXFILE -> fblk ct i b <> 0 \/ (0 < n /\ off / BSIZE <= b /\ b * BSIZE < off + n) -> fblk ct' i' b <> 0;
  wr_grows : grows dv sb lg lg';
  wr_logged : lg' <> ∅;
  wr_log : Z.of_nat (size lg') <= Z.of_nat (size lg) + 6 * pieces off (off + n) + 1;
  wr_bytes : forall x, 0 <= x -> x / BSIZE < MAXFILE ->
    fbyte ct' i' x = if bool_decide (off <= x < off + n) then getb (mm s) (src + (x - off)) else fbyte ct i x;
  wr_inodes : forall j, i_inum j <> i_inum i -> iplace (i_inum j) -> on_disk ct j -> on_disk ct' j
}.

Lemma file_ok_size z ct1 i1 : file_ok ct1 i1 -> file_ok ct1 (set_i_size z i1).
Proof using Type. intros [F1 F2 F3 F4 F5]. by split. Qed.

(** After the loop: the size and the copy on disk. *)
Lemma runE_write_tail s1 lg1 ct1 i1 (Q : unit -> kstate -> Prop) : wrote n s1 lg1 ct1 i1 -> iplace (i_inum i) -> dinode_fits i ->
  (forall s' lg' ct' i', written s' lg' ct' i' -> Q tt s') ->
  runE E (i <- gets (inode_at ip) ;; when (i_size i <? off + n) (upd_inode ip (set_i_size (off + n))) ;; iupdate ip) s1 Q.
Proof.
  intros [C1 L1 T1 G1 O1 (al & Hi1) W1 P1 K1 Hl1 Hf1 B1 J1] Hpl Hfit HQ. apply runE_bind, runE_gets. pose proof L1 as (_ & Hi & _). rewrite Hi. apply runE_bind.
  set (i2 := set_i_size (Z.max (i_size i1) (off + n)) i1).
  assert (Hp : runE E (when (i_size i1 <? off + n) (upd_inode ip (set_i_size (off + n)))) s1
                 (fun _ s' => calm (fun _ => False) s1 s' /\ live s' i2 /\ tx s' lg1 ct1 [])).
  { apply runE_when. destruct (Z.ltb_spec (i_size i1) (off + n)).
    - unfold upd_inode. wp. rewrite Hi. replace (set_i_size (off + n) i1) with i2 by (unfold i2; f_equal; lia).
      destruct (set_inode_calm E sb ip (fun _ => False) i2 s1 i1 L1) as [C2 L2]. split_and!; [done|done|]. by apply tx_set_inode.
    - assert (i2 = i1) as -> by (unfold i2; rewrite Z.max_l by lia; by destruct i1). split_and!; [|done|done].
      by eapply calm_tmoves; [|eapply tmoves_refl]. }
  eapply runE_mono; [exact Hp|]. intros [] s2 (C2 & L2 & T2).
  assert (Hp0 : pieces (off + n) (off + n) = 0) by (unfold pieces; by rewrite Z.ltb_irrefl). rewrite Hp0 in Hl1.
  assert (O2 : file_ok ct1 i2) by by apply file_ok_size.
  assert (Hfit2 : dinode_fits i2).
  { destruct Hfit as [D1 D2 D3 D4 D5 _ _]. subst i2 i1. split; try done; cbn; [lia|apply O1|]. by apply (addrs_fit ct1 _ G1 O1). }
  eapply (runE_iupdate s2 lg1 ct1 i2); try done; [lia|by subst i1|]. intros s3 lg3 ct3 M3 L3 T3 G3 O3 D3 W3 F3 B3 Hl3 K3 N3 J3 _.
  apply (HQ s3 lg3 ct3 i2). split; try done; try lia.
  - eapply calm_trans; [exact C1|]. eapply calm_trans; [exact C2|]. by eapply calm_tmoves.
  - exists al. subst i2 i1. done.
  - eapply others_trans; [exact W1|exact W3].
  - intros b Hb Hor. rewrite F3. by apply P1.
  - by eapply grows_trans.
  - intros x Hx0 Hx1. rewrite B3 by done. by apply B1.
  - intros j Hj Hpj (d & Hd & Hr). apply J3; [by subst i2 i1|done|]. exists d. destruct (IBLOCK_eq ct1 _ G1 Hpj) as (_ & Hb & _). rewrite J1 by lia. done.
Qed.

Lemma runE_writei (Q : Z -> kstate -> Prop) : off <= i_size i -> iplace (i_inum i) -> dinode_fits i ->
  (forall s' lg' ct' i', written s' lg' ct' i' -> Q n s') -> runE E (writei ip false src off n) s Q.
Proof.
  intros Hsize Hpl Hfit HQ. unfold writei. apply runE_bind. pose proof Hlive as (_ & Hi & _). wp. rewrite Hi.
  destruct (Z.ltb_spec (i_size i) off); [lia|]. rewrite u32_small by lia. destruct (Z.ltb_spec (off + n) off); [lia|]. cbn [orb].
  destruct (Z.ltb_spec (MAXFILE * BSIZE) (off + n)); [lia|]. apply runE_bind.
  eapply (runE_loop E _ (fun '(tot, o, d) s' => 0 <= tot <= n /\ o = off + tot /\ d = src + tot /\ exists lg' ct' i', wrote tot s' lg' ct' i')
    (fun '(tot, _, _) _ => Z.to_nat (n - tot))).
  - intros [[tot o] d] s1 (Ht & -> & -> & lg1 & ct1 & i1 & W). destruct (Z.ltb_spec tot n).
    + eapply runE_write_piece; [lia|exact W|]. intros s' lg' ct' i' m W'.
      destruct (piece (off + tot) n tot ltac:(lia) ltac:(lia)) as (Hm1 & _). fold m in Hm1. split; [|lia]. split_and!; try lia. by exists lg', ct', i'.
    + replace tot with n in * by lia. wp. destruct (Z.ltb_spec 0 n); [|lia]. apply runE_bind.
      eapply runE_write_tail; try done. intros s' lg' ct' i' W'. wp. rewrite s32_small by lia. by eapply HQ.
  - split_and!; try lia. exists lg, ct, i. split; rewrite ?Z.add_0_r; try done; try lia.
    + by eapply calm_tmoves; [|eapply tmoves_refl].
    + exists (i_addrs i). by destruct i.
    + apply grows_refl.
    + intros x Hx0 Hx1. rewrite bool_decide_false by lia. done.
  - lia.
Qed.
End writei.

(** Every block below the size is there. *)
Definition no_holes (ct : disk) (i : inode) : Prop := forall b, 0 <= b -> b * BSIZE < i_size i -> fblk ct i b <> 0.

Lemma written_no_holes s lg ct i off n src s' lg' ct' i' : written s lg ct i off n src s' lg' ct' i' ->
  0 <= off <= i_size i -> i_size i <= MAXFILE * BSIZE -> off + n <= MAXFILE * BSIZE -> no_holes ct i -> no_holes ct' i'.
Proof.
  intros W Ho Hs Hn Hh b Hb Hlt. destruct (wr_inode _ _ _ _ _ _ _ _ _ _ _ W) as (al & Hi'). rewrite Hi' in Hlt. cbn in Hlt.
  apply (wr_mapped _ _ _ _ _ _ _ _ _ _ _ W); [lia|]. destruct (Z_lt_ge_dec (b * BSIZE) (i_size i)); [left; by apply Hh|right].
  split_and!; [lia|apply Z.div_le_upper_bound; lia|lia].
Qed.
End io.

End FileIO.
