(* ===== verification/Atomic.v ===== *)
(** * File operations as crash-atomic transactions

    begin_op and end_op around code that works on the logical disk contents
    (see Tx): the contents it leaves are what the disk holds afterwards, and
    after a crash recovery finds the contents before or after it. *)

From S2P Require Import Prelude Bytes CString KState Spinlock Kernel Riscv Kalloc Vm Sched Console Virtio Disk Bio Cache Log Commit Transaction Fs Tx Balloc Dinode Inode FileIO.

Module Atomic.
Import Sched Virtio Disk Bio Cache Log Commit Transaction Fs Tx Balloc Dinode Inode FileIO.

Section atomic.
Context (E : kstate -> kstate -> Prop) `{HE : !DiskEnv E} (h p dv : nat) (sb : superblock).
Abbreviation tx := (tx E h p dv).
Abbreviation geom := (geom dv sb).
Abbreviation fs_key := (fs_key dv sb).
Abbreviation iplace := (iplace sb).
Abbreviation on_disk := (on_disk dv sb).

(** ** Transactions and the log *)

Lemma tx_begin s L rc ct : logging E h p s dv L 0 ct rc -> l_outstanding L = 1 -> l_committing L = false -> tx s ∅ ct [].
Proof.
  intros [G1 G2 G3 G4 G5 G6 G7 G8 G9 G10] Ho Hc. split; [|done|].
  - exists L, rc. by split_and!.
  - intros k Hk. by apply G8, elem_of_nil in Hk.
Qed.

Lemma tx_logging s lg ct : tx s lg ct [] -> exists L rc, logging E h p s dv L (size lg) ct rc /\
  list_to_set (home_keys dv L (size lg)) = lg /\ l_outstanding L = 1 /\ l_committing L = false.
Proof.
  intros [(L & rc & Hh & HL & Hlg & Hnd & Hn & Hbl & [Hout Hcom] & Hsz & Hrc) Hdv Hdirty]. exists L, rc. split_and!; try done.
  assert (Hin : forall k, k ∈ home_keys dv L (size lg) <-> k ∈ lg) by (intros k; rewrite <-(elem_of_list_to_set (C := gset bkey)); by rewrite Hlg).
  split; try done; try lia.
  - intros k Hk. by apply Hin, Hdirty.
  - intros k. rewrite Hrc. unfold refs, nz. cbn. rewrite (bool_decide_ext _ _ (Hin k)), (bool_decide_false (k ∈ [])) by apply not_elem_of_nil.
    destruct (bool_decide (k ∈ lg)); [by rewrite bool_decide_false|by rewrite bool_decide_true].
Qed.

(** Where the log is, before the inodes, with all its blocks on the disk. *)
Record log_place (L : logst) (d : disk) (hd : block) : Prop := {
  lp_start : 1 <= l_start L;
  lp_inodes : l_start L + 29 < sb_inodestart sb;
  lp_blocks : forall i, (i < 29)%nat -> is_Some (d !! log_key dv L i);
  lp_hdr : d !! hdr_key dv L = Some hd;
  lp_len : length hd = 1024%nat;
  lp_empty : s32 (ld32 hd 0) = 0
}.

Lemma tx_txn s lg ct L0 hd : tx s lg ct [] -> geom ct -> log_place L0 (disk_img (dev s)) hd -> l_start <$> logs s !! dv = Some (l_start L0) ->
  (forall k, fs_key k -> is_Some (disk_img (dev s) !! k)) -> grows dv sb ∅ lg -> lg <> ∅ -> (size lg <= 29)%nat ->
  exists L rc ds, txn E h p s dv L (size lg) ct rc ds hd /\ l_start L = l_start L0 /\ l_outstanding L = 1 /\ l_committing L = false /\
    (forall k, ct !! k <> disk_img (dev s) !! k -> k ∈ home_keys dv L (size lg)) /\ logging E h p s dv L (size lg) ct rc /\
    forall k, k ∈ home_keys dv L (size lg) -> fs_key k.
Proof.
  intros Htx Hg [P1 P2 P3 P4 P5 P6] Hst Hdisk Hgr Hne Hsz. destruct (tx_logging _ _ _ Htx) as (L & rc & G & Hlg & Hout & Hcom).
  assert (HL0 : l_start L = l_start L0).
  { rewrite <-(lg_L _ _ _ _ _ _ _ _ _ G). unfold log_at. destruct (logs s !! dv) as [l|] eqn:El; [|done]. injection Hst as Hst.
    by rewrite (list_lookup_total_correct _ _ _ El). }
  assert (Hfs : forall k, k ∈ home_keys dv L (size lg) -> fs_key k).
  { intros k Hk. apply (elem_of_list_to_set (C := gset bkey)) in Hk. rewrite Hlg in Hk. destruct (Hgr k Hk); [set_solver|done]. }
  assert (Hpos : (0 < size lg)%nat) by (destruct (decide (size lg = 0)%nat) as [?%size_empty_inv|]; [set_solver|lia]).
  pose proof (g_size _ _ _ Hg) as Hs.
  destruct (txn_of_logging E h p dv s L (size lg) ct rc hd G Hpos) as [ds T].
  - apply (layout_geom dv L0 ((fun k => (k.2, id)) <$> home_keys dv L (size lg))); [|done|done|apply G|].
    + pose proof (g_ino _ _ _ Hg). pose proof (g_bmap _ _ _ Hg). pose proof (Z.div_pos (sb_size sb - 1) BPB). unfold bmap_end in *.
      split_and!; [lia|lia|]. intros u (k & -> & Hk)%list_elem_of_fmap. destruct (Hfs k Hk). cbn. lia.
    + intros k Hk. exists (k.2, id). split; [apply list_elem_of_fmap; by exists k|]. destruct (Hfs k Hk) as [<- _]. by destruct k.
  - intros k [(i & Hi & ->)%elem_log_keys|Hk]%elem_of_app; [|by apply Hdisk, Hfs]. unfold log_key. rewrite HL0. apply P3. lia.
  - intros i Hi. destruct (Hfs (home_key dv L i)) as [H1 H2]; [apply elem_home_keys; by exists i|].
    pose proof (g_ino _ _ _ Hg). destruct (g_blocks _ _ _ Hg (home_key dv L i).2) as (d & Hd & _); [lia|]. exists d. rewrite <-Hd, <-H1. by destruct (home_key dv L i).
  - unfold hdr_key. by rewrite HL0.
  - exists L, rc, ds. split_and!; try done. apply G.
Qed.

(** ** The state after a commit *)

Lemma wr_ct_in ws k : k ∈ ws.*1 -> forall d d', wr_ct ws d !! k = wr_ct ws d' !! k.
Proof.
  induction ws as [|[k' x] ws IH] using rev_ind; intros Hk d d'; [by apply elem_of_nil in Hk|]. rewrite !wr_ct_snoc.
  destruct (decide (k' = k)) as [->|Hne]; [by rewrite !lookup_insert_eq|]. rewrite !lookup_insert_ne by done. apply IH.
  rewrite fmap_app, elem_of_app in Hk. destruct Hk as [|[Hk| ?%elem_of_nil]%elem_of_cons]; [done|by cbn in Hk|done].
Qed.

Lemma unpin_one ks : forall rc, NoDup ks -> (forall k, rc !! k = if bool_decide (k ∈ ks) then Some 1 else None) -> unpin_all ks rc = ∅.
Proof.
  induction ks as [|k ks IH]; intros rc Hnd Hrc.
  - apply map_eq. intros k. cbn. rewrite Hrc. by rewrite bool_decide_false by apply not_elem_of_nil.
  - apply NoDup_cons in Hnd as [Hk Hnd]. cbn. apply IH; [done|]. intros k'. rewrite Hrc, bool_decide_true by (apply elem_of_cons; by left).
    cbn. change (u32 0) with 0. unfold set_rc. rewrite decide_True by done. destruct (decide (k' = k)) as [->|Hne].
    + rewrite lookup_delete_eq. by rewrite bool_decide_false.
    + rewrite lookup_delete_ne by done. rewrite Hrc. apply (f_equal (fun b : bool => if b then Some 1 else None)). apply bool_decide_ext. rewrite elem_of_cons. naive_solver.
Qed.

(** The writes of a commit put the logical contents on the disk. *)
Lemma commit_clean s L n ct rc ds hd : txn E h p s dv L n ct rc ds hd -> logging E h p s dv L n ct rc ->
  wr_ct (commit_writes dv L n ds hd) ct = wr_ct (commit_writes dv L n ds hd) (disk_img (dev s)) /\ unpin_all (home_keys dv L n) rc = ∅.
Proof.
  intros T G. split; [|apply unpin_one; apply G]. apply map_eq. intros k. set (Ws := commit_writes _ _ _ _ _).
  destruct (decide (k ∈ Ws.*1)) as [Hin|Hout]; [by apply wr_ct_in|]. rewrite !wr_ct_notin by done.
  destruct (decide (ct !! k = disk_img (dev s) !! k)) as [|Hne]; [done|]. exfalso. apply Hout. apply (lg_dirty _ _ _ _ _ _ _ _ _ G) in Hne.
  unfold Ws, commit_writes. rewrite fmap_app, fmap_cons, fmap_app, !elem_of_app, elem_of_cons, elem_of_app. right. right. left.
  rewrite fst_zip; [done|]. unfold home_keys. rewrite length_fmap, length_seq. pose proof (tx_len _ _ _ _ _ _ _ _ _ _ _ T). lia.
Qed.


(** ** An operation *)

Section operation.
Context {A : Type} (m : K A) (s : kstate) (L : logst) (hd : block) (P : A -> disk -> Prop).
Let d0 := disk_img (dev s).
Context (Hq : quiet E h p dv s L) (Hplace : log_place L d0 hd) (Hdisk : forall k, fs_key k -> is_Some (d0 !! k)).

(** What the code between begin_op and end_op establishes. *)
Definition logs_only (s1 : kstate) : Prop := exists y l, s1 = set_sy y (set_logs l s) /\ l_start <$> l = l_start <$> logs s.
Definition operates : Prop := forall s1, tx s1 ∅ d0 [] -> logs_only s1 ->
  runE E m s1 (fun a s2 => exists lg ct, tx s2 lg ct [] /\ geom ct /\ grows dv sb ∅ lg /\ lg <> ∅ /\ (size lg <= 29)%nat /\
    l_start <$> logs s2 = l_start <$> logs s /\ dev s2 = dev s /\ P a ct).

(** What end_op leaves: the contents [ct] on the disk by the writes [W], each
    prefix of which recovery completes or undoes, and the log ready for the
    next operation. *)
Record committed (s2 s' : kstate) (ct : disk) (W : list (bkey * block)) : Prop := {
  cm_dev : dev s' = wr_dev W (dev s);
  cm_files : same_files dv L 29 (disk_img (dev s')) ct;
  cm_crash : forall pre, pre `prefix_of` W -> forall h' p' s2,
      fresh_boot E h' p' dv (l_start L) s2 -> disk_img (dev s2) = wr_ct pre d0 ->
      runE E (recover_from_log dv) s2 (fun _ s3 =>
        same_files dv L 29 (disk_img (dev s3)) d0 \/ same_files dv L 29 (disk_img (dev s3)) ct);
  cm_fs : fs s' = fs s2;
  cm_pt : pt_sim (pt s2) (pt s');
  cm_len : Forall (fun w => length w.2 = 1024%nat) W;
  cm_next : exists L' hd', quiet E h p dv s' L' /\ log_place L' (disk_img (dev s')) hd' /\ l_start L' = l_start L
}.

Lemma log_place_next L' n ds W : log_geom dv L' n -> l_start L' = l_start L -> W = commit_writes dv L' n ds hd -> (n <= 29)%nat ->
  log_place (set_l_n 0 (set_l_outstanding 0 L')) (wr_ct W d0) (put_head (set_l_n 0 L') 0 (put_head L' n hd)).
Proof using Hplace.
  intros Hgm Hst -> Hn. destruct Hplace as [P1 P2 P3 P4 P5 P6]. destruct (put_head_spec L' hd n) as (Hl1 & _ & _); [lia|lia|].
  destruct (put_head_spec (set_l_n 0 L') (put_head L' n hd) 0) as (Hl2 & H0 & _); [lia|lia|]. split; cbn [l_start set_l_n set_l_outstanding]; rewrite ?Hst; try done; [| |congruence|by rewrite H0].
  - intros i Hi. apply wr_ct_some. unfold log_key. cbn [l_start set_l_n set_l_outstanding]. rewrite Hst. by apply P3.
  - unfold commit_writes. rewrite cons_middle, !app_assoc, wr_ct_snoc. unfold hdr_key. cbn [l_start set_l_n set_l_outstanding]. apply lookup_insert_eq.
Qed.

Lemma commit_lengths s2 L' n ct rc ds : txn E h p s2 dv L' n ct rc ds hd -> (forall k, k ∈ home_keys dv L' n -> exists x, ct !! k = Some x /\ length x = 1024%nat) ->
  Forall (fun w => length w.2 = 1024%nat) (commit_writes dv L' n ds hd).
Proof using Hplace.
  intros T Hl. pose proof (lp_len _ _ _ Hplace) as Hhd. pose proof (proj2 (tx_geom _ _ _ _ _ _ _ _ _ _ _ T)) as Hn. pose proof (tx_len _ _ _ _ _ _ _ _ _ _ _ T) as Hds.
  destruct (put_head_spec L' hd n) as (Hl1 & _ & _); [lia|lia|]. destruct (put_head_spec (set_l_n 0 L') (put_head L' n hd) 0) as (Hl2 & _ & _); [lia|lia|].
  assert (Hz : forall ks, Forall (fun w : bkey * block => length w.2 = 1024%nat) (zip ks ds)).
  { intros ks. rewrite Forall_forall. intros [k x] Hin. apply elem_of_zip_r in Hin. apply list_elem_of_lookup_1 in Hin as (i & Hi). cbn.
    destruct (Hl (home_key dv L' i)) as (y & Hy & Hly); [apply elem_home_keys; exists i; split; [|done]; apply lookup_lt_Some in Hi; lia|].
    rewrite (Commit.tx_data _ _ _ _ _ _ _ _ _ _ _ T i x Hi) in Hy. by simplify_eq. }
  unfold commit_writes. apply Forall_app. split; [apply Hz|]. apply Forall_cons. split; [cbn [snd]; congruence|]. apply Forall_app. split; [apply Hz|]. apply Forall_singleton. cbn [snd]. congruence.
Qed.

Lemma runE_end s2 lg ct (Q : unit -> kstate -> Prop) : tx s2 lg ct [] -> geom ct -> grows dv sb ∅ lg -> lg <> ∅ -> (size lg <= 29)%nat ->
  l_start <$> logs s2 = l_start <$> logs s -> dev s2 = dev s -> (forall s' W, committed s2 s' ct W -> Q tt s') -> runE E (end_op dv) s2 Q.
Proof using HE Hq Hplace Hdisk.
  intros T2 Hg Hgr Hne Hsz Hst Hd2 HQ.
  destruct (tx_txn s2 lg ct L hd T2 Hg) as (L' & rc & ds & T & HstL & Hout & Hcom & Hdirty & G & Hfs); try done; [by rewrite Hd2| |by rewrite Hd2|].
  { rewrite <-list_lookup_fmap, Hst, list_lookup_fmap, (list_lookup_lookup_total_lt _ _ (qu_dv _ _ _ _ _ _ Hq)).
    fold (log_at dv s). by rewrite (qu_L _ _ _ _ _ _ Hq). }
  destruct (commit_clean _ _ _ _ _ _ _ T G) as [Hclean Hrc].
  eapply (runE_end_op E h p dv s2 L' _ ct rc ds hd); [exact T|done|done|]. intros s3 Hd3 Hh3 HL3 Hdv3 Hfs3 Hpt3.
  apply (HQ s3 (commit_writes dv L' (size lg) ds hd)).
  assert (Hmono : forall d d', same_files dv L' (size lg) d d' -> same_files dv L 29 d d')
    by (intros; by apply (same_files_mono dv L L' 29 (size lg))).
  pose proof (commit_final E h p s2 dv L' _ ct rc ds hd T) as HF.
  pose proof (crash_recovers E h p s2 dv L' _ ct rc ds hd T (lp_len _ _ _ Hplace) (lp_empty _ _ _ Hplace) Hdirty) as HR.
  rewrite Hd2 in Hd3, HF, HR, Hdirty, Hclean. split; [done| | |done|done| |].
  - apply Hmono. rewrite Hd3, disk_img_wr. by apply HF.
  - intros pre Hpre h' p' s4 Hb Hd4. eapply runE_mono; [eapply (HR pre Hpre); [by rewrite HstL|exact Hd4]|].
    intros _ s5 [[H|H] _]; [left|right]; by apply Hmono.
  - eapply commit_lengths; [exact T|]. intros k Hk. destruct (Hfs k Hk) as [H1 H2]. pose proof (g_ino _ _ _ Hg).
    destruct (g_blocks _ _ _ Hg k.2) as (x & Hx & Hlx); [lia|]. exists x. rewrite <-Hx, <-H1. by destruct k.
  - eexists _, _. split_and!; [|rewrite Hd3, disk_img_wr; eapply (log_place_next L'); [by eapply tx_geom|done|done|done]|done].
    rewrite Hrc, Hclean, <-disk_img_wr, <-Hd3 in Hh3. split; [exact Hh3|exact HL3|exact Hdv3|exact (lg_blocks _ _ _ _ _ _ _ _ _ G)|reflexivity|reflexivity|exact Hcom|exact (lg_size _ _ _ _ _ _ _ _ _ G)].
Qed.

(** An operation that logged nothing. *)
Lemma runE_end_none s2 ct (Q : unit -> kstate -> Prop) : tx s2 ∅ ct [] -> l_start <$> logs s2 = l_start <$> logs s -> dev s2 = dev s ->
  (forall s' L', dev s' = dev s -> ct = d0 -> quiet E h p dv s' L' -> l_start L' = l_start L -> fs s' = fs s2 -> pt_sim (pt s2) (pt s') -> Q tt s') -> runE E (end_op dv) s2 Q.
Proof using HE Hq.
  intros T2 Hst Hd2 HQ. destruct (tx_logging _ _ _ T2) as (L' & rc & G & _ & Hout & Hcom). rewrite size_empty in G.
  assert (Hct : ct = d0).
  { apply map_eq. intros k. unfold d0. rewrite <-Hd2. destruct (decide (ct !! k = disk_img (dev s2) !! k)) as [|Hne]; [done|]. by apply (lg_dirty _ _ _ _ _ _ _ _ _ G), elem_of_nil in Hne. }
  assert (Hrc : rc = ∅) by (apply map_eq; intros k; rewrite (lg_rc _ _ _ _ _ _ _ _ _ G); by rewrite bool_decide_false by apply not_elem_of_nil).
  assert (HstL : l_start L' = l_start L).
  { rewrite <-(lg_L _ _ _ _ _ _ _ _ _ G), <-(qu_L _ _ _ _ _ _ Hq). unfold log_at. apply (f_equal (.!! dv)) in Hst. rewrite !list_lookup_fmap in Hst.
    rewrite (list_lookup_lookup_total_lt _ _ (qu_dv _ _ _ _ _ _ Hq)), (list_lookup_lookup_total_lt _ _ (lg_dv _ _ _ _ _ _ _ _ _ G)) in Hst. by injection Hst. }
  eapply (runE_end_op_none E h p dv s2 L' ct rc); [apply G|apply G|apply G|apply G|done|done|]. intros s3 Hd3 Hh3 HL3 Hdv3 Hfs3 Hpt3.
  apply (HQ s3 (set_l_outstanding 0 L')); try done; [congruence|]. rewrite Hrc, Hct in Hh3. unfold d0 in Hh3. rewrite <-Hd2, <-Hd3 in Hh3.
  split; [exact Hh3|exact HL3|exact Hdv3|exact (lg_blocks _ _ _ _ _ _ _ _ _ G)|exact (lg_n _ _ _ _ _ _ _ _ _ G)|reflexivity|exact Hcom|exact (lg_size _ _ _ _ _ _ _ _ _ G)].
Qed.

Lemma runE_begin (Q : unit -> kstate -> Prop) : (forall s1, tx s1 ∅ d0 [] -> logs_only s1 -> Q tt s1) -> runE E (begin_op dv) s Q.
Proof using HE Hq Hplace Hdisk.
  intros HQ. eapply runE_begin_op; [exact Hq|]. intros s1 G1 Hd1 Hlo. apply HQ; [|done]. eapply tx_begin; [exact G1|done|apply Hq].
Qed.

Lemma runE_atomic : operates ->
  runE E (begin_op dv ;; a <- m ;; end_op dv ;; ret a) s (fun a s' => exists ct W,
    P a ct /\ dev s' = wr_dev W (dev s) /\ same_files dv L 29 (disk_img (dev s')) ct /\
    forall pre, pre `prefix_of` W -> forall h' p' s2,
      fresh_boot E h' p' dv (l_start L) s2 -> disk_img (dev s2) = wr_ct pre d0 ->
      runE E (recover_from_log dv) s2 (fun _ s3 =>
        same_files dv L 29 (disk_img (dev s3)) d0 \/ same_files dv L 29 (disk_img (dev s3)) ct)).
Proof using All.
  intros Hm. apply runE_bind, runE_begin. intros s1 T1 Hlo. apply runE_bind.
  eapply runE_mono; [by apply Hm|]. intros a s2 (lg & ct & T2 & Hg & Hgr & Hne & Hsz & Hst & Hd2 & HP). apply runE_bind.
  eapply (runE_end s2 lg ct); try done. intros s3 W [C1 C2 C3 _ _ _ _]. apply runE_ret. by exists ct, W.
Qed.
End operation.

(** ** The file system part of two disks *)

Definition same_fs (d d' : disk) : Prop := forall k, fs_key k -> d !! k = d' !! k.

Lemma same_files_fs L n d d' hd d1 : log_place L d1 hd -> l_start L + 31 < 2 ^ 32 -> (n <= 29)%nat -> same_files dv L n d d' -> same_fs d d'.
Proof.
  intros [P1 P2 _ _ _ _] Hs Hn H k [Hk1 Hk2]. apply H.
  - unfold hdr_key. rewrite u32_small by lia. intros ->. cbn in Hk2. lia.
  - intros (i & Hi & ->)%elem_log_keys. unfold log_key in Hk2. cbn in Hk2. rewrite u32_small in Hk2 by lia. lia.
Qed.

Lemma same_fs_file d d' i : geom d' -> same_fs d d' -> file_ok dv sb d' i ->
  file_ok dv sb d i /\ (forall bn, 0 <= bn < MAXFILE -> fblk dv d i bn = fblk dv d' i bn) /\
  forall x, 0 <= x -> x / BSIZE < MAXFILE -> fbyte dv d i x = fbyte dv d' i x.
Proof.
  intros Hg Hs [F1 F2 F3 F4 F5].
  assert (Hu : forall b, 0 <= b < sb_size sb -> used dv sb d b = used dv sb d' b).
  { intros b Hb. unfold used. rewrite Hs; [done|]. destruct (BBLOCK_eq dv sb d' b Hg Hb) as (_ & Hr & _ & Hk). pose proof (g_ino _ _ _ Hg).
    split; [done|]. cbn in *. lia. }
  assert (Hgd : forall a, good dv sb d' a -> good dv sb d a) by (intros a (H1 & H2 & H3); split_and!; [lia..|rewrite Hu by lia; done|done]).
  assert (Hk : forall a, good dv sb d' a -> d !! (dv, a) = d' !! (dv, a)) by (intros a Ha; by eapply Hs, good_fs_key).
  assert (Hf : forall bn, 0 <= bn < MAXFILE -> fblk dv d i bn = fblk dv d' i bn).
  { intros bn Hbn. unfold fblk. destruct (bn <? NDIRECT); [done|]. destruct (Z.eqb_spec (ind i) 0); [done|]. rewrite Hk; [done|by apply F4]. }
  split_and!; [split; [done|done|..]|done|].
  - intros bn Hbn. rewrite Hf by done. intros Hne. destruct (F3 bn Hbn Hne). split; [by apply Hgd|done].
  - intros Hne. by apply Hgd, F4.
  - intros bn bn' Hb Hb'. rewrite !Hf by done. by apply F5.
  - intros x H0 H1. assert (Hb : 0 <= x / BSIZE < MAXFILE) by (split; [apply Z.div_pos; lia|done]).
    apply fbyte_ext; [done|by apply Hf|]. intros Hne. by apply Hk, F3.
Qed.

Lemma same_fs_inode d d' i : geom d' -> same_fs d d' -> iplace (i_inum i) -> on_disk d' i -> on_disk d i.
Proof.
  intros Hg Hs Hp (b & Hb & Hrest). exists b. split; [|done]. rewrite Hs; [done|].
  destruct (IBLOCK_eq dv sb d' _ Hg Hp) as (_ & Hr & Hbe). pose proof (g_bmap _ _ _ Hg). split; [done|]. cbn. lia.
Qed.

(** A file on a disk: its inode, and its first bytes. *)
Definition file_on (d : disk) (i : inode) (f : Z -> Z) : Prop :=
  on_disk d i /\ file_ok dv sb d i /\ forall x, 0 <= x < i_size i -> fbyte dv d i x = f x.

Lemma same_fs_on d d' i f : geom d' -> same_fs d d' -> iplace (i_inum i) -> 0 <= i_size i <= MAXFILE * BSIZE ->
  file_on d' i f -> file_on d i f.
Proof.
  intros Hg Hs Hp Hsz (H1 & H2 & H3). destruct (same_fs_file d d' i Hg Hs H2) as (F1 & _ & F2). split_and!; [by eapply same_fs_inode|done|].
  intros x Hx. rewrite F2; [by apply H3|lia|]. apply Z.div_lt_upper_bound; lia.
Qed.

(** ** A write to a file, as the system call makes it *)

Section write.
Context (ip : nat) (s : kstate) (L : logst) (hd : block) (i : inode) (off n src : Z).
Let d0 := disk_img (dev s).
Context (Hq : quiet E h p dv s L) (Hplace : log_place L d0 hd) (Hg : geom d0) (Hlive : live sb ip s i) (Hon : file_on d0 i (fbyte dv d0 i)).
Context (Hsize : 0 <= off <= i_size i) (Hmax : i_size i <= MAXFILE * BSIZE) (Hn : 0 < n) (Hsz : off + n <= MAXFILE * BSIZE) (Hsrc : 0 <= src /\ src + n < 2 ^ 64).
Context (Hmem : forall a, src <= a < src + n -> ~ scratch a) (Hblocks : pieces off (off + n) <= 4) (Hfree : 2 * pieces off (off + n) <= Z.of_nat (nfree dv sb d0)).
Context (Hpl : iplace (i_inum i)) (Hfit : dinode_fits i).

(** The bytes of the file after the write. *)
Definition new_bytes (x : Z) : Z := if bool_decide (off <= x < off + n) then getb (mm s) (src + (x - off)) else fbyte dv d0 i x.
Definition new_file (r : Z) (ct : disk) : Prop := r = n /\ geom ct /\ exists al, let i' := set_i_size (Z.max (i_size i) (off + n)) (set_i_addrs al i) in
  file_on ct i' new_bytes /\ others dv sb d0 ct i i'.

(** Files with other blocks keep their blocks and bytes. *)
Definition other_files (d d' : disk) (i : inode) : Prop := forall j, file_ok dv sb d j ->
  (forall a, a <> 0 -> blk_of dv d j a -> ~ blk_of dv d i a) ->
  file_ok dv sb d' j /\ forall x, 0 <= x -> x / BSIZE < MAXFILE -> fbyte dv d' j x = fbyte dv d j x.

Lemma operates_write : operates (writei ip false src off n) s new_file.
Proof using All.
  intros s1 T1 (y & l & Hs1 & Hst). destruct Hon as (_ & Hok & _). assert (Hl1 : live sb ip s1 i) by (subst s1; exact Hlive).
  assert (Hm1 : mm s1 = mm s) by (by subst s1). assert (Hd1 : dev s1 = dev s) by (by subst s1).
  eapply (runE_writei E h p dv sb ip s1 ∅ d0 i off n src T1); try done; try lia; [rewrite size_empty; lia|].
  intros s2 lg2 ct2 i2 [C2 L2 T2 G2 O2 (al & Hi2) D2 W2 P2 K2 N2 Hl2 B2 _]. exists lg2, ct2. rewrite size_empty in Hl2.
  assert (Hc : l_start <$> logs s2 = l_start <$> logs s1 /\ dev s2 = dev s1) by (destruct C2 as (y2 & m2 & t2 & v2 & bs2 & l2 & i3 & -> & _ & _ & Hst2); done).
  destruct Hc as [Hc1 Hc2]. split_and!; try done; try lia.
  - rewrite Hc1. by subst s1.
  - congruence.
  - split_and!; [done|done|]. exists al. rewrite <-Hi2. split; [|done]. split_and!; [done|done|]. intros x Hx. unfold new_bytes.
    assert (i_size i2 = Z.max (i_size i) (off + n)) as Hs2 by (by subst i2). rewrite B2, Hm1; [done|lia|]. apply Z.div_lt_upper_bound; lia.
Qed.

Lemma runE_write_file : runE E (begin_op dv ;; r <- writei ip false src off n ;; end_op dv ;; ret r) s (fun r s' => exists al W,
    let i' := set_i_size (Z.max (i_size i) (off + n)) (set_i_addrs al i) in
    r = n /\ dev s' = wr_dev W (dev s) /\ file_on (disk_img (dev s')) i' new_bytes /\ other_files d0 (disk_img (dev s')) i /\
    forall pre, pre `prefix_of` W -> forall h' p' s2,
      fresh_boot E h' p' dv (l_start L) s2 -> disk_img (dev s2) = wr_ct pre d0 ->
      runE E (recover_from_log dv) s2 (fun _ s3 =>
        file_on (disk_img (dev s3)) i (fbyte dv d0 i) \/ file_on (disk_img (dev s3)) i' new_bytes)).
Proof using All.
  assert (Hdisk : forall k, fs_key k -> is_Some (d0 !! k)).
  { intros [k1 k2] [Hk1 Hk2]. cbn in *. subst k1. pose proof (g_ino _ _ _ Hg). destruct (g_blocks _ _ _ Hg k2 ltac:(lia)) as (d & -> & _). done. }
  pose proof (g_ino _ _ _ Hg). pose proof (g_bmap _ _ _ Hg). pose proof (g_size _ _ _ Hg). pose proof (bmap_end_ge dv sb _ Hg). pose proof (lp_inodes _ _ _ Hplace).
  eapply runE_mono; [by apply (runE_atomic _ s L hd new_file Hq Hplace Hdisk operates_write)|].
  intros r s' (ct & W & (-> & Gc & al & Hf & Ho) & Hd & Hs & Hc). exists al, W. split_and!; [done|done| | |].
  - eapply (same_fs_on _ ct); try done; [by eapply (same_files_fs L 29); [exact Hplace|lia|lia|]|cbn; lia].
  - intros j Hj Hdis. destruct (others_file dv sb d0 ct i _ j Ho Hj Hdis) as (J1 & _ & J2 & _).
    destruct (same_fs_file (disk_img (dev s')) ct j Gc) as (K1 & _ & K2); [by eapply (same_files_fs L 29); [exact Hplace|lia|lia|]|done|].
    split; [done|]. intros x Hx0 Hx1. by rewrite K2, J2.
  - intros pre Hpre h' p' s2 Hb Hd2. eapply runE_mono; [by apply (Hc pre Hpre h' p')|]. intros _ s3 [Hsf|Hsf]; [left|right].
    + eapply (same_fs_on _ d0); try done; [|lia]. eapply (same_files_fs L 29); [exact Hplace|lia|lia|done].
    + eapply (same_fs_on _ ct); try done; [by eapply (same_files_fs L 29); [exact Hplace|lia|lia|]|cbn; lia].
Qed.
End write.
End atomic.

End Atomic.
