(* ===== verification/FileSystem.v ===== *)
(** * The file system on the virtio disk

    The theorems about fs.c, stated for the driver of virtio_disk.c and any
    device that satisfies [BlockDevice], with a small file system on a concrete
    machine on which their hypotheses hold. *)

From S2P Require Import Prelude Bytes CString KState Spinlock Kernel Riscv Machine Kalloc Vm Sched Console Virtio Disk Bio Cache Log Commit Transaction VirtioRefine Crash Fs Tx Balloc Dinode Inode FileIO Atomic.

Module FileSystem.
Import Vm Sched Virtio Disk Bio Cache Log Commit Transaction VirtioRefine Machine Crash Fs Tx Balloc Dinode Inode FileIO Atomic.

Section theorems.
Context (device : nat -> kstate -> kstate -> Prop) `{HD : !BlockDevice device} (A : nat -> Z) (W : Z -> Prop).
Abbreviation E := (env device).
#[local] Instance fs_disk_env : DiskEnv E := driver_DiskEnv device A W.
Context (h p dv : nat) (sb : superblock).

(** C2: A write to a file is atomic.  begin_op(), writei() of [n] bytes of
    kernel memory at offset [off] and end_op() return [n]; the disk then holds the
    inode with its new size and the file has the written bytes in
    [off, off + n) and its old bytes elsewhere; files that share no block with
    it are unchanged.  After a crash between any two of the disk writes, log
    recovery finds either the old file or the new one.  At most four blocks
    are touched, as filewrite() guarantees, and the disk has enough free
    blocks. *)
Theorem write_atomic ip s L hd i off n src :
  quiet E h p dv s L -> log_place dv sb L (disk_img (dev s)) hd -> geom dv sb (disk_img (dev s)) -> live sb ip s i ->
  file_on dv sb (disk_img (dev s)) i (fbyte dv (disk_img (dev s)) i) ->
  0 <= off <= i_size i -> i_size i <= MAXFILE * BSIZE -> 0 < n -> off + n <= MAXFILE * BSIZE ->
  0 <= src /\ src + n < 2 ^ 64 -> (forall a, src <= a < src + n -> ~ header A a) ->
  pieces off (off + n) <= 4 -> 2 * pieces off (off + n) <= Z.of_nat (nfree dv sb (disk_img (dev s))) ->
  iplace sb (i_inum i) -> dinode_fits i ->
  runE E (begin_op dv ;; r <- writei ip false src off n ;; end_op dv ;; ret r) s (fun r s' => exists al Ws,
    let i' := set_i_size (Z.max (i_size i) (off + n)) (set_i_addrs al i) in
    r = n /\ dev s' = wr_dev Ws (dev s) /\
    file_on dv sb (disk_img (dev s')) i' (new_bytes dv s i off n src) /\
    other_files dv sb (disk_img (dev s)) (disk_img (dev s')) i /\
    forall pre, pre `prefix_of` Ws -> forall h' p' s2,
      fresh_boot E h' p' dv (l_start L) s2 -> disk_img (dev s2) = wr_ct pre (disk_img (dev s)) ->
      runE E (recover_from_log dv) s2 (fun _ s3 =>
        file_on dv sb (disk_img (dev s3)) i (fbyte dv (disk_img (dev s)) i) \/
        file_on dv sb (disk_img (dev s3)) i' (new_bytes dv s i off n src))).
Proof. intros. by apply (runE_write_file E h p dv sb ip s L hd i off n src). Qed.

(** Reading a file to kernel memory.  readi() of at most [n] bytes at [off]
    returns how many of them the file has, copies exactly these bytes of the
    file to [dst] and changes no other memory, no block and no inode. *)
Lemma readi_kernel ip s lg ct i off n dst :
  let r := Z.min n (i_size i - off) in
  tx E h p dv s lg ct [] -> live sb ip s i -> geom dv sb ct -> file_ok dv sb ct i -> no_holes dv ct i -> (size lg < 29)%nat ->
  0 <= off <= i_size i -> i_size i <= MAXFILE * BSIZE -> 0 <= n -> off + n < 2 ^ 32 -> 0 <= dst /\ dst + r < 2 ^ 64 ->
  (forall a, dst <= a < dst + r -> W a /\ ~ header A a) ->
  runE E (readi ip false dst off n) s (fun r' s' => r' = r /\
    (forall a, ~ header A a -> getb (mm s') a =
       if bool_decide (dst <= a < dst + r) then fbyte dv ct i (off + (a - dst)) else getb (mm s) a) /\
    tx E h p dv s' lg ct [] /\ live sb ip s' i).
Proof.
  intros r Htx Hl Hg Hok Hh Hlg Hoff Hmax Hn Hn32 Hdst Hbuf.
  eapply (runE_readi E h p dv sb ip s lg ct i off r dst); try done; try lia.
  - intros bn H1 H2. apply Hh; [|unfold r in *; lia]. pose proof (Z.div_pos off BSIZE). lia.
  - intros s' (C & L' & T' & Hb). split_and!; try done. intros a Ha. destruct (decide (dst <= a < dst + r)).
    + rewrite bool_decide_true by done. by apply Hb.
    + rewrite bool_decide_false by done. by eapply (calm_mem E ip).
Qed.

(** C29: Read after write.  Inside a transaction with room in the log for the
    blocks, what writei() stored from kernel memory at an offset of a file
    without holes, readi() at the same offset brings back to kernel memory. *)
Theorem writei_readi ip s lg ct i off n src dst :
  tx E h p dv s lg ct [] -> live sb ip s i -> geom dv sb ct -> file_ok dv sb ct i -> no_holes dv ct i ->
  0 <= off <= i_size i -> i_size i <= MAXFILE * BSIZE -> 0 < n -> off + n <= MAXFILE * BSIZE ->
  0 <= src /\ src + n < 2 ^ 64 -> (forall a, src <= a < src + n -> ~ header A a) ->
  0 <= dst /\ dst + n < 2 ^ 64 -> (forall a, dst <= a < dst + n -> W a /\ ~ header A a) ->
  Z.of_nat (size lg) + 6 * pieces off (off + n) + 1 < 29 -> 2 * pieces off (off + n) <= Z.of_nat (nfree dv sb ct) ->
  iplace sb (i_inum i) -> dinode_fits i ->
  runE E (r1 <- writei ip false src off n ;; r2 <- readi ip false dst off n ;; ret (r1, r2)) s (fun '(r1, r2) s' =>
    r1 = n /\ r2 = n /\ forall j, 0 <= j < n -> getb (mm s') (dst + j) = getb (mm s) (src + j)).
Proof.
  intros Htx Hl Hg Hok Hh Hoff Hmax Hn Hsz Hsrc Hmem Hdst Hbuf Hlog Hfree Hpl Hfit. apply runE_bind.
  eapply (runE_writei E h p dv sb ip s lg ct i off n src); try done; try lia. intros s1 lg1 ct1 i1 Wr. apply runE_bind.
  pose proof (written_no_holes E h p dv sb ip _ _ _ _ _ _ _ _ _ _ _ Wr ltac:(lia) ltac:(lia) ltac:(lia) Hh) as Hh1.
  destruct Wr as [C1 L1 T1 G1 O1 (al & Hi1) _ _ _ _ _ Hl1 B1 _]. assert (Hs1 : i_size i1 = Z.max (i_size i) (off + n)) by (by subst i1).
  eapply (runE_readi E h p dv sb ip s1 lg1 ct1 i1 off n dst); try done; try lia.
  { intros bn H1 H2. apply Hh1; [|lia]. pose proof (Z.div_pos off BSIZE). lia. }
  intros s2 (_ & _ & _ & Hb). apply runE_ret. split_and!; [done|done|]. intros j Hj. rewrite Hb by lia.
  rewrite B1 by (lia || apply Z.div_lt_upper_bound; lia). rewrite bool_decide_true by lia. f_equal. lia.
Qed.

(** balloc() returns the free block with the lowest number, marks it in
    the bitmap, zeroes it and logs the two changed blocks; no other block
    changes its contents or its allocation state. *)
Theorem balloc_correct s lg ct :
  tx E h p dv s lg ct [] -> KState.sb (fs s) = sb -> geom dv sb ct -> (size lg < 28)%nat ->
  (exists b, 0 <= b < sb_size sb /\ used dv sb ct b = false) ->
  runE E (balloc dv) s (fun r s' => exists lg' ct',
    0 <= r < sb_size sb /\ used dv sb ct r = false /\ (forall b, 0 <= b < r -> used dv sb ct b = true) /\
    tx E h p dv s' lg' ct' [] /\ geom dv sb ct' /\ (size lg' <= size lg + 2)%nat /\
    (forall b, 0 <= b < sb_size sb -> used dv sb ct' b = if bool_decide (b = r) then true else used dv sb ct b) /\
    (exists z, ct' !! (dv, r) = Some z /\ zeroed z) /\
    (forall k, k <> (dv, r) -> k <> (dv, BBLOCK r sb) -> ct' !! k = ct !! k)).
Proof.
  intros Htx Hsb Hg Hlg Hex. eapply (runE_balloc E h p dv sb s lg ct []); try done; try (by intros k ?%elem_of_nil); [cbn; lia|].
  intros r s' (d & z & Hr & Hf & Hlow & Hd & Hz & _ & Htx'). assert (Hr' : 0 <= r < sb_size sb) by lia.
  eexists _, _. split_and!; [lia|lia|done|done|exact Htx'|by apply geom_taken| |by apply used_taken| |].
  - pose proof (size_add (dv, r) ({[(dv, BBLOCK r sb)]} ∪ lg)). pose proof (size_add (dv, BBLOCK r sb) lg). lia.
  - exists z. split; [apply lookup_insert_eq|done].
  - intros k H1 H2. unfold taken. by rewrite !lookup_insert_ne.
Qed.

(** Freeing a block undoes its allocation: balloc() followed by bfree() of
    the block it returned leaves the same blocks in use as before. *)
Theorem balloc_bfree s lg ct :
  tx E h p dv s lg ct [] -> KState.sb (fs s) = sb -> geom dv sb ct -> (size lg < 27)%nat ->
  (exists b, 0 <= b < sb_size sb /\ used dv sb ct b = false) ->
  runE E (b <- balloc dv ;; bfree dv b) s (fun _ s' => exists lg' ct', tx E h p dv s' lg' ct' [] /\
    forall b, 0 <= b < sb_size sb -> used dv sb ct' b = used dv sb ct b).
Proof.
  intros Htx Hsb Hg Hlg Hex. apply runE_bind.
  eapply (runE_balloc E h p dv sb s lg ct []); try done; try (by intros k ?%elem_of_nil); [lia|cbn; lia|].
  intros r s1 (d & z & Hr & Hf & _ & Hd & Hz & M1 & T1). assert (Hr' : 0 <= r < sb_size sb) by lia.
  pose proof (geom_taken dv sb ct Hg r d z Hr' Hf Hd Hz) as Hg1. pose proof (used_taken dv sb ct Hg r d z Hr' Hf Hd) as Hu1.
  destruct (bitmap_data dv sb _ r Hg1 Hr') as (d1 & Hd1 & Hlen1 & _). destruct (BBLOCK_eq dv sb ct r Hg Hr') as (_ & _ & HB).
  pose proof (size_add (dv, r) ({[(dv, BBLOCK r sb)]} ∪ lg)). pose proof (size_add (dv, BBLOCK r sb) lg).
  eapply (runE_bfree E h p dv sb s1 _ _ [] T1); try done; try (by intros k ?%elem_of_nil); try (cbn; lia); [by rewrite (tmoves_fs _ _ _ _ _ M1)|by rewrite Hu1, bool_decide_true|].
  intros s2 M2 T2. eexists _, _. split; [exact T2|]. intros b Hb.
  rewrite (used_update dv sb _ r d1 _ false Hg1 Hr' Hd1) by first [done|intros bj Hbj; apply bit_unmark; [done|apply Z.mod_pos_bound; lia|done]].
  case_bool_decide; [by subst b|]. rewrite Hu1 by done. by rewrite bool_decide_false.
Qed.
End theorems.

(** iupdate() and ilock() agree on the layout of struct dinode: loading
    what was stored gives back every field, negative device numbers and link
    counts included, and the other inodes of the block are untouched. *)
Theorem dinode_roundtrip d i inum :
  length d = 1024%nat -> dinode_fits i ->
  load_dinode (store_dinode d (dinode_off inum) i) (dinode_off inum) i = i /\
  forall inum' j, inum' <> inum -> inum' / IPB = inum / IPB ->
    load_dinode (store_dinode d (dinode_off inum) i) (dinode_off inum') j = load_dinode d (dinode_off inum') j.
Proof.
  intros Hlen Hf. pose proof (dinode_off_bound inum). split.
  - apply load_store_dinode; try done; try lia. apply Hf.
  - intros inum' j Hne Hq. apply load_store_other; [apply Hf|]. by apply dinode_apart.
Qed.

(** Requests readi() and writei() refuse: an offset past the end, a
    length that wraps, or a file above the maximal size; nothing changes. *)
Theorem file_bounds ip user addr off n s :
  let size := i_size (inode_at ip s) in
  (size < off \/ u32 (off + n) < off -> readi ip user addr off n s = Ok (-1) s) /\
  (size < off \/ u32 (off + n) < off \/ MAXFILE * BSIZE < u32 (off + n) -> writei ip user addr off n s = Ok (-1) s).
Proof.
  intros size. unfold readi, writei, bind, gets. cbn [bind_outcome]. fold size.
  destruct (Z.ltb_spec size off), (Z.ltb_spec (u32 (off + n)) off); cbn [orb]; split; intros H'; try done; try lia.
  destruct (Z.ltb_spec (MAXFILE * BSIZE) (u32 (off + n))); [done|lia].
Qed.

(** A file of one block. *)
Lemma fblk_one dv ct i a bn : i_addrs i = a :: replicate 12 0 -> 0 <= bn -> fblk dv ct i bn = if bn =? 0 then a else 0.
Proof.
  intros Ha Hb. unfold fblk, ind. rewrite Ha. destruct (Z.ltb_spec bn NDIRECT); [|by destruct (Z.eqb_spec bn 0); [lia|]].
  destruct (Z.eqb_spec bn 0) as [->|]; [done|]. replace (Z.to_nat bn) with (S (Z.to_nat (bn - 1))) by lia.
  change ((a :: replicate 12 0) !!! S (Z.to_nat (bn - 1))) with (replicate 12 0 !!! Z.to_nat (bn - 1)). apply lookup_total_replicate_2. lia.
Qed.

Lemma file_one dv sb ct i a : i_dev i = dv -> i_addrs i = a :: replicate 12 0 -> good dv sb ct a -> file_ok dv sb ct i.
Proof.
  intros Hd Ha Hg. assert (Hi : ind i = 0) by (unfold ind; by rewrite Ha). split; [done|by rewrite Ha|..].
  - intros bn Hb. rewrite (fblk_one dv ct i a), Hi by (done || lia). by destruct (Z.eqb_spec bn 0).
  - by rewrite Hi.
  - intros bn bn' Hb Hb'. rewrite !(fblk_one dv ct i a) by (done || lia). destruct (Z.eqb_spec bn 0), (Z.eqb_spec bn' 0); (lia || done).
Qed.

Lemma no_holes_one dv ct i a : i_addrs i = a :: replicate 12 0 -> a <> 0 -> i_size i <= BSIZE -> no_holes dv ct i.
Proof. intros Ha Ha0 Hs b Hb Hlt. assert (b = 0) as -> by lia. by rewrite (fblk_one dv ct i a). Qed.

(** ** A small file system

    Disk 1: the log at block 2, the inodes in block 32, the bitmap in block
    33, and one file, inode 1, with the five bytes "hello" in block 40. *)

Definition sb1 : superblock := mkSb FSMAGIC 64 30 8 30 2 32 33.
Definition inode1 : inode := mkInode 1 1 1 (mkSleep true 1) true 2 0 0 1 5 (40 :: replicate 12 0).
Definition hello : list Z := [104; 101; 108; 108; 111].
Definition world : list Z := [119; 111; 114; 108; 100].

Definition bitmap1 : block := set_bytes zero_block 0 [255; 255; 255; 255; 3; 1].
Definition fsblk (b : Z) : block :=
  if b =? 32 then store_dinode zero_block 64 inode1 else if b =? 33 then bitmap1
  else if b =? 40 then set_bytes zero_block 0 hello else zero_block.
Definition fsdisk : disk := list_to_map ((fun i => ((1%nat, Z.of_nat i), fsblk (Z.of_nat i))) <$> seq 0 64).

Lemma lookup_fsdisk z : 0 <= z < 64 -> fsdisk !! (1%nat, z) = Some (fsblk z).
Proof.
  intros Hz. apply elem_of_list_to_map_1.
  - rewrite <-list_fmap_compose. apply NoDup_fmap_2_strong; [|apply NoDup_seq]. intros i j _ _ [= Heq]. lia.
  - apply list_elem_of_fmap. exists (Z.to_nat z). rewrite Z2Nat.id by lia. split; [done|]. apply elem_of_seq. lia.
Qed.
Lemma small_fsdisk : small_disk fsdisk.
Proof.
  intros n bn [x Hx]. apply elem_of_list_to_map_2, list_elem_of_fmap in Hx as (i & [= -> ->] & Hi%elem_of_seq). lia.
Qed.
Lemma length_fsblk b : length (fsblk b) = 1024%nat.
Proof. unfold fsblk. repeat case_match; by vm_compute. Qed.
#[local] Opaque fsdisk.

Lemma used_fsdisk b : 0 <= b < 64 -> used 1 sb1 fsdisk b = bit bitmap1 b.
Proof.
  intros Hb. unfold used, BBLOCK. rewrite Z.div_small, Z.mod_small by lia. change (u32 (0 + sb_bmapstart sb1)) with 33.
  by rewrite lookup_fsdisk by lia.
Qed.

Lemma geom_fsdisk : geom 1 sb1 fsdisk.
Proof.
  split; try (cbn; lia).
  - split; [cbn; lia|]. by vm_compute.
  - intros b Hb. exists (fsblk b). rewrite lookup_fsdisk by (cbn in Hb; lia). split; [done|apply length_fsblk].
  - intros b Hb. change (bmap_end sb1) with 33 in Hb. rewrite used_fsdisk by lia.
    assert (Hall : Forall (fun b => bit bitmap1 b = true) (seqZ 0 34)) by (apply (bool_decide_unpack _); by vm_compute).
    rewrite Forall_forall in Hall. apply Hall, elem_of_seqZ. lia.
Qed.

Lemma file_fsdisk : file_ok 1 sb1 fsdisk inode1.
Proof. apply (file_one _ _ _ _ 40); [done|done|]. split_and!; [cbn; lia..| |by vm_compute]. rewrite used_fsdisk by lia. by vm_compute. Qed.

Definition source : Z := stack_page + PGSIZE.
Definition fs_machine : kstate :=
  set_mm (set_bytes disk_mem source world) (set_fs (mkFs sb1 (<[0%nat := inode1]> (icache (fs machine)))) (boot_machine fsdisk)).

#[local] Instance fs_machine_disk : DiskEnv (env simple_disk) := driver_DiskEnv simple_disk hdr_addr file_buffer.

Lemma fs_machine_hold : hold (env simple_disk) 0 0 fs_machine fsdisk ∅ [] [].
Proof.
  apply machine_hold; try done; [|apply small_fsdisk]. intros a Ha. cbn [mm fs_machine set_mm]. rewrite getb_set_bytes by done. rewrite bool_decide_false; [done|].
  intros Hr. apply Ha. unfold file_buffer, source in *. lia.
Qed.

Lemma fs_machine_quiet : quiet (env simple_disk) 0 0 1 fs_machine log0.
Proof. split; try done; [apply fs_machine_hold|cbn; lia]. Qed.

Lemma fs_machine_log : log_place 1 sb1 log0 fsdisk zero_block.
Proof.
  split; [cbn; lia|cbn; lia| | |done|by vm_compute].
  - intros i Hi. unfold log_key. cbn [l_start log0]. rewrite u32_small by lia. rewrite lookup_fsdisk by lia. done.
  - unfold hdr_key. cbn [l_start log0]. change (u32 2) with 2. rewrite lookup_fsdisk by lia. by vm_compute.
Qed.

Lemma fits_inode1 : dinode_fits inode1.
Proof.
  split; try (cbn; lia). intros j a Hj. assert (Hall : Forall (fun a => 0 <= a < 2 ^ 32) (i_addrs inode1)) by (apply (bool_decide_unpack _); by vm_compute).
  by eapply Forall_lookup_1 in Hall.
Qed.

Lemma on_disk_inode1 : on_disk 1 sb1 fsdisk inode1.
Proof.
  exists (fsblk 32). split; [exact (lookup_fsdisk 32 ltac:(lia))|]. split; [apply length_fsblk|]. change (fsblk 32) with (store_dinode zero_block 64 inode1).
  apply load_store_dinode; try done. apply fits_inode1.
Qed.

Lemma source_free a : source <= a -> ~ header hdr_addr a.
Proof. intros Ha [p Hp]. unfold hdr_addr, source, buf0_offset in *. lia. Qed.

Lemma nfree_fsdisk : (4 <= nfree 1 sb1 fsdisk)%nat.
Proof.
  change 4%nat with (length [34; 35; 36; 37]). apply submseteq_length, NoDup_submseteq; [apply (bool_decide_unpack _); by vm_compute|].
  intros b Hb. apply elem_free_blocks. assert (Hr : 34 <= b <= 37) by (rewrite !elem_of_cons, elem_of_nil in Hb; lia).
  split; [|cbn; lia]. rewrite used_fsdisk by lia.
  assert (Hall : Forall (fun b => bit bitmap1 b = false) [34; 35; 36; 37]) by (apply (bool_decide_unpack _); by vm_compute).
  rewrite Forall_forall in Hall. by apply Hall.
Qed.

Lemma write_atomic_witness :
  runE (env simple_disk) (begin_op 1 ;; r <- writei 0 false source 3 5 ;; end_op 1 ;; ret r) fs_machine (fun r s' =>
    r = 5 /\ exists i', i_size i' = 8 /\ on_disk 1 sb1 (disk_img (dev s')) i' /\
      fbyte 1 (disk_img (dev s')) i' 2 = 108 /\ fbyte 1 (disk_img (dev s')) i' 3 = 119 /\ fbyte 1 (disk_img (dev s')) i' 7 = 100).
Proof.
  eapply runE_mono.
  - apply (write_atomic simple_disk hdr_addr file_buffer 0 0 1 sb1 0 fs_machine log0 zero_block inode1 3 5 source);
      [apply fs_machine_quiet|apply fs_machine_log|apply geom_fsdisk|split_and!; [cbn; lia|done|done]| |cbn; lia..|split; by vm_compute|intros a Ha; apply source_free; lia|by vm_compute| |done|apply fits_inode1].
    + split_and!; [apply on_disk_inode1|apply file_fsdisk|done].
    + pose proof nfree_fsdisk. change (2 * pieces 3 (3 + 5)) with 2. change (disk_img (dev fs_machine)) with fsdisk. lia.
  - intros r s' (al & Ws & -> & _ & (Hd & _ & Hb) & _). split; [done|]. eexists. split; [|split; [exact Hd|]]; [done|].
    rewrite !Hb by (cbn; lia). split_and!; by vm_compute.
Defined.

(** The same machine inside an operation. *)
Definition op_fs : kstate := set_logs [log0; set_l_outstanding 1 log0] fs_machine.

Lemma op_fs_tx : tx (env simple_disk) 0 0 1 op_fs ∅ fsdisk [].
Proof.
  split; [|cbn; lia|done]. exists (set_l_outstanding 1 log0), ∅. split; [apply hold_set_logs, fs_machine_hold|].
  split_and!; try done. constructor.
Qed.
Lemma op_fs_live : live sb1 0 op_fs inode1.
Proof. split_and!; [cbn; lia|done|done]. Qed.
Lemma no_holes_inode1 : no_holes 1 fsdisk inode1.
Proof. by apply (no_holes_one _ _ _ 40). Qed.

Lemma writei_readi_witness :
  runE (env simple_disk) (r1 <- writei 0 false source 3 5 ;; r2 <- readi 0 false (source + 64) 3 5 ;; ret (r1, r2)) op_fs
    (fun '(r1, r2) s' => r1 = 5 /\ r2 = 5 /\ get_bytes 5 (mm s') (source + 64) = world).
Proof.
  eapply runE_mono.
  - apply (writei_readi simple_disk hdr_addr file_buffer 0 0 1 sb1 0 op_fs ∅ fsdisk inode1 3 5 source (source + 64));
      [apply op_fs_tx|apply op_fs_live|apply geom_fsdisk|apply file_fsdisk|apply no_holes_inode1|cbn; lia..|split; by vm_compute| |split; by vm_compute| |by vm_compute| |done|apply fits_inode1].
    + intros a Ha. apply source_free. lia.
    + intros a Ha. split; [unfold file_buffer, source in *; lia|apply source_free; lia].
    + pose proof nfree_fsdisk. change (2 * pieces 3 (3 + 5)) with 2. lia.
  - intros [r1 r2] s' (-> & -> & Hb). split; [done|]. split; [done|]. transitivity (get_bytes 5 (mm op_fs) source); [|by vm_compute].
    apply get_bytes_ext. intros j Hj. apply Hb. lia.
Defined.

Lemma fsdisk_free : exists b, 0 <= b < sb_size sb1 /\ used 1 sb1 fsdisk b = false.
Proof. exists 34. split; [cbn; lia|]. rewrite used_fsdisk by lia. by vm_compute. Qed.

Lemma balloc_correct_witness :
  runE (env simple_disk) (balloc 1) op_fs (fun r s' => r = 34).
Proof.
  eapply runE_mono.
  - apply (balloc_correct simple_disk hdr_addr file_buffer 0 0 1 sb1 op_fs ∅ fsdisk);
      [apply op_fs_tx|done|apply geom_fsdisk|rewrite size_empty; lia|apply fsdisk_free].
  - intros r s' (lg & ct & Hr & Hf & Hlow & _). cbn in Hr. rewrite used_fsdisk in Hf by lia.
    destruct (Z_lt_ge_dec 34 r) as [Hlt|Hge].
    + specialize (Hlow 34 ltac:(lia)). rewrite used_fsdisk in Hlow by lia. by vm_compute in Hlow.
    + assert (Hall : Forall (fun b => bit bitmap1 b = true) (seqZ 0 34)) by (apply (bool_decide_unpack _); by vm_compute).
      rewrite Forall_forall in Hall. destruct (decide (r = 34)); [done|]. rewrite Hall in Hf by (apply elem_of_seqZ; lia). done.
Defined.

Lemma balloc_bfree_witness :
  runE (env simple_disk) (b <- balloc 1 ;; bfree 1 b) op_fs (fun _ s' => exists lg ct,
    tx (env simple_disk) 0 0 1 s' lg ct [] /\ used 1 sb1 ct 34 = false /\ used 1 sb1 ct 40 = true).
Proof.
  eapply runE_mono.
  - apply (balloc_bfree simple_disk hdr_addr file_buffer 0 0 1 sb1 op_fs ∅ fsdisk);
      [apply op_fs_tx|done|apply geom_fsdisk|rewrite size_empty; lia|apply fsdisk_free].
  - intros _ s' (lg & ct & T & Hu). exists lg, ct. split; [exact T|]. rewrite !Hu, !used_fsdisk by (cbn; lia). by split; vm_compute.
Defined.

Lemma dinode_roundtrip_witness :
  load_dinode (store_dinode zero_block (dinode_off 17) inode1) (dinode_off 17) inode1 = inode1.
Proof. apply (dinode_roundtrip zero_block inode1 17); [done|apply fits_inode1]. Defined.

(** The file has 5 bytes. *)
Lemma file_bounds_witness :
  readi 0 true 4096 6 1 op_fs = Ok (-1) op_fs /\ writei 0 true 4096 5 (MAXFILE * BSIZE) op_fs = Ok (-1) op_fs.
Proof.
  split; [apply (file_bounds 0 true 4096 6 1 op_fs)|apply (file_bounds 0 true 4096 5 (MAXFILE * BSIZE) op_fs)].
  - left. by vm_compute.
  - right. right. by vm_compute.
Defined.

End FileSystem.
