(* ===== verification/Icache.v ===== *)
(** * The inode cache (iget, idup, ilock, iunlock, iput of kernel/fs.c)

    [icache_ok ct ic rc lk] relates the table of in-memory inodes to the
    number of references to each inode ([rc]) and to the inodes on the disk:
    no inode is in the table twice, a valid entry is a copy of the inode on
    the disk, and the only locked entry is [lk].  The operations are specified
    on the counts, so that callers never look at an entry they do not hold. *)

From S2P Require Import Prelude Bytes CString KState Spinlock Kernel Riscv Kalloc Vm Sched Console Virtio Disk Bio Cache Log Commit Transaction Fs Tx Balloc Dinode Inode FileIO.

Module Icache.
Import Sched Virtio Disk Bio Cache Log Commit Transaction Fs Tx Balloc Dinode Inode FileIO.

Definition ik (i : inode) : bkey := (i_dev i, i_inum i).

(** ** Reference counts *)

Definition addref (n : bkey) (d : Z) (rc : gmap bkey Z) : gmap bkey Z := set_rc n (default 0 (rc !! n) + d) rc.

(** Unreferenced inodes have no count. *)
Definition counts (rc : gmap bkey Z) : Prop := forall n, rc !! n <> Some 0.

Lemma lookup_addref n d rc n' : default 0 (addref n d rc !! n') = default 0 (rc !! n') + (if decide (n' = n) then d else 0).
Proof. unfold addref. case_decide as E; [subst; apply lookup_set_rc|rewrite lookup_set_rc_ne by congruence; lia]. Qed.
Lemma counts_addref n d rc : counts rc -> counts (addref n d rc).
Proof.
  intros H n'. unfold addref. destruct (decide (n = n')) as [<-|Hne]; [|by rewrite lookup_set_rc_ne].
  unfold set_rc. case_decide; [by rewrite lookup_delete_eq|]. rewrite lookup_insert_eq. congruence.
Qed.
Lemma counts_ext rc rc' : counts rc -> counts rc' -> (forall n, default 0 (rc !! n) = default 0 (rc' !! n)) -> rc = rc'.
Proof.
  intros H H' Heq. apply map_eq. intros n. specialize (H n). specialize (H' n). specialize (Heq n). destruct (rc !! n), (rc' !! n); cbn in Heq; congruence.
Qed.

(** Dropping a reference undoes taking it. *)
Lemma addref_drop n rc : counts rc -> addref n (-1) (addref n 1 rc) = rc.
Proof.
  intros H. apply counts_ext; [by repeat apply counts_addref|done|]. intros n'. rewrite !lookup_addref. case_decide; lia.
Qed.
Lemma addref_move n m rc : counts rc -> addref n (-1) (addref m 1 (addref n 1 rc)) = addref m 1 rc.
Proof.
  intros H. apply counts_ext; [by repeat apply counts_addref..|]. intros n'. rewrite !lookup_addref. repeat case_decide; lia.
Qed.
Lemma size_addref n d rc : (size (addref n d rc) <= S (size rc))%nat.
Proof.
  unfold addref, set_rc. case_decide; [rewrite map_size_delete; destruct (rc !! n); cbn; lia|]. rewrite map_size_insert. destruct (rc !! n); cbn; lia.
Qed.

(** The fields of struct dinode. *)
Definition dfields (i : inode) : Z * Z * Z * Z * Z * list Z := (i_type i, i_major i, i_minor i, i_nlink i, i_size i, i_addrs i).

Lemma dfields_eq i j : dfields i = dfields j -> i_type i = i_type j /\ i_nlink i = i_nlink j /\ i_size i = i_size j /\ i_addrs i = i_addrs j.
Proof. unfold dfields. intros [=]. done. Qed.

Lemma on_disk_same dv sb ct i j : i_inum j = i_inum i -> dfields j = dfields i -> on_disk dv sb ct i -> on_disk dv sb ct j.
Proof.
  intros Hn [= H1 H2 H3 H4 H5 H6] (d & Hd & Hl & Hi). exists d. rewrite Hn. split_and!; [done|done|].
  destruct i, j. unfold load_dinode in *. cbn in *. by simplify_eq.
Qed.

Section table.
Context (dv : nat) (sb : superblock) (pid : Z).
Implicit Types (ct : disk) (ic : list inode) (rc : gmap bkey Z).

Record icache_ok ct ic rc (lk : option nat) : Prop := {
  ic_len : length ic = NINODE;
  ic_ref : forall k i, ic !! k = Some i -> 0 <= i_ref i;
  ic_uniq : forall k k' i i', ic !! k = Some i -> ic !! k' = Some i' -> 0 < i_ref i -> 0 < i_ref i' -> ik i = ik i' -> k = k';
  ic_rc : forall k i, ic !! k = Some i -> 0 < i_ref i -> rc !! ik i = Some (i_ref i);
  ic_pos : forall n c, rc !! n = Some c -> exists k i, ic !! k = Some i /\ 0 < i_ref i /\ ik i = n;
  ic_valid : forall k i, ic !! k = Some i -> 0 < i_ref i -> i_valid i = true -> i_dev i = dv -> on_disk dv sb ct i;
  ic_free : forall k i, ic !! k = Some i -> lk <> Some k -> sl_locked (i_lock i) = false;
  ic_held : forall k i, ic !! k = Some i -> lk = Some k -> i_lock i = mkSleep true pid /\ i_valid i = true /\ 0 < i_ref i
}.

(** Entry [k] holds a referenced inode [n]. *)
Definition slot ic (k : nat) (n : bkey) : Prop := exists i, ic !! k = Some i /\ ik i = n /\ 0 < i_ref i.

(** The one step all operations are made of: entry [k] becomes [j], for the
    same inode or, if nobody referenced it, for one that was not in the
    table. *)
Lemma icache_put ct ic rc lk lk' k i j :
  icache_ok ct ic rc lk -> ic !! k = Some i -> 0 <= i_ref j ->
  (ik j = ik i /\ 0 < i_ref i \/ i_ref i = 0 /\ rc !! ik j = None) ->
  (0 < i_ref j -> i_valid j = true -> i_dev j = dv -> on_disk dv sb ct j) ->
  (lk' = lk \/ lk = Some k /\ lk' = None \/ lk = None /\ lk' = Some k) ->
  (lk' <> Some k -> sl_locked (i_lock j) = false) ->
  (lk' = Some k -> i_lock j = mkSleep true pid /\ i_valid j = true /\ 0 < i_ref j) ->
  icache_ok ct (<[k := j]> ic) (set_rc (ik j) (i_ref j) rc) lk'.
Proof.
  intros [I1 I2 I3 I4 I5 I6 I7 I8] Hk Hr Hor Hv Hlk Hfr Hhe.
  pose proof (lookup_lt_Some _ _ _ Hk) as Hlt.
  assert (Hcase : forall k' i', <[k := j]> ic !! k' = Some i' -> (k' = k /\ i' = j) \/ (k' <> k /\ ic !! k' = Some i')).
  { intros k' i'. destruct (decide (k' = k)) as [->|Hne]; [rewrite list_lookup_insert_eq by done|rewrite list_lookup_insert_ne by done]; naive_solver. }
  assert (Hother : forall k' i', k' <> k -> ic !! k' = Some i' -> 0 < i_ref i' -> ik i' <> ik j).
  { intros k' i' Hne Hi' Hr' Heq. destruct Hor as [[E0 Hi]|[_ Hno]].
    - apply Hne. eapply I3; eauto. congruence.
    - specialize (I4 _ _ Hi' Hr'). rewrite Heq in I4. congruence. }
  split.
  - by rewrite length_insert.
  - intros k' i' [[-> ->]|[Hne Hi']]%Hcase; [done|by eapply I2].
  - intros k1 k2 i1 i2 [[-> ->]|[Hn1 H1]]%Hcase [[-> ->]|[Hn2 H2]]%Hcase R1 R2 Heq; [done|by destruct (Hother k2 i2)|by destruct (Hother k1 i1)|by eapply I3].
  - intros k' i' [[-> ->]|[Hne Hi']]%Hcase Hpos.
    + unfold set_rc. rewrite decide_False by lia. apply lookup_insert_eq.
    + rewrite lookup_set_rc_ne; [by eapply I4|]. intros E0. by eapply Hother.
  - intros n c Hc. destruct (decide (n = ik j)) as [->|Hne].
    + exists k, j. split; [by apply list_lookup_insert_eq|]. split; [|done]. unfold set_rc in Hc. case_decide; [by rewrite lookup_delete_eq in Hc|lia].
    + rewrite lookup_set_rc_ne in Hc by done. destruct (I5 _ _ Hc) as (k' & i' & Hi' & Hpos & <-).
      assert (k' <> k). { intros ->. simplify_eq. destruct Hor as [[E0 _]|[E0 _]]; [congruence|lia]. }
      exists k', i'. by rewrite list_lookup_insert_ne.
  - intros k' i' [[-> ->]|[Hne Hi']]%Hcase; [done|by eapply I6].
  - intros k' i' [[-> ->]|[Hne Hi']]%Hcase Hl; [by apply Hfr|]. eapply I7; [done|]. intros ->. destruct Hlk as [->|[[? ->]|[? ->]]]; congruence.
  - intros k' i' [[-> ->]|[Hne Hi']]%Hcase Hl; [by apply Hhe|]. eapply I8; [done|]. destruct Hlk as [->|[[? ->]|[? ->]]]; congruence.
Qed.

(** Entry [k] and its copy on the disk change together; the other inodes
    stay. *)
Lemma icache_disk ct ct' ic rc lk k i i' : icache_ok ct ic rc lk -> ic !! k = Some i -> 0 < i_ref i ->
  ik i' = ik i -> i_ref i' = i_ref i -> i_lock i' = i_lock i -> i_valid i' = i_valid i -> on_disk dv sb ct' i' ->
  (forall j, i_inum j <> i_inum i -> is_Some (rc !! (dv, i_inum j)) -> on_disk dv sb ct j -> on_disk dv sb ct' j) -> i_dev i = dv ->
  icache_ok ct' (<[k := i']> ic) rc lk.
Proof.
  intros [I1 I2 I3 I4 I5 I6 I7 I8] Hk Hp Hik Hr Hl Hva Hd Ho Hdev. pose proof (lookup_lt_Some _ _ _ Hk) as Hlt.
  assert (Hcase : forall k' j, <[k := i']> ic !! k' = Some j -> exists j0, ic !! k' = Some j0 /\ ik j = ik j0 /\ i_ref j = i_ref j0 /\ i_lock j = i_lock j0 /\
     i_valid j = i_valid j0 /\ (k' = k /\ j = i' \/ k' <> k /\ j = j0)).
  { intros k' j. destruct (decide (k' = k)) as [->|Hne]; [rewrite list_lookup_insert_eq by done; intros [= <-]; exists i|rewrite list_lookup_insert_ne by done; exists j]; split_and!; try done; [by left|by right]. }
  split.
  - by rewrite length_insert.
  - intros k' j (j0 & Hj & _ & -> & _)%Hcase. by eapply I2.
  - intros k1 k2 i1 i2 (j1 & H1 & -> & -> & _)%Hcase (j2 & H2 & -> & -> & _)%Hcase. by eapply I3.
  - intros k' j (j0 & Hj & -> & -> & _)%Hcase. by eapply I4.
  - intros n c Hc. destruct (I5 n c Hc) as (k' & j & Hj & Hpj & <-). destruct (decide (k' = k)) as [->|Hne].
    + assert (j = i) as -> by congruence. exists k, i'. rewrite list_lookup_insert_eq by done. split_and!; [done|lia|done].
    + exists k', j. by rewrite list_lookup_insert_ne.
  - intros k' j (j0 & Hj & Ek & Er & El & Ev & [[-> ->]|[Hne ->]])%Hcase; [done|]. intros Hpj Hvj Hdj. apply Ho; [| |by eapply I6].
    + intros En. apply Hne. eapply (I3 k' k); [done..|]. unfold ik. congruence.
    + eexists. rewrite <-Hdj. by eapply I4.
  - intros k' j (j0 & Hj & Ek & Er & -> & _)%Hcase. by eapply I7.
  - intros k' j (j0 & Hj & Ek & -> & -> & -> & _)%Hcase. by eapply I8.
Qed.

(** The same table over a disk with the same inodes. *)
Lemma icache_agree ct ct' ic rc lk : icache_ok ct ic rc lk -> (forall j, is_Some (rc !! (dv, i_inum j)) -> on_disk dv sb ct j -> on_disk dv sb ct' j) -> icache_ok ct' ic rc lk.
Proof.
  intros [I1 I2 I3 I4 I5 I6 I7 I8] Ho. split; try done. intros k i Hk Hp Hv Hd. apply Ho; [|by eapply I6]. eexists. rewrite <-Hd. by eapply I4.
Qed.

Lemma icache_counts ct ic rc lk : icache_ok ct ic rc lk -> counts rc.
Proof. intros HI n Hn. destruct (ic_pos _ _ _ _ HI _ _ Hn) as (k & i & Hk & Hp & <-). rewrite (ic_rc _ _ _ _ HI _ _ Hk Hp) in Hn. injection Hn as Hn. lia. Qed.

Lemma icache_lt ct ic rc lk k : icache_ok ct ic rc lk -> (k < NINODE)%nat -> exists i, ic !! k = Some i.
Proof. intros [H _] Hk. apply lookup_lt_is_Some_2. lia. Qed.

Lemma icache_pos ct ic rc lk n c : icache_ok ct ic rc lk -> rc !! n = Some c -> 0 < c.
Proof. intros HI Hc. destruct (ic_pos _ _ _ _ HI _ _ Hc) as (k & i & Hk & Hp & <-). rewrite (ic_rc _ _ _ _ HI _ _ Hk Hp) in Hc. by simplify_eq. Qed.

Lemma icache_nonneg ct ic rc lk n : icache_ok ct ic rc lk -> 0 <= default 0 (rc !! n).
Proof. intros HI. destruct (rc !! n) as [c|] eqn:Hc; [|done]. pose proof (icache_pos _ _ _ _ _ _ HI Hc). cbn. lia. Qed.

(** An entry nobody references exists while fewer than NINODE inodes are
    referenced. *)
Lemma icache_room ct ic rc lk : icache_ok ct ic rc lk -> (size rc < NINODE)%nat -> exists k i, ic !! k = Some i /\ i_ref i = 0.
Proof.
  intros HI Hsz. destruct (decide (Exists (fun i => i_ref i = 0) ic)) as [Hex|Hno].
  - apply Exists_exists in Hex as (i & Hi & Hz). apply list_elem_of_lookup_1 in Hi as (k & Hk). by exists k, i.
  - exfalso. apply not_Exists_Forall in Hno; [|intros ?; apply _]. rewrite Forall_lookup in Hno.
    assert (Hpos : forall k i, ic !! k = Some i -> 0 < i_ref i).
    { intros k i Hk. pose proof (ic_ref _ _ _ _ HI k i Hk). pose proof (Hno k i Hk) as Hz. cbn in Hz. lia. }
    assert (Hnd : NoDup (ik <$> ic)).
    { apply NoDup_alt. intros k k' n. rewrite !list_lookup_fmap. intros (i & Hi & E1)%fmap_Some (i' & Hi' & E2)%fmap_Some.
      eapply (ic_uniq _ _ _ _ HI); eauto. congruence. }
    assert (Hsub : list_to_set (ik <$> ic) ⊆ dom rc).
    { intros n. rewrite elem_of_list_to_set. intros (i & -> & Hi)%list_elem_of_fmap. apply list_elem_of_lookup_1 in Hi as (k & Hk).
      apply elem_of_dom. eexists. exact (ic_rc _ _ _ _ HI k i Hk (Hpos _ _ Hk)). }
    apply subseteq_size in Hsub. rewrite size_list_to_set, length_fmap, size_dom, (ic_len _ _ _ _ HI) in Hsub by done. lia.
Qed.
End table.

(** ** The operations *)

Section ops.
Context (E : kstate -> kstate -> Prop) `{HE : !DiskEnv E} (h p dv : nat) (sb : superblock) (s0 : kstate) (W : Z -> Prop).
Abbreviation tx := (tx E h p dv).
Abbreviation pid := (p_pid (proc_at p s0)).
Abbreviation icache_ok := (icache_ok dv sb pid).
Implicit Types (s : kstate) (lg : gset bkey) (ct : disk) (ic : list inode) (rc : gmap bkey Z).

(** A state inside an operation that began in [s0]: beside the lock layer,
    sleepers, the driver, buffers and the log only the inode table, now [ic],
    and memory in [W] have changed. *)
Definition steady (s : kstate) (ic : list inode) : Prop :=
  exists y m t v bs l, s = mkK y m (freelist s0) (kernel_pagetable s0) t bs l (set_icache ic (fs s0)) (ftable s0) (devsw s0)
      (pipes s0) (cons s0) v (dev s0) (ld s0) /\
    pt_sim (pt s0) t /\ (forall a, ~ scratch a -> ~ W a -> getb m a = getb (mm s0) a) /\ l_start <$> l = l_start <$> logs s0.

Record view (s : kstate) (lg : gset bkey) (ct : disk) (ic : list inode) : Prop := { v_steady : steady s ic; v_tx : tx s lg ct [] }.

Lemma steady_ic s ic : steady s ic -> icache (fs s) = ic.
Proof. by intros (y & m & t & v & bs & l & -> & _). Qed.
Lemma steady_at s ic k i : steady s ic -> ic !! k = Some i -> inode_at k s = i.
Proof. intros Hs Hk. unfold inode_at. rewrite (steady_ic _ _ Hs). by apply list_lookup_total_correct. Qed.
Lemma view_ic s lg ct ic : view s lg ct ic -> icache (fs s) = ic.
Proof. intros [Hs _]. by apply steady_ic. Qed.
Lemma view_at s lg ct ic k i : view s lg ct ic -> ic !! k = Some i -> inode_at k s = i.
Proof. intros [Hs _]. by apply steady_at. Qed.
Lemma view_sb s lg ct ic : view s lg ct ic -> KState.sb (fs s) = KState.sb (fs s0).
Proof. intros [(y & m & t & v & bs & l & -> & _) _]. done. Qed.
Lemma view_core s lg ct ic : view s lg ct ic -> proc_core (proc_at p s) = proc_core (proc_at p s0).
Proof. intros [(y & m & t & v & bs & l & -> & Ht & _) _]. symmetry. by apply pt_sim_proc. Qed.
Lemma view_pid s lg ct ic : view s lg ct ic -> p_pid (proc_at p s) = pid.
Proof. intros Hv. exact (f_equal p_pid (view_core _ _ _ _ Hv)). Qed.
Lemma view_owns s lg ct ic : view s lg ct ic -> owns h (Some p) [] (sy s).
Proof. intros [_ [(L & rc & Hh & _) _ _]]. apply Hh. Qed.
Lemma view_nproc s lg ct ic : view s lg ct ic -> length (procs (pt s)) = NPROC.
Proof. intros [_ [(L & rc & Hh & _) _ _]]. apply Hh. Qed.
Lemma view_mem s lg ct ic a : view s lg ct ic -> ~ scratch a -> ~ W a -> getb (mm s) a = getb (mm s0) a.
Proof. intros [(y & m & t & v & bs & l & -> & _ & Hm & _) _]. apply Hm. Qed.

Lemma view_set_sy y s lg ct ic : view s lg ct ic -> owns h (Some p) [] y -> view (set_sy y s) lg ct ic.
Proof.
  intros [(y1 & m & t & v & bs & l & -> & Hr) Ht] Hy. split; [|by apply (tx_set_sy E h p dv)]. exists y, m, t, v, bs, l. done.
Qed.
Lemma steady_set_inode k i s ic : steady s ic -> steady (set_inode_at k i s) (<[k := i]> ic).
Proof. intros (y & m & t & v & bs & l & Hs & Hr). exists y, m, t, v, bs, l. by rewrite Hs. Qed.
Lemma view_set_inode k i s lg ct ic : view s lg ct ic -> view (set_inode_at k i s) lg ct (<[k := i]> ic).
Proof. intros [Hs Ht]. split; [by apply steady_set_inode|by apply (tx_set_inode E h p dv)]. Qed.
Lemma view_set_mm (m : mem) s lg ct ic : view s lg ct ic -> (forall a, getb m a <> getb (mm s) a -> W a /\ buffer a) -> view (set_mm m s) lg ct ic.
Proof.
  intros [(y & m1 & t & v & bs & l & -> & Ht & Hm1 & Hr) Htx] Hm. split.
  - exists y, m, t, v, bs, l. split_and!; try done. intros a H1 H2. rewrite <-Hm1 by done. destruct (decide (getb m a = getb m1 a)) as [|Hne]; [done|]. by destruct (Hm a Hne).
  - apply (tx_set_mm E h p dv); [done|]. intros a Ha. destruct (decide (getb m a = getb m1 a)) as [|Hne]; [done|]. by destruct (Hm a Hne).
Qed.
Lemma view_wakeup ch s lg ct ic : view s lg ct ic -> view (set_pt (wake_all ch (pt s)) s) lg ct ic.
Proof.
  intros [(y & m & t & v & bs & l & Hs & Ht & Hr) [(L & rc & Hh & Hrest) Hdv Hdirty]]. split.
  - exists y, m, (wake_all ch t), v, bs, l. rewrite Hs. split; [done|]. split; [|done]. etrans; [exact Ht|apply pt_sim_wake].
  - split; [|done|done]. exists L, rc. split; [|done].
    pose proof (hold_ext E h p (sy s) (wake_all ch (pt s)) (logs s) s _ _ _ _ Hh (sys_owns _ _ _ _ (ho_sys _ _ _ _ _ _ _ _ Hh)) (pt_sim_wake ch (pt s))) as Hx.
    by destruct s.
Qed.
Lemma steady_tmoves s s' ic : steady s ic -> tmoves E h p s s' -> steady s' ic.
Proof.
  intros (y & m & t & v & bs & l & -> & Ht & Hm & Hst) (l1 & (y1 & m1 & t1 & v1 & Hs' & _ & Ht1 & Hm1 & _) & Hd & Hst1).
  exists y1, m1, t1, v1, (bufs s'), l1. cbn in *. split_and!.
  - rewrite Hs' at 1. unfold io_upd. by rewrite Hd.
  - by etrans.
  - intros a H1 H2. rewrite Hm1 by done. by apply Hm.
  - congruence.
Qed.
Lemma view_calm W' ip i s s' lg ct lg' ct' ic : view s lg ct ic -> calm E ip W' s s' -> (forall a, W' a -> W a) -> live sb ip s' i ->
  tx s' lg' ct' [] -> view s' lg' ct' (<[ip := i]> ic).
Proof.
  intros [(y & m & t & v & bs & l & -> & Ht & Hm & Hst) _] (y1 & m1 & t1 & v1 & bs1 & l1 & i1 & Hs' & Ht1 & Hm1 & Hst1) HW (Hl & Hi & _) Htx. split; [|done].
  exists y1, m1, t1, v1, bs1, l1. cbn in *. assert (i1 = i) as ->.
  { rewrite <-Hi. rewrite Hs' in Hl |- *. unfold inode_at. cbn in *. rewrite length_insert in Hl. by rewrite list_lookup_total_insert_eq. }
  split_and!; [done|by etrans| |by etrans]. intros a H1 H2. rewrite Hm1 by auto. by apply Hm.
Qed.

Lemma inode_at_set k i s : (k < length (icache (fs s)))%nat -> inode_at k (set_inode_at k i s) = i.
Proof. intros Hk. unfold inode_at, set_inode_at. cbn. by apply list_lookup_total_insert_eq. Qed.
Lemma set_inode_twice k i j s : set_inode_at k i (set_inode_at k j s) = set_inode_at k i s.
Proof. unfold set_inode_at. cbn. by rewrite list_insert_insert_eq. Qed.

(** Entry [k] holds the inode looked for. *)
Definition matches (dev : nat) (inum : Z) (i : inode) : bool := (0 <? i_ref i) && (i_dev i =? dev)%nat && (i_inum i =? inum).

Lemma matches_spec dev inum i : matches dev inum i = true <-> 0 < i_ref i /\ ik i = (dev, inum).
Proof.
  unfold matches, ik. rewrite !andb_true_iff, Z.ltb_lt, Nat.eqb_eq, Z.eqb_eq. split; [by intros [[? ->] ->]|by intros [? [= -> ->]]].
Qed.

(** A held reference keeps its entry. *)
Lemma slot_insert ic k i j : ic !! k = Some i -> (0 < i_ref i -> ik j = ik i) -> 0 < i_ref j -> forall k' n, slot ic k' n -> slot (<[k := j]> ic) k' n.
Proof.
  intros Hk Hj Hr k' n (i' & Hk' & Hn & Hp). destruct (decide (k' = k)) as [->|Hne].
  - simplify_eq. exists j. rewrite list_lookup_insert_eq by by eapply lookup_lt_Some. split_and!; [done|by apply Hj|done].
  - exists i'. by rewrite list_lookup_insert_ne.
Qed.

Section iget.
Context (dev : nat) (inum : Z) (s : kstate) (lg : gset bkey) (ct : disk) (ic : list inode) (rc : gmap bkey Z) (lk : option nat).
Abbreviation n := (dev, inum).
Context (Hv : view s lg ct ic) (HI : icache_ok ct ic rc lk) (Hroom : is_Some (rc !! n) \/ (size rc < NINODE)%nat).

(** The table after iget: entry [ip] has one more reference. *)
Definition iget_post (ip : nat) (s' : kstate) : Prop := exists ic', view s' lg ct ic' /\
  icache_ok ct ic' (addref n 1 rc) lk /\ slot ic' ip n /\ forall k m, slot ic k m -> slot ic' k m.

Lemma iget_hit y k i : owns h (Some p) [] y -> ic !! k = Some i -> matches dev inum i = true ->
  iget_post k (set_sy y (set_inode_at k (set_i_ref (i_ref i + 1) i) s)).
Proof using All.
  intros Hy Hk [Hp Hn]%matches_spec. exists (<[k := set_i_ref (i_ref i + 1) i]> ic). pose proof (ic_rc _ _ _ _ _ _ _ HI _ _ Hk Hp) as Hrc. rewrite Hn in Hrc.
  split_and!.
  - apply view_set_sy; [by apply view_set_inode|done].
  - unfold addref. rewrite Hrc. cbn [default from_option id]. rewrite <-Hn.
    apply (icache_put dv sb pid ct ic rc lk lk k i (set_i_ref (i_ref i + 1) i)); cbn; try done; try lia; [by left|intros _ Hval Hd; apply (on_disk_same dv sb ct i); [done|done|exact (ic_valid _ _ _ _ _ _ _ HI _ _ Hk Hp Hval Hd)]|by left|exact (ic_free _ _ _ _ _ _ _ HI k i Hk)|].
    intros ->. destruct (ic_held _ _ _ _ _ _ _ HI k i Hk eq_refl) as (? & ? & ?). split_and!; [done..|lia].
  - exists (set_i_ref (i_ref i + 1) i). rewrite list_lookup_insert_eq by by eapply lookup_lt_Some. split_and!; [done|done|cbn; lia].
  - eapply slot_insert; [done|done|cbn; lia].
Qed.

Definition fresh_inode (i : inode) : inode := set_i_valid false (set_i_ref 1 (set_i_inum inum (set_i_dev dev i))).

Lemma iget_miss y k i : owns h (Some p) [] y -> ic !! k = Some i -> i_ref i = 0 -> (forall k' i', ic !! k' = Some i' -> matches dev inum i' = false) ->
  iget_post k (set_sy y (set_inode_at k (fresh_inode i) s)).
Proof using All.
  intros Hy Hk Hz Hno. assert (Hn : rc !! n = None).
  { destruct (rc !! n) as [c|] eqn:Hc; [|done]. destruct (ic_pos _ _ _ _ _ _ _ HI _ _ Hc) as (k' & i' & Hk' & Hp & Hi').
    pose proof (Hno _ _ Hk') as Hf. apply not_true_iff_false in Hf. destruct Hf. by apply matches_spec. }
  assert (Hlk : lk <> Some k). { intros ->. destruct (ic_held _ _ _ _ _ _ _ HI k i Hk eq_refl) as (_ & _ & ?). lia. }
  exists (<[k := fresh_inode i]> ic). split_and!.
  - apply view_set_sy; [by apply view_set_inode|done].
  - unfold addref. rewrite Hn. apply (icache_put dv sb pid ct ic rc lk lk k i (fresh_inode i)); cbn; try done; [by right|by left|intros _; exact (ic_free _ _ _ _ _ _ _ HI k i Hk Hlk)].
  - exists (fresh_inode i). rewrite list_lookup_insert_eq by by eapply lookup_lt_Some. done.
  - eapply slot_insert; [done|lia|done].
Qed.

Lemma run_iget (Q : nat -> kstate -> Prop) : (forall ip s', iget_post ip s' -> Q ip s') -> run (iget dev inum) s Q.
Proof using All.
  intros HQ. unfold iget. wp. eapply run_acquire; [by eapply view_owns|set_solver|]. intros y1 Ho1. wp.
  pose proof (ic_len _ _ _ _ _ _ _ HI) as Hlen.
  assert (Hat : forall k, inode_at k (set_sy y1 s) = ic !!! k) by (intros k; unfold inode_at; cbn; by rewrite (view_ic _ _ _ _ Hv)).
  eapply (run_loop _ (fun '(ip, empty) s' => s' = set_sy y1 s /\ (ip <= NINODE)%nat /\ (forall k, (k < ip)%nat -> matches dev inum (ic !!! k) = false) /\
      match empty with Some e => (e < NINODE)%nat /\ i_ref (ic !!! e) = 0 | None => forall k, (k < ip)%nat -> i_ref (ic !!! k) <> 0 end)
    (fun '(ip, _) _ => (NINODE - ip)%nat)); [|split_and!; try done; lia|lia].
  intros [ip empty] s' (-> & Hip & Hno & Hem). destruct (Nat.ltb_spec ip NINODE).
  - destruct (icache_lt _ _ _ _ _ _ _ ip HI ltac:(done)) as [i Hi]. assert (Ht : ic !!! ip = i) by by apply list_lookup_total_correct.
    wp. rewrite Hat, Ht. fold (matches dev inum i). destruct (matches dev inum i) eqn:Hm.
    + unfold upd_inode. wp. rewrite Hat, Ht. eapply run_release; [exact Ho1|set_solver|]. intros y2 Ho2. rewrite drop_head in Ho2 by set_solver. wp. apply HQ. by apply iget_hit.
    + wp. split; [|lia]. split_and!; [done|lia| |].
      * intros k Hk. destruct (decide (k = ip)) as [->|]; [by rewrite Ht|apply Hno; lia].
      * destruct empty as [e|]; [done|]. destruct (Z.eqb_spec (i_ref i) 0); [by rewrite Ht|].
        intros k Hk. destruct (decide (k = ip)) as [->|]; [by rewrite Ht|apply Hem; lia].
  - wp. assert (ip = NINODE) as -> by lia. destruct empty as [e|].
    + destruct Hem as [He Hz]. destruct (icache_lt _ _ _ _ _ _ _ e HI He) as [i Hi]. assert (Ht : ic !!! e = i) by by apply list_lookup_total_correct.
      rewrite Ht in Hz. unfold upd_inode. wp. eapply run_release; [exact Ho1|set_solver|]. intros y2 Ho2. rewrite drop_head in Ho2 by set_solver. wp. apply HQ.
      assert (Hnm : forall k' i', ic !! k' = Some i' -> matches dev inum i' = false).
      { intros k' i' Hk'. rewrite <-(list_lookup_total_correct _ _ _ Hk'). apply Hno. rewrite <-Hlen. by eapply lookup_lt_Some. }
      pose proof (iget_miss y2 e i Ho2 Hi Hz Hnm) as HP.
      rewrite !set_inode_twice, !inode_at_set by (cbn; by rewrite ?length_insert, (view_ic _ _ _ _ Hv), Hlen). rewrite Hat, Ht. exact HP.
    + exfalso. destruct Hroom as [[c Hc]|Hsz].
      * destruct (ic_pos _ _ _ _ _ _ _ HI _ _ Hc) as (k & i & Hk & Hp & Hn). pose proof (lookup_lt_Some _ _ _ Hk).
        pose proof (Hno k ltac:(lia)) as Hf. rewrite (list_lookup_total_correct _ _ _ Hk) in Hf. apply not_true_iff_false in Hf. destruct Hf. by apply matches_spec.
      * destruct (icache_room _ _ _ _ _ _ _ HI Hsz) as (k & i & Hk & Hz). pose proof (lookup_lt_Some _ _ _ Hk).
        apply (Hem k ltac:(lia)). by rewrite (list_lookup_total_correct _ _ _ Hk).
Qed.
End iget.

Lemma run_idup ip dev inum s lg ct ic rc lk (Q : nat -> kstate -> Prop) : view s lg ct ic -> icache_ok ct ic rc lk -> slot ic ip (dev, inum) ->
  (forall s', iget_post dev inum lg ct ic rc lk ip s' -> Q ip s') -> run (idup ip) s Q.
Proof.
  intros Hv HI (i & Hk & Hn & Hp) HQ. unfold idup. wp. eapply run_acquire; [by eapply view_owns|set_solver|]. intros y1 Ho1. wp.
  eapply run_release; [exact Ho1|set_solver|]. intros y2 Ho2. rewrite drop_head in Ho2 by set_solver. wp. apply HQ.
  assert (Hat : inode_at ip (set_sy y1 s) = i) by exact (view_at _ _ _ _ _ _ Hv Hk). rewrite Hat.
  apply (iget_hit dev inum s lg ct ic rc lk Hv HI); [left; eexists; rewrite <-Hn; by eapply HI|done|done|by apply matches_spec].
Qed.

(** ** Locked inodes *)

(** The inode on the disk. *)
Definition dino (ct : disk) (inum : Z) : inode :=
  load_dinode (default [] (ct !! (dv, IBLOCK inum sb))) (dinode_off inum) (mkInode dv inum 0 (mkSleep false 0) true 0 0 0 0 0 []).

Lemma on_disk_dino ct i : on_disk dv sb ct i -> dfields i = dfields (dino ct (i_inum i)).
Proof. intros (d & Hd & _ & Hi). unfold dino. rewrite Hd. cbn [default from_option id]. destruct i. unfold load_dinode, dfields in *. cbn in *. by simplify_eq. Qed.

(** The table after ilock: entry [ip] is locked and valid. *)
Definition ilock_post (lg : gset bkey) (ct : disk) (ic : list inode) (rc : gmap bkey Z) (ip : nat) (s' : kstate) : Prop :=
  exists ic', view s' lg ct ic' /\ icache_ok ct ic' rc (Some ip) /\ forall k m, slot ic k m -> slot ic' k m.

Lemma set_rc_same ct ic rc lk k i : icache_ok ct ic rc lk -> ic !! k = Some i -> 0 < i_ref i -> set_rc (ik i) (i_ref i) rc = rc.
Proof.
  intros HI Hk Hp. unfold set_rc. rewrite decide_False by lia. apply insert_id. by eapply HI.
Qed.

(** A change of entry [ip] that keeps its key and references. *)
Lemma icache_same ct ic rc lk lk' k i j : icache_ok ct ic rc lk -> ic !! k = Some i -> 0 < i_ref i -> ik j = ik i -> i_ref j = i_ref i ->
  (i_valid j = true -> i_dev j = dv -> on_disk dv sb ct j) ->
  (lk' = lk \/ lk = Some k /\ lk' = None \/ lk = None /\ lk' = Some k) ->
  (lk' <> Some k -> sl_locked (i_lock j) = false) -> (lk' = Some k -> i_lock j = mkSleep true pid /\ i_valid j = true) ->
  icache_ok ct (<[k := j]> ic) rc lk' /\ forall k' m, slot ic k' m -> slot (<[k := j]> ic) k' m.
Proof.
  intros HI Hk Hp Hn Hr Hv Hlk Hf Hh. split.
  - rewrite <-(set_rc_same _ _ _ _ _ _ HI Hk Hp), <-Hn, <-Hr.
    apply (icache_put dv sb pid ct ic rc lk lk' k i j); try done; [lia|by left|].
    intros Hl. destruct (Hh Hl). split_and!; [done|done|lia].
  - eapply slot_insert; [done|done|lia].
Qed.

Lemma runE_ilock ip inum s lg ct ic rc (Q : unit -> kstate -> Prop) : view s lg ct ic -> icache_ok ct ic rc None -> slot ic ip (dv, inum) ->
  KState.sb (fs s0) = sb -> geom dv sb ct -> iplace sb inum -> i_type (dino ct inum) <> 0 -> (size lg < 30)%nat ->
  (forall s', ilock_post lg ct ic rc ip s' -> Q tt s') -> runE E (ilock ip) s Q.
Proof.
  intros Hv HI (i & Hk & Hn & Hp) Hsb Hg Hpl Hty Hlg HQ. unfold ilock. wp. rewrite (view_at _ _ _ _ _ _ Hv Hk).
  destruct (Z.ltb_spec (i_ref i) 1); [lia|]. pose proof (lookup_lt_Some _ _ _ Hk) as Hlt. assert (Hin : i_inum i = inum /\ i_dev i = dv) by by (injection Hn).
  destruct Hin as [Hin Hdev].
  apply runE_bind, run_runE. eapply run_acquiresleep; [by eapply view_owns|set_solver| | |].
  { cbn. by rewrite (view_ic _ _ _ _ Hv). }
  { cbn. rewrite (view_at _ _ _ _ _ _ Hv Hk). by eapply HI. }
  intros y1 Ho1. rewrite (view_pid _ _ _ _ Hv). cbn [sk_set inode_lock]. rewrite (view_at _ _ _ _ _ _ Hv Hk). set (i1 := set_i_lock _ i).
  pose proof (view_set_sy y1 _ _ _ _ (view_set_inode ip i1 _ _ _ _ Hv) Ho1) as Hv1. set (s1 := set_sy y1 _) in *.
  assert (Hk1 : <[ip := i1]> ic !! ip = Some i1) by (by apply list_lookup_insert_eq). wp. rewrite (view_at _ _ _ _ _ _ Hv1 Hk1). cbn [i_valid i1 set_i_lock].
  destruct (i_valid i) eqn:Hval; wp.
  - apply HQ. exists (<[ip := i1]> ic). split; [done|]. apply (icache_same ct ic rc None (Some ip) ip i i1); try done; [|by right; right].
    intros _ _. apply (on_disk_same dv sb ct i); [done|done|]. by eapply HI.
  - eapply run_the_sb; [transitivity (KState.sb (fs s0)); [exact (view_sb _ _ _ _ Hv1)|exact Hsb]|]. cbn [i_dev i_inum i1 set_i_lock]. rewrite Hin, Hdev.
    destruct (IBLOCK_eq dv sb ct _ Hg Hpl) as (_ & Hri & Hbe). pose proof (g_ino _ _ _ Hg). pose proof (g_bmap _ _ _ Hg).
    destruct (g_blocks _ _ _ Hg (IBLOCK inum sb) ltac:(lia)) as (d & Hd & Hlen). assert (Hk0 : (dv, IBLOCK inum sb) <> (0%nat, 0)) by (intros [= _ E0]; lia).
    destruct Hv1 as [S1 T1]. apply runE_bind. eapply (tx_bread E h p dv); [exact T1|done|apply not_elem_of_nil|exact Hd|cbn; lia|]. intros bp s2 M2 T2.
    pose proof (steady_tmoves _ _ _ S1 M2) as S2.
    apply runE_bind. eapply (runE_data_of E h p dv); [exact T2|apply list_elem_of_here|]. unfold upd_inode. wp.
    rewrite (steady_at _ _ _ _ S2 Hk1). set (i2 := load_dinode d (dinode_off inum) i1).
    eapply (tx_brelse E h p dv); [apply (tx_set_inode E h p dv ip i2 _ _ _ _ T2)|done|done|]. intros s3 M3 T3.
    pose proof (steady_tmoves _ _ _ (steady_set_inode ip i2 _ _ S2) M3) as S3. rewrite list_insert_insert_eq in S3. wp.
    assert (Hk2 : forall j, <[ip := j]> ic !! ip = Some j) by (intros j; by apply list_lookup_insert_eq).
    rewrite (steady_at _ _ _ _ S3 (Hk2 _)). set (i3 := set_i_valid true i2).
    pose proof (view_set_inode ip i3 _ _ _ _ (Build_view _ _ _ _ S3 T3)) as Hv3. rewrite list_insert_insert_eq in Hv3. rewrite (view_at _ _ _ _ _ _ Hv3 (Hk2 _)).
    assert (Hdf : dfields i3 = dfields (dino ct inum)) by (unfold dino; by rewrite Hd). assert (Ht3 : i_type i3 = i_type (dino ct inum)) by by (injection Hdf).
    rewrite Ht3. destruct (Z.eqb_spec (i_type (dino ct inum)) 0); [done|]. wp. apply HQ. eexists. split; [exact Hv3|].
    apply (icache_same ct ic rc None (Some ip) ip i i3); try done; [|by right; right].
    intros _ _. exists d. cbn [i_inum i3 i2 set_i_valid load_dinode i1 set_i_lock]. by rewrite Hin.
Qed.

Lemma run_iunlock ip s lg ct ic rc (Q : unit -> kstate -> Prop) : view s lg ct ic -> icache_ok ct ic rc (Some ip) -> (ip < NINODE)%nat ->
  (forall s' ic', view s' lg ct ic' -> icache_ok ct ic' rc None -> (forall k m, slot ic k m -> slot ic' k m) -> Q tt s') -> run (iunlock ip) s Q.
Proof.
  intros Hv HI Hip HQ. destruct (icache_lt _ _ _ _ _ _ _ ip HI Hip) as [i Hk]. destruct (ic_held _ _ _ _ _ _ _ HI ip i Hk eq_refl) as (Hl & Hval & Hp).
  pose proof (view_at _ _ _ _ _ _ Hv Hk) as Hat. unfold iunlock. wp. eapply (run_holdingsleep h p [] (inode_lock ip)); [by eapply view_owns|set_solver|]. intros y1 Ho1.
  cbn [sk_get inode_lock]. rewrite Hat, Hl, (view_pid _ _ _ _ Hv), Z.eqb_refl. cbn [sl_locked sl_pid andb negb orb]. wp. change (inode_at ip (set_sy y1 s)) with (inode_at ip s). rewrite Hat.
  destruct (Z.ltb_spec (i_ref i) 1); [lia|]. eapply (run_releasesleep h p [] (inode_lock ip)); [exact Ho1|set_solver|done|intros x; set_solver| |exact (view_nproc _ _ _ _ Hv)|].
  { cbn. rewrite (view_ic _ _ _ _ Hv). by eapply lookup_lt_Some. }
  intros y2 Ho2. cbn [sk_set sk_chan inode_lock]. change (inode_at ip (set_sy y1 s)) with (inode_at ip s). rewrite Hat. set (j := set_i_lock _ i).
  destruct (icache_same ct ic rc (Some ip) None ip i j) as [HI' Hsl]; try done; [|by right; left|].
  { intros _ Hd. apply (on_disk_same dv sb ct i); [done|done|]. by eapply HI. }
  apply (HQ _ (<[ip := j]> ic)); [|done|done]. apply view_set_sy; [|done]. apply (view_wakeup (ChSleepInode ip) (set_inode_at ip j (set_sy y1 s))).
  by apply view_set_inode, view_set_sy.
Qed.

(** The table after iput: one reference less. *)
Definition iput_post (n : bkey) (lg : gset bkey) (ct : disk) (ic : list inode) (rc : gmap bkey Z) (lk : option nat) (s' : kstate) : Prop :=
  exists ic', view s' lg ct ic' /\ icache_ok ct ic' (addref n (-1) rc) lk /\
    forall k m, slot ic k m -> m <> n \/ 1 < default 0 (rc !! n) -> slot ic' k m.

Lemma run_iput ip inum s lg ct ic rc lk (Q : unit -> kstate -> Prop) : view s lg ct ic -> icache_ok ct ic rc lk -> slot ic ip (dv, inum) -> lk <> Some ip \/ 1 < default 0 (rc !! (dv, inum)) ->
  i_nlink (dino ct inum) <> 0 -> (forall s', iput_post (dv, inum) lg ct ic rc lk s' -> Q tt s') -> run (iput ip) s Q.
Proof.
  intros Hv HI (i & Hk & Hn & Hp) Hlk Hnl HQ. pose proof (view_at _ _ _ _ _ _ Hv Hk) as Hat. injection Hn as Hdev Hin.
  unfold iput. wp. eapply run_acquire; [by eapply view_owns|set_solver|]. intros y1 Ho1. wp. change (inode_at ip (set_sy y1 s)) with (inode_at ip s). rewrite Hat.
  assert ((i_ref i =? 1) && i_valid i && (i_nlink i =? 0) = false) as ->.
  { destruct (i_valid i) eqn:Hval; [|by rewrite andb_false_r]. apply andb_false_iff. right. apply Z.eqb_neq.
    pose proof (on_disk_dino ct i (ic_valid _ _ _ _ _ _ _ HI _ _ Hk Hp Hval Hdev)) as Hdf. rewrite Hin in Hdf. injection Hdf as _ _ _ -> _ _. done. }
  cbn [when]. wp. change (inode_at ip (set_sy y1 s)) with (inode_at ip s). rewrite Hat. set (j := set_i_ref (i_ref i - 1) i).
  eapply run_release; [exact Ho1|set_solver|]. intros y2 Ho2. rewrite drop_head in Ho2 by set_solver. apply HQ. exists (<[ip := j]> ic).
  assert (Hrc : rc !! (dv, inum) = Some (i_ref i)) by (rewrite <-Hdev, <-Hin; by eapply HI). unfold addref. rewrite Hrc. cbn [default from_option id]. split_and!.
  - apply (view_set_sy y2 (set_inode_at ip j s)); [by apply view_set_inode|done].
  - replace (dv, inum) with (ik j) by (unfold ik; cbn; by rewrite Hdev, Hin). change (i_ref i + -1) with (i_ref j).
    apply (icache_put dv sb pid ct ic rc lk lk ip i j); try done; [cbn; lia|by left| |by left| |].
    + intros _ Hval Hd. apply (on_disk_same dv sb ct i); [done|done|]. by eapply HI.
    + exact (ic_free _ _ _ _ _ _ _ HI ip i Hk).
    + intros El. destruct (ic_held _ _ _ _ _ _ _ HI ip i Hk El) as (? & ? & _). split_and!; [done..|]. destruct Hlk as [?|Hlk]; [done|]. rewrite Hrc in Hlk. cbn in *. lia.
  - intros k m (i' & Hk' & Hm & Hp') Hor. destruct (decide (k = ip)) as [->|Hne].
    + simplify_eq. exists j. rewrite list_lookup_insert_eq by by eapply lookup_lt_Some. split_and!; [done|done|]. cbn. destruct Hor as [Hor|]; [|lia]. exfalso. apply Hor. unfold ik. congruence.
    + exists i'. by rewrite list_lookup_insert_ne.
Qed.
End ops.

End Icache.
