(* ===== verification/Dir.v ===== *)
(** * Directories and path names (kernel/fs.c, second half)

    A directory is a file of 16-byte entries; paths are resolved one element
    at a time.  A path is the list of its bytes without the terminating NUL;
    a name buffer is the array [char name[DIRSIZ]]. *)

From S2P Require Import Prelude Bytes CString KState Spinlock Kernel Riscv Kalloc Vm Sched Console Virtio Bio Log Fs.

Module Dir.
Import Sched Bio Log Fs.

(** A local variable whose address is passed to readi or writei lives on the
    kernel stack of the running process; [off] is its place there. *)
Definition stack_slot (off : Z) : K Z :=
  p <- myproc' ;;
  gets (fun s => p_kstack (proc_at p s) + off).

Definition de_size : Z := 16.   (* sizeof(struct dirent) *)

Definition namecmp (s : list Z) (mt : mem) (t : Z) : Z := CString.strncmp s mt 0 t DIRSIZ.

(** Look for a directory entry in a directory: the inode and the byte offset
    of the entry. *)
Definition dirlookup (dp : nat) (name : list Z) : K (option (nat * Z)) :=
  i <- gets (inode_at dp) ;;
  if negb (i_type i =? T_DIR) then panic "dirlookup not DIR" else
  de <- stack_slot 0 ;;
  loop (S (S (Z.to_nat (i_size i / de_size)))) (fun off =>
    i <- gets (inode_at dp) ;;
    if off <? i_size i then
      r <- readi dp false de off de_size ;;
      if negb (r =? de_size) then panic "dirlookup read" else
      m <- gets mm ;;
      let inum := ld16 m de in
      if inum =? 0 then ret (inl (off + de_size))
      else if namecmp name m (de + 2) =? 0 then
        ip <- iget (i_dev i) inum ;;
        ret (inr (Some (ip, off)))
      else ret (inl (off + de_size))
    else ret (inr None)) 0.

(** Write a new directory entry (name, inum) into the directory dp. *)
Definition dirlink (dp : nat) (name : list Z) (inum : Z) : K Z :=
  r <- dirlookup dp name ;;
  match r with
  | Some (ip, _) => iput ip ;; ret (-1)
  | None =>
      de <- stack_slot 16 ;;
      size <- gets (fun s => i_size (inode_at dp s)) ;;
      off <- loop (S (S (Z.to_nat (size / de_size)))) (fun off =>
        i <- gets (inode_at dp) ;;
        if off <? i_size i then
          r <- readi dp false de off de_size ;;
          if negb (r =? de_size) then panic "dirlink read" else
          m <- gets mm ;;
          if ld16 m de =? 0 then ret (inr off) else ret (inl (off + de_size))
        else ret (inr off)) 0 ;;
      modify (fun s => set_mm (CString.strncpy (mm s) name (de + 2) 0 DIRSIZ) s) ;;
      modify (fun s => set_mm (st16 (mm s) de inum) s) ;;
      r <- writei dp false de off de_size ;;
      if negb (r =? de_size) then panic "dirlink" else ret 0
  end.

(** ** Paths *)

Definition slash : Z := 47.

Fixpoint skip_slashes (path : list Z) : list Z :=
  match path with
  | c :: path' => if c =? slash then skip_slashes path' else path
  | [] => []
  end.

(** The bytes up to the next slash, and the rest. *)
Fixpoint take_elem (path : list Z) : list Z * list Z :=
  match path with
  | c :: path' =>
      if c =? slash then ([], path)
      else let '(e, r) := take_elem path' in (c :: e, r)
  | [] => ([], [])
  end.

(** memmove(name, s, len) with the terminating NUL when it fits. *)
Definition store_name (name s : list Z) : list Z :=
  let len := Z.of_nat (length s) in
  if DIRSIZ <=? len then set_bytes name 0 (take (Z.to_nat DIRSIZ) s)
  else setb (set_bytes name 0 s) len 0.

(** Copy the next path element from path into name; the rest of the path, or
    [None] if there is no element. *)
Definition skipelem (path name : list Z) : option (list Z * list Z) :=
  match skip_slashes path with
  | [] => None
  | path =>
      let '(s, path) := take_elem path in
      Some (skip_slashes path, store_name name s)
  end.

Definition starts_with_slash (path : list Z) : bool :=
  match path with c :: _ => c =? slash | [] => false end.

Definition namex (path : list Z) (nameiparent : bool) : K (option (nat * list Z)) :=
  ip <- (if starts_with_slash path then iget ROOTDEV ROOTINO
         else
           p <- myproc' ;;
           cwd <- gets (fun s => p_cwd (proc_at p s)) ;;
           match cwd with Some c => idup c | None => stuck "null cwd" end) ;;
  loop (S (length path)) (fun '(ip, path, name) =>
    match skipelem path name with
    | Some (path, name) =>
        ilock ip ;;
        i <- gets (inode_at ip) ;;
        if negb (i_type i =? T_DIR) then iunlockput ip ;; ret (inr None)
        else if nameiparent && bool_decide (path = []) then
          iunlock ip ;; ret (inr (Some (ip, name)))
        else
          r <- dirlookup ip name ;;
          match r with
          | None => iunlockput ip ;; ret (inr None)
          | Some (next, _) => iunlockput ip ;; ret (inl (next, path, name))
          end
    | None =>
        if nameiparent then iput ip ;; ret (inr None)
        else ret (inr (Some (ip, name)))
    end) (ip, path, replicate (Z.to_nat DIRSIZ) 0).

Definition namei (path : list Z) : K (option nat) :=
  r <- namex path false ;; ret (fst <$> r).

Definition nameiparent (path : list Z) : K (option (nat * list Z)) := namex path true.

End Dir.
