(* ===== verification/DirProof.v ===== *)
(** * Directories and path names: proofs (kernel/fs.c, second half)

    The entries of a directory are what its bytes say ([dents]); a path is
    the list of its elements ([elements]).  dirlookup finds the first entry
    with a name, dirlink adds one, and namex walks the tree on the disk
    ([resolve]), with the reference counts of the inode cache balanced. *)

From S2P Require Import Prelude Bytes CString KState Spinlock Kernel Riscv Kalloc Vm Sched Console Virtio Disk Bio Cache Log Commit Transaction Fs Tx Balloc Dinode Inode FileIO Icache Dir.

Module DirProof.
Import Sched Virtio Disk Bio Cache Log Commit Transaction Fs Tx Balloc Dinode Inode FileIO Icache Dir.

(** ** Names *)

(** A name field up to its NUL. *)
Fixpoint cname (l : list Z) : list Z :=
  match l with
  | c :: l' => if c =? 0 then [] else c :: cname l'
  | [] => []
  end.

(** strncmp compares the names two fields hold. *)
Lemma strncmp_cname {B1 B2} `{!ByteStore B1} `{!ByteStore B2} k : forall (m1 : B1) (m2 : B2) p q,
  CString.strncmp_loop k m1 m2 p q = 0 <-> cname (get_bytes k m1 p) = cname (get_bytes k m2 q).
Proof.
  induction k as [|k IH]; intros m1 m2 p q; cbn [CString.strncmp_loop get_bytes cname]; [done|].
  destruct (Z.eqb_spec (getb m1 p) 0) as [H1|H1], (Z.eqb_spec (getb m2 q) 0) as [H2|H2]; cbn [negb andb].
  - split; [done|lia].
  - split; [lia|done].
  - destruct (Z.eqb_spec (getb m1 p) (getb m2 q)); [congruence|]. split; [lia|done].
  - destruct (Z.eqb_spec (getb m1 p) (getb m2 q)) as [He|He].
    + rewrite IH, He. split; [congruence|by intros [= ?]].
    + split; [lia|congruence].
Qed.

(** A field of [k] bytes that holds the name [l]. *)
Lemma cname_get {B} `{!ByteStore B} l : forall k (m : B) a, (length l <= k)%nat -> Forall (fun c => c <> 0) l ->
  (forall j c, l !! j = Some c -> getb m (a + Z.of_nat j) = c) -> ((length l < k)%nat -> getb m (a + Z.of_nat (length l)) = 0) ->
  cname (get_bytes k m a) = l.
Proof.
  induction l as [|c l IH]; intros [|k] m a Hk Hnz Hb He; cbn [length get_bytes cname] in *; try done; try lia.
  - rewrite Z.add_0_r in He. by rewrite He by lia.
  - apply Forall_cons in Hnz as [Hc Hnz]. pose proof (Hb 0%nat c eq_refl) as H0. rewrite Z.add_0_r in H0. rewrite H0.
    destruct (Z.eqb_spec c 0); [done|]. f_equal. apply IH; [lia|done| |].
    + intros j x Hj. rewrite <-(Hb (S j) x Hj). f_equal. lia.
    + intros Hl. rewrite <-He by lia. f_equal. lia.
Qed.

(** strncpy stores the name, and nothing outside its field. *)
Lemma strncpy_spec {B B2} `{!ByteStore B} `{!ByteStore B2} k : forall (m : B) (mt : B2) s t, valid_range m s (Z.of_nat k) ->
  cname (get_bytes k (CString.strncpy_loop k m mt s t) s) = cname (get_bytes k mt t) /\
  forall a, ~ s <= a < s + Z.of_nat k -> getb (CString.strncpy_loop k m mt s t) a = getb m a.
Proof.
  induction k as [|k IH]; intros m mt s t Hv; [done|]. cbn [CString.strncpy_loop get_bytes cname].
  assert (Hv' : valid_range (setb m s (getb mt t)) (s + 1) (Z.of_nat k)) by (apply valid_range_setb; eapply valid_range_sub; [exact Hv|lia..]).
  assert (Hc : forall a, getb (setb m s (getb mt t)) a = if decide (a = s) then getb mt t else getb m a).
  { intros a. case_decide; [subst; rewrite getb_setb_eq by (apply Hv; lia); apply u8_small, getb_range|by apply getb_setb_ne]. }
  destruct (Z.eqb_spec (getb mt t) 0) as [Hz|Hz].
  - assert (Hf : forall a, getb (CString.zero_fill k (setb m s (getb mt t)) (s + 1)) a = if bool_decide (s + 1 <= a < s + 1 + Z.of_nat k) then 0 else getb (setb m s (getb mt t)) a)
      by (intros a; by apply CString.getb_zero_fill). split.
    + rewrite Hf, bool_decide_false, Hc, decide_True by lia. by rewrite Hz.
    + intros a Ha. rewrite Hf, bool_decide_false, Hc, decide_False by lia. done.
  - destruct (IH (setb m s (getb mt t)) mt (s + 1) (t + 1) Hv') as [H1 H2]. split.
    + rewrite H2, Hc, decide_True by lia. destruct (Z.eqb_spec (getb mt t) 0); [done|]. by rewrite H1.
    + intros a Ha. rewrite H2, Hc, decide_False by lia. done.
Qed.

(** ** Path elements *)

Abbreviation is_char := (fun c => 0 < c < 256).

(** The pieces of a path between its slashes. *)
Fixpoint pieces_of (path : list Z) : list (list Z) :=
  match path with
  | c :: path' => if c =? slash then [] :: pieces_of path' else match pieces_of path' with e :: es => (c :: e) :: es | [] => [[c]] end
  | [] => [[]]
  end.

(** The elements of a path: the pieces that are not empty, cut to DIRSIZ
    bytes. *)
Definition elements (path : list Z) : list (list Z) := take 14 <$> filter (fun e => e <> []) (pieces_of path).

Lemma elements_skip path : elements (skip_slashes path) = elements path.
Proof.
  unfold elements. f_equal. induction path as [|c path IH]; [done|]. cbn [skip_slashes]. destruct (Z.eqb_spec c slash) as [->|]; [|done].
  rewrite IH. done.
Qed.

Lemma skip_head path c path' : skip_slashes path = c :: path' -> c <> slash.
Proof. induction path as [|c0 path IH]; [done|]. cbn. destruct (Z.eqb_spec c0 slash); [done|]. by intros [= -> _]. Qed.
Lemma skip_suffix path : exists l, path = l ++ skip_slashes path.
Proof. induction path as [|c path [l IH]]; [by exists []|]. cbn. destruct (Z.eqb_spec c slash); [exists (c :: l); cbn; by f_equal|by exists []]. Qed.

Lemma pieces_take path e r : take_elem path = (e, r) -> path = e ++ r /\ pieces_of path = e :: tail (pieces_of r) /\
  match r with [] => True | c :: _ => c = slash end.
Proof.
  revert e r. induction path as [|c path IH]; intros e r; cbn [take_elem pieces_of]; [by intros [= <- <-]|]. destruct (Z.eqb_spec c slash) as [->|Hc].
  - intros [= <- <-]. done.
  - destruct (take_elem path) as [e0 r0]. intros [= <- <-]. by destruct (IH e0 r0 eq_refl) as (-> & -> & Hr).
Qed.

Lemma elements_nil path : elements path = [] <-> skip_slashes path = [].
Proof.
  rewrite <-elements_skip. split; [|by intros ->]. destruct (skip_slashes path) as [|c p] eqn:Hs; [done|]. apply skip_head in Hs. unfold elements. cbn [pieces_of].
  destruct (Z.eqb_spec c slash); [done|]. by destruct (pieces_of p).
Qed.

Lemma store_name_spec name s : length name = 14%nat -> Forall is_char s ->
  length (store_name name s) = 14%nat /\ cname (get_bytes 14 (store_name name s) 0) = take 14 s.
Proof.
  intros Hl Hs. assert (Hv : forall n, (n <= 14)%nat -> valid_range name 0 (Z.of_nat n)) by (intros n Hn a Ha; cbn; lia).
  assert (Hch : forall j c, s !! j = Some c -> u8 c = c /\ c <> 0).
  { intros j c Hj. rewrite Forall_lookup in Hs. specialize (Hs _ _ Hj). unfold u8. rewrite Z.mod_small; lia. }
  unfold store_name. destruct (Z.leb_spec DIRSIZ (Z.of_nat (length s))) as [Hlen|Hlen].
  - assert (Hts : length (take (Z.to_nat DIRSIZ) s) = 14%nat) by (rewrite length_take; lia). split; [by rewrite length_set_bytes|].
    change (Z.to_nat DIRSIZ) with 14%nat in *. apply cname_get; [lia|apply Forall_take; eapply Forall_impl; [exact Hs|cbn; lia]| |lia].
    intros j c Hj. rewrite getb_set_bytes by (rewrite Hts; apply Hv; lia). rewrite bool_decide_true by (apply lookup_lt_Some in Hj; lia).
    replace (Z.to_nat (0 + Z.of_nat j - 0)) with j by lia. rewrite Hj. cbn. apply lookup_take_Some in Hj as [Hj _]. by eapply Hch.
  - rewrite take_ge by lia. assert (Hr : valid_range name 0 (Z.of_nat (length s))) by (apply Hv; lia).
    assert (Hv0 : valid_at (set_bytes name 0 s) (Z.of_nat (length s))) by (cbn; rewrite length_set_bytes; lia).
    split; [by rewrite length_setb, length_set_bytes|]. apply cname_get; [lia|eapply Forall_impl; [exact Hs|cbn; lia]| |].
    + intros j c Hj. pose proof (lookup_lt_Some _ _ _ Hj). rewrite getb_setb_ne by lia. rewrite getb_set_bytes by done. rewrite bool_decide_true by lia.
      replace (Z.to_nat (0 + Z.of_nat j - 0)) with j by lia. rewrite Hj. cbn. by eapply Hch.
    + intros _. rewrite Z.add_0_l. by rewrite getb_setb_eq by done.
Qed.

Lemma skipelem_spec path name : length name = 14%nat -> Forall is_char path -> match elements path with
  | [] => skipelem path name = None
  | e :: es => exists path' name', skipelem path name = Some (path', name') /\ elements path' = es /\ cname (get_bytes 14 name' 0) = e /\
      length name' = 14%nat /\ Forall is_char path' /\ (path' = [] <-> es = []) /\ (length path' < length path)%nat
  end.
Proof.
  intros Hl Hp. unfold skipelem. destruct (skip_suffix path) as (l & Hpath). rewrite <-elements_skip. destruct (skip_slashes path) as [|c q] eqn:Hq; [done|].
  pose proof (skip_head _ _ _ Hq) as Hc. destruct (take_elem (c :: q)) as [s r] eqn:Ht. destruct (pieces_take _ _ _ Ht) as (Hcq & Hpc & Hr).
  assert (Hs : s <> []). { cbn [take_elem] in Ht. destruct (Z.eqb_spec c slash); [done|]. destruct (take_elem q). injection Ht as <- _. done. }
  rewrite Hpath, Hcq in Hp. apply Forall_app in Hp as [_ [Hps Hpr]%Forall_app].
  unfold elements. rewrite Hpc, filter_cons_True, fmap_cons by done.
  destruct (store_name_spec name s Hl Hps) as [Hn1 Hn2]. exists (skip_slashes r), (store_name name s).
  assert (Hes : elements (skip_slashes r) = take 14 <$> filter (fun e => e <> []) (tail (pieces_of r))).
  { rewrite elements_skip. unfold elements. f_equal. destruct r as [|x r]; [done|]. rewrite Hr. done. }
  destruct (skip_suffix r) as (l' & Hr'). split_and!; [done|exact Hes|done|done| | |].
  - rewrite Hr' in Hpr. by apply Forall_app in Hpr as [_ ?].
  - rewrite <-Hes, elements_skip. by rewrite elements_nil.
  - apply (f_equal length) in Hpath, Hcq, Hr'. rewrite !length_app in *. destruct s; [done|]. cbn [length] in *. lia.
Qed.

(** ** Directory entries *)

Section entries.
Context (dv : nat).
Implicit Types (ct : disk) (i : inode).

Definition fbytes ct i (off : Z) (n : nat) : list Z := fbyte dv ct i <$> seqZ off (Z.of_nat n).
Definition de_inum ct i (off : Z) : Z := fbyte dv ct i off + 256 * fbyte dv ct i (off + 1).
Definition de_name ct i (off : Z) : list Z := cname (fbytes ct i (off + 2) 14).

(** The entries of a directory, unused ones (inode number 0) included. *)
Definition dents ct i : list (Z * list Z) := (fun k => (de_inum ct i (16 * k), de_name ct i (16 * k))) <$> seqZ 0 (i_size i / 16).

(** The first entry in use with name [e]: its inode and its offset, for the
    entries from offset [off] on. *)
Fixpoint find_ent (e : list Z) (l : list (Z * list Z)) (off : Z) : option (Z * Z) :=
  match l with
  | (inum, nm) :: l' => if negb (inum =? 0) && bool_decide (nm = e) then Some (inum, off) else find_ent e l' (off + 16)
  | [] => None
  end.

Definition dir_find ct i (e : list Z) : option (Z * Z) := find_ent e (dents ct i) 0.

Lemma lookup_dents ct i k : 0 <= k < i_size i / 16 -> dents ct i !! Z.to_nat k = Some (de_inum ct i (16 * k), de_name ct i (16 * k)).
Proof.
  intros Hk. unfold dents. rewrite list_lookup_fmap. assert (seqZ 0 (i_size i / 16) !! Z.to_nat k = Some k) as -> by (apply lookup_seqZ; lia). done.
Qed.
Lemma length_dents ct i : length (dents ct i) = Z.to_nat (i_size i / 16).
Proof. unfold dents. by rewrite length_fmap, length_seqZ. Qed.

(** What bytes in memory say about an entry read there. *)
Lemma get_bytes_fbytes {B} `{!ByteStore B} (m : B) a ct i off n : (forall j, 0 <= j < Z.of_nat n -> getb m (a + j) = fbyte dv ct i (off + j)) ->
  get_bytes n m a = fbytes ct i off n.
Proof.
  intros H. apply list_eq_same_length with (n := n); [unfold fbytes; rewrite length_fmap, length_seqZ; lia|by rewrite length_get_bytes|].
  intros k x y Hk Hx Hy. rewrite lookup_get_bytes in Hx by done. unfold fbytes in Hy. rewrite list_lookup_fmap in Hy.
  assert (seqZ off (Z.of_nat n) !! k = Some (off + Z.of_nat k)) as E0 by (apply lookup_seqZ; lia). rewrite E0 in Hy. cbn in Hy. simplify_eq. apply H. lia.
Qed.

Lemma read_inum {B} `{!ByteStore B} (m : B) a ct i off : (forall j, 0 <= j < 16 -> getb m (a + j) = fbyte dv ct i (off + j)) -> ld16 m a = de_inum ct i off.
Proof.
  intros H. unfold ld16, de_inum. rewrite !ldn_S. pose proof (H 0 ltac:(lia)) as H0. pose proof (H 1 ltac:(lia)) as H1. rewrite !Z.add_0_r in H0. rewrite H0, H1. change (ldn 0 m (a + 1 + 1)) with 0. lia.
Qed.
Lemma read_name {B} `{!ByteStore B} (m : B) a ct i off : (forall j, 0 <= j < 16 -> getb m (a + j) = fbyte dv ct i (off + j)) ->
  cname (get_bytes 14 m (a + 2)) = de_name ct i off.
Proof.
  intros H. unfold de_name. f_equal. apply get_bytes_fbytes. intros j Hj. rewrite <-!Z.add_assoc. apply H. lia.
Qed.

(** A well-formed directory. *)
Record dir_ok (sb : superblock) ct i : Prop := {
  do_file : file_ok dv sb ct i;
  do_holes : no_holes dv ct i;
  do_size : 0 <= i_size i <= MAXFILE * BSIZE;
  do_whole : i_size i mod 16 = 0
}.

Lemma find_drop e l k off : find_ent e (drop k l) off = match l !! k with
  | Some (inum, nm) => if negb (inum =? 0) && bool_decide (nm = e) then Some (inum, off) else find_ent e (drop (S k) l) (off + 16)
  | None => None end.
Proof.
  destruct (l !! k) as [[inum nm]|] eqn:Hk; [by rewrite (drop_S _ _ _ Hk)|]. by rewrite drop_ge by by apply lookup_ge_None.
Qed.
End entries.

(** ** Adding an entry *)

(** The first unused entry, or the place behind the last one. *)
Fixpoint add_ent (x : Z * list Z) (l : list (Z * list Z)) : list (Z * list Z) :=
  match l with
  | y :: l' => if y.1 =? 0 then x :: l' else y :: add_ent x l'
  | [] => [x]
  end.
Fixpoint free_ent (l : list (Z * list Z)) : nat :=
  match l with
  | y :: l' => if y.1 =? 0 then O else S (free_ent l')
  | [] => O
  end.

Lemma add_ent_split x l : add_ent x l = take (free_ent l) l ++ x :: drop (S (free_ent l)) l.
Proof. induction l as [|y l IH]; [done|]. cbn [add_ent free_ent]. destruct (y.1 =? 0); [done|]. cbn. by rewrite IH. Qed.
Lemma free_ent_le l : (free_ent l <= length l)%nat.
Proof. induction l as [|y l IH]; [done|]. cbn. destruct (y.1 =? 0); lia. Qed.
Lemma free_ent_used l k y : (k < free_ent l)%nat -> l !! k = Some y -> y.1 <> 0.
Proof.
  revert k. induction l as [|z l IH]; intros k; cbn [free_ent]; [lia|]. destruct (Z.eqb_spec z.1 0); [lia|]. destruct k as [|k]; cbn; [by intros _ [= <-]|].
  intros Hk. apply IH. lia.
Qed.
Lemma free_ent_free l y : l !! free_ent l = Some y -> y.1 = 0.
Proof. induction l as [|z l IH]; cbn [free_ent]; [done|]. destruct (Z.eqb_spec z.1 0); cbn; [by intros [= <-]|done]. Qed.

(** The new entry is found under its name, the others as before. *)
Lemma find_add x e l off : x.1 <> 0 -> find_ent x.2 l off = None ->
  find_ent e (add_ent x l) off = if decide (e = x.2) then Some (x.1, off + 16 * Z.of_nat (free_ent l)) else find_ent e l off.
Proof.
  intros Hx. revert off. destruct x as [n nm]. cbn [fst snd] in *. induction l as [|[m y] l IH]; intros off; cbn [find_ent add_ent free_ent fst].
  - intros _. destruct (Z.eqb_spec n 0); [done|]. cbn [negb andb]. case_decide as He; [rewrite bool_decide_true by done; do 2 f_equal; lia|by rewrite bool_decide_false by congruence].
  - destruct (Z.eqb_spec m 0) as [Hm|Hm]; cbn [negb andb find_ent].
    + intros Hf. destruct (Z.eqb_spec n 0); [done|]. cbn [negb andb]. case_decide as He; [rewrite bool_decide_true by done; do 2 f_equal; lia|by rewrite bool_decide_false by congruence].
    + destruct (Z.eqb_spec m 0); [done|]. cbn [negb andb]. case_bool_decide as Hy; [done|]. intros Hf. case_bool_decide as He.
      * rewrite decide_False; [done|]. congruence.
      * rewrite IH by done. case_decide; [do 2 f_equal; lia|done].
Qed.

(** Content depends on the size and the block addresses only. *)
Lemma fbyte_same dv ct i j x : i_addrs j = i_addrs i -> fbyte dv ct j x = fbyte dv ct i x.
Proof. intros Ha. unfold fbyte, fblk, ind. by rewrite Ha. Qed.

Lemma de_inum_ext dv ct ct' i j off : (forall x, off <= x < off + 16 -> fbyte dv ct' j x = fbyte dv ct i x) -> de_inum dv ct' j off = de_inum dv ct i off.
Proof. intros H. unfold de_inum. rewrite (H off) by lia. rewrite (H (off + 1)) by lia. reflexivity. Qed.
Lemma de_name_ext dv ct ct' i j off : (forall x, off <= x < off + 16 -> fbyte dv ct' j x = fbyte dv ct i x) -> de_name dv ct' j off = de_name dv ct i off.
Proof.
  intros H. unfold de_name. apply f_equal. apply list_fmap_ext. intros k x Hk%lookup_seqZ. apply H. lia.
Qed.
Lemma dents_same dv ct i j : i_addrs j = i_addrs i -> i_size j = i_size i -> dents dv ct j = dents dv ct i.
Proof.
  intros Ha Hs. unfold dents. rewrite Hs. apply list_fmap_ext. intros k x _.
  rewrite (de_inum_ext dv ct ct i j), (de_name_ext dv ct ct i j) by (intros y _; by apply fbyte_same). reflexivity.
Qed.

Lemma lookup_add_ent x l j : (j <= length l)%nat -> add_ent x l !! j = if decide (j = free_ent l) then Some x else l !! j.
Proof.
  intros Hj. pose proof (free_ent_le l). rewrite add_ent_split. destruct (decide (j = free_ent l)) as [->|Hne].
  - rewrite lookup_app_r by (rewrite length_take; lia). rewrite length_take, Nat.min_l, Nat.sub_diag by lia. done.
  - destruct (decide (j < free_ent l)%nat).
    + rewrite lookup_app_l by (rewrite length_take; lia). apply lookup_take_lt. lia.
    + rewrite lookup_app_r by (rewrite length_take; lia). rewrite length_take, Nat.min_l by lia.
      replace (j - free_ent l)%nat with (S (j - S (free_ent l)))%nat by lia.
      change ((x :: drop (S (free_ent l)) l) !! S (j - S (free_ent l))) with (drop (S (free_ent l)) l !! (j - S (free_ent l))%nat). rewrite lookup_drop. f_equal. lia.
Qed.
Lemma length_add_ent x l : length (add_ent x l) = Nat.max (length l) (S (free_ent l)).
Proof. pose proof (free_ent_le l). rewrite add_ent_split, length_app, length_take. change (length (x :: drop (S (free_ent l)) l)) with (S (length (drop (S (free_ent l)) l))). rewrite List.length_skipn. lia. Qed.

(** A directory whose bytes changed in its first unused entry only. *)
Lemma dents_written dv ct ct' i i' : let l := dents dv ct i in let off := 16 * Z.of_nat (free_ent l) in
  0 <= i_size i -> i_size i mod 16 = 0 -> i_size i' = Z.max (i_size i) (off + 16) ->
  (forall x, 0 <= x < i_size i' -> ~ off <= x < off + 16 -> fbyte dv ct' i' x = fbyte dv ct i x) ->
  dents dv ct' i' = add_ent (de_inum dv ct' i' off, de_name dv ct' i' off) l.
Proof.
  intros l off Hs0 Hs Hs' Hb. pose proof (free_ent_le l) as Hf. pose proof (length_dents dv ct i) as Hl. fold l in Hl.
  pose proof (Z.div_mod (i_size i) 16 ltac:(lia)) as Hdm. pose proof (Z.div_pos (i_size i) 16 Hs0 ltac:(lia)).
  assert (Hq : i_size i' / 16 = Z.max (i_size i / 16) (Z.of_nat (free_ent l) + 1)).
  { rewrite Hs'. symmetry. apply (Z.div_unique _ _ _ 0); [lia|]. unfold off. lia. }
  apply list_eq_same_length with (n := Nat.max (length l) (S (free_ent l))); [apply length_add_ent|rewrite length_dents, Hq; lia|].
  intros j x y Hj Hx Hy. rewrite <-(Nat2Z.id j), lookup_dents in Hx by lia. injection Hx as <-.
  rewrite lookup_add_ent in Hy by lia. case_decide as E0.
  - injection Hy as <-. by subst j.
  - assert (Hjl : (j < length l)%nat) by lia. rewrite <-(Nat2Z.id j) in Hy. unfold l in Hy. rewrite lookup_dents in Hy by lia. injection Hy as <-.
    assert (forall x, 16 * Z.of_nat j <= x < 16 * Z.of_nat j + 16 -> fbyte dv ct' i' x = fbyte dv ct i x) by (intros x Hx; apply Hb; unfold off; lia).
    rewrite (de_inum_ext dv ct ct' i i'), (de_name_ext dv ct ct' i i') by done. reflexivity.
Qed.

Lemma dir_ok_same dv sb ct i j : i_dev j = i_dev i -> i_addrs j = i_addrs i -> i_size j = i_size i -> dir_ok dv sb ct i -> dir_ok dv sb ct j.
Proof.
  intros Hd Ha Hs [[F1 F2 F3 F4 F5] H2 H3 H4]. assert (Hf : forall bn, fblk dv ct j bn = fblk dv ct i bn) by (intros bn; unfold fblk, ind; by rewrite Ha).
  assert (Hi : ind j = ind i) by (unfold ind; by rewrite Ha). split.
  - split; [congruence|congruence|..].
    + intros bn Hb. rewrite Hf, Hi. by apply F3.
    + rewrite Hi. done.
    + intros bn bn' Hb Hb'. rewrite !Hf. by apply F5.
  - intros b Hb Hlt. rewrite Hf. apply H2; [done|lia].
  - by rewrite Hs.
  - by rewrite Hs.
Qed.

(** An entry lies in one block. *)
Lemma pieces_entry k : 0 <= k -> pieces (16 * k) (16 * k + 16) = 1.
Proof.
  intros Hk. unfold pieces. destruct (Z.ltb_spec (16 * k) (16 * k + 16)); [|lia].
  pose proof (Z.div_mod k 64 ltac:(lia)). pose proof (Z.mod_pos_bound k 64 ltac:(lia)).
  rewrite <-(Z.div_unique (16 * k + 16 - 1) BSIZE (k / 64) (16 * (k mod 64) + 15)) by lia.
  rewrite <-(Z.div_unique (16 * k) BSIZE (k / 64) (16 * (k mod 64))) by lia. lia.
Qed.

(** ** The tree on the disk *)

Section tree.
Context (dv : nat) (sb : superblock) (ct : disk).
Abbreviation dino := (dino dv sb ct).

Record node_ok (n : Z) : Prop := {
  nd_place : iplace sb n;
  nd_num : 0 < n < 2 ^ 16;
  nd_type : i_type (dino n) <> 0;
  nd_nlink : i_nlink (dino n) <> 0;
  nd_file : file_ok dv sb ct (dino n);
  nd_dir : i_type (dino n) = T_DIR -> dir_ok dv sb ct (dino n)
}.

(** [D] holds of the inodes of a tree: they are well formed, share no block,
    and looking up names leads to inodes of the tree. *)
Record tree (D : Z -> Prop) : Prop := {
  tr_node : forall n, D n -> node_ok n;
  tr_closed : forall n e m off, D n -> i_type (dino n) = T_DIR -> dir_find dv ct (dino n) e = Some (m, off) -> D m;
  tr_disjoint : forall n m a, D n -> D m -> n <> m -> a <> 0 -> blk_of dv ct (dino n) a -> ~ blk_of dv ct (dino m) a
}.

(** The inode a list of names leads to. *)
Fixpoint resolve (n : Z) (es : list (list Z)) : option Z :=
  match es with
  | [] => Some n
  | e :: es' =>
      if i_type (dino n) =? T_DIR then
        match dir_find dv ct (dino n) e with Some (m, _) => resolve m es' | None => None end
      else None
  end.

(** The directory that holds the last name, and that name. *)
Definition resolve_parent (n : Z) (es : list (list Z)) : option (Z * list Z) :=
  match last es with
  | Some e =>
      match resolve n (removelast es) with
      | Some d => if i_type (dino d) =? T_DIR then Some (d, e) else None
      | None => None
      end
  | None => None
  end.

(** Both at once, one element at a time. *)
Fixpoint walk (parent : bool) (n : Z) (es : list (list Z)) : option (Z * option (list Z)) :=
  match es with
  | [] => if parent then None else Some (n, None)
  | e :: es' =>
      if i_type (dino n) =? T_DIR then
        if parent && bool_decide (es' = []) then Some (n, Some e) else
        match dir_find dv ct (dino n) e with Some (m, _) => walk parent m es' | None => None end
      else None
  end.

Lemma walk_resolve es : forall n, walk false n es = (fun m => (m, None)) <$> resolve n es.
Proof.
  induction es as [|e es IH]; intros n; [done|]. cbn [walk resolve andb]. destruct (i_type (dino n) =? T_DIR); [|done].
  destruct (dir_find dv ct (dino n) e) as [[m off]|]; [apply IH|done].
Qed.

Lemma walk_parent es : forall n, walk true n es = (fun '(d, e) => (d, Some e)) <$> resolve_parent n es.
Proof.
  unfold resolve_parent. induction es as [|e es IH]; intros n; [done|]. cbn [walk andb]. destruct es as [|e' es].
  - rewrite bool_decide_true by done. change (last [e]) with (Some e). cbn [removelast resolve]. by destruct (i_type (dino n) =? T_DIR).
  - rewrite bool_decide_false by done. change (last (e :: e' :: es)) with (last (e' :: es)). change (removelast (e :: e' :: es)) with (e :: removelast (e' :: es)).
    cbn [resolve]. destruct (i_type (dino n) =? T_DIR).
    + destruct (dir_find dv ct (dino n) e) as [[m off]|]; [apply IH|]. by destruct (last (e' :: es)).
    + by destruct (last (e' :: es)).
Qed.
End tree.

(** ** dirlookup *)

Section ops.
Context (E : kstate -> kstate -> Prop) `{HE : !DiskEnv E} (h p dv : nat) (sb : superblock) (s0 : kstate) (W : Z -> Prop).
Abbreviation view := (view E h p dv s0 W).
Abbreviation icache_ok := (icache_ok dv sb (p_pid (proc_at p s0))).
Abbreviation kst := (p_kstack (proc_at p s0)).
Context (Hkst : 0 <= kst /\ kst + 32 < 2 ^ 64) (Hstack : forall a, kst <= a < kst + 32 -> W a /\ buffer a /\ ~ scratch a) (Hsb : KState.sb (fs s0) = sb).
Implicit Types (s : kstate) (lg : gset bkey) (ct : disk) (ic : list inode) (rc : gmap bkey Z).

Lemma view_live s lg ct ic ip i : view s lg ct ic -> ic !! ip = Some i -> live sb ip s i.
Proof using Hsb.
  intros Hv Hk. split_and!.
  - rewrite (view_ic _ _ _ _ _ _ _ _ _ _ Hv). by eapply lookup_lt_Some.
  - by eapply view_at.
  - rewrite (view_sb _ _ _ _ _ _ _ _ _ _ Hv). done.
Qed.

Lemma run_stack_slot off s lg ct ic (Q : Z -> kstate -> Prop) : view s lg ct ic ->
  (forall s', view s' lg ct ic -> Q (kst + off) s') -> run (stack_slot off) s Q.
Proof.
  intros Hv HQ. unfold stack_slot. wp. eapply run_myproc'; [by eapply view_owns|]. intros y Hy. wp.
  pose proof (view_set_sy _ _ _ _ _ _ y _ _ _ _ Hv Hy) as Hv'.
  pose proof (f_equal p_kstack (view_core _ _ _ _ _ _ _ _ _ _ Hv')) as Hk. change (p_kstack (proc_core ?q)) with (p_kstack q) in Hk. rewrite Hk. by apply HQ.
Qed.

(** One entry is read into the stack slot at [d]. *)
Lemma runE_read_entry ip i d off s lg ct ic (Q : Z -> kstate -> Prop) : view s lg ct ic -> ic !! ip = Some i -> geom dv sb ct -> dir_ok dv sb ct i -> (size lg < 29)%nat ->
  (d = kst \/ d = kst + 16) -> 0 <= off -> off mod 16 = 0 -> off < i_size i ->
  (forall s', view s' lg ct ic -> (forall j, 0 <= j < 16 -> getb (mm s') (d + j) = fbyte dv ct i (off + j)) -> Q 16 s') ->
  runE E (readi ip false d off de_size) s Q.
Proof using Hkst Hstack Hsb.
  intros Hv Hk Hg [Hf Hh Hsz Hw] Hlg Hd Ho Hm Hlt HQ. assert (off + 16 <= i_size i).
  { pose proof (Z.div_mod off 16 ltac:(lia)). pose proof (Z.div_mod (i_size i) 16 ltac:(lia)). lia. }
  change de_size with 16. eapply (runE_readi E h p dv sb ip s lg ct i off 16 d); try done; try lia.
  - by eapply v_tx.
  - by eapply view_live.
  - intros a Ha. destruct (Hstack a) as (_ & ? & ?); [lia|]. done.
  - intros bn H1 H2. apply Hh; [|lia]. pose proof (Z.div_pos off BSIZE). lia.
  - intros s' (C & L & T & Hb). apply HQ.
    + rewrite <-(list_insert_id ic ip i Hk). eapply (view_calm E h p dv sb s0 W (fun a => d <= a < d + 16)); try done.
      intros a Ha. apply Hstack. lia.
    + intros j Hj. rewrite Hb by lia. f_equal. lia.
Qed.

(** What dirlookup returns for name [e]. *)
Definition looked_up (ct : disk) (i : inode) (e : list Z) (lg : gset bkey) (ic : list inode) (rc : gmap bkey Z) (lk : option nat) (r : option (nat * Z)) (s' : kstate) : Prop :=
  match dir_find dv ct i e with
  | Some (inum, off) => exists ip, r = Some (ip, off) /\ iget_post E h p dv sb s0 W dv inum lg ct ic rc lk ip s'
  | None => r = None /\ view s' lg ct ic
  end.

Lemma runE_dirlookup dp name i s lg ct ic rc lk (Q : option (nat * Z) -> kstate -> Prop) :
  view s lg ct ic -> icache_ok ct ic rc lk -> ic !! dp = Some i -> i_type i = T_DIR -> geom dv sb ct -> dir_ok dv sb ct i -> (size lg < 29)%nat -> (size rc < NINODE)%nat ->
  (forall r s', looked_up ct i (cname (get_bytes 14 name 0)) lg ic rc lk r s' -> Q r s') -> runE E (dirlookup dp name) s Q.
Proof using Hkst Hstack Hsb.
  intros Hv HI Hk Hty Hg Hdir Hlg Hrc HQ. unfold dirlookup. wp. rewrite (view_at _ _ _ _ _ _ _ _ _ _ _ _ Hv Hk), Hty, Z.eqb_refl. cbn [negb].
  set (e := cname _) in HQ. pose proof (do_size _ _ _ _ Hdir) as Hsz. pose proof (do_whole _ _ _ _ Hdir) as Hwh. pose proof (Z.div_mod (i_size i) 16 ltac:(lia)) as Hdm.
  wp. eapply run_runE, run_stack_slot; [exact Hv|]. intros s1 Hv1. rewrite Z.add_0_r. wp.
  eapply (runE_loop E _ (fun off s' => exists k, off = 16 * k /\ 0 <= k <= i_size i / 16 /\ view s' lg ct ic /\
      dir_find dv ct i e = find_ent e (drop (Z.to_nat k) (dents dv ct i)) off) (fun off _ => Z.to_nat ((i_size i - off) / 16))).
  - intros off s' (k & -> & Hkr & Hv' & Hf). wp. rewrite (view_at _ _ _ _ _ _ _ _ _ _ _ _ Hv' Hk). rewrite find_drop in Hf.
    destruct (Z.ltb_spec (16 * k) (i_size i)).
    + wp. rewrite lookup_dents in Hf by lia. eapply (runE_read_entry dp i kst (16 * k)); [exact Hv'|done..|by left|lia|by rewrite Z.mul_comm, Z.mod_mul|done|].
      intros s2 Hv2 Hb. change (negb (16 =? de_size)) with false. cbv iota. wp. rewrite (read_inum dv _ _ _ _ _ Hb).
      assert (Hnext : 16 * k + 16 = 16 * (k + 1)) by lia. assert (Hstep : (Z.to_nat ((i_size i - (16 * k + 16)) / 16) < Z.to_nat ((i_size i - 16 * k) / 16))%nat).
      { replace (i_size i - 16 * k) with (i_size i - (16 * k + 16) + 1 * 16) by lia. rewrite Z.div_add by lia.
        pose proof (Z.div_pos (i_size i - (16 * k + 16)) 16). lia. }
      assert (Hskip : dir_find dv ct i e = find_ent e (drop (S (Z.to_nat k)) (dents dv ct i)) (16 * k + 16) ->
        (exists k', 16 * k + de_size = 16 * k' /\ 0 <= k' <= i_size i / 16 /\ view s2 lg ct ic /\
          dir_find dv ct i e = find_ent e (drop (Z.to_nat k') (dents dv ct i)) (16 * k + de_size)) /\
        (Z.to_nat ((i_size i - (16 * k + de_size)) / 16) < Z.to_nat ((i_size i - 16 * k) / 16))%nat).
      { intros He. split; [|done]. exists (k + 1). split_and!; try done; try lia. by replace (Z.to_nat (k + 1)) with (S (Z.to_nat k)) by lia. }
      destruct (Z.eqb_spec (de_inum dv ct i (16 * k)) 0) as [Hz|Hz]; [wp; by apply Hskip|]. cbn [negb andb] in Hf.
      assert (Hcmp : (namecmp name (mm s2) (kst + 2) =? 0) = bool_decide (de_name dv ct i (16 * k) = e)).
      { apply eq_bool_prop_intro. rewrite Is_true_true, bool_decide_spec, Z.eqb_eq. unfold namecmp, CString.strncmp. rewrite strncmp_cname.
        change (Z.to_nat DIRSIZ) with 14%nat. rewrite (read_name dv _ _ _ _ _ Hb). fold e. done. }
      rewrite Hcmp. case_bool_decide; [|wp; by apply Hskip]. wp. rewrite (fo_dev _ _ _ _ (do_file _ _ _ _ Hdir)).
      eapply run_runE, (run_iget E h p dv sb s0 W); [exact Hv2|exact HI|by right|]. intros ip s3 Hp. wp. apply HQ. unfold looked_up. rewrite Hf. by exists ip.
    + wp. apply HQ. unfold looked_up. rewrite Hf, lookup_ge_None_2 by (rewrite length_dents; lia). done.
  - exists 0. split_and!; try done; try lia.
  - change de_size with 16. rewrite Z.sub_0_r. lia.
Qed.

(** ** dirlink *)

Section dirlink.
Context (dp : nat) (name : list Z) (inum : Z) (i : inode) (lg : gset bkey) (ct : disk) (ic : list inode) (rc : gmap bkey Z).
Abbreviation e := (cname (get_bytes 14 name 0)).
Abbreviation l := (dents dv ct i).
Context (HI : icache_ok ct ic rc (Some dp)) (Hk : ic !! dp = Some i) (Hty : i_type i = T_DIR) (Hg : geom dv sb ct) (Hdir : dir_ok dv sb ct i).
Context (Hlg : (size lg < 23)%nat) (Hrc : (size rc < NINODE)%nat).

(** The loop that looks for an unused entry. *)
Lemma runE_free_slot s (Q : Z -> kstate -> Prop) : view s lg ct ic -> (forall s', view s' lg ct ic -> Q (16 * Z.of_nat (free_ent l)) s') ->
  runE E (loop (S (S (Z.to_nat (i_size i / de_size)))) (fun off =>
        i <- gets (inode_at dp) ;;
        if off <? i_size i then
          r <- readi dp false (kst + 16) off de_size ;;
          if negb (r =? de_size) then panic "dirlink read" else
          m <- gets mm ;;
          if ld16 m (kst + 16) =? 0 then ret (inr off) else ret (inl (off + de_size))
        else ret (inr off)) 0) s Q.
Proof using All.
  intros Hv HQ. pose proof (do_size _ _ _ _ Hdir) as Hsz. pose proof (do_whole _ _ _ _ Hdir) as Hwh. pose proof (Z.div_mod (i_size i) 16 ltac:(lia)) as Hdm.
  pose proof (free_ent_le l) as Hfl. rewrite length_dents in Hfl.
  eapply (runE_loop E _ (fun off s' => exists k, off = 16 * k /\ 0 <= k <= Z.of_nat (free_ent l) /\ view s' lg ct ic) (fun off _ => Z.to_nat ((i_size i - off) / 16))).
  - intros off s' (k & -> & Hkr & Hv'). wp. rewrite (view_at _ _ _ _ _ _ _ _ _ _ _ _ Hv' Hk). destruct (Z.ltb_spec (16 * k) (i_size i)).
    + wp. eapply (runE_read_entry dp i (kst + 16) (16 * k)); [exact Hv'|done|done|done|lia|by right|lia|by rewrite Z.mul_comm, Z.mod_mul|done|].
      intros s2 Hv2 Hb. change (negb (16 =? de_size)) with false. cbv iota. wp. rewrite (read_inum dv _ _ _ _ _ Hb). pose proof (lookup_dents dv ct i k ltac:(lia)) as Hlk.
      destruct (Z.eqb_spec (de_inum dv ct i (16 * k)) 0) as [Hz|Hz]; wp.
      * assert (k = Z.of_nat (free_ent l)) as ->; [|by apply HQ]. destruct (decide (Z.to_nat k < free_ent l)%nat); [|lia]. by eapply free_ent_used in Hlk.
      * split; [|replace (i_size i - 16 * k) with (i_size i - (16 * k + 16) + 1 * 16) by lia; rewrite Z.div_add by lia; pose proof (Z.div_pos (i_size i - (16 * k + 16)) 16); change de_size with 16; lia].
        exists (k + 1). split_and!; [change de_size with 16; lia|lia| |done]. destruct (decide (k = Z.of_nat (free_ent l))) as [->|]; [|lia].
        rewrite Nat2Z.id in Hlk. by apply free_ent_free in Hlk.
    + wp. assert (k = Z.of_nat (free_ent l)) as -> by lia. by apply HQ.
  - exists 0. split_and!; try done; lia.
  - change de_size with 16. rewrite Z.sub_0_r. lia.
Qed.

(** The entry on the stack. *)
Lemma entry_in_memory (m : mem) : 0 <= inum < 2 ^ 16 ->
  let m' := st16 (CString.strncpy m name (kst + 16 + 2) 0 DIRSIZ) (kst + 16) inum in
  ld16 m' (kst + 16) = inum /\ cname (get_bytes 14 m' (kst + 16 + 2)) = e /\ forall a, ~ kst + 16 <= a < kst + 32 -> getb m' a = getb m a.
Proof using All.
  intros Hi m'. destruct (strncpy_spec 14 m name (kst + 16 + 2) 0 (Kalloc.valid_mem _ _ _)) as [H1 H2]. change (CString.strncpy_loop 14 m name (kst + 16 + 2) 0) with (CString.strncpy m name (kst + 16 + 2) 0 DIRSIZ) in *.
  unfold m', st16, ld16. split_and!.
  - rewrite ldn_stn_eq by done. apply Z.mod_small. lia.
  - rewrite <-H1. f_equal. apply get_bytes_ext. intros j Hj. apply getb_stn_ne. lia.
  - intros a Ha. rewrite getb_stn_ne by lia. apply H2. lia.
Qed.

(** What a successful dirlink leaves. *)
Record linked (s' : kstate) (lg' : gset bkey) (ct' : disk) (i' : inode) : Prop := {
  lk_view : view s' lg' ct' (<[dp := i']> ic);
  lk_cache : icache_ok ct' (<[dp := i']> ic) rc (Some dp);
  lk_geom : geom dv sb ct';
  lk_dir : dir_ok dv sb ct' i';
  lk_ents : dents dv ct' i' = add_ent (inum, e) l;
  lk_inode : exists al z, i' = set_i_size z (set_i_addrs al i);
  lk_others : others dv sb ct ct' i i';
  lk_inodes : forall j, i_inum j <> i_inum i -> iplace sb (i_inum j) -> on_disk dv sb ct j -> on_disk dv sb ct' j;
  lk_grows : grows dv sb lg lg';
  lk_logged : lg' <> ∅;
  lk_log : (size lg' <= size lg + 7)%nat
}.

Context (Hinum : 0 <= inum < 2 ^ 16) (Hfree : (2 <= nfree dv sb ct)%nat) (Hpl : iplace sb (i_inum i)) (Hfit : dinode_fits i) (Hroom : i_size i + 16 <= MAXFILE * BSIZE).
Context (Hrcp : forall m, is_Some (rc !! (dv, m)) -> iplace sb m).

Lemma linked_intro s s1 s' lg' ct' i' : let off := 16 * Z.of_nat (free_ent l) in
  s1 = set_mm (st16 (CString.strncpy (mm s) name (kst + 16 + 2) 0 DIRSIZ) (kst + 16) inum) s -> view s1 lg ct ic ->
  written E h p dv sb dp s1 lg ct i off 16 (kst + 16) s' lg' ct' i' -> linked s' lg' ct' i'.
Proof using All.
  intros off Hs1 Hv1 Wr. destruct (entry_in_memory (mm s) Hinum) as (M1 & M2 & _). pose proof (do_size _ _ _ _ Hdir). pose proof (do_whole _ _ _ _ Hdir).
  pose proof (free_ent_le l) as Hfl. rewrite length_dents in Hfl. pose proof (Z.div_mod (i_size i) 16 ltac:(lia)).
  assert (Ho : 0 <= off <= i_size i) by (unfold off; lia). pose proof (written_no_holes E h p dv sb dp _ _ _ _ _ _ _ _ _ _ _ Wr Ho ltac:(lia) ltac:(lia) (do_holes _ _ _ _ Hdir)) as Hh'.
  pose proof Wr as [C L T G O (al & Hi') Dk W1 P1 K1 N1 Hl1 B1 J1]. assert (Hs' : i_size i' = Z.max (i_size i) (off + 16)) by by subst i'.
  assert (Hbe : forall x, 0 <= x < i_size i' -> ~ off <= x < off + 16 -> fbyte dv ct' i' x = fbyte dv ct i x).
  { intros x Hx Hn. rewrite B1; [by rewrite bool_decide_false|lia|apply Z.div_lt_upper_bound; lia]. }
  assert (Hbn : forall j, 0 <= j < 16 -> getb (mm s1) (kst + 16 + j) = fbyte dv ct' i' (off + j)).
  { intros j Hj. rewrite B1 by (lia || apply Z.div_lt_upper_bound; lia). rewrite bool_decide_true by lia. f_equal. lia. }
  assert (Hw : i_size i' mod 16 = 0).
  { rewrite Hs'. destruct (Z.max_spec (i_size i) (off + 16)) as [[_ ->]|[_ ->]]; [|done]. unfold off. replace (16 * _ + 16) with ((Z.of_nat (free_ent l) + 1) * 16) by lia. by apply Z.mod_mul. }
  destruct (ic_held _ _ _ _ _ _ _ HI dp i Hk eq_refl) as (Hlock & Hval & Hp). split; try done.
  - eapply (view_calm E h p dv sb s0 W (fun _ => False)); [exact Hv1|exact C|done|exact L|exact T].
  - apply (icache_disk dv sb (p_pid (proc_at p s0)) ct ct' ic rc (Some dp) dp i i'); try done; try (by subst i').
    + intros j Hj Hr Hd. apply J1; [done|by apply Hrcp|done].
    + by eapply (fo_dev _ _ _ _ (do_file _ _ _ _ Hdir)).
  - split; [done|done|lia|done].
  - rewrite (dents_written dv ct ct' i i') by (done || lia). fold off. rewrite <-(read_inum dv (mm s1) (kst + 16) ct' i' off Hbn), <-(read_name dv (mm s1) (kst + 16) ct' i' off Hbn).
    rewrite Hs1. cbn [mm set_mm]. by rewrite M1, M2.
  - by eexists _, _.
  - unfold off in Hl1. rewrite pieces_entry in Hl1 by lia. lia.
Qed.

(** A name that is there already: -1, and nothing has changed. *)
Definition refused (s' : kstate) : Prop := exists ic', view s' lg ct ic' /\ icache_ok ct ic' rc (Some dp) /\ forall k m, slot ic k m -> slot ic' k m.

Lemma run_drop_found ip m s (Q : unit -> kstate -> Prop) : i_nlink (dino dv sb ct m) <> 0 -> iget_post E h p dv sb s0 W dv m lg ct ic rc (Some dp) ip s ->
  (forall s', refused s' -> Q tt s') -> run (iput ip) s Q.
Proof using HI Hk.
  intros Hm (ic1 & V1 & I1 & S1 & K1) HQ. pose proof (icache_nonneg _ _ _ _ _ _ _ (dv, m) HI) as Hnn.
  assert (Hkeep : forall k n, slot ic k n -> n <> (dv, m) \/ 1 < default 0 (addref (dv, m) 1 rc !! (dv, m))).
  { intros k n (j & Hj & <- & Hp). destruct (decide (ik j = (dv, m))) as [E0|]; [right|by left]. rewrite lookup_addref, decide_True by done.
    rewrite <-E0, (ic_rc _ _ _ _ _ _ _ HI _ _ Hj Hp). cbn. clear -Hp. lia. }
  eapply (run_iput E h p dv sb s0 W ip m); [exact V1|exact I1|exact S1| |done|].
  - destruct (decide (dp = ip)) as [<-|Hne]; [right|left; congruence]. destruct (ic_held _ _ _ _ _ _ _ HI dp i Hk eq_refl) as (_ & _ & Hp).
    destruct (Hkeep dp (dv, m)) as [?|?]; [|done|done]. destruct (K1 dp (ik i)) as (j1 & H1 & H2 & _); [by exists i|].
    destruct S1 as (j2 & H3 & H4 & _). exists i. split_and!; [done|congruence|done].
  - intros s' (ic2 & V2 & I2 & K2). rewrite addref_drop in I2 by by eapply icache_counts. apply HQ. exists ic2. split_and!; try done.
    intros k n Hn. apply K2; [by apply K1|by eapply Hkeep].
Qed.

Lemma runE_dirlink_found m off s (Q : Z -> kstate -> Prop) : view s lg ct ic -> dir_find dv ct i e = Some (m, off) -> i_nlink (dino dv sb ct m) <> 0 ->
  (forall s', refused s' -> Q (-1) s') -> runE E (dirlink dp name inum) s Q.
Proof using Hkst Hstack Hsb HI Hk Hty Hg Hdir Hlg Hrc.
  intros Hv Hf Hnl HQ. unfold dirlink. wp. eapply (runE_dirlookup dp name i); [exact Hv|exact HI|done..|clear -Hlg; lia|done|]. intros r s1 Hr. unfold looked_up in Hr. rewrite Hf in Hr.
  destruct Hr as (ip & -> & Hp). wp. eapply run_runE, (run_drop_found ip m); [done|exact Hp|]. intros s2 H2. wp. by apply HQ.
Qed.

Context (Hnl : forall m off, dir_find dv ct i e = Some (m, off) -> i_nlink (dino dv sb ct m) <> 0).

Lemma runE_dirlink s (Q : Z -> kstate -> Prop) : view s lg ct ic ->
  (forall r s', match dir_find dv ct i e with
     | Some _ => r = -1 /\ refused s'
     | None => r = 0 /\ exists lg' ct' i', linked s' lg' ct' i'
     end -> Q r s') -> runE E (dirlink dp name inum) s Q.
Proof using All.
  intros Hv HQ. unfold dirlink. wp. eapply (runE_dirlookup dp name i); [exact Hv|exact HI|done..|lia|done|]. intros r s1 Hr. unfold looked_up in Hr.
  assert (Hcase : (exists m off, dir_find dv ct i e = Some (m, off)) \/ dir_find dv ct i e = None) by (clear; destruct (dir_find dv ct i e) as [[m off]|]; [left; by exists m, off|by right]).
  destruct Hcase as [(m & off & Hf)|Hf]; rewrite Hf in Hr, HQ.
  - destruct Hr as (ip & -> & Hp). wp. eapply run_runE, (run_drop_found ip m); [by eapply Hnl|exact Hp|]. intros s2 H2. wp. by apply HQ.
  - destruct Hr as [-> Hv1]. wp. eapply run_runE, run_stack_slot; [exact Hv1|]. intros s2 Hv2. wp. rewrite (view_at _ _ _ _ _ _ _ _ _ _ _ _ Hv2 Hk).
    eapply runE_free_slot; [exact Hv2|]. intros s3 Hv3. set (off := 16 * Z.of_nat (free_ent l)). wp. cbn [mm set_mm].
    destruct (entry_in_memory (mm s3) Hinum) as (_ & _ & M3). set (s4 := set_mm _ (set_mm _ s3)).
    assert (Hs4 : s4 = set_mm (st16 (CString.strncpy (mm s3) name (kst + 16 + 2) 0 DIRSIZ) (kst + 16) inum) s3) by done.
    assert (Hv4 : view s4 lg ct ic).
    { rewrite Hs4. apply view_set_mm; [done|]. intros a Ha. destruct (decide (kst + 16 <= a < kst + 32)) as [Hr|Hr]; [|by rewrite M3 in Ha].
      destruct (Hstack a ltac:(lia)) as (? & ? & _). done. }
    pose proof (do_size _ _ _ _ Hdir). pose proof (do_whole _ _ _ _ Hdir).
    pose proof (free_ent_le l) as Hfl. rewrite length_dents in Hfl. pose proof (Z.div_mod (i_size i) 16 ltac:(lia)). assert (Ho : 0 <= off <= i_size i) by (unfold off; lia).
    change de_size with 16. eapply (runE_writei E h p dv sb dp s4 lg ct i off 16 (kst + 16)); try done; try lia.
    + by eapply v_tx.
    + by eapply view_live.
    + by apply Hdir.
    + intros a Ha. apply Hstack. lia.
    + unfold off. rewrite pieces_entry by lia. lia.
    + unfold off. rewrite pieces_entry by lia. lia.
    + intros s' lg' ct' i' Wr. wp. apply HQ. split; [done|]. exists lg', ct', i'. by eapply (linked_intro s3 s4).
Qed.
End dirlink.

(** ** namex *)

Section namex.
Context (ct : disk) (D : Z -> Prop) (lg : gset bkey) (ic : list inode) (rc : gmap bkey Z).
Context (Hg : geom dv sb ct) (HT : tree dv sb ct D) (Hlg : (size lg < 29)%nat) (Hrc : (size rc + 1 < NINODE)%nat) (HI : icache_ok ct ic rc None).
Abbreviation dino := (dino dv sb ct).

(** One reference more on inode [n], in entry [ip]; or the references the
    call began with. *)
Definition at_node (ip : nat) (n : Z) (s : kstate) : Prop := iget_post E h p dv sb s0 W dv n lg ct ic rc None ip s.
Definition let_go (s : kstate) : Prop := exists ic', view s lg ct ic' /\ icache_ok ct ic' rc None /\ forall k m, slot ic k m -> slot ic' k m.

(** The same with entry [ip] locked. *)
Definition locked_at (ip : nat) (n : Z) (i : inode) (s : kstate) : Prop := exists ic', view s lg ct ic' /\ icache_ok ct ic' (addref (dv, n) 1 rc) (Some ip) /\
  slot ic' ip (dv, n) /\ ic' !! ip = Some i /\ dfields i = dfields (dino n) /\ i_dev i = dv /\ forall k m, slot ic k m -> slot ic' k m.

Lemma runE_lock_node ip n s (Q : unit -> kstate -> Prop) : D n -> at_node ip n s -> (forall s' i, locked_at ip n i s' -> Q tt s') -> runE E (ilock ip) s Q.
Proof using All.
  intros Hn (ic1 & V1 & I1 & S1 & K1) HQ. destruct (tr_node _ _ _ _ HT n Hn) as [N1 _ N2 N3 _ N4].
  eapply (runE_ilock E h p dv sb s0 W ip n); [exact V1|exact I1|exact S1|done..|lia|]. intros s' (ic2 & V2 & I2 & K2).
  pose proof (K2 _ _ S1) as (i & Hk & Hi & Hp). injection Hi as Hd Hin. apply (HQ s' i). exists ic2. split_and!; try done.
  - exists i. split_and!; try done. unfold ik. congruence.
  - rewrite <-Hin. apply on_disk_dino. eapply (ic_valid _ _ _ _ _ _ _ I2); try done. by eapply (ic_held _ _ _ _ _ _ _ I2).
  - intros k m Hm. by apply K2, K1.
Qed.

Lemma run_iunlockput ip n s ic2 rc2 (Q : unit -> kstate -> Prop) : D n -> view s lg ct ic2 -> icache_ok ct ic2 rc2 (Some ip) -> slot ic2 ip (dv, n) ->
  (forall s', iput_post E h p dv sb s0 W (dv, n) lg ct ic2 rc2 None s' -> Q tt s') -> run (iunlockput ip) s Q.
Proof using All.
  intros Hn V I S HQ. pose proof (nd_nlink _ _ _ _ (tr_node _ _ _ _ HT n Hn)) as N3. unfold iunlockput. wp. pose proof S as (i & Hk & _).
  eapply (run_iunlock E h p dv sb s0 W); [exact V|exact I|rewrite <-(ic_len _ _ _ _ _ _ _ I); by eapply lookup_lt_Some|]. intros s1 ic3 V3 I3 K3.
  eapply (run_iput E h p dv sb s0 W ip n); [exact V3|exact I3|by apply K3|by left|done|]. intros s2 (ic4 & V4 & I4 & K4). apply HQ. exists ic4.
  split_and!; try done. intros k m Hm. by apply K4, K3.
Qed.

(** A reference that was there before the call stays. *)
Lemma kept k m n d : slot ic k m -> 1 <= d -> m <> n \/ 1 < default 0 (rc !! n) + d.
Proof using All.
  intros (i & Hk & <- & Hp) Hd. destruct (decide (ik i = n)) as [<-|]; [right|by left]. rewrite (ic_rc _ _ _ _ _ _ _ HI _ _ Hk Hp). cbn. lia.
Qed.

Lemma run_drop_node ip n i s (Q : unit -> kstate -> Prop) : D n -> locked_at ip n i s -> (forall s', let_go s' -> Q tt s') -> run (iunlockput ip) s Q.
Proof using All.
  intros Hn (ic1 & V1 & I1 & S1 & _ & _ & _ & K1) HQ. eapply run_iunlockput; [exact Hn|exact V1|exact I1|exact S1|].
  intros s' (ic2 & V2 & I2 & K2). rewrite addref_drop in I2 by by eapply icache_counts. apply HQ. exists ic2. split_and!; try done.
  intros k m Hm. apply K2; [by apply K1|]. rewrite lookup_addref, decide_True by done. by apply (kept k).
Qed.

Lemma run_put_node ip n s (Q : unit -> kstate -> Prop) : D n -> at_node ip n s -> (forall s', let_go s' -> Q tt s') -> run (iput ip) s Q.
Proof using All.
  intros Hn (ic1 & V1 & I1 & S1 & K1) HQ. pose proof (nd_nlink _ _ _ _ (tr_node _ _ _ _ HT n Hn)) as N3. eapply (run_iput E h p dv sb s0 W ip n); [exact V1|exact I1|exact S1|by left|done|].
  intros s' (ic2 & V2 & I2 & K2). rewrite addref_drop in I2 by by eapply icache_counts. apply HQ. exists ic2. split_and!; try done.
  intros k m Hm. apply K2; [by apply K1|]. rewrite lookup_addref, decide_True by done. by apply (kept k).
Qed.

Lemma run_unlock_node ip n i s (Q : unit -> kstate -> Prop) : locked_at ip n i s -> (forall s', at_node ip n s' -> Q tt s') -> run (iunlock ip) s Q.
Proof using All.
  intros (ic1 & V1 & I1 & S1 & Hk & _ & _ & K1) HQ. eapply (run_iunlock E h p dv sb s0 W); [exact V1|exact I1|rewrite <-(ic_len _ _ _ _ _ _ _ I1); by eapply lookup_lt_Some|].
  intros s' ic2 V2 I2 K2. apply HQ. exists ic2. split_and!; try done; [by apply K2|]. intros k m Hm. by apply K2, K1.
Qed.

(** From a directory to the inode of one of its entries. *)
Lemma runE_descend ip n i name s (Q : option (nat * Z) -> kstate -> Prop) : D n -> i_type (dino n) = T_DIR -> locked_at ip n i s ->
  (forall r s', match dir_find dv ct (dino n) (cname (get_bytes 14 name 0)) with
     | Some (m, off) => exists ip', r = Some (ip', off) /\ runE E (iunlockput ip) s' (fun _ s2 => at_node ip' m s2)
     | None => r = None /\ runE E (iunlockput ip) s' (fun _ s2 => let_go s2)
     end -> Q r s') -> runE E (dirlookup ip name) s Q.
Proof using All.
  intros Hn Hty Hlk HQ. pose proof Hlk as (ic1 & V1 & I1 & S1 & Hk & Hdf & Hdev & K1). pose proof (nd_dir _ _ _ _ (tr_node _ _ _ _ HT n Hn)) as N4.
  pose proof (dfields_eq _ _ Hdf) as (Ht & _ & Hs & Ha). pose proof (size_addref (dv, n) 1 rc).
  eapply (runE_dirlookup ip name i); [exact V1|exact I1|exact Hk|congruence|done|eapply dir_ok_same; [| | |by apply N4]; done|done|lia|].
  intros r s' Hr. apply HQ. unfold looked_up, dir_find in Hr. rewrite (dents_same dv ct (dino n) i) in Hr by done.
  fold (dir_find dv ct (dino n) (cname (get_bytes 14 name 0))) in Hr. destruct (dir_find _ _ _ _) as [[m off]|] eqn:Hf.
  - destruct Hr as (ip' & -> & ic2 & V2 & I2 & S2 & K2). exists ip'. split; [done|]. apply run_runE.
    eapply run_iunlockput; [exact Hn|exact V2|exact I2|by apply K2|]. intros s2 (ic3 & V3 & I3 & K3). rewrite addref_move in I3 by by eapply icache_counts.
    exists ic3. split_and!; try done.
    + apply K3; [done|]. rewrite !lookup_addref. destruct (decide (m = n)) as [->|]; [right|left; congruence]. rewrite !decide_True by done. pose proof (icache_nonneg _ _ _ _ _ _ _ (dv, n) HI). lia.
    + intros k m' Hm. apply K3; [by apply K2, K1|]. rewrite !lookup_addref, (decide_True (P := (dv, n) = (dv, n))) by done. rewrite <-Z.add_assoc. apply (kept k); [done|]. case_decide; lia.
  - destruct Hr as [-> V2]. split; [done|]. apply run_runE. eapply (run_drop_node ip n i); [done| |done]. exists ic1. split_and!; done.
Qed.

(** Where a path starts. *)
Definition start_at (path : list Z) (n : Z) : Prop :=
  if starts_with_slash path then dv = ROOTDEV /\ n = ROOTINO else exists c, p_cwd (proc_at p s0) = Some c /\ slot ic c (dv, n).

(** What namex returns for elements [es] from inode [n]. *)
Definition named (parent : bool) (n : Z) (es : list (list Z)) (r : option (nat * list Z)) (s' : kstate) : Prop :=
  match walk dv sb ct parent n es with
  | Some (m, e) => exists ip name, r = Some (ip, name) /\ at_node ip m s' /\ forall e', e = Some e' -> cname (get_bytes 14 name 0) = e'
  | None => r = None /\ let_go s'
  end.

Lemma runE_start path n s (Q : nat -> kstate -> Prop) : view s lg ct ic -> start_at path n -> (forall ip s', at_node ip n s' -> Q ip s') ->
  runE E (if starts_with_slash path then iget ROOTDEV ROOTINO
         else p <- myproc' ;; cwd <- gets (fun s => p_cwd (proc_at p s)) ;; match cwd with Some c => idup c | None => stuck "null cwd" end) s Q.
Proof using All.
  intros Hv Hst HQ. unfold start_at in Hst. destruct (starts_with_slash path).
  - destruct Hst as [Hd ->]. eapply run_runE, (run_iget E h p dv sb s0 W); [exact Hv|exact HI|right; lia|]. intros ip s' Hp. apply HQ. unfold at_node. by rewrite Hd in Hp |- * .
  - destruct Hst as (c & Hc & Hs). wp. eapply run_runE, run_myproc'; [by eapply view_owns|]. intros y Hy. wp. pose proof (view_set_sy _ _ _ _ _ _ y _ _ _ _ Hv Hy) as Hv'.
    pose proof (f_equal p_cwd (view_core _ _ _ _ _ _ _ _ _ _ Hv')) as Hk. change (p_cwd (proc_core ?q)) with (p_cwd q) in Hk. rewrite Hk, Hc.
    eapply run_runE, (run_idup E h p dv sb s0 W c dv n); [exact Hv'|exact HI|done|]. intros s' Hp. by apply HQ.
Qed.

Lemma runE_namex parent path n s (Q : option (nat * list Z) -> kstate -> Prop) : view s lg ct ic -> start_at path n -> D n -> Forall is_char path ->
  (forall r s', named parent n (elements path) r s' -> Q r s') -> runE E (namex path parent) s Q.
Proof using All.
  intros Hv Hst Hn Hch HQ. unfold namex. apply runE_bind. eapply runE_start; [exact Hv|exact Hst|]. intros ip0 s1 H0.
  eapply (runE_loop E _ (fun '(ip, path', name) s' => exists m, D m /\ at_node ip m s' /\ length name = 14%nat /\ Forall is_char path' /\
      walk dv sb ct parent m (elements path') = walk dv sb ct parent n (elements path)) (fun '(_, path', _) _ => length path')); [|by exists n|lia].
  intros [[ip path'] name] s' (m & Hm & Ha & Hl & Hp & Hw). pose proof (skipelem_spec path' name Hl Hp) as Hsk. unfold named in HQ. rewrite <-Hw in HQ.
  destruct (elements path') as [|e es].
  - rewrite Hsk. cbn [walk] in HQ. destruct parent.
    + wp. eapply run_runE, (run_put_node ip m); [done..|]. intros s2 H2. wp. by apply HQ.
    + wp. apply HQ. by exists ip, name.
  - destruct Hsk as (p' & name' & -> & Hes & Hnm & Hl' & Hp' & Hnil & Hlen). wp. eapply (runE_lock_node ip m); [done..|]. intros s2 i Hlk.
    pose proof Hlk as (ic2 & V2 & _ & _ & Hk & Hdf & _). pose proof (dfields_eq _ _ Hdf) as (Hty & _). wp. rewrite (view_at _ _ _ _ _ _ _ _ _ _ _ _ V2 Hk), Hty.
    cbn [walk] in HQ, Hw. destruct (Z.eqb_spec (i_type (dino m)) T_DIR) as [Hd|Hd]; cbn [negb].
    2: { wp. eapply run_runE, (run_drop_node ip m i); [done..|]. intros s3 H3. wp. by apply HQ. }
    rewrite (bool_decide_ext (p' = []) (es = [])) by done. destruct (parent && bool_decide (es = [])).
    + wp. eapply run_runE, (run_unlock_node ip m i); [done..|]. intros s3 H3. wp. apply HQ. exists ip, name'. split_and!; [done|done|]. by intros e' [= <-].
    + wp. eapply (runE_descend ip m i name'); [done..|]. intros r s3 Hr. rewrite Hnm in Hr. pose proof (tr_closed _ _ _ _ HT m) as Hcl.
      destruct (dir_find dv ct (dino m) e) as [[m' off]|] eqn:Hf.
      * destruct Hr as (ip' & -> & Hr). wp. eapply runE_mono; [exact Hr|]. intros [] s4 H4. wp. split; [|done]. exists m'. split_and!; try done; [by eapply Hcl|by rewrite Hes].
      * destruct Hr as (-> & Hr). wp. eapply runE_mono; [exact Hr|]. intros [] s4 H4. wp. by apply HQ.
Qed.
End namex.
End ops.

End DirProof.
