(* ===== verification/Tree.v ===== *)
(** * The tree of inodes under changes of one inode

    An operation on one inode of the tree ([tree] of DirProof) leaves the
    other inodes, their bytes and their directory entries alone, and keeps
    the tree well formed.  Names that could be resolved before still can. *)

From S2P Require Import Prelude Bytes CString KState Spinlock Kernel Riscv Kalloc Vm Sched Console Virtio Disk Bio Cache Log Commit Transaction Fs Tx Balloc Dinode Inode FileIO Atomic Icache Dir DirProof.

Module Tree.
Import Sched Virtio Disk Bio Cache Log Commit Transaction Fs Tx Balloc Dinode Inode FileIO Atomic Icache Dir DirProof.

Section same.
Context (dv : nat) (sb : superblock) (ct : disk).

Lemma file_ok_same i j : i_dev j = i_dev i -> i_addrs j = i_addrs i -> file_ok dv sb ct i -> file_ok dv sb ct j.
Proof.
  intros Hd Ha [F1 F2 F3 F4 F5]. assert (Hf : forall bn, fblk dv ct j bn = fblk dv ct i bn) by (intros bn; unfold fblk, ind; by rewrite Ha).
  assert (Hi : ind j = ind i) by (unfold ind; by rewrite Ha). split; [congruence|congruence|..].
  - intros bn Hb. rewrite Hf, Hi. by apply F3.
  - rewrite Hi. done.
  - intros bn bn' Hb Hb'. rewrite !Hf. by apply F5.
Qed.

Lemma blk_of_same i j a : i_addrs j = i_addrs i -> blk_of dv ct j a <-> blk_of dv ct i a.
Proof. intros Ha. unfold blk_of, fblk, ind. by rewrite Ha. Qed.

Lemma dino_on_disk n : geom dv sb ct -> iplace sb n -> on_disk dv sb ct (dino dv sb ct n).
Proof.
  intros Hg Hp. destruct (IBLOCK_eq dv sb ct _ Hg Hp) as (_ & Hri & Hbe). pose proof (g_ino _ _ _ Hg). pose proof (g_bmap _ _ _ Hg).
  destruct (g_blocks _ _ _ Hg (IBLOCK n sb) ltac:(lia)) as (d & Hd & Hlen). exists d. split_and!; [done|done|]. unfold dino. by rewrite Hd.
Qed.
End same.

(** The bytes of a file, as far as a file can be long. *)
Definition same_bytes (dv : nat) (ct ct' : disk) (i i' : inode) : Prop := forall x, 0 <= x -> x / BSIZE < MAXFILE -> fbyte dv ct' i' x = fbyte dv ct i x.

Lemma dents_bytes dv ct ct' i i' : i_size i' = i_size i -> i_size i <= MAXFILE * BSIZE -> same_bytes dv ct ct' i i' -> dents dv ct' i' = dents dv ct i.
Proof.
  intros Hs Hm Hb. unfold dents. rewrite Hs. apply list_fmap_ext. intros k x [-> Hk]%lookup_seqZ.
  assert (Hx : forall y, 16 * (0 + Z.of_nat k) <= y < 16 * (0 + Z.of_nat k) + 16 -> fbyte dv ct' i' y = fbyte dv ct i y).
  { intros y Hy. apply Hb; [lia|]. pose proof (Z.mul_div_le (i_size i) 16 ltac:(lia)). apply Z.div_lt_upper_bound; lia. }
  rewrite (de_inum_ext dv ct ct' i i'), (de_name_ext dv ct ct' i i') by done. reflexivity.
Qed.

Section step.
Context (dv : nat) (sb : superblock) (ct ct' : disk) (D : Z -> Prop) (n : Z) (i i' : inode).
Abbreviation dino := (dino dv sb ct).
Abbreviation dino' := (Icache.dino dv sb ct').
Context (HT : tree dv sb ct D) (Hn : D n) (Hg : geom dv sb ct) (Hg' : geom dv sb ct').

(** The old and the new inode [n], and what happened to the others. *)
Record changes : Prop := {
  ch_old : on_disk dv sb ct i /\ i_inum i = n;
  ch_new : on_disk dv sb ct' i' /\ i_inum i' = n /\ i_dev i' = dv;
  ch_type : i_type i' = i_type i;
  ch_nlink : i_nlink i' <> 0;
  ch_file : file_ok dv sb ct' i';
  ch_dir : i_type i = T_DIR -> dir_ok dv sb ct' i' /\ forall e m off, dir_find dv ct' i' e = Some (m, off) -> D m;
  ch_others : others dv sb ct ct' i i';
  ch_inodes : forall j, i_inum j <> n -> iplace sb (i_inum j) -> on_disk dv sb ct j -> on_disk dv sb ct' j
}.
Context (Hch : changes).

Lemma changed_fields : dfields i = dfields (dino n) /\ dfields i' = dfields (dino' n).
Proof using All.
  destruct (ch_old Hch) as [H1 E1]. destruct (ch_new Hch) as (H2 & H3 & _).
  split; [rewrite <-E1|rewrite <-H3]; by apply on_disk_dino.
Qed.

Lemma other_fields m : D m -> m <> n -> dfields (dino' m) = dfields (dino m).
Proof using All.
  intros Hm Hne. pose proof (nd_place _ _ _ _ (tr_node _ _ _ _ HT m Hm)) as Hp. symmetry. apply (on_disk_dino dv sb ct' (dino m)).
  apply (ch_inodes Hch); [done|done|]. by apply dino_on_disk.
Qed.

(** Another file has the same blocks and bytes. *)
Lemma other_kept m : D m -> m <> n -> file_ok dv sb ct' (dino m) /\ (forall bn, 0 <= bn < MAXFILE -> fblk dv ct' (dino m) bn = fblk dv ct (dino m) bn) /\
  same_bytes dv ct ct' (dino m) (dino m) /\ forall a, a <> 0 -> blk_of dv ct' (dino m) a -> ~ blk_of dv ct' i' a.
Proof using All.
  intros Hm Hne. destruct changed_fields as [(_ & _ & _ & Ha)%dfields_eq _].
  apply (others_file dv sb ct ct' i i' (dino m)); [apply (ch_others Hch)|by eapply nd_file, tr_node|].
  intros a Ha0 Hb. rewrite (blk_of_same dv ct (dino n) i a Ha). by apply (tr_disjoint _ _ _ _ HT m n).
Qed.

Lemma other_bytes m : D m -> m <> n -> same_bytes dv ct ct' (dino m) (dino' m).
Proof using All.
  intros Hm Hne x H1 H2. destruct (dfields_eq _ _ (other_fields m Hm Hne)) as (_ & _ & _ & Ha). rewrite (fbyte_same dv ct' (dino m) (dino' m)) by done.
  destruct (other_kept m Hm Hne) as (_ & _ & Hb & _). by apply Hb.
Qed.

Lemma other_dents m : D m -> m <> n -> i_type (dino m) = T_DIR -> dents dv ct' (dino' m) = dents dv ct (dino m).
Proof using All.
  intros Hm Hne Hd. destruct (dfields_eq _ _ (other_fields m Hm Hne)) as (_ & _ & Hs & _). apply dents_bytes; [done| |by apply other_bytes].
  pose proof (do_size _ _ _ _ (nd_dir _ _ _ _ (tr_node _ _ _ _ HT m Hm) Hd)). lia.
Qed.

Lemma changed_node m : D m -> node_ok dv sb ct' m.
Proof using All.
  intros Hm. destruct (tr_node _ _ _ _ HT m Hm) as [N1 N2 N3 N4 N5 N6]. destruct (decide (m = n)) as [->|Hne].
  - destruct changed_fields as [(T1 & L1 & S1 & A1)%dfields_eq (T2 & L2 & S2 & A2)%dfields_eq]. pose proof (ch_type Hch). pose proof (ch_nlink Hch). destruct (ch_new Hch) as (_ & _ & Hdev).
    split; [done|done|congruence|congruence| |].
    + eapply (file_ok_same dv sb ct' i'); [done|done|apply (ch_file Hch)].
    + intros Hd. eapply (dir_ok_same dv sb ct' i'); [done|done|done|]. apply (ch_dir Hch). congruence.
  - destruct (dfields_eq _ _ (other_fields m Hm Hne)) as (Ht & Hl & Hs & Ha). destruct (other_kept m Hm Hne) as (F1 & F2 & F3 & _).
    assert (Hf : file_ok dv sb ct' (dino' m)) by (eapply (file_ok_same dv sb ct' (dino m)); done).
    split; [done|done|congruence|congruence|done|]. intros Hd. rewrite Ht in Hd. destruct (N6 Hd) as [D1 D2 D3 D4]. split; [done| |by rewrite Hs|by rewrite Hs].
    intros b Hb Hlt. rewrite Hs in Hlt. assert (fblk dv ct' (dino' m) b = fblk dv ct' (dino m) b) as -> by (unfold fblk, ind; by rewrite Ha). rewrite F2 by lia. by apply D2.
Qed.

Lemma other_blocks m a : D m -> m <> n -> blk_of dv ct' (dino' m) a -> blk_of dv ct (dino m) a.
Proof using All.
  intros Hm Hne. destruct (dfields_eq _ _ (other_fields m Hm Hne)) as (_ & _ & _ & Ha). rewrite (blk_of_same dv ct' (dino m) (dino' m)) by done.
  destruct (other_kept m Hm Hne) as (_ & F2 & _). intros [->|(bn & Hb & ->)]; [by left|right]. exists bn. by rewrite F2.
Qed.

Theorem tree_changes : tree dv sb ct' D.
Proof using All.
  destruct changed_fields as [(T1 & L1 & S1 & A1)%dfields_eq (T2 & L2 & S2 & A2)%dfields_eq]. pose proof (ch_type Hch) as Hty. split.
  - apply changed_node.
  - intros m e m' off Hm Hd Hf. destruct (decide (m = n)) as [->|Hne].
    + unfold dir_find in Hf. rewrite (dents_same dv ct' i') in Hf by done. eapply (ch_dir Hch); [congruence|exact Hf].
    + destruct (dfields_eq _ _ (other_fields m Hm Hne)) as (Ht & _). rewrite Ht in Hd. unfold dir_find in Hf. rewrite other_dents in Hf by done. by eapply (tr_closed _ _ _ _ HT m).
  - intros m1 m2 a H1 H2 Hne Ha0 B1 B2. destruct (decide (m1 = n)) as [->|N1]; [|destruct (decide (m2 = n)) as [->|N2]].
    + destruct (other_kept m2 H2 ltac:(congruence)) as (_ & _ & _ & Hno). destruct (dfields_eq _ _ (other_fields m2 H2 ltac:(congruence))) as (_ & _ & _ & Ha).
      apply (Hno a Ha0); [by apply (blk_of_same dv ct' (dino m2) (dino' m2) a Ha)|by apply (blk_of_same dv ct' i' (dino' n) a)].
    + destruct (other_kept m1 H1 N1) as (_ & _ & _ & Hno). destruct (dfields_eq _ _ (other_fields m1 H1 N1)) as (_ & _ & _ & Ha).
      apply (Hno a Ha0); [by apply (blk_of_same dv ct' (dino m1) (dino' m1) a Ha)|by apply (blk_of_same dv ct' i' (dino' n) a)].
    + apply (tr_disjoint _ _ _ _ HT m1 m2 a H1 H2 Hne Ha0); by apply other_blocks.
Qed.
End step.

(** ** Resolving names in a changed tree *)

Section names.
Context (dv : nat) (sb : superblock) (ct ct' : disk) (D : Z -> Prop).
Abbreviation dino := (dino dv sb ct).
Abbreviation dino' := (Icache.dino dv sb ct').
Context (HT : tree dv sb ct D) (Htype : forall m, D m -> i_type (dino' m) = i_type (dino m)).

Lemma resolve_tree es : forall m x, D m -> resolve dv sb ct m es = Some x -> D x.
Proof using HT.
  induction es as [|e es IH]; intros m x Hm; cbn [resolve]; [by intros [= <-]|]. destruct (Z.eqb_spec (i_type (dino m)) T_DIR) as [Hd|]; [|done].
  destruct (dir_find dv ct (dino m) e) as [[m' off]|] eqn:Hf; [|done]. apply IH. by eapply (tr_closed _ _ _ _ HT m).
Qed.

Lemma resolve_same : (forall m, D m -> i_type (dino m) = T_DIR -> dents dv ct' (dino' m) = dents dv ct (dino m)) ->
  forall es m, D m -> resolve dv sb ct' m es = resolve dv sb ct m es.
Proof using All.
  intros Hd. induction es as [|e es IH]; intros m Hm; [done|]. cbn [resolve]. rewrite (Htype m Hm). destruct (Z.eqb_spec (i_type (dino m)) T_DIR) as [Hty|]; [|done].
  unfold dir_find at 1. rewrite (Hd m Hm Hty). fold (dir_find dv ct (dino m) e). destruct (dir_find dv ct (dino m) e) as [[m' off]|] eqn:Hf; [|done].
  apply IH. by eapply (tr_closed _ _ _ _ HT m).
Qed.

(** Names found before are found again. *)
Lemma resolve_mono : (forall m e x off, D m -> i_type (dino m) = T_DIR -> dir_find dv ct (dino m) e = Some (x, off) -> fst <$> dir_find dv ct' (dino' m) e = Some x) ->
  forall es m x, D m -> resolve dv sb ct m es = Some x -> resolve dv sb ct' m es = Some x.
Proof using All.
  intros Hd. induction es as [|e es IH]; intros m x Hm; [done|]. cbn [resolve]. rewrite (Htype m Hm). destruct (Z.eqb_spec (i_type (dino m)) T_DIR) as [Hty|]; [|done].
  destruct (dir_find dv ct (dino m) e) as [[m' off]|] eqn:Hf; [|done]. pose proof (Hd m e _ _ Hm Hty Hf) as Hf'.
  destruct (dir_find dv ct' (dino' m) e) as [[x' off']|]; [|done]. injection Hf' as ->. apply IH. by eapply (tr_closed _ _ _ _ HT m).
Qed.

Lemma resolve_snoc es e : forall m, resolve dv sb ct m (es ++ [e]) =
  match resolve dv sb ct m es with
  | Some d => if i_type (dino d) =? T_DIR then fst <$> dir_find dv ct (dino d) e else None
  | None => None
  end.
Proof using Type.
  induction es as [|e' es IH]; intros m; cbn [app resolve].
  - destruct (i_type (dino m) =? T_DIR); [|done]. by destruct (dir_find dv ct (dino m) e) as [[m' off]|].
  - destruct (i_type (dino m) =? T_DIR); [|done]. by destruct (dir_find dv ct (dino m) e') as [[m' off]|].
Qed.
End names.

(** ** The tree on a disk that agrees outside the log *)

Section agree.
Context (dv : nat) (sb : superblock) (d d' : disk) (D : Z -> Prop).
Context (Hg : geom dv sb d) (Hs : same_fs dv sb d' d).

Lemma dino_fs n : iplace sb n -> dino dv sb d' n = dino dv sb d n.
Proof using Hg Hs.
  intros Hp. unfold dino. rewrite Hs; [done|]. destruct (IBLOCK_eq dv sb d _ Hg Hp) as (_ & Hri & Hbe). pose proof (g_bmap _ _ _ Hg). split; [done|]. cbn. lia.
Qed.

Lemma geom_fs : (forall b, 0 <= b < sb_size sb -> exists x, d' !! (dv, b) = Some x /\ length x = 1024%nat) -> geom dv sb d'.
Proof using Hg Hs.
  intros Hb. pose proof Hg as [G1 G2 G3 _ G5]. split; try done. intros b Hr. rewrite <-(G5 b Hr). unfold used. rewrite Hs; [done|].
  destruct (BBLOCK_eq dv sb d b Hg ltac:(lia)) as (_ & Hr2 & _ & Hk). split; [done|]. cbn in *. lia.
Qed.

Context (HT : tree dv sb d D).

Lemma node_fs n : D n -> dino dv sb d' n = dino dv sb d n /\ file_ok dv sb d' (dino dv sb d n) /\
  (forall bn, 0 <= bn < MAXFILE -> fblk dv d' (dino dv sb d n) bn = fblk dv d (dino dv sb d n) bn) /\ same_bytes dv d d' (dino dv sb d n) (dino dv sb d n).
Proof using All.
  intros Hn. destruct (tr_node _ _ _ _ HT n Hn) as [N1 _ _ _ N5 _]. split; [by apply dino_fs|]. by apply (same_fs_file dv sb d' d).
Qed.

Lemma dents_fs n : D n -> i_type (dino dv sb d n) = T_DIR -> dents dv d' (dino dv sb d' n) = dents dv d (dino dv sb d n).
Proof using All.
  intros Hn Hty. destruct (node_fs n Hn) as (-> & _ & _ & Hb). apply dents_bytes; [done| |done].
  pose proof (do_size _ _ _ _ (nd_dir _ _ _ _ (tr_node _ _ _ _ HT n Hn) Hty)). lia.
Qed.

Lemma tree_fs : tree dv sb d' D.
Proof using All.
  pose proof HT as [T1 T2 T3]. split.
  - intros n Hn. destruct (T1 n Hn) as [N1 N2 N3 N4 N5 N6]. destruct (node_fs n Hn) as (E0 & F1 & F2 & F3). split; rewrite ?E0; try done.
    intros Hty. destruct (N6 Hty) as [D1 D2 D3 D4]. split; try done. intros b Hb Hlt. rewrite F2 by lia. by apply D2.
  - intros n e m off Hn Hty Hf. destruct (node_fs n Hn) as (E0 & _). rewrite E0 in Hty. unfold dir_find in Hf. rewrite dents_fs in Hf by done. by eapply T2.
  - intros n m a Hn Hm Hne Ha. destruct (node_fs n Hn) as (-> & _ & F2 & _). destruct (node_fs m Hm) as (-> & _ & F2' & _).
    assert (Hb : forall k, D k -> blk_of dv d' (dino dv sb d k) a -> blk_of dv d (dino dv sb d k) a).
    { intros k Hk [->|(bn & Hb & ->)]; [by left|right]. exists bn. destruct (node_fs k Hk) as (_ & _ & -> & _); done. }
    intros B1 B2. apply (T3 n m a); try done; by apply Hb.
Qed.
End agree.

Lemma resolve_parent_some dv sb ct m es d e : resolve_parent dv sb ct m es = Some (d, e) ->
  exists es', es = es' ++ [e] /\ resolve dv sb ct m es' = Some d /\ i_type (dino dv sb ct d) = T_DIR.
Proof.
  unfold resolve_parent. destruct (last es) as [e0|] eqn:Hl; [|done]. destruct (resolve dv sb ct m (removelast es)) as [d0|] eqn:Hr; [|done].
  destruct (Z.eqb_spec (i_type (dino dv sb ct d0)) T_DIR); [|done]. intros [= <- <-]. exists (removelast es). split_and!; try done.
  apply last_Some in Hl as (l & ->). f_equal. by rewrite removelast_last.
Qed.

End Tree.
