(* ===== verification/Pipe.v ===== *)
(** * Pipes (kernel/pipe.c)

    A pipe is a bounded ring of PIPESIZE bytes between the counters nread
    and nwrite; [pipes] holds the pipes by the address of their page. *)

From S2P Require Import Prelude Bytes CString KState Spinlock Kernel Riscv Kalloc Vm Sched.

Module Pipe.
Import Kalloc Vm Sched.

Definition pipe_at (pi : Z) (s : kstate) : pipe := pipes s !!! pi.
Definition upd_pipe (pi : Z) (f : pipe -> pipe) : K unit :=
  modify (fun s => set_pipes (<[pi := f (pipe_at pi s)]> (pipes s)) s).

(** kfree of a pipe's page: the struct is gone. *)
Definition free_pipe (pi : Z) : K unit :=
  modify (fun s => set_pipes (delete pi (pipes s)) s) ;;
  kfree pi.

Definition pipeclose (pi : Z) (writable : bool) : K unit :=
  acquire (LPipe pi) ;;
  (if writable then upd_pipe pi (set_pi_writeopen false) ;; wakeup (ChPipeRead pi)
   else upd_pipe pi (set_pi_readopen false) ;; wakeup (ChPipeWrite pi)) ;;
  q <- gets (pipe_at pi) ;;
  if negb (pi_readopen q) && negb (pi_writeopen q) then
    release (LPipe pi) ;;
    free_pipe pi
  else release (LPipe pi).

(** pi->data[i % PIPESIZE] *)
Definition pdata (q : pipe) (i : Z) : Z := pi_data q !!! Z.to_nat (i mod PIPESIZE).

(** pi->data[pi->nwrite++ % PIPESIZE] = ch *)
Definition pipe_put (ch : Z) (q : pipe) : pipe :=
  set_pi_nwrite (u32 (pi_nwrite q + 1))
    (set_pi_data (<[Z.to_nat (pi_nwrite q mod PIPESIZE) := ch]> (pi_data q)) q).

(** pi->nread++ *)
Definition pipe_take (q : pipe) : pipe := set_pi_nread (u32 (pi_nread q + 1)) q.

Definition pipe_full (q : pipe) : bool := pi_nwrite q =? u32 (pi_nread q + PIPESIZE).
Definition pipe_empty (q : pipe) : bool := pi_nread q =? pi_nwrite q.

(** Wait for room; [false] when the read end is closed or the writer killed. *)
Definition wait_room (pi : Z) : K bool :=
  loop wait_fuel (fun _ =>
    q <- gets (pipe_at pi) ;;
    if pipe_full q then
      p <- myproc' ;;
      killed <- gets (fun s => p_killed (proc_at p s)) ;;
      if negb (pi_readopen q) || killed then ret (inr false)
      else wakeup (ChPipeRead pi) ;; sleep (ChPipeWrite pi) (LPipe pi) ;; ret (inl tt)
    else ret (inr true)) tt.

Definition pipewrite (pi addr n : Z) : K Z :=
  pr <- myproc' ;;
  acquire (LPipe pi) ;;
  r <- loop (S (Z.to_nat n)) (fun i =>
    if i <? n then
      ok <- wait_room pi ;;
      if negb ok then ret (inr false) else
      pgt <- gets (fun s => p_pagetable (proc_at pr s)) ;;
      c <- copyin pgt (u64 (addr + i)) 1 ;;
      let '(st, bs) := c in
      if st =? -1 then ret (inr true) else
      upd_pipe pi (pipe_put (default 0 (head bs))) ;;
      ret (inl (i + 1))
    else ret (inr true)) 0 ;;
  if (r : bool) then
    wakeup (ChPipeRead pi) ;;
    release (LPipe pi) ;;
    ret n
  else
    release (LPipe pi) ;;
    ret (-1).

(** Wait for data or for the write end to close; [false] when killed. *)
Definition wait_data (pi : Z) : K bool :=
  loop wait_fuel (fun _ =>
    q <- gets (pipe_at pi) ;;
    if pipe_empty q && pi_writeopen q then
      p <- myproc' ;;
      killed <- gets (fun s => p_killed (proc_at p s)) ;;
      if (killed : bool) then ret (inr false)
      else sleep (ChPipeRead pi) (LPipe pi) ;; ret (inl tt)
    else ret (inr true)) tt.

Definition piperead (pi addr n : Z) : K Z :=
  pr <- myproc' ;;
  acquire (LPipe pi) ;;
  ok <- wait_data pi ;;
  if negb ok then release (LPipe pi) ;; ret (-1) else
  i <- loop (S (Z.to_nat n)) (fun i =>
    if i <? n then
      q <- gets (pipe_at pi) ;;
      if pipe_empty q then ret (inr i) else
      upd_pipe pi pipe_take ;;
      pgt <- gets (fun s => p_pagetable (proc_at pr s)) ;;
      st <- copyout pgt (u64 (addr + i)) [pdata q (pi_nread q)] ;;
      if st =? -1 then ret (inr i) else ret (inl (i + 1))
    else ret (inr i)) 0 ;;
  wakeup (ChPipeWrite pi) ;;
  release (LPipe pi) ;;
  ret i.

End Pipe.
