(* ===== verification/PipeProof.v ===== *)
(** * Pipes are first-in first-out

    The ring of a pipe as a queue of bytes, across the wrap-around of the
    32-bit counters, and what piperead() and pipewrite() do to it.  A writer
    that finds the pipe full sleeps; the theorem about pipewrite() holds in
    every environment in which the other threads only take bytes out of the
    pipe in the meantime, and piperead() is one that does.  The theorem about
    piperead() is for an environment of writers. *)

From S2P Require Import Prelude Bytes CString KState Spinlock Kernel Riscv Machine Kalloc Vm PageTable Uvm AddressSpace Sched Pipe.

Module PipeProof.
Import Kalloc Vm PageTable Uvm Sched Pipe.

(** ** The ring as a queue *)

(** The number of bytes in the pipe. *)
Definition level (q : pipe) : Z := u32 (pi_nwrite q - pi_nread q).

Record wf_pipe (q : pipe) : Prop := {
  wp_data : length (pi_data q) = Z.to_nat PIPESIZE;
  wp_nread : 0 <= pi_nread q < 2 ^ 32;
  wp_nwrite : 0 <= pi_nwrite q < 2 ^ 32;
  wp_level : level q <= PIPESIZE
}.

Definition contents (q : pipe) : list Z := (fun i => pdata q (pi_nread q + i)) <$> seqZ 0 (level q).

Lemma u32_add_mod x y : u32 (u32 x + y) = u32 (x + y).
Proof. unfold u32. by rewrite Zplus_mod_idemp_l. Qed.

Lemma u32_slot x : u32 x mod PIPESIZE = x mod PIPESIZE.
Proof. unfold u32. change (2 ^ 32) with (PIPESIZE * 8388608). by rewrite Z.rem_mul_r, (Z.mul_comm PIPESIZE), Z.mod_add, Z.mod_mod by lia. Qed.

Lemma pdata_u32 q x : pdata q (u32 x) = pdata q x.
Proof. unfold pdata. by rewrite u32_slot. Qed.

Lemma level_range q : 0 <= level q < 2 ^ 32.
Proof. apply u32_range. Qed.

Lemma length_contents q : Z.of_nat (length (contents q)) = level q.
Proof. unfold contents. rewrite length_fmap, length_seqZ. pose proof (level_range q). lia. Qed.

Lemma pipe_full_level q : wf_pipe q -> pipe_full q = (level q =? PIPESIZE).
Proof.
  intros [_ H1 H2 _]. unfold pipe_full, level, u32. change (2 ^ 32) with 4294967296 in *. apply eq_bool_prop_intro. rewrite !Is_true_true, !Z.eqb_eq.
  pose proof (Z.div_mod (pi_nread q + PIPESIZE) 4294967296). pose proof (Z.mod_pos_bound (pi_nread q + PIPESIZE) 4294967296).
  pose proof (Z.div_mod (pi_nwrite q - pi_nread q) 4294967296). pose proof (Z.mod_pos_bound (pi_nwrite q - pi_nread q) 4294967296). split; intros; nia.
Qed.

Lemma pipe_empty_level q : wf_pipe q -> pipe_empty q = (level q =? 0).
Proof.
  intros [_ H1 H2 _]. unfold pipe_empty, level, u32. change (2 ^ 32) with 4294967296 in *. apply eq_bool_prop_intro. rewrite !Is_true_true, !Z.eqb_eq.
  pose proof (Z.div_mod (pi_nwrite q - pi_nread q) 4294967296). pose proof (Z.mod_pos_bound (pi_nwrite q - pi_nread q) 4294967296). split; intros; nia.
Qed.

(** Slots that are less than a ring apart are different. *)
Lemma slot_inj x y : 0 <= y - x < PIPESIZE -> x mod PIPESIZE = y mod PIPESIZE -> x = y.
Proof.
  intros H E. pose proof (Z.div_mod x PIPESIZE). pose proof (Z.div_mod y PIPESIZE). nia.
Qed.

Lemma nwrite_slot q : pi_nwrite q mod PIPESIZE = (pi_nread q + level q) mod PIPESIZE.
Proof.
  unfold level. rewrite <-(u32_slot (pi_nread q + u32 _)), (Z.add_comm (pi_nread q)), u32_add_mod, u32_slot. f_equal. lia.
Qed.

Lemma pipe_put_contents c q : wf_pipe q -> pipe_full q = false -> wf_pipe (pipe_put c q) /\ contents (pipe_put c q) = contents q ++ [c].
Proof.
  intros Hwf Hf. rewrite pipe_full_level in Hf by done. apply Z.eqb_neq in Hf. pose proof (level_range q) as Hr. destruct Hwf as [H1 H2 H3 H4].
  assert (Hlev : level (pipe_put c q) = level q + 1).
  { unfold level at 1, pipe_put. cbn. rewrite <-Z.add_opp_r, u32_add_mod. replace (pi_nwrite q + 1 + - pi_nread q) with (pi_nwrite q - pi_nread q + 1) by lia. rewrite <-u32_add_mod. fold (level q). apply u32_small. lia. }
  split.
  - split; cbn; [by rewrite length_insert|done|apply u32_range|rewrite Hlev; lia].
  - unfold contents. rewrite Hlev, seqZ_app, fmap_app by lia. f_equal.
    + apply list_fmap_ext. intros i x Hx. apply lookup_seqZ in Hx as [-> Hx]. unfold pdata, pipe_put. cbn. rewrite list_lookup_total_insert_ne; [done|]. rewrite nwrite_slot. intros E.
      apply Z2Nat.inj in E; [|apply Z.mod_pos_bound; lia..]. symmetry in E. apply slot_inj in E; lia.
    + replace (seqZ (0 + level q) 1) with [level q] by (cbn; f_equal; lia). cbn [fmap list_fmap]. f_equal. unfold pdata, pipe_put. cbn [pi_data pi_nread set_pi_nwrite set_pi_data]. rewrite <-nwrite_slot. apply list_lookup_total_insert_eq. rewrite H1. apply Z2Nat.inj_lt; [apply Z.mod_pos_bound; lia|lia|apply Z.mod_pos_bound; lia].
Qed.

Lemma pipe_take_contents q : wf_pipe q -> pipe_empty q = false -> wf_pipe (pipe_take q) /\ contents q = pdata q (pi_nread q) :: contents (pipe_take q).
Proof.
  intros Hwf Hf. rewrite pipe_empty_level in Hf by done. apply Z.eqb_neq in Hf. pose proof (level_range q) as Hr. destruct Hwf as [H1 H2 H3 H4].
  assert (Hlev : level (pipe_take q) = level q - 1).
  { unfold level at 1, pipe_take. cbn. replace (u32 (pi_nwrite q - u32 (pi_nread q + 1))) with (u32 (level q + -1)); [apply u32_small; lia|].
    unfold level, u32. rewrite Zplus_mod_idemp_l, Zminus_mod_idemp_r. f_equal. lia. }
  split.
  - split; cbn; [done|apply u32_range|done|rewrite Hlev; lia].
  - unfold contents. rewrite Hlev. replace (level q) with (1 + (level q - 1)) at 1 by lia. rewrite seqZ_app, fmap_app by lia. change (seqZ 0 1) with [0]. cbn [fmap list_fmap app]. rewrite Z.add_0_r. f_equal.
    replace (seqZ (0 + 1) (level q - 1)) with (Z.add 1 <$> seqZ 0 (level q - 1)) by (by rewrite fmap_add_seqZ). rewrite <-list_fmap_compose. apply list_fmap_ext. intros i x _. cbn. unfold pdata. cbn. do 2 f_equal. rewrite <-(u32_slot (u32 _ + x)), u32_add_mod, u32_slot. f_equal. lia.
Qed.


(** ** A process at one end of a pipe *)

(** Process [p] with page table [root] runs on hart [h] and holds [ls]. *)
Record view (h p : nat) (pi root : Z) (lv : gmap Z nat) (ls : list lockid) (s : kstate) : Prop := {
  v_owns : owns h (Some p) ls (sy s);
  v_len : length (procs (pt s)) = NPROC;
  v_p : (p < NPROC)%nat;
  v_pgt : p_pagetable (proc_at p s) = root;
  v_tree : ptree (mm s) root lv;
  v_pipe : wf_pipe (pipe_at pi s)
}.

Definition same_user (root : Z) (s s' : kstate) : Prop := forall va, uread (mm s') root va = uread (mm s) root va.

Section pipe_end.
Context (h p : nat) (pi root : Z) (lv : gmap Z nat).
Abbreviation view := (view h p pi root lv).

Lemma view_sy ls ls' s y : view ls s -> owns h (Some p) ls' y -> view ls' (set_sy y s).
Proof using Type. intros [H1 H2 H3 H4 H5 H6] Ho. by split. Qed.

Lemma proc_at_wake ch s : (p < length (procs (pt s)))%nat -> proc_at p (set_pt (wake_all ch (pt s)) s) = woken ch (proc_at p s).
Proof using Type. intros Hp. unfold proc_at, wake_all. cbn. rewrite !list_lookup_total_alt, list_lookup_fmap. destruct (lookup_lt_is_Some_2 (procs (pt s)) p Hp) as [q ->]. done. Qed.

Lemma woken_same ch q : p_pagetable (woken ch q) = p_pagetable q /\ p_killed (woken ch q) = p_killed q.
Proof using Type. unfold woken. by destruct (_ && _). Qed.

Lemma view_wake ch ls s : view ls s -> view ls (set_pt (wake_all ch (pt s)) s) /\ p_killed (proc_at p (set_pt (wake_all ch (pt s)) s)) = p_killed (proc_at p s).
Proof using Type.
  intros [H1 H2 H3 H4 H5 H6]. assert (Hp : (p < length (procs (pt s)))%nat) by lia. split; [split; try done|].
  - cbn. by rewrite length_fmap.
  - rewrite proc_at_wake by done. by rewrite (proj1 (woken_same ch _)).
  - rewrite proc_at_wake by done. apply woken_same.
Qed.

Lemma view_proc ls s q : view ls s -> p_pagetable q = root -> view ls (set_proc_at p q s).
Proof using Type.
  intros [H1 H2 H3 H4 H5 H6] Hq. split; try done; [cbn; by rewrite length_insert|]. by rewrite proc_at_set by lia.
Qed.

Lemma pipe_at_upd f s : pipe_at pi (set_pipes (<[pi := f (pipe_at pi s)]> (pipes s)) s) = f (pipe_at pi s).
Proof using Type. unfold pipe_at. cbn. by rewrite lookup_total_insert_eq. Qed.

Lemma view_upd ls s f : view ls s -> wf_pipe (f (pipe_at pi s)) -> view ls (set_pipes (<[pi := f (pipe_at pi s)]> (pipes s)) s).
Proof using Type. intros [H1 H2 H3 H4 H5 H6] Hf. split; try done. by rewrite pipe_at_upd. Qed.

(** ** Writing *)

Section writer.
Context (E : kstate -> kstate -> Prop).

(** The threads that run while the writer sleeps take bytes out of the pipe,
    leave the writer's memory alone, and wake it when there is room, when the
    read end is closed, or when it is killed. *)
Definition readers_env : Prop := forall s,
  view [LProc p] s -> p_state (proc_at p s) = SLEEPING -> p_chan (proc_at p s) = Some (ChPipeWrite pi) ->
  (exists s', E s s') /\
  forall s', E s s' -> view [LProc p] s' /\ same_user root s s' /\ (exists j, contents (pipe_at pi s') = drop j (contents (pipe_at pi s))) /\
    (pipe_full (pipe_at pi s') = false \/ pi_readopen (pipe_at pi s') = false \/ p_killed (proc_at p s') = true).

Context (Henv : readers_env).

(** The writer is told to go on or to give up. *)
Definition room_or_stop (s : kstate) : bool :=
  negb (pipe_full (pipe_at pi s)) || negb (pi_readopen (pipe_at pi s)) || p_killed (proc_at p s).

Lemma runE_sleep_full s (Q : unit -> kstate -> Prop) : view [LPipe pi] s ->
  (forall s', view [LPipe pi] s' -> same_user root s s' -> (exists j, contents (pipe_at pi s') = drop j (contents (pipe_at pi s))) -> room_or_stop s' = true -> Q tt s') ->
  runE E (sleep (ChPipeWrite pi) (LPipe pi)) s Q.
Proof using Henv.
  intros Hv HQ. assert (Hlen : (p < length (procs (pt s)))%nat) by (destruct Hv; lia). eapply runE_sleep; [apply Hv|done|done|]. intros y Hy s1.
  assert (Hv1 : view [LProc p] s1) by (apply (view_sy [LPipe pi]); [|done]; apply view_proc; [done|apply Hv]).
  assert (Hp1 : proc_at p s1 = set_p_state SLEEPING (set_p_chan (Some (ChPipeWrite pi)) (proc_at p s))) by (by apply proc_at_set).
  destruct (Henv s1 Hv1) as [Hex Hall]; [by rewrite Hp1..|]. split; [exact Hex|]. intros s' HE. destruct (Hall s' HE) as (Hv' & Hu & Hc & Hstop). split; [apply Hv'|].
  intros y' Hy'. assert (Hlen' : (p < length (procs (pt s')))%nat) by (destruct Hv'; lia). apply HQ.
  - apply (view_sy [LProc p]); [|done]. apply view_proc; [done|apply Hv'].
  - done.
  - done.
  - unfold room_or_stop. change (pipe_at pi (set_sy _ _)) with (pipe_at pi s'). change (proc_at p (set_sy y' ?s)) with (proc_at p s). rewrite proc_at_set by done. cbn [p_killed set_p_chan].
    by destruct Hstop as [->|[->| ->]]; rewrite ?orb_true_r.
Qed.

Lemma runE_wait_room s (Q : bool -> kstate -> Prop) : view [LPipe pi] s ->
  (forall s' (ok : bool), view [LPipe pi] s' -> same_user root s s' -> (exists j, contents (pipe_at pi s') = drop j (contents (pipe_at pi s))) ->
     (if ok then pipe_full (pipe_at pi s') = false else pi_readopen (pipe_at pi s') = false \/ p_killed (proc_at p s') = true) -> Q ok s') ->
  runE E (wait_room pi) s Q.
Proof using Henv.
  intros Hv HQ. unfold wait_room.
  eapply (runE_loop _ _ (fun _ s' => view [LPipe pi] s' /\ same_user root s s' /\ exists j, contents (pipe_at pi s') = drop j (contents (pipe_at pi s)))
    (fun _ s' => if room_or_stop s' then 0%nat else 1%nat)); [|by split_and!; [done|done|exists 0%nat; by rewrite drop_0]|unfold wait_fuel; destruct (room_or_stop s); lia].
  intros _ s1 (Hv1 & Hu1 & j1 & Hc1). wp. destruct (pipe_full (pipe_at pi s1)) eqn:Hfull; [|wp; apply HQ; try done; by exists j1].
  wp. eapply run_runE, run_myproc'; [apply Hv1|]. intros y2 Hy2. wp. change (proc_at p (set_sy y2 s1)) with (proc_at p s1).
  assert (Hv2 : view [LPipe pi] (set_sy y2 s1)) by (by eapply view_sy).
  destruct (negb (pi_readopen (pipe_at pi s1)) || p_killed (proc_at p s1)) eqn:Hstop.
  - wp. apply HQ; [done|done|by exists j1|]. apply orb_true_iff in Hstop as [Hr%negb_true_iff|Hk]; [by left|by right].
  - apply orb_false_iff in Hstop as [Hr%negb_false_iff Hk]. wp. eapply run_runE, (run_wakeup h (Some p) [LPipe pi]); [apply Hv2|intros k Hin; set_solver|apply Hv2|].
    intros y3 Hy3. wp. set (s3 := set_sy y3 _). assert (Hv3 : view [LPipe pi] s3) by (eapply view_sy; [by apply view_wake|done]).
    eapply runE_sleep_full; [exact Hv3|]. intros s4 Hv4 Hu4 (j4 & Hc4) Hroom. wp. split.
    + split; [done|]. split; [intros va; rewrite Hu4; apply Hu1|]. exists (j1 + j4)%nat. rewrite Hc4. change (pipe_at pi s3) with (pipe_at pi s1). by rewrite Hc1, drop_drop.
    + rewrite Hroom. unfold room_or_stop. rewrite Hfull, Hr, Hk. cbn. lia.
Qed.

(** The bytes [bs] of user memory at [addr]. *)
Definition user_bytes (s : kstate) (addr : Z) (bs : list Z) : Prop :=
  forall i, (i < length bs)%nat -> uread (mm s) root (addr + Z.of_nat i) = bs !! i.

Lemma user_bytes_snoc s addr bs c : user_bytes s addr bs -> uread (mm s) root (addr + Z.of_nat (length bs)) = Some c -> user_bytes s addr (bs ++ [c]).
Proof using Type.
  intros Hb Hc i Hi. rewrite length_app in Hi. cbn in Hi. destruct (decide (i < length bs)%nat); [rewrite lookup_app_l by done; by apply Hb|].
  replace i with (length bs) by lia. by rewrite Hc, list_lookup_middle.
Qed.

(** What is left of a stream when a part of it was taken. *)
Definition suffix (l' l : list Z) : Prop := exists j, l' = drop j l.

Lemma suffix_app l' l k : suffix l' l -> suffix (l' ++ k) (l ++ k).
Proof using Type.
  intros [j ->]. exists (min j (length l)). rewrite drop_app_le by lia. f_equal. destruct (decide (j <= length l)%nat); [by rewrite Nat.min_l|]. rewrite Nat.min_r by lia. by rewrite !drop_ge by lia.
Qed.
Lemma suffix_trans l1 l2 l3 : suffix l1 l2 -> suffix l2 l3 -> suffix l1 l3.
Proof using Type. intros [j ->] [k ->]. exists (k + j)%nat. by rewrite drop_drop. Qed.

(** [bs] has been written since [s0]. *)
Record writing (s0 : kstate) (addr : Z) (bs : list Z) (s : kstate) : Prop := {
  wr_view : view [LPipe pi] s;
  wr_user : same_user root s0 s;
  wr_bytes : user_bytes s0 addr bs;
  wr_pipe : suffix (contents (pipe_at pi s)) (contents (pipe_at pi s0) ++ bs)
}.

(** One turn of the loop of pipewrite(). *)
Lemma runE_write_byte s0 addr bs s (Q : Z + bool -> kstate -> Prop) : writing s0 addr bs s -> 0 <= addr -> addr + Z.of_nat (length bs) < 2 ^ 64 ->
  (forall s' c, writing s0 addr (bs ++ [c]) s' -> Q (inl (Z.of_nat (length bs) + 1)) s') ->
  (forall s', writing s0 addr bs s' -> uread (mm s0) root (addr + Z.of_nat (length bs)) = None -> Q (inr true) s') ->
  (forall s', writing s0 addr bs s' -> pi_readopen (pipe_at pi s') = false \/ p_killed (proc_at p s') = true -> Q (inr false) s') ->
  runE E (ok <- wait_room pi ;;
      if negb ok then ret (inr false) else
      pgt <- gets (fun s => p_pagetable (proc_at p s)) ;;
      c <- copyin pgt (u64 (addr + Z.of_nat (length bs))) 1 ;;
      let '(st, bs') := c in
      if st =? -1 then ret (inr true) else
      upd_pipe pi (pipe_put (default 0 (head bs'))) ;;
      ret (inl (Z.of_nat (length bs) + 1))) s Q.
Proof using Henv.
  intros [Hv Hu Hb Hc] Ha Hbound Hnext Hfault Hstop. wp. eapply runE_wait_room; [exact Hv|]. intros s1 ok Hv1 Hu1 Hc1 Hok.
  assert (Hw : writing s0 addr bs s1) by (split; [done|intros va; by rewrite Hu1, Hu|done|by eapply suffix_trans]).
  destruct ok; cbn [negb]; [|wp; by apply Hstop]. wp. rewrite (v_pgt _ _ _ _ _ _ _ Hv1), u64_small by lia. eapply run_runE, run_mono; [apply (run_copyin s1 root lv); [apply Hv1|lia|lia]|].
  intros [st bs'] s2 [-> [(-> & Hlen & Hget)|(-> & i & Hi & Hnone)]].
  - assert (Hst : (0 =? -1) = false) by done. rewrite Hst. destruct bs' as [|c [|]]; [cbn in Hlen; lia| |cbn in Hlen; lia]. specialize (Hget 0%nat ltac:(cbn; lia)). cbn in Hget. rewrite Z.add_0_r in Hget.
    unfold upd_pipe. wp. change (default 0 (head [c])) with c. destruct (pipe_put_contents c (pipe_at pi s1)) as [Hwf Hput]; [apply Hv1|done|].
    apply (Hnext _ c). split; [by apply view_upd|by apply Hw|apply user_bytes_snoc; [done|by rewrite <-(wr_user _ _ _ _ Hw)]|]. rewrite pipe_at_upd, Hput, app_assoc. apply suffix_app, Hw.
  - wp. apply Hfault; [done|]. rewrite <-(wr_user _ _ _ _ Hw). replace i with 0 in Hnone by lia. by rewrite Z.add_0_r in Hnone.
Qed.

Lemma runE_pipewrite s addr n : view [] s -> 0 <= n -> 0 <= addr -> addr + n < 2 ^ 64 ->
  runE E (pipewrite pi addr n) s (fun r s' => view [] s' /\ exists bs, user_bytes s addr bs /\ suffix (contents (pipe_at pi s')) (contents (pipe_at pi s) ++ bs) /\
    (r = n /\ (Z.of_nat (length bs) = n \/ Z.of_nat (length bs) < n /\ uread (mm s) root (addr + Z.of_nat (length bs)) = None) \/
     r = -1 /\ Z.of_nat (length bs) < n /\ (pi_readopen (pipe_at pi s') = false \/ p_killed (proc_at p s') = true))).
Proof using Henv.
  intros Hv Hn Ha Hbound. unfold pipewrite. wp. eapply run_runE, run_myproc'; [apply Hv|]. intros y1 Hy1. wp. eapply run_runE, run_acquire; [exact Hy1|set_solver|]. intros y2 Hy2. wp.
  assert (Hfin : forall s1 bs (r : bool), writing s addr bs s1 ->
      (if r then True /\ (Z.of_nat (length bs) = n \/ Z.of_nat (length bs) < n /\ uread (mm s) root (addr + Z.of_nat (length bs)) = None)
       else Z.of_nat (length bs) < n /\ (pi_readopen (pipe_at pi s1) = false \/ p_killed (proc_at p s1) = true)) ->
      runE E (if r then wakeup (ChPipeRead pi) ;; release (LPipe pi) ;; ret n else release (LPipe pi) ;; ret (-1)) s1 (fun r s' => view [] s' /\ exists bs, user_bytes s addr bs /\ suffix (contents (pipe_at pi s')) (contents (pipe_at pi s) ++ bs) /\
        (r = n /\ (Z.of_nat (length bs) = n \/ Z.of_nat (length bs) < n /\ uread (mm s) root (addr + Z.of_nat (length bs)) = None) \/
         r = -1 /\ Z.of_nat (length bs) < n /\ (pi_readopen (pipe_at pi s') = false \/ p_killed (proc_at p s') = true)))).
  { intros s1 bs r Hw Hr. destruct r; wp.
    - eapply run_runE, (run_wakeup h (Some p) [LPipe pi]); [apply Hw|intros k Hin; set_solver|apply Hw|]. intros y3 Hy3. wp. eapply run_runE, run_release; [exact Hy3|set_solver|]. intros y4 Hy4. rewrite drop_head in Hy4 by set_solver.
      wp. split; [apply (view_sy [LPipe pi]); [|done]; apply (view_sy [LPipe pi]); [apply view_wake, Hw|done]|]. exists bs. split_and!; [apply Hw|apply Hw|]. left. tauto.
    - eapply run_runE, run_release; [apply Hw|set_solver|]. intros y4 Hy4. rewrite drop_head in Hy4 by set_solver. wp. split; [by eapply view_sy; [apply Hw|]|]. exists bs. split_and!; [apply Hw|apply Hw|]. right. done. }
  eapply (runE_loop _ _ (fun i s' => exists bs, i = Z.of_nat (length bs) /\ i <= n /\ writing s addr bs s') (fun i _ => Z.to_nat (n - i))
    _); [|exists []|lia].
  - intros i s1 (bs & -> & Hle & Hw). destruct (Z.ltb_spec (Z.of_nat (length bs)) n) as [Hlt|Hge].
    + eapply runE_write_byte; [exact Hw|done|lia|..].
      * intros s2 c Hw2. split; [|lia]. exists (bs ++ [c]). rewrite length_app. cbn. split_and!; [lia|lia|done].
      * intros s2 Hw2 Hnone. apply (Hfin s2 bs true Hw2). split; [done|]. by right.
      * intros s2 Hw2 Hst. by apply (Hfin s2 bs false Hw2).
    + apply runE_ret, (Hfin s1 bs true Hw). split; [done|]. left. lia.
  - split_and!; [done|lia|]. split; [by apply (view_sy []); [apply (view_sy [])|]|done|by intros i Hi; cbn in Hi; lia|]. rewrite app_nil_r. by exists 0%nat.
Qed.
End writer.

(** ** Reading *)

Section reader.
Context (E : kstate -> kstate -> Prop) (um : umap).

(** The reader, its address space [um] and the locks it holds. *)
Record rview (ls : list lockid) (s : kstate) : Prop := {
  rv_view : view ls s;
  rv_uvm : exists fl, uvm_ok s root lv fl um;
  rv_only : user_only s root um
}.

Lemma rview_frame ls ls' s s' : rview ls s -> view ls' s' -> mm s' = mm s -> ld s' = ld s -> freelist s' = freelist s -> rview ls' s'.
Proof using Type.
  intros [H1 [fl H2] H3] Hv Hm Hl Hf. split; [done|exists fl; by eapply uvm_frame|]. intros va. rewrite Hm. apply H3.
Qed.

(** The threads that run while the reader sleeps put bytes into the pipe,
    leave the reader's memory alone, and wake it when there is data, when the
    write end is closed, or when it is killed. *)
Definition writers_env : Prop := forall s,
  rview [LProc p] s -> p_state (proc_at p s) = SLEEPING -> p_chan (proc_at p s) = Some (ChPipeRead pi) ->
  (exists s', E s s') /\
  forall s', E s s' -> rview [LProc p] s' /\ (forall va, vget (mm s') um va = vget (mm s) um va) /\ (exists more, contents (pipe_at pi s') = contents (pipe_at pi s) ++ more) /\
    (pipe_empty (pipe_at pi s') = false \/ pi_writeopen (pipe_at pi s') = false \/ p_killed (proc_at p s') = true).

Context (Henv : writers_env).

Definition data_or_stop (s : kstate) : bool :=
  negb (pipe_empty (pipe_at pi s)) || negb (pi_writeopen (pipe_at pi s)) || p_killed (proc_at p s).

(** Since [s0] bytes were only added, and the user memory is the same. *)
Definition waited (s0 s : kstate) : Prop :=
  (forall va, vget (mm s) um va = vget (mm s0) um va) /\ exists more, contents (pipe_at pi s) = contents (pipe_at pi s0) ++ more.

Lemma waited_trans s0 s1 s2 : waited s0 s1 -> waited s1 s2 -> waited s0 s2.
Proof using Type. intros [H1 (m1 & H2)] [H3 (m2 & H4)]. split; [intros va; by rewrite H3|]. exists (m1 ++ m2). by rewrite H4, H2, app_assoc. Qed.

Lemma runE_sleep_empty s (Q : unit -> kstate -> Prop) : rview [LPipe pi] s ->
  (forall s', rview [LPipe pi] s' -> waited s s' -> data_or_stop s' = true -> Q tt s') ->
  runE E (sleep (ChPipeRead pi) (LPipe pi)) s Q.
Proof using Henv.
  intros Hr HQ. pose proof (rv_view _ _ Hr) as Hv. assert (Hlen : (p < length (procs (pt s)))%nat) by (destruct Hv; lia). eapply runE_sleep; [apply Hv|done|done|]. intros y Hy s1.
  assert (Hv1 : view [LProc p] s1) by (apply (view_sy [LPipe pi]); [|done]; apply view_proc; [done|apply Hv]).
  assert (Hp1 : proc_at p s1 = set_p_state SLEEPING (set_p_chan (Some (ChPipeRead pi)) (proc_at p s))) by (by apply proc_at_set).
  destruct (Henv s1) as [Hex Hall]; [by eapply rview_frame|by rewrite Hp1..|]. split; [exact Hex|]. intros s' HE. destruct (Hall s' HE) as (Hr' & Hu & Hc & Hstop). pose proof (rv_view _ _ Hr') as Hv'. split; [apply Hv'|].
  intros y' Hy'. assert (Hlen' : (p < length (procs (pt s')))%nat) by (destruct Hv'; lia). apply HQ.
  - eapply rview_frame; [exact Hr'| |done..]. apply (view_sy [LProc p]); [|done]. apply view_proc; [done|apply Hv'].
  - by split.
  - unfold data_or_stop. change (pipe_at pi (set_sy _ _)) with (pipe_at pi s'). change (proc_at p (set_sy y' ?s)) with (proc_at p s). rewrite proc_at_set by done. cbn [p_killed set_p_chan].
    by destruct Hstop as [->|[->| ->]]; rewrite ?orb_true_r.
Qed.

Lemma runE_wait_data s (Q : bool -> kstate -> Prop) : rview [LPipe pi] s ->
  (forall s' (ok : bool), rview [LPipe pi] s' -> waited s s' ->
     (if ok then pipe_empty (pipe_at pi s') = false \/ pi_writeopen (pipe_at pi s') = false else p_killed (proc_at p s') = true) -> Q ok s') ->
  runE E (wait_data pi) s Q.
Proof using Henv.
  intros Hr HQ. unfold wait_data.
  eapply (runE_loop _ _ (fun _ s' => rview [LPipe pi] s' /\ waited s s')
    (fun _ s' => if data_or_stop s' then 0%nat else 1%nat)); [|split; [done|split; [done|exists []; by rewrite app_nil_r]]|unfold wait_fuel; destruct (data_or_stop s); lia].
  intros _ s1 (Hr1 & Hw1). wp. destruct (pipe_empty (pipe_at pi s1) && pi_writeopen (pipe_at pi s1)) eqn:Hwait; [|wp; apply HQ; [done|done|by apply andb_false_iff in Hwait]].
  apply andb_true_iff in Hwait as [He Hwo]. wp. eapply run_runE, run_myproc'; [apply Hr1|]. intros y2 Hy2. wp. change (proc_at p (set_sy y2 s1)) with (proc_at p s1).
  assert (Hr2 : rview [LPipe pi] (set_sy y2 s1)) by (eapply rview_frame; [exact Hr1| |done..]; eapply view_sy; [apply Hr1|done]).
  destruct (p_killed (proc_at p s1)) eqn:Hk; wp; [by apply HQ|]. eapply runE_sleep_empty; [exact Hr2|]. intros s3 Hr3 Hw3 Hd. wp. split.
  - split; [done|]. eapply waited_trans; [exact Hw1|exact Hw3].
  - rewrite Hd. unfold data_or_stop. rewrite He, Hwo, Hk. cbn. lia.
Qed.

(** The first [i] bytes of [C] have been copied to [addr] since [s1]. *)
Record reading (s1 : kstate) (addr : Z) (C : list Z) (i : nat) (s : kstate) : Prop := {
  rd_view : rview [LPipe pi] s;
  rd_pipe : contents (pipe_at pi s) = drop i C;
  rd_pte : forall va, pte_of (mm s) root va = pte_of (mm s1) root va;
  rd_user : forall va, vget (mm s) um va = if bool_decide (addr <= va < addr + Z.of_nat i) then Some (u8 (default 0 (C !! Z.to_nat (va - addr)))) else vget (mm s1) um va
}.

(** One byte out of the pipe and into user memory. *)
Lemma runE_read_byte s1 addr C i s (Q : Z + Z -> kstate -> Prop) : reading s1 addr C i s -> 0 <= addr -> addr + Z.of_nat i < 2 ^ 64 -> (i < length C)%nat ->
  (forall s', reading s1 addr C (S i) s' -> Q (inl (Z.of_nat i + 1)) s') ->
  (forall s', rview [LPipe pi] s' -> contents (pipe_at pi s') = drop (S i) C -> uread (mm s') root (addr + Z.of_nat i) = None ->
     (forall va, vget (mm s') um va = if bool_decide (addr <= va < addr + Z.of_nat i) then Some (u8 (default 0 (C !! Z.to_nat (va - addr)))) else vget (mm s1) um va) -> Q (inr (Z.of_nat i)) s') ->
  runE E (q <- gets (pipe_at pi) ;;
      if pipe_empty q then ret (inr (Z.of_nat i)) else
      upd_pipe pi pipe_take ;;
      pgt <- gets (fun s => p_pagetable (proc_at p s)) ;;
      st <- copyout pgt (u64 (addr + Z.of_nat i)) [pdata q (pi_nread q)] ;;
      if st =? -1 then ret (inr (Z.of_nat i)) else ret (inl (Z.of_nat i + 1))) s Q.
Proof using Type.
  intros [Hr Hc Hpte Hu] Ha Hbound Hi Hnext Hfault. pose proof (rv_view _ _ Hr) as Hv. wp. destruct (lookup_lt_is_Some_2 C i Hi) as [c HC].
  assert (Hne : pipe_empty (pipe_at pi s) = false).
  { rewrite pipe_empty_level by apply Hv. rewrite <-length_contents, Hc, length_skipn. apply Z.eqb_neq. lia. }
  rewrite Hne. destruct (pipe_take_contents (pipe_at pi s)) as [Hwf Htake]; [apply Hv|done|]. rewrite Hc, (drop_S C c) in Htake by done. injection Htake as Hcq Htake. rewrite <-Hcq.
  unfold upd_pipe. wp. set (s2 := set_pipes _ _). change (proc_at p s2) with (proc_at p s). rewrite (v_pgt _ _ _ _ _ _ _ Hv), u64_small by lia.
  assert (Hr2 : rview [LPipe pi] s2) by (eapply rview_frame; [exact Hr|by apply view_upd|done..]). assert (Hp2 : contents (pipe_at pi s2) = drop (S i) C) by (unfold s2; by rewrite pipe_at_upd).
  destruct (rv_uvm _ _ Hr2) as [fl Hok]. eapply run_runE, run_mono; [apply (run_copyout s2 root lv fl um _ [c] Hok (rv_only _ _ Hr2)); lia|].
  intros st s3 (k & (m' & -> & Hok3 & Hp3 & Hv3 & _) & Hst). change (mm s2) with (mm s) in *.
  assert (Hr3 : rview [LPipe pi] (set_mm m' s2)).
  { split; [|by exists fl|].
    - destruct (rv_view _ _ Hr2) as [V1 V2 V3 V4 V5 V6]. split; try done. by destruct Hok3 as [[? _ _] _ _ _].
    - intros va H0 Hs. apply (rv_only _ _ Hr2 va H0). apply not_eq_None_Some. intros Hn. apply (uread_none (mm s2) m' root va) in Hn; [|done]. cbn in Hs. rewrite Hn in Hs. by destruct Hs. }
  destruct Hst as [[-> Hk]|(-> & Hk & Hnone)].
  - change (0 =? -1) with false. cbv iota. wp. cbn in Hk. subst k. apply Hnext. split; [done|done|intros va; cbn; by rewrite Hp3|]. intros va. cbn [mm set_mm]. rewrite Hv3, Hu.
    repeat case_bool_decide; try lia; try done. replace va with (addr + Z.of_nat i) by lia. replace (Z.to_nat _) with 0%nat by lia. replace (Z.to_nat _) with i by lia. by rewrite HC.
  - wp. cbn in Hk. apply Hfault; [done|done| |].
    + replace k with 0%nat in Hnone by lia. rewrite Z.add_0_r in Hnone. by apply (uread_none (mm s) m').
    + intros va. cbn [mm set_mm]. rewrite Hv3, Hu. rewrite bool_decide_false by lia. done.
Qed.

(** What piperead() returns: -1 when it is killed while it waits, and
    otherwise the number of bytes copied, which is [n] unless the pipe ran
    empty or user memory could not be written; in that last case one more
    byte is gone. *)
Definition read_result (s0 : kstate) (addr n r : Z) (s' : kstate) : Prop :=
  exists C more, C = contents (pipe_at pi s0) ++ more /\
  (r = -1 /\ p_killed (proc_at p s') = true /\ contents (pipe_at pi s') = C /\ (forall va, vget (mm s') um va = vget (mm s0) um va) \/
   0 <= r <= n /\ r <= Z.of_nat (length C) /\
   (forall va, vget (mm s') um va = if bool_decide (addr <= va < addr + r) then Some (u8 (default 0 (C !! Z.to_nat (va - addr)))) else vget (mm s0) um va) /\
   (contents (pipe_at pi s') = drop (Z.to_nat r) C /\ (r = n \/ r = Z.of_nat (length C)) \/
    contents (pipe_at pi s') = drop (S (Z.to_nat r)) C /\ r < n /\ uread (mm s') root (addr + r) = None)).

Lemma runE_piperead s addr n : rview [] s -> 0 <= n -> 0 <= addr -> addr + n < 2 ^ 64 ->
  runE E (piperead pi addr n) s (fun r s' => rview [] s' /\ read_result s addr n r s').
Proof using Henv.
  intros Hr Hn Ha Hbound. unfold piperead. wp. eapply run_runE, run_myproc'; [apply Hr|]. intros y1 Hy1. wp. eapply run_runE, run_acquire; [exact Hy1|set_solver|]. intros y2 Hy2. wp.
  assert (Hr2 : rview [LPipe pi] (set_sy y2 (set_sy y1 s))).
  { eapply rview_frame; [exact Hr| |done..]. eapply view_sy; [|exact Hy2]. eapply view_sy; [apply Hr|exact Hy1]. }
  eapply runE_wait_data; [exact Hr2|]. intros s3 ok Hr3 [Hu3 (more & Hc3)] Hok. cbn [mm set_sy] in Hu3. change (pipe_at pi (set_sy y2 (set_sy y1 s))) with (pipe_at pi s) in Hc3.
  set (C := contents (pipe_at pi s) ++ more) in *. destruct ok; cbn [negb].
  2: { wp. eapply run_runE, run_release; [apply Hr3|set_solver|]. intros y4 Hy4. rewrite drop_head in Hy4 by set_solver. wp. split; [eapply rview_frame; [exact Hr3| |done..]; eapply view_sy; [apply Hr3|done]|].
       exists C, more. split; [done|]. left. done. }
  wp. set (fin := fun (i : Z) (s' : kstate) => rview [LPipe pi] s' /\ read_result s addr n i s').
  eapply runE_mono.
  - eapply (runE_loop _ _ (fun z s' => exists i, z = Z.of_nat i /\ z <= n /\ (i <= length C)%nat /\ reading s3 addr C i s') (fun z _ => Z.to_nat (n - z)) fin); [|exists 0%nat|lia].
    + intros z s4 (i & -> & Hin & Hil & Hrd). assert (Hdone : Z.of_nat i = n \/ i = length C -> fin (Z.of_nat i) s4).
      { intros Hd. split; [apply Hrd|]. exists C, more. split; [done|]. right. split_and!; try lia; [intros va; by rewrite (rd_user _ _ _ _ _ Hrd), Hu3|]. left. rewrite Nat2Z.id. split; [apply Hrd|lia]. }
      destruct (Z.ltb_spec (Z.of_nat i) n) as [Hlt|]; [|apply runE_ret, Hdone; lia]. destruct (decide (i < length C)%nat) as [HiC|].
      * eapply runE_read_byte; [exact Hrd|done|lia|done| |].
        -- intros s5 Hrd5. split; [|lia]. exists (S i). split_and!; [lia|lia|lia|done].
        -- intros s5 Hr5 Hc5 Hnone Hu5. split; [done|]. exists C, more. split; [done|]. right. split_and!; try lia; [intros va; by rewrite Hu5, Hu3|]. right. rewrite Nat2Z.id. split_and!; [done|lia|done].
      * wp. rewrite pipe_empty_level by apply Hrd. rewrite <-length_contents, (rd_pipe _ _ _ _ _ Hrd), length_skipn. replace (Z.of_nat (length C - i) =? 0) with true by (symmetry; apply Z.eqb_eq; lia). apply runE_ret, Hdone. lia.
    + split_and!; [lia|lia|lia|]. split; [done|done|done|]. intros va. by rewrite bool_decide_false by lia.
  - intros i s4 [Hr4 Hres]. wp. eapply run_runE, (run_wakeup h (Some p) [LPipe pi]); [apply Hr4|intros k Hin; set_solver|apply Hr4|]. intros y5 Hy5. wp. eapply run_runE, run_release; [exact Hy5|set_solver|]. intros y6 Hy6.
    rewrite drop_head in Hy6 by set_solver. wp. split.
    + eapply rview_frame; [exact Hr4| |done..]. apply (view_sy [LPipe pi]); [|done]. apply (view_sy [LPipe pi]); [apply view_wake, Hr4|done].
    + destruct Hres as (C' & more' & E1 & Hres). exists C', more'. split; [done|]. destruct Hres as [(H1 & H2 & H3)|H1]; [left|right; exact H1]. split; [done|]. split; [|done].
      exact (eq_trans (proj2 (view_wake (ChPipeWrite pi) _ _ (rv_view _ _ Hr4))) H2).
Qed.
End reader.
End pipe_end.

(** ** Claims *)


(** Process 0 with the parent's address space, and an empty pipe at [P 20]
    whose counters are about to wrap around. *)
Definition the_pipe : Z := AddressSpace.P 20.
Definition pipe_machine : kstate :=
  let s := AddressSpace.vm_machine in
  let s := set_proc_at 0 (set_p_pagetable AddressSpace.parent (proc_at 0 s)) s in
  set_pipes {[ the_pipe := mkPipe (replicate 512 0) (2 ^ 32 - 5) (2 ^ 32 - 5) true true ]} s.

Lemma pipe_machine_view : view 0 0 the_pipe AddressSpace.parent AddressSpace.parent_tables [] pipe_machine.
Proof.
  split; [apply Machine.owns_machine|reflexivity|lia|reflexivity|apply AddressSpace.parent_tree|]. split; by vm_compute.
Qed.

(** A reader that empties the pipe. *)
Definition drain (q : pipe) : pipe := set_pi_nread (pi_nwrite q) q.
Definition drain_env (s s' : kstate) : Prop := s' = set_pipes (<[the_pipe := drain (pipe_at the_pipe s)]> (pipes s)) s.
Lemma drain_level q : level (drain q) = 0.
Proof. unfold level, drain. cbn. by rewrite Z.sub_diag. Qed.
Lemma drain_readers : readers_env 0 0 the_pipe AddressSpace.parent AddressSpace.parent_tables drain_env.
Proof.
  intros s Hv _ _. split; [by eexists|]. intros s' ->. pose proof (v_pipe _ _ _ _ _ _ _ Hv) as [H1 H2 H3 H4].
  assert (Hwf : wf_pipe (drain (pipe_at the_pipe s))) by (split; [done|done|done|rewrite drain_level; lia]). rewrite pipe_at_upd. split_and!.
  - by apply view_upd.
  - done.
  - exists (length (contents (pipe_at the_pipe s))). rewrite drop_ge by lia. unfold contents. by rewrite drain_level.
  - left. rewrite pipe_full_level by done. by rewrite drain_level.
Qed.



(** A writer that puts one byte into an empty pipe. *)
Definition feed_env (s s' : kstate) : Prop :=
  s' = if pipe_empty (pipe_at the_pipe s) then set_pipes (<[the_pipe := pipe_put 7 (pipe_at the_pipe s)]> (pipes s)) s else s.
Lemma feed_writers : writers_env 0 0 the_pipe AddressSpace.parent AddressSpace.parent_tables feed_env AddressSpace.parent_pages.
Proof.
  intros s Hr _ _. split; [by eexists|]. intros s' ->. pose proof (rv_view _ _ _ _ _ _ _ _ Hr) as Hv. destruct (pipe_empty (pipe_at the_pipe s)) eqn:He.
  - destruct (pipe_put_contents 7 (pipe_at the_pipe s)) as [Hwf Hc]; [apply Hv| |].
    { rewrite pipe_full_level by apply Hv. rewrite pipe_empty_level in He by apply Hv. apply Z.eqb_eq in He. by rewrite He. }
    rewrite pipe_at_upd. split_and!; [eapply rview_frame; [exact Hr|by apply view_upd|done..]|done|by exists [7]|]. left. rewrite pipe_empty_level, <-length_contents, Hc, length_app by done. apply Z.eqb_neq. cbn. lia.
  - split_and!; [done|done|exists []; by rewrite app_nil_r|by left].
Qed.

Lemma pipe_machine_rview : rview 0 0 the_pipe AddressSpace.parent AddressSpace.parent_tables AddressSpace.parent_pages [] pipe_machine.
Proof.
  split; [exact pipe_machine_view|exists AddressSpace.free_pages; eapply uvm_frame; [..|exact AddressSpace.parent_ok]; reflexivity|]. intros va. apply AddressSpace.parent_user_only.
Qed.


End PipeProof.
