(* ===== verification/File.v ===== *)
(** * Open files (kernel/file.c, pipealloc of kernel/pipe.c)

    The system-wide table of open files, reference counted; reads and writes
    are dispatched on the kind of file. *)

From S2P Require Import Prelude Bytes CString KState Spinlock Kernel Riscv Kalloc Vm Sched Console Virtio Bio Log Fs Pipe.

Module File.
Import Kalloc Vm Sched Console Log Fs Pipe.

Definition file_at (f : nat) (s : kstate) : file := ftable s !!! f.
Definition upd_file (f : nat) (g : file -> file) : K unit :=
  modify (fun s => set_ftable (<[f := g (file_at f s)]> (ftable s)) s).

Definition fileinit : K unit := initlock LFtable "ftable".

Definition filealloc : K (option nat) :=
  acquire LFtable ;;
  r <- for_each (seq 0 NFILE) (fun f =>
    v <- gets (file_at f) ;;
    if f_ref v =? 0 then upd_file f (set_f_ref 1) ;; ret (Some f) else ret None) ;;
  release LFtable ;;
  ret r.

Definition filedup (f : nat) : K nat :=
  acquire LFtable ;;
  v <- gets (file_at f) ;;
  if f_ref v <? 1 then panic "filedup" else
  upd_file f (set_f_ref (f_ref v + 1)) ;;
  release LFtable ;;
  ret f.

Definition fileclose (f : nat) : K unit :=
  acquire LFtable ;;
  v <- gets (file_at f) ;;
  if f_ref v <? 1 then panic "fileclose" else
  upd_file f (set_f_ref (f_ref v - 1)) ;;
  if 0 <? f_ref v - 1 then release LFtable else
  ff <- gets (file_at f) ;;
  upd_file f (set_f_ref 0) ;;
  upd_file f (set_f_type FD_NONE) ;;
  release LFtable ;;
  match f_type ff with
  | FD_PIPE => pipeclose (f_pipe ff) (f_writable ff)
  | FD_INODE | FD_DEVICE =>
      d <- gets (fun s => i_dev (inode_at (f_ip ff) s)) ;;
      begin_op d ;;
      iput (f_ip ff) ;;
      d <- gets (fun s => i_dev (inode_at (f_ip ff) s)) ;;
      end_op d
  | FD_NONE => ret tt
  end.

Definition filestat (f : nat) (addr : Z) : K Z :=
  p <- myproc' ;;
  v <- gets (file_at f) ;;
  match f_type v with
  | FD_INODE | FD_DEVICE =>
      ilock (f_ip v) ;;
      st <- stati (f_ip v) ;;
      iunlock (f_ip v) ;;
      pgt <- gets (fun s => p_pagetable (proc_at p s)) ;;
      r <- copyout pgt addr (stat_bytes st) ;;
      if r <? 0 then ret (-1) else ret 0
  | _ => ret (-1)
  end.

(** devsw[major].read(f, 1, addr, n) *)
Definition dev_read (d : devread) (addr n : Z) : K Z :=
  match d with F_consoleread => consoleread true addr n end.
Definition dev_write (d : devwrite) (addr n : Z) : K Z :=
  match d with F_consolewrite => consolewrite true addr n end.

Definition fileread (f : nat) (addr n : Z) : K Z :=
  v <- gets (file_at f) ;;
  if negb (f_readable v) then ret (-1) else
  match f_type v with
  | FD_PIPE => piperead (f_pipe v) addr n
  | FD_DEVICE =>
      if (f_major v <? 0) || (NDEV <=? f_major v) then ret (-1) else
      d <- gets (fun s => fst (devsw s !!! Z.to_nat (f_major v))) ;;
      match d with None => ret (-1) | Some d => dev_read d addr n end
  | FD_INODE =>
      ilock (f_ip v) ;;
      off <- gets (fun s => f_off (file_at f s)) ;;
      r <- readi (f_ip v) true addr off (u32 n) ;;
      when (0 <? r) (modify (fun s => set_ftable (<[f := set_f_off (u32 (f_off (file_at f s) + r))
                                                           (file_at f s)]> (ftable s)) s)) ;;
      iunlock (f_ip v) ;;
      ret r
  | FD_NONE => panic "fileread"
  end.

(** int max = ((MAXOPBLOCKS-1-1-2) / 2) * BSIZE *)
Definition write_max : Z := ((MAXOPBLOCKS - 1 - 1 - 2) / 2) * BSIZE.

Definition filewrite (f : nat) (addr n : Z) : K Z :=
  v <- gets (file_at f) ;;
  if negb (f_writable v) then ret (-1) else
  match f_type v with
  | FD_PIPE => pipewrite (f_pipe v) addr n
  | FD_DEVICE =>
      if (f_major v <? 0) || (NDEV <=? f_major v) then ret (-1) else
      d <- gets (fun s => snd (devsw s !!! Z.to_nat (f_major v))) ;;
      match d with None => ret (-1) | Some d => dev_write d addr n end
  | FD_INODE =>
      i <- loop (S (Z.to_nat n)) (fun i =>
        if i <? n then
          let n1 := Z.min (n - i) write_max in
          d <- gets (fun s => i_dev (inode_at (f_ip v) s)) ;;
          begin_op d ;;
          ilock (f_ip v) ;;
          off <- gets (fun s => f_off (file_at f s)) ;;
          r <- writei (f_ip v) true (u64 (addr + i)) off n1 ;;
          when (0 <? r) (modify (fun s => set_ftable (<[f := set_f_off (u32 (f_off (file_at f s) + r))
                                                               (file_at f s)]> (ftable s)) s)) ;;
          iunlock (f_ip v) ;;
          d <- gets (fun s => i_dev (inode_at (f_ip v) s)) ;;
          end_op d ;;
          if r <? 0 then ret (inr i)
          else if negb (r =? n1) then panic "short filewrite"
          else ret (inl (i + r))
        else ret (inr i)) 0 ;;
      ret (if i =? n then n else -1)
  | FD_NONE => panic "filewrite"
  end.

(** A new pipe, with the two files that are its ends. *)
Definition new_pipe : pipe := mkPipe (replicate (Z.to_nat PIPESIZE) 5) 0 0 true true.

Definition pipealloc : K (option (nat * nat)) :=
  f0 <- filealloc ;;
  match f0 with
  | None => ret None
  | Some f0 =>
      f1 <- filealloc ;;
      match f1 with
      | None => fileclose f0 ;; ret None
      | Some f1 =>
          pi <- kalloc ;;
          if pi =? 0 then fileclose f0 ;; fileclose f1 ;; ret None else
          modify (fun s => set_pipes (<[pi := new_pipe]> (pipes s)) s) ;;
          modify (fun s => set_sy (Spinlock.set_lock (LPipe pi) (mkSpin false "" None 0 0) (sy s)) s) ;;
          upd_file f0 (fun v => set_f_pipe pi (set_f_writable false (set_f_readable true (set_f_type FD_PIPE v)))) ;;
          upd_file f1 (fun v => set_f_pipe pi (set_f_writable true (set_f_readable false (set_f_type FD_PIPE v)))) ;;
          ret (Some (f0, f1))
      end
  end.

End File.
