(* ===== verification/Proc.v ===== *)
(** * Processes (kernel/proc.c)

    The life of a process: allocation, fork, memory growth, exit and wait.
    A process slot is an index into [procs]; its trap frame is the page at
    p->tf, accessed by the offsets of struct trapframe (proc.h). *)

From S2P Require Import Prelude Bytes CString KState Spinlock Kernel Riscv Kalloc Vm Sched Console Virtio Bio Log Fs Dir Pipe File.

Module Proc.
Import Kalloc Vm Sched Log Fs Dir File.

(** ** struct trapframe (proc.h): byte offsets *)

Definition tf_kernel_satp : Z := 0.
Definition tf_kernel_sp : Z := 8.
Definition tf_kernel_trap : Z := 16.
Definition tf_epc : Z := 24.
Definition tf_kernel_hartid : Z := 32.
Definition tf_sp : Z := 48.
Definition tf_a0 : Z := 112.
Definition tf_a1 : Z := 120.
Definition tf_a7 : Z := 168.
Definition tf_size : Z := 288.

Definition get_tf (p : nat) (off : Z) : K Z :=
  tf <- gets (fun s => p_tf (proc_at p s)) ;; load64 (tf + off).
Definition set_tf (p : nat) (off v : Z) : K unit :=
  tf <- gets (fun s => p_tf (proc_at p s)) ;; store64 (tf + off) v.

(** ** Allocation *)

Definition procinit : K unit :=
  initlock LPid "nextpid" ;;
  iter_each (seq 0 NPROC) (fun p =>
    initlock (LProc p) "proc" ;;
    pa <- kalloc ;;
    if pa =? 0 then panic "kalloc" else
    let va := KSTACK (Z.of_nat p) in
    kvmmap va pa PGSIZE (Z.lor PTE_R PTE_W) ;;
    upd_proc p (set_p_kstack va)) ;;
  kvminithart.

(** Create a page table for a given process, with no user pages, but with
    trampoline pages. *)
Definition proc_pagetable (p : nat) : K Z :=
  pagetable <- uvmcreate ;;
  tr <- gets (fun s => ld_trampoline (ld s)) ;;
  mappages pagetable TRAMPOLINE PGSIZE tr (Z.lor PTE_R PTE_X) ;;
  tf <- gets (fun s => p_tf (proc_at p s)) ;;
  mappages pagetable TRAPFRAME PGSIZE tf (Z.lor PTE_R PTE_W) ;;
  ret pagetable.

(** Free a process's page table, and the physical memory it refers to. *)
Definition proc_freepagetable (pagetable sz : Z) : K unit :=
  uvmunmap pagetable TRAMPOLINE PGSIZE false ;;
  uvmunmap pagetable TRAPFRAME PGSIZE false ;;
  when (0 <? sz) (uvmfree pagetable sz).

Definition null_context : context := mkContext CNull 0 (replicate 12 0).

(** Look in the process table for an UNUSED proc; on success its lock is
    held. *)
Definition allocproc : K (option nat) :=
  r <- for_each (seq 0 NPROC) (fun p =>
    acquire (LProc p) ;;
    st <- gets (fun s => p_state (proc_at p s)) ;;
    if bool_decide (st = UNUSED) then ret (Some p)
    else release (LProc p) ;; ret None) ;;
  match r with
  | None => ret None
  | Some p =>
      pid <- allocpid ;;
      upd_proc p (set_p_pid pid) ;;
      tf <- kalloc ;;
      upd_proc p (set_p_tf tf) ;;
      if tf =? 0 then release (LProc p) ;; ret None else
      pagetable <- proc_pagetable p ;;
      upd_proc p (set_p_pagetable pagetable) ;;
      ks <- gets (fun s => p_kstack (proc_at p s)) ;;
      upd_proc p (set_p_context (set_ctx_sp (ks + PGSIZE) (set_ctx_ra CForkret null_context))) ;;
      ret (Some p)
  end.

(** Free a proc structure and the data hanging from it. *)
Definition freeproc (p : nat) : K unit :=
  q <- gets (proc_at p) ;;
  when (negb (p_tf q =? 0)) (kfree (p_tf q)) ;;
  upd_proc p (set_p_tf 0) ;;
  when (negb (p_pagetable q =? 0)) (proc_freepagetable (p_pagetable q) (p_sz q)) ;;
  upd_proc p (set_p_pagetable 0) ;;
  upd_proc p (set_p_sz 0) ;;
  upd_proc p (set_p_pid 0) ;;
  upd_proc p (set_p_parent None) ;;
  upd_proc p (fun q => set_p_name (<[O := 0]> (p_name q)) q) ;;
  upd_proc p (set_p_chan None) ;;
  upd_proc p (set_p_killed false) ;;
  upd_proc p (set_p_xstate 0) ;;
  upd_proc p (set_p_state UNUSED).

(** uchar initcode[]: a user program that calls exec("/init"). *)
Definition initcode : list Z :=
  [23; 5; 0; 0; 19; 5; 5; 2;
   151; 5; 0; 0; 147; 133; 5; 2;
   157; 72; 115; 0; 0; 0; 137; 72;
   115; 0; 0; 0; 239; 240; 191; 255;
   47; 105; 110; 105; 116; 0; 0; 1;
   32; 0; 0; 0; 0; 0; 0; 0;
   0; 0; 0].

(** char name[16] *)
Definition set_name (src : list Z) (q : proc) : proc :=
  set_p_name (CString.safestrcpy (p_name q) src 0 0 16) q.

Definition userinit : K unit :=
  r <- allocproc ;;
  match r with
  | None => stuck "null proc"
  | Some p =>
      modify (fun s => set_pt (set_initproc p (pt s)) s) ;;
      pgt <- gets (fun s => p_pagetable (proc_at p s)) ;;
      uvminit pgt initcode ;;
      upd_proc p (set_p_sz PGSIZE) ;;
      set_tf p tf_epc 0 ;;
      set_tf p tf_sp PGSIZE ;;
      upd_proc p (set_name (Console.str "initcode")) ;;
      cwd <- namei [slash] ;;
      upd_proc p (set_p_cwd cwd) ;;
      upd_proc p (set_p_state RUNNABLE) ;;
      release (LProc p)
  end.

(** Grow or shrink user memory by n bytes; sz is an uint. *)
Definition growproc (n : Z) : K Z :=
  p <- myproc' ;;
  q <- gets (proc_at p) ;;
  let sz := u32 (p_sz q) in
  r <- (if 0 <? n then
          sz' <- uvmalloc (p_pagetable q) sz (u32 (sz + n)) ;;
          ret (if u32 sz' =? 0 then None else Some (u32 sz'))
        else if n <? 0 then
          sz' <- uvmdealloc (p_pagetable q) sz (u32 (sz + n)) ;;
          ret (Some (u32 sz'))
        else ret (Some sz)) ;;
  match r with
  | None => ret (-1)
  | Some sz => upd_proc p (set_p_sz sz) ;; ret 0
  end.

(** ** fork *)

Definition dup_files (p np : nat) : K unit :=
  iter_each (seq 0 NOFILE) (fun i =>
    f <- gets (fun s => p_ofile (proc_at p s) !!! i) ;;
    match f with
    | None => ret tt
    | Some f =>
        f' <- filedup f ;;
        upd_proc np (fun q => set_p_ofile (<[i := Some f']> (p_ofile q)) q)
    end).

Definition fork : K Z :=
  p <- myproc' ;;
  np <- allocproc ;;
  match np with
  | None => ret (-1)
  | Some np =>
      pgt <- gets (fun s => p_pagetable (proc_at p s)) ;;
      npgt <- gets (fun s => p_pagetable (proc_at np s)) ;;
      sz <- gets (fun s => p_sz (proc_at p s)) ;;
      r <- uvmcopy pgt npgt sz ;;
      if r <? 0 then
        freeproc np ;;
        release (LProc np) ;;
        ret (-1)
      else
      upd_proc np (set_p_sz sz) ;;
      upd_proc np (set_p_parent (Some p)) ;;
      tf <- gets (fun s => p_tf (proc_at p s)) ;;
      ntf <- gets (fun s => p_tf (proc_at np s)) ;;
      k_memmove ntf tf tf_size ;;
      set_tf np tf_a0 0 ;;
      dup_files p np ;;
      cwd <- gets (fun s => p_cwd (proc_at p s)) ;;
      cwd <- match cwd with Some c => idup c | None => stuck "null cwd" end ;;
      upd_proc np (set_p_cwd (Some cwd)) ;;
      name <- gets (fun s => p_name (proc_at p s)) ;;
      upd_proc np (set_name name) ;;
      pid <- gets (fun s => p_pid (proc_at np s)) ;;
      upd_proc np (set_p_state RUNNABLE) ;;
      release (LProc np) ;;
      ret pid
  end.

(** ** exit and wait *)

(** Pass p's abandoned children to init. *)
Definition reparent (p : nat) : K unit :=
  iter_each (seq 0 NPROC) (fun pp =>
    par <- gets (fun s => p_parent (proc_at pp s)) ;;
    when (bool_decide (par = Some p))
      (acquire (LProc pp) ;;
       ip <- gets (fun s => initproc (pt s)) ;;
       upd_proc pp (set_p_parent (Some ip)) ;;
       release (LProc pp))).

Definition close_files (p : nat) : K unit :=
  iter_each (seq 0 NOFILE) (fun fd =>
    f <- gets (fun s => p_ofile (proc_at p s) !!! fd) ;;
    match f with
    | None => ret tt
    | Some f =>
        fileclose f ;;
        upd_proc p (fun q => set_p_ofile (<[fd := None]> (p_ofile q)) q)
    end).

(** Exit the current process.  Does not return. *)
Definition exit {A} (status : Z) : K A :=
  p <- myproc' ;;
  ip <- gets (fun s => initproc (pt s)) ;;
  if (p =? ip)%nat then panic "init exiting" else
  close_files p ;;
  begin_op ROOTDEV ;;
  cwd <- gets (fun s => p_cwd (proc_at p s)) ;;
  match cwd with Some c => iput c | None => stuck "null cwd" end ;;
  end_op ROOTDEV ;;
  upd_proc p (set_p_cwd None) ;;
  acquire (LProc ip) ;;
  wakeup1 ip ;;
  release (LProc ip) ;;
  acquire (LProc p) ;;
  original_parent <- gets (fun s => p_parent (proc_at p s)) ;;
  release (LProc p) ;;
  match original_parent with
  | None => stuck "null parent"
  | Some original_parent =>
      acquire (LProc original_parent) ;;
      acquire (LProc p) ;;
      reparent p ;;
      wakeup1 original_parent ;;
      upd_proc p (set_p_xstate status) ;;
      upd_proc p (set_p_state ZOMBIE) ;;
      release (LProc original_parent) ;;
      sched ;;
      panic "zombie exit"
  end.

(** One scan of wait's table: [inl r] when it returns [r], [inr havekids]
    otherwise. *)
Definition wait_scan (p : nat) (addr : Z) : K (Z + bool) :=
  loop (S NPROC) (fun '(np, havekids) =>
    if (np <? NPROC)%nat then
      par <- gets (fun s => p_parent (proc_at np s)) ;;
      if bool_decide (par = Some p) then
        acquire (LProc np) ;;
        q <- gets (proc_at np) ;;
        if bool_decide (p_state q = ZOMBIE) then
          r <- (if addr =? 0 then ret 0 else
                pgt <- gets (fun s => p_pagetable (proc_at p s)) ;;
                copyout pgt addr (get_bytes 4 (st32 (replicate 4 0) 0 (p_xstate q)) 0)) ;;
          if r <? 0 then
            release (LProc np) ;;
            release (LProc p) ;;
            ret (inr (inl (-1)))
          else
            freeproc np ;;
            release (LProc np) ;;
            release (LProc p) ;;
            ret (inr (inl (p_pid q)))
        else
          release (LProc np) ;;
          ret (inl (S np, true))
      else ret (inl (S np, havekids))
    else ret (inr (inr havekids))) (O, false).

Definition wait (addr : Z) : K Z :=
  p <- myproc' ;;
  acquire (LProc p) ;;
  loop wait_fuel (fun _ =>
    r <- wait_scan p addr ;;
    match r with
    | inl r => ret (inr r)
    | inr havekids =>
        killed <- gets (fun s => p_killed (proc_at p s)) ;;
        if negb havekids || killed then
          release (LProc p) ;;
          ret (inr (-1))
        else
          sleep (ChProc p) (LProc p) ;;
          ret (inl tt)
    end) tt.

End Proc.
