(* ===== verification/ProcMem.v ===== *)
(** * The memory of processes (kernel/proc.c)

    Every process in use has a page table, user pages and a trap frame;
    [mems_ok] states that they are well formed, that no two processes and no
    process and the free list share a page, and that unused slots are clean.
    allocproc(), freeproc(), growproc(), fork() and wait() keep it. *)

From S2P Require Import Prelude Bytes CString KState Spinlock Kernel Riscv Machine Kalloc Vm PageTable Uvm Uvmcopy PageFree Sched Console Virtio Bio Log Fs Dir Pipe File Proc.

Module ProcMem.
Import Kalloc Vm PageTable Uvm Uvmcopy PageFree Sched Fs File Proc.

(** ** The invariant *)

(** The address space of a process: [lv] its tables, [um] its user pages. *)
Record proc_mem (s : kstate) (fl : list Z) (q : proc) (lv : gmap Z nat) (um : umap) : Prop := {
  pm_uvm : uvm_ok s (p_pagetable q) lv fl um;
  pm_tables : forall t, is_Some (lv !! t) -> is_page (ld_end (ld s)) t;
  pm_sz : 0 <= p_sz q <= TRAPFRAME;
  pm_user : forall vp, is_Some (um !! vp) <-> 0 <= vp < pages (p_sz q);
  pm_tf : is_page (ld_end (ld s)) (p_tf q) /\ p_tf q ∉ owned lv fl um;
  pm_kpte : forall va, 0 <= va < MAXVA -> kpte (mm s) (p_pagetable q) um va =
    if bool_decide (va / PGSIZE = TRAMPOLINE / PGSIZE) then Some (leaf_pte (ld_trampoline (ld s)) (Z.lor PTE_R PTE_X))
    else if bool_decide (va / PGSIZE = TRAPFRAME / PGSIZE) then Some (leaf_pte (p_tf q) (Z.lor PTE_R PTE_W)) else None
}.

(** The pages of a process. *)
Definition held (q : proc) (lv : gmap Z nat) (um : umap) : gset Z := {[p_tf q]} ∪ dom lv ∪ frames um.

Lemma elem_held q lv um x : x ∈ held q lv um <-> x = p_tf q \/ is_Some (lv !! x) \/ x ∈ frames um.
Proof. unfold held. rewrite !elem_of_union, elem_of_singleton, elem_of_dom. tauto. Qed.

Lemma held_not_free s fl q lv um x : proc_mem s fl q lv um -> x ∈ held q lv um -> x ∉ fl.
Proof.
  intros [[[_ _ Hf] _ Hfr _] _ _ _ [_ Htf] _] [->|[Hx|(vp & g & Hx)%elem_of_frames]]%elem_held Hin.
  - apply Htf, elem_of_owned. tauto.
  - rewrite (Hf x Hin) in Hx. by destruct Hx.
  - by destruct (Hfr _ _ _ Hx) as (_ & ? & _).
Qed.

(** An address space whose pages nobody writes. *)
Lemma uvm_pages s s' root lv fl fl' um : uvm_ok s root lv fl um -> ld s' = ld s -> kmem_ok s' fl' -> (forall x, x ∈ fl' -> lv !! x = None /\ x ∉ frames um) ->
  (forall a, is_Some (lv !! page_of a) \/ page_of a ∈ frames um -> getb (mm s') a = getb (mm s) a) ->
  uvm_ok s' root lv fl' um /\ (forall va, vget (mm s') um va = vget (mm s) um va) /\ forall va, pte_of (mm s') root va = pte_of (mm s) root va.
Proof.
  intros [[HT Hk Hf] Hp Hfr Hi] Hld Hk' Hdis Hm. destruct (ptree_same (mm s) (mm s') root lv HT) as (HT' & _ & Hpte); [intros a Ha; apply Hm; tauto|].
  split_and!; [split; [split|..]|..]; try done.
  - intros t Ht. by apply Hdis.
  - intros vp fr g Hvp. rewrite Hpte. by apply Hp.
  - intros vp fr g Hvp. rewrite Hld. destruct (Hfr _ _ _ Hvp) as (? & ? & ?). split_and!; try done. intros Hx. apply (Hdis fr Hx), elem_of_frames. eauto.
  - apply vget_ext. intros vp fr g a Hvp Ha. apply Hm. right. destruct (Hfr _ _ _ Hvp) as ([Hal _] & _). rewrite (page_of_in fr) by done. apply elem_of_frames. eauto.
Qed.

Lemma proc_mem_frame s s' fl fl' q q' lv um : proc_mem s fl q lv um -> ld s' = ld s -> kmem_ok s' fl' -> (forall x, x ∈ fl' -> x ∉ held q lv um) ->
  (forall a, is_Some (lv !! page_of a) \/ page_of a ∈ frames um -> getb (mm s') a = getb (mm s) a) -> p_pagetable q' = p_pagetable q -> p_sz q' = p_sz q -> p_tf q' = p_tf q ->
  proc_mem s' fl' q' lv um /\ forall va, vget (mm s') um va = vget (mm s) um va.
Proof.
  intros [Hu Htab Hsz Hus [Htf Htf'] Hkp] Hld Hk' Hdis Hm Epg Esz Etf.
  destruct (uvm_pages s s' (p_pagetable q) lv fl fl' um Hu Hld Hk') as (Hu' & Hv & Hpte); [|done|].
  { intros x Hx. specialize (Hdis x Hx). rewrite elem_held in Hdis. split; [destruct (lv !! x) eqn:E; [exfalso; apply Hdis; right; left; by eexists|done]|tauto]. }
  split; [split; rewrite ?Epg, ?Esz, ?Etf, ?Hld; try done|done].
  - split; [done|]. rewrite elem_of_owned in *. intros [?|[Hx|?]]; [tauto| |tauto]. apply (Hdis _ Hx), elem_held. by left.
  - intros va Hva. rewrite <-Hkp by done. by apply kpte_same.
Qed.

(** The user pages of one process change: pages come from the free list and
    go back to it. *)
Section evolve.
Context (h : nat) (me : option nat) (ls : list lockid) (s s' : kstate) (fl fl' : list Z) (q : proc) (lv lv' : gmap Z nat) (um um' : umap) (sz : Z).
Context (Hpm : proc_mem s fl q lv um) (He : evolves h me ls (p_pagetable q) s s' lv lv' fl fl' um um').

Lemma evolve_owned x : x ∈ fl' \/ is_Some (lv' !! x) \/ x ∈ frames um' <-> x ∈ fl \/ is_Some (lv !! x) \/ x ∈ frames um.
Proof using He.
  assert (Hx : forall l f u, x ∈ f \/ is_Some (l !! x) \/ x ∈ frames u <-> x ∈ owned l f u) by (intros l f u; rewrite elem_of_owned, <-elem_of_frames; tauto).
  by rewrite !Hx, (ev_owned _ _ _ _ _ _ _ _ _ _ _ _ He).
Qed.

Lemma evolve_mem : 0 <= sz <= TRAPFRAME -> (forall vp, is_Some (um' !! vp) <-> 0 <= vp < pages sz) -> proc_mem s' fl' (set_p_sz sz q) lv' um'.
Proof using All.
  intros Hsz Hus. destruct Hpm as [P1 P2 P3 P4 [P5 P5'] P6]. pose proof (shape_ld _ _ (ev_shape _ _ _ _ _ _ _ _ _ _ _ _ He)) as Hld.
  split; rewrite ?Hld; cbn [p_sz set_p_sz p_pagetable p_tf]; [apply He| |done|exact Hus| |].
  - intros t Ht. destruct (proj1 (evolve_owned t)) as [Hx|[Hx|(vp & g & Hx)%elem_of_frames]]; [by auto| |by apply P2|by apply (uo_frame _ _ _ _ _ P1) in Hx as (? & _)].
    eapply Forall_forall in Hx; [exact Hx|]. apply (km_pages _ _ (vo_kmem _ _ _ _ (uo_vm _ _ _ _ _ P1))).
  - split; [done|]. by rewrite (ev_owned _ _ _ _ _ _ _ _ _ _ _ _ He).
  - intros va Hva. rewrite (ev_kpte _ _ _ _ _ _ _ _ _ _ _ _ He) by done. by apply P6.
Qed.
End evolve.

Lemma shape_pt s s' : vm_shape s s' -> exists y m f t, s' = set_sy y (set_mm m (set_freelist f (set_pt t s))).
Proof. intros (y & m & f & ->). exists y, m, f, (pt s). by destruct s. Qed.

(** A slot that is not in use. *)
Definition clean (q : proc) : Prop := p_state q = UNUSED /\ p_sz q = 0 /\ p_chan q = None /\ p_killed q = false /\ p_ofile q = replicate NOFILE None.

Abbreviation mems := (gmap nat (gmap Z nat * umap)).

Record mems_ok (s : kstate) (fl : list Z) (ms : mems) : Prop := {
  mo_kmem : kmem_ok s fl;
  mo_nproc : length (procs (pt s)) = NPROC;
  mo_used : forall p, is_Some (ms !! p) -> (p < NPROC)%nat /\ p_state (proc_at p s) <> UNUSED;
  mo_mem : forall p lv um, ms !! p = Some (lv, um) -> proc_mem s fl (proc_at p s) lv um;
  mo_apart : forall p p' lv um lv' um', ms !! p = Some (lv, um) -> ms !! p' = Some (lv', um') -> p <> p' ->
    held (proc_at p s) lv um ## held (proc_at p' s) lv' um';
  mo_clean : forall p, (p < NPROC)%nat -> ms !! p = None -> clean (proc_at p s)
}.

Lemma proc_at_insert np q s s' j : procs (pt s') = <[np := q]> (procs (pt s)) -> (np < length (procs (pt s)))%nat -> proc_at j s' = if decide (j = np) then q else proc_at j s.
Proof.
  intros Hp Hn. unfold proc_at. rewrite Hp. case_decide as E; [subst; by apply list_lookup_total_insert_eq|]. by apply list_lookup_total_insert_ne.
Qed.

(** One process changes its memory, appears or disappears: it uses its own
    pages and free ones, and gives pages back to the free list. *)
Section change.
Context (s s' : kstate) (fl fl' : list Z) (ms : mems) (np : nat) (q : proc) (o : option (gmap Z nat * umap)).
Context (Hok : mems_ok s fl ms) (Hld : ld s' = ld s) (Hk : kmem_ok s' fl') (Hnp : (np < NPROC)%nat) (Hpt : procs (pt s') = <[np := q]> (procs (pt s))).
Let old : gset Z := match ms !! np with Some (lv, um) => held (proc_at np s) lv um | None => ∅ end.
Context (Hfl : forall x, x ∈ fl' -> x ∈ fl \/ x ∈ old) (Hm : forall a, page_of a ∉ fl -> page_of a ∉ old -> getb (mm s') a = getb (mm s) a).
Context (Ho : match o with
  | Some (lv, um) => proc_mem s' fl' q lv um /\ p_state q <> UNUSED /\ forall x, x ∈ held q lv um -> x ∈ fl \/ x ∈ old
  | None => clean q
  end).

Lemma change_proc j : proc_at j s' = if decide (j = np) then q else proc_at j s.
Proof using Hok Hnp Hpt. apply proc_at_insert; [done|]. rewrite (mo_nproc _ _ _ Hok). exact Hnp. Qed.

Lemma change_old p lv um x : p <> np -> ms !! p = Some (lv, um) -> x ∈ held (proc_at p s) lv um -> (x ∉ fl) /\ x ∉ old.
Proof using Hok.
  clear Hfl Hm Ho. intros Hne Hp Hx. split; [eapply held_not_free; [by apply (mo_mem _ _ _ Hok)|done]|]. unfold old. destruct (ms !! np) as [[lv' um']|] eqn:E; [|apply not_elem_of_empty].
  intros Hy. exact (mo_apart _ _ _ Hok p np lv um lv' um' Hp E Hne x Hx Hy).
Qed.

Lemma change_other p lv um : p <> np -> ms !! p = Some (lv, um) -> proc_mem s' fl' (proc_at p s') lv um /\ forall va, vget (mm s') um va = vget (mm s) um va.
Proof using All.
  intros Hne Hp. rewrite change_proc, decide_False by done. apply (proc_mem_frame s s' fl fl' (proc_at p s)); try done; [by apply (mo_mem _ _ _ Hok)| |].
  - intros x Hx Hh. destruct (change_old p lv um x Hne Hp Hh). by destruct (Hfl x Hx).
  - intros a Ha. assert (Hh : page_of a ∈ held (proc_at p s) lv um) by (apply elem_held; tauto). destruct (change_old p lv um _ Hne Hp Hh). by apply Hm.
Qed.

Lemma mems_change : mems_ok s' fl' (partial_alter (fun _ => o) np ms).
Proof using All.
  assert (Hl : forall p, partial_alter (fun _ => o) np ms !! p = if decide (p = np) then o else ms !! p).
  { intros p. case_decide as E; [subst; by rewrite lookup_partial_alter_eq|by rewrite lookup_partial_alter_ne]. }
  split; [done|rewrite Hpt, length_insert; by apply Hok|..].
  - intros p. rewrite Hl, change_proc. case_decide as E; [|by apply (mo_used _ _ _ Hok)]. subst. intros [[lv um] ->]. by destruct Ho as (_ & ? & _).
  - intros p lv um. rewrite Hl. case_decide as E; [|intros Hp; by apply change_other]. subst p. rewrite change_proc, decide_True by done. intros ->. by destruct Ho as (? & _).
  - intros p p' lv um lv' um'. rewrite !Hl, !change_proc. destruct (decide (p = np)) as [->|E], (decide (p' = np)) as [->|E']; intros Hp Hp' Hne; try done.
    + subst o. destruct Ho as (_ & _ & Hx). intros x H1 H2. destruct (change_old p' lv' um' x E' Hp' H2). by destruct (Hx x H1).
    + subst o. destruct Ho as (_ & _ & Hx). intros x H1 H2. destruct (change_old p lv um x E Hp H1). by destruct (Hx x H2).
    + by apply (mo_apart _ _ _ Hok p p').
  - intros p Hp. rewrite Hl, change_proc. case_decide as E; [|by apply (mo_clean _ _ _ Hok)]. intros ->. done.
Qed.
End change.

Lemma kmem_frame s s' fl : kmem_ok s fl -> mm s' = mm s -> freelist s' = freelist s -> ld s' = ld s -> kmem_ok s' fl.
Proof. intros [K1 K2 K3 K4] Hm Hf Hl. split; rewrite ?Hm, ?Hf, ?Hl; done. Qed.

Lemma vm_frame s s' root lv fl : vm_ok s root lv fl -> mm s' = mm s -> freelist s' = freelist s -> ld s' = ld s -> vm_ok s' root lv fl.
Proof. intros [V1 V2 V3] Hm Hf Hl. split; [by rewrite Hm|by apply (kmem_frame s)|done]. Qed.

Lemma uvm_empty s root lv fl : vm_ok s root lv fl -> uvm_ok s root lv fl ∅.
Proof. intros Hok. split; [done|..]; intros *; by rewrite lookup_empty. Qed.

(** Updates of one slot, one after the other. *)
Lemma run_upd_then {B} i (f g : proc -> proc) (k : K B) s (Q : B -> kstate -> Prop) : (i < length (procs (pt s)))%nat ->
  run (upd_proc i (fun q => g (f q)) ;; k) s Q -> run (upd_proc i f ;; upd_proc i g ;; k) s Q.
Proof.
  intros Hi H. unfold upd_proc in *. apply run_bind in H. unfold modify in *. cbn in *. unfold run in *. cbn in *. by rewrite proc_at_set, set_proc_at_twice.
Qed.
Lemma run_upd_last i (f g : proc -> proc) s (Q : unit -> kstate -> Prop) : (i < length (procs (pt s)))%nat ->
  Q tt (set_proc_at i (g (f (proc_at i s))) s) -> run (upd_proc i f ;; upd_proc i g) s Q.
Proof. intros Hi H. unfold upd_proc, run in *. cbn in *. by rewrite proc_at_set, set_proc_at_twice. Qed.

(** ** allocproc *)

Lemma seq_prefix n pre p post : seq 0 n = pre ++ p :: post -> (p < n)%nat /\ pre = seq 0 p.
Proof.
  intros H. assert (Hk : seq 0 n !! length pre = Some p) by (rewrite H; by rewrite list_lookup_middle).
  apply lookup_seq in Hk as [Hp Hlt]. cbn in Hp. subst p. split; [lia|]. apply (f_equal (take (length pre))) in H.
  rewrite take_app_length, take_seq in H. by replace (length pre `min` n)%nat with (length pre) in H by lia.
Qed.

Section alloc.
Context (h me : nat).

(** The first unused slot, locked. *)
Lemma run_find_unused s (Q : option nat -> kstate -> Prop) : owns h (Some me) [] (sy s) ->
  (forall y p, owns h (Some me) [LProc p] y -> (p < NPROC)%nat -> p_state (proc_at p s) = UNUSED -> (forall p', (p' < p)%nat -> p_state (proc_at p' s) <> UNUSED) -> Q (Some p) (set_sy y s)) ->
  (forall y, owns h (Some me) [] y -> (forall p, (p < NPROC)%nat -> p_state (proc_at p s) <> UNUSED) -> Q None (set_sy y s)) ->
  run (for_each (seq 0 NPROC) (fun p =>
    acquire (LProc p) ;;
    st <- gets (fun s => p_state (proc_at p s)) ;;
    if bool_decide (st = UNUSED) then ret (Some p)
    else release (LProc p) ;; ret None)) s Q.
Proof.
  intros Ho HQ HQ0. eapply (run_for_each _ _ s (fun pre s1 => exists y, owns h (Some me) [] y /\ s1 = set_sy y s /\ forall p, p ∈ pre -> p_state (proc_at p s) <> UNUSED)).
  - exists (sy s). split_and!; [done|by destruct s|by intros p ?%elem_of_nil].
  - intros pre p post s1 Hsp (y & Hy & -> & Hpre). destruct (seq_prefix _ _ _ _ Hsp) as [Hp ->]. wp. eapply run_acquire; [exact Hy|apply not_elem_of_nil|]. intros y1 Hy1. wp.
    change (proc_at p (set_sy y1 (set_sy y s))) with (proc_at p s). case_bool_decide as Hst; wp.
    + apply HQ; [done|done|done|]. intros p' Hp'. apply Hpre, elem_of_seq. lia.
    + eapply run_release; [exact Hy1|by apply elem_of_cons; left|]. intros y2 Hy2. rewrite drop_head in Hy2 by apply not_elem_of_nil. wp. exists y2. split_and!; [done|done|].
      intros p' [Hp'|Hp']%elem_of_app; [by apply Hpre|]. apply list_elem_of_singleton in Hp' as ->. done.
  - intros s1 (y & Hy & -> & Hall). apply HQ0; [done|]. intros p Hp. apply Hall, elem_of_seq. lia.
Qed.

(** Where the linker put the trampoline. *)
Definition tramp_ok (s : kstate) : Prop := ld_trampoline (ld s) mod PGSIZE = 0 /\ 0 <= ld_trampoline (ld s) /\ ld_trampoline (ld s) + PGSIZE <= 2 ^ 56.

(** A page table with the trampoline and the trap frame. *)
Section pagetable.
Context (ls : list lockid) (Hls : LKmem ∉ ls).

Lemma run_map_kernel s root lv fl q pa g (Q : Z -> kstate -> Prop) : owns h (Some me) ls (sy s) -> vm_ok s root lv fl -> 0 <= q -> (q + 1) * PGSIZE <= MAXVA ->
  pte_has (pte_of (mm s) root (q * PGSIZE)) PTE_V = false -> 0 <= pa /\ pa + PGSIZE <= 2 ^ 56 -> 0 <= g < 1024 -> (2 <= length fl)%nat ->
  (forall s' lv' fl', owns h (Some me) ls (sy s') -> remapped root s s' lv lv' fl fl' (map_range (pte_of (mm s) root) q 1 pa g) -> (length fl <= 2 + length fl')%nat -> Q 0 s') ->
  run (mappages root (q * PGSIZE) PGSIZE pa g) s Q.
Proof using Hls.
  intros Ho Hok Hq Hm Hinv Hpa Hg Hlen HQ. eapply (run_mappages_pages h (Some me) ls Hls s root lv fl q pa g 1); try done; try lia.
  - intros va Hva. rewrite <-Hinv. f_equal. assert (Heq : va / PGSIZE = q * PGSIZE / PGSIZE) by (rewrite Z.div_mul; lia). by apply pte_of_page.
  - apply PGROUNDDOWN_aligned, Z.mod_mul. lia.
  - rewrite u64_small by lia. rewrite PGROUNDDOWN_page. replace ((q * PGSIZE + PGSIZE - 1) / PGSIZE) with q; [lia|]. apply Z.div_unique_pos with (PGSIZE - 1); lia.
Qed.

Lemma run_proc_pagetable s np fl (Q : Z -> kstate -> Prop) : owns h (Some me) ls (sy s) -> kmem_ok s fl -> (5 <= length fl)%nat ->
  let tf := p_tf (proc_at np s) in tramp_ok s -> is_page (ld_end (ld s)) tf ->
  (forall root s' lv fl' used, owns h (Some me) ls (sy s') -> vm_shape s s' -> vm_ok s' root lv fl' -> fl = used ++ fl' -> dom lv = list_to_set used ->
     (forall a, page_of a ∉ used -> getb (mm s') a = getb (mm s) a) -> (length fl <= 5 + length fl')%nat ->
     (forall va, 0 <= va < MAXVA -> kpte (mm s') root ∅ va =
        if bool_decide (va / PGSIZE = TRAMPOLINE / PGSIZE) then Some (leaf_pte (ld_trampoline (ld s)) (Z.lor PTE_R PTE_X))
        else if bool_decide (va / PGSIZE = TRAPFRAME / PGSIZE) then Some (leaf_pte tf (Z.lor PTE_R PTE_W)) else None) -> Q root s') ->
  run (proc_pagetable np) s Q.
Proof using Hls.
  intros Ho Hk Hlen tf [Htra Htr] Htf HQ. destruct (is_page_range _ _ (km_end _ _ Hk) Htf) as [Htfa Htfr]. assert (Htf' : 0 <= tf /\ tf + PGSIZE <= 2 ^ 56) by (destruct Htf; lia). destruct fl as [|root fl]; [cbn in Hlen; lia|]. unfold proc_pagetable. apply run_bind.
  eapply run_uvmcreate; [exact Hls|done|done|]. intros s1 Ho1 Hs1 Hok1 Hsame1 Hun1. wp. assert (Hld1 : ld s1 = ld s) by by apply shape_ld. rewrite Hld1.
  change TRAMPOLINE with (TRAMPOLINE / PGSIZE * PGSIZE) at 1. cbn [length] in Hlen.
  eapply (run_map_kernel s1 root _ fl); [done|done|by vm_compute|by vm_compute|apply Hun1|done|done|lia|]. intros s2 lv2 fl2 Ho2 Hr2 Hl2. wp.
  assert (Hpt : proc_at np s2 = proc_at np s) by (destruct (rm_shape _ _ _ _ _ _ _ _ Hr2) as (? & ? & ? & ->); by destruct Hs1 as (? & ? & ? & ->)). rewrite Hpt. fold tf.
  change TRAPFRAME with (TRAPFRAME / PGSIZE * PGSIZE) at 1.
  eapply (run_map_kernel s2 root lv2 fl2); [done|apply Hr2|by vm_compute|by vm_compute| |done|done|lia|].
  { rewrite (rm_pte _ _ _ _ _ _ _ _ Hr2) by by vm_compute. unfold map_range. replace (bool_decide _) with false by by vm_compute. apply Hun1. }
  intros s3 lv3 fl3 Ho3 Hr3 Hl3. wp. pose proof (remapped_trans _ _ _ _ _ _ _ _ _ _ _ _ Hr2 Hr3) as Hr13. pose proof Hr13 as [A1 A2 A3 (u & A4 & A4') A5 A6].
  apply (HQ root s3 lv3 fl3 (root :: u)); [done|by eapply vm_shape_trans|done|by rewrite A4| | |cbn [length]; lia|].
  - rewrite A4', dom_singleton_L. by cbn.
  - intros a Ha. rewrite not_elem_of_cons in Ha. rewrite A5, Hsame1; [done| |].
    + intros Hin. destruct Ha as [Ha _]. apply Ha, page_of_in; [|done]. by apply (pt_page _ _ _ (vo_tree _ _ _ _ Hok1) root 2), lookup_singleton_eq.
    + apply not_elem_of_dom. rewrite A4', dom_singleton_L, elem_of_union, elem_of_singleton, elem_of_list_to_set. tauto.
  - intros va Hva. unfold kpte. rewrite lookup_empty, bool_decide_true by done. cbn [andb]. rewrite A6 by done. 
    assert (Hin : forall q x, bool_decide (q <= x < q + Z.of_nat 1) = bool_decide (x = q)) by (intros q x; apply bool_decide_ext; lia).
    assert (Hf2 : pte_of (mm s2) root va = if bool_decide (va / PGSIZE = TRAMPOLINE / PGSIZE) then leaf_pte (ld_trampoline (ld s)) (Z.lor PTE_R PTE_X) else pte_of (mm s1) root va).
    { rewrite (rm_pte _ _ _ _ _ _ _ _ Hr2) by done. unfold map_range. rewrite Hin. case_bool_decide as E; [|done]. rewrite E, Z.sub_diag, Z.mul_0_l, Z.add_0_r. done. }
    unfold map_range. rewrite Hin. destruct (decide (va / PGSIZE = TRAPFRAME / PGSIZE)) as [E|E].
    + rewrite (bool_decide_true _ E). rewrite E, Z.sub_diag, Z.mul_0_l, Z.add_0_r. replace (bool_decide (TRAPFRAME / PGSIZE = _)) with false by by vm_compute. by rewrite leaf_pte_valid by (done || lia).
    + rewrite (bool_decide_false _ E), Hf2. case_bool_decide; [by rewrite leaf_pte_valid by (done || lia)|]. by rewrite Hun1.
Qed.
End pagetable.

(** The slot as allocproc() leaves it. *)
Definition new_proc (q : proc) (pid tf root : Z) : proc :=
  set_p_context (set_ctx_sp (p_kstack q + PGSIZE) (set_ctx_ra CForkret null_context)) (set_p_pagetable root (set_p_tf tf (set_p_pid pid q))).

Record allocated (s : kstate) (fl : list Z) (np : nat) (q : proc) (lv : gmap Z nat) (fl' : list Z) (s' : kstate) : Prop := {
  al_owns : owns h (Some me) [LProc np] (sy s');
  al_shape : exists y m f t, s' = set_sy y (set_mm m (set_freelist f (set_pt t s))) /\ procs t = <[np := q]> (procs (pt s)) /\ nextpid t = s32 (nextpid (pt s) + 1);
  al_proc : exists tf root, q = new_proc (proc_at np s) (nextpid (pt s)) tf root;
  al_mem : proc_mem s' fl' q lv ∅;
  al_pages : forall x, x ∈ fl' \/ x ∈ held q lv ∅ <-> x ∈ fl;
  al_len : (length fl <= 6 + length fl')%nat;
  al_other : forall a, page_of a ∉ fl -> getb (mm s') a = getb (mm s) a
}.

Lemma run_allocproc s fl (Q : option nat -> kstate -> Prop) : owns h (Some me) [] (sy s) -> kmem_ok s fl -> length (procs (pt s)) = NPROC -> tramp_ok s -> (6 <= length fl)%nat ->
  (forall p, (p < NPROC)%nat -> p_state (proc_at p s) = UNUSED -> p_sz (proc_at p s) = 0) ->
  (forall y, owns h (Some me) [] y -> (forall p, (p < NPROC)%nat -> p_state (proc_at p s) <> UNUSED) -> Q None (set_sy y s)) ->
  (forall np q lv fl' s', (np < NPROC)%nat -> p_state (proc_at np s) = UNUSED -> (forall p, (p < np)%nat -> p_state (proc_at p s) <> UNUSED) ->
     allocated s fl np q lv fl' s' -> Q (Some np) s') ->
  run allocproc s Q.
Proof.
  intros Ho Hk Hn Htr Hlen Hsz HQ0 HQ. unfold allocproc. apply run_bind. apply run_find_unused; [done| |].
  2: { intros y Hy Hall. wp. by apply HQ0. }
  intros y1 np Hy1 Hnp Hst Hfst. unfold allocpid. wp. eapply run_acquire; [exact Hy1|set_solver|]. intros y2 Hy2. wp. eapply run_release; [exact Hy2|set_solver|]. intros y3 Hy3.
  rewrite drop_head in Hy3 by set_solver. unfold upd_proc. wp. destruct fl as [|tf fl]; [cbn in Hlen; lia|]. set (s3 := set_proc_at np _ _).
  eapply run_mono; [apply (kalloc_some h (Some me) [LProc np] s3 tf fl); [exact Hy3|set_solver|by apply (kmem_frame s)]|].
  intros r s4 (-> & Hk4 & Hy4 & _ & Hsame4 & y4 & m4 & f4 & Hs4). pose proof Hk as [_ _ [Hntf Hnd]%NoDup_cons [Hptf Hpfl]%Forall_cons]. pose proof (km_end _ _ Hk) as Hend.
  destruct (is_page_range _ _ Hend Hptf) as [Hatf Hrtf]. wp. destruct (Z.eqb_spec tf 0); [lia|]. wp. set (s5 := set_proc_at np _ _). cbn [length] in Hlen.
  assert (Hlt : (np < length (procs (pt s)))%nat) by lia. assert (Htf5 : p_tf (proc_at np s5) = tf). { unfold s5. rewrite proc_at_set; [done|]. rewrite Hs4. cbn. by rewrite length_insert. }
  assert (Hld5 : ld s5 = ld s) by (unfold s5; by rewrite Hs4).
  eapply (run_proc_pagetable [LProc np] ltac:(set_solver) s5 np fl); [exact Hy4|by apply (kmem_frame s4)|lia|unfold tramp_ok; by rewrite Hld5|by rewrite Htf5, Hld5|].
  intros root s6 lv fl' used Hy6 Hs6 Hok6 Hfl Hdom Hm6 Hlen6 Hkp. rewrite Htf5, Hld5 in Hkp. wp. set (s8 := set_proc_at np _ (set_proc_at np _ s6)).
  set (q := new_proc (proc_at np s) (nextpid (pt s)) tf root).
  assert (Hpt6 : pt s6 = pt s5) by by destruct Hs6 as (? & ? & ? & ->). assert (Hpt4 : pt s4 = pt s3) by by rewrite Hs4.
  assert (Hq3 : proc_at np s3 = set_p_pid (nextpid (pt s)) (proc_at np s)) by (unfold s3; by rewrite proc_at_set).
  assert (Hq5 : proc_at np s5 = set_p_tf tf (proc_at np s3)) by (unfold s5; rewrite proc_at_set; [unfold proc_at; by rewrite Hpt4|rewrite Hpt4; cbn; by rewrite length_insert]).
  assert (Hq8 : procs (pt s8) = <[np := q]> (procs (pt s)) /\ nextpid (pt s8) = s32 (nextpid (pt s) + 1)).
  { assert (Hq6 : proc_at np s6 = proc_at np s5) by (unfold proc_at; by rewrite Hpt6). unfold s8. rewrite set_proc_at_twice, proc_at_set by (rewrite Hpt6; cbn; rewrite Hpt4; cbn; by rewrite !length_insert).
    rewrite Hq6, Hq5, Hq3. cbn. rewrite Hpt6. cbn. rewrite Hpt4. cbn. by rewrite !list_insert_insert_eq. }
  assert (Hmem : proc_mem s8 fl' q lv ∅).
  { split; cbn [p_pagetable p_sz p_tf q new_proc set_p_context set_p_pagetable set_p_tf set_p_pid].
    - by apply uvm_empty, (vm_frame s6).
    - intros x Hx. change (ld s8) with (ld s6). rewrite (shape_ld _ _ Hs6), Hld5. eapply Forall_forall in Hpfl; [exact Hpfl|].
      rewrite Hfl. apply elem_of_app. left. apply elem_of_dom in Hx. rewrite Hdom in Hx. by apply elem_of_list_to_set in Hx.
    - change (0 <= p_sz (proc_at np s) <= TRAPFRAME). rewrite Hsz by done. split; by vm_compute.
    - intros vp. rewrite lookup_empty. change (p_sz _) with (p_sz (proc_at np s)). rewrite Hsz by done. change (pages 0) with 0. split; [by intros []|lia].
    - change (ld s8) with (ld s6). rewrite (shape_ld _ _ Hs6), Hld5. split; [done|]. rewrite elem_of_owned. intros [Hx|[Hx|(vp & g & Hx)]]; [..|by rewrite lookup_empty in Hx].
      + apply elem_of_dom in Hx. rewrite Hdom in Hx. apply elem_of_list_to_set in Hx. apply Hntf. rewrite Hfl. apply elem_of_app. by left.
      + apply Hntf. rewrite Hfl. apply elem_of_app. by right.
    - intros va Hva. change (mm s8) with (mm s6). change (ld s8) with (ld s6). rewrite (shape_ld _ _ Hs6), Hld5. by apply Hkp. }
  apply (HQ np q lv fl' s8); try done. split; try done.
  - exists (sy s8), (mm s8), (freelist s8), (pt s8). split; [|done]. destruct Hs6 as (y6 & m6 & f6 & Hs6). unfold s8. rewrite Hs6. unfold s5. by rewrite Hs4.
  - by exists tf, root.
  - intros x. assert (Hx : is_Some (lv !! x) <-> x ∈ used) by (rewrite <-elem_of_dom, Hdom; apply elem_of_list_to_set). assert (Hfr : x ∉ frames ∅) by (by intros (vp & g & Hf)%elem_of_frames).
    rewrite elem_held, Hfl, elem_of_cons, elem_of_app, Hx. change (p_tf q) with tf. tauto.
  - cbn [length]. lia.
  - intros a Ha. rewrite not_elem_of_cons in Ha. destruct Ha as [Ha1 Ha2]. change (mm s8) with (mm s6). rewrite Hm6.
    + change (mm s5) with (mm s4). rewrite Hsame4; [done|]. intros Hin. by apply Ha1, page_of_in.
    + intros Hx. apply Ha2. rewrite Hfl. apply elem_of_app. by left.
Qed.

(** ** freeproc *)

Section free.
Context (ls : list lockid) (Hls : LKmem ∉ ls).

(** All pages of [X] are free, and nothing outside the free pages and [Y] has changed. *)
Record given (s s' : kstate) (fl fl' : list Z) (X Y : gset Z) : Prop := {
  gv_owns : owns h (Some me) ls (sy s');
  gv_shape : exists y m f t, s' = set_sy y (set_mm m (set_freelist f (set_pt t s)));
  gv_kmem : kmem_ok s' fl';
  gv_free : forall x, x ∈ fl' <-> x ∈ fl \/ x ∈ X;
  gv_other : forall a, page_of a ∉ fl -> page_of a ∉ Y -> getb (mm s') a = getb (mm s) a
}.

Lemma run_unmap_kernel s root lv fl um q pa g (Q : unit -> kstate -> Prop) (F : Z -> option Z) : owns h (Some me) ls (sy s) -> uvm_ok s root lv fl um ->
  0 <= q -> (q + 1) * PGSIZE <= MAXVA -> (forall va, 0 <= va < MAXVA -> kpte (mm s) root um va = if bool_decide (va / PGSIZE = q) then Some (leaf_pte pa g) else F va) ->
  pa mod PGSIZE = 0 -> 0 <= pa < 2 ^ 56 -> user_flags g ->
  (forall s', owns h (Some me) ls (sy s') -> vm_shape s s' -> uvm_ok s' root lv fl um -> (forall a, lv !! page_of a = None -> getb (mm s') a = getb (mm s) a) ->
     (forall va, 0 <= va < MAXVA -> kpte (mm s') root um va = if bool_decide (va / PGSIZE = q) then None else F va) -> Q tt s') ->
  run (uvmunmap root (q * PGSIZE) PGSIZE false) s Q.
Proof using Type.
  intros Ho Hok Hq0 Hq1 Hk Hpa Hpr Hg HQ. pose proof (Hk (q * PGSIZE) ltac:(lia)) as Hkq. rewrite Z.div_mul, bool_decide_true in Hkq by (done || lia).
  unfold kpte in Hkq. rewrite Z.div_mul in Hkq by lia. destruct (bool_decide (um !! q = None)) eqn:Eu; [|done]. apply bool_decide_eq_true in Eu. cbn [andb] in Hkq.
  destruct (pte_has _ PTE_V) eqn:Ev; [|done]. injection Hkq as Hkq.
  eapply (run_unmap_keep h (Some me) ls s root lv fl um q pa g); [done|done|done|lia|lia|done|done|done|done|]. intros s' Ho' Hs' Hok' _ Hm' Hp'. apply HQ; try done.
  intros va Hva. pose proof (Hp' va Hva) as Hpv. pose proof (Hk va Hva) as Hkv. destruct (decide (va / PGSIZE = q)) as [E|E].
  - rewrite (bool_decide_true _ E) in *. apply kpte_invalid. by rewrite Hpv.
  - rewrite (bool_decide_false _ E) in *. rewrite <-Hkv. by apply kpte_same.
Qed.

(** What proc_freepagetable() gives back: nothing when the size is 0. *)
Definition reclaimed (sz : Z) (lv : gmap Z nat) (um : umap) : gset Z := if 0 <? sz then dom lv ∪ frames um else ∅.

Lemma run_freepagetable s root lv fl um sz tf (Q : unit -> kstate -> Prop) : owns h (Some me) ls (sy s) -> uvm_ok s root lv fl um -> tramp_ok s ->
  (forall t, is_Some (lv !! t) -> is_page (ld_end (ld s)) t) -> 0 <= sz <= TRAPFRAME -> (forall vp, is_Some (um !! vp) <-> 0 <= vp < pages sz) -> tf mod PGSIZE = 0 -> 0 <= tf < 2 ^ 56 ->
  (forall va, 0 <= va < MAXVA -> kpte (mm s) root um va =
    if bool_decide (va / PGSIZE = TRAMPOLINE / PGSIZE) then Some (leaf_pte (ld_trampoline (ld s)) (Z.lor PTE_R PTE_X))
    else if bool_decide (va / PGSIZE = TRAPFRAME / PGSIZE) then Some (leaf_pte tf (Z.lor PTE_R PTE_W)) else None) ->
  (forall s' fl', given s s' fl fl' (reclaimed sz lv um) (dom lv ∪ frames um) -> pt s' = pt s -> Q tt s') -> run (proc_freepagetable root sz) s Q.
Proof using Hls.
  intros Ho Hok [Ht1 Ht2] Htab Hsz Hus Htf1 Htf2 Hk HQ. unfold proc_freepagetable. apply run_bind. change TRAMPOLINE with (TRAMPOLINE / PGSIZE * PGSIZE) at 1.
  eapply (run_unmap_kernel s root lv fl um _ _ _ _ _ Ho Hok); [by vm_compute|by vm_compute|exact Hk|done|lia|by split|]. intros s1 Ho1 Hs1 Hok1 Hm1 Hk1. apply run_bind.
  change TRAPFRAME with (TRAPFRAME / PGSIZE * PGSIZE) at 1.
  eapply (run_unmap_kernel s1 root lv fl um _ tf (Z.lor PTE_R PTE_W) _ (fun _ => None) Ho1 Hok1); [by vm_compute|by vm_compute| |done|done|by split|].
  { intros va Hva. rewrite Hk1 by done. destruct (decide (va / PGSIZE = TRAMPOLINE / PGSIZE)) as [E|E]; [|by rewrite (bool_decide_false _ E)]. rewrite (bool_decide_true _ E), E. by vm_compute. }
  intros s2 Ho2 Hs2 Hok2 Hm2 Hk2. assert (Hsh2 : vm_shape s s2) by by eapply vm_shape_trans. unfold reclaimed in HQ. destruct (Z.ltb_spec 0 sz); unfold when; cycle 1.
  { wp. apply (HQ s2 fl); [split|]; try done.
    - by apply shape_pt.
    - apply Hok2.
    - intros x. set_solver.
    - intros a H1 H2. assert (Hlv : lv !! page_of a = None) by (apply not_elem_of_dom; set_solver). by rewrite Hm2, Hm1.
    - by destruct Hsh2 as (y & m & f & ->). }
  pose proof (shape_ld _ _ Hs1) as Hl1. pose proof (shape_ld _ _ Hs2) as Hl2.
  eapply (run_uvmfree h (Some me) ls Hls s2 root lv fl um sz); [done|done|by rewrite Hl2, Hl1|lia|done|by intros va Hva; rewrite Hk2 by done; case_bool_decide|].
  intros s3 fl' Ho3 Hs3 Hk3 Hfl' Hm3. assert (Hsh : vm_shape s s3) by by eapply vm_shape_trans.
  assert (Hown : forall x, x ∈ owned lv fl um <-> x ∈ fl \/ x ∈ dom lv ∪ frames um) by (intros x; unfold owned; rewrite !elem_of_union, elem_of_list_to_set; tauto).
  apply (HQ s3 fl'); [split|]; try done.
  - by apply shape_pt.
  - intros x. by rewrite Hfl', Hown.
  - intros a H1 H2. assert (Hlv : lv !! page_of a = None) by (apply not_elem_of_dom; set_solver). rewrite Hm3 by (rewrite Hown; tauto). by rewrite Hm2, Hm1.
  - by destruct Hsh as (y & m & f & ->).
Qed.

(** The slot as freeproc() leaves it. *)
Definition freed (q : proc) : proc :=
  set_p_state UNUSED (set_p_xstate 0 (set_p_killed false (set_p_chan None (set_p_name (<[O := 0]> (p_name q))
    (set_p_parent None (set_p_pid 0 (set_p_sz 0 (set_p_pagetable 0 (set_p_tf 0 q))))))))).

Lemma run_freeproc s fl np lv um (Q : unit -> kstate -> Prop) : let q := proc_at np s in owns h (Some me) ls (sy s) -> (np < length (procs (pt s)))%nat ->
  proc_mem s fl q lv um -> tramp_ok s ->
  (forall s' fl', given s s' fl fl' ({[p_tf q]} ∪ reclaimed (p_sz q) lv um) (held q lv um) -> pt s' = set_procs (<[np := freed q]> (procs (pt s))) (pt s) -> Q tt s') -> run (freeproc np) s Q.
Proof using Hls.
  intros q Ho Hnp [Hu Htab Hsz Hus [Htf Htf'] Hkp] Htr HQ. pose proof (vo_kmem _ _ _ _ (uo_vm _ _ _ _ _ Hu)) as Hk. pose proof (km_end _ _ Hk) as Hend.
  destruct (is_page_range _ _ Hend Htf) as [Htfa Htfr]. pose proof (pt_root _ _ _ (vo_tree _ _ _ _ (uo_vm _ _ _ _ _ Hu))) as Hroot. rewrite elem_of_owned in Htf'.
  assert (Hr0 : p_pagetable q <> 0) by (pose proof (pt_page _ _ _ (vo_tree _ _ _ _ (uo_vm _ _ _ _ _ Hu)) _ _ Hroot); lia).
  unfold freeproc. wp. fold q. destruct (Z.eqb_spec (p_tf q) 0); [lia|]. destruct (Z.eqb_spec (p_pagetable q) 0); [done|]. cbn [negb]. unfold when. apply run_bind.
  eapply (run_release_page h (Some me) ls Hls s (p_tf q) fl); [done|done|done|tauto|]. intros s1 fl1 [R1 R2 R3 R4 R5]. unfold upd_proc at 1. wp.
  assert (Hl1 : ld s1 = ld s) by by apply shape_ld. set (s2 := set_proc_at np _ s1).
  assert (Hpages : forall x, x ∈ fl1 -> lv !! x = None /\ x ∉ frames um).
  { intros x. rewrite R4, list_elem_of_singleton. intros [Hx| ->].
    - split; [by apply (vo_fresh _ _ _ _ (uo_vm _ _ _ _ _ Hu))|]. intros (vp & g & Hf)%elem_of_frames. by destruct (uo_frame _ _ _ _ _ Hu _ _ _ Hf) as (_ & ? & _).
    - split; [destruct (lv !! p_tf q) eqn:E; [exfalso; apply Htf'; left; by eexists|done]|]. intros (vp & g & Hf)%elem_of_frames. apply Htf'. eauto. }
  destruct (uvm_pages s s2 (p_pagetable q) lv fl fl1 um Hu Hl1) as (Hu2 & _ & Hpte2); [by apply (kmem_frame s1)|done| |].
  { intros a Ha. change (mm s2) with (mm s1). apply R5. rewrite list_elem_of_singleton. intros E. rewrite E in Ha. destruct Ha as [?|(vp & g & Hf)%elem_of_frames]; apply Htf'; eauto. }
  assert (Htfr' : 0 <= p_tf q < 2 ^ 56) by lia. assert (Hl2 : ld s2 = ld s) by exact Hl1.
  eapply (run_freepagetable s2 (p_pagetable q) lv fl1 um (p_sz q) (p_tf q));
    [exact R1|exact Hu2|unfold tramp_ok; rewrite Hl2; exact Htr|rewrite Hl2; exact Htab|exact Hsz|exact Hus|exact Htfa|exact Htfr'| |].
  { intros va Hva. change (ld s2) with (ld s1). rewrite Hl1, <-Hkp by done. by apply kpte_same. }
  intros s3 fl3 [G1 (y3 & m3 & f3 & t3 & G2) G3 G4 G5] Hpt3.
  assert (Hlen3 : (np < length (procs (pt s3)))%nat) by (rewrite Hpt3; cbn; rewrite length_insert; by destruct R2 as (? & ? & ? & ->)).
  assert (Hpt1 : pt s1 = pt s) by by destruct R2 as (? & ? & ? & ->).
  assert (Hq3 : proc_at np s3 = set_p_tf 0 q). { unfold proc_at at 1. rewrite Hpt3. change (proc_at np s2 = set_p_tf 0 q). unfold s2. rewrite proc_at_set by by rewrite Hpt1. unfold proc_at. by rewrite Hpt1. }
  do 7 (apply run_upd_then; [done|]). apply run_upd_last; [done|]. rewrite Hq3.
  set (s' := set_proc_at np _ s3). apply (HQ s' fl3); [split|].
  - done.
  - exists (sy s'), (mm s'), (freelist s'), (pt s'). unfold s'. rewrite G2. unfold s2. by destruct R2 as (? & ? & ? & ->).
  - by apply (kmem_frame s3).
  - intros x. rewrite G4, R4, list_elem_of_singleton, elem_of_union, elem_of_singleton. tauto.
  - intros a H1 H2. rewrite elem_held in H2. change (mm s') with (mm s3). rewrite G5.
    + change (mm s2) with (mm s1). apply R5. rewrite list_elem_of_singleton. tauto.
    + rewrite R4, list_elem_of_singleton. tauto.
    + rewrite elem_of_union, elem_of_dom. tauto.
  - unfold s'. cbn. rewrite Hpt3. cbn. rewrite Hpt1. by rewrite list_insert_insert_eq.
Qed.
End free.
End alloc.
End ProcMem.
