(* ===== verification/UserRead.v ===== *)
(** * Reading a file to kernel or user memory (readi of kernel/fs.c)

    readi() with both kinds of destination, on every path: the checks of the
    offset, the copy to kernel memory, and the copy through the page table of
    the process, which stops where user memory cannot be reached. *)

From S2P Require Import Prelude Bytes CString KState Spinlock Kernel Riscv Machine Kalloc Vm PageTable Uvm AddressSpace Sched Console Virtio Disk Bio Cache Log Commit Transaction VirtioRefine Crash Fs Tx Balloc Dinode Inode FileIO Atomic FileSystem Pipe File Proc ProcMem.

Module UserRead.
Import Kalloc Vm PageTable Uvm Sched Virtio Disk Bio Cache Log Commit Transaction VirtioRefine Machine Crash Fs Tx Balloc Dinode Inode FileIO FileSystem ProcMem.

Section user.
Context (E : kstate -> kstate -> Prop) `{HE : !DiskEnv E} (h p dv : nat) (sb : superblock) (ip : nat).
Context (root : Z) (lv : gmap Z nat) (fl : list Z) (um : umap).
Abbreviation tx := (tx E h p dv).
Abbreviation tmoves := (tmoves E h p).
Abbreviation calm := (calm E ip).
Abbreviation live := (live sb ip).

(** User pages are memory the kernel may write; they, the page table and the
    free pages are apart from the headers of disk requests. *)
Definition user_place : Prop :=
  (forall a, page_of a ∈ frames um -> buffer a /\ ~ scratch a) /\ (forall a, is_Some (lv !! page_of a) \/ page_of a ∈ fl -> ~ scratch a).

(** The address space of process [p]. *)
Record uspace (s : kstate) : Prop := {
  us_root : p_pagetable (proc_at p s) = root;
  us_uvm : uvm_ok s root lv fl um;
  us_only : user_only s root um
}.

Definition same_map (s s' : kstate) : Prop := forall va, uread (mm s') root va = None <-> uread (mm s) root va = None.

Context (Hplace : user_place).

Lemma only_same s s' : user_only s root um -> same_map s s' -> user_only s' root um.
Proof using Type. intros Ho Hs va H0 Hu. apply (Ho va H0), not_eq_None_Some. intros Hn. apply Hs in Hn. rewrite Hn in Hu. by destruct Hu. Qed.

(** Accesses to the disk leave the address space alone. *)
Lemma uspace_calm s s' : uspace s -> calm (fun _ => False) s s' -> uspace s' /\ (forall va, vget (mm s') um va = vget (mm s) um va) /\ same_map s s'.
Proof using Hplace.
  intros [U1 U2 U3] (y & m & t & v & bs & l & i & -> & Ht & Hm & _). set (s' := mkK _ _ _ _ _ _ _ _ _ _ _ _ _ _ _). destruct Hplace as [P1 P2].
  pose proof (vo_kmem _ _ _ _ (uo_vm _ _ _ _ _ U2)) as [K1 K2 K3 K4].
  assert (Hk : kmem_ok s' fl).
  { split; try done. apply (chain_ext (mm s)); [|done]. apply Forall_forall. intros x Hx. apply ldn_ext. intros b Hb. apply Hm; [|tauto]. apply P2. right.
    rewrite (page_of_in x); [done|by apply (proj1 (Forall_forall _ _) K4 x Hx)|lia]. }
  destruct (uvm_pages s s' root lv fl fl um U2 eq_refl Hk) as (Hu & Hv & Hp).
  { intros x Hx. split; [by apply (vo_fresh _ _ _ _ (uo_vm _ _ _ _ _ U2))|].
    intros (vp & g & Hvp)%elem_of_frames. by apply (uo_frame _ _ _ _ _ U2 _ _ _ Hvp). }
  { intros a [Ha|Ha]; apply Hm; try tauto; [by apply P2; left|by apply P1]. }
  assert (Hs : same_map s s') by (intros va; by apply uread_none). split; [split|split; done].
  - rewrite <-U1. exact (eq_sym (f_equal p_pagetable (pt_sim_proc _ _ p Ht))).
  - done.
  - by apply (only_same s).
Qed.

(** either_copyout to user memory. *)
Lemma runE_copyout_user s lg ct H i dst bs (Q : Z -> kstate -> Prop) : tx s lg ct H -> live s i -> uspace s -> 0 <= dst ->
  (forall r k s', calm (fun a => page_of a ∈ frames um) s s' -> live s' i -> tx s' lg ct H -> uspace s' -> same_map s s' ->
     (forall va, vget (mm s') um va = if bool_decide (dst <= va < dst + Z.of_nat k) then Some (u8 (default 0 (bs !! Z.to_nat (va - dst)))) else vget (mm s) um va) ->
     (r = 0 /\ k = length bs \/ r = -1 /\ (k < length bs)%nat /\ uread (mm s) root (dst + Z.of_nat k) = None) -> Q r s') ->
  runE E (either_copyout true dst bs) s Q.
Proof using Hplace.
  intros Htx Hl [U1 U2 U3] H0 HQ. unfold either_copyout. apply runE_bind.
  assert (Ho : owns h (Some p) [] (sy s)) by (destruct Htx as [(L & rc & Hh & _) _ _]; apply Hh).
  eapply run_runE, run_myproc; [exact Ho|]. intros y Hy. cbv iota. wp. change (proc_at p (set_sy y s)) with (proc_at p s). rewrite U1.
  assert (U2' : uvm_ok (set_sy y s) root lv fl um) by (by eapply uvm_frame; [..|exact U2]).
  eapply run_runE, run_mono; [apply (run_copyout (set_sy y s) root lv fl um dst bs U2' U3 H0)|].
  intros r s' (k & (m & -> & U4 & Hp & Hv & Hf) & Hr). change (mm (set_sy y s)) with (mm s) in *.
  destruct (calm_set_sy E sb ip (fun a => page_of a ∈ frames um) y s i Hl) as [C1 L1].
  destruct (calm_set_mm E sb ip (fun a => page_of a ∈ frames um) m (set_sy y s) i L1 Hf) as [C2 L2].
  assert (Hs : same_map s (set_mm m (set_sy y s))) by (intros va; by apply uread_none).
  eapply (HQ r k); [eapply calm_trans; [exact C1|exact C2]|done| |split; [done|exact U4|by apply (only_same s)]|done|exact Hv|exact Hr].
  apply tx_set_mm; [by apply tx_set_sy|]. intros a Ha. apply Hf. intros Hin. by apply Ha, Hplace.
Qed.

(** *** The loop *)

Section loop.
Context (s : kstate) (lg : gset bkey) (ct : disk) (i : inode) (off n dst : Z).
Context (Htx : tx s lg ct []) (Hlive : live s i) (Hus : uspace s) (Hg : geom dv sb ct) (Hok : file_ok dv sb ct i) (Hlg : (size lg < 29)%nat).
Context (Hoff : 0 <= off) (Hn : 0 <= n) (Hsz : off + n <= MAXFILE * BSIZE) (Hdst : 0 <= dst /\ dst + n < 2 ^ 64).
Context (Hmap : forall bn, off / BSIZE <= bn -> bn * BSIZE < off + n -> fblk dv ct i bn <> 0).

(** [tot] bytes are in user memory. *)
Record uhave (tot : Z) (s' : kstate) : Prop := {
  uh_calm : calm (fun a => page_of a ∈ frames um) s s';
  uh_live : live s' i;
  uh_tx : tx s' lg ct [];
  uh_space : uspace s';
  uh_map : same_map s s';
  uh_bytes : forall va, vget (mm s') um va = if bool_decide (dst <= va < dst + tot) then Some (fbyte dv ct i (off + (va - dst))) else vget (mm s) um va
}.

(** The copy has stopped after [k] bytes. *)
Definition stopped (k : Z) (s' : kstate) : Prop := 0 <= k < n /\ uhave k s' /\ uread (mm s) root (dst + k) = None.

Lemma same_map_trans s1 s2 s3 : same_map s1 s2 -> same_map s2 s3 -> same_map s1 s3.
Proof using Type. intros H1 H2 va. rewrite (H2 va). apply H1. Qed.

(** A piece of [tot + k] bytes after the first [tot]. *)
Lemma uhave_more tot m k d s1 s2 : 0 <= tot -> uhave tot s1 -> let o := off + tot in m <= BSIZE - o mod BSIZE -> Z.of_nat k <= m ->
  ct !! (dv, fblk dv ct i (o / BSIZE)) = Some d -> fblk dv ct i (o / BSIZE) <> 0 ->
  calm (fun a => page_of a ∈ frames um) s1 s2 -> live s2 i -> tx s2 lg ct [] -> uspace s2 -> same_map s1 s2 ->
  (forall va, vget (mm s2) um va = if bool_decide (dst + tot <= va < dst + tot + Z.of_nat k) then Some (u8 (default 0 (get_bytes (Z.to_nat m) d (o mod BSIZE) !! Z.to_nat (va - (dst + tot))))) else vget (mm s1) um va) ->
  uhave (tot + Z.of_nat k) s2.
Proof using Hoff Hlg.
  intros Ht [A1 A2 A3 A4 A5 A6] o Hm Hk Hd Hne C L T U S V. split; [by eapply calm_trans|done|done|done|by eapply same_map_trans|].
  intros va. rewrite V, A6. destruct (decide (dst + tot <= va < dst + tot + Z.of_nat k)) as [Hin|Hin].
  - rewrite !bool_decide_true by lia. rewrite lookup_get_bytes by lia. cbn [default from_option id]. f_equal. unfold fbyte.
    destruct (piece o (m + tot) tot ltac:(unfold o; lia) ltac:(lia)) as (_ & _ & _ & Hx). destruct (Hx (off + (va - dst))) as [Ed Em]; [unfold o in *; lia|].
    rewrite Ed, Em. destruct (Z.eqb_spec (fblk dv ct i (o / BSIZE)) 0); [done|]. rewrite Hd. rewrite u8_small by apply getb_range. f_equal. unfold o. lia.
  - rewrite (bool_decide_false (dst + tot <= va < _)) by done. assert (bool_decide (dst <= va < dst + tot) = bool_decide (dst <= va < dst + (tot + Z.of_nat k))) as -> by (apply bool_decide_ext; lia). done.
Qed.

Lemma runE_user_piece tot s1 (Q : (Z * Z * Z + unit) -> kstate -> Prop) : 0 <= tot < n -> uhave tot s1 ->
  (forall s', let m := Z.min (n - tot) (BSIZE - (off + tot) mod BSIZE) in
     uhave (tot + m) s' -> Q (inl (tot + m, off + tot + m, dst + tot + m)) s') ->
  (forall s' k, stopped k s' -> Q (inr tt) s') ->
  runE E (addr <- bmap ip ((off + tot) / BSIZE) ;;
      bp <- bread (i_dev i) addr ;;
      let m := Z.min (n - tot) (BSIZE - (off + tot) mod BSIZE) in
      d <- data_of bp ;;
      r <- either_copyout true (dst + tot) (get_bytes (Z.to_nat m) d ((off + tot) mod BSIZE)) ;;
      brelse bp ;;
      if r =? -1 then ret (inr tt)
      else ret (inl (tot + m, off + tot + m, u64 (dst + tot + m)))) s1 Q.
Proof using All.
  intros Ht Hh HQ HQs. pose proof Hh as [_ L1 T1 U1 S1 _]. set (o := off + tot) in *.
  destruct (piece o n tot ltac:(unfold o; lia) Ht) as (Hm1 & Hm2 & Hm3 & _). set (m := Z.min _ _) in *.
  assert (Hbn : 0 <= o / BSIZE < MAXFILE /\ fblk dv ct i (o / BSIZE) <> 0).
  { pose proof (Z.div_mod o BSIZE ltac:(lia)). pose proof (Z.div_pos o BSIZE ltac:(unfold o; lia) ltac:(lia)). split; [unfold o in *; lia|].
    apply Hmap; [apply Z.div_le_mono; unfold o; lia|unfold o in *; lia]. }
  destruct Hbn as [Hbn Hne]. destruct (fo_blk _ _ _ _ Hok _ Hbn Hne) as [Hgood _]. destruct (good_data _ _ _ _ Hg Hgood) as (d & Hd & Hlen).
  assert (Hk0 : (dv, fblk dv ct i (o / BSIZE)) <> (0%nat, 0)) by (intros [= _ E0]; done).
  apply runE_bind. eapply (runE_bmap_mapped E h p dv sb ip); try done. intros s2 M2 T2. destruct (calm_tmoves E h p sb ip (fun _ => False) _ _ _ L1 M2) as [C2 L2].
  rewrite (fo_dev _ _ _ _ Hok). apply runE_bind. eapply tx_bread; [exact T2|done|apply not_elem_of_nil|exact Hd|cbn; lia|].
  intros bp s3 M3 T3. destruct (calm_tmoves E h p sb ip (fun _ => False) _ _ _ L2 M3) as [C3 L3].
  apply runE_bind. eapply runE_data_of; [exact T3|apply elem_of_cons; by left|]. apply runE_bind.
  destruct (uspace_calm s1 s3 U1 (calm_trans _ _ _ _ _ _ C2 C3)) as (U3 & V3 & S3).
  eapply (runE_copyout_user s3 lg ct _ i (dst + tot)); [exact T3|done|done|lia|]. intros r k s4 C4 L4 T4 U4 S4 V4 Hr. apply runE_bind.
  eapply tx_brelse; [exact T4|done|exact Hd|]. intros s5 M5 T5. destruct (calm_tmoves E h p sb ip (fun _ => False) _ _ _ L4 M5) as [C5 L5]. destruct (uspace_calm s4 s5 U4 C5) as (U5 & V5 & S5).
  rewrite length_get_bytes in Hr. assert (Hk : Z.of_nat k <= m) by (destruct Hr as [[_ ->]|(_ & ? & _)]; lia).
  assert (Hmore : uhave (tot + Z.of_nat k) s5).
  { eapply (uhave_more tot m k d s1 s5); [lia|exact Hh|fold o; lia|done|exact Hd|done| |done|done|done|exact (same_map_trans _ _ _ (same_map_trans _ _ _ S3 S4) S5)|].
    - eapply calm_trans; [eapply calm_weaken; [|eapply calm_trans; [exact C2|exact C3]]; tauto|]. eapply calm_trans; [exact C4|]. eapply calm_weaken; [|exact C5]. tauto.
    - intros va. by rewrite V5, V4, V3. }
  destruct Hr as [[-> ->]|(-> & Hlt & Hnone)].
  - change (0 =? -1) with false. cbv iota. wp. rewrite u64_small by lia. apply HQ. by replace (tot + m) with (tot + Z.of_nat (Z.to_nat m)) by lia.
  - change (-1 =? -1) with true. cbv iota. wp. apply (HQs _ (tot + Z.of_nat k)). split; [lia|]. split; [done|]. rewrite Z.add_assoc. apply S1. by apply S3.
Qed.

Lemma runE_readi_user n0 (Q : Z -> kstate -> Prop) : off <= i_size i < 2 ^ 31 -> off + n0 < 2 ^ 32 -> 0 <= n0 -> n = Z.min n0 (i_size i - off) ->
  (forall s', uhave n s' -> Q n s') -> (forall s' k, stopped k s' -> Q n s') -> runE E (readi ip true dst off n0) s Q.
Proof using All.
  intros Hsize Hn0 Hn0' Hmin HQ HQs. unfold readi. apply runE_bind. pose proof Hlive as (_ & Hi & _). wp. rewrite Hi.
  destruct (Z.ltb_spec (i_size i) off); [lia|]. rewrite u32_small by lia. destruct (Z.ltb_spec (off + n0) off); [lia|]. cbn [orb].
  assert ((if i_size i <? off + n0 then i_size i - off else n0) = n) as -> by (destruct (Z.ltb_spec (i_size i) (off + n0)); lia). cbv zeta. apply runE_bind.
  eapply (runE_loop E _ (fun '(tot, o, d) s' => 0 <= tot <= n /\ o = off + tot /\ d = dst + tot /\ uhave tot s')
    (fun '(tot, _, _) _ => Z.to_nat (n - tot))).
  - intros [[tot o] d] s1 (Ht & -> & -> & Hh). destruct (Z.ltb_spec tot n).
    + eapply runE_user_piece; [lia|done| |].
      * intros s' m Hh'. destruct (piece (off + tot) n tot ltac:(lia) ltac:(lia)) as (Hm1 & _). fold m in Hm1. split; [|lia]. split_and!; try lia. done.
      * intros s' k Hs. wp. rewrite s32_small by lia. by eapply HQs.
    + wp. rewrite s32_small by lia. apply HQ. by replace n with tot by lia.
  - split_and!; try lia. split; try done; [by eapply calm_tmoves; [|eapply tmoves_refl]|]. intros va. by rewrite bool_decide_false by lia.
  - lia.
Qed.
End loop.
End user.

Section theorem.
Context (device : nat -> kstate -> kstate -> Prop) `{HD : !BlockDevice device} (A : nat -> Z) (W : Z -> Prop).
Abbreviation E := (env device).
#[local] Instance read_disk_env : DiskEnv E := driver_DiskEnv device A W.
Context (h p dv : nat) (sb : superblock) (root : Z) (lv : gmap Z nat) (fl : list Z) (um : umap).

(** Where the bytes may go: to kernel memory apart from the headers of disk
    requests, or to an address space. *)
Definition destination (user_dst : bool) (s : kstate) (dst r : Z) : Prop :=
  if user_dst then user_place E lv fl um /\ uspace p root lv fl um s else forall a, dst <= a < dst + r -> W a /\ ~ header A a.

(** C28: Reading a file.  Inside a transaction, on a file without holes of at
    most MAXFILE blocks, readi() returns -1 and changes nothing if [off] is
    beyond the end of the file or [off + n] does not fit 32 bits.  Otherwise it
    returns the number [r] of bytes the file has in the range.  A kernel
    destination then holds exactly these bytes; a user destination holds them
    up to the first address that user code cannot reach, all of them if there
    is none, although [r] is returned in both cases.  Nothing else in memory
    changes but the headers of disk requests, and no block and no inode. *)
Theorem readi_correct ip s lg ct i user_dst dst off n : let r := Z.min n (i_size i - off) in
  tx E h p dv s lg ct [] -> live sb ip s i -> geom dv sb ct -> file_ok dv sb ct i -> no_holes dv ct i -> (size lg < 29)%nat ->
  0 <= i_size i <= MAXFILE * BSIZE -> 0 <= off < 2 ^ 32 -> 0 <= n < 2 ^ 32 -> 0 <= dst /\ dst + r < 2 ^ 64 -> destination user_dst s dst r ->
  runE E (readi ip user_dst dst off n) s (fun r' s' => tx E h p dv s' lg ct [] /\ live sb ip s' i /\
    if (i_size i <? off) || (2 ^ 32 <=? off + n) then r' = -1 /\ s' = s else r' = r /\
    if user_dst then exists k, (k = r \/ 0 <= k < r /\ uread (mm s) root (dst + k) = None) /\
      (forall va, vget (mm s') um va = if bool_decide (dst <= va < dst + k) then Some (fbyte dv ct i (off + (va - dst))) else vget (mm s) um va) /\
      (forall a, ~ header A a -> page_of a ∉ frames um -> getb (mm s') a = getb (mm s) a)
    else forall a, ~ header A a -> getb (mm s') a = if bool_decide (dst <= a < dst + r) then fbyte dv ct i (off + (a - dst)) else getb (mm s) a).
Proof.
  intros r Htx Hl Hg Hok Hh Hlg Hsz Hoff Hn Hdst Hd. pose proof Hl as (_ & Hi & _).
  destruct ((i_size i <? off) || (2 ^ 32 <=? off + n)) eqn:Hbad.
  { unfold readi. wp. rewrite Hi. assert (((i_size i <? off) || (u32 (off + n) <? off)) = true) as ->; [|by wp].
    apply orb_true_iff in Hbad as [->|Hbig%Z.leb_le]; [done|]. apply orb_true_iff. right. apply Z.ltb_lt. unfold u32. rewrite <-(Z.mod_unique_pos (off + n) (2 ^ 32) 1 (off + n - 2 ^ 32)); lia. }
  apply orb_false_iff in Hbad as [H1%Z.ltb_ge H2%Z.leb_gt]. destruct user_dst; cbn [destination] in Hd.
  - destruct Hd as [Hpl Hus]. assert (Hm : forall bn, off / BSIZE <= bn -> bn * BSIZE < off + r -> fblk dv ct i bn <> 0).
    { intros bn B1 B2. apply Hh; [|unfold r in *; lia]. pose proof (Z.div_pos off BSIZE). lia. }
    assert (Hend : forall k s', (k = r \/ 0 <= k < r /\ uread (mm s) root (dst + k) = None) -> uhave E h p dv sb ip root lv fl um s lg ct i off dst k s' -> tx E h p dv s' lg ct [] /\ live sb ip s' i /\ r = r /\
      exists k, (k = r \/ 0 <= k < r /\ uread (mm s) root (dst + k) = None) /\
      (forall va, vget (mm s') um va = if bool_decide (dst <= va < dst + k) then Some (fbyte dv ct i (off + (va - dst))) else vget (mm s) um va) /\
      (forall a, ~ header A a -> page_of a ∉ frames um -> getb (mm s') a = getb (mm s) a)).
    { intros k s' Hk [U1 U2 U3 _ _ U6]. split_and!; [done|done|done|]. exists k. split_and!; [done|done|]. intros a Ha Hf. by eapply (calm_mem E ip). }
    eapply (runE_readi_user E h p dv sb ip root lv fl um Hpl s lg ct i off r dst); try done; try (unfold r; lia).
    + intros s' Hs. apply (Hend r); [by left|done].
    + intros s' k (Hk & Hs & Hnone). apply (Hend k); [by right|done].
  - eapply runE_mono; [apply (readi_kernel device A W h p dv sb ip s lg ct i off n dst); try done; lia|]. intros r' s' (-> & Hb & T & L). done.
Qed.
End theorem.

(** ** A process that reads a file *)

(** Below the buffers the page table of the kernel, above them the address
    space of the parent. *)
Definition user_mem : mem := filter (fun x => x.1 < source) disk_mem ∪ filter (fun x => ~ x.1 < source) AddressSpace.vm_memory.
Definition user_machine : kstate :=
  let s := set_freelist (AddressSpace.P 6) (set_mm user_mem fs_machine) in
  set_proc_at 0 (set_p_pagetable AddressSpace.parent (proc_at 0 s)) s.
Definition user_op : kstate := set_logs [log0; set_l_outstanding 1 log0] user_machine.

Lemma getb_user_mem a : getb user_mem a = if decide (a < source) then getb disk_mem a else getb AddressSpace.vm_memory a.
Proof.
  change (mem_getb user_mem a = if decide (a < source) then mem_getb disk_mem a else mem_getb AddressSpace.vm_memory a). unfold mem_getb, user_mem.
  case_decide as Ha; do 2 f_equal.
  - destruct (disk_mem !! a) as [v|] eqn:Ev.
    + apply lookup_union_Some_l, map_lookup_filter_Some. done.
    + apply lookup_union_None. split; apply map_lookup_filter_None; [by left|right; intros v _ Hn; by apply Hn].
  - rewrite lookup_union_r by (apply map_lookup_filter_None; right; by intros v _ Hn). destruct (AddressSpace.vm_memory !! a) as [v|] eqn:Ev.
    + by apply map_lookup_filter_Some.
    + apply map_lookup_filter_None. by left.
Qed.

#[local] Opaque user_mem AddressSpace.vm_memory disk_mem.
#[local] Instance user_machine_disk : DiskEnv (env simple_disk) := driver_DiskEnv simple_disk hdr_addr file_buffer.

Lemma user_op_tx : tx (env simple_disk) 0 0 1 user_op ∅ fsdisk [].
Proof.
  split; [|cbn; lia|done]. exists (set_l_outstanding 1 log0), ∅. split; [apply hold_set_logs, machine_hold; try done; [|apply small_fsdisk]|split_and!; try done; constructor].
  intros a Ha. change (mm user_machine) with user_mem. rewrite getb_user_mem, decide_True; [done|]. unfold file_buffer, source in *. lia.
Qed.

(** The pages of the address space are above the buffers. *)
Lemma page_high i a : 1 <= i <= 12 -> page_of a = AddressSpace.P i -> source <= a.
Proof. intros Hi Hp. unfold page_of, AddressSpace.P in Hp. pose proof (Z.div_mod a PGSIZE ltac:(lia)). pose proof (Z.mod_pos_bound a PGSIZE ltac:(lia)). unfold source, stack_page, KPT in *. lia. Qed.

Lemma parent_high a : is_Some (AddressSpace.parent_tables !! page_of a) \/ page_of a ∈ AddressSpace.free_pages \/ page_of a ∈ frames AddressSpace.parent_pages -> source <= a.
Proof.
  intros [[l Hl]|[Hf|(vp & g & Hv)%elem_of_frames]].
  - unfold AddressSpace.parent_tables in Hl. rewrite !lookup_insert_Some, lookup_singleton_Some in Hl. destruct Hl as [[H1 _]|[_ [[H1 _]|[_ [H1 _]]]]]; (eapply page_high; [|symmetry; exact H1]); lia.
  - unfold AddressSpace.free_pages in Hf. rewrite !elem_of_cons, elem_of_nil in Hf. destruct Hf as [H|[H|[H|[H|[H|[H|[H|[]]]]]]]]; (eapply page_high; [|exact H]); lia.
  - unfold AddressSpace.parent_pages in Hv. apply lookup_singleton_Some in Hv as [_ [= H1 _]]. eapply page_high; [|symmetry; exact H1]. lia.
Qed.

Lemma user_op_place : user_place (env simple_disk) AddressSpace.parent_tables AddressSpace.free_pages AddressSpace.parent_pages.
Proof.
  split; intros a Ha; assert (Hs : source <= a) by (apply parent_high; tauto); [split; [unfold source in Hs; exact Hs|]|]; by apply source_free.
Qed.

Lemma user_op_space : uspace 0 AddressSpace.parent AddressSpace.parent_tables AddressSpace.free_pages AddressSpace.parent_pages user_op.
Proof.
  assert (Hm : forall a, source <= a -> getb (mm user_op) a = getb (mm AddressSpace.vm_machine) a).
  { intros a Ha. change (mm user_op) with user_mem. rewrite getb_user_mem, decide_False by lia. done. }
  pose proof AddressSpace.vm_machine_kmem as [K1 K2 K3 K4]. assert (Hk : kmem_ok user_op AddressSpace.free_pages).
  { split; [exact K1| |exact K3|exact K4]. apply (chain_ext (mm AddressSpace.vm_machine)); [|exact K2]. apply Forall_forall. intros x Hx. apply ldn_ext. intros b Hb. apply Hm, parent_high. right. left.
    rewrite (page_of_in x); [done|by apply (proj1 (Forall_forall _ _) K4 x Hx)|lia]. }
  pose proof AddressSpace.parent_ok as Hp.
  destruct (uvm_pages AddressSpace.vm_machine user_op _ _ AddressSpace.free_pages AddressSpace.free_pages _ Hp eq_refl Hk) as (Hu & _ & Hpte).
  { intros x Hx. split; [by apply (vo_fresh _ _ _ _ (uo_vm _ _ _ _ _ Hp))|]. intros (vp & g & Hvp)%elem_of_frames. by apply (uo_frame _ _ _ _ _ Hp _ _ _ Hvp). }
  { intros a Ha. apply Hm, parent_high. tauto. }
  split; [done|exact Hu|]. apply (only_same _ _ AddressSpace.vm_machine); [apply AddressSpace.parent_user_only|]. intros va. by apply uread_none.
Qed.

(** Reading ten bytes at offset 1 of "hello" to the last two bytes of the user
    page returns 4, and "el" is there. *)
Lemma readi_correct_witness :
  runE (env simple_disk) (readi 0 true 4094 1 10) user_op (fun r s' => r = 4 /\
    vget (mm s') AddressSpace.parent_pages 4094 = Some 101 /\ vget (mm s') AddressSpace.parent_pages 4095 = Some 108 /\ vget (mm s') AddressSpace.parent_pages 4096 = None).
Proof.
  eapply runE_mono.
  - apply (readi_correct simple_disk hdr_addr file_buffer 0 0 1 sb1 AddressSpace.parent AddressSpace.parent_tables AddressSpace.free_pages AddressSpace.parent_pages 0 user_op ∅ fsdisk inode1 true 4094 1 10);
      [apply user_op_tx|apply op_fs_live|apply geom_fsdisk|apply file_fsdisk|apply no_holes_inode1|rewrite size_empty; lia|cbn; lia..|split; by vm_compute|split; [apply user_op_place|apply user_op_space]].
  - intros r s' (_ & _ & Hr). change ((i_size inode1 <? 1) || (2 ^ 32 <=? 1 + 10)) with false in Hr. cbv iota in Hr. change (Z.min 10 (i_size inode1 - 1)) with 4 in Hr.
    destruct Hr as (-> & k & Hk & Hv & _). assert (H2 : 2 <= k).
    { destruct Hk as [->|[Hk Hn]]; [lia|]. destruct (Z_lt_ge_dec k 2) as [Hlt|]; [exfalso|lia].
      destruct (AddressSpace.user_range_read user_op AddressSpace.parent AddressSpace.parent_tables AddressSpace.free_pages AddressSpace.parent_pages 4094 2 (4094 + k)) as [v Hx]; [apply user_op_space| |lia|congruence].
      intros va Hva. exists (AddressSpace.P 4), PTE_WRXU. rewrite Z.div_small by lia. split; [apply lookup_singleton_eq|reflexivity]. }
    rewrite !Hv, !bool_decide_true by lia. split_and!; [done|by vm_compute|by vm_compute|]. rewrite <-Hv. by vm_compute.
Defined.
End UserRead.
