(* ===== verification/Process.v ===== *)
(** * Creating and reaping processes (kernel/proc.c)

    The theorems about fork(), wait() and growproc(): a child is a copy of its
    parent in pages of its own, a reaped child gives every page back, and the
    processes never share memory. *)

From S2P Require Import Prelude Bytes CString KState Spinlock Kernel Riscv Machine Kalloc Vm PageTable Uvm Uvmcopy PageFree AddressSpace Sched Console Virtio Bio Log Fs Dir Pipe File Proc ProcMem.

Module Process.
Import Kalloc Vm PageTable Uvm Uvmcopy PageFree Sched Fs File Proc ProcMem.

(** ** Open files *)

(** One more reference to an open file. *)
Definition dup_ref (ft : list file) (o : option nat) : list file :=
  match o with Some f => <[f := set_f_ref (f_ref (ft !!! f) + 1) (ft !!! f)]> ft | None => ft end.

Definition uses (ofs : list (option nat)) (f : nat) : Z := Z.of_nat (length (filter (fun o => o = Some f) ofs)).

Lemma length_dup_refs ofs : forall ft, length (foldl dup_ref ft ofs) = length ft.
Proof. induction ofs as [|o ofs IH]; intros ft; [done|]. cbn. rewrite IH. destruct o; [apply length_insert|done]. Qed.

Lemma dup_refs_at ofs f : forall ft, (f < length ft)%nat -> foldl dup_ref ft ofs !!! f = set_f_ref (f_ref (ft !!! f) + uses ofs f) (ft !!! f).
Proof.
  unfold uses. induction ofs as [|o ofs IH]; intros ft Hf; cbn [foldl].
  { cbn. rewrite Z.add_0_r. by destruct (ft !!! f). }
  rewrite filter_cons. destruct o as [g|]; cbn [dup_ref].
  - rewrite IH by by rewrite length_insert. destruct (decide (g = f)) as [->|Hne].
    + rewrite decide_True by done. cbn [length]. rewrite list_lookup_total_insert_eq by done. set (x := ft !!! f). set (n := length _).
      replace (f_ref (set_f_ref (f_ref x + 1) x) + Z.of_nat n) with (f_ref x + Z.of_nat (S n)) by (cbn; lia). done.
    + rewrite decide_False by congruence. by rewrite list_lookup_total_insert_ne by done.
  - rewrite IH by done. by rewrite decide_False by done.
Qed.

(** Writing back what was there. *)
Lemma same_proc np s : (np < length (procs (pt s)))%nat -> set_sy (sy s) (set_ftable (ftable s) (set_proc_at np (set_p_ofile (p_ofile (proc_at np s)) (proc_at np s)) s)) = s.
Proof.
  intros Hnp. destruct s as [y m f kp [ps ip nx fi ti st] bs lo fs ft ds pi co vd de li]. unfold set_proc_at, proc_at. cbn in *.
  f_equal. f_equal. rewrite list_insert_id; [done|]. rewrite list_lookup_lookup_total_lt by done. f_equal. by destruct (ps !!! np).
Qed.

Section fork.
Context (h me : nat).

Section dup.
Context (ls : list lockid) (Hls : LFtable ∉ ls) (np : nat) (s : kstate) (Hne : me <> np) (Hnp : (np < length (procs (pt s)))%nat).
Let ofs := p_ofile (proc_at me s).
Context (Hlen : length ofs = NOFILE) (Hnone : p_ofile (proc_at np s) = replicate NOFILE None).
Context (Hfiles : forall f, Some f ∈ ofs -> (f < length (ftable s))%nat /\ 1 <= f_ref (file_at f s)).

(** After the first [k] descriptors. *)
Definition dupped (k : nat) (y : sync) : kstate :=
  set_sy y (set_ftable (foldl dup_ref (ftable s) (take k ofs)) (set_proc_at np (set_p_ofile (take k ofs ++ replicate (NOFILE - k) None) (proc_at np s)) s)).

Lemma run_dup_file k y : owns h (Some me) ls y -> (k < NOFILE)%nat ->
  run (f <- gets (fun s => p_ofile (proc_at me s) !!! k) ;;
    match f with
    | None => ret tt
    | Some f => f' <- filedup f ;; upd_proc np (fun q => set_p_ofile (<[k := Some f']> (p_ofile q)) q)
    end) (dupped k y) (fun _ s' => exists y', owns h (Some me) ls y' /\ s' = dupped (S k) y').
Proof using All.
  intros Hy Hk. destruct (lookup_lt_is_Some_2 ofs k ltac:(lia)) as [o Ho]. pose proof (take_S_r _ _ _ Ho) as Hts.
  assert (Hrep : replicate (NOFILE - k) (@None nat) = None :: replicate (NOFILE - S k) None) by (replace (NOFILE - k)%nat with (S (NOFILE - S k)) by lia; done).
  assert (Hlk : length (take k ofs) = k) by (rewrite length_take; lia).
  assert (Hme : proc_at me (dupped k y) = proc_at me s) by (unfold dupped, proc_at; cbn; by apply list_lookup_total_insert_ne).
  wp. rewrite Hme. fold ofs. rewrite (list_lookup_total_correct _ _ _ Ho). destruct o as [f|].
  - destruct (Hfiles f ltac:(by eapply list_elem_of_lookup_2)) as [Hf Hr]. unfold filedup. wp. eapply run_acquire; [exact Hy|done|]. intros y1 Hy1. wp.
    set (ft := foldl dup_ref (ftable s) (take k ofs)). change (file_at f _) with (ft !!! f). assert (Hfr : f_ref (ft !!! f) = f_ref (file_at f s) + uses (take k ofs) f) by (unfold ft; by rewrite dup_refs_at).
    unfold uses in Hfr. destruct (Z.ltb_spec (f_ref (ft !!! f)) 1); [lia|]. unfold upd_file. wp. eapply run_release; [exact Hy1|by apply elem_of_cons; left|]. intros y2 Hy2. rewrite drop_head in Hy2 by done.
    unfold upd_proc. wp. exists y2. split; [done|]. unfold dupped. rewrite Hts, foldl_app. cbn [foldl dup_ref]. fold ft. set (s1 := set_sy y2 _).
    assert (Hpn : proc_at np s1 = set_p_ofile (take k ofs ++ replicate (NOFILE - k) None) (proc_at np s)) by (unfold s1, proc_at; cbn; by apply list_lookup_total_insert_eq).
    rewrite Hpn. cbn [p_ofile set_p_ofile]. rewrite Hrep, insert_app_r_alt, Hlk, Nat.sub_diag by lia. cbn [insert list_insert]. rewrite <-app_assoc. cbn.
    unfold s1, set_proc_at. cbn. by rewrite list_insert_insert_eq.
  - wp. exists y. split; [done|]. unfold dupped. rewrite Hts, foldl_app. cbn [foldl dup_ref]. by rewrite Hrep, <-app_assoc.
Qed.

Lemma run_dup_files (Q : unit -> kstate -> Prop) : owns h (Some me) ls (sy s) ->
  (forall y, owns h (Some me) ls y -> Q tt (set_sy y (set_ftable (foldl dup_ref (ftable s) ofs) (set_proc_at np (set_p_ofile ofs (proc_at np s)) s)))) -> run (dup_files me np) s Q.
Proof using All.
  intros Ho HQ. unfold dup_files. eapply (run_iter_each _ _ s (fun pre s1 => exists y, owns h (Some me) ls y /\ s1 = dupped (length pre) y)).
  - exists (sy s). split; [done|]. unfold dupped. rewrite take_0. cbn [foldl app length]. change (NOFILE - 0)%nat with NOFILE. rewrite <-Hnone. clear -Hnp. by rewrite same_proc.
  - intros pre k post s1 Hsp (y & Hy & ->). destruct (seq_prefix _ _ _ _ Hsp) as [Hk ->]. rewrite length_seq. eapply run_mono; [by apply run_dup_file|]. intros _ s2 (y' & Hy' & ->).
    exists y'. by rewrite length_app, length_seq, Nat.add_1_r.
  - intros s1 (y & Hy & ->). rewrite length_seq. unfold dupped. rewrite take_ge, app_nil_r by (done || lia). by apply HQ.
Qed.
End dup.

(** *** After the copy of the memory *)

(** The child as fork() leaves it. *)
Definition child_of (par q : proc) (sz : Z) : proc :=
  set_p_state RUNNABLE (set_name (p_name par) (set_p_cwd (p_cwd par) (set_p_ofile (p_ofile par) (set_p_parent (Some me) (set_p_sz sz q))))).

(** The trap frame of the child: that of the parent, with fork() returning 0. *)
Definition child_tf (m : mem) (ntf tf : Z) : mem := st64 (CString.memmove m ntf tf tf_size) (ntf + tf_a0) 0.

Definition fork_tail (np : nat) (sz : Z) : K Z :=
      upd_proc np (set_p_sz sz) ;;
      upd_proc np (set_p_parent (Some me)) ;;
      tf <- gets (fun s => p_tf (proc_at me s)) ;;
      ntf <- gets (fun s => p_tf (proc_at np s)) ;;
      k_memmove ntf tf tf_size ;;
      set_tf np tf_a0 0 ;;
      dup_files me np ;;
      cwd <- gets (fun s => p_cwd (proc_at me s)) ;;
      cwd <- match cwd with Some c => idup c | None => stuck "null cwd" end ;;
      upd_proc np (set_p_cwd (Some cwd)) ;;
      name <- gets (fun s => p_name (proc_at me s)) ;;
      upd_proc np (set_name name) ;;
      pid <- gets (fun s => p_pid (proc_at np s)) ;;
      upd_proc np (set_p_state RUNNABLE) ;;
      release (LProc np) ;;
      ret pid.

Lemma run_child_ready s np c (Q : Z -> kstate -> Prop) : let q := proc_at np s in owns h (Some me) [LProc np] (sy s) -> me <> np -> (np < length (procs (pt s)))%nat ->
  (forall y, owns h (Some me) [] y -> Q (p_pid q) (set_sy y (set_proc_at np (set_p_state RUNNABLE (set_name (p_name (proc_at me s)) (set_p_cwd (Some c) q))) s))) ->
  run (upd_proc np (set_p_cwd (Some c))) s (fun _ s => run (
      name <- gets (fun s => p_name (proc_at me s)) ;;
      upd_proc np (set_name name) ;;
      pid <- gets (fun s => p_pid (proc_at np s)) ;;
      upd_proc np (set_p_state RUNNABLE) ;;
      release (LProc np) ;;
      ret pid) s Q).
Proof.
  intros q Ho Hne Hnp HQ. unfold upd_proc. wp. set (s1 := set_proc_at np _ s).
  assert (Hm1 : proc_at me s1 = proc_at me s) by (unfold s1, proc_at; cbn; by apply list_lookup_total_insert_ne). rewrite Hm1.
  unfold s1. rewrite (proc_at_set np (set_p_cwd (Some c) (proc_at np s)) s Hnp), !set_proc_at_twice, (proc_at_set np _ s Hnp).
  eapply run_release; [exact Ho|set_solver|]. intros y Hy. rewrite drop_head in Hy by set_solver. wp. by apply HQ.
Qed.

Lemma run_fork_tail s np sz c (Q : Z -> kstate -> Prop) : let par := proc_at me s in let q := proc_at np s in
  owns h (Some me) [LProc np] (sy s) -> me <> np -> (np < length (procs (pt s)))%nat -> p_cwd par = Some c -> length (p_ofile par) = NOFILE -> p_ofile q = replicate NOFILE None ->
  (forall f, Some f ∈ p_ofile par -> (f < length (ftable s))%nat /\ 1 <= f_ref (file_at f s)) ->
  (forall y t, owns h (Some me) [] y -> t = set_procs (<[np := child_of par q sz]> (procs (pt s))) (pt s) ->
     Q (p_pid q) (set_sy y (set_mm (child_tf (mm s) (p_tf q) (p_tf par)) (set_pt t (set_ftable (foldl dup_ref (ftable s) (p_ofile par))
       (set_inode_at c (set_i_ref (i_ref (inode_at c s) + 1) (inode_at c s)) s)))))) ->
  run (fork_tail np sz) s Q.
Proof.
  intros par q Ho Hne Hnp Hcwd Hlen Hnone Hfiles HQ. unfold fork_tail. apply run_upd_then; [done|]. unfold upd_proc at 1. wp.
  set (qa := set_p_parent _ _). set (sa := set_proc_at np qa s).
  assert (Hma : proc_at me sa = par) by (unfold sa, proc_at; cbn; by apply list_lookup_total_insert_ne). assert (Hna : proc_at np sa = qa) by by apply proc_at_set.
  rewrite Hma, Hna. change (p_tf qa) with (p_tf q). unfold k_memmove. wp. unfold set_tf, store64. wp.
  change (proc_at np (set_mm _ sa)) with (proc_at np sa). rewrite Hna. set (sb := set_mm _ (set_mm _ sa)).
  assert (Hmb : proc_at me sb = par) by exact Hma. assert (Hnb : proc_at np sb = qa) by exact Hna.
  assert (Hlb : (np < length (procs (pt sb)))%nat) by (cbn; by rewrite length_insert).
  eapply (run_dup_files [LProc np] ltac:(set_solver) np sb Hne Hlb); [by rewrite Hmb|by rewrite Hnb|rewrite Hmb; exact Hfiles|exact Ho|].
  intros y1 Hy1. rewrite Hmb, Hnb. wp. set (sc := set_sy y1 _).
  assert (Hmc : proc_at me sc = par) by (rewrite <-Hmb; unfold sc, proc_at; cbn; by apply list_lookup_total_insert_ne). rewrite Hmc, Hcwd. unfold idup. wp.
  eapply run_acquire; [exact Hy1|set_solver|]. intros y2 Hy2. wp. eapply run_release; [exact Hy2|set_solver|]. intros y3 Hy3. rewrite drop_head in Hy3 by set_solver. wp.
  set (sd := set_sy y3 _). assert (Hmd : proc_at me sd = par) by exact Hmc.
  assert (Hnd : proc_at np sd = set_p_ofile (p_ofile par) qa) by (unfold sd, sc, proc_at; cbn; apply list_lookup_total_insert_eq; by rewrite length_insert).
  assert (Hptd : pt sd = set_procs (<[np := set_p_ofile (p_ofile par) qa]> (procs (pt s))) (pt s)) by (cbn; by rewrite list_insert_insert_eq).
  assert (Hsd : sd = set_sy y3 (set_mm (child_tf (mm s) (p_tf q) (p_tf par)) (set_pt (pt sd) (set_ftable (foldl dup_ref (ftable s) (p_ofile par))
       (set_inode_at c (set_i_ref (i_ref (inode_at c s) + 1) (inode_at c s)) s))))).
  { rewrite Hptd. unfold sd, sc, sb. unfold set_proc_at. cbn. rewrite list_insert_insert_eq. reflexivity. }
  clearbody sd. apply run_child_ready; [rewrite Hsd; exact Hy3|exact Hne|rewrite Hptd; cbn; by rewrite length_insert|]. intros y Hy. rewrite Hmd, Hnd.
  unfold set_proc_at. rewrite Hptd. cbn [procs set_procs]. rewrite list_insert_insert_eq.
  rewrite Hsd. cbn. specialize (HQ y _ Hy eq_refl). unfold child_of in HQ. rewrite Hcwd in HQ. exact HQ.
Qed.

(** *** The child's memory *)

Lemma child_tf_other m ntf tf a : a < ntf \/ ntf + PGSIZE <= a -> getb (child_tf m ntf tf) a = getb m a.
Proof. intros Ha. unfold child_tf, st64. rewrite getb_stn_ne by (unfold tf_a0; lia). rewrite CString.getb_memmove by (done || by unfold tf_size). by rewrite bool_decide_false by (unfold tf_size; lia). Qed.

Lemma child_tf_page m ntf tf a : ntf mod PGSIZE = 0 -> page_of a <> ntf -> getb (child_tf m ntf tf) a = getb m a.
Proof.
  intros Hal Ha. apply child_tf_other. destruct (decide (a < ntf)); [by left|]. destruct (decide (ntf + PGSIZE <= a)); [by right|]. exfalso. apply Ha, page_of_in; [done|lia].
Qed.

Lemma child_tf_at m ntf tf i : 0 <= i < tf_size -> i < tf_a0 \/ tf_a0 + 8 <= i -> getb (child_tf m ntf tf) (ntf + i) = getb m (tf + i).
Proof.
  intros Hi Ha. unfold child_tf, st64. rewrite getb_stn_ne by lia. rewrite CString.getb_memmove by (done || by unfold tf_size). rewrite bool_decide_true by lia. f_equal. lia.
Qed.

Lemma child_tf_a0 m ntf tf : ld64 (child_tf m ntf tf) (ntf + tf_a0) = 0.
Proof. unfold child_tf, ld64, st64. by rewrite ldn_stn_eq. Qed.

(** A new page table into which the parent's memory has been copied. *)
Section child.
Context (np : nat) (s1 s2 : kstate) (q1 : proc) (old : Z) (lvo lv lv2 : gmap Z nat) (fl1 fl2 : list Z) (umo um2 : umap) (sz : Z).
Context (Hnew : proc_mem s1 fl1 q1 lv ∅) (Hsz : 0 <= sz <= TRAPFRAME) (Hmo : forall vp, is_Some (umo !! vp) <-> 0 <= vp < pages sz).
Context (Hc : copied h (Some me) [LProc np] s1 (p_pagetable q1) lv fl1 umo ∅ sz (Z.to_nat (pages sz)) s2 lv2 fl2 um2).

Lemma pages_nonneg : 0 <= pages sz.
Proof using Hsz. clear -Hsz. apply Z.div_pos; lia. Qed.

Lemma copied_user vp : is_Some (um2 !! vp) <-> 0 <= vp < pages sz.
Proof using Hc Hsz.
  pose proof pages_nonneg as Hn. destruct Hc as (_ & Hd & Hall & _). rewrite Z2Nat.id in * by done. split; [|apply Hall]. intros Hv.
  destruct (decide (0 <= vp < pages sz)) as [|Hne]; [done|]. exfalso. apply (f_equal (lookup vp)) in Hd. rewrite um_del_lookup, bool_decide_false, lookup_empty in Hd by lia.
  rewrite Hd in Hv. by destruct Hv.
Qed.

Lemma copied_vget va : vget (mm s2) um2 va = vget (mm s1) umo va.
Proof using Hc Hsz Hmo.
  pose proof pages_nonneg as Hn. destruct Hc as (_ & _ & _ & _ & Hv & _). rewrite Z2Nat.id in Hv by done. rewrite Hv. case_bool_decide as E; [done|].
  unfold vget. rewrite lookup_empty. destruct (umo !! (va / PGSIZE)) eqn:Eu; [|done]. exfalso. apply E, Hmo. by eexists.
Qed.

Lemma copied_mem : proc_mem s2 fl2 (set_p_sz sz q1) lv2 um2.
Proof using Hc Hsz Hnew. exact (evolve_mem h (Some me) _ s1 s2 fl1 fl2 q1 lv lv2 ∅ um2 sz Hnew (proj1 Hc) Hsz copied_user). Qed.
End child.

(** *** fork *)

(** Pages below the trap frame that are not user pages are not mapped. *)
Lemma unmapped s fl q lv um vp : proc_mem s fl q lv um -> um !! vp = None -> 0 <= vp < TRAPFRAME / PGSIZE -> pte_has (pte_of (mm s) (p_pagetable q) (vp * PGSIZE)) PTE_V = false.
Proof.
  intros Hpm Hum Hvp. assert (Ht : TRAPFRAME / PGSIZE < TRAMPOLINE / PGSIZE < MAXVA / PGSIZE) by (by vm_compute). assert (Hm : MAXVA = MAXVA / PGSIZE * PGSIZE) by by vm_compute.
  pose proof (pm_kpte _ _ _ _ _ Hpm (vp * PGSIZE) ltac:(nia)) as Hk. rewrite Z.div_mul, !bool_decide_false in Hk by lia.
  unfold kpte in Hk. rewrite Z.div_mul, Hum, bool_decide_true in Hk by done. cbn [andb] in Hk. by destruct (pte_has _ _).
Qed.

Lemma pages_trapframe sz : sz <= TRAPFRAME -> pages sz <= TRAPFRAME / PGSIZE.
Proof. intros Hsz. transitivity (pages TRAPFRAME); [apply Z.div_le_mono; lia|by vm_compute]. Qed.

Lemma allocated_sy y s fl np q lv fl' s' : allocated h me (set_sy y s) fl np q lv fl' s' -> allocated h me s fl np q lv fl' s'.
Proof. intros [A1 (y' & m & f & t & E & A2) A3 A4 A5 A6 A7]. split; try done. by exists y', m, f, t. Qed.

Section forked.
Context (s : kstate) (fl : list Z) (ms : mems) (lvo : gmap Z nat) (umo : umap) (c : nat).
Let par := proc_at me s.
Context (Ho : owns h (Some me) [] (sy s)) (Hok : mems_ok s fl ms) (Hme : ms !! me = Some (lvo, umo)) (Htr : tramp_ok s).
Context (Hcwd : p_cwd par = Some c) (Hc : (c < NINODE)%nat) (Hni : length (icache (fs s)) = NINODE) (Hlen : length (p_ofile par) = NOFILE).
Context (Hfiles : forall f, Some f ∈ p_ofile par -> (f < length (ftable s))%nat /\ 1 <= f_ref (file_at f s)).

(** The child [np] with tables [lv] and user pages [um]. *)
Record forked (np : nat) (lv' : gmap Z nat) (um : umap) (fl' : list Z) (s' : kstate) : Prop := {
  fk_owns : owns h (Some me) [] (sy s');
  fk_child : let q := proc_at np s' in p_state q = RUNNABLE /\ p_pid q = nextpid (pt s) /\ p_parent q = Some me /\ p_sz q = p_sz par /\
    p_ofile q = p_ofile par /\ p_cwd q = Some c /\ ctx_ra (p_context q) = CForkret /\ ctx_sp (p_context q) = p_kstack (proc_at np s) + PGSIZE;
  fk_ld : ld s' = ld s;
  fk_nextpid : nextpid (pt s') = s32 (nextpid (pt s) + 1);
  fk_perm : forall vp fr g, umo !! vp = Some (fr, g) -> exists fr', um !! vp = Some (fr', Z.lor g PTE_V);
  fk_mem : forall va, vget (mm s') um va = vget (mm s) umo va;
  fk_a0 : ld64 (mm s') (p_tf (proc_at np s') + tf_a0) = 0;
  fk_regs : forall i, 0 <= i < tf_size -> i < tf_a0 \/ tf_a0 + 8 <= i -> getb (mm s') (p_tf (proc_at np s') + i) = getb (mm s) (p_tf par + i);
  fk_pages : forall x, x ∈ fl <-> x ∈ fl' \/ x ∈ held (proc_at np s') lv' um;
  fk_others : forall p, p <> np -> proc_at p s' = proc_at p s;
  fk_spaces : forall p lv um va, ms !! p = Some (lv, um) -> vget (mm s') um va = vget (mm s) um va;
  fk_files : forall f, (f < length (ftable s))%nat -> file_at f s' = set_f_ref (f_ref (file_at f s) + uses (p_ofile par) f) (file_at f s);
  fk_cwd : inode_at c s' = set_i_ref (i_ref (inode_at c s) + 1) (inode_at c s)
}.

(** No memory for the child: its trap frame has been given back, its page
    table [lv] has not. *)
Record fork_failed (fl' : list Z) (lv : gmap Z nat) (s' : kstate) : Prop := {
  ff_owns : owns h (Some me) [] (sy s');
  ff_procs : forall p, p_state (proc_at p s) <> UNUSED -> proc_at p s' = proc_at p s;
  ff_spaces : forall p lv um va, ms !! p = Some (lv, um) -> vget (mm s') um va = vget (mm s) um va;
  ff_tables : lv <> ∅;
  ff_pages : forall x, x ∈ fl <-> x ∈ fl' \/ is_Some (lv !! x);
  ff_lost : forall x, is_Some (lv !! x) -> x ∉ fl'
}.

(** The state after work on the memory of the new process. *)
Section work.
Context (np : nat) (q1 : proc) (s1 s2 : kstate) (lv lv2 : gmap Z nat) (fl1 fl2 : list Z) (um2 : umap).
Context (Hnp : (np < NPROC)%nat) (Hfree : p_state (proc_at np s) = UNUSED) (Hal : allocated h me s fl np q1 lv fl1 s1).
Context (Hev : evolves h (Some me) [LProc np] (p_pagetable q1) s1 s2 lv lv2 fl1 fl2 ∅ um2).

Lemma slot_free : ms !! np = None /\ me <> np.
Proof using Hok Hfree Hme.
  clear -Hok Hfree Hme. assert (ms !! np = None) by (destruct (ms !! np) eqn:E; [destruct (mo_used _ _ _ Hok np ltac:(by eexists)); congruence|done]). split; [done|]. intros ->. congruence.
Qed.

Lemma copied_pages x : x ∈ fl2 \/ x = p_tf q1 \/ is_Some (lv2 !! x) \/ x ∈ frames um2 <-> x ∈ fl.
Proof using Hal Hev.
  clear -Hal Hev. rewrite <-(al_pages _ _ _ _ _ _ _ _ _ Hal x), elem_held. pose proof (evolve_owned h (Some me) _ s1 s2 fl1 fl2 q1 lv lv2 ∅ um2 Hev x). tauto.
Qed.

Lemma copied_sub x : x ∈ fl2 \/ x = p_tf q1 \/ is_Some (lv2 !! x) \/ x ∈ frames um2 -> x ∈ fl.
Proof using Hal Hev. apply copied_pages. Qed.

Lemma copied_other a : page_of a ∉ fl -> getb (mm s2) a = getb (mm s) a.
Proof using Hal Hev.
  clear -Hal Hev. intros Ha. rewrite <-(al_other _ _ _ _ _ _ _ _ _ Hal a Ha). apply (ev_other _ _ _ _ _ _ _ _ _ _ _ _ Hev). rewrite elem_of_owned. intros [Hx|[Hx|(vp & g & E)]].
  - apply Ha, (al_pages _ _ _ _ _ _ _ _ _ Hal). right. apply elem_held. auto.
  - apply Ha, (al_pages _ _ _ _ _ _ _ _ _ Hal). by left.
  - by rewrite lookup_empty in E.
Qed.

(** Where the fields of the final state come from. *)
Lemma copied_fields : ld s2 = ld s /\ procs (pt s2) = <[np := q1]> (procs (pt s)) /\ ftable s2 = ftable s /\ fs s2 = fs s /\ nextpid (pt s2) = s32 (nextpid (pt s) + 1).
Proof using Hal Hev.
  clear -Hal Hev. destruct (al_shape _ _ _ _ _ _ _ _ _ Hal) as (y1 & m1 & f1 & t1 & -> & Ht1 & Hn1). destruct (ev_shape _ _ _ _ _ _ _ _ _ _ _ _ Hev) as (y2 & m2 & f2 & ->).
  cbn [pt ld ftable fs set_sy set_mm set_freelist set_pt]. by rewrite Ht1, Hn1.
Qed.

Lemma tf_aligned : p_tf q1 mod PGSIZE = 0.
Proof using Hal. clear -Hal. apply (pm_tf _ _ _ _ _ (al_mem _ _ _ _ _ _ _ _ _ Hal)). Qed.

(** The copy succeeded. *)
Section copied.
Context (Hcp : copied h (Some me) [LProc np] s1 (p_pagetable q1) lv fl1 umo ∅ (p_sz par) (Z.to_nat (pages (p_sz par))) s2 lv2 fl2 um2).
Let s' (y : sync) (t : ptable) := set_sy y (set_mm (child_tf (mm s2) (p_tf q1) (p_tf par)) (set_pt t (set_ftable (foldl dup_ref (ftable s2) (p_ofile par))
       (set_inode_at c (set_i_ref (i_ref (inode_at c s2) + 1) (inode_at c s2)) s2)))).

Lemma child_mem y t : proc_mem (s' y t) fl2 (child_of par q1 (p_sz par)) lv2 um2 /\ forall va, vget (mm (s' y t)) um2 va = vget (mm s2) um2 va.
Proof using Hok Hme Hal Hev Hcp.
  clear -Hok Hme Hal Hev Hcp. pose proof tf_aligned as Hta. destruct (mo_mem _ _ _ Hok _ _ _ Hme) as [_ _ Hsz _ _ _]. fold par in Hsz.
  pose proof (copied_mem np s1 s2 q1 lv lv2 fl1 fl2 umo um2 _ (al_mem _ _ _ _ _ _ _ _ _ Hal) Hsz Hcp) as Hm. pose proof (pm_tf _ _ _ _ _ Hm) as [_ Htf].
  rewrite elem_of_owned in Htf. cbn [p_tf set_p_sz] in Htf.
  assert (Hk : kmem_ok (s' y t) fl2).
  { apply (kmem_frame (set_mm (child_tf (mm s2) (p_tf q1) (p_tf par)) s2)); [|done..]. apply (kmem_other_page s2 fl2 (p_tf q1)); [apply Hm|done|tauto|]. intros a Ha. apply child_tf_other. lia. }
  apply (proc_mem_frame s2 (s' y t) fl2 fl2 (set_p_sz (p_sz par) q1)); try done.
  - intros x Hx Hh. revert Hx. by apply (held_not_free _ _ _ _ _ _ Hm).
  - intros a Ha. apply child_tf_page; [done|]. intros E. rewrite E, elem_of_frames in Ha. tauto.
Qed.

Lemma child_mems y t : procs t = <[np := child_of par q1 (p_sz par)]> (procs (pt s2)) ->
  mems_ok (s' y t) fl2 (<[np := (lv2, um2)]> ms) /\ forall p lv um va, ms !! p = Some (lv, um) -> vget (mm (s' y t)) um va = vget (mm s) um va.
Proof using Hok Hme Hal Hev Hcp Hnp Hfree.
  clear -Hok Hme Hal Hev Hcp Hnp Hfree. intros Ht. destruct slot_free as [Hnone _]. destruct copied_fields as (Hld & Hpr & _). pose proof tf_aligned as Hta. destruct (child_mem y t) as [Hcm _]. set (q := child_of _ _ _) in *.
  assert (Hpt : procs (pt (s' y t)) = <[np := q]> (procs (pt s))) by (cbn [pt s' set_sy set_mm set_pt]; by rewrite Ht, Hpr, list_insert_insert_eq).
  assert (Hm : forall a, page_of a ∉ fl -> getb (mm (s' y t)) a = getb (mm s) a).
  { intros a Ha. rewrite <-(copied_other a Ha). apply child_tf_page; [done|]. intros E. apply Ha. rewrite E.
    apply copied_sub. auto. }
  assert (Hsub : forall x, x ∈ fl2 -> x ∈ fl) by (intros x Hx; apply copied_sub; auto).
  assert (Hh : forall x, x ∈ held q lv2 um2 -> x ∈ fl) by (intros x Hx; apply copied_sub; apply elem_held in Hx; auto).
  assert (Hk : kmem_ok (s' y t) fl2) by apply Hcm. pose proof (fun D1 D2 D3 => conj (mems_change s (s' y t) fl fl2 ms np q (Some (lv2, um2)) Hok Hld Hk Hnp Hpt D1 D2 D3)
    (change_other s (s' y t) fl fl2 ms np q (Some (lv2, um2)) Hok Hld Hk Hnp Hpt D1 D2 D3)) as Hch.
  destruct Hch as [H1 H2]; [auto|auto|split; [exact Hcm|]; split; [done|]; auto|]. split; [exact H1|].
  intros p lv' um' va Hp. assert (Hne : p <> np) by congruence. by apply (H2 p lv' um' Hne Hp).
Qed.

Lemma child_forked y t : owns h (Some me) [] y -> procs t = <[np := child_of par q1 (p_sz par)]> (procs (pt s2)) -> nextpid t = nextpid (pt s2) -> forked np lv2 um2 fl2 (s' y t).
Proof using Hok Hme Hal Hev Hcp Hnp Hfree Hcwd Hc Hni.
  clear Hlen. intros Hy Ht Hnx. destruct (child_mems y t Ht) as [_ Hsp]. destruct (child_mem y t) as [_ Hv]. destruct copied_fields as (Hld & Hpr & Hft & Hfs & Hn2). destruct (mo_mem _ _ _ Hok _ _ _ Hme) as [Hu _ Hsz Hus [Htfp Htf] _].
  fold par in Hsz, Hus, Htf, Htfp. assert (Hnl : (np < length (procs (pt s)))%nat) by by rewrite (mo_nproc _ _ _ Hok).
  assert (Hpt : procs (pt (s' y t)) = <[np := child_of par q1 (p_sz par)]> (procs (pt s))) by (cbn [pt s' set_sy set_mm set_pt]; by rewrite Ht, Hpr, list_insert_insert_eq).
  assert (Hq : proc_at np (s' y t) = child_of par q1 (p_sz par)) by (unfold proc_at; rewrite Hpt; by apply list_lookup_total_insert_eq).
  assert (Hsrc : forall va, vget (mm s1) umo va = vget (mm s) umo va).
  { intros va. unfold vget. destruct (umo !! (va / PGSIZE)) as [[fr g]|] eqn:E; [|done]. f_equal. apply (al_other _ _ _ _ _ _ _ _ _ Hal). destruct (uo_frame _ _ _ _ _ Hu _ _ _ E) as ([Ha _] & Hn & _).
    rewrite (page_of_in fr); [done|done|]. pose proof (Z.mod_pos_bound va PGSIZE ltac:(done)). lia. }
  split; rewrite ?Hq.
  - exact Hy.
  - destruct (al_proc _ _ _ _ _ _ _ _ _ Hal) as (tf & root & ->). repeat split. exact Hcwd.
  - exact Hld.
  - exact (eq_trans Hnx Hn2).
  - intros vp fr g E. apply (proj1 (proj2 (proj2 (proj2 Hcp))) vp fr g); [|done]. pose proof (pages_nonneg _ Hsz). rewrite Z2Nat.id by done. apply Hus. by eexists.
  - intros va. by rewrite Hv, (copied_vget np s1 s2 q1 lv lv2 fl1 fl2 umo um2 _ Hsz Hus Hcp).
  - apply child_tf_a0.
  - intros i Hi Ha. cbn [mm s' set_sy set_mm]. change (p_tf (child_of par q1 (p_sz par))) with (p_tf q1). rewrite child_tf_at by done. apply copied_other.
    rewrite (page_of_in (p_tf par)); [|apply Htfp|unfold tf_size in Hi; lia]. intros Hin. apply Htf, elem_of_owned. auto.
  - intros x. rewrite elem_held. symmetry. apply copied_pages.
  - intros p Hp. unfold proc_at. rewrite Hpt. by apply list_lookup_total_insert_ne.
  - exact Hsp.
  - intros f Hf. change (file_at f (s' y t)) with (foldl dup_ref (ftable s2) (p_ofile par) !!! f). rewrite Hft. by apply dup_refs_at.
  - assert (Hi : inode_at c s2 = inode_at c s) by (unfold inode_at; by rewrite Hfs). rewrite <-Hi. unfold inode_at at 1. cbn [fs s' set_sy set_mm set_pt set_ftable set_inode_at set_fs icache set_icache].
    apply list_lookup_total_insert_eq. rewrite Hfs, Hni. exact Hc.
Qed.

Lemma run_fork_copied (Q : Z -> kstate -> Prop) :
  (forall s', mems_ok s' fl2 (<[np := (lv2, um2)]> ms) -> forked np lv2 um2 fl2 s' -> Q (nextpid (pt s)) s') -> run (fork_tail np (p_sz par)) s2 Q.
Proof using All.
  intros HQ. destruct slot_free as [Hnone Hne]. destruct copied_fields as (_ & Hpr & Hft & Hfs & _). assert (Hnl : (np < length (procs (pt s)))%nat) by by rewrite (mo_nproc _ _ _ Hok).
  assert (Hm2 : proc_at me s2 = par) by (unfold proc_at; rewrite Hpr; by apply list_lookup_total_insert_ne). assert (Hn2 : proc_at np s2 = q1) by (unfold proc_at; rewrite Hpr; by apply list_lookup_total_insert_eq).
  destruct (al_proc _ _ _ _ _ _ _ _ _ Hal) as (tf & root & Eq). assert (Hpid : p_pid q1 = nextpid (pt s)) by by rewrite Eq.
  apply (run_fork_tail s2 np (p_sz par) c); rewrite ?Hm2, ?Hn2; [apply (proj1 Hcp)|done|by rewrite Hpr, length_insert|done|done| | |].
  - rewrite Eq. by apply (mo_clean _ _ _ Hok np Hnp Hnone).
  - intros f Hf. unfold file_at. rewrite Hft. by apply Hfiles.
  - intros y t Hy Ht. rewrite Hpid. assert (Hpt : procs t = <[np := child_of par q1 (p_sz par)]> (procs (pt s2))) by by rewrite Ht.
    apply HQ; [by apply child_mems|apply child_forked; [done|done|by rewrite Ht]].
Qed.
End copied.

(** The copy failed. *)
Section failed.
Context (Hum : um2 = ∅).

Lemma failed_mem : proc_mem s2 fl2 q1 lv2 ∅ /\ p_sz q1 = 0.
Proof using Hok Hal Hev Hnp Hfree Hme Hum.
  clear -par Hok Hal Hev Hnp Hfree Hme Hum. destruct slot_free as [Hnone _]. destruct (mo_clean _ _ _ Hok np Hnp Hnone) as (_ & Hz & _).
  destruct (al_proc _ _ _ _ _ _ _ _ _ Hal) as (tf & root & Eq). assert (Hq0 : set_p_sz 0 q1 = q1) by (rewrite Eq; unfold new_proc; destruct (proc_at np s) as []; cbn in *; by subst).
  split; [|by rewrite <-Hq0]. rewrite <-Hq0. apply (evolve_mem h (Some me) [LProc np] s1 s2 fl1 fl2 q1 lv lv2 ∅ ∅ 0 (al_mem _ _ _ _ _ _ _ _ _ Hal)).
  - clear -Hev Hum. by rewrite Hum in Hev.
  - split; by vm_compute.
  - intros vp. rewrite lookup_empty. change (pages 0) with 0. split; [by intros []|lia].
Qed.

Lemma failed_done s3 fl3 y : given h me [LProc np] s2 s3 fl2 fl3 {[p_tf q1]} (held q1 lv2 ∅) -> pt s3 = set_procs (<[np := freed q1]> (procs (pt s2))) (pt s2) -> owns h (Some me) [] y ->
  mems_ok (set_sy y s3) fl3 ms /\ fork_failed fl3 lv2 (set_sy y s3).
Proof using Hok Hal Hev Hnp Hfree Hme Hum.
  clear -par Hok Hal Hev Hnp Hfree Hme Hum. intros [_ (y3 & m3 & f3 & t3 & G2) G3 G4 G5] Hpt3 Hy. destruct slot_free as [Hnone _]. destruct copied_fields as (Hld & Hpr & _). destruct failed_mem as [Hpm _].
  destruct (mo_clean _ _ _ Hok np Hnp Hnone) as (_ & _ & _ & _ & Hof). destruct (al_proc _ _ _ _ _ _ _ _ _ Hal) as (tf & root & Eq).
  assert (Hld3 : ld (set_sy y s3) = ld s) by (rewrite G2; exact Hld). assert (Hk : kmem_ok (set_sy y s3) fl3) by by apply (kmem_frame s3).
  assert (Hpt : procs (pt (set_sy y s3)) = <[np := freed q1]> (procs (pt s))) by (cbn [pt set_sy]; rewrite Hpt3; cbn [procs set_procs]; by rewrite Hpr, list_insert_insert_eq).
  assert (Hsub : forall x, x ∈ fl3 -> x ∈ fl) by (intros x [Hx|Hx%elem_of_singleton]%G4; apply copied_sub; auto).
  assert (Hlv : forall x, is_Some (lv2 !! x) -> x ∈ fl) by (intros x Hx; apply copied_sub; auto).
  assert (Hm : forall a, page_of a ∉ fl -> getb (mm (set_sy y s3)) a = getb (mm s) a).
  { intros a Ha. rewrite <-(copied_other a Ha). apply G5; [intros Hx; apply Ha, copied_sub; auto|]. intros Hx%elem_held. apply Ha, copied_sub. rewrite Hum. tauto. }
  pose proof (fun D1 D2 D3 => conj (mems_change s (set_sy y s3) fl fl3 ms np (freed q1) None Hok Hld3 Hk Hnp Hpt D1 D2 D3)
    (change_other s (set_sy y s3) fl fl3 ms np (freed q1) None Hok Hld3 Hk Hnp Hpt D1 D2 D3)) as Hch.
  destruct Hch as [H1 H2]; [auto|auto|by rewrite Eq|]. change (partial_alter (fun _ => None) np ms) with (delete np ms) in H1. rewrite delete_id in H1 by done. split; [exact H1|].
  split; [exact Hy| | | | |].
  - intros p Hp. unfold proc_at at 1. rewrite Hpt. apply list_lookup_total_insert_ne. by intros ->.
  - intros p lv' um' va Hp. assert (Hne : p <> np) by congruence. by apply (H2 p lv' um' Hne Hp).
  - intros E. pose proof (pt_root _ _ _ (vo_tree _ _ _ _ (uo_vm _ _ _ _ _ (pm_uvm _ _ _ _ _ Hpm)))) as Hr. by rewrite E in Hr.
  - intros x. assert (Hn : x ∉ frames um2) by (rewrite Hum; by intros (vp & g & Hf)%elem_of_frames). rewrite <-copied_pages, G4, elem_of_singleton. tauto.
  - intros x Hx [Hf|Hf%elem_of_singleton]%G4; [eapply held_not_free; [exact Hpm| |exact Hf]; apply elem_held; auto|].
    apply (pm_tf _ _ _ _ _ Hpm). rewrite elem_of_owned, <-Hf. auto.
Qed.

Lemma run_fork_failed (Q : Z -> kstate -> Prop) :
  (forall s' fl', mems_ok s' fl' ms -> fork_failed fl' lv2 s' -> Q (-1) s') -> run (freeproc np ;; release (LProc np) ;; ret (-1)) s2 Q.
Proof using Hok Hal Hev Hnp Hfree Hme Htr Hum.
  clear -par Hok Hal Hev Hnp Hfree Hme Htr Hum. intros HQ. destruct copied_fields as (Hld & Hpr & _). assert (Hnl : (np < length (procs (pt s)))%nat) by by rewrite (mo_nproc _ _ _ Hok).
  assert (Hn2 : proc_at np s2 = q1) by (unfold proc_at; rewrite Hpr; by apply list_lookup_total_insert_eq). destruct failed_mem as [Hpm Hsz].
  wp. eapply (run_freeproc h me [LProc np] ltac:(set_solver) s2 fl2 np lv2 ∅); rewrite ?Hn2; [apply Hev|by rewrite Hpr, length_insert|done|unfold tramp_ok; by rewrite Hld|].
  unfold reclaimed. rewrite Hsz. change (0 <? 0) with false. cbv iota. intros s3 fl3 Hg Hpt3. rewrite right_id_L in Hg by apply _. wp.
  eapply run_release; [apply Hg|set_solver|]. intros y Hy. rewrite drop_head in Hy by set_solver. wp. destruct (failed_done s3 fl3 y Hg Hpt3 Hy). by eapply HQ.
Qed.
End failed.
End work.

Lemma run_fork (Q : Z -> kstate -> Prop) : (9 <= length fl)%nat ->
  (forall y, owns h (Some me) [] y -> (forall p, (p < NPROC)%nat -> p_state (proc_at p s) <> UNUSED) -> Q (-1) (set_sy y s)) ->
  (forall np lv um fl' s', ms !! np = None -> mems_ok s' fl' (<[np := (lv, um)]> ms) -> forked np lv um fl' s' -> Q (nextpid (pt s)) s') ->
  (forall lv fl' s', mems_ok s' fl' ms -> fork_failed fl' lv s' -> Z.of_nat (length fl) < 6 + 3 * pages (p_sz par) -> Q (-1) s') ->
  run fork s Q.
Proof using All.
  intros Hmem HQ0 HQ HQ1. pose proof (mo_mem _ _ _ Hok _ _ _ Hme) as Hpm. fold par in Hpm. unfold fork. wp. eapply run_myproc'; [exact Ho|]. intros y0 Hy0. wp.
  eapply (run_allocproc h me _ fl); [exact Hy0|apply (kmem_frame s); [apply Hok|done..]|apply Hok|exact Htr|lia| | |].
  { intros p Hp Hst. change (p_state (proc_at p s) = UNUSED) in Hst. destruct (ms !! p) as [[lv um]|] eqn:E; [destruct (mo_used _ _ _ Hok p ltac:(by eexists)); congruence|]. by apply (mo_clean _ _ _ Hok p Hp E). }
  { intros y Hy Hall. wp. by apply HQ0. }
  intros np q1 lv fl1 s1 Hnp Hst _ Hal0. change (p_state (proc_at np s) = UNUSED) in Hst.
  apply allocated_sy in Hal0 as Hal. pose proof Hal as [A1 A2 A3 A4 A5 A6 A7]. destruct (slot_free np Hst) as [Hnone Hne].
  assert (Hnl : (np < length (procs (pt s)))%nat) by by rewrite (mo_nproc _ _ _ Hok).
  assert (Hpt1 : procs (pt s1) = <[np := q1]> (procs (pt s)) /\ ld s1 = ld s) by (destruct A2 as (? & ? & ? & ? & -> & ? & _); done). destruct Hpt1 as [Hpt1 Hld1].
  assert (Hm1 : proc_at me s1 = par) by (unfold proc_at; rewrite Hpt1; by apply list_lookup_total_insert_ne). assert (Hn1 : proc_at np s1 = q1) by (unfold proc_at; rewrite Hpt1; by apply list_lookup_total_insert_eq).
  wp. rewrite Hm1, Hn1. destruct (proc_mem_frame s s1 fl fl1 par par lvo umo Hpm Hld1) as [Hpm1 _]; [apply A4| | |done..|].
  { intros x Hx Hh. apply (held_not_free _ _ _ _ _ _ Hpm Hh). apply A5. by left. }
  { intros a Ha. apply A7. intros Hin. eapply held_not_free; [exact Hpm| |exact Hin]. apply elem_held. auto. }
  eapply (run_uvmcopy h (Some me) [LProc np] ltac:(set_solver) s1 (p_pagetable par) (p_pagetable q1) lvo lv fl1 umo ∅ (p_sz par)); [exact A1|apply Hpm1|apply A4| | | | |lia| |].
  - intros x Hx. split; [|by intros (vp & g & E)%elem_of_frames]. destruct (lv !! x) eqn:E; [|done]. exfalso. eapply (held_not_free _ _ _ _ _ x Hpm); [apply elem_held; tauto|].
    apply A5. right. apply elem_held. right. left. by eexists.
  - destruct Hpm as [_ _ [Hz1 Hz2] _ _ _]. clear -Hz1 Hz2. lia.
  - apply Hpm.
  - intros vp Hvp. split; [done|]. apply (unmapped _ _ _ _ _ _ A4); [done|]. pose proof (pages_trapframe _ (proj2 (pm_sz _ _ _ _ _ Hpm))). clear -Hvp H. lia.
  - intros s2 lv2 fl2 um2 Hcp. change (0 <? 0) with false. cbv iota. eapply (run_fork_copied np q1 s1 s2 lv lv2 fl1 fl2 um2 Hnp Hst Hal (proj1 Hcp) Hcp); eauto.
  - intros s2 (lv' & fl' & He & _ & Hl). change (-1 <? 0) with true. cbv iota. pose proof (pages_nonneg _ (pm_sz _ _ _ _ _ Hpm)) as Hn.
    eapply (run_fork_failed np q1 s1 s2 lv lv' fl1 fl' ∅ Hnp Hst Hal He eq_refl). intros s3 fl3 Hm3 Hf3. eapply HQ1; [exact Hm3|exact Hf3|]. clear -Hl A6 Hn. lia.
Qed.
End forked.

(** ** growproc *)

Lemma pages_min a b : pages (Z.min a b) = Z.min (pages a) (pages b).
Proof.
  unfold pages. destruct (Z.le_ge_cases a b).
  - assert ((a + PGSIZE - 1) / PGSIZE <= (b + PGSIZE - 1) / PGSIZE) by (apply Z.div_le_mono; lia). rewrite !Z.min_l by lia. done.
  - assert ((b + PGSIZE - 1) / PGSIZE <= (a + PGSIZE - 1) / PGSIZE) by (apply Z.div_le_mono; lia). rewrite !Z.min_r by lia. done.
Qed.

Section grow.
Context (s : kstate) (fl : list Z) (ms : mems) (lv : gmap Z nat) (um : umap).
Let q := proc_at me s.
Context (Ho : owns h (Some me) [] (sy s)) (Hok : mems_ok s fl ms) (Hme : ms !! me = Some (lv, um)).

(** The process has size [new], and its bytes below both sizes are the old ones. *)
Record resized (new : Z) (um' : umap) (s' : kstate) : Prop := {
  rz_owns : owns h (Some me) [] (sy s');
  rz_shape : exists y m f t, s' = set_sy y (set_mm m (set_freelist f (set_pt t s)));
  rz_proc : proc_at me s' = set_p_sz new q;
  rz_bytes : forall va, vget (mm s') um' va =
    if va / PGSIZE <? pages (Z.min (p_sz q) new) then vget (mm s) um va else if va / PGSIZE <? pages new then Some 0 else None;
  rz_others : forall p, p <> me -> proc_at p s' = proc_at p s;
  rz_spaces : forall p lv um va, p <> me -> ms !! p = Some (lv, um) -> vget (mm s') um va = vget (mm s) um va
}.

Lemma grown_mems s1 s' fl1 lv1 um1 new : evolves h (Some me) [] (p_pagetable q) s s1 lv lv1 fl fl1 um um1 -> 0 <= new <= TRAPFRAME -> (forall vp, is_Some (um1 !! vp) <-> 0 <= vp < pages new) ->
  owns h (Some me) [] (sy s') -> mm s' = mm s1 -> freelist s' = freelist s1 -> ld s' = ld s1 -> (exists y m f t, s' = set_sy y (set_mm m (set_freelist f (set_pt t s)))) -> procs (pt s') = <[me := set_p_sz new q]> (procs (pt s)) ->
  (forall va, vget (mm s1) um1 va = if va / PGSIZE <? pages (Z.min (p_sz q) new) then vget (mm s) um va else if va / PGSIZE <? pages new then Some 0 else None) ->
  mems_ok s' fl1 (<[me := (lv1, um1)]> ms) /\ resized new um1 s'.
Proof using Hok Hme.
  intros He Hnew Hus Ho' Hmm Hfl Hld Hsh Hpt Hv. pose proof (mo_mem _ _ _ Hok _ _ _ Hme) as Hpm. fold q in Hpm. destruct (mo_used _ _ _ Hok me ltac:(by eexists)) as [Hmn Hst].
  pose proof (evolve_mem _ _ _ _ _ _ _ _ _ _ _ _ new Hpm He Hnew Hus) as Hpm1. assert (Hld' : ld s' = ld s) by (rewrite Hld; apply shape_ld, He).
  destruct (proc_mem_frame s1 s' fl1 fl1 (set_p_sz new q) (set_p_sz new q) lv1 um1 Hpm1 Hld) as [Hpm' _]; [apply (kmem_frame s1); [apply Hpm1|done..]| |by intros; rewrite Hmm|done..|].
  { intros x Hx Hh. revert Hx. by apply (held_not_free _ _ _ _ _ _ Hpm1). }
  assert (Hown : forall x, x ∈ fl1 \/ x ∈ held (set_p_sz new q) lv1 um1 -> x ∈ fl \/ x ∈ held q lv um).
  { intros x Hx. rewrite elem_held in *. cbn [p_tf set_p_sz] in Hx. pose proof (evolve_owned h (Some me) [] s s1 fl fl1 q lv lv1 um um1 He x). tauto. }
  pose proof (fun D1 D2 D3 => conj (mems_change s s' fl fl1 ms me (set_p_sz new q) (Some (lv1, um1)) Hok Hld' (vo_kmem _ _ _ _ (uo_vm _ _ _ _ _ (pm_uvm _ _ _ _ _ Hpm'))) Hmn Hpt D1 D2 D3)
    (change_other s s' fl fl1 ms me (set_p_sz new q) (Some (lv1, um1)) Hok Hld' (vo_kmem _ _ _ _ (uo_vm _ _ _ _ _ (pm_uvm _ _ _ _ _ Hpm'))) Hmn Hpt D1 D2 D3)) as Hch.
  rewrite Hme in Hch. fold q in Hch. destruct Hch as [H1 H2]; [auto| |split; [done|]; split; [done|]; auto|].
  { intros a Ha Hh. rewrite Hmm. apply He. rewrite elem_of_owned, <-elem_of_frames. rewrite elem_held in Hh. tauto. }
  split; [exact H1|]. split; [done|done| |by rewrite Hmm| |].
  - unfold proc_at. rewrite Hpt. apply list_lookup_total_insert_eq. by rewrite (mo_nproc _ _ _ Hok).
  - intros p Hp. unfold proc_at. rewrite Hpt. by apply list_lookup_total_insert_ne.
  - intros p lv' um' va Hp Hm'. by apply (H2 p lv' um' Hp Hm').
Qed.

Lemma evolves_sy y s1 root l l1 f f1 u u1 : evolves h (Some me) [] root (set_sy y s) s1 l l1 f f1 u u1 -> evolves h (Some me) [] root s s1 l l1 f f1 u u1.
Proof. intros [A1 (y' & m & f' & ->) A3 A4 A5 A6 A7]. split; try done. by exists y', m, f'. Qed.

Lemma grown_done s1 fl1 lv1 um1 new (Q : Z -> kstate -> Prop) : evolves h (Some me) [] (p_pagetable q) s s1 lv lv1 fl fl1 um um1 -> 0 <= new <= TRAPFRAME -> (forall vp, is_Some (um1 !! vp) <-> 0 <= vp < pages new) ->
  (forall va, vget (mm s1) um1 va = if va / PGSIZE <? pages (Z.min (p_sz q) new) then vget (mm s) um va else if va / PGSIZE <? pages new then Some 0 else None) ->
  (forall s', mems_ok s' fl1 (<[me := (lv1, um1)]> ms) -> resized new um1 s' -> Q 0 s') -> run (upd_proc me (set_p_sz new) ;; ret 0) s1 Q.
Proof using Hok Hme.
  intros He Hnew Hus Hv HQ. unfold upd_proc. wp. destruct (ev_shape _ _ _ _ _ _ _ _ _ _ _ _ He) as (y & m & f & E). assert (Hq1 : proc_at me s1 = q) by by rewrite E. rewrite Hq1.
  destruct (grown_mems s1 (set_proc_at me (set_p_sz new q) s1) fl1 lv1 um1 new He Hnew Hus (ev_owns _ _ _ _ _ _ _ _ _ _ _ _ He)); try done; [rewrite E; by eexists _, _, _, _|by rewrite E|]. by apply HQ.
Qed.

(** The memory of the process at size [new]. *)
Definition sized (new : Z) (s1 : kstate) : Prop := exists lv1 fl1 um1, evolves h (Some me) [] (p_pagetable q) s s1 lv lv1 fl fl1 um um1 /\
  Z.of_nat (length fl) <= 3 * Z.max 0 (pages new - pages (p_sz q)) + Z.of_nat (length fl1) /\
  (forall vp, is_Some (um1 !! vp) <-> 0 <= vp < pages new) /\
  forall va, vget (mm s1) um1 va = if va / PGSIZE <? pages (Z.min (p_sz q) new) then vget (mm s) um va else if va / PGSIZE <? pages new then Some 0 else None.

Lemma user_none va : pages (p_sz q) <= va / PGSIZE -> vget (mm s) um va = None.
Proof using Hok Hme.
  intros Hva. unfold vget. destruct (um !! (va / PGSIZE)) eqn:E; [|done]. pose proof (pm_user _ _ _ _ _ (mo_mem _ _ _ Hok _ _ _ Hme) (va / PGSIZE)) as Hu. fold q in Hu.
  assert (is_Some (um !! (va / PGSIZE))) as ?%Hu by (by eexists). lia.
Qed.

Lemma run_grow y new (Q : Z -> kstate -> Prop) : owns h (Some me) [] y -> p_sz q <= new <= TRAPFRAME -> (forall s1, sized new s1 -> Q new s1) ->
  (forall s1 lv1 fl1, evolves h (Some me) [] (p_pagetable q) s s1 lv lv1 fl fl1 um um -> (forall va, vget (mm s1) um va = vget (mm s) um va) ->
     Z.of_nat (length fl) < 3 * (pages new - pages (p_sz q)) -> Q 0 s1) ->
  run (uvmalloc (p_pagetable q) (p_sz q) new) (set_sy y s) Q.
Proof using Hok Hme Ho.
  intros Hy Hnew HQ HQ0. pose proof (mo_mem _ _ _ Hok _ _ _ Hme) as Hpm. fold q in Hpm. pose proof Hpm as [Hu _ Hsz Hus _ _]. assert (Hmono : pages (p_sz q) <= pages new) by (apply Z.div_le_mono; lia).
  assert (H0 : 0 <= pages (p_sz q)) by (apply Z.div_pos; lia).
  assert (Hnone : forall vp, pages (p_sz q) <= vp -> um !! vp = None) by (intros vp Hvp; destruct (um !! vp) eqn:E; [|done]; assert (is_Some (um !! vp)) as ?%Hus by (by eexists); lia).
  apply (run_uvmalloc h (Some me) [] ltac:(set_solver) (p_pagetable q) (set_sy y s) lv fl um (p_sz q) new); [done|by apply (uvm_frame _ _ s)|lia|lia| | |].
  - intros vp Hvp. split; [apply Hnone; lia|]. apply (unmapped s fl q lv um vp Hpm); [apply Hnone; lia|]. pose proof (pages_trapframe new). lia.
  - intros s1 (lv1 & fl1 & um1 & He & Hd & Hall & Hv & _ & Hl). rewrite Z2Nat.id in * by lia. rewrite Zplus_minus in *. apply HQ. exists lv1, fl1, um1. split; [by eapply evolves_sy|]. split; [lia|]. split.
    + intros vp. apply (f_equal (lookup vp)) in Hd. rewrite um_del_lookup, Z2Nat.id in Hd by lia. rewrite Zplus_minus in Hd. case_bool_decide as E.
      * split; [lia|]. intros _. destruct (Hall vp E) as [fr ->]. by eexists.
      * rewrite Hd, Hus. lia.
    + intros va. rewrite Hv, Z.min_l by lia. destruct (Z.ltb_spec (va / PGSIZE) (pages (p_sz q))); [by rewrite bool_decide_false by lia|].
      destruct (Z.ltb_spec (va / PGSIZE) (pages new)); [by rewrite bool_decide_true by lia|]. rewrite bool_decide_false by lia. by apply user_none.
  - intros s1 (lv1 & fl1 & He & Hv & Hl). eapply HQ0; [by eapply evolves_sy|done|]. lia.
Qed.

Lemma shrunk_free s1 fl1 a n : evolves h (Some me) [] (p_pagetable q) s s1 lv lv fl fl1 um (um_del um a n) -> (length fl <= length fl1)%nat.
Proof using Hok Hme.
  intros He. pose proof (pm_uvm _ _ _ _ _ (mo_mem _ _ _ Hok _ _ _ Hme)) as Hu. fold q in Hu. apply submseteq_length, NoDup_submseteq; [apply (vo_kmem _ _ _ _ (uo_vm _ _ _ _ _ Hu))|].
  intros x Hx. assert (Hin : x ∈ owned lv fl um) by (apply elem_of_owned; auto). rewrite <-(ev_owned _ _ _ _ _ _ _ _ _ _ _ _ He) in Hin.
  apply elem_of_owned in Hin as [Hl|[Hf|(vp & g & Hf)]]; [|done|]; exfalso.
  - rewrite (vo_fresh _ _ _ _ (uo_vm _ _ _ _ _ Hu) x Hx) in Hl. by destruct Hl.
  - rewrite um_del_lookup in Hf. case_bool_decide; [done|]. by destruct (uo_frame _ _ _ _ _ Hu _ _ _ Hf) as (_ & ? & _).
Qed.

Lemma run_shrink y new (Q : Z -> kstate -> Prop) : owns h (Some me) [] y -> 0 <= new <= TRAPFRAME -> (forall s1, sized (Z.min (p_sz q) new) s1 -> Q (Z.min (p_sz q) new) s1) ->
  run (uvmdealloc (p_pagetable q) (p_sz q) new) (set_sy y s) Q.
Proof using Hok Hme Ho.
  intros Hy Hnew HQ. pose proof (mo_mem _ _ _ Hok _ _ _ Hme) as Hpm. fold q in Hpm. pose proof Hpm as [Hu _ Hsz Hus _ _]. assert (H0 : 0 <= pages new) by (apply Z.div_pos; lia).
  apply (run_uvmdealloc h (Some me) [] ltac:(set_solver) (p_pagetable q) (set_sy y s) lv fl um (p_sz q) new); [done|by apply (uvm_frame _ _ s)|lia|lia|intros vp Hvp; apply Hus; lia|].
  assert (Hmin : pages (Z.min (p_sz q) new) = Z.min (pages (p_sz q)) (pages new)) by apply pages_min.
  intros s1 (fl1 & He & Hv). apply HQ. apply evolves_sy in He. eexists lv, fl1, _. split; [exact He|]. split; [pose proof (shrunk_free s1 fl1 _ _ He); lia|]. split.
  - intros vp. rewrite um_del_lookup, Hmin. case_bool_decide as E; [split; [by intros []|lia]|]. rewrite Hus. lia.
  - intros va. rewrite Hv, vget_del, Z.min_assoc, Z.min_id, Hmin. cbn [mm set_sy]. destruct (Z.ltb_spec (va / PGSIZE) (Z.min (pages (p_sz q)) (pages new))); [by rewrite bool_decide_false by lia|].
    case_bool_decide; [done|]. apply user_none. lia.
Qed.

(** The size growproc(n) gives: sizes that do not fit an uint leave it alone. *)
Definition new_size (n : Z) : Z := if bool_decide (0 <= p_sz q + n < 2 ^ 32) then p_sz q + n else p_sz q.

Lemma sized_done s1 new (Q : Z -> kstate -> Prop) : sized new s1 -> 0 <= new <= TRAPFRAME ->
  (forall s' lv1 fl1 um1, mems_ok s' fl1 (<[me := (lv1, um1)]> ms) -> resized new um1 s' -> Z.of_nat (length fl) <= 3 * Z.max 0 (pages new - pages (p_sz q)) + Z.of_nat (length fl1) -> Q 0 s') ->
  run (upd_proc me (set_p_sz new) ;; ret 0) s1 Q.
Proof using Hok Hme. intros (lv1 & fl1 & um1 & He & Hl & Hus & Hv) Hnew HQ. eapply grown_done; [exact He|exact Hnew|exact Hus|exact Hv|]. intros s' H1 H2. by eapply HQ. Qed.

Lemma sized_same y : owns h (Some me) [] y -> sized (p_sz q) (set_sy y s).
Proof using Hok Hme.
  intros Hy. pose proof (mo_mem _ _ _ Hok _ _ _ Hme) as Hpm. fold q in Hpm. exists lv, fl, um. split; [eapply evolves_sy, evolves_refl; [exact Hy|]; apply (uvm_frame _ _ s); [done..|apply Hpm]|]. split; [lia|]. split; [apply Hpm|].
  intros va. rewrite Z.min_id. cbn [mm set_sy]. destruct (Z.ltb_spec (va / PGSIZE) (pages (p_sz q))); [done|]. by apply user_none.
Qed.

Lemma grow_failed s1 lv1 fl1 : evolves h (Some me) [] (p_pagetable q) s s1 lv lv1 fl fl1 um um -> (forall va, vget (mm s1) um va = vget (mm s) um va) ->
  mems_ok s1 fl1 (<[me := (lv1, um)]> ms) /\ resized (p_sz q) um s1.
Proof using Hok Hme.
  intros He Hv. pose proof (mo_mem _ _ _ Hok _ _ _ Hme) as Hpm. fold q in Hpm. destruct (mo_used _ _ _ Hok me ltac:(by eexists)) as [Hmn _].
  apply (grown_mems s1); [exact He|apply Hpm|apply Hpm|apply He|done..| | |].
  - apply shape_pt, He.
  - destruct (ev_shape _ _ _ _ _ _ _ _ _ _ _ _ He) as (y & m & f & ->). cbn [pt set_sy set_mm set_freelist]. symmetry. apply list_insert_id. rewrite list_lookup_lookup_total_lt by by rewrite (mo_nproc _ _ _ Hok).
    f_equal. change (procs (pt s) !!! me) with q. by destruct q.
  - intros va. rewrite Hv, Z.min_id. destruct (Z.ltb_spec (va / PGSIZE) (pages (p_sz q))); [done|]. by apply user_none.
Qed.

Lemma run_growproc n (Q : Z -> kstate -> Prop) : p_sz q < 2 ^ 32 -> - 2 ^ 31 <= n < 2 ^ 31 ->
  (forall s' lv1 fl1 um1, mems_ok s' fl1 (<[me := (lv1, um1)]> ms) -> resized (new_size n) um1 s' ->
     Z.of_nat (length fl) <= 3 * Z.max 0 (pages (new_size n) - pages (p_sz q)) + Z.of_nat (length fl1) -> Q 0 s') ->
  (forall s' lv1 fl1, mems_ok s' fl1 (<[me := (lv1, um)]> ms) -> resized (p_sz q) um s' -> 0 < n -> Z.of_nat (length fl) < 3 * (pages (new_size n) - pages (p_sz q)) -> Q (-1) s') ->
  run (growproc n) s Q.
Proof using All.
  intros Hsz Hn HQ HQ1. pose proof (mo_mem _ _ _ Hok _ _ _ Hme) as Hpm. fold q in Hpm. pose proof (pm_sz _ _ _ _ _ Hpm) as [Hz0 _]. assert (Htf : 2 ^ 32 <= TRAPFRAME) by by vm_compute.
  assert (Hns : 0 <= new_size n <= TRAPFRAME) by (unfold new_size; case_bool_decide; lia).
  unfold growproc. wp. eapply run_myproc'; [exact Ho|]. intros y Hy. wp. change (proc_at me (set_sy y s)) with q. rewrite (u32_small (p_sz q)) by lia. destruct (Z.ltb_spec 0 n); [|destruct (Z.ltb_spec n 0)].
  - wp. destruct (decide (p_sz q + n < 2 ^ 32)) as [Hlt|Hge].
    + assert (Hnew : new_size n = p_sz q + n) by (unfold new_size; by rewrite bool_decide_true by lia). rewrite Hnew in *. rewrite (u32_small (p_sz q + n)) by lia. apply run_grow; [done|lia| |].
      * intros s1 Hs1. wp. rewrite (u32_small (p_sz q + n)) by lia. destruct (Z.eqb_spec (p_sz q + n) 0); [lia|]. eapply sized_done; [exact Hs1|lia|exact HQ].
      * intros s1 lv1 fl1 He Hv Hl. wp. change (u32 0 =? 0) with true. cbv iota. wp. destruct (grow_failed s1 lv1 fl1 He Hv) as [H1 H2]. by eapply HQ1.
    + assert (Hnew : new_size n = p_sz q) by (unfold new_size; by rewrite bool_decide_false by lia). rewrite Hnew in *. assert (Hw : u32 (p_sz q + n) = p_sz q + n - 2 ^ 32).
      { unfold u32. symmetry. apply Z.mod_unique_pos with 1; lia. }
      unfold uvmalloc. rewrite Hw. destruct (Z.ltb_spec (p_sz q + n - 2 ^ 32) (p_sz q)); [|lia]. wp. rewrite u32_small by lia. destruct (Z.eqb_spec (p_sz q) 0); [lia|].
      eapply sized_done; [by apply sized_same|lia|exact HQ].
  - wp. assert (Hw : new_size n = Z.min (p_sz q) (u32 (p_sz q + n))).
    { unfold new_size. case_bool_decide; [rewrite u32_small by lia; lia|]. assert (u32 (p_sz q + n) = p_sz q + n + 2 ^ 32) as -> by (unfold u32; symmetry; apply Z.mod_unique_pos with (-1); lia). lia. }
    rewrite Hw in *. pose proof (u32_range (p_sz q + n)). apply run_shrink; [done|lia|]. intros s1 Hs1. wp. rewrite u32_small by lia. eapply sized_done; [exact Hs1|lia|exact HQ].
  - wp. assert (Hnew : new_size n = p_sz q) by (unfold new_size; case_bool_decide; lia). rewrite Hnew in *. eapply sized_done; [by apply sized_same|lia|exact HQ].
Qed.
End grow.
End fork.
End Process.
