(* ===== verification/Wait.v ===== *)
(** * Waiting for a child (wait of kernel/proc.c)

    wait() sleeps until a child has exited and reaps the first one that has: it
    returns the pid of the child, copies out its status, and gives its pages
    back. *)

From S2P Require Import Prelude Bytes CString KState Spinlock Kernel Riscv Machine Kalloc Vm PageTable Uvm Uvmcopy PageFree Sched Console Virtio Bio Log Fs Dir Pipe File Proc ProcMem Process.

Module Wait.
Import Kalloc Vm PageTable Uvm Uvmcopy PageFree Sched Fs File Proc ProcMem Process.

(** User code reaches user pages only: the trampoline and the trap frame are
    mapped without PTE_U. *)
Lemma proc_user_only s fl q lv um : proc_mem s fl q lv um -> tramp_ok s -> user_only s (p_pagetable q) um.
Proof.
  intros Hpm (T1 & T2 & T3) va H0 Hr. destruct (um !! (va / PGSIZE)) eqn:E; [by eexists|]. exfalso. unfold uread in Hr. destruct (Z.ltb_spec va MAXVA); [|by destruct Hr].
  pose proof (pm_kpte _ _ _ _ _ Hpm va ltac:(lia)) as Hk. unfold kpte in Hk. rewrite E, bool_decide_true in Hk by done. cbn [andb] in Hk, Hr.
  destruct (is_page_range _ _ (km_end _ _ (vo_kmem _ _ _ _ (uo_vm _ _ _ _ _ (pm_uvm _ _ _ _ _ Hpm)))) (proj1 (pm_tf _ _ _ _ _ Hpm))) as [F1 F2].
  destruct (pte_has (pte_of (mm s) (p_pagetable q) va) PTE_V); [|by destruct Hr]. cbn [andb] in Hr.
  assert (Hu : pte_has (pte_of (mm s) (p_pagetable q) va) PTE_U = false); [|by rewrite Hu in Hr; destruct Hr].
  case_bool_decide; [injection Hk as ->; rewrite leaf_pte_user by (done || lia); done|]. case_bool_decide; [|done]. injection Hk as ->. rewrite leaf_pte_user by (done || lia). done.
Qed.

(** The exit status as copyout() gets it. *)
Definition status_bytes (x : Z) : list Z := get_bytes 4 (st32 (replicate 4 0) 0 x) 0.

Lemma status_byte x i : (i < 4)%nat -> status_bytes x !! i = Some (x / 256 ^ Z.of_nat i mod 256).
Proof.
  assert (E : status_bytes x = [u8 (u8 x); u8 (u8 (x / 256)); u8 (u8 (x / 256 / 256)); u8 (u8 (x / 256 / 256 / 256))]) by reflexivity. rewrite E. unfold u8. rewrite !Z.mod_mod, !Z.div_div by lia. intros Hi.
  do 4 (destruct i as [|i]; [cbn; rewrite ?Z.div_1_r; done|]). lia.
Qed.

(** The invariant is about memory, the free list, the link map and some fields of the slots. *)
Lemma mems_frame s s' fl ms : mems_ok s fl ms -> mm s' = mm s -> freelist s' = freelist s -> ld s' = ld s -> length (procs (pt s')) = length (procs (pt s)) ->
  (forall p, let q := proc_at p s in let q' := proc_at p s' in
     p_pagetable q' = p_pagetable q /\ p_sz q' = p_sz q /\ p_tf q' = p_tf q /\ (p_state q <> UNUSED -> p_state q' <> UNUSED) /\ (clean q -> clean q')) -> mems_ok s' fl ms.
Proof.
  intros [A1 A2 A3 A4 A5 A6] Hm Hf Hl Hp Hq. assert (Hh : forall p lv um, held (proc_at p s') lv um = held (proc_at p s) lv um) by (intros p lv um; unfold held; by destruct (Hq p) as (_ & _ & -> & _)).
  split; [by apply (kmem_frame s)|by rewrite Hp|intros p Hms; split; [by apply A3|apply Hq; by apply A3]| |intros *; rewrite !Hh; apply A5|intros p Hn Hms; apply Hq; by apply A6].
  intros p lv um Hlv. destruct (Hq p) as (Q1 & Q2 & Q3 & _). specialize (A4 _ _ _ Hlv). destruct (proc_mem_frame s s' fl fl (proc_at p s) (proc_at p s') lv um A4 Hl) as [H _]; try done; [by apply (kmem_frame s)| |by intros; rewrite Hm].
  intros x Hx Hx'. revert Hx. by apply (held_not_free _ _ _ _ _ _ A4).
Qed.

Lemma mems_same s s' fl ms : mems_ok s fl ms -> mm s' = mm s -> freelist s' = freelist s -> ld s' = ld s -> procs (pt s') = procs (pt s) -> mems_ok s' fl ms.
Proof. intros Hok Hm Hf Hl Hp. apply (mems_frame s); try done; [by rewrite Hp|]. intros p. unfold proc_at. by rewrite Hp. Qed.

Section wait.
Context (h me : nat) (s : kstate) (fl : list Z) (ms : mems) (lv : gmap Z nat) (um : umap) (addr : Z).
Context (Hok : mems_ok s fl ms) (Hme : ms !! me = Some (lv, um)) (Htr : tramp_ok s) (Haddr : 0 <= addr).
Let q := proc_at me s.

(** Writing to the user pages of the process. *)
Lemma mems_write src k s1 : copied_out s (p_pagetable q) lv fl um addr src k s1 ->
  mems_ok s1 fl ms /\ forall p lv' um' va, p <> me -> ms !! p = Some (lv', um') -> vget (mm s1) um' va = vget (mm s) um' va.
Proof using Hok Hme.
  intros (m' & -> & Hu & Hpte & _ & Hf). pose proof (mo_mem _ _ _ Hok _ _ _ Hme) as Hpm. fold q in Hpm. destruct (mo_used _ _ _ Hok me ltac:(by eexists)) as [Hmn Hst]. fold q in Hst.
  assert (Hpm' : proc_mem (set_mm m' s) fl q lv um).
  { destruct Hpm as [P1 P2 P3 P4 P5 P6]. split; try done. intros va Hva. rewrite <-P6 by done. apply kpte_same. apply Hpte. }
  assert (Hpt : procs (pt (set_mm m' s)) = <[me := q]> (procs (pt s))).
  { symmetry. cbn [pt set_mm]. apply list_insert_id. rewrite list_lookup_lookup_total_lt by by rewrite (mo_nproc _ _ _ Hok). done. }
  assert (Hk : kmem_ok (set_mm m' s) fl) by apply Hpm'.
  pose proof (fun D1 D2 D3 => conj (mems_change s (set_mm m' s) fl fl ms me q (Some (lv, um)) Hok eq_refl Hk Hmn Hpt D1 D2 D3)
    (change_other s (set_mm m' s) fl fl ms me q (Some (lv, um)) Hok eq_refl Hk Hmn Hpt D1 D2 D3)) as Hch.
  rewrite Hme in Hch. fold q in Hch. destruct Hch as [H1 H2]; [auto| |split; [done|]; split; [done|]; auto|].
  { intros a _ Hh. apply Hf. intros Hx. apply Hh, elem_held. auto. }
  change (partial_alter (fun _ => Some (lv, um)) me ms) with (<[me := (lv, um)]> ms) in H1. rewrite insert_id in H1 by done. split; [done|].
  intros p lv' um' va Hp Hm. by apply (H2 p lv' um' Hp Hm).
Qed.

(** Freeing the slot of another process. *)
Lemma mems_reap ls z lvz umz s2 fl2 X : ms !! z = Some (lvz, umz) -> p_ofile (proc_at z s) = replicate NOFILE None ->
  given h me ls s s2 fl fl2 X (held (proc_at z s) lvz umz) -> X ⊆ held (proc_at z s) lvz umz -> pt s2 = set_procs (<[z := freed (proc_at z s)]> (procs (pt s))) (pt s) ->
  mems_ok s2 fl2 (delete z ms) /\ forall p lv' um' va, p <> z -> ms !! p = Some (lv', um') -> vget (mm s2) um' va = vget (mm s) um' va.
Proof using Hok.
  intros Hz Hof [_ (y & m & f & t & E) G3 G4 G5] HX Hpt. destruct (mo_used _ _ _ Hok z ltac:(by eexists)) as [Hzn _]. assert (Hl : ld s2 = ld s) by by rewrite E.
  assert (Hpt' : procs (pt s2) = <[z := freed (proc_at z s)]> (procs (pt s))) by by rewrite Hpt.
  pose proof (fun D1 D2 D3 => conj (mems_change s s2 fl fl2 ms z (freed (proc_at z s)) None Hok Hl G3 Hzn Hpt' D1 D2 D3)
    (change_other s s2 fl fl2 ms z (freed (proc_at z s)) None Hok Hl G3 Hzn Hpt' D1 D2 D3)) as Hch.
  rewrite Hz in Hch. destruct Hch as [H1 H2]; [| |done|].
  - intros x Hx. apply G4 in Hx as [?|?]; [by left|]. right. by apply HX.
  - intros a H1 H2. by apply G5.
  - split; [done|]. intros p lv' um' va Hp Hm. by apply (H2 p lv' um' Hp Hm).
Qed.
End wait.

Lemma same_mm y s : set_sy y s = set_mm (mm s) (set_sy y s).
Proof. by destruct s. Qed.

Section reap.
Context (h me : nat) (s : kstate) (fl : list Z) (ms : mems) (lv : gmap Z nat) (um : umap) (addr : Z).
Context (Hok : mems_ok s fl ms) (Hme : ms !! me = Some (lv, um)) (Htr : tramp_ok s) (Haddr : 0 <= addr).
Let q := proc_at me s.

(** Child [z] has been reaped. *)
Record reaped (z : nat) (lvz : gmap Z nat) (umz : umap) (fl' : list Z) (s' : kstate) : Prop := {
  rp_owns : owns h (Some me) [] (sy s');
  rp_slot : proc_at z s' = freed (proc_at z s);
  rp_others : forall p, p <> z -> proc_at p s' = proc_at p s;
  rp_pages : forall x, x ∈ fl' <-> x ∈ fl \/ if 0 <? p_sz (proc_at z s) then x ∈ held (proc_at z s) lvz umz else x = p_tf (proc_at z s);
  rp_status : forall va, vget (mm s') um va =
    if bool_decide (addr <> 0 /\ addr <= va < addr + 4) then Some (p_xstate (proc_at z s) / 256 ^ (va - addr) mod 256) else vget (mm s) um va;
  rp_spaces : forall p lv' um' va, p <> me -> p <> z -> ms !! p = Some (lv', um') -> vget (mm s') um' va = vget (mm s) um' va
}.

(** The status could not be copied out: no child has been reaped. *)
Record status_lost (s' : kstate) : Prop := {
  sl_owns : owns h (Some me) [] (sy s');
  sl_procs : pt s' = pt s;
  sl_fault : addr <> 0 /\ exists i, 0 <= i < 4 /\ uread (mm s) (p_pagetable q) (addr + i) = None;
  sl_spaces : forall p lv' um' va, p <> me -> ms !! p = Some (lv', um') -> vget (mm s') um' va = vget (mm s) um' va
}.

(** The parent's memory with the status in it. *)
Definition status_out (x : Z) (y : sync) (s1 : kstate) : Prop := exists m', s1 = set_mm m' (set_sy y s) /\ mems_ok s1 fl ms /\
  (forall p lv' um' va, p <> me -> ms !! p = Some (lv', um') -> vget m' um' va = vget (mm s) um' va) /\
  forall va, vget m' um va = if bool_decide (addr <> 0 /\ addr <= va < addr + 4) then Some (x / 256 ^ (va - addr) mod 256) else vget (mm s) um va.

Lemma run_status x y (Q : Z -> kstate -> Prop) : (forall s1, status_out x y s1 -> Q 0 s1) ->
  (forall m', let s1 := set_mm m' (set_sy y s) in mems_ok s1 fl ms ->
     (forall p lv' um' va, p <> me -> ms !! p = Some (lv', um') -> vget m' um' va = vget (mm s) um' va) ->
     (addr <> 0 /\ exists i, 0 <= i < 4 /\ uread (mm s) (p_pagetable q) (addr + i) = None) -> Q (-1) s1) ->
  run (if addr =? 0 then ret 0 else pgt <- gets (fun s => p_pagetable (proc_at me s)) ;; copyout pgt addr (status_bytes x)) (set_sy y s) Q.
Proof using All.
  intros HQ HQ1. assert (Hok' : mems_ok (set_sy y s) fl ms) by by apply (mems_same s). pose proof (mo_mem _ _ _ Hok' _ _ _ Hme) as Hpm. change (proc_at me (set_sy y s)) with q in Hpm.
  destruct (Z.eqb_spec addr 0) as [E|E]; wp.
  - apply HQ. exists (mm s). split_and!; [apply same_mm|done|done|]. intros va. by rewrite bool_decide_false by tauto.
  - change (proc_at me (set_sy y s)) with q. eapply run_mono; [apply (run_copyout (set_sy y s) (p_pagetable q) lv fl um addr (status_bytes x)); [apply Hpm|by apply (proc_user_only _ fl _ lv)|done]|].
    intros r s1 (k & Hc & Hr). destruct (mems_write me (set_sy y s) fl ms lv um addr Hok' Hme _ _ _ Hc) as [Hm1 Hsp1]. destruct Hc as (m' & -> & _ & _ & Hv & _).
    destruct Hr as [[-> ->]|(-> & Hk & Hf)].
    + apply HQ. exists m'. split_and!; [done|done|exact Hsp1|]. intros va. rewrite Hv. change (length (status_bytes x)) with 4%nat. destruct (decide (addr <= va < addr + 4)) as [Hin|Hin].
      * rewrite !bool_decide_true by (lia || done). rewrite status_byte by lia. cbn [default from_option id]. unfold u8. by rewrite Z.mod_mod, Z2Nat.id by lia.
      * by rewrite !bool_decide_false by lia.
    + change (length (status_bytes x)) with 4%nat in Hk. assert (Hfault : addr <> 0 /\ exists i, 0 <= i < 4 /\ uread (mm s) (p_pagetable q) (addr + i) = None) by (split; [done|]; exists (Z.of_nat k); split; [lia|done]).
      apply HQ1; [done|exact Hsp1|exact Hfault].
Qed.

Context (z : nat) (lvz : gmap Z nat) (umz : umap) (Hz : ms !! z = Some (lvz, umz)) (Hne : z <> me) (Hof : p_ofile (proc_at z s) = replicate NOFILE None).

(** What wait() does with a child that has exited. *)
Definition reap_child : K ((nat * bool) + (Z + bool)) :=
  r <- (if addr =? 0 then ret 0 else pgt <- gets (fun s => p_pagetable (proc_at me s)) ;; copyout pgt addr (status_bytes (p_xstate (proc_at z s)))) ;;
  if r <? 0 then
    release (LProc z) ;;
    release (LProc me) ;;
    ret (inr (inl (-1)))
  else
    freeproc z ;;
    release (LProc z) ;;
    release (LProc me) ;;
    ret (inr (inl (p_pid (proc_at z s)))).

Lemma reaped_done y y' s1 s2 fl2 : status_out (p_xstate (proc_at z s)) y s1 ->
  given h me [LProc z; LProc me] s1 s2 fl fl2 ({[p_tf (proc_at z s)]} ∪ reclaimed (p_sz (proc_at z s)) lvz umz) (held (proc_at z s) lvz umz) ->
  pt s2 = set_procs (<[z := freed (proc_at z s)]> (procs (pt s))) (pt s) -> owns h (Some me) [] y' ->
  mems_ok (set_sy y' s2) fl2 (delete z ms) /\ reaped z lvz umz fl2 (set_sy y' s2).
Proof using All.
  intros (m' & -> & Hok1 & Hsp1 & Hv1) Hg Hpt Hy'. set (s1 := set_mm m' (set_sy y s)) in *. destruct (mo_used _ _ _ Hok z ltac:(by eexists)) as [Hzn _].
  assert (HX : {[p_tf (proc_at z s)]} ∪ reclaimed (p_sz (proc_at z s)) lvz umz ⊆ held (proc_at z s) lvz umz) by (unfold reclaimed, held; destruct (0 <? _); set_solver).
  destruct (mems_reap h me s1 fl ms Hok1 [LProc z; LProc me] z lvz umz s2 fl2 _ Hz Hof Hg HX Hpt) as [Hm2 Hsp2]. split; [by apply (mems_same s2)|].
  assert (Hat : forall p, proc_at p (set_sy y' s2) = if decide (p = z) then freed (proc_at z s) else proc_at p s).
  { intros p. apply (proc_at_insert z _ s); [cbn [pt set_sy]; by rewrite Hpt|by rewrite (mo_nproc _ _ _ Hok)]. }
  split; [exact Hy'| | | | |].
  - rewrite Hat. by rewrite decide_True.
  - intros p Hp. rewrite Hat. by rewrite decide_False.
  - intros x. rewrite (gv_free _ _ _ _ _ _ _ _ _ Hg x). unfold reclaimed, held. destruct (0 <? p_sz (proc_at z s)); set_solver.
  - intros va. rewrite <-Hv1. apply (Hsp2 me lv um); [done|exact Hme].
  - intros p lv' um' va Hp1 Hp2 Hm. etransitivity; [by apply (Hsp2 p lv' um')|]. by apply (Hsp1 p lv' um').
Qed.

Lemma run_reap_child y (Q : (nat * bool) + (Z + bool) -> kstate -> Prop) : owns h (Some me) [LProc z; LProc me] y ->
  (forall s' fl', mems_ok s' fl' (delete z ms) -> reaped z lvz umz fl' s' -> Q (inr (inl (p_pid (proc_at z s)))) s') ->
  (forall s', mems_ok s' fl ms -> status_lost s' -> Q (inr (inl (-1))) s') ->
  run reap_child (set_sy y s) Q.
Proof using All.
  intros Hy HQ HQ1. assert (Hn1 : LProc z ∉ [LProc me]) by (intros [= E]%list_elem_of_singleton; done). unfold reap_child. apply run_bind. apply run_status.
  - intros s1 Hs1. change (0 <? 0) with false. cbv iota. pose proof Hs1 as (m' & E1 & Hok1 & _). assert (Hat1 : proc_at z s1 = proc_at z s) by by rewrite E1. assert (Hld1 : ld s1 = ld s) by by rewrite E1.
    assert (Hpt1 : pt s1 = pt s) by by rewrite E1. assert (Hy1 : owns h (Some me) [LProc z; LProc me] (sy s1)) by by rewrite E1. pose proof (mo_mem _ _ _ Hok1 _ _ _ Hz) as Hpm. destruct (mo_used _ _ _ Hok z ltac:(by eexists)) as [Hzn _].
    apply run_bind. eapply (run_freeproc h me [LProc z; LProc me] ltac:(set_solver) s1 fl z lvz umz); [exact Hy1|by rewrite Hpt1, (mo_nproc _ _ _ Hok)|exact Hpm|unfold tramp_ok; by rewrite Hld1|].
    rewrite Hat1, Hpt1. intros s2 fl2 Hg Hpt2. apply run_bind. eapply run_release; [apply Hg|set_solver|]. intros y2 Hy2. rewrite drop_head in Hy2 by done.
    apply run_bind. eapply run_release; [exact Hy2|set_solver|]. intros y3 Hy3. rewrite drop_head in Hy3 by apply not_elem_of_nil. wp.
    change (set_sy y3 (set_sy y2 s2)) with (set_sy y3 s2). destruct (reaped_done y y3 s1 s2 fl2 Hs1 Hg Hpt2 Hy3). by eapply HQ.
  - intros m' s1 Hok1 Hsp Hf. change (-1 <? 0) with true. cbv iota. apply run_bind. eapply run_release; [exact Hy|set_solver|]. intros y2 Hy2. rewrite drop_head in Hy2 by done.
    apply run_bind. eapply run_release; [exact Hy2|set_solver|]. intros y3 Hy3. rewrite drop_head in Hy3 by apply not_elem_of_nil. wp.
    apply HQ1; [by apply (mems_same s1)|]. split; [exact Hy3|done|exact Hf|exact Hsp].
Qed.
End reap.

(** *** The scan of the table *)

Section scan.
Context (h me : nat) (s : kstate) (addr : Z).

Definition child (p : nat) : Prop := (p < NPROC)%nat /\ p_parent (proc_at p s) = Some me.
Definition first_zombie (z : nat) : Prop := child z /\ p_state (proc_at z s) = ZOMBIE /\ forall p, (p < z)%nat -> child p -> p_state (proc_at p s) <> ZOMBIE.

Context (Hself : ~ child me) (Hme : (me < NPROC)%nat).

(** The scan has reached slot [np]. *)
Definition scanned (st : nat * bool) (s' : kstate) : Prop := exists y, s' = set_sy y s /\ owns h (Some me) [LProc me] y /\ (st.1 <= NPROC)%nat /\
  (forall p, (p < st.1)%nat -> child p -> p_state (proc_at p s) <> ZOMBIE) /\ (st.2 = true <-> exists p, (p < st.1)%nat /\ child p).

Lemma scanned_next np hk y : (np < NPROC)%nat -> scanned (np, hk) (set_sy y s) -> owns h (Some me) [LProc me] y -> (child np -> p_state (proc_at np s) <> ZOMBIE) -> forall hk', (child np -> hk' = true) -> (~ child np -> hk' = hk) ->
  scanned (S np, hk') (set_sy y s).
Proof.
  intros Hnp (y' & _ & _ & _ & Hz & Hk) Hy Hn hk' Ht Hf. cbn [fst snd] in *. exists y. split_and!; [done|done|cbn; lia| |].
  - intros p Hp. cbn in Hp. destruct (decide (p = np)) as [->|]; [exact Hn|]. apply Hz. lia.
  - cbn. assert (Hdec : child np \/ ~ child np) by (unfold child; destruct (decide (p_parent (proc_at np s) = Some me)); [left; done|right; tauto]). destruct Hdec as [Hc|Hc].
    + rewrite (Ht Hc). split; [|done]. intros _. exists np. split; [lia|done].
    + rewrite (Hf Hc), Hk. split; intros (p & Hp & Hcp); (exists p; split; [|done]); [lia|]. assert (p <> np) by (intros ->; done). lia.
Qed.

Lemma run_wait_scan y (Q : Z + bool -> kstate -> Prop) : owns h (Some me) [LProc me] y ->
  (forall z y', first_zombie z -> owns h (Some me) [LProc z; LProc me] y' -> run (reap_child me s addr z) (set_sy y' s) (fun r s' => match r with inl _ => False | inr r => Q r s' end)) ->
  (forall y' b, owns h (Some me) [LProc me] y' -> (forall p, child p -> p_state (proc_at p s) <> ZOMBIE) -> (b = true <-> exists p, child p) -> Q (inr b) (set_sy y' s)) ->
  run (wait_scan me addr) (set_sy y s) Q.
Proof using Hself Hme.
  intros Hy HQz HQ. unfold wait_scan. eapply (run_loop _ scanned (fun st _ => NPROC - st.1)%nat); [|exists y; split_and!; [done|done|cbn; lia|cbn; lia|cbn; split; [done|]; intros (p & Hp & _); lia]|cbn; lia].
  intros [np hk] s1 (y1 & -> & Hy1 & Hnp & Hz & Hk). assert (Hsc : scanned (np, hk) (set_sy y1 s)) by by exists y1. cbn [fst snd] in *. destruct (Nat.ltb_spec np NPROC) as [Hlt|Hge]; cycle 1.
  { assert (np = NPROC) as -> by lia. wp. apply HQ; [done| |].
    - intros p Hc. apply Hz; [apply Hc|done].
    - rewrite Hk. split; [intros (p & _ & Hc); by exists p|intros (p & Hc); exists p; split; [apply Hc|done]]. }
  wp. change (proc_at np (set_sy y1 s)) with (proc_at np s). case_bool_decide as Hpar; cycle 1.
  { wp. split; [|cbn; lia]. eapply scanned_next; [done|exact Hsc|done|..]; unfold child; tauto. }
  assert (Hc : child np) by done. assert (Hne : LProc np ∉ [LProc me]) by (intros [= E]%list_elem_of_singleton; by subst). wp. eapply run_acquire; [exact Hy1|done|]. intros y2 Hy2. wp.
  change (proc_at np (set_sy y2 (set_sy y1 s))) with (proc_at np s). change (set_sy y2 (set_sy y1 s)) with (set_sy y2 s). case_bool_decide as Hst.
  - eapply run_mono; [apply HQz; [split_and!; done|exact Hy2]|]. by intros [?|?].
  - wp. eapply run_release; [exact Hy2|set_solver|]. intros y3 Hy3. rewrite drop_head in Hy3 by done. wp. change (set_sy y3 (set_sy y2 s)) with (set_sy y3 s). split; [|cbn; lia].
    eapply (scanned_next np hk y3); [done| |done|done|done|done]. by exists y3.
Qed.
End scan.

(** A child is waited for: there is one, none has exited, and the process has
    not been killed. *)
Definition must_sleep (me : nat) (s : kstate) : Prop := (exists p, child me s p) /\ (forall p, child me s p -> p_state (proc_at p s) <> ZOMBIE) /\ p_killed (proc_at me s) = false.

Lemma must_sleep_dec me s : must_sleep me s \/ ~ must_sleep me s.
Proof.
  unfold must_sleep. destruct (decide (Exists (fun p => p_parent (proc_at p s) = Some me) (seq 0 NPROC) /\
    Forall (fun p => p_parent (proc_at p s) = Some me -> p_state (proc_at p s) <> ZOMBIE) (seq 0 NPROC) /\ p_killed (proc_at me s) = false)) as [Hd|Hd]; [left|right; contradict Hd].
  - destruct Hd as (H1 & H2 & H3). apply Exists_exists in H1 as (p & Hp & Hc). apply elem_of_seq in Hp. split_and!; [exists p; split; [lia|done]| |done].
    intros p' [Hp' Hc']. apply (proj1 (Forall_forall _ _) H2 p'); [apply elem_of_seq; lia|done].
  - destruct Hd as ((p & Hp & Hc) & H2 & H3). split_and!; [apply Exists_exists; exists p; split; [apply elem_of_seq; lia|done]| |done].
    apply Forall_forall. intros p' Hp' Hc'. apply elem_of_seq in Hp'. apply H2. split; [lia|done].
Qed.

(** *** Sleeping *)

(** sleep() with the lock of the process itself: it is SLEEPING on the channel
    when it leaves the CPU, and holds its lock again when it is back. *)
Lemma runE_sleep_own E h p ch s (Q : unit -> kstate -> Prop) :
  owns h (Some p) [LProc p] (sy s) -> (p < length (procs (pt s)))%nat ->
  (forall y, owns h (Some p) [LProc p] y ->
     let s1 := set_sy y (set_proc_at p (set_p_state SLEEPING (set_p_chan (Some ch) (proc_at p s))) s) in
     (exists s', E s1 s') /\
     forall s', E s1 s' -> owns h (Some p) [LProc p] (sy s') /\
       forall y', owns h (Some p) [LProc p] y' -> Q tt (set_sy y' (set_proc_at p (set_p_chan None (proc_at p s')) s'))) ->
  runE E (sleep ch (LProc p)) s Q.
Proof.
  intros Ho Hp HQ. unfold sleep. wp. eapply run_runE, run_myproc'; [done|]. intros y0 Hy0. wp.
  rewrite bool_decide_eq_true_2 by done. cbn [negb]. unfold upd_proc. wp. rewrite proc_at_set, set_proc_at_twice by done.
  change (proc_at p (set_sy _ _)) with (proc_at p s). eapply runE_sched; [exact Hy0|by rewrite proc_at_set|].
  intros y3 Hy3. destruct (HQ y3 Hy3) as [Hex Hall]. split; [exact Hex|].
  intros s' HE. destruct (Hall s' HE) as [Hy' HQ']. wp. by apply HQ', owns_set_intena.
Qed.

Section sleeping.
Context (E : kstate -> kstate -> Prop) (h me : nat) (lv : gmap Z nat) (um : umap).

(** Process [me] with its address space, among the others. *)
Record waits (ls : list lockid) (s : kstate) (fl : list Z) (ms : mems) : Prop := {
  w_owns : owns h (Some me) ls (sy s);
  w_mems : mems_ok s fl ms;
  w_me : ms !! me = Some (lv, um);
  w_tramp : tramp_ok s;
  w_self : ~ child me s me;
  w_closed : forall p, (p < NPROC)%nat -> p_state (proc_at p s) = ZOMBIE -> p_ofile (proc_at p s) = replicate NOFILE None
}.

(** The state in which wait() leaves the CPU. *)
Definition asleep (y : sync) (s : kstate) : kstate :=
  set_sy y (set_proc_at me (set_p_state SLEEPING (set_p_chan (Some (ChProc me)) (proc_at me s))) s).

(** What the other threads may do while [me] sleeps: anything that keeps the
    invariant of the address spaces and the memory of [me].  They wake [me] at
    most [S n] times before a child has exited, the last child is gone, or
    [me] has been killed. *)
Fixpoint wakes (n : nat) (s : kstate) : Prop :=
  (exists s', E s s') /\
  forall s', E s s' -> (exists fl ms, waits [LProc me] s' fl ms) /\ (forall va, vget (mm s') um va = vget (mm s) um va) /\
    (must_sleep me s' -> match n with
       | O => False
       | S n' => forall y, owns h (Some me) [LProc me] y -> wakes n' (asleep y s')
       end).
End sleeping.

(** *** The loop *)

Lemma set_sy_id s : set_sy (sy s) s = s.
Proof. by destruct s. Qed.

Section rounds.
Context (E : kstate -> kstate -> Prop) (h me : nat) (lv : gmap Z nat) (um : umap) (addr : Z) (Haddr : 0 <= addr).
Abbreviation waits := (waits h me lv um).
Abbreviation wakes := (wakes E h me lv um).

(** What wait() returns after a scan of the table of [s]. *)
Definition wait_result (s : kstate) (fl : list Z) (ms : mems) (r : Z) (s' : kstate) : Prop :=
  (exists z lvz umz fl', first_zombie me s z /\ ms !! z = Some (lvz, umz) /\ r = p_pid (proc_at z s) /\
     mems_ok s' fl' (delete z ms) /\ reaped h me s fl ms um addr z lvz umz fl' s') \/
  (r = -1 /\ (exists z, first_zombie me s z) /\ mems_ok s' fl ms /\ status_lost h me s ms addr s') \/
  (r = -1 /\ (forall p, child me s p -> p_state (proc_at p s) <> ZOMBIE) /\
     ((forall p, ~ child me s p) \/ p_killed (proc_at me s) = true) /\ exists y, owns h (Some me) [] y /\ s' = set_sy y s).

Definition wait_round : K (unit + Z) :=
  r <- wait_scan me addr ;;
  match r with
  | inl r => ret (inr r)
  | inr havekids =>
      killed <- gets (fun s => p_killed (proc_at me s)) ;;
      if negb havekids || killed then
        release (LProc me) ;;
        ret (inr (-1))
      else
        sleep (ChProc me) (LProc me) ;;
        ret (inl tt)
  end.

Lemma runE_wait_round s fl ms (Q : unit + Z -> kstate -> Prop) : waits [LProc me] s fl ms ->
  (forall r s', wait_result s fl ms r s' -> Q (inr r) s') ->
  (forall y, must_sleep me s -> owns h (Some me) [LProc me] y -> runE E (sleep (ChProc me) (LProc me)) (set_sy y s) (fun _ s' => Q (inl tt) s')) ->
  runE E wait_round s Q.
Proof using Haddr.
  intros [Ho Hok Hme Htr Hself Hof] HQ HQs. destruct (mo_used _ _ _ Hok me ltac:(by eexists)) as [Hmn _]. unfold wait_round. apply runE_bind. rewrite <-(set_sy_id s) at 1.
  eapply run_runE, (run_wait_scan h me s addr Hself Hmn); [exact Ho| |].
  - intros z y Hz Hy. pose proof Hz as ((Hzn & _) & Hzz & _). destruct (ms !! z) as [[lvz umz]|] eqn:Ez; [|destruct (mo_clean _ _ _ Hok z Hzn Ez) as [Hu _]; clear -Hu Hzz; congruence].
    assert (Hne : z <> me) by (intros ->; destruct Hz; done).
    eapply (run_reap_child h me s fl ms lv um addr Hok Hme Htr Haddr z lvz umz Ez Hne (Hof z Hzn Hzz)); [exact Hy| |].
    + intros s' fl' H1 H2. wp. apply HQ. left. exists z, lvz, umz, fl'. done.
    + intros s' H1 H2. wp. apply HQ. right. left. split_and!; try done. by exists z.
  - intros y b Hy Hnz Hb. wp. change (p_killed (proc_at me (set_sy y s))) with (p_killed (proc_at me s)). destruct (negb b || p_killed (proc_at me s)) eqn:Hstop.
    + wp. eapply run_runE, run_release; [exact Hy|set_solver|]. intros y2 Hy2. rewrite drop_head in Hy2 by apply not_elem_of_nil. wp. apply HQ. right. right. split_and!; [done|done| |by exists y2].
      apply orb_true_iff in Hstop as [Hnb%negb_true_iff|Hk]; [left|by right]. intros p Hc. assert (b = true) by (apply Hb; by exists p). congruence.
    + apply orb_false_iff in Hstop as [Hnb%negb_false_iff Hk]. apply runE_bind. eapply runE_mono; [apply HQs; [|exact Hy]|intros [] s' Hq; by wp]. split_and!; [by apply Hb|done|done].
Qed.

(** Back on the CPU, sleep() clears the channel. *)
Lemma waits_back s fl ms y : waits [LProc me] s fl ms -> owns h (Some me) [LProc me] y ->
  let s' := set_sy y (set_proc_at me (set_p_chan None (proc_at me s)) s) in
  waits [LProc me] s' fl ms /\ (must_sleep me s' <-> must_sleep me s) /\ forall y', asleep me y' s' = asleep me y' s.
Proof.
  intros [Ho Hok Hme Htr Hself Hof] Hy s'. destruct (mo_used _ _ _ Hok me ltac:(by eexists)) as [Hmn Hst]. assert (Hlen : (me < length (procs (pt s)))%nat) by by rewrite (mo_nproc _ _ _ Hok).
  assert (Hat : forall p, proc_at p s' = if decide (p = me) then set_p_chan None (proc_at me s) else proc_at p s) by (intros p; by apply (proc_at_insert me _ s)).
  assert (Hf : forall p, p_parent (proc_at p s') = p_parent (proc_at p s) /\ p_state (proc_at p s') = p_state (proc_at p s) /\ p_ofile (proc_at p s') = p_ofile (proc_at p s)).
  { intros p. rewrite Hat. case_decide; [by subst|done]. }
  assert (Hc : forall p, child me s' p <-> child me s p) by (intros p; unfold child; by rewrite (proj1 (Hf p))). split_and!; [split| |].
  - exact Hy.
  - apply (mems_frame s); try done; [cbn; apply length_insert|]. intros p. cbn zeta. rewrite Hat. case_decide; [subst|done]. split_and!; try done. intros (Hu & _). done.
  - exact Hme.
  - exact Htr.
  - by rewrite Hc.
  - intros p Hp. destruct (Hf p) as (_ & -> & ->). by apply Hof.
  - unfold must_sleep. setoid_rewrite Hc. assert (Hk : p_killed (proc_at me s') = p_killed (proc_at me s)) by (by rewrite Hat, decide_True by done). rewrite Hk.
    assert (Hz : (forall p, child me s p -> p_state (proc_at p s') <> ZOMBIE) <-> (forall p, child me s p -> p_state (proc_at p s) <> ZOMBIE)) by (split; intros H p Hp; specialize (H p Hp); by destruct (Hf p) as (_ & E1 & _); rewrite E1 in *).
    by rewrite Hz.
  - intros y'. unfold asleep. rewrite Hat, decide_True by done. unfold s', set_proc_at. cbn. by rewrite list_insert_insert_eq.
Qed.

(** A state in which the other threads have left the process. *)
Definition back (s1 : kstate) : Prop := exists sa sb y, E sa sb /\ s1 = set_sy y (set_proc_at me (set_p_chan None (proc_at me sb)) sb).

Lemma result_no_sleep s fl ms r s' : wait_result s fl ms r s' -> ~ must_sleep me s.
Proof.
  intros Hr ((p & Hp) & Hz & Hk). destruct Hr as [(z & _ & _ & _ & (Hc & Hzz & _) & _)|[(_ & (z & Hc & Hzz & _) & _)|(_ & _ & [Hno|Hkk] & _)]]; [by apply (Hz z)|by apply (Hz z)|by apply (Hno p)|congruence].
Qed.

(** At most [k] sleeps are left. *)
Definition sleeps_left (k : nat) (s : kstate) : Prop :=
  must_sleep me s -> match k with O => False | S n => forall y, owns h (Some me) [LProc me] y -> wakes n (asleep me y s) end.

Lemma runE_wait_loop k : forall f s fl ms, (k < f)%nat -> waits [LProc me] s fl ms -> sleeps_left k s ->
  runE E (loop f (fun _ => wait_round) tt) s (fun r s' => exists s1 fl1 ms1, waits [LProc me] s1 fl1 ms1 /\ (forall va, vget (mm s1) um va = vget (mm s) um va) /\
    (~ must_sleep me s -> s1 = s /\ fl1 = fl /\ ms1 = ms) /\ (must_sleep me s -> back s1) /\ wait_result s1 fl1 ms1 r s').
Proof using Haddr.
  induction k as [|k IH]; intros [|f] s fl ms Hk Hw Hl; try lia; cbn [loop]; apply runE_bind; (eapply runE_wait_round; [exact Hw|intros r s' Hr; wp; exists s, fl, ms; split_and!; [done|done|done|by intros ?%(result_no_sleep _ _ _ _ _ Hr)|done]|]).
  - intros y Hm. by destruct (Hl Hm).
  - intros y Hm Hy. assert (Hlen : (me < length (procs (pt s)))%nat) by (rewrite (mo_nproc _ _ _ (w_mems _ _ _ _ _ _ _ _ Hw)); apply (mo_used _ _ _ (w_mems _ _ _ _ _ _ _ _ Hw)); rewrite (w_me _ _ _ _ _ _ _ _ Hw); by eexists).
    eapply runE_sleep_own; [exact Hy|exact Hlen|]. intros y1 Hy1 s1. assert (Hs1 : s1 = asleep me y1 s) by done. pose proof (Hl Hm y1 Hy1) as Hwk. rewrite <-Hs1 in Hwk. destruct k as [|k]; cbn [Wait.wakes] in Hwk.
    all: destruct Hwk as [Hex Hall]; split; [exact Hex|]; intros s2 HE; destruct (Hall s2 HE) as ((fl2 & ms2 & Hw2) & Hv2 & Hm2); split; [apply Hw2|]; intros y2 Hy2.
    all: destruct (waits_back s2 fl2 ms2 y2 Hw2 Hy2) as (Hw3 & Hm3 & Ha3); (eapply runE_mono; [eapply (IH f _ fl2 ms2); [lia|exact Hw3|]|]).
    + intros Hms. apply Hm2. by apply Hm3.
    + intros r s' (s4 & fl4 & ms4 & H1 & H2 & H3 & H4 & H5). exists s4, fl4, ms4. split_and!; [done|intros va; rewrite H2; apply Hv2|by intros Hno| |done].
      intros _. destruct (must_sleep_dec me (set_sy y2 (set_proc_at me (set_p_chan None (proc_at me s2)) s2))) as [Hd|Hd]; [by apply H4|]. destruct (H3 Hd) as [-> _]. by exists s1, s2, y2.
    + intros Hms y3 Hy3. rewrite Ha3. apply Hm2; [by apply Hm3|done].
    + intros r s' (s4 & fl4 & ms4 & H1 & H2 & H3 & H4 & H5). exists s4, fl4, ms4. split_and!; [done|intros va; rewrite H2; apply Hv2|by intros Hno| |done].
      intros _. destruct (must_sleep_dec me (set_sy y2 (set_proc_at me (set_p_chan None (proc_at me s2)) s2))) as [Hd|Hd]; [by apply H4|]. destruct (H3 Hd) as [-> _]. by exists s1, s2, y2.
Qed.
End rounds.

End Wait.
