(* ===== verification/Lifecycle.v ===== *)
(** * The life of a process: the theorems on fork, growproc and wait

    The statements on the process table and the memory of the processes
    (kernel/proc.c), and a concrete machine on which they apply: thirty free
    pages, ten unused slots, and a first process of 5000 bytes made by
    allocproc() and growproc(). *)

From S2P Require Import Prelude Bytes CString KState Spinlock Kernel Riscv Machine Kalloc Vm PageTable Uvm Uvmcopy PageFree AddressSpace Sched Console Virtio Bio Log Fs Dir Pipe File Proc ProcMem Process Wait.

Module Lifecycle.
Import Kalloc Vm PageTable Uvm Uvmcopy PageFree Sched Fs File Proc ProcMem Process Wait.

(** ** A concrete machine *)

Definition boot_pages : list Z := AddressSpace.P <$> seqZ 1 30.

(** The pages linked into a free list, and all slots unused. *)
Definition boot : kstate :=
  set_mm (foldr (fun '(p, q) m => st64 m p q) ∅ (zip boot_pages (tail boot_pages ++ [0])))
    (set_freelist (AddressSpace.P 1) (set_pt (set_procs (set_p_state UNUSED <$> procs (pt Machine.machine)) (pt Machine.machine)) Machine.machine)).

(** A process with two pages of memory, made with the kernel's functions. *)
Definition first_process : K unit :=
  r <- allocproc ;;
  match r with
  | None => stuck "null proc"
  | Some p =>
      upd_proc p (fun q => set_p_state RUNNING (set_p_cwd (Some O) q)) ;;
      release (LProc p) ;;
      growproc 5000 ;; ret tt
  end.

Lemma boot_kmem : kmem_ok boot boot_pages.
Proof.
  split; [done|..].
  - vm_compute. repeat split.
  - apply (bool_decide_unpack _). vm_compute. exact I.
  - apply Forall_fmap, Forall_forall. intros i Hi%elem_of_seqZ. destruct (AddressSpace.P_page i ltac:(lia)) as [Ha _]. split; [exact Ha|]. unfold AddressSpace.P. change (ld_end (ld boot)) with Machine.kernel_end. unfold Machine.kernel_end. lia.
Qed.

Lemma boot_procs : Forall (fun p => clean (proc_at p boot) /\ p_parent (proc_at p boot) = None) (seq 0 NPROC).
Proof. repeat constructor. Qed.

Lemma boot_ok : mems_ok boot boot_pages ∅.
Proof.
  split; [apply boot_kmem|done|by intros p []|by intros p lv um ?|by intros p p' lv um lv' um' ?|]. intros p Hp _. pose proof boot_procs as H. rewrite Forall_forall in H. apply H, elem_of_seq. lia.
Qed.

Lemma boot_owns : owns 0 (Some O) [] (sy boot).
Proof. exact Machine.owns_machine. Qed.

Lemma boot_tramp : tramp_ok boot.
Proof. unfold tramp_ok. change (ld boot) with (ld Machine.machine). by vm_compute. Qed.

Lemma boot_len : length boot_pages = 30%nat /\ length (procs (pt boot)) = NPROC.
Proof. done. Qed.

Lemma boot_unused p : (p < NPROC)%nat -> clean (proc_at p boot) /\ p_parent (proc_at p boot) = None.
Proof. intros Hp. pose proof boot_procs as H. rewrite Forall_forall in H. apply H, elem_of_seq. lia. Qed.

#[local] Opaque boot boot_pages.

(** The process before growproc(). *)
Lemma first_alloc q lv fl1 s1 y : allocated 0 0 boot boot_pages 0 q lv fl1 s1 -> let s2 := set_sy y (set_proc_at 0 (set_p_state RUNNING (set_p_cwd (Some O) q)) s1) in
  mems_ok s2 fl1 {[O := (lv, ∅)]} /\ proc_at 0 s2 = set_p_state RUNNING (set_p_cwd (Some O) q) /\ (forall p, p <> O -> proc_at p s2 = proc_at p boot) /\ ld s2 = ld boot /\ fs s2 = fs boot /\ ftable s2 = ftable boot.
Proof.
  intros [A1 (y1 & m1 & f1 & t1 & E1 & Hpr & _) A3 A4 A5 A6 A7] s2. set (q2 := set_p_state RUNNING (set_p_cwd (Some O) q)) in *.
  assert (Hpt : procs (pt s2) = <[O := q2]> (procs (pt boot))) by (cbn [pt s2 set_sy set_proc_at set_pt procs set_procs]; rewrite E1; cbn [pt set_sy set_mm set_freelist set_pt procs set_procs]; by rewrite Hpr, list_insert_insert_eq).
  assert (Hat : forall p, proc_at p s2 = if decide (p = O) then q2 else proc_at p boot) by (intros p; apply (proc_at_insert O q2 boot); [done|rewrite (proj2 boot_len); lia]).
  assert (Hld : ld s2 = ld boot) by (unfold s2; by rewrite E1). assert (Hk : kmem_ok s2 fl1) by (apply (kmem_frame s1); [apply A4|done..]).
  destruct (proc_mem_frame s1 s2 fl1 fl1 q q2 lv ∅ A4) as [Hpm _]; try done; [by intros x Hx Hh; revert Hx; apply (held_not_free _ _ _ _ _ _ A4)|].
  split; [|split; [by rewrite Hat|split; [intros p Hp; rewrite Hat; by rewrite decide_False|split; [done|unfold s2; by rewrite E1]]]].
  change {[O := (lv, ∅)]} with (partial_alter (fun _ => Some (lv, ∅ : umap)) O (∅ : mems)).
  apply (mems_change boot s2 boot_pages fl1 ∅ O q2 (Some (lv, ∅)) boot_ok Hld Hk ltac:(lia) Hpt).
  - intros x Hx. left. apply A5. by left.
  - intros a Ha _. rewrite <-A7 by done. done.
  - split; [done|]. split; [done|]. intros x Hx. left. apply A5. by right.
Qed.

(** What holds of the machine when the first process runs. *)
Record running (s : kstate) (fl : list Z) (lv : gmap Z nat) (um : umap) : Prop := {
  rn_owns : owns 0 (Some O) [] (sy s);
  rn_mems : mems_ok s fl {[O := (lv, um)]};
  rn_free : (18 <= length fl)%nat;
  rn_rest : ld s = ld boot /\ fs s = fs boot /\ ftable s = ftable boot;
  rn_proc : p_sz (proc_at 0 s) = 5000 /\ p_cwd (proc_at 0 s) = Some O /\ p_ofile (proc_at 0 s) = replicate NOFILE None /\ p_parent (proc_at 0 s) = None /\ p_killed (proc_at 0 s) = false;
  rn_others : forall p, p <> O -> proc_at p s = proc_at p boot
}.

Lemma run_first_process (Q : unit -> kstate -> Prop) : (forall s fl lv um, running s fl lv um -> Q tt s) -> run first_process boot Q.
Proof.
  intros HQ. unfold first_process. pose proof boot_owns as B1. pose proof boot_kmem as B2. pose proof (proj2 boot_len) as B3. pose proof boot_tramp as B4. pose proof boot_unused as B5. pose proof first_alloc as B6.
  assert (HQ' : forall s fl lv um, owns 0 (Some O) [] (sy s) -> mems_ok s fl {[O := (lv, um)]} -> (18 <= length fl)%nat -> ld s = ld boot /\ fs s = fs boot /\ ftable s = ftable boot ->
    p_sz (proc_at 0 s) = 5000 /\ p_cwd (proc_at 0 s) = Some O /\ p_ofile (proc_at 0 s) = replicate NOFILE None /\ p_parent (proc_at 0 s) = None /\ p_killed (proc_at 0 s) = false ->
    (forall p, p <> O -> proc_at p s = proc_at p boot) -> Q tt s) by (intros s fl lv um H1 H2 H3 H4 H5 H6; by apply (HQ s fl lv um)). clear HQ. rename HQ' into HQ.
  generalize dependent boot. intros b B1 B2 B3 B4 B5 B6 HQ.
  apply run_bind. eapply (run_allocproc 0 0 b boot_pages); [exact B1|exact B2|exact B3|exact B4|rewrite (proj1 boot_len); lia| | |].
  { intros p Hp _. by apply B5. }
  { intros y _ Hall. exfalso. apply (Hall O ltac:(lia)), B5. lia. }
  intros np q lv fl1 s1 _ _ Hlow Hal. assert (np = O) as -> by (destruct np; [done|]; exfalso; apply (Hlow O ltac:(lia)), B5; lia).
  pose proof Hal as [A1 (y1 & m1 & f1 & t1 & E1 & Hpr & _) (tf & root & Eq) _ _ A6 _].
  assert (Hq1 : proc_at 0 s1 = q) by (rewrite (proc_at_insert O q b s1); [by rewrite decide_True|by rewrite E1|rewrite B3; lia]).
  unfold upd_proc at 1. wp. rewrite Hq1. eapply run_release; [exact A1|by apply elem_of_cons; left|]. intros y Hy. rewrite drop_head in Hy by apply not_elem_of_nil. wp.
  destruct (B6 q lv fl1 s1 y Hal) as (Hm & Hq & Ho & Hld & Hfs & Hft). set (s2 := set_sy y _) in *. rewrite (proj1 boot_len) in A6.
  assert (Hsz : p_sz (proc_at 0 s2) = 0) by (rewrite Hq, Eq; apply (B5 O); lia).
  eapply (run_growproc 0 0 s2 fl1 {[O := (lv, ∅)]} lv ∅); [exact Hy|exact Hm|apply lookup_singleton_eq|rewrite Hsz; lia|lia| |].
  - intros s3 lv3 fl3 um3 Hm3 [R1 (y3 & m3 & f3 & t3 & R2) R3 _ R5 _] Hl3. wp. unfold new_size in *. rewrite Hsz in *. change (bool_decide (0 <= 0 + 5000 < 2 ^ 32)) with true in *. cbv iota in *. change (pages (0 + 5000)) with 2 in Hl3. change (pages 0) with 0 in Hl3.
    rewrite insert_singleton_eq in Hm3. eapply (HQ s3 fl3 lv3 um3); [exact R1|exact Hm3|lia|by rewrite R2| |].
    + rewrite R3, Hq, Eq. destruct (B5 O ltac:(lia)) as [(_ & _ & _ & Hki & Hof) Hpa]. done.
    + intros p Hp. by rewrite R5, Ho.
  - intros s3 lv3 fl3 _ _ _ Hl. exfalso. unfold new_size in Hl. rewrite Hsz in Hl. change (bool_decide (0 <= 0 + 5000 < 2 ^ 32)) with true in Hl. cbv iota in Hl. change (pages (0 + 5000)) with 2 in Hl. change (pages 0) with 0 in Hl. lia.
Qed.

Lemma run_then (m0 : K unit) (m : K Z) b (Q : Z -> kstate -> Prop) : run m0 b (fun _ s => run m s Q) -> run (m0 ;; m) b Q.
Proof. apply run_bind. Qed.

Lemma after_first (m : K Z) (Q : Z -> kstate -> Prop) : (forall s fl lv um, running s fl lv um -> run m s Q) -> run (first_process ;; m) boot Q.
Proof. intros H. exact (run_then first_process m boot Q (run_first_process _ H)). Qed.

Lemma running_tramp s fl lv um : running s fl lv um -> tramp_ok s.
Proof. intros [_ _ _ (Hld & _) _ _]. unfold tramp_ok. rewrite Hld. exact boot_tramp. Qed.

(** ** fork *)

(** C8: fork() in process [me] with at least nine free pages.  Either all slots
    are in use and it returns -1 with nothing changed; or it makes a child in
    an unused slot and returns the next pid; or it returns -1 for lack of
    memory, and then the pages of the child's page table are lost: they are
    not on the free list and belong to no process.  The child is runnable, has
    the parent's size, files and directory, the same bytes at the same user addresses with the same
    permissions, and the parent's saved registers except a0, which is 0; each
    open file and the directory have one reference more.  The child's pages
    come from the free list, so no process shares a page with another
    ([mems_ok]); no other process, slot or address space changes. *)
Theorem fork_correct h me s fl ms lvo umo c : let par := proc_at me s in
  owns h (Some me) [] (sy s) -> mems_ok s fl ms -> ms !! me = Some (lvo, umo) -> tramp_ok s ->
  p_cwd par = Some c -> (c < NINODE)%nat -> length (icache (fs s)) = NINODE -> length (p_ofile par) = NOFILE ->
  (forall f, Some f ∈ p_ofile par -> (f < length (ftable s))%nat /\ 1 <= f_ref (file_at f s)) -> (9 <= length fl)%nat ->
  run fork s (fun r s' =>
    (r = -1 /\ (forall p, (p < NPROC)%nat -> p_state (proc_at p s) <> UNUSED) /\ exists y, owns h (Some me) [] y /\ s' = set_sy y s) \/
    (r = nextpid (pt s) /\ exists np lv um fl', ms !! np = None /\ mems_ok s' fl' (<[np := (lv, um)]> ms) /\ forked h me s fl ms umo c np lv um fl' s') \/
    (r = -1 /\ Z.of_nat (length fl) < 6 + 3 * pages (p_sz par) /\ exists lv fl', mems_ok s' fl' ms /\ fork_failed h me s fl ms fl' lv s')).
Proof.
  intros par Ho Hok Hme Htr Hcwd Hc Hni Hlen Hfiles Hfl. eapply (run_fork h me s fl ms lvo umo c); try done.
  - intros y Hy Hall. left. split_and!; [done|done|by exists y].
  - intros np lv um fl' s' Hn Hm Hf. right. left. split; [done|]. by exists np, lv, um, fl'.
  - intros lv fl' s' Hm Hf Hl. right. right. split_and!; [done|done|]. by exists lv, fl'.
Qed.

Lemma fork_correct_witness :
  run (first_process ;; fork) boot (fun r s' => exists np, np <> O /\ p_pid (proc_at np s') = r /\ p_state (proc_at np s') = RUNNABLE /\ p_parent (proc_at np s') = Some O /\ p_sz (proc_at np s') = 5000 /\
    exists fl' ms, mems_ok s' fl' ms).
Proof.
  apply after_first. intros s fl lv um Hr. pose proof Hr as [R1 R2 R3 (_ & R5 & _) (R7 & R8 & R9 & _) R10].
  eapply run_mono; [apply (fork_correct 0 0 s fl {[O := (lv, um)]} lv um 0)|].
  - exact R1.
  - exact R2.
  - apply lookup_singleton_eq.
  - by eapply running_tramp.
  - exact R8.
  - lia.
  - by rewrite R5.
  - by rewrite R9.
  - intros f Hf. rewrite R9 in Hf. by apply elem_of_replicate in Hf as [Hf _].
  - lia.
  - intros r s' [(_ & Hall & _)|[(-> & np & lv' & um' & fl' & Hn & Hm & Hf)|(_ & Hl & _)]].
    + exfalso. apply (Hall 1%nat ltac:(lia)). rewrite R10 by done. apply (boot_unused 1). lia.
    + exists np. destruct (fk_child _ _ _ _ _ _ _ _ _ _ _ _ Hf) as (C1 & C2 & C3 & C4 & _). rewrite R7 in C4. split_and!; [intros ->; by rewrite lookup_singleton_eq in Hn|done|done|done|done|by exists fl', (<[np := (lv', um')]> {[O := (lv, um)]})].
    + exfalso. rewrite R7 in Hl. change (pages 5000) with 2 in Hl. lia.
Defined.

(** ** growproc *)

(** C30: growproc(n) gives the process [n] bytes more, or takes [-n] away: the
    bytes below both sizes are kept, new pages hold zeros, and pages above the
    new size are gone from the address space.  A size that does not fit
    an unsigned int leaves the process as it was, with 0 returned.  When memory
    runs out it returns -1 and the process is as before.  In all cases the
    invariant holds, and no other process or address space changes. *)
Theorem growproc_correct h me s fl ms lv um n : let q := proc_at me s in
  owns h (Some me) [] (sy s) -> mems_ok s fl ms -> ms !! me = Some (lv, um) -> p_sz q < 2 ^ 32 -> - 2 ^ 31 <= n < 2 ^ 31 ->
  run (growproc n) s (fun r s' => exists lv' fl' um', mems_ok s' fl' (<[me := (lv', um')]> ms) /\
    (r = 0 /\ resized h me s ms um (if bool_decide (0 <= p_sz q + n < 2 ^ 32) then p_sz q + n else p_sz q) um' s' \/
     r = -1 /\ 0 < n /\ resized h me s ms um (p_sz q) um' s' /\ Z.of_nat (length fl) < 3 * (pages (p_sz q + n) - pages (p_sz q)))).
Proof.
  intros q Ho Hok Hme Hsz Hn. pose proof (pm_sz _ _ _ _ _ (mo_mem _ _ _ Hok _ _ _ Hme)) as [Hz _]. fold q in Hz.
  eapply (run_growproc h me s fl ms lv um Ho Hok Hme n); [done|done| |].
  - intros s' lv1 fl1 um1 H1 H2 _. exists lv1, fl1, um1. split; [done|]. left. done.
  - intros s' lv1 fl1 H1 H2 Hpos Hl. exists lv1, fl1, um. split; [done|]. right. split_and!; [done|done|done|]. revert Hl. unfold new_size. fold q. case_bool_decide; [done|]. lia.
Qed.

Lemma growproc_correct_witness : run (first_process ;; growproc (-1000)) boot (fun r s' => r = 0 /\ p_sz (proc_at 0 s') = 4000 /\ exists fl' ms, mems_ok s' fl' ms).
Proof.
  apply after_first. intros s fl lv um Hr. pose proof Hr as [R1 R2 R3 _ (R7 & _) _]. eapply run_mono; [apply (growproc_correct 0 0 s fl {[O := (lv, um)]} lv um (-1000))|].
  - exact R1.
  - exact R2.
  - apply lookup_singleton_eq.
  - rewrite R7. lia.
  - lia.
  - intros r s' (lv' & fl' & um' & Hm & [(-> & Hz)|(_ & Hn & _)]); [|lia]. pose proof (rz_proc _ _ _ _ _ _ _ _ Hz) as Hp. rewrite Hp, R7. split_and!; [done|done|]. by exists fl', (<[O := (lv', um')]> {[O := (lv, um)]}).
Defined.

(** ** wait *)

(** C9: wait() returns, whatever the other threads do while it sleeps, as long
    as they keep the invariant of the address spaces and the memory of the
    process, and do not wake it more than [n] times for nothing.  It returns on
    the table of the state [s1] of its last scan, which the other threads left
    when they woke it, or which is the state of the call when it need not
    sleep: when there is a child that has exited, when
    there is no child, or when the process has been killed.  If a child has
    exited it reaps the first one: it returns its pid, the four bytes of the
    exit status are at [addr] of the caller's memory (unless [addr] is 0), the
    slot is unused again, and the pages of the child (trap frame, page table
    and user pages; only the trap frame for a child of size 0) are back on the
    free list; if the status cannot be copied out it returns -1 and reaps
    none.  If no child has exited it returns -1, and then there is no child or
    the process has been killed.  No other process or address space is changed
    by the scan, and what remains satisfies the invariant. *)
Theorem wait_correct E h me s fl ms lv um addr n : waits h me lv um [] s fl ms -> 0 <= addr -> (n + 1 < wait_fuel)%nat ->
  (must_sleep me s -> forall y, owns h (Some me) [LProc me] y -> wakes E h me lv um n (asleep me y s)) ->
  runE E (wait addr) s (fun r s' => exists s1 fl1 ms1, waits h me lv um [LProc me] s1 fl1 ms1 /\ (forall va, vget (mm s1) um va = vget (mm s) um va) /\
    (~ must_sleep me s -> fl1 = fl /\ ms1 = ms /\ exists y, s1 = set_sy y s) /\ (must_sleep me s -> back E me s1) /\ wait_result h me um addr s1 fl1 ms1 r s').
Proof.
  intros [Ho Hok Hme Htr Hself Hof] Haddr Hn Hsl. unfold wait. apply runE_bind. eapply run_runE, run_myproc'; [exact Ho|]. intros y0 Hy0. apply runE_bind.
  eapply run_runE, run_acquire; [exact Hy0|set_solver|]. intros y1 Hy1. change (set_sy y1 (set_sy y0 s)) with (set_sy y1 s).
  eapply runE_mono; [apply (runE_wait_loop E h me lv um addr Haddr (S n) wait_fuel (set_sy y1 s) fl ms)|].
  - lia.
  - split; [exact Hy1|by apply (mems_same s)|exact Hme|exact Htr|exact Hself|exact Hof].
  - exact Hsl.
  - intros r s' (s1 & fl1 & ms1 & H1 & H2 & H3 & H4 & H5). exists s1, fl1, ms1. split_and!; [exact H1|exact H2| |exact H4|exact H5]. intros Hm. destruct (H3 Hm) as (-> & -> & ->). split_and!; [done|done|by exists y1].
Qed.

(** The children exit, and a process that sleeps runs again. *)
Definition exited (q : proc) : proc :=
  match p_state q with RUNNABLE => set_p_state ZOMBIE q | SLEEPING => set_p_state RUNNING q | _ => q end.
Definition children_exit (s s' : kstate) : Prop :=
  s' = set_pt (set_procs (exited <$> procs (pt s)) (pt s)) s /\ exists p, child 0 s' p /\ p_state (proc_at p s') = ZOMBIE.

Lemma exited_fields q : p_parent (exited q) = p_parent q /\ p_ofile (exited q) = p_ofile q /\ p_pagetable (exited q) = p_pagetable q /\ p_sz (exited q) = p_sz q /\ p_tf (exited q) = p_tf q /\
  (p_state q <> UNUSED -> p_state (exited q) <> UNUSED) /\ (p_state q = UNUSED -> exited q = q).
Proof. unfold exited. destruct (p_state q) eqn:E; split_and!; try done; by rewrite E. Qed.

(** The process with its child, before wait(). *)
Record parent (s : kstate) (fl : list Z) (ms : mems) (lv : gmap Z nat) (um : umap) (np : nat) : Prop := {
  pa_waits : waits 0 0 lv um [] s fl ms;
  pa_child : child 0 s np /\ p_state (proc_at np s) = RUNNABLE;
  pa_sleep : must_sleep 0 s;
  pa_files : forall p, (p < NPROC)%nat -> p_ofile (proc_at p s) = replicate NOFILE None
}.

Lemma after_exit s fl ms lv um np y : parent s fl ms lv um np -> owns 0 (Some O) [LProc 0] y -> let s' := set_pt (set_procs (exited <$> procs (pt (asleep 0 y s))) (pt (asleep 0 y s))) (asleep 0 y s) in
  waits 0 0 lv um [LProc 0] s' fl ms /\ mm s' = mm s /\ child 0 s' np /\ p_state (proc_at np s') = ZOMBIE.
Proof.
  intros [[Ho Hok Hme Htr Hself Hof] [Hc Hst] _ Hfi] Hy s'. pose proof (mo_nproc _ _ _ Hok) as Hlen. destruct (mo_used _ _ _ Hok O ltac:(by eexists)) as [H0 Hu0].
  assert (Hne : np <> O) by (intros ->; done). set (q0 := set_p_state SLEEPING (set_p_chan (Some (ChProc 0)) (proc_at 0 s))).
  assert (Hat : forall p, (p < NPROC)%nat -> proc_at p s' = exited (if decide (p = O) then q0 else proc_at p s)).
  { intros p Hp. rewrite <-(proc_at_insert O q0 s (asleep 0 y s) p) by (done || lia). apply (list_lookup_total_fmap exited (procs (pt (asleep 0 y s))) p). cbn. rewrite length_insert. lia. }
  assert (Hpar : forall p, (p < NPROC)%nat -> p_parent (proc_at p s') = p_parent (proc_at p s) /\ p_ofile (proc_at p s') = p_ofile (proc_at p s)).
  { intros p Hp. rewrite Hat by done. destruct (exited_fields (if decide (p = O) then q0 else proc_at p s)) as (-> & -> & _). case_decide; [by subst|done]. }
  assert (Hch : forall p, child 0 s' p <-> child 0 s p) by (intros p; unfold child; split; intros [Hp Hx]; (split; [done|]); revert Hx; by rewrite (proj1 (Hpar p Hp))).
  split_and!; [split| | |].
  - exact Hy.
  - apply (mems_frame s); try done; [cbn; by rewrite length_fmap, length_insert|]. intros p. destruct (decide (p < NPROC)%nat) as [Hp|Hp]; cbn zeta.
    + rewrite Hat by done. case_decide; [subst|].
      * split_and!; try done. intros (Hu & _). done.
      * destruct (exited_fields (proc_at p s)) as (_ & _ & -> & -> & -> & Hs & Hcl). split_and!; try done. intros Hq. by rewrite Hcl by apply Hq.
    + unfold proc_at. rewrite !list_lookup_total_alt, !lookup_ge_None_2; [done|lia|cbn; rewrite length_fmap, length_insert; lia].
  - exact Hme.
  - exact Htr.
  - by rewrite Hch.
  - intros p Hp _. rewrite (proj2 (Hpar p Hp)). by apply Hfi.
  - done.
  - by apply Hch.
  - rewrite Hat by apply Hc. rewrite decide_False by done. unfold exited. by rewrite Hst.
Qed.

Lemma runE_then E (m0 : K unit) (m : K Z) b (Q : Z -> kstate -> Prop) : run m0 b (fun _ s => runE E m s Q) -> runE E (m0 ;; m) b Q.
Proof. intros H. by apply runE_bind, run_runE. Qed.

(** Everything between the first process and wait(). *)
Lemma run_to_wait E (m : K Z) (Q : Z -> kstate -> Prop) : (forall s fl ms lv um np, parent s fl ms lv um np -> runE E m s Q) -> runE E (first_process ;; fork ;; m) boot Q.
Proof.
  intros HQ. apply runE_then, run_first_process. intros s fl lv um Hr. pose proof (running_tramp _ _ _ _ Hr) as Htr. pose proof Hr as [R1 R2 R3 (_ & R5 & _) (R7 & R8 & R9 & R6 & R11) R10]. apply runE_bind, run_runE.
  eapply (run_fork 0 0 s fl {[O := (lv, um)]} lv um 0); [exact R1|exact R2|apply lookup_singleton_eq|exact Htr|exact R8|lia|by rewrite R5|by rewrite R9| |lia| | |].
  - intros f Hf. rewrite R9 in Hf. by apply elem_of_replicate in Hf as [Hf _].
  - intros y _ Hall. exfalso. apply (Hall 1%nat ltac:(lia)). rewrite R10 by done. apply (boot_unused 1). lia.
  - intros np lv' um' fl' s1 Hn Hm Hf. assert (Hne : np <> O) by (intros ->; by rewrite lookup_singleton_eq in Hn). pose proof Hf as [F1 (C1 & C2 & C3 & C4 & C5 & _) F2 _ _ _ _ _ _ F9 _ _ _].
    destruct (mo_used _ _ _ Hm np ltac:(rewrite lookup_insert_eq; by eexists)) as [Hnp _]. assert (Hp0 : proc_at 0 s1 = proc_at 0 s) by by apply F9.
    assert (Hfi : forall p, (p < NPROC)%nat -> p_ofile (proc_at p s1) = replicate NOFILE None).
    { intros p Hp. destruct (decide (p = np)) as [->|Hp']; [by rewrite C5|]. rewrite F9 by done. destruct (decide (p = O)) as [->|Hp0']; [done|]. rewrite R10 by done. by apply (boot_unused p). }
    apply (HQ s1 fl' (<[np := (lv', um')]> {[O := (lv, um)]}) lv um np). split; [split|done| |exact Hfi].
    + exact F1.
    + exact Hm.
    + by rewrite lookup_insert_ne, lookup_singleton_eq.
    + unfold tramp_ok. by rewrite F2.
    + intros [Hp Hc]. rewrite Hp0, R6 in Hc. done.
    + intros p Hp _. by apply Hfi.
    + split_and!; [by exists np| |by rewrite Hp0]. intros p [Hp Hc]. destruct (decide (p = np)) as [->|Hp']; [by rewrite C1|]. rewrite F9 in * by done.
      destruct (decide (p = O)) as [->|Hp0']; [by rewrite R6 in Hc|]. rewrite R10 by done. destruct (boot_unused p Hp) as [(Hu & _) _]. by rewrite Hu.
  - intros lv' fl' s' _ _ Hl. exfalso. rewrite R7 in Hl. change (pages 5000) with 2 in Hl. lia.
Qed.

Lemma back_zombie lv um s1 fl ms : waits 0 0 lv um [LProc 0] s1 fl ms -> back children_exit 0 s1 -> exists z, child 0 s1 z /\ p_state (proc_at z s1) = ZOMBIE.
Proof.
  intros Hw (sa & sb & y & [_ (z & [Hzn Hc] & Hz)] & ->). pose proof (mo_nproc _ _ _ (w_mems _ _ _ _ _ _ _ _ Hw)) as Hl. cbn in Hl. rewrite length_insert in Hl.
  exists z. unfold child. rewrite (proc_at_insert O (set_p_chan None (proc_at 0 sb)) sb) by (done || lia). case_decide; [subst|]; done.
Qed.

(** The process sleeps until its child has exited, and reaps it. *)
Lemma wait_correct_witness : runE children_exit (first_process ;; fork ;; wait 0) boot (fun r s' =>
  exists z s1 fl ms, first_zombie 0 s1 z /\ r = p_pid (proc_at z s1) /\ p_state (proc_at z s') = UNUSED /\ mems_ok s' fl ms).
Proof.
  apply run_to_wait. intros s fl ms lv um np Hp. eapply runE_mono; [apply (wait_correct children_exit 0 0 s fl ms lv um 0 0)|].
  - apply Hp.
  - lia.
  - unfold wait_fuel. lia.
  - intros _ y Hy. destruct (after_exit _ _ _ _ _ _ y Hp Hy) as (H1 & H2 & H3 & H4). split; [eexists; split; [done|by exists np]|].
    intros s' [-> _]. split_and!; [by exists fl, ms|by rewrite H2|]. intros (_ & Hz & _). by apply (Hz np).
  - intros r s' (s1 & fl1 & ms1 & Hw & _ & _ & Hb & Hr). destruct (back_zombie lv um s1 fl1 ms1 Hw (Hb (pa_sleep _ _ _ _ _ _ Hp))) as (z0 & Hz0 & Hst0).
    destruct Hr as [(z & lvz & umz & fl' & Hz & _ & -> & Hm & Hr)|[(_ & _ & _ & Hs)|(_ & Hn & _)]].
    + exists z, s1, fl', (delete z ms1). split_and!; [done|done|by rewrite (rp_slot _ _ _ _ _ _ _ _ _ _ _ _ Hr)|done].
    + exfalso. by destruct (sl_fault _ _ _ _ _ _ Hs).
    + exfalso. by apply (Hn z0).
Defined.
End Lifecycle.
