(* ===== verification/Exec.v ===== *)
(** * exec (kernel/exec.c)

    Builds a new user image from an ELF file and switches to it; every
    failure before the commit leaves the old image in place. *)

From S2P Require Import Prelude Bytes CString KState Spinlock Kernel Riscv Kalloc Vm Sched Console Virtio Bio Log Fs Dir Pipe File Proc.

Module Exec.
Import Kalloc Vm Sched Log Fs Dir Proc.

Definition ELF_MAGIC : Z := 1179403647.
Definition ELF_PROG_LOAD : Z := 1.
Definition elf_size : Z := 64.   (* sizeof(struct elfhdr) *)
Definition ph_size : Z := 56.    (* sizeof(struct proghdr) *)

(** Fields of the structures at address [a] (elf.h). *)
Definition elf_magic (m : mem) (a : Z) : Z := ld32 m a.
Definition elf_entry (m : mem) (a : Z) : Z := ld64 m (a + 24).
Definition elf_phoff (m : mem) (a : Z) : Z := ld64 m (a + 32).
Definition elf_phnum (m : mem) (a : Z) : Z := ld16 m (a + 56).
Definition ph_type (m : mem) (a : Z) : Z := ld32 m a.
Definition ph_off (m : mem) (a : Z) : Z := ld64 m (a + 8).
Definition ph_vaddr (m : mem) (a : Z) : Z := ld64 m (a + 16).
Definition ph_filesz (m : mem) (a : Z) : Z := ld64 m (a + 32).
Definition ph_memsz (m : mem) (a : Z) : Z := ld64 m (a + 40).

(** Load a program segment into pagetable at virtual address va; offset and
    sz are uint parameters. *)
Definition loadseg (pagetable va : Z) (ip : nat) (offset sz : Z) : K Z :=
  if negb (va mod PGSIZE =? 0) then panic "loadseg: va must be page aligned" else
  loop (S (S (Z.to_nat (sz / PGSIZE)))) (fun i =>
    if i <? sz then
      pa <- walkaddr pagetable (u64 (va + i)) ;;
      if pa =? 0 then panic "loadseg: address should exist" else
      let n := if sz - i <? PGSIZE then sz - i else PGSIZE in
      r <- readi ip false pa (u32 (offset + i)) n ;;
      if negb (u32 r =? n) then ret (inr (-1)) else ret (inl (i + PGSIZE))
    else ret (inr 0)) 0.

(** The label [bad:]. *)
Definition exec_bad (pagetable sz : Z) (ip : option nat) : K Z :=
  when (negb (pagetable =? 0)) (proc_freepagetable pagetable sz) ;;
  match ip with
  | Some ip => iunlockput ip ;; end_op ROOTDEV
  | None => ret tt
  end ;;
  ret (-1).

(** The loop over the program headers: [inr sz] when all are loaded, [inl sz]
    for [goto bad]. *)
Definition load_program (ip : nat) (pagetable elf ph : Z) : K (Z + Z) :=
  m <- gets mm ;;
  let phnum := elf_phnum m elf in
  loop (S (Z.to_nat phnum)) (fun '(i, off, sz) =>
    if i <? phnum then
      r <- readi ip false ph (u32 off) ph_size ;;
      if negb (r =? ph_size) then ret (inr (inl sz)) else
      m <- gets mm ;;
      let next := (i + 1, s32 (off + ph_size)) in
      if negb (ph_type m ph =? ELF_PROG_LOAD) then ret (inl (next, sz)) else
      if ph_memsz m ph <? ph_filesz m ph then ret (inr (inl sz)) else
      if u64 (ph_vaddr m ph + ph_memsz m ph) <? ph_vaddr m ph then ret (inr (inl sz)) else
      sz <- uvmalloc pagetable sz (u64 (ph_vaddr m ph + ph_memsz m ph)) ;;
      if sz =? 0 then ret (inr (inl sz)) else
      if negb (ph_vaddr m ph mod PGSIZE =? 0) then ret (inr (inl sz)) else
      r <- loadseg pagetable (ph_vaddr m ph) ip (u32 (ph_off m ph)) (u32 (ph_filesz m ph)) ;;
      if r <? 0 then ret (inr (inl sz)) else ret (inl (next, sz))
    else ret (inr (inr sz))) (0, s32 (elf_phoff m elf), 0).

(** The argument strings: [Some (argc, sp, ustack)], or [None] for [goto bad]. *)
Definition push_args (pagetable sp stackbase : Z) (argv : list Z) : K (option (Z * Z * list Z)) :=
  loop (S (S (Z.to_nat MAXARG))) (fun '(argc, sp, ustack) =>
    let arg := argv !!! Z.to_nat argc in
    if arg =? 0 then ret (inr (Some (argc, sp, ustack))) else
    if MAXARG <=? argc then ret (inr None) else
    l <- gets (fun s => CString.strlen (Z.to_nat PGSIZE) (mm s) arg) ;;
    match l with
    | None => stuck "unterminated argument"
    | Some len =>
        let sp := u64 (sp - (len + 1)) in
        let sp := sp - sp mod 16 in
        if sp <? stackbase then ret (inr None) else
        bs <- gets (fun s => get_bytes (Z.to_nat (len + 1)) (mm s) arg) ;;
        r <- copyout pagetable sp bs ;;
        if r <? 0 then ret (inr None) else ret (inl (argc + 1, sp, ustack ++ [sp]))
    end) (0, sp, []).

(** The bytes of an array of uint64. *)
Definition bytes64 (l : list Z) : list Z := concat (map (fun v => get_bytes 8 (st64 (replicate 8 0) 0 v) 0) l).

(** The part of [path] after its last slash. *)
Definition last_elem (path : list Z) : list Z :=
  foldl (fun last c => if c =? slash then [] else last ++ [c]) [] path.

Definition exec (path : list Z) (argv : list Z) : K Z :=
  p <- myproc' ;;
  begin_op ROOTDEV ;;
  r <- namei path ;;
  match r with
  | None => end_op ROOTDEV ;; ret (-1)
  | Some ip =>
  ilock ip ;;
  elf <- stack_slot 64 ;;
  ph <- stack_slot 128 ;;
  r <- readi ip false elf 0 elf_size ;;
  if negb (r =? elf_size) then exec_bad 0 0 (Some ip) else
  magic <- gets (fun s => elf_magic (mm s) elf) ;;
  if negb (magic =? ELF_MAGIC) then exec_bad 0 0 (Some ip) else
  pagetable <- proc_pagetable p ;;
  if pagetable =? 0 then exec_bad 0 0 (Some ip) else
  r <- load_program ip pagetable elf ph ;;
  match r with
  | inl sz => exec_bad pagetable sz (Some ip)
  | inr sz =>
  iunlockput ip ;;
  end_op ROOTDEV ;;
  p <- myproc' ;;
  oldsz <- gets (fun s => p_sz (proc_at p s)) ;;
  let sz := PGROUNDUP sz in
  sz <- uvmalloc pagetable sz (u64 (sz + 2 * PGSIZE)) ;;
  if sz =? 0 then exec_bad pagetable sz None else
  uvmclear pagetable (u64 (sz - 2 * PGSIZE)) ;;
  let stackbase := u64 (sz - PGSIZE) in
  r <- push_args pagetable sz stackbase argv ;;
  match r with
  | None => exec_bad pagetable sz None
  | Some (argc, sp, ustack) =>
  let ustack := ustack ++ [0] in
  let sp := u64 (sp - (argc + 1) * 8) in
  let sp := sp - sp mod 16 in
  if sp <? stackbase then exec_bad pagetable sz None else
  r <- copyout pagetable sp (bytes64 ustack) ;;
  if r <? 0 then exec_bad pagetable sz None else
  set_tf p tf_a1 sp ;;
  upd_proc p (set_name (last_elem path)) ;;
  oldpagetable <- gets (fun s => p_pagetable (proc_at p s)) ;;
  upd_proc p (set_p_pagetable pagetable) ;;
  upd_proc p (set_p_sz sz) ;;
  entry <- gets (fun s => elf_entry (mm s) elf) ;;
  set_tf p tf_epc entry ;;
  set_tf p tf_sp sp ;;
  proc_freepagetable oldpagetable oldsz ;;
  ret argc
  end end end.

End Exec.
