(* ===== verification/Sysfile.v ===== *)
(** * File system calls (kernel/sysfile.c) and argument fetching
    (kernel/syscall.c)

    Each call checks its arguments, since the user code they come from is not
    trusted, and then calls into file.c and fs.c. *)

From S2P Require Import Prelude Bytes CString KState Spinlock Kernel Riscv Kalloc Vm Sched Console Virtio Bio Log Fs Dir Pipe File Proc Exec.

Module Sysfile.
Import Kalloc Vm Sched Console Log Fs Dir File Proc Exec.

(** ** Arguments (syscall.c) *)

Definition fetchaddr (addr : Z) : K (option Z) :=
  p <- myproc' ;;
  q <- gets (proc_at p) ;;
  if (p_sz q <=? addr) || (p_sz q <? u64 (addr + 8)) then ret None else
  r <- copyin (p_pagetable q) addr 8 ;;
  let '(st, bs) := r in
  if negb (st =? 0) then ret None else ret (Some (ld64 bs 0)).

(** The length of the string, or -1, and the bytes stored in the buffer. *)
Definition fetchstr (addr max : Z) : K (Z * list Z) :=
  p <- myproc' ;;
  q <- gets (proc_at p) ;;
  r <- copyinstr (p_pagetable q) addr max ;;
  let '(err, bs) := r in
  if err <? 0 then ret (err, bs) else ret (Z.of_nat (length (c_str bs)), bs).

(** The nth argument register: tf->a0 ... tf->a5. *)
Definition argraw (n : Z) : K Z :=
  p <- myproc' ;;
  if (0 <=? n) && (n <=? 5) then get_tf p (tf_a0 + 8 * n) else panic "argraw".

Definition argint (n : Z) : K Z := x <- argraw n ;; ret (s32 x).
Definition argaddr (n : Z) : K Z := argraw n.

(** The string argument (without its NUL), or [None] on error. *)
Definition argstr (n max : Z) : K (option (list Z)) :=
  addr <- argaddr n ;;
  r <- fetchstr addr max ;;
  let '(len, bs) := r in
  if len <? 0 then ret None else ret (Some (c_str bs)).

(** ** Descriptors *)

Definition argfd (n : Z) : K (option (Z * nat)) :=
  fd <- argint n ;;
  if (fd <? 0) || (Z.of_nat NOFILE <=? fd) then ret None else
  p <- myproc' ;;
  f <- gets (fun s => p_ofile (proc_at p s) !!! Z.to_nat fd) ;;
  match f with None => ret None | Some f => ret (Some (fd, f)) end.

Definition set_ofile (p fd : nat) (f : option nat) : K unit :=
  upd_proc p (fun q => set_p_ofile (<[fd := f]> (p_ofile q)) q).

(** Allocate a file descriptor for the given file. *)
Definition fdalloc (f : nat) : K Z :=
  p <- myproc' ;;
  r <- for_each (seq 0 NOFILE) (fun fd =>
    o <- gets (fun s => p_ofile (proc_at p s) !!! fd) ;;
    match o with
    | None => set_ofile p fd (Some f) ;; ret (Some (Z.of_nat fd))
    | Some _ => ret None
    end) ;;
  ret (default (-1) r).

Definition sys_dup : K Z :=
  r <- argfd 0 ;;
  match r with
  | None => ret (-1)
  | Some (_, f) =>
      fd <- fdalloc f ;;
      if fd <? 0 then ret (-1) else
      filedup f ;;
      ret fd
  end.

Definition sys_read : K Z :=
  r <- argfd 0 ;;
  match r with
  | None => ret (-1)
  | Some (_, f) =>
      n <- argint 2 ;;
      p <- argaddr 1 ;;
      fileread f p n
  end.

Definition sys_write : K Z :=
  r <- argfd 0 ;;
  match r with
  | None => ret (-1)
  | Some (_, f) =>
      n <- argint 2 ;;
      p <- argaddr 1 ;;
      filewrite f p n
  end.

Definition sys_close : K Z :=
  r <- argfd 0 ;;
  match r with
  | None => ret (-1)
  | Some (fd, f) =>
      p <- myproc' ;;
      set_ofile p (Z.to_nat fd) None ;;
      fileclose f ;;
      ret 0
  end.

Definition sys_fstat : K Z :=
  r <- argfd 0 ;;
  match r with
  | None => ret (-1)
  | Some (_, f) =>
      st <- argaddr 1 ;;
      filestat f st
  end.

(** ** Links *)

Definition add_nlink (ip : nat) (d : Z) : K unit :=
  modify (fun s => set_inode_at ip (set_i_nlink (s16 (i_nlink (inode_at ip s) + d)) (inode_at ip s)) s).

Definition sys_link_bad (ip : nat) : K Z :=
  ilock ip ;;
  add_nlink ip (-1) ;;
  iupdate ip ;;
  iunlockput ip ;;
  end_op ROOTDEV ;;
  ret (-1).

(** Create the path new as a link to the same inode as old: the transaction. *)
Definition link_paths (old new : list Z) : K Z :=
  begin_op ROOTDEV ;;
  r <- namei old ;;
  match r with
  | None => end_op ROOTDEV ;; ret (-1)
  | Some ip =>
  ilock ip ;;
  ty <- gets (fun s => i_type (inode_at ip s)) ;;
  if ty =? T_DIR then iunlockput ip ;; end_op ROOTDEV ;; ret (-1) else
  add_nlink ip 1 ;;
  iupdate ip ;;
  iunlock ip ;;
  r <- nameiparent new ;;
  match r with
  | None => sys_link_bad ip
  | Some (dp, name) =>
  ilock dp ;;
  i <- gets (inode_at ip) ;;
  d <- gets (inode_at dp) ;;
  r <- (if negb (i_dev d =? i_dev i)%nat then ret (-1) else dirlink dp name (i_inum i)) ;;
  if r <? 0 then iunlockput dp ;; sys_link_bad ip else
  iunlockput dp ;;
  iput ip ;;
  end_op ROOTDEV ;;
  ret 0
  end end.

Definition sys_link : K Z :=
  old <- argstr 0 MAXPATH ;;
  match old with None => ret (-1) | Some old =>
  new <- argstr 1 MAXPATH ;;
  match new with None => ret (-1) | Some new => link_paths old new
  end end.

(** Is the directory dp empty except for "." and ".." ? *)
Definition isdirempty (dp : nat) : K bool :=
  de <- stack_slot 32 ;;
  size <- gets (fun s => i_size (inode_at dp s)) ;;
  loop (S (S (Z.to_nat (size / de_size)))) (fun off =>
    i <- gets (inode_at dp) ;;
    if off <? i_size i then
      r <- readi dp false de off de_size ;;
      if negb (r =? de_size) then panic "isdirempty: readi" else
      m <- gets mm ;;
      if negb (ld16 m de =? 0) then ret (inr false) else ret (inl (off + de_size))
    else ret (inr true)) (2 * de_size).

(** namecmp(name, t) for a string literal t *)
Definition name_is (name t : list Z) : bool := CString.strncmp name t 0 0 DIRSIZ =? 0.

Definition sys_unlink_bad (dp : nat) : K Z :=
  iunlockput dp ;;
  end_op ROOTDEV ;;
  ret (-1).

Definition sys_unlink : K Z :=
  path <- argstr 0 MAXPATH ;;
  match path with None => ret (-1) | Some path =>
  begin_op ROOTDEV ;;
  r <- nameiparent path ;;
  match r with
  | None => end_op ROOTDEV ;; ret (-1)
  | Some (dp, name) =>
  ilock dp ;;
  if name_is name [46] || name_is name [46; 46] then sys_unlink_bad dp else
  r <- dirlookup dp name ;;
  match r with
  | None => sys_unlink_bad dp
  | Some (ip, off) =>
  ilock ip ;;
  i <- gets (inode_at ip) ;;
  if i_nlink i <? 1 then panic "unlink: nlink < 1" else
  empty <- (if i_type i =? T_DIR then isdirempty ip else ret true) ;;
  if negb empty then iunlockput ip ;; sys_unlink_bad dp else
  de <- stack_slot 48 ;;
  k_memset de 0 de_size ;;
  r <- writei dp false de off de_size ;;
  if negb (r =? de_size) then panic "unlink: writei" else
  ty <- gets (fun s => i_type (inode_at ip s)) ;;
  when (ty =? T_DIR) (add_nlink dp (-1) ;; iupdate dp) ;;
  iunlockput dp ;;
  add_nlink ip (-1) ;;
  iupdate ip ;;
  iunlockput ip ;;
  end_op ROOTDEV ;;
  ret 0
  end end end.

Definition create (path : list Z) (type major minor : Z) : K (option nat) :=
  r <- nameiparent path ;;
  match r with
  | None => ret None
  | Some (dp, name) =>
  ilock dp ;;
  r <- dirlookup dp name ;;
  match r with
  | Some (ip, _) =>
      iunlockput dp ;;
      ilock ip ;;
      ty <- gets (fun s => i_type (inode_at ip s)) ;;
      if (type =? T_FILE) && ((ty =? T_FILE) || (ty =? T_DEVICE)) then ret (Some ip) else
      iunlockput ip ;;
      ret None
  | None =>
      dev <- gets (fun s => i_dev (inode_at dp s)) ;;
      ip <- ialloc dev type ;;
      ilock ip ;;
      upd_inode ip (set_i_major major) ;;
      upd_inode ip (set_i_minor minor) ;;
      upd_inode ip (set_i_nlink 1) ;;
      iupdate ip ;;
      when (type =? T_DIR)
        (add_nlink dp 1 ;;
         iupdate dp ;;
         inum <- gets (fun s => i_inum (inode_at ip s)) ;;
         dinum <- gets (fun s => i_inum (inode_at dp s)) ;;
         r <- dirlink ip [46] inum ;;
         if r <? 0 then panic "create dots" else
         r <- dirlink ip [46; 46] dinum ;;
         if r <? 0 then panic "create dots" else ret tt) ;;
      inum <- gets (fun s => i_inum (inode_at ip s)) ;;
      r <- dirlink dp name inum ;;
      if r <? 0 then panic "create: dirlink" else
      iunlockput dp ;;
      ret (Some ip)
  end end.

(** ** open and friends *)

(** The inode to open, locked; [None] after the transaction was ended. *)
Definition open_inode (path : list Z) (omode : Z) : K (option nat) :=
  if negb (Z.land omode O_CREATE =? 0) then
    r <- create path T_FILE 0 0 ;;
    match r with
    | None => end_op ROOTDEV ;; ret None
    | Some ip => ret (Some ip)
    end
  else
    r <- namei path ;;
    match r with
    | None => end_op ROOTDEV ;; ret None
    | Some ip =>
        ilock ip ;;
        ty <- gets (fun s => i_type (inode_at ip s)) ;;
        if (ty =? T_DIR) && negb (omode =? O_RDONLY) then
          iunlockput ip ;; end_op ROOTDEV ;; ret None
        else ret (Some ip)
    end.

(** The fields of a struct file opened on inode [ip]. *)
Definition open_file (ip : nat) (i : inode) (omode : Z) (v : file) : file :=
  let v := if i_type i =? T_DEVICE
           then set_f_minor (i_minor i) (set_f_major (i_major i) (set_f_type FD_DEVICE v))
           else set_f_type FD_INODE v in
  let v := set_f_off 0 (set_f_ip ip v) in
  let v := set_f_readable (Z.land omode O_WRONLY =? 0) v in
  set_f_writable (negb (Z.land omode O_WRONLY =? 0) || negb (Z.land omode O_RDWR =? 0)) v.

Definition sys_open : K Z :=
  path <- argstr 0 MAXPATH ;;
  match path with None => ret (-1) | Some path =>
  omode <- argint 1 ;;
  begin_op ROOTDEV ;;
  r <- open_inode path omode ;;
  match r with
  | None => ret (-1)
  | Some ip =>
  i <- gets (inode_at ip) ;;
  if (i_type i =? T_DEVICE) && ((i_major i <? 0) || (NDEV <=? i_major i)) then
    iunlockput ip ;; end_op ROOTDEV ;; ret (-1)
  else
  f <- filealloc ;;
  match f with
  | None => iunlockput ip ;; end_op ROOTDEV ;; ret (-1)
  | Some f =>
  fd <- fdalloc f ;;
  if fd <? 0 then
    fileclose f ;; iunlockput ip ;; end_op ROOTDEV ;; ret (-1)
  else
  i <- gets (inode_at ip) ;;
  upd_file f (open_file ip i omode) ;;
  iunlock ip ;;
  end_op ROOTDEV ;;
  ret fd
  end end end.

Definition create_and_put (path : list Z) (type major minor : Z) : K Z :=
  r <- create path type major minor ;;
  match r with
  | None => end_op ROOTDEV ;; ret (-1)
  | Some ip => iunlockput ip ;; end_op ROOTDEV ;; ret 0
  end.

Definition sys_mkdir : K Z :=
  begin_op ROOTDEV ;;
  path <- argstr 0 MAXPATH ;;
  match path with
  | None => end_op ROOTDEV ;; ret (-1)
  | Some path => create_and_put path T_DIR 0 0
  end.

Definition sys_mknod : K Z :=
  begin_op ROOTDEV ;;
  path <- argstr 0 MAXPATH ;;
  match path with
  | None => end_op ROOTDEV ;; ret (-1)
  | Some path =>
      major <- argint 1 ;;
      minor <- argint 2 ;;
      create_and_put path T_DEVICE (s16 major) (s16 minor)
  end.

Definition sys_chdir : K Z :=
  p <- myproc' ;;
  begin_op ROOTDEV ;;
  path <- argstr 0 MAXPATH ;;
  r <- match path with None => ret None | Some path => namei path end ;;
  match r with
  | None => end_op ROOTDEV ;; ret (-1)
  | Some ip =>
      ilock ip ;;
      ty <- gets (fun s => i_type (inode_at ip s)) ;;
      if negb (ty =? T_DIR) then iunlockput ip ;; end_op ROOTDEV ;; ret (-1) else
      iunlock ip ;;
      cwd <- gets (fun s => p_cwd (proc_at p s)) ;;
      match cwd with Some c => iput c | None => stuck "null cwd" end ;;
      end_op ROOTDEV ;;
      upd_proc p (set_p_cwd (Some ip)) ;;
      ret 0
  end.

(** kfree(argv[i]) up to the first null entry *)
Fixpoint free_args (argv : list Z) : K unit :=
  match argv with
  | [] => ret tt
  | a :: argv' => if a =? 0 then ret tt else kfree a ;; free_args argv'
  end.

Definition null_argv : list Z := replicate (Z.to_nat MAXARG) 0.

(** The loop that fetches the arguments: whether it ended at the null
    pointer, and argv. *)
Definition fetch_args (uargv : Z) : K (bool * list Z) :=
  loop (S (Z.to_nat MAXARG)) (fun '(i, argv) =>
    if MAXARG <=? i then ret (inr (false, argv)) else
    r <- fetchaddr (u64 (uargv + 8 * i)) ;;
    match r with
    | None => ret (inr (false, argv))
    | Some uarg =>
        if uarg =? 0 then ret (inr (true, argv)) else
        pa <- kalloc ;;
        if pa =? 0 then panic "sys_exec kalloc" else
        let argv := <[Z.to_nat i := pa]> argv in
        r <- fetchstr uarg PGSIZE ;;
        let '(len, bs) := r in
        modify (fun s => set_mm (set_bytes (mm s) pa bs) s) ;;
        if len <? 0 then ret (inr (false, argv)) else ret (inl (i + 1, argv))
    end) (0, null_argv).

Definition sys_exec : K Z :=
  path <- argstr 0 MAXPATH ;;
  match path with None => ret (-1) | Some path =>
  uargv <- argaddr 1 ;;
  r <- fetch_args uargv ;;
  let '(ok, argv) := r in
  if (ok : bool) then
    r <- exec path argv ;;
    free_args argv ;;
    ret r
  else
    free_args argv ;;
    ret (-1)
  end.

Definition bytes32 (v : Z) : list Z := get_bytes 4 (st32 (replicate 4 0) 0 v) 0.

Definition sys_pipe : K Z :=
  p <- myproc' ;;
  fdarray <- argaddr 0 ;;
  r <- pipealloc ;;
  match r with
  | None => ret (-1)
  | Some (rf, wf) =>
  fd0 <- fdalloc rf ;;
  if fd0 <? 0 then fileclose rf ;; fileclose wf ;; ret (-1) else
  fd1 <- fdalloc wf ;;
  if fd1 <? 0 then
    set_ofile p (Z.to_nat fd0) None ;;
    fileclose rf ;; fileclose wf ;; ret (-1)
  else
  pgt <- gets (fun s => p_pagetable (proc_at p s)) ;;
  r0 <- copyout pgt fdarray (bytes32 fd0) ;;
  r1 <- (if r0 <? 0 then ret r0 else copyout pgt (u64 (fdarray + 4)) (bytes32 fd1)) ;;
  if r1 <? 0 then
    set_ofile p (Z.to_nat fd0) None ;;
    set_ofile p (Z.to_nat fd1) None ;;
    fileclose rf ;; fileclose wf ;; ret (-1)
  else ret 0
  end.

End Sysfile.
