(* ===== verification/Link.v ===== *)
(** * The link system call (sys_link of kernel/sysfile.c)

    What the operations on inodes and directories do together: the link
    count of the target is raised and written, the parent directory of the
    new path gets an entry, and all references are given back.  [inop] is the
    state of the file system inside an operation. *)

From S2P Require Import Prelude Bytes CString KState Spinlock Kernel Riscv Kalloc Vm Sched Console Virtio Disk Bio Cache Log Commit Transaction Fs Tx Balloc Dinode Inode FileIO Atomic Icache Dir DirProof Tree Pipe File Proc Exec Sysfile.

Module Link.
Import Sched Virtio Disk Bio Cache Log Commit Transaction Fs Tx Balloc Dinode Inode FileIO Atomic Icache Dir DirProof Tree Sysfile.

(** Whatever is read from the disk fits the disk. *)
Lemma s16_range x : - 2 ^ 15 <= s16 x < 2 ^ 15.
Proof. unfold s16. pose proof (Z.mod_pos_bound (x + 2 ^ 15) (2 ^ 16)). lia. Qed.

Lemma load_fits d off i : dinode_fits (load_dinode d off i).
Proof.
  split; cbn; try apply s16_range.
  - exact (ldn_range 4 d _).
  - unfold di_addrs. by rewrite length_map, length_seqZ.
  - intros j a. unfold di_addrs. rewrite list_lookup_fmap. intros (x & _ & ->)%fmap_Some. exact (ldn_range 4 d _).
Qed.

Lemma on_disk_fits dv sb ct i : on_disk dv sb ct i -> dinode_fits i.
Proof. intros (d & _ & _ & <-). apply load_fits. Qed.

Section ops.
Context (E : kstate -> kstate -> Prop) `{HE : !DiskEnv E} (h p dv : nat) (sb : superblock) (s0 : kstate) (W : Z -> Prop) (D : Z -> Prop).
Abbreviation kst := (p_kstack (proc_at p s0)).
Context (Hkst : 0 <= kst /\ kst + 32 < 2 ^ 64) (Hstack : forall a, kst <= a < kst + 32 -> W a /\ buffer a /\ ~ scratch a) (Hsb : KState.sb (fs s0) = sb).
Abbreviation view := (view E h p dv s0 W).
Abbreviation icache_ok := (icache_ok dv sb (p_pid (proc_at p s0))).
Abbreviation dino := (dino dv sb).

Record inop (s : kstate) (lg : gset bkey) (ct : disk) (ic : list inode) (rc : gmap bkey Z) (lk : option nat) : Prop := {
  op_view : view s lg ct ic;
  op_cache : icache_ok ct ic rc lk;
  op_geom : geom dv sb ct;
  op_tree : tree dv sb ct D;
  op_refs : forall m, is_Some (rc !! (dv, m)) -> D m;
  op_grows : grows dv sb ∅ lg
}.

(** The locked inode is the one on the disk. *)
Lemma locked_inode s lg ct ic rc ip n : inop s lg ct ic rc (Some ip) -> slot ic ip (dv, n) ->
  exists i, ic !! ip = Some i /\ on_disk dv sb ct i /\ i_inum i = n /\ i_dev i = dv /\ 0 < i_ref i /\ D n /\ dfields i = dfields (dino ct n).
Proof using Type.
  intros [V I G T R _] (i & Hk & Hn & Hp). injection Hn as Hd Hi. exists i. destruct (ic_held _ _ _ _ _ _ _ I ip i Hk eq_refl) as (_ & Hv & _).
  pose proof (ic_valid _ _ _ _ _ _ _ I ip i Hk Hp Hv Hd) as Ho. split_and!; try done.
  - apply R. eexists. rewrite <-Hd, <-Hi. by eapply (ic_rc _ _ _ _ _ _ _ I).
  - rewrite <-Hi. by apply on_disk_dino.
Qed.

(** *** The link count *)

(** A directory that keeps its blocks and bytes is the same directory. *)
Lemma dir_kept ct ct' n i' : tree dv sb ct D -> D n -> i_type (dino ct n) = T_DIR -> i_size i' = i_size (dino ct n) -> i_addrs i' = i_addrs (dino ct n) ->
  file_ok dv sb ct' i' -> (forall bn, fblk dv ct' i' bn = fblk dv ct i' bn) -> (forall x, 0 <= x -> x / BSIZE < MAXFILE -> fbyte dv ct' i' x = fbyte dv ct i' x) ->
  dir_ok dv sb ct' i' /\ forall e m off, dir_find dv ct' i' e = Some (m, off) -> D m.
Proof using Type.
  intros T Hn Hd Hs Ha Hok Hf Hb. destruct (nd_dir _ _ _ _ (tr_node _ _ _ _ T n Hn) Hd) as [D1 D2 D3 D4]. split.
  - split; [done| |by rewrite Hs|by rewrite Hs]. intros b Hb0 Hlt. rewrite Hf. rewrite Hs in Hlt. unfold fblk, ind. rewrite Ha. by apply D2.
  - intros e m off. unfold dir_find. rewrite (dents_bytes dv ct ct' i' i'), (dents_same dv ct (dino ct n) i') by (done || lia). by apply (tr_closed _ _ _ _ T n).
Qed.

Lemma runE_nlink ip n i d s lg ct ic rc (Q : unit -> kstate -> Prop) : let i' := set_i_nlink (s16 (i_nlink i + d)) i in
  inop s lg ct ic rc (Some ip) -> slot ic ip (dv, n) -> ic !! ip = Some i -> i_nlink i' <> 0 -> (size lg < 29)%nat ->
  (forall s' lg' ct', inop s' lg' ct' (<[ip := i']> ic) rc (Some ip) -> changes dv sb ct ct' D n i i' -> lg' <> ∅ -> (size lg' <= S (size lg))%nat ->
     (forall x, 0 <= x -> x / BSIZE < MAXFILE -> fbyte dv ct' i' x = fbyte dv ct i x) -> nfree dv sb ct' = nfree dv sb ct -> Q tt s') ->
  runE E (add_nlink ip d) s (fun _ s1 => runE E (iupdate ip) s1 Q).
Proof using Hsb.
  intros i' HO Hs Hk Hnl Hlg HQ. destruct (locked_inode _ _ _ _ _ _ _ HO Hs) as (i0 & Hk0 & Hon & Hin & Hdev & Hp & Hn & Hdf).
  assert (i0 = i) as -> by congruence. pose proof HO as [V I G T R Gr]. destruct (tr_node _ _ _ _ T n Hn) as [N1 N2 N3 N4 N5 N6].
  pose proof (dfields_eq _ _ Hdf) as (Ht & Hl & Hsz & Ha). unfold add_nlink. wp. rewrite (view_at _ _ _ _ _ _ _ _ _ _ _ _ V Hk). fold i'.
  pose proof (view_set_inode _ _ _ _ _ _ ip i' _ _ _ _ V) as V1. assert (Hk1 : <[ip := i']> ic !! ip = Some i') by (apply list_lookup_insert_eq; by eapply lookup_lt_Some).
  assert (Hok : file_ok dv sb ct i') by (eapply (file_ok_same dv sb ct (dino ct n)); done).
  eapply (runE_iupdate E h p dv sb ip _ lg ct i'); [by eapply v_tx|by eapply view_live|done|done|lia|by rewrite <-Hin in N1| |].
  { destruct (on_disk_fits _ _ _ _ Hon). split; try done. apply s16_range. }
  intros s' lg' ct' M L' T' G' O' D' W' F' B' Hl' K' N' J' Z'. assert (Hch : changes dv sb ct ct' D n i i').
  { split; try done.
    - intros Hd. rewrite Ht in Hd. by apply (dir_kept ct ct' n i').
    - intros j. rewrite <-Hin. apply J'. }
  apply (HQ s' lg' ct'); try done. split; try done.
  - split; [eapply steady_tmoves; [apply V1|exact M]|done].
  - apply (icache_disk dv sb (p_pid (proc_at p s0)) ct ct' ic rc (Some ip) ip i i'); try done. intros j Hj Hr. apply J'; [done|]. by eapply nd_place, tr_node, R.
  - by eapply (tree_changes dv sb ct ct' D n i i').
  - by eapply grows_trans.
Qed.

(** *** A directory entry *)

Lemma runE_add_entry dp name inum d i s lg ct ic rc (Q : Z -> kstate -> Prop) : let e := cname (get_bytes 14 name 0) in
  inop s lg ct ic rc (Some dp) -> slot ic dp (dv, d) -> ic !! dp = Some i -> i_type (dino ct d) = T_DIR -> D inum ->
  dir_find dv ct (dino ct d) e = None -> (size lg < 23)%nat -> (size rc < NINODE)%nat -> (2 <= nfree dv sb ct)%nat -> i_size (dino ct d) + 16 <= MAXFILE * BSIZE ->
  (forall s' lg' ct' i', inop s' lg' ct' (<[dp := i']> ic) rc (Some dp) -> changes dv sb ct ct' D d i i' -> dents dv ct' i' = add_ent (inum, e) (dents dv ct i) ->
     lg' <> ∅ -> (size lg' <= size lg + 7)%nat -> (exists al z, i' = set_i_size z (set_i_addrs al i)) -> Q 0 s') ->
  runE E (dirlink dp name inum) s Q.
Proof using Hkst Hstack Hsb.
  intros e HO Hs Hk Hty Hinum Hnone Hlg Hrc Hfr Hroom HQ. destruct (locked_inode _ _ _ _ _ _ _ HO Hs) as (i0 & Hk0 & Hon & Hin & Hdev & Hp & Hd & Hdf).
  assert (i0 = i) as -> by congruence. pose proof HO as [V I G T R Gr]. destruct (tr_node _ _ _ _ T d Hd) as [N1 N2 N3 N4 N5 N6]. destruct (tr_node _ _ _ _ T inum Hinum) as [M1 M2 _ _ _ _].
  pose proof (dfields_eq _ _ Hdf) as (Ht & Hl & Hsz & Ha). assert (Hdir : dir_ok dv sb ct i) by (eapply (dir_ok_same dv sb ct (dino ct d)); [exact Hdev|done|done|by apply N6]).
  assert (Hfind : dir_find dv ct i e = None) by (unfold dir_find; by rewrite (dents_same dv ct (dino ct d) i)).
  eapply (runE_dirlink E h p dv sb s0 W Hkst Hstack Hsb dp name inum i lg ct ic rc); try done; try lia; try congruence.
  - by eapply on_disk_fits.
  - intros m Hm. by eapply nd_place, tr_node, R.
  - fold e. intros m off. by rewrite Hfind.
  - intros r s'. fold e. rewrite Hfind. intros (-> & lg' & ct' & i' & [L1 L2 L3 L4 L5 (al & z & L6) L7 L8 L9 L10 L11]).
    assert (Hon' : on_disk dv sb ct' i').
    { assert (Hk' : <[dp := i']> ic !! dp = Some i') by (apply list_lookup_insert_eq; by eapply lookup_lt_Some).
      eapply (ic_valid _ _ _ _ _ _ _ L2); [exact Hk'|subst i'; exact Hp|by eapply (ic_held _ _ _ _ _ _ _ L2)|by subst i']. }
    assert (Hch : changes dv sb ct ct' D d i i').
    { split; try done; try (by subst i'); [by rewrite L6; cbn; congruence|apply L4|intros _|by rewrite <-Hin].
      split; [done|]. intros e' m off. unfold dir_find. rewrite L5. rewrite find_add; [|cbn; lia|exact Hfind]. cbn [fst snd].
      case_decide; [by intros [= <- _]|]. rewrite (dents_same dv ct (dino ct d) i) by done. by apply (tr_closed _ _ _ _ T d). }
    apply (HQ s' lg' ct' i'); try done; [|by exists al, z]. split; try done; [by eapply (tree_changes dv sb ct ct' D d i i')|by eapply grows_trans].
Qed.

(** A name that is there already. *)
Lemma runE_no_entry dp name inum d i m off s lg ct ic rc (Q : Z -> kstate -> Prop) : let e := cname (get_bytes 14 name 0) in
  inop s lg ct ic rc (Some dp) -> slot ic dp (dv, d) -> ic !! dp = Some i -> i_type (dino ct d) = T_DIR -> dir_find dv ct (dino ct d) e = Some (m, off) ->
  (size lg < 23)%nat -> (size rc < NINODE)%nat -> (forall s' ic', inop s' lg ct ic' rc (Some dp) -> (forall k x, slot ic k x -> slot ic' k x) -> Q (-1) s') ->
  runE E (dirlink dp name inum) s Q.
Proof using Hkst Hstack Hsb.
  intros e HO Hs Hk Hty Hf Hlg Hrc HQ. destruct (locked_inode _ _ _ _ _ _ _ HO Hs) as (i0 & Hk0 & _ & _ & Hdev & _ & Hd & Hdf). assert (i0 = i) as -> by congruence.
  pose proof HO as [V I G T R Gr]. pose proof (dfields_eq _ _ Hdf) as (Ht & _ & Hsz & Ha).
  eapply (runE_dirlink_found E h p dv sb s0 W Hkst Hstack Hsb dp name inum i lg ct ic rc I Hk); [congruence|done| |done|done|exact V| | |].
  - eapply (dir_ok_same dv sb ct (dino ct d)); [exact Hdev|done|done|]. by apply (nd_dir _ _ _ _ (tr_node _ _ _ _ T d Hd)).
  - unfold dir_find. rewrite (dents_same dv ct (dino ct d) i) by done. exact Hf.
  - eapply nd_nlink, tr_node; [exact T|]. by eapply (tr_closed _ _ _ _ T d).
  - intros s' (ic' & V' & I' & K'). by apply (HQ s' ic').
Qed.

(** *** Taking and giving back inodes *)

Lemma runE_lock ip n s lg ct ic rc (Q : unit -> kstate -> Prop) : inop s lg ct ic rc None -> slot ic ip (dv, n) -> (size lg < 30)%nat ->
  (forall s' ic', inop s' lg ct ic' rc (Some ip) -> (forall k m, slot ic k m -> slot ic' k m) -> Q tt s') -> runE E (ilock ip) s Q.
Proof using Hsb.
  intros [V I G T R Gr] Hs Hlg HQ. assert (Hn : D n). { destruct Hs as (i & Hk & Hn & Hp). apply R. eexists. rewrite <-Hn. by eapply (ic_rc _ _ _ _ _ _ _ I). }
  destruct (tr_node _ _ _ _ T n Hn) as [N1 _ N3 _ _ _]. eapply (runE_ilock E h p dv sb s0 W ip n); try done. intros s' (ic' & V' & I' & K'). by apply (HQ s' ic').
Qed.

Lemma run_unlock ip n s lg ct ic rc (Q : unit -> kstate -> Prop) : inop s lg ct ic rc (Some ip) -> slot ic ip (dv, n) ->
  (forall s' ic', inop s' lg ct ic' rc None -> (forall k m, slot ic k m -> slot ic' k m) -> Q tt s') -> run (iunlock ip) s Q.
Proof using Type.
  intros [V I G T R Gr] (i & Hk & _) HQ. eapply (run_iunlock E h p dv sb s0 W); [exact V|exact I|rewrite <-(ic_len _ _ _ _ _ _ _ I); by eapply lookup_lt_Some|].
  intros s' ic' V' I' K'. by apply (HQ s' ic').
Qed.

Lemma run_put ip n s lg ct ic rc (Q : unit -> kstate -> Prop) : inop s lg ct ic rc None -> slot ic ip (dv, n) ->
  (forall s' ic', inop s' lg ct ic' (addref (dv, n) (-1) rc) None -> (forall k m, slot ic k m -> m <> (dv, n) \/ 1 < default 0 (rc !! (dv, n)) -> slot ic' k m) -> Q tt s') ->
  run (iput ip) s Q.
Proof using Type.
  intros [V I G T R Gr] Hs HQ. assert (Hn : D n). { destruct Hs as (i & Hk & Hn & Hp). apply R. eexists. rewrite <-Hn. by eapply (ic_rc _ _ _ _ _ _ _ I). }
  eapply (run_iput E h p dv sb s0 W ip n); [exact V|exact I|done|by left|by eapply nd_nlink, tr_node|]. intros s' (ic' & V' & I' & K'). apply (HQ s' ic'); [|done].
  split; try done. intros m. unfold addref. destruct (decide (m = n)) as [->|Hne]; [done|]. rewrite lookup_set_rc_ne by congruence. apply R.
Qed.

(** A reference taken on an inode of the tree. *)
Lemma inop_get n lg ct ic rc ip s : D n -> geom dv sb ct -> tree dv sb ct D -> (forall m, is_Some (rc !! (dv, m)) -> D m) -> grows dv sb ∅ lg ->
  iget_post E h p dv sb s0 W dv n lg ct ic rc None ip s -> exists ic', inop s lg ct ic' (addref (dv, n) 1 rc) None /\ slot ic' ip (dv, n) /\ forall k m, slot ic k m -> slot ic' k m.
Proof using Type.
  intros Hn G T R Gr (ic' & V & I & S & K). exists ic'. split_and!; try done. split; try done.
  intros m. unfold addref. destruct (decide (m = n)) as [->|Hne]; [done|]. rewrite lookup_set_rc_ne by congruence. apply R.
Qed.
End ops.

(** ** What a link changes *)

Lemma set_icache_id f : set_icache (icache f) f = f.
Proof. by destruct f. Qed.

Lemma s16_small x : - 2 ^ 15 <= x < 2 ^ 15 -> s16 x = x.
Proof. intros Hx. unfold s16. rewrite Z.mod_small; lia. Qed.
Lemma dfields_nlink v i j : dfields i = dfields j -> dfields (set_i_nlink v i) = dfields (set_i_nlink v j).
Proof. unfold dfields. cbn. intros [=]. congruence. Qed.


Section spec.
Context (dv : nat) (sb : superblock) (D : Z -> Prop) (ct ct' : disk) (n d : Z) (e : list Z).
Abbreviation dino := (dino dv sb ct).
Abbreviation dino' := (Icache.dino dv sb ct').

(** [ct'] is [ct] with inode [n] under name [e] in directory [d]. *)
Record link_spec : Prop := {
  ls_tree : tree dv sb ct' D;
  ls_names : forall e', fst <$> dir_find dv ct' (dino' d) e' = if decide (e' = e) then Some n else fst <$> dir_find dv ct (dino d) e';
  ls_count : dfields (dino' n) = dfields (set_i_nlink (i_nlink (dino n) + 1) (dino n));
  ls_parent : i_type (dino' d) = i_type (dino d) /\ i_nlink (dino' d) = i_nlink (dino d);
  ls_inodes : forall m, D m -> m <> n -> m <> d -> dfields (dino' m) = dfields (dino m);
  ls_bytes : forall m, D m -> m <> d -> same_bytes dv ct ct' (dino m) (dino' m)
}.
Context (HT : tree dv sb ct D) (Hn : D n) (Hd : D d) (Hnd : n <> d).

Lemma link_types m : link_spec -> D m -> i_type (dino' m) = i_type (dino m) /\ (m <> d -> i_size (dino' m) = i_size (dino m)).
Proof using Type.
  intros [L2 L3 L4 [L5 _] L6 L7] Hm. destruct (decide (m = d)) as [->|Hmd]; [done|].
  destruct (decide (m = n)) as [->|Hmn]; [|by destruct (dfields_eq _ _ (L6 m Hm Hmn Hmd)) as (? & _ & ? & _)].
  destruct (dfields_eq _ _ L4) as (? & _ & ? & _). done.
Qed.

(** Names found before are found again, and the new name is found. *)
Lemma link_resolves : link_spec -> dir_find dv ct (dino d) e = None ->
  (forall es m x, D m -> resolve dv sb ct m es = Some x -> resolve dv sb ct' m es = Some x) /\
  (forall es m, D m -> resolve_parent dv sb ct m es = Some (d, e) -> resolve dv sb ct' m es = Some n).
Proof using HT Hn Hd Hnd.
  intros HL Hnone. pose proof HL as [L2 L3 L4 [L5 _] L6 L7].
  assert (Hmono : forall es m x, D m -> resolve dv sb ct m es = Some x -> resolve dv sb ct' m es = Some x).
  { apply (resolve_mono dv sb ct ct' D HT); [intros m Hm; by apply link_types|]. intros m e' x off Hm Hty Hf. destruct (decide (m = d)) as [->|Hmd].
    - rewrite L3, Hf, decide_False by congruence. done.
    - unfold dir_find. rewrite (dents_bytes dv ct ct' (dino m) (dino' m)); [unfold dir_find in Hf; by rewrite Hf|by apply link_types| |by apply L7].
      pose proof (do_size _ _ _ _ (nd_dir _ _ _ _ (tr_node _ _ _ _ HT m Hm) Hty)). lia. }
  split; [done|]. intros es m Hm (es' & -> & Hr & Hty)%resolve_parent_some. rewrite resolve_snoc, (Hmono _ _ _ Hm Hr), L5, Hty, Z.eqb_refl, L3, decide_True by done. done.
Qed.

(** Raising the count of [n], then adding the entry to [d]. *)
Lemma link_spec_intro ct1 i1 i2 i2' : geom dv sb ct -> geom dv sb ct1 -> geom dv sb ct' -> 0 < i_nlink (dino n) < 2 ^ 15 - 1 -> dir_find dv ct (dino d) e = None ->
  let i1' := set_i_nlink (s16 (i_nlink i1 + 1)) i1 in
  changes dv sb ct ct1 D n i1 i1' -> (forall x, 0 <= x -> x / BSIZE < MAXFILE -> fbyte dv ct1 i1' x = fbyte dv ct i1 x) ->
  changes dv sb ct1 ct' D d i2 i2' -> dents dv ct' i2' = add_ent (n, e) (dents dv ct1 i2) -> i_nlink i2' = i_nlink i2 -> i_type (dino d) = T_DIR -> link_spec.
Proof using HT Hn Hd Hnd.
  intros G G1 G' Hnl Hnone i1' C1 B1 C2 Hdents Hnl2 Hty. pose proof (tree_changes dv sb ct ct1 D n i1 i1' HT Hn G G1 C1) as T1.
  pose proof (tree_changes dv sb ct1 ct' D d i2 i2' T1 Hd G1 G' C2) as T2.
  destruct (changed_fields dv sb ct ct1 D n i1 i1' HT Hn G G1 C1) as [F1 F1']. destruct (changed_fields dv sb ct1 ct' D d i2 i2' T1 Hd G1 G' C2) as [F2 F2'].
  pose proof (dfields_eq _ _ F1) as (_ & Hn1 & _ & Ha1). pose proof (dfields_eq _ _ F1') as (_ & _ & _ & Ha1').
  pose proof (dfields_eq _ _ F2) as (Ht2 & Hn2 & Hs2 & Ha2). pose proof (dfields_eq _ _ F2') as (Ht2' & Hn2' & Hs2' & Ha2').
  assert (Hd1 : dfields (Icache.dino dv sb ct1 d) = dfields (dino d)) by by apply (other_fields dv sb ct ct1 D n i1 i1').
  pose proof (dfields_eq _ _ Hd1) as (Hdt & Hdn & _ & _).
  assert (Hdd : dents dv ct1 (Icache.dino dv sb ct1 d) = dents dv ct (dino d)) by by apply (other_dents dv sb ct ct1 D n i1 i1').
  split; try done.
  - intros e'. unfold dir_find. rewrite (dents_same dv ct' i2' (dino' d)), Hdents, (dents_same dv ct1 (Icache.dino dv sb ct1 d) i2), Hdd by done.
    rewrite find_add; [|cbn; pose proof (nd_num _ _ _ _ (tr_node _ _ _ _ HT n Hn)); lia|exact Hnone]. cbn [fst snd]. by case_decide.
  - rewrite (other_fields dv sb ct1 ct' D d i2 i2' T1 Hd G1 G' C2 n Hn Hnd), <-F1'. unfold i1'. rewrite Hn1. rewrite s16_small by lia. by apply dfields_nlink.
  - rewrite <-Ht2', <-Hn2', (ch_type _ _ _ _ _ _ _ _ C2), Ht2, Hdt, Hnl2, Hn2, Hdn. done.
  - intros m Hm Hmn Hmd. rewrite (other_fields dv sb ct1 ct' D d i2 i2' T1 Hd G1 G' C2 m Hm Hmd). by apply (other_fields dv sb ct ct1 D n i1 i1').
  - intros m Hm Hmd x H1 H2. rewrite (other_bytes dv sb ct1 ct' D d i2 i2' T1 Hd G1 G' C2 m Hm Hmd x H1 H2). destruct (decide (m = n)) as [->|Hmn].
    + rewrite (fbyte_same dv ct1 i1' (Icache.dino dv sb ct1 n)), B1, (fbyte_same dv ct (dino n) i1) by done. done.
    + by apply (other_bytes dv sb ct ct1 D n i1 i1').
Qed.
End spec.

(** ** Before and after a call *)

(** The state of the system before a call that works on the tree. *)
Record at_rest (E : kstate -> kstate -> Prop) `{HE : !DiskEnv E} (h p : nat) (sb : superblock) (s : kstate) (W : Z -> Prop) (D : Z -> Prop)
    (L : logst) (hd : block) (rc : gmap bkey Z) : Prop := {
  ar_quiet : quiet E h p ROOTDEV s L;
  ar_place : log_place ROOTDEV sb L (disk_img (dev s)) hd;
  ar_geom : geom ROOTDEV sb (disk_img (dev s));
  ar_tree : tree ROOTDEV sb (disk_img (dev s)) D;
  ar_sb : KState.sb (fs s) = sb;
  ar_cache : icache_ok ROOTDEV sb (p_pid (proc_at p s)) (disk_img (dev s)) (icache (fs s)) rc None;
  ar_refs : forall m, is_Some (rc !! (ROOTDEV, m)) -> D m;
  ar_stack : (0 <= p_kstack (proc_at p s) /\ p_kstack (proc_at p s) + 32 < 2 ^ 64) /\
    forall a, p_kstack (proc_at p s) <= a < p_kstack (proc_at p s) + 32 -> W a /\ buffer a /\ ~ scratch a
}.

Section rest.
Context (E : kstate -> kstate -> Prop) `{HE : !DiskEnv E} (h p : nat) (sb : superblock) (s : kstate) (W : Z -> Prop) (D : Z -> Prop) (L : logst) (hd : block) (rc : gmap bkey Z).
Abbreviation dv := ROOTDEV.
Abbreviation kst := (p_kstack (proc_at p s)).
Let ct0 := disk_img (dev s).
Let ic := icache (fs s).
Context (Hrest : at_rest E h p sb s W D L hd rc).

Lemma rest_disk k : fs_key dv sb k -> is_Some (ct0 !! k).
Proof using Hrest.
  destruct Hrest as [_ _ G _ _ _ _ _]. intros [Hk1 Hk2]. pose proof (g_ino _ _ _ G). destruct (g_blocks _ _ _ G k.2) as (b & Hb & _); [lia|].
  exists b. unfold ct0. rewrite <-Hb, <-Hk1. by destruct k.
Qed.

Abbreviation inop := (inop E h p dv sb s W D).

Lemma rest_begin s1 : tx E h p dv s1 ∅ ct0 [] -> logs_only s s1 -> inop s1 ∅ ct0 ic rc None.
Proof using Hrest.
  intros T1 (y & l & -> & Hl). destruct Hrest as [_ _ G T Hsb I R _]. split; try done. split; [|done].
  exists y, (mm s), (pt s), (vdisks s), (bufs s), l. split_and!; try done. unfold ic. by rewrite set_icache_id.
Qed.

Lemma inop_end s2 lg ct ic' rc' lk : inop s2 lg ct ic' rc' lk -> l_start <$> logs s2 = l_start <$> logs s /\ dev s2 = dev s.
Proof using Type. intros [[(y & m & t & v & bs & l & -> & _ & _ & Hl) _] _ _ _ _ _]. done. Qed.

(** After the commit: the contents [ct] on the disk outside the log, written
    such that a crash leaves the old or the new contents, and the system at
    rest again with references [rc']. *)
Definition settled (rc' : gmap bkey Z) (ct : disk) (s' : kstate) : Prop := exists Ws L' hd', dev s' = wr_dev Ws (dev s) /\ same_fs dv sb (disk_img (dev s')) ct /\
  (forall pre, pre `prefix_of` Ws -> forall h' p' s2, fresh_boot E h' p' dv (l_start L) s2 -> disk_img (dev s2) = wr_ct pre ct0 ->
     runE E (recover_from_log dv) s2 (fun _ s3 => same_fs dv sb (disk_img (dev s3)) ct0 \/ same_fs dv sb (disk_img (dev s3)) ct)) /\
  at_rest E h p sb s' W D L' hd' rc' /\ l_start L' = l_start L.

Lemma wr_ct_lengths Ws k : Forall (fun w => length w.2 = 1024%nat) Ws -> forall d, (exists x, d !! k = Some x /\ length x = 1024%nat) ->
  exists x, wr_ct Ws d !! k = Some x /\ length x = 1024%nat.
Proof using Type.
  induction 1 as [|[k' x] Ws Hx HW IH]; intros d Hd; [done|]. apply (IH (<[k' := x]> d)). destruct (decide (k' = k)) as [->|Hne].
  - exists x. by rewrite lookup_insert_eq.
  - by rewrite lookup_insert_ne.
Qed.

Lemma rest_end s2 lg ct ic' rc' (Q : unit -> kstate -> Prop) : inop s2 lg ct ic' rc' None -> lg <> ∅ -> (size lg <= 29)%nat ->
  (forall s', settled rc' ct s' -> Q tt s') -> runE E (end_op dv) s2 Q.
Proof using All.
  intros O2 Hne Hlg HQ. destruct (inop_end _ _ _ _ _ _ O2) as [Hst Hdev]. pose proof O2 as [V2 I2 G2 T2 R2 Gr2]. pose proof Hrest as [Hq Hpl G T Hsb _ _ Hstk].
  pose proof (g_ino _ _ _ G2). pose proof (g_bmap _ _ _ G2). pose proof (g_size _ _ _ G2). pose proof (bmap_end_ge dv sb _ G2). pose proof (lp_inodes _ _ _ _ _ Hpl).
  assert (Hfs : forall a b, same_files dv L 29 a b -> same_fs dv sb a b) by (intros a b; by apply (same_files_fs dv sb L 29 a b hd (disk_img (dev s)) Hpl ltac:(lia) ltac:(lia))).
  eapply (runE_end E h p dv sb s L hd Hq Hpl rest_disk s2 lg ct); [apply V2|done|done|done|done|done|done|].
  intros s' Ws [C1 C2 C3 C4 C5 C6 (L' & hd' & N1 & N2 & N3)]. apply HQ. exists Ws, L', hd'. pose proof (Hfs _ _ C2) as Hsf. split; [exact C1|]. split; [exact Hsf|]. split; [|split; [|exact N3]].
  { intros pre Hpre h' p' s4 Hb Hd4. eapply runE_mono; [by apply (C3 pre Hpre h' p')|]. intros _ s5 [Hx|Hx]; [left|right]; by apply Hfs. }
  assert (Hproc : proc_core (proc_at p s') = proc_core (proc_at p s)).
  { transitivity (proc_core (proc_at p s2)); [symmetry; by apply pt_sim_proc|]. by apply (view_core _ _ _ _ _ _ _ _ _ _ V2). }
  assert (Hpid : p_pid (proc_at p s') = p_pid (proc_at p s)) by exact (f_equal p_pid Hproc). assert (Hk : p_kstack (proc_at p s') = kst) by exact (f_equal p_kstack Hproc).
  assert (Hg' : geom dv sb (disk_img (dev s'))).
  { apply (geom_fs dv sb ct); [done|done|]. intros b Hb. rewrite C1, disk_img_wr. apply wr_ct_lengths; [done|]. by apply G. }
  split; [exact N1|exact N2|exact Hg'| | | |exact R2|].
  - by apply (tree_fs dv sb ct).
  - rewrite C4. transitivity (KState.sb (fs s)); [by apply (view_sb _ _ _ _ _ _ _ _ _ _ V2)|done].
  - rewrite Hpid, C4, (view_ic _ _ _ _ _ _ _ _ _ _ V2). eapply icache_agree; [exact I2|]. intros j Hj. apply (same_fs_inode dv sb _ ct); [done|done|]. by eapply nd_place, tr_node, R2.
  - by rewrite Hk.
Qed.

(** The system at rest again, with the contents [ct] outside the log. *)
Definition rested (rc' : gmap bkey Z) (ct : disk) (s' : kstate) : Prop := exists L' hd', same_fs dv sb (disk_img (dev s')) ct /\ at_rest E h p sb s' W D L' hd' rc' /\ l_start L' = l_start L.

Lemma settled_rested rc' ct s' : settled rc' ct s' -> rested rc' ct s'.
Proof using Type. intros (Ws & L' & hd' & _ & H1 & _ & H2 & H3). by exists L', hd'. Qed.

Lemma rest_end_none s2 ct ic' rc' (Q : unit -> kstate -> Prop) : inop s2 ∅ ct ic' rc' None -> (forall s', dev s' = dev s -> rested rc' ct0 s' -> Q tt s') -> runE E (end_op dv) s2 Q.
Proof using All.
  intros O2 HQ. destruct (inop_end _ _ _ _ _ _ O2) as [Hst Hdev]. pose proof O2 as [V2 I2 G2 T2 R2 _]. pose proof Hrest as [Hq Hpl G T Hsb _ _ Hstk].
  eapply (runE_end_none E h p dv s L Hq s2 ct); [apply V2|done|done|]. intros s' L' Hd' Hct Hq' HL' Hfs Hpt. apply HQ; [done|]. exists L', hd.
  assert (Hproc : proc_core (proc_at p s') = proc_core (proc_at p s)).
  { transitivity (proc_core (proc_at p s2)); [symmetry; by apply pt_sim_proc|]. by apply (view_core _ _ _ _ _ _ _ _ _ _ V2). }
  assert (Hpid : p_pid (proc_at p s') = p_pid (proc_at p s)) by exact (f_equal p_pid Hproc). assert (Hk : p_kstack (proc_at p s') = kst) by exact (f_equal p_kstack Hproc).
  unfold ct0 in *. split; [by rewrite Hd'|]. split; [|exact HL']. subst ct. split; rewrite ?Hd', ?Hk, ?Hpid, ?Hfs; [exact Hq'| |exact G|exact T| | |exact R2|exact Hstk].
  - destruct Hpl as [P1 P2 P3 P4 P5 P6]. split; rewrite ?HL'; try done.
    + intros i Hi. unfold log_key. rewrite HL'. by apply P3.
    + unfold hdr_key. by rewrite HL'.
  - transitivity (KState.sb (fs s)); [by apply (view_sb _ _ _ _ _ _ _ _ _ _ V2)|done].
  - by rewrite (view_ic _ _ _ _ _ _ _ _ _ _ V2).
Qed.
End rest.

(** The tree is as before. *)
Record same_tree (dv : nat) (sb : superblock) (D : Z -> Prop) (ct ct' : disk) : Prop := {
  st_tree : tree dv sb ct' D;
  st_inodes : forall m, D m -> dfields (dino dv sb ct' m) = dfields (dino dv sb ct m);
  st_bytes : forall m, D m -> same_bytes dv ct ct' (dino dv sb ct m) (dino dv sb ct' m)
}.

(** Raising the count of [n] and lowering it again. *)
Lemma same_tree_intro dv sb D ct ct1 ct' n i1 i2 : let i1' := set_i_nlink (s16 (i_nlink i1 + 1)) i1 in let i2' := set_i_nlink (s16 (i_nlink i2 + -1)) i2 in
  tree dv sb ct D -> D n -> geom dv sb ct -> geom dv sb ct1 -> geom dv sb ct' -> 0 < i_nlink i1 < 2 ^ 15 - 1 ->
  changes dv sb ct ct1 D n i1 i1' -> (forall x, 0 <= x -> x / BSIZE < MAXFILE -> fbyte dv ct1 i1' x = fbyte dv ct i1 x) ->
  changes dv sb ct1 ct' D n i2 i2' -> (forall x, 0 <= x -> x / BSIZE < MAXFILE -> fbyte dv ct' i2' x = fbyte dv ct1 i2 x) -> same_tree dv sb D ct ct'.
Proof.
  intros i1' i2' T Hn G G1 G' Hnl C1 B1 C2 B2. pose proof (tree_changes dv sb ct ct1 D n i1 i1' T Hn G G1 C1) as T1.
  destruct (changed_fields dv sb ct ct1 D n i1 i1' T Hn G G1 C1) as [F1 F1']. destruct (changed_fields dv sb ct1 ct' D n i2 i2' T1 Hn G1 G' C2) as [F2 F2'].
  pose proof (dfields_eq _ _ F1) as (_ & _ & _ & A1). pose proof (dfields_eq _ _ F1') as (_ & N1' & _ & A1'). pose proof (dfields_eq _ _ F2) as (_ & N2 & _ & A2). pose proof (dfields_eq _ _ F2') as (_ & _ & _ & A2').
  assert (Hv : s16 (i_nlink i2 + -1) = i_nlink i1). { rewrite N2, <-N1'. cbn. rewrite s16_small by (rewrite s16_small; lia). rewrite s16_small by lia. lia. }
  split; [by eapply (tree_changes dv sb ct1 ct' D n i2 i2')| |]; intros m Hm; (destruct (decide (m = n)) as [->|Hmn]).
  - rewrite <-F2', <-F1. unfold i2'. rewrite Hv. rewrite (dfields_nlink _ i2 i1') by congruence. unfold i1'. by destruct i1.
  - rewrite (other_fields dv sb ct1 ct' D n i2 i2' T1 Hn G1 G' C2 m Hm Hmn). by apply (other_fields dv sb ct ct1 D n i1 i1').
  - intros x H1 H2. rewrite (fbyte_same dv ct' i2'), B2, (fbyte_same dv ct1 i1' i2), B1, (fbyte_same dv ct (dino dv sb ct n) i1) by congruence. done.
  - intros x H1 H2. rewrite (other_bytes dv sb ct1 ct' D n i2 i2' T1 Hn G1 G' C2 m Hm Hmn x H1 H2). by apply (other_bytes dv sb ct ct1 D n i1 i1').
Qed.

(** ** The system call *)

Section link.
Context (E : kstate -> kstate -> Prop) `{HE : !DiskEnv E} (h p : nat) (sb : superblock) (s : kstate) (W : Z -> Prop) (D : Z -> Prop) (L : logst) (hd : block).
Abbreviation dv := ROOTDEV.
Let ct0 := disk_img (dev s).
Let ic := icache (fs s).
Context (rc : gmap bkey Z) (old new : list Z) (so sn : Z).
Abbreviation dino := (dino dv sb ct0).
Context (Hrest : at_rest E h p sb s W D L hd rc).
Abbreviation inop := (inop E h p dv sb s W D).
Abbreviation settled := (settled E h p sb s W D L).
Context (Hold : start_at p dv s ic old so) (Hnew : start_at p dv s ic new sn) (Hso : D so) (Hsn : D sn).
Context (Hco : Forall is_char old) (Hcn : Forall is_char new) (Hroom : (size rc + 2 < NINODE)%nat).

Lemma start_mono ic' path m : (forall k x, slot ic k x -> slot ic' k x) -> start_at p dv s ic path m -> start_at p dv s ic' path m.
Proof using Type. unfold start_at. intros Hm. destruct (starts_with_slash path); [done|]. intros (c & Hc & Hs). exists c. split; [done|by apply Hm]. Qed.

(** *** Failures *)

Abbreviation rested := (rested E h p sb W D L).
Definition link_fails (r : Z) (s' : kstate) : Prop := r = -1 /\ exists ct, geom dv sb ct /\ same_tree dv sb D ct0 ct /\ rested rc ct s'.

Lemma same_tree_refl : same_tree dv sb D ct0 ct0.
Proof using Hrest. destruct Hrest as [_ _ G T _ _ _ _]. by split. Qed.

Lemma fails_none s2 ic' : inop s2 ∅ ct0 ic' rc None -> runE E (end_op ROOTDEV ;; ret (-1)) s2 link_fails.
Proof using Hrest.
  intros O2. apply runE_bind. eapply (rest_end_none E h p sb s W D L hd rc Hrest s2 ct0); [exact O2|]. intros s3 _ H3. wp. split; [done|].
  exists ct0. split_and!; [by destruct Hrest|apply same_tree_refl|done].
Qed.

(** Every call looks up old first. *)
Lemma runE_namei_old (R : option nat -> kstate -> Prop) :
  (forall s2 ic2, resolve dv sb ct0 so (elements old) = None -> inop s2 ∅ ct0 ic2 rc None -> R None s2) ->
  (forall ip n s2 ic2, resolve dv sb ct0 so (elements old) = Some n -> D n -> inop s2 ∅ ct0 ic2 (addref (dv, n) 1 rc) None -> slot ic2 ip (dv, n) ->
     (forall k m, slot ic k m -> slot ic2 k m) -> R (Some ip) s2) ->
  runE E (begin_op ROOTDEV) s (fun _ s1 => runE E (namei old) s1 R).
Proof using Hrest Hold Hso Hco Hroom.
  intros Hnone Hsome. pose proof Hrest as [Hq Hpl G T Hsb I Rf [Hk1 Hk2]].
  apply (runE_begin E h p dv sb s L hd Hq Hpl (rest_disk E h p sb s W D L hd rc Hrest)). intros s1 T1 Hlo. pose proof (rest_begin E h p sb s W D L hd rc Hrest s1 T1 Hlo) as O1.
  pose proof O1 as [V _ _ _ _ Gr]. unfold namei. apply runE_bind.
  eapply (runE_namex E h p dv sb s W Hk1 Hk2 Hsb ct0 D ∅ ic rc G T ltac:(rewrite size_empty; lia) ltac:(lia) I false old so); [exact V|exact Hold|done|done|].
  intros r s2 Hr. unfold named in Hr. rewrite walk_resolve in Hr. destruct (resolve dv sb ct0 so (elements old)) as [n|] eqn:Hn.
  - destruct Hr as (ip & name & -> & Hat & _). wp. assert (Dn : D n) by by eapply (resolve_tree dv sb ct0 D T (elements old) so n).
    destruct (inop_get E h p dv sb s W D n ∅ ct0 ic rc ip s2 Dn G T Rf Gr Hat) as (ic2 & O2 & S2 & K2). by apply (Hsome ip n s2 ic2).
  - destruct Hr as (-> & ic2 & V2 & I2 & _). wp. apply (Hnone s2 ic2); [done|]. by split.
Qed.

Lemma runE_lookup_old (f : option nat -> K Z) (R : Z -> kstate -> Prop) :
  (forall s2 ic2, resolve dv sb ct0 so (elements old) = None -> inop s2 ∅ ct0 ic2 rc None -> runE E (f None) s2 R) ->
  (forall ip n s2 ic2, resolve dv sb ct0 so (elements old) = Some n -> D n -> inop s2 ∅ ct0 ic2 (addref (dv, n) 1 rc) None -> slot ic2 ip (dv, n) ->
     (forall k m, slot ic k m -> slot ic2 k m) -> runE E (f (Some ip)) s2 R) ->
  runE E (begin_op ROOTDEV ;; r <- namei old ;; f r) s R.
Proof using Hrest Hold Hso Hco Hroom.
  intros Hnone Hsome. apply runE_bind. eapply runE_mono; [by apply (runE_namei_old (fun r s2 => runE E (f r) s2 R))|]. intros [] s1 H1. by apply runE_bind.
Qed.

(** The inode is locked and its type tested. *)
Lemma runE_lock_old ip n s2 ic2 (g : Z -> K Z) (R : Z -> kstate -> Prop) : inop s2 ∅ ct0 ic2 (addref (dv, n) 1 rc) None -> slot ic2 ip (dv, n) ->
  (forall s3 ic3 i, inop s3 ∅ ct0 ic3 (addref (dv, n) 1 rc) (Some ip) -> (forall k m, slot ic2 k m -> slot ic3 k m) -> ic3 !! ip = Some i -> 0 < i_ref i ->
     dfields i = dfields (dino n) -> runE E (g (i_type (dino n))) s3 R) ->
  runE E (ilock ip ;; ty <- gets (fun s => i_type (inode_at ip s)) ;; g ty) s2 R.
Proof using Hrest Hroom.
  intros O2 S2 Hg. pose proof Hrest as [_ _ _ _ Hsb _ _ _]. wp. eapply (runE_lock E h p dv sb s W D Hsb ip n); [exact O2|exact S2|rewrite size_empty; lia|]. intros s3 ic3 O3 K3. wp.
  destruct (locked_inode E h p dv sb s W D _ _ _ _ _ _ _ O3 (K3 _ _ S2)) as (i1 & Hi1 & _ & _ & _ & Hp1 & _ & Hdf). pose proof (dfields_eq _ _ Hdf) as (Ht & _).
  rewrite (view_at _ _ _ _ _ _ _ _ _ _ _ _ (op_view _ _ _ _ _ _ _ _ _ _ _ _ _ _ O3) Hi1), Ht. by apply (Hg s3 ic3 i1).
Qed.

(** old names nothing, or a directory. *)
Lemma runE_link_old : (forall n, resolve dv sb ct0 so (elements old) = Some n -> i_type (dino n) = T_DIR) -> runE E (link_paths old new) s link_fails.
Proof using All.
  intros Hbad. assert (Hcnt : counts rc) by (destruct Hrest as [_ _ _ _ _ I _ _]; by eapply icache_counts). unfold link_paths. apply runE_lookup_old.
  - intros s2 ic2 _ O2. by apply (fails_none s2 ic2).
  - intros ip n s2 ic2 Hn Dn O2 S2 _. eapply runE_lock_old; [exact O2|exact S2|]. intros s3 ic3 i O3 K3 _ _ _. rewrite (Hbad n Hn), Z.eqb_refl. apply runE_bind. unfold iunlockput. wp.
    eapply run_runE, (run_unlock E h p dv sb s W D ip n); [exact O3|by apply K3|]. intros s4 ic4 O4 K4. wp.
    eapply run_runE, (run_put E h p dv sb s W D ip n); [exact O4|by apply K4, K3|]. intros s5 ic5 O5 _. rewrite addref_drop in O5 by done. by apply (fails_none s5 ic5).
Qed.

Section target.
Context (n : Z) (Hn : resolve dv sb ct0 so (elements old) = Some n) (Hnt : i_type (dino n) <> T_DIR) (Hnl : 0 < i_nlink (dino n) < 2 ^ 15 - 1).

Lemma target_node : D n.
Proof using Hrest Hso Hn. destruct Hrest as [_ _ G T _ _ _ _]. by eapply (resolve_tree dv sb ct0 D T (elements old) so n). Qed.

(** The first half: the count of the target is raised. *)
Lemma runE_link_count (f : nat -> K Z) (R : Z -> kstate -> Prop) :
  (forall ip s2 lg ct1 ic2 i1, let i1' := set_i_nlink (s16 (i_nlink i1 + 1)) i1 in
     inop s2 lg ct1 ic2 (addref (dv, n) 1 rc) None -> slot ic2 ip (dv, n) -> (forall k m, slot ic k m -> slot ic2 k m) -> changes dv sb ct0 ct1 D n i1 i1' ->
     (forall x, 0 <= x -> x / BSIZE < MAXFILE -> fbyte dv ct1 i1' x = fbyte dv ct0 i1 x) -> nfree dv sb ct1 = nfree dv sb ct0 -> lg <> ∅ -> (size lg <= 1)%nat -> runE E (f ip) s2 R) ->
  runE E (begin_op ROOTDEV ;; r <- namei old ;;
    match r with
    | None => end_op ROOTDEV ;; ret (-1)
    | Some ip =>
    ilock ip ;;
    ty <- gets (fun s => i_type (inode_at ip s)) ;;
    if ty =? T_DIR then iunlockput ip ;; end_op ROOTDEV ;; ret (-1) else
    add_nlink ip 1 ;;
    iupdate ip ;;
    iunlock ip ;;
    f ip end) s R.
Proof using All.
  intros HR. pose proof (ar_sb _ _ _ _ _ _ _ _ _ _ Hrest) as Hsb. apply runE_lookup_old; [intros s2 ic2 Hno; congruence|].
  intros ip n' s2 ic2 Hn' Dn O2 S2 K2. assert (n' = n) as -> by congruence. eapply runE_lock_old; [exact O2|exact S2|]. intros s3 ic3 i1 O3 K3 Hi1 Hp1 Hdf.
  pose proof (dfields_eq _ _ Hdf) as (_ & Hl & _). destruct (Z.eqb_spec (i_type (dino n)) T_DIR); [done|].
  apply runE_bind. eapply runE_mono with (Q := fun _ s4 => runE E (iupdate ip) s4 (fun _ s5 => runE E (iunlock ip ;; f ip) s5 R)); [|intros [] s4 H4; by apply runE_bind].
  eapply (runE_nlink E h p dv sb s W D Hsb ip n i1 1); [exact O3|by apply K3|exact Hi1| |rewrite size_empty; lia|].
  { cbn. rewrite Hl, s16_small; lia. }
  intros s4 lg4 ct1 O4 C4 Hne4 Hlg4 B4 Z4. set (i1' := set_i_nlink _ i1) in *.
  assert (S4 : forall k m, slot ic3 k m -> slot (<[ip := i1']> ic3) k m) by (eapply slot_insert; [exact Hi1|done|exact Hp1]).
  wp. eapply run_runE, (run_unlock E h p dv sb s W D ip n); [exact O4|by apply S4, K3|]. intros s5 ic5 O5 K5. eapply (HR ip s5 lg4 ct1 ic5 i1); try done.
  - by apply K5, S4, K3.
  - intros k m Hm. by apply K5, S4, K3, K2.
Qed.

(** The directories are as before after that. *)
Lemma count_kept ct1 i1 i1' : geom dv sb ct1 -> changes dv sb ct0 ct1 D n i1 i1' ->
  (forall m, D m -> i_type (Icache.dino dv sb ct1 m) = i_type (dino m)) /\
  (forall m, D m -> i_type (dino m) = T_DIR -> dents dv ct1 (Icache.dino dv sb ct1 m) = dents dv ct0 (dino m)).
Proof using All.
  intros G1 C1. pose proof target_node as Dn. pose proof Hrest as [_ _ G T _ _ _ _]. split; intros m Hm.
  - destruct (decide (m = n)) as [->|Hmn]; [|by destruct (dfields_eq _ _ (other_fields dv sb ct0 ct1 D n i1 i1' T Dn G G1 C1 m Hm Hmn)) as (? & _)].
    destruct (changed_fields dv sb ct0 ct1 D n i1 i1' T Dn G G1 C1) as [F1 F2]. destruct (dfields_eq _ _ F1) as (<- & _). destruct (dfields_eq _ _ F2) as (<- & _). apply C1.
  - intros Hm'. apply (other_dents dv sb ct0 ct1 D n i1 i1'); try done. congruence.
Qed.

Lemma count_walk ct1 i1 i1' : geom dv sb ct1 -> changes dv sb ct0 ct1 D n i1 i1' -> walk dv sb ct1 true sn (elements new) = walk dv sb ct0 true sn (elements new).
Proof using All.
  intros G1 C1. destruct (count_kept ct1 i1 i1' G1 C1) as [Hty Hde]. pose proof (ar_tree _ _ _ _ _ _ _ _ _ _ Hrest) as T. rewrite !walk_parent. f_equal. unfold resolve_parent.
  destruct (last (elements new)); [|done]. rewrite (resolve_same dv sb ct0 ct1 D T Hty Hde) by done.
  destruct (resolve dv sb ct0 sn (removelast (elements new))) as [d|] eqn:Hr; [|done]. rewrite Hty; [done|]. by eapply (resolve_tree dv sb ct0 D T (removelast (elements new)) sn d).
Qed.

(** *** Taking the count back *)

Lemma runE_bad ip s2 lg ct1 ic2 i1 : let i1' := set_i_nlink (s16 (i_nlink i1 + 1)) i1 in
  inop s2 lg ct1 ic2 (addref (dv, n) 1 rc) None -> slot ic2 ip (dv, n) -> changes dv sb ct0 ct1 D n i1 i1' ->
  (forall x, 0 <= x -> x / BSIZE < MAXFILE -> fbyte dv ct1 i1' x = fbyte dv ct0 i1 x) -> lg <> ∅ -> (size lg <= 1)%nat -> runE E (sys_link_bad ip) s2 link_fails.
Proof using All.
  intros i1' O2 S2 C1 B1 Hne Hlg. pose proof target_node as Dn. pose proof Hrest as [_ _ G T Hsb I _ _]. assert (Hcnt : counts rc) by by eapply icache_counts.
  unfold sys_link_bad. apply runE_bind. eapply (runE_lock E h p dv sb s W D Hsb ip n); [exact O2|exact S2|lia|]. intros s3 ic3 O3 K3.
  destruct (locked_inode E h p dv sb s W D _ _ _ _ _ _ _ O3 (K3 _ _ S2)) as (i2 & Hi2 & _ & _ & _ & Hp2 & _ & Hdf2). pose proof O2 as [_ _ G1 _ _ _].
  destruct (changed_fields dv sb ct0 ct1 D n i1 i1' T Dn G G1 C1) as [F1 F1']. pose proof (dfields_eq _ _ F1) as (_ & N1 & _ & _).
  assert (N2 : i_nlink i2 = i_nlink (dino n) + 1). { pose proof (dfields_eq _ _ Hdf2) as (_ & -> & _ & _). pose proof (dfields_eq _ _ F1') as (_ & <- & _ & _). change (s16 (i_nlink i1 + 1) = i_nlink (dino n) + 1). rewrite s16_small; lia. }
  apply runE_bind. eapply runE_mono with (Q := fun _ s4 => runE E (iupdate ip) s4 (fun _ s5 => runE E (iunlockput ip ;; end_op ROOTDEV ;; ret (-1)) s5 link_fails)); [|intros [] s4 H4; by apply runE_bind].
  eapply (runE_nlink E h p dv sb s W D Hsb ip n i2 (-1)); [exact O3|by apply K3|exact Hi2| |lia|].
  { cbn. rewrite s16_small; lia. }
  intros s4 lg4 ct2 O4 C2 Hne4 Hlg4 B2 _. set (i2' := set_i_nlink _ i2) in *. apply runE_bind. unfold iunlockput. wp.
  assert (S4 : slot (<[ip := i2']> ic3) ip (dv, n)) by (apply (slot_insert ic3 ip i2 i2'); [exact Hi2|done|exact Hp2|by apply K3]).
  eapply run_runE, (run_unlock E h p dv sb s W D ip n); [exact O4|exact S4|]. intros s5 ic5 O5 K5. wp.
  eapply run_runE, (run_put E h p dv sb s W D ip n); [exact O5|by apply K5|]. intros s6 ic6 O6 _. rewrite addref_drop in O6 by done. wp.
  eapply (rest_end E h p sb s W D L hd rc Hrest s6 lg4 ct2); [exact O6|done|lia|]. intros s7 Hset. wp. split; [done|]. exists ct2.
  split_and!; [by destruct O6| |by eapply settled_rested]. apply (same_tree_intro dv sb D ct0 ct1 ct2 n i1 i2 T Dn); try done; [by destruct O6|lia].
Qed.

(** The new path has no parent directory. *)
Lemma runE_link_parent : resolve_parent dv sb ct0 sn (elements new) = None -> runE E (link_paths old new) s link_fails.
Proof using All.
  intros Hnp. pose proof Hrest as [_ _ _ _ Hsb I _ [Hk1 Hk2]]. unfold link_paths. apply (runE_link_count (fun ip => r <- nameiparent new ;; _)).
  intros ip s2 lg ct1 ic2 i1 i1' O2 S2 K2 C1 B1 _ Hne Hlg. pose proof O2 as [V2 I2 G1 T1' R2 Gr2]. pose proof (size_addref (dv, n) 1 rc).
  apply runE_bind. unfold nameiparent.
  eapply (runE_namex E h p dv sb s W Hk1 Hk2 Hsb ct1 D lg ic2 (addref (dv, n) 1 rc) G1 T1' ltac:(lia) ltac:(lia) I2 true new sn); [exact V2|by eapply start_mono|done|done|].
  intros r s3 Hr. unfold named in Hr. rewrite (count_walk ct1 i1 i1' G1 C1), walk_parent, Hnp in Hr. destruct Hr as (-> & ic3 & V3 & I3 & K3).
  apply (runE_bad ip s3 lg ct1 ic3 i1); try done. by apply K3.
Qed.

(** *** The new name *)

Section entry.
Context (d : Z) (e : list Z) (Hpar : resolve_parent dv sb ct0 sn (elements new) = Some (d, e)).

Lemma parent_node : D d /\ n <> d /\ i_type (dino d) = T_DIR.
Proof using Hrest Hsn Hpar Hnt.
  destruct Hrest as [_ _ G T _ _ _ _]. destruct (resolve_parent_some _ _ _ _ _ _ _ Hpar) as (es & _ & Hr & Hty). split_and!; [by eapply (resolve_tree dv sb ct0 D T es sn d)| |done].
  intros E0. apply Hnt. by rewrite E0.
Qed.

(** The path of the new name leads to the same directory after that. *)
Lemma link_walk ct1 i1 i1' : geom dv sb ct1 -> changes dv sb ct0 ct1 D n i1 i1' ->
  walk dv sb ct1 true sn (elements new) = Some (d, Some e) /\ (forall e', dir_find dv ct1 (Icache.dino dv sb ct1 d) e' = dir_find dv ct0 (dino d) e') /\
  i_size (Icache.dino dv sb ct1 d) = i_size (dino d) /\ i_type (Icache.dino dv sb ct1 d) = T_DIR.
Proof using All.
  intros G1 C1. pose proof target_node as Dn. destruct parent_node as (Dd & Hnd & Hdt). pose proof Hrest as [_ _ G T _ _ _ _]. destruct (count_kept ct1 i1 i1' G1 C1) as [Hty Hde]. split_and!.
  - by rewrite (count_walk ct1 i1 i1' G1 C1), walk_parent, Hpar.
  - intros e'. unfold dir_find. by rewrite Hde.
  - by destruct (dfields_eq _ _ (other_fields dv sb ct0 ct1 D n i1 i1' T Dn G G1 C1 d Dd (not_eq_sym Hnd))) as (_ & _ & ? & _).
  - by rewrite Hty.
Qed.

(** Up to the call of dirlink. *)
Lemma runE_link_entry (g : nat -> nat -> Z -> K Z) (R : Z -> kstate -> Prop) :
  (forall ip dp name s4 lg ct1 ic4 i1 i2, let i1' := set_i_nlink (s16 (i_nlink i1 + 1)) i1 in
     inop s4 lg ct1 ic4 (addref (dv, d) 1 (addref (dv, n) 1 rc)) (Some dp) -> slot ic4 dp (dv, d) -> slot ic4 ip (dv, n) -> ic4 !! dp = Some i2 -> 0 < i_ref i2 ->
     cname (get_bytes 14 name 0) = e -> changes dv sb ct0 ct1 D n i1 i1' -> (forall x, 0 <= x -> x / BSIZE < MAXFILE -> fbyte dv ct1 i1' x = fbyte dv ct0 i1 x) ->
     nfree dv sb ct1 = nfree dv sb ct0 -> lg <> ∅ -> (size lg <= 1)%nat -> runE E (dirlink dp name n) s4 (fun r s5 => runE E (g ip dp r) s5 R)) ->
  runE E (begin_op ROOTDEV ;; r <- namei old ;;
    match r with
    | None => end_op ROOTDEV ;; ret (-1)
    | Some ip =>
    ilock ip ;;
    ty <- gets (fun s => i_type (inode_at ip s)) ;;
    if ty =? T_DIR then iunlockput ip ;; end_op ROOTDEV ;; ret (-1) else
    add_nlink ip 1 ;;
    iupdate ip ;;
    iunlock ip ;;
    r <- nameiparent new ;;
    match r with
    | None => sys_link_bad ip
    | Some (dp, name) =>
    ilock dp ;;
    i <- gets (inode_at ip) ;;
    d <- gets (inode_at dp) ;;
    r <- (if negb (i_dev d =? i_dev i)%nat then ret (-1) else dirlink dp name (i_inum i)) ;;
    g ip dp r end end) s R.
Proof using All.
  intros HR. destruct parent_node as (Dd & Hnd & Hdt). pose proof Hrest as [_ _ _ _ Hsb _ _ [Hk1 Hk2]]. apply (runE_link_count (fun ip => r <- nameiparent new ;; _)).
  intros ip s2 lg ct1 ic2 i1 i1' O2 S2 K2 C1 B1 Z1 Hne Hlg. pose proof O2 as [V2 I2 G1 T1' R2 Gr2].
  destruct (link_walk ct1 i1 i1' G1 C1) as (Hw & _). pose proof (size_addref (dv, n) 1 rc). set (rc1 := addref (dv, n) 1 rc) in *. apply runE_bind. unfold nameiparent.
  eapply (runE_namex E h p dv sb s W Hk1 Hk2 Hsb ct1 D lg ic2 rc1 G1 T1' ltac:(lia) ltac:(lia) I2 true new sn); [exact V2|by eapply start_mono|done|done|].
  intros r s3 Hr. unfold named in Hr. rewrite Hw in Hr. destruct Hr as (dp & name & -> & Hat & Hname). specialize (Hname e eq_refl).
  destruct (inop_get E h p dv sb s W D d lg ct1 ic2 rc1 dp s3 Dd G1 T1' R2 Gr2 Hat) as (ic3 & O3 & S3 & K3). wp.
  eapply (runE_lock E h p dv sb s W D Hsb dp d); [exact O3|exact S3|lia|]. intros s4 ic4 O4 K4. wp.
  destruct (locked_inode E h p dv sb s W D _ _ _ _ _ _ _ O4 (K4 _ _ S3)) as (i2 & Hi2 & _ & _ & Hdv2 & Hp2 & _ & _).
  destruct (K4 _ _ (K3 _ _ S2)) as (j & Hj & Hkj & Hpj). injection Hkj as Hdj Hij. pose proof (op_view _ _ _ _ _ _ _ _ _ _ _ _ _ _ O4) as V4.
  rewrite (view_at _ _ _ _ _ _ _ _ _ _ _ _ V4 Hi2), (view_at _ _ _ _ _ _ _ _ _ _ _ _ V4 Hj), Hdv2, Hdj, Nat.eqb_refl, Hij. cbn [negb].
  refine (HR ip dp name s4 lg ct1 ic4 i1 i2 O4 _ _ Hi2 Hp2 Hname C1 B1 Z1 Hne Hlg); [by apply K4|by apply K4, K3].
Qed.

(** The name exists. *)
Lemma runE_link_exists m off : dir_find dv ct0 (dino d) e = Some (m, off) -> runE E (link_paths old new) s link_fails.
Proof using All.
  intros Hf. destruct parent_node as (Dd & Hnd & _). pose proof Hrest as [_ _ _ _ Hsb I _ [Hk1 Hk2]]. assert (Hcnt : counts rc) by by eapply icache_counts.
  unfold link_paths. apply (runE_link_entry (fun ip dp r => _)). intros ip dp name s4 lg ct1 ic4 i1 i2 i1' O4 Sd Sn Hi2 _ Hname C1 B1 _ Hne Hlg.
  destruct (link_walk ct1 i1 i1' ltac:(by destruct O4) C1) as (_ & Hfind & _ & Hty). pose proof (size_addref (dv, n) 1 rc). pose proof (size_addref (dv, d) 1 (addref (dv, n) 1 rc)).
  eapply (runE_no_entry E h p dv sb s W D Hk1 Hk2 Hsb dp name n d i2 m off); [exact O4|exact Sd|exact Hi2|exact Hty|by rewrite Hname, Hfind|lia|lia|]. intros s5 ic5 O5 K5.
  change (-1 <? 0) with true. cbv iota. apply runE_bind. unfold iunlockput. wp.
  eapply run_runE, (run_unlock E h p dv sb s W D dp d); [exact O5|by apply K5|]. intros s6 ic6 O6 K6. wp.
  eapply run_runE, (run_put E h p dv sb s W D dp d); [exact O6|by apply K6, K5|]. intros s7 ic7 O7 K7. rewrite addref_drop in O7 by by apply counts_addref. wp.
  apply (runE_bad ip s7 lg ct1 ic7 i1); try done. apply K7; [by apply K6, K5|left; congruence].
Qed.

Context (Hnone : dir_find dv ct0 (dino d) e = None) (Hfree : (2 <= nfree dv sb ct0)%nat) (Hsz : i_size (dino d) + 16 <= MAXFILE * BSIZE).

(** What the call leaves. *)
Definition link_done (r : Z) (s' : kstate) : Prop := r = 0 /\ exists ct, geom dv sb ct /\ link_spec dv sb D ct0 ct n d e /\ settled rc ct s'.

Lemma runE_link_end ip dp s5 lg ct1 ct2 ic5 i1 i2 i2' : let i1' := set_i_nlink (s16 (i_nlink i1 + 1)) i1 in let rc1 := addref (dv, n) 1 rc in
  inop s5 lg ct2 ic5 (addref (dv, d) 1 rc1) (Some dp) -> slot ic5 dp (dv, d) -> slot ic5 ip (dv, n) -> geom dv sb ct1 ->
  changes dv sb ct0 ct1 D n i1 i1' -> (forall x, 0 <= x -> x / BSIZE < MAXFILE -> fbyte dv ct1 i1' x = fbyte dv ct0 i1 x) ->
  changes dv sb ct1 ct2 D d i2 i2' -> dents dv ct2 i2' = add_ent (n, e) (dents dv ct1 i2) -> i_nlink i2' = i_nlink i2 -> lg <> ∅ -> (size lg <= 29)%nat ->
  runE E (iunlockput dp ;; iput ip ;; end_op ROOTDEV ;; ret 0) s5 link_done.
Proof using All.
  intros i1' rc1 O5 Sd Sn G1 C1 B1 C2 Hde Hnl2 Hne Hlg. pose proof target_node as Dn. destruct parent_node as (Dd & Hnd & Hdt). pose proof Hrest as [_ _ G T Hsb I Rf _].
  assert (Hcnt : counts rc) by by eapply icache_counts. apply runE_bind. unfold iunlockput. wp.
  eapply run_runE, (run_unlock E h p dv sb s W D dp d); [exact O5|exact Sd|]. intros s6 ic6 O6 K6. wp.
  eapply run_runE, (run_put E h p dv sb s W D dp d); [exact O6|by apply K6|]. intros s7 ic7 O7 K7. rewrite addref_drop in O7 by by apply counts_addref. wp.
  eapply run_runE, (run_put E h p dv sb s W D ip n); [exact O7|apply K7; [by apply K6|left; congruence]|]. intros s8 ic8 O8 K8. unfold rc1 in O8. rewrite addref_drop in O8 by done. wp.
  pose proof O8 as [V8 I8 G8 T8 _ Gr8]. eapply (rest_end E h p sb s W D L hd rc Hrest s8 lg ct2); [exact O8|done|done|]. intros s9 Hset. wp.
  split; [done|]. exists ct2. split_and!; [done| |exact Hset]. by eapply (link_spec_intro dv sb D ct0 ct2 n d e T Dn Dd Hnd ct1 i1 i2 i2').
Qed.

Lemma runE_link : runE E (link_paths old new) s link_done.
Proof using All.
  pose proof target_node as Dn. destruct parent_node as (Dd & Hnd & Hdt). pose proof Hrest as [Hq Hpl G T Hsb I Rf [Hk1 Hk2]]. assert (Hcnt : counts rc) by by eapply icache_counts.
  unfold link_paths. apply (runE_link_entry (fun ip dp r => _)). intros ip dp name s4 lg ct1 ic4 i1 i2 i1' O4 Sd Sn Hi2 Hp2 Hname C1 B1 Z1 Hne Hlg.
  destruct (link_walk ct1 i1 i1' ltac:(by destruct O4) C1) as (_ & Hfind & Hsz1 & Hty). pose proof (size_addref (dv, n) 1 rc). pose proof (size_addref (dv, d) 1 (addref (dv, n) 1 rc)).
  eapply (runE_add_entry E h p dv sb s W D Hk1 Hk2 Hsb dp name n d i2); [exact O4|exact Sd|exact Hi2|done|done|by rewrite Hname, Hfind|lia|lia|lia|lia|].
  rewrite Hname. intros s5 lg5 ct2 i2' O5 C2 Hde Hne5 Hlg5 (al & z & Hi2'). change (0 <? 0) with false. cbv iota.
  assert (K5 : forall k m, slot ic4 k m -> slot (<[dp := i2']> ic4) k m) by (eapply slot_insert; [exact Hi2|by subst i2'|by subst i2']).
  eapply (runE_link_end ip dp s5 lg5 ct1 ct2 _ i1 i2 i2'); [exact O5|by apply K5|by apply K5|by destruct O4|done|done|done|done|by subst i2'|done|lia].
Qed.
End entry.
End target.
End link.

End Link.
