(* ===== verification/PathNames.v ===== *)
(** * Path names and links on the virtio disk

    The theorems about the directory tree: what namei() finds, what link()
    does to the tree, and what remains of it after a crash, stated for the
    driver of virtio_disk.c and any device that satisfies [BlockDevice], with
    a small tree on a concrete machine on which their hypotheses hold. *)

From S2P Require Import Prelude Bytes CString KState Spinlock Kernel Riscv Machine Kalloc Vm Sched Console Virtio Disk Bio Cache Log Commit Transaction VirtioRefine Crash Fs Tx Balloc Dinode Inode FileIO Atomic FileSystem Icache Dir DirProof Tree Pipe File Proc Exec Sysfile Link.

Module PathNames.
Import Vm Sched Virtio Disk Bio Cache Log Commit Transaction VirtioRefine Machine Crash Fs Tx Balloc Dinode Inode FileIO Atomic FileSystem Icache Dir DirProof Tree Sysfile Link.

(** ** Trees on disks that agree outside the log *)

Section agree.
Context (dv : nat) (sb : superblock) (D : Z -> Prop) (d0 ct d : disk) (Hg : geom dv sb ct) (Hs : same_fs dv sb d ct).

Lemma same_tree_fs : same_tree dv sb D d0 ct -> same_tree dv sb D d0 d.
Proof using Hg Hs.
  intros [T F B]. pose proof (node_fs dv sb ct d D Hg Hs T) as Hn. split; [by apply (tree_fs dv sb ct)| |].
  - intros m Hm. destruct (Hn m Hm) as (-> & _). by apply F.
  - intros m Hm x H1 H2. destruct (Hn m Hm) as (-> & _ & _ & Hb). rewrite Hb by done. by apply B.
Qed.

Lemma link_spec_fs n k e : D n -> D k -> i_type (dino dv sb d0 k) = T_DIR -> link_spec dv sb D d0 ct n k e -> link_spec dv sb D d0 d n k e.
Proof using Hg Hs.
  intros Dn Dk Hty [T L3 L4 [L5 L5'] L6 L7]. pose proof (node_fs dv sb ct d D Hg Hs T) as Hn. split; [by apply (tree_fs dv sb ct)|..].
  - intros e'. unfold dir_find. rewrite (dents_fs dv sb ct d D Hg Hs T k) by congruence. apply L3.
  - destruct (Hn n Dn) as (-> & _). done.
  - destruct (Hn k Dk) as (-> & _). done.
  - intros m Hm H1 H2. destruct (Hn m Hm) as (-> & _). by apply L6.
  - intros m Hm H1 x H2 H3. destruct (Hn m Hm) as (-> & _ & _ & Hb). rewrite Hb by done. by apply L7.
Qed.
End agree.

Lemma same_tree_self dv sb D d0 : tree dv sb d0 D -> same_tree dv sb D d0 d0.
Proof. intros T. by split. Qed.

Section theorems.
Context (device : nat -> kstate -> kstate -> Prop) `{HD : !BlockDevice device} (A : nat -> Z) (W : Z -> Prop).
Abbreviation E := (env device).
#[local] Instance path_disk_env : DiskEnv E := driver_DiskEnv device A W.
Context (h p : nat) (sb : superblock) (s : kstate) (D : Z -> Prop) (L : logst) (hd : block) (rc : gmap bkey Z).
Abbreviation dv := ROOTDEV.
Abbreviation d0 := (disk_img (dev s)).
Abbreviation at_rest := (at_rest E h p sb).
Abbreviation start_at := (start_at p dv s (icache (fs s))).

(** C17: namei() finds the inode a path leads to.  From the root or the
    current directory, as the path begins, it looks up one name after the
    other, cutting names to 14 bytes and skipping repeated slashes; it returns
    a cache entry of the inode with one more reference, and null, with every
    reference as before, if a name is missing or a directory on the way is
    none.  No block changes. *)
Theorem namei_correct path n0 :
  at_rest s W D L hd rc -> start_at path n0 -> D n0 -> Forall is_char path -> (size rc + 2 < NINODE)%nat ->
  runE E (begin_op dv ;; namei path) s (fun r s' => exists ic',
    match resolve dv sb d0 n0 (elements path) with
    | Some n => exists ip, r = Some ip /\ D n /\ slot ic' ip (dv, n) /\ inop E h p dv sb s W D s' ∅ d0 ic' (addref (dv, n) 1 rc) None
    | None => r = None /\ inop E h p dv sb s W D s' ∅ d0 ic' rc None
    end).
Proof.
  intros Hr Hst Dn0 Hc Hroom. apply runE_bind. eapply (runE_namei_old E h p sb s W D L hd rc path n0); try eassumption.
  - intros s2 ic2 Hn O2. exists ic2. by rewrite Hn.
  - intros ip n s2 ic2 Hn Dn O2 S2 _. exists ic2. rewrite Hn. by exists ip.
Qed.

(** C3: link() is atomic and does what it says.  If old leads to a file with
    room in its link count, new to a missing name in a directory, and the disk
    has room, the call returns 0; the disk then holds the same tree except that
    the new name leads to the file and its link count is one higher ([link_spec]:
    all other names, inodes and file contents are unchanged), all references
    taken on the way are given back and the system is at rest again.  After a
    crash between any two of the disk writes, recovery finds the old tree or
    the new one: never a link count without its name or the reverse. *)
Theorem link_atomic old new so sn n d e :
  at_rest s W D L hd rc -> start_at old so -> start_at new sn -> D so -> D sn -> Forall is_char old -> Forall is_char new -> (size rc + 2 < NINODE)%nat ->
  resolve dv sb d0 so (elements old) = Some n -> i_type (dino dv sb d0 n) <> T_DIR -> 0 < i_nlink (dino dv sb d0 n) < 2 ^ 15 - 1 ->
  resolve_parent dv sb d0 sn (elements new) = Some (d, e) -> dir_find dv d0 (dino dv sb d0 d) e = None ->
  (2 <= nfree dv sb d0)%nat -> i_size (dino dv sb d0 d) + 16 <= MAXFILE * BSIZE ->
  runE E (link_paths old new) s (fun r s' => exists L' hd' Ws,
    r = 0 /\ link_spec dv sb D d0 (disk_img (dev s')) n d e /\ at_rest s' W D L' hd' rc /\
    resolve dv sb (disk_img (dev s')) sn (elements new) = Some n /\ dev s' = wr_dev Ws (dev s) /\
    forall pre, pre `prefix_of` Ws -> forall h' p' s2,
      fresh_boot E h' p' dv (l_start L) s2 -> disk_img (dev s2) = wr_ct pre d0 ->
      runE E (recover_from_log dv) s2 (fun _ s3 =>
        same_tree dv sb D d0 (disk_img (dev s3)) \/ link_spec dv sb D d0 (disk_img (dev s3)) n d e)).
Proof.
  intros Hr Hso Hsn Dso Dsn Hco Hcn Hroom Hn Hnt Hnl Hpar Hnone Hfree Hsz. pose proof Hr as [_ _ G T _ _ _ _].
  destruct (resolve_parent_some _ _ _ _ _ _ _ Hpar) as (es & _ & Hd & Hdt). pose proof (resolve_tree dv sb d0 D T _ _ _ Dso Hn) as Dn. pose proof (resolve_tree dv sb d0 D T _ _ _ Dsn Hd) as Dd.
  assert (Hnd : n <> d) by congruence.
  eapply runE_mono; [eapply (runE_link E h p sb s W D L hd rc old new so sn); eassumption|]. intros r s' (-> & ct & Gc & HL & Ws & L' & hd' & H1 & H2 & H3 & H4 & _). exists L', hd', Ws.
  pose proof (link_spec_fs dv sb D d0 ct _ Gc H2 n d e Dn Dd Hdt HL) as HL'. split_and!; try done.
  - destruct (link_resolves dv sb D d0 (disk_img (dev s')) n d e T Dn Dd Hnd HL' Hnone) as [_ Hres]. by apply (Hres (elements new) sn).
  - intros pre Hpre h' p' s2 Hb Hd2. eapply runE_mono; [by apply (H3 pre Hpre h' p')|]. intros _ s3 [Hx|Hx]; [left|right].
    + by eapply (same_tree_fs dv sb D d0 d0), same_tree_self.
    + by apply (link_spec_fs dv sb D d0 ct).
Qed.

(** C18: link() that fails changes nothing.  If old leads nowhere or to a
    directory, or new has no parent directory or exists, the call returns -1;
    the tree on the disk is the same, also where the link count had already
    been raised, every reference is given back and the system is at rest. *)
Theorem link_refused old new so sn :
  at_rest s W D L hd rc -> start_at old so -> start_at new sn -> D so -> D sn -> Forall is_char old -> Forall is_char new -> (size rc + 2 < NINODE)%nat ->
  match resolve dv sb d0 so (elements old) with
  | None => True
  | Some n => i_type (dino dv sb d0 n) = T_DIR \/ 0 < i_nlink (dino dv sb d0 n) < 2 ^ 15 - 1 /\
      match resolve_parent dv sb d0 sn (elements new) with
      | None => True
      | Some (d, e) => dir_find dv d0 (dino dv sb d0 d) e <> None
      end
  end ->
  runE E (link_paths old new) s (fun r s' => r = -1 /\ same_tree dv sb D d0 (disk_img (dev s')) /\ exists L' hd', at_rest s' W D L' hd' rc).
Proof.
  intros Hr Hso Hsn Dso Dsn Hco Hcn Hroom Hbad. apply runE_mono with (Q := link_fails E h p sb s W D L rc).
  - destruct (resolve dv sb d0 so (elements old)) as [n|] eqn:Hn; [|eapply (runE_link_old E h p sb s W D L hd rc old new so sn); try eassumption; congruence].
    destruct (decide (i_type (dino dv sb d0 n) = T_DIR)) as [Hty|Hty]; [eapply (runE_link_old E h p sb s W D L hd rc old new so sn); try eassumption; congruence|].
    destruct Hbad as [?|[Hnl Hbad]]; [done|]. destruct (resolve_parent dv sb d0 sn (elements new)) as [[d e]|] eqn:Hpar; [|by eapply (runE_link_parent E h p sb s W D L hd rc old new so sn)].
    destruct (dir_find dv d0 (dino dv sb d0 d) e) as [[m off]|] eqn:Hf; [|done]. by eapply (runE_link_exists E h p sb s W D L hd rc old new so sn).
  - intros r s' (-> & ct & Gc & HS & L' & hd' & H2 & H3 & _). split; [done|]. split; [by eapply (same_tree_fs dv sb D d0 ct)|by exists L', hd'].
Qed.
End theorems.

(** ** A small tree

    Disk 0, laid out as the disk of FileSystem: the root directory, inode 1,
    in block 41, and the file "hi", inode 2, with "hello" in block 40. *)

Definition root : inode := mkInode 0 1 0 (mkSleep false 0) true T_DIR 0 0 1 48 (41 :: replicate 12 0).
Definition hi : inode := mkInode 0 2 0 (mkSleep false 0) true 2 0 0 1 5 (40 :: replicate 12 0).
Definition entry (inum : Z) (name : list Z) : list Z := [inum; 0] ++ name ++ replicate (14 - length name) 0.
Definition dot : list Z := [46].
Definition dotdot : list Z := [46; 46].
Definition name_hi : list Z := [104; 105].
Definition name_yo : list Z := [121; 111].
Definition path_hi : list Z := slash :: name_hi.
Definition path_yo : list Z := slash :: slash :: name_yo.

Definition bitmap0 : block := set_bytes zero_block 0 [255; 255; 255; 255; 3; 3].
Definition treeblk (b : Z) : block :=
  if b =? 32 then store_dinode (store_dinode zero_block 64 root) 128 hi else if b =? 33 then bitmap0
  else if b =? 40 then set_bytes zero_block 0 hello
  else if b =? 41 then set_bytes zero_block 0 (entry 1 dot ++ entry 1 dotdot ++ entry 2 name_hi) else zero_block.
Definition treedisk : disk := list_to_map ((fun i => ((0%nat, Z.of_nat i), treeblk (Z.of_nat i))) <$> seq 0 64).
Definition nodes (n : Z) : Prop := n = 1 \/ n = 2.

Lemma lookup_treedisk z : 0 <= z < 64 -> treedisk !! (0%nat, z) = Some (treeblk z).
Proof.
  intros Hz. apply elem_of_list_to_map_1.
  - rewrite <-list_fmap_compose. apply NoDup_fmap_2_strong; [|apply NoDup_seq]. intros i j _ _ [= Heq]. lia.
  - apply list_elem_of_fmap. exists (Z.to_nat z). rewrite Z2Nat.id by lia. split; [done|]. apply elem_of_seq. lia.
Qed.
Lemma small_treedisk : small_disk treedisk.
Proof.
  intros n bn [x Hx]. apply elem_of_list_to_map_2, list_elem_of_fmap in Hx as (i & [= -> ->] & Hi%elem_of_seq). lia.
Qed.
Lemma length_treeblk b : length (treeblk b) = 1024%nat.
Proof. unfold treeblk. repeat case_match; by vm_compute. Qed.
#[local] Opaque treedisk.

Lemma used_treedisk b : 0 <= b < 64 -> used 0 sb1 treedisk b = bit bitmap0 b.
Proof.
  intros Hb. unfold used, BBLOCK. rewrite Z.div_small, Z.mod_small by lia. change (u32 (0 + sb_bmapstart sb1)) with 33.
  by rewrite lookup_treedisk by lia.
Qed.

Lemma geom_treedisk : geom 0 sb1 treedisk.
Proof.
  split; try (cbn; lia).
  - split; [cbn; lia|]. by vm_compute.
  - intros b Hb. exists (treeblk b). rewrite lookup_treedisk by (cbn in Hb; lia). split; [done|apply length_treeblk].
  - intros b Hb. change (bmap_end sb1) with 33 in Hb. rewrite used_treedisk by lia.
    assert (Hall : Forall (fun b => bit bitmap0 b = true) (seqZ 0 34)) by (apply (bool_decide_unpack _); by vm_compute).
    rewrite Forall_forall in Hall. apply Hall, elem_of_seqZ. lia.
Qed.

Lemma dino_root : dino 0 sb1 treedisk 1 = root.
Proof. unfold dino. change (IBLOCK 1 sb1) with 32. rewrite lookup_treedisk by lia. by vm_compute. Qed.
Lemma dino_hi : dino 0 sb1 treedisk 2 = hi.
Proof. unfold dino. change (IBLOCK 2 sb1) with 32. rewrite lookup_treedisk by lia. by vm_compute. Qed.

Lemma dents_root : dents 0 treedisk root = [(1, dot); (1, dotdot); (2, name_hi)].
Proof. by vm_compute. Qed.

Lemma good_treedisk a : a = 40 \/ a = 41 -> good 0 sb1 treedisk a.
Proof. intros Ha. split; [cbn; lia|]. rewrite used_treedisk by lia. destruct Ha as [->| ->]; split; by vm_compute. Qed.

Lemma blk_one dv ct i a b : i_addrs i = a :: replicate 12 0 -> b <> 0 -> blk_of dv ct i b -> b = a.
Proof.
  intros Ha Hb [->|(bn & Hbn & ->)]; [exfalso; apply Hb; unfold ind; by rewrite Ha|]. rewrite (fblk_one dv ct i a) in * by (done || lia). by destruct (bn =? 0).
Qed.

Lemma tree_treedisk : tree 0 sb1 treedisk nodes.
Proof.
  split.
  - intros n [->| ->]; split; rewrite ?dino_root, ?dino_hi; try done; try (split; cbn; lia).
    + apply (file_one _ _ _ _ 41); [done|done|apply good_treedisk; lia].
    + intros _. split; try done; [apply (file_one _ _ _ _ 41); [done|done|apply good_treedisk; lia]|by apply (no_holes_one _ _ _ 41)].
    + apply (file_one _ _ _ _ 40); [done|done|apply good_treedisk; lia].
  - intros n e m off [->| ->]; rewrite ?dino_root, ?dino_hi; [|done]. intros _. unfold dir_find. rewrite dents_root. cbn [find_ent]. unfold nodes.
    repeat (case_match; [naive_solver|]). done.
  - intros n m a [->| ->] [->| ->]; rewrite ?dino_root, ?dino_hi; try done; intros _ Ha H1 H2.
    + apply (blk_one _ _ _ 41) in H1; [|done|done]. apply (blk_one _ _ _ 40) in H2; [|done|done]. lia.
    + apply (blk_one _ _ _ 40) in H1; [|done|done]. apply (blk_one _ _ _ 41) in H2; [|done|done]. lia.
Qed.

Definition tree_machine : kstate := set_fs (mkFs sb1 (icache (fs machine))) (boot_machine treedisk).

#[local] Instance tree_machine_disk : DiskEnv (env simple_disk) := driver_DiskEnv simple_disk hdr_addr file_buffer.

Lemma tree_machine_quiet : quiet (env simple_disk) 0 0 0 tree_machine log0.
Proof. split; [apply (machine_hold _ treedisk); [done..|apply small_treedisk]|done| |done..]. cbn. lia. Qed.

Lemma tree_machine_log : log_place 0 sb1 log0 treedisk zero_block.
Proof.
  split; [cbn; lia|cbn; lia| | |done|by vm_compute].
  - intros i Hi. unfold log_key. cbn [l_start log0]. rewrite u32_small by lia. rewrite lookup_treedisk by lia. done.
  - unfold hdr_key. cbn [l_start log0]. change (u32 2) with 2. rewrite lookup_treedisk by lia. by vm_compute.
Qed.

Lemma tree_machine_rest : at_rest (env simple_disk) 0 0 sb1 tree_machine file_buffer nodes log0 zero_block ∅.
Proof.
  split; [apply tree_machine_quiet|apply tree_machine_log|apply geom_treedisk|apply tree_treedisk|done| | |].
  - assert (Hi : forall k i, icache (fs tree_machine) !! k = Some i -> i = inode0) by (intros k i Hk; by apply lookup_replicate_1 in Hk as [-> _]).
    split; try done; try (intros k i Hk; rewrite (Hi k i Hk); by intros).
    intros k k' i i' Hk. rewrite (Hi k i Hk). by intros.
  - intros m [c Hc]. done.
  - split; [split; by vm_compute|]. intros a Ha. assert (Hk : source <= p_kstack (proc_at 0 tree_machine)) by (apply Z.leb_le; by vm_compute). assert (Hs : source <= a) by lia.
    split_and!; [exact Hs|exact Hs|by apply source_free].
Qed.

Lemma start_root path : starts_with_slash path = true -> start_at 0 0 tree_machine (icache (fs tree_machine)) path 1.
Proof. intros Hp. unfold start_at. by rewrite Hp. Qed.

Lemma path_hi_chars : Forall is_char path_hi.
Proof. repeat constructor; lia. Qed.
Lemma path_yo_chars : Forall is_char path_yo.
Proof. repeat constructor; lia. Qed.

Lemma resolve_hi : resolve 0 sb1 treedisk 1 (elements path_hi) = Some 2.
Proof. by vm_compute. Qed.
Lemma parent_yo : resolve_parent 0 sb1 treedisk 1 (elements path_yo) = Some (1, name_yo).
Proof. by vm_compute. Qed.

Lemma nfree_treedisk : (2 <= nfree 0 sb1 treedisk)%nat.
Proof.
  change 2%nat with (length [34; 35]). apply submseteq_length, NoDup_submseteq; [apply (bool_decide_unpack _); by vm_compute|].
  intros b Hb. apply elem_free_blocks. assert (Hr : b = 34 \/ b = 35) by (rewrite !elem_of_cons, elem_of_nil in Hb; lia).
  rewrite used_treedisk by lia. destruct Hr as [->| ->]; (split; [by vm_compute|cbn; lia]).
Qed.

Lemma namei_correct_witness :
  runE (env simple_disk) (begin_op 0 ;; namei path_hi) tree_machine (fun r s' => exists ip ic', r = Some ip /\ slot ic' ip (0%nat, 2)).
Proof.
  eapply runE_mono.
  - apply (namei_correct simple_disk hdr_addr file_buffer 0 0 sb1 tree_machine nodes log0 zero_block ∅ path_hi 1);
      [apply tree_machine_rest|by apply start_root|by left|apply path_hi_chars|rewrite map_size_empty; cbn; lia].
  - intros r s' (ic' & H). change (disk_img (dev tree_machine)) with treedisk in H. rewrite resolve_hi in H. destruct H as (ip & -> & _ & Hs & _). by exists ip, ic'.
Defined.

(** link("/hi", "//yo"): the file has two names and two links. *)
Lemma link_atomic_witness :
  runE (env simple_disk) (link_paths path_hi path_yo) tree_machine (fun r s' => r = 0 /\
    resolve 0 sb1 (disk_img (dev s')) 1 (elements path_yo) = Some 2 /\ i_nlink (dino 0 sb1 (disk_img (dev s')) 2) = 2).
Proof.
  eapply runE_mono.
  - apply (link_atomic simple_disk hdr_addr file_buffer 0 0 sb1 tree_machine nodes log0 zero_block ∅ path_hi path_yo 1 1 2 1 name_yo);
      [apply tree_machine_rest|by apply start_root|by apply start_root|by left|by left|apply path_hi_chars|apply path_yo_chars|rewrite map_size_empty; cbn; lia|..];
      change (disk_img (dev tree_machine)) with treedisk.
    + apply resolve_hi.
    + by rewrite dino_hi.
    + rewrite dino_hi. cbn. lia.
    + apply parent_yo.
    + rewrite dino_root. unfold dir_find. by rewrite dents_root.
    + apply nfree_treedisk.
    + rewrite dino_root. cbn. lia.
  - intros r s' (L' & hd' & Ws & -> & [_ _ Hc _ _ _] & _ & Hres & _). split; [done|]. split; [done|].
    apply dfields_eq in Hc as (_ & -> & _). change (disk_img (dev tree_machine)) with treedisk. by rewrite dino_hi.
Defined.

(** link("/hi", "/hi"): the name is taken. *)
Lemma link_refused_witness :
  runE (env simple_disk) (link_paths path_hi path_hi) tree_machine (fun r s' => r = -1 /\ i_nlink (dino 0 sb1 (disk_img (dev s')) 2) = 1).
Proof.
  eapply runE_mono.
  - apply (link_refused simple_disk hdr_addr file_buffer 0 0 sb1 tree_machine nodes log0 zero_block ∅ path_hi path_hi 1 1);
      [apply tree_machine_rest|by apply start_root|by apply start_root|by left|by left|apply path_hi_chars|apply path_hi_chars|rewrite map_size_empty; cbn; lia|].
    change (disk_img (dev tree_machine)) with treedisk. rewrite resolve_hi, dino_hi. right. split; [cbn; lia|].
    assert (resolve_parent 0 sb1 treedisk 1 (elements path_hi) = Some (1, name_hi)) as -> by by vm_compute.
    rewrite dino_root. unfold dir_find. by rewrite dents_root.
  - intros r s' (-> & [_ F _] & _). split; [done|]. specialize (F 2 (or_intror eq_refl)). apply dfields_eq in F as (_ & -> & _).
    change (disk_img (dev tree_machine)) with treedisk. by rewrite dino_hi.
Defined.

End PathNames.
