(* ===== verification/Syscall.v ===== *)
(** * Process system calls and dispatch (kernel/sysproc.c, syscall.c, and
    sys_ntas of spinlock.c) *)

From S2P Require Import Prelude Bytes CString KState Spinlock Kernel Riscv Kalloc Vm Sched Console Virtio Bio Log Fs Dir Pipe File Proc Exec Sysfile.

Module Syscall.
Import Sched Console Proc Sysfile.

(** ** sysproc.c *)

Definition sys_exit : K Z :=
  n <- argint 0 ;;
  exit n.

Definition sys_getpid : K Z :=
  p <- myproc' ;;
  gets (fun s => p_pid (proc_at p s)).

Definition sys_fork : K Z := fork.

Definition sys_wait : K Z :=
  p <- argaddr 0 ;;
  wait p.

(** [addr] is an int. *)
Definition sys_sbrk : K Z :=
  n <- argint 0 ;;
  p <- myproc' ;;
  addr <- gets (fun s => s32 (p_sz (proc_at p s))) ;;
  r <- growproc n ;;
  if r <? 0 then ret (-1) else ret addr.

(** [ticks - ticks0 < n] compares as uint. *)
Definition sys_sleep : K Z :=
  n <- argint 0 ;;
  acquire LTicks ;;
  ticks0 <- gets (fun s => ticks (pt s)) ;;
  loop wait_fuel (fun _ =>
    t <- gets (fun s => ticks (pt s)) ;;
    if u32 (t - ticks0) <? u32 n then
      p <- myproc' ;;
      killed <- gets (fun s => p_killed (proc_at p s)) ;;
      if (killed : bool) then release LTicks ;; ret (inr (-1))
      else sleep ChTicks LTicks ;; ret (inl tt)
    else release LTicks ;; ret (inr 0)) tt.

Definition sys_kill : K Z :=
  pid <- argint 0 ;;
  kill pid.

Definition sys_uptime : K Z :=
  acquire LTicks ;;
  xticks <- gets (fun s => ticks (pt s)) ;;
  release LTicks ;;
  ret xticks.

(** ** sys_ntas (spinlock.c) *)

Definition lock_stats (lk : lockid) (s : kstate) : spinlock := Spinlock.lock_of lk (sy s).

Definition print_lock (lk : lockid) : K unit :=
  l <- gets (lock_stats lk) ;;
  when (0 <? lk_n l)
    (printf "lock: %s: #test-and-set %d #acquire() %d"
       [AStr (str (lk_name l)); AInt (lk_nts l); AInt (lk_n l)] ;;
     printf newline []).

(** strncmp(name, t, strlen(t)) == 0 *)
Definition has_prefix (name t : string) : bool :=
  CString.strncmp (str name) (str t) 0 0 (Z.of_nat (String.length t)) =? 0.

Definition reset_stats (lk : lockid) : K unit :=
  modify (fun s =>
    let l := Spinlock.lock_of lk (sy s) in
    set_sy (Spinlock.set_lock lk (set_lk_n 0 (set_lk_nts 0 l)) (sy s)) s).

(** The inner loop of the search for the most contended lock below [last]. *)
Definition pick_top (nts : list Z) (last : Z) : nat :=
  foldl (fun top i => if (nts !!! top <? nts !!! i) && (nts !!! i <? last) then i else top)
    O (seq 0 (length nts)).

Definition sys_ntas : K Z :=
  zero <- argint 0 ;;
  tbl <- gets (fun s => lock_table (sy s)) ;;
  if zero =? 0 then iter_each tbl reset_stats ;; ret 0 else
  printf "=== lock kmem/bcache stats" [] ;; printf newline [] ;;
  tot <- loop (S (length tbl)) (fun '(rest, tot) =>
    match rest with
    | [] => ret (inr tot)
    | lk :: rest =>
        l <- gets (lock_stats lk) ;;
        if has_prefix (lk_name l) "bcache" || has_prefix (lk_name l) "kmem" then
          print_lock lk ;;
          ret (inl (rest, tot + lk_nts l))
        else ret (inl (rest, tot))
    end) (tbl, 0) ;;
  printf "=== top 5 contended locks:" [] ;; printf newline [] ;;
  loop 6 (fun '(t, last) =>
    if (t <? 5)%nat then
      nts <- gets (fun s => map (fun lk => lk_nts (lock_stats lk s)) tbl) ;;
      let top := pick_top nts last in
      match tbl !! top with
      | None => stuck "null lock"
      | Some lk => print_lock lk ;; ret (inl (S t, nts !!! top))
      end
    else ret (inr tt)) (O, 100000000) ;;
  ret tot.

(** ** Dispatch *)

(** syscalls[num], by the numbers of syscall.h *)
Definition syscalls (num : Z) : option (K Z) :=
  match num with
  | 1 => Some sys_fork | 2 => Some sys_exit | 3 => Some sys_wait
  | 4 => Some sys_pipe | 5 => Some sys_read | 6 => Some sys_kill
  | 7 => Some sys_exec | 8 => Some sys_fstat | 9 => Some sys_chdir
  | 10 => Some sys_dup | 11 => Some sys_getpid | 12 => Some sys_sbrk
  | 13 => Some sys_sleep | 14 => Some sys_uptime | 15 => Some sys_open
  | 16 => Some sys_write | 17 => Some sys_mknod | 18 => Some sys_unlink
  | 19 => Some sys_link | 20 => Some sys_mkdir | 21 => Some sys_close
  | 22 => Some sys_ntas | _ => None
  end.

Definition syscall : K unit :=
  p <- myproc' ;;
  a7 <- get_tf p tf_a7 ;;
  let num := s32 a7 in
  match syscalls num with
  | Some f =>
      r <- f ;;
      set_tf p tf_a0 (u64 r)
  | None =>
      q <- gets (proc_at p) ;;
      printf "%d %s: unknown sys call %d" [AInt (p_pid q); AStr (c_str (p_name q)); AInt num] ;;
      printf newline [] ;;
      set_tf p tf_a0 (u64 (-1))
  end.

End Syscall.
