(* ===== verification/Trap.v ===== *)
(** * Traps and interrupts (kernel/trap.c, plic.c, forkret of proc.c)

    Entering and leaving the kernel.  What uservec, userret and kernelvec
    (Asm) pass to and take from the C code. *)

From S2P Require Import Prelude Bytes CString KState Spinlock Kernel Csr Riscv Kalloc Vm Sched Console Virtio Bio Log Fs Dir Pipe File Proc Exec Sysfile Syscall.

Module Trap.
Import Csr Vm Sched Console Virtio Fs Proc Syscall.

(** ** plic.c *)

Definition UART0_IRQ : Z := 10.
Definition VIRTIO0_IRQ : Z := 1.
Definition VIRTIO1_IRQ : Z := 2.
Definition PLIC_SENABLE (hart : Z) : Z := PLIC + 8320 + hart * 256.
Definition PLIC_SPRIORITY (hart : Z) : Z := PLIC + 2101248 + hart * 8192.
Definition PLIC_SCLAIM (hart : Z) : Z := PLIC + 2101252 + hart * 8192.

Definition plicinit : K unit :=
  mmio_write (PLIC + UART0_IRQ * 4) 1 ;;
  mmio_write (PLIC + VIRTIO0_IRQ * 4) 1.

Definition plicinithart : K unit :=
  h <- cpuid ;;
  mmio_write (PLIC_SENABLE (Z.of_nat h)) (Z.lor (Z.shiftl 1 UART0_IRQ) (Z.shiftl 1 VIRTIO0_IRQ)) ;;
  mmio_write (PLIC_SPRIORITY (Z.of_nat h)) 0.

Definition plic_claim : K Z :=
  h <- cpuid ;;
  irq <- mmio_read (PLIC_SCLAIM (Z.of_nat h)) ;;
  ret (s32 irq).

Definition plic_complete (irq : Z) : K unit :=
  h <- cpuid ;;
  mmio_write (PLIC_SCLAIM (Z.of_nat h)) (u32 irq).

(** ** trap.c *)

Definition trapinit : K unit := initlock LTicks "time".

Definition trapinithart : K unit :=
  kv <- gets (fun s => ld_kernelvec (ld s)) ;;
  w_stvec kv.

(** What userret is called with: the address of the trap frame in user space
    and the value for satp. *)
Definition usertrapret : K (Z * Z) :=
  p <- myproc' ;;
  intr_off ;;
  uv <- gets (fun s => ld_uservec (ld s)) ;;
  w_stvec (TRAMPOLINE + uv) ;;
  satp <- r_satp ;;
  set_tf p tf_kernel_satp satp ;;
  ks <- gets (fun s => p_kstack (proc_at p s)) ;;
  set_tf p tf_kernel_sp (ks + PGSIZE) ;;
  ut <- gets (fun s => ld_usertrap (ld s)) ;;
  set_tf p tf_kernel_trap ut ;;
  tp <- cpuid ;;
  set_tf p tf_kernel_hartid (Z.of_nat tp) ;;
  x <- r_sstatus ;;
  w_sstatus (Z.lor (Z.ldiff x SSTATUS_SPP) SSTATUS_SPIE) ;;
  epc <- get_tf p tf_epc ;;
  w_sepc epc ;;
  pgt <- gets (fun s => p_pagetable (proc_at p s)) ;;
  ret (TRAPFRAME, MAKE_SATP pgt).

Definition clockintr : K unit :=
  acquire LTicks ;;
  modify (fun s => set_pt (set_ticks (u32 (ticks (pt s) + 1)) (pt s)) s) ;;
  wakeup ChTicks ;;
  release LTicks.

(** 2 if timer interrupt, 1 if other device, 0 if not recognized. *)
Definition devintr : K Z :=
  scause <- r_scause ;;
  if Z.testbit scause 63 && (Z.land scause 255 =? 9) then
    irq <- plic_claim ;;
    (if irq =? UART0_IRQ then uartintr
     else if (irq =? VIRTIO0_IRQ) || (irq =? VIRTIO1_IRQ)
     then virtio_disk_intr (Z.to_nat (irq - VIRTIO0_IRQ))
     else ret tt) ;;
    when (negb (irq =? 0)) (plic_complete irq) ;;
    ret 1
  else if scause =? 9223372036854775809 then
    h <- cpuid ;;
    when (h =? 0)%nat clockintr ;;
    sip <- r_sip ;;
    w_sip (Z.ldiff sip 2) ;;
    ret 2
  else ret 0.

Definition reserved : string := "<reserved for future standard use>".
Definition intr_desc : list string :=
  ["user software interrupt"; "supervisor software interrupt"; reserved; reserved;
   "user timer interrupt"; "supervisor timer interrupt"; reserved; reserved;
   "user external interrupt"; "supervisor external interrupt"; reserved; reserved;
   reserved; reserved; reserved; reserved]%string.
Definition nointr_desc : list string :=
  ["instruction address misaligned"; "instruction access fault"; "illegal instruction";
   "breakpoint"; "load address misaligned"; "load access fault";
   "store/AMO address misaligned"; "store/AMO access fault";
   "environment call from U-mode"; "environment call from S-mode"; reserved; reserved;
   "instruction page fault"; "load page fault"; reserved; "store/AMO page fault"]%string.

Definition scause_desc (stval : Z) : string :=
  let interrupt := Z.testbit stval 63 in
  let code := Z.ldiff stval (2 ^ 63) in
  if interrupt then
    if code <? 16 then intr_desc !!! Z.to_nat code else "<reserved for platform use>"%string
  else
    if code <? 16 then nointr_desc !!! Z.to_nat code
    else if code <=? 23 then reserved
    else if code <=? 31 then "<reserved for custom use>"%string
    else if code <=? 47 then reserved
    else if code <=? 63 then "<reserved for custom use>"%string
    else reserved.

(** An interrupt, exception, or system call from user space. *)
Definition usertrap : K (Z * Z) :=
  sstatus <- r_sstatus ;;
  if negb (Z.land sstatus SSTATUS_SPP =? 0) then panic "usertrap: not from user mode" else
  kv <- gets (fun s => ld_kernelvec (ld s)) ;;
  w_stvec kv ;;
  p <- myproc' ;;
  sepc <- r_sepc ;;
  set_tf p tf_epc sepc ;;
  scause <- r_scause ;;
  which_dev <-
    (if scause =? 8 then
       killed <- gets (fun s => p_killed (proc_at p s)) ;;
       (if (killed : bool) then exit (-1) else
        epc <- get_tf p tf_epc ;;
        set_tf p tf_epc (u64 (epc + 4)) ;;
        intr_on ;;
        syscall ;;
        ret 0)
     else
       d <- devintr ;;
       if negb (d =? 0) then ret d else
       sepc <- r_sepc ;;
       stval <- r_stval ;;
       pid <- gets (fun s => p_pid (proc_at p s)) ;;
       printf "usertrap(): unexpected scause %p (%s) pid=%d"
         [AInt scause; AStr (str (scause_desc scause)); AInt pid] ;;
       printf newline [] ;;
       printf "            sepc=%p stval=%p" [AInt sepc; AInt stval] ;;
       printf newline [] ;;
       upd_proc p (set_p_killed true) ;;
       ret 0) ;;
  killed <- gets (fun s => p_killed (proc_at p s)) ;;
  if (killed : bool) then exit (-1) else
  when (which_dev =? 2) yield ;;
  usertrapret.

(** Interrupts and exceptions from kernel code, via kernelvec. *)
Definition kerneltrap : K unit :=
  sepc <- r_sepc ;;
  sstatus <- r_sstatus ;;
  scause <- r_scause ;;
  if Z.land sstatus SSTATUS_SPP =? 0 then panic "kerneltrap: not from supervisor mode" else
  ie <- intr_get ;;
  if (ie : bool) then panic "kerneltrap: interrupts enabled" else
  which_dev <- devintr ;;
  if which_dev =? 0 then
    sepc <- r_sepc ;;
    stval <- r_stval ;;
    printf "scause %p (%s)" [AInt scause; AStr (str (scause_desc scause))] ;;
    printf newline [] ;;
    printf "sepc=%p stval=%p" [AInt sepc; AInt stval] ;;
    printf newline [] ;;
    panic "kerneltrap"
  else
  (if which_dev =? 2 then
     p <- myproc ;;
     match p with
     | None => ret tt
     | Some p =>
         st <- gets (fun s => p_state (proc_at p s)) ;;
         when (bool_decide (st = RUNNING)) yield
     end
   else ret tt) ;;
  w_sepc sepc ;;
  w_sstatus sstatus.

(** A fork child's very first scheduling by scheduler() (proc.c). *)
Definition forkret : K (Z * Z) :=
  p <- myproc' ;;
  release (LProc p) ;;
  f <- gets (fun s => first (pt s)) ;;
  when f (modify (fun s => set_pt (set_first false (pt s)) s) ;; fsinit 0) ;;
  usertrapret.

End Trap.
