(* ===== verification/Boot.v ===== *)
(** * Booting (kernel/start.c, kernel/main.c)

    start runs in machine mode on every hart and jumps to main, which
    initialises every subsystem on hart 0 and then schedules. *)

From S2P Require Import Prelude Bytes CString KState Spinlock Kernel Csr Riscv Kalloc Vm Sched Console Virtio Bio Log Fs Dir Pipe File Proc Exec Sysfile Syscall Trap.

Module Boot.
Import Csr Kalloc Vm Sched Console Virtio Bio Fs File Proc Trap.

(** ** start.c *)

Definition CLINT_MTIMECMP (hartid : Z) : Z := CLINT + 16384 + 8 * hartid.
Definition CLINT_MTIME : Z := CLINT + 49144.

Definition timerinit (id : nat) : K unit :=
  let interval := 1000000 in
  now <- mmio_read CLINT_MTIME ;;
  mmio_write (CLINT_MTIMECMP (Z.of_nat id)) (u64 (now + interval)) ;;
  base <- gets (fun s => ld_mscratch0 (ld s)) ;;
  let scratch := base + 8 * 32 * Z.of_nat id in
  store64 (scratch + 32) (CLINT_MTIMECMP (Z.of_nat id)) ;;
  store64 (scratch + 40) interval ;;
  w_mscratch scratch ;;
  tv <- gets (fun s => ld_timervec (ld s)) ;;
  w_mtvec tv ;;
  mstatus <- r_mstatus ;;
  w_mstatus (Z.lor mstatus MSTATUS_MIE) ;;
  mie <- r_mie ;;
  w_mie (Z.lor mie MIE_MTIE).

(** [id]: mhartid, the hart that executes. *)
Definition start (id : nat) : K unit :=
  x <- r_mstatus ;;
  w_mstatus (Z.lor (Z.ldiff x MSTATUS_MPP_MASK) MSTATUS_MPP_S) ;;
  mn <- gets (fun s => ld_main (ld s)) ;;
  w_mepc mn ;;
  w_satp 0 ;;
  w_medeleg 65535 ;;
  w_mideleg 65535 ;;
  sie <- r_sie ;;
  w_sie (Z.lor (Z.lor (Z.lor sie SIE_SEIE) SIE_STIE) SIE_SSIE) ;;
  timerinit id ;;
  modify (fun s => set_sy (set_hart id (sy s)) s).

(** ** main.c *)

(** Everything main does before scheduler(); harts other than 0 wait for
    [started]. *)
Definition main_init : K unit :=
  h <- cpuid ;;
  if (h =? 0)%nat then
    consoleinit ;;
    printfinit ;;
    printf newline [] ;;
    printf "xv6 kernel is booting" [] ;; printf newline [] ;;
    printf newline [] ;;
    kinit ;;
    kvminit ;;
    kvminithart ;;
    procinit ;;
    trapinit ;;
    trapinithart ;;
    plicinit ;;
    plicinithart ;;
    binit ;;
    iinit ;;
    fileinit ;;
    pages <- gets (fun s => ld_disk_pages (ld s) !!! O) ;;
    virtio_disk_init pages O ;;
    userinit ;;
    modify (fun s => set_pt (set_started true (pt s)) s)
  else
    st <- gets (fun s => started (pt s)) ;;
    if negb st then stuck "waiting for hart 0" else
    printf "hart %d starting" [AInt (Z.of_nat h)] ;; printf newline [] ;;
    kvminithart ;;
    trapinithart ;;
    plicinithart.

Definition main (rounds : nat) : K unit := main_init ;; scheduler rounds.

End Boot.
