(* ===== verification/Asm.v ===== *)
(** * The assembly code (swtch.S, trampoline.S, kernelvec.S, entry.S, initcode.S, usys.pl)

    The instructions the files use, on a hart with its integer registers, the
    control registers the code names and memory.  Loads and stores in
    supervisor mode go through the page table that satp names (Sv39, three
    levels, read and write permission, no user pages); in machine mode they
    use physical addresses.  Every access of the code is an aligned double
    word, which never crosses a page.  [call] runs a C function, a parameter
    of [exec]; a branch ends [exec] with where it goes. *)

From S2P Require Import Prelude Bytes KState Riscv Vm PageTable.

Module Asm.
Import Vm PageTable.

(** ** Harts *)

Inductive reg :=
| zero | ra | sp | gp | tp | t0 | t1 | t2 | s0 | s1
| a0 | a1 | a2 | a3 | a4 | a5 | a6 | a7
| s2 | s3 | s4 | s5 | s6 | s7 | s8 | s9 | s10 | s11
| t3 | t4 | t5 | t6.
#[export] Instance reg_eq_dec : EqDecision reg.
Proof. solve_decision. Defined.

Inductive creg := sscratch | satp | mscratch | sip | mhartid.
#[export] Instance creg_eq_dec : EqDecision creg.
Proof. solve_decision. Defined.

Inductive priv := Machine_mode | Supervisor_mode | User_mode.

Record hart := mkHart { mode : priv; rg : reg -> Z; cr : creg -> Z; hm : mem }.

Definition get (h : hart) (r : reg) : Z := match r with zero => 0 | _ => rg h r end.
Definition set (r : reg) (v : Z) (h : hart) : hart :=
  mkHart (mode h) (fun x => if bool_decide (x = r) then v else rg h x) (cr h) (hm h).
Definition set_cr (c : creg) (v : Z) (h : hart) : hart :=
  mkHart (mode h) (rg h) (fun x => if bool_decide (x = c) then v else cr h x) (hm h).
Definition set_hm (m : mem) (h : hart) : hart := mkHart (mode h) (rg h) (cr h) m.

(** ** Address translation *)

(** The table satp names, for SATP_SV39 with address space 0. *)
Definition satp_root (v : Z) : Z := v mod 2 ^ 44 * 4096.

Definition allowed (write : bool) (pte : Z) : bool :=
  pte_has pte PTE_V && pte_has pte PTE_R && (negb write || pte_has pte PTE_W) && negb (pte_has pte PTE_U).

Definition translate (p : priv) (s : Z) (m : mem) (write : bool) (va : Z) : option Z :=
  match p with
  | Machine_mode => Some va
  | Supervisor_mode =>
      if s =? 0 then Some va
      else if (0 <=? va) && (va <? MAXVA) then
        let pte := pte_of m (satp_root s) va in
        if allowed write pte then Some (PTE2PA pte + va mod 4096) else None
      else None
  | User_mode => None
  end.

Definition load (h : hart) (va : Z) : option Z := (fun pa => ld64 (hm h) pa) <$> translate (mode h) (cr h satp) (hm h) false va.
Definition store (h : hart) (va v : Z) : option hart :=
  (fun pa => set_hm (st64 (hm h) pa v) h) <$> translate (mode h) (cr h satp) (hm h) true va.

(** ** Instructions *)

Inductive instr :=
| Sd (r : reg) (off : Z) (b : reg)
| Ld (r : reg) (off : Z) (b : reg)
| Addi (r s : reg) (n : Z)
| Add (r s t : reg)
| Mul (r s t : reg)
| Li (r : reg) (n : Z)
| La (r : reg) (addr : Z)
| Csrrw (r : reg) (c : creg) (s : reg)
| Csrr (r : reg) (c : creg)
| Csrw (c : creg) (s : reg)
| Sfence_vma
| Call (f : string)
| Jr (r : reg)
| Ret
| J (label : string)
| Sret
| Mret
| Ecall.

(** How a piece of code ends: a jump to an address or a label, a return from
    a trap, or a system call, with the instructions that follow it. *)
Inductive leaves := ToAddr (pc : Z) | ToLabel (label : string) | ToSret | ToMret | ToKernel (rest : list instr).

Fixpoint exec (callee : string -> hart -> option hart) (code : list instr) (h : hart) : option (leaves * hart) :=
  match code with
  | [] => None
  | i :: code =>
      match i with
      | Sd r off b => h ← store h (u64 (get h b + off)) (get h r); exec callee code h
      | Ld r off b => v ← load h (u64 (get h b + off)); exec callee code (set r v h)
      | Addi r s n => exec callee code (set r (u64 (get h s + n)) h)
      | Add r s t => exec callee code (set r (u64 (get h s + get h t)) h)
      | Mul r s t => exec callee code (set r (u64 (get h s * get h t)) h)
      | Li r n => exec callee code (set r n h)
      | La r addr => exec callee code (set r addr h)
      | Csrrw r c s => exec callee code (set r (cr h c) (set_cr c (get h s) h))
      | Csrr r c => exec callee code (set r (cr h c) h)
      | Csrw c s => exec callee code (set_cr c (get h s) h)
      | Sfence_vma => exec callee code h
      | Call f => h ← callee f h; exec callee code h
      | Jr r => Some (ToAddr (get h r), h)
      | Ret => Some (ToAddr (get h ra), h)
      | J l => Some (ToLabel l, h)
      | Sret => Some (ToSret, h)
      | Mret => Some (ToMret, h)
      | Ecall => Some (ToKernel code, h)
      end
  end.

(** ** swtch.S *)

Definition swtch : list instr := [
  Sd ra 0 a0; Sd sp 8 a0; Sd s0 16 a0; Sd s1 24 a0; Sd s2 32 a0; Sd s3 40 a0; Sd s4 48 a0; Sd s5 56 a0;
  Sd s6 64 a0; Sd s7 72 a0; Sd s8 80 a0; Sd s9 88 a0; Sd s10 96 a0; Sd s11 104 a0;
  Ld ra 0 a1; Ld sp 8 a1; Ld s0 16 a1; Ld s1 24 a1; Ld s2 32 a1; Ld s3 40 a1; Ld s4 48 a1; Ld s5 56 a1;
  Ld s6 64 a1; Ld s7 72 a1; Ld s8 80 a1; Ld s9 88 a1; Ld s10 96 a1; Ld s11 104 a1;
  Ret].

(** ** trampoline.S *)

Definition uservec : list instr := [
  Csrrw a0 sscratch a0;
  Sd ra 40 a0; Sd sp 48 a0; Sd gp 56 a0; Sd tp 64 a0; Sd t0 72 a0; Sd t1 80 a0; Sd t2 88 a0; Sd s0 96 a0; Sd s1 104 a0;
  Sd a1 120 a0; Sd a2 128 a0; Sd a3 136 a0; Sd a4 144 a0; Sd a5 152 a0; Sd a6 160 a0; Sd a7 168 a0;
  Sd s2 176 a0; Sd s3 184 a0; Sd s4 192 a0; Sd s5 200 a0; Sd s6 208 a0; Sd s7 216 a0; Sd s8 224 a0; Sd s9 232 a0;
  Sd s10 240 a0; Sd s11 248 a0; Sd t3 256 a0; Sd t4 264 a0; Sd t5 272 a0; Sd t6 280 a0;
  Csrr t0 sscratch; Sd t0 112 a0;
  Ld sp 8 a0; Ld tp 32 a0; Ld t0 16 a0; Ld t1 0 a0;
  Csrw satp t1; Sfence_vma;
  Jr t0].

Definition userret : list instr := [
  Csrw satp a1; Sfence_vma;
  Ld t0 112 a0; Csrw sscratch t0;
  Ld ra 40 a0; Ld sp 48 a0; Ld gp 56 a0; Ld tp 64 a0; Ld t0 72 a0; Ld t1 80 a0; Ld t2 88 a0; Ld s0 96 a0; Ld s1 104 a0;
  Ld a1 120 a0; Ld a2 128 a0; Ld a3 136 a0; Ld a4 144 a0; Ld a5 152 a0; Ld a6 160 a0; Ld a7 168 a0;
  Ld s2 176 a0; Ld s3 184 a0; Ld s4 192 a0; Ld s5 200 a0; Ld s6 208 a0; Ld s7 216 a0; Ld s8 224 a0; Ld s9 232 a0;
  Ld s10 240 a0; Ld s11 248 a0; Ld t3 256 a0; Ld t4 264 a0; Ld t5 272 a0; Ld t6 280 a0;
  Csrrw a0 sscratch a0;
  Sret].

(** ** kernelvec.S *)

Definition kernelvec : list instr := [
  Addi sp sp (-256);
  Sd ra 0 sp; Sd sp 8 sp; Sd gp 16 sp; Sd tp 24 sp; Sd t0 32 sp; Sd t1 40 sp; Sd t2 48 sp; Sd s0 56 sp; Sd s1 64 sp;
  Sd a0 72 sp; Sd a1 80 sp; Sd a2 88 sp; Sd a3 96 sp; Sd a4 104 sp; Sd a5 112 sp; Sd a6 120 sp; Sd a7 128 sp;
  Sd s2 136 sp; Sd s3 144 sp; Sd s4 152 sp; Sd s5 160 sp; Sd s6 168 sp; Sd s7 176 sp; Sd s8 184 sp; Sd s9 192 sp;
  Sd s10 200 sp; Sd s11 208 sp; Sd t3 216 sp; Sd t4 224 sp; Sd t5 232 sp; Sd t6 240 sp;
  Call "kerneltrap";
  Ld ra 0 sp; Ld sp 8 sp; Ld gp 16 sp; Ld t0 32 sp; Ld t1 40 sp; Ld t2 48 sp; Ld s0 56 sp; Ld s1 64 sp;
  Ld a0 72 sp; Ld a1 80 sp; Ld a2 88 sp; Ld a3 96 sp; Ld a4 104 sp; Ld a5 112 sp; Ld a6 120 sp; Ld a7 128 sp;
  Ld s2 136 sp; Ld s3 144 sp; Ld s4 152 sp; Ld s5 160 sp; Ld s6 168 sp; Ld s7 176 sp; Ld s8 184 sp; Ld s9 192 sp;
  Ld s10 200 sp; Ld s11 208 sp; Ld t3 216 sp; Ld t4 224 sp; Ld t5 232 sp; Ld t6 240 sp;
  Addi sp sp 256;
  Sret].

Definition timervec : list instr := [
  Csrrw a0 mscratch a0;
  Sd a1 0 a0; Sd a2 8 a0; Sd a3 16 a0;
  Ld a1 32 a0; Ld a2 40 a0; Ld a3 0 a1; Add a3 a3 a2; Sd a3 0 a1;
  Li a1 2; Csrw sip a1;
  Ld a3 16 a0; Ld a2 8 a0; Ld a1 0 a0;
  Csrrw a0 mscratch a0;
  Mret].

(** ** entry.S *)

Definition entry_code (stack0 : Z) : list instr := [
  La sp stack0;
  Li a0 (1024 * 4);
  Csrr a1 mhartid;
  Addi a1 a1 1;
  Mul a0 a0 a1;
  Add sp sp a0;
  Call "start";
  J "junk"].

(** ** initcode.S and usys.pl *)

Definition SYS_exit : Z := 2.
Definition SYS_exec : Z := 7.

Definition initcode (init argv : Z) : list instr := [
  La a0 init; La a1 argv; Li a7 SYS_exec; Ecall;
  Li a7 SYS_exit; Ecall; J "exit"].

(** The numbers of syscall.h, by name. *)
Definition SYS (name : string) : option Z :=
  list_to_map (M := gmap string Z)
    [("fork", 1); ("exit", SYS_exit); ("wait", 3); ("pipe", 4); ("read", 5); ("kill", 6); ("exec", SYS_exec); ("fstat", 8);
     ("chdir", 9); ("dup", 10); ("getpid", 11); ("sbrk", 12); ("sleep", 13); ("uptime", 14); ("open", 15); ("write", 16);
     ("mknod", 17); ("unlink", 18); ("link", 19); ("mkdir", 20); ("close", 21); ("ntas", 22)] !! name.

(** sub entry: the stub of a system call. *)
Definition stub (name : string) : option (list instr) := n ← SYS name; Some [Li a7 n; Ecall; Ret].

(** The calls usys.pl generates stubs for. *)
Definition usys : list string :=
  ["fork"; "exit"; "wait"; "pipe"; "read"; "write"; "close"; "kill"; "exec"; "open"; "mknod"; "unlink"; "fstat"; "link";
   "mkdir"; "chdir"; "dup"; "getpid"; "sbrk"; "sleep"; "uptime"; "ntas"].

End Asm.
