(* ===== verification/AsmProof.v ===== *)
(** * The assembly code saves and restores what it must

    A switch of contexts, a trap from user space and back, a trap in the
    kernel and a timer interrupt leave the registers of the code they
    interrupt as they were. *)

From S2P Require Import Prelude Bytes KState KList Riscv Vm PageTable Uvm Proc Sysfile Syscall Asm.

Module AsmProof.
Import KList Vm PageTable Asm.

(** Closed decidable facts about the register lists. *)
Ltac by_eval := apply (bool_decide_unpack _); vm_compute; exact I.

(** ** Registers and memory *)

Record same_hart (h h' : hart) : Prop := { sa_mode : mode h' = mode h; sa_cr : cr h' = cr h }.

Definition regs_ok (h : hart) : Prop := forall r, 0 <= get h r < 2 ^ 64.

Lemma get_set r v h x : r <> zero -> get (set r v h) x = if bool_decide (x = r) then v else get h x.
Proof. intros Hr. destruct x; unfold get, set; cbn; try done. by rewrite bool_decide_false. Qed.
Lemma get_set_eq r v h : r <> zero -> get (set r v h) r = v.
Proof. intros Hr. by rewrite get_set, bool_decide_true. Qed.
Lemma get_set_ne r v h x : r <> zero -> x <> r -> get (set r v h) x = get h x.
Proof. intros Hr Hx. by rewrite get_set, bool_decide_false. Qed.

(** The [len] bytes at [va] are at physical address [pa], also when the bytes
    in [D] change. *)
Definition window (h : hart) (D : Z -> Prop) (va pa len : Z) : Prop :=
  0 <= va /\ va + len <= 2 ^ 64 /\
  forall m', (forall x, ~ D x -> getb m' x = getb (hm h) x) -> forall o w, 0 <= o -> o + 8 <= len -> translate (mode h) (cr h satp) m' w (va + o) = Some (pa + o).

Lemma window_at h h' D va pa len : window h D va pa len -> same_hart h h' -> (forall x, ~ D x -> getb (hm h') x = getb (hm h) x) -> window h' D va pa len.
Proof.
  intros (W1 & W2 & W3) [S1 S2] Hm. split; [done|]. split; [done|]. intros m' Hm'. rewrite S1, S2. apply W3. intros x Hx. rewrite Hm', Hm by done. done.
Qed.

(** ** Runs of stores and loads *)

Definition saves (b : reg) (l : list (reg * Z)) : list instr := (fun '(r, off) => Sd r off b) <$> l.
Definition loads (b : reg) (l : list (reg * Z)) : list instr := (fun '(r, off) => Ld r off b) <$> l.

Definition slots (len : Z) (l : list (reg * Z)) : Prop := NoDup l.*2 /\ Forall (fun off => off mod 8 = 0 /\ 0 <= off /\ off + 8 <= len) l.*2.
#[export] Instance slots_dec len l : Decision (slots len l).
Proof. unfold slots. apply _. Defined.

Lemma slots_apart len l off off' : slots len l -> off ∈ l.*2 -> off' ∈ l.*2 -> off <> off' -> off + 8 <= off' \/ off' + 8 <= off.
Proof.
  intros [_ H] H1 H2 Hne. rewrite Forall_forall in H. destruct (H _ H1) as (M1 & _). destruct (H _ H2) as (M2 & _).
  pose proof (Z.div_mod off 8 ltac:(lia)). pose proof (Z.div_mod off' 8 ltac:(lia)). lia.
Qed.

(** What the stores leave in memory. *)
Record saved (h : hart) (pa : Z) (l : list (reg * Z)) (m : mem) : Prop := {
  sd_in : forall r off, (r, off) ∈ l -> ld64 m (pa + off) = get h r;
  sd_out : forall x, (forall off, off ∈ l.*2 -> ~ (pa + off <= x < pa + off + 8)) -> getb m x = getb (hm h) x
}.

Lemma ld64_same (m m' : mem) a : (forall x, a <= x < a + 8 -> getb m' x = getb m x) -> ld64 m' a = ld64 m a.
Proof. intros Hx. apply ldn_ext. exact Hx. Qed.

Section runs.
Context (callee : string -> hart -> option hart).

Lemma exec_saves (D : Z -> Prop) b va pa len l rest : forall h, window h D va pa len -> (forall x, pa <= x < pa + len -> D x) -> get h b = va -> regs_ok h -> slots len l ->
  exists m, exec callee (saves b l ++ rest) h = exec callee rest (set_hm m h) /\ saved h pa l m.
Proof.
  induction l as [|[r off] l IH]; intros h W HD Hb Hr Hs.
  - exists (hm h). split; [by destruct h|]. split; [|done]. intros r off Hin. by apply not_elem_of_nil in Hin.
  - pose proof Hs as [Hnd Hf]. cbn in Hnd, Hf. apply NoDup_cons in Hnd as [Hn Hnd]. apply Forall_cons in Hf as [(Ho8 & Ho0 & Ho1) Hf]. pose proof W as (W1 & W2 & W3).
    set (m1 := st64 (hm h) (pa + off) (get h r)).
    assert (Hm1 : forall x, ~ (pa + off <= x < pa + off + 8) -> getb m1 x = getb (hm h) x) by (intros x Hx; by apply getb_link).
    destruct (IH (set_hm m1 h)) as (m & E & [S1 S2]); [|done|done|done|done|].
    { eapply window_at; [exact W|done|]. intros x Hx. apply Hm1. intros Hx'. apply Hx, HD. lia. }
    exists m. split.
    + cbn [saves fmap list_fmap app exec]. unfold store. rewrite Hb, u64_small by lia. rewrite (W3 (hm h) ltac:(done) off true) by lia. cbn [fmap option_fmap option_map mbind option_bind]. exact E.
    + split.
      * intros r' off' [E'|Hin]%elem_of_cons; [injection E' as -> ->|by apply S1]. rewrite (ld64_same m1); [apply ld64_st64_eq, Hr|].
        intros x Hx. apply S2. intros o Ho. destruct (slots_apart len ((r, off) :: l) off o Hs) as [?|?]; [by left|by right|intros <-; done|lia|lia].
      * intros x Hx. rewrite S2 by (intros o Ho; apply Hx; by right). apply Hm1. apply Hx. by left.
Qed.

(** What the loads leave in the registers. *)
Record loaded (h : hart) (pa : Z) (l : list (reg * Z)) (h' : hart) : Prop := {
  lo_same : same_hart h h';
  lo_mem : hm h' = hm h;
  lo_in : forall r off, (r, off) ∈ l -> get h' r = ld64 (hm h) (pa + off);
  lo_out : forall r, r ∉ l.*1 -> get h' r = get h r
}.

Lemma exec_loads (D : Z -> Prop) b va pa len l rest : forall h, window h D va pa len -> get h b = va -> b ∉ l.*1 -> zero ∉ l.*1 -> NoDup l.*1 -> slots len l ->
  exists h', exec callee (loads b l ++ rest) h = exec callee rest h' /\ loaded h pa l h'.
Proof.
  induction l as [|[r off] l IH]; intros h W Hb Hnb Hz Hndr Hs.
  - exists h. split; [done|]. split; [done|done| |done]. intros r off Hin. by apply not_elem_of_nil in Hin.
  - pose proof Hs as [Hnd Hf]. cbn in *. apply NoDup_cons in Hnd as [Hn Hnd]. apply NoDup_cons in Hndr as [Hnr Hndr]. apply Forall_cons in Hf as [(Ho8 & Ho0 & Ho1) Hf].
    apply not_elem_of_cons in Hnb as [Hb1 Hb2]. apply not_elem_of_cons in Hz as [Hz1 Hz2]. pose proof W as (W1 & W2 & W3).
    set (h1 := set r (ld64 (hm h) (pa + off)) h). destruct (IH h1) as (h' & E & [L1 L2 L3 L4]); [by eapply window_at| |done|done|done|done|].
    { unfold h1. by rewrite get_set_ne. }
    exists h'. split.
    + cbn [loads fmap list_fmap app exec]. unfold load. rewrite Hb, u64_small by lia. rewrite (W3 (hm h) ltac:(done) off false) by lia. cbn. done.
    + split.
      * destruct L1. by split.
      * done.
      * intros r' off' [E'|Hin]%elem_of_cons; [injection E' as -> ->|by apply L3]. rewrite L4 by done. unfold h1. by rewrite get_set_eq.
      * intros r' [Hne Hni]%not_elem_of_cons. rewrite L4 by done. unfold h1. by rewrite get_set_ne.
Qed.
End runs.

(** ** Windows *)

(** In machine mode every address is its own. *)
Lemma window_machine h D a len : mode h = Machine_mode -> 0 <= a -> a + len <= 2 ^ 64 -> window h D a a len.
Proof. intros Hm H0 H1. split; [done|]. split; [done|]. intros m' _ o w _ _. by rewrite Hm. Qed.

Lemma satp_root_of root : root mod PGSIZE = 0 -> 0 < root < 2 ^ 56 -> satp_root (MAKE_SATP root) = root /\ MAKE_SATP root <> 0.
Proof.
  intros Ha Hr. apply Z.mod_divide in Ha as [k ->]; [|done]. unfold MAKE_SATP, SATP_SV39, satp_root. rewrite Z.shiftr_div_pow2 by lia. change (2 ^ 12) with 4096. rewrite Z.div_mul by lia.
  assert (Hk : 0 < k < 2 ^ 44) by (change (2 ^ 56) with (2 ^ 44 * 4096) in Hr; lia).
  assert (E : Z.lor (Z.shiftl 8 60) k = 2 ^ 63 + k).
  { rewrite Z.lor_comm. change (Z.shiftl 8 60) with (2 ^ 63). pose proof (Z.add_lor_land k (2 ^ 63)) as Ha. assert (Hl : Z.land k (2 ^ 63) = 0); [|rewrite Hl in Ha; lia].
    apply Z.bits_inj'. intros n Hn. rewrite Z.land_spec, Z.bits_0. destruct (decide (n = 63)) as [->|Hne]; [|by rewrite Z.pow2_bits_false, andb_false_r by lia].
    rewrite (Z.bits_above_log2 k 63); [done|lia|]. assert (Z.log2 k < 44) by (apply Z.log2_lt_pow2; lia). lia. }
  rewrite E. split; [|lia]. change (2 ^ 63) with (2 ^ 19 * 2 ^ 44). rewrite Z.add_comm, Z.mod_add by lia. rewrite Z.mod_small by lia. lia.
Qed.

(** A page the supervisor may read and write, not itself part of the table. *)
Record mapped (m : mem) (root : Z) (lv : gmap Z nat) (va pa : Z) : Prop := {
  ma_tree : ptree m root lv;
  ma_apart : lv !! pa = None;
  ma_va : va mod PGSIZE = 0 /\ 0 <= va < MAXVA;
  ma_pa : pa mod PGSIZE = 0;
  ma_pte : allowed true (pte_of m root va) = true /\ PTE2PA (pte_of m root va) = pa
}.

Lemma pte_of_outside m m' root lv va pa : ptree m root lv -> lv !! pa = None -> pa mod PGSIZE = 0 ->
  (forall x, ~ (pa <= x < pa + PGSIZE) -> getb m' x = getb m x) -> pte_of m' root va = pte_of m root va.
Proof.
  intros HT Hn Hp Hm.
  assert (Hent : forall t l i, lv !! t = Some l -> 0 <= i < 512 -> entry m' t i = entry m t i).
  { intros t l i Ht Hi. unfold entry. apply ld64_same. intros x Hx. apply Hm. destruct (pt_page _ _ _ HT t l Ht) as [Hta _].
    apply (aligned_disjoint pa t x); [done|done|congruence|lia]. }
  destruct (leaf_ext _ _ _ HT m') as [_ Hl]; [by intros t l i Ht; apply (Hent t (Datatypes.S l))|]. unfold pte_of. rewrite Hl.
  destruct (leaf m root va) as [a|] eqn:E; [|done]. destruct (leaf_split _ _ _ HT va a E) as (t0 & -> & Ht0). apply (Hent t0 0%nat); [done|]. apply PX_range. lia.
Qed.

Lemma allowed_read pte w : allowed true pte = true -> allowed w pte = true.
Proof. unfold allowed. destruct w; [done|]. rewrite !andb_true_iff. cbn. intuition. Qed.

Lemma window_page h root lv va pa : mode h = Supervisor_mode -> cr h satp = MAKE_SATP root -> mapped (hm h) root lv va pa ->
  window h (fun x => pa <= x < pa + PGSIZE) va pa PGSIZE.
Proof.
  intros Hm Hs [T1 T2 [T3 T3'] T4 [T5 T6]]. split; [lia|]. split; [lia|]. intros m' Hm' o w Ho1 Ho2. destruct (pt_page _ _ _ T1 root 2%nat (pt_root _ _ _ T1)) as [R1 R2].
  destruct (satp_root_of root R1 R2) as [E1 E2]. unfold translate. rewrite Hm, Hs. destruct (Z.eqb_spec (MAKE_SATP root) 0); [done|]. rewrite E1.
  pose proof (Z.div_mod va PGSIZE ltac:(lia)) as Hd. assert (Hpg : (va + o) / PGSIZE = va / PGSIZE) by (symmetry; apply (Z.div_unique_pos _ _ _ o); lia).
  assert (Hoff : (va + o) mod 4096 = o) by (symmetry; apply (Z.mod_unique_pos _ _ (va / PGSIZE)); lia).
  destruct (Z.leb_spec 0 (va + o)); [|lia]. destruct (Z.ltb_spec (va + o) MAXVA); cbn [andb].
  - rewrite (Uvm.pte_of_page _ _ (va + o) va), (pte_of_outside (hm h) m' root lv va pa), (allowed_read _ w), T6, Hoff by done. done.
  - change MAXVA with (67108864 * 4096) in *. lia.
Qed.

(** ** swtch *)

Definition ctx : list (reg * Z) :=
  [(ra, 0); (sp, 8); (s0, 16); (s1, 24); (s2, 32); (s3, 40); (s4, 48); (s5, 56); (s6, 64); (s7, 72); (s8, 80); (s9, 88); (s10, 96); (s11, 104)].

(** Both contexts can be accessed while the old one is written. *)
Definition can_switch (h : hart) (old new : Z) : Prop :=
  mode h = Supervisor_mode /\ get h a0 = old /\ get h a1 = new /\ (old + 112 <= new \/ new + 112 <= old) /\
  window h (fun x => old <= x < old + 112) old old 112 /\ window h (fun x => old <= x < old + 112) new new 112.

Lemma swtch_spec callee h old new : can_switch h old new -> regs_ok h ->
  exists h', exec callee swtch h = Some (ToAddr (ld64 (hm h) new), h') /\ same_hart h h' /\
    (forall r off, (r, off) ∈ ctx -> ld64 (hm h') (old + off) = get h r /\ get h' r = ld64 (hm h) (new + off)) /\
    (forall r, r ∉ ctx.*1 -> get h' r = get h r) /\ (forall x, ~ (old <= x < old + 112) -> getb (hm h') x = getb (hm h) x).
Proof.
  intros (Hm & Ha0 & Ha1 & Hap & Wo & Wn) Hr. change swtch with (saves a0 ctx ++ (loads a1 ctx ++ [Ret])).
  assert (Hs : slots 112 ctx) by (by_eval).
  destruct (exec_saves callee _ a0 old old 112 ctx (loads a1 ctx ++ [Ret]) h Wo ltac:(done) Ha0 Hr Hs) as (m & -> & [S1 S2]).
  assert (Hout : forall x, ~ (old <= x < old + 112) -> getb m x = getb (hm h) x).
  { intros x Hx. apply S2. intros off Hoff. destruct Hs as [_ Hs]. rewrite Forall_forall in Hs. destruct (Hs off Hoff). lia. }
  destruct (exec_loads callee (fun x => old <= x < old + 112) a1 new new 112 ctx [Ret] (set_hm m h)) as (h' & -> & [L1 L2 L3 L4]); try done.
  { eapply window_at; [exact Wn|done|exact Hout]. }
  all: try (by_eval).
  assert (Hnew : forall r off, (r, off) ∈ ctx -> get h' r = ld64 (hm h) (new + off)).
  { intros r off Hin. rewrite (L3 r off Hin). apply ld64_same. intros x Hx. apply Hout. destruct Hs as [_ Hs]. rewrite Forall_forall in Hs.
    destruct (Hs off) as (_ & ? & ?); [apply list_elem_of_fmap; by exists (r, off)|lia]. }
  exists h'. split; [|split; [by destruct L1; split|]].
  - cbn [exec]. rewrite (Hnew ra 0) by (by_eval). by rewrite Z.add_0_r.
  - split; [|split].
    + intros r off Hin. split; [rewrite L2; by apply S1|by apply Hnew].
    + intros r Hin. by rewrite L4.
    + intros x Hx. rewrite L2. by apply Hout.
Qed.

(** ** Traps from user space *)

Definition user_regs : list (reg * Z) :=
  [(ra, 40); (sp, 48); (gp, 56); (tp, 64); (t0, 72); (t1, 80); (t2, 88); (s0, 96); (s1, 104); (a1, 120); (a2, 128); (a3, 136); (a4, 144); (a5, 152);
   (a6, 160); (a7, 168); (s2, 176); (s3, 184); (s4, 192); (s5, 200); (s6, 208); (s7, 216); (s8, 224); (s9, 232); (s10, 240); (s11, 248);
   (t3, 256); (t4, 264); (t5, 272); (t6, 280)].

(** The trap frame: every register but x0. *)
Definition frame_regs : list (reg * Z) := user_regs ++ [(a0, 112)].

Lemma uservec_spec callee h tf : cr h sscratch = TRAPFRAME -> window h (fun x => tf <= x < tf + PGSIZE) TRAPFRAME tf PGSIZE -> regs_ok h ->
  exists h', exec callee uservec h = Some (ToAddr (ld64 (hm h) (tf + 16)), h') /\ mode h' = mode h /\
    (forall r off, (r, off) ∈ frame_regs -> ld64 (hm h') (tf + off) = get h r) /\
    (forall x, ~ (tf + 40 <= x < tf + 288) -> getb (hm h') x = getb (hm h) x) /\
    get h' sp = ld64 (hm h) (tf + 8) /\ get h' tp = ld64 (hm h) (tf + 32) /\ cr h' satp = ld64 (hm h) tf.
Proof.
  intros Hss W Hr.
  change uservec with (Csrrw a0 sscratch a0 :: saves a0 user_regs ++ (Csrr t0 sscratch :: Sd t0 112 a0 :: loads a0 [(sp, 8); (tp, 32); (t0, 16); (t1, 0)] ++ [Csrw satp t1; Sfence_vma; Jr t0])).
  cbn [exec]. set (h1 := set a0 _ _). assert (W1 : window h1 (fun x => tf <= x < tf + PGSIZE) TRAPFRAME tf PGSIZE).
  { destruct W as (W1 & W2 & W3). split; [done|]. split; [done|]. exact W3. }
  assert (Ha0 : get h1 a0 = TRAPFRAME) by exact Hss.
  assert (Hr1 : regs_ok h1).
  { intros r. destruct (decide (r = a0)) as [->|Hne]; [rewrite Ha0; lia|]. unfold h1. rewrite get_set_ne by done. apply Hr. }
  assert (Hs : slots PGSIZE user_regs) by (by_eval).
  destruct (exec_saves callee _ a0 TRAPFRAME tf PGSIZE user_regs (Csrr t0 sscratch :: Sd t0 112 a0 :: loads a0 [(sp, 8); (tp, 32); (t0, 16); (t1, 0)] ++ [Csrw satp t1; Sfence_vma; Jr t0]) h1 W1 ltac:(done) Ha0 Hr1 Hs) as (m & -> & [S1 S2]).
  assert (Hoff : forall off, off ∈ user_regs.*2 -> (40 <= off <= 104 \/ 120 <= off <= 280)).
  { intros off Hoff. assert (HF : Forall (fun off => 40 <= off <= 104 \/ 120 <= off <= 280) user_regs.*2) by (by_eval). rewrite Forall_forall in HF. by apply HF. }
  cbn [exec]. set (h2 := set t0 _ _). change (get h2 a0) with (get h1 a0). rewrite Ha0. unfold store. change (get h2 t0) with (get h a0).
  assert (W2 : window h2 (fun x => tf <= x < tf + PGSIZE) TRAPFRAME tf PGSIZE).
  { eapply (window_at h1); [exact W1|done|]. intros x Hx. change (hm h2) with m. apply S2. intros off Ho. pose proof (Hoff off Ho). lia. }
  pose proof W2 as (_ & _ & W2'). rewrite u64_small by lia. rewrite (W2' (hm h2) ltac:(done) 112 true) by lia. cbn [fmap option_fmap option_map mbind option_bind].
  set (m3 := st64 (hm h2) (tf + 112) (get h a0)). set (h3 := set_hm m3 h2).
  assert (Hm3 : forall x, ~ (tf + 112 <= x < tf + 120) -> getb m3 x = getb m x) by (intros x Hx; unfold m3; rewrite getb_link by lia; done).
  assert (Hout : forall x, ~ (tf + 40 <= x < tf + 288) -> getb m3 x = getb (hm h) x).
  { intros x Hx. rewrite Hm3 by lia. apply (S2 x). intros off Ho. pose proof (Hoff off Ho). lia. }
  destruct (exec_loads callee (fun x => tf <= x < tf + PGSIZE) a0 TRAPFRAME tf PGSIZE [(sp, 8); (tp, 32); (t0, 16); (t1, 0)] [Csrw satp t1; Sfence_vma; Jr t0] h3) as (h4 & -> & [L1 L2 L3 L4]).
  { eapply (window_at h1); [exact W1|done|]. intros x Hx. apply Hout. lia. }
  { exact Ha0. }
  1-4: by_eval.
  assert (Hk : forall r off, (r, off) ∈ [(sp, 8); (tp, 32); (t0, 16); (t1, 0)] -> get h4 r = ld64 (hm h) (tf + off)).
  { intros r off Hin. rewrite (L3 r off Hin). apply ld64_same. intros x Hx. apply Hout. repeat (apply elem_of_cons in Hin as [Hin|Hin]; [injection Hin as -> ->; lia|]). by apply not_elem_of_nil in Hin. }
  cbn [exec]. eexists. split; [f_equal; f_equal; f_equal; apply (Hk t0 16); set_solver|]. cbn [mode set_cr hm cr].
  split; [apply L1|]. split; [|split; [|split; [|split]]].
  - intros r off Hin. rewrite L2. change (hm h3) with m3. apply elem_of_app in Hin as [Hin|Hin%list_elem_of_singleton].
    + assert (Ho : off ∈ user_regs.*2) by (apply list_elem_of_fmap; by exists (r, off)). pose proof (Hoff off Ho). rewrite (ld64_same m) by (intros x Hx; apply Hm3; lia). rewrite (S1 r off Hin).
      unfold h1. rewrite get_set_ne; [done|done|]. intros ->. revert Hin. by_eval.
    + injection Hin as -> ->. unfold m3. apply ld64_st64_eq, Hr.
  - intros x Hx. rewrite L2. by apply Hout.
  - apply (Hk sp 8). set_solver.
  - apply (Hk tp 32). set_solver.
  - rewrite bool_decide_true by done. rewrite <-(Z.add_0_r tf). apply (Hk t1 0). set_solver.
Qed.

Lemma userret_spec callee h s tf : get h a0 = TRAPFRAME -> get h a1 = s -> window (set_cr satp s h) (fun x => tf <= x < tf + PGSIZE) TRAPFRAME tf PGSIZE ->
  exists h', exec callee userret h = Some (ToSret, h') /\ mode h' = mode h /\ hm h' = hm h /\ cr h' satp = s /\ cr h' sscratch = TRAPFRAME /\
    (forall r off, (r, off) ∈ frame_regs -> get h' r = ld64 (hm h) (tf + off)).
Proof.
  intros Ha0 Ha1 W. change userret with (Csrw satp a1 :: Sfence_vma :: Ld t0 112 a0 :: Csrw sscratch t0 :: loads a0 user_regs ++ [Csrrw a0 sscratch a0; Sret]).
  cbn [exec]. rewrite Ha1. set (h1 := set_cr satp s h) in *. change (get h1 a0) with (get h a0). rewrite Ha0. unfold load. pose proof W as (_ & _ & W').
  rewrite u64_small by lia. rewrite (W' (hm h1) ltac:(done) 112 false) by lia. cbn [fmap option_fmap option_map mbind option_bind]. set (v := ld64 (hm h1) (tf + 112)).
  set (h2 := set_cr sscratch _ _). assert (W2 : window h2 (fun x => tf <= x < tf + PGSIZE) TRAPFRAME tf PGSIZE) by exact W.
  destruct (exec_loads callee (fun x => tf <= x < tf + PGSIZE) a0 TRAPFRAME tf PGSIZE user_regs [Csrrw a0 sscratch a0; Sret] h2) as (h3 & -> & [[L1 L1'] L2 L3 L4]).
  { exact W2. }
  { exact Ha0. }
  1-4: by_eval.
  cbn [exec]. assert (Hss : cr h3 sscratch = v) by (rewrite L1'; done). rewrite Hss. eexists. split; [done|]. cbn [mode set set_cr hm cr]. split; [done|]. split; [by rewrite L2|].
  split; [rewrite bool_decide_false by done; by rewrite L1'|]. split.
  - rewrite bool_decide_true by done. rewrite L4; [exact Ha0|]. by_eval.
  - intros r off Hin. apply elem_of_app in Hin as [Hin|Hin%list_elem_of_singleton].
    + rewrite get_set_ne; [by apply (L3 r off)|done|]. intros ->. revert Hin. by_eval.
    + injection Hin as -> ->. by rewrite get_set_eq.
Qed.

Lemma frame_all r : r <> zero -> exists off, (r, off) ∈ frame_regs.
Proof.
  intros Hr. unfold frame_regs, user_regs. destruct r; try done; eexists; cbn [app]; repeat (first [apply list_elem_of_here | apply list_elem_of_further]).
Qed.

(** C5: a trap and the return from it are invisible to the user program.
    uservec saves every user register in the trap frame, writes nothing else,
    and enters usertrap() on the kernel's stack and page table; whatever the
    kernel then does to the hart and to memory, as long as the frame's
    registers other than a0 are still there and usertrapret()'s arguments name
    a page table that maps the frame, userret gives the program back its
    registers, with the a0 the frame holds, and leaves sscratch ready for the
    next trap. *)
Theorem trap_roundtrip callee h root lv tf :
  mode h = Supervisor_mode -> cr h satp = MAKE_SATP root -> cr h sscratch = TRAPFRAME -> mapped (hm h) root lv TRAPFRAME tf -> regs_ok h ->
  exists h1, exec callee uservec h = Some (ToAddr (ld64 (hm h) (tf + 16)), h1) /\
    get h1 sp = ld64 (hm h) (tf + 8) /\ get h1 tp = ld64 (hm h) (tf + 32) /\ cr h1 satp = ld64 (hm h) tf /\
    (forall x, ~ (tf + 40 <= x < tf + 288) -> getb (hm h1) x = getb (hm h) x) /\
    forall k root' lv' tf', mode k = Supervisor_mode -> get k a0 = TRAPFRAME -> get k a1 = MAKE_SATP root' -> mapped (hm k) root' lv' TRAPFRAME tf' ->
      (forall r off, (r, off) ∈ user_regs -> ld64 (hm k) (tf' + off) = ld64 (hm h1) (tf + off)) ->
      exists h2, exec callee userret k = Some (ToSret, h2) /\ hm h2 = hm k /\ cr h2 satp = MAKE_SATP root' /\ cr h2 sscratch = TRAPFRAME /\
        get h2 a0 = ld64 (hm k) (tf' + 112) /\ (forall r, r <> a0 -> get h2 r = get h r) /\
        ld64 (hm h1) (tf + 112) = get h a0.
Proof.
  intros Hm Hs Hss Hmap Hr. destruct (uservec_spec callee h tf Hss (window_page h root lv TRAPFRAME tf Hm Hs Hmap) Hr) as (h1 & E1 & _ & Hsv & Hout & Hsp & Htp & Hsat).
  exists h1. split; [done|]. split; [done|]. split; [done|]. split; [done|]. split; [done|]. intros k root' lv' tf' Hmk Hk0 Hk1 Hmap' Hkeep.
  destruct (userret_spec callee k (MAKE_SATP root') tf' Hk0 Hk1) as (h2 & E2 & _ & Hmem & Hsat2 & Hss2 & Hregs).
  { by apply (window_page (set_cr satp (MAKE_SATP root') k) root' lv'). }
  exists h2. split; [done|]. split; [done|]. split; [done|]. split; [done|]. split; [apply (Hregs a0 112); apply elem_of_app; right; by apply list_elem_of_singleton|]. split.
  - intros r Hra. destruct (decide (r = zero)) as [->|Hz]; [done|]. destruct (frame_all r Hz) as [off Hin]. rewrite (Hregs r off Hin), <-(Hsv r off Hin).
    apply elem_of_app in Hin as [Hin|Hin%list_elem_of_singleton]; [by apply (Hkeep r)|congruence].
  - apply (Hsv a0 112). apply elem_of_app. right. by apply list_elem_of_singleton.
Qed.

(** ** Traps in the kernel *)

Definition kernel_regs : list (reg * Z) :=
  [(gp, 16); (t0, 32); (t1, 40); (t2, 48); (s0, 56); (s1, 64); (a0, 72); (a1, 80); (a2, 88); (a3, 96); (a4, 104); (a5, 112); (a6, 120); (a7, 128);
   (s2, 136); (s3, 144); (s4, 152); (s5, 160); (s6, 168); (s7, 176); (s8, 184); (s9, 192); (s10, 200); (s11, 208); (t3, 216); (t4, 224); (t5, 232); (t6, 240)].
Definition kernel_frame : list (reg * Z) := [(ra, 0); (sp, 8); (gp, 16); (tp, 24)] ++ tail kernel_regs.

(** What a C function called with the frame [D] below it in the stack keeps:
    the stack pointer and the frame's contents.  It may change every other
    register, also tp when the thread moved to another hart meanwhile. *)
Definition returns (D : Z -> Prop) (va pa len : Z) (h1 h2 : hart) : Prop :=
  get h2 sp = get h1 sp /\ (forall x, D x -> getb (hm h2) x = getb (hm h1) x) /\ window h2 D va pa len.

(** C25: a trap while in the kernel is invisible to the code it interrupts:
    kernelvec pushes the registers, calls kerneltrap(), and after it returns
    every register but tp has its old value again; memory is as kerneltrap()
    left it. *)
Theorem kernelvec_transparent callee h pa : let D := fun x => pa <= x < pa + 256 in
  256 <= get h sp -> regs_ok h -> window h D (get h sp - 256) pa 256 ->
  (forall h1, same_hart h h1 -> get h1 sp = get h sp - 256 -> (forall r, r <> sp -> get h1 r = get h r) -> (forall x, ~ D x -> getb (hm h1) x = getb (hm h) x) ->
     exists h2, callee "kerneltrap" h1 = Some h2 /\ returns D (get h sp - 256) pa 256 h1 h2) ->
  exists h1 h2 h3, callee "kerneltrap" h1 = Some h2 /\ (forall r, r <> sp -> get h1 r = get h r) /\ exec callee kernelvec h = Some (ToSret, h3) /\
    (forall r, r <> tp -> get h3 r = get h r) /\ get h3 tp = get h2 tp /\ hm h3 = hm h2 /\ cr h3 = cr h2 /\ mode h3 = mode h2.
Proof.
  intros D Hsp Hr W Hcall. change kernelvec with (Addi sp sp (-256) :: saves sp kernel_frame ++ (Call "kerneltrap" :: Ld ra 0 sp :: Ld sp 8 sp :: loads sp kernel_regs ++ [Addi sp sp 256; Sret])).
  cbn [exec]. pose proof (Hr sp) as Hspr. rewrite (u64_small (get h sp + -256)) by lia. set (v := get h sp + -256). set (h0 := set sp v h).
  assert (Hv : v = get h sp - 256) by (unfold v; lia). rewrite <-Hv in *. assert (Hr0 : regs_ok h0) by (intros r; unfold h0; rewrite get_set by done; case_bool_decide; [lia|apply Hr]).
  assert (W0 : window h0 D v pa 256) by exact W. assert (Hs : slots 256 kernel_frame) by (by_eval).
  destruct (exec_saves callee D sp v pa 256 kernel_frame (Call "kerneltrap" :: Ld ra 0 sp :: Ld sp 8 sp :: loads sp kernel_regs ++ [Addi sp sp 256; Sret]) h0 W0 ltac:(done) eq_refl Hr0 Hs) as (m & -> & [S1 S2]).
  assert (Hin : forall off, off ∈ kernel_frame.*2 -> 0 <= off /\ off + 8 <= 256) by (intros off Ho; destruct Hs as [_ Hs]; rewrite Forall_forall in Hs; by apply Hs).
  set (h1 := set_hm m h0). assert (Hg1 : forall r, r <> sp -> get h1 r = get h r) by (intros r Hne; change (get h1 r) with (get h0 r); unfold h0; by rewrite get_set_ne).
  destruct (Hcall h1) as (h2 & E2 & (R1 & R2 & R3)); [done|done|done| |].
  { intros x Hx. apply S2. intros off Ho. pose proof (Hin off Ho). unfold D in Hx. lia. }
  assert (Hsv : forall r off, (r, off) ∈ kernel_frame -> ld64 (hm h2) (pa + off) = get h0 r).
  { intros r off Ho. rewrite (ld64_same m); [by apply S1|]. intros x Hx. apply R2. destruct (Hin off) as [? ?]; [apply list_elem_of_fmap; by exists (r, off)|]. unfold D. lia. }
  cbn [exec]. rewrite E2. cbn [mbind option_bind]. change (get h1 sp) with v in R1. pose proof R3 as (R3a & R3b & R3').
  unfold load. rewrite R1, (u64_small (v + 0)), (R3' (hm h2) ltac:(done) 0 false) by lia. cbn [fmap option_fmap option_map mbind option_bind].
  set (ha := set ra _ h2). assert (Hsa : get ha sp = v) by exact R1. rewrite Hsa, (u64_small (v + 8)) by lia. change (mode ha) with (mode h2). change (cr ha) with (cr h2). change (hm ha) with (hm h2).
  rewrite (R3' (hm h2) ltac:(done) 8 false) by lia. cbn [fmap option_fmap option_map mbind option_bind]. set (hb := set sp _ ha).
  assert (Hsb : get hb sp = v) by (unfold hb; rewrite get_set_eq by done; apply (Hsv sp 8); by_eval).
  destruct (exec_loads callee D sp v pa 256 kernel_regs [Addi sp sp 256; Sret] hb) as (h3 & -> & [[L1 L1'] L2 L3 L4]); [exact R3|done|..].
  1-4: by_eval.
  cbn [exec]. assert (Hs3 : get h3 sp = v) by (rewrite L4; [done|by_eval]). rewrite Hs3, (u64_small (v + 256)) by lia.
  exists h1, h2. eexists. split; [done|]. split; [done|]. split; [done|]. split; [|split; [|split; [|split]]].
  - intros r Htp. rewrite get_set by done. case_bool_decide as Er; [subst; lia|]. destruct (decide (r = ra)) as [->|Hra].
    + rewrite L4 by (by_eval). unfold hb, ha. rewrite get_set_ne, get_set_eq by done. rewrite (Hsv ra 0); [done|]. by_eval.
    + destruct (decide (r = zero)) as [->|Hz]; [done|]. assert (Hx : exists off, (r, off) ∈ kernel_regs).
      { unfold kernel_regs. destruct r; try done; eexists; repeat (first [apply list_elem_of_here | apply list_elem_of_further]). }
      destruct Hx as [off Ho]. rewrite (L3 r off Ho). change (hm hb) with (hm h2). rewrite (Hsv r off).
      * unfold h0. by rewrite get_set_ne.
      * unfold kernel_frame. unfold kernel_regs in Ho |- *. cbn [tail app]. apply elem_of_cons in Ho as [->|Ho]; [by_eval|]. do 4 right. exact Ho.
  - rewrite get_set_ne, L4 by (done || (by_eval)). done.
  - exact L2.
  - exact L1'.
  - exact L1.
Qed.

(** ** Timer interrupts *)

(** The machine-mode timer interrupt adds the interval to the hart's
    MTIMECMP, raises a supervisor software interrupt and gives the code it
    interrupted all its registers back; of memory only the scratch area and
    MTIMECMP change. *)
Theorem timervec_transparent callee h sc c : mode h = Machine_mode -> cr h mscratch = sc -> c = ld64 (hm h) (sc + 32) -> regs_ok h ->
  0 <= sc -> sc + 48 <= 2 ^ 64 -> 0 <= c -> c + 8 <= 2 ^ 64 -> (c + 8 <= sc \/ sc + 48 <= c) ->
  exists h', exec callee timervec h = Some (ToMret, h') /\ mode h' = Machine_mode /\ (forall r, get h' r = get h r) /\
    cr h' mscratch = sc /\ cr h' sip = 2 /\ cr h' satp = cr h satp /\
    ld64 (hm h') c = u64 (ld64 (hm h) c + ld64 (hm h) (sc + 40)) /\
    (forall x, ~ (sc <= x < sc + 24) -> ~ (c <= x < c + 8) -> getb (hm h') x = getb (hm h) x).
Proof.
  intros Hm Hsc Hc Hr H0 H1 H2 H3 Hap.
  change timervec with (Csrrw a0 mscratch a0 :: saves a0 [(a1, 0); (a2, 8); (a3, 16)] ++ (loads a0 [(a1, 32); (a2, 40)] ++
    (Ld a3 0 a1 :: Add a3 a3 a2 :: Sd a3 0 a1 :: Li a1 2 :: Csrw sip a1 :: loads a0 [(a3, 16); (a2, 8); (a1, 0)] ++ [Csrrw a0 mscratch a0; Mret]))).
  cbn [exec]. set (h1 := set a0 _ _). assert (Ha0 : get h1 a0 = sc) by exact Hsc.
  assert (Hr1 : regs_ok h1) by (intros r; unfold h1; rewrite get_set by done; case_bool_decide; [rewrite Hsc; lia|apply Hr]).
  set (D := fun x : Z => True). assert (W : forall k, mode k = Machine_mode -> window k D sc sc 48) by (intros k Hk; by apply window_machine).
  destruct (exec_saves callee D a0 sc sc 48 [(a1, 0); (a2, 8); (a3, 16)] (loads a0 [(a1, 32); (a2, 40)] ++
    (Ld a3 0 a1 :: Add a3 a3 a2 :: Sd a3 0 a1 :: Li a1 2 :: Csrw sip a1 :: loads a0 [(a3, 16); (a2, 8); (a1, 0)] ++ [Csrrw a0 mscratch a0; Mret])) h1) as (m1 & -> & [S1 S2]);
    [by apply W|done|done|done|by_eval|].
  assert (Hm1 : forall x, ~ (sc <= x < sc + 24) -> getb m1 x = getb (hm h) x).
  { intros x Hx. apply S2. intros off Ho. cbn in Ho. rewrite !elem_of_cons, elem_of_nil in Ho. lia. }
  set (h2 := set_hm m1 h1). destruct (exec_loads callee D a0 sc sc 48 [(a1, 32); (a2, 40)]
    (Ld a3 0 a1 :: Add a3 a3 a2 :: Sd a3 0 a1 :: Li a1 2 :: Csrw sip a1 :: loads a0 [(a3, 16); (a2, 8); (a1, 0)] ++ [Csrrw a0 mscratch a0; Mret]) h2) as (h3 & -> & [[M3 C3] L2 L3 L4]);
    [by apply W|done|by_eval|by_eval|by_eval|by_eval|].
  assert (Hmode3 : mode h3 = Machine_mode) by (rewrite M3; exact Hm).
  assert (E1 : get h3 a1 = c) by (rewrite (L3 a1 32) by (rewrite elem_of_cons; by left); rewrite Hc; apply ld64_same; intros x Hx; apply Hm1; lia).
  assert (E2 : get h3 a2 = ld64 (hm h) (sc + 40)) by (rewrite (L3 a2 40) by (rewrite !elem_of_cons; by right; left); apply ld64_same; intros x Hx; apply Hm1; lia).
  cbn [exec]. unfold load at 1. rewrite E1, Hmode3, Z.add_0_r, u64_small by lia. cbn [translate fmap option_fmap option_map mbind option_bind]. set (h4 := set a3 _ h3).
  change (get h4 a2) with (get h3 a2). rewrite E2. set (h5 := set a3 _ h4). unfold store. change (get h5 a1) with (get h3 a1). rewrite E1, Z.add_0_r, u64_small by lia. change (mode h5) with (mode h3). rewrite Hmode3. cbn [translate fmap option_fmap option_map mbind option_bind].
  set (h6 := set_cr sip _ _). change (get h4 a3) with (ld64 (hm h3) c) in *.
  destruct (exec_loads callee D a0 sc sc 48 [(a3, 16); (a2, 8); (a1, 0)] [Csrrw a0 mscratch a0; Mret] h6) as (h7 & -> & [[M7 C7] N2 N3 N4]); [by apply W| |by_eval|by_eval|by_eval|by_eval|].
  { change (get h6 a0) with (get h3 a0). rewrite L4 by by_eval. exact Ha0. }
  change (hm h2) with m1 in L2. assert (E0 : ld64 (hm h3) c = ld64 (hm h) c) by (rewrite L2; apply ld64_same; intros x Hx; apply Hm1; lia).
  assert (Hm6 : forall x, ~ (c <= x < c + 8) -> getb (hm h6) x = getb m1 x) by (intros x Hx; rewrite <-L2; apply getb_link; lia).
  assert (Hsv : forall r off, (r, off) ∈ [(a1, 0); (a2, 8); (a3, 16)] -> ld64 (hm h6) (sc + off) = get h1 r).
  { intros r off Ho. rewrite <-(S1 r off Ho). apply ld64_same. intros x Hx. apply Hm6. rewrite !elem_of_cons, elem_of_nil in Ho. destruct Ho as [Ho|[Ho|[Ho|[]]]]; injection Ho as -> ->; lia. }
  cbn [exec]. eexists. split; [done|]. split; [by rewrite <-Hmode3|]. split; [|split; [|split; [|split; [|split]]]].
  - intros r. rewrite get_set by done. case_bool_decide as Er; [subst r; rewrite C7; unfold h6, h5, h4; cbn [cr set set_cr set_hm]; rewrite bool_decide_false, C3 by done; done|].
    change (get (set_cr mscratch (get h7 a0) h7) r) with (get h7 r). destruct (decide (r ∈ [a1; a2; a3])) as [Hin|Hout].
    + rewrite !elem_of_cons, elem_of_nil in Hin. destruct Hin as [->|[->|[->|[]]]]; [rewrite (N3 a1 0), (Hsv a1 0) by by_eval|rewrite (N3 a2 8), (Hsv a2 8) by by_eval|rewrite (N3 a3 16), (Hsv a3 16) by by_eval]; reflexivity.
    + rewrite !not_elem_of_cons in Hout. destruct Hout as (O1 & O2 & O3 & _). rewrite N4 by (cbn; rewrite !not_elem_of_cons; split_and!; [done..|apply not_elem_of_nil]).
      unfold h6. change (get (set_cr ?c ?v ?k) r) with (get k r). rewrite get_set_ne by done. change (get (set_hm ?m ?k) r) with (get k r). unfold h5, h4.
      rewrite !get_set_ne, L4 by (done || (cbn; rewrite !not_elem_of_cons; split_and!; [done..|apply not_elem_of_nil])). change (get h2 r) with (get h1 r). unfold h1. by rewrite get_set_ne.
  - cbn [cr set set_cr]. rewrite bool_decide_true by done. rewrite N4 by by_eval. change (get h6 a0) with (get h3 a0). rewrite L4 by by_eval. exact Ha0.
  - cbn [cr set set_cr]. rewrite bool_decide_false, C7 by done. done.
  - cbn [cr set set_cr]. rewrite bool_decide_false, C7 by done. unfold h6. cbn [cr set set_cr set_hm]. rewrite bool_decide_false by done. unfold h5, h4. cbn [cr set]. rewrite C3. done.
  - cbn [hm set set_cr]. rewrite N2, <-E0. apply ld64_st64_eq, u64_range.
  - intros x Hx Hx'. cbn [hm set set_cr]. rewrite N2, Hm6 by done. by apply Hm1.
Qed.

(** ** Context switches *)

(** C14: swtch() returns to its caller with the caller's registers.  A thread
    that calls swtch(old, new) has its callee-saved registers, stack pointer
    and return address stored in old and nothing else written; when any hart
    later calls swtch(other, old) with old unchanged, it continues where the
    thread called swtch(), with those registers. *)
Theorem swtch_roundtrip callee h old new : can_switch h old new -> regs_ok h ->
  exists h1, exec callee swtch h = Some (ToAddr (ld64 (hm h) new), h1) /\
    (forall r off, (r, off) ∈ ctx -> get h1 r = ld64 (hm h) (new + off)) /\
    (forall x, ~ (old <= x < old + 112) -> getb (hm h1) x = getb (hm h) x) /\
    forall k other, can_switch k other old -> regs_ok k -> (forall x, old <= x < old + 112 -> getb (hm k) x = getb (hm h1) x) ->
      exists h2, exec callee swtch k = Some (ToAddr (get h ra), h2) /\ forall r, r ∈ ctx.*1 -> get h2 r = get h r.
Proof.
  intros Hc Hr. destruct (swtch_spec callee h old new Hc Hr) as (h1 & E1 & _ & Hctx & _ & Hout). exists h1. split; [done|]. split; [intros r off Hin; by apply Hctx|]. split; [done|].
  intros k other Hc' Hr' Hkeep. destruct (swtch_spec callee k other old Hc' Hr') as (h2 & E2 & _ & Hctx' & _).
  assert (Hld : forall r off, (r, off) ∈ ctx -> ld64 (hm k) (old + off) = get h r).
  { intros r off Hin. destruct (Hctx r off Hin) as [<- _]. apply ld64_same. intros x Hx. apply Hkeep.
    assert (HF : Forall (fun off => 0 <= off <= 104) ctx.*2) by by_eval. rewrite Forall_forall in HF. destruct (HF off); [apply list_elem_of_fmap; by exists (r, off)|lia]. }
  exists h2. split.
  - rewrite E2. pose proof (Hld ra 0 ltac:(by_eval)) as Hra. by rewrite Z.add_0_r in Hra; rewrite Hra.
  - intros r Hin. apply list_elem_of_fmap in Hin as ([r' off] & -> & Hin). cbn [fst]. destruct (Hctx' r' off Hin) as [_ ->]. by apply Hld.
Qed.

(** ** Booting, and system calls from user space *)

(** entry.S gives each hart its own page of stack0 before it calls
    start(): hart [n] starts with sp at the end of the n-th page. *)
Theorem entry_stack callee stack0 h n : cr h mhartid = n -> 0 <= n < 8 -> 0 <= stack0 -> stack0 + 8 * 4096 < 2 ^ 64 ->
  exists h1, exec callee (entry_code stack0) h = (h2 ← callee "start" h1; Some (ToLabel "junk", h2)) /\ get h1 sp = stack0 + (n + 1) * 4096 /\ hm h1 = hm h.
Proof.
  intros Hn Hr H0 H1. unfold entry_code. cbn [exec]. eexists. split; [reflexivity|]. split; [|done]. change (u64 (stack0 + u64 (4096 * u64 (cr h mhartid + 1))) = stack0 + (n + 1) * 4096). rewrite Hn.
  rewrite (u64_small (n + 1)), (u64_small (_ * _)), u64_small by lia. lia.
Qed.

(** The stub that usys.pl generates for a call raises a system call whose
    number syscall() dispatches to the handler of that name, changing no
    register but a7, and then returns to its caller. *)
Theorem stub_dispatch : Forall2 (fun name handler => exists n, stub name = Some [Li a7 n; Ecall; Ret] /\ Syscall.syscalls (s32 n) = Some handler /\
    forall callee h, exists h1, exec callee [Li a7 n; Ecall; Ret] h = Some (ToKernel [Ret], h1) /\ get h1 a7 = n /\ (forall r, r <> a7 -> get h1 r = get h r) /\
      forall k, exec callee [Ret] k = Some (ToAddr (get k ra), k)) usys
  [Syscall.sys_fork; Syscall.sys_exit; Syscall.sys_wait; Sysfile.sys_pipe; Sysfile.sys_read; Sysfile.sys_write; Sysfile.sys_close; Syscall.sys_kill; Sysfile.sys_exec;
   Sysfile.sys_open; Sysfile.sys_mknod; Sysfile.sys_unlink; Sysfile.sys_fstat; Sysfile.sys_link; Sysfile.sys_mkdir; Sysfile.sys_chdir; Sysfile.sys_dup; Syscall.sys_getpid;
   Syscall.sys_sbrk; Syscall.sys_sleep; Syscall.sys_uptime; Syscall.sys_ntas].
Proof.
  assert (Hex : forall n callee h, exists h1, exec callee [Li a7 n; Ecall; Ret] h = Some (ToKernel [Ret], h1) /\ get h1 a7 = n /\ (forall r, r <> a7 -> get h1 r = get h r) /\
      forall k, exec callee [Ret] k = Some (ToAddr (get k ra), k)).
  { intros n callee h. exists (set a7 n h). split; [done|]. split; [by rewrite get_set_eq|]. split; [|done]. intros r Hr. by rewrite get_set_ne. }
  unfold usys. repeat first [apply Forall2_nil_2 | apply Forall2_cons; split; [eexists; split; [reflexivity|]; split; [reflexivity|apply Hex]|]].
Qed.

(** The first user program calls exec() with its path and argument
    vector, and exit() for ever if that returns. *)
Theorem initcode_calls callee init argv h : exists h1, exec callee (initcode init argv) h = Some (ToKernel [Li a7 SYS_exit; Ecall; J "exit"], h1) /\
  get h1 a7 = SYS_exec /\ get h1 a0 = init /\ get h1 a1 = argv /\
  forall k, exists h2, exec callee [Li a7 SYS_exit; Ecall; J "exit"] k = Some (ToKernel [J "exit"], h2) /\ get h2 a7 = SYS_exit.
Proof. eexists. split; [reflexivity|]. split; [done|]. split; [done|]. split; [done|]. intros k. eexists. by split. Qed.

(** ** Examples *)

(** A page table with one page mapped, at TRAPFRAME. *)
Definition page (i : Z) : Z := KERNBASE + i * PGSIZE.
Definition tf_memory : mem :=
  let m := st64 ∅ (page 1 + 8 * 255) (Z.lor (PA2PTE (page 2)) PTE_V) in
  let m := st64 m (page 2 + 8 * 511) (Z.lor (PA2PTE (page 3)) PTE_V) in
  st64 m (page 3 + 8 * 510) (leaf_pte (page 4) (Z.lor PTE_R PTE_W)).
Definition tf_tables : gmap Z nat := {[ page 1 := 2%nat; page 2 := 1%nat; page 3 := 0%nat ]}.

Lemma tf_entries : Forall (fun i => (i <> 255 -> entry tf_memory (page 1) i = 0) /\ (i <> 511 -> entry tf_memory (page 2) i = 0)) (seqZ 0 512).
Proof. by_eval. Qed.

Lemma tf_valid t l i : tf_tables !! t = Some (Datatypes.S l) -> 0 <= i < 512 -> pte_has (entry tf_memory t i) PTE_V = true ->
  (t = page 1 /\ i = 255 /\ l = 1%nat /\ PTE2PA (entry tf_memory t i) = page 2) \/ (t = page 2 /\ i = 511 /\ l = 0%nat /\ PTE2PA (entry tf_memory t i) = page 3).
Proof.
  intros Ht Hi Hv. pose proof tf_entries as HE. rewrite Forall_forall in HE. destruct (HE i) as [E1 E2]; [apply elem_of_seqZ; lia|]. unfold tf_tables in Ht.
  apply lookup_insert_Some in Ht as [[<- [= <-]]|[_ Ht]].
  { left. destruct (decide (i = 255)) as [->|Hne]; [split_and!; vm_compute; done|]. by rewrite E1 in Hv. }
  apply lookup_insert_Some in Ht as [[<- [= <-]]|[_ Ht]].
  { right. destruct (decide (i = 511)) as [->|Hne]; [split_and!; vm_compute; done|]. by rewrite E2 in Hv. }
  by apply lookup_singleton_Some in Ht as [_ [=]].
Qed.

Lemma tf_lookup t l : tf_tables !! t = Some l -> (t = page 1 /\ l = 2%nat) \/ (t = page 2 /\ l = 1%nat) \/ (t = page 3 /\ l = 0%nat).
Proof.
  unfold tf_tables. intros Ht. apply lookup_insert_Some in Ht as [[<- <-]|[_ Ht]]; [by left|]. apply lookup_insert_Some in Ht as [[<- <-]|[_ Ht]]; [by right; left|].
  apply lookup_singleton_Some in Ht as [<- <-]. by right; right.
Qed.

Lemma tf_mapped : mapped tf_memory (page 1) tf_tables TRAPFRAME (page 4).
Proof.
  split; [split| | | |].
  - by_eval.
  - intros t l Ht. destruct (tf_lookup t l Ht) as [[-> ->]|[[-> ->]|[-> ->]]]; split; (done || lia).
  - intros t l Ht. destruct (tf_lookup t l Ht) as [[-> ->]|[[-> ->]|[-> ->]]]; vm_compute; done.
  - intros t l i Ht Hi Hv. destruct (tf_valid t l i Ht Hi Hv) as [(-> & -> & -> & ->)|(-> & -> & -> & ->)]; by_eval.
  - intros t l i t' l' i' Ht Hi Hv Ht' Hi' Hv' E. destruct (tf_valid t l i Ht Hi Hv) as [(-> & -> & _ & E1)|(-> & -> & _ & E1)]; destruct (tf_valid t' l' i' Ht' Hi' Hv') as [(-> & -> & _ & E2)|(-> & -> & _ & E2)];
      [split; reflexivity| | |split; reflexivity]; exfalso; rewrite E1, E2 in E; vm_compute in E; discriminate E.
  - intros t l i Ht Hi Hv. destruct (tf_valid t l i Ht Hi Hv) as [(-> & -> & -> & _)|(-> & -> & -> & _)]; (split; [by_eval|lia]).
  - intros t l Ht Hne. destruct (tf_lookup t l Ht) as [[-> ->]|[[-> ->]|[-> ->]]]; [done|exists (page 1), 255|exists (page 2), 511]; (split_and!; [by_eval|lia|lia|by_eval|by_eval]).
  - by_eval.
  - by_eval.
  - by_eval.
  - split; vm_compute; done.
Qed.

Definition hart0 (p : priv) (m : mem) (crs : creg -> Z) : hart := mkHart p (fun _ => 7) crs m.
Definition no_call (f : string) (h : hart) : option hart := None.

Lemma hart0_regs p m crs : regs_ok (hart0 p m crs).
Proof. intros r. destruct r; vm_compute; done. Qed.

Definition trapped : hart := hart0 Supervisor_mode tf_memory (fun c => match c with sscratch => TRAPFRAME | satp => MAKE_SATP (page 1) | _ => 0 end).

Lemma trap_roundtrip_witness : exists h1, exec no_call uservec trapped = Some (ToAddr (ld64 tf_memory (page 4 + 16)), h1).
Proof.
  destruct (trap_roundtrip no_call trapped (page 1) tf_tables (page 4) eq_refl eq_refl eq_refl tf_mapped (hart0_regs _ _ _)) as (h1 & E & _). by exists h1.
Defined.

(** Before the page table is installed satp is 0 and addresses are physical. *)
Lemma window_bare h D a len : mode h = Supervisor_mode -> cr h satp = 0 -> 0 <= a -> a + len <= 2 ^ 64 -> window h D a a len.
Proof. intros Hm Hs H0 H1. split; [done|]. split; [done|]. intros m' _ o w _ _. by rewrite Hm, Hs. Qed.

Lemma regs_ok_set r v h : r <> zero -> 0 <= v < 2 ^ 64 -> regs_ok h -> regs_ok (set r v h).
Proof. intros Hz Hv Hr x. rewrite get_set by done. case_bool_decide; [done|apply Hr]. Qed.

Lemma regs_ok_mem m h : regs_ok h -> regs_ok (set_hm m h).
Proof. intros Hr r. exact (Hr r). Qed.

Definition switching : hart := set a0 4096 (set a1 8192 (hart0 Supervisor_mode ∅ (fun _ => 0))).

Lemma swtch_roundtrip_witness : exists h1, exec no_call swtch switching = Some (ToAddr 0, h1) /\
  exists h2, exec no_call swtch (set_hm (hm h1) (set a0 8192 (set a1 4096 (hart0 Supervisor_mode ∅ (fun _ => 0))))) = Some (ToAddr 7, h2) /\ get h2 s0 = 7 /\ get h2 sp = 7.
Proof.
  destruct (swtch_roundtrip no_call switching 4096 8192) as (h1 & E & _ & _ & Hback).
  - split; [reflexivity|]. split; [reflexivity|]. split; [reflexivity|]. split; [left; lia|]. split; apply window_bare; (reflexivity || lia).
  - apply regs_ok_set; [done|lia|]. apply regs_ok_set; [done|lia|]. apply hart0_regs.
  - exists h1. split; [exact E|].
    destruct (Hback (set_hm (hm h1) (set a0 8192 (set a1 4096 (hart0 Supervisor_mode ∅ (fun _ => 0))))) 8192) as (h2 & E2 & Hr).
    + split; [reflexivity|]. split; [reflexivity|]. split; [reflexivity|]. split; [right; lia|]. split; apply window_bare; (reflexivity || lia).
    + apply regs_ok_mem, (regs_ok_set a0); [discriminate|lia|]. apply (regs_ok_set a1); [discriminate|lia|]. apply hart0_regs.
    + intros x _. reflexivity.
    + exists h2. split; [exact E2|]. split; [apply (Hr s0)|apply (Hr sp)]; by_eval.
Defined.

Definition in_kernel : hart := set sp 8192 (hart0 Supervisor_mode ∅ (fun _ => 0)).
Definition handler (f : string) (h : hart) : option hart := Some (set s1 1 (set tp 1 (set a0 0 h))).

Lemma kernelvec_transparent_witness : exists h3, exec handler kernelvec in_kernel = Some (ToSret, h3) /\ get h3 s1 = 7 /\ get h3 sp = 8192 /\ get h3 tp = 1.
Proof.
  destruct (kernelvec_transparent handler in_kernel 7936) as (h1 & h2 & h3 & E1 & _ & E3 & Hr & Htp & _).
  - vm_compute. done.
  - apply regs_ok_set; [done|lia|]. apply hart0_regs.
  - by apply window_bare.
  - intros h1 [S1 S2] Hsp _ _. eexists. split; [reflexivity|]. split; [done|]. split; [done|]. apply window_bare; cbn; rewrite ?S1, ?S2; done.
  - exists h3. split; [exact E3|]. split; [by rewrite Hr|]. split; [by rewrite Hr|]. rewrite Htp. injection E1 as <-. done.
Defined.

Definition ticking : hart := hart0 Machine_mode (st64 (st64 (st64 ∅ (4096 + 32) 33570816) (4096 + 40) 1000000) 33570816 5) (fun c => match c with mscratch => 4096 | _ => 0 end).

Lemma timervec_transparent_witness : exists h', exec no_call timervec ticking = Some (ToMret, h') /\ get h' a1 = 7 /\ ld64 (hm h') 33570816 = 1000005.
Proof.
  destruct (timervec_transparent no_call ticking 4096 33570816) as (h' & E & _ & Hr & _ & _ & _ & Hc & _);
    [reflexivity|reflexivity|vm_compute; reflexivity|apply hart0_regs|lia|lia|lia|lia|lia|].
  exists h'. split; [exact E|]. split; [by rewrite Hr|]. rewrite Hc. reflexivity.
Defined.

Lemma entry_stack_witness : exists h1, exec (fun _ h => Some h) (entry_code 2147520512) (hart0 Machine_mode ∅ (fun _ => 3)) = Some (ToLabel "junk", h1) /\ get h1 sp = 2147520512 + 4 * 4096.
Proof.
  destruct (entry_stack (fun _ h => Some h) 2147520512 (hart0 Machine_mode ∅ (fun _ => 3)) 3) as (h1 & E & Hsp & _); [done|lia|lia|lia|]. exists h1. split; [exact E|exact Hsp].
Defined.
End AsmProof.
