(* ===== verification/User.v ===== *)
(** * User programs (user/user.h)

    A user program is a value of [prog]: it returns, makes a system call and
    continues with the reply, or has run out of the fuel of one of its loops.
    Pointers passed to the kernel are replaced by the bytes they point to.

    [wp] gives the meaning of a program that reads and writes files: a read
    returns any non-empty part of what is left (or nothing at the end), so a
    theorem about [wp] holds however the kernel splits the input. *)

From S2P Require Import Prelude Bytes KState.

Module User.

(** The system calls of user.h, with the type of the reply. *)
Inductive sys : Type -> Type :=
| Fork : sys Z
| Exit (status : Z) : sys Empty_set
| Wait : sys Z
| Pipe : sys (Z * (Z * Z))
| Write (fd : Z) (bs : list Z) : sys Z
| Read (fd n : Z) : sys (Z * list Z)
| Close (fd : Z) : sys Z
| Kill (pid : Z) : sys Z
| Exec (path : list Z) (argv : list (list Z)) : sys Z
| Open (path : list Z) (mode : Z) : sys Z
| Mknod (path : list Z) (major minor : Z) : sys Z
| Unlink (path : list Z) : sys Z
| Fstat (fd : Z) : sys (Z * (Z * Z * Z))
| Mkdir (path : list Z) : sys Z
| Chdir (path : list Z) : sys Z
| Dup (fd : Z) : sys Z
| Getpid : sys Z
| Sbrk (n : Z) : sys Z
| Sleep (n : Z) : sys Z
| Link (old new : list Z) : sys Z
| Uptime : sys Z.

Inductive prog (R : Type) : Type :=
| Ret (r : R)
| Call {X : Type} (c : sys X) (k : X -> prog R)
| Fuel.
Arguments Ret {_} _.
Arguments Call {_ _} _ _.
Arguments Fuel {_}.

Fixpoint bindp {R S} (p : prog R) (f : R -> prog S) : prog S :=
  match p with
  | Ret r => f r
  | Call c k => Call c (fun x => bindp (k x) f)
  | Fuel => Fuel
  end.
Definition call {X} (c : sys X) : prog X := Call c Ret.
Definition exit {R} (status : Z) : prog R := Call (Exit status) (fun x : Empty_set => match x with end).

Declare Scope prog_scope.
Delimit Scope prog_scope with prog.
Notation "x <- p ;; q" := (bindp p (fun x => q)) (at level 100, p at next level, right associativity) : prog_scope.
Notation "p ;; q" := (bindp p (fun _ => q)) (at level 100, right associativity) : prog_scope.
#[global] Open Scope prog_scope.

(** [while]: the body yields the next loop state or the result. *)
Fixpoint loop {X R} (fuel : nat) (body : X -> prog (X + R)) (x : X) : prog R :=
  match fuel with
  | O => Fuel
  | S n => r <- body x ;; match r with inl x' => loop n body x' | inr v => Ret v end
  end.
Fixpoint each {X} (l : list X) (body : X -> prog unit) : prog unit :=
  match l with
  | [] => Ret tt
  | x :: l' => body x ;; each l' body
  end.

(** C strings in the text of a program. *)
Definition text (s : string) : list Z :=
  map (fun c => Z.of_N (Ascii.N_of_ascii c)) (String.list_ascii_of_string s).

#[global] Arguments text : simpl never.

(** ** Files and streams *)

Record world := mkWorld {
  files : list Z -> option (list Z);     (* readable files by name *)
  fds : gmap Z (list Z);                 (* open for reading: bytes not read yet *)
  trace : list (Z * list Z);             (* the writes, latest last *)
  info : list Z -> Z * Z;                (* type and inode number of each file *)
  paths : gmap Z (list Z)                (* the name each descriptor was opened with *)
}.
Definition set_fds (f : gmap Z (list Z)) (w : world) : world := mkWorld (files w) f (trace w) (info w) (paths w).
Definition set_paths (f : gmap Z (list Z)) (w : world) : world := mkWorld (files w) (fds w) (trace w) (info w) f.
Definition emit (fd : Z) (bs : list Z) (w : world) : world := mkWorld (files w) (fds w) (trace w ++ [(fd, bs)]) (info w) (paths w).

(** A world in which the names do not matter. *)
Definition world_of (files : list Z -> option (list Z)) (fds : gmap Z (list Z)) : world := mkWorld files fds [] (fun _ => (2, 1)) ∅.

(** What has been written to [fd]. *)
Definition written_to (fd : Z) (w : world) : list Z :=
  concat ((fun x => if x.1 =? fd then x.2 else []) <$> trace w).

Lemma written_emit fd fd' bs w : written_to fd (emit fd' bs w) = written_to fd w ++ if fd' =? fd then bs else [].
Proof. unfold written_to, emit. cbn. rewrite fmap_app, concat_app. cbn. by rewrite app_nil_r. Qed.
Lemma written_set_fds fd f w : written_to fd (set_fds f w) = written_to fd w.
Proof. done. Qed.

#[global] Arguments written_to : simpl never.

(** The same files and descriptors. *)
Definition quiet (w w' : world) : Prop := files w' = files w /\ fds w' = fds w /\ info w' = info w /\ paths w' = paths w.

Lemma quiet_refl w : quiet w w.
Proof. by split_and!. Qed.
Lemma quiet_trans w1 w2 w3 : quiet w1 w2 -> quiet w2 w3 -> quiet w1 w3.
Proof. intros (A1 & A2 & A3 & A4) (B1 & B2 & B3 & B4). split_and!; congruence. Qed.
Lemma quiet_emit fd bs w : quiet w (emit fd bs w).
Proof. by split_and!. Qed.

Lemma written_set_paths fd f w : written_to fd (set_paths f w) = written_to fd w.
Proof. done. Qed.

(** What a read of [n] bytes may return when [rest] is left. *)
Definition read_ok (n : Z) (rest bs : list Z) : Prop :=
  (exists rest', rest = bs ++ rest') /\ Z.of_nat (length bs) <= Z.max 0 n /\ (0 < n -> rest <> [] -> bs <> []).

(** A directory is read in full records. *)
Definition is_dir (w : world) (fd : Z) : bool :=
  match paths w !! fd with Some path => (info w path).1 =? T_DIR | None => false end.

(** [Q] holds of every result, [X] of every exit status; calls other than
    those on files are not covered. *)
Fixpoint wp {R} (p : prog R) (w : world) (Q : R -> world -> Prop) (X : Z -> world -> Prop) : Prop :=
  match p with
  | Ret r => Q r w
  | Fuel => False
  | @Call _ Y c k =>
      match c in sys Y return (Y -> prog R) -> Prop with
      | Read fd n => fun k =>
          match fds w !! fd with
          | None => wp (k (-1, [])) w Q X
          | Some rest => forall bs, read_ok n rest bs -> (is_dir w fd = true -> bs = take (Z.to_nat n) rest) ->
              wp (k (Z.of_nat (length bs), bs)) (set_fds (<[fd := drop (length bs) rest]> (fds w)) w) Q X
          end
      | Write fd bs => fun k => wp (k (Z.of_nat (length bs))) (emit fd bs w) Q X
      | Open path mode => fun k =>
          match files w path with
          | None => wp (k (-1)) w Q X
          | Some data => forall fd, 0 <= fd -> fds w !! fd = None -> wp (k fd) (set_paths (<[fd := path]> (paths w)) (set_fds (<[fd := data]> (fds w)) w)) Q X
          end
      | Close fd => fun k => wp (k 0) (set_paths (delete fd (paths w)) (set_fds (delete fd (fds w)) w)) Q X
      | Fstat fd => fun k =>
          match paths w !! fd with
          | None => wp (k (-1, (0, 0, 0))) w Q X
          | Some path => wp (k (0, (info w path, Z.of_nat (length (default [] (files w path)))))) w Q X
          end
      | Exit status => fun _ => X status w
      | _ => fun _ => False
      end k
  end.

Lemma wp_mono {R} (p : prog R) : forall w (Q Q' : R -> world -> Prop) X, wp p w Q X -> (forall r w', Q r w' -> Q' r w') -> wp p w Q' X.
Proof.
  induction p as [r|Y c k IH|]; intros w Q Q' X Hp HQ; cbn in *; [by apply HQ|destruct c; try done; try (by eapply IH)|done].
  - destruct (fds w !! fd) as [rest|]; [intros bs Hbs Hd|]; eapply IH; eauto.
  - destruct (files w path); [intros fd H1 H2|]; eapply IH; eauto.
  - destruct (paths w !! fd); eapply IH; eauto.
Qed.

Lemma wp_bind {R S} (p : prog R) (f : R -> prog S) : forall w Q X,
  wp p w (fun r w' => wp (f r) w' Q X) X -> wp (bindp p f) w Q X.
Proof.
  induction p as [r|Y c k IH|]; intros w Q X Hp; cbn in *; [done|destruct c; try done; try (by apply IH)|done].
  - destruct (fds w !! fd) as [rest|]; [intros bs Hbs Hd|]; apply IH; auto.
  - destruct (files w path); [intros fd H1 H2|]; apply IH; auto.
  - destruct (paths w !! fd); apply IH; auto.
Qed.

(** A loop whose states satisfy [I] and get smaller. *)
Lemma wp_loop {A R} (body : A -> prog (A + R)) (I : A -> world -> Prop) (measure : A -> world -> nat) Q X :
  (forall x w, I x w -> wp (body x) w (fun r w' =>
     match r with inl x' => I x' w' /\ (measure x' w' < measure x w)%nat | inr v => Q v w' end) X) ->
  forall fuel x w, I x w -> (measure x w < fuel)%nat -> wp (loop fuel body x) w Q X.
Proof.
  intros Hbody. induction fuel as [|fuel IH]; intros x w HI Hf; [lia|]. cbn [loop]. apply wp_bind.
  eapply wp_mono; [by apply Hbody|]. intros [x'|v] w' H; [|done]. destruct H as [HI' Hm]. apply IH; [done|lia].
Qed.

(** The calls of [wp] as rules. *)
Lemma wp_read fd n w rest (Q : Z * list Z -> world -> Prop) X : fds w !! fd = Some rest ->
  (forall bs rest', rest = bs ++ rest' -> Z.of_nat (length bs) <= Z.max 0 n -> (0 < n -> rest <> [] -> bs <> []) ->
     Q (Z.of_nat (length bs), bs) (set_fds (<[fd := rest']> (fds w)) w)) ->
  wp (call (Read fd n)) w Q X.
Proof.
  intros Hfd HQ. cbn. rewrite Hfd. intros bs ((rest' & Hr) & Hl & Hne) _.
  assert (drop (length bs) rest = rest') as -> by (subst rest; by rewrite drop_app_length). by apply HQ.
Qed.
Lemma wp_read_dir fd n w rest (Q : Z * list Z -> world -> Prop) X : fds w !! fd = Some rest -> is_dir w fd = true ->
  Q (Z.of_nat (length (take (Z.to_nat n) rest)), take (Z.to_nat n) rest) (set_fds (<[fd := drop (Z.to_nat n) rest]> (fds w)) w) -> wp (call (Read fd n)) w Q X.
Proof.
  intros Hfd Hd HQ. cbn. rewrite Hfd. intros bs _ Hbs. rewrite (Hbs Hd). rewrite length_take. cbn.
  replace (drop (Z.to_nat n `min` length rest) rest) with (drop (Z.to_nat n) rest); [rewrite length_take in HQ; exact HQ|].
  destruct (Nat.min_spec (Z.to_nat n) (length rest)) as [[_ ->]|[Hle ->]]; [done|]. by rewrite !drop_ge by lia.
Qed.
Lemma wp_write fd bs w (Q : Z -> world -> Prop) X : Q (Z.of_nat (length bs)) (emit fd bs w) -> wp (call (Write fd bs)) w Q X.
Proof. done. Qed.

Lemma wp_open path mode w (Q : Z -> world -> Prop) X : (files w path = None -> Q (-1) w) ->
  (forall data fd, files w path = Some data -> 0 <= fd -> fds w !! fd = None -> Q fd (set_paths (<[fd := path]> (paths w)) (set_fds (<[fd := data]> (fds w)) w))) ->
  wp (call (Open path mode)) w Q X.
Proof. intros H1 H2. cbn. destruct (files w path) as [data|]; [intros fd; by apply H2|by apply H1]. Qed.
Lemma wp_fstat fd path w (Q : Z * (Z * Z * Z) -> world -> Prop) X : paths w !! fd = Some path ->
  Q (0, (info w path, Z.of_nat (length (default [] (files w path))))) w -> wp (call (Fstat fd)) w Q X.
Proof. intros Hp HQ. cbn. by rewrite Hp. Qed.
Lemma wp_close fd w (Q : Z -> world -> Prop) X : Q 0 (set_paths (delete fd (paths w)) (set_fds (delete fd (fds w)) w)) -> wp (call (Close fd)) w Q X.
Proof. done. Qed.

End User.
