(* ===== verification/Ulib.v ===== *)
(** * The user library (user/ulib.c, user/printf.c)

    String and memory functions over a [ByteStore], loop for loop, with the
    bytes each leaves behind; printf as the bytes it writes.  [fuel] bounds
    the length of the strings the loops scan. *)

From S2P Require Import Prelude Bytes CString KState User.

Module Ulib.
Import User.

Section ops.
Context {B : Type} `{!ByteStore B}.
Implicit Types m : B.

(** [while(( *s++ = *t++ ) != 0);] *)
Fixpoint strcpy (fuel : nat) m (s t : Z) : option B :=
  match fuel with
  | O => None
  | S fuel' =>
      let c := getb m t in
      let m := setb m s c in
      if c =? 0 then Some m else strcpy fuel' m (s + 1) (t + 1)
  end.

(** [while( *p && *p == *q ) p++, q++; return (uchar)*p - (uchar)*q;] *)
Fixpoint strcmp (fuel : nat) m (p q : Z) : option Z :=
  match fuel with
  | O => None
  | S fuel' =>
      let a := getb m p in let b := getb m q in
      if negb (a =? 0) && (a =? b) then strcmp fuel' m (p + 1) (q + 1) else Some (a - b)
  end.

(** [for(n = 0; s[n]; n++);] *)
Fixpoint strlen_from (fuel : nat) m (s n : Z) : option Z :=
  match fuel with
  | O => None
  | S fuel' => if getb m (s + n) =? 0 then Some n else strlen_from fuel' m s (n + 1)
  end.
Definition strlen (fuel : nat) m (s : Z) : option Z := strlen_from fuel m s 0.

(** [for(i = 0; i < n; i++) cdst[i] = c;] *)
Fixpoint memset_from (k : nat) m (cdst i c : Z) : B :=
  match k with
  | O => m
  | S k' => memset_from k' (setb m (cdst + i) c) cdst (i + 1) c
  end.
Definition memset m (dst c n : Z) : B := memset_from (Z.to_nat n) m dst 0 c.

(** [for(; *s; s++) if( *s == c ) return s; return 0;] *)
Fixpoint strchr (fuel : nat) m (s c : Z) : option (option Z) :=
  match fuel with
  | O => None
  | S fuel' =>
      if getb m s =? 0 then Some None
      else if getb m s =? c then Some (Some s) else strchr fuel' m (s + 1) c
  end.

(** [while('0' <= *s && *s <= '9') n = n*10 + *s++ - '0';] *)
Fixpoint atoi_from (fuel : nat) m (s n : Z) : option Z :=
  match fuel with
  | O => None
  | S fuel' =>
      let c := getb m s in
      if (48 <=? c) && (c <=? 57) then atoi_from fuel' m (s + 1) (s32 (n * 10 + c - 48)) else Some n
  end.
Definition atoi (fuel : nat) m (s : Z) : option Z := atoi_from fuel m s 0.

Definition memmove m (vdst vsrc n : Z) : B :=
  if vdst <? vsrc then CString.copy_up (Z.to_nat n) m vdst vsrc
  else CString.copy_down (Z.to_nat n) m (vdst + n) (vsrc + n).

Definition memcpy m (dst src n : Z) : B := memmove m dst src n.

(** [while (n-- > 0) { if( *p1 != *p2 ) return *p1 - *p2; p1++; p2++; }] *)
Fixpoint memcmp_from (k : nat) m (p1 p2 : Z) : Z :=
  match k with
  | O => 0
  | S k' => if getb m p1 =? getb m p2 then memcmp_from k' m (p1 + 1) (p2 + 1) else getb m p1 - getb m p2
  end.
Definition memcmp m (s1 s2 n : Z) : Z := memcmp_from (Z.to_nat n) m s1 s2.
End ops.

(** ** gets and stat *)

(** [gets(buf, max)] as the bytes it stores before the final NUL. *)
Definition gets (max : Z) : prog (list Z) :=
  loop (S (Z.to_nat max)) (fun buf =>
    let i := Z.of_nat (length buf) in
    if i + 1 <? max then
      r <- call (Read 0 1) ;;
      let '(cc, bs) := r in
      if cc <? 1 then Ret (inr buf)
      else
        let c := default 0 (head bs) in
        let buf := buf ++ [c] in
        if (c =? 10) || (c =? 13) then Ret (inr buf) else Ret (inl buf)
    else Ret (inr buf)) [].

Definition stat (n : list Z) : prog (Z * (Z * Z * Z)) :=
  fd <- call (Open n 0) ;;
  if fd <? 0 then Ret (-1, (0, 0, 0)) else
  r <- call (Fstat fd) ;;
  call (Close fd) ;;
  Ret r.

(** ** printf.c *)

Definition digits : list Z := text "0123456789ABCDEF".
Definition digit (i : Z) : Z := digits !!! Z.to_nat i.

Definition putc (fd c : Z) : prog unit := call (Write fd [c]) ;; Ret tt.

(** [do buf[i++] = digits[x % base]; while((x /= base) != 0);]; 32 digits are
    enough for any base. *)
Fixpoint print_digits (k : nat) (x base : Z) : list Z :=
  match k with
  | O => []
  | S k' => digit (x mod base) :: if x / base =? 0 then [] else print_digits k' (x / base) base
  end.

Definition printint (fd xx base : Z) (sgn : bool) : prog unit :=
  let neg := sgn && (xx <? 0) in
  let x := u32 (if neg then - xx else xx) in
  let buf := print_digits 32 x base ++ (if neg then [45] else []) in
  each (rev buf) (putc fd).

Definition printptr (fd x : Z) : prog unit :=
  putc fd 48 ;;
  putc fd 120 ;;
  each (seqZ 0 16) (fun i => putc fd (digit (Z.shiftr (u64 (Z.shiftl x (4 * i))) 60))).

(** The arguments after the format. *)
Inductive varg := VInt (x : Z) | VStr (s : list Z) | VNull.

(** One conversion; [None] when the argument list does not fit the format. *)
Definition conversion (fd c : Z) (ap : list varg) : option (prog unit * list varg) :=
  if c =? 100 (* d *) then
    match ap with VInt x :: ap => Some (printint fd (s32 x) 10 true, ap) | _ => None end
  else if c =? 108 (* l *) then
    match ap with VInt x :: ap => Some (printint fd (s32 x) 10 false, ap) | _ => None end
  else if c =? 120 (* x *) then
    match ap with VInt x :: ap => Some (printint fd (s32 x) 16 false, ap) | _ => None end
  else if c =? 112 (* p *) then
    match ap with VInt x :: ap => Some (printptr fd (u64 x), ap) | _ => None end
  else if c =? 115 (* s *) then
    match ap with
    | VStr s :: ap => Some (each s (putc fd), ap)
    | VNull :: ap => Some (each (text "(null)") (putc fd), ap)
    | _ => None
    end
  else if c =? 99 (* c *) then
    match ap with VInt x :: ap => Some (putc fd (u8 x), ap) | _ => None end
  else if c =? 37 (* % *) then Some (putc fd c, ap)
  else Some (putc fd 37 ;; putc fd c, ap).

(** [percent] is [state == '%']. *)
Fixpoint vprintf (fd : Z) (fmt : list Z) (percent : bool) (ap : list varg) : prog unit :=
  match fmt with
  | [] => Ret tt
  | c :: fmt' =>
      if percent then
        match conversion fd c ap with
        | Some (p, ap) => p ;; vprintf fd fmt' false ap
        | None => Fuel
        end
      else if c =? 37 then vprintf fd fmt' true ap
      else putc fd c ;; vprintf fd fmt' false ap
  end.

Definition fprintf (fd : Z) (fmt : list Z) (ap : list varg) : prog unit := vprintf fd fmt false ap.
Definition printf (fmt : list Z) (ap : list varg) : prog unit := vprintf 1 fmt false ap.

#[global] Arguments vprintf : simpl never.
#[global] Arguments fprintf : simpl never.
#[global] Arguments printf : simpl never.

(** A format that ends in a newline. *)
Definition line (s : string) : list Z := text s ++ [10].

#[global] Arguments line : simpl never.

(** ** Strings in memory *)

Section strings.
Context {B : Type} `{!ByteStore B}.
Implicit Types m : B.

(** The C string [l] at address [s]. *)
Definition cstring m (s : Z) (l : list Z) : Prop :=
  get_bytes (length l) m s = l /\ getb m (s + Z.of_nat (length l)) = 0 /\ Forall (fun c => c <> 0) l.

Lemma cstring_nil m s : cstring m s [] <-> getb m s = 0.
Proof. unfold cstring. cbn. rewrite Z.add_0_r. split; [tauto|]. intros; by split_and!. Qed.
Lemma cstring_cons m s c l : cstring m s (c :: l) <-> getb m s = c /\ c <> 0 /\ cstring m (s + 1) l.
Proof.
  unfold cstring. cbn [length get_bytes]. rewrite Forall_cons. replace (s + Z.of_nat (S (length l))) with (s + 1 + Z.of_nat (length l)) by lia.
  split; [intros ([= H1 H2] & H3 & H4 & H5)|intros (H1 & H2 & H3 & H4 & H5)]; split_and!; try done. congruence.
Qed.

Lemma strlen_from_spec m s l : forall fuel n, cstring m (s + n) l -> (length l < fuel)%nat ->
  strlen_from fuel m s n = Some (n + Z.of_nat (length l)).
Proof.
  induction l as [|c l IH]; intros [|fuel] n Hs Hf; cbn [length] in *; try lia; cbn [strlen_from].
  - apply cstring_nil in Hs. rewrite Hs, Z.add_0_r. done.
  - apply cstring_cons in Hs as (Hc & Hne & Hs). destruct (Z.eqb_spec (getb m (s + n)) 0); [congruence|].
    rewrite IH by (rewrite ?Z.add_assoc; done || lia). f_equal. lia.
Qed.

Lemma strchr_spec m c l : c <> 0 -> forall fuel s, cstring m s l -> (length l < fuel)%nat ->
  strchr fuel m s c = Some match list_find (eq c) l with Some (i, _) => Some (s + Z.of_nat i) | None => None end.
Proof.
  intros Hc. induction l as [|x l IH]; intros [|fuel] s Hs Hf; cbn [length] in *; try lia; cbn [strchr list_find].
  - apply cstring_nil in Hs. by rewrite Hs.
  - apply cstring_cons in Hs as (Hx & Hne & Hs). rewrite Hx. destruct (Z.eqb_spec x 0); [done|]. destruct (Z.eqb_spec x c) as [->|Hxc].
    + rewrite decide_True by done. by rewrite Z.add_0_r.
    + rewrite decide_False by done. rewrite IH by (done || lia). destruct (list_find (eq c) l) as [[i y]|]; cbn; [|done]. do 2 f_equal. lia.
Qed.

(** strcmp compares like the lists. *)
Lemma strcmp_spec m l1 : forall l2 fuel p q, cstring m p l1 -> cstring m q l2 -> (length l1 < fuel)%nat ->
  exists d, strcmp fuel m p q = Some d /\ (d = 0 <-> l1 = l2).
Proof.
  induction l1 as [|x l1 IH]; intros l2 [|fuel] p q H1 H2 Hf; cbn [length] in *; try lia; cbn [strcmp].
  - apply cstring_nil in H1. rewrite H1. eexists. split; [done|]. destruct l2 as [|y l2].
    + apply cstring_nil in H2. rewrite H2. done.
    + apply cstring_cons in H2 as (Hy & Hne & _). split; [lia|done].
  - apply cstring_cons in H1 as (Hx & Hne & H1). rewrite Hx. destruct (Z.eqb_spec x 0); [done|]. cbn [negb andb]. destruct l2 as [|y l2].
    + apply cstring_nil in H2. rewrite H2. destruct (Z.eqb_spec x 0); [done|]. eexists. split; [done|]. split; [lia|done].
    + apply cstring_cons in H2 as (Hy & Hne' & H2). rewrite Hy. destruct (Z.eqb_spec x y) as [->|Hxy].
      * destruct (IH l2 fuel (p + 1) (q + 1) H1 H2 ltac:(lia)) as (d & Hd & Hiff). exists d. split; [done|]. rewrite Hiff. split; congruence.
      * eexists. split; [done|]. split; [lia|congruence].
Qed.

Definition dec_value (l : list Z) : Z := foldl (fun n c => n * 10 + c - 48) 0 l.
Definition is_digit (c : Z) : Prop := 48 <= c <= 57.

Lemma dec_mono l : forall n, Forall is_digit l -> 0 <= n -> n <= foldl (fun n c => n * 10 + c - 48) n l.
Proof.
  induction l as [|c l IH]; intros n Hl Hn; cbn [foldl]; [lia|]. apply Forall_cons in Hl as [Hc Hl]. unfold is_digit in Hc.
  specialize (IH (n * 10 + c - 48) Hl ltac:(lia)). lia.
Qed.

Lemma atoi_from_spec m l x : forall fuel s n, Forall is_digit l -> (~ is_digit x) -> get_bytes (length l) m s = l -> getb m (s + Z.of_nat (length l)) = x ->
  (length l < fuel)%nat -> 0 <= n -> foldl (fun n c => n * 10 + c - 48) n l < 2 ^ 31 ->
  atoi_from fuel m s n = Some (foldl (fun n c => n * 10 + c - 48) n l).
Proof.
  unfold is_digit. induction l as [|c l IH]; intros [|fuel] s n Hl Hx Hb Hz Hf Hn Hlt; cbn [length foldl get_bytes] in *; try lia; cbn [atoi_from].
  - rewrite Z.add_0_r in Hz. rewrite Hz. destruct (Z.leb_spec 48 x), (Z.leb_spec x 57); cbn [andb]; done || lia.
  - apply Forall_cons in Hl as [Hc Hl]. injection Hb as Hb1 Hb2. rewrite Hb1. destruct (Z.leb_spec 48 c), (Z.leb_spec c 57); cbn [andb]; try lia.
    pose proof (dec_mono l (n * 10 + c - 48) Hl ltac:(lia)). rewrite s32_small by lia. apply IH; try done; try lia.
    replace (s + 1 + Z.of_nat (length l)) with (s + Z.of_nat (S (length l))) by lia. done.
Qed.
End strings.

(** memmove() moves the old bytes of the source, whatever the overlap. *)
Lemma getb_umemmove {B} `{!ByteStore B} (m : B) dst src n a : valid_range m dst n -> 0 <= n ->
  getb (memmove m dst src n) a = if bool_decide (dst <= a < dst + n) then getb m (src + (a - dst)) else getb m a.
Proof.
  intros Hv Hn. unfold memmove. destruct (Z.ltb_spec dst src).
  - rewrite CString.getb_copy_up; [|intros b Hb; apply Hv; lia|lia]. repeat case_bool_decide; lia || done.
  - rewrite CString.getb_copy_down; [|intros b Hb; apply Hv; lia|lia]. repeat case_bool_decide; try lia; done || (f_equal; lia).
Qed.

(** ** What programs print *)

(** [p] writes the bytes [bs] to [fd] and does nothing else. *)
Definition prints (fd : Z) (bs : list Z) (p : prog unit) : Prop := forall w (Q : unit -> world -> Prop) X,
  (forall w', quiet w w' ->
     (forall fd', written_to fd' w' = written_to fd' w ++ if fd =? fd' then bs else []) -> Q tt w') -> wp p w Q X.

Lemma prints_ret fd : prints fd [] (Ret tt).
Proof. intros w Q X HQ. apply HQ; [apply quiet_refl|]. intros fd'. destruct (fd =? fd'); by rewrite app_nil_r. Qed.
Lemma prints_seq fd bs bs' p q : prints fd bs p -> prints fd bs' q -> prints fd (bs ++ bs') (p ;; q).
Proof.
  intros Hp Hq w Q X HQ. apply wp_bind, Hp. intros w1 Hd1 Hw1. apply Hq. intros w2 Hd2 Hw2. apply HQ; [by eapply quiet_trans|].
  intros fd'. rewrite Hw2, Hw1. destruct (fd =? fd'); by rewrite <-?app_assoc, ?app_nil_r.
Qed.
Lemma prints_putc fd c : prints fd [c] (putc fd c).
Proof. intros w Q X HQ. cbn. apply HQ; [apply quiet_emit|]. intros fd'. apply written_emit. Qed.
Lemma prints_each fd l : prints fd l (each l (putc fd)).
Proof. induction l as [|c l IH]; cbn [each]; [apply prints_ret|]. apply (prints_seq fd [c] l); [apply prints_putc|done]. Qed.

(** The bytes of a number. *)
Definition int_text (xx base : Z) (sgn : bool) : list Z :=
  let neg := sgn && (xx <? 0) in
  rev (print_digits 32 (u32 (if neg then - xx else xx)) base ++ (if neg then [45] else [])).

Lemma prints_printint fd xx base sgn : prints fd (int_text xx base sgn) (printint fd xx base sgn).
Proof. apply prints_each. Qed.

Lemma digit_dec i : 0 <= i < 10 -> digit i = 48 + i.
Proof.
  intros Hi. assert (Hc : Forall (fun i => digit i = 48 + i) (seqZ 0 10)) by (apply (bool_decide_unpack _); by vm_compute).
  rewrite Forall_forall in Hc. apply Hc, elem_of_seqZ. lia.
Qed.

Lemma dec_value_snoc l c : dec_value (l ++ [c]) = dec_value l * 10 + c - 48.
Proof. unfold dec_value. by rewrite foldl_app. Qed.

Lemma print_digits_dec k : forall x, 0 <= x < 10 ^ Z.of_nat k ->
  dec_value (rev (print_digits k x 10)) = x /\ Forall is_digit (print_digits k x 10).
Proof.
  induction k as [|k IH]; intros x Hx; [cbn in *; split; [lia|constructor]|]. cbn [print_digits].
  pose proof (Z.mod_pos_bound x 10 ltac:(lia)) as Hm. pose proof (Z.div_mod x 10 ltac:(lia)) as Hd. rewrite digit_dec by lia. cbn [rev].
  rewrite dec_value_snoc. destruct (Z.eqb_spec (x / 10) 0) as [E|E].
  - split; [cbn; lia|]. apply Forall_singleton. unfold is_digit. lia.
  - destruct (IH (x / 10)) as [H1 H2].
    { split; [apply Z.div_pos; lia|]. apply Z.div_lt_upper_bound; [lia|]. rewrite Nat2Z.inj_succ, Z.pow_succ_r in Hx; lia. }
    rewrite H1. split; [lia|]. apply Forall_cons. split; [unfold is_digit; lia|done].
Qed.

(** %d prints the decimal digits, after a minus sign if there is one to print. *)
Lemma int_text_dec x : - 2 ^ 31 <= x < 2 ^ 31 -> exists ds, int_text x 10 true = (if x <? 0 then [45] else []) ++ ds /\
  Forall is_digit ds /\ dec_value ds = Z.abs x.
Proof.
  intros Hx. unfold int_text. cbn [andb]. set (y := u32 _). assert (Hy : y = Z.abs x).
  { unfold y. destruct (Z.ltb_spec x 0); rewrite u32_small by lia; lia. }
  destruct (print_digits_dec 32 y) as [H1 H2]; [rewrite Hy; lia|]. exists (rev (print_digits 32 y 10)).
  rewrite rev_app_distr. split_and!; [by destruct (x <? 0)|by apply Forall_rev|congruence].
Qed.

(** printf("%d") and atoi() agree: for every non-negative int the bytes
    that printf() writes, stored as a string anywhere in memory, are read back
    by atoi() as the same number. *)
Theorem printf_atoi x w X : 0 <= x < 2 ^ 31 ->
  wp (printf (text "%d") [VInt x]) w (fun _ w' => exists ds, written_to 1 w' = written_to 1 w ++ ds /\
    forall (m : mem) s fuel, cstring m s ds -> (length ds < fuel)%nat -> atoi fuel m s = Some x) X.
Proof.
  intros Hx. destruct (int_text_dec x ltac:(lia)) as (ds & Ht & Hd & Hv). destruct (Z.ltb_spec x 0); [lia|].
  assert (Hp : prints 1 (int_text (s32 x) 10 true ++ []) (printf (text "%d") [VInt x])).
  { change (printf (text "%d") [VInt x]) with (printint 1 (s32 x) 10 true ;; Ret tt). apply prints_seq; [apply prints_printint|apply prints_ret]. }
  rewrite s32_small, app_nil_r, Ht in Hp by lia. apply Hp. intros w1 _ Hw. exists ds. split; [apply (Hw 1)|].
  intros m s fuel (Hb & Hz & _) Hf. unfold atoi. rewrite (atoi_from_spec m ds 0); try done.
  - fold (dec_value ds). rewrite Hv. f_equal. lia.
  - unfold is_digit. lia.
  - fold (dec_value ds). lia.
Qed.

Lemma printf_atoi_witness :
  wp (printf (text "%d") [VInt 2147483647]) (world_of (fun _ => None) ∅) (fun _ w' => exists ds, written_to 1 w' = ds /\
    forall (m : mem) s, cstring m s ds -> (length ds < 20)%nat -> atoi 20 m s = Some 2147483647) (fun _ _ => False).
Proof.
  eapply wp_mono; [apply (printf_atoi 2147483647); lia|]. intros _ w' (ds & Hw & H). exists ds. split; [exact Hw|].
  intros m s Hs Hl. by apply H.
Defined.

End Ulib.
