(* ===== verification/Umalloc.v ===== *)
(** * The user memory allocator (user/umalloc.c)

    Kernighan and Ritchie's malloc() and free() on the bytes of the process's
    memory.  A header is 16 bytes: the pointer to the next free block at
    offset 0 and the size of the block, in headers, at offset 8.  The free
    blocks form a ring through the static [base].

    The invariant [heap_ok] says that the ring holds exactly the free blocks,
    in the order of their addresses and with no two adjacent, and that free
    and allocated blocks do not overlap. *)

From S2P Require Import Prelude Bytes.

Module Umalloc.

(** ** Definitions *)

Definition get_ptr (m : mem) (p : Z) : Z := ld64 m p.
Definition get_size (m : mem) (p : Z) : Z := ld32 m (p + 8).
Definition set_ptr (m : mem) (p v : Z) : mem := st64 m p v.
Definition set_size (m : mem) (p v : Z) : mem := st32 m (p + 8) v.

(** The process's memory, the static [freep], and the end of the heap. *)
Record heap := mkHeap { hmem : mem; freep : Z; brk : Z }.

Section umalloc.
(** [base] is the address of the static header; [avail brk n] says whether
    sbrk(n) succeeds when the heap ends at [brk]. *)
Context (base : Z) (avail : Z -> Z -> bool).

(** sbrk(n): the old end of the heap, or -1. *)
Definition sbrk (n : Z) (h : heap) : Z * heap :=
  let n := s32 n in
  if avail (brk h) n then (brk h, mkHeap (hmem h) (freep h) (brk h + n)) else (-1, h).

(** The loop of free(): the block after which [bp] goes. *)
Fixpoint free_find (fuel : nat) (m : mem) (bp p : Z) : option Z :=
  match fuel with
  | O => None
  | S fuel =>
      if negb ((p <? bp) && (bp <? get_ptr m p)) then
        if (get_ptr m p <=? p) && ((p <? bp) || (bp <? get_ptr m p)) then Some p
        else free_find fuel m bp (get_ptr m p)
      else Some p
  end.

Definition free (fuel : nat) (ap : Z) (h : heap) : option heap :=
  let bp := ap - 16 in
  match free_find fuel (hmem h) bp (freep h) with
  | None => None
  | Some p =>
      let m := hmem h in
      let m :=
        if bp + 16 * get_size m bp =? get_ptr m p then
          let m := set_size m bp (get_size m bp + get_size m (get_ptr m p)) in
          set_ptr m bp (get_ptr m (get_ptr m p))
        else set_ptr m bp (get_ptr m p) in
      let m :=
        if p + 16 * get_size m p =? bp then
          let m := set_size m p (get_size m p + get_size m bp) in
          set_ptr m p (get_ptr m bp)
        else set_ptr m p bp in
      Some (mkHeap m p (brk h))
  end.

Definition morecore (fuel : nat) (nu : Z) (h : heap) : option (Z * heap) :=
  let nu := if nu <? 4096 then 4096 else nu in
  let '(p, h) := sbrk (nu * 16) h in
  if p =? -1 then Some (0, h) else
  let h := mkHeap (set_size (hmem h) p nu) (freep h) (brk h) in
  match free fuel (p + 16) h with
  | None => None
  | Some h => Some (freep h, h)
  end.

(** [for(p = prevp->s.ptr; ; prevp = p, p = p->s.ptr)]; [fuel] also bounds
    the loop of free(). *)
Fixpoint malloc_loop (k fuel : nat) (nunits prevp p : Z) (h : heap) : option (Z * heap) :=
  match k with
  | O => None
  | S k =>
      let m := hmem h in
      if nunits <=? get_size m p then
        if get_size m p =? nunits then
          Some (p + 16, mkHeap (set_ptr m prevp (get_ptr m p)) prevp (brk h))
        else
          let m := set_size m p (get_size m p - nunits) in
          let p := p + 16 * get_size m p in
          let m := set_size m p nunits in
          Some (p + 16, mkHeap m prevp (brk h))
      else if p =? freep h then
        match morecore fuel nunits h with
        | None => None
        | Some (p, h) => if p =? 0 then Some (0, h) else malloc_loop k fuel nunits p (get_ptr (hmem h) p) h
        end
      else malloc_loop k fuel nunits p (get_ptr m p) h
  end.

Definition malloc (fuel : nat) (nbytes : Z) (h : heap) : option (Z * heap) :=
  let nunits := u32 ((nbytes + 16 - 1) / 16 + 1) in
  let h :=
    if freep h =? 0 then mkHeap (set_size (set_ptr (hmem h) base base) base 0) base (brk h) else h in
  malloc_loop fuel fuel nunits (freep h) (get_ptr (hmem h) (freep h)) h.
End umalloc.

(** ** Headers in memory *)

(** Two headers that do not overlap. *)
Definition far (p q : Z) : Prop := p + 16 <= q \/ q + 16 <= p.

Lemma get_ptr_set_ptr m p v : 0 <= v < 2 ^ 64 -> get_ptr (set_ptr m p v) p = v.
Proof. intros Hv. unfold get_ptr, set_ptr, ld64, st64. rewrite ldn_stn_eq by done. by apply Z.mod_small. Qed.
Lemma get_size_set_size m p v : 0 <= v < 2 ^ 32 -> get_size (set_size m p v) p = v.
Proof. intros Hv. unfold get_size, set_size, ld32, st32. rewrite ldn_stn_eq by done. by apply Z.mod_small. Qed.
Lemma get_ptr_set_size m p q v : far p q \/ p = q -> get_ptr (set_size m p v) q = get_ptr m q.
Proof. unfold far. intros Hf. apply ldn_stn_ne. lia. Qed.
Lemma get_size_set_ptr m p q v : far p q \/ p = q -> get_size (set_ptr m p v) q = get_size m q.
Proof. unfold far. intros Hf. apply ldn_stn_ne. lia. Qed.
Lemma get_ptr_set_ptr_ne m p q v : far p q -> get_ptr (set_ptr m p v) q = get_ptr m q.
Proof. unfold far. intros Hf. apply ldn_stn_ne. lia. Qed.
Lemma get_size_set_size_ne m p q v : far p q -> get_size (set_size m p v) q = get_size m q.
Proof. unfold far. intros Hf. apply ldn_stn_ne. lia. Qed.

(** Writing a header changes only its bytes. *)
Definition same_but (P : Z -> Prop) (m m' : mem) : Prop := forall x, ~ P x -> getb m' x = getb m x.
Definition in_hdr (p x : Z) : Prop := p <= x < p + 16.

Lemma same_set_ptr m p v : same_but (in_hdr p) m (set_ptr m p v).
Proof. intros x Hx. apply getb_stn_ne. unfold in_hdr in Hx. lia. Qed.
Lemma same_set_size m p v : same_but (in_hdr p) m (set_size m p v).
Proof. intros x Hx. apply getb_stn_ne. unfold in_hdr in Hx. lia. Qed.
Lemma same_but_trans P m1 m2 m3 : same_but P m1 m2 -> same_but P m2 m3 -> same_but P m1 m3.
Proof. intros H1 H2 x Hx. by rewrite H2, H1. Qed.
Lemma same_but_mono (P Q : Z -> Prop) m m' : same_but P m m' -> (forall x, P x -> Q x) -> same_but Q m m'.
Proof. intros H1 H2 x Hx. apply H1. auto. Qed.
Lemma same_get_ptr P m m' q : same_but P m m' -> (forall x, in_hdr q x -> ~ P x) -> get_ptr m' q = get_ptr m q.
Proof. intros Hs Hq. apply ldn_ext. intros b Hb. apply Hs, Hq. unfold in_hdr. lia. Qed.
Lemma same_get_size P m m' q : same_but P m m' -> (forall x, in_hdr q x -> ~ P x) -> get_size m' q = get_size m q.
Proof. intros Hs Hq. apply ldn_ext. intros b Hb. apply Hs, Hq. unfold in_hdr. lia. Qed.

(** ** The ring *)

(** Following the pointers from [a] leads through [l] to [b]. *)
Fixpoint path (m : mem) (a : Z) (l : list Z) (b : Z) : Prop :=
  match l with
  | [] => get_ptr m a = b
  | x :: l' => get_ptr m a = x /\ path m x l' b
  end.

Lemma path_app m a l x l' b : path m a (l ++ x :: l') b <-> path m a l x /\ path m x l' b.
Proof. revert a. induction l as [|y l IH]; intros a; cbn; [done|]. rewrite IH. tauto. Qed.

Lemma path_ext m m' a l b : (forall x, x ∈ a :: l -> get_ptr m' x = get_ptr m x) -> path m a l b -> path m' a l b.
Proof.
  revert a. induction l as [|y l IH]; intros a Hx Hp; cbn in *; [rewrite Hx; [done|by left]|].
  destruct Hp as [H1 H2]. split; [rewrite Hx; [done|by left]|]. apply IH; [|done]. intros x Hin. apply Hx. by right.
Qed.

(** Blocks: an address and a size in headers. *)
Abbreviation blk := (Z * Z)%type.
Definition stop (b : blk) : Z := b.1 + 16 * b.2.
Definition inside (b : blk) (x : Z) : Prop := b.1 <= x < stop b.
Definition apart (b c : blk) : Prop := stop b <= c.1 \/ stop c <= b.1.

Lemma apart_sym b c : apart b c -> apart c b.
Proof. unfold apart. tauto. Qed.

(** The free blocks from [lo] on: in order, not empty and with a gap between
    two of them; up to [hi]. *)
Fixpoint ordered (lo : Z) (l : list blk) (hi : Z) : Prop :=
  match l with
  | [] => lo <= hi
  | b :: l' => lo < b.1 /\ 0 < b.2 /\ ordered (stop b) l' hi
  end.

(** Where the last block ends. *)
Definition top (lo : Z) (l : list blk) : Z := default lo (stop <$> last l).

Lemma top_cons lo b l : top lo (b :: l) = top (stop b) l.
Proof. unfold top. destruct l as [|c l _] using rev_ind; [done|]. by rewrite app_comm_cons, !last_snoc. Qed.
Lemma top_snoc lo b l : top lo (l ++ [b]) = stop b.
Proof. unfold top. by rewrite last_snoc. Qed.

Lemma ordered_app l1 : forall lo l2 hi, ordered lo (l1 ++ l2) hi <-> ordered lo l1 (top lo l1) /\ ordered (top lo l1) l2 hi.
Proof.
  induction l1 as [|b l1 IH]; intros lo l2 hi; cbn [app ordered]; [split; [intros H; split; [cbn; lia|done]|by intros [_ H]]|].
  rewrite IH, top_cons. tauto.
Qed.

Lemma ordered_top l : forall lo hi, ordered lo l hi <-> ordered lo l (top lo l) /\ top lo l <= hi.
Proof. intros lo hi. rewrite <-(app_nil_r l) at 1. rewrite ordered_app. done. Qed.

Lemma ordered_le l : forall lo hi, ordered lo l hi -> lo <= hi.
Proof. induction l as [|c l' IH]; intros lo hi H; cbn in H; [done|]. destruct H as (H1 & H2 & H3). apply IH in H3. unfold stop in H3. lia. Qed.

(** Every block of an ordered list lies between its bounds. *)
Lemma ordered_bounds l : forall lo hi b, ordered lo l hi -> b ∈ l -> lo < b.1 /\ 0 < b.2 /\ stop b <= hi.
Proof.
  induction l as [|c l IH]; intros lo hi b H Hin; [by apply elem_of_nil in Hin|]. cbn in H. destruct H as (H1 & H2 & H3).
  apply elem_of_cons in Hin as [->|Hin]; [by apply ordered_le in H3|]. destruct (IH _ _ _ H3 Hin) as (? & ? & ?). unfold stop in *. split_and!; lia.
Qed.

Lemma ordered_hi l : forall lo hi hi', ordered lo l hi -> hi <= hi' -> ordered lo l hi'.
Proof. induction l as [|c l IH]; intros lo hi hi' H Hle; cbn in *; [lia|]. destruct H as (? & ? & ?). split_and!; eauto. Qed.

(** A block apart from the others has a place in the order. *)
Lemma ordered_split l : forall lo hi b, 0 < b.2 -> ordered lo l hi -> (forall c, c ∈ l -> apart b c) ->
  exists l1 l2, l = l1 ++ l2 /\ (forall c, c ∈ l1 -> stop c <= b.1) /\ (forall c, c ∈ l2 -> stop b <= c.1).
Proof.
  induction l as [|c l IH]; intros lo hi b Hb H Hap; [exists [], []; split_and!; [done|..]; by intros c ?%elem_of_nil|].
  cbn in H. destruct H as (H1 & H2 & H3). destruct (decide (stop b <= c.1)) as [Hle|Hgt].
  - exists [], (c :: l). split_and!; [done|by intros ? ?%elem_of_nil|]. intros d [->|Hd]%elem_of_cons; [done|]. apply (ordered_bounds l _ _ d) in H3; [|done]. unfold stop in *. lia.
  - destruct (Hap c ltac:(by left)) as [?|Hc]; [lia|]. destruct (IH _ _ b Hb H3) as (l1 & l2 & -> & Hl1 & Hl2); [intros d Hd; apply Hap; by right|].
    exists (c :: l1), l2. split_and!; [done| |done]. intros d [->|Hd]%elem_of_cons; [done|by apply Hl1].
Qed.

(** The addresses of ordered blocks increase. *)
Fixpoint rising (x : Z) (l : list Z) : Prop := match l with [] => True | y :: l' => x < y /\ rising y l' end.

Lemma ordered_rising l : forall lo x hi, x <= lo -> ordered lo l hi -> rising x l.*1.
Proof.
  induction l as [|b l IH]; intros lo x hi Hx H; cbn in *; [done|]. destruct H as (H1 & H2 & H3). split; [lia|]. eapply IH; [|exact H3]. unfold stop. lia.
Qed.

Lemma rising_app l1 : forall x y l2, rising x (l1 ++ y :: l2) <-> rising x (l1 ++ [y]) /\ rising y l2.
Proof. induction l1 as [|z l1 IH]; intros x y l2; cbn; [tauto|]. rewrite IH. tauto. Qed.

Lemma rising_lt l : forall x y, rising x l -> y ∈ l -> x < y.
Proof. induction l as [|z l IH]; intros x y H Hin; [by apply elem_of_nil in Hin|]. cbn in H. apply elem_of_cons in Hin as [->|Hin]; [tauto|]. destruct H as [? H]. specialize (IH _ _ H Hin). lia. Qed.

(** Blocks in order that may touch. *)
Fixpoint spaced (lo : Z) (l : list blk) : Prop :=
  match l with
  | [] => True
  | b :: l' => lo <= b.1 /\ 0 < b.2 /\ spaced (stop b) l'
  end.

Lemma ordered_spaced l : forall lo hi, ordered lo l hi -> spaced lo l.
Proof. induction l as [|b l IH]; intros lo hi H; cbn in *; [done|]. destruct H as (? & ? & ?). split_and!; [lia|done|eauto]. Qed.

Lemma spaced_app l1 : forall lo l2, spaced lo l1 -> (forall c, c ∈ l1 -> stop c <= top lo l1) -> spaced (top lo l1) l2 -> spaced lo (l1 ++ l2).
Proof.
  induction l1 as [|b l1 IH]; intros lo l2 H Hc H2; [done|]. cbn in *. destruct H as (H1 & H3 & H4). split_and!; [done|done|].
  apply IH; [done| |by rewrite top_cons in H2]. intros c Hin. rewrite top_cons in Hc. apply Hc. by right.
Qed.

Lemma spaced_lo l : forall lo c, spaced lo l -> c ∈ l -> lo <= c.1 /\ 0 < c.2.
Proof.
  induction l as [|b l IH]; intros lo c H Hc; [by apply elem_of_nil in Hc|]. cbn in H. destruct H as (? & ? & H). apply elem_of_cons in Hc as [->|Hc]; [done|].
  destruct (IH _ _ H Hc). unfold stop in *. lia.
Qed.

Lemma spaced_far l : forall lo c d, spaced lo l -> c ∈ l -> d ∈ l -> c = d \/ apart c d.
Proof.
  induction l as [|b l IH]; intros lo c d H Hc Hd; [by apply elem_of_nil in Hc|]. cbn in H. destruct H as (? & ? & H). unfold apart.
  apply elem_of_cons in Hc as [->|Hc]; apply elem_of_cons in Hd as [->|Hd]; [by left| | |by eapply IH].
  - pose proof (spaced_lo _ _ d H Hd). lia.
  - pose proof (spaced_lo _ _ c H Hc). lia.
Qed.

(** ** The search of free() *)

(** The loop goes on at [x]. *)
Definition passes (m : mem) (bp x : Z) : Prop :=
  ~ (x < bp < get_ptr m x) /\ ~ (get_ptr m x <= x /\ (x < bp \/ bp < get_ptr m x)).

Lemma free_find_pass m bp x k : passes m bp x -> free_find (S k) m bp x = free_find k m bp (get_ptr m x).
Proof. intros [H1 H2]. cbn [free_find]. destruct (Z.ltb_spec x bp), (Z.ltb_spec bp (get_ptr m x)), (Z.leb_spec (get_ptr m x) x); cbn; try done; lia. Qed.

Lemma free_find_stop m bp x k : ~ passes m bp x -> free_find (S k) m bp x = Some x.
Proof.
  unfold passes. intros H. cbn [free_find]. destruct (Z.ltb_spec x bp), (Z.ltb_spec bp (get_ptr m x)), (Z.leb_spec (get_ptr m x) x); cbn; try done; exfalso; apply H; lia.
Qed.

Lemma free_find_walk m bp k l : forall x y, path m x l y -> (forall z, z ∈ x :: l -> passes m bp z) -> free_find (S (length l) + k) m bp x = free_find k m bp y.
Proof.
  induction l as [|z l IH]; intros x y Hp Hpass; cbn in Hp.
  - cbn [length plus]. rewrite free_find_pass by (apply Hpass; by left). by rewrite Hp.
  - destruct Hp as [Hx Hp]. cbn [length plus]. rewrite free_find_pass by (apply Hpass; by left). rewrite Hx. apply IH; [done|]. intros w Hw. apply Hpass. by right.
Qed.

Lemma passes_low m bp l : forall x y, path m x l y -> rising x (l ++ [y]) -> y < bp -> forall z, z ∈ x :: l -> passes m bp z.
Proof.
  induction l as [|w l IH]; intros x y Hp Hr Hy z Hz; cbn in Hp, Hr.
  - apply list_elem_of_singleton in Hz as ->. unfold passes. lia.
  - destruct Hp as [Hx Hp], Hr as [Hlt Hr]. apply elem_of_cons in Hz as [->|Hz]; [|by eapply IH].
    assert (w < y) by (eapply rising_lt; [exact Hr|apply elem_of_app; right; by left]). unfold passes. lia.
Qed.

Lemma passes_high m bp base l : forall x, path m x l base -> rising x l -> bp < x -> base < bp -> forall z, z ∈ x :: l -> passes m bp z.
Proof.
  induction l as [|w l IH]; intros x Hp Hr Hx Hb z Hz; cbn in Hp, Hr.
  - apply list_elem_of_singleton in Hz as ->. unfold passes. lia.
  - destruct Hp as [Hw Hp], Hr as [Hlt Hr]. apply elem_of_cons in Hz as [->|Hz]; [unfold passes; lia|]. eapply (IH w); try done. lia.
Qed.

(** The path from a node on. *)
Lemma path_from m a l b x : path m a l b -> x ∈ a :: l -> exists l1 l2, a :: l = l1 ++ x :: l2 /\ path m x l2 b.
Proof.
  intros Hp [l1 [l2 E]]%list_elem_of_split. exists l1, l2. split; [done|]. destruct l1 as [|y l1]; injection E as -> ->; [done|]. by apply path_app in Hp as [_ ?].
Qed.

Lemma rising_from a l l1 x l2 : rising a l -> a :: l = l1 ++ x :: l2 -> rising x l2.
Proof. intros Hr E. destruct l1 as [|y l1]; injection E as -> ->; [done|]. by apply rising_app in Hr as [_ ?]. Qed.

Lemma path_last m a l1 l2 b : path m a (l1 ++ l2) b -> get_ptr m (List.last l1 a) = hd b l2.
Proof.
  destruct l1 as [|x l1 _] using rev_ind; [destruct l2 as [|y l2]; [done|intros Hp; apply (path_app _ _ []) in Hp; apply Hp]|]. rewrite List.last_last, <-app_assoc. cbn [app]. rewrite path_app. intros [_ Hp].
  by destruct l2; cbn in Hp |- *; [|destruct Hp].
Qed.

(** From the nodes below [bp] the search gets to the last of them. *)
Lemma free_find_low m bp a l1 l2 b x : path m a (l1 ++ l2) b -> rising a l1 -> a < bp -> (forall y, y ∈ l1 -> y < bp) -> x ∈ a :: l1 ->
  exists k, (k <= length l1)%nat /\ forall j, free_find (k + j) m bp x = free_find j m bp (List.last l1 a).
Proof.
  intros Hp Hr Ha Hlow Hx. apply list_elem_of_split in Hx as (N & M & E). destruct M as [|p M _] using rev_ind.
  - exists 0%nat. split; [lia|]. intros j. f_equal. destruct N as [|y N]; injection E as -> ->; [done|]. by rewrite List.last_last.
  - exists (S (length M)). assert (Hlast : List.last l1 a = p).
    { destruct N as [|y N]; injection E as -> ->; [by rewrite List.last_last|]. change (N ++ x :: M ++ [p]) with (N ++ (x :: M) ++ [p]). by rewrite app_assoc, List.last_last. }
    rewrite Hlast. assert (Hlen : (S (length M) <= length l1)%nat) by (apply (f_equal length) in E; rewrite !length_app in E; cbn in E; rewrite length_app in E; cbn in E; lia).
    assert (Hr' : rising x (M ++ [p])) by (by eapply rising_from). assert (Hpx : path m x M p).
    { destruct N as [|y N]; injection E as -> ->; [rewrite <-app_assoc in Hp|rewrite <-app_assoc in Hp; cbn [app] in Hp; apply path_app in Hp as [_ Hp]; rewrite <-app_assoc in Hp]; by apply path_app in Hp as [Hp _]. }
    split; [done|]. intros j. apply free_find_walk; [done|]. eapply passes_low; [done|done|]. destruct l1 as [|z l1]; [cbn in Hlen; lia|]. apply Hlow. rewrite <-Hlast.
    destruct l1 as [|w l1 _] using rev_ind; [by left|]. rewrite app_comm_cons, List.last_last. apply elem_of_app. right. by left.
Qed.

(** The predecessor of [bp] in the ring is found from everywhere. *)
Lemma free_find_ring m bp base l1 l2 x fuel : path m base (l1 ++ l2) base -> rising base (l1 ++ l2) -> base < bp ->
  (forall y, y ∈ l1 -> y < bp) -> (forall y, y ∈ l2 -> bp < y) -> x ∈ base :: l1 ++ l2 -> (length (l1 ++ l2) + 2 <= fuel)%nat ->
  free_find fuel m bp x = Some (List.last l1 base).
Proof.
  intros Hp Hr Hb H1 H2 Hx Hf. rewrite length_app in Hf. assert (Hr1 : rising base l1).
  { clear -Hr. revert Hr. generalize base. induction l1 as [|y l1 IH]; intros b; cbn; [done|]. intros [? ?]. auto. }
  assert (Hlow : List.last l1 base < bp).
  { destruct l1 as [|z l1 _] using rev_ind; [done|]. rewrite List.last_last. apply H1, elem_of_app. right. by left. }
  assert (Hle : base <= List.last l1 base).
  { destruct l1 as [|z l1 _] using rev_ind; [done|]. rewrite List.last_last. apply Z.lt_le_incl. eapply rising_lt; [exact Hr1|]. apply elem_of_app. right. by left. }
  assert (Hstop : forall k, free_find (S k) m bp (List.last l1 base) = Some (List.last l1 base)).
  { intros k. apply free_find_stop. unfold passes. rewrite (path_last _ _ _ _ _ Hp). destruct l2 as [|y l2]; cbn; [lia|]. specialize (H2 y ltac:(by left)). lia. }
  assert (Hfrom : forall x fuel, x ∈ base :: l1 -> (length l1 < fuel)%nat -> free_find fuel m bp x = Some (List.last l1 base)).
  { intros y f Hy Hf'. destruct (free_find_low m bp base l1 l2 base y Hp Hr1 Hb H1 Hy) as (k & Hk & Hk'). replace f with (k + S (f - S k))%nat by lia. by rewrite Hk', Hstop. }
  apply elem_of_cons in Hx as [->|Hx]; [apply Hfrom; [by left|lia]|]. apply elem_of_app in Hx as [Hx|Hx]; [apply Hfrom; [by right|lia]|].
  apply list_elem_of_split in Hx as (N & M & ->). rewrite app_assoc in Hp, Hr. apply path_app in Hp as [_ Hp]. apply rising_app in Hr as [_ Hr]. rewrite length_app in Hf. cbn in Hf.
  replace fuel with (S (length M) + (fuel - S (length M)))%nat by lia. rewrite (free_find_walk _ _ _ _ _ base Hp); [apply Hfrom; [by left|lia]|].
  eapply passes_high; [done|done| |done]. apply H2, elem_of_app. right. by left.
Qed.

Section proofs.
Context (base : Z).

(** The ring in memory, with the free blocks [L] below the end [hi] of the
    heap and the allocated blocks [A]. *)
Record ring_ok (m : mem) (hi : Z) (L A : list blk) : Prop := {
  rk_ring : path m base (L.*1) base;
  rk_size : forall b, b ∈ (base, 0) :: L ++ A -> get_size m b.1 = b.2;
  rk_order : ordered (base + 16) L hi;
  rk_apart : forall a b, a ∈ A -> b ∈ L -> apart a b;
  rk_alloc : forall b, b ∈ A -> base + 16 < b.1 /\ 0 < b.2 /\ stop b <= hi
}.

Record heap_ok (h : heap) (L A : list blk) : Prop := {
  hk_ring : ring_ok (hmem h) (brk h) L A;
  hk_pairs : ForallOrdPairs apart A;
  hk_free : freep h ∈ base :: L.*1;
  hk_bound : 0 < base /\ base + 16 < brk h /\ brk h <= 2 ^ 36
}.

(** ** free(): linking a block into the ring

    [pending]: the block [b] points to the part [L2] of the ring above it, and
    the last block of the part [L1] below it does not yet point to it. *)
Record pending (m : mem) (hi : Z) (L1 : list blk) (b : blk) (L2 A : list blk) : Prop := {
  pd_low : exists n, path m base (L1.*1) n;
  pd_up : path m b.1 (L2.*1) base;
  pd_size : forall c, c ∈ (base, 0) :: (L1 ++ b :: L2) ++ A -> get_size m c.1 = c.2;
  pd_order1 : ordered (base + 16) L1 b.1;
  pd_order2 : base + 16 < b.1 /\ 0 < b.2 /\ ordered (stop b) L2 hi;
  pd_apart : forall a c, a ∈ A -> c ∈ L1 ++ b :: L2 -> apart a c;
  pd_alloc : forall c, c ∈ A -> base + 16 < c.1 /\ 0 < c.2 /\ stop c <= hi
}.

Lemma hdr_far m m' p q : same_but (in_hdr p) m m' -> far p q -> get_ptr m' q = get_ptr m q /\ get_size m' q = get_size m q.
Proof using Type.
  unfold far. intros Hs Hf. split; [eapply same_get_ptr|eapply same_get_size]; try exact Hs; unfold in_hdr; intros; lia.
Qed.

Lemma path_far m m' p a l b : same_but (in_hdr p) m m' -> path m a l b -> (forall x, x ∈ a :: l -> far p x) -> path m' a l b.
Proof using Type. intros Hs Hp Hf. eapply path_ext; [|exact Hp]. intros x Hx. eapply hdr_far; [exact Hs|by apply Hf]. Qed.

Lemma elem_fst (l : list blk) x : x ∈ l.*1 -> exists b, b ∈ l /\ x = b.1.
Proof using Type. intros (b & -> & Hb)%list_elem_of_fmap. by exists b. Qed.

(** Headers of different blocks do not overlap. *)
Lemma apart_far b c : 0 < b.2 -> 0 < c.2 -> apart b c -> far b.1 c.1.
Proof using Type. unfold apart, far, stop. lia. Qed.

(** A node of the ring: the last of the lower part. *)
Lemma last_node L1 : exists q, q ∈ (base, 0) :: L1 /\ q.1 = List.last L1.*1 base.
Proof using Type. destruct L1 as [|q L1 _] using rev_ind; [exists (base, 0); by split; [left|]|]. exists q. split; [right; apply elem_of_app; right; by left|]. rewrite fmap_app. cbn. by rewrite List.last_last. Qed.

(** The node [p] of the ring [L] is the only one its header overlaps with. *)
Lemma node_far L A q c : spaced (base + 16) L -> (forall a b, a ∈ A -> b ∈ L -> apart a b) -> (forall c, c ∈ A -> base + 16 < c.1 /\ 0 < c.2) ->
  q ∈ (base, 0) :: L -> c ∈ (base, 0) :: L ++ A -> c = q \/ far q.1 c.1.
Proof using Type.
  intros Hsp Hap Hal Hq Hc. rewrite elem_of_cons, elem_of_app in Hc. apply elem_of_cons in Hq as [->|Hq].
  - destruct Hc as [->|[Hc|Hc]]; [by left|right; pose proof (spaced_lo _ _ _ Hsp Hc); unfold far; cbn; lia|right; pose proof (Hal _ Hc); unfold far; cbn; lia].
  - pose proof (spaced_lo _ _ _ Hsp Hq). destruct Hc as [->|[Hc|Hc]].
    + right. unfold far. cbn. lia.
    + destruct (spaced_far _ _ c q Hsp Hc Hq) as [->|Ha]; [by left|right]. pose proof (spaced_lo _ _ _ Hsp Hc). apply apart_far; [lia|lia|by apply apart_sym].
    + right. apply apart_far; [lia|by apply Hal|]. by apply apart_sym, Hap.
Qed.

Lemma pending_spaced m hi L1 b L2 A : pending m hi L1 b L2 A -> spaced (base + 16) (L1 ++ b :: L2).
Proof using Type.
  intros [_ _ _ Ho1 (Hb1 & Hb2 & Ho2) _ _]. apply ordered_top in Ho1 as [Ho1 Htop]. apply spaced_app; [by eapply ordered_spaced|intros c Hc; by apply (ordered_bounds _ _ _ c Ho1)|].
  cbn. split_and!; [done|done|by eapply ordered_spaced].
Qed.

(** The last node of the lower part is above the others of it and below [b]. *)
Lemma last_order L1 hi : ordered (base + 16) L1 hi -> base + 16 <= hi -> List.last L1.*1 base < hi /\
  forall L1' q, L1 = L1' ++ [q] -> q.1 = List.last L1.*1 base /\ ordered (base + 16) L1' q.1 /\ base < q.1 /\ forall c, c ∈ L1' -> c.1 < q.1.
Proof using Type.
  intros Ho Hhi. destruct L1 as [|q L1 _] using rev_ind; [split; [cbn; lia|by intros [] ?]|]. rewrite fmap_app. cbn. rewrite List.last_last.
  pose proof (ordered_bounds _ _ _ q Ho ltac:(apply elem_of_app; right; by left)) as (? & ? & ?). split; [unfold stop in *; lia|].
  intros L1' q' [-> [= ->]]%app_inj_2; [|done]. apply ordered_app in Ho as [Ho1 Ho2]. cbn in Ho2. destruct Ho2 as (Htop & _ & _). split_and!; [done|by eapply ordered_hi; [exact Ho1|lia]|lia|].
  intros c Hc. pose proof (ordered_bounds _ _ _ c Ho1 Hc). unfold stop in *. lia.
Qed.

(** Redirecting the last node of the lower part. *)
Lemma path_relink m m' L1 hi n v : path m base (L1.*1) n -> ordered (base + 16) L1 hi -> base + 16 <= hi -> let p := List.last L1.*1 base in
  same_but (in_hdr p) m m' -> (forall c, c ∈ (base, 0) :: L1 -> c.1 = p \/ far p c.1) -> get_ptr m' p = v -> path m' base (L1.*1) v.
Proof using Type.
  intros Hp Ho Hhi p Hsame Hfar Hv. destruct (last_order L1 hi Ho Hhi) as [_ Hlast]. destruct L1 as [|q L1 _] using rev_ind; [done|].
  destruct (Hlast L1 q eq_refl) as (Hq & _ & Hbq & Hbelow). fold p in Hq. rewrite fmap_app in *. cbn [fmap list_fmap] in *. apply path_app in Hp as [Hp _]. apply path_app. split; [|by cbn; rewrite Hq].
  eapply path_far; [exact Hsame|by rewrite Hq in *|]. intros x Hx. assert (exists c, c ∈ (base, 0) :: L1 /\ x = c.1) as (c & Hc & ->).
  { apply elem_of_cons in Hx as [->|Hx]; [exists (base, 0); by split; [left|]|]. apply elem_fst in Hx as (c & Hc & ->). exists c. by split; [right|]. }
  destruct (Hfar c) as [E|]; [set_solver| |done]. apply elem_of_cons in Hc as [->|Hc]; [cbn in E; lia|]. specialize (Hbelow c Hc). lia.
Qed.

(** The header [p] is changed; the part of the ring above it is not. *)
Lemma path_above m m' p a l : same_but (in_hdr p) m m' -> path m a l base -> far p a -> (forall x, x ∈ l -> far p x) -> path m' a l base.
Proof using Type. intros Hs Hp Ha Hl. eapply path_far; [exact Hs|exact Hp|]. intros x [->|Hx]%elem_of_cons; auto. Qed.

Lemma finish_link m m' hi L1 b L2 A : pending m hi L1 b L2 A -> let p := List.last L1.*1 base in
  top (base + 16) L1 < b.1 -> same_but (in_hdr p) m m' -> get_ptr m' p = b.1 -> get_size m' p = get_size m p -> ring_ok m' hi (L1 ++ b :: L2) A.
Proof using Type.
  intros Hpd p Hgap Hsame Hptr Hsize. pose proof (pending_spaced _ _ _ _ _ _ Hpd) as Hsp. destruct Hpd as [[n Hlow] Hup Hsz Ho1 (Hb1 & Hb2 & Ho2) Hap Hal].
  destruct (last_node L1) as (q & Hq & Hqp). fold p in Hqp. assert (Hfar : forall c, c ∈ (base, 0) :: (L1 ++ b :: L2) ++ A -> c = q \/ far p c.1).
  { intros c Hc. rewrite <-Hqp. eapply node_far; [exact Hsp|exact Hap|intros d Hd; destruct (Hal d Hd); tauto|set_solver|done]. }
  pose proof (proj1 (last_order L1 b.1 Ho1 ltac:(lia))) as Hpb. fold p in Hpb.
  assert (Hup_far : forall c, c ∈ b :: L2 -> far p c.1).
  { intros c Hc. destruct (Hfar c) as [->|]; [set_solver| |done]. exfalso. apply elem_of_cons in Hc as [->|Hc]; [lia|]. pose proof (ordered_bounds _ _ _ _ Ho2 Hc). unfold stop in *. lia. }
  split; [| | |done|done].
  - rewrite fmap_app. cbn [fmap list_fmap]. apply path_app. split.
    + eapply path_relink; [exact Hlow|exact Ho1|lia|exact Hsame| |done]. intros c Hc. destruct (Hfar c) as [->|]; [set_solver|by left|by right].
    + eapply path_above; [exact Hsame|done|apply Hup_far; by left|]. intros x (c & Hc & ->)%elem_fst. apply Hup_far. by right.
  - intros c Hc. destruct (Hfar c Hc) as [->|Hf]; [rewrite Hqp, Hsize, <-Hqp; by apply Hsz|]. rewrite (proj2 (hdr_far _ _ _ _ Hsame Hf)). by apply Hsz.
  - apply ordered_app. apply ordered_top in Ho1 as [Ho1 _]. split; [done|]. by cbn; split_and!.
Qed.

(** Joining [b] with the block it touches below. *)
Lemma finish_join m m' hi L1 q b L2 A : pending m hi (L1 ++ [q]) b L2 A -> stop q = b.1 ->
  same_but (in_hdr q.1) m m' -> get_ptr m' q.1 = get_ptr m b.1 -> get_size m' q.1 = q.2 + b.2 -> ring_ok m' hi (L1 ++ (q.1, q.2 + b.2) :: L2) A.
Proof using Type.
  intros Hpd Htouch Hsame Hptr Hsize. pose proof (pending_spaced _ _ _ _ _ _ Hpd) as Hsp. destruct Hpd as [[n Hlow] Hup Hsz Ho1 (Hb1 & Hb2 & Ho2) Hap Hal].
  assert (Hfar : forall c, c ∈ (base, 0) :: ((L1 ++ [q]) ++ b :: L2) ++ A -> c = q \/ far q.1 c.1).
  { intros c Hc. eapply node_far; [exact Hsp|exact Hap|intros d Hd; destruct (Hal d Hd); tauto|set_solver|done]. }
  pose proof (ordered_bounds _ _ _ q Ho1 ltac:(set_solver)) as (Hq1 & Hq2 & _). destruct (proj2 (last_order _ b.1 Ho1 ltac:(lia)) L1 q eq_refl) as (Hlast & HoL1 & Hbq & Hbelow).
  assert (Hup_far : forall c, c ∈ L2 -> far q.1 c.1).
  { intros c Hc. pose proof (ordered_bounds _ _ _ _ Ho2 Hc). unfold far, stop in *. lia. }
  split.
  - rewrite fmap_app in *. cbn [fmap list_fmap fst] in *. apply path_app. apply path_app in Hlow as [Hlow _]. split.
    + eapply path_far; [exact Hsame|done|]. intros x Hx. assert (exists c, c ∈ (base, 0) :: L1 /\ x = c.1) as (c & Hc & ->).
      { apply elem_of_cons in Hx as [->|Hx]; [exists (base, 0); by split; [left|]|]. apply elem_fst in Hx as (c & Hc & ->). exists c. by split; [right|]. }
      destruct (Hfar c) as [->|]; [set_solver| |done]. exfalso. apply elem_of_cons in Hc as [->|Hc]; [cbn in *; lia|]. specialize (Hbelow q Hc). lia.
    + destruct L2 as [|c L2]; cbn [fmap list_fmap path] in Hup |- *; [congruence|]. destruct Hup as [H1 H2]. split; [congruence|].
      eapply path_above; [exact Hsame|done|apply Hup_far; by left|]. intros x (d & Hd & ->)%elem_fst. apply Hup_far. by right.
  - intros c Hc. rewrite elem_of_cons, !elem_of_app, elem_of_cons in Hc. destruct (decide (c = (q.1, q.2 + b.2))) as [->|Hne]; [done|].
    assert (Hc' : c ∈ (base, 0) :: ((L1 ++ [q]) ++ b :: L2) ++ A) by set_solver. destruct (Hfar c Hc') as [->|Hf]; [|rewrite (proj2 (hdr_far _ _ _ _ Hsame Hf)); by apply Hsz].
    exfalso. destruct Hc as [->|[[Hc|[?|Hc]]|Hc]]; [cbn in *; lia|specialize (Hbelow _ Hc); lia|done|pose proof (Hup_far _ Hc); unfold far in *; lia|].
    pose proof (Hap q q Hc ltac:(set_solver)). unfold apart, stop in *. lia.
  - apply ordered_app. apply ordered_top in HoL1 as [HoL1 _]. split; [done|]. cbn. apply ordered_app in Ho1 as [_ Ho1]. cbn in Ho1. split_and!; [tauto|lia|].
    replace (stop (q.1, q.2 + b.2)) with (stop b); [done|]. unfold stop in *. cbn in *. lia.
  - intros a c Ha Hc. rewrite elem_of_app, elem_of_cons in Hc. destruct Hc as [Hc|[->|Hc]]; [apply Hap; set_solver| |apply Hap; set_solver].
    pose proof (Hap a q Ha ltac:(set_solver)). pose proof (Hap a b Ha ltac:(set_solver)). pose proof (Hal a Ha). unfold apart, stop in *. cbn in *. lia.
  - done.
Qed.

(** The block [b] that is freed points to the ring above it; [b'] is [b], or
    [b] joined with the block it touches above. *)
Lemma start_pending m m' hi L1 b b' L2 L2' A : ring_ok m hi (L1 ++ L2) (b :: A) -> (forall a, a ∈ A -> apart b a) ->
  (forall c, c ∈ L1 -> stop c <= b.1) -> (forall c, c ∈ L2 -> stop b <= c.1) ->
  same_but (in_hdr b.1) m m' -> get_ptr m' b.1 = hd base L2'.*1 -> get_size m' b.1 = b'.2 -> b'.1 = b.1 ->
  (b' = b /\ L2' = L2 /\ (forall c, c ∈ L2 -> stop b <> c.1)) \/ (exists c, L2 = c :: L2' /\ stop b = c.1 /\ b'.2 = b.2 + c.2) ->
  pending m' hi L1 b' L2' A.
Proof using Type.
  intros [Hring Hsz Ho Hap Hal] Hpairs Hl1 Hl2 Hsame Hptr Hsize Hb' Hcase.
  destruct (Hal b ltac:(by left)) as (Hb1 & Hb2 & Hbhi). apply ordered_app in Ho as [Ho1 Ho2]. pose proof (ordered_top L1 (base + 16) b.1) as Htop.
  assert (Hfar : forall c, c ∈ (base, 0) :: (L1 ++ L2) ++ A -> far b.1 c.1).
  { intros c Hc. rewrite elem_of_cons, !elem_of_app in Hc. destruct Hc as [->|[[Hc|Hc]|Hc]]; [unfold far; cbn; lia|..].
    - apply apart_far; [done|by apply (ordered_bounds _ _ _ c Ho1)|]. apply Hap; set_solver.
    - apply apart_far; [done|by apply (ordered_bounds _ _ _ c Ho2)|]. apply Hap; set_solver.
    - apply apart_far; [done|apply Hal; by right|by apply Hpairs]. }
  assert (Hsub : L2' ⊆ L2) by (destruct Hcase as [(_ & -> & _)|(c & -> & _)]; set_solver).
  assert (HL1 : path m' base (L1.*1) (hd base L2.*1)).
  { eapply path_far; [exact Hsame| |]; [|intros x [->|(c & Hc & ->)%elem_fst]%elem_of_cons; [apply (Hfar (base, 0)); by left|apply Hfar; set_solver]].
    rewrite fmap_app in Hring. destruct L2 as [|c L2]; [by rewrite app_nil_r in Hring|]. by apply path_app in Hring as [? _]. }
  assert (HL2 : forall c L, L2 = c :: L -> path m' c.1 L.*1 base).
  { intros c L ->. rewrite fmap_app in Hring. apply path_app in Hring as [_ Hring]. eapply path_above; [exact Hsame|done|apply Hfar; set_solver|]. intros x (d & Hd & ->)%elem_fst. apply Hfar. set_solver. }
  assert (Ho1' : ordered (base + 16) L1 b.1).
  { apply ordered_top. split; [done|]. destruct L1 as [|q L1 _] using rev_ind; [cbn; lia|]. rewrite top_snoc. apply Hl1. set_solver. }
  split; rewrite ?Hb'; [by eexists| | |done| | |].
  - destruct Hcase as [(-> & -> & _)|(c & -> & _)]; [destruct L2 as [|c L2]; [done|cbn; split; [done|by apply HL2]]|].
    specialize (HL2 c L2' eq_refl). destruct L2' as [|d L2']; [done|]. cbn in HL2 |- *. split; [done|]. by destruct HL2.
  - intros c Hc. rewrite elem_of_cons, !elem_of_app, elem_of_cons in Hc. destruct (decide (c = b')) as [->|Hne]; [by rewrite Hb'|].
    assert (Hc' : c ∈ (base, 0) :: (L1 ++ L2) ++ A) by set_solver. rewrite (proj2 (hdr_far _ _ _ _ Hsame (Hfar c Hc'))). apply Hsz. set_solver.
  - destruct Hcase as [(-> & -> & Hne)|(c & -> & Hc & Hsum)].
    + split_and!; [done|done|]. destruct L2 as [|c L2]; [done|]. cbn in Ho2 |- *. specialize (Hne c ltac:(by left)). specialize (Hl2 c ltac:(by left)). split_and!; [lia|tauto..].
    + cbn in Ho2. destruct Ho2 as (_ & ? & Ho2). split_and!; [done|lia|]. replace (stop b') with (stop c); [done|]. unfold stop in *. lia.
  - intros a c Ha Hc. rewrite elem_of_app, elem_of_cons in Hc. destruct Hc as [Hc|[->|Hc]]; [apply Hap; set_solver| |apply Hap; set_solver].
    pose proof (apart_sym _ _ (Hpairs a Ha)) as Hab. destruct Hcase as [(-> & _)|(c & -> & Hc & Hsum)]; [done|]. pose proof (Hap a c ltac:(by right) ltac:(set_solver)). destruct (Hal a ltac:(by right)) as (_ & ? & _).
    unfold apart, stop in *. lia.
  - intros c Hc. apply Hal. by right.
Qed.

(** ** free() *)

Definition covers (L : list blk) (x : Z) : Prop := exists b, b ∈ L /\ inside b x.

Lemma covers_app L1 L2 x : covers (L1 ++ L2) x <-> covers L1 x \/ covers L2 x.
Proof using Type. unfold covers. set_solver. Qed.
Lemma covers_cons b L x : covers (b :: L) x <-> inside b x \/ covers L x.
Proof using Type. unfold covers. set_solver. Qed.

(** The free memory, and the header of the ring. *)
Definition managed (L : list blk) (x : Z) : Prop := in_hdr base x \/ covers L x.

(** The first half of the assignments of free(). *)
Lemma link_up m hi L1 L2 b A n : ring_ok m hi (L1 ++ L2) (b :: A) -> (forall a, a ∈ A -> apart b a) -> 0 < base -> hi <= 2 ^ 36 ->
  (forall c, c ∈ L1 -> stop c <= b.1) -> (forall c, c ∈ L2 -> stop b <= c.1) -> n = hd base L2.*1 -> exists m' b' L2',
  (if b.1 + 16 * get_size m b.1 =? n then
     let m := set_size m b.1 (get_size m b.1 + get_size m n) in set_ptr m b.1 (get_ptr m n)
   else set_ptr m b.1 n) = m' /\
  pending m' hi L1 b' L2' A /\ b'.1 = b.1 /\ b.2 <= b'.2 /\ stop b' <= hi /\ same_but (in_hdr b.1) m m' /\
  (forall x, covers (L1 ++ b' :: L2') x <-> covers (L1 ++ L2) x \/ inside b x) /\ (length L2' <= length L2)%nat.
Proof using Type.
  intros Hr Hpairs Hbase Hhi Hl1 Hl2 ->. pose proof (rk_size _ _ _ _ Hr b ltac:(set_solver)) as Hszb. rewrite Hszb. change (b.1 + 16 * b.2) with (stop b).
  destruct (rk_alloc _ _ _ _ Hr b ltac:(by left)) as (Hb1 & Hb2 & Hbhi). pose proof (rk_order _ _ _ _ Hr) as Ho. apply ordered_app in Ho as [Ho1 Ho2].
  destruct (Z.eqb_spec (stop b) (hd base L2.*1)) as [E|Hne].
  - destruct L2 as [|c L2]; [cbn in E; unfold stop in E; lia|]. cbn [fmap list_fmap hd] in *. destruct (ordered_bounds _ _ _ c Ho2 ltac:(by left)) as (Hc1 & Hc2 & Hchi).
    pose proof (rk_size _ _ _ _ Hr c ltac:(set_solver)) as Hszc. rewrite Hszc. assert (Hfc : far b.1 c.1) by (unfold far, stop in *; lia). cbv zeta. rewrite get_ptr_set_size by (by left).
    assert (Hcp : get_ptr m c.1 = hd base L2.*1) by (pose proof (rk_ring _ _ _ _ Hr) as Hp; rewrite fmap_app in Hp; apply path_app in Hp as [_ Hp]; by apply (path_last m c.1 [] L2.*1 base)).
    assert (Hcb : 0 <= get_ptr m c.1 < 2 ^ 64) by apply (ldn_range 8).
    set (m' := set_ptr _ _ _). exists m', (b.1, b.2 + c.2), L2. assert (Hsame : same_but (in_hdr b.1) m m') by (eapply same_but_trans; [apply same_set_size|apply same_set_ptr]).
    split; [done|]. split; [|split_and!; try done; [cbn; lia|unfold stop in *; cbn in *; lia| |cbn; lia]].
    + eapply start_pending; try done; [by rewrite <-Hcp; apply get_ptr_set_ptr| |right; by exists c]. subst m'. rewrite get_size_set_ptr, get_size_set_size; [done|unfold stop in *; cbn; lia|by right].
    + intros x. rewrite !covers_app, !covers_cons. unfold inside, stop in *. cbn in *. intuition lia.
  - exists (set_ptr m b.1 (hd base L2.*1)), b, L2. assert (Hn : 0 <= hd base L2.*1 < 2 ^ 64).
    { destruct L2 as [|c L2]; cbn [fmap list_fmap hd]; [unfold stop in *; lia|]. destruct (ordered_bounds _ _ _ c Ho2 ltac:(by left)) as (Hc1 & Hc2 & Hchi). unfold stop in *. specialize (Hl2 c ltac:(by left)). lia. }
    split; [done|]. split; [|split_and!; try done; [apply same_set_ptr|intros x; rewrite !covers_app, !covers_cons; tauto]].
    eapply start_pending; try done; [apply same_set_ptr|by apply get_ptr_set_ptr|rewrite get_size_set_ptr; [done|by right]|]. left. split_and!; [done|done|].
    intros c Hc E. destruct L2 as [|d L2]; [by apply elem_of_nil in Hc|]. cbn in Hne. apply elem_of_cons in Hc as [->|Hc]; [done|].
    cbn in Ho2. destruct Ho2 as (? & ? & Ho2). destruct (ordered_bounds _ _ _ c Ho2 Hc) as (? & _). specialize (Hl2 d ltac:(by left)). unfold stop in *. lia.
Qed.

(** The second half. *)
Lemma link_low m hi L1 b L2 A : pending m hi L1 b L2 A -> 0 < base -> hi <= 2 ^ 36 -> stop b <= hi -> let p := List.last L1.*1 base in exists m' L',
  (if p + 16 * get_size m p =? b.1 then
     let m := set_size m p (get_size m p + get_size m b.1) in set_ptr m p (get_ptr m b.1)
   else set_ptr m p b.1) = m' /\
  ring_ok m' hi L' A /\ p ∈ base :: L'.*1 /\ same_but (in_hdr p) m m' /\ (forall x, covers L' x <-> covers (L1 ++ b :: L2) x) /\
  (length L' <= length L1 + S (length L2))%nat /\ exists c, c ∈ L' /\ b.2 <= c.2.
Proof using Type.
  intros Hpd Hbase Hhi Hbhi p. destruct (last_order L1 b.1 (pd_order1 _ _ _ _ _ _ Hpd)) as [Hpb Hlast]; [destruct (pd_order2 _ _ _ _ _ _ Hpd) as (? & _); lia|]. fold p in Hpb.
  pose proof (pd_size _ _ _ _ _ _ Hpd) as Hsz. rewrite (Hsz b) by set_solver. destruct (pd_order2 _ _ _ _ _ _ Hpd) as (Hb1 & Hb2 & _).
  destruct (Z.eqb_spec (p + 16 * get_size m p) b.1) as [E|Hne].
  - destruct L1 as [|q L1 _] using rev_ind; [exfalso; change p with base in E; pose proof (Hsz (base, 0) ltac:(by left)) as H0; cbn in H0; rewrite H0 in E; lia|].
    destruct (Hlast L1 q eq_refl) as (Hq & _ & _ & _). fold p in Hq. rewrite <-Hq in *. rewrite (Hsz q) in * by set_solver. cbv zeta.
    destruct (ordered_bounds _ _ _ q (pd_order1 _ _ _ _ _ _ Hpd) ltac:(set_solver)) as (Hq1 & Hq2 & _). rewrite get_ptr_set_size by (left; unfold far, stop in *; lia).
    set (m' := set_ptr _ _ _). exists m', (L1 ++ (q.1, q.2 + b.2) :: L2). assert (Hsame : same_but (in_hdr q.1) m m') by (eapply same_but_trans; [apply same_set_size|apply same_set_ptr]).
    split; [done|]. split; [|split_and!; try done].
    + eapply finish_join; try done; [apply get_ptr_set_ptr, (ldn_range 8)|]. subst m'. rewrite get_size_set_ptr, get_size_set_size; [done|unfold stop in *; lia|by right].
    + right. rewrite fmap_app. apply elem_of_app. right. by left.
    + intros x. rewrite !covers_app, !covers_cons. assert (~ covers [] x) by (by intros (? & []%elem_of_nil & _)). unfold inside, stop in *. cbn in *. intuition lia.
    + rewrite !length_app. cbn. lia.
    + exists (q.1, q.2 + b.2). cbn. split; [set_solver|lia].
  - exists (set_ptr m p b.1), (L1 ++ b :: L2). split; [done|]. split; [|split_and!; [|apply same_set_ptr|done|rewrite length_app; cbn; lia|exists b; split; [set_solver|done]]].
    + eapply finish_link; try done; [|apply same_set_ptr|apply get_ptr_set_ptr; unfold stop in *; lia|by rewrite get_size_set_ptr by (by right)].
      pose proof (pd_order1 _ _ _ _ _ _ Hpd) as Ho1. apply ordered_top in Ho1 as [_ Htop]. destruct L1 as [|q L1 _] using rev_ind; [done|]. rewrite top_snoc in *.
      destruct (Hlast L1 q eq_refl) as (Hq & _). fold p in Hq. rewrite <-Hq, (Hsz q) in Hne by set_solver. unfold stop in *. lia.
    + destruct (last_node L1) as (q & Hin & Hq). fold p in Hq. rewrite <-Hq. apply elem_of_cons in Hin as [->|Hin]; [by left|]. right. rewrite fmap_app. apply elem_of_app. left. by apply list_elem_of_fmap_2.
Qed.

Lemma ring_rising m hi L A : ring_ok m hi L A -> rising base L.*1.
Proof using Type. intros Hr. eapply ordered_rising; [|exact (rk_order _ _ _ _ Hr)]. lia. Qed.

Lemma free_ok fuel h L b A : heap_ok h L (b :: A) -> (length L + 2 <= fuel)%nat -> exists h' L',
  free fuel (b.1 + 16) h = Some h' /\ heap_ok h' L' A /\ brk h' = brk h /\ (forall x, covers L' x <-> covers L x \/ inside b x) /\
  same_but (fun x => managed L x \/ inside b x) (hmem h) (hmem h') /\ (length L' <= S (length L))%nat /\ exists c, c ∈ L' /\ b.2 <= c.2.
Proof using Type.
  intros [Hr Hpairs Hfp (Hb0 & Hb1 & Hb2)] Hf. inversion Hpairs as [|? ? Hpb HpA]; subst. rewrite Forall_forall in Hpb.
  destruct (rk_alloc _ _ _ _ Hr b ltac:(by left)) as (Hbb & Hbs & Hbhi).
  destruct (ordered_split L _ _ b Hbs (rk_order _ _ _ _ Hr)) as (L1 & L2 & -> & Hl1 & Hl2); [intros c Hc; apply (rk_apart _ _ _ _ Hr); [by left|done]|].
  assert (Hfind : free_find fuel (hmem h) b.1 (freep h) = Some (List.last L1.*1 base)).
  { pose proof (rk_ring _ _ _ _ Hr) as Hp. pose proof (ring_rising _ _ _ _ Hr) as Hrise. rewrite fmap_app in Hp, Hrise, Hfp. pose proof (rk_order _ _ _ _ Hr) as Ho.
    apply free_find_ring with (l2 := L2.*1); try done; [lia| | |rewrite length_app, !length_fmap; rewrite length_app in Hf; lia].
    - intros y (c & Hc & ->)%elem_fst. specialize (Hl1 c Hc). pose proof (ordered_bounds _ _ _ c Ho ltac:(set_solver)). unfold stop in *. lia.
    - intros y (c & Hc & ->)%elem_fst. specialize (Hl2 c Hc). unfold stop in *. lia. }
  assert (Hnext : get_ptr (hmem h) (List.last L1.*1 base) = hd base L2.*1) by (apply path_last; rewrite <-fmap_app; exact (rk_ring _ _ _ _ Hr)).
  destruct (link_up (hmem h) (brk h) L1 L2 b A _ Hr ltac:(intros a Ha; by apply Hpb) Hb0 Hb2 Hl1 Hl2 Hnext) as (m1 & b' & L2' & Hm1 & Hpd & Hb'1 & Hb'2 & Hb'hi & Hsame1 & Hcov1 & Hlen1).
  destruct (link_low m1 (brk h) L1 b' L2' A Hpd Hb0 Hb2 Hb'hi) as (m2 & L' & Hm2 & Hr' & Hp' & Hsame2 & Hcov2 & Hlen2 & c & Hc & Hcs).
  assert (Hfar : far b.1 (List.last L1.*1 base)).
  { destruct (last_node L1) as (q & Hq & <-). apply elem_of_cons in Hq as [->|Hq]; [unfold far; cbn; lia|]. apply apart_far; [done| |apply (rk_apart _ _ _ _ Hr); set_solver].
    by apply (ordered_bounds _ _ _ q (rk_order _ _ _ _ Hr)); set_solver. }
  exists (mkHeap m2 (List.last L1.*1 base) (brk h)), L'. split; [|split; [by split|]].
  - unfold free. replace (b.1 + 16 - 16) with b.1 by lia. rewrite Hfind. cbv zeta in Hm1 |- *. rewrite (get_ptr_set_size _ b.1 (List.last L1.*1 base)) by (by left). rewrite Hm1. rewrite <-Hb'1. cbv zeta in Hm2. by rewrite Hm2.
  - split; [done|]. split; [intros x; by rewrite Hcov2, Hcov1|]. split; [|split; [rewrite length_app; lia|exists c; split; [done|lia]]].
    eapply same_but_trans; (eapply same_but_mono; [eassumption|]); cbn.
    + intros x Hx. right. unfold inside, in_hdr, stop in *. lia.
    + intros x Hx. left. destruct (last_node L1) as (q & Hq & Eq). rewrite <-Eq in Hx. apply elem_of_cons in Hq as [->|Hq]; [by left|right]. exists q. split; [set_solver|].
      pose proof (ordered_bounds _ _ _ q (rk_order _ _ _ _ Hr) ltac:(set_solver)). unfold inside, in_hdr, stop in *. lia.
Qed.

(** ** malloc(): the search *)

(** The ring seen from [x]. *)
Lemma ring_from m L x : path m base L base -> rising base L -> x ∈ base :: L -> exists l,
  path m x l x /\ (x ∉ l) /\ length l = length L /\ forall y, y ∈ x :: l <-> y ∈ base :: L.
Proof using Type.
  intros Hp Hr Hx. assert (Hnd : forall l b, rising b l -> NoDup (b :: l)).
  { induction l as [|y l IH]; intros b H; [apply NoDup_singleton|]. cbn in H. destruct H as [Hlt H]. constructor; [|by apply IH].
    intros [->|Hin]%elem_of_cons; [lia|]. pose proof (rising_lt _ _ _ H Hin). lia. }
  specialize (Hnd L base Hr). apply elem_of_cons in Hx as [->|Hx].
  - exists L. apply NoDup_cons in Hnd as [Hni _]. done.
  - apply list_elem_of_split in Hx as (N & M & ->). apply path_app in Hp as [H1 H2]. exists (M ++ base :: N). split; [by apply path_app|].
    apply NoDup_cons in Hnd as [Hni Hnd]. apply NoDup_app in Hnd as (Hn1 & Hn2 & Hn3). apply NoDup_cons in Hn3 as [Hn3 _].
    split_and!; [|rewrite !length_app; cbn; lia|set_solver]. rewrite elem_of_app, elem_of_cons. intros [?|[->|?]]; [done|set_solver|]. by apply (Hn2 x); [|left].
Qed.

(** ** malloc(): taking a block *)

(** The block [prevp] points to, in the list. *)
Lemma successor m (L : list blk) prevp a : path m base L.*1 base -> prevp ∈ base :: L.*1 -> get_ptr m prevp = a -> a <> base ->
  exists La s Lb, L = La ++ (a, s) :: Lb /\ prevp = List.last La.*1 base.
Proof using Type.
  intros Hp Hin Ha Hne. destruct (path_from _ _ _ _ _ Hp Hin) as (N & M & E & HM). destruct M as [|a' M]; cbn in HM; [congruence|]. destruct HM as [<- HM]. rewrite Ha in E.
  assert (exists X, N ++ [prevp] = base :: X /\ L.*1 = X ++ a :: M) as (X & EX & EL).
  { destruct N as [|b N]; injection E as -> E; [by exists []|]. exists (N ++ [prevp]). split; [done|]. by rewrite <-app_assoc. }
  apply fmap_app_inv in EL as (La & L' & -> & EL & ->). destruct L' as [|[a' s] Lb]; [done|]. injection EL as -> ->. exists La, s, Lb. split; [done|].
  destruct La as [|c La _] using rev_ind; [destruct N as [|? [|]]; by injection EX as ->|]. rewrite fmap_app in EX |- *. cbn [fmap list_fmap] in EX |- *. rewrite List.last_last.
  rewrite app_comm_cons in EX. by apply app_inj_tail in EX as [_ ->].
Qed.

Lemma elem_mid {X} (l1 l2 : list X) x : x ∈ l1 ++ x :: l2.
Proof using Type. apply elem_of_app. right. by left. Qed.

Lemma take_exact m hi La a n Lb A : ring_ok m hi (La ++ (a, n) :: Lb) A -> base + 16 <= hi ->
  ring_ok (set_ptr m (List.last La.*1 base) (get_ptr m a)) hi (La ++ Lb) ((a, n) :: A).
Proof using Type.
  intros [Hring Hsz Ho Hap Hal] Hhi. set (p := List.last La.*1 base). set (m' := set_ptr _ _ _). pose proof (same_set_ptr m p (get_ptr m a)) as Hsame. fold m' in Hsame.
  pose proof Ho as Ho'. apply ordered_app in Ho' as [Ho1 Ho2]. cbn in Ho2. destruct Ho2 as (Ha & Hn & Ho2). pose proof (ordered_bounds _ _ _ (a, n) Ho (elem_mid _ _ _)) as (Hb1 & Hb2 & Hb3).
  destruct (last_node La) as (q & Hq & Hqp). fold p in Hqp. pose proof (ordered_spaced _ _ _ Ho) as Hsp.
  assert (Hfar : forall c, c ∈ (base, 0) :: (La ++ (a, n) :: Lb) ++ A -> c = q \/ far p c.1).
  { intros c Hc. rewrite <-Hqp. eapply node_far; [exact Hsp|exact Hap|intros d Hd; destruct (Hal d Hd); tauto| |done]. rewrite elem_of_cons, elem_of_app in *. tauto. }
  assert (Hpa : p < a) by (apply (last_order La a); [apply ordered_top; split; [done|lia]|cbn in *; lia]).
  assert (Hup : forall c, c ∈ (a, n) :: Lb -> far p c.1).
  { intros c Hc. destruct (Hfar c) as [->|]; [rewrite elem_of_cons, !elem_of_app; tauto| |done]. exfalso. apply elem_of_cons in Hc as [->|Hc]; [cbn in *; lia|].
    destruct (ordered_bounds _ _ _ _ Ho2 Hc). unfold stop in *. cbn in *. lia. }
  rewrite fmap_app in Hring. cbn [fmap list_fmap fst] in Hring. pose proof Hring as Hring'. apply path_app in Hring' as [Hlow Hhigh].
  assert (Hga : get_ptr m a = hd base Lb.*1) by (by apply (path_last m a [] Lb.*1 base)).
  assert (Hlow' : path m' base La.*1 (hd base Lb.*1)).
  { eapply path_relink; [exact Hlow|apply ordered_top; split; [exact Ho1|exact (Z.lt_le_incl _ _ Ha)]|cbn in *; lia|exact Hsame| |].
    - intros c Hc. destruct (Hfar c) as [->|]; [rewrite elem_of_cons, !elem_of_app in *; tauto|by left|by right].
    - fold p. subst m'. rewrite get_ptr_set_ptr; [done|apply (ldn_range 8)]. }
  split.
  - rewrite fmap_app. destruct Lb as [|c Lb]; [by rewrite app_nil_r|]. apply path_app. split; [done|]. cbn in Hhigh. destruct Hhigh as [_ Hhigh].
    eapply path_above; [exact Hsame|exact Hhigh|apply Hup; right; by left|]. intros x (d & Hd & ->)%elem_fst. apply Hup. by do 2 right.
  - intros c Hc. assert (Hc' : c ∈ (base, 0) :: (La ++ (a, n) :: Lb) ++ A) by (rewrite elem_of_cons, !elem_of_app, !elem_of_cons in *; tauto).
    destruct (Hfar c Hc') as [->|Hf]; [rewrite Hqp; subst m'; rewrite get_size_set_ptr by (by right); rewrite <-Hqp; by apply Hsz|]. rewrite (proj2 (hdr_far _ _ _ _ Hsame Hf)). by apply Hsz.
  - apply ordered_app. split; [done|]. destruct Lb as [|c Lb]; cbn in Ho2 |- *; unfold stop in *; cbn in *; [lia|]. split_and!; [lia|tauto..].
  - intros x c Hx Hc. apply elem_of_cons in Hx as [->|Hx]; [|apply Hap; [done|rewrite !elem_of_app, elem_of_cons in *; tauto]]. apply elem_of_app in Hc as [Hc|Hc].
    + right. pose proof (ordered_bounds _ _ _ c Ho1 Hc). cbn in *. lia.
    + left. pose proof (ordered_bounds _ _ _ c Ho2 Hc). lia.
  - intros c [->|Hc]%elem_of_cons; [done|by apply Hal].
Qed.

Lemma take_split m hi La a s n Lb A : ring_ok m hi (La ++ (a, s) :: Lb) A -> base + 16 <= hi -> 0 < base -> hi <= 2 ^ 36 -> 0 < n < s -> let r := a + 16 * (s - n) in
  ring_ok (set_size (set_size m a (s - n)) r n) hi (La ++ (a, s - n) :: Lb) ((r, n) :: A).
Proof using Type.
  intros [Hring Hsz Ho Hap Hal] Hhi Hb0 Hb Hn r. set (m1 := set_size m a (s - n)). set (m2 := set_size m1 r n). pose proof Ho as Ho'. apply ordered_app in Ho' as [Ho1 Ho2]. cbn in Ho2.
  destruct Ho2 as (Ha & Hs & Ho2). pose proof (ordered_bounds _ _ _ (a, s) Ho (elem_mid _ _ _)) as (Hb1 & Hb2 & Hb3). cbn in Hb1, Hb2. unfold stop in Hb3. cbn in Hb3. assert (Hra : far a r) by (unfold far, r; lia).
  assert (Hsame : same_but (fun x => in_hdr a x \/ in_hdr r x) m m2).
  { eapply same_but_trans; [eapply same_but_mono; [apply same_set_size|by left]|eapply same_but_mono; [apply same_set_size|by right]]. }
  assert (Hptr : forall x, x <> a -> (far a x) -> far r x -> get_size m2 x = get_size m x) by (intros x _ H1 H2; subst m2 m1; by rewrite !get_size_set_size_ne).
  assert (Hother : forall c, c ∈ (base, 0) :: (La ++ (a, s) :: Lb) ++ A -> c = (a, s) \/ far a c.1 /\ far r c.1).
  { intros c Hc. rewrite elem_of_cons, !elem_of_app, elem_of_cons in Hc. destruct Hc as [->|[[Hc|[->|Hc]]|Hc]]; [right; unfold far, r; cbn; lia| |by left|..]; right.
    - pose proof (ordered_bounds _ _ _ c Ho1 Hc). unfold far, stop, r in *. cbn in *. lia.
    - pose proof (ordered_bounds _ _ _ c Ho2 Hc). unfold far, stop, r in *. cbn in *. lia.
    - pose proof (Hap c (a, s) Hc (elem_mid _ _ _)). pose proof (Hal c Hc). unfold apart, far, stop, r in *. cbn in *. lia. }
  split.
  - rewrite fmap_app in *. cbn [fmap list_fmap fst] in *. eapply path_ext; [|exact Hring]. intros x Hx. assert (Hx' : exists c, c ∈ (base, 0) :: (La ++ (a, s) :: Lb) ++ A /\ x = c.1).
    { apply elem_of_cons in Hx as [->|Hx]; [exists (base, 0); by split; [left|]|]. change (a :: Lb.*1) with (((a, s) :: Lb).*1) in Hx. rewrite <-fmap_app in Hx. apply elem_fst in Hx as (c & Hc & ->). exists c. split; [|done]. rewrite elem_of_cons, elem_of_app. tauto. }
    destruct Hx' as (c & Hc & ->). subst m2 m1. destruct (Hother c Hc) as [->|[H1 H2]]; cbn; rewrite !get_ptr_set_size; auto using or_introl, or_intror. left. unfold far in *. tauto.
  - intros c Hc. rewrite elem_of_cons, !elem_of_app, !elem_of_cons in Hc. destruct (decide (c = (r, n))) as [->|]; [subst m2; apply get_size_set_size; cbn; lia|].
    destruct (decide (c = (a, s - n))) as [->|]; [subst m2 m1; cbn; rewrite get_size_set_size_ne by (unfold far in *; tauto); apply get_size_set_size; lia|].
    assert (Hc' : c ∈ (base, 0) :: (La ++ (a, s) :: Lb) ++ A) by (rewrite elem_of_cons, !elem_of_app, !elem_of_cons; tauto).
    destruct (Hother c Hc') as [->|[H1 H2]]; [|rewrite Hptr; [by apply Hsz|unfold far in *; lia|done|done]]. exfalso.
    destruct Hc as [Hc|[[Hc|[Hc|Hc]]|[Hc|Hc]]]; [injection Hc; lia|pose proof (ordered_bounds _ _ _ _ Ho1 Hc); unfold stop in *; cbn in *; lia|done|pose proof (ordered_bounds _ _ _ _ Ho2 Hc); unfold stop in *; cbn in *; lia|done|].
    pose proof (Hap _ _ Hc (elem_mid La Lb (a, s))). unfold apart, stop in *. cbn in *. lia.
  - apply ordered_app. split; [done|]. cbn. split_and!; [done|lia|]. destruct Lb as [|c Lb]; cbn in Ho2 |- *; unfold stop in *; cbn in *; [lia|]. split_and!; [lia|tauto..].
  - intros x c Hx Hc. apply elem_of_cons in Hx as [->|Hx].
    + rewrite elem_of_app, elem_of_cons in Hc. destruct Hc as [Hc|[->|Hc]]; [right; pose proof (ordered_bounds _ _ _ c Ho1 Hc); unfold stop, r in *; cbn in *; lia|right; unfold stop, r; cbn; lia|].
      left. pose proof (ordered_bounds _ _ _ c Ho2 Hc). unfold stop, r in *. cbn in *. lia.
    + rewrite elem_of_app, elem_of_cons in Hc. destruct Hc as [Hc|[->|Hc]]; [apply Hap; [done|rewrite elem_of_app; tauto]| |apply Hap; [done|rewrite elem_of_app, elem_of_cons; tauto]].
      pose proof (Hap _ _ Hx (elem_mid La Lb (a, s))). destruct (Hal x Hx) as (_ & ? & _). unfold apart, stop in *. cbn in *. lia.
  - intros c [->|Hc]%elem_of_cons; [|by apply Hal]. unfold stop, r. cbn. lia.
Qed.
End proofs.

(** ** Growing the heap *)

Definition core_units (n : Z) : Z := if n <? 4096 then 4096 else n.

(** The units for [nbytes] bytes and the header. *)
Definition units (nbytes : Z) : Z := (nbytes + 16 - 1) / 16 + 1.

Lemma units_fit nbytes : 0 <= nbytes < 2 ^ 32 -> 0 < units nbytes < 2 ^ 32 /\ nbytes + 16 <= 16 * units nbytes.
Proof. intros Hn. unfold units. pose proof (Z.div_mod (nbytes + 16 - 1) 16). pose proof (Z.mod_pos_bound (nbytes + 16 - 1) 16). lia. Qed.

Section growing.
Context (base : Z).

Lemma node_below h L A y : heap_ok base h L A -> y ∈ base :: L.*1 -> 0 < y /\ y + 16 <= brk h.
Proof using base.
  intros [Hr _ _ (Hb0 & Hb1 & _)] [->|(c & Hc & ->)%elem_fst]%elem_of_cons; [lia|]. pose proof (ordered_bounds _ _ _ c (rk_order _ _ _ _ _ Hr) Hc). unfold stop in *. lia.
Qed.

(** The new memory is an allocated block before it is freed. *)
Lemma grow_ok h L A nu : heap_ok base h L A -> 0 < nu -> brk h + 16 * nu <= 2 ^ 36 ->
  heap_ok base (mkHeap (set_size (hmem h) (brk h) nu) (freep h) (brk h + 16 * nu)) L ((brk h, nu) :: A).
Proof using base.
  intros Hok Hnu Hhi. pose proof (node_below h L A) as Hbelow. destruct Hok as [[Hring Hsz Ho Hap Hal] Hpairs Hfp (Hb0 & Hb1 & Hb2)].
  pose proof (same_set_size (hmem h) (brk h) nu) as Hsame. set (m' := set_size _ _ _) in *.
  assert (Hall : forall c, c ∈ (base, 0) :: L ++ A -> far (brk h) c.1).
  { intros c Hc. rewrite elem_of_cons, elem_of_app in Hc. destruct Hc as [->|[Hc|Hc]]; [unfold far; cbn; lia| |].
    - pose proof (ordered_bounds _ _ _ c Ho Hc). unfold far, stop in *. lia.
    - pose proof (Hal c Hc). unfold far, stop in *. lia. }
  split; cbn; [split| |done|lia].
  - eapply path_far; [exact Hsame|done|]. intros x [->|(c & Hc & ->)%elem_fst]%elem_of_cons; [apply (Hall (base, 0)); by left|apply Hall; rewrite elem_of_cons, elem_of_app; tauto].
  - intros c Hc. rewrite elem_of_cons, elem_of_app, elem_of_cons in Hc. destruct (decide (c = (brk h, nu))) as [->|]; [subst m'; apply get_size_set_size; cbn; lia|].
    assert (Hc' : c ∈ (base, 0) :: L ++ A) by (rewrite elem_of_cons, elem_of_app; tauto). rewrite (proj2 (hdr_far _ _ _ _ Hsame (Hall c Hc'))). by apply Hsz.
  - eapply ordered_hi; [exact Ho|lia].
  - intros a c [->|Ha]%elem_of_cons Hc; [|by apply Hap]. right. by apply (ordered_bounds _ _ _ c Ho).
  - intros c [->|Hc]%elem_of_cons; [unfold stop; cbn; lia|]. pose proof (Hal c Hc). lia.
  - constructor; [|done]. apply Forall_forall. intros c Hc. right. cbn. by apply Hal.
Qed.

(** Before the first call nothing is allocated; afterwards the ring is there. *)
Definition allocator (h : heap) (L A : list blk) : Prop :=
  heap_ok base h L A \/ freep h = 0 /\ L = [] /\ A = [] /\ 0 < base /\ base + 16 < brk h /\ brk h <= 2 ^ 36.

Lemma init_ok h : 0 < base -> base + 16 < brk h -> brk h <= 2 ^ 36 -> heap_ok base (mkHeap (set_size (set_ptr (hmem h) base base) base 0) base (brk h)) [] [].
Proof using base.
  intros H1 H2 H3. split; cbn; [split; cbn| |by left|done].
  - rewrite get_ptr_set_size by (by right). apply get_ptr_set_ptr. lia.
  - intros c ->%list_elem_of_singleton. cbn. by apply get_size_set_size.
  - lia.
  - by intros a b []%elem_of_nil.
  - by intros b []%elem_of_nil.
  - constructor.
Qed.

Lemma handed_pos h L A r n : heap_ok base h L ((r, n) :: A) -> 0 < r.
Proof using base. intros [Hr _ _ Hb]. pose proof (rk_alloc _ _ _ _ _ Hr (r, n) ltac:(by left)). cbn in *. lia. Qed.

End growing.

Section search.
Context (base : Z) (avail : Z -> Z -> bool).
Abbreviation malloc_loop := (malloc_loop avail).

Lemma malloc_walk fuel n h k l : forall prevp z, path (hmem h) prevp l z -> (forall y, y ∈ l -> get_size (hmem h) y < n /\ y <> freep h) ->
  malloc_loop (length l + k) fuel n prevp (get_ptr (hmem h) prevp) h = malloc_loop k fuel n (List.last l prevp) z h.
Proof using Type.
  induction l as [|y l IH]; intros prevp z Hp Hl; cbn [path] in Hp; [by rewrite Hp|]. destruct Hp as [Hy Hp]. cbn [length plus Umalloc.malloc_loop]. rewrite Hy.
  destruct (Hl y ltac:(by left)) as [Hs Hne]. destruct (Z.leb_spec n (get_size (hmem h) y)); [lia|]. destruct (Z.eqb_spec y (freep h)); [done|].
  rewrite (IH y z Hp); [|intros w Hw; apply Hl; by right]. f_equal. destruct l as [|w l _] using rev_ind; [done|]. by rewrite app_comm_cons, !List.last_last.
Qed.

(** The first node that is large enough. *)
Lemma first_fit (P : Z -> Prop) `{!forall x, Decision (P x)} l : (exists x, x ∈ l /\ P x) -> exists l1 x l2, l = l1 ++ x :: l2 /\ P x /\ forall y, y ∈ l1 -> ~ P y.
Proof using Type.
  induction l as [|y l IH]; intros (x & Hx & HP); [by apply elem_of_nil in Hx|]. destruct (decide (P y)) as [Hy|Hy]; [exists [], y, l; split_and!; try done; by intros ? ?%elem_of_nil|].
  apply elem_of_cons in Hx as [->|Hx]; [done|]. destruct IH as (l1 & z & l2 & -> & Hz & Hl1); [by exists x|]. exists (y :: l1), z, l2. split_and!; [done|done|]. intros w [->|Hw]%elem_of_cons; auto.
Qed.

(** A node that is large enough is not [base]. *)
Lemma fit_block h L A y n : heap_ok base h L A -> 0 < n -> y ∈ base :: L.*1 -> n <= get_size (hmem h) y -> y <> base.
Proof using Type.
  intros Hok Hn Hy Hs ->. pose proof (rk_size _ _ _ _ _ (hk_ring _ _ _ _ Hok) (base, 0) ltac:(by left)) as H0. cbn in H0. lia.
Qed.

(** What malloc() does to the heap when it hands out [b]. *)
Definition handed_out (h h' : heap) (L A : list blk) (b : blk) : Prop :=
  exists L', heap_ok base h' L' (b :: A) /\ brk h' = brk h /\ same_but (managed base L) (hmem h) (hmem h') /\ (forall x, inside b x \/ covers L' x <-> covers L x).

(** The branch [p->s.size >= nunits]. *)
Lemma malloc_take k fuel n h L A prevp a : heap_ok base h L A -> 0 < n -> prevp ∈ base :: L.*1 -> get_ptr (hmem h) prevp = a -> n <= get_size (hmem h) a -> a ∈ base :: L.*1 ->
  exists r h', malloc_loop (S k) fuel n prevp a h = Some (r + 16, h') /\ handed_out h h' L A (r, n).
Proof using Type.
  intros Hok Hn Hp Ha Hs Hina. pose proof (fit_block _ _ _ _ _ Hok Hn Hina Hs) as Hne. destruct Hok as [Hr Hpairs Hfp (Hb0 & Hb1 & Hb2)].
  destruct (successor base (hmem h) L prevp a (rk_ring _ _ _ _ _ Hr) Hp Ha Hne) as (La & s & Lb & -> & Hprev).
  pose proof (rk_size _ _ _ _ _ Hr (a, s) ltac:(rewrite elem_of_cons, elem_of_app; right; left; apply elem_mid)) as Hsz. cbn in Hsz. rewrite Hsz in Hs.
  pose proof (ordered_bounds _ _ _ (a, s) (rk_order _ _ _ _ _ Hr) (elem_mid _ _ _)) as (Hx1 & Hx2 & Hx3). unfold stop in Hx3. cbn in Hx1, Hx2, Hx3.
  assert (Hpin : forall s', prevp ∈ base :: (La ++ (a, s') :: Lb).*1 /\ prevp ∈ base :: (La ++ Lb).*1).
  { intros s'. rewrite Hprev, !fmap_app, !elem_of_cons, !elem_of_app. destruct La as [|c La _] using rev_ind; [by split; left|]. rewrite fmap_app. cbn [fmap list_fmap]. rewrite List.last_last. pose proof (elem_mid La.*1 [] c.1). tauto. }
  assert (Hown : forall c, c ∈ A -> apart (a, s) c) by (intros c Hc; apply apart_sym, (rk_apart _ _ _ _ _ Hr); [done|apply elem_mid]).
  assert (Hman : forall x, in_hdr prevp x -> managed base (La ++ (a, s) :: Lb) x).
  { intros x Hx. destruct (last_node base La) as (q & Hq & Eq). rewrite <-Hprev in Eq. rewrite <-Eq in Hx. apply elem_of_cons in Hq as [->|Hq]; [by left|right]. exists q. assert (q ∈ La ++ (a, s) :: Lb) by (apply elem_of_app; by left). split; [done|].
    pose proof (ordered_bounds _ _ _ q (rk_order _ _ _ _ _ Hr) ltac:(done)). unfold inside, in_hdr, stop in *. lia. }
  assert (Hnil : forall x, ~ covers [] x) by (by intros x (? & []%elem_of_nil & _)).
  cbn [Umalloc.malloc_loop]. rewrite Hsz. destruct (Z.leb_spec n s); [|lia]. destruct (Z.eqb_spec s n) as [->|Hsn].
  - exists a. eexists. split; [reflexivity|]. exists (La ++ Lb). split; [|split_and!; [done| |]].
    + split; [rewrite Hprev; apply take_exact; [done|cbn; lia]| |by apply Hpin|done]. constructor; [|done]. by apply Forall_forall.
    + eapply same_but_mono; [apply same_set_ptr|done].
    + intros x. rewrite !covers_app, covers_cons. tauto.
  - cbv zeta. rewrite (get_size_set_size (hmem h) a) by lia. exists (a + 16 * (s - n)). eexists. split; [reflexivity|]. exists (La ++ (a, s - n) :: Lb). split; [|split_and!; [done| |]].
    + split; [apply take_split; try done; cbn; lia| |by apply Hpin|done]. constructor; [|done]. apply Forall_forall. intros c Hc. pose proof (Hown c Hc). destruct (rk_alloc _ _ _ _ _ Hr c Hc) as (_ & ? & _). unfold apart, stop in *. cbn in *. lia.
    + eapply same_but_trans; (eapply same_but_mono; [apply same_set_size|]); intros x Hx; right; exists (a, s); (split; [apply elem_mid|unfold in_hdr, inside, stop in *; cbn; lia]).
    + intros x. rewrite !covers_app, !covers_cons. unfold inside, stop. cbn. intuition lia.
Qed.

(** When some block is large enough. *)
Lemma malloc_fit k fuel n h L A : heap_ok base h L A -> 0 < n -> (exists c, c ∈ L /\ n <= c.2) -> (length L + 1 <= k)%nat ->
  exists r h', malloc_loop k fuel n (freep h) (get_ptr (hmem h) (freep h)) h = Some (r + 16, h') /\ handed_out h h' L A (r, n).
Proof using Type.
  intros Hok Hn (c & Hc & Hcn) Hk. pose proof (hk_ring _ _ _ _ Hok) as Hr. destruct (ring_from base (hmem h) L.*1 (freep h)) as (l & Hpl & Hni & Hlen & Hmem); [exact (rk_ring _ _ _ _ _ Hr)|by eapply ring_rising|apply Hok|].
  assert (Hfit : exists x, x ∈ l ++ [freep h] /\ n <= get_size (hmem h) x).
  { exists c.1. split; [|rewrite (rk_size _ _ _ _ _ Hr c); [done|rewrite elem_of_cons, elem_of_app; tauto]].
    assert (c.1 ∈ freep h :: l) as Hin by (apply Hmem; right; by apply list_elem_of_fmap_2). rewrite elem_of_app, list_elem_of_singleton. apply elem_of_cons in Hin. tauto. }
  destruct (first_fit (fun x => n <= get_size (hmem h) x) _ Hfit) as (l1 & z & l2 & E & Hz & Hl1).
  assert (Hp1 : path (hmem h) (freep h) l1 z /\ (length l1 <= length l)%nat /\ z ∈ freep h :: l /\ (forall y, y ∈ l1 -> y ∈ l)).
  { destruct l2 as [|w l2 _] using rev_ind; [apply app_inj_tail in E as [-> <-]; split_and!; [done|done|by left|done]|]. rewrite app_comm_cons, app_assoc in E. apply app_inj_tail in E as [-> _].
    split_and!; [by apply path_app in Hpl as [? _]|rewrite length_app; lia|right; apply elem_mid|intros y Hy; apply elem_of_app; by left]. }
  destruct Hp1 as (Hp1 & Hle & Hzin & Hsub). rewrite length_fmap in Hlen. replace k with (length l1 + S (k - S (length l1)))%nat by lia.
  rewrite (malloc_walk _ _ _ _ _ _ z Hp1) by (intros y Hy; split; [pose proof (Hl1 y Hy); lia|intros ->; by apply Hni, Hsub]).
  eapply malloc_take; [exact Hok|done| |by apply (path_last _ _ l1 [] z); rewrite app_nil_r|done|by apply Hmem].
  apply Hmem. destruct l1 as [|w l1 _] using rev_ind; [by left|]. rewrite List.last_last. right. apply Hsub, elem_mid.
Qed.

(** When none is. *)
Lemma malloc_nofit k fuel n h L A : heap_ok base h L A -> 0 < n -> (forall c, c ∈ L -> c.2 < n) ->
  malloc_loop (length L + S k) fuel n (freep h) (get_ptr (hmem h) (freep h)) h =
  match morecore avail fuel n h with
  | None => None
  | Some (p, h) => if p =? 0 then Some (0, h) else malloc_loop k fuel n p (get_ptr (hmem h) p) h
  end.
Proof using Type.
  intros Hok Hn Hc. pose proof (hk_ring _ _ _ _ Hok) as Hr. destruct (ring_from base (hmem h) L.*1 (freep h)) as (l & Hpl & Hni & Hlen & Hmem); [exact (rk_ring _ _ _ _ _ Hr)|by eapply ring_rising|apply Hok|].
  assert (Hsmall : forall y, y ∈ freep h :: l -> get_size (hmem h) y < n).
  { intros y Hy%Hmem. apply elem_of_cons in Hy as [->|Hy].
    - pose proof (rk_size _ _ _ _ _ Hr (base, 0) ltac:(by left)) as H0. cbn in H0. lia.
    - apply elem_fst in Hy as (c & Hcin & ->). rewrite (rk_size _ _ _ _ _ Hr c) by (rewrite elem_of_cons, elem_of_app; tauto). by apply Hc. }
  rewrite length_fmap in Hlen. rewrite <-Hlen. rewrite (malloc_walk _ _ _ _ _ _ (freep h) Hpl) by (intros y Hy; split; [apply Hsmall; by right|by intros ->]).
  cbn [Umalloc.malloc_loop]. specialize (Hsmall (freep h) ltac:(by left)). destruct (Z.leb_spec n (get_size (hmem h) (freep h))); [lia|]. by rewrite Z.eqb_refl.
Qed.

(** ** morecore() *)

Lemma morecore_ok fuel n h L A : heap_ok base h L A -> 0 < n -> 16 * core_units n < 2 ^ 31 -> (length L + 2 <= fuel)%nat ->
  (forall b x, avail b x = true -> b + x <= 2 ^ 36) ->
  if avail (brk h) (16 * core_units n) then exists h' L', morecore avail fuel n h = Some (freep h', h') /\ freep h' <> 0 /\ heap_ok base h' L' A /\
    brk h' = brk h + 16 * core_units n /\ (length L' <= S (length L))%nat /\ (exists c, c ∈ L' /\ n <= c.2) /\
    (forall x, covers L' x <-> covers L x \/ brk h <= x < brk h') /\ same_but (fun x => managed base L x \/ brk h <= x < brk h') (hmem h) (hmem h')
  else morecore avail fuel n h = Some (0, h).
Proof using base avail.
  intros Hok Hn Hnu Hf Hav. unfold morecore, sbrk. fold (core_units n). assert (Hcu : 0 < core_units n /\ n <= core_units n) by (unfold core_units; destruct (Z.ltb_spec n 4096); lia).
  rewrite (Z.mul_comm (core_units n) 16), s32_small by lia. pose proof (Hav (brk h) (16 * core_units n)) as Hhi. destruct (avail (brk h) (16 * core_units n)); [|done]. specialize (Hhi eq_refl).
  destruct Hok as [Hr Hpairs Hfp Hb]. assert (Hok : heap_ok base h L A) by done. destruct (Z.eqb_spec (brk h) (-1)); [lia|]. pose proof (grow_ok base h L A (core_units n) Hok ltac:(lia) Hhi) as Hg.
  destruct (free_ok base fuel _ L _ A Hg Hf) as (h' & L' & Hfree & Hok' & Hbrk & Hcov & Hsame & Hlen & c & Hc & Hcs). cbn in Hfree, Hbrk, Hcs, Hcov, Hsame. cbn. rewrite Hfree.
  exists h', L'. assert (Hins : forall x, inside (brk h, core_units n) x <-> brk h <= x < brk h') by (intros x; unfold inside, stop; cbn; lia).
  split; [done|]. split; [pose proof (node_below base _ _ _ (freep h') Hok' (hk_free _ _ _ _ Hok')); lia|]. split; [done|]. split; [done|]. split; [done|]. split; [exists c; split; [done|lia]|].
  split; [intros x; by rewrite Hcov, Hins|]. eapply same_but_trans; [eapply same_but_mono; [apply same_set_size|]|eapply same_but_mono; [exact Hsame|]]; cbn.
  - intros x Hx. right. unfold in_hdr in Hx. lia.
  - intros x. rewrite Hins. tauto.
Qed.

(** ** malloc() *)

Lemma malloc_ok fuel nbytes h L A : heap_ok base h L A -> 0 <= nbytes < 2 ^ 32 -> 16 * core_units (units nbytes) < 2 ^ 31 -> (2 * length L + 3 <= fuel)%nat ->
  (forall b x, avail b x = true -> b + x <= 2 ^ 36) -> exists r h', malloc base avail fuel nbytes h = Some (r, h') /\
  (r = 0 /\ h' = h /\ (forall c, c ∈ L -> c.2 < units nbytes) /\ avail (brk h) (16 * core_units (units nbytes)) = false \/
   r <> 0 /\ exists L', heap_ok base h' L' ((r - 16, units nbytes) :: A) /\ (brk h' = brk h \/ brk h' = brk h + 16 * core_units (units nbytes)) /\
     (forall x, inside (r - 16, units nbytes) x \/ covers L' x <-> covers L x \/ brk h <= x < brk h') /\
     same_but (fun x => managed base L x \/ brk h <= x < brk h') (hmem h) (hmem h')).
Proof using base avail.
  intros Hok Hn Hcu Hf Hav. destruct (units_fit nbytes Hn) as [Hu _]. unfold malloc. fold (units nbytes). rewrite u32_small by lia.
  pose proof (node_below base _ _ _ (freep h) Hok (hk_free _ _ _ _ Hok)) as [Hfp _]. destruct (Z.eqb_spec (freep h) 0); [lia|].
  destruct (decide (Exists (fun c => units nbytes <= c.2) L)) as [Hex|Hnone]; [apply Exists_exists in Hex as (c & Hc & Hcn)|rewrite <-Forall_Exists_neg, Forall_forall in Hnone].
  - destruct (malloc_fit fuel fuel (units nbytes) h L A Hok ltac:(lia) ltac:(by exists c) ltac:(lia)) as (r & h' & -> & L' & Hok' & Hbrk & Hsame & Hcov).
    exists (r + 16), h'. split; [done|]. right. pose proof (handed_pos base _ _ _ _ _ Hok') as Hr. split; [lia|].
    replace (r + 16 - 16) with r by lia. exists L'. split; [done|]. split; [by left|]. split; [intros x; rewrite Hcov, Hbrk; split; [by left|intros [?|?]; [done|lia]]|]. eapply same_but_mono; [exact Hsame|]. by left.
  - assert (Hsmall : forall c, c ∈ L -> c.2 < units nbytes) by (intros c Hc; specialize (Hnone c Hc); cbn in Hnone; lia).
    assert (Hfuel : malloc_loop fuel = malloc_loop (length L + S (fuel - S (length L)))) by (f_equal; lia). rewrite Hfuel, (malloc_nofit _ _ _ _ _ _ Hok) by (done || lia).
    pose proof (morecore_ok fuel (units nbytes) h L A Hok ltac:(lia) Hcu ltac:(lia) Hav) as Hm. destruct (avail (brk h) _) eqn:Ea; [|rewrite Hm; exists 0, h; split; [done|]; left; by split_and!].
    destruct Hm as (h1 & L1 & -> & Hne & Hok1 & Hbrk1 & Hlen1 & Hfit & Hcov1 & Hsame1). destruct (Z.eqb_spec (freep h1) 0); [done|].
    destruct (malloc_fit (fuel - S (length L)) fuel (units nbytes) h1 L1 A Hok1 ltac:(lia) Hfit ltac:(lia)) as (r & h' & -> & L' & Hok' & Hbrk & Hsame & Hcov).
    exists (r + 16), h'. split; [done|]. right. pose proof (handed_pos base _ _ _ _ _ Hok') as Hr. split; [lia|].
    replace (r + 16 - 16) with r by lia. exists L'. split; [done|]. split; [right; congruence|]. split; [intros x; by rewrite Hcov, Hcov1, Hbrk|]. rewrite Hbrk. eapply same_but_trans; [exact Hsame1|].
    eapply same_but_mono; [exact Hsame|]. intros x. unfold managed. rewrite Hcov1. tauto.
Qed.

End search.

(** ** Any allocated block *)

Lemma pairs_perm A A' : A ≡ₚ A' -> ForallOrdPairs apart A -> ForallOrdPairs apart A'.
Proof.
  induction 1 as [|x l l' Hp IH|x y l|l1 l2 l3 _ IH1 _ IH2]; intros H; [done| | |auto].
  - inversion H as [|?? Hx Hl]; subst. constructor; [|auto]. by rewrite <-Hp.
  - inversion H as [|?? Hx Hl]; subst. inversion Hl as [|?? Hy Hl']; subst. inversion Hx as [|?? Hxy Hx']; subst. constructor; [constructor; [by apply apart_sym|done]|by constructor].
Qed.

Lemma heap_perm base h L A A' : A ≡ₚ A' -> heap_ok base h L A -> heap_ok base h L A'.
Proof.
  intros Hp [[H1 H2 H3 H4 H5] H6 H7 H8]. split; [split| | |]; try done.
  - intros b Hb. apply H2. by rewrite Hp.
  - intros a b Ha Hb. apply H4; [by rewrite Hp|done].
  - intros b Hb. apply H5. by rewrite Hp.
  - by eapply pairs_perm.
Qed.

(** What is allocated is neither free nor new. *)
Lemma alloc_untouched base h L A a x hi : heap_ok base h L A -> a ∈ A -> inside a x -> ~ (managed base L x \/ brk h <= x < hi).
Proof.
  intros [Hr _ _ _] Ha Hx. destruct (rk_alloc _ _ _ _ _ Hr a Ha) as (H1 & H2 & H3). unfold managed, in_hdr, inside in *. intros [[?|(c & Hc & Hcx)]|?]; [unfold stop in *; lia| |lia].
  pose proof (rk_apart _ _ _ _ _ Hr a c Ha Hc). unfold apart, inside in *. lia.
Qed.

(** ** Claims *)

(** C11: malloc() is correct.  On a well-formed heap with free blocks [L] and
    allocated blocks [A] (or before its first call) it returns either 0, when
    no free block is large enough and sbrk() fails, or the address of a block
    that holds [nbytes] bytes; the heap is well-formed again with that block
    allocated, so it overlaps no free and no other allocated block, the free
    memory shrinks by exactly that block, and no byte of the allocated blocks
    has changed.  The requested size must not overflow sbrk()'s int. *)
Theorem malloc_correct base avail fuel nbytes h L A :
  allocator base h L A -> 0 <= nbytes < 2 ^ 32 -> 16 * core_units (units nbytes) < 2 ^ 31 -> (2 * length L + 3 <= fuel)%nat ->
  (forall b x, avail b x = true -> b + x <= 2 ^ 36) ->
  exists r h', malloc base avail fuel nbytes h = Some (r, h') /\
  (forall a x, a ∈ A -> inside a x -> getb (hmem h') x = getb (hmem h) x) /\
  (r = 0 /\ heap_ok base h' L A /\ (forall c, c ∈ L -> c.2 < units nbytes) /\ avail (brk h) (16 * core_units (units nbytes)) = false \/
   r <> 0 /\ nbytes + 16 <= 16 * units nbytes /\ exists L', heap_ok base h' L' ((r - 16, units nbytes) :: A) /\
     forall x, inside (r - 16, units nbytes) x \/ covers L' x <-> covers L x \/ brk h <= x < brk h').
Proof.
  intros Hal Hn Hcu Hf Hav. pose proof (proj2 (units_fit nbytes Hn)) as Hu.
  assert (Hcase : exists h0, heap_ok base h0 L A /\ brk h0 = brk h /\ malloc base avail fuel nbytes h = malloc base avail fuel nbytes h0 /\ forall a x, a ∈ A -> inside a x -> getb (hmem h0) x = getb (hmem h) x).
  { destruct Hal as [Hok|(Hfp & -> & -> & H1 & H2 & H3)]; [by exists h|]. eexists. split; [by apply (init_ok base h)|]. split; [done|]. split; [|by intros a x []%elem_of_nil].
    unfold malloc. rewrite Hfp. cbn. destruct (Z.eqb_spec base 0); [lia|done]. }
  destruct Hcase as (h0 & Hok & Hbrk & -> & Hget). destruct (malloc_ok base avail fuel nbytes h0 L A Hok Hn Hcu Hf Hav) as (r & h' & Hm & Hres). exists r, h'. split; [done|].
  destruct Hres as [(-> & -> & Hsmall & Ha)|(Hr & L' & Hok' & _ & Hcov & Hsame)]; rewrite Hbrk in *.
  - split; [done|]. left. by split_and!.
  - split; [|right; split_and!; [done|done|by exists L']]. intros a x Hin Hx. rewrite Hsame; [by eapply Hget|]. rewrite <-Hbrk. by eapply alloc_untouched.
Qed.

(** A process with its heap at 8192 and one megabyte to grow. *)
Definition heap0 : heap := mkHeap ∅ 0 8192.
Definition avail0 (b n : Z) : bool := b + n <=? 2 ^ 20.
Lemma avail0_bound b x : avail0 b x = true -> b + x <= 2 ^ 36.
Proof. unfold avail0. intros H%Z.leb_le. lia. Qed.
Lemma heap0_ok : allocator 4096 heap0 [] [].
Proof. right. by repeat split. Qed.

Lemma malloc_correct_witness : exists h' L', malloc 4096 avail0 3 100 heap0 = Some (73616, h') /\ heap_ok 4096 h' L' [(73600, 8)].
Proof.
  destruct (malloc_correct 4096 avail0 3 100 heap0 [] [] heap0_ok ltac:(lia) ltac:(vm_compute; reflexivity) ltac:(cbn; lia) avail0_bound) as (r & h' & Hm & _ & Hres).
  assert (Hr : fst <$> malloc 4096 avail0 3 100 heap0 = Some 73616) by (vm_compute; reflexivity). rewrite Hm in Hr. injection Hr as ->. destruct Hres as [[H _]|(_ & _ & L' & Hok & _)]; [discriminate H|]. exists h', L'. split; [exact Hm|exact Hok].
Defined.

(** C32: free() is correct.  Freeing an allocated block leaves a well-formed
    heap in which that block is no longer allocated, the free memory has grown
    by exactly the block (joined with its neighbours, so that no two free
    blocks touch), and no byte of the other allocated blocks has changed; the
    search for its place in the ring always ends. *)
Theorem free_correct base fuel h L A b A' :
  heap_ok base h L A -> A ≡ₚ b :: A' -> (length L + 2 <= fuel)%nat ->
  exists h' L', free fuel (b.1 + 16) h = Some h' /\ heap_ok base h' L' A' /\
  (forall x, covers L' x <-> covers L x \/ inside b x) /\
  (forall a x, a ∈ A' -> inside a x -> getb (hmem h') x = getb (hmem h) x).
Proof.
  intros Hok Hp Hf. apply (heap_perm _ _ _ _ _ Hp) in Hok. destruct (free_ok base fuel h L b A' Hok Hf) as (h' & L' & Hfree & Hok' & _ & Hcov & Hsame & _). exists h', L'. split_and!; try done.
  intros a x Ha Hx. apply Hsame. intros [Hm|Hb].
  - apply (alloc_untouched base h L _ a x 0 Hok); [by right|done|by left].
  - pose proof (hk_pairs _ _ _ _ Hok) as Hpairs. inversion Hpairs as [|?? Hba _]; subst. rewrite Forall_forall in Hba. specialize (Hba a Ha). unfold apart, inside in *. lia.
Qed.

(** The heap after malloc(100). *)
Definition heap1 : heap := default heap0 (snd <$> malloc 4096 avail0 3 100 heap0).
Lemma heap1_ok : heap_ok 4096 heap1 [(8192, 4088)] [(73600, 8)].
Proof.
  split; [split| | |].
  - vm_compute. done.
  - intros b [->|[->|[->|[]%elem_of_nil]%elem_of_cons]%elem_of_cons]%elem_of_cons; by vm_compute.
  - by vm_compute.
  - intros a b ->%list_elem_of_singleton ->%list_elem_of_singleton. right. by vm_compute.
  - intros b ->%list_elem_of_singleton. by vm_compute.
  - repeat constructor.
  - by vm_compute; left.
  - by vm_compute.
Qed.

Lemma free_correct_witness : exists h' L', free 3 73616 heap1 = Some h' /\ heap_ok 4096 h' L' [] /\ forall x, 8192 <= x < 73728 -> covers L' x.
Proof.
  destruct (free_correct 4096 3 heap1 [(8192, 4088)] [(73600, 8)] (73600, 8) [] heap1_ok ltac:(reflexivity) ltac:(cbn; lia)) as (h' & L' & Hfree & Hok & Hcov & _).
  exists h', L'. split; [exact Hfree|]. split; [exact Hok|]. intros x Hx. apply Hcov. destruct (decide (x < 73600)).
  - left. exists (8192, 4088). split; [by left|]. unfold inside, stop. cbn. lia.
  - right. unfold inside, stop. cbn. lia.
Defined.

(** The bound on the size is needed: for a request of almost 2^32 bytes the
    argument of sbrk() wraps to 0, which succeeds without any new memory, and
    malloc() hands out the memory behind the end of the heap. *)
Theorem malloc_huge : exists h', malloc 4096 avail0 3 (2 ^ 32 - 16) heap0 = Some (8208, h') /\ brk h' = 8192.
Proof. eexists. split; [vm_compute; reflexivity|]. reflexivity. Qed.

End Umalloc.
