(* ===== verification/Grep.v ===== *)
(** * grep (user/grep.c)

    The matcher of Kernighan and Pike against the language of the pattern, and
    the main loop against the lines of the input, for every way the kernel
    splits the input into reads.  A C string is the list of its bytes. *)

From S2P Require Import Prelude Bytes KState User Ulib.

Module Grep.
Import User Ulib.

(** ** The matcher *)

(** [do if(matchhere(re, text)) return 1; while( *text != 0 && ( *text++ == c || c == '.' ));] *)
Fixpoint matchstar (here : list Z -> bool) (c : Z) (text : list Z) : bool :=
  here text ||
  match text with
  | [] => false
  | t :: text' => if (t =? c) || (c =? 46) then matchstar here c text' else false
  end.

Fixpoint matchhere (re text : list Z) : bool :=
  match re with
  | [] => true
  | c :: re' =>
      let one := match text with
                 | [] => false
                 | t :: text' => if (c =? 46) || (c =? t) then matchhere re' text' else false
                 end in
      match re' with
      | d :: re'' => if d =? 42 then matchstar (matchhere re'') c text else one
      | [] => if c =? 36 then match text with [] => true | _ => false end else one
      end
  end.

(** [do if(matchhere(re, text)) return 1; while( *text++ != 0 );] *)
Fixpoint search (re text : list Z) : bool :=
  matchhere re text || match text with [] => false | _ :: text' => search re text' end.

Definition match_ (re text : list Z) : bool :=
  match re with
  | c :: re' => if c =? 94 then matchhere re' text else search re text
  | [] => search re text
  end.

(** ** The main loop *)

(** The text up to the first newline, and what follows it; the search stops
    at a NUL byte, as strchr does. *)
Fixpoint split_line (p : list Z) : option (list Z * list Z) :=
  match p with
  | [] => None
  | c :: p' =>
      if c =? 0 then None
      else if c =? 10 then Some ([], p')
      else match split_line p' with Some (l, q) => Some (c :: l, q) | None => None end
  end.

(** [while((q = strchr(p, '\n')) != 0)]: writes the lines that match and
    returns the text at [p]. *)
Fixpoint grep_lines (fuel : nat) (pattern p : list Z) : prog (list Z) :=
  match fuel with
  | O => Fuel
  | S fuel' =>
      match split_line p with
      | None => Ret p
      | Some (l, q) =>
          (if match_ pattern l then call (Write 1 (l ++ [10])) ;; Ret tt else Ret tt) ;;
          grep_lines fuel' pattern q
      end
  end.

(** [buf] holds the [m] bytes not yet searched. *)
Definition grep (fuel : nat) (pattern : list Z) (fd : Z) : prog unit :=
  loop fuel (fun buf =>
    r <- call (Read fd (1024 - Z.of_nat (length buf) - 1)) ;;
    let '(n, bs) := r in
    if 0 <? n then
      let buf := buf ++ bs in
      buf <- grep_lines (S (length buf)) pattern buf ;;
      Ret (inl buf)
    else Ret (inr tt)) [].

Definition main (fuel : nat) (argv : list (list Z)) : prog unit :=
  match argv with
  | _ :: pattern :: [] => grep fuel pattern 0 ;; exit 0
  | _ :: pattern :: names =>
      each names (fun name =>
        fd <- call (Open name 0) ;;
        if fd <? 0 then printf (line "grep: cannot open %s") [VStr name] ;; exit 1
        else grep fuel pattern fd ;; call (Close fd) ;; Ret tt) ;;
      exit 0
  | _ => fprintf 2 (line "usage: grep pattern [file ...]") [] ;; exit 1
  end.

(** ** The language of a pattern *)

Inductive item := One (c : Z) | Star (c : Z).

(** The items of a pattern, and whether it ends in [$]. *)
Fixpoint items (re : list Z) : list item * bool :=
  match re with
  | [] => ([], false)
  | c :: re' =>
      match re' with
      | d :: re'' =>
          if d =? 42 then let '(its, e) := items re'' in (Star c :: its, e)
          else let '(its, e) := items re' in (One c :: its, e)
      | [] => if c =? 36 then ([], true) else ([One c], false)
      end
  end.

Definition fits (c t : Z) : Prop := c = 46 \/ c = t.

(** [denotes its m]: the text [m] is an instance of the items. *)
Inductive denotes : list item -> list Z -> Prop :=
| d_nil : denotes [] []
| d_one c its t m : fits c t -> denotes its m -> denotes (One c :: its) (t :: m)
| d_star c its ts m : Forall (fits c) ts -> denotes its m -> denotes (Star c :: its) (ts ++ m).

(** Some prefix of the text (all of it, with [$]) is an instance. *)
Definition here (p : list item * bool) (text : list Z) : Prop :=
  exists m rest, text = m ++ rest /\ denotes p.1 m /\ (p.2 = true -> rest = []).

Definition matches (re text : list Z) : Prop :=
  match re with
  | c :: re' => if c =? 94 then here (items re') text else exists pre suf, text = pre ++ suf /\ here (items re) suf
  | [] => True
  end.

Lemma matchstar_spec h c (P : list Z -> Prop) text : (forall t, h t = true <-> P t) ->
  matchstar h c text = true <-> exists ts rest, text = ts ++ rest /\ Forall (fits c) ts /\ P rest.
Proof.
  intros Hh. induction text as [|t text IH]; cbn [matchstar]; rewrite orb_true_iff, Hh.
  - split; [intros [H|H]; [|done]; exists [], []; done|]. intros (ts & rest & Heq & _ & HP). left.
    by apply eq_sym, app_eq_nil in Heq as [-> ->].
  - split.
    + intros [H|H]; [exists [], (t :: text); done|]. destruct ((t =? c) || (c =? 46)) eqn:E; [|done].
      apply IH in H as (ts & rest & -> & Hts & HP). exists (t :: ts), rest. split_and!; [done| |done].
      apply Forall_cons. split; [|done]. apply orb_true_iff in E as [E|E]; apply Z.eqb_eq in E; unfold fits; auto.
    + intros ([|t' ts] & rest & Heq & Hts & HP); [left; by rewrite Heq|]. injection Heq as <- ->. right.
      apply Forall_cons in Hts as [Hc Hts]. replace ((t =? c) || (c =? 46)) with true.
      * apply IH. by exists ts, rest.
      * symmetry. apply orb_true_iff. destruct Hc as [->| ->]; [right; done|left; apply Z.eqb_refl].
Qed.

Lemma here_star c its e text : here (Star c :: its, e) text <-> exists ts rest, text = ts ++ rest /\ Forall (fits c) ts /\ here (its, e) rest.
Proof.
  split.
  - intros (m & rest & -> & Hd & He). cbn in *. inversion Hd as [| |c' its' ts m' Hts Hm]; subst. exists ts, (m' ++ rest). rewrite <-app_assoc.
    split_and!; try done. by exists m', rest.
  - intros (ts & r & -> & Hts & (m & rest & -> & Hd & He)). exists (ts ++ m), rest. rewrite <-app_assoc. split_and!; try done. by constructor.
Qed.
Lemma here_one c its e text : here (One c :: its, e) text <-> exists t rest, text = t :: rest /\ fits c t /\ here (its, e) rest.
Proof.
  split.
  - intros (m & rest & -> & Hd & He). cbn in *. inversion Hd as [|c' its' t m' Ht Hm|]; subst. exists t, (m' ++ rest).
    split_and!; try done. by exists m', rest.
  - intros (t & r & -> & Ht & (m & rest & -> & Hd & He)). exists (t :: m), rest. split_and!; try done. by constructor.
Qed.
Lemma here_nil e text : here ([], e) text <-> (e = true -> text = []).
Proof.
  split.
  - intros (m & rest & -> & Hd & He) E. inversion Hd; subst. by apply He.
  - intros H. exists [], text. split_and!; [done|constructor|done].
Qed.

Lemma one_spec c re text : (forall t, matchhere re t = true <-> here (items re) t) ->
  match text with [] => false | t :: text' => if (c =? 46) || (c =? t) then matchhere re text' else false end = true <->
  here (One c :: (items re).1, (items re).2) text.
Proof.
  intros IH. rewrite here_one. destruct text as [|t text].
  - split; [done|]. by intros (t & rest & ? & _).
  - split.
    + destruct ((c =? 46) || (c =? t)) eqn:E; [|done]. intros H. exists t, text. split_and!; [done| |].
      * apply orb_true_iff in E as [E|E]; apply Z.eqb_eq in E; unfold fits; auto.
      * rewrite <-surjective_pairing. by apply IH.
    + intros (t' & rest & [= <- <-] & Hc & Hr). replace ((c =? 46) || (c =? t)) with true.
      * apply IH. by rewrite <-surjective_pairing in Hr.
      * symmetry. apply orb_true_iff. destruct Hc as [->| ->]; [left; done|right; apply Z.eqb_refl].
Qed.

Lemma matchhere_spec n : forall re text, (length re <= n)%nat -> matchhere re text = true <-> here (items re) text.
Proof.
  induction n as [|n IH]; intros re text Hn.
  - destruct re; [|cbn in Hn; lia]. cbn. rewrite here_nil. done.
  - destruct re as [|c re]; [cbn; rewrite here_nil; done|]. cbn [length] in Hn. cbn [matchhere items].
    destruct re as [|d re].
    + destruct (Z.eqb_spec c 36).
      * rewrite here_nil. destruct text; split; try done. by intros H; discriminate H.
      * rewrite (one_spec c [] text); [done|]. intros t. cbn. rewrite here_nil. done.
    + destruct (Z.eqb_spec d 42).
      * destruct (items re) as [its en] eqn:Ei. rewrite here_star. apply matchstar_spec. intros t. rewrite <-Ei. apply IH. cbn in Hn. lia.
      * destruct (items (d :: re)) as [its en] eqn:Ei.
        rewrite (one_spec c (d :: re) text); [by rewrite Ei|]. intros t. apply IH. lia.
Qed.

Lemma search_spec re text : search re text = true <-> exists pre suf, text = pre ++ suf /\ here (items re) suf.
Proof.
  induction text as [|t text IH]; cbn [search]; rewrite orb_true_iff, (matchhere_spec (length re)) by done.
  - split; [intros [H|H]; [by exists [], []|done]|]. intros (pre & suf & Heq & H). left. by apply eq_sym, app_eq_nil in Heq as [-> ->].
  - rewrite IH. split.
    + intros [H|(pre & suf & -> & H)]; [by exists [], (t :: text)|by exists (t :: pre), suf].
    + intros ([|t' pre] & suf & Heq & H); [left; by rewrite Heq|]. injection Heq as _ ->. right. by exists pre, suf.
Qed.

(** C35: match() decides the language of the pattern: it returns 1 exactly when
    some part of the text (a prefix after [^], a suffix before [$]) is an
    instance of the pattern, [c*] standing for any number of characters that
    fit [c]. *)
Theorem match_correct re text : match_ re text = true <-> matches re text.
Proof.
  unfold match_, matches. destruct re as [|c re]; [split; [done|]; intros _; by destruct text|].
  destruct (Z.eqb_spec c 94); [by apply (matchhere_spec (length re))|]. apply search_spec.
Qed.

(** ** The lines of the input *)

Definition unlines (ls : list (list Z)) : list Z := concat ((fun l => l ++ [10]) <$> ls).
Definition selected (pattern : list Z) (ls : list (list Z)) : list Z :=
  concat ((fun l => if match_ pattern l then l ++ [10] else []) <$> ls).

(** No newline and no NUL. *)
Definition plain (l : list Z) : Prop := Forall (fun c => c <> 10 /\ c <> 0) l.

Lemma split_line_some p : forall l q, split_line p = Some (l, q) -> p = l ++ 10 :: q /\ plain l.
Proof.
  induction p as [|c p IH]; intros l q; cbn [split_line]; [done|]. destruct (Z.eqb_spec c 0); [done|]. destruct (Z.eqb_spec c 10) as [->|].
  - intros [= <- <-]. split; [done|constructor].
  - destruct (split_line p) as [[l' q']|]; [|done]. intros [= <- <-]. destruct (IH l' q' eq_refl) as [-> H]. split; [done|]. by apply Forall_cons.
Qed.
Lemma split_line_none p : Forall (fun c => c <> 0) p -> split_line p = None -> plain p.
Proof.
  induction p as [|c p IH]; cbn [split_line]; intros Hp Hs; [constructor|]. apply Forall_cons in Hp as [Hc Hp].
  destruct (Z.eqb_spec c 0); [done|]. destruct (Z.eqb_spec c 10); [done|]. destruct (split_line p) as [[]|]; [done|].
  apply Forall_cons. split; [done|by apply IH].
Qed.

(** The first line is unique. *)
Lemma first_line l q ls tail : plain l -> Forall plain ls -> plain tail -> l ++ 10 :: q = unlines ls ++ tail ->
  exists ls', ls = l :: ls' /\ q = unlines ls' ++ tail.
Proof.
  intros Hl Hls Ht Heq. destruct ls as [|l' ls].
  - cbn in Heq. subst tail. apply Forall_app in Ht as [_ Ht]. apply Forall_cons in Ht as [[Ht _] _]. done.
  - apply Forall_cons in Hls as [Hl' _]. unfold unlines in Heq. cbn in Heq. fold (unlines ls) in Heq. rewrite <-!app_assoc in Heq. cbn in Heq.
    revert l' Hl Hl' Heq. induction l as [|c l IH]; intros [|c' l'] Hl Hl' Heq; cbn in Heq.
    + injection Heq as ->. by exists ls.
    + injection Heq as <- _. apply Forall_cons in Hl' as [[] _]. done.
    + injection Heq as -> _. apply Forall_cons in Hl as [[] _]. done.
    + injection Heq as <- Heq. apply Forall_cons in Hl as [_ Hl]. apply Forall_cons in Hl' as [_ Hl'].
      destruct (IH l' Hl Hl' Heq) as (ls' & [= -> ->] & Hq). by exists ls'.
Qed.

(** A newline-free beginning of the text is part of the first line. *)
Lemma prefix_line p rest ls tail : plain p -> p ++ rest = unlines ls ++ tail ->
  (length p <= match ls with [] => length tail | l :: _ => length l end)%nat.
Proof.
  intros Hp Heq. destruct ls as [|l ls]; [cbn in Heq; subst tail; rewrite length_app; lia|].
  unfold unlines in Heq. cbn in Heq. rewrite <-!app_assoc in Heq. cbn in Heq. revert l Heq. induction p as [|c p IH]; intros l Heq; cbn; [lia|].
  apply Forall_cons in Hp as [[Hc _] Hp]. destruct l as [|c' l]; cbn in Heq; injection Heq as -> Heq; [done|]. specialize (IH Hp l Heq). cbn. lia.
Qed.

Lemma selected_app pattern ls ls' : selected pattern (ls ++ ls') = selected pattern ls ++ selected pattern ls'.
Proof. unfold selected. by rewrite fmap_app, concat_app. Qed.

Lemma plain_nonzero ls tail : Forall plain ls -> plain tail -> Forall (fun c => c <> 0) (unlines ls ++ tail).
Proof.
  intros Hls Ht. apply Forall_app. split; [|eapply Forall_impl; [exact Ht|by intros c []]].
  induction Hls as [|l ls Hl Hls IH]; [constructor|]. unfold unlines. cbn. apply Forall_app. split; [|exact IH].
  apply Forall_app. split; [eapply Forall_impl; [exact Hl|by intros c []]|]. by apply Forall_singleton.
Qed.

Section grep.
Context (pattern tail : list Z) (Htail : plain tail).

Lemma wp_grep_lines fd rest X : forall fuel p ls w (Q : list Z -> world -> Prop), Forall plain ls -> p ++ rest = unlines ls ++ tail ->
  (length p < fuel)%nat -> fds w !! fd = Some rest ->
  (forall p' ls1 ls2 w', ls = ls1 ++ ls2 -> p' ++ rest = unlines ls2 ++ tail -> plain p' -> fds w' !! fd = Some rest ->
     written_to 1 w' = written_to 1 w ++ selected pattern ls1 -> Q p' w') ->
  wp (grep_lines fuel pattern p) w Q X.
Proof.
  induction fuel as [|fuel IH]; intros p ls w Q Hls Heq Hf Hfd HQ; [lia|]. cbn [grep_lines].
  assert (Hnz : Forall (fun c => c <> 0) p).
  { pose proof (plain_nonzero ls tail Hls Htail) as H. rewrite <-Heq in H. by apply Forall_app in H as [H _]. }
  destruct (split_line p) as [[l q]|] eqn:Es.
  - apply split_line_some in Es as [-> Hl]. rewrite <-app_assoc in Heq. destruct (first_line l (q ++ rest) ls tail Hl Hls Htail Heq) as (ls' & -> & Hq).
    apply Forall_cons in Hls as [_ Hls]. apply wp_bind. rewrite length_app in Hf. cbn in Hf.
    assert (Hw : wp (if match_ pattern l then call (Write 1 (l ++ [10])) ;; Ret tt else Ret tt) w
       (fun _ w' => fds w' !! fd = Some rest /\ written_to 1 w' = written_to 1 w ++ selected pattern [l]) X).
    { unfold selected. cbn. rewrite app_nil_r. destruct (match_ pattern l); [|by rewrite app_nil_r].
      split; [done|]. by rewrite written_emit. }
    eapply wp_mono; [exact Hw|]. intros _ w1 [Hfd1 Hw1]. eapply IH; [exact Hls|exact Hq|lia|done|].
    intros p' ls1 ls2 w2 -> Hp' Hpl Hfd2 Hw2. apply (HQ p' (l :: ls1) ls2); try done. rewrite Hw2, Hw1, <-app_assoc.
    by rewrite <-selected_app.
  - cbn. apply (HQ p [] ls); try done; [by apply split_line_none|]. by rewrite app_nil_r.
Qed.

Lemma wp_grep ls fd w fuel X : Forall plain ls -> Forall (fun l => (length l <= 1022)%nat) (tail :: ls) -> fds w !! fd = Some (unlines ls ++ tail) ->
  (length (unlines ls ++ tail) < fuel)%nat ->
  wp (grep fuel pattern fd) w (fun _ w' => written_to 1 w' = written_to 1 w ++ selected pattern ls) X.
Proof.
  intros Hls Hlen Hfd Hf.
  eapply (wp_loop _ (fun buf w' => exists rest ls1 ls2, ls = ls1 ++ ls2 /\ buf ++ rest = unlines ls2 ++ tail /\ plain buf /\
      fds w' !! fd = Some rest /\ written_to 1 w' = written_to 1 w ++ selected pattern ls1) (fun _ w' => length (default [] (fds w' !! fd)))).
  - intros buf w1 (rest & ls1 & ls2 & -> & Heq & Hpl & Hfd1 & Hw1). apply Forall_app in Hls as [_ Hls2].
    apply Forall_cons in Hlen as [Ht Hlen]. apply Forall_app in Hlen as [_ Hlen2].
    assert (Hbuf : (length buf <= 1022)%nat).
    { pose proof (prefix_line buf rest ls2 tail Hpl Heq). destruct ls2 as [|l ls2]; [lia|]. apply Forall_cons in Hlen2 as [? _]. lia. }
    apply wp_bind. eapply wp_read; [exact Hfd1|]. intros bs rest' -> Hbs Hne. destruct (Z.ltb_spec 0 (Z.of_nat (length bs))) as [Hpos|Hpos].
    + rewrite app_assoc in Heq. apply wp_bind. eapply (wp_grep_lines fd rest'); [exact Hls2|exact Heq|lia|cbn; apply lookup_insert_eq|].
      intros p' ls3 ls4 w2 -> Hp' Hpl' Hfd2 Hw2. cbn. split.
      * exists rest', (ls1 ++ ls3), ls4. rewrite <-app_assoc. split_and!; try done. rewrite Hw2, written_set_fds, Hw1, <-app_assoc. by rewrite selected_app.
      * rewrite Hfd1, Hfd2. cbn. rewrite length_app. lia.
    + destruct bs; [|cbn in Hpos; lia]. cbn in Hne |- *. rewrite written_set_fds, Hw1. f_equal.
      destruct rest' as [|c rest']; [|exfalso; apply Hne; [lia|done|done]]. rewrite app_nil_r in Heq.
      destruct ls2 as [|l ls2]; [by rewrite app_nil_r|]. exfalso. subst buf. unfold unlines in Hpl. cbn in Hpl.
      rewrite <-!app_assoc in Hpl. apply Forall_app in Hpl as [_ Hpl]. cbn in Hpl. apply Forall_cons in Hpl as [[Hpl _] _]. done.
  - exists (unlines ls ++ tail), [], ls. split_and!; try done; [constructor|]. by rewrite app_nil_r.
  - rewrite Hfd. cbn. lia.
Qed.
End grep.

(** C36: grep prints the matching lines.  For an input of lines of at most 1022
    bytes without NUL, followed by an unfinished line, grep() returns and has
    written exactly the lines that match() accepts, in order, however the
    input arrives; the unfinished line is not searched. *)
Theorem grep_correct pattern ls tail fd w fuel X :
  fds w !! fd = Some (unlines ls ++ tail) -> Forall plain ls -> plain tail ->
  Forall (fun l => (length l <= 1022)%nat) (tail :: ls) -> (length (unlines ls ++ tail) < fuel)%nat ->
  wp (grep fuel pattern fd) w (fun _ w' => written_to 1 w' = written_to 1 w ++ selected pattern ls) X.
Proof. intros Hfd Hls Ht Hlen Hf. by apply (wp_grep pattern tail Ht). Qed.

(** A long line ends the search.  When the unread input starts with 1023
    bytes without a newline, the buffer fills up, the next read() asks for 0
    bytes and grep() returns without looking at anything that follows. *)
Theorem grep_long_line pattern l rest fd w fuel X :
  fds w !! fd = Some (l ++ rest) -> plain l -> length l = 1023%nat -> (1023 < fuel)%nat ->
  wp (grep fuel pattern fd) w (fun _ w' => written_to 1 w' = written_to 1 w) X.
Proof.
  intros Hfd Hl Hlen Hf.
  eapply (wp_loop _ (fun buf w' => exists l', l = buf ++ l' /\ fds w' !! fd = Some (l' ++ rest) /\ written_to 1 w' = written_to 1 w)
    (fun buf _ => (1023 - length buf)%nat)); [|by exists l|cbn; lia].
  intros buf w1 (l' & -> & Hfd1 & Hw1). rewrite length_app in Hlen. apply Forall_app in Hl as [Hb Hl']. apply wp_bind.
  eapply wp_read; [exact Hfd1|]. intros bs rest' Heq Hbs Hne. destruct (Z.ltb_spec 0 (Z.of_nat (length bs))) as [Hpos|Hpos]; [|cbn; done].
  assert (Hpre : exists l2, l' = bs ++ l2 /\ rest' = l2 ++ rest).
  { exists (drop (length bs) l'). assert (Ht : take (length bs) (l' ++ rest) = bs) by (by rewrite Heq, take_app_length).
    rewrite take_app_le in Ht by lia. split; [rewrite <-Ht at 1; by rewrite take_drop|].
    apply (f_equal (drop (length bs))) in Heq. rewrite drop_app_length, drop_app_le in Heq by lia. done. }
  destruct Hpre as (l2 & -> & ->). apply Forall_app in Hl' as [Hbs2 _]. apply wp_bind.
  assert (Hs : split_line (buf ++ bs) = None).
  { destruct (split_line (buf ++ bs)) as [[a q]|] eqn:Es; [|done]. apply split_line_some in Es as [Es _].
    assert (Hp : plain (buf ++ bs)) by (by apply Forall_app). rewrite Es in Hp. apply Forall_app in Hp as [_ Hp]. by apply Forall_cons in Hp as [[Hp _] _]. }
  cbn [grep_lines]. rewrite Hs. cbn. split.
  - exists l2. rewrite <-app_assoc, lookup_insert_eq. done.
  - rewrite length_app in *. lia.
Qed.

Lemma grep_long_line_witness :
  wp (grep 2000 (text "x") 0) (world_of (fun _ => None) {[ 0 := replicate 1023 97 ++ 10 :: line "x" ]})
    (fun _ w' => written_to 1 w' = []) (fun _ _ => False).
Proof.
  eapply wp_mono; [apply (grep_long_line (text "x") (replicate 1023 97) (10 :: line "x"))|].
  - done.
  - apply Forall_replicate. done.
  - apply length_replicate.
  - lia.
  - intros _ w' ->. done.
Defined.

(** grep "h.*o$" of "hello", "world" and an unfinished "ho". *)
Lemma grep_correct_witness :
  wp (grep 100 (text "h.*o$") 0) (world_of (fun _ => None) {[ 0 := line "hello" ++ line "world" ++ text "ho" ]})
    (fun _ w' => written_to 1 w' = line "hello") (fun _ _ => False).
Proof.
  eapply wp_mono; [apply (grep_correct (text "h.*o$") [text "hello"; text "world"] (text "ho"))|].
  - by vm_compute.
  - apply (bool_decide_unpack _). by vm_compute.
  - apply (bool_decide_unpack _). by vm_compute.
  - apply (bool_decide_unpack _). by vm_compute.
  - vm_compute. lia.
  - intros _ w' ->. by vm_compute.
Defined.

End Grep.
