(* ===== verification/Utils.v ===== *)
(** * Small user programs (user/cat.c, wc.c, echo.c, kill.c, mkdir.c, rm.c,
    call.c, init.c, pingpong.c, primes.c)

    Each main as a program over the system calls; cat, wc and echo against
    what they are meant to print, for every way the kernel splits the input. *)

From S2P Require Import Prelude Bytes KState User Ulib.

Module Utils.
Import User Ulib.

(** ** cat.c *)

Definition cat (fuel : nat) (fd : Z) : prog unit :=
  n <- loop fuel (fun _ =>
    r <- call (Read fd 512) ;;
    let '(n, buf) := r in
    if 0 <? n then
      w <- call (Write 1 buf) ;;
      if negb (w =? n) then printf (line "cat: write error") [] ;; exit 1
      else Ret (inl tt)
    else Ret (inr n)) tt ;;
  if n <? 0 then printf (line "cat: read error") [] ;; exit 1 else Ret tt.

Definition cat_main (fuel : nat) (argv : list (list Z)) : prog unit :=
  match argv with
  | _ :: (_ :: _) as names =>
      each names (fun name =>
        fd <- call (Open name 0) ;;
        if fd <? 0 then printf (line "cat: cannot open %s") [VStr name] ;; exit 1
        else cat fuel fd ;; call (Close fd) ;; Ret tt) ;;
      exit 0
  | _ => cat fuel 0 ;; exit 1
  end.

(** ** wc.c *)

(** [strchr(" \r\t\n\v", c)] *)
Definition space (c : Z) : bool := bool_decide (c ∈ [32; 13; 9; 10; 11]).

Record counts := mkCounts { lines : Z; words : Z; chars : Z; inword : bool }.

Definition count_char (k : counts) (c : Z) : counts :=
  let chars := chars k + 1 in
  let lines := if c =? 10 then lines k + 1 else lines k in
  if space c then mkCounts lines (words k) chars false
  else if negb (inword k) then mkCounts lines (words k + 1) chars true
  else mkCounts lines (words k) chars (inword k).

Definition wc (fuel : nat) (fd : Z) (name : list Z) : prog unit :=
  r <- loop fuel (fun k =>
    r <- call (Read fd 512) ;;
    let '(n, buf) := r in
    if 0 <? n then Ret (inl (foldl count_char k buf)) else Ret (inr (n, k))) (mkCounts 0 0 0 false) ;;
  let '(n, k) := r in
  if n <? 0 then printf (line "wc: read error") [] ;; exit 1
  else printf (line "%d %d %d %s") [VInt (lines k); VInt (words k); VInt (chars k); VStr name].

Definition wc_main (fuel : nat) (argv : list (list Z)) : prog unit :=
  match argv with
  | _ :: (_ :: _) as names =>
      each names (fun name =>
        fd <- call (Open name 0) ;;
        if fd <? 0 then printf (line "wc: cannot open %s") [VStr name] ;; exit 1
        else wc fuel fd name ;; call (Close fd) ;; Ret tt) ;;
      exit 0
  | _ => wc fuel 0 [] ;; exit 0
  end.

(** ** echo.c *)

Fixpoint echo_args (args : list (list Z)) : prog unit :=
  match args with
  | [] => Ret tt
  | a :: args' =>
      call (Write 1 a) ;;
      (match args' with [] => call (Write 1 [10]) | _ => call (Write 1 [32]) end) ;;
      echo_args args'
  end.

Definition echo_main (argv : list (list Z)) : prog unit := echo_args (drop 1 argv) ;; exit 0.

(** ** kill.c, mkdir.c, rm.c, call.c *)

(** atoi() of a string that is given by its bytes. *)
Definition atoi_text (s : list Z) : Z := default 0 (atoi (S (length s)) (s ++ [0]) 0).

Definition kill_main (argv : list (list Z)) : prog unit :=
  if (length argv <? 2)%nat then fprintf 2 (line "usage: kill pid...") [] ;; exit 1
  else each (drop 1 argv) (fun a => call (Kill (atoi_text a)) ;; Ret tt) ;; exit 0.

(** [for(i = 1; i < argc; i++) if(f(argv[i]) < 0) { message; break; }] *)
Fixpoint until_error (f : list Z -> sys Z) (message : list Z) (args : list (list Z)) : prog unit :=
  match args with
  | [] => Ret tt
  | a :: args' =>
      r <- call (f a) ;;
      if r <? 0 then fprintf 2 message [VStr a] else until_error f message args'
  end.

Definition mkdir_main (argv : list (list Z)) : prog unit :=
  if (length argv <? 2)%nat then fprintf 2 (line "Usage: mkdir files...") [] ;; exit 1
  else until_error Mkdir (line "mkdir: %s failed to create") (drop 1 argv) ;; exit 0.

Definition rm_main (argv : list (list Z)) : prog unit :=
  if (length argv <? 2)%nat then fprintf 2 (line "Usage: rm files...") [] ;; exit 1
  else until_error Unlink (line "rm: %s failed to delete") (drop 1 argv) ;; exit 0.

Definition g (x : Z) : Z := s32 (x + 3).
Definition f (x : Z) : Z := g x.
Definition call_main : prog unit := printf (line "%d %d") [VInt (f 8 + 1); VInt 13] ;; exit 0.

(** ** init.c *)

Definition O_RDONLY : Z := 0.
Definition O_WRONLY : Z := 1.
Definition O_RDWR : Z := 2.
Definition O_CREATE : Z := 512.

(** One turn of the endless loop: start the shell and reap until it exits. *)
Definition init_turn (fuel : nat) : prog unit :=
  printf (line "init: starting sh") [] ;;
  pid <- call Fork ;;
  if pid <? 0 then printf (line "init: fork failed") [] ;; exit 1 else
  if pid =? 0 then call (Exec (text "sh") [text "sh"]) ;; printf (line "init: exec sh failed") [] ;; exit 1 else
  loop fuel (fun _ => wpid <- call Wait ;; if (0 <=? wpid) && negb (wpid =? pid) then Ret (inl tt) else Ret (inr tt)) tt.

Definition init_main (fuel : nat) : prog unit :=
  fd <- call (Open (text "console") O_RDWR) ;;
  (if fd <? 0 then call (Mknod (text "console") 1 1) ;; call (Open (text "console") O_RDWR) ;; Ret tt else Ret tt) ;;
  call (Dup 0) ;;
  call (Dup 0) ;;
  loop fuel (fun _ => init_turn fuel ;; Ret (inl tt)) tt.

(** ** pingpong.c *)

Definition pingpong_main : prog unit :=
  r <- call Pipe ;;
  let '(_, (p0, p1)) := r in
  pid <- call Fork ;;
  (if pid =? 0 then
     call (Write p1 (text "ping")) ;;
     me <- call Getpid ;;
     printf (line "Thread id %d: received ping") [VInt me]
   else
     call Wait ;;
     call (Read p0 4) ;;
     me <- call Getpid ;;
     printf (line "Thread id %d: received pong") [VInt me]) ;;
  exit 1.

(** ** primes.c *)

(** The bytes of an int. *)
Definition int_bytes (n : Z) : list Z := get_bytes 4 (st32 (replicate 4 0) 0 n) 0.
Definition bytes_int (bs : list Z) : Z := s32 (ld32 bs 0).

(** exec_pipe(fd) recurses once per prime. *)
Fixpoint exec_pipe (fuel : nat) (fd : Z) : prog unit :=
  match fuel with
  | O => Fuel
  | S fuel' =>
      r <- call (Read fd 4) ;;
      let num := bytes_int r.2 in
      me <- call Getpid ;;
      printf (line "Thead(%d) prime %d") [VInt me; VInt num] ;;
      r <- call Pipe ;;
      let '(_, (p0, p1)) := r in
      tmp <- loop fuel (fun tmp =>
        r <- call (Read fd 4) ;;
        let '(n, bs) := r in
        if n <=? 0 then Ret (inr tmp) else
        let tmp := bytes_int bs in
        (if negb (Z.rem tmp num =? 0) then call (Write p1 (int_bytes tmp)) ;; Ret tt else Ret tt) ;;
        Ret (inl tmp)) (-1) ;;
      if tmp =? -1 then
        call (Close p1) ;; call (Close p0) ;; call (Close fd) ;; Ret tt
      else
        pid <- call Fork ;;
        if pid =? 0 then
          call (Close p1) ;; call (Close fd) ;;
          exec_pipe fuel' p0 ;;
          call (Close p0) ;; Ret tt
        else
          call (Close p1) ;; call (Close p0) ;; call (Close fd) ;; call Wait ;; Ret tt
  end.

Definition primes_main (fuel : nat) : prog unit :=
  r <- call Pipe ;;
  let '(_, (p0, p1)) := r in
  each (seqZ 2 33) (fun i => call (Write p1 (int_bytes i)) ;; Ret tt) ;;
  call (Close p1) ;;
  exec_pipe fuel p0 ;;
  call (Close p0) ;;
  exit 1.

(** ** What they print *)

Lemma wp_cat fuel fd data w X : fds w !! fd = Some data -> (length data < fuel)%nat ->
  wp (cat fuel fd) w (fun _ w' => written_to 1 w' = written_to 1 w ++ data /\ files w' = files w /\
    exists rest, fds w' = <[fd := rest]> (fds w)) X.
Proof.
  intros Hfd Hf. apply wp_bind.
  eapply (wp_loop _ (fun _ w' => exists pre rest, data = pre ++ rest /\ fds w' = <[fd := rest]> (fds w) /\ files w' = files w /\ written_to 1 w' = written_to 1 w ++ pre)
    (fun _ w' => length (default [] (fds w' !! fd)))).
  - intros _ w1 (pre & rest & -> & Hfd1 & Hfs1 & Hw1). apply wp_bind. eapply wp_read; [rewrite Hfd1; apply lookup_insert_eq|]. intros bs rest' -> Hbs Hne.
    rewrite Hfd1, insert_insert_eq. destruct (Z.ltb_spec 0 (Z.of_nat (length bs))) as [Hpos|Hpos].
    + apply wp_bind, wp_write. rewrite Z.eqb_refl. cbn [negb wp]. split.
      * exists (pre ++ bs), rest'. rewrite <-app_assoc. split_and!; try done. rewrite written_emit, written_set_fds, Hw1, <-app_assoc. done.
      * cbn. rewrite !lookup_insert_eq. cbn. rewrite length_app. lia.
    + destruct bs; [|cbn in Hpos; lia]. cbn in Hne. destruct rest' as [|c rest']; [|exfalso; apply Hne; [lia|done|done]]. cbn. change (Z.of_nat 0 <? 0) with false. cbn [wp].
      rewrite written_set_fds, Hw1. rewrite app_nil_r. split_and!; try done. by eexists.
  - exists [], data. split_and!; try done; [by rewrite insert_id|by rewrite app_nil_r].
  - rewrite Hfd. done.
Qed.

(** cat copies its arguments to the standard output.  For readable files
    cat exits with status 0 and has written their contents one after the
    other, however the kernel splits the reads. *)
Theorem cat_correct fuel name names contents w :
  Forall2 (fun n c => files w n = Some c /\ (length c < fuel)%nat) names contents -> names <> [] ->
  wp (cat_main fuel (name :: names)) w (fun _ _ => False) (fun status w' => status = 0 /\ written_to 1 w' = written_to 1 w ++ concat contents).
Proof.
  intros Hall Hne. destruct names as [|n0 names]; [done|]. unfold cat_main. set (l := n0 :: names) in *. clearbody l. apply wp_bind.
  assert (He : forall names contents w', Forall2 (fun n c => files w n = Some c /\ (length c < fuel)%nat) names contents -> files w' = files w ->
    forall (Q : unit -> world -> Prop) X, (forall w2, written_to 1 w2 = written_to 1 w' ++ concat contents -> Q tt w2) ->
    wp (each names (fun name => fd <- call (Open name 0) ;;
        if fd <? 0 then printf (line "cat: cannot open %s") [VStr name] ;; exit 1 else cat fuel fd ;; call (Close fd) ;; Ret tt)) w' Q X).
  { clear. intros names contents w' H. revert w'. induction H as [|n c names contents [Hn Hc] H IH]; intros w' Hw Q X HQ; cbn [each].
    - apply HQ. by rewrite app_nil_r.
    - apply wp_bind, wp_bind. cbn. rewrite Hw, Hn. intros fd Hfd Hfree. destruct (Z.ltb_spec fd 0); [lia|]. apply wp_bind.
      eapply wp_mono; [apply (wp_cat fuel fd c); [apply lookup_insert_eq|done]|]. intros _ w1 (Hw1 & Hf1 & _). cbn. apply IH; [cbn; rewrite Hf1; exact Hw|].
      intros w2 Hw2. apply HQ. rewrite Hw2, ?written_set_paths, !written_set_fds, Hw1, <-app_assoc. done. }
  eapply (He l contents w Hall eq_refl). intros w2 Hw2. done.
Qed.

Lemma cat_correct_witness :
  wp (cat_main 10 [text "cat"; text "a"; text "b"]) (world_of (fun n => if bool_decide (n = text "a") then Some (text "one") else Some (text "two")) ∅)
    (fun _ _ => False) (fun status w' => status = 0 /\ written_to 1 w' = text "onetwo").
Proof.
  apply (cat_correct 10 (text "cat") [text "a"; text "b"] [text "one"; text "two"]); [|done].
  repeat constructor; cbn; lia || done.
Defined.

(** ** Counting *)

(** The declarative counts: newlines, and bytes that start a word. *)
Definition newlines (l : list Z) : Z := Z.of_nat (length (filter (eq 10) l)).
Definition starts (l : list Z) (i : nat) : bool :=
  match l !! i with
  | Some c => negb (space c) && match i with O => true | S j => match l !! j with Some d => space d | None => false end end
  | None => false
  end.
Definition word_count (l : list Z) : Z := Z.of_nat (length (filter (fun i => starts l i = true) (seq 0 (length l)))).

Definition in_word (l : list Z) : bool := match last l with Some c => negb (space c) | None => false end.

Lemma word_count_snoc l c : word_count (l ++ [c]) = word_count l + if negb (space c) && negb (in_word l) then 1 else 0.
Proof.
  unfold word_count. rewrite length_app. cbn [length]. rewrite Nat.add_1_r, seq_S, filter_app, length_app, Nat2Z.inj_add. f_equal.
  - do 2 f_equal. apply list_filter_ext_in. intros i Hi%elem_of_seq. unfold starts. rewrite lookup_app_l by lia.
    destruct (l !! i) as [d|]; [|done]. destruct i as [|j]; [done|]. by rewrite lookup_app_l by lia.
  - assert (Hs : starts (l ++ [c]) (length l) = negb (space c) && negb (in_word l)).
    { unfold starts. rewrite lookup_app_r by lia. rewrite Nat.sub_diag. cbn. unfold in_word. rewrite last_lookup. f_equal.
      destruct (length l) as [|j] eqn:El; [by apply nil_length_inv in El as ->|]. cbn.
      rewrite lookup_app_l by lia. destruct (lookup_lt_is_Some_2 l j) as [d Hd]; [lia|]. by rewrite Hd, negb_involutive. }
    cbn. destruct (decide (starts (l ++ [c]) (length l) = true)) as [E|E]; rewrite Hs in E.
    + by rewrite E.
    + by destruct (negb (space c) && negb (in_word l)).
Qed.

Lemma count_spec l : foldl count_char (mkCounts 0 0 0 false) l = mkCounts (newlines l) (word_count l) (Z.of_nat (length l)) (in_word l).
Proof.
  induction l as [|c l IH] using rev_ind; [done|]. rewrite foldl_app, IH. cbn [foldl]. unfold count_char. cbn [lines words chars inword].
  rewrite word_count_snoc, length_app. cbn [length].
  replace (if c =? 10 then newlines l + 1 else newlines l) with (newlines (l ++ [c])).
  2: { unfold newlines. rewrite filter_app, length_app, Nat2Z.inj_add. cbn. destruct (Z.eqb_spec c 10) as [->|].
       - by rewrite decide_True.
       - rewrite decide_False by done. cbn. lia. }
  assert (Hw : in_word (l ++ [c]) = negb (space c)) by (unfold in_word; by rewrite last_snoc). rewrite Hw.
  destruct (space c); cbn [negb andb]; [f_equal; lia|]. destruct (in_word l); cbn [negb]; f_equal; lia.
Qed.

(** The line wc prints. *)
Definition report (l : list Z) (name : list Z) : list Z :=
  int_text (s32 (newlines l)) 10 true ++ [32] ++ int_text (s32 (word_count l)) 10 true ++ [32] ++
  int_text (s32 (Z.of_nat (length l))) 10 true ++ [32] ++ name ++ [10].

Lemma prints_report l name :
  prints 1 (report l name) (printf (line "%d %d %d %s") [VInt (newlines l); VInt (word_count l); VInt (Z.of_nat (length l)); VStr name]).
Proof.
  change (printf _ _) with (printint 1 (s32 (newlines l)) 10 true ;; putc 1 32 ;; printint 1 (s32 (word_count l)) 10 true ;; putc 1 32 ;;
    printint 1 (s32 (Z.of_nat (length l))) 10 true ;; putc 1 32 ;; each name (putc 1) ;; putc 1 10 ;; Ret tt).
  unfold report. repeat (apply prints_seq; [apply prints_printint || apply prints_putc || apply prints_each|]).
  rewrite <-(app_nil_r [10]). apply prints_seq; [apply prints_putc|apply prints_ret].
Qed.

(** wc counts right.  wc() prints the number of newlines, of words (the
    maximal runs of bytes that are not white space) and of bytes of the whole
    input, however the kernel splits it; a word cut in two by a read counts
    once. *)
Theorem wc_correct fuel fd name data w X : fds w !! fd = Some data -> (length data < fuel)%nat ->
  wp (wc fuel fd name) w (fun _ w' => written_to 1 w' = written_to 1 w ++ report data name) X.
Proof.
  intros Hfd Hf. apply wp_bind.
  eapply (wp_loop _ (fun k w' => exists pre rest, data = pre ++ rest /\ fds w' !! fd = Some rest /\ written_to 1 w' = written_to 1 w /\
      k = foldl count_char (mkCounts 0 0 0 false) pre) (fun _ w' => length (default [] (fds w' !! fd)))).
  - intros k w1 (pre & rest & -> & Hfd1 & Hw1 & ->). apply wp_bind. eapply wp_read; [exact Hfd1|]. intros bs rest' -> Hbs Hne.
    destruct (Z.ltb_spec 0 (Z.of_nat (length bs))) as [Hpos|Hpos]; cbn [wp].
    + split.
      * exists (pre ++ bs), rest'. rewrite <-app_assoc, foldl_app. split_and!; try done. cbn. apply lookup_insert_eq.
      * cbn. rewrite lookup_insert_eq, Hfd1. cbn. rewrite length_app. lia.
    + destruct bs; [|cbn in Hpos; lia]. cbn in Hne. destruct rest' as [|c rest']; [|exfalso; apply Hne; [lia|done|done]].
      change (Z.of_nat (length []) <? 0) with false. cbv iota. rewrite count_spec. cbn [lines words chars]. rewrite !app_nil_r.
      apply prints_report. intros w2 _ Hw2. rewrite (Hw2 1), written_set_fds, Hw1. done.
  - exists [], data. done.
  - rewrite Hfd. done.
Qed.

Lemma wc_correct_witness :
  wp (wc 20 0 (text "x")) (world_of (fun _ => None) {[ 0 := line "two words" ]}) (fun _ w' => written_to 1 w' = line "1 2 10 x") (fun _ _ => False).
Proof.
  eapply wp_mono; [apply (wc_correct 20 0 (text "x") (line "two words")); [done|by vm_compute; lia]|].
  intros _ w' ->. by vm_compute.
Defined.

(** echo prints its arguments separated by spaces, and a newline. *)
Fixpoint joined (args : list (list Z)) : list Z :=
  match args with [] => [] | [a] => a ++ [10] | a :: args' => a ++ [32] ++ joined args' end.

Lemma prints_echo args : prints 1 (joined args) (echo_args args).
Proof.
  induction args as [|a args IH]; [apply prints_ret|]. destruct args as [|b args].
  - intros w Q X HQ. cbn. apply HQ; [by split_and!|]. intros fd'. rewrite !written_emit. destruct (1 =? fd'); by rewrite <-app_assoc.
  - change (joined (a :: b :: args)) with (a ++ [32] ++ joined (b :: args)). intros w Q X HQ. cbn [echo_args]. apply wp_bind, wp_write, wp_bind, wp_write.
    apply IH. intros w' Hd Hw. apply HQ; [exact Hd|]. intros fd'. rewrite Hw, !written_emit. destruct (1 =? fd'); by rewrite <-?app_assoc, ?app_nil_r.
Qed.

End Utils.
