(* ===== verification/Shell.v ===== *)
(** * The shell (user/sh.c)

    The parser works on the line in [buf], a C string given by its bytes, with
    pointers into it as offsets; [es] is the offset of the final NUL.  A
    command is the tree of the structs sh.c allocates.  panic() in the parser
    is the outcome [Syntax], or [Leftovers] with the text that is left over.
    runcmd is a program over the system calls. *)

From S2P Require Import Prelude Bytes KState User Ulib Utils.

Module Shell.
Import User Ulib Utils.

(** ** Commands *)

(** EXEC lists the pairs argv[i], eargv[i] up to the null pointer. *)
Inductive cmd :=
| EXEC (args : list (Z * Z))
| REDIR (c : cmd) (file efile mode fd : Z)
| PIPE (left right : cmd)
| LIST (left right : cmd)
| BACK (c : cmd).

Definition MAXARGS : nat := 10.

(** Constructors; malloc'ed and zeroed in the code. *)
Definition execcmd : cmd := EXEC [].
Definition redircmd (subcmd : cmd) (file efile mode fd : Z) : cmd := REDIR subcmd file efile mode fd.
Definition pipecmd (left right : cmd) : cmd := PIPE left right.
Definition listcmd (left right : cmd) : cmd := LIST left right.
Definition backcmd (subcmd : cmd) : cmd := BACK subcmd.

(** ** Outcomes of the parser *)

Inductive parsed (A : Type) := Parsed (a : A) | Syntax (msg : string) | Leftovers (s : list Z) | NoFuel.
Arguments Parsed {_} _.
Arguments Syntax {_} _.
Arguments Leftovers {_} _.
Arguments NoFuel {_}.

Definition bindr {A B} (x : parsed A) (f : A -> parsed B) : parsed B :=
  match x with Parsed a => f a | Syntax m => Syntax m | Leftovers s => Leftovers s | NoFuel => NoFuel end.
Notation "'let*' x := a 'in' b" := (bindr a (fun x => b)) (at level 10, x pattern, a at level 200, b at level 200).

(** ** Tokens *)

Definition whitespace : list Z := [32; 9; 13; 10; 11].
Definition symbols : list Z := [60; 124; 62; 38; 59; 40; 41].

(** [strchr(l, c)] as a test: the NUL byte is in no string. *)
Definition oneof (l : list Z) (c : Z) : bool := negb (c =? 0) && bool_decide (c ∈ l).

Section parser.
Context (buf : list Z) (es : Z).
Abbreviation at_ s := (getb buf s).

(** [while(s < es && p( *s )) s++;] *)
Fixpoint skip_loop (k : nat) (p : Z -> bool) (s : Z) : Z :=
  match k with
  | O => s
  | S k' => if p (at_ s) then skip_loop k' p (s + 1) else s
  end.
Definition skip (p : Z -> bool) (s : Z) : Z := skip_loop (Z.to_nat (es - s)) p s.

(** The token at [s]: its kind ('a' for a word, '+' for >>, 0 at the end),
    where it starts and ends, and where the next one starts. *)
Definition gettoken (s : Z) : Z * Z * Z * Z :=
  let s := skip (oneof whitespace) s in
  let q := s in
  let c := at_ s in
  let '(ret, s) :=
    if c =? 0 then (c, s)
    else if bool_decide (c ∈ [124; 40; 41; 59; 38; 60]) then (c, s + 1)
    else if c =? 62 then if at_ (s + 1) =? 62 then (43, s + 2) else (c, s + 1)
    else (97, skip (fun c => negb (oneof whitespace c) && negb (oneof symbols c)) s) in
  let eq := s in
  (ret, q, eq, skip (oneof whitespace) s).

Definition peek (s : Z) (toks : list Z) : bool * Z :=
  let s := skip (oneof whitespace) s in
  (oneof toks (at_ s), s).

(** ** Parsing *)

(** [while(peek(ps, es, "<>"))] *)
Fixpoint parseredirs_loop (k : nat) (c : cmd) (s : Z) : parsed (cmd * Z) :=
  match k with
  | O => NoFuel
  | S k' =>
      let '(b, s) := peek s [60; 62] in
      if b then
        let '(tok, _, _, s) := gettoken s in
        let '(t, q, eq, s) := gettoken s in
        if negb (t =? 97) then Syntax "missing file for redirection" else
        let c := if tok =? 60 then redircmd c q eq O_RDONLY 0
                 else if tok =? 62 then redircmd c q eq (Z.lor O_WRONLY O_CREATE) 1
                 else if tok =? 43 then redircmd c q eq (Z.lor O_WRONLY O_CREATE) 1
                 else c in
        parseredirs_loop k' c s
      else Parsed (c, s)
  end.
Definition parseredirs (c : cmd) (s : Z) : parsed (cmd * Z) := parseredirs_loop (S (Z.to_nat (es - s))) c s.

(** parseexec() keeps a pointer to the EXEC node below the redirections
    [ret]: [cmd->argv[argc] = q; cmd->eargv[argc] = eq]. *)
Fixpoint add_arg (q eq : Z) (ret : cmd) : cmd :=
  match ret with
  | EXEC args => EXEC (args ++ [(q, eq)])
  | REDIR c file efile mode fd => REDIR (add_arg q eq c) file efile mode fd
  | _ => ret
  end.

(** [while(!peek(ps, es, "|)&;"))] *)
Fixpoint parseargs_loop (k : nat) (ret : cmd) (argc : nat) (s : Z) : parsed (cmd * Z) :=
  match k with
  | O => NoFuel
  | S k' =>
      let '(b, s) := peek s [124; 41; 38; 59] in
      if b then Parsed (ret, s) else
      let '(tok, q, eq, s) := gettoken s in
      if tok =? 0 then Parsed (ret, s) else
      if negb (tok =? 97) then Syntax "syntax" else
      let ret := add_arg q eq ret in
      let argc := S argc in
      if (MAXARGS <=? argc)%nat then Syntax "too many args" else
      let* (ret, s) := parseredirs ret s in
      parseargs_loop k' ret argc s
  end.

(** [while(peek(ps, es, "&"))] *)
Fixpoint parseback_loop (k : nat) (c : cmd) (s : Z) : parsed (cmd * Z) :=
  match k with
  | O => NoFuel
  | S k' =>
      let '(b, s) := peek s [38] in
      if b then let '(_, _, _, s) := gettoken s in parseback_loop k' (backcmd c) s
      else Parsed (c, s)
  end.

Fixpoint parseline (fuel : nat) (s : Z) : parsed (cmd * Z) :=
  match fuel with
  | O => NoFuel
  | S fuel =>
      let* (c, s) := parsepipe fuel s in
      let* (c, s) := parseback_loop (S (Z.to_nat (es - s))) c s in
      let '(b, s) := peek s [59] in
      if b then
        let '(_, _, _, s) := gettoken s in
        let* (c', s) := parseline fuel s in
        Parsed (listcmd c c', s)
      else Parsed (c, s)
  end
with parsepipe (fuel : nat) (s : Z) : parsed (cmd * Z) :=
  match fuel with
  | O => NoFuel
  | S fuel =>
      let* (c, s) := parseexec fuel s in
      let '(b, s) := peek s [124] in
      if b then
        let '(_, _, _, s) := gettoken s in
        let* (c', s) := parsepipe fuel s in
        Parsed (pipecmd c c', s)
      else Parsed (c, s)
  end
with parseblock (fuel : nat) (s : Z) : parsed (cmd * Z) :=
  match fuel with
  | O => NoFuel
  | S fuel =>
      let '(b, s) := peek s [40] in
      if negb b then Syntax "parseblock" else
      let '(_, _, _, s) := gettoken s in
      let* (c, s) := parseline fuel s in
      let '(b, s) := peek s [41] in
      if negb b then Syntax "syntax - missing )" else
      let '(_, _, _, s) := gettoken s in
      parseredirs c s
  end
with parseexec (fuel : nat) (s : Z) : parsed (cmd * Z) :=
  match fuel with
  | O => NoFuel
  | S fuel =>
      let '(b, s) := peek s [40] in
      if b then parseblock fuel s else
      let* (ret, s) := parseredirs execcmd s in
      parseargs_loop (S (Z.to_nat (es - s))) ret 0 s
  end.
End parser.

(** *** nulterminate *)

Fixpoint nulterminate (c : cmd) (buf : list Z) : list Z :=
  match c with
  | EXEC args => foldl (fun buf a => setb buf a.2 0) buf args
  | REDIR c _ efile _ _ => setb (nulterminate c buf) efile 0
  | PIPE l r => nulterminate r (nulterminate l buf)
  | LIST l r => nulterminate r (nulterminate l buf)
  | BACK c => nulterminate c buf
  end.

(** parsecmd(s) on a line of [length s] bytes: the command, and the buffer
    with its NUL bytes. *)
Definition parsecmd (fuel : nat) (s : list Z) : parsed (cmd * list Z) :=
  let es := Z.of_nat (length s) in
  let* (c, p) := parseline s es fuel 0 in
  let '(_, p) := peek s es p [] in
  if negb (p =? es) then Leftovers (drop (Z.to_nat p) s) else Parsed (c, nulterminate c (s ++ [0])).

(** ** Running *)

Definition sh_panic {R} (s : string) : prog R := fprintf 2 (line "%s") [VStr (text s)] ;; exit 1.

Definition fork1 : prog Z :=
  pid <- call Fork ;;
  if pid =? -1 then sh_panic "fork" else Ret pid.

(** The C string at offset [s]. *)
Fixpoint c_str (l : list Z) : list Z :=
  match l with [] => [] | c :: l' => if c =? 0 then [] else c :: c_str l' end.
Definition str_at (buf : list Z) (s : Z) : list Z := c_str (drop (Z.to_nat s) buf).

(** Execute cmd.  Never returns. *)
Fixpoint runcmd (buf : list Z) (c : cmd) : prog unit :=
  (match c with
   | EXEC [] => exit 1
   | EXEC (((a, _) :: _) as args) =>
       call (Exec (str_at buf a) ((fun x => str_at buf x.1) <$> args)) ;;
       fprintf 2 (line "exec %s failed") [VStr (str_at buf a)]
   | REDIR c file _ mode fd =>
       call (Close fd) ;;
       r <- call (Open (str_at buf file) mode) ;;
       if r <? 0 then fprintf 2 (line "open %s failed") [VStr (str_at buf file)] ;; exit 1 else
       runcmd buf c
   | LIST l r =>
       pid <- fork1 ;;
       (if pid =? 0 then runcmd buf l else Ret tt) ;;
       call Wait ;;
       runcmd buf r
   | PIPE l r =>
       x <- call Pipe ;;
       let '(st, (p0, p1)) := x in
       if st <? 0 then sh_panic "pipe" else
       pid <- fork1 ;;
       (if pid =? 0 then
          call (Close 1) ;; call (Dup p1) ;; call (Close p0) ;; call (Close p1) ;; runcmd buf l
        else Ret tt) ;;
       pid <- fork1 ;;
       (if pid =? 0 then
          call (Close 0) ;; call (Dup p0) ;; call (Close p0) ;; call (Close p1) ;; runcmd buf r
        else Ret tt) ;;
       call (Close p0) ;; call (Close p1) ;; call Wait ;; call Wait ;; Ret tt
   | BACK c =>
       pid <- fork1 ;;
       if pid =? 0 then runcmd buf c else Ret tt
   end) ;;
  exit 0.

(** getcmd(): the prompt and a line, [None] at the end of the input. *)
Definition getcmd (nbuf : Z) : prog (option (list Z)) :=
  fprintf 2 (text "$ ") [] ;;
  buf <- gets nbuf ;;
  let s := c_str buf in
  Ret (match s with [] => None | _ => Some s end).

(** [while((fd = open("console", O_RDWR)) >= 0) if(fd >= 3) { close(fd); break; }] *)
Definition open_console (fuel : nat) : prog unit :=
  loop fuel (fun _ =>
    fd <- call (Open (text "console") O_RDWR) ;;
    if 0 <=? fd then if 3 <=? fd then call (Close fd) ;; Ret (inr tt) else Ret (inl tt)
    else Ret (inr tt)) tt.

Definition sh_main (fuel : nat) : prog unit :=
  open_console fuel ;;
  loop fuel (fun _ =>
    b <- getcmd 100 ;;
    match b with
    | None => Ret (inr tt)
    | Some s =>
        if bool_decide (take 3 s = text "cd ") then
          let s := take (length s - 1) s in
          r <- call (Chdir (drop 3 s)) ;;
          (if r <? 0 then fprintf 2 (line "cannot cd %s") [VStr (drop 3 s)] else Ret tt) ;;
          Ret (inl tt)
        else
          pid <- fork1 ;;
          (if pid =? 0 then
             match parsecmd fuel s with
             | Parsed (c, buf) => runcmd buf c
             | Syntax m => sh_panic m
             | Leftovers p => fprintf 2 (line "leftovers: %s") [VStr p] ;; sh_panic "syntax"
             | NoFuel => Fuel
             end
           else Ret tt) ;;
          call Wait ;;
          Ret (inl tt)
    end) tt ;;
  exit 0.

End Shell.
