(* ===== verification/Tools.v ===== *)
(** * More user programs (user/ls.c, find.c, xargs.c, ln.c, sleep.c, zombie.c,
    uthread.c)

    Strings are the bytes before the NUL.  ls and find read directories in
    records of 16 bytes.  xargs works on its memory: the array of argument
    pointers and the buffers they point to. *)

From S2P Require Import Prelude Bytes KState User Ulib Utils Shell.

Module Tools.
Import User Ulib Utils Shell.

(** ** ls.c *)

(** [for(p = path + strlen(path); p >= path && *p != '/'; p--); p++;] *)
Fixpoint after_slash (i : nat) (path : list Z) : nat :=
  if bool_decide (path !! i = Some 47) then S i
  else match i with O => O | S i' => after_slash i' path end.

Definition fmtname (path : list Z) : list Z :=
  let p := drop (after_slash (length path) path) path in
  if DIRSIZ <=? Z.of_nat (length p) then p
  else p ++ replicate (Z.to_nat DIRSIZ - length p) 32.

(** struct dirent *)
Definition de_inum (de : list Z) : Z := ld16 de 0.
Definition de_name (de : list Z) : list Z := c_str (take (Z.to_nat DIRSIZ) (drop 2 de)).

Definition ls (fuel : nat) (path : list Z) : prog unit :=
  fd <- call (Open path 0) ;;
  if fd <? 0 then fprintf 2 (line "ls: cannot open %s") [VStr path] else
  r <- call (Fstat fd) ;;
  let '(n, (type, ino, size)) := r in
  if n <? 0 then fprintf 2 (line "ls: cannot stat %s") [VStr path] ;; call (Close fd) ;; Ret tt else
  (if type =? T_FILE then printf (line "%s %d %d %l") [VStr (fmtname path); VInt type; VInt ino; VInt size]
   else if type =? T_DIR then
     if 512 <? Z.of_nat (length path) + 1 + DIRSIZ + 1 then printf (line "ls: path too long") []
     else
       loop fuel (fun _ =>
         r <- call (Read fd 16) ;;
         let '(n, de) := r in
         if n =? 16 then
           if de_inum de =? 0 then Ret (inl tt) else
           let buf := path ++ [47] ++ de_name de in
           r <- stat buf ;;
           let '(n, (type, ino, size)) := r in
           if n <? 0 then printf (line "ls: cannot stat %s") [VStr buf] ;; Ret (inl tt)
           else printf (line "%s %d %d %d") [VStr (fmtname buf); VInt type; VInt ino; VInt size] ;; Ret (inl tt)
         else Ret (inr tt)) tt
   else Ret tt) ;;
  call (Close fd) ;;
  Ret tt.

Definition ls_main (fuel : nat) (argv : list (list Z)) : prog unit :=
  if (length argv <? 2)%nat then ls fuel (text ".") ;; exit 0
  else each (drop 1 argv) (ls fuel) ;; exit 0.

(** ** find.c *)

(** fmtname() of find.c does not pad: what is left in its static buffer
    from an earlier name stays behind the new one. *)
Definition find_fmtname (static path : list Z) : list Z * list Z :=
  let p := drop (after_slash (length path) path) path in
  if DIRSIZ <=? Z.of_nat (length p) then (p, static)
  else let static := p ++ drop (length p) static in (c_str static, static).

(** ls() of find.c, with the static buffer passed along. *)
Fixpoint find_ls (fuel : nat) (static path filename : list Z) : prog (list Z) :=
  match fuel with
  | O => Fuel
  | S fuel' =>
      fd <- call (Open path 0) ;;
      if fd <? 0 then fprintf 2 (line "ls: cannot open %s") [VStr path] ;; Ret static else
      r <- call (Fstat fd) ;;
      let '(n, (type, ino, size)) := r in
      if n <? 0 then fprintf 2 (line "ls: cannot stat %s") [VStr path] ;; call (Close fd) ;; Ret static else
      static <- (if type =? T_FILE then
           let '(name, static) := find_fmtname static path in
           printf (line "%s %d %d %l") [VStr name; VInt type; VInt ino; VInt size] ;; Ret static
         else if type =? T_DIR then
           if 512 <? Z.of_nat (length path) + 1 + DIRSIZ + 1 then printf (line "ls: path too long") [] ;; Ret static
           else
             loop fuel (fun static =>
               r <- call (Read fd 16) ;;
               let '(n, de) := r in
               if n =? 16 then
                 if de_inum de =? 0 then Ret (inl static) else
                 let p := de_name de in
                 let buf := path ++ [47] ++ p in
                 r <- stat buf ;;
                 let '(n, (type, _, _)) := r in
                 if n <? 0 then printf (line "ls: cannot stat %s") [VStr buf] ;; Ret (inl static)
                 else if (type =? T_DIR) && negb (default 0 (head p) =? 46) then
                   static <- find_ls fuel' static p filename ;; Ret (inl static)
                 else if bool_decide (p = filename) then printf (line "./%s") [VStr buf] ;; Ret (inl static)
                 else Ret (inl static)
               else Ret (inr static)) static
         else Ret static) ;;
      call (Close fd) ;;
      Ret static
  end.

Definition find_main (fuel : nat) (argv : list (list Z)) : prog unit :=
  match argv with
  | [_; dir; name] => find_ls fuel (replicate 15 0) dir name ;; exit 1
  | _ => printf (line "Usage: find . b") [] ;; exit 1
  end.

(** ** xargs.c *)

Section xargs.
(** The command's buffer, the array of pointers and the ten buffers that
    malloc returned. *)
Context (cmd arr : Z) (rows : list Z).

Definition row_at (m : mem) (k : Z) : Z := ld64 m (arr + 8 * k).
Definition set_row (m : mem) (k v : Z) : mem := st64 m (arr + 8 * k) v.

(** The NUL-terminated bytes at [a]. *)
Definition string_at (fuel : nat) (m : mem) (a : Z) : list Z := c_str (get_bytes fuel m a).
Definition put_string (m : mem) (a : Z) (s : list Z) : mem := set_bytes m a (s ++ [0]).

(** The strings of the argument vector up to the null pointer. *)
Fixpoint argv_from (k : nat) (fuel : nat) (m : mem) (i : Z) : list (list Z) :=
  match k with
  | O => []
  | S k' => if row_at m i =? 0 then [] else string_at fuel m (row_at m i) :: argv_from k' fuel m (i + 1)
  end.

Definition clear_row (m : mem) (k : Z) : mem :=
  foldl (fun m j => if negb (getb m (row_at m k + j) =? 0) then setb m (row_at m k + j) 0 else m) m (seqZ 0 50).

(** [row] and [col] before a line. *)
Definition first_col (args : list (list Z)) : Z := if (1 <=? length args)%nat then 2 else 1.

Definition xargs_main (fuel : nat) (argv : list (list Z)) (m0 : mem) : prog unit :=
  match argv with
  | _ :: name :: args =>
      let m := put_string m0 cmd name in
      let m := foldl (fun m '(k, r) => set_row m k r) m (zip (seqZ 0 10) rows) in
      loop fuel (fun '(m, row, col) =>
        r <- call (Read 0 1) ;;
        let '(n, ch) := r in
        if n <=? 0 then exit 1 else
        let c := default 0 (head ch) in
        if c =? 10 then
          let col := col + 1 in
          let m := set_row m col 0 in
          let m := put_string m (row_at m 0) (string_at fuel m cmd) in
          let m := match args with a :: _ => put_string m (row_at m 1) a | [] => m end in
          child <- call Fork ;;
          (if child =? 0 then
             call (Exec (string_at fuel m cmd) (argv_from fuel fuel m 0)) ;;
             printf (line "exec failed!") []
           else Ret tt) ;;
          call Wait ;;
          let m := foldl clear_row m (seqZ 1 9) in
          Ret (inl (m, 0, first_col args))
        else if c =? 32 then
          let m := setb m (row_at m col + row) 0 in
          Ret (inl (m, 0, col + 1))
        else
          let m := setb m (row_at m col + row) c in
          Ret (inl (m, row + 1, col))) (m, 0, first_col args)
  | _ => printf (text "xargs cmd 123") [] ;; exit 1
  end.
End xargs.

(** ** ln.c, sleep.c, zombie.c *)

Definition ln_main (argv : list (list Z)) : prog unit :=
  match argv with
  | [_; old; new] =>
      r <- call (Link old new) ;;
      (if r <? 0 then fprintf 2 (line "link %s %s: failed") [VStr old; VStr new] else Ret tt) ;;
      exit 0
  | _ => fprintf 2 (line "Usage: ln old new") [] ;; exit 1
  end.

Definition sleep_main (argv : list (list Z)) : prog unit :=
  match argv with
  | _ :: a :: _ => call (Sleep (atoi_text a)) ;; exit 1
  | _ => fprintf 2 (line "Usage: sleep for a new sec...") [] ;; exit (-1)
  end.

Definition zombie_main : prog unit :=
  pid <- call Fork ;;
  (if 0 <? pid then call (Sleep 5) ;; Ret tt else Ret tt) ;;
  exit 0.

(** ** uthread.c *)

Definition MAX_THREAD : nat := 4.
Inductive tstate := FREE | RUNNING | RUNNABLE.
#[export] Instance tstate_eq_dec : EqDecision tstate.
Proof. solve_decision. Defined.

(** all_thread[i].state, and the index of current_thread. *)
Record threads := mkThreads { all_thread : list tstate; current_thread : nat }.

Definition set_state (i : nat) (s : tstate) (u : threads) : threads := mkThreads (<[i := s]> (all_thread u)) (current_thread u).

Definition thread_init (u : threads) : threads := set_state 0 RUNNING (mkThreads (all_thread u) 0).

(** [for(i = 0; i < MAX_THREAD; i++)] from index [t] on. *)
Fixpoint find_runnable (k : nat) (u : threads) (t : nat) : option nat :=
  match k with
  | O => None
  | S k' =>
      let t := if (MAX_THREAD <=? t)%nat then 0%nat else t in
      if bool_decide (all_thread u !! t = Some RUNNABLE) then Some t else find_runnable k' u (t + 1)
  end.

(** The switch of stacks is left to be written in the source. *)
Definition thread_schedule (u : threads) : prog threads :=
  match find_runnable MAX_THREAD u (current_thread u + 1) with
  | None => printf (line "thread_schedule: no runnable threads") [] ;; exit (-1)
  | Some next_thread =>
      Ret (if bool_decide (current_thread u = next_thread) then u
           else mkThreads (<[next_thread := RUNNING]> (all_thread u)) next_thread)
  end.

(** The first FREE slot; [None]: the table is full, and the code writes past it. *)
Definition thread_create (u : threads) : option threads :=
  '(i, _) ← list_find (eq FREE) (all_thread u);
  Some (set_state i RUNNABLE u).

Definition thread_yield (u : threads) : prog threads :=
  thread_schedule (set_state (current_thread u) RUNNABLE u).

Definition uthread_main : option (prog unit) :=
  let u := thread_init (mkThreads (replicate MAX_THREAD FREE) 0) in
  u ← thread_create u;
  u ← thread_create u;
  u ← thread_create u;
  Some (thread_schedule u ;; exit 0).


(** ** What ls prints *)

(** The files, and the descriptors that were open, are as before. *)
Definition kept (w w' : world) : Prop :=
  files w' = files w /\ info w' = info w /\ forall fd rest, fds w !! fd = Some rest -> fds w' !! fd = Some rest /\ paths w' !! fd = paths w !! fd.

Lemma kept_trans w1 w2 w3 : kept w1 w2 -> kept w2 w3 -> kept w1 w3.
Proof.
  intros (A1 & A2 & A3) (B1 & B2 & B3). split; [congruence|]. split; [congruence|]. intros fd rest H. destruct (A3 fd rest H) as [H1 H2]. destruct (B3 fd rest H1) as [H3 H4]. split; [done|congruence].
Qed.
Lemma kept_quiet w w' : quiet w w' -> kept w w'.
Proof. intros (A1 & A2 & A3 & A4). split; [done|]. split; [done|]. intros fd rest H. by rewrite A2, A4. Qed.

Lemma wp_stat n w (Q : Z * (Z * Z * Z) -> world -> Prop) X :
  match files w n with
  | None => Q (-1, (0, 0, 0)) w
  | Some data => forall w', kept w w' -> (forall fd, written_to fd w' = written_to fd w) -> Q (0, (info w n, Z.of_nat (length data))) w'
  end -> wp (stat n) w Q X.
Proof.
  unfold stat. intros HQ. apply wp_bind, wp_open; [intros En; by rewrite En in HQ|]. intros data fd En Hfd Hfree. rewrite En in HQ. destruct (Z.ltb_spec fd 0); [lia|].
  apply wp_bind. eapply wp_fstat; [apply lookup_insert_eq|]. apply wp_bind, wp_close. cbn [wp]. change (files (set_paths ?f ?w')) with (files w'). change (files (set_fds ?f ?w')) with (files w').
  rewrite En. apply HQ; [|done]. split; [done|]. split; [done|]. intros fd' rest Hfd'. cbn.
  assert (fd' <> fd) by congruence. by rewrite !lookup_delete_ne, !lookup_insert_ne by done.
Qed.

(** The line for a directory entry. *)
Definition entry_line (w : world) (path de : list Z) : list Z :=
  if de_inum de =? 0 then [] else
  let buf := path ++ [47] ++ de_name de in
  match files w buf with
  | None => text "ls: cannot stat " ++ buf ++ [10]
  | Some data =>
      fmtname buf ++ [32] ++ int_text (s32 (info w buf).1) 10 true ++ [32] ++ int_text (s32 (info w buf).2) 10 true ++ [32] ++
      int_text (s32 (Z.of_nat (length data))) 10 true ++ [10]
  end.

Lemma prints_stat_error buf : prints 1 (text "ls: cannot stat " ++ buf ++ [10]) (printf (line "ls: cannot stat %s") [VStr buf]).
Proof.
  change (printf _ _) with (each (text "ls: cannot stat ") (putc 1) ;; each buf (putc 1) ;; putc 1 10 ;; Ret tt).
  repeat (apply prints_seq; [apply prints_each|]). rewrite <-(app_nil_r [10]). apply prints_seq; [apply prints_putc|apply prints_ret].
Qed.

Lemma prints_entry name t i s :
  prints 1 (name ++ [32] ++ int_text (s32 t) 10 true ++ [32] ++ int_text (s32 i) 10 true ++ [32] ++ int_text (s32 s) 10 true ++ [10])
    (printf (line "%s %d %d %d") [VStr name; VInt t; VInt i; VInt s]).
Proof.
  change (printf _ _) with (each name (putc 1) ;; putc 1 32 ;; printint 1 (s32 t) 10 true ;; putc 1 32 ;; printint 1 (s32 i) 10 true ;; putc 1 32 ;; printint 1 (s32 s) 10 true ;; putc 1 10 ;; Ret tt).
  repeat (apply prints_seq; [apply prints_printint || apply prints_putc || apply prints_each|]).
  rewrite <-(app_nil_r [10]). apply prints_seq; [apply prints_putc|apply prints_ret].
Qed.

Lemma length_records (des : list (list Z)) : Forall (fun de => length de = 16%nat) des -> length (concat des) = (16 * length des)%nat.
Proof. induction 1 as [|de des H1 H2 IH]; [done|]. cbn [concat length]. rewrite length_app, H1, IH. lia. Qed.

(** What ls does with one entry. *)
Lemma wp_entry path de w1 (Q : unit + unit -> world -> Prop) X :
  (forall w2, kept w1 w2 -> written_to 1 w2 = written_to 1 w1 ++ entry_line w1 path de -> Q (inl tt) w2) ->
  wp (if de_inum de =? 0 then Ret (inl tt) else
      let buf := path ++ [47] ++ de_name de in
      r <- stat buf ;;
      let '(n, (type, ino, size)) := r in
      if n <? 0 then printf (line "ls: cannot stat %s") [VStr buf] ;; Ret (inl tt)
      else printf (line "%s %d %d %d") [VStr (fmtname buf); VInt type; VInt ino; VInt size] ;; Ret (inl tt)) w1 Q X.
Proof.
  intros HQ. unfold entry_line in HQ. destruct (de_inum de =? 0).
  - cbn [wp]. apply HQ; [by apply kept_quiet, quiet_refl|by rewrite app_nil_r].
  - cbv zeta in HQ |- *. set (buf := path ++ [47] ++ de_name de) in *. apply wp_bind, wp_stat. destruct (files w1 buf) as [data|].
    + intros w2 Hk Hw. destruct (info w1 buf) as [ty ino]. change (0 <? 0) with false. cbv iota beta. apply wp_bind, prints_entry. intros w3 Hq Hw3. cbn [wp].
      apply HQ; [eapply kept_trans; [exact Hk|by apply kept_quiet]|]. by rewrite (Hw3 1), Hw.
    + change (-1 <? 0) with true. cbv iota beta. apply wp_bind, prints_stat_error. intros w3 Hq Hw3. cbn [wp]. apply HQ; [by apply kept_quiet|]. by rewrite (Hw3 1).
Qed.

(** C38: ls of a directory prints, in the order of the entries, one line with
    the name, type, inode number and size of each entry in use, and an error
    for an entry that cannot be opened. *)
Theorem ls_directory fuel path des w X : files w path = Some (concat des) -> Forall (fun de => length de = 16%nat) des ->
  (info w path).1 = T_DIR -> (length path + 16 <= 512)%nat -> (length des < fuel)%nat ->
  wp (ls fuel path) w (fun _ w' => written_to 1 w' = written_to 1 w ++ concat (entry_line w path <$> des)) X.
Proof.
  intros Hf Hall Hdir Hlen Hfuel. unfold ls. apply wp_bind, wp_open; [congruence|]. intros data fd E Hfd Hfree. rewrite Hf in E. injection E as <-. destruct (Z.ltb_spec fd 0); [lia|].
  apply wp_bind. eapply wp_fstat; [apply lookup_insert_eq|]. set (w0 := set_paths _ _). change (info w0) with (info w). destruct (info w path) as [ty ino] eqn:Einfo. cbn in Hdir. subst ty.
  cbv iota. change (0 <? 0) with false. change (T_DIR =? T_FILE) with false. change (T_DIR =? T_DIR) with true. cbv iota. apply wp_bind.
  destruct (Z.ltb_spec 512 (Z.of_nat (length path) + 1 + 14 + 1)); [lia|].
  eapply (wp_loop _ (fun _ w1 => exists pre post, des = pre ++ post /\ files w1 = files w /\ info w1 = info w /\ fds w1 !! fd = Some (concat post) /\ paths w1 !! fd = Some path /\
      written_to 1 w1 = written_to 1 w ++ concat (entry_line w path <$> pre)) (fun _ w1 => (length (default [] (fds w1 !! fd)) / 16)%nat)).
  - intros _ w1 (pre & post & -> & Hf1 & Hi1 & Hd1 & Hp1 & Hw1). apply wp_bind. eapply wp_read_dir; [exact Hd1|unfold is_dir; by rewrite Hp1, Hi1, Einfo|].
    apply Forall_app in Hall as [_ Hall]. destruct post as [|de post].
    + apply wp_bind, wp_close. rewrite app_nil_r. done.
    + apply Forall_cons in Hall as [Hde Hall]. cbn [concat] in *. change (Z.to_nat 16) with 16%nat. rewrite (take_app_length' de), (drop_app_length' de), Hde by done. change (Z.of_nat 16 =? 16) with true. cbv iota.
      set (w2 := set_fds _ w1). apply wp_entry. intros w3 (K1 & K2 & K3) Hw3. destruct (K3 fd (concat post)) as [K4 K5]; [apply lookup_insert_eq|]. split.
      * exists (pre ++ [de]), post. rewrite <-app_assoc. split; [done|]. split; [by rewrite K1|]. split; [by rewrite K2|]. split; [done|]. split; [rewrite K5; exact Hp1|].
        rewrite Hw3, fmap_app, concat_app, app_assoc. change (written_to 1 w2) with (written_to 1 w1). rewrite Hw1. cbn. rewrite app_nil_r. f_equal. unfold entry_line. change (files w2) with (files w1). change (info w2) with (info w1). by rewrite Hf1, Hi1.
      * rewrite K4, Hd1. cbn [default from_option id]. unfold id. rewrite length_app, Hde.
        replace (16 + length (concat post))%nat with (length (concat post) + 1 * 16)%nat by lia. rewrite Nat.div_add by lia. lia.
  - exists [], des. cbn. rewrite !lookup_insert_eq, app_nil_r. done.
  - change (fds w0) with (<[fd := concat des]> (fds w)). rewrite lookup_insert_eq. cbn [default from_option]. unfold id. rewrite length_records by done. rewrite Nat.mul_comm, Nat.div_mul by lia. done.
Qed.

Lemma ls_directory_witness :
  let dot := [1; 0] ++ text "." ++ replicate 13 0 in let a := [2; 0] ++ text "a" ++ replicate 13 0 in
  let w := mkWorld (fun n => if bool_decide (n = text ".") then Some (dot ++ replicate 16 0 ++ a) else if bool_decide (n = text "./a") then Some (text "hello") else None)
             ∅ [] (fun n => if bool_decide (n = text ".") then (1, 1) else (2, 2)) ∅ in
  wp (ls 10 (text ".")) w (fun _ w' => written_to 1 w' = line "ls: cannot stat ./." ++ line "a              2 2 5") (fun _ _ => False).
Proof.
  intros dot a w. eapply wp_mono; [apply (ls_directory 10 (text ".") [dot; replicate 16 0; a] w)|]; [reflexivity|repeat constructor|reflexivity|vm_compute; lia|cbn; lia|].
  intros _ w' ->. vm_compute. reflexivity.
Defined.

(** ** What find misses *)

Lemma prints_open_error path : prints 2 (text "ls: cannot open " ++ path ++ [10]) (fprintf 2 (line "ls: cannot open %s") [VStr path]).
Proof.
  change (fprintf _ _ _) with (each (text "ls: cannot open ") (putc 2) ;; each path (putc 2) ;; putc 2 10 ;; Ret tt).
  repeat (apply prints_seq; [apply prints_each|]). rewrite <-(app_nil_r [10]). apply prints_seq; [apply prints_putc|apply prints_ret].
Qed.

(** find looks for a subdirectory under its last name only.  When the
    subdirectory [d] of [path] is not also the name of something in the
    current directory, find reports that it cannot open [d] and prints
    nothing, whatever the subdirectory holds. *)
Theorem find_relative fuel static path d de filename c w X :
  files w path = Some de -> length de = 16%nat -> de_inum de <> 0 -> de_name de = d -> default 0 (head d) <> 46 ->
  (info w path).1 = T_DIR -> (length path + 16 <= 512)%nat -> files w (path ++ [47] ++ d) = Some c -> (info w (path ++ [47] ++ d)).1 = T_DIR -> files w d = None ->
  wp (find_ls (3 + fuel) static path filename) w
    (fun _ w' => written_to 1 w' = written_to 1 w /\ written_to 2 w' = written_to 2 w ++ text "ls: cannot open " ++ d ++ [10]) X.
Proof.
  intros Hf Hde Hin Hname Hdot Hdir Hlen Hsub Hsubdir Hnone. change (3 + fuel)%nat with (S (S (S fuel))). cbn [find_ls]. set (sub := find_ls (S (S fuel))).
  apply wp_bind, wp_open; [congruence|]. intros data fd E Hfd Hfree. rewrite Hf in E. injection E as <-. destruct (Z.ltb_spec fd 0); [lia|].
  apply wp_bind. eapply wp_fstat; [apply lookup_insert_eq|]. set (w0 := set_paths _ _). change (info w0) with (info w). destruct (info w path) as [ty ino] eqn:Einfo. cbn in Hdir. subst ty.
  cbv iota. change (0 <? 0) with false. change (T_DIR =? T_FILE) with false. change (T_DIR =? T_DIR) with true. cbv iota. apply wp_bind.
  destruct (Z.ltb_spec 512 (Z.of_nat (length path) + 1 + 14 + 1)); [lia|]. cbn [loop]. apply wp_bind, wp_bind.
  eapply wp_read_dir; [apply lookup_insert_eq|unfold is_dir; cbn; by rewrite lookup_insert_eq, Einfo|]. change (Z.to_nat 16) with 16%nat. rewrite firstn_all2, drop_ge, Hde by lia. change (Z.of_nat 16 =? 16) with true. cbv iota.
  destruct (Z.eqb_spec (de_inum de) 0); [done|]. cbv zeta. rewrite Hname. set (w1 := set_fds _ w0). apply wp_bind, wp_stat. change (files w1) with (files w). rewrite Hsub.
  intros w2 (K1 & K2 & K3) Hw2. change (info w1) with (info w). destruct (info w (path ++ [47] ++ d)) as [ty ino'] eqn:Einfo'. cbn in Hsubdir. subst ty. change (0 <? 0) with false. change (T_DIR =? T_DIR) with true. cbv iota.
  destruct (Z.eqb_spec (default 0 (head d)) 46); [done|]. cbn [negb andb]. apply wp_bind. unfold sub. cbn [find_ls]. apply wp_bind, wp_open; [intros _|intros data fd' E; rewrite K1 in E; change (files w1) with (files w) in E; congruence].
  change (-1 <? 0) with true. cbv iota. apply wp_bind, prints_open_error. intros w3 (Q1 & Q2 & Q3 & Q4) Hw3. cbn [wp].
  destruct (K3 fd []) as [K4 K5]; [apply lookup_insert_eq|]. apply wp_bind, wp_bind. eapply wp_read_dir; [rewrite Q2; exact K4|unfold is_dir; rewrite Q4, K5, Q3, K2; cbn; by rewrite lookup_insert_eq, Einfo|].
  cbn [wp]. apply wp_bind, wp_close. cbn [wp]. rewrite !written_set_paths, !written_set_fds.
  rewrite (Hw3 1), (Hw3 2), !Hw2. change (2 =? 1) with false. change (2 =? 2) with true. cbv iota. rewrite app_nil_r. done.
Qed.

Lemma find_relative_witness :
  let b := [3; 0] ++ text "b" ++ replicate 13 0 in
  let w := mkWorld (fun n => if bool_decide (n = text "a") then Some b else if bool_decide (n = text "a/b") then Some [] else if bool_decide (n = text "a/b/x") then Some (text "found") else None)
             ∅ [] (fun n => if bool_decide (n = text "a/b/x") then (2, 4) else (1, 1)) ∅ in
  wp (find_ls 5 (replicate 15 0) (text "a") (text "x")) w (fun _ w' => written_to 1 w' = [] /\ written_to 2 w' = line "ls: cannot open b") (fun _ _ => False).
Proof.
  intros b w. apply (find_relative 2 (replicate 15 0) (text "a") (text "b") b (text "x") [] w); (reflexivity || (vm_compute; lia) || (vm_compute; discriminate)).
Defined.

(** The loop of xargs that clears the buffers follows the null pointer that
    ended the last argument vector, and zeroes the first bytes of memory. *)
Lemma clear_null arr (m : mem) k : row_at arr m k = 0 -> 50 <= arr + 8 * k -> forall j, 0 <= j < 50 -> getb (clear_row arr m k) j = 0.
Proof.
  intros Hr Ha. unfold clear_row.
  assert (H : forall l m, row_at arr m k = 0 -> Forall (fun j => 0 <= j < 50) l -> forall j, (getb m j = 0 \/ j ∈ l) ->
    getb (foldl (fun m j => if negb (getb m (row_at arr m k + j) =? 0) then setb m (row_at arr m k + j) 0 else m) m l) j = 0).
  { clear m Hr. induction l as [|i l IH]; intros m Hr Hl j Hj; cbn [foldl].
    - destruct Hj as [Hj|Hj]; [done|]. by apply not_elem_of_nil in Hj.
    - apply Forall_cons in Hl as [Hi Hl]. rewrite Hr, Z.add_0_l. apply IH; [|done|].
      + case_match; [|done]. rewrite <-Hr. unfold row_at. apply ldn_ext. intros b Hb. apply getb_setb_ne. cbn in Hb. lia.
      + destruct (Z.eqb_spec (getb m i) 0) as [E|E]; cbn [negb].
        * destruct Hj as [Hj|[->|Hj]%elem_of_cons]; [by left|by left|by right].
        * destruct (decide (j = i)) as [->|Hne]; [left; by rewrite getb_setb_eq|]. rewrite getb_setb_ne by done. destruct Hj as [Hj|[->|Hj]%elem_of_cons]; [by left|done|by right]. }
  intros j Hj. apply H; [done| |right; apply elem_of_seqZ; lia]. apply Forall_forall. intros i Hi%elem_of_seqZ. lia.
Qed.
End Tools.
