(* ===== verification/ShellParse.v ===== *)
(** * The grammar of the shell

    The token sequence of a line, the grammar of command lines over tokens,
    and the proof that the parser of sh.c accepts exactly the lines of the
    grammar, builds their trees, always ends, and leaves every word of the
    command as a C string in the buffer. *)

From S2P Require Import Prelude Bytes KState User Ulib Utils Shell.

Module ShellParse.
Import User Ulib Utils Shell.

(** ** Tokens *)

Inductive tok := Op (c : Z) | Word (q eq : Z).
#[export] Instance tok_eq : EqDecision tok.
Proof. solve_decision. Defined.

Definition is_byte (c : Z) : Prop := 0 < c < 256.

(** Membership in a given list. *)
Ltac memb := apply (bool_decide_unpack _); vm_compute; exact I.

(** The bytes a word is made of. *)
Definition plain (c : Z) : bool := negb (oneof whitespace c) && negb (oneof symbols c).

(** ** The grammar

    line  ::= pipe '&'* | pipe '&'* ';' line
    pipe  ::= exec | exec '|' pipe
    exec  ::= redir* (word redir* )*  |  '(' line ')' redir*
    redir ::= ('<' | '>' | '>>') word *)

Inductive redir := Redir (op q eq : Z).

Inductive syn_line := Line (p : syn_pipe) (bg : nat) | Seq (p : syn_pipe) (bg : nat) (l : syn_line)
with syn_pipe := One (e : syn_exec) | Pipeline (e : syn_exec) (p : syn_pipe)
with syn_exec := Simple (rs : list redir) (args : list (Z * Z * list redir)) | Block (l : syn_line) (rs : list redir).

(** The tokens of a phrase. *)
Definition flat_redir (r : redir) : list tok := let '(Redir op q eq) := r in [Op op; Word q eq].
Definition flat_redirs (rs : list redir) : list tok := mjoin (flat_redir <$> rs).
Definition flat_arg (a : Z * Z * list redir) : list tok := Word a.1.1 a.1.2 :: flat_redirs a.2.
Definition flat_args (args : list (Z * Z * list redir)) : list tok := mjoin (flat_arg <$> args).

Fixpoint flat_line (l : syn_line) : list tok :=
  match l with
  | Line p bg => flat_pipe p ++ replicate bg (Op 38)
  | Seq p bg l => flat_pipe p ++ replicate bg (Op 38) ++ Op 59 :: flat_line l
  end
with flat_pipe (p : syn_pipe) : list tok :=
  match p with
  | One e => flat_exec e
  | Pipeline e p => flat_exec e ++ Op 124 :: flat_pipe p
  end
with flat_exec (e : syn_exec) : list tok :=
  match e with
  | Simple rs args => flat_redirs rs ++ flat_args args
  | Block l rs => Op 40 :: flat_line l ++ Op 41 :: flat_redirs rs
  end.

(** Redirections use the three operators; a command has less than MAXARGS words. *)
Definition ok_redir (r : redir) : Prop := let '(Redir op _ _) := r in op ∈ [60; 62; 43].
Fixpoint ok_line (l : syn_line) : Prop :=
  match l with Line p _ => ok_pipe p | Seq p _ l => ok_pipe p /\ ok_line l end
with ok_pipe (p : syn_pipe) : Prop :=
  match p with One e => ok_exec e | Pipeline e p => ok_exec e /\ ok_pipe p end
with ok_exec (e : syn_exec) : Prop :=
  match e with
  | Simple rs args => Forall ok_redir rs /\ Forall (fun a => Forall ok_redir a.2) args /\ (length args < MAXARGS)%nat
  | Block l rs => ok_line l /\ Forall ok_redir rs
  end.

(** The command a phrase stands for: a redirection applies to all that is
    to its left. *)
Definition tree_redir (c : cmd) (r : redir) : cmd :=
  let '(Redir op q eq) := r in
  if op =? 60 then REDIR c q eq O_RDONLY 0 else REDIR c q eq (Z.lor O_WRONLY O_CREATE) 1.

Fixpoint tree_line (l : syn_line) : cmd :=
  match l with
  | Line p bg => Nat.iter bg BACK (tree_pipe p)
  | Seq p bg l => LIST (Nat.iter bg BACK (tree_pipe p)) (tree_line l)
  end
with tree_pipe (p : syn_pipe) : cmd :=
  match p with
  | One e => tree_exec e
  | Pipeline e p => PIPE (tree_exec e) (tree_pipe p)
  end
with tree_exec (e : syn_exec) : cmd :=
  match e with
  | Simple rs args => foldl tree_redir (EXEC (args.*1)) (rs ++ mjoin (args.*2))
  | Block l rs => foldl tree_redir (tree_line l) rs
  end.

Section tokens.
Context (buf : list Z).
Let es := Z.of_nat (length buf).
Abbreviation gettoken := (gettoken buf es).
Abbreviation peek := (peek buf es).
Abbreviation skip := (skip buf es).

Fixpoint toks (k : nat) (s : Z) : list tok :=
  match k with
  | O => []
  | S k' => let '(t, q, eq, s') := gettoken s in
            if t =? 0 then [] else (if t =? 97 then Word q eq else Op t) :: toks k' s'
  end.
Definition tokens (s : Z) : list tok := toks (S (Z.to_nat (es - s))) s.
#[local] Arguments tokens : simpl never.

Context (Hbuf : Forall is_byte buf).

Lemma at_end : getb buf es = 0.
Proof using Type. unfold es. cbn. unfold list_getb. destruct (Z.ltb_spec (Z.of_nat (length buf)) 0); [done|]. rewrite Nat2Z.id, lookup_ge_None_2 by lia. done. Qed.

Lemma at_byte s : 0 <= s < es -> getb buf s <> 0.
Proof using Hbuf.
  intros Hs. cbn. unfold list_getb. destruct (Z.ltb_spec s 0); [lia|]. destruct (lookup_lt_is_Some_2 buf (Z.to_nat s)) as [c Hc]; [unfold es in Hs; lia|].
  rewrite Hc. cbn. eapply Forall_lookup_1 in Hbuf; [|exact Hc]. unfold is_byte in Hbuf. rewrite u8_small; lia.
Qed.

(** *** Skipping *)

Lemma skip_loop_spec p k : forall s, exists n : nat, (n <= k)%nat /\ skip_loop buf k p s = s + Z.of_nat n /\
  (forall j, s <= j < s + Z.of_nat n -> p (getb buf j) = true) /\ (n = k \/ p (getb buf (s + Z.of_nat n)) = false).
Proof using Type.
  induction k as [|k IH]; intros s; cbn [skip_loop].
  - exists 0%nat. split_and!; [lia|lia|lia|by left].
  - destruct (p (getb buf s)) eqn:E.
    + destruct (IH (s + 1)) as (n & H1 & H2 & H3 & H4). exists (S n). split_and!; try lia.
      * intros j Hj. destruct (decide (j = s)) as [->|]; [done|]. apply H3. lia.
      * destruct H4 as [->|H4]; [by left|right]. rewrite <-H4. do 2 f_equal. lia.
    + exists 0%nat. split_and!; try lia. right. by rewrite Z.add_0_r.
Qed.

Lemma skip_spec p s : 0 <= s <= es -> s <= skip p s <= es /\ (forall j, s <= j < skip p s -> p (getb buf j) = true) /\
  (skip p s = es \/ p (getb buf (skip p s)) = false).
Proof using Type.
  intros Hs. unfold Shell.skip. destruct (skip_loop_spec p (Z.to_nat (es - s)) s) as (n & H1 & H2 & H3 & H4). rewrite H2.
  split_and!; try lia; [done|]. destruct H4 as [->|H4]; [left; lia|by right].
Qed.

(** Skipping stops at the first byte that does not fit. *)
Lemma skip_unique p s t : 0 <= s <= t -> t <= es -> (forall j, s <= j < t -> p (getb buf j) = true) -> t = es \/ p (getb buf t) = false -> skip p s = t.
Proof using Type.
  intros H1 H2 H3 H4. destruct (skip_spec p s) as (S1 & S2 & S3); [lia|].
  destruct (Z.lt_trichotomy (skip p s) t) as [Hlt|[?|Hgt]]; [|done|].
  - destruct S3 as [?|S3]; [lia|]. rewrite H3 in S3 by lia. done.
  - destruct H4 as [?|H4]; [lia|]. rewrite S2 in H4 by lia. done.
Qed.

Lemma skip_idem p s : 0 <= s <= es -> skip p (skip p s) = skip p s.
Proof using Type. intros Hs. destruct (skip_spec p s Hs) as (S1 & S2 & S3). apply skip_unique; try lia. done. Qed.

(** *** gettoken() and peek() *)

Record is_token (s t q eq s' : Z) : Prop := {
  tk_order : s <= q <= eq /\ eq <= s' <= es;
  tk_start : q = skip (oneof whitespace) s;
  tk_next : s' = skip (oneof whitespace) eq;
  tk_kind : t = 0 /\ q = es /\ eq = q \/
            t ∈ [124; 40; 41; 59; 38; 60; 62] /\ getb buf q = t /\ eq = q + 1 \/
            t = 43 /\ getb buf q = 62 /\ eq = q + 2 \/
            t = 97 /\ q < eq /\ (forall j, q <= j < eq -> plain (getb buf j) = true) /\
            (eq = es \/ plain (getb buf eq) = false)
}.

Lemma gettoken_spec s : 0 <= s <= es -> exists t q eq s', gettoken s = (t, q, eq, s') /\ is_token s t q eq s'.
Proof using Hbuf.
  intros Hs. unfold Shell.gettoken. destruct (skip_spec (oneof whitespace) s Hs) as (S1 & S2 & S3). set (q := skip (oneof whitespace) s) in *.
  assert (Hfin : forall t eq, q <= eq <= es -> (t = 0 /\ q = es /\ eq = q \/ t ∈ [124; 40; 41; 59; 38; 60; 62] /\ getb buf q = t /\ eq = q + 1 \/
            t = 43 /\ getb buf q = 62 /\ eq = q + 2 \/
            t = 97 /\ q < eq /\ (forall j, q <= j < eq -> plain (getb buf j) = true) /\ (eq = es \/ plain (getb buf eq) = false)) ->
          exists t' q' eq' s', (t, q, eq, skip (oneof whitespace) eq) = (t', q', eq', s') /\ is_token s t' q' eq' s').
  { intros t eq He Hk. destruct (skip_spec (oneof whitespace) eq) as (T1 & _ & _); [lia|]. eexists _, _, _, _. split; [done|]. split; try done; lia. }
  cbv zeta. destruct (Z.eqb_spec (getb buf q) 0) as [E0|E0].
  - apply Hfin; [lia|]. left. split_and!; try done. destruct (decide (q = es)); [done|]. exfalso. apply (at_byte q); [lia|done].
  - assert (Hq : q < es) by (destruct (decide (q = es)) as [E1|]; [rewrite E1, at_end in E0; done|lia]).
    destruct (decide (getb buf q ∈ [124; 40; 41; 59; 38; 60])) as [Hop|Hop].
    + rewrite bool_decide_true by done. apply Hfin; [lia|]. right. left. split; [|done]. rewrite !elem_of_cons in *. tauto.
    + rewrite bool_decide_false by done. destruct (Z.eqb_spec (getb buf q) 62) as [E1|E1].
      * destruct (Z.eqb_spec (getb buf (q + 1)) 62) as [E2|E2].
        -- apply Hfin; [|right; right; left; done]. destruct (decide (q + 1 = es)) as [E3|]; [rewrite E3, at_end in E2; done|lia].
        -- apply Hfin; [lia|]. right. left. rewrite E1. split; [|done]. memb.
      * change (fun c => negb (oneof whitespace c) && negb (oneof symbols c)) with plain. destruct (skip_spec plain q) as (T1 & T2 & T3); [lia|].
        assert (Hsym : oneof symbols (getb buf q) = false).
        { unfold oneof. apply andb_false_iff. right. apply bool_decide_false. unfold symbols. rewrite !elem_of_cons, elem_of_nil in *. tauto. }
        assert (Hws : oneof whitespace (getb buf q) = false) by (destruct S3 as [?|?]; [lia|done]).
        apply Hfin; [lia|]. right. right. right. split_and!; [done| |exact T2|exact T3].
        destruct (decide (skip plain q = q)) as [E2|]; [|lia]. rewrite E2 in T3. destruct T3 as [?|T3]; [lia|]. unfold plain in T3. by rewrite Hws, Hsym in T3.
Qed.

Lemma is_token_pos s t q eq s' : 0 <= s <= es -> is_token s t q eq s' -> t <> 0 -> s < s' <= es /\ q < eq.
Proof using Type. intros Hs [H1 H2 H3 H4] Ht. destruct H4 as [?|[(? & ? & ?)|[(? & ? & ?)|(? & ? & ?)]]]; [tauto|lia..]. Qed.

Lemma toks_fuel k : forall s, 0 <= s <= es -> (Z.to_nat (es - s) < k)%nat -> toks k s = tokens s.
Proof using Hbuf.
  assert (H : forall k k' s, 0 <= s <= es -> (Z.to_nat (es - s) < k)%nat -> (Z.to_nat (es - s) < k')%nat -> toks k s = toks k' s).
  { clear k. induction k as [|k IH]; intros [|k'] s Hs H1 H2; try lia. cbn [toks]. destruct (gettoken_spec s Hs) as (t & q & eq & s' & -> & Ht).
    destruct (Z.eqb_spec t 0); [done|]. destruct (is_token_pos _ _ _ _ _ Hs Ht) as [Hp _]; [done|]. f_equal. apply IH; lia. }
  intros s Hs Hk. apply H; [done|done|lia].
Qed.

(** The kind of token of a byte. *)
Definition kind (t q eq : Z) : tok := if t =? 97 then Word q eq else Op t.

Lemma tokens_eq s : 0 <= s <= es -> exists t q eq s', gettoken s = (t, q, eq, s') /\ is_token s t q eq s' /\
  tokens s = if t =? 0 then [] else kind t q eq :: tokens s'.
Proof using Hbuf.
  intros Hs. destruct (gettoken_spec s Hs) as (t & q & eq & s' & Hg & Ht). exists t, q, eq, s'. split_and!; try done.
  unfold tokens at 1. cbn [toks]. rewrite Hg. destruct (Z.eqb_spec t 0); [done|]. destruct (is_token_pos _ _ _ _ _ Hs Ht) as [Hp _]; [done|].
  unfold kind. f_equal. apply toks_fuel; lia.
Qed.

Lemma gettoken_skip s : 0 <= s <= es -> gettoken (skip (oneof whitespace) s) = gettoken s.
Proof using Type. intros Hs. unfold Shell.gettoken. by rewrite skip_idem. Qed.

Lemma tokens_skip s : 0 <= s <= es -> tokens (skip (oneof whitespace) s) = tokens s.
Proof using Hbuf.
  intros Hs. destruct (skip_spec (oneof whitespace) s Hs) as (S1 & _ & _). destruct (tokens_eq s Hs) as (t & q & eq & s' & Hg & _ & ->).
  destruct (tokens_eq (skip (oneof whitespace) s)) as (t' & q' & eq' & s'' & Hg' & _ & ->); [lia|]. rewrite gettoken_skip, Hg in Hg' by done.
  by injection Hg' as <- <- <- <-.
Qed.

(** The byte an operator starts with. *)
Definition first_byte (t : Z) : Z := if t =? 43 then 62 else t.

Lemma peek_spec s set : 0 <= s <= es -> set ⊆ symbols -> exists s', peek s set = (match tokens s with Op t :: _ => bool_decide (first_byte t ∈ set) | _ => false end, s') /\
  tokens s' = tokens s /\ s <= s' <= es /\ s' = skip (oneof whitespace) s.
Proof using Hbuf.
  intros Hs Hset. destruct (skip_spec (oneof whitespace) s Hs) as (S1 & _ & _). exists (skip (oneof whitespace) s). split_and!; [|by apply tokens_skip|lia|lia|done].
  unfold Shell.peek. f_equal. destruct (tokens_eq s Hs) as (t & q & eq & s' & Hg & [Ho Hq Hn Hk] & ->). rewrite <-Hq.
  assert (H97 : forall c, c ∈ set -> c <> 97 /\ c <> 43) by (intros c Hc%Hset; unfold symbols in Hc; rewrite !elem_of_cons, elem_of_nil in Hc; lia).
  unfold kind, first_byte, oneof. destruct Hk as [(-> & -> & ->)|[(Hop & Hb & ->)|[(-> & Hb & ->)|(-> & Hlt & Hw)]]].
  - by rewrite at_end.
  - rewrite Hb. assert (t <> 0 /\ t <> 97 /\ t <> 43) as (? & ? & ?) by (rewrite !elem_of_cons, elem_of_nil in Hop; lia).
    destruct (Z.eqb_spec t 0); [done|]. destruct (Z.eqb_spec t 97); [done|]. destruct (Z.eqb_spec t 43); [done|]. done.
  - rewrite Hb. done.
  - cbn [Z.eqb]. rewrite andb_false_iff. right. destruct Hw as [Hw _]. specialize (Hw q ltac:(lia)). apply andb_true_iff in Hw as [_ Hsym%negb_true_iff]. unfold oneof in Hsym. apply andb_false_iff in Hsym as [Hz|Hsym].
    + apply negb_false_iff, Z.eqb_eq in Hz. exfalso. apply (at_byte q); [lia|done].
    + apply bool_decide_eq_false in Hsym. apply bool_decide_false. intros Hin. by apply Hsym, Hset.
Qed.

(** The end of the text. *)
Lemma tokens_nil s : 0 <= s <= es -> tokens s = [] <-> skip (oneof whitespace) s = es.
Proof using Hbuf.
  intros Hs. destruct (tokens_eq s Hs) as (t & q & eq & s' & Hg & [Ho Hq Hn Hk] & ->). rewrite <-Hq.
  destruct Hk as [(-> & -> & ->)|[(Hop & Hb & ->)|[(-> & Hb & ->)|(-> & Hlt & Hw)]]]; [done|..].
  - destruct (Z.eqb_spec t 0) as [->|]; [rewrite !elem_of_cons, elem_of_nil in Hop; lia|]. split; [done|lia].
  - split; [done|lia].
  - split; [done|lia].
Qed.

(** ** Tokens consumed *)

Lemma kind_word t q eq q' eq' : kind t q eq = Word q' eq' -> t = 97 /\ q = q' /\ eq = eq'.
Proof using Type. unfold kind. destruct (Z.eqb_spec t 97); [|done]. by intros [= -> ->]. Qed.

Lemma kind_op t q eq t' : kind t q eq = Op t' -> t = t' /\ t <> 97.
Proof using Type. unfold kind. destruct (Z.eqb_spec t 97); [done|]. by intros [= ->]. Qed.

Lemma gettoken_word s q eq rest : 0 <= s <= es -> tokens s = Word q eq :: rest ->
  exists s', gettoken s = (97, q, eq, s') /\ tokens s' = rest /\ s < s' <= es.
Proof using Hbuf.
  intros Hs Ht. destruct (tokens_eq s Hs) as (t & q' & eq' & s' & Hg & Hk & Heq). rewrite Ht in Heq. destruct (Z.eqb_spec t 0); [done|].
  injection Heq as Hw Hr. symmetry in Hw. apply kind_word in Hw as (-> & -> & ->). destruct (is_token_pos _ _ _ _ _ Hs Hk); [done|]. by exists s'.
Qed.

Lemma gettoken_op s t rest : 0 <= s <= es -> tokens s = Op t :: rest ->
  exists q eq s', gettoken s = (t, q, eq, s') /\ tokens s' = rest /\ s < s' <= es /\ t <> 97 /\ t <> 0.
Proof using Hbuf.
  intros Hs Ht. destruct (tokens_eq s Hs) as (t' & q' & eq' & s' & Hg & Hk & Heq). rewrite Ht in Heq. destruct (Z.eqb_spec t' 0); [done|].
  injection Heq as Hw Hr. symmetry in Hw. apply kind_op in Hw as (-> & ?). destruct (is_token_pos _ _ _ _ _ Hs Hk); [done|]. by exists q', eq', s'.
Qed.

Lemma gettoken_nil s : 0 <= s <= es -> tokens s = [] -> exists q eq s', gettoken s = (0, q, eq, s') /\ tokens s' = [] /\ s <= s' <= es.
Proof using Hbuf.
  intros Hs Ht. destruct (tokens_eq s Hs) as (t & q & eq & s' & Hg & [Ho Hq Hn Hk] & Heq). rewrite Ht in Heq. destruct (Z.eqb_spec t 0) as [->|]; [|done].
  exists q, eq, s'. split_and!; try lia; [done|]. destruct Hk as [(_ & -> & ->)|[(Hop & _)|[(? & _)|(? & _)]]]; [|rewrite !elem_of_cons, elem_of_nil in Hop; lia|lia|lia].
  rewrite Hn. rewrite tokens_skip by lia. apply tokens_nil; [lia|]. apply skip_unique; lia || by left.
Qed.
(** ** What the parser returns

    [outcome x N P]: a result fits [P]; the fuel ends only when [N]. *)
Definition outcome (x : parsed (cmd * Z)) (N : Prop) (P : cmd -> Z -> Prop) : Prop :=
  match x with Parsed (c, s) => P c s | NoFuel => N | _ => True end.

Lemma outcome_bind x f N N' P Q : outcome x N P -> (N -> N') -> (forall c s, P c s -> outcome (f (c, s)) N' Q) -> outcome (bindr x f) N' Q.
Proof using Type. destruct x as [[c s]| | |]; cbn; auto. Qed.

Lemma outcome_mono x (N N' : Prop) (P Q : cmd -> Z -> Prop) : outcome x N P -> (N -> N') -> (forall c s, P c s -> Q c s) -> outcome x N' Q.
Proof using Type. destruct x as [[c s]| | |]; cbn; auto. Qed.

(** The tokens from [s] to [s'] are those of [ts]. *)
Definition consumed (s s' : Z) (ts : list tok) : Prop := tokens s = ts ++ tokens s' /\ s <= s' <= es.

Lemma consumed_trans s1 s2 s3 ts ts' : consumed s1 s2 ts -> consumed s2 s3 ts' -> consumed s1 s3 (ts ++ ts').
Proof using Type. intros [H1 H2] [H3 H4]. split; [|lia]. by rewrite H1, H3, app_assoc. Qed.

Lemma consumed_peek s s' ts : 0 <= s -> tokens s = ts -> tokens s' = ts -> s <= s' <= es -> consumed s s' [].
Proof using Type. intros H0 H1 H2 H3. split; [by rewrite H1, H2|done]. Qed.

(** Looking at the next token, as a case distinction. *)
Lemma peek_cases s set : 0 <= s <= es -> set ⊆ symbols -> exists b s', peek s set = (b, s') /\ consumed s s' [] /\
  if b then exists t rest, tokens s' = Op t :: rest /\ first_byte t ∈ set
  else match tokens s' with Op t :: _ => first_byte t ∉ set | _ => True end.
Proof using Hbuf.
  intros Hs Hset. destruct (peek_spec s set Hs Hset) as (s' & Hp & Ht & Hb & _). eexists _, s'. split; [done|]. split; [by split|].
  rewrite Ht. destruct (tokens s) as [|[t|q eq] rest]; [done| |done]. case_bool_decide; [|done]. by exists t, rest.
Qed.

(** An operator read by gettoken(). *)
Lemma read_op s t rest : 0 <= s <= es -> tokens s = Op t :: rest -> exists q eq s', gettoken s = (t, q, eq, s') /\ consumed s s' [Op t] /\ s < s'.
Proof using Hbuf. intros Hs Ht. destruct (gettoken_op s t rest Hs Ht) as (q & eq & s' & Hg & Hr & Hb & _). exists q, eq, s'. split; [done|]. split; [|lia]. split; [by rewrite Ht, Hr|lia]. Qed.

(** Reading a word, or something else. *)
Lemma read_any s : 0 <= s <= es -> exists t q eq s', gettoken s = (t, q, eq, s') /\
  if t =? 97 then consumed s s' [Word q eq] /\ s < s' else if t =? 0 then tokens s = [] /\ consumed s s' [] else exists rest, tokens s = Op t :: rest.
Proof using Hbuf.
  intros Hs. destruct (tokens s) as [|[t|q eq] rest] eqn:Ht.
  - destruct (gettoken_nil s Hs Ht) as (q & eq & s' & Hg & Hr & Hb). exists 0, q, eq, s'. split; [done|]. cbn. split; [done|]. split; [by rewrite Hr, Ht|lia].
  - destruct (gettoken_op s t rest Hs Ht) as (q & eq & s' & Hg & Hr & Hb & H97 & H0). exists t, q, eq, s'. split; [done|].
    destruct (Z.eqb_spec t 97); [done|]. destruct (Z.eqb_spec t 0); [done|]. by exists rest.
  - destruct (gettoken_word s q eq rest Hs Ht) as (s' & Hg & Hr & Hb). exists 97, q, eq, s'. split; [done|]. cbn. split; [|lia]. split; [by rewrite Ht, Hr|lia].
Qed.

Lemma redirs_loop_sound k : forall c s, 0 <= s <= es ->
  outcome (parseredirs_loop buf es k c s) (Z.of_nat k <= es - s) (fun c' s' => exists rs, Forall ok_redir rs /\ c' = foldl tree_redir c rs /\ consumed s s' (flat_redirs rs)).
Proof using Hbuf.
  induction k as [|k IH]; intros c s Hs; cbn [parseredirs_loop]; [cbn; lia|].
  destruct (peek_cases s [60; 62] Hs) as (b & s1 & -> & Hc & Hb); [memb|]. pose proof (proj2 Hc). destruct b.
  - destruct Hb as (t & rest & Ht & Hin). destruct (read_op s1 t rest ltac:(lia) Ht) as (q1 & eq1 & s2 & -> & Hc2 & Hlt). pose proof (proj2 Hc2).
    destruct (read_any s2) as (t3 & q & eq & s3 & -> & H3); [lia|]. destruct (Z.eqb_spec t3 97) as [->|]; [|done]. destruct H3 as [Hc3 Hlt3]. cbn [negb]. pose proof (proj2 Hc3).
    assert (Hop : ok_redir (Redir t q eq)).
    { cbn. unfold first_byte in Hin. destruct (Z.eqb_spec t 43); rewrite !elem_of_cons, elem_of_nil in *; lia. }
    assert (Htree : (if t =? 60 then redircmd c q eq O_RDONLY 0 else if t =? 62 then redircmd c q eq (Z.lor O_WRONLY O_CREATE) 1
             else if t =? 43 then redircmd c q eq (Z.lor O_WRONLY O_CREATE) 1 else c) = tree_redir c (Redir t q eq)).
    { cbn in Hop |- *. rewrite !elem_of_cons, elem_of_nil in Hop. destruct Hop as [->|[->|[->|[]]]]; done. }
    rewrite Htree. eapply outcome_mono; [apply (IH _ s3); lia|intros; lia|]. intros c' s' (rs & Hrs & -> & Hc'). exists (Redir t q eq :: rs).
    split; [by constructor|]. split; [done|]. exact (consumed_trans _ _ _ _ _ (consumed_trans _ _ _ _ _ Hc (consumed_trans _ _ _ _ _ Hc2 Hc3)) Hc').
  - exists []. by split.
Qed.

Lemma redirs_sound c s : 0 <= s <= es ->
  outcome (parseredirs buf es c s) False (fun c' s' => exists rs, Forall ok_redir rs /\ c' = foldl tree_redir c rs /\ consumed s s' (flat_redirs rs)).
Proof using Hbuf. intros Hs. eapply outcome_mono; [by apply redirs_loop_sound|lia|done]. Qed.

(** Words are added below the redirections. *)
Lemma add_arg_redirs q eq rs : forall c, add_arg q eq (foldl tree_redir c rs) = foldl tree_redir (add_arg q eq c) rs.
Proof using Type. induction rs as [|[op a b] rs IH]; intros c; [done|]. cbn [foldl]. rewrite IH. f_equal. cbn. by destruct (op =? 60). Qed.

Lemma args_loop_sound k : forall rs args s, 0 <= s <= es -> (length args < MAXARGS)%nat ->
  outcome (parseargs_loop buf es k (foldl tree_redir (EXEC args) rs) (length args) s) (Z.of_nat k <= es - s) (fun c' s' => exists more, Forall (fun a => Forall ok_redir a.2) more /\
    (length args + length more < MAXARGS)%nat /\ c' = foldl tree_redir (EXEC (args ++ more.*1)) (rs ++ mjoin more.*2) /\ consumed s s' (flat_args more)).
Proof using Hbuf.
  induction k as [|k IH]; intros rs args s Hs Hl; cbn [parseargs_loop]; [cbn; lia|].
  destruct (peek_cases s [124; 41; 38; 59] Hs) as (b & s1 & -> & Hc & Hb); [memb|]. pose proof (proj2 Hc). destruct b.
  - exists []. split; [done|]. split; [cbn; lia|]. split; [|done]. by rewrite !app_nil_r.
  - destruct (read_any s1) as (t & q & eq & s2 & -> & H2); [lia|]. destruct (Z.eqb_spec t 97) as [->|H97].
    + destruct H2 as [Hc2 Hlt]. cbn [negb Z.eqb]. pose proof (proj2 Hc2). change (97 =? 0) with false. cbv iota. destruct (Nat.leb_spec MAXARGS (S (length args))) as [|Hl']; [done|].
      rewrite add_arg_redirs. cbn [add_arg]. eapply outcome_bind; [apply redirs_sound; lia|done|]. intros c3 s3 (rs' & Hrs' & -> & Hc3). pose proof (proj2 Hc3).
      rewrite <-foldl_app. replace (S (length args)) with (length (args ++ [(q, eq)])) in * by (rewrite length_app; cbn; lia).
      eapply outcome_mono; [apply IH; lia|intros; lia|]. intros c' s' (more & Hm & Hl2 & -> & Hc').
      exists ((q, eq, rs') :: more). split; [by constructor|]. split; [rewrite length_app in Hl2; cbn in *; lia|]. split.
      * cbn. by rewrite <-!app_assoc.
      * exact (consumed_trans _ _ _ _ _ (consumed_trans _ _ _ _ _ Hc (consumed_trans _ _ _ _ _ Hc2 Hc3)) Hc').
    + destruct (Z.eqb_spec t 0); [|done]. cbn [negb]. destruct H2 as [Ht Hc2]. exists []. split; [done|]. split; [cbn; lia|]. split; [by rewrite !app_nil_r|exact (consumed_trans _ _ _ _ _ Hc Hc2)].
Qed.

Lemma back_loop_sound k : forall c s, 0 <= s <= es ->
  outcome (parseback_loop buf es k c s) (Z.of_nat k <= es - s) (fun c' s' => exists bg, c' = Nat.iter bg BACK c /\ consumed s s' (replicate bg (Op 38))).
Proof using Hbuf.
  induction k as [|k IH]; intros c s Hs; cbn [parseback_loop]; [cbn; lia|].
  destruct (peek_cases s [38] Hs) as (b & s1 & -> & Hc & Hb); [memb|]. pose proof (proj2 Hc). destruct b.
  - destruct Hb as (t & rest & Ht & Hin). assert (t = 38) as -> by (unfold first_byte in Hin; destruct (Z.eqb_spec t 43); rewrite elem_of_cons, elem_of_nil in Hin; lia).
    destruct (read_op s1 38 rest ltac:(lia) Ht) as (q1 & eq1 & s2 & -> & Hc2 & Hlt). pose proof (proj2 Hc2).
    eapply outcome_mono; [apply (IH _ s2); lia|intros; lia|]. intros c' s' (bg & -> & Hc'). exists (S bg). split; [by rewrite Nat.iter_succ_r|].
    exact (consumed_trans _ _ _ _ _ Hc (consumed_trans _ _ _ _ _ Hc2 Hc')).
  - by exists 0%nat.
Qed.

(** *** Soundness: what is parsed is in the grammar, and the fuel is enough *)

Abbreviation parsed_as ok tree flat s := (fun c s' => exists g, ok g /\ c = tree g /\ consumed s s' (flat g)).
Abbreviation short n s := (fun fuel : nat => Z.of_nat fuel < 4 * (es - s) + n).

(** The operators other than the redirections are one byte. *)
Lemma peek_op x s : 0 <= s <= es -> x ∈ [124; 38; 59; 40; 41] -> exists b s1, peek s [x] = (b, s1) /\ consumed s s1 [] /\
  if b then exists q eq s2, gettoken s1 = (x, q, eq, s2) /\ consumed s s2 [Op x] /\ s < s2 /\ tokens s = Op x :: tokens s2
  else forall rest, tokens s <> Op x :: rest.
Proof using Hbuf.
  intros Hs Hx. assert (x <> 43 /\ x <> 62 /\ [x] ⊆ symbols) as (H43 & H62 & Hsub).
  { split_and!; [rewrite !elem_of_cons, elem_of_nil in Hx; lia..|]. intros y Hy. unfold symbols. rewrite !elem_of_cons, !elem_of_nil in *. destruct Hy as [->|[]]. tauto. }
  destruct (peek_cases s [x] Hs Hsub) as (b & s1 & Hp & Hc & Hb). pose proof (proj2 Hc). exists b, s1. split; [done|]. split; [done|]. destruct b.
  - destruct Hb as (t & rest & Ht & Hin). assert (t = x) as -> by (unfold first_byte in Hin; destruct (Z.eqb_spec t 43); rewrite elem_of_cons, elem_of_nil in Hin; lia).
    destruct (read_op s1 x rest ltac:(lia) Ht) as (q & eq & s2 & Hg & Hc2 & Hlt). exists q, eq, s2. split; [done|]. pose proof (consumed_trans _ _ _ _ _ Hc Hc2) as Hc3. split; [done|].
    split; [lia|exact (proj1 Hc3)].
  - intros rest Ht. rewrite (proj1 Hc), app_nil_l in Ht. rewrite Ht in Hb. apply Hb. unfold first_byte. destruct (Z.eqb_spec x 43); [done|]. by apply list_elem_of_singleton.
Qed.

Lemma parse_sound fuel :
  (forall s, 0 <= s <= es -> outcome (parseline buf es fuel s) (short 4 s fuel) (parsed_as ok_line tree_line flat_line s)) /\
  (forall s, 0 <= s <= es -> outcome (parsepipe buf es fuel s) (short 3 s fuel) (parsed_as ok_pipe tree_pipe flat_pipe s)) /\
  (forall s, 0 <= s <= es -> outcome (parseblock buf es fuel s) (short 1 s fuel) (parsed_as ok_exec tree_exec flat_exec s)) /\
  (forall s, 0 <= s <= es -> outcome (parseexec buf es fuel s) (short 2 s fuel) (parsed_as ok_exec tree_exec flat_exec s)).
Proof using Hbuf.
  induction fuel as [|fuel (IHl & IHp & IHb & IHe)]; [split_and!; intros s Hs; cbn; lia|]. split_and!; intros s Hs; cbn [parseline parsepipe parseblock parseexec].
  - eapply outcome_bind; [by apply IHp|intros; lia|]. intros c s1 (p & Hp & -> & Hc1). pose proof (proj2 Hc1).
    eapply outcome_bind; [apply back_loop_sound; lia|intros; lia|]. intros c s2 (bg & -> & Hc2). pose proof (proj2 Hc2). pose proof (consumed_trans _ _ _ _ _ Hc1 Hc2) as Hc.
    destruct (peek_op 59 s2) as ([] & s3 & -> & Hp3 & Hb); [lia|memb| |].
    + destruct Hb as (q & eq & s4 & -> & Hc4 & Hlt & _). pose proof (proj2 Hc4). eapply outcome_bind; [apply IHl; lia|intros; lia|]. intros c s5 (l & Hl & -> & Hc5).
      exists (Seq p bg l). split; [done|]. split; [done|]. pose proof (consumed_trans _ _ _ _ _ Hc (consumed_trans _ _ _ _ _ Hc4 Hc5)) as Hfin. by rewrite <-app_assoc in Hfin.
    + exists (Line p bg). split; [done|]. split; [done|]. pose proof (consumed_trans _ _ _ _ _ Hc Hp3) as Hfin. by rewrite app_nil_r in Hfin.
  - eapply outcome_bind; [by apply IHe|intros; lia|]. intros c s1 (e & He & -> & Hc1). pose proof (proj2 Hc1).
    destruct (peek_op 124 s1) as ([] & s2 & -> & Hp2 & Hb); [lia|memb| |].
    + destruct Hb as (q & eq & s3 & -> & Hc3 & Hlt & _). pose proof (proj2 Hc3). eapply outcome_bind; [apply IHp; lia|intros; lia|]. intros c s4 (p & Hp & -> & Hc4).
      exists (Pipeline e p). split; [done|]. split; [done|]. exact (consumed_trans _ _ _ _ _ Hc1 (consumed_trans _ _ _ _ _ Hc3 Hc4)).
    + exists (One e). split; [done|]. split; [done|]. pose proof (consumed_trans _ _ _ _ _ Hc1 Hp2) as Hfin. by rewrite app_nil_r in Hfin.
  - destruct (peek_op 40 s) as ([] & s1 & -> & Hp1 & Hb); [lia|memb| |done].
    destruct Hb as (q & eq & s2 & -> & Hc2 & Hlt & _). pose proof (proj2 Hc2). cbn [negb]. eapply outcome_bind; [apply IHl; lia|intros; lia|]. intros c s3 (l & Hl & -> & Hc3). pose proof (proj2 Hc3).
    destruct (peek_op 41 s3) as ([] & s4 & -> & Hp4 & Hb); [lia|memb| |done].
    destruct Hb as (q' & eq' & s5 & -> & Hc5 & Hlt' & _). pose proof (proj2 Hc5). cbn [negb]. eapply outcome_mono; [apply redirs_sound; lia|done|]. intros c s6 (rs & Hrs & -> & Hc6).
    exists (Block l rs). split; [done|]. split; [done|]. exact (consumed_trans _ _ _ _ _ Hc2 (consumed_trans _ _ _ _ _ Hc3 (consumed_trans _ _ _ _ _ Hc5 Hc6))).
  - destruct (peek_op 40 s) as ([] & s1 & -> & Hp1 & Hb); [lia|memb| |].
    + pose proof (proj2 Hp1). eapply outcome_mono; [apply IHb; lia|intros; lia|]. intros c s2 (e & He & -> & Hc2). exists e. split; [done|]. split; [done|]. exact (consumed_trans _ _ _ _ _ Hp1 Hc2).
    + pose proof (proj2 Hp1). eapply outcome_bind; [apply redirs_sound; lia|done|]. intros c s2 (rs & Hrs & -> & Hc2). pose proof (proj2 Hc2).
      eapply outcome_mono; [apply (args_loop_sound _ rs [] s2); [lia|unfold MAXARGS; cbn; lia]|intros; lia|]. intros c s3 (args & Ha & Hl & -> & Hc3).
      exists (Simple rs args). split; [done|]. split; [done|]. exact (consumed_trans _ _ _ _ _ Hp1 (consumed_trans _ _ _ _ _ Hc2 Hc3)).
Qed.

(** *** Completeness: every phrase of the grammar is parsed *)

Definition yields (x : parsed (cmd * Z)) (c : cmd) (rest : list tok) : Prop :=
  x = NoFuel \/ exists s, x = Parsed (c, s) /\ tokens s = rest /\ 0 <= s <= es.

Lemma yields_bind x f c rest c' rest' : yields x c rest -> (forall s, tokens s = rest -> 0 <= s <= es -> yields (f (c, s)) c' rest') -> yields (bindr x f) c' rest'.
Proof using Type. intros [->|(s & -> & Hs & Hb)] Hf; [by left|]. by apply Hf. Qed.

Lemma take_op x s rest : 0 <= s <= es -> x ∈ [124; 38; 59; 40; 41] -> tokens s = Op x :: rest ->
  exists s1 q eq s2, peek s [x] = (true, s1) /\ gettoken s1 = (x, q, eq, s2) /\ tokens s1 = tokens s /\ 0 <= s1 <= es /\ tokens s2 = rest /\ 0 <= s2 <= es.
Proof using Hbuf.
  intros Hs Hx Ht. destruct (peek_op x s Hs Hx) as ([] & s1 & Hp & Hc1 & Hb); [|by destruct (Hb rest)].
  destruct Hb as (q & eq & s2 & Hg & Hc & Hlt & Ht'). exists s1, q, eq, s2. pose proof (proj2 Hc). pose proof (proj2 Hc1). rewrite Ht in Ht'.
  split_and!; [done|done|symmetry; exact (proj1 Hc1)|lia|lia|congruence|lia|lia].
Qed.

Lemma pass_op x s : 0 <= s <= es -> x ∈ [124; 38; 59; 40; 41] -> (forall rest, tokens s <> Op x :: rest) ->
  exists s1, peek s [x] = (false, s1) /\ tokens s1 = tokens s /\ 0 <= s1 <= es.
Proof using Hbuf.
  intros Hs Hx Ht. destruct (peek_op x s Hs Hx) as ([] & s1 & Hp & Hc1 & Hb).
  - destruct Hb as (q & eq & s2 & _ & _ & _ & Ht'). by destruct (Ht _ Ht').
  - exists s1. split; [done|]. pose proof (proj2 Hc1). split; [symmetry; exact (proj1 Hc1)|lia].
Qed.

(** The tokens that end the redirections, and the words, of a command. *)
Definition no_redir (ts : list tok) : Prop := match ts with Op t :: _ => first_byte t ∉ [60; 62] | _ => True end.
Definition ends_exec (ts : list tok) : Prop := match ts with [] => True | Op t :: _ => t ∈ [124; 41; 38; 59] | _ => False end.
Definition ends_pipe (ts : list tok) : Prop := match ts with [] => True | Op t :: _ => t ∈ [41; 38; 59] | _ => False end.
Definition ends_line (ts : list tok) : Prop := match ts with [] => True | Op t :: _ => t = 41 | _ => False end.

Lemma ends_exec_no_redir ts : ends_exec ts -> no_redir ts.
Proof using Type.
  destruct ts as [|[t|] ts]; [done| |done]. cbn. rewrite !elem_of_cons, elem_of_nil. intros Hin. clear Hbuf es.
  assert (t = 124 \/ t = 41 \/ t = 38 \/ t = 59) as [->|[->|[->| ->]]] by tauto; memb.
Qed.
Lemma ends_pipe_exec ts : ends_pipe ts -> ends_exec ts.
Proof using Type. destruct ts as [|[t|] ts]; [done| |done]. cbn. rewrite !elem_of_cons. tauto. Qed.
Lemma ends_line_pipe ts : ends_line ts -> ends_pipe ts.
Proof using Type. destruct ts as [|[t|] ts]; [done| |done]. cbn. intros ->. memb. Qed.

Lemma redirs_loop_complete k : forall rs c s rest, 0 <= s <= es -> Forall ok_redir rs -> no_redir rest -> tokens s = flat_redirs rs ++ rest ->
  yields (parseredirs_loop buf es k c s) (foldl tree_redir c rs) rest.
Proof using Hbuf.
  induction k as [|k IH]; intros rs c s rest Hs Hok Hno Ht; cbn [parseredirs_loop]; [by left|].
  destruct (peek_spec s [60; 62] Hs) as (s1 & -> & Ht1 & Hb1 & _); [memb|]. destruct rs as [|[op q eq] rs].
  - cbn [flat_redirs foldl] in *. change (tokens s = rest) in Ht. rewrite Ht. replace (match rest with [] => _ | _ => _ end) with false; [right; exists s1; split; [done|]; split; [congruence|lia]|].
    destruct rest as [|[t|] rest]; [done| |done]. symmetry. by apply bool_decide_false.
  - change (flat_redirs (Redir op q eq :: rs)) with (Op op :: Word q eq :: flat_redirs rs) in Ht. cbn [app] in Ht. rewrite Ht. inversion Hok as [|?? Hop Hok']; subst. cbn in Hop.
    rewrite Ht in Ht1. destruct (gettoken_op s1 _ _ ltac:(lia) Ht1) as (q1 & eq1 & s2 & Hg1 & Ht2 & Hb2 & _).
    destruct (gettoken_word s2 _ _ _ ltac:(lia) Ht2) as (s3 & Hg2 & Ht3 & Hb3). rewrite !elem_of_cons, elem_of_nil in Hop. clear Hok.
    assert (op = 60 \/ op = 62 \/ op = 43) as Hop' by tauto. clear Hop. destruct Hop' as [->|[->| ->]].
    all: rewrite bool_decide_true by (memb); rewrite Hg1, Hg2; cbn [negb Z.eqb Pos.eqb foldl tree_redir]; apply IH; [lia|done..].
Qed.

Lemma redirs_complete rs c s rest : 0 <= s <= es -> Forall ok_redir rs -> no_redir rest -> tokens s = flat_redirs rs ++ rest ->
  yields (parseredirs buf es c s) (foldl tree_redir c rs) rest.
Proof using Hbuf. apply redirs_loop_complete. Qed.

Lemma flat_args_no_redir more rest : ends_exec rest -> no_redir (flat_args more ++ rest).
Proof using Type. destruct more as [|[[q eq] rs] more]; [|done]. apply ends_exec_no_redir. Qed.

Lemma args_loop_complete k : forall more rs args s rest, 0 <= s <= es -> Forall (fun a => Forall ok_redir a.2) more -> (length args + length more < MAXARGS)%nat ->
  ends_exec rest -> tokens s = flat_args more ++ rest ->
  yields (parseargs_loop buf es k (foldl tree_redir (EXEC args) rs) (length args) s) (foldl tree_redir (EXEC (args ++ more.*1)) (rs ++ mjoin more.*2)) rest.
Proof using Hbuf.
  induction k as [|k IH]; intros more rs args s rest Hs Hok Hl Hend Ht; cbn [parseargs_loop]; [by left|].
  destruct (peek_spec s [124; 41; 38; 59] Hs) as (s1 & -> & Ht1 & Hb1 & _); [memb|]. destruct more as [|[[q eq] rs'] more].
  - change (flat_args [] ++ rest) with rest in Ht. cbn [fmap list_fmap mjoin list_join]. rewrite !app_nil_r, Ht. rewrite Ht in Ht1. destruct rest as [|[t|] rest]; [| |done].
    + destruct (gettoken_nil s1 ltac:(lia) Ht1) as (q & eq & s2 & -> & Ht2 & Hb2). right. exists s2. split; [done|]. split; [done|lia].
    + cbn in Hend. rewrite bool_decide_true; [right; exists s1; split; [done|]; split; [done|lia]|]. unfold first_byte. destruct (Z.eqb_spec t 43) as [->|]; [|done].
      exfalso. revert Hend. memb.
  - change (flat_args ((q, eq, rs') :: more)) with (Word q eq :: flat_redirs rs' ++ flat_args more) in Ht. cbn [app] in Ht. rewrite Ht. rewrite Ht, <-app_assoc in Ht1.
    inversion Hok as [|?? Hok1 Hok2]; subst. cbn in Hok1, Hl. destruct (gettoken_word s1 _ _ _ ltac:(lia) Ht1) as (s2 & -> & Ht2 & Hb2). cbn [negb Z.eqb Pos.eqb].
    destruct (Nat.leb_spec MAXARGS (S (length args))) as [|Hl']; [lia|]. rewrite add_arg_redirs. cbn [add_arg].
    eapply yields_bind; [apply (redirs_complete rs' _ s2); [lia|done|by apply (flat_args_no_redir more rest)|done]|]. intros s3 Ht3 Hb3. rewrite <-foldl_app.
    replace (S (length args)) with (length (args ++ [(q, eq)])) by (rewrite length_app; cbn; lia). cbn [fmap list_fmap mjoin list_join fst snd].
    rewrite (app_assoc rs). change ((q, eq) :: more.*1) with ([(q, eq)] ++ more.*1). rewrite (app_assoc args). apply IH; [lia|done|rewrite length_app; cbn; lia|done..].
Qed.

Lemma back_loop_complete k : forall bg c s rest, 0 <= s <= es -> (forall r, rest <> Op 38 :: r) -> tokens s = replicate bg (Op 38) ++ rest ->
  yields (parseback_loop buf es k c s) (Nat.iter bg BACK c) rest.
Proof using Hbuf.
  induction k as [|k IH]; intros bg c s rest Hs Hno Ht; cbn [parseback_loop]; [by left|]. destruct bg as [|bg].
  - destruct (pass_op 38 s Hs) as (s1 & -> & Ht1 & Hb1); [memb|by rewrite Ht|]. right. exists s1. split; [done|]. split; [by rewrite Ht1, Ht|done].
  - destruct (take_op 38 s (replicate bg (Op 38) ++ rest) Hs) as (s1 & q & eq & s2 & -> & -> & _ & _ & Ht2 & Hb2); [memb|done|].
    rewrite Nat.iter_succ_r. by apply IH.
Qed.

(** A phrase does not start with a token it may not start with. *)
Lemma simple_not_block rs args rest r : Forall ok_redir rs -> ends_exec rest -> flat_redirs rs ++ flat_args args ++ rest <> Op 40 :: r.
Proof using Type.
  intros Hok Hend. destruct rs as [|[op q eq] rs]; [destruct args as [|[[q eq] rs] args]; [|done]|].
  - destruct rest as [|t rest]; [done|]. cbn. intros [= -> ->]. revert Hend. memb.
  - inversion Hok as [|?? Hop _]; subst. intros [= ->]. revert Hop. memb.
Qed.

Lemma ends_not x ts r : ends_line ts -> x <> 41 -> ts <> Op x :: r.
Proof using Type. intros He Hx ->. cbn in He. by subst. Qed.

Lemma parse_complete fuel :
  (forall l s rest, 0 <= s <= es -> ok_line l -> ends_line rest -> tokens s = flat_line l ++ rest -> yields (parseline buf es fuel s) (tree_line l) rest) /\
  (forall p s rest, 0 <= s <= es -> ok_pipe p -> ends_pipe rest -> tokens s = flat_pipe p ++ rest -> yields (parsepipe buf es fuel s) (tree_pipe p) rest) /\
  (forall l rs s rest, 0 <= s <= es -> ok_exec (Block l rs) -> ends_exec rest -> tokens s = flat_exec (Block l rs) ++ rest -> yields (parseblock buf es fuel s) (tree_exec (Block l rs)) rest) /\
  (forall e s rest, 0 <= s <= es -> ok_exec e -> ends_exec rest -> tokens s = flat_exec e ++ rest -> yields (parseexec buf es fuel s) (tree_exec e) rest).
Proof using Hbuf.
  induction fuel as [|fuel (IHl & IHp & IHb & IHe)]; [split_and!; intros; by left|]. split_and!; cbn [parseline parsepipe parseblock parseexec].
  - intros l s rest Hs Hok Hend Ht. assert (exists p bg tl, ok_pipe p /\ tokens s = flat_pipe p ++ replicate bg (Op 38) ++ tl /\ ((l = Line p bg /\ tl = rest) \/ exists l', l = Seq p bg l' /\ ok_line l' /\ tl = Op 59 :: flat_line l' ++ rest)) as (p & bg & tl & Hp & Hts & Htl).
    { destruct l as [p bg|p bg l]; cbn in Hok, Ht; rewrite <-!app_assoc in Ht; [exists p, bg, rest; tauto|]. exists p, bg, (Op 59 :: flat_line l ++ rest). split_and!; [tauto|done|]. right. exists l. tauto. }
    assert (Htl38 : forall r, tl <> Op 38 :: r) by (destruct Htl as [[-> ->]|(l' & -> & _ & ->)]; [intros r; by apply ends_not|done]).
    assert (Hpe : ends_pipe (replicate bg (Op 38) ++ tl)).
    { destruct bg; [|memb]. destruct Htl as [[-> ->]|(l' & -> & _ & ->)]; [by apply ends_line_pipe|]. memb. }
    eapply yields_bind; [by apply (IHp p s _ Hs Hp Hpe)|]. intros s1 Ht1 Hb1. eapply yields_bind; [by apply (back_loop_complete _ bg _ s1 tl Hb1)|]. intros s2 Ht2 Hb2.
    destruct Htl as [[-> ->]|(l' & -> & Hl' & ->)].
    + destruct (pass_op 59 s2 Hb2) as (s3 & -> & Ht3 & Hb3); [memb|rewrite Ht2; intros r; by apply ends_not|].
      right. exists s3. split; [done|]. split; [congruence|done].
    + destruct (take_op 59 s2 _ Hb2 ltac:(memb) Ht2) as (s3 & q & eq & s4 & -> & -> & _ & _ & Ht4 & Hb4).
      eapply yields_bind; [by apply (IHl l' s4 rest)|]. intros s5 Ht5 Hb5. right. exists s5. done.
  - intros [e|e p] s rest Hs Hok Hend Ht; cbn in Hok, Ht.
    + eapply yields_bind; [apply (IHe e s rest Hs Hok); [by apply ends_pipe_exec|done]|]. intros s1 Ht1 Hb1.
      destruct (pass_op 124 s1 Hb1) as (s2 & -> & Ht2 & Hb2); [memb| |right; exists s2; split; [done|]; split; [congruence|done]].
      rewrite Ht1. intros r ->. revert Hend. memb.
    + rewrite <-app_assoc in Ht. cbn [app] in Ht. destruct Hok as [He Hp]. eapply yields_bind; [apply (IHe e s _ Hs He); [|done]; memb|]. intros s1 Ht1 Hb1.
      destruct (take_op 124 s1 _ Hb1 ltac:(memb) Ht1) as (s3 & q & eq & s4 & -> & -> & _ & _ & Ht4 & Hb4).
      eapply yields_bind; [by apply (IHp p s4 rest)|]. intros s5 Ht5 Hb5. right. exists s5. done.
  - intros l rs s rest Hs [Hl Hrs] Hend Ht. cbn [flat_exec app] in Ht. rewrite <-app_assoc in Ht. cbn [app] in Ht.
    destruct (take_op 40 s _ Hs ltac:(memb) Ht) as (s1 & q & eq & s2 & -> & -> & _ & _ & Ht2 & Hb2). cbn [negb].
    eapply yields_bind; [by apply (IHl l s2 (Op 41 :: flat_redirs rs ++ rest))|]. intros s3 Ht3 Hb3.
    destruct (take_op 41 s3 _ Hb3 ltac:(memb) Ht3) as (s4 & q' & eq' & s5 & -> & -> & _ & _ & Ht5 & Hb5). cbn [negb tree_exec].
    apply redirs_complete; [done|done|by apply ends_exec_no_redir|done].
  - intros [rs args|l rs] s rest Hs Hok Hend Ht.
    + cbn in Hok, Ht. destruct Hok as (Hrs & Ha & Hlen). rewrite <-app_assoc in Ht.
      destruct (pass_op 40 s Hs) as (s1 & -> & Ht1 & Hb1); [memb|rewrite Ht; intros r; by apply simple_not_block|].
      eapply yields_bind; [apply (redirs_complete rs _ s1 _ Hb1 Hrs); [by apply (flat_args_no_redir args rest)|congruence]|]. intros s2 Ht2 Hb2. by apply (args_loop_complete _ args rs [] s2 rest).
    + destruct (take_op 40 s (flat_line l ++ Op 41 :: flat_redirs rs ++ rest) Hs) as (s1 & q & eq & s2 & -> & _ & Ht1 & Hb1 & _); [memb|rewrite Ht; cbn; by rewrite <-app_assoc|].
      apply IHb; [done..|congruence].
Qed.

(** *** Words *)

Definition is_word (q eq : Z) : Prop := 0 <= q < eq /\ eq <= es /\ (forall j, q <= j < eq -> plain (getb buf j) = true) /\ (eq = es \/ plain (getb buf eq) = false).

Lemma tokens_words k : forall s q eq, 0 <= s <= es -> Word q eq ∈ toks k s -> is_word q eq.
Proof using Hbuf.
  induction k as [|k IH]; intros s q eq Hs Hin; cbn [toks] in Hin; [by apply elem_of_nil in Hin|].
  destruct (gettoken_spec s Hs) as (t & q' & eq' & s' & Hg & Hk). rewrite Hg in Hin. destruct (Z.eqb_spec t 0) as [|H0]; [by apply elem_of_nil in Hin|].
  destruct (is_token_pos _ _ _ _ _ Hs Hk H0). apply elem_of_cons in Hin as [Hw|Hin]; [|by apply (IH s'); [lia|]].
  symmetry in Hw. apply kind_word in Hw as (-> & -> & ->). destruct Hk as [Ho _ _ Hk]. destruct Hk as [?|[(Hop & _)|[?|(_ & Hlt & Hw & He)]]]; [lia| |lia|split; [lia|]; by split; [lia|]].
  exfalso. revert Hop. memb.
Qed.
End tokens.


#[global] Arguments tokens : simpl never.

(** The words of a command, in the order of nulterminate(). *)
Fixpoint cmd_words (c : cmd) : list (Z * Z) :=
  match c with
  | EXEC args => args
  | REDIR c file efile _ _ => cmd_words c ++ [(file, efile)]
  | PIPE l r | LIST l r => cmd_words l ++ cmd_words r
  | BACK c => cmd_words c
  end.

Definition cut (buf : list Z) (w : Z * Z) : list Z := setb buf w.2 0.

Lemma nulterminate_words c : forall buf, nulterminate c buf = foldl cut buf (cmd_words c).
Proof. induction c as [| |l IHl r IHr|l IHl r IHr|]; intros buf; cbn [nulterminate cmd_words]; rewrite ?foldl_app; [done|cbn [foldl]; unfold cut at 1; by f_equal|by rewrite IHr, IHl|by rewrite IHr, IHl|done]. Qed.

(** The words of the tree are words of the phrase. *)
Definition all_in (ws : list (Z * Z)) (ts : list tok) : Prop := forall q eq, (q, eq) ∈ ws -> Word q eq ∈ ts.

Lemma all_in_app ws ws' ts : all_in ws ts -> all_in ws' ts -> all_in (ws ++ ws') ts.
Proof. intros H1 H2 q eq. rewrite elem_of_app. intros [?|?]; auto. Qed.
Lemma all_in_mono ws ts ts' : all_in ws ts -> ts ⊆ ts' -> all_in ws ts'.
Proof. intros H1 H2 q eq Hin. by apply H2, H1. Qed.

Lemma redirs_words rs ts : flat_redirs rs ⊆ ts -> forall c, all_in (cmd_words c) ts -> all_in (cmd_words (foldl tree_redir c rs)) ts.
Proof.
  induction rs as [|[op q eq] rs IH]; intros Hts c Hc; [done|]. cbn [foldl]. change (flat_redirs (Redir op q eq :: rs)) with (Op op :: Word q eq :: flat_redirs rs) in Hts.
  apply IH; [set_solver|]. assert (cmd_words (tree_redir c (Redir op q eq)) = cmd_words c ++ [(q, eq)]) as -> by (cbn; by destruct (op =? 60)).
  apply all_in_app; [done|]. intros q' eq' Hin%list_elem_of_singleton. injection Hin as -> ->. set_solver.
Qed.

Lemma args_words args : forall ts, flat_args args ⊆ ts -> all_in args.*1 ts /\ flat_redirs (mjoin args.*2) ⊆ ts.
Proof.
  induction args as [|[[q eq] rs] args IH]; intros ts Hts; [by split; [intros ?? ?%elem_of_nil|]|].
  change (flat_args ((q, eq, rs) :: args)) with (Word q eq :: flat_redirs rs ++ flat_args args) in Hts. destruct (IH ts) as [H1 H2]; [set_solver|]. split.
  - intros q' eq'. cbn. rewrite elem_of_cons. intros [[= -> ->]|Hin]; [set_solver|by apply H1].
  - cbn. unfold flat_redirs. rewrite fmap_app, join_app. set_solver.
Qed.

Lemma bg_words bg c : cmd_words (Nat.iter bg BACK c) = cmd_words c.
Proof. induction bg; [done|]. by cbn. Qed.

Scheme syn_line_mut := Induction for syn_line Sort Prop
with syn_pipe_mut := Induction for syn_pipe Sort Prop
with syn_exec_mut := Induction for syn_exec Sort Prop.

Lemma tree_words l : all_in (cmd_words (tree_line l)) (flat_line l).
Proof.
  revert l. apply (syn_line_mut (fun l => all_in (cmd_words (tree_line l)) (flat_line l)) (fun p => all_in (cmd_words (tree_pipe p)) (flat_pipe p)) (fun e => all_in (cmd_words (tree_exec e)) (flat_exec e))).
  - intros p IH bg. cbn. rewrite bg_words. eapply all_in_mono; [done|set_solver].
  - intros p IH bg l IHl. cbn. rewrite bg_words. apply all_in_app; (eapply all_in_mono; [done|set_solver]).
  - done.
  - intros e IH p IHp. cbn. apply all_in_app; (eapply all_in_mono; [done|set_solver]).
  - intros rs args. cbn. destruct (args_words args (flat_redirs rs ++ flat_args args)) as [H1 H2]; [set_solver|].
    apply redirs_words; [|done]. unfold flat_redirs at 1. rewrite fmap_app, join_app. fold (flat_redirs rs) (flat_redirs (mjoin args.*2)). set_solver.
  - intros l IH rs. cbn. apply redirs_words; [set_solver|]. eapply all_in_mono; [done|set_solver].
Qed.


(** *** The buffer after nulterminate() *)

Lemma getb_cuts_ne ws : forall (buf : list Z) j, (forall w, w ∈ ws -> w.2 <> j) -> getb (foldl cut buf ws) j = getb buf j.
Proof.
  induction ws as [|w ws IH]; intros buf j Hne; [done|]. cbn [foldl]. rewrite IH by (intros w' Hw'; apply Hne; by right).
  unfold cut. apply getb_setb_ne. apply Hne. by left.
Qed.

Lemma getb_cuts_eq ws : forall (buf : list Z) j, 0 <= j < Z.of_nat (length buf) -> (getb buf j = 0 \/ exists w, w ∈ ws /\ w.2 = j) -> getb (foldl cut buf ws) j = 0.
Proof.
  induction ws as [|w ws IH]; intros buf j Hj H; cbn [foldl]; [destruct H as [?|(w & Hw%elem_of_nil & _)]; done|].
  assert (Hlen : length (cut buf w) = length buf) by (unfold cut; cbn; unfold list_setb; destruct (w.2 <? 0); [done|apply length_insert]).
  apply IH; [lia|]. destruct (decide (w.2 = j)) as [<-|Hne].
  - left. unfold cut. by rewrite getb_setb_eq by done.
  - destruct H as [H|(w' & [->|Hw']%elem_of_cons & ?)]; [left|done|right; by exists w']. unfold cut. by rewrite getb_setb_ne.
Qed.

Lemma length_cuts ws : forall buf : list Z, length (foldl cut buf ws) = length buf.
Proof. induction ws as [|w ws IH]; intros buf; [done|]. cbn [foldl]. rewrite IH. unfold cut. cbn. unfold list_setb. destruct (w.2 <? 0); [done|]. apply length_insert. Qed.

Lemma cuts_bytes ws : forall buf, Forall (fun c => 0 <= c < 256) buf -> Forall (fun c => 0 <= c < 256) (foldl cut buf ws).
Proof.
  induction ws as [|w ws IH]; intros buf Hb; [done|]. apply IH. unfold cut. cbn. unfold list_setb. destruct (w.2 <? 0); [done|]. apply Forall_insert; [done|]. by vm_compute.
Qed.

Lemma getb_app_l (l k : list Z) j : 0 <= j < Z.of_nat (length l) -> getb (l ++ k) j = getb l j.
Proof. intros Hj. cbn. unfold list_getb. destruct (Z.ltb_spec j 0); [lia|]. by rewrite lookup_app_l by lia. Qed.

Lemma cstring_str_at l : forall (buf : list Z) q, Forall (fun c => 0 <= c < 256) buf -> 0 <= q -> cstring buf q l -> str_at buf q = l.
Proof.
  induction l as [|c l IH]; intros buf q Hb Hq Hc; unfold str_at.
  - apply cstring_nil in Hc. destruct (drop (Z.to_nat q) buf) as [|x r] eqn:E; [done|]. cbn in *. assert (Hx : buf !! Z.to_nat q = Some x) by (rewrite <-(Nat.add_0_r (Z.to_nat q)), <-lookup_drop, E; done).
    unfold list_getb in Hc. destruct (Z.ltb_spec q 0); [lia|]. rewrite Hx in Hc. cbn in Hc. rewrite u8_small in Hc by (by eapply Forall_lookup_1 in Hb). subst x. done.
  - apply cstring_cons in Hc as (H1 & H2 & H3). cbn in H1. unfold list_getb in H1. destruct (Z.ltb_spec q 0); [lia|].
    destruct (buf !! Z.to_nat q) as [x|] eqn:Hx; [|exfalso; apply H2; by rewrite <-H1]. cbn in H1. rewrite u8_small in H1 by (by eapply Forall_lookup_1 in Hb). subst x.
    rewrite (drop_S _ _ _ Hx). cbn. destruct (Z.eqb_spec c 0); [done|]. f_equal. rewrite <-(IH buf (q + 1)); [|done|lia|done]. unfold str_at. do 2 f_equal. lia.
Qed.

Lemma nulterminate_word s c q eq : Forall is_byte s -> (forall a b, (a, b) ∈ cmd_words c -> is_word s a b) -> (q, eq) ∈ cmd_words c ->
  cstring (nulterminate c (s ++ [0])) q (get_bytes (Z.to_nat (eq - q)) s q).
Proof.
  intros Hs Hws Hin. rewrite nulterminate_words. destruct (Hws q eq Hin) as (Hq & Heq & Hpl & _).
  assert (Hget : forall j, q <= j < eq -> getb (foldl cut (s ++ [0]) (cmd_words c)) j = getb s j).
  { intros j Hj. rewrite getb_cuts_ne; [apply getb_app_l; lia|]. intros [a b] Hw Hb. cbn in Hb. subst b. destruct (Hws a j Hw) as (_ & _ & _ & [Hz|Hz]); [lia|]. by rewrite Hpl in Hz. }
  split_and!.
  - rewrite length_get_bytes. apply get_bytes_ext. intros j Hj. apply Hget. lia.
  - rewrite length_get_bytes. replace (q + Z.of_nat (Z.to_nat (eq - q))) with eq by lia. apply getb_cuts_eq; [rewrite length_app; cbn; lia|]. right. by exists (q, eq).
  - apply Forall_lookup_2. intros i x Hx. assert (Hi : (i < Z.to_nat (eq - q))%nat) by (rewrite <-(length_get_bytes (Z.to_nat (eq - q)) s q); by eapply lookup_lt_Some).
    rewrite lookup_get_bytes in Hx by done. injection Hx as <-. apply at_byte; [done|lia].
Qed.


(** ** Claims *)

(** C10: The shell's parser accepts exactly the grammar and always ends.  For
    a line of non-NUL bytes and fuel for its nesting, parsecmd() returns the
    command tree of a phrase of the grammar exactly when the tokens of the
    line spell that phrase (so every other line is a syntax error), and the
    recursion never needs more fuel than [4 * length + 4]. *)
Theorem parsecmd_correct (fuel : nat) (s : list Z) :
  Forall is_byte s -> (4 * length s + 4 <= fuel)%nat ->
  (forall c buf, parsecmd fuel s = Parsed (c, buf) <->
     exists l, ok_line l /\ tokens s 0 = flat_line l /\ c = tree_line l /\ buf = nulterminate c (s ++ [0])) /\
  parsecmd fuel s <> NoFuel.
Proof.
  intros Hs Hf. assert (H0 : 0 <= 0 <= Z.of_nat (length s)) by lia. destruct (parse_sound s Hs fuel) as (Hsnd & _). specialize (Hsnd 0 H0).
  assert (Hend : forall p, 0 <= p <= Z.of_nat (length s) -> snd (peek s (Z.of_nat (length s)) p []) = Z.of_nat (length s) <-> tokens s p = []) by (intros p Hp; by rewrite tokens_nil).
  unfold parsecmd. split.
  - intros c buf. split.
    + destruct (parseline s _ fuel 0) as [[c' p]| | |] eqn:E; cbn [bindr]; try done. destruct Hsnd as (l & Hl & -> & Ht & Hb). specialize (Hend p Hb).
      destruct (peek s _ p []) as [b p']. cbn in Hend. destruct (Z.eqb_spec p' (Z.of_nat (length s))) as [->|]; cbn [negb]; [|done]. intros [= <- <-].
      exists l. split_and!; try done. rewrite Ht. rewrite (proj1 Hend eq_refl). apply app_nil_r.
    + intros (l & Hl & Ht & -> & ->). destruct (parse_complete s Hs fuel) as (Hcomp & _). destruct (Hcomp l 0 [] H0 Hl I) as [E|(p & E & Hp & Hb)]; [by rewrite app_nil_r| |].
      * rewrite E in Hsnd. cbn in Hsnd. lia.
      * rewrite E. cbn [bindr]. specialize (Hend p Hb). destruct (peek s _ p []) as [b p']. cbn in Hend. rewrite (proj2 Hend Hp). by rewrite Z.eqb_refl.
  - destruct (parseline s _ fuel 0) as [[c' p]| | |]; cbn [bindr]; try done; [|cbn in Hsnd; lia]. destruct (peek s _ p []) as [b p']. by destruct (negb _).
Qed.

(** The line "(ls|wc) > out; cat < in &". *)
Definition sample_line : list Z := text "(ls|wc) > out; cat < in &".
Lemma sample_bytes : Forall is_byte sample_line.
Proof. repeat (apply Forall_cons; split; [done|]). apply Forall_nil; exact I. Qed.

Lemma parsecmd_correct_witness : exists c buf, parsecmd 104 sample_line = Parsed (c, buf) /\
  (exists l, ok_line l /\ tokens sample_line 0 = flat_line l /\ c = tree_line l /\ buf = nulterminate c (sample_line ++ [0])).
Proof.
  pose proof (proj1 (parsecmd_correct 104 sample_line sample_bytes ltac:(vm_compute; lia))) as H. eexists _, _. split; [vm_compute; reflexivity|]. apply (proj1 (H _ _)). vm_compute. reflexivity.
Defined.

(** C34: nulterminate() cuts the words of a command out of the line.  After a
    successful parse the buffer has its old length, and for every argument
    and file name of the command the pointer to its start is the C string of
    exactly the bytes between the word's two ends in the input line; both
    ends lie inside the buffer and the word has no blanks or operators. *)
Theorem parsecmd_words (fuel : nat) (s : list Z) c buf q eq :
  Forall is_byte s -> parsecmd fuel s = Parsed (c, buf) -> (q, eq) ∈ cmd_words c ->
  length buf = S (length s) /\ 0 <= q < eq /\ eq <= Z.of_nat (length s) /\
  str_at buf q = get_bytes (Z.to_nat (eq - q)) s q /\ forallb plain (str_at buf q) = true.
Proof.
  intros Hs Hp Hin. unfold parsecmd in Hp. destruct (parse_sound s Hs fuel) as (Hsnd & _). specialize (Hsnd 0 ltac:(lia)).
  destruct (parseline s _ fuel 0) as [[c' p]| | |]; cbn [bindr] in Hp; try done. destruct Hsnd as (l & Hl & -> & Ht & Hb).
  destruct (peek s _ p []) as [b p']. destruct (p' =? _); cbn [negb] in Hp; [|done]. injection Hp as <- <-.
  assert (Hw : forall a b, (a, b) ∈ cmd_words (tree_line l) -> is_word s a b).
  { intros a b' Hab%tree_words. apply (tokens_words s Hs (S (Z.to_nat (Z.of_nat (length s) - 0))) 0); [lia|]. change (Word a b' ∈ tokens s 0). rewrite Ht. apply elem_of_app. by left. }
  pose proof (nulterminate_word s _ q eq Hs Hw Hin) as Hc. destruct (Hw q eq Hin) as (H1 & H2 & H3 & _).
  apply cstring_str_at in Hc as ->; [|rewrite nulterminate_words; apply cuts_bytes, Forall_app; split; [eapply Forall_impl; [exact Hs|unfold is_byte; intros; lia]|by repeat constructor]|lia].
  split_and!; try lia; [rewrite nulterminate_words, length_cuts, length_app; cbn; lia|done|].
  apply forallb_forall. intros x Hx%list_elem_of_In. apply list_elem_of_lookup in Hx as [i Hi]. pose proof (lookup_lt_Some _ _ _ Hi) as Hlt. rewrite length_get_bytes in Hlt.
  rewrite lookup_get_bytes in Hi by done. injection Hi as <-. apply H3. lia.
Qed.

Lemma parsecmd_words_witness : exists c buf, parsecmd 104 sample_line = Parsed (c, buf) /\ (10, 13) ∈ cmd_words c /\ str_at buf 10 = text "out" /\ length buf = S (length sample_line).
Proof.
  eexists _, _. split; [vm_compute; reflexivity|]. split; [memb|].
  destruct (parsecmd_words 104 sample_line _ _ 10 13 sample_bytes ltac:(vm_compute; reflexivity) ltac:(memb)) as (H1 & _ & _ & H2 & _). split; [rewrite H2; reflexivity|exact H1].
Defined.

End ShellParse.
