(* ===== verification/ShellRun.v ===== *)
(** * What the shell runs

    [run] gives the processes a user program starts: it follows a process and
    its children through fork, wait, pipe, dup, open and close on a descriptor
    table in which the kernel hands out the lowest free descriptor, and records
    the images that are executed with the table they see.  [plan] is what a
    command line is meant to start; runcmd() starts exactly that. *)

From S2P Require Import Prelude Bytes KState User Ulib Utils Shell ShellParse.

Module ShellRun.
Import User Ulib Utils Shell ShellParse.

(** ** Descriptor tables *)

Inductive handle := Std (k : Z) | Opened (path : list Z) (mode : Z) | ReadEnd (p : nat) | WriteEnd (p : nat).
Definition table := list (option handle).

Definition NOFILE : nat := 16.

(** The lowest free descriptor. *)
Fixpoint lowest (t : table) : nat :=
  match t with
  | Some _ :: t' => S (lowest t')
  | _ => O
  end.

(** [fdalloc]: [None] when the table is full. *)
Definition alloc (h : handle) (t : table) : option (Z * table) :=
  let fd := lowest t in
  if (fd <? length t)%nat then Some (Z.of_nat fd, <[fd := Some h]> t) else None.
Definition close_fd (fd : Z) (t : table) : table := <[Z.to_nat fd := None]> t.
Definition at_fd (fd : Z) (t : table) : option handle := mjoin (t !! Z.to_nat fd).

(** ** Processes *)

(** What a process does, in order: a child with what it does, a wait with the
    descriptors it holds meanwhile, the end by an exec or an exit. *)
Unset Elimination Schemes.
Inductive act :=
| Child (acts : list act)
| Waited (t : table)
| Launch (path : list Z) (argv : list (list Z)) (t : table)
| Exits (status : Z).
Set Elimination Schemes.

Section processes.
(** The files that can be executed and opened, and the pid of a child. *)
Context (executable : list Z -> bool) (openable : list Z -> Z -> bool) (pid : Z).

Definition result : Type := list act * nat.
Definition cons_act (a : act) (r : result) : result := (a :: r.1, r.2).

(** [n] counts the pipes made so far. *)
Fixpoint run {R} (p : prog R) (t : table) (n : nat) (K : R -> table -> nat -> result) : result :=
  match p with
  | Ret r => K r t n
  | Fuel => ([], n)
  | @Call _ Y c k =>
      match c in sys Y return (Y -> prog R) -> (Y -> table -> nat -> result) -> result with
      | Fork => fun k rec =>
          let '(child, n) := rec 0 t n in
          cons_act (Child child) (rec pid t n)
      | Exit status => fun _ _ => ([Exits status], n)
      | Wait => fun k rec => cons_act (Waited t) (rec pid t n)
      | Pipe => fun k rec =>
          match alloc (ReadEnd n) t with
          | Some (p0, t1) =>
              match alloc (WriteEnd n) t1 with
              | Some (p1, t2) => rec (0, (p0, p1)) t2 (S n)
              | None => rec (-1, (0, 0)) t n
              end
          | None => rec (-1, (0, 0)) t n
          end
      | Write fd bs => fun k rec => rec (Z.of_nat (length bs)) t n
      | Close fd => fun k rec => rec 0 (close_fd fd t) n
      | Dup fd => fun k rec =>
          match at_fd fd t with
          | Some h => match alloc h t with Some (fd', t') => rec fd' t' n | None => rec (-1) t n end
          | None => rec (-1) t n
          end
      | Open path mode => fun k rec =>
          if openable path mode then match alloc (Opened path mode) t with Some (fd, t') => rec fd t' n | None => rec (-1) t n end
          else rec (-1) t n
      | Exec path argv => fun k rec => if executable path then ([Launch path argv t], n) else rec (-1) t n
      | _ => fun _ _ => ([], n)
      end k (fun y t n => run (k y) t n K)
  end.

Definition ends {R} (r : R) (t : table) (n : nat) : result := ([], n).

(** ** What a command line means *)

Definition std (i o e : handle) : table := [Some i; Some o; Some e] ++ replicate 13 None.

Section plan.
Context (buf : list Z).

Fixpoint plan (c : cmd) (i o e : handle) (n : nat) : result :=
  match c with
  | EXEC [] => ([Exits 1], n)
  | EXEC (((a, _) :: _) as args) =>
      if executable (str_at buf a) then ([Launch (str_at buf a) ((fun x => str_at buf x.1) <$> args) (std i o e)], n)
      else ([Exits 0], n)
  | REDIR c file _ mode fd =>
      let name := str_at buf file in
      if openable name mode then
        if fd =? 0 then plan c (Opened name mode) o e n else plan c i (Opened name mode) e n
      else ([Exits 1], n)
  | PIPE l r =>
      let '(first, n') := plan l i (WriteEnd n) e (S n) in
      let '(second, n'') := plan r (ReadEnd n) o e n' in
      ([Child first; Child second; Waited (std i o e); Waited (std i o e); Exits 0], n'')
  | LIST l r =>
      let '(first, n') := plan l i o e n in
      cons_act (Child first) (cons_act (Waited (std i o e)) (plan r i o e n'))
  | BACK c =>
      let '(child, n') := plan c i o e n in ([Child child; Exits 0], n')
  end.
End plan.

(** Redirections are of the standard input and output. *)
Fixpoint ok_cmd (c : cmd) : Prop :=
  match c with
  | EXEC _ => True
  | REDIR c _ _ _ fd => (fd = 0 \/ fd = 1) /\ ok_cmd c
  | PIPE l r | LIST l r => ok_cmd l /\ ok_cmd r
  | BACK c => ok_cmd c
  end.

(** ** Rules *)

Lemma run_bindp {R S} (p : prog R) (f : R -> prog S) : forall t n K, run (bindp p f) t n K = run p t n (fun r t n => run (f r) t n K).
Proof.
  induction p as [r|Y c k IH|]; intros t n K; cbn; [done| |done]. destruct c; try (by rewrite ?IH).
  - rewrite IH. destruct (run (k 0) t n _). by rewrite IH.
  - destruct (alloc (ReadEnd n) t) as [[p0 t1]|]; [|by rewrite IH]. destruct (alloc (WriteEnd n) t1) as [[p1 t2]|]; by rewrite IH.
  - destruct (openable path mode); [|by rewrite IH]. destruct (alloc _ t) as [[??]|]; by rewrite IH.
  - destruct (at_fd fd t); [|by rewrite IH]. destruct (alloc _ t) as [[??]|]; by rewrite IH.
Qed.

(** Programs that only write. *)
Definition quiet (p : prog unit) : Prop := forall t n K, run p t n K = K tt t n.

Lemma quiet_seq p q : quiet p -> quiet q -> quiet (p ;; q).
Proof. intros Hp Hq t n K. by rewrite run_bindp, Hp, Hq. Qed.
Lemma quiet_putc fd c : quiet (putc fd c).
Proof. done. Qed.
Lemma quiet_each fd l : quiet (each l (putc fd)).
Proof. induction l as [|c l IH]; [done|]. cbn [each]. by apply quiet_seq. Qed.
Lemma quiet_string fmt s fd : fmt ∈ [line "exec %s failed"; line "open %s failed"] -> quiet (fprintf fd fmt [VStr s]).
Proof.
  rewrite !elem_of_cons, elem_of_nil. intros [->|[->|[]]].
  all: match goal with |- quiet (fprintf _ (line ?f) _) => let b := eval vm_compute in (line f) in change (line f) with b end.
  all: unfold fprintf; cbn -[each putc]; repeat (apply quiet_seq; [first [apply quiet_each|apply quiet_putc]|]); done.
Qed.

(** *** The plumbing of runcmd() *)

Lemma run_fork1 {R} t n (f : Z -> prog R) K : 0 < pid -> run (bindp fork1 f) t n K =
  let '(child, n') := run (f 0) t n K in cons_act (Child child) (run (f pid) t n' K).
Proof.
  intros Hpid. rewrite run_bindp. cbn -[sh_panic]. destruct (run (f 0) t n K) as [child n']. by destruct (Z.eqb_spec pid (-1)); [lia|].
Qed.

(** A redirection takes the place of the descriptor it closes. *)
Lemma reopen_std i o e fd h : fd = 0 \/ fd = 1 -> alloc h (close_fd fd (std i o e)) = Some (fd, if fd =? 0 then std h o e else std i h e).
Proof. by intros [->| ->]. Qed.

(** The table after pipe(), in the children and in the parent. *)
Definition piped (i o e : handle) (k : nat) : table := [Some i; Some o; Some e; Some (ReadEnd k); Some (WriteEnd k)] ++ replicate 11 None.

Lemma run_pipe {R} i o e n (f : Z * (Z * Z) -> prog R) K : run (bindp (call Pipe) f) (std i o e) n K = run (f (0, (3, 4))) (piped i o e n) (S n) K.
Proof. done. Qed.
Lemma run_left {R} i o e k n (p : prog R) K : run (call (Close 1) ;; call (Dup 4) ;; call (Close 3) ;; call (Close 4) ;; p) (piped i o e k) n K = run p (std i (WriteEnd k) e) n K.
Proof. done. Qed.
Lemma run_right {R} i o e k n (p : prog R) K : run (call (Close 0) ;; call (Dup 3) ;; call (Close 3) ;; call (Close 4) ;; p) (piped i o e k) n K = run p (std (ReadEnd k) o e) n K.
Proof. done. Qed.

Lemma run_runcmd buf c : 0 < pid -> ok_cmd c -> forall i o e n K, run (runcmd buf c) (std i o e) n K = plan buf c i o e n.
Proof.
  intros Hpid. induction c as [args|c IH file efile mode fd|l IHl r IHr|l IHl r IHr|c IH]; intros Hok i o e n K; cbn [runcmd plan]; rewrite run_bindp.
  - destruct args as [|[a b] args]; [done|]. rewrite run_bindp. cbn [run call]. destruct (executable (str_at buf a)); [done|]. rewrite quiet_string; [done|set_solver].
  - destruct Hok as [Hfd Hok]. rewrite run_bindp. cbn [run call]. rewrite run_bindp. cbn [run call]. destruct (openable (str_at buf file) mode).
    + rewrite reopen_std by done. assert ((fd <? 0) = false) as -> by lia. destruct (fd =? 0); by apply IH.
    + cbn. rewrite run_bindp, quiet_string by set_solver. done.
  - destruct Hok as [Hl Hr]. rewrite run_pipe. cbv beta iota. change (0 <? 0) with false. cbv iota. rewrite run_fork1 by done. rewrite (run_bindp (if 0 =? 0 then _ else _)). cbn [Z.eqb].
    rewrite run_left, IHl by done. destruct (plan buf l i (WriteEnd n) e (S n)) as [first n1]. assert ((pid =? 0) = false) as -> by lia. cbn [bindp].
    rewrite run_fork1 by done. rewrite (run_bindp (if 0 =? 0 then _ else _)). cbn [Z.eqb]. rewrite run_right, IHr by done.
    destruct (plan buf r (ReadEnd n) o e n1) as [second n2]. assert ((pid =? 0) = false) as -> by lia. done.
  - destruct Hok as [Hl Hr]. rewrite run_fork1 by done. rewrite run_bindp. cbn [Z.eqb]. rewrite IHl by done. destruct (plan buf l i o e n) as [first n']. f_equal.
    destruct (Z.eqb_spec pid 0); [lia|]. cbn [bindp]. rewrite run_bindp. cbn [run call]. f_equal. by apply IHr.
  - rewrite run_fork1 by done. cbn [Z.eqb]. rewrite IH by done. destruct (plan buf c i o e n) as [child n']. destruct (Z.eqb_spec pid 0); [lia|]. done.
Qed.

End processes.

(** The parser redirects the standard input and output only. *)
Lemma redirs_ok_cmd rs : forall c, ok_cmd c -> ok_cmd (foldl tree_redir c rs).
Proof. induction rs as [|[op q eq] rs IH]; intros c Hc; [done|]. apply IH. cbn. destruct (op =? 60); cbn; tauto. Qed.

Lemma bg_ok_cmd bg c : ok_cmd c -> ok_cmd (Nat.iter bg BACK c).
Proof. intros Hc. by induction bg. Qed.

Lemma tree_ok_cmd l : ok_cmd (tree_line l).
Proof.
  revert l. apply (syn_line_mut (fun l => ok_cmd (tree_line l)) (fun p => ok_cmd (tree_pipe p)) (fun e => ok_cmd (tree_exec e))); cbn; intros; [| |done|by split| |].
  - by apply bg_ok_cmd.
  - split; [by apply bg_ok_cmd|done].
  - by apply redirs_ok_cmd.
  - by apply redirs_ok_cmd.
Qed.

(** ** Claim *)

(** C12: The shell runs what the line says.  For a line that parses, runcmd()
    in a process with only the standard descriptors open starts exactly the
    planned processes in the planned order: a pipeline connects the left
    command's output to the right command's input, redirections replace
    descriptor 0 or 1, [;] waits for the left command before the right one
    runs, [&] does not wait; and every program that is executed, and every
    process that waits, has exactly three open descriptors, with no end of a
    pipe left open.  fork() and wait() succeed. *)
Theorem runcmd_correct executable openable pid fuel s c buf i o e n K :
  Forall is_byte s -> 0 < pid -> parsecmd fuel s = Parsed (c, buf) ->
  run executable openable pid (runcmd buf c) (std i o e) n K = plan executable openable buf c i o e n.
Proof.
  intros Hs Hpid Hp. apply run_runcmd; [done|]. unfold parsecmd in Hp. destruct (parse_sound s Hs fuel) as (Hsnd & _). specialize (Hsnd 0 ltac:(lia)).
  destruct (parseline s _ fuel 0) as [[c' p]| | |]; cbn [bindr] in Hp; try done. destruct Hsnd as (l & _ & -> & _).
  destruct (peek s _ p []) as [b p']. destruct (p' =? _); cbn [negb] in Hp; [|done]. injection Hp as <- _. apply tree_ok_cmd.
Qed.

(** [(ls|wc) > out; cat < in &] *)
Lemma runcmd_correct_witness : exists c buf, parsecmd 104 sample_line = Parsed (c, buf) /\
  run (fun _ => true) (fun _ _ => true) 7 (runcmd buf c) (std (Std 0) (Std 1) (Std 2)) 0 (fun _ _ n => ([], n)) =
  ([Child [Child [Launch (text "ls") [text "ls"] (std (Std 0) (WriteEnd 0) (Std 2))];
           Child [Launch (text "wc") [text "wc"] (std (ReadEnd 0) (Opened (text "out") 513) (Std 2))]; Waited (std (Std 0) (Opened (text "out") 513) (Std 2)); Waited (std (Std 0) (Opened (text "out") 513) (Std 2)); Exits 0];
    Waited (std (Std 0) (Std 1) (Std 2));
    Child [Launch (text "cat") [text "cat"] (std (Opened (text "in") 0) (Std 1) (Std 2))]; Exits 0], 1%nat).
Proof.
  eexists _, _. split; [vm_compute; reflexivity|].
  rewrite (runcmd_correct (fun _ => true) (fun _ _ => true) 7 104 sample_line _ _ _ _ _ _ _ sample_bytes ltac:(lia) ltac:(vm_compute; reflexivity)). vm_compute. reflexivity.
Defined.

End ShellRun.
