(* ===== verification/Nsh.v ===== *)
(** * The small shell (user/nsh.c)

    The parser works on the bytes of the line, with pointers as offsets, like
    that of sh.c.  A command with ten words or more does not fit the arrays
    of struct execcmd: the code then writes past them, which is the outcome
    [Overflow].  A child that could not execute its program, or that ran a
    pipeline, returns from runcmd() and goes on as its parent would. *)

From S2P Require Import Prelude Bytes KState User Ulib Utils Shell ShellParse ShellRun.

Module Nsh.
Import User Ulib Utils.

Definition MAX_ARGV_LEN : nat := 10.

Inductive cmd :=
| EXEC (args : list (Z * Z))
| REDIR (c : cmd) (file efile fd mode : Z)
| PIPE (left right : cmd).

(** The constructors, with the fields their callers fill in. *)
Definition execcmd : cmd := EXEC [].
Definition pipecmd (left right : cmd) : cmd := PIPE left right.
Definition redircmd (c : cmd) (file efile fd mode : Z) : cmd := REDIR c file efile fd mode.

Inductive parsed (A : Type) := Parsed (a : A) | Overflow | NoFuel.
Arguments Parsed {_} _.
Arguments Overflow {_}.
Arguments NoFuel {_}.
Definition bindn {A B} (x : parsed A) (f : A -> parsed B) : parsed B :=
  match x with Parsed a => f a | Overflow => Overflow | NoFuel => NoFuel end.

(** ** Tokens *)

Definition WHITECHARS : list Z := [9; 10; 32].

(** [for(n = 0; s[n]; n++);] *)
Fixpoint my_strlen (s : list Z) : nat :=
  match s with [] => O | c :: s' => if c =? 0 then O else S (my_strlen s') end.

(** [my_strchr(s, c)] as a test. *)
Fixpoint my_strchr (s : list Z) (c : Z) : bool :=
  match s with [] => false | x :: s' => if x =? 0 then false else if x =? c then true else my_strchr s' c end.

Section parser.
Context (es : Z).

Fixpoint skip_loop (k : nat) (buf : list Z) (p : Z -> bool) (s : Z) : Z :=
  match k with
  | O => s
  | S k' => if p (getb buf s) then skip_loop k' buf p (s + 1) else s
  end.
(** [while(s < es && p( *s )) s++;] *)
Definition skip (buf : list Z) (p : Z -> bool) (s : Z) : Z := skip_loop (Z.to_nat (es - s)) buf p s.

(** The kind of the token, where it starts and ends, and the new position. *)
Definition gettoken (buf : list Z) (s : Z) : Z * Z * Z * Z :=
  let s := skip buf (my_strchr WHITECHARS) s in
  let q := s in
  let c := getb buf s in
  let '(ret, s) :=
    if c =? 0 then (c, s)
    else if bool_decide (c ∈ [124; 60; 62]) then (c, s + 1)
    else (97, skip buf (fun c => negb (my_strchr WHITECHARS c)) s) in
  let eq := s in
  (ret, q, eq, skip buf (my_strchr WHITECHARS) s).

Definition peek (buf : list Z) (s : Z) (toks : list Z) : bool * Z :=
  let s := skip buf (my_strchr WHITECHARS) s in
  (negb (getb buf s =? 0) && my_strchr toks (getb buf s), s).

(** ** Parsing *)

Definition parseredir (c : cmd) (buf : list Z) (s : Z) : cmd * Z :=
  let '(b, s) := peek buf s [60; 62] in
  if negb b then (c, s) else
  let '(tok, _, _, s) := gettoken buf s in
  let '(fd, mode) := if tok =? 60 then (0, O_RDONLY) else (1, Z.lor O_WRONLY O_CREATE) in
  let '(_, q, eq, s) := gettoken buf s in
  (redircmd c q eq fd mode, s).

(** [ec->argv[i] = q; ec->eargv[i] = eq], through the pointer to the EXEC node
    below the redirections. *)
Fixpoint add_arg (q eq : Z) (c : cmd) : cmd :=
  match c with
  | EXEC args => EXEC (args ++ [(q, eq)])
  | REDIR c file efile fd mode => REDIR (add_arg q eq c) file efile fd mode
  | PIPE _ _ => c
  end.

(** [while(!peek(&s, es, "|"))]; [i] words are stored. *)
Fixpoint words_loop (k : nat) (buf : list Z) (c : cmd) (i : nat) (s : Z) : parsed (cmd * nat * Z) :=
  match k with
  | O => NoFuel
  | S k' =>
      let '(b, s) := peek buf s [124] in
      if b then Parsed (c, i, s) else
      let '(tok, q, eq, s) := gettoken buf s in
      if tok =? 0 then Parsed (c, i, s) else
      if (MAX_ARGV_LEN <=? i)%nat then Overflow else
      let c := add_arg q eq c in
      let '(c, s) := parseredir c buf s in
      words_loop k' buf c (S i) s
  end.
End parser.

Fixpoint nulterminate (c : cmd) (buf : list Z) : list Z :=
  match c with
  | EXEC args => foldl (fun buf a => setb buf a.2 0) buf args
  | REDIR c _ efile _ _ => setb (nulterminate c buf) efile 0
  | PIPE l r => nulterminate r (nulterminate l buf)
  end.

(** parsecmd(s) and parsepipe(), with the buffer they terminate words in. *)
Fixpoint parsecmd (fuel : nat) (buf : list Z) (s : Z) : parsed (cmd * list Z) :=
  match fuel with
  | O => NoFuel
  | S fuel =>
      let es := s + Z.of_nat (my_strlen (drop (Z.to_nat s) buf)) in
      bindn (words_loop es (S (Z.to_nat (es - s))) buf execcmd 0 s) (fun '(c, i, s) =>
        let '(b, s) := peek es buf s [124] in
        bindn (if b then
                 let '(_, _, _, s) := gettoken es buf s in
                 bindn (parsecmd fuel buf s) (fun '(r, buf) => Parsed (pipecmd c r, buf))
               else Parsed (c, buf)) (fun '(ret, buf) =>
          if (MAX_ARGV_LEN <=? i)%nat then Overflow else Parsed (ret, nulterminate ret buf)))
  end.

(** ** Running *)

(** The string at address 0, which exec() is given as the path of a command
    without words. *)
Section commands.
Context (null : list Z).

Definition path_of (buf : list Z) (args : list (Z * Z)) : list Z :=
  match args with (a, _) :: _ => Shell.str_at buf a | [] => null end.

Fixpoint runcmd (buf : list Z) (c : cmd) : prog unit :=
  match c with
  | EXEC args =>
      call (Exec (path_of buf args) ((fun x => Shell.str_at buf x.1) <$> args)) ;;
      Ret tt
  | PIPE l r =>
      x <- call Pipe ;;
      let '(_, (p0, p1)) := x in
      pid <- call Fork ;;
      (if pid =? 0 then
         call (Close 1) ;; call (Dup p1) ;; call (Close p0) ;; call (Close p1) ;; runcmd buf l
       else Ret tt) ;;
      pid <- call Fork ;;
      (if pid =? 0 then
         call (Close 0) ;; call (Dup p0) ;; call (Close p1) ;; call (Close p0) ;; runcmd buf r
       else Ret tt) ;;
      call (Close p0) ;; call (Close p1) ;; call Wait ;; call Wait ;; Ret tt
  | REDIR c file _ fd mode =>
      call (Close fd) ;;
      r <- call (Open (Shell.str_at buf file) mode) ;;
      if r <? 0 then fprintf 2 (line "open %s failed") [VStr (Shell.str_at buf file)] ;; exit 1
      else runcmd buf c
  end.

(** One turn of the loop of main(): [inr] when it ends.  A line whose parse
    overflows the arrays is outside the model. *)
Definition turn (fuel : nat) : prog (unit + unit) :=
  printf (text "@ ") [] ;;
  b <- gets 1000 ;;
  let buf := Shell.c_str b in
  match buf with
  | [] => printf [10] [] ;; Ret (inr tt)
  | _ =>
      if bool_decide (buf = line "quit()") then printf (line "Exit nsh..") [] ;; Ret (inr tt)
      else
        pid <- call Fork ;;
        (if pid =? 0 then
           match parsecmd fuel (buf ++ [0]) 0 with
           | Parsed (c, buf) => runcmd buf c
           | _ => Fuel
           end
         else Ret tt) ;;
        call Wait ;;
        Ret (inl tt)
  end.

Definition main (fuel : nat) : prog unit :=
  Shell.open_console fuel ;;
  loop fuel (fun _ => turn fuel) tt ;;
  exit 1.

End commands.

(** ** What a pipeline starts *)

(** A command whose words are executable and whose files can be opened, and
    that is not itself a pipeline. *)
Fixpoint simple (c : cmd) : Prop :=
  match c with
  | EXEC (_ :: _) => True
  | REDIR c _ _ fd _ => (fd = 0 \/ fd = 1) /\ simple c
  | _ => False
  end.

Section run.
Context (null : list Z) (pid : Z) (Hpid : 0 < pid).
Abbreviation run := (ShellRun.run (fun _ => true) (fun _ _ => true) pid).

(** What it executes, with which descriptors. *)
Fixpoint launch (buf : list Z) (c : cmd) (i o e : ShellRun.handle) : list ShellRun.act :=
  match c with
  | EXEC args => [ShellRun.Launch (path_of null buf args) ((fun x => Shell.str_at buf x.1) <$> args) (ShellRun.std i o e)]
  | REDIR c file _ fd mode =>
      let h := ShellRun.Opened (Shell.str_at buf file) mode in
      if fd =? 0 then launch buf c h o e else launch buf c i h e
  | PIPE _ _ => []
  end.

Lemma run_simple buf c : simple c -> forall i o e n K, run (runcmd null buf c) (ShellRun.std i o e) n K = (launch buf c i o e, n).
Proof using Type.
  clear Hpid. induction c as [args|c IH file efile fd mode|l IHl r IHr]; intros Hc i o e n K; cbn [runcmd launch]; [|destruct Hc as [Hfd Hc]|done].
  - rewrite ShellRun.run_bindp. done.
  - rewrite ShellRun.run_bindp. cbn [ShellRun.run call]. rewrite ShellRun.run_bindp. cbn [ShellRun.run call].
    rewrite ShellRun.reopen_std by done. assert ((fd <? 0) = false) as -> by lia. destruct (fd =? 0); by apply IH.
Qed.

(** A pipeline of two commands runs both with the pipe between them, each
    with three descriptors only, waits for both, and then returns to its
    caller with the descriptors it had. *)
Lemma run_pipeline buf l r : simple l -> simple r -> forall i o e n K, run (runcmd null buf (PIPE l r)) (ShellRun.std i o e) n K =
  let '(rest, n') := K tt (ShellRun.std i o e) (S n) in
  ([ShellRun.Child (launch buf l i (ShellRun.WriteEnd n) e); ShellRun.Child (launch buf r (ShellRun.ReadEnd n) o e); ShellRun.Waited (ShellRun.std i o e); ShellRun.Waited (ShellRun.std i o e)] ++ rest, n').
Proof using Hpid.
  intros Hl Hr i o e n K. cbn [runcmd]. rewrite ShellRun.run_pipe. cbv beta iota.
  assert (Hf : forall (f : Z -> prog unit) t n K, run (bindp (call Fork) f) t n K = let '(child, n') := run (f 0) t n K in ShellRun.cons_act (ShellRun.Child child) (run (f pid) t n' K)).
  { intros f t m K'. rewrite ShellRun.run_bindp. cbn. done. }
  rewrite Hf. rewrite (ShellRun.run_bindp _ _ _ (if 0 =? 0 then _ else _)). cbn [Z.eqb]. rewrite ShellRun.run_left, run_simple by done. assert ((pid =? 0) = false) as -> by lia. cbn [bindp].
  rewrite Hf. rewrite (ShellRun.run_bindp _ _ _ (if 0 =? 0 then _ else _)). cbn [Z.eqb].
  change (run (call (Close 0) ;; call (Dup 3) ;; call (Close 4) ;; call (Close 3) ;; runcmd null buf r) (ShellRun.piped i o e n)) with (run (runcmd null buf r) (ShellRun.std (ShellRun.ReadEnd n) o e)).
  rewrite run_simple by done. assert ((pid =? 0) = false) as -> by lia. cbn [bindp].
  change (run (call (Close 3) ;; call (Close 4) ;; call Wait ;; call Wait ;; Ret tt) (ShellRun.piped i o e n) (S n) K)
    with (ShellRun.cons_act (ShellRun.Waited (ShellRun.std i o e)) (ShellRun.cons_act (ShellRun.Waited (ShellRun.std i o e)) (K tt (ShellRun.std i o e) (S n)))).
  by destruct (K tt (ShellRun.std i o e) (S n)).
Qed.
End run.

(** The words and redirections of a command, as strings. *)
Fixpoint shown (buf : list Z) (c : cmd) : list (list Z) * list (Z * list Z) :=
  match c with
  | EXEC args => ((fun x => Shell.str_at buf x.1) <$> args, [])
  | REDIR c file _ fd _ => let '(ws, rs) := shown buf c in (ws, (fd, Shell.str_at buf file) :: rs)
  | PIPE l _ => shown buf l
  end.
Definition parses_to (s : list Z) : option (list (list Z) * list (Z * list Z)) :=
  match parsecmd 100 (s ++ [0]) 0 with Parsed (c, buf) => Some (shown buf c) | _ => None end.

(** nsh takes one redirection after each word.  One is parsed as meant;
    a second one in a row, or one before the first word, is taken for words:
    the command is run with ">" and the file name as arguments. *)
Theorem nsh_redirections :
  parses_to (line "cat a > y") = Some ([text "cat"; text "a"], [(1, text "y")]) /\
  parses_to (line "cat < x > y") = Some ([text "cat"; text ">"; text "y"], [(0, text "x")]) /\
  parses_to (line "< x cat") = Some ([text "<"; text "x"; text "cat"], []).
Proof. split_and!; vm_compute; reflexivity. Qed.

(** Nine words fit a command of nsh; with the tenth the code writes past
    the arrays of struct execcmd, without a check. *)
Theorem nsh_ten_words :
  parses_to (line "a b c d e f g h i") = Some (text <$> ["a"; "b"; "c"; "d"; "e"; "f"; "g"; "h"; "i"], []) /\
  parsecmd 100 (line "a b c d e f g h i j" ++ [0]) 0 = Overflow.
Proof. split; vm_compute; reflexivity. Qed.

(** A pipeline of nsh.  runcmd() of two commands starts both with the
    pipe between them and three descriptors each, waits for both, and then
    returns to its caller instead of exiting: the child that main() forked
    for the line goes on as a second shell. *)
Theorem nsh_pipeline null pid buf l r i o e n K : 0 < pid -> simple l -> simple r ->
  ShellRun.run (fun _ => true) (fun _ _ => true) pid (runcmd null buf (PIPE l r)) (ShellRun.std i o e) n K =
  let '(rest, n') := K tt (ShellRun.std i o e) (S n) in
  ([ShellRun.Child (launch null buf l i (ShellRun.WriteEnd n) e); ShellRun.Child (launch null buf r (ShellRun.ReadEnd n) o e); ShellRun.Waited (ShellRun.std i o e); ShellRun.Waited (ShellRun.std i o e)] ++ rest, n').
Proof. intros Hp Hl Hr. by apply run_pipeline. Qed.

Lemma nsh_pipeline_witness : exists c buf, parsecmd 100 (line "ls | wc > out" ++ [0]) 0 = Parsed (c, buf) /\
  ShellRun.run (fun _ => true) (fun _ _ => true) 7 (runcmd [] buf c) (ShellRun.std (ShellRun.Std 0) (ShellRun.Std 1) (ShellRun.Std 2)) 0 (fun _ _ n => ([ShellRun.Exits 5], n)) =
  ([ShellRun.Child [ShellRun.Launch (text "ls") [text "ls"] (ShellRun.std (ShellRun.Std 0) (ShellRun.WriteEnd 0) (ShellRun.Std 2))];
    ShellRun.Child [ShellRun.Launch (text "wc") [text "wc"] (ShellRun.std (ShellRun.ReadEnd 0) (ShellRun.Opened (text "out") 513) (ShellRun.Std 2))];
    ShellRun.Waited (ShellRun.std (ShellRun.Std 0) (ShellRun.Std 1) (ShellRun.Std 2)); ShellRun.Waited (ShellRun.std (ShellRun.Std 0) (ShellRun.Std 1) (ShellRun.Std 2)); ShellRun.Exits 5], 1%nat).
Proof.
  eexists _, _. split; [vm_compute; reflexivity|]. rewrite (nsh_pipeline [] 7 _ _ _ (ShellRun.Std 0) (ShellRun.Std 1) (ShellRun.Std 2) 0 (fun _ _ n => ([ShellRun.Exits 5], n))); [vm_compute; reflexivity|lia|done|cbn; auto].
Defined.
End Nsh.
