(* ===== verification/Buddy.v ===== *)
(** * The buddy allocator (kernel/buddy.c)

    The allocator manages the memory from [bd_base] on in blocks of
    16 * 2^k bytes.  Its own data, the array bd_sizes with a list head and two
    pointers to bit vectors per size, lies at the start of that memory.

    The functions work on the memory and the static variables.  Of the lock
    the state has whether it is held: bd_malloc and bd_free run with it held,
    so each is one step for the other harts.  Of the console it has the
    messages bd_init prints. *)

From S2P Require Import Prelude Bytes CString KList.

Module Buddy.
Import KList.

(** ** State *)

(** The calls of printf, by their arguments. *)
Inductive message :=
| MSizes (memory nsizes : Z)
| MMeta (meta managed : Z)
| MUnavailable (unavailable : Z).

Record buddy := mkBuddy { bm : mem; nsizes : Z; bd_sizes : Z; bd_base : Z; locked : bool; printed : list message }.
Definition set_bm (v : mem) (b : buddy) : buddy := mkBuddy v (nsizes b) (bd_sizes b) (bd_base b) (locked b) (printed b).
Definition set_locked (v : bool) (b : buddy) : buddy := mkBuddy (bm b) (nsizes b) (bd_sizes b) (bd_base b) v (printed b).
Definition set_printed (v : list message) (b : buddy) : buddy := mkBuddy (bm b) (nsizes b) (bd_sizes b) (bd_base b) (locked b) v.
Abbreviation B := (M buddy).

(** Acquiring a lock that is held waits for another hart, which has no
    result here; releasing one that is not held is a panic. *)
Definition acquire : B unit :=
  l <- gets locked ;;
  if l then stuck "acquire" else modify (set_locked true).
Definition release : B unit :=
  l <- gets locked ;;
  if l then modify (set_locked false) else panic "release".
Definition printf (msg : message) : B unit := modify (fun b => set_printed (printed b ++ [msg]) b).

Definition LEAF_SIZE : Z := 16.
Definition MAXSIZE (b : buddy) : Z := nsizes b - 1.
Definition BLK_SIZE (k : Z) : Z := Z.shiftl 1 k * LEAF_SIZE.
Definition NBLK (b : buddy) (k : Z) : Z := Z.shiftl 1 (MAXSIZE b - k).
Definition ROUNDUP (n sz : Z) : Z := ((n - 1) / sz + 1) * sz.

(** struct sz_info: the list head, alloc and split. *)
Definition sz_info : Z := 32.
Definition free_list (b : buddy) (k : Z) : Z := bd_sizes b + sz_info * k.
Definition alloc_of (b : buddy) (k : Z) : Z := ld64 (bm b) (bd_sizes b + sz_info * k + 16).
Definition split_of (b : buddy) (k : Z) : Z := ld64 (bm b) (bd_sizes b + sz_info * k + 24).
Definition set_alloc (b : buddy) (k v : Z) : buddy := set_bm (st64 (bm b) (bd_sizes b + sz_info * k + 16) v) b.
Definition set_split (b : buddy) (k v : Z) : buddy := set_bm (st64 (bm b) (bd_sizes b + sz_info * k + 24) v) b.

(** ** Bit vectors *)

Definition bit_isset (m : mem) (array index : Z) : bool :=
  let b := getb m (array + index / 8) in
  let v := u8 (Z.shiftl 1 (index mod 8)) in
  Z.land b v =? v.

Definition bit_set (m : mem) (array index : Z) : mem :=
  let b := getb m (array + index / 8) in
  let v := u8 (Z.shiftl 1 (index mod 8)) in
  setb m (array + index / 8) (Z.lor b v).

Definition bit_clear (m : mem) (array index : Z) : mem :=
  let b := getb m (array + index / 8) in
  let v := u8 (Z.shiftl 1 (index mod 8)) in
  setb m (array + index / 8) (Z.land b (Z.lnot v)).

(** ** Sizes and addresses *)

(** [while (size < n) { k++; size *= 2; }] *)
Fixpoint firstk_loop (fuel : nat) (k size n : Z) : option Z :=
  if size <? n then
    match fuel with
    | O => None
    | S fuel => firstk_loop fuel (k + 1) (u64 (size * 2)) n
    end
  else Some k.
Definition firstk (fuel : nat) (n : Z) : option Z := firstk_loop fuel 0 LEAF_SIZE n.

(** [while (n > 1) { k++; n = n >> 1; }] *)
Fixpoint log2_loop (fuel : nat) (k n : Z) : option Z :=
  if 1 <? n then
    match fuel with
    | O => None
    | S fuel => log2_loop fuel (k + 1) (Z.shiftr n 1)
    end
  else Some k.
Definition log2 (n : Z) : option Z := log2_loop 64 0 n.

Definition blk_index (b : buddy) (k p : Z) : Z :=
  let n := s32 (p - bd_base b) in
  s32 (Z.quot n (BLK_SIZE k)).

Definition blk_index_next (b : buddy) (k p : Z) : Z :=
  let n := s32 (Z.quot (p - bd_base b) (BLK_SIZE k)) in
  if negb (Z.rem (p - bd_base b) (BLK_SIZE k) =? 0) then n + 1 else n.

Definition addr (b : buddy) (k bi : Z) : Z :=
  let n := s32 (bi * BLK_SIZE k) in
  bd_base b + n.

Definition buddy_of (bi : Z) : Z := if bi mod 2 =? 0 then bi + 1 else bi - 1.

(** ** Allocation *)

Definition upd (f : mem -> mem) : B unit := modify (fun b => set_bm (f (bm b)) b).
Definition set_alloc_bit (k bi : Z) : B unit := modify (fun b => set_bm (bit_set (bm b) (alloc_of b k) bi) b).
Definition clear_alloc_bit (k bi : Z) : B unit := modify (fun b => set_bm (bit_clear (bm b) (alloc_of b k) bi) b).
Definition set_split_bit (k bi : Z) : B unit := modify (fun b => set_bm (bit_set (bm b) (split_of b k) bi) b).
Definition clear_split_bit (k bi : Z) : B unit := modify (fun b => set_bm (bit_clear (bm b) (split_of b k) bi) b).
Definition alloc_isset (b : buddy) (k bi : Z) : bool := bit_isset (bm b) (alloc_of b k) bi.
Definition split_isset (b : buddy) (k bi : Z) : bool := bit_isset (bm b) (split_of b k) bi.
Definition push (k p : Z) : B unit := modify (fun b => set_bm (lst_push (bm b) (free_list b k) p) b).

Definition pop (k : Z) : B Z :=
  b <- gets id ;;
  match lst_pop (bm b) (free_list b k) with
  | None => panic "lst_pop"
  | Some (p, m) => upd (fun _ => m) ;; ret p
  end.

(** The first size from [k] on with a free block. *)
Definition find_free (b : buddy) (fk : Z) : B Z :=
  loop (S (S (Z.to_nat (nsizes b)))) (fun k =>
    if k <? nsizes b then
      e <- gets (fun b => lst_empty (bm b) (free_list b k)) ;;
      if e then ret (inl (k + 1)) else ret (inr k)
    else ret (inr k)) fk.

(** [for(; k > fk; k--)]: split the block [p] of size [k]. *)
Definition split_down (b : buddy) (fk p k : Z) : B unit :=
  loop (S (Z.to_nat (nsizes b))) (fun k =>
    if fk <? k then
      let q := p + BLK_SIZE (k - 1) in
      set_split_bit k (blk_index b k p) ;;
      set_alloc_bit (k - 1) (blk_index b (k - 1) p) ;;
      push (k - 1) q ;;
      ret (inl (k - 1))
    else ret (inr tt)) k.

(** What bd_malloc() does between acquire() and release(). *)
Definition malloc_locked (fuel : nat) (nbytes : Z) : B Z :=
  match firstk fuel nbytes with
  | None => stuck "firstk"
  | Some fk =>
      b <- gets id ;;
      k <- find_free b fk ;;
      if nsizes b <=? k then ret 0
      else
        p <- pop k ;;
        set_alloc_bit k (blk_index b k p) ;;
        split_down b fk p k ;;
        ret p
  end.

Definition bd_malloc (fuel : nat) (nbytes : Z) : B Z :=
  acquire ;;
  p <- malloc_locked fuel nbytes ;;
  release ;;
  ret p.

(** ** Freeing *)

(** The size of the block that p points to. *)
Definition size (p : Z) : B Z :=
  b <- gets id ;;
  r <- for_each (seqZ 0 (nsizes b)) (fun k =>
         ret (if split_isset b (k + 1) (blk_index b (k + 1) p) then Some k else None)) ;;
  ret (default 0 r).

(** What bd_free() does between acquire() and release(). *)
Definition free_locked (p : Z) : B unit :=
  b <- gets id ;;
  k <- size p ;;
  r <- loop (S (Z.to_nat (nsizes b))) (fun '(p, k) =>
         if k <? MAXSIZE b then
           let bi := blk_index b k p in
           let buddy := buddy_of bi in
           clear_alloc_bit k bi ;;
           a <- gets (fun b => alloc_isset b k buddy) ;;
           if a then ret (inr (p, k))
           else
             let q := addr b k buddy in
             upd (fun m => lst_remove m q) ;;
             let p := if buddy mod 2 =? 0 then q else p in
             clear_split_bit (k + 1) (blk_index b (k + 1) p) ;;
             ret (inl (p, k + 1))
         else ret (inr (p, k))) (p, k) ;;
  push r.2 r.1.

Definition bd_free (p : Z) : B unit :=
  acquire ;;
  free_locked p ;;
  release.

(** ** Initialisation *)

(** Mark memory from [start, stop) as allocated. *)
Definition bd_mark (start stop : Z) : B unit :=
  if negb (u64 start mod LEAF_SIZE =? 0) || negb (u64 stop mod LEAF_SIZE =? 0) then panic "bd_mark" else
  b <- gets id ;;
  iter_each (seqZ 0 (nsizes b)) (fun k =>
    let bi := blk_index b k start in
    let bj := blk_index_next b k stop in
    iter_each (seqZ bi (bj - bi)) (fun bi =>
      when (0 <? k) (set_split_bit k bi) ;;
      set_alloc_bit k bi)).

Definition bd_initfree_pair (k bi : Z) : B Z :=
  let buddy := buddy_of bi in
  b <- gets id ;;
  if negb (Bool.eqb (alloc_isset b k bi) (alloc_isset b k buddy)) then
    (if alloc_isset b k bi then push k (addr b k buddy) else push k (addr b k bi)) ;;
    ret (s32 (BLK_SIZE k))
  else ret 0.

Definition bd_initfree (bd_left bd_right : Z) : B Z :=
  b <- gets id ;;
  loop (S (Z.to_nat (nsizes b))) (fun '(k, free) =>
    if k <? MAXSIZE b then
      let left := blk_index_next b k bd_left in
      let right := blk_index b k bd_right in
      f <- bd_initfree_pair k left ;;
      if right <=? left then ret (inl (k + 1, s32 (free + f)))
      else
        g <- bd_initfree_pair k right ;;
        ret (inl (k + 1, s32 (s32 (free + f) + g)))
    else ret (inr free)) (0, 0).

Definition bd_mark_data_structures (p : Z) : B Z :=
  b <- gets id ;;
  let meta := s32 (p - bd_base b) in
  printf (MMeta meta (BLK_SIZE (MAXSIZE b))) ;;
  bd_mark (bd_base b) p ;;
  ret meta.

Definition bd_mark_unavailable (end_ left : Z) : B Z :=
  b <- gets id ;;
  let unavailable := s32 (BLK_SIZE (MAXSIZE b) - (end_ - bd_base b)) in
  let unavailable := if 0 <? unavailable then ROUNDUP unavailable LEAF_SIZE else unavailable in
  printf (MUnavailable unavailable) ;;
  let bd_end := bd_base b + BLK_SIZE (MAXSIZE b) - unavailable in
  bd_mark bd_end (bd_base b + BLK_SIZE (MAXSIZE b)) ;;
  ret unavailable.

(** The bytes of a bit vector for size [k]. *)
Definition vector_size (b : buddy) (k : Z) : Z := ROUNDUP (NBLK b k) 8 / 8.

(** The list heads and the vectors alloc, from [p] on. *)
Definition init_alloc (p : Z) : B Z :=
  b <- gets id ;;
  loop (S (Z.to_nat (nsizes b))) (fun '(k, p) =>
    if k <? nsizes b then
      modify (fun b => set_bm (lst_init (bm b) (free_list b k)) b) ;;
      let sz := vector_size b k in
      modify (fun b => set_alloc b k p) ;;
      upd (fun m => CString.memset m p 0 sz) ;;
      ret (inl (k + 1, p + sz))
    else ret (inr p)) (0, p).

(** The vectors split. *)
Definition init_split (p : Z) : B Z :=
  b <- gets id ;;
  loop (S (Z.to_nat (nsizes b))) (fun '(k, p) =>
    if k <? nsizes b then
      let sz := vector_size b k in
      modify (fun b => set_split b k p) ;;
      upd (fun m => CString.memset m p 0 sz) ;;
      ret (inl (k + 1, p + sz))
    else ret (inr p)) (1, p).

Definition bd_init (base end_ : Z) : B unit :=
  let p := ROUNDUP base LEAF_SIZE in
  match log2 (u64 (Z.quot (end_ - p) LEAF_SIZE)) with
  | None => stuck "log2"
  | Some k =>
      let nsizes := k + 1 in
      let nsizes := if BLK_SIZE (nsizes - 1) <? end_ - p then nsizes + 1 else nsizes in
      modify (fun b => mkBuddy (bm b) nsizes p p false (printed b)) ;;
      printf (MSizes (end_ - p) nsizes) ;;
      upd (fun m => CString.memset m p 0 (sz_info * nsizes)) ;;
      p <- init_alloc (p + sz_info * nsizes) ;;
      p <- init_split p ;;
      let p := ROUNDUP p LEAF_SIZE in
      meta <- bd_mark_data_structures p ;;
      unavailable <- bd_mark_unavailable end_ p ;;
      b <- gets id ;;
      let bd_end := bd_base b + BLK_SIZE (MAXSIZE b) - unavailable in
      free <- bd_initfree p bd_end ;;
      if negb (free =? BLK_SIZE (MAXSIZE b) - meta - unavailable) then panic "bd_init: free mem" else ret tt
  end.

(** ** Printing *)

(** The ranges of set bits bd_print_vector() prints. *)
Definition bd_print_vector (m : mem) (vector len : Z) : list (Z * Z) :=
  let '(out, lb, last) :=
    foldl (fun '(out, lb, last) b =>
      if Bool.eqb last (bit_isset m vector b) then (out, lb, last)
      else ((if last then out ++ [(lb, b)] else out), b, bit_isset m vector b)) ([], 0, true) (seqZ 0 len) in
  if (lb =? 0) || last then out ++ [(lb, len)] else out.

(** What bd_print() shows of each size: its free list, alloc and split. *)
Definition bd_print (fuel : nat) (b : buddy) : list (option (list Z) * list (Z * Z) * list (Z * Z)) :=
  (fun k => (lst_print fuel (bm b) (free_list b k) (next (bm b) (free_list b k)),
             bd_print_vector (bm b) (alloc_of b k) (NBLK b k),
             if 0 <? k then bd_print_vector (bm b) (split_of b k) (NBLK b k) else [])) <$> seqZ 0 (nsizes b).

End Buddy.
