(* ===== verification/BuddyMem.v ===== *)
(** * The buddy allocator's data in memory (kernel/buddy.c)

    [mem_ok] relates the memory to what the allocator keeps in it: two bits
    per block and a free list per size.  The vectors, the list heads and the
    free blocks do not overlap ([geo]), so each operation of buddy.c on a bit
    or a list changes exactly that bit or that list. *)

From S2P Require Import Prelude Bytes CString KList Buddy.

Module BuddyMem.
Import KList Buddy.

(** ** Sizes *)

Lemma BLK_SIZE_eq k : 0 <= k -> BLK_SIZE k = 16 * 2 ^ k.
Proof. intros Hk. unfold BLK_SIZE, LEAF_SIZE. rewrite Z.shiftl_1_l. lia. Qed.

Lemma BLK_SIZE_succ k : 0 <= k -> BLK_SIZE (k + 1) = 2 * BLK_SIZE k.
Proof. intros Hk. rewrite !BLK_SIZE_eq by lia. rewrite Z.pow_add_r by lia. lia. Qed.

Lemma BLK_SIZE_pos k : 0 <= k -> 16 <= BLK_SIZE k.
Proof. intros Hk. rewrite BLK_SIZE_eq by lia. pose proof (Z.pow_pos_nonneg 2 k). lia. Qed.

Lemma BLK_SIZE_mul k j : 0 <= k <= j -> BLK_SIZE j = 2 ^ (j - k) * BLK_SIZE k.
Proof.
  intros Hk. rewrite !BLK_SIZE_eq by lia. replace (2 ^ j) with (2 ^ (j - k) * 2 ^ k); [lia|]. rewrite <-Z.pow_add_r by lia. f_equal. lia.
Qed.
Lemma BLK_SIZE_31 k : 0 <= k <= 27 -> BLK_SIZE k <= 2 ^ 31.
Proof. intros Hk. rewrite BLK_SIZE_eq by lia. change (2 ^ 31) with (16 * 2 ^ 27). pose proof (Z.pow_le_mono_r 2 k 27 ltac:(lia) ltac:(lia)). lia. Qed.
Lemma BLK_SIZE_int k : 0 <= k < 27 -> - 2 ^ 31 <= BLK_SIZE k < 2 ^ 31.
Proof. intros Hk. pose proof (BLK_SIZE_31 (k + 1) ltac:(lia)) as H. rewrite BLK_SIZE_succ in H by lia. pose proof (BLK_SIZE_pos k ltac:(lia)). lia. Qed.

(** ** Bits *)

Lemma bit_isset_testbit m a i : 0 <= i -> bit_isset m a i = Z.testbit (getb m (a + i / 8)) (i mod 8).
Proof.
  intros Hi. pose proof (Z.mod_pos_bound i 8 ltac:(lia)) as Hm. unfold bit_isset. rewrite Z.shiftl_1_l.
  set (b := getb m (a + i / 8)). set (j := i mod 8) in *.
  assert (Hp : u8 (2 ^ j) = 2 ^ j).
  { apply u8_small. split; [apply Z.pow_nonneg; lia|]. change 256 with (2 ^ 8). apply Z.pow_lt_mono_r; lia. }
  rewrite Hp. destruct (Z.testbit b j) eqn:E.
  - apply Z.eqb_eq, Z.bits_inj'. intros n Hn. rewrite Z.land_spec. destruct (decide (n = j)) as [->|Hne]; [by rewrite E, Z.pow2_bits_true by lia|].
    by rewrite Z.pow2_bits_false, andb_false_r by done.
  - apply Z.eqb_neq. intros Hz. apply (f_equal (fun v => Z.testbit v j)) in Hz. by rewrite Z.land_spec, Z.pow2_bits_true, E in Hz by lia.
Qed.

Lemma u8_testbit' v j : 0 <= j < 8 -> Z.testbit (u8 v) j = Z.testbit v j.
Proof. intros Hj. unfold u8. by rewrite Z.mod_pow2_bits_low by lia. Qed.

Lemma u8_pow2 i : u8 (Z.shiftl 1 (i mod 8)) = 2 ^ (i mod 8).
Proof.
  pose proof (Z.mod_pos_bound i 8 ltac:(lia)) as Hm. rewrite Z.shiftl_1_l. apply u8_small. split; [apply Z.pow_nonneg; lia|].
  change 256 with (2 ^ 8). apply Z.pow_lt_mono_r; lia.
Qed.

Lemma bit_index i j : i / 8 = j / 8 -> i mod 8 = j mod 8 -> i = j.
Proof. intros H1 H2. rewrite (Z.div_mod i 8), (Z.div_mod j 8) by lia. congruence. Qed.

Lemma isset_bit_set m a i j : 0 <= i -> 0 <= j -> bit_isset (bit_set m a i) a j = if bool_decide (j = i) then true else bit_isset m a j.
Proof.
  intros Hi Hj. rewrite !bit_isset_testbit by done. pose proof (Z.mod_pos_bound i 8 ltac:(lia)). pose proof (Z.mod_pos_bound j 8 ltac:(lia)).
  unfold bit_set. rewrite u8_pow2. destruct (decide (j / 8 = i / 8)) as [E|E].
  - rewrite E, getb_setb_eq by done. rewrite u8_testbit', Z.lor_spec by lia. case_bool_decide as Eij.
    + subst. by rewrite Z.pow2_bits_true, orb_true_r by lia.
    + rewrite Z.pow2_bits_false, orb_false_r by (intros E'; apply Eij; by apply bit_index). done.
  - rewrite getb_setb_ne by lia. by rewrite bool_decide_false by congruence.
Qed.

Lemma isset_bit_clear m a i j : 0 <= i -> 0 <= j -> bit_isset (bit_clear m a i) a j = if bool_decide (j = i) then false else bit_isset m a j.
Proof.
  intros Hi Hj. rewrite !bit_isset_testbit by done. pose proof (Z.mod_pos_bound i 8 ltac:(lia)). pose proof (Z.mod_pos_bound j 8 ltac:(lia)).
  unfold bit_clear. rewrite u8_pow2. destruct (decide (j / 8 = i / 8)) as [E|E].
  - rewrite E, getb_setb_eq by done. rewrite u8_testbit', Z.land_spec, Z.lnot_spec by lia. case_bool_decide as Eij.
    + subst. by rewrite Z.pow2_bits_true, andb_false_r by lia.
    + rewrite Z.pow2_bits_false, andb_true_r by (intros E'; apply Eij; by apply bit_index). done.
  - rewrite getb_setb_ne by lia. by rewrite bool_decide_false by congruence.
Qed.

Lemma isset_ext m m' a i : getb m' (a + i / 8) = getb m (a + i / 8) -> bit_isset m' a i = bit_isset m a i.
Proof. intros E. unfold bit_isset. by rewrite E. Qed.

Lemma getb_bit_set m a i x : x <> a + i / 8 -> getb (bit_set m a i) x = getb m x.
Proof. intros Hx. unfold bit_set. apply getb_setb_ne. lia. Qed.
Lemma getb_bit_clear m a i x : x <> a + i / 8 -> getb (bit_clear m a i) x = getb m x.
Proof. intros Hx. unfold bit_clear. apply getb_setb_ne. lia. Qed.

(** ** The layout *)

(** The number of sizes less one, where the memory starts, how many bytes of
    it the allocator keeps for itself, and the places of the vectors. *)
Record geo := mkGeo { top : Z; base : Z; meta : Z; al : Z -> Z; sp : Z -> Z }.

Definition nblk (g : geo) (k : Z) : Z := 2 ^ (top g - k).
Definition heap (g : geo) : Z := BLK_SIZE (top g).
Definition vsize (g : geo) (k : Z) : Z := (nblk g k + 7) / 8.
Definition level (g : geo) (k : Z) : Prop := 0 <= k <= top g.
Definition block (g : geo) (k i : Z) : Prop := level g k /\ 0 <= i < nblk g k.

Record geo_ok (g : geo) : Prop := {
  gk_top : 0 < top g <= 27;
  gk_base : base g mod 16 = 0 /\ 0 < base g /\ base g + heap g < 2 ^ 63;
  gk_meta : meta g mod 16 = 0 /\ 0 < meta g <= heap g;
  gk_al : forall k, level g k -> base g + 32 * (top g + 1) <= al g k /\ al g k + vsize g k <= base g + meta g;
  gk_sp : forall k, level g k -> 0 < k -> base g + 32 * (top g + 1) <= sp g k /\ sp g k + vsize g k <= base g + meta g;
  gk_al_al : forall k k', level g k -> level g k' -> k <> k' -> al g k + vsize g k <= al g k' \/ al g k' + vsize g k' <= al g k;
  gk_sp_sp : forall k k', level g k -> level g k' -> 0 < k -> 0 < k' -> k <> k' -> sp g k + vsize g k <= sp g k' \/ sp g k' + vsize g k' <= sp g k;
  gk_al_sp : forall k k', level g k -> level g k' -> 0 < k' -> al g k + vsize g k <= sp g k' \/ sp g k' + vsize g k' <= al g k
}.

Definition head_of (g : geo) (k : Z) : Z := base g + 32 * k.

(** A place for a list node: a 16-byte unit of the heap outside the metadata. *)
Definition unit_of (g : geo) (a : Z) : Prop := base g + meta g <= a /\ a + 16 <= base g + heap g /\ a mod 16 = 0.

Definition in_meta (g : geo) (x : Z) : Prop := base g <= x < base g + meta g.

Record mem_ok (g : geo) (m : mem) (A S : Z -> Z -> bool) (L : Z -> list Z) : Prop := {
  mo_al : forall k, level g k -> ld64 m (head_of g k + 16) = al g k;
  mo_sp : forall k, level g k -> 0 < k -> ld64 m (head_of g k + 24) = sp g k;
  mo_abit : forall k i, block g k i -> bit_isset m (al g k) i = A k i;
  mo_sbit : forall k i, block g k i -> 0 < k -> bit_isset m (sp g k) i = S k i;
  mo_list : forall k, level g k -> dll m (head_of g k) (L k);
  mo_unit : forall k a, level g k -> a ∈ L k -> unit_of g a;
  mo_apart : forall k k' a, level g k -> level g k' -> a ∈ L k -> a ∈ L k' -> k = k'
}.

Section ops.
Context (g : geo) (Hg : geo_ok g).
Implicit Types (m : mem) (A S : Z -> Z -> bool) (L : Z -> list Z).

Lemma nblk_pos k : level g k -> 0 < nblk g k.
Proof using Type. unfold level, nblk. intros Hk. apply Z.pow_pos_nonneg; lia. Qed.

Lemma bit_byte k i : block g k i -> 0 <= i / 8 < vsize g k.
Proof using Type.
  intros [Hk Hi]. unfold vsize. split; [apply Z.div_pos; lia|]. apply Z.div_lt_upper_bound; [lia|].
  pose proof (Z.div_mod (nblk g k + 7) 8 ltac:(lia)). pose proof (Z.mod_pos_bound (nblk g k + 7) 8 ltac:(lia)). lia.
Qed.

Lemma vsize_pos k : level g k -> 0 < vsize g k.
Proof using Type. intros Hk. pose proof (nblk_pos k Hk). pose proof (bit_byte k 0 ltac:(split; [done|lia])). lia. Qed.

Lemma al_byte k i : block g k i -> base g + 32 * (top g + 1) <= al g k + i / 8 < base g + meta g.
Proof using Hg. intros Hb. pose proof (bit_byte k i Hb). pose proof (gk_al _ Hg k ltac:(apply Hb)). lia. Qed.
Lemma sp_byte k i : block g k i -> 0 < k -> base g + 32 * (top g + 1) <= sp g k + i / 8 < base g + meta g.
Proof using Hg. intros Hb H0. pose proof (bit_byte k i Hb). pose proof (gk_sp _ Hg k ltac:(apply Hb) H0). lia. Qed.

Lemma top_meta : 32 * (top g + 1) < meta g.
Proof using Hg.
  pose proof (gk_top _ Hg). pose proof (al_byte 0 0). assert (Hb : block g 0 0) by (split; [unfold level; lia|pose proof (nblk_pos 0 ltac:(unfold level; lia)); lia]).
  specialize (H0 Hb). lia.
Qed.

(** Changing one byte of a vector. *)
Lemma mem_ok_byte m A S L m' (x : Z) : mem_ok g m A S L -> base g + 32 * (top g + 1) <= x < base g + meta g ->
  (forall y, y <> x -> getb m' y = getb m y) ->
  (forall k, level g k -> ld64 m' (head_of g k + 16) = al g k) /\ (forall k, level g k -> 0 < k -> ld64 m' (head_of g k + 24) = sp g k) /\
  (forall k, level g k -> dll m' (head_of g k) (L k)).
Proof using Hg.
  intros [M1 M2 _ _ M5 M6 _] Hx Hs. pose proof (gk_top _ Hg). split_and!.
  - intros k Hk. rewrite <-(M1 k Hk). apply ldn_ext. intros y Hy. apply Hs. unfold head_of, level in *. cbn in Hy. lia.
  - intros k Hk H0. rewrite <-(M2 k Hk H0). apply ldn_ext. intros y Hy. apply Hs. unfold head_of, level in *. cbn in Hy. lia.
  - intros k Hk. apply (dll_ext m); [|by apply M5]. intros e y He Hy. apply Hs. unfold in_node in Hy. apply elem_of_cons in He as [->|He].
    + unfold head_of, level in *. lia.
    + apply M6 in He as (H1 & H2 & _); [lia|done].
Qed.

Definition upd2 {T} (F : Z -> Z -> T) (k i : Z) (v : T) : Z -> Z -> T :=
  fun k' i' => if bool_decide (k' = k /\ i' = i) then v else F k' i'.
Definition upd1 {T} (F : Z -> T) (k : Z) (v : T) : Z -> T := fun k' => if bool_decide (k' = k) then v else F k'.

Lemma upd2_eq {T} (F : Z -> Z -> T) k i v : upd2 F k i v k i = v.
Proof using Type. unfold upd2. by rewrite bool_decide_true. Qed.
Lemma upd2_ne {T} (F : Z -> Z -> T) k i v k' i' : k' <> k \/ i' <> i -> upd2 F k i v k' i' = F k' i'.
Proof using Type. intros Hne. unfold upd2. rewrite bool_decide_false; [done|]. lia. Qed.

(** The bits of the vectors after a change of byte [i / 8] of one of them. *)
Lemma other_abit m m' k i x : block g k i -> x <> al g k + i / 8 -> (forall y, y <> x -> getb m' y = getb m y) ->
  bit_isset m' (al g k) i = bit_isset m (al g k) i.
Proof using Type. intros Hb Hx Hs. apply isset_ext, Hs. lia. Qed.

Lemma mem_ok_abit m A S L k i v m' : mem_ok g m A S L -> block g k i ->
  (forall y, y <> al g k + i / 8 -> getb m' y = getb m y) ->
  (forall j, 0 <= j -> bit_isset m' (al g k) j = if bool_decide (j = i) then v else bit_isset m (al g k) j) ->
  mem_ok g m' (upd2 A k i v) S L.
Proof using Hg.
  intros M Hb Hs Hv. destruct (mem_ok_byte m A S L m' _ M (al_byte k i Hb) Hs) as (N1 & N2 & N3). destruct M as [M1 M2 M3 M4 M5 M6 M7].
  pose proof (bit_byte k i Hb) as Hbi. split; try done.
  - intros k' i' Hb'. unfold upd2. pose proof (bit_byte k' i' Hb') as Hbi'. destruct (decide (k' = k)) as [->|Hne].
    + rewrite Hv by apply Hb'. case_bool_decide as E; [by rewrite bool_decide_true|]. rewrite bool_decide_false by tauto. by apply M3.
    + rewrite bool_decide_false by tauto. rewrite <-(M3 k' i' Hb'). apply isset_ext, Hs. pose proof (gk_al_al _ Hg k k' ltac:(apply Hb) ltac:(apply Hb') ltac:(done)). lia.
  - intros k' i' Hb' H0. rewrite <-(M4 k' i' Hb' H0). apply isset_ext, Hs. pose proof (bit_byte k' i' Hb'). pose proof (gk_al_sp _ Hg k k' ltac:(apply Hb) ltac:(apply Hb') H0). lia.
Qed.

Lemma mem_ok_sbit m A S L k i v m' : mem_ok g m A S L -> block g k i -> 0 < k ->
  (forall y, y <> sp g k + i / 8 -> getb m' y = getb m y) ->
  (forall j, 0 <= j -> bit_isset m' (sp g k) j = if bool_decide (j = i) then v else bit_isset m (sp g k) j) ->
  mem_ok g m' A (upd2 S k i v) L.
Proof using Hg.
  intros M Hb H0 Hs Hv. destruct (mem_ok_byte m A S L m' _ M (sp_byte k i Hb H0) Hs) as (N1 & N2 & N3). destruct M as [M1 M2 M3 M4 M5 M6 M7].
  pose proof (bit_byte k i Hb) as Hbi. split; try done.
  - intros k' i' Hb'. rewrite <-(M3 k' i' Hb'). apply isset_ext, Hs. pose proof (bit_byte k' i' Hb'). pose proof (gk_al_sp _ Hg k' k ltac:(apply Hb') ltac:(apply Hb) H0). lia.
  - intros k' i' Hb' H0'. unfold upd2. pose proof (bit_byte k' i' Hb') as Hbi'. destruct (decide (k' = k)) as [->|Hne].
    + rewrite Hv by apply Hb'. case_bool_decide as E; [by rewrite bool_decide_true|]. rewrite bool_decide_false by tauto. by apply M4.
    + rewrite bool_decide_false by tauto. rewrite <-(M4 k' i' Hb' H0'). apply isset_ext, Hs. pose proof (gk_sp_sp _ Hg k k' ltac:(apply Hb) ltac:(apply Hb') H0 H0' ltac:(done)). lia.
Qed.

(** ** Lists *)

Lemma unit_far a b : unit_of g a -> unit_of g b -> a <> b -> far a b.
Proof using Type.
  intros (_ & _ & Ha) (_ & _ & Hb) Hne. unfold far. pose proof (Z.div_mod a 16 ltac:(lia)). pose proof (Z.div_mod b 16 ltac:(lia)). lia.
Qed.
Lemma unit_head a k : unit_of g a -> level g k -> far a (head_of g k).
Proof using Hg. intros (H1 & _ & _) Hk. pose proof top_meta. unfold far, head_of, level in *. lia. Qed.
Lemma unit_node a : unit_of g a -> node a.
Proof using Hg. intros (H1 & H2 & _). pose proof (gk_base _ Hg). pose proof (gk_meta _ Hg). unfold node. lia. Qed.
Lemma head_far k k' : level g k -> level g k' -> k <> k' -> far (head_of g k) (head_of g k').
Proof using Type. unfold far, head_of, level. lia. Qed.

(** A change of list [k], made of nodes of the list and one more. *)
Lemma mem_ok_list m A S L k l m' : mem_ok g m A S L -> level g k -> dll m' (head_of g k) l ->
  (forall a, a ∈ l -> unit_of g a /\ forall k', level g k' -> a ∈ L k' -> k' = k) ->
  (forall x, ~ touches (head_of g k :: l ++ L k) x -> getb m' x = getb m x) ->
  mem_ok g m' A S (upd1 L k l).
Proof using Hg.
  intros [M1 M2 M3 M4 M5 M6 M7] Hk Hl Ha Hs. pose proof top_meta as Htm.
  assert (Hmeta : forall x, base g <= x < base g + meta g -> ~ in_node (head_of g k) x -> getb m' x = getb m x).
  { intros x Hx Hn. apply Hs. intros (e & He & Hi). apply elem_of_cons in He as [->|He]; [done|]. assert (Hu : unit_of g e).
    { apply elem_of_app in He as [He|He]; [by apply Ha|by eapply M6]. }
    destruct Hu as (Hu & _). unfold in_node in Hi. lia. }
  assert (Hhead : forall j o, level g j -> 16 <= o -> o + 8 <= 32 -> ld64 m' (head_of g j + o) = ld64 m (head_of g j + o)).
  { intros j o Hj H1 H2. apply ldn_ext. intros x Hx. cbn in Hx. apply Hmeta; unfold head_of, in_node, level in *; lia. }
  split.
  - intros j Hj. rewrite Hhead by (done || lia). by apply M1.
  - intros j Hj H0. rewrite Hhead by (done || lia). by apply M2.
  - intros j i Hb. rewrite <-(M3 j i Hb). apply isset_ext, Hmeta; pose proof (al_byte j i Hb); unfold in_node, head_of, level in *; lia.
  - intros j i Hb H0. rewrite <-(M4 j i Hb H0). apply isset_ext, Hmeta; pose proof (sp_byte j i Hb H0); unfold in_node, head_of, level in *; lia.
  - intros j Hj. unfold upd1. case_bool_decide as E; [by subst|]. apply (dll_ext m); [|by apply M5]. intros e x He Hx. apply Hs. intros (e' & He' & Hx').
    assert (Hf : far e e').
    { apply elem_of_cons in He as [->|He]; apply elem_of_cons in He' as [->|He'].
      - by apply head_far.
      - apply far_sym, unit_head; [|done]. apply elem_of_app in He' as [He'|He']; [by apply Ha|by apply (M6 k)].
      - apply unit_head; [by apply (M6 j)|done].
      - apply elem_of_app in He' as [He'|He'].
        + apply unit_far; [by apply (M6 j)|by apply Ha|]. intros ->. apply E. by eapply Ha.
        + apply unit_far; [by apply (M6 j)|by apply (M6 k)|]. intros ->. apply E. by apply (M7 j k e'). }
    unfold far, in_node in *. lia.
  - intros j a Hj. unfold upd1. case_bool_decide as E; [intros He; by apply Ha|by apply M6].
  - intros j j' a Hj Hj'. unfold upd1. repeat case_bool_decide; subst; try done; intros H1 H2; [symmetry; by eapply Ha|by eapply Ha|by eapply M7].
Qed.

Lemma mem_ok_push m A S L k a : mem_ok g m A S L -> level g k -> unit_of g a -> (forall k', level g k' -> a ∉ L k') ->
  mem_ok g (lst_push m (head_of g k) a) A S (upd1 L k (a :: L k)) /\
  forall x, ~ in_meta g x -> ~ touches (a :: L k) x -> getb (lst_push m (head_of g k) a) x = getb m x.
Proof using Hg.
  intros M Hk Hu Hn. pose proof (mo_list _ _ _ _ _ M k Hk) as D. assert (Hfh : far a (head_of g k)) by (by apply unit_head).
  assert (Hd : dll (lst_push m (head_of g k) a) (head_of g k) (a :: L k)).
  { apply dll_push; [done|by apply unit_node|]. intros e He. apply elem_of_cons in He as [->|He]; [done|].
    apply unit_far; [done|by eapply M|]. intros ->. by eapply Hn. }
  split.
  - eapply mem_ok_list; [done|done|exact Hd| |].
    + intros e He. apply elem_of_cons in He as [->|He]; [split; [done|]; intros k' Hk' He'; exfalso; by eapply Hn|].
      split; [by eapply M|]. intros k' Hk' He'. by eapply M.
    + intros x Hx. eapply getb_lst_push; [done|done|]. intros (e & He & Hi). apply Hx. exists e. set_solver.
  - intros x Hm Hx. eapply getb_lst_push; [done|done|]. intros (e & He & Hi). apply elem_of_cons in He as [->|He].
    + apply Hm. unfold in_node, in_meta, head_of, level in *. pose proof top_meta. lia.
    + apply Hx. exists e. set_solver.
Qed.

Lemma mem_ok_remove m A S L k l1 a l2 : mem_ok g m A S L -> level g k -> L k = l1 ++ a :: l2 ->
  mem_ok g (lst_remove m a) A S (upd1 L k (l1 ++ l2)) /\
  forall x, ~ in_meta g x -> ~ touches (L k) x -> getb (lst_remove m a) x = getb m x.
Proof using Hg.
  intros M Hk HL. pose proof (mo_list _ _ _ _ _ M k Hk) as D. rewrite HL in D. split.
  - eapply mem_ok_list; [done|done|by apply dll_remove| |].
    + intros e He. assert (He' : e ∈ L k) by (rewrite HL; set_solver). split; [by eapply M|]. intros k' Hk' Hin. by eapply M.
    + intros x Hx. eapply getb_lst_remove; [done|]. intros (e & He & Hi). apply Hx. exists e. set_solver.
  - intros x Hm Hx. eapply getb_lst_remove; [done|]. intros (e & He & Hi). apply elem_of_cons in He as [->|He].
    + apply Hm. unfold in_node, in_meta, head_of, level in *. pose proof top_meta. lia.
    + apply Hx. exists e. rewrite HL. set_solver.
Qed.
End ops.

End BuddyMem.
