(* ===== verification/BuddyProof.v ===== *)
(** * The buddy allocator is correct (kernel/buddy.c)

    The abstract state gives every block of every size a [kind]: free, in use,
    split into its two halves, or absent because a block that contains it is
    free or in use as a whole.  bd_malloc takes a free block that is big
    enough, splitting it down to the right size; bd_free gives a block back
    and merges it with its buddy as long as that is free. *)

From S2P Require Import Prelude Bytes CString KList Buddy BuddyMem.

Module BuddyProof.
Import KList Buddy BuddyMem.

(** ** The blocks *)

Inductive kind := Free | Used | Split.
#[export] Instance kind_eq_dec : EqDecision kind.
Proof. solve_decision. Defined.

Abbreviation state := (Z -> Z -> option kind).
Implicit Types (g : geo) (S : state).

Definition abit S (k i : Z) : bool := match S k i with Some Used | Some Split => true | _ => false end.
Definition sbit S (k i : Z) : bool := match S k i with Some Split => true | _ => false end.

(** A block exists if the block around it is split; blocks of the smallest
    size are not split; no two buddies are free. *)
Record shape g S : Prop := {
  sh_root : is_Some (S (top g) 0);
  sh_child : forall k i, block g k i -> k < top g -> is_Some (S k i) <-> S (k + 1) (i / 2) = Some Split;
  sh_leaf : forall i, S 0 i <> Some Split;
  sh_coal : forall k i, block g k i -> k < top g -> S k i = Some Free -> S k (buddy_of i) <> Some Free
}.

(** The bytes of a block. *)
Definition area g (k i x : Z) : Prop := base g + i * BLK_SIZE k <= x < base g + (i + 1) * BLK_SIZE k.
Definition free_area g S (x : Z) : Prop := exists k i, block g k i /\ S k i = Some Free /\ area g k i x.

(** ** Geometry of blocks *)

Section geometry.
Context g (Hg : geo_ok g).

Lemma nblk_succ k : 0 <= k < top g -> nblk g k = 2 * nblk g (k + 1).
Proof using Type. intros Hk. unfold nblk. replace (top g - k) with (1 + (top g - (k + 1))) by lia. rewrite Z.pow_add_r by lia. lia. Qed.

Lemma block_parent k i : block g k i -> k < top g -> block g (k + 1) (i / 2).
Proof using Type.
  intros [Hk Hi] Hlt. pose proof (nblk_succ k ltac:(unfold level in *; lia)). split; [unfold level in *; lia|].
  pose proof (Z.div_mod i 2 ltac:(lia)). pose proof (Z.mod_pos_bound i 2 ltac:(lia)). lia.
Qed.

Lemma block_child k i c : block g k i -> 0 < k -> 0 <= c <= 1 -> block g (k - 1) (2 * i + c).
Proof using Type.
  intros [Hk Hi] Hlt Hc. pose proof (nblk_succ (k - 1) ltac:(unfold level in *; lia)). replace (k - 1 + 1) with k in * by lia.
  split; [unfold level in *; lia|]. lia.
Qed.

Lemma block_end k i : block g k i -> 0 <= i * BLK_SIZE k /\ (i + 1) * BLK_SIZE k <= heap g.
Proof using Type.
  intros [Hk Hi]. unfold heap. pose proof (BLK_SIZE_pos k ltac:(unfold level in *; lia)). rewrite (BLK_SIZE_mul k (top g)) by (unfold level in *; lia).
  unfold nblk in Hi. nia.
Qed.

Lemma heap_small : heap g <= 2 ^ 31.
Proof using Hg.
  pose proof (gk_top _ Hg). unfold heap. rewrite BLK_SIZE_eq by lia. change (2 ^ 31) with (16 * 2 ^ 27).
  pose proof (Z.pow_le_mono_r 2 (top g) 27 ltac:(lia) ltac:(lia)). lia.
Qed.

Lemma area_child k i c x : 0 < k -> 0 <= c <= 1 -> area g (k - 1) (2 * i + c) x -> area g k i x.
Proof using Type.
  intros Hk Hc. unfold area. replace (BLK_SIZE k) with (2 * BLK_SIZE (k - 1)) by (rewrite <-BLK_SIZE_succ by lia; f_equal; lia).
  pose proof (BLK_SIZE_pos (k - 1) ltac:(lia)). nia.
Qed.

Lemma buddy_block k i : block g k i -> k < top g -> block g k (buddy_of i) /\ buddy_of i / 2 = i / 2 /\ buddy_of i <> i.
Proof using Type.
  intros [Hk Hi] Hlt. pose proof (nblk_succ k ltac:(unfold level in *; lia)). unfold buddy_of, block.
  pose proof (Z.div_mod i 2 ltac:(lia)). pose proof (Z.mod_pos_bound i 2 ltac:(lia)). destruct (Z.eqb_spec (i mod 2) 0).
  - split_and!; [done|lia|lia| |lia]. symmetry. apply (Z.div_unique_pos _ _ _ 1); lia.
  - split_and!; [done|lia|lia| |lia]. symmetry. apply (Z.div_unique_pos _ _ _ 0); lia.
Qed.

Lemma buddy_buddy i : buddy_of (buddy_of i) = i.
Proof using Type.
  unfold buddy_of. pose proof (Z.div_mod i 2 ltac:(lia)). pose proof (Z.mod_pos_bound i 2 ltac:(lia)). destruct (Z.eqb_spec (i mod 2) 0) as [E|E].
  - assert (H1 : (i + 1) mod 2 = 1) by (symmetry; apply (Z.mod_unique_pos _ _ (i / 2)); lia). rewrite H1. cbn. lia.
  - assert (H1 : (i - 1) mod 2 = 0) by (symmetry; apply (Z.mod_unique_pos _ _ (i / 2)); lia). rewrite H1. cbn. lia.
Qed.

(** The children of block [j]. *)
Lemma children i j : i / 2 = j <-> i = 2 * j \/ i = 2 * j + 1.
Proof using Type.
  pose proof (Z.div_mod i 2 ltac:(lia)). pose proof (Z.mod_pos_bound i 2 ltac:(lia)). split; [lia|].
  intros [->| ->]; symmetry; [apply (Z.div_unique_pos _ _ _ 0)|apply (Z.div_unique_pos _ _ _ 1)]; lia.
Qed.
Lemma buddies i j : j / 2 = i / 2 <-> j = i \/ j = buddy_of i.
Proof using Type.
  rewrite children. unfold buddy_of. pose proof (Z.div_mod i 2 ltac:(lia)). pose proof (Z.mod_pos_bound i 2 ltac:(lia)).
  destruct (Z.eqb_spec (i mod 2) 0); lia.
Qed.

(** ** Blocks inside blocks *)

Context S (Hs : shape g S).

(** What lies around an existing block is split. *)
Lemma around_split (n : nat) : forall k i, block g k i -> is_Some (S k i) -> (0 < n)%nat -> k + Z.of_nat n <= top g ->
  S (k + Z.of_nat n) (i / 2 ^ Z.of_nat n) = Some Split.
Proof using Hs.
  induction n as [|n IH]; intros k i Hb Hi Hn Hk; [lia|]. pose proof Hb as [Hl _]. unfold level in Hl. destruct (decide (n = 0%nat)) as [->|Hne].
  - change (2 ^ Z.of_nat 1) with 2. apply (sh_child _ _ Hs); [done|lia|done].
  - apply (sh_child _ _ Hs) in Hi as Hp; [|done|lia]. assert (Hb' : block g (k + 1) (i / 2)) by (apply block_parent; [done|lia]).
    specialize (IH (k + 1) (i / 2) Hb' ltac:(by eexists) ltac:(lia) ltac:(lia)). replace (k + Z.of_nat (Datatypes.S n)) with (k + 1 + Z.of_nat n) by lia.
    rewrite Nat2Z.inj_succ, <-Z.add_1_l, Z.pow_add_r, <-Z.div_div by lia. exact IH.
Qed.

Lemma around k i j : block g k i -> is_Some (S k i) -> k < j <= top g -> S j (i / 2 ^ (j - k)) = Some Split.
Proof using Hs.
  intros Hb Hi Hj. pose proof (around_split (Z.to_nat (j - k)) k i Hb Hi ltac:(lia) ltac:(lia)) as H. rewrite Z2Nat.id in H by lia. by replace (k + (j - k)) with j in H by lia.
Qed.

(** Inside a block that is not split there is nothing. *)
Lemma inside_none k i j : block g j i -> k < j -> 0 <= k -> S j i <> Some Split -> S k (i * 2 ^ (j - k)) = None.
Proof using Hs.
  intros [Hj Hi] Hk H0 Hn. unfold level in Hj. destruct (S k (i * 2 ^ (j - k))) eqn:E; [exfalso|done]. apply Hn.
  assert (Hp : 0 < 2 ^ (j - k)) by (apply Z.pow_pos_nonneg; lia).
  assert (Hb : block g k (i * 2 ^ (j - k))).
  { split; [unfold level; lia|]. unfold nblk in *. replace (2 ^ (top g - k)) with (2 ^ (top g - j) * 2 ^ (j - k)) by (rewrite <-Z.pow_add_r by lia; f_equal; lia). nia. }
  pose proof (around k _ j Hb ltac:(by eexists) ltac:(lia)) as H. rewrite Z.div_mul in H by lia. done.
Qed.

(** Two existing blocks that are not split do not overlap. *)
Lemma leaves_apart k i k' i' x : block g k i -> block g k' i' -> is_Some (S k i) -> is_Some (S k' i') -> S k i <> Some Split -> S k' i' <> Some Split ->
  area g k i x -> area g k' i' x -> k = k' /\ i = i'.
Proof using Hs.
  assert (Hw : forall k i k' i', block g k i -> block g k' i' -> is_Some (S k i) -> S k' i' <> Some Split -> k <= k' ->
    area g k i x -> area g k' i' x -> k = k' /\ i = i').
  { intros k0 i0 k1 i1 Hb Hb' Hi Hn Hle Ha Ha'. pose proof Hb as [Hl Hr]. pose proof Hb' as [Hl' Hr']. unfold level in *.
    assert (Hp : 0 < 2 ^ (k1 - k0)) by (apply Z.pow_pos_nonneg; lia). pose proof (BLK_SIZE_pos k0 ltac:(lia)) as Hbp.
    assert (E : i0 / 2 ^ (k1 - k0) = i1).
    { unfold area in *. rewrite (BLK_SIZE_mul k0 k1) in Ha' by lia. symmetry. apply (Z.div_unique_pos _ _ _ (i0 - 2 ^ (k1 - k0) * i1)); nia. }
    destruct (decide (k0 = k1)) as [->|Hne].
    - split; [done|]. rewrite Z.sub_diag in E. change (2 ^ 0) with 1 in E. by rewrite Z.div_1_r in E.
    - exfalso. apply Hn. rewrite <-E. apply around; [done|done|lia]. }
  intros Hb Hb' Hi Hi' Hn Hn' Ha Ha'. destruct (Z_le_gt_dec k k').
  - by apply Hw.
  - destruct (Hw k' i' k i) as [-> ->]; try done. lia.
Qed.
End geometry.

(** ** Changes of the abstract state *)

Definition take S (k i : Z) : state := upd2 S k i (Some Used).
Definition split S (k i : Z) : state :=
  upd2 (upd2 (upd2 S k i (Some Split)) (k - 1) (2 * i) (Some Used)) (k - 1) (2 * i + 1) (Some Free).
Definition release S (k i : Z) : state := upd2 S k i (Some Free).
Definition merge S (k i : Z) : state :=
  upd2 (upd2 (upd2 S (k + 1) (i / 2) (Some Used)) k i None) k (buddy_of i) None.

(** Lookup in an updated state. *)
Ltac look := unfold take, split, release, merge, upd2; repeat case_bool_decide; try (exfalso; lia).

Section changes.
Context g (Hg : geo_ok g) S (Hs : shape g S).

Definition coalesced S' : Prop :=
  forall k i, block g k i -> k < top g -> S' k i = Some Free -> S' k (buddy_of i) <> Some Free.

(** The same blocks exist and are split. *)
Lemma shape_same S' : (forall k i, is_Some (S' k i) <-> is_Some (S k i)) -> (forall k i, S' k i = Some Split <-> S k i = Some Split) ->
  coalesced S' -> shape g S'.
Proof using Hs.
  intros He Hp Hc. destruct Hs as [H1 H2 H3 H4]. split; [by apply He| | |done].
  - intros k i Hb Hlt. rewrite He, Hp. by apply H2.
  - intros i. rewrite Hp. apply H3.
Qed.

Lemma shape_take k i : block g k i -> S k i = Some Free -> shape g (take S k i).
Proof using Hs.
  intros Hb Hf. apply shape_same.
  - intros k' i'. look; [|done]. destruct_and!. subst. rewrite Hf. by split; eauto.
  - intros k' i'. look; [|done]. destruct_and!. subst. rewrite Hf. done.
  - intros k' i' Hb' Hlt. pose proof (sh_coal _ _ Hs k' i' Hb' Hlt). look; done.
Qed.

Lemma shape_release k i : block g k i -> S k i = Some Used -> S k (buddy_of i) <> Some Free -> shape g (release S k i).
Proof using Hs.
  intros Hb Hf Hn. apply shape_same.
  - intros k' i'. look; [|done]. destruct_and!. subst. rewrite Hf. by split; eauto.
  - intros k' i'. look; [|done]. destruct_and!. subst. rewrite Hf. done.
  - intros k' i' Hb' Hlt. pose proof (sh_coal _ _ Hs k' i' Hb' Hlt) as Hc. destruct (buddy_block g k' i' Hb' Hlt) as (_ & _ & Hne). look.
    + destruct_and!. subst. congruence.
    + destruct_and!. subst. rewrite buddy_buddy in Hn. congruence.
    + done.
Qed.

Lemma shape_split k i : block g k i -> 0 < k -> S k i = Some Used -> shape g (split S k i).
Proof using Hs.
  intros Hb Hk Hu. pose proof Hb as [Hl _]. unfold level in Hl. pose proof (block_child g k i 0 Hb Hk ltac:(lia)) as Hb0. pose proof (block_child g k i 1 Hb Hk ltac:(lia)) as Hb1.
  rewrite Z.add_0_r in Hb0.
  assert (Hkids : forall c, c = 2 * i \/ c = 2 * i + 1 -> S (k - 1) c = None).
  { intros c Hc. assert (Hbc : block g (k - 1) c) by (destruct Hc as [->| ->]; done). destruct (S (k - 1) c) eqn:E; [|done].
    assert (Hx : is_Some (S (k - 1) c)) by (by rewrite E). apply (sh_child _ _ Hs) in Hx; [|done|lia]. replace (k - 1 + 1) with k in Hx by lia.
    assert (Hci : c / 2 = i) by (by apply children). rewrite Hci in Hx. congruence. }
  split.
  - pose proof (sh_root _ _ Hs). look; by eauto.
  - intros k' i' Hb' Hlt. pose proof (sh_child _ _ Hs k' i' Hb' Hlt) as Hc. unfold split.
    destruct (decide (k' = k - 1 /\ i' / 2 = i)) as [[-> E]|Hno].
    + replace (k - 1 + 1) with k in * by lia. rewrite E in *. apply children in E. look; split; eauto; try done; destruct_and?; subst; try done.
    + assert (Hno' : ~ (k' = k - 1 /\ (i' = 2 * i \/ i' = 2 * i + 1))) by (rewrite <-children; tauto).
      rewrite (upd2_ne _ (k - 1) (2 * i + 1)) by lia. rewrite (upd2_ne _ (k - 1) (2 * i)) by lia. unfold upd2 at 1.
      assert (Hr : split S k i (k' + 1) (i' / 2) = Some Split <-> S (k' + 1) (i' / 2) = Some Split).
      { unfold split. destruct (decide (k' + 1 = k - 1 /\ (i' / 2 = 2 * i \/ i' / 2 = 2 * i + 1))) as [[E1 E2]|Hno2].
        - rewrite E1, (Hkids _ E2). unfold upd2. repeat case_bool_decide; try done; lia.
        - rewrite !(upd2_ne _ (k - 1)) by lia. unfold upd2. case_bool_decide as E3; [|done]. exfalso. apply Hno. lia. }
      fold (split S k i (k' + 1) (i' / 2)). rewrite Hr, <-Hc. case_bool_decide as E; [|done]. destruct E as [-> ->]. rewrite Hu. by split; eauto.
  - intros i'. pose proof (sh_leaf _ _ Hs i'). look; done.
  - intros k' i' Hb' Hlt. pose proof (sh_coal _ _ Hs k' i' Hb' Hlt) as Hc. unfold split. destruct (decide (k' = k - 1 /\ i' / 2 = i)) as [[-> E]|Hno].
    + apply children in E. assert (Hev : 2 * i mod 2 = 0) by (rewrite Z.mul_comm; apply Z.mod_mul; lia).
      destruct E as [->| ->]; [rewrite upd2_ne by lia; by rewrite upd2_eq|]. assert (Hbo : buddy_of (2 * i + 1) = 2 * i).
      { assert (Hbo : buddy_of (2 * i) = 2 * i + 1) by (unfold buddy_of; by rewrite Hev). rewrite <-Hbo. apply buddy_buddy. }
      rewrite Hbo. intros _. rewrite upd2_ne by lia. by rewrite upd2_eq.
    + assert (Hno' : ~ (k' = k - 1 /\ (i' = 2 * i \/ i' = 2 * i + 1))) by (rewrite <-children; tauto).
      destruct (buddy_block g k' i' Hb' Hlt) as (_ & Hbd & _).
      assert (Hno2 : ~ (k' = k - 1 /\ (buddy_of i' = 2 * i \/ buddy_of i' = 2 * i + 1))) by (rewrite <-children, Hbd; tauto).
      rewrite !(upd2_ne _ (k - 1)) by lia. unfold upd2. repeat case_bool_decide; try done.
Qed.

Lemma shape_merge k i : block g k i -> k < top g -> S k i = Some Used -> S k (buddy_of i) = Some Free -> shape g (merge S k i).
Proof using Hs.
  intros Hb Hlt Hu Hf. pose proof Hb as [Hl _]. unfold level in Hl. destruct (buddy_block g k i Hb Hlt) as (Hbb & Hbd & Hne).
  assert (Hp : S (k + 1) (i / 2) = Some Split) by (apply (sh_child _ _ Hs k i); [done|done|by rewrite Hu]).
  assert (Hm : forall k' i', ~ (k' = k + 1 /\ i' = i / 2) -> ~ (k' = k /\ i' / 2 = i / 2) -> merge S k i k' i' = S k' i').
  { intros k' i' H1 H2. unfold merge. rewrite buddies in H2. rewrite !upd2_ne by lia. done. }
  assert (Hkid : forall i', i' / 2 = i / 2 -> merge S k i k i' = None).
  { intros i' E. apply buddies in E. look; done. }
  assert (Hpar : merge S k i (k + 1) (i / 2) = Some Used) by (look; done).
  split.
  - destruct (decide (top g = k + 1 /\ 0 = i / 2)) as [[E1 E2]|Hno]; [rewrite E1, E2, Hpar; by eauto|]. rewrite Hm; [apply Hs|done|lia].
  - intros k' i' Hb' Hlt'. pose proof (sh_child _ _ Hs k' i' Hb' Hlt') as Hc. destruct (decide (k' = k /\ i' / 2 = i / 2)) as [[-> E]|Hno].
    + rewrite Hkid, E, Hpar by done. split; [by intros []|done].
    + assert (He : is_Some (merge S k i k' i') <-> is_Some (S k' i')).
      { destruct (decide (k' = k + 1 /\ i' = i / 2)) as [[-> ->]|Hno2]; [rewrite Hpar, Hp; by split; eauto|by rewrite Hm]. }
      rewrite He, Hc. destruct (decide (k' + 1 = k /\ (i' / 2) / 2 = i / 2)) as [[E1 E2]|Hno2].
      * rewrite E1, Hkid by done. split; [|done]. apply buddies in E2. destruct E2 as [->| ->]; congruence.
      * destruct (decide (k' + 1 = k + 1 /\ i' / 2 = i / 2)) as [[E1 E2]|Hno3]; [exfalso; apply Hno; lia|]. by rewrite Hm.
  - intros i'. pose proof (sh_leaf _ _ Hs i'). look; try done.
  - intros k' i' Hb' Hlt'. pose proof (sh_coal _ _ Hs k' i' Hb' Hlt') as Hc. look; done.
Qed.
End changes.

(** ** The allocator's invariant *)

Definition addr_of g (k i : Z) : Z := base g + i * BLK_SIZE k.

(** The free lists hold the free blocks. *)
Definition lists_ok g S (L : Z -> list Z) : Prop :=
  forall k a, level g k -> a ∈ L k <-> exists i, block g k i /\ S k i = Some Free /\ a = addr_of g k i.

(** The allocator's own memory is in use, in blocks of the smallest size. *)
Definition reserved g S : Prop := forall j, 0 <= j -> j * 16 < meta g -> S 0 j = Some Used.

Record buddy_ok g (b : buddy) S : Prop := {
  bo_n : nsizes b = top g + 1;
  bo_sizes : bd_sizes b = base g;
  bo_base : bd_base b = base g;
  bo_shape : shape g S;
  bo_reserved : reserved g S;
  bo_mem : exists L, mem_ok g (bm b) (abit S) (sbit S) L /\ lists_ok g S L
}.

Lemma mem_ok_ext g m A A' P P' L : mem_ok g m A P L -> (forall k i, block g k i -> A' k i = A k i) ->
  (forall k i, block g k i -> P' k i = P k i) -> mem_ok g m A' P' L.
Proof.
  intros [M1 M2 M3 M4 M5 M6 M7] HA HP. split; try done.
  - intros k i Hb. rewrite HA by done. by apply M3.
  - intros k i Hb H0. rewrite HP by done. by apply M4.
Qed.

Lemma addr_inj g k i i' : 0 <= k -> addr_of g k i = addr_of g k i' -> i = i'.
Proof. intros Hk. unfold addr_of. pose proof (BLK_SIZE_pos k Hk). nia. Qed.

Lemma area_addr g k i : 0 <= k -> area g k i (addr_of g k i).
Proof. intros Hk. unfold area, addr_of. pose proof (BLK_SIZE_pos k Hk). nia. Qed.

Section invariant.
Context g (Hg : geo_ok g).

Lemma lists_remove S S' L k i l1 l2 : lists_ok g S L -> level g k -> NoDup (L k) -> L k = l1 ++ addr_of g k i :: l2 ->
  S' k i <> Some Free -> (forall k' i', k' <> k \/ i' <> i -> S' k' i' = Some Free <-> S k' i' = Some Free) -> lists_ok g S' (upd1 L k (l1 ++ l2)).
Proof using Type.
  clear Hg.
  intros HL Hk Hnd E Hn Hsame k' a Hk'. unfold upd1. case_bool_decide as Ek.
  - subst k'. assert (Hin : a ∈ l1 ++ l2 <-> a ∈ L k /\ a <> addr_of g k i).
    { rewrite E in *. apply NoDup_app in Hnd as (N1 & N2 & N3%NoDup_cons). destruct N3 as [N3 N4]. set_solver. }
    rewrite Hin, (HL k a Hk). split.
    + intros [(i' & Hb & Hf & ->) Hne]. exists i'. split; [done|]. split; [|done]. apply Hsame; [|done]. right. congruence.
    + intros (i' & Hb & Hf & ->). assert (i' <> i) by congruence. split; [exists i'; split; [done|]; split; [|done]; by apply Hsame; [right|]|].
      intros Ha. apply addr_inj in Ha; [done|]. unfold level in Hk. lia.
  - rewrite (HL k' a Hk'). split; intros (i' & Hb & Hf & ->); (exists i'; split; [done|]; split; [|done]; apply Hsame; [by left|done]).
Qed.

Lemma lists_push S S' L k i : lists_ok g S L -> block g k i -> S' k i = Some Free -> S k i <> Some Free ->
  (forall k' i', k' <> k \/ i' <> i -> S' k' i' = Some Free <-> S k' i' = Some Free) -> lists_ok g S' (upd1 L k (addr_of g k i :: L k)).
Proof using Type.
  clear Hg.
  intros HL Hb Hf Hn Hsame k' a Hk'. unfold upd1. case_bool_decide as Ek.
  - subst k'. rewrite elem_of_cons, (HL k a Hk'). split.
    + intros [->|(i' & Hb' & Hf' & ->)]; [by exists i|]. exists i'. split; [done|]. split; [|done]. apply Hsame; [|done]. right. congruence.
    + intros (i' & Hb' & Hf' & ->). destruct (decide (i' = i)) as [->|Hne]; [by left|right]. exists i'. split; [done|]. split; [|done]. by apply Hsame; [right|].
  - rewrite (HL k' a Hk'). split; intros (i' & Hb' & Hf' & ->); (exists i'; split; [done|]; split; [|done]; apply Hsame; [by left|done]).
Qed.

(** A block in use is on no list. *)
Lemma not_listed S L k i a k' : shape g S -> lists_ok g S L -> block g k i -> S k i = Some Used -> area g k i a -> level g k' -> a ∉ L k'.
Proof using Type.
  clear Hg.
  intros Hs HL Hb Hu Ha Hk' Hin. apply HL in Hin as (i' & Hb' & Hf' & ->); [|done].
  destruct (leaves_apart g S Hs k i k' i' (addr_of g k' i')) as [-> ->]; try done; try (by eauto); try congruence.
  apply area_addr. unfold level in Hk'. lia.
Qed.

(** A free block lies past the allocator's own memory. *)
Lemma past_meta S k i : shape g S -> reserved g S -> block g k i -> S k i = Some Free -> meta g <= i * BLK_SIZE k.
Proof using Hg.
  intros Hs Hr Hb Hf. destruct (Z_le_gt_dec (meta g) (i * BLK_SIZE k)) as [|Hgt]; [done|exfalso]. pose proof Hb as [[Hl _] [Hi _]].
  rewrite BLK_SIZE_eq in Hgt by lia. destruct (decide (k = 0)) as [->|Hne].
  - rewrite (Hr i Hi) in Hf by lia. done.
  - pose proof (inside_none g S Hs 0 i k Hb ltac:(lia) ltac:(lia) ltac:(congruence)) as Hin. rewrite Z.sub_0_r in Hin.
    rewrite Hr in Hin; [done| |lia]. apply Z.mul_nonneg_nonneg; [done|]. apply Z.pow_nonneg. lia.
Qed.

Lemma unit_block k i : block g k i -> meta g <= i * BLK_SIZE k -> unit_of g (addr_of g k i).
Proof using Hg.
  intros Hb Hm. destruct (block_end g k i Hb) as [_ He]. pose proof Hb as [[Hl _] _]. pose proof (BLK_SIZE_pos k Hl). pose proof (gk_base _ Hg) as [Hba _].
  unfold unit_of, addr_of. split_and!; [lia|lia|]. rewrite BLK_SIZE_eq by done.
  replace (base g + i * (16 * 2 ^ k)) with (base g + i * 2 ^ k * 16) by lia. by rewrite Z.mod_add.
Qed.

(** List nodes lie in free blocks. *)
Lemma touches_free S L k x : lists_ok g S L -> level g k -> touches (L k) x -> free_area g S x.
Proof using Type.
  clear Hg.
  intros HL Hk (e & He & Hx). apply HL in He as (i & Hb & Hf & ->); [|done]. exists k, i. split; [done|]. split; [done|].
  unfold in_node, area, addr_of in *. unfold level in Hk. pose proof (BLK_SIZE_pos k ltac:(lia)). lia.
Qed.

(** ** Addresses and indices in the code *)

Lemma blk_index_eq b k o : bd_base b = base g -> 0 <= k -> 0 <= o < heap g -> blk_index b k (base g + o) = o / BLK_SIZE k.
Proof using Hg.
  intros Hb Hk Ho. pose proof (heap_small g Hg). pose proof (BLK_SIZE_pos k Hk). unfold blk_index. rewrite Hb.
  replace (base g + o - base g) with o by lia. rewrite (s32_small o) by lia. rewrite Z.quot_div_nonneg by lia. apply s32_small.
  pose proof (Z.div_le_upper_bound o (BLK_SIZE k) o ltac:(lia) ltac:(nia)). pose proof (Z.div_pos o (BLK_SIZE k)). lia.
Qed.

Lemma blk_index_block b k i j : bd_base b = base g -> block g k i -> 0 <= j -> blk_index b j (addr_of g k i) = i * BLK_SIZE k / BLK_SIZE j.
Proof using Hg.
  intros Hb Hbl Hj. destruct (block_end g k i Hbl). pose proof Hbl as [[Hl _] _]. pose proof (BLK_SIZE_pos k Hl). apply blk_index_eq; [done|done|lia].
Qed.

Lemma blk_index_same b k i : bd_base b = base g -> block g k i -> blk_index b k (addr_of g k i) = i.
Proof using Hg.
  intros Hb Hbl. pose proof Hbl as [[Hl _] _]. pose proof (BLK_SIZE_pos k Hl). rewrite blk_index_block by done. apply Z.div_mul. lia.
Qed.

Lemma addr_eq b k i : bd_base b = base g -> block g k i -> addr b k i = addr_of g k i.
Proof using Hg.
  intros Hb Hbl. destruct (block_end g k i Hbl). pose proof Hbl as [[Hl _] _]. pose proof (BLK_SIZE_pos k Hl). pose proof (heap_small g Hg).
  unfold addr, addr_of. by rewrite Hb, s32_small by lia.
Qed.

Lemma free_list_eq b k : bd_sizes b = base g -> free_list b k = head_of g k.
Proof using Type. intros Hb. unfold free_list, head_of, sz_info. by rewrite Hb. Qed.

Lemma alloc_of_eq b k A P L : bd_sizes b = base g -> mem_ok g (bm b) A P L -> level g k -> alloc_of b k = al g k.
Proof using Type. intros Hb M Hk. rewrite <-(mo_al _ _ _ _ _ M k Hk). unfold alloc_of, head_of, sz_info. by rewrite Hb. Qed.
Lemma split_of_eq b k A P L : bd_sizes b = base g -> mem_ok g (bm b) A P L -> level g k -> 0 < k -> split_of b k = sp g k.
Proof using Type. intros Hb M Hk H0. rewrite <-(mo_sp _ _ _ _ _ M k Hk H0). unfold split_of, head_of, sz_info. by rewrite Hb. Qed.
End invariant.

(** ** The primitive operations *)

Section steps.
Context g (Hg : geo_ok g).
Implicit Types (b : buddy) (A P : Z -> Z -> bool) (L : Z -> list Z).

Record st_ok b A P L : Prop := {
  so_n : nsizes b = top g + 1;
  so_sizes : bd_sizes b = base g;
  so_base : bd_base b = base g;
  so_mem : mem_ok g (bm b) A P L
}.

(** Only the allocator's own memory and bytes in [F] change. *)
Definition frame (F : Z -> Prop) b b' : Prop :=
  forall x, ~ in_meta g x -> ~ F x -> getb (bm b') x = getb (bm b) x.

Lemma frame_refl F b : frame F b b.
Proof using Type. done. Qed.
Lemma frame_trans (F F' : Z -> Prop) b b1 b2 : frame F b b1 -> frame F' b1 b2 -> (forall x, F' x -> F x) -> frame F b b2.
Proof using Type. intros H1 H2 Hs x Hm Hx. rewrite H2; [by apply H1|done|]. intros Hf. by apply Hx, Hs. Qed.
Lemma frame_mono (F F' : Z -> Prop) b b' : frame F b b' -> (forall x, F x -> F' x) -> frame F' b b'.
Proof using Type. intros H1 Hs x Hm Hx. apply H1; [done|]. intros Hf. by apply Hx, Hs. Qed.

Lemma run_set_alloc b A P L k i (Q : unit -> buddy -> Prop) : st_ok b A P L -> block g k i ->
  (forall b', st_ok b' (upd2 A k i true) P L -> frame (fun _ => False) b b' -> Q tt b') -> run (set_alloc_bit k i) b Q.
Proof using Hg.
  intros [B1 B2 B3 M] Hb HQ. unfold set_alloc_bit. wp. rewrite (alloc_of_eq g b k _ _ _ B2 M ltac:(apply Hb)). apply HQ.
  - split; [done..|]. cbn. eapply (mem_ok_abit g Hg); [done|done| |].
    + intros y Hy. by apply getb_bit_set.
    + intros j Hj. apply isset_bit_set; [apply Hb|done].
  - intros x Hx _. cbn. apply getb_bit_set. intros ->. apply Hx. pose proof (al_byte g Hg k i Hb). unfold in_meta. pose proof (gk_top _ Hg). lia.
Qed.

Lemma run_clear_alloc b A P L k i (Q : unit -> buddy -> Prop) : st_ok b A P L -> block g k i ->
  (forall b', st_ok b' (upd2 A k i false) P L -> frame (fun _ => False) b b' -> Q tt b') -> run (clear_alloc_bit k i) b Q.
Proof using Hg.
  intros [B1 B2 B3 M] Hb HQ. unfold clear_alloc_bit. wp. rewrite (alloc_of_eq g b k _ _ _ B2 M ltac:(apply Hb)). apply HQ.
  - split; [done..|]. cbn. eapply (mem_ok_abit g Hg); [done|done| |].
    + intros y Hy. by apply getb_bit_clear.
    + intros j Hj. apply isset_bit_clear; [apply Hb|done].
  - intros x Hx _. cbn. apply getb_bit_clear. intros ->. apply Hx. pose proof (al_byte g Hg k i Hb). unfold in_meta. pose proof (gk_top _ Hg). lia.
Qed.

Lemma run_set_split b A P L k i (Q : unit -> buddy -> Prop) : st_ok b A P L -> block g k i -> 0 < k ->
  (forall b', st_ok b' A (upd2 P k i true) L -> frame (fun _ => False) b b' -> Q tt b') -> run (set_split_bit k i) b Q.
Proof using Hg.
  intros [B1 B2 B3 M] Hb H0 HQ. unfold set_split_bit. wp. rewrite (split_of_eq g b k _ _ _ B2 M ltac:(apply Hb) H0). apply HQ.
  - split; [done..|]. cbn. eapply (mem_ok_sbit g Hg); [done|done|done| |].
    + intros y Hy. by apply getb_bit_set.
    + intros j Hj. apply isset_bit_set; [apply Hb|done].
  - intros x Hx _. cbn. apply getb_bit_set. intros ->. apply Hx. pose proof (sp_byte g Hg k i Hb H0). unfold in_meta. pose proof (gk_top _ Hg). lia.
Qed.

Lemma run_clear_split b A P L k i (Q : unit -> buddy -> Prop) : st_ok b A P L -> block g k i -> 0 < k ->
  (forall b', st_ok b' A (upd2 P k i false) L -> frame (fun _ => False) b b' -> Q tt b') -> run (clear_split_bit k i) b Q.
Proof using Hg.
  intros [B1 B2 B3 M] Hb H0 HQ. unfold clear_split_bit. wp. rewrite (split_of_eq g b k _ _ _ B2 M ltac:(apply Hb) H0). apply HQ.
  - split; [done..|]. cbn. eapply (mem_ok_sbit g Hg); [done|done|done| |].
    + intros y Hy. by apply getb_bit_clear.
    + intros j Hj. apply isset_bit_clear; [apply Hb|done].
  - intros x Hx _. cbn. apply getb_bit_clear. intros ->. apply Hx. pose proof (sp_byte g Hg k i Hb H0). unfold in_meta. pose proof (gk_top _ Hg). lia.
Qed.

Lemma run_push b A P L k a (Q : unit -> buddy -> Prop) : st_ok b A P L -> level g k -> unit_of g a -> (forall k', level g k' -> a ∉ L k') ->
  (forall b', st_ok b' A P (upd1 L k (a :: L k)) -> frame (touches (a :: L k)) b b' -> Q tt b') -> run (push k a) b Q.
Proof using Hg.
  intros [B1 B2 B3 M] Hk Hu Hn HQ. unfold push. wp. rewrite (free_list_eq g b k B2).
  destruct (mem_ok_push g Hg _ _ _ _ k a M Hk Hu Hn) as [M' F']. apply HQ; [by split|done].
Qed.

Lemma run_remove b A P L k l1 a l2 (Q : unit -> buddy -> Prop) : st_ok b A P L -> level g k -> L k = l1 ++ a :: l2 ->
  (forall b', st_ok b' A P (upd1 L k (l1 ++ l2)) -> frame (touches (L k)) b b' -> Q tt b') -> run (upd (fun m => lst_remove m a)) b Q.
Proof using Hg.
  intros [B1 B2 B3 M] Hk HL HQ. unfold upd. wp. destruct (mem_ok_remove g Hg _ _ _ _ k l1 a l2 M Hk HL) as [M' F']. apply HQ; [by split|done].
Qed.

Lemma run_pop b A P L k a l (Q : Z -> buddy -> Prop) : st_ok b A P L -> level g k -> L k = a :: l ->
  (forall b', st_ok b' A P (upd1 L k l) -> frame (touches (L k)) b b' -> Q a b') -> run (pop k) b Q.
Proof using Hg.
  intros B Hk HL HQ. pose proof B as [B1 B2 B3 M]. unfold pop. wp. change (id b) with b. rewrite (free_list_eq g b k B2).
  pose proof (mo_list _ _ _ _ _ M k Hk) as D. rewrite HL in D. destruct (lst_pop_spec _ _ _ _ D) as [-> _].
  wp. unfold upd. wp. destruct (mem_ok_remove g Hg _ _ _ _ k [] a l M Hk HL) as [M' F']. apply HQ; [by split|done].
Qed.

(** ** From the bits and lists to the abstract state *)

Lemma st_ok_ext b A A' P P' L : st_ok b A P L -> (forall k i, block g k i -> A' k i = A k i) -> (forall k i, block g k i -> P' k i = P k i) -> st_ok b A' P' L.
Proof using Type. intros [B1 B2 B3 M] HA HP. split; [done..|]. by eapply mem_ok_ext. Qed.

Lemma buddy_ok_intro b S L : st_ok b (abit S) (sbit S) L -> shape g S -> reserved g S -> lists_ok g S L -> buddy_ok g b S.
Proof using Type. intros [B1 B2 B3 M] H1 H2 H3. split; try done. by exists L. Qed.

Lemma buddy_ok_elim b S : buddy_ok g b S -> exists L, st_ok b (abit S) (sbit S) L /\ lists_ok g S L.
Proof using Type. intros [B1 B2 B3 _ _ (L & M & HL)]. exists L. done. Qed.

(** ** Taking a free block *)

Lemma run_take b S k (Q : Z -> buddy -> Prop) : buddy_ok g b S -> level g k -> (exists i, block g k i /\ S k i = Some Free) ->
  (forall i b', block g k i -> S k i = Some Free -> buddy_ok g b' (take S k i) -> frame (free_area g S) b b' -> Q (addr_of g k i) b') ->
  run (p <- pop k ;; set_alloc_bit k (blk_index b k p) ;; ret p) b Q.
Proof using Hg.
  intros B Hk (i0 & Hb0 & Hf0) HQ. destruct (buddy_ok_elim _ _ B) as (L & St & HL). pose proof (bo_shape _ _ _ B) as Hs.
  destruct (L k) as [|a l] eqn:EL.
  { exfalso. assert (Hin : addr_of g k i0 ∈ L k) by (apply HL; [done|by exists i0]). rewrite EL in Hin. by apply not_elem_of_nil in Hin. }
  assert (Hin : a ∈ L k) by (rewrite EL; set_solver). apply HL in Hin as (i & Hb & Hf & ->); [|done].
  wp. eapply run_pop; [exact St|done|exact EL|]. intros b1 St1 F1. wp. rewrite (blk_index_same g Hg) by (done || apply B).
  eapply run_set_alloc; [exact St1|done|]. intros b2 St2 F2. wp. apply HQ; [done|done| |].
  - eapply (buddy_ok_intro _ _ (upd1 L k l)).
    + eapply st_ok_ext; [exact St2|..]; intros k' i' _; unfold abit, sbit, take, upd2; case_bool_decide as E; try done; destruct E as [-> ->]; by rewrite Hf.
    + by apply shape_take.
    + intros j H0 Hj. pose proof (bo_reserved _ _ _ B j H0 Hj) as Hr. unfold take, upd2. case_bool_decide; done.
    + eapply (lists_remove g S _ L k i [] l); [done|done| |done| |].
      * pose proof (dll_nodup _ _ _ (mo_list _ _ _ _ _ (so_mem _ _ _ _ St) k Hk)) as Hnd. by apply NoDup_cons in Hnd as [_ Hnd].
      * unfold take. by rewrite upd2_eq.
      * intros k' i' Hne. unfold take. by rewrite upd2_ne.
  - eapply frame_trans; [eapply frame_mono; [exact F1|]|exact F2|done]. intros x. by apply touches_free.
Qed.

(** ** Splitting a block *)

Lemma run_split b S k i (Q : unit -> buddy -> Prop) : buddy_ok g b S -> block g k i -> 0 < k -> S k i = Some Used -> meta g <= i * BLK_SIZE k ->
  (forall b', buddy_ok g b' (split S k i) -> frame (fun x => free_area g S x \/ area g k i x) b b' -> Q tt b') ->
  run (set_split_bit k i ;; set_alloc_bit (k - 1) (2 * i) ;; push (k - 1) (addr_of g (k - 1) (2 * i + 1))) b Q.
Proof using Hg.
  intros B Hb Hk Hu Hm HQ. destruct (buddy_ok_elim _ _ B) as (L & St & HL). pose proof (bo_shape _ _ _ B) as Hs. pose proof Hb as [Hl _]. unfold level in Hl.
  pose proof (block_child g k i 0 Hb Hk ltac:(lia)) as Hb0. pose proof (block_child g k i 1 Hb Hk ltac:(lia)) as Hb1. rewrite Z.add_0_r in Hb0.
  assert (Hsz : BLK_SIZE k = 2 * BLK_SIZE (k - 1)) by (rewrite <-BLK_SIZE_succ by lia; f_equal; lia). pose proof (BLK_SIZE_pos (k - 1) ltac:(lia)) as Hpos.
  assert (Har : area g k i (addr_of g (k - 1) (2 * i + 1))).
  { apply (area_child g k i 1); [done|lia|]. apply area_addr. lia. }
  wp. eapply run_set_split; [exact St|done|done|]. intros b1 St1 F1. wp. eapply run_set_alloc; [exact St1|done|]. intros b2 St2 F2.
  eapply run_push; [exact St2|apply Hb1| |intros k' Hk'; by apply (not_listed g S L k i)|].
  { apply (unit_block g Hg); [done|]. nia. }
  intros b3 St3 F3. apply HQ.
  - assert (Hkids : forall c, c = 2 * i \/ c = 2 * i + 1 -> S (k - 1) c = None).
    { intros c Hc. assert (Hbc : block g (k - 1) c) by (destruct Hc as [->| ->]; done). destruct (S (k - 1) c) eqn:E; [|done].
      assert (Hx : is_Some (S (k - 1) c)) by (by rewrite E). apply (sh_child _ _ Hs) in Hx; [|done|lia]. replace (k - 1 + 1) with k in Hx by lia.
      assert (Hci : c / 2 = i) by (by apply children). rewrite Hci in Hx. congruence. }
    eapply buddy_ok_intro.
    + eapply st_ok_ext; [exact St3|..]; intros k' i' _; unfold abit, sbit, split, upd2; repeat case_bool_decide; try done; try lia; destruct_and?; subst.
      * by rewrite Hkids by auto.
      * by rewrite Hu.
      * by rewrite Hkids by auto.
      * by rewrite Hkids by auto.
    + by apply shape_split.
    + intros j H0 Hj. pose proof (bo_reserved _ _ _ B j H0 Hj) as Hr. unfold split. destruct (decide (0 = k - 1 /\ (j = 2 * i \/ j = 2 * i + 1))) as [[E1 E2]|Hno].
      * specialize (Hkids j E2). rewrite <-E1 in Hkids. congruence.
      * by rewrite !upd2_ne by lia.
    + eapply (lists_push g (upd2 (upd2 S k i (Some Split)) (k - 1) (2 * i) (Some Used))); [|done|unfold split; by rewrite upd2_eq| |].
      * intros k' a Hk'. rewrite (HL k' a Hk'). unfold upd2. split; intros (i' & Hb' & Hf' & ->); (exists i'; split; [done|]; split; [|done]).
        -- repeat case_bool_decide; try done; destruct_and?; subst; [by rewrite Hkids in Hf' by auto|congruence].
        -- repeat case_bool_decide; done.
      * rewrite !upd2_ne by lia. by rewrite Hkids by auto.
      * intros k' i' Hne. unfold split. by rewrite (upd2_ne _ (k - 1) (2 * i + 1)) by lia.
  - intros x Hmx Hx. rewrite F3; [rewrite F2; [apply F1; [done|by intros []]|done|by intros []]|done|]. intros (e & He & Hi). apply elem_of_cons in He as [->|He].
    + apply Hx. right. apply (area_child g k i 1); [done|lia|]. unfold in_node, addr_of in Hi. unfold area. lia.
    + apply Hx. left. eapply (touches_free g S L (k - 1)); [done|apply Hb1|]. exists e. done.
Qed.
End steps.

(** ** The size of a request *)

Lemma firstk_loop_spec n : n <= 2 ^ 63 -> forall fuel k, 0 <= k <= 59 -> 59 - k <= Z.of_nat fuel -> k = 0 \/ BLK_SIZE (k - 1) < n ->
  exists k', firstk_loop fuel k (BLK_SIZE k) n = Some k' /\ 0 <= k' <= 59 /\ n <= BLK_SIZE k' /\ (k' = 0 \/ BLK_SIZE (k' - 1) < n).
Proof.
  intros Hn. induction fuel as [|fuel IH]; intros k Hk Hf Hm; cbn [firstk_loop]; destruct (Z.ltb_spec (BLK_SIZE k) n) as [Hlt|Hge]; try (by exists k; split_and!; try done; lia).
  - assert (k = 59) as -> by lia. change (BLK_SIZE 59) with (2 ^ 63) in Hlt. lia.
  - assert (Hk' : k < 59). { destruct (decide (k = 59)) as [->|]; [|lia]. change (BLK_SIZE 59) with (2 ^ 63) in Hlt. lia. }
    pose proof (BLK_SIZE_pos k ltac:(lia)). rewrite u64_small by lia. rewrite Z.mul_comm, <-BLK_SIZE_succ by lia.
    apply IH; [lia|lia|]. right. by replace (k + 1 - 1) with k by lia.
Qed.

Lemma firstk_spec n : n <= 2 ^ 63 ->
  exists k, firstk 64 n = Some k /\ 0 <= k <= 59 /\ n <= BLK_SIZE k /\ (k = 0 \/ BLK_SIZE (k - 1) < n).
Proof. intros Hn. apply (firstk_loop_spec n Hn 64 0); [lia|cbn; lia|by left]. Qed.

(** The loop does not end for requests above 2^63. *)
Lemma firstk_diverges n : 2 ^ 63 < n -> forall fuel, firstk fuel n = None.
Proof.
  intros Hn. assert (H0 : forall fuel k, firstk_loop fuel k 0 n = None).
  { induction fuel as [|fuel IH]; intros k; cbn [firstk_loop]; (destruct (Z.ltb_spec 0 n); [|lia]); [done|]. apply IH. }
  assert (H1 : forall fuel k, 0 <= k <= 59 -> firstk_loop fuel k (BLK_SIZE k) n = None).
  { induction fuel as [|fuel IH]; intros k Hk; cbn [firstk_loop]; pose proof (BLK_SIZE_mul k 59 ltac:(lia)) as E; change (BLK_SIZE 59) with (2 ^ 63) in E;
      pose proof (Z.pow_pos_nonneg 2 (59 - k) ltac:(lia) ltac:(lia)); pose proof (BLK_SIZE_pos k ltac:(lia));
      (destruct (Z.ltb_spec (BLK_SIZE k) n); [|nia]); [done|].
    destruct (decide (k = 59)) as [->|Hne]; [apply H0|]. assert (Hs : BLK_SIZE (k + 1) <= 2 ^ 63).
    { pose proof (BLK_SIZE_mul (k + 1) 59 ltac:(lia)) as E2. change (BLK_SIZE 59) with (2 ^ 63) in E2. pose proof (Z.pow_pos_nonneg 2 (59 - (k + 1)) ltac:(lia) ltac:(lia)).
      pose proof (BLK_SIZE_pos (k + 1) ltac:(lia)). nia. }
    rewrite Z.mul_comm, <-BLK_SIZE_succ by lia. pose proof (BLK_SIZE_pos (k + 1) ltac:(lia)). rewrite u64_small by lia. apply IH. lia. }
  intros fuel. apply (H1 fuel 0). lia.
Qed.

(** ** bd_malloc *)

Section malloc.
Context g (Hg : geo_ok g).

Lemma free_area_take S k i x : free_area g (take S k i) x -> free_area g S x.
Proof using Type. intros (k' & i' & Hb & Hf & Ha). exists k', i'. split; [done|]. split; [|done]. unfold take, upd2 in Hf. by case_bool_decide. Qed.

Lemma free_area_split S k i x : block g k i -> 0 < k -> free_area g (split S k i) x -> free_area g S x \/ area g k i x.
Proof using Type.
  intros Hb Hk (k' & i' & Hb' & Hf & Ha). unfold split, upd2 in Hf. repeat case_bool_decide; try done; destruct_and?; subst.
  - right. by apply (area_child g k i 1).
  - left. by exists k', i'.
Qed.

Lemma used_split S k i k' i' : shape g S -> block g k i -> 0 < k -> S k i = Some Used ->
  split S k i k' i' = Some Used <-> (S k' i' = Some Used /\ ~ (k' = k /\ i' = i)) \/ (k' = k - 1 /\ i' = 2 * i).
Proof using Type.
  intros Hs Hb Hk Hu. pose proof (block_child g k i 1 Hb Hk ltac:(lia)) as Hb1. pose proof Hb as [Hl _]. unfold level in Hl.
  assert (Hkid : S (k - 1) (2 * i + 1) = None).
  { destruct (S (k - 1) (2 * i + 1)) eqn:E; [|done]. assert (Hx : is_Some (S (k - 1) (2 * i + 1))) by (by rewrite E).
    apply (sh_child _ _ Hs) in Hx; [|done|lia]. replace (k - 1 + 1) with k in Hx by lia. rewrite (proj2 (children (2 * i + 1) i)) in Hx by auto. congruence. }
  unfold split, upd2. repeat case_bool_decide; destruct_and?; subst; try (intuition (congruence || lia)).
Qed.

(** Of the blocks that start where a block in use starts, none of smaller size is. *)
Lemma only_used S k i k1 i1 : shape g S -> block g k i -> S k i = Some Used -> 0 <= k1 <= k -> i1 * BLK_SIZE k1 = i * BLK_SIZE k ->
  S k1 i1 = Some Used -> k1 = k /\ i1 = i.
Proof using Type.
  intros Hs Hb Hu Hk E H1. pose proof (BLK_SIZE_pos k1 ltac:(lia)). destruct (decide (k1 = k)) as [->|Hne]; [split; [done|nia]|].
  rewrite (BLK_SIZE_mul k1 k) in E by lia. assert (Ei : i1 = i * 2 ^ (k - k1)) by nia. exfalso.
  pose proof (inside_none g S Hs k1 i k Hb ltac:(lia) ltac:(lia) ltac:(congruence)) as Hn. congruence.
Qed.

(** The loop that splits the block down to the size of the request. *)
Lemma run_split_down b0 b S k i fk (Q : unit -> buddy -> Prop) : nsizes b0 = top g + 1 -> bd_base b0 = base g ->
  buddy_ok g b S -> block g k i -> S k i = Some Used -> meta g <= i * BLK_SIZE k -> 0 <= fk <= k ->
  (forall b' S' j, buddy_ok g b' S' -> block g fk j -> addr_of g fk j = addr_of g k i ->
     (forall k' i', S' k' i' = Some Used <-> (S k' i' = Some Used /\ ~ (k' = k /\ i' = i)) \/ (k' = fk /\ i' = j)) ->
     (forall x, area g fk j x -> area g k i x) -> frame g (fun x => free_area g S x \/ area g k i x) b b' -> Q tt b') ->
  run (split_down b0 fk (addr_of g k i) k) b Q.
Proof using Hg.
  intros Hn Hbase B Hb Hu Hm Hfk HQ. unfold split_down. pose proof Hb as [Hl _]. unfold level in Hl.
  eapply (run_loop _ (fun k1 b1 => exists S1 i1, fk <= k1 <= k /\ block g k1 i1 /\ i1 * BLK_SIZE k1 = i * BLK_SIZE k /\ buddy_ok g b1 S1 /\ S1 k1 i1 = Some Used /\
    (forall k' i', S1 k' i' = Some Used <-> (S k' i' = Some Used /\ ~ (k' = k /\ i' = i)) \/ (k' = k1 /\ i' = i1)) /\
    (forall x, area g k1 i1 x -> area g k i x) /\ (forall x, free_area g S1 x -> free_area g S x \/ area g k i x) /\
    frame g (fun x => free_area g S x \/ area g k i x) b b1) (fun k1 _ => Z.to_nat (k1 - fk))).
  - intros k1 b1 (S1 & i1 & Hk1 & Hb1 & Ha1 & B1 & Hu1 & HU & Hsub & Hfr & F1).
    assert (Hadd : addr_of g k1 i1 = addr_of g k i) by (unfold addr_of; lia).
    destruct (Z.ltb_spec fk k1) as [Hlt|Hge].
    + assert (Hq : addr_of g k i + BLK_SIZE (k1 - 1) = addr_of g (k1 - 1) (2 * i1 + 1)).
      { rewrite <-Hadd. unfold addr_of. replace (BLK_SIZE k1) with (2 * BLK_SIZE (k1 - 1)) by (rewrite <-BLK_SIZE_succ by lia; f_equal; lia). lia. }
      assert (Hi1 : blk_index b0 k1 (addr_of g k i) = i1) by (rewrite <-Hadd; by apply (blk_index_same g Hg)).
      pose proof (block_child g k1 i1 0 Hb1 ltac:(lia) ltac:(lia)) as Hbc. rewrite Z.add_0_r in Hbc.
      assert (Hac : addr_of g (k1 - 1) (2 * i1) = addr_of g k i).
      { rewrite <-Hadd. unfold addr_of. replace (BLK_SIZE k1) with (2 * BLK_SIZE (k1 - 1)) by (rewrite <-BLK_SIZE_succ by lia; f_equal; lia). lia. }
      assert (Hi2 : blk_index b0 (k1 - 1) (addr_of g k i) = 2 * i1) by (rewrite <-Hac; by apply (blk_index_same g Hg)).
      rewrite Hi1, Hi2, Hq. pose proof (run_split g Hg b1 S1 k1 i1 (fun _ b2 => buddy_ok g b2 (split S1 k1 i1) /\
        frame g (fun x => free_area g S1 x \/ area g k1 i1 x) b1 b2) B1 Hb1 ltac:(lia) Hu1 ltac:(lia) ltac:(done)) as Hrun.
      rewrite run_bind in Hrun. wp. eapply run_mono; [exact Hrun|]. intros [] b2 Hrun2. rewrite run_bind in Hrun2. wp. eapply run_mono; [exact Hrun2|]. intros [] b3 Hrun3.
      wp. eapply run_mono; [exact Hrun3|]. intros [] b4 [B4 F4]. wp. split; [|lia].
      pose proof (bo_shape _ _ _ B1) as Hs1. exists (split S1 k1 i1), (2 * i1). split_and!.
      * lia.
      * lia.
      * done.
      * unfold addr_of in Hac. lia.
      * done.
      * apply (used_split S1 k1 i1); try done; [lia|]. by right.
      * intros k' i'. rewrite (used_split S1 k1 i1) by (done || lia). rewrite HU. assert (Hx : S k1 i1 = Some Used -> k1 = k /\ i1 = i) by (apply (only_used S k i k1 i1); [apply B|done|done|lia|done]).
        destruct (decide (k' = k1 /\ i' = i1)) as [[-> ->]|Hno]; intuition lia.
      * intros x Hx. apply Hsub. apply (area_child g k1 i1 0); [lia|lia|]. by rewrite Z.add_0_r.
      * intros x Hx. apply free_area_split in Hx as [Hx|Hx]; [by apply Hfr|right; by apply Hsub|done|lia].
      * eapply frame_trans; [exact F1|exact F4|]. intros x [Hx|Hx]; [by apply Hfr|right; by apply Hsub].
    + assert (k1 = fk) as -> by lia. wp. eapply HQ; try done.
  - exists S, i. split_and!; try done; try lia; [intros k' i'|by left].
    destruct (decide (k' = k /\ i' = i)) as [[-> ->]|Hne]; intuition congruence.
  - pose proof (gk_top _ Hg). lia.
Qed.

Lemma run_find_free b S fk (Q : Z -> buddy -> Prop) : buddy_ok g b S -> 0 <= fk ->
  (forall k, fk <= k -> (top g < k -> forall k' i, fk <= k' -> block g k' i -> S k' i <> Some Free) ->
     (k <= top g -> exists i, block g k i /\ S k i = Some Free) -> Q k b) -> run (find_free b fk) b Q.
Proof using Hg.
  intros B Hfk HQ. destruct (buddy_ok_elim g _ _ B) as (L & St & HL). pose proof (gk_top _ Hg) as Htop. pose proof (so_n _ _ _ _ _ St) as Hn. unfold find_free.
  eapply (run_loop _ (fun k b' => b' = b /\ fk <= k /\ forall k' i, fk <= k' < k -> block g k' i -> S k' i <> Some Free) (fun k _ => Z.to_nat (nsizes b - k))).
  - intros k b' (-> & Hk & Hno). rewrite Hn. destruct (Z.ltb_spec k (top g + 1)) as [Hlt|Hge].
    + assert (Hlv : level g k) by (unfold level; lia). wp. rewrite (free_list_eq g b k) by apply St. rewrite (dll_empty _ _ _ (mo_list _ _ _ _ _ (so_mem _ _ _ _ _ St) k Hlv)).
      case_bool_decide as E; wp.
      * split; [|lia]. split_and!; [done|lia|]. intros k' i Hk' Hb Hf. destruct (decide (k' = k)) as [->|Hne]; [|by apply (Hno k' i ltac:(lia) Hb)].
        assert (Hin : addr_of g k i ∈ L k) by (apply HL; [done|by exists i]). rewrite E in Hin. by apply not_elem_of_nil in Hin.
      * apply HQ; [done|lia|]. intros _. destruct (L k) as [|a l] eqn:EL; [done|]. assert (Hin : a ∈ L k) by (rewrite EL; set_solver).
        apply HL in Hin as (i & Hb & Hf & _); [by exists i|done].
    + wp. apply HQ; [done| |lia]. intros _ k' i Hk' Hb. apply Hno; [|done]. destruct Hb as [Hb _]. unfold level in Hb. lia.
  - split_and!; [done|lia|]. intros. lia.
  - lia.
Qed.

(** What bd_malloc() delivers. *)
Definition malloc_result (b : buddy) S (n p : Z) (b' : buddy) : Prop :=
  (p = 0 /\ b' = b /\ forall k i, block g k i -> S k i = Some Free -> BLK_SIZE k < n) \/
  (exists k i S', block g k i /\ p = addr_of g k i /\ n <= BLK_SIZE k /\ (k = 0 \/ BLK_SIZE (k - 1) < n) /\
     buddy_ok g b' S' /\ S k i <> Some Used /\ (forall k' i', S' k' i' = Some Used <-> S k' i' = Some Used \/ (k' = k /\ i' = i)) /\
     (forall x, area g k i x -> free_area g S x) /\ frame g (free_area g S) b b').

Lemma run_malloc_locked b S n (Q : Z -> buddy -> Prop) : buddy_ok g b S -> n <= 2 ^ 63 ->
  (forall p b', malloc_result b S n p b' -> Q p b') -> run (malloc_locked 64 n) b Q.
Proof using Hg.
  intros B Hn HQ. destruct (firstk_spec n Hn) as (fk & E & Hfk & Hbig & Hmin). unfold malloc_locked. rewrite E. wp. change (id b) with b.
  eapply run_find_free; [done|lia|]. intros k Hk Hnone Hsome. rewrite (bo_n _ _ _ B).
  destruct (Z.leb_spec (top g + 1) k) as [Hge|Hlt].
  - wp. apply HQ. left. split_and!; [done|done|]. intros k' i Hb Hf. destruct (Z_lt_ge_dec k' fk) as [Hlt|Hge'].
    + destruct Hmin as [->|Hmin]; [destruct Hb as [[Hb _] _]; lia|]. destruct Hb as [[Hb _] _].
      rewrite (BLK_SIZE_mul k' (fk - 1)) in Hmin by lia. pose proof (Z.pow_pos_nonneg 2 (fk - 1 - k')). pose proof (BLK_SIZE_pos k' Hb). nia.
    + exfalso. apply (Hnone ltac:(lia) k' i); [lia|done|done].
  - assert (Hlv : level g k) by (unfold level; lia).
    pose proof (run_take g Hg b S k (fun p b1 => exists i, p = addr_of g k i /\ block g k i /\ S k i = Some Free /\ buddy_ok g b1 (take S k i) /\ frame g (free_area g S) b b1)
      B Hlv (Hsome ltac:(lia)) ltac:(intros i b1 H1 H2 H3 H4; by exists i)) as Hrun.
    rewrite run_bind in Hrun. wp. eapply run_mono; [exact Hrun|]. intros p b1 Hrun1. rewrite run_bind in Hrun1. wp. eapply run_mono; [exact Hrun1|].
    intros [] b2 (i & -> & Hb & Hf & B2 & F2). wp. pose proof (past_meta g Hg S k i ltac:(apply B) ltac:(apply B) Hb Hf) as Hm.
    assert (Hu : take S k i k i = Some Used) by (unfold take; apply upd2_eq).
    eapply (run_split_down b b2 (take S k i) k i); [apply B|apply B|done|done|done|done|lia|].
    intros b3 S' j B3 Hbj Ha HU Hsub F3. wp. apply HQ. right. exists fk, j, S'. split_and!; try done.
    + intros Hx. assert (Hxt : take S k i fk j = Some Used) by (unfold take, upd2; by case_bool_decide).
      destruct (only_used (take S k i) k i fk j) as [-> ->]; try done; [apply B2|lia|unfold addr_of in Ha; lia|congruence].
    + intros k' i'. rewrite HU. unfold take. destruct (decide (k' = k /\ i' = i)) as [[-> ->]|Hne].
      * rewrite upd2_eq, Hf. intuition congruence.
      * rewrite upd2_ne by lia. intuition.
    + intros x Hx. exists k, i. split; [done|]. split; [done|]. by apply Hsub.
    + eapply frame_trans; [exact F2|exact F3|]. intros x [Hx|Hx]; [by eapply free_area_take|by exists k, i].
Qed.
End malloc.

(** ** bd_free *)

Section free.
Context g (Hg : geo_ok g).

(** size() finds the size of a block in use. *)
Lemma run_size b S k i (Q : Z -> buddy -> Prop) : buddy_ok g b S -> block g k i -> k < top g -> S k i = Some Used ->
  Q k b -> run (size (addr_of g k i)) b Q.
Proof using Hg.
  intros B Hb Hlt Hu HQ. destruct (buddy_ok_elim g _ _ B) as (L & St & HL). pose proof (bo_shape _ _ _ B) as Hs. pose proof Hb as [[Hl _] _].
  assert (Hbit : forall j i', level g j -> 0 < j -> block g j i' -> split_isset b j i' = sbit S j i').
  { intros j i' Hj H0 Hbj. unfold split_isset. rewrite (split_of_eq g b j _ _ _ (so_sizes _ _ _ _ _ St) (so_mem _ _ _ _ _ St) Hj H0).
    by apply (mo_sbit _ _ _ _ _ (so_mem _ _ _ _ _ St)). }
  unfold size. wp. change (id b) with b. rewrite (bo_n _ _ _ B).
  eapply (run_for_each _ _ _ (fun pre b' => b' = b /\ forall j, j ∈ pre -> j < k)).
  - split; [done|]. intros j Hj. by apply not_elem_of_nil in Hj.
  - intros pre x post b' El [-> Hpre]. wp. assert (Hx : seqZ 0 (top g + 1) !! length pre = Some x) by (rewrite El; by apply list_lookup_middle).
    apply lookup_seqZ in Hx as [Hx Hxr]. rewrite Z.add_0_l in Hx.
    assert (Hxk : x <= k).
    { destruct (Z_le_gt_dec x k) as [|Hgt]; [done|exfalso]. assert (Hin : k ∈ pre).
      { assert (Hkk : seqZ 0 (top g + 1) !! Z.to_nat k = Some k) by (apply lookup_seqZ; lia). rewrite El in Hkk. rewrite lookup_app_l in Hkk by lia. by eapply list_elem_of_lookup_2. }
      specialize (Hpre k Hin). lia. }
    rewrite (blk_index_block g Hg) by (done || lia || apply B). destruct (decide (x = k)) as [->|Hne].
    + rewrite BLK_SIZE_succ by lia. pose proof (BLK_SIZE_pos k Hl). rewrite Z.div_mul_cancel_r by lia.
      rewrite Hbit; [|unfold level; lia|lia|by apply block_parent]. unfold sbit.
      rewrite (proj1 (sh_child _ _ Hs k i Hb Hlt)) by (by rewrite Hu). exact HQ.
    + pose proof (BLK_SIZE_pos (x + 1) ltac:(lia)). rewrite (BLK_SIZE_mul (x + 1) k), Z.mul_assoc, Z.div_mul by lia.
      assert (Hnb : S (x + 1) (i * 2 ^ (k - (x + 1))) <> Some Split /\ block g (x + 1) (i * 2 ^ (k - (x + 1)))).
      { destruct (decide (x + 1 = k)) as [<-|Hne']; [rewrite Z.sub_diag, Z.mul_1_r; split; [congruence|done]|]. split.
        - rewrite (inside_none g S Hs (x + 1) i k Hb ltac:(lia) ltac:(lia) ltac:(congruence)). done.
        - split; [unfold level; lia|]. pose proof Hb as [_ Hi]. unfold nblk in *. replace (top g - (x + 1)) with ((top g - k) + (k - (x + 1))) by lia.
          rewrite Z.pow_add_r by lia. pose proof (Z.pow_pos_nonneg 2 (k - (x + 1))). nia. }
      destruct Hnb as [Hnb Hbx]. rewrite Hbit; [|unfold level; lia|lia|done]. unfold sbit. destruct (S (x + 1) (i * 2 ^ (k - (x + 1)))) as [[]|]; try done.
      all: split; [done|]; intros j Hj; apply elem_of_app in Hj as [Hj|Hj]; [by apply Hpre|apply list_elem_of_singleton in Hj; lia].
  - intros b' [-> Hpre]. exfalso. assert (Hin : k ∈ seqZ 0 (top g + 1)) by (apply elem_of_seqZ; lia). specialize (Hpre k Hin). lia.
Qed.

Lemma below_top k i : block g k i -> meta g <= i * BLK_SIZE k -> k < top g.
Proof using Hg.
  intros [[Hl Ht] Hi] Hm. destruct (decide (k = top g)) as [->|]; [|lia]. unfold nblk in Hi. rewrite Z.sub_diag in Hi. change (2 ^ 0) with 1 in Hi.
  pose proof (gk_meta _ Hg). assert (i = 0) as -> by lia. lia.
Qed.

(** The block in use at [addr_of k i], its buddy tested and its bit cleared:
    the buddy is in use or split, or it is free. *)
Definition tested (b b' : buddy) S (k i : Z) : Prop :=
  exists L, st_ok g b' (upd2 (abit S) k i false) (sbit S) L /\ lists_ok g S L /\ frame g (fun _ => False) b b' /\
    (alloc_isset b' k (buddy_of i) = false <-> S k (buddy_of i) = Some Free).

Lemma run_clear_test b S k i (Q : unit -> buddy -> Prop) : buddy_ok g b S -> block g k i -> k < top g -> S k i = Some Used ->
  (forall b', tested b b' S k i -> Q tt b') -> run (clear_alloc_bit k i) b Q.
Proof using Hg.
  intros B Hb Hlt Hu HQ. destruct (buddy_ok_elim g _ _ B) as (L & St & HL). pose proof (bo_shape _ _ _ B) as Hs.
  destruct (buddy_block g k i Hb Hlt) as (Hbb & Hbd & Hne).
  eapply (run_clear_alloc g Hg); [exact St|done|]. intros b1 St1 F1. apply HQ. exists L. split; [done|]. split; [done|]. split; [done|].
  unfold alloc_isset. rewrite (alloc_of_eq g b1 k _ _ _ (so_sizes _ _ _ _ _ St1) (so_mem _ _ _ _ _ St1) ltac:(apply Hb)).
  rewrite (mo_abit _ _ _ _ _ (so_mem _ _ _ _ _ St1) k _ Hbb), upd2_ne by (by right).
  assert (Hex : is_Some (S k (buddy_of i))).
  { apply (sh_child _ _ Hs); [done|done|]. rewrite Hbd. apply (sh_child _ _ Hs k i); [done|done|by rewrite Hu]. }
  unfold abit. destruct (S k (buddy_of i)) as [[]|]; [done|done|done|by destruct Hex].
Qed.

(** The free buddy leaves its list and the pair becomes one block in use. *)
Lemma run_merge {R} b S k i L (next : B R) (Q : R -> buddy -> Prop) : shape g S -> reserved g S -> st_ok g b (upd2 (abit S) k i false) (sbit S) L -> lists_ok g S L ->
  block g k i -> k < top g -> S k i = Some Used -> S k (buddy_of i) = Some Free -> meta g <= i * BLK_SIZE k ->
  (forall b', buddy_ok g b' (merge S k i) -> frame g (free_area g S) b b' -> run next b' Q) ->
  run (upd (fun m => lst_remove m (addr_of g k (buddy_of i))) ;; clear_split_bit (k + 1) (i / 2) ;; next) b Q.
Proof using Hg.
  intros Hs Hr St HL Hb Hlt Hu Hf Hm HQ. destruct (buddy_block g k i Hb Hlt) as (Hbb & Hbd & Hne). pose proof Hb as [Hl _]. unfold level in Hl.
  assert (Hp : S (k + 1) (i / 2) = Some Split) by (apply (sh_child _ _ Hs k i); [done|done|by rewrite Hu]).
  assert (Hin : addr_of g k (buddy_of i) ∈ L k) by (apply HL; [apply Hb|by exists (buddy_of i)]).
  apply list_elem_of_split in Hin as (l1 & l2 & EL). pose proof (block_parent g k i Hb Hlt) as Hbp.
  wp. eapply (run_remove g Hg); [exact St|apply Hb|exact EL|]. intros b1 St1 F1. wp. eapply (run_clear_split g Hg); [exact St1|done|lia|]. intros b2 St2 F2.
  apply HQ.
  - eapply (buddy_ok_intro g _ _ (upd1 L k (l1 ++ l2))).
    + eapply st_ok_ext; [exact St2|..]; intros k' i' _; unfold abit, sbit, merge, upd2; repeat case_bool_decide; try done; try lia; destruct_and?; subst; try (by rewrite ?Hp, ?Hu, ?Hf).
    + by apply shape_merge.
    + intros j H0 Hj. pose proof (Hr j H0 Hj) as Hrj. assert (Hne0 : ~ (0 = k /\ (j = i \/ j = buddy_of i))).
      { intros [<- [->| ->]]; [|congruence]. change (BLK_SIZE 0) with 16 in Hm. lia. }
      unfold merge. rewrite !upd2_ne by lia. done.
    + assert (Hk : level g k) by apply Hb. eapply (lists_remove g S _ L k (buddy_of i)); [done|done| |exact EL| |].
      * pose proof (dll_nodup _ _ _ (mo_list _ _ _ _ _ (so_mem _ _ _ _ _ St) k Hk)) as Hnd. by apply NoDup_cons in Hnd as [_ Hnd].
      * unfold merge. by rewrite upd2_eq.
      * intros k' i' Hno. unfold merge. rewrite (upd2_ne _ k (buddy_of i)) by done. unfold upd2. repeat case_bool_decide; destruct_and?; subst; try done; rewrite ?Hu, ?Hp; done.
  - eapply frame_trans; [eapply frame_mono; [exact F1|]|exact F2|done]. intros x. apply touches_free; [done|apply Hb].
Qed.

Definition free_result (b : buddy) S (k i : Z) (b' : buddy) : Prop :=
  exists S', buddy_ok g b' S' /\ (forall k' i', S' k' i' = Some Used <-> S k' i' = Some Used /\ ~ (k' = k /\ i' = i)) /\
    frame g (fun x => free_area g S x \/ area g k i x) b b'.

(** The loop of bd_free(): [S1] is the state, with block [(k, i)] in use. *)
Record freeing (b : buddy) S (k0 i0 : Z) (b1 : buddy) S1 (k i : Z) : Prop := {
  fr_block : block g k i;
  fr_used : S1 k i = Some Used;
  fr_meta : meta g <= i * BLK_SIZE k;
  fr_uses : forall k' i', S1 k' i' = Some Used <-> (S k' i' = Some Used /\ ~ (k' = k0 /\ i' = i0)) \/ (k' = k /\ i' = i);
  fr_only : S k i = Some Used -> k = k0 /\ i = i0;
  fr_frees : forall x, free_area g S1 x -> free_area g S x \/ area g k0 i0 x;
  fr_area : forall x, area g k i x -> free_area g S x \/ area g k0 i0 x;
  fr_frame : frame g (fun x => free_area g S x \/ area g k0 i0 x) b b1
}.

Lemma even_child i : (if buddy_of i mod 2 =? 0 then buddy_of i else i) = 2 * (i / 2).
Proof using Type.
  clear Hg. unfold buddy_of. pose proof (Z.div_mod i 2 ltac:(lia)). pose proof (Z.mod_pos_bound i 2 ltac:(lia)). destruct (Z.eqb_spec (i mod 2) 0) as [E|E].
  - assert (H1 : (i + 1) mod 2 = 1) by (symmetry; apply (Z.mod_unique_pos _ _ (i / 2)); lia). rewrite H1. cbn. lia.
  - assert (H1 : (i - 1) mod 2 = 0) by (symmetry; apply (Z.mod_unique_pos _ _ (i / 2)); lia). rewrite H1. cbn. lia.
Qed.

Lemma freeing_merge b S k0 i0 b1 S1 k i b2 : shape g S1 -> reserved g S1 -> freeing b S k0 i0 b1 S1 k i -> S1 k (buddy_of i) = Some Free -> k < top g ->
  frame g (free_area g S1) b1 b2 -> freeing b S k0 i0 b2 (merge S1 k i) (k + 1) (i / 2).
Proof using Hg.
  intros Hs Hr [F1 F2 F3 F4 F5 F6 F7 F8] Hf Hlt Hfr. destruct (buddy_block g k i F1 Hlt) as (Hbb & Hbd & Hne). pose proof F1 as [Hl _]. unfold level in Hl.
  pose proof (past_meta g Hg S1 k (buddy_of i) Hs Hr Hbb Hf) as Hmb. pose proof (BLK_SIZE_pos k ltac:(lia)) as Hpos.
  assert (Hp : S1 (k + 1) (i / 2) = Some Split) by (apply (sh_child _ _ Hs k i); [done|done|by rewrite F2]).
  assert (Hnew : merge S1 k i (k + 1) (i / 2) = Some Used) by (look; done).
  split.
  - by apply block_parent.
  - done.
  - rewrite BLK_SIZE_succ by lia. pose proof (even_child i) as He. destruct (_ =? 0) in He; nia.
  - intros k' i'. assert (Hm : merge S1 k i k' i' = Some Used <-> (S1 k' i' = Some Used /\ ~ (k' = k /\ i' = i)) \/ (k' = k + 1 /\ i' = i / 2)).
    { unfold merge, upd2. repeat case_bool_decide; destruct_and?; subst; intuition (congruence || lia). }
    rewrite Hm, F4. destruct (decide (k' = k /\ i' = i)) as [[-> ->]|Hno]; [|intuition lia]. split; [intuition lia|].
    intros [[Hx Hy]|Hx]; [|lia]. exfalso. apply Hy. by apply F5.
  - intros Hx. destruct (decide (k + 1 = k0 /\ i / 2 = i0)) as [|Hno]; [done|exfalso]. assert (Hy : S1 (k + 1) (i / 2) = Some Used) by (apply F4; by left). congruence.
  - intros x (k' & i' & Hb' & Hf' & Ha'). apply F6. exists k', i'. split; [done|]. split; [|done]. unfold merge, upd2 in Hf'. by repeat case_bool_decide.
  - intros x Hx. assert (Hch : area g k i x \/ area g k (buddy_of i) x).
    { unfold area in *. rewrite BLK_SIZE_succ in Hx by lia. pose proof (proj1 (children i (i / 2)) eq_refl) as Hc. pose proof (proj1 (children (buddy_of i) (i / 2)) Hbd) as Hc'.
      destruct Hc as [Hc|Hc], Hc' as [Hc'|Hc']; try lia; rewrite Hc, Hc' in *; nia. }
    destruct Hch as [Hch|Hch]; [by apply F7|]. apply F6. by exists k, (buddy_of i).
  - eapply frame_trans; [exact F8|exact Hfr|exact F6].
Qed.

(** The last step: the block, not to be merged, goes on its free list. *)
Lemma run_last b S k0 i0 b1 S1 k i b2 (Q : unit -> buddy -> Prop) : buddy_ok g b1 S1 -> freeing b S k0 i0 b1 S1 k i -> tested b1 b2 S1 k i ->
  S1 k (buddy_of i) <> Some Free -> (forall b', free_result b S k0 i0 b' -> Q tt b') -> run (push k (addr_of g k i)) b2 Q.
Proof using Hg.
  intros B1 [F1 F2 F3 F4 F5 F6 F7 F8] (L & St & HL & F & _) Hn HQ. pose proof (bo_shape _ _ _ B1) as Hs. pose proof (bo_reserved _ _ _ B1) as Hr.
  assert (Hk : level g k) by apply F1. pose proof Hk as Hk'. unfold level in Hk'.
  eapply (run_push g Hg); [exact St|done|by apply unit_block| |].
  { intros k' Hl'. eapply (not_listed g S1 L k i); try done. apply area_addr. lia. }
  intros b3 St3 F3'. apply HQ. exists (release S1 k i). split; [|split].
  - eapply (buddy_ok_intro g); [|by apply shape_release| |].
    + eapply st_ok_ext; [exact St3|..]; intros k' i' _; unfold abit, sbit, release, upd2; case_bool_decide; try done. destruct_and!. subst. by rewrite F2.
    + intros j H0 Hj. unfold release. rewrite upd2_ne; [by apply Hr|]. destruct (decide (k = 0)) as [->|]; [right|by left].
      intros ->. change (BLK_SIZE 0) with 16 in F3. lia.
    + eapply lists_push; [done|done| |congruence|].
      * unfold release. by rewrite upd2_eq.
      * intros k' i' Hno. unfold release. by rewrite upd2_ne.
  - intros k' i'. unfold release, upd2. case_bool_decide as Hd.
    + destruct Hd as [-> ->]. split; [done|]. intros [H1 H2]. exfalso. by apply H2, F5.
    + rewrite F4. intuition.
  - eapply frame_trans; [eapply frame_trans; [exact F8|exact F|done]|exact F3'|]. intros x (e & He & Hx). apply elem_of_cons in He as [->|He].
    + apply F7. unfold in_node, area, addr_of in *. pose proof (BLK_SIZE_pos k ltac:(lia)). lia.
    + apply F6. eapply touches_free; [done|done|]. by exists e.
Qed.

Lemma run_free_locked b S k0 i0 (Q : unit -> buddy -> Prop) : buddy_ok g b S -> block g k0 i0 -> S k0 i0 = Some Used -> meta g <= i0 * BLK_SIZE k0 ->
  (forall b', free_result b S k0 i0 b' -> Q tt b') -> run (free_locked (addr_of g k0 i0)) b Q.
Proof using Hg.
  intros B Hb Hu Hm HQ. pose proof (below_top k0 i0 Hb Hm) as Hlt0. unfold free_locked. wp. change (id b) with b. eapply run_size; [done|done|done|done|]. wp.
  pose proof (bo_base _ _ _ B) as Hbase. rewrite (bo_n _ _ _ B). unfold MAXSIZE. rewrite (bo_n _ _ _ B). replace (top g + 1 - 1) with (top g) by lia.
  eapply (run_loop _ (fun '(p, k) b1 => exists S1 i, buddy_ok g b1 S1 /\ p = addr_of g k i /\ freeing b S k0 i0 b1 S1 k i) (fun '(_, k) _ => Z.to_nat (top g - k))).
  - intros [p k] b1 (S1 & i & B1 & -> & Fr). pose proof (below_top k i (fr_block _ _ _ _ _ _ _ _ Fr) (fr_meta _ _ _ _ _ _ _ _ Fr)) as Hlt.
    destruct (Z.ltb_spec k (top g)); [|lia]. pose proof (fr_block _ _ _ _ _ _ _ _ Fr) as Hbi. rewrite (blk_index_same g Hg) by done.
    pose proof (fr_used _ _ _ _ _ _ _ _ Fr) as Hui. destruct (buddy_block g k i Hbi Hlt) as (Hbb & Hbd & Hne).
    wp. eapply run_clear_test; [done|done|done|done|]. intros b2 T. wp. pose proof T as (L & St & HL & F & Ha).
    destruct (alloc_isset b2 k (buddy_of i)).
    + wp. eapply run_last; [done|done|done| |done]. intros Hx. apply Ha in Hx. done.
    + pose proof (proj1 Ha eq_refl) as Hf. rewrite (addr_eq g Hg) by done.
      assert (Hp : (if buddy_of i mod 2 =? 0 then addr_of g k (buddy_of i) else addr_of g k i) = addr_of g (k + 1) (i / 2)).
      { pose proof (even_child i) as He. pose proof Hbi as [[Hl _] _]. unfold addr_of. rewrite BLK_SIZE_succ by done. destruct (_ =? 0) in He |- *; nia. }
      rewrite Hp, (blk_index_same g Hg _ (k + 1)) by (try apply block_parent; done).
      eapply (run_merge b2 S1 k i L); try done; [apply B1|apply B1|apply Fr|]. intros b3 B3 F3. wp. split; [|lia].
      exists (merge S1 k i), (i / 2). split; [done|]. split; [done|]. eapply freeing_merge; try done; [apply B1|apply B1|]. eapply frame_trans; [eapply frame_mono; [exact F|done]|exact F3|done].
  - exists S, i0. split; [done|]. split; [done|]. split; try done.
    + intros k' i'. destruct (decide (k' = k0 /\ i' = i0)) as [[-> ->]|Hne]; intuition congruence.
    + by left.
    + by right.
  - unfold level, block in *. destruct Hb as [[? ?] ?]. lia.
Qed.
End free.

(** ** The lock *)

(** The code under the lock neither takes nor gives back the lock. *)
Definition keeps {A} (c : B A) : Prop := forall b, match c b with Ok _ b' => locked b' = locked b | Swtch _ _ => False | _ => True end.

Lemma keeps_ret {A} (x : A) : keeps (ret x).
Proof. done. Qed.
Lemma keeps_gets {A} (f : buddy -> A) : keeps (gets f).
Proof. done. Qed.
Lemma keeps_panic {A} msg : keeps (panic (A := A) msg).
Proof. done. Qed.
Lemma keeps_stuck {A} msg : keeps (stuck (A := A) msg).
Proof. done. Qed.
Lemma keeps_modify f : (forall b, locked (f b) = locked b) -> keeps (modify f).
Proof. intros H b. apply H. Qed.
Lemma keeps_bind {A A'} (c : B A) (f : A -> B A') : keeps c -> (forall x, keeps (f x)) -> keeps (bind c f).
Proof. intros H1 H2 b. unfold bind. specialize (H1 b). destruct (c b) as [x b'| | |]; [|done..]. cbn. specialize (H2 x b'). destruct (f x b'); congruence. Qed.
Lemma keeps_loop {X R} fuel (body : X -> B (X + R)) : (forall x, keeps (body x)) -> forall x, keeps (loop fuel body x).
Proof. intros H. induction fuel as [|fuel IH]; intros x; cbn [loop]; [apply keeps_stuck|]. apply keeps_bind; [apply H|]. intros []; [apply IH|apply keeps_ret]. Qed.
Lemma keeps_for_each {X R} (l : list X) (body : X -> B (option R)) : (forall x, keeps (body x)) -> keeps (for_each l body).
Proof. intros H. induction l as [|x l IH]; cbn [for_each]; [apply keeps_ret|]. apply keeps_bind; [apply H|]. intros []; [apply keeps_ret|apply IH]. Qed.
Lemma keeps_iter_each {X} (l : list X) (body : X -> B unit) : (forall x, keeps (body x)) -> keeps (iter_each l body).
Proof. intros H. induction l as [|x l IH]; cbn [iter_each]; [apply keeps_ret|]. apply keeps_bind; [apply H|]. intros _. apply IH. Qed.

Create HintDb keeps discriminated.
#[export] Hint Constants Opaque : keeps.
#[export] Hint Resolve keeps_ret keeps_gets keeps_panic keeps_stuck : keeps.
Ltac keeps := cbv zeta; repeat first [progress eauto with keeps nocore | apply keeps_bind; [|intros ?] | apply keeps_loop; intros ? | apply keeps_for_each; intros ? | apply keeps_iter_each; intros ? | apply keeps_modify; done | progress cbv beta iota zeta | progress unfold when | case_match].

Lemma keeps_push k p : keeps (push k p).
Proof. by apply keeps_modify. Qed.
Lemma keeps_pop k : keeps (pop k).
Proof. unfold pop, upd. keeps. Qed.
Lemma keeps_set_alloc k i : keeps (set_alloc_bit k i).
Proof. by apply keeps_modify. Qed.
Lemma keeps_clear_alloc k i : keeps (clear_alloc_bit k i).
Proof. by apply keeps_modify. Qed.
Lemma keeps_set_split k i : keeps (set_split_bit k i).
Proof. by apply keeps_modify. Qed.
Lemma keeps_clear_split k i : keeps (clear_split_bit k i).
Proof. by apply keeps_modify. Qed.
#[export] Hint Resolve keeps_push keeps_pop keeps_set_alloc keeps_clear_alloc keeps_set_split keeps_clear_split : keeps.

Lemma keeps_malloc fuel n : keeps (malloc_locked fuel n).
Proof. unfold malloc_locked, find_free, split_down. keeps. Qed.
Lemma keeps_free p : keeps (free_locked p).
Proof. unfold free_locked, size, upd. keeps. Qed.

Lemma run_keeps {A} (c : B A) b (Q : A -> buddy -> Prop) : keeps c -> run c b (fun x b' => locked b' = locked b -> Q x b') -> run c b Q.
Proof. intros H. specialize (H b). unfold run. destruct (c b); [|done..]. intros HQ. by apply HQ. Qed.

(** The state but for the lock and the messages. *)
Definition same (b b' : buddy) : Prop := bm b' = bm b /\ nsizes b' = nsizes b /\ bd_sizes b' = bd_sizes b /\ bd_base b' = bd_base b.

Lemma buddy_ok_same g b b' S : same b b' -> buddy_ok g b S -> buddy_ok g b' S.
Proof. intros (E1 & E2 & E3 & E4) []. split; rewrite ?E1, ?E2, ?E3, ?E4; assumption. Qed.
Lemma st_ok_same g b b' A P L : same b b' -> st_ok g b A P L -> st_ok g b' A P L.
Proof. intros (E1 & E2 & E3 & E4) []. split; rewrite ?E1, ?E2, ?E3, ?E4; assumption. Qed.

Lemma run_under_lock {A} (c : B A) b (Q : A -> buddy -> Prop) : keeps c -> locked b = false -> run c (set_locked true b) (fun x b' => Q x (set_locked false b')) ->
  run (acquire ;; x <- c ;; Buddy.release ;; ret x) b Q.
Proof.
  intros Hk Hl Hc. unfold acquire, Buddy.release. wp. rewrite Hl. wp. apply run_keeps; [done|]. eapply run_mono; [exact Hc|]. intros x b' HQ E. cbn in E. wp. rewrite E. wp. exact HQ.
Qed.

Lemma run_unit (c d : B unit) b (Q : unit -> buddy -> Prop) : run (acquire ;; x <- c ;; d ;; ret x) b Q -> run (acquire ;; c ;; d) b Q.
Proof.
  intros H. apply run_bind in H. wp. eapply run_mono; [exact H|]. intros [] b1 H1. apply run_bind in H1. wp. eapply run_mono; [exact H1|]. intros [] b2 H2. apply run_bind in H2. eapply run_mono; [exact H2|]. intros [] b3 H3. exact H3.
Qed.

Section locked.
Context g (Hg : geo_ok g).

Lemma run_malloc b S n (Q : Z -> buddy -> Prop) : buddy_ok g b S -> locked b = false -> n <= 2 ^ 63 ->
  (forall p b', malloc_result g b S n p b' -> locked b' = false -> Q p b') -> run (bd_malloc 64 n) b Q.
Proof using Hg.
  intros B Hl Hn HQ. apply run_under_lock; [apply keeps_malloc|done|]. eapply (run_malloc_locked g Hg); [by eapply buddy_ok_same; [|exact B]|done|].
  intros p b' Hr. apply HQ; [|done]. destruct Hr as [(-> & -> & Hr)|(k & i & S' & H1 & H2 & H3 & H4 & H5 & H6)].
  - left. split; [done|]. split; [|done]. destruct b. cbn in *. by rewrite Hl.
  - right. exists k, i, S'. split_and!; [done|done|done|done|by eapply buddy_ok_same; [|exact H5]|apply H6|apply H6|apply H6|apply H6].
Qed.

Lemma run_free b S k i (Q : unit -> buddy -> Prop) : buddy_ok g b S -> locked b = false -> block g k i -> S k i = Some Used -> meta g <= i * BLK_SIZE k ->
  (forall b', free_result g b S k i b' -> locked b' = false -> Q tt b') -> run (bd_free (addr_of g k i)) b Q.
Proof using Hg.
  intros B Hl Hb Hu Hm HQ. apply run_unit, run_under_lock; [apply keeps_free|done|]. eapply (run_free_locked g Hg); [by eapply buddy_ok_same; [|exact B]|done|done|done|].
  intros b' (S' & H1 & H2 & H3). apply HQ; [|done]. exists S'. split_and!; [by eapply buddy_ok_same; [|exact H1]|done|done].
Qed.
End locked.
End BuddyProof.
