(* ===== verification/BuddyInit.v ===== *)
(** * The buddy allocator's initialisation (kernel/buddy.c)

    bd_init lays out the array bd_sizes and the bit vectors at the start of
    the memory, marks what lies under them and what lies past the end as in
    use, and puts the rest, cut into blocks as large as they can be, on the
    free lists.  The result satisfies the allocator's invariant, and every
    unit of memory it was given past its own data is free. *)

From S2P Require Import Prelude Bytes CString KList Buddy BuddyMem BuddyProof.

Module BuddyInit.
Import KList Buddy BuddyMem BuddyProof.
Implicit Types (g : geo) (S : state).

(** ** The layout bd_init chooses *)

(** The bytes of the vectors of the sizes below [k]; [t] is the largest size. *)
Definition vbytes (t k : Z) : Z := (2 ^ (t - k) + 7) / 8.
Definition vectors (t k : Z) : Z := foldr Z.add 0 (vbytes t <$> seqZ 0 k).

Definition layout (t base : Z) : geo :=
  let a := base + 32 * (t + 1) in
  let s := a + vectors t (t + 1) - vbytes t 0 in
  mkGeo t base (ROUNDUP (s + vectors t (t + 1)) 16 - base) (fun k => a + vectors t k) (fun k => s + vectors t k).

Lemma vectors_succ t k : 0 <= k -> vectors t (k + 1) = vectors t k + vbytes t k.
Proof.
  intros Hk. unfold vectors. rewrite seqZ_app, fmap_app, foldr_app by lia. rewrite Z.add_0_l. change (seqZ k 1) with (seqZ k (Z.succ 0)).
  rewrite seqZ_cons by lia. cbn [fmap list_fmap]. rewrite seqZ_nil by lia. cbn. rewrite Z.add_0_r. generalize (vbytes t <$> seqZ 0 k). intros l.
  induction l as [|x l IH]; cbn; lia.
Qed.

Lemma vbytes_pos t k : k <= t -> 0 < vbytes t k.
Proof. intros Hk. unfold vbytes. pose proof (Z.pow_pos_nonneg 2 (t - k)). pose proof (Z.div_le_mono 8 (2 ^ (t - k) + 7) 8 ltac:(lia) ltac:(lia)). change (8 / 8) with 1 in *. lia. Qed.

Lemma vectors_mono t k : 0 <= k <= t -> forall j, k < j <= t + 1 -> vectors t k + vbytes t k <= vectors t j.
Proof.
  intros Hk j [Hj Ht]. revert Ht. pattern j. apply (Zlt_lower_bound_ind _ (k + 1)); [|lia]. clear j Hj. intros j IH Hj Ht.
  destruct (decide (j = k + 1)) as [->|Hne]; [rewrite vectors_succ by lia; lia|].
  replace j with (j - 1 + 1) by lia. rewrite (vectors_succ t (j - 1)) by lia. pose proof (vbytes_pos t (j - 1) ltac:(lia)). specialize (IH (j - 1) ltac:(lia) ltac:(lia)). lia.
Qed.

Lemma vectors_bound t k : 0 <= k <= t + 1 -> 8 * vectors t k + 2 ^ (t + 1 - k) <= 2 ^ (t + 1) + 7 * k.
Proof.
  intros [Hk Ht]. revert Ht. pattern k. apply (Zlt_lower_bound_ind _ 0); [|lia]. clear k Hk. intros k IH Hk Ht.
  destruct (decide (k = 0)) as [->|Hne]; [unfold vectors; rewrite seqZ_nil by lia; cbn; rewrite Z.sub_0_r; lia|].
  specialize (IH (k - 1) ltac:(lia) ltac:(lia)). replace k with (k - 1 + 1) at 1 by lia. rewrite vectors_succ by lia. replace (t + 1 - (k - 1)) with (1 + (t + 1 - k)) in IH by lia.
  rewrite Z.pow_add_r in IH by lia. change (2 ^ 1) with 2 in IH. unfold vbytes. replace (t - (k - 1)) with (t + 1 - k) by lia.
  pose proof (Z.mul_div_le (2 ^ (t + 1 - k) + 7) 8 ltac:(lia)). lia.
Qed.

Lemma linear_pow t : 7 <= t -> 270 * (t + 1) + 120 <= 29 * 2 ^ t.
Proof.
  intros Ht. pattern t. apply (Zlt_lower_bound_ind _ 7); [|done]. clear t Ht. intros t IH Ht. destruct (decide (t = 7)) as [->|Hne]; [done|].
  specialize (IH (t - 1) ltac:(lia)). replace t with (1 + (t - 1)) at 2 by lia. rewrite Z.pow_add_r by lia. change (2 ^ 1) with 2. lia.
Qed.

Lemma ROUNDUP_bounds n : 0 <= n -> n <= ROUNDUP n 16 < n + 16 /\ ROUNDUP n 16 mod 16 = 0.
Proof.
  intros Hn. unfold ROUNDUP. pose proof (Z.div_mod (n - 1) 16 ltac:(lia)). pose proof (Z.mod_pos_bound (n - 1) 16 ltac:(lia)).
  split; [lia|]. apply Z.mod_mul. lia.
Qed.

(** The allocator's data takes at most a quarter of the memory. *)
Lemma meta_small t base : 7 <= t -> base mod 16 = 0 -> 0 <= base -> 4 * meta (layout t base) <= heap (layout t base).
Proof.
  intros Ht Hb H0. unfold heap. cbn [meta top layout]. rewrite BLK_SIZE_eq by lia. pose proof (vectors_bound t (t + 1) ltac:(lia)) as Hv. rewrite Z.sub_diag in Hv.
  change (2 ^ 0) with 1 in Hv. rewrite Z.pow_add_r in Hv by lia. change (2 ^ 1) with 2 in Hv. pose proof (linear_pow t Ht).
  assert (Hvb : 2 ^ t <= 8 * vbytes t 0) by (unfold vbytes; rewrite Z.sub_0_r; pose proof (Z.div_mod (2 ^ t + 7) 8 ltac:(lia)); pose proof (Z.mod_pos_bound (2 ^ t + 7) 8 ltac:(lia)); lia).
  pose proof (vectors_mono t 0 ltac:(lia) (t + 1) ltac:(lia)) as Hm. replace (vectors t 0) with 0 in Hm by done. pose proof (vbytes_pos t 0 ltac:(lia)).
  match goal with |- context [ROUNDUP ?x 16] => destruct (ROUNDUP_bounds x ltac:(lia)) end. lia.
Qed.

Section layout.
Context (t base : Z) (Ht : 7 <= t <= 27) (Hb : base mod 16 = 0) (H0 : 0 < base) (Hend : base + BLK_SIZE t < 2 ^ 63).
Let g := layout t base.

Lemma layout_places k : 0 <= k <= t -> base + 32 * (t + 1) <= al g k /\ al g k + vbytes t k <= sp g 1 /\
  (0 < k -> sp g 1 <= sp g k /\ sp g k + vbytes t k <= base + meta g).
Proof using Ht Hb H0.
  clear Hend. intros Hk. cbn [al sp meta g layout]. assert (Hz : forall k, 0 < k <= t + 1 -> vbytes t 0 <= vectors t k).
  { intros k' Hk'. pose proof (vectors_mono t 0 ltac:(lia) k' ltac:(lia)) as Hv. replace (vectors t 0) with 0 in Hv by done. lia. }
  pose proof (vbytes_pos t 0 ltac:(lia)). pose proof (vbytes_pos t k ltac:(lia)). pose proof (vectors_mono t k ltac:(lia) (t + 1) ltac:(lia)).
  pose proof (Hz 1 ltac:(lia)). pose proof (Hz (t + 1) ltac:(lia)).
  assert (Hv1 : vectors t 1 = vbytes t 0) by (change 1 with (0 + 1) at 1; rewrite vectors_succ by lia; done).
  split; [destruct (decide (k = 0)) as [->|]; [by change (vectors t 0) with 0; lia|pose proof (Hz k ltac:(lia)); lia]|]. split; [lia|]. intros Hpos.
  pose proof (Hz k ltac:(lia)). match goal with |- context [ROUNDUP ?x 16] => destruct (ROUNDUP_bounds x ltac:(lia)) end. lia.
Qed.

Lemma layout_ok : geo_ok g.
Proof using Ht Hb H0 Hend.
  pose proof (meta_small t base ltac:(lia) Hb ltac:(lia)) as Hm. fold g in Hm. pose proof (BLK_SIZE_pos t ltac:(lia)) as Hp.
  pose proof (layout_places 1 ltac:(lia)) as (P1 & P2 & P3). specialize (P3 ltac:(lia)). pose proof (vbytes_pos t 1 ltac:(lia)). pose proof (layout_places 0 ltac:(lia)) as (P0 & _).
  assert (Hmod : meta g mod 16 = 0).
  { cbn [meta g layout]. match goal with |- context [ROUNDUP ?x 16] => destruct (ROUNDUP_bounds x) as [_ Hr] end; [|].
    - pose proof (vectors_mono t 0 ltac:(lia) (t + 1) ltac:(lia)) as Hv. replace (vectors t 0) with 0 in Hv by done. pose proof (vbytes_pos t 0 ltac:(lia)). lia.
    - rewrite Zminus_mod, Hr, Hb. done. }
  split; unfold level, heap in *; cbn [top BuddyMem.base g layout] in *.
  - lia.
  - split_and!; lia.
  - split; [done|]. lia.
  - intros k Hk. pose proof (layout_places k Hk) as (Q1 & Q2 & _). change (vsize g k) with (vbytes t k). lia.
  - intros k Hk Hk0. pose proof (layout_places k Hk) as (Q1 & Q2 & Q3). specialize (Q3 Hk0). change (vsize g k) with (vbytes t k). lia.
  - intros k k' Hk Hk' Hne. change (vsize g) with (vbytes t). cbn [al g layout].
    destruct (Z.lt_total k k') as [Hlt|[?|Hlt]]; [|done|]; [pose proof (vectors_mono t k Hk k' ltac:(lia))|pose proof (vectors_mono t k' Hk' k ltac:(lia))]; lia.
  - intros k k' Hk Hk' _ _ Hne. change (vsize g) with (vbytes t). cbn [sp g layout].
    destruct (Z.lt_total k k') as [Hlt|[?|Hlt]]; [|done|]; [pose proof (vectors_mono t k Hk k' ltac:(lia))|pose proof (vectors_mono t k' Hk' k ltac:(lia))]; lia.
  - intros k k' Hk Hk' Hk0. change (vsize g) with (vbytes t). pose proof (layout_places k Hk) as (_ & Q2 & _). pose proof (layout_places k' Hk') as (_ & _ & Q3). specialize (Q3 Hk0). lia.
Qed.

(** ** Setting up the array and the vectors *)

(** The sizes below [ka] have their list and alloc, those below [ks] split. *)
Record laid (m0 m : mem) (ka ks : Z) : Prop := {
  la_list : forall j, 0 <= j < ka -> dll m (head_of g j) [];
  la_al : forall j, 0 <= j < ka -> ld64 m (head_of g j + 16) = al g j;
  la_sp : forall j, 0 < j < ks -> ld64 m (head_of g j + 24) = sp g j;
  la_zero : forall x, al g 0 <= x < al g ka \/ sp g 1 <= x < sp g ks -> getb m x = 0;
  la_frame : forall x, ~ in_meta g x -> getb m x = getb m0 x
}.

Lemma al_succ k : 0 <= k -> al g (k + 1) = al g k + vbytes t k.
Proof using Type. intros Hk. cbn [al g layout]. rewrite (vectors_succ t k) by lia. lia. Qed.
Lemma sp_succ k : 0 <= k -> sp g (k + 1) = sp g k + vbytes t k.
Proof using Type. intros Hk. cbn [sp g layout]. rewrite (vectors_succ t k) by lia. lia. Qed.
Lemma al_last : al g (t + 1) = sp g 1.
Proof using Type.
  cbn [al sp g layout]. assert (Hv1 : vectors t 1 = vbytes t 0) by (change 1 with (0 + 1) at 1; rewrite vectors_succ by lia; done). lia.
Qed.
Lemma al_mono k : 0 <= k <= t + 1 -> al g 0 <= al g k.
Proof using Ht.
  clear Hb H0 Hend. intros Hk. destruct (decide (k = 0)) as [->|]; [lia|]. cbn [al g layout]. pose proof (vectors_mono t 0 ltac:(lia) k ltac:(lia)). pose proof (vbytes_pos t 0 ltac:(lia)). lia.
Qed.
Lemma head_meta k x : 0 <= k <= t -> head_of g k <= x < head_of g k + 32 -> base <= x < base + 32 * (t + 1) /\ in_meta g x.
Proof using Ht Hb H0 Hend.
  intros Hk Hx. pose proof (top_meta g layout_ok) as Htm. unfold in_meta, head_of in *. change (top g) with t in *. change (BuddyMem.base g) with base in *. lia.
Qed.
Lemma head_place k : 0 <= k -> base <= head_of g k /\ (k <= t -> head_of g k + 32 <= base + 32 * (t + 1)).
Proof using Type. intros Hk. unfold head_of. change (BuddyMem.base g) with base. lia. Qed.

Lemma getb_lst_init m h x : ~ in_node h x -> getb (lst_init m h) x = getb m x.
Proof using Type. intros Hx. unfold lst_init. by rewrite getb_set_prev, getb_set_next. Qed.

Lemma getb_zero (m : mem) p n x : getb (CString.memset m p 0 n) x = if bool_decide (p <= x < p + n) then 0 else getb m x.
Proof using Type. rewrite CString.getb_memset by done. done. Qed.

Lemma ld64_ext (m m' : mem) a : (forall x, a <= x < a + 8 -> getb m' x = getb m x) -> ld64 m' a = ld64 m a.
Proof using Type. intros Hx. apply ldn_ext. exact Hx. Qed.

(** A new size, and a new split vector. *)
Lemma laid_alloc m0 m k : 0 <= k <= t -> laid m0 m k 1 ->
  laid m0 (CString.memset (st64 (lst_init m (head_of g k)) (head_of g k + 16) (al g k)) (al g k) 0 (vbytes t k)) (k + 1) 1.
Proof using Ht Hb H0 Hend.
  intros Hk [L1 L2 L3 L4 L5]. set (m1 := st64 _ _ _). destruct (layout_places k Hk) as (P1 & P2 & _). pose proof (vbytes_pos t k ltac:(lia)).
  destruct (layout_places 1 ltac:(lia)) as (_ & _ & P3). specialize (P3 ltac:(lia)). pose proof (vbytes_pos t 1 ltac:(lia)). pose proof (al_mono k ltac:(lia)).
  assert (Hm1 : forall x, ~ (head_of g k <= x < head_of g k + 24) -> getb m1 x = getb m x).
  { intros x Hx. unfold m1. rewrite getb_link by lia. apply getb_lst_init. unfold in_node. lia. }
  assert (Hold : forall j x, 0 <= j < k -> head_of g j <= x < head_of g j + 32 -> getb (CString.memset m1 (al g k) 0 (vbytes t k)) x = getb m x).
  { intros j x Hj Hx. destruct (head_meta j x ltac:(lia) Hx). rewrite getb_zero, bool_decide_false by lia. apply Hm1. unfold head_of in *. lia. }
  assert (Hnew : forall x, head_of g k <= x < head_of g k + 32 -> getb (CString.memset m1 (al g k) 0 (vbytes t k)) x = getb m1 x).
  { intros x Hx. destruct (head_meta k x ltac:(lia) Hx). rewrite getb_zero, bool_decide_false by lia. done. }
  pose proof (head_place k ltac:(lia)) as Hh. assert (Hbnd : al g k < 2 ^ 64).
  { pose proof layout_ok as Hok. pose proof (gk_meta _ Hok) as [_ Hme]. pose proof (gk_base _ Hok) as (_ & _ & Hba). change (BuddyMem.base g) with base in Hba. lia. }
  split.
  - intros j Hj. destruct (decide (j = k)) as [->|Hne].
    + eapply dll_ext; [|apply (dll_init m (head_of g k))]; [|unfold node; lia]. intros e x He Hx. apply list_elem_of_singleton in He as ->. unfold in_node in Hx.
      rewrite Hnew by lia. unfold m1. apply getb_link. lia.
    + eapply dll_ext; [|by apply (L1 j); lia]. intros e x He Hx. apply list_elem_of_singleton in He as ->. unfold in_node in Hx. apply (Hold j); lia.
  - intros j Hj. destruct (decide (j = k)) as [->|Hne].
    + rewrite (ld64_ext m1) by (intros x Hx; apply Hnew; lia). unfold m1. apply ld64_st64_eq. lia.
    + rewrite (ld64_ext m) by (intros x Hx; apply (Hold j); lia). apply L2. lia.
  - intros j Hj. lia.
  - intros x Hx. rewrite al_succ in Hx by lia. rewrite getb_zero. case_bool_decide; [done|]. rewrite Hm1; [apply L4; lia|]. destruct (layout_places 0 ltac:(lia)). lia.
  - intros x Hx. rewrite getb_zero, bool_decide_false by (intros Hx'; apply Hx; unfold in_meta; change (BuddyMem.base g) with base; lia).
    rewrite Hm1; [by apply L5|]. intros Hx'. apply Hx, (head_meta k x); lia.
Qed.

Lemma laid_split m0 m k : 0 < k <= t -> laid m0 m (t + 1) k ->
  laid m0 (CString.memset (st64 m (head_of g k + 24) (sp g k)) (sp g k) 0 (vbytes t k)) (t + 1) (k + 1).
Proof using Ht Hb H0 Hend.
  intros Hk [L1 L2 L3 L4 L5]. set (m1 := st64 _ _ _). destruct (layout_places k ltac:(lia)) as (P1 & P2 & P3). specialize (P3 ltac:(lia)). pose proof (vbytes_pos t k ltac:(lia)).
  pose proof (vbytes_pos t 1 ltac:(lia)). pose proof (vbytes_pos t 0 ltac:(lia)). destruct (layout_places 0 ltac:(lia)) as (Q1 & Q2 & _).
  assert (Hm1 : forall x, ~ (head_of g k + 24 <= x < head_of g k + 32) -> getb m1 x = getb m x).
  { intros x Hx. unfold m1. rewrite getb_link by lia. done. }
  assert (Hhead : forall j x, 0 <= j <= t -> head_of g j <= x < head_of g j + 32 -> getb (CString.memset m1 (sp g k) 0 (vbytes t k)) x = getb m1 x).
  { intros j x Hj Hx. destruct (head_meta j x ltac:(lia) Hx). rewrite getb_zero, bool_decide_false by lia. done. }
  assert (Hold : forall j x, 0 <= j <= t -> head_of g j <= x < head_of g j + 32 -> j <> k \/ x < head_of g j + 24 -> getb (CString.memset m1 (sp g k) 0 (vbytes t k)) x = getb m x).
  { intros j x Hj Hx Hor. rewrite (Hhead j) by lia. apply Hm1. unfold head_of in *. lia. }
  pose proof (head_place k ltac:(lia)) as Hh. assert (Hbnd : sp g k < 2 ^ 64).
  { pose proof layout_ok as Hok. pose proof (gk_meta _ Hok) as [_ Hme]. pose proof (gk_base _ Hok) as (_ & _ & Hba). change (BuddyMem.base g) with base in Hba. lia. }
  split.
  - intros j Hj. eapply dll_ext; [|by apply (L1 j); lia]. intros e x He Hx. apply list_elem_of_singleton in He as ->. unfold in_node in Hx. apply (Hold j); lia.
  - intros j Hj. rewrite (ld64_ext m) by (intros x Hx; apply (Hold j); lia). by apply L2.
  - intros j Hj. destruct (decide (j = k)) as [->|Hne].
    + rewrite (ld64_ext m1) by (intros x Hx; apply (Hhead k); lia). unfold m1. apply ld64_st64_eq. lia.
    + rewrite (ld64_ext m) by (intros x Hx; apply (Hold j); lia). apply L3. lia.
  - intros x Hx. rewrite sp_succ in Hx by lia. rewrite getb_zero. case_bool_decide; [done|]. rewrite Hm1; [apply L4; lia|]. lia.
  - intros x Hx. rewrite getb_zero, bool_decide_false by (intros Hx'; apply Hx; unfold in_meta; change (BuddyMem.base g) with base; lia).
    rewrite Hm1; [by apply L5|]. intros Hx'. apply Hx, (head_meta k x); lia.
Qed.

Lemma vector_size_eq b k : nsizes b = t + 1 -> 0 <= k <= t -> vector_size b k = vbytes t k.
Proof using Type.
  clear Ht Hb H0 Hend. intros Hn Hk. unfold vector_size, NBLK, MAXSIZE, ROUNDUP, vbytes. rewrite Hn, Z.shiftl_1_l, Z.div_mul by lia. replace (t + 1 - 1 - k) with (t - k) by lia.
  replace (2 ^ (t - k) + 7) with (2 ^ (t - k) - 1 + 1 * 8) by lia. rewrite Z.div_add by lia. done.
Qed.

Definition set_up (m0 : mem) (b : buddy) (ka ks : Z) : Prop := nsizes b = t + 1 /\ bd_sizes b = base /\ bd_base b = base /\ laid m0 (bm b) ka ks.

Lemma run_init_alloc m0 b (Q : Z -> buddy -> Prop) : set_up m0 b 0 1 ->
  (forall b', set_up m0 b' (t + 1) 1 -> Q (al g (t + 1)) b') -> run (init_alloc (al g 0)) b Q.
Proof using Ht Hb H0 Hend.
  intros S0 HQ. unfold init_alloc. wp. change (id b) with b. pose proof S0 as (Hn & _). rewrite Hn.
  eapply (run_loop _ (fun '(k, p) b1 => 0 <= k <= t + 1 /\ p = al g k /\ set_up m0 b1 k 1) (fun '(k, _) _ => Z.to_nat (t + 1 - k))); [|split; [lia|done]|lia].
  intros [k p] b1 (Hk & -> & Hn1 & Hs1 & Hb1 & La). destruct (Z.ltb_spec k (t + 1)).
  - wp. unfold upd. wp. rewrite vector_size_eq by lia. split; [|lia]. split; [lia|]. split; [by rewrite al_succ by lia|]. split; [done|]. split; [done|]. split; [done|]. cbn.
    unfold free_list, sz_info. cbn. rewrite Hs1. apply (laid_alloc m0 (bm b1) k); [lia|done].
  - wp. assert (k = t + 1) as -> by lia. by apply HQ.
Qed.

Lemma run_init_split m0 b (Q : Z -> buddy -> Prop) : set_up m0 b (t + 1) 1 ->
  (forall b', set_up m0 b' (t + 1) (t + 1) -> Q (sp g (t + 1)) b') -> run (init_split (sp g 1)) b Q.
Proof using Ht Hb H0 Hend.
  intros S0 HQ. unfold init_split. wp. change (id b) with b. pose proof S0 as (Hn & _). rewrite Hn.
  eapply (run_loop _ (fun '(k, p) b1 => 0 < k <= t + 1 /\ p = sp g k /\ set_up m0 b1 (t + 1) k) (fun '(k, _) _ => Z.to_nat (t + 1 - k))); [|split; [lia|done]|lia].
  intros [k p] b1 (Hk & -> & Hn1 & Hs1 & Hb1 & La). destruct (Z.ltb_spec k (t + 1)).
  - wp. unfold upd. wp. rewrite vector_size_eq by lia. split; [|lia]. split; [lia|]. split; [by rewrite sp_succ by lia|]. split; [done|]. split; [done|]. split; [done|]. cbn.
    unfold sz_info. rewrite Hs1. apply (laid_split m0 (bm b1) k); [lia|done].
  - wp. assert (k = t + 1) as -> by lia. by apply HQ.
Qed.

Lemma set_up_done m0 b : set_up m0 b (t + 1) (t + 1) -> st_ok g b (fun _ _ => false) (fun _ _ => false) (fun _ => []).
Proof using Ht Hb H0 Hend.
  intros (Hn & Hs & Hbb & [L1 L2 L3 L4 L5]). split; [done..|].
  assert (Hbit : forall a i, 0 <= i -> getb (bm b) (a + i / 8) = 0 -> bit_isset (bm b) a i = false).
  { intros a i Hi E. rewrite bit_isset_testbit, E by done. apply Z.testbit_0_l. }
  split.
  - intros k Hk. apply L2. unfold level in Hk. cbn in Hk. lia.
  - intros k Hk Hk0. apply L3. unfold level in Hk. cbn in Hk. lia.
  - intros k i Hbl. pose proof (bit_byte g k i Hbl) as Hby. destruct Hbl as [Hk Hi]. unfold level in Hk. cbn [top g layout] in Hk. apply Hbit; [lia|]. apply L4. left.
    rewrite al_last. destruct (layout_places k Hk) as (P1 & P2 & _). pose proof (al_mono k ltac:(lia)). change (vsize g k) with (vbytes t k) in Hby. lia.
  - intros k i Hbl Hk0. pose proof (bit_byte g k i Hbl) as Hby. destruct Hbl as [Hk Hi]. unfold level in Hk. cbn [top g layout] in Hk. apply Hbit; [lia|]. apply L4. right.
    destruct (layout_places k Hk) as (_ & _ & P3). specialize (P3 Hk0). change (vsize g k) with (vbytes t k) in Hby. rewrite (sp_succ t) by lia.
    assert (sp g k + vbytes t k <= sp g t + vbytes t t); [|lia]. rewrite <-!sp_succ by lia. cbn [sp g layout]. destruct (decide (k = t)) as [->|]; [lia|].
    pose proof (vectors_mono t (k + 1) ltac:(lia) (t + 1) ltac:(lia)). pose proof (vbytes_pos t (k + 1) ltac:(lia)). lia.
  - intros k Hk. apply L1. unfold level in Hk. cbn in Hk. lia.
  - intros k a _ Ha. by apply not_elem_of_nil in Ha.
  - intros k k' a _ _ Ha. by apply not_elem_of_nil in Ha.
Qed.
End layout.

(** ** Marking memory in use *)

Definition cdiv (o d : Z) : Z := (o + d - 1) / d.

Lemma cdiv_spec o d : 0 < d -> forall i, i < cdiv o d <-> i * d < o.
Proof.
  intros Hd i. unfold cdiv. pose proof (Z.div_mod (o + d - 1) d ltac:(lia)) as Hm. pose proof (Z.mod_pos_bound (o + d - 1) d ltac:(lia)). split; intros Hi; nia.
Qed.
Lemma div_spec o d : 0 < d -> forall i, o / d <= i <-> o < (i + 1) * d.
Proof. intros Hd i. pose proof (Z.div_mod o d ltac:(lia)) as Hm. pose proof (Z.mod_pos_bound o d ltac:(lia)). split; intros Hi; nia. Qed.

Section marks.
Context g (Hg : geo_ok g).

Lemma blk_index_next_eq b k o : bd_base b = base g -> 0 <= k -> 0 <= o <= heap g -> blk_index_next b k (base g + o) = cdiv o (BLK_SIZE k).
Proof using Hg.
  intros Hb Hk Ho. pose proof (heap_small g Hg). pose proof (BLK_SIZE_pos k Hk). unfold blk_index_next. rewrite Hb. replace (base g + o - base g) with o by lia.
  rewrite Z.quot_div_nonneg, Z.rem_mod_nonneg by lia. pose proof (Z.div_mod o (BLK_SIZE k) ltac:(lia)) as Hm. pose proof (Z.mod_pos_bound o (BLK_SIZE k) ltac:(lia)).
  rewrite s32_small by nia. unfold cdiv. destruct (Z.eqb_spec (o mod BLK_SIZE k) 0) as [E|E]; cbn [negb].
  - apply (Z.div_unique_pos _ _ _ (BLK_SIZE k - 1)); lia.
  - apply (Z.div_unique_pos _ _ _ (o mod BLK_SIZE k - 1)); lia.
Qed.

Lemma in_range_block k s e i : level g k -> 0 <= s -> e <= heap g -> s / BLK_SIZE k <= i -> i < cdiv e (BLK_SIZE k) -> block g k i.
Proof using Type.
  clear Hg. intros Hk Hs He Hi1 Hi2. pose proof Hk as [Hk0 Hkt]. pose proof (BLK_SIZE_pos k Hk0) as Hp. apply div_spec in Hi1; [|lia]. apply cdiv_spec in Hi2; [|lia].
  split; [done|]. unfold nblk, heap in *. rewrite (BLK_SIZE_mul k (top g)) in He by lia. nia.
Qed.

(** The smallest size has no split bits. *)
Lemma st_ok_split b A P P' L : st_ok g b A P L -> (forall k i, block g k i -> 0 < k -> P' k i = P k i) -> st_ok g b A P' L.
Proof using Type.
  clear Hg. intros [B1 B2 B3 [M1 M2 M3 M4 M5 M6 M7]] HP. split; [done..|]. split; try done. intros k i Hb H0. rewrite HP by done. by apply M4.
Qed.

(** What marking the bytes from [s] to [e] adds to the bits. *)
Definition mark (s e : Z) (A : Z -> Z -> bool) (k i : Z) : bool := A k i || bool_decide (s / BLK_SIZE k <= i < cdiv e (BLK_SIZE k)).

Lemma run_mark_level b A P L k s e (Q : unit -> buddy -> Prop) : st_ok g b A P L -> level g k -> 0 <= s -> e <= heap g ->
  (forall b', st_ok g b' (fun k' i => A k' i || (bool_decide (k' = k) && bool_decide (s / BLK_SIZE k <= i < cdiv e (BLK_SIZE k))))
      (fun k' i => P k' i || (bool_decide (k' = k) && bool_decide (s / BLK_SIZE k <= i < cdiv e (BLK_SIZE k)))) L -> frame g (fun _ => False) b b' -> Q tt b') ->
  run (iter_each (seqZ (s / BLK_SIZE k) (cdiv e (BLK_SIZE k) - s / BLK_SIZE k)) (fun bi => when (0 <? k) (set_split_bit k bi) ;; set_alloc_bit k bi)) b Q.
Proof using Hg.
  intros St Hk Hs He HQ. set (bi := s / BLK_SIZE k) in *. set (bj := cdiv e (BLK_SIZE k)) in *.
  eapply (run_iter_each _ _ _ (fun pre b' => st_ok g b' (fun k' i => A k' i || (bool_decide (k' = k) && bool_decide (i ∈ pre)))
     (fun k' i => P k' i || (bool_decide (k' = k) && bool_decide (i ∈ pre))) L /\ frame g (fun _ => False) b b')).
  - split; [|apply frame_refl]. eapply st_ok_ext; [exact St|..]; intros k' i' _; rewrite (bool_decide_false (i' ∈ [])) by set_solver; by rewrite andb_false_r, orb_false_r.
  - intros pre i post b1 E [St1 F1]. assert (Hin : i ∈ seqZ bi (bj - bi)) by (rewrite E; set_solver). apply elem_of_seqZ in Hin.
    assert (Hbl : block g k i) by (apply (in_range_block k s e); [done|lia|done|lia|lia]).
    assert (Hupd : forall X k' i', upd2 (fun k' i => X k' i || (bool_decide (k' = k) && bool_decide (i ∈ pre))) k i true k' i' = X k' i' || (bool_decide (k' = k) && bool_decide (i' ∈ pre ++ [i]))).
    { intros X k' i'. unfold upd2. repeat case_bool_decide; destruct_and?; subst; rewrite ?orb_true_r; try done; set_solver. }
    rewrite run_bind. destruct (Z.ltb_spec 0 k) as [H0|H0]; cbn [when].
    + eapply (run_set_split g Hg); [exact St1|done|done|]. intros b2 St2 F2. eapply (run_set_alloc g Hg); [exact St2|done|]. intros b3 St3 F3.
      split; [|eapply frame_trans; [eapply frame_trans; [exact F1|exact F2|done]|exact F3|done]].
      eapply st_ok_ext; [exact St3|..]; intros k' i' _; by rewrite Hupd.
    + wp. eapply (run_set_alloc g Hg); [exact St1|done|]. intros b3 St3 F3. split; [|eapply frame_trans; [exact F1|exact F3|done]].
      eapply (st_ok_split _ _ (fun k' i => P k' i || (bool_decide (k' = k) && bool_decide (i ∈ pre)))); [eapply st_ok_ext; [exact St3| |done]; intros k' i' _; by rewrite Hupd|].
      intros k' i' Hb' H1. by rewrite !(bool_decide_false (k' = k)) by lia.
  - intros b' [St' F']. apply HQ; [|done]. eapply st_ok_ext; [exact St'|..]; intros k' i' _; cbv beta; f_equal; f_equal; apply bool_decide_ext; rewrite elem_of_seqZ; lia.
Qed.

Lemma run_mark b A P L s e (Q : unit -> buddy -> Prop) : st_ok g b A P L -> 0 <= s < heap g -> 0 <= e <= heap g -> s mod 16 = 0 -> e mod 16 = 0 ->
  (forall b', st_ok g b' (mark s e A) (mark s e P) L -> frame g (fun _ => False) b b' -> Q tt b') -> run (bd_mark (base g + s) (base g + e)) b Q.
Proof using Hg.
  intros St Hs He Ms Me HQ. pose proof (gk_base _ Hg) as (Hb16 & Hb0 & Hb1). unfold bd_mark, LEAF_SIZE. rewrite !u64_small by lia.
  assert (Hal : forall o, o mod 16 = 0 -> (base g + o) mod 16 = 0) by (intros o Ho; by rewrite Z.add_mod, Hb16, Ho by lia).
  rewrite !Hal by done. change (negb (0 =? 0)) with false. cbv iota beta delta [orb].
  wp. change (id b) with b. pose proof (so_base _ _ _ _ _ St) as Hbb. rewrite (so_n _ _ _ _ _ St).
  eapply (run_iter_each _ _ _ (fun pre b' => st_ok g b' (fun k i => A k i || (bool_decide (k ∈ pre) && bool_decide (s / BLK_SIZE k <= i < cdiv e (BLK_SIZE k))))
     (fun k i => P k i || (bool_decide (k ∈ pre) && bool_decide (s / BLK_SIZE k <= i < cdiv e (BLK_SIZE k)))) L /\ frame g (fun _ => False) b b')).
  - split; [|apply frame_refl]. eapply st_ok_ext; [exact St|..]; intros k' i' _; rewrite (bool_decide_false (k' ∈ [])) by set_solver; by rewrite andb_false_l, orb_false_r.
  - intros pre k post b1 E [St1 F1]. assert (Hin : k ∈ seqZ 0 (top g + 1)) by (rewrite E; set_solver). apply elem_of_seqZ in Hin.
    assert (Hk : level g k) by (unfold level; lia). rewrite (blk_index_eq g Hg), blk_index_next_eq by (done || lia).
    eapply run_mark_level; [exact St1|done|lia|lia|]. intros b2 St2 F2. split; [|eapply frame_trans; [exact F1|exact F2|done]].
    eapply st_ok_ext; [exact St2|..]; intros k' i' _; cbv beta; rewrite <-orb_assoc; f_equal; (destruct (decide (k' = k)) as [->|Hne];
      [rewrite (bool_decide_true (k = k)), (bool_decide_true (k ∈ pre ++ [k])) by set_solver; by rewrite !andb_true_l, orb_comm; destruct (bool_decide (_ <= _ < _)); rewrite ?andb_false_r
      |rewrite (bool_decide_false (k' = k)), andb_false_l, orb_false_r by done; f_equal; apply bool_decide_ext; set_solver]).
  - intros b' [St' F']. apply HQ; [|done]. eapply st_ok_ext; [exact St'|..]; intros k' i' [[? ?] _]; unfold mark; rewrite (bool_decide_true (k' ∈ _)) by (apply elem_of_seqZ; lia); by rewrite andb_true_l.
Qed.
End marks.

(** ** The blocks that start out free *)

Section fresh.
Context g (Hg : geo_ok g) (R : Z) (HR : R mod 16 = 0) (Hlo : heap g <= 2 * R) (Hhi : R < heap g) (Hmeta : 4 * meta g <= heap g).

(** The blocks of size [k] from [lft k] up to [rgt k] hold no byte in use. *)
Definition lft (k : Z) : Z := cdiv (meta g) (BLK_SIZE k).
Definition rgt (k : Z) : Z := R / BLK_SIZE k.
Definition in_use (k i : Z) : bool := bool_decide (i < lft k) || bool_decide (rgt k <= i).
Definition fresh : state := fun k i =>
  if in_use k i then Some (if k =? 0 then Used else Split) else if in_use (k + 1) (i / 2) then Some Free else None.

Lemma in_use_spec k i : in_use k i = true <-> i < lft k \/ rgt k <= i.
Proof using Type. unfold in_use. by rewrite orb_true_iff, !bool_decide_eq_true. Qed.
Lemma in_use_not k i : in_use k i = false <-> lft k <= i < rgt k.
Proof using Type. rewrite <-not_true_iff_false, in_use_spec. lia. Qed.

Lemma lft_succ k : 0 <= k -> lft (k + 1) = (lft k + 1) / 2.
Proof using Type.
  intros Hk. pose proof (BLK_SIZE_pos k Hk). unfold lft, cdiv. rewrite BLK_SIZE_succ, Z.mul_comm, <-Z.div_div by lia. f_equal.
  replace (meta g + BLK_SIZE k * 2 - 1) with (meta g + BLK_SIZE k - 1 + 1 * BLK_SIZE k) by lia. by rewrite Z.div_add by lia.
Qed.
Lemma rgt_succ k : 0 <= k -> rgt (k + 1) = rgt k / 2.
Proof using Type. intros Hk. pose proof (BLK_SIZE_pos k Hk). unfold rgt. by rewrite BLK_SIZE_succ, Z.mul_comm, <-Z.div_div by lia. Qed.

Lemma in_use_parent k i : 0 <= k -> in_use (k + 1) (i / 2) = in_use k i || in_use k (buddy_of i).
Proof using Type.
  intros Hk. apply eq_bool_prop_intro. rewrite !Is_true_true, orb_true_iff, !in_use_spec, lft_succ, rgt_succ by done. generalize (lft k), (rgt k). intros l r. clear.
  unfold buddy_of. pose proof (Z.div_mod i 2 ltac:(lia)). pose proof (Z.mod_pos_bound i 2 ltac:(lia)). pose proof (Z.div_mod (l + 1) 2 ltac:(lia)).
  pose proof (Z.mod_pos_bound (l + 1) 2 ltac:(lia)). pose proof (Z.div_mod r 2 ltac:(lia)). pose proof (Z.mod_pos_bound r 2 ltac:(lia)). destruct (Z.eqb_spec (i mod 2) 0); lia.
Qed.

(** Where the free blocks of each size lie. *)
Lemma fresh_bounds k : 0 <= k < top g -> 1 <= lft k <= rgt k /\ rgt k < nblk g k /\ (k < top g - 1 -> lft k < rgt k) /\ (rgt k = lft k + 1 -> lft k mod 2 = 1).
Proof using Hg Hlo Hhi Hmeta.
  clear HR. intros Hk. pose proof (BLK_SIZE_pos k ltac:(lia)) as Hd. pose proof (gk_meta _ Hg) as [_ Hm].
  assert (Hl : forall i, i < lft k <-> i * BLK_SIZE k < meta g) by (intros i; apply cdiv_spec; lia).
  assert (Hr : forall i, rgt k <= i <-> R < (i + 1) * BLK_SIZE k) by (intros i; apply div_spec; lia).
  assert (Hh : heap g = nblk g k * BLK_SIZE k) by (apply BLK_SIZE_mul; lia).
  assert (H1 : 0 < lft k) by (apply Hl; lia). assert (H2 : rgt k <= nblk g k - 1) by (apply Hr; lia). destruct (decide (k = top g - 1)) as [Ek|Ek].
  - assert (Hn : nblk g k = 2) by (unfold nblk; replace (top g - k) with 1 by lia; done). rewrite Hn in *.
    assert (~ 1 < lft k) by (rewrite Hl; lia). assert (~ rgt k <= 0) by (rewrite Hr; lia). lia.
  - assert (Hn : nblk g k = 4 * 2 ^ (top g - k - 2)) by (unfold nblk; change 4 with (2 ^ 2); rewrite <-Z.pow_add_r by lia; f_equal; lia).
    pose proof (Z.pow_pos_nonneg 2 (top g - k - 2) ltac:(lia) ltac:(lia)) as Hq. set (q := 2 ^ (top g - k - 2)) in *. rewrite Hn in *.
    assert (~ q < lft k) by (rewrite Hl; nia). assert (~ rgt k <= 2 * q - 1) by (rewrite Hr; nia). split_and!; try lia. intros E. assert (Hl1 : lft k = 1) by lia. by rewrite Hl1.
Qed.

Lemma top_in_use : in_use (top g) 0 = true.
Proof using Hg. clear HR Hlo Hhi Hmeta. apply in_use_spec. left. apply cdiv_spec; [pose proof (gk_top _ Hg); pose proof (BLK_SIZE_pos (top g)); lia|]. pose proof (gk_meta _ Hg). lia. Qed.

Lemma top_block i : block g (top g) i -> i = 0.
Proof using Type. intros [_ Hi]. unfold nblk in Hi. rewrite Z.sub_diag in Hi. change (2 ^ 0) with 1 in Hi. lia. Qed.

Lemma fresh_some k i : 0 <= k -> is_Some (fresh k i) <-> in_use (k + 1) (i / 2) = true.
Proof using Type.
  intros Hk. unfold fresh. pose proof (in_use_parent k i Hk) as Hp. destruct (in_use k i); [rewrite Hp; cbn; by split; eauto|].
  destruct (in_use (k + 1) (i / 2)); by split; eauto.
Qed.
Lemma fresh_free k i : fresh k i = Some Free <-> in_use k i = false /\ in_use (k + 1) (i / 2) = true.
Proof using Type. unfold fresh. destruct (in_use k i); [destruct (k =? 0)|destruct (in_use (k + 1) (i / 2))]; naive_solver. Qed.

Lemma fresh_shape : shape g fresh.
Proof using Hg.
  clear HR Hlo Hhi Hmeta. split.
  - unfold fresh. rewrite top_in_use. eauto.
  - intros k i Hb Hlt. pose proof Hb as [[Hk _] _]. rewrite fresh_some by done. unfold fresh at 1. destruct (Z.eqb_spec (k + 1) 0); [lia|].
    destruct (in_use (k + 1) (i / 2)); [done|]. split; [done|]. by destruct (in_use (k + 1 + 1) (i / 2 / 2)).
  - intros i. unfold fresh. destruct (in_use 0 i); [done|]. by destruct (in_use _ _).
  - intros k i Hb Hlt Hf Hf'. apply fresh_free in Hf as [H1 H2]. apply fresh_free in Hf' as [H3 _]. pose proof Hb as [[Hk _] _]. rewrite in_use_parent, H1, H3 in H2 by done. done.
Qed.

Lemma fresh_reserved : reserved g fresh.
Proof using Type.
  intros j H0 Hj. unfold fresh. assert (Hu : in_use 0 j = true) by (apply in_use_spec; left; apply cdiv_spec; [done|]; change (BLK_SIZE 0) with 16; lia). by rewrite Hu.
Qed.

Lemma fresh_bits k i : abit fresh k i = in_use k i /\ (0 < k -> sbit fresh k i = in_use k i).
Proof using Type.
  unfold abit, sbit, fresh. destruct (in_use k i).
  - destruct (Z.eqb_spec k 0); split; try done. lia.
  - by destruct (in_use (k + 1) (i / 2)).
Qed.

(** The free blocks of a size: the first and the last that are free, if they
    are not halves of a larger free block. *)
Lemma fresh_ends k i : 0 <= k < top g -> fresh k i = Some Free <-> lft k < rgt k /\ ((i = lft k /\ lft k mod 2 = 1) \/ (i = rgt k - 1 /\ rgt k mod 2 = 1)).
Proof using Hg Hlo Hhi Hmeta.
  intros Hk. destruct (fresh_bounds k Hk) as (B1 & B2 & B3 & B4). rewrite fresh_free, in_use_parent, orb_true_iff, !in_use_not, !in_use_spec by lia. generalize dependent (lft k). generalize dependent (rgt k). intros r Hr l. clear.
  intros B1 _ B4. unfold buddy_of. pose proof (Z.div_mod i 2 ltac:(lia)). pose proof (Z.mod_pos_bound i 2 ltac:(lia)).
  pose proof (Z.div_mod l 2 ltac:(lia)). pose proof (Z.mod_pos_bound l 2 ltac:(lia)). pose proof (Z.div_mod r 2 ltac:(lia)). pose proof (Z.mod_pos_bound r 2 ltac:(lia)).
  destruct (Z.eqb_spec (i mod 2) 0); split; lia.
Qed.

(** ** Filling the free lists *)

(** The lists hold free blocks. *)
Definition part_ok (L : Z -> list Z) : Prop := forall k a, level g k -> a ∈ L k -> exists i, block g k i /\ fresh k i = Some Free /\ a = addr_of g k i.

Definition frees (k i : Z) : option Z :=
  if in_use k i then if in_use k (buddy_of i) then None else Some (buddy_of i)
  else if in_use k (buddy_of i) then Some i else None.

Definition pushed (L : Z -> list Z) (k : Z) (j : option Z) : Z -> list Z :=
  match j with Some j => upd1 L k (addr_of g k j :: L k) | None => L end.

Lemma frees_free k i j : block g k i -> k < top g -> frees k i = Some j -> block g k j /\ fresh k j = Some Free.
Proof using Type.
  clear Hg HR Hlo Hhi Hmeta. intros Hb Hlt. destruct (buddy_block g k i Hb Hlt) as (Hbb & Hbd & Hne). pose proof Hb as [[Hk _] _]. unfold frees.
  destruct (in_use k i) eqn:E1, (in_use k (buddy_of i)) eqn:E2; intros E; try done; injection E as <-; (split; [done|]); apply fresh_free; (split; [done|]);
    rewrite in_use_parent, ?buddy_buddy, E1, E2 by done; done.
Qed.

Lemma free_unit k j : block g k j -> fresh k j = Some Free -> unit_of g (addr_of g k j).
Proof using Hg. intros Hb Hf. apply (unit_block g Hg); [done|]. by apply (past_meta g Hg fresh); [apply fresh_shape|apply fresh_reserved|..]. Qed.

Lemma run_pair b L k i (Q : Z -> buddy -> Prop) : st_ok g b (abit fresh) (sbit fresh) L -> part_ok L -> block g k i -> k < top g ->
  (forall j, frees k i = Some j -> addr_of g k j ∉ L k) ->
  (forall b', st_ok g b' (abit fresh) (sbit fresh) (pushed L k (frees k i)) -> part_ok (pushed L k (frees k i)) -> frame g (free_area g fresh) b b' ->
     Q (if frees k i is Some _ then BLK_SIZE k else 0) b') ->
  run (bd_initfree_pair k i) b Q.
Proof using Hg.
  clear HR Hlo Hhi Hmeta. intros St HL Hb Hlt Hnew HQ. destruct (buddy_block g k i Hb Hlt) as (Hbb & Hbd & Hne). pose proof Hb as [Hk _].
  unfold bd_initfree_pair. wp. change (id b) with b. pose proof (so_mem _ _ _ _ _ St) as M.
  assert (Hbit : forall j, block g k j -> alloc_isset b k j = in_use k j).
  { intros j Hj. unfold alloc_isset. rewrite (alloc_of_eq g b k _ _ _ (so_sizes _ _ _ _ _ St) M Hk), (mo_abit _ _ _ _ _ M k j Hj). apply fresh_bits. }
  rewrite !Hbit, !(addr_eq g Hg) by (done || apply St).
  assert (Hpush : forall j, frees k i = Some j -> run (push k (addr_of g k j) ;; ret (BLK_SIZE k)) b Q).
  { intros j Ej. destruct (frees_free k i j Hb Hlt Ej) as [Hbj Hfj]. specialize (Hnew j Ej). rewrite Ej in HQ. cbn [pushed] in HQ. wp.
    eapply (run_push g Hg); [exact St|done|by apply free_unit| |].
    - intros k' Hk' Hin. destruct (HL k' _ Hk' Hin) as (i' & Hb' & Hf' & Ea).
      destruct (leaves_apart g fresh (fresh_shape) k j k' i' (addr_of g k j)) as [<- <-]; try done; try (by eexists); try congruence; [apply area_addr; apply Hk|rewrite Ea; apply area_addr; apply Hk'].
    - intros b1 St1 F1. wp. apply HQ; [done| |].
      + intros k' a Hk' Ha. unfold upd1 in Ha. case_bool_decide; [subst|by apply HL]. apply elem_of_cons in Ha as [->|Ha]; [by exists j|by apply HL].
      + eapply frame_mono; [exact F1|]. intros x (e & He & Hx). apply elem_of_cons in He as [->|He].
        * exists k, j. split; [done|]. split; [done|]. unfold in_node, area, addr_of in *. pose proof (BLK_SIZE_pos k ltac:(apply Hk)). lia.
        * destruct (HL k e Hk He) as (i' & Hb' & Hf' & ->). exists k, i'. split; [done|]. split; [done|]. unfold in_node, area, addr_of in *. pose proof (BLK_SIZE_pos k ltac:(apply Hk)). lia. }
  rewrite s32_small by (apply BLK_SIZE_int; pose proof (gk_top _ Hg); unfold level in Hk; lia).
  unfold frees in *. destruct (in_use k i), (in_use k (buddy_of i)); cbn [Bool.eqb negb]; [|by apply Hpush|by apply Hpush|]; wp; apply HQ; try done; apply frame_refl.
Qed.

(** The blocks still to be listed, in units of size [k]. *)
Definition span (k : Z) : Z := Z.max 0 (rgt k - lft k).

Lemma frees_left k : 0 <= k < top g -> frees k (lft k) = if bool_decide (lft k < rgt k /\ lft k mod 2 = 1) then Some (lft k) else None.
Proof using Hg Hlo Hhi Hmeta.
  intros Hk. destruct (fresh_bounds k Hk) as (B1 & B2 & B3 & B4). unfold frees, in_use, buddy_of. generalize dependent (lft k). generalize dependent (rgt k). intros r Hr l B1 _ B4. clear -B1 B4.
  pose proof (Z.mod_pos_bound l 2 ltac:(lia)). destruct (Z.eqb_spec (l mod 2) 0); repeat case_bool_decide; try done; exfalso; lia.
Qed.
Lemma frees_right k : 0 <= k < top g -> lft k < rgt k -> frees k (rgt k) = if bool_decide (rgt k mod 2 = 1) then Some (rgt k - 1) else None.
Proof using Hg Hlo Hhi Hmeta.
  intros Hk. destruct (fresh_bounds k Hk) as (B1 & B2 & B3 & B4). unfold frees, in_use, buddy_of. generalize dependent (lft k). generalize dependent (rgt k). intros r Hr l B1 _ B4. clear -B1 B4.
  pose proof (Z.mod_pos_bound r 2 ltac:(lia)). intros Hlt. destruct (Z.eqb_spec (r mod 2) 0); repeat case_bool_decide; try done; exfalso; lia.
Qed.

Lemma span_succ k : 0 <= k < top g -> span k = 2 * span (k + 1) + (if frees k (lft k) is Some _ then 1 else 0) + (if decide (lft k < rgt k) then if frees k (rgt k) is Some _ then 1 else 0 else 0).
Proof using Hg Hlo Hhi Hmeta.
  intros Hk. destruct (fresh_bounds k Hk) as (B1 & B2 & B3 & B4). rewrite frees_left by done. unfold span. rewrite lft_succ, rgt_succ by lia.
  pose proof (Z.div_mod (lft k + 1) 2 ltac:(lia)); pose proof (Z.mod_pos_bound (lft k + 1) 2 ltac:(lia)); pose proof (Z.div_mod (lft k) 2 ltac:(lia));
  pose proof (Z.mod_pos_bound (lft k) 2 ltac:(lia)); pose proof (Z.div_mod (rgt k) 2 ltac:(lia)); pose proof (Z.mod_pos_bound (rgt k) 2 ltac:(lia)).
  destruct (decide _) as [Hlt|Hge]; [rewrite frees_right by done|]; clear Hlo Hhi HR Hmeta B2; repeat case_bool_decide; lia.
Qed.

Lemma span_grow k : 0 <= k < top g -> 2 * span (k + 1) <= span k.
Proof using Hg Hlo Hhi Hmeta. intros Hk. rewrite (span_succ k Hk). destruct (frees k (lft k)), (decide _), (frees k (rgt k)); lia. Qed.

(** One round of bd_initfree's loop. *)
Definition listed (L : Z -> list Z) (k : Z) : Prop := forall a, a ∈ L k <-> exists i, block g k i /\ fresh k i = Some Free /\ a = addr_of g k i.

Lemma run_initfree_level b L k b0 (Q : Z -> buddy -> Prop) : st_ok g b (abit fresh) (sbit fresh) L -> part_ok L -> 0 <= k < top g -> L k = [] -> bd_base b0 = base g ->
  (forall b' L', st_ok g b' (abit fresh) (sbit fresh) L' -> part_ok L' -> frame g (free_area g fresh) b b' -> (forall j, j <> k -> L' j = L j) -> listed L' k ->
     Q ((span k - 2 * span (k + 1)) * BLK_SIZE k) b') ->
  run (f <- bd_initfree_pair k (blk_index_next b0 k (base g + meta g)) ;;
       if blk_index b0 k (base g + R) <=? blk_index_next b0 k (base g + meta g) then ret f
       else h <- bd_initfree_pair k (blk_index b0 k (base g + R)) ;; ret (f + h)) b Q.
Proof using Hg Hlo Hhi Hmeta.
  intros St HL Hk EL Hb0 HQ. destruct (fresh_bounds k Hk) as (B1 & B2 & B3 & B4). pose proof (gk_meta _ Hg) as [_ Hm].
  rewrite (blk_index_next_eq g Hg), (blk_index_eq g Hg) by (done || lia). fold (lft k) (rgt k).
  assert (Hlb : block g k (lft k)) by (split; [unfold level; lia|lia]). assert (Hrb : block g k (rgt k)) by (split; [unfold level; lia|lia]).
  pose proof (span_succ k Hk) as Hsp. wp. eapply run_pair; [exact St|done|done|lia| |].
  { intros j _. rewrite EL. apply not_elem_of_nil. }
  intros b1 St1 HL1 F1. destruct (Z.leb_spec (rgt k) (lft k)) as [Hle|Hlt].
  - wp. destruct (decide (lft k < rgt k)) as [?|_]; [lia|]. rewrite frees_left in * by done. rewrite bool_decide_false in * by lia. cbn in *.
    replace 0 with ((span k - 2 * span (k + 1)) * BLK_SIZE k) by nia. eapply HQ; [exact St1|done|done|done|].
    intros a. rewrite EL. split; [intros Ha; by apply not_elem_of_nil in Ha|]. intros (i & _ & Hf & _). apply fresh_ends in Hf; [lia|done].
  - destruct (decide (lft k < rgt k)) as [_|?]; [|lia]. wp. eapply run_pair; [exact St1|done|done|lia| |].
    { intros j Ej. rewrite frees_right in Ej by done. destruct (bool_decide_reflect (rgt k mod 2 = 1)) as [Er|]; [|done]. injection Ej as <-. rewrite frees_left by done. case_bool_decide as El; cbn [pushed].
      - unfold upd1. rewrite bool_decide_true, EL by done. intros E%list_elem_of_singleton. apply (addr_inj g k) in E; [|lia].
        pose proof (Z.div_mod (rgt k) 2 ltac:(lia)). pose proof (Z.div_mod (lft k) 2 ltac:(lia)). lia.
      - rewrite EL. apply not_elem_of_nil. }
    intros b2 St2 HL2 F2. wp.
    replace (_ + _) with ((span k - 2 * span (k + 1)) * BLK_SIZE k) by (rewrite Hsp; destruct (frees k (lft k)), (frees k (rgt k)); lia).
    eapply HQ; [exact St2|done|by eapply frame_trans; [exact F1|exact F2|]| |].
    + intros j Hj. by destruct (frees k (lft k)), (frees k (rgt k)); cbn; unfold upd1; rewrite ?bool_decide_false by done.
    + intros a. rewrite frees_left, frees_right by done. assert (Hf : forall i, fresh k i = Some Free <-> (i = lft k /\ lft k mod 2 = 1) \/ (i = rgt k - 1 /\ rgt k mod 2 = 1)) by (intros i; rewrite fresh_ends by done; tauto).
      assert (Hb' : block g k (rgt k - 1)) by (split; [unfold level; lia|lia]). assert (Hlo' : lft k < rgt k /\ lft k mod 2 = 1 <-> lft k mod 2 = 1) by tauto. rewrite (bool_decide_ext _ _ Hlo'). clear Hsp HQ St2 HL2 St1 HL1.
      repeat case_bool_decide; cbn [pushed]; unfold upd1; rewrite ?(bool_decide_true (k = k)), EL by done; rewrite ?elem_of_cons, ?elem_of_nil; (split; [intros Ha; destruct_or?; subst; try done; (eexists; split; [|split; [apply Hf|reflexivity]]; [done|tauto])|]);
        intros (i & Hbi & Hfi%Hf & ->); destruct_or?; destruct_and?; subst; try done; tauto.
Qed.

Lemma run_initfree b (Q : Z -> buddy -> Prop) : st_ok g b (abit fresh) (sbit fresh) (fun _ => []) ->
  (forall b', buddy_ok g b' fresh -> frame g (free_area g fresh) b b' -> Q (R - meta g) b') -> run (bd_initfree (base g + meta g) (base g + R)) b Q.
Proof using Hg HR Hlo Hhi Hmeta.
  intros St HQ. unfold bd_initfree. wp. change (id b) with b. pose proof (so_base _ _ _ _ _ St) as Hb0. pose proof (gk_top _ Hg) as Htop. pose proof (gk_meta _ Hg) as [Hm16 Hm].
  unfold MAXSIZE. rewrite (so_n _ _ _ _ _ St). replace (top g + 1 - 1) with (top g) by lia.
  eapply (run_loop _ (fun '(k, free) b1 => 0 <= k <= top g /\ 0 <= free /\ free + span k * BLK_SIZE k = R - meta g /\ frame g (free_area g fresh) b b1 /\
    exists L, st_ok g b1 (abit fresh) (sbit fresh) L /\ part_ok L /\ (forall j, 0 <= j < k -> listed L j) /\ (forall j, k <= j -> L j = [])) (fun '(k, _) _ => Z.to_nat (top g - k))).
  - intros [k free] b1 (Hk & Hfree & Hsum & F & L & St1 & HL & Hdone & Htodo). destruct (Z.ltb_spec k (top g)) as [Hlt|Hge].
    + pose proof (run_initfree_level b1 L k b (fun f b2 => 0 <= f /\ free + f + span (k + 1) * BLK_SIZE (k + 1) = R - meta g /\ frame g (free_area g fresh) b b2 /\
        exists L, st_ok g b2 (abit fresh) (sbit fresh) L /\ part_ok L /\ (forall j, 0 <= j < k + 1 -> listed L j) /\ (forall j, k + 1 <= j -> L j = [])) St1 HL ltac:(lia) ltac:(apply Htodo; lia) Hb0) as Hrun.
      assert (Hpre : _) by (apply Hrun; clear Hrun; intros b2 L2 St2 HL2 F2 Hother Hl2; split; [pose proof (span_grow k ltac:(lia)); pose proof (BLK_SIZE_pos k ltac:(lia)); apply Z.mul_nonneg_nonneg; lia|]; split; [rewrite BLK_SIZE_succ by lia; nia|]; split; [eapply frame_trans; [exact F|exact F2|done]|];
        exists L2; split; [done|]; split; [done|]; split; [|intros j Hj; rewrite Hother by lia; apply Htodo; lia]; intros j Hj; destruct (decide (j = k)) as [->|Hne]; [done|];
        intros x; rewrite Hother by done; apply Hdone; lia).
      assert (Hint : forall f, 0 <= f -> f + span (k + 1) * BLK_SIZE (k + 1) = R - meta g -> - 2 ^ 31 <= f < 2 ^ 31).
      { intros f Hf E. pose proof (BLK_SIZE_pos (k + 1) ltac:(lia)). assert (0 <= span (k + 1)) by (unfold span; lia). assert (heap g <= 2 ^ 31) by (apply BLK_SIZE_31; lia). nia. }
      rewrite run_bind in Hpre. wp. eapply run_mono; [exact Hpre|]. intros f b2 H2. cbv beta in H2 |- *. destruct (_ <=? _).
      * wp. destruct H2 as (S0 & S1 & S2 & S3). rewrite s32_small by (apply Hint; lia). split; [|lia]. split; [lia|]. split; [lia|]. split; [lia|]. done.
      * rewrite run_bind in H2. wp. eapply run_mono; [exact H2|]. intros h b3 H3. wp. destruct H3 as (S0 & S1 & S2 & S3). rewrite s32_add, s32_small by (apply Hint; lia). split; [|lia]. split; [lia|]. split; [lia|]. split; [lia|]. done.
    + wp. assert (k = top g) as -> by lia. assert (Hs0 : span (top g) = 0).
      { unfold span. pose proof top_in_use as Hu. apply in_use_spec in Hu. assert (rgt (top g) <= 0) by (apply div_spec; [pose proof (BLK_SIZE_pos (top g)); lia|unfold heap in Hhi; lia]).
        assert (0 < lft (top g)); [|lia]. apply cdiv_spec; [pose proof (BLK_SIZE_pos (top g)); lia|lia]. }
      rewrite Hs0 in Hsum. replace free with (R - meta g) by lia. apply HQ; [|done]. eapply (buddy_ok_intro g); [exact St1|apply fresh_shape|apply fresh_reserved|].
      intros j x Hj. unfold level in Hj. destruct (decide (j = top g)) as [->|Hne]; [|apply Hdone; lia]. rewrite Htodo by lia. split; [intros Hx; by apply not_elem_of_nil in Hx|].
      intros (i & Hb & Hf & _). apply top_block in Hb as ->. apply fresh_free in Hf as [Hf _]. by rewrite top_in_use in Hf.
  - split; [lia|]. split; [done|]. split; [|split; [apply frame_refl|]].
    + destruct (fresh_bounds 0 ltac:(lia)) as (B1 & _). unfold span. rewrite Z.max_r by lia. unfold lft, rgt, cdiv. change (BLK_SIZE 0) with 16.
      pose proof (Z.div_mod R 16 ltac:(lia)). pose proof (Z.div_mod (meta g) 16 ltac:(lia)). replace (meta g + 16 - 1) with (15 + meta g / 16 * 16) by lia. rewrite Z.div_add by lia. change (15 / 16) with 0. lia.
    + exists (fun _ => []). split; [done|]. split; [intros k x _ Hx; by apply not_elem_of_nil in Hx|]. split; [intros j Hj; lia|done].
  - lia.
Qed.

(** The bytes of the free blocks. *)
Lemma free_around (n : nat) : forall k i x, block g k i -> top g - k <= Z.of_nat n -> in_use k i = false -> area g k i x -> free_area g fresh x.
Proof using Hg.
  clear HR Hlo Hhi Hmeta. induction n as [|n IH]; intros k i x Hb Hn Hu Hx; pose proof Hb as [[Hk0 Hk] _].
  - assert (k = top g) as -> by lia. apply top_block in Hb as ->. by rewrite top_in_use in Hu.
  - destruct (in_use (k + 1) (i / 2)) eqn:Ep; [exists k, i; split; [done|]; split; [by apply fresh_free|done]|].
    assert (Hlt : k < top g) by (destruct (decide (k = top g)) as [->|]; [|lia]; apply top_block in Hb as ->; by rewrite top_in_use in Hu).
    apply (IH (k + 1) (i / 2)); [by apply block_parent|lia|done|].
    pose proof (proj1 (children i (i / 2)) eq_refl) as Hc. pose proof (BLK_SIZE_pos k Hk0). unfold area in *. rewrite BLK_SIZE_succ by done. nia.
Qed.

Lemma fresh_area x : free_area g fresh x <-> base g + meta g <= x < base g + R.
Proof using Hg HR Hhi.
  clear Hlo Hmeta. pose proof (gk_meta _ Hg) as [Hm16 Hm]. pose proof (gk_top _ Hg). split.
  - intros (k & i & Hb & Hf & Hx). apply fresh_free in Hf as [Hf _]. apply in_use_not in Hf. pose proof Hb as [[Hk _] _]. pose proof (BLK_SIZE_pos k Hk).
    assert (Hn1 : ~ i < lft k) by lia. assert (Hn2 : ~ rgt k <= i) by lia. unfold lft in Hn1. rewrite cdiv_spec in Hn1 by lia. unfold rgt in Hn2. rewrite div_spec in Hn2 by lia. unfold area in Hx. lia.
  - intros Hx. set (i := (x - base g) / 16). assert (Hi : i * 16 <= x - base g < (i + 1) * 16) by (unfold i; pose proof (Z.div_mod (x - base g) 16 ltac:(lia)); pose proof (Z.mod_pos_bound (x - base g) 16 ltac:(lia)); lia).
    pose proof (Z.div_mod R 16 ltac:(lia)). pose proof (Z.div_mod (meta g) 16 ltac:(lia)).
    apply (free_around (Z.to_nat (top g)) 0 i).
    + split; [unfold level; lia|]. unfold nblk. rewrite Z.sub_0_r. unfold heap in Hhi. rewrite BLK_SIZE_eq in Hhi by lia. lia.
    + lia.
    + apply in_use_not. assert (Hn1 : ~ i < lft 0) by (unfold lft; rewrite cdiv_spec by done; change (BLK_SIZE 0) with 16; lia).
      assert (Hn2 : ~ rgt 0 <= i) by (unfold rgt; rewrite div_spec by done; change (BLK_SIZE 0) with 16; lia). lia.
    + unfold area. change (BLK_SIZE 0) with 16. lia.
Qed.
End fresh.

(** ** bd_init *)

Lemma log2_loop_eq fuel : forall k n, 1 <= n < 2 ^ (Z.of_nat fuel + 1) -> log2_loop fuel k n = Some (k + Z.log2 n).
Proof.
  induction fuel as [|fuel IH]; intros k n Hn; cbn [log2_loop]; destruct (Z.ltb_spec 1 n) as [H1|H1].
  - change (2 ^ (Z.of_nat 0 + 1)) with 2 in Hn. lia.
  - assert (n = 1) as -> by lia. by rewrite Z.add_0_r.
  - pose proof (Z.div_mod n 2 ltac:(lia)). pose proof (Z.mod_pos_bound n 2 ltac:(lia)). rewrite IH.
    + f_equal. rewrite Z.log2_shiftr, Z.max_r by (pose proof (Z.log2_le_mono 2 n ltac:(lia)); change (Z.log2 2) with 1 in *; lia). lia.
    + rewrite Z.shiftr_div_pow2 by lia. change (2 ^ 1) with 2. replace (Z.of_nat (S fuel) + 1) with (1 + (Z.of_nat fuel + 1)) in Hn by lia. rewrite Z.pow_add_r in Hn by lia. lia.
  - assert (n = 1) as -> by lia. by rewrite Z.add_0_r.
Qed.

(** The memory bd_init is given, [size] bytes from [p] on, in 2^t units. *)
Section init.
Context (p size t : Z) (Hp : p mod 16 = 0) (Hp0 : 0 < p < 2 ^ 62) (Ht : 7 <= t <= 27) (Hsz : BLK_SIZE (t - 1) < size < BLK_SIZE t).
Let g := layout t p.
Let R := size / 16 * 16.

Lemma init_heap : heap g = BLK_SIZE t /\ BLK_SIZE t = 2 * BLK_SIZE (t - 1) /\ BLK_SIZE t <= 2 ^ 31 /\ BLK_SIZE (t - 1) mod 16 = 0.
Proof using Ht.
  clear Hsz R Hp Hp0. split; [done|]. split; [rewrite <-BLK_SIZE_succ by lia; f_equal; lia|]. split.
  - rewrite BLK_SIZE_eq by lia. change (2 ^ 31) with (16 * 2 ^ 27). pose proof (Z.pow_le_mono_r 2 t 27 ltac:(lia) ltac:(lia)). lia.
  - rewrite BLK_SIZE_eq, Z.mul_comm by lia. by apply Z.mod_mul.
Qed.

Lemma init_geo : geo_ok g.
Proof using Ht Hp Hp0. clear Hsz R. destruct init_heap as (_ & _ & ? & _). apply layout_ok; [done|done|lia|lia]. Qed.

Lemma init_right : R mod 16 = 0 /\ heap g <= 2 * R /\ R < heap g /\ R <= size < R + 16.
Proof using Ht Hsz.
  clear Hp Hp0. destruct init_heap as (-> & H2 & H3 & H4). pose proof (Z.div_mod (BLK_SIZE (t - 1)) 16 ltac:(lia)). pose proof (Z.div_mod size 16 ltac:(lia)). pose proof (Z.mod_pos_bound size 16 ltac:(lia)).
  unfold R. split; [by apply Z.mod_mul|]. lia.
Qed.

Lemma unavailable_eq : ROUNDUP (BLK_SIZE t - size) LEAF_SIZE = BLK_SIZE t - R.
Proof using p g Ht Hsz.
  clear Hp Hp0. destruct init_heap as (_ & H2 & _ & H4). destruct init_right as (H5 & _ & _ & H6). unfold ROUNDUP, LEAF_SIZE.
  pose proof (Z.div_mod (BLK_SIZE (t - 1)) 16 ltac:(lia)). pose proof (Z.div_mod R 16 ltac:(lia)).
  pose proof (Z.div_mod (BLK_SIZE t - size - 1) 16 ltac:(lia)). pose proof (Z.mod_pos_bound (BLK_SIZE t - size - 1) 16 ltac:(lia)). lia.
Qed.

(** Both marks together: the bits of the state bd_initfree expects. *)
Lemma marks_fresh k i : block g k i -> mark R (heap g) (mark 0 (meta g) (fun _ _ => false)) k i = in_use g R k i.
Proof using Type.
  clear Hp Hp0 Ht Hsz. intros [Hk Hi]. unfold level in Hk. pose proof (BLK_SIZE_pos k ltac:(lia)). unfold mark, in_use, lft, rgt. rewrite Z.div_0_l, orb_false_l by lia.
  f_equal; apply bool_decide_ext; [lia|]. assert (i < cdiv (heap g) (BLK_SIZE k)); [|lia]. apply cdiv_spec; [lia|].
  unfold heap. rewrite (BLK_SIZE_mul k (top g)) by lia. unfold nblk in Hi. nia.
Qed.

Lemma run_init_marked m0 b (Q : unit -> buddy -> Prop) : set_up t p m0 b (t + 1) (t + 1) ->
  (forall b', buddy_ok g b' (fresh g R) -> frame g (free_area g (fresh g R)) b b' -> Q tt b') ->
  run (let q := ROUNDUP (sp g (t + 1)) LEAF_SIZE in
       meta <- bd_mark_data_structures q ;;
       unavailable <- bd_mark_unavailable (p + size) q ;;
       b <- gets id ;;
       let bd_end := bd_base b + BLK_SIZE (MAXSIZE b) - unavailable in
       free <- bd_initfree q bd_end ;;
       if negb (free =? BLK_SIZE (MAXSIZE b) - meta - unavailable) then panic "bd_init: free mem" else ret tt) b Q.
Proof using Hp Hp0 Ht Hsz.
  intros Hset HQ. pose proof init_geo as Hok. destruct init_heap as (Hh & Hh2 & Hh31 & _). destruct init_right as (R16 & Rlo & Rhi & Rsz). pose proof (meta_small t p ltac:(lia) Hp ltac:(lia)) as Hms. fold g in Hms.
  pose proof (gk_meta _ Hok) as [Hm16 Hm]. pose proof (set_up_done t p Ht Hp ltac:(lia) ltac:(lia) m0 b Hset) as St. fold g in St.
  cbv zeta. assert (Eq : ROUNDUP (sp g (t + 1)) LEAF_SIZE = base g + meta g) by (change (base g) with p; cbn [sp meta g layout]; unfold LEAF_SIZE; lia). rewrite Eq.
  unfold bd_mark_data_structures. wp. change (id b) with b. rewrite (so_base _ _ _ _ _ St), Z.add_simpl_l, s32_small by lia.
  unfold printf. wp. replace (base g) with (base g + 0) at 1 by lia.
  eapply (run_mark g Hok); [eapply st_ok_same; [|exact St]; done|lia|lia|done|done|]. intros b1 St1 F1. wp.
  unfold bd_mark_unavailable. wp. change (id b1) with b1. unfold MAXSIZE. rewrite (so_base _ _ _ _ _ St1), (so_n _ _ _ _ _ St1). replace (top g + 1 - 1) with t by (change (top g) with t; lia).
  replace (BLK_SIZE t - (p + size - base g)) with (BLK_SIZE t - size) by (change (base g) with p; lia). rewrite s32_small by lia. destruct (Z.ltb_spec 0 (BLK_SIZE t - size)); [|lia]. unfold printf. wp.
  rewrite unavailable_eq. replace (base g + BLK_SIZE t - (BLK_SIZE t - R)) with (base g + R) by lia. rewrite <-Hh.
  eapply (run_mark g Hok); [eapply st_ok_same; [|exact St1]; done|lia|lia|done|rewrite Hh, BLK_SIZE_eq, Z.mul_comm by lia; by apply Z.mod_mul|]. intros b2 St2 F2. wp.
  change (id b2) with b2. rewrite (so_base _ _ _ _ _ St2), (so_n _ _ _ _ _ St2). replace (top g + 1 - 1) with t by (change (top g) with t; lia). rewrite <-Hh.
  replace (base g + heap g - (heap g - R)) with (base g + R) by lia.
  eapply (run_initfree g Hok R); [done|lia|lia|lia| |].
  - eapply st_ok_split; [eapply st_ok_ext; [exact St2| |done]; intros k i Hb; rewrite marks_fresh by done; apply fresh_bits|].
    intros k i Hb Hk. rewrite marks_fresh by done. by apply fresh_bits.
  - intros b3 B3 F3. destruct (Z.eqb_spec (R - meta g) (heap g - meta g - (heap g - R))); [|lia]. wp. apply HQ; [done|].
    eapply frame_trans; [eapply frame_mono; [eapply frame_trans; [exact F1|exact F2|done]|done]|exact F3|done].
Qed.
End init.
End BuddyInit.
