(* ===== verification/BuddyClient.v ===== *)
(** * The buddy allocator as its callers see it (kernel/buddy.c)

    bd_init, bd_malloc and bd_free against one invariant, and what follows for
    a caller that allocates and frees in any order: the blocks it holds never
    overlap, lie in the memory given to bd_init and keep their contents. *)

From S2P Require Import Prelude Bytes CString KList Buddy BuddyMem BuddyProof BuddyInit.

Module BuddyClient.
Import KList Buddy BuddyMem BuddyProof BuddyInit.
Implicit Types (g : geo) (S : state).

(** ** Initialisation *)

(** What bd_init leaves behind for the memory from [p] to [p + size]. *)
Definition initialised (b : buddy) (p size : Z) g S (b' : buddy) : Prop :=
  geo_ok g /\ buddy_ok g b' S /\ locked b' = false /\ base g = p /\ 4 * meta g <= heap g /\ size < heap g <= 2 * size /\
  (forall x, free_area g S x <-> p + meta g <= x < p + size / 16 * 16) /\
  (forall k i, block g k i -> S k i = Some Used <-> k = 0 /\ (i * 16 < meta g \/ size / 16 <= i)) /\
  (forall x, ~ (p <= x < p + size) -> getb (bm b') x = getb (bm b) x).

Lemma heap_from_size size : 1024 < size < 2 ^ 31 -> (forall j, size <> 2 ^ j) ->
  exists t, log2 (size / 16) = Some (t - 1) /\ 7 <= t <= 27 /\ BLK_SIZE (t - 1) < size < BLK_SIZE t.
Proof.
  intros Hs Hj. exists (Z.log2 (size / 16) + 1). replace (Z.log2 (size / 16) + 1 - 1) with (Z.log2 (size / 16)) by lia.
  pose proof (Z.div_mod size 16 ltac:(lia)) as Hd. pose proof (Z.mod_pos_bound size 16 ltac:(lia)) as Hm. destruct (Z.log2_spec (size / 16) ltac:(lia)) as [H1 H2].
  set (k := Z.log2 (size / 16)) in *. assert (Hk : 6 <= k) by (unfold k; change 6 with (Z.log2 64); apply Z.log2_le_mono; lia).
  assert (Hk' : k <= 26) by (assert (k < 27); [unfold k; apply Z.log2_lt_pow2; lia|lia]). split; [|split; [lia|]].
  - unfold log2. rewrite log2_loop_eq; [by rewrite Z.add_0_l|]. change (2 ^ (Z.of_nat 64 + 1)) with 36893488147419103232. lia.
  - rewrite !BLK_SIZE_eq by lia. replace (Z.succ k) with (k + 1) in H2 by lia. split; [|lia]. specialize (Hj (4 + k)). rewrite Z.pow_add_r in Hj by lia. change (2 ^ 4) with 16 in Hj. lia.
Qed.

Lemma keeps_init_rest end_ p q msg : keeps (
  printf msg ;;
  upd (fun m => CString.memset m p 0 q) ;;
  p <- init_alloc (p + q) ;;
  p <- init_split p ;;
  let p := ROUNDUP p LEAF_SIZE in
  meta <- bd_mark_data_structures p ;;
  unavailable <- bd_mark_unavailable end_ p ;;
  b <- gets id ;;
  let bd_end := bd_base b + BLK_SIZE (MAXSIZE b) - unavailable in
  free <- bd_initfree p bd_end ;;
  if negb (free =? BLK_SIZE (MAXSIZE b) - meta - unavailable) then panic "bd_init: free mem" else ret tt).
Proof. unfold upd, init_alloc, init_split, bd_mark_data_structures, bd_mark_unavailable, bd_mark, bd_initfree, bd_initfree_pair, printf, upd. keeps. Qed.

Lemma run_bd_init base end_ b (Q : unit -> buddy -> Prop) : let p := ROUNDUP base 16 in
  0 < base < 2 ^ 61 -> 1024 < end_ - p < 2 ^ 31 -> (forall j, end_ - p <> 2 ^ j) ->
  (forall g S b', initialised b p (end_ - p) g S b' -> Q tt b') -> run (bd_init base end_) b Q.
Proof.
  intros p Hb Hs Hj HQ. destruct (ROUNDUP_bounds base ltac:(lia)) as [Hp Hp16]. fold p in Hp, Hp16. set (size := end_ - p) in *.
  destruct (heap_from_size size Hs Hj) as (t & Hlog & Ht & Hsz). unfold bd_init. cbv zeta. change (ROUNDUP base LEAF_SIZE) with p. change (end_ - p) with size. rewrite Z.quot_div_nonneg, u64_small by (unfold LEAF_SIZE; pose proof (Z.div_le_upper_bound size 16 size ltac:(lia) ltac:(lia)); pose proof (Z.div_pos size 16 ltac:(lia) ltac:(lia)); lia). change (log2 (size / LEAF_SIZE)) with (log2 (size / 16)). rewrite Hlog.
  replace (t - 1 + 1) with t by lia. destruct (Z.ltb_spec (BLK_SIZE (t - 1)) size); [|lia].
  pose proof (init_geo p t Hp16 ltac:(lia) Ht) as Hok. set (g := layout t p) in *. pose proof (top_meta g Hok) as Htm. change (top g) with t in Htm.
  wp. apply (proj1 (run_bind _ _ _ _)). apply run_keeps; [apply keeps_init_rest|]. unfold printf, upd. wp. unfold sz_info. replace (p + 32 * (t + 1)) with (al g 0) by (change (al g 0) with (p + 32 * (t + 1) + 0); lia).
  eapply (run_init_alloc t p Ht Hp16 ltac:(lia) ltac:(destruct (init_heap p t Ht) as (_ & _ & ? & _); lia) (bm b)).
  { split; [done|]. split; [done|]. split; [done|]. split; try (intros; lia). intros x Hx. cbn. rewrite getb_zero, bool_decide_false; [done|].
    intros Hx'. apply Hx. unfold in_meta. fold g. change (BuddyMem.base g) with p. lia. }
  intros b1 S1. wp. rewrite al_last. eapply (run_init_split t p Ht Hp16 ltac:(lia) ltac:(destruct (init_heap p t Ht) as (_ & _ & ? & _); lia) (bm b)); [exact S1|]. intros b2 S2.
  replace end_ with (p + size) by lia. eapply (run_init_marked p size t Hp16 ltac:(lia) Ht Hsz (bm b)); [exact S2|]. intros b3 B3 F3 Hlk.
  destruct (init_right p size t Ht Hsz) as (R16 & Rlo & Rhi & Rsz). pose proof (meta_small t p ltac:(lia) Hp16 ltac:(lia)) as Hms. fold g in Rlo, Rhi, Hms, F3.
  apply (HQ g (fresh g (size / 16 * 16))). split; [done|]. split; [done|]. split; [exact Hlk|]. split; [done|]. split; [done|]. split; [unfold heap in *; change (top g) with t in *; lia|]. split; [|split].
  - intros x. rewrite (fresh_area g Hok _ R16 Rhi). done.
  - intros k i Hbl. pose proof (in_use_spec g (size / 16 * 16) k i) as Hu. unfold lft, rgt in Hu. unfold fresh. split.
    + destruct (in_use _ _ k i); [|destruct (in_use _ _ (k + 1) (i / 2)); discriminate]. destruct (Z.eqb_spec k 0) as [->|]; [|discriminate]. intros _. split; [done|].
      rewrite cdiv_spec in Hu by done. change (BLK_SIZE 0) with 16 in Hu. rewrite Z.div_mul in Hu by lia. by apply Hu.
    + intros [-> Hi]. rewrite cdiv_spec in Hu by done. change (BLK_SIZE 0) with 16 in Hu. rewrite Z.div_mul in Hu by lia. apply Hu in Hi. by rewrite Hi.
  - intros x Hx. assert (Hnm : ~ in_meta g x) by (unfold in_meta; change (BuddyMem.base g) with p; lia). rewrite F3; [|done|].
    + destruct S2 as (_ & _ & _ & S2). by apply (la_frame _ _ _ _ _ _ S2).
    + rewrite (fresh_area g Hok _ R16 Rhi). change (BuddyMem.base g) with p. lia.
Qed.

(** ** A caller *)

(** A caller allocates, frees, and fills a block with a byte. *)
Inductive call := CMalloc (n : Z) | CFree (j : nat) | CFill (j : nat) (v : Z).

(** A block the caller holds: the bytes it asked for, and the byte it has
    filled them with. *)
Record hblock := mkHeld { h_addr : Z; h_size : Z; h_fill : option Z }.

Fixpoint serve (held : list hblock) (calls : list call) : B (list hblock) :=
  match calls with
  | [] => ret held
  | CMalloc n :: calls =>
      p <- bd_malloc 64 n ;;
      serve (if p =? 0 then held else mkHeld p n None :: held) calls
  | CFree j :: calls =>
      match held !! j with
      | Some h => bd_free (h_addr h) ;; serve (delete j held) calls
      | None => serve held calls
      end
  | CFill j v :: calls =>
      match held !! j with
      | Some h => upd (fun m => CString.memset m (h_addr h) v (h_size h)) ;; serve (<[j := mkHeld (h_addr h) (h_size h) (Some v)]> held) calls
      | None => serve held calls
      end
  end.

Section caller.
Context g (Hg : geo_ok g) (units : Z).

(** The units of memory in use from the start. *)
Definition initial (k i : Z) : Prop := block g k i /\ k = 0 /\ (i * 16 < meta g \/ units <= i).

Definition holds S (h : hblock) (ki : Z * Z) : Prop :=
  block g ki.1 ki.2 /\ S ki.1 ki.2 = Some Used /\ ~ initial ki.1 ki.2 /\ h_addr h = addr_of g ki.1 ki.2 /\ 0 <= h_size h <= BLK_SIZE ki.1.

(** The bytes of a block are those it has been filled with. *)
Definition filled (b : buddy) (h : hblock) : Prop :=
  forall v, h_fill h = Some v -> forall x, h_addr h <= x < h_addr h + h_size h -> getb (bm b) x = u8 v.

Definition held_ok (b : buddy) (held : list hblock) : Prop := exists S bl,
  buddy_ok g b S /\ locked b = false /\ (forall k i, initial k i -> S k i = Some Used) /\ NoDup bl /\ Forall2 (holds S) held bl /\ Forall (filled b) held.

(** A block held lies apart from what is in use from the start. *)
Lemma held_area S k i x : shape g S -> (forall k i, initial k i -> S k i = Some Used) -> block g k i -> S k i = Some Used -> ~ initial k i -> area g k i x ->
  base g + meta g <= x < base g + units * 16.
Proof using Hg.
  intros Hs Hi Hb Hu Hn Hx. destruct (block_end g k i Hb) as [He1 He2]. pose proof Hb as [[Hk Hkt] _]. pose proof (gk_top _ Hg) as Htop.
  set (j := (x - base g) / 16). assert (Hj : j * 16 <= x - base g < (j + 1) * 16) by (unfold j; pose proof (Z.div_mod (x - base g) 16 ltac:(lia)); pose proof (Z.mod_pos_bound (x - base g) 16 ltac:(lia)); lia).
  assert (Hbj : block g 0 j).
  { split; [unfold level; lia|]. unfold nblk. rewrite Z.sub_0_r. unfold area in Hx. unfold heap in He2. rewrite (BLK_SIZE_eq (top g)) in He2 by lia. lia. }
  destruct (decide (j * 16 < meta g \/ units <= j)) as [Hd|Hd].
  - exfalso. assert (Hin : initial 0 j) by (split; [done|]; split; [done|exact Hd]). assert (Hxj : area g 0 j x) by (unfold area; change (BLK_SIZE 0) with 16; lia).
    pose proof (Hi 0 j Hin) as Huj. destruct (leaves_apart g S Hs k i 0 j x) as [-> ->]; try done; try congruence; by eexists.
  - pose proof (gk_meta _ Hg) as [Hm16 _]. pose proof (Z.div_mod (meta g) 16 ltac:(lia)). lia.
Qed.

Lemma held_meta S k i : shape g S -> (forall k i, initial k i -> S k i = Some Used) -> block g k i -> S k i = Some Used -> ~ initial k i -> meta g <= i * BLK_SIZE k.
Proof using Hg.
  intros Hs Hi Hb Hu Hn. pose proof Hb as [[Hk _] _]. pose proof (held_area S k i (addr_of g k i) Hs Hi Hb Hu Hn ltac:(by apply area_addr)) as [H _]. unfold addr_of in H. lia.
Qed.

(** A byte of a block held is neither free nor the allocator's. *)
Lemma held_byte S h ki x : shape g S -> (forall k i, initial k i -> S k i = Some Used) -> holds S h ki -> h_addr h <= x < h_addr h + h_size h ->
  area g ki.1 ki.2 x /\ ~ in_meta g x /\ ~ free_area g S x.
Proof using Hg.
  intros Hs Hi (Hb & Hu & Hn & Ha & Hsz) Hx. assert (Harea : area g ki.1 ki.2 x) by (unfold area; rewrite Ha in Hx; unfold addr_of in Hx; lia). split; [done|]. split.
  - pose proof (held_area S ki.1 ki.2 x Hs Hi Hb Hu Hn Harea). unfold in_meta. lia.
  - intros (k' & i' & Hb' & Hf & Hx'). destruct (leaves_apart g S Hs ki.1 ki.2 k' i' x) as [E1 E2]; try done; try congruence; try (by eexists).
Qed.

(** Blocks held keep their bytes while other memory changes. *)
Lemma filled_frame S b b' (F : Z -> Prop) held bl : shape g S -> (forall k i, initial k i -> S k i = Some Used) -> Forall2 (holds S) held bl -> frame g F b b' ->
  (forall h ki x, holds S h ki -> ki ∈ bl -> area g ki.1 ki.2 x -> F x -> free_area g S x) -> Forall (filled b) held -> Forall (filled b') held.
Proof using Hg.
  intros Hs Hi Hall Hf HF Hold. apply Forall_lookup. intros j h Hj v Hv x Hx. destruct (Forall2_lookup_l _ _ _ _ _ Hall Hj) as (ki & Hk & Hh).
  destruct (held_byte S h ki x Hs Hi Hh Hx) as (Harea & Hm & Hfr). rewrite Hf; [by eapply (Forall_lookup_1 _ _ _ _ Hold Hj)|done|]. intros HFx. apply Hfr. eapply HF; [exact Hh|by eapply list_elem_of_lookup_2|done|done].
Qed.

(** Writing to memory that is neither the allocator's nor free. *)
Lemma buddy_ok_write b S m' : buddy_ok g b S -> (forall x, in_meta g x \/ free_area g S x -> getb m' x = getb (bm b) x) -> buddy_ok g (set_bm m' b) S.
Proof using Hg.
  intros [B1 B2 B3 B4 B5 (L & [M1 M2 M3 M4 M5 M6 M7] & HL)] Hs. split; try done. exists L. split; [|done]. pose proof (top_meta g Hg) as Htm.
  assert (Hhead : forall k o x, level g k -> 0 <= o -> o + 8 <= 32 -> head_of g k + o <= x < head_of g k + o + 8 -> getb m' x = getb (bm b) x) by (intros k o x Hk H0 H1 Hx; apply Hs; left; unfold in_meta, head_of, level in *; lia).
  split; try done; cbn [bm set_bm].
  - intros k Hk. rewrite <-(M1 k Hk). apply ldn_ext. intros x Hx. apply (Hhead k 16); [done|lia|lia|]. cbn in Hx. lia.
  - intros k Hk H0. rewrite <-(M2 k Hk H0). apply ldn_ext. intros x Hx. apply (Hhead k 24); [done|lia|lia|]. cbn in Hx. lia.
  - intros k i Hb. rewrite <-(M3 k i Hb). apply isset_ext, Hs. left. pose proof (al_byte g Hg k i Hb). unfold in_meta. pose proof (gk_top _ Hg). lia.
  - intros k i Hb H0. rewrite <-(M4 k i Hb H0). apply isset_ext, Hs. left. pose proof (sp_byte g Hg k i Hb H0). unfold in_meta. pose proof (gk_top _ Hg). lia.
  - intros k Hk. apply (dll_ext (bm b)); [|by apply M5]. intros e x [->|He]%elem_of_cons Hx; apply Hs.
    + left. unfold in_node, in_meta, head_of, level in *. lia.
    + right. apply (touches_free g S L k x HL Hk). exists e. done.
Qed.

Lemma serve_malloc b held n (Q : Z -> buddy -> Prop) : held_ok b held -> 0 <= n <= 2 ^ 63 ->
  (forall p b', held_ok b' (if p =? 0 then held else mkHeld p n None :: held) -> Q p b') -> run (bd_malloc 64 n) b Q.
Proof using Hg.
  intros (S & bl & B & Hl & Hi & Hnd & Hall & Hfill) Hn HQ. pose proof (bo_shape _ _ _ B) as Hs. eapply (run_malloc g Hg); [exact B|done|lia|].
  intros p b1 [(-> & -> & _)|(k & i & S' & Hb & -> & Hk & _ & B' & Hnu & Hused & Harea & Hf)] Hl1; apply HQ; [by exists S, bl|].
  pose proof (gk_base _ Hg) as (_ & Hb0 & _). destruct (block_end g k i Hb) as [He _]. destruct (Z.eqb_spec (addr_of g k i) 0) as [E|_]; [unfold addr_of in E; lia|].
  exists S', ((k, i) :: bl). split; [done|]. split; [done|]. split; [intros k' i' Hin; apply Hused; left; by apply Hi|]. split; [|split].
  - apply NoDup_cons. split; [|done]. intros Hin. apply list_elem_of_lookup in Hin as [m Hm]. destruct (Forall2_lookup_r _ _ _ _ _ Hall Hm) as (h & _ & (_ & Hx & _)). done.
  - constructor; [split; [done|]; split; [apply Hused; by right|]; split; [|split; [done|cbn; lia]]; intros Hin; by apply Hnu, Hi|].
    eapply Forall2_impl; [exact Hall|]. intros h ki (H1 & H2 & H3 & H4 & H5). split; [done|]. split; [apply Hused; by left|done].
  - constructor; [done|]. by eapply (filled_frame S b b1 (free_area g S)).
Qed.

Lemma serve_free b held j h (Q : unit -> buddy -> Prop) : held_ok b held -> held !! j = Some h -> (forall b', held_ok b' (delete j held) -> Q tt b') -> run (bd_free (h_addr h)) b Q.
Proof using Hg.
  intros (S & bl & B & Hl & Hi & Hnd & Hall & Hfill) Ej HQ. pose proof (bo_shape _ _ _ B) as Hs. destruct (Forall2_lookup_l _ _ _ _ _ Hall Ej) as ([k i] & Ek & (Hb & Hu & Hni & Hp & Hn)). cbn in *. rewrite Hp.
  eapply (run_free g Hg); [exact B|done|done|done|by apply (held_meta S)|]. intros b1 (S' & B' & Hused & Hf) Hl1. apply HQ.
  assert (Hother : forall ki, ki ∈ delete j bl -> ki ∈ bl /\ ki <> (k, i)).
  { intros ki (m & Hm)%list_elem_of_lookup. rewrite list_lookup_delete in Hm. case_match; (split; [by eapply list_elem_of_lookup_2|]; intros ->; pose proof (NoDup_lookup _ _ _ _ Hnd Hm Ek); lia). }
  assert (Hall' : Forall2 (holds S) (delete j held) (delete j bl)) by by apply Forall2_delete.
  exists S', (delete j bl). split; [done|]. split; [done|]. split; [intros k' i' Hin; apply Hused; split; [by apply Hi|]; intros [-> ->]; done|]. split; [by eapply sublist_NoDup; [|apply sublist_delete]|]. split.
  - apply Forall2_same_length_lookup_2; [by apply (Forall2_length _ _ _ Hall')|]. intros m h' ki Hh Hk. destruct (Hother ki ltac:(by eapply list_elem_of_lookup_2)) as [_ Hne].
    destruct (Forall2_lookup_lr _ _ _ _ _ _ Hall' Hh Hk) as (H1 & H2 & H3 & H4 & H5). split; [done|]. split; [|done]. apply Hused. split; [done|]. intros [E1 E2]. apply Hne. destruct ki. cbn in *. congruence.
  - eapply (filled_frame S b b1 _ _ (delete j bl) Hs Hi Hall' Hf); [|by apply Forall_delete]. intros h' ki x (H1 & H2 & _) Hin Hx [Hx'|Hx']; [done|]. exfalso.
    destruct (Hother ki Hin) as [_ Hne]. destruct (leaves_apart g S Hs ki.1 ki.2 k i x) as [E1 E2]; try done; try congruence; try (by eexists). apply Hne. destruct ki. cbn in *. congruence.
Qed.

Lemma serve_fill b held j h v : held_ok b held -> held !! j = Some h ->
  held_ok (set_bm (CString.memset (bm b) (h_addr h) v (h_size h)) b) (<[j := mkHeld (h_addr h) (h_size h) (Some v)]> held).
Proof using Hg.
  intros (S & bl & B & Hl & Hi & Hnd & Hall & Hfill) Ej. pose proof (bo_shape _ _ _ B) as Hs. destruct (Forall2_lookup_l _ _ _ _ _ Hall Ej) as (ki & Ek & Hh). set (m' := CString.memset _ _ _ _).
  assert (Hget : forall x, getb m' x = if bool_decide (h_addr h <= x < h_addr h + h_size h) then u8 v else getb (bm b) x) by (intros x; by apply CString.getb_memset).
  exists S, bl. split; [apply buddy_ok_write; [done|]|split; [done|split; [done|split; [done|split]]]].
  - intros x Hx. rewrite Hget. case_bool_decide as E; [|done]. destruct (held_byte S h ki x Hs Hi Hh E) as (_ & ? & ?). tauto.
  - rewrite <-(list_insert_id bl j ki Ek). apply Forall2_insert; [done|]. destruct Hh as (H1 & H2 & H3 & H4 & H5). done.
  - apply Forall_lookup. intros m h' Hm w Hw x Hx. cbn [bm set_bm]. rewrite Hget. destruct (decide (m = j)) as [->|Hne].
    { rewrite list_lookup_insert_eq in Hm by by eapply lookup_lt_Some. injection Hm as <-. cbn in *. injection Hw as ->. by rewrite bool_decide_true. }
    rewrite list_lookup_insert_ne in Hm by done. case_bool_decide as E; [|by eapply (Forall_lookup_1 _ _ _ _ Hfill Hm)]. exfalso.
    destruct (Forall2_lookup_l _ _ _ _ _ Hall Hm) as (ki' & Ek' & Hh'). destruct (held_byte S h ki x Hs Hi Hh E) as (A1 & _). destruct (held_byte S h' ki' x Hs Hi Hh' Hx) as (A2 & _).
    destruct Hh as (H1 & H2 & _), Hh' as (H1' & H2' & _). destruct (leaves_apart g S Hs ki.1 ki.2 ki'.1 ki'.2 x) as [E1 E2]; try done; try congruence; try (by eexists).
    apply Hne. eapply NoDup_lookup; [exact Hnd|exact Ek'|]. rewrite Ek. destruct ki, ki'. cbn in *. congruence.
Qed.

Lemma run_serve calls : forall b held (Q : list hblock -> buddy -> Prop), held_ok b held -> Forall (fun c => match c with CMalloc n => 0 <= n <= 2 ^ 63 | _ => True end) calls ->
  (forall held' b', held_ok b' held' -> Q held' b') -> run (serve held calls) b Q.
Proof using Hg.
  induction calls as [|c calls IH]; intros b held Q Hh Hc HQ; cbn [serve]; [wp; by apply HQ|]. apply Forall_cons in Hc as [Hc Hcs]. destruct c as [n|j|j v].
  - wp. eapply serve_malloc; [exact Hh|done|]. intros p b' Hh'. by apply IH.
  - destruct (held !! j) as [h|] eqn:Ej; [|by apply IH]. wp. eapply serve_free; [exact Hh|exact Ej|]. intros b' Hh'. by apply IH.
  - destruct (held !! j) as [h|] eqn:Ej; [|by apply IH]. unfold upd. wp. apply IH; [|done|done]. by apply serve_fill.
Qed.
End caller.

Lemma held_apart g units b held (Hg : geo_ok g) : held_ok g units b held -> forall i j h h', i <> j -> held !! i = Some h -> held !! j = Some h' ->
  h_addr h + h_size h <= h_addr h' \/ h_addr h' + h_size h' <= h_addr h.
Proof.
  intros (S & bl & B & _ & Hi & Hnd & Hall & _) i j h h' Hne H1 H2.
  destruct (Forall2_lookup_l _ _ _ _ _ Hall H1) as (k1 & E1 & Hh1). destruct (Forall2_lookup_l _ _ _ _ _ Hall H2) as (k2 & E2 & Hh2).
  destruct (Z_le_gt_dec (h_addr h + h_size h) (h_addr h')) as [|Hgt]; [by left|]. destruct (Z_le_gt_dec (h_addr h' + h_size h') (h_addr h)) as [|Hgt']; [by right|]. exfalso. apply Hne.
  pose proof Hh1 as (Hb1 & Hu1 & _ & Ha1 & Hn1). pose proof Hh2 as (Hb2 & Hu2 & _ & Ha2 & Hn2). pose proof Hb1 as [[Hk1 _] _]. pose proof Hb2 as [[Hk2 _] _]. pose proof (BLK_SIZE_pos _ Hk1). pose proof (BLK_SIZE_pos _ Hk2).
  assert (Hx : area g k1.1 k1.2 (Z.max (h_addr h) (h_addr h')) /\ area g k2.1 k2.2 (Z.max (h_addr h) (h_addr h'))) by (unfold area, addr_of in *; lia). destruct Hx as [Hx1 Hx2].
  destruct (leaves_apart g S (bo_shape _ _ _ B) k1.1 k1.2 k2.1 k2.2 (Z.max (h_addr h) (h_addr h'))) as [F1 F2]; try done; try congruence; try (by eexists).
  eapply NoDup_lookup; [exact Hnd|exact E1|]. rewrite E2. destruct k1, k2. cbn in *. congruence.
Qed.

(** ** The theorems *)

(** C22: bd_init() called with memory from [base] to [end_], of more than 1024
    bytes and less than 2^31 and not a power of two, sets up the allocator:
    its data takes at most a quarter of the heap, every whole unit of 16
    bytes past that data is free, nothing else is, and no byte outside the
    memory is written; its own check of the free bytes does not panic. *)
Theorem bd_init_correct base end_ b : let p := ROUNDUP base 16 in
  0 < base < 2 ^ 61 -> 1024 < end_ - p < 2 ^ 31 -> (forall j, end_ - p <> 2 ^ j) ->
  run (bd_init base end_) b (fun _ b' => exists g S, initialised b p (end_ - p) g S b').
Proof. intros p Hb Hs Hj. apply run_bd_init; [done|done|done|]. intros g S b' H. by exists g, S. Qed.

Lemma not_pow_2 n m : 0 <= m -> 2 ^ m < n < 2 ^ (m + 1) -> forall j, n <> 2 ^ j.
Proof.
  intros Hm Hn j ->. destruct (Z_lt_ge_dec j 0) as [Hj|Hj]; [rewrite (Z.pow_neg_r 2 j Hj) in Hn; pose proof (Z.pow_pos_nonneg 2 m); lia|].
  destruct Hn as [H1 H2]. apply Z.pow_lt_mono_r_iff in H1, H2; lia.
Qed.

Definition heap0 : buddy := mkBuddy ∅ 0 0 0 false [].

Lemma bd_init_correct_witness : run (bd_init 4104 (4112 + 2000)) heap0 (fun _ b' => exists g S, initialised heap0 4112 2000 g S b').
Proof. apply (bd_init_correct 4104 (4112 + 2000) heap0); [lia|vm_compute; split; reflexivity|]. change (4112 + 2000 - ROUNDUP 4104 16) with 2000. apply (not_pow_2 _ 10); lia. Defined.

(** C23: bd_malloc() of at most 2^63 bytes returns a block of the smallest size that fits, taken
    from free memory, with the other blocks in use still in use and all memory
    but free blocks and the allocator's data unchanged; it returns 0, having
    changed nothing, only if no free block is big enough.  The lock is free
    again afterwards. *)
Theorem bd_malloc_correct g b S n : geo_ok g -> buddy_ok g b S -> locked b = false -> n <= 2 ^ 63 ->
  run (bd_malloc 64 n) b (fun p b' => malloc_result g b S n p b' /\ locked b' = false).
Proof. intros Hg B Hl Hn. by eapply (run_malloc g Hg). Qed.

Lemma run_ends {X} (c : B X) b (Q : X -> buddy -> Prop) : run c b Q -> exists x b', Q x b'.
Proof. unfold run. destruct (c b) as [x b'| | |]; [|done..]. intros H. by exists x, b'. Qed.

Lemma some_heap : exists g b S, geo_ok g /\ buddy_ok g b S /\ locked b = false /\ block g 0 125 /\ S 0 125 = Some Used /\ meta g <= 125 * BLK_SIZE 0.
Proof.
  assert (Hp : ROUNDUP 4096 16 = 4096) by reflexivity.
  destruct (run_ends (bd_init 4096 6096) heap0 (fun _ b' => exists g S, initialised heap0 4096 2000 g S b')) as (_ & b & g & S & Hg & B & Hl & _ & Hm & Hh & _ & Hu & _).
  - apply run_bd_init; rewrite ?Hp; [lia|lia|apply (not_pow_2 _ 10); lia|]. intros g S b' H. by exists g, S.
  - assert (Hb : block g 0 125).
    { pose proof (gk_top _ Hg). split; [unfold level; lia|]. unfold nblk. rewrite Z.sub_0_r. unfold heap in Hh. rewrite BLK_SIZE_eq in Hh by lia. lia. }
    exists g, b, S. split; [done|]. split; [done|]. split; [done|]. split; [done|]. split; [by apply Hu; [|split; [|right]]|]. change (BLK_SIZE 0) with 16. lia.
Qed.

Lemma bd_malloc_correct_witness : exists g b S, buddy_ok g b S /\ run (bd_malloc 64 100) b (fun p b' => malloc_result g b S 100 p b' /\ locked b' = false).
Proof. destruct some_heap as (g & b & S & Hg & B & Hl & _). exists g, b, S. split; [done|]. apply (bd_malloc_correct g b S 100); [done|done|done|lia]. Defined.

(** C24: bd_free() of a block in use past the allocator's data ends with the
    same blocks in use but that one, the free buddies merged, and all other
    blocks in use unchanged, and with the lock free. *)
Theorem bd_free_correct g b S k i : geo_ok g -> buddy_ok g b S -> locked b = false -> block g k i -> S k i = Some Used -> meta g <= i * BLK_SIZE k ->
  run (bd_free (addr_of g k i)) b (fun _ b' => free_result g b S k i b' /\ locked b' = false).
Proof. intros Hg B Hl Hb Hu Hm. by eapply (run_free g Hg). Qed.

Lemma bd_free_correct_witness : exists g b S, S 0 125 = Some Used /\ run (bd_free (addr_of g 0 125)) b (fun _ b' => free_result g b S 0 125 b' /\ locked b' = false).
Proof. destruct some_heap as (g & b & S & Hg & B & Hl & Hb & Hu & Hm). exists g, b, S. split; [done|]. apply (bd_free_correct g b S 0 125); done. Defined.

(** C6: a caller that starts with bd_init() on memory of more than 1024 bytes,
    less than 2^31 and not a power of two, and then allocates (at most 2^63
    bytes at a time), frees and fills blocks in any order is always served:
    nothing panics.  At the end the allocator's data takes the [meta] bytes
    from [p] on; the blocks the caller holds lie behind them and before the end
    of the memory, do not overlap, have at least the bytes asked for, and hold
    what the caller has written to them. *)
Theorem bd_caller_safe base end_ calls b : let p := ROUNDUP base 16 in
  0 < base < 2 ^ 61 -> 1024 < end_ - p < 2 ^ 31 -> (forall j, end_ - p <> 2 ^ j) ->
  Forall (fun c => match c with CMalloc n => 0 <= n <= 2 ^ 63 | _ => True end) calls ->
  run (bd_init base end_ ;; serve [] calls) b (fun held b' => exists g S,
    (geo_ok g /\ BuddyMem.base g = p /\ buddy_ok g b' S) /\
    (forall i h, held !! i = Some h -> p + meta g <= h_addr h /\ h_addr h + h_size h <= end_ /\ filled b' h) /\
    (forall i j h h', i <> j -> held !! i = Some h -> held !! j = Some h' -> h_addr h + h_size h <= h_addr h' \/ h_addr h' + h_size h' <= h_addr h)).
Proof.
  intros p Hb Hs Hj Hc. wp. apply run_bd_init; [done|done|done|]. intros g S b1 (Hg & B & Hl & Eb & Hm & Hsize & Hfree & Hused & _).
  eapply (run_serve g Hg ((end_ - p) / 16)); [|exact Hc|].
  - exists S, []. split; [done|]. split; [done|]. split; [|split; [constructor|split; constructor]]. intros k i (Hbl & -> & Hi). by apply Hused.
  - intros held b' Hh. pose proof Hh as (S' & bl & B' & _ & Hin & _ & Hall & Hfill). exists g, S'. split; [done|]. split; [|by eapply held_apart]. intros i h Hi.
    destruct (Forall2_lookup_l _ _ _ _ _ Hall Hi) as ([k' i'] & _ & (Hb' & Hu' & Hn' & Ha' & Hsz')). cbn in *. pose proof Hb' as [[Hk _] _]. pose proof (BLK_SIZE_pos k' Hk).
    pose proof (held_area g Hg _ S' k' i' (addr_of g k' i') (bo_shape _ _ _ B') Hin Hb' Hu' Hn' ltac:(by apply area_addr)).
    pose proof (held_area g Hg _ S' k' i' (addr_of g k' i' + BLK_SIZE k' - 1) (bo_shape _ _ _ B') Hin Hb' Hu' Hn' ltac:(unfold area, addr_of; lia)).
    pose proof (Z.mul_div_le (end_ - p) 16 ltac:(lia)). split; [lia|]. split; [lia|]. by apply (Forall_lookup_1 _ _ _ _ Hfill Hi).
Qed.

Lemma bd_caller_safe_witness : run (bd_init 4096 6096 ;; serve [] [CMalloc 100; CMalloc 16; CFill 1 7; CFree 0; CMalloc 200]) heap0 (fun held b' => exists g S,
    (geo_ok g /\ BuddyMem.base g = 4096 /\ buddy_ok g b' S) /\
    (forall i h, held !! i = Some h -> 4096 + meta g <= h_addr h /\ h_addr h + h_size h <= 6096 /\ filled b' h) /\
    (forall i j h h', i <> j -> held !! i = Some h -> held !! j = Some h' -> h_addr h + h_size h <= h_addr h' \/ h_addr h' + h_size h' <= h_addr h)).
Proof.
  apply (bd_caller_safe 4096 6096); [lia|vm_compute; split; reflexivity|change (6096 - ROUNDUP 4096 16) with 2000; apply (not_pow_2 _ 10); lia|].
  repeat constructor; lia.
Defined.

(** C37: firstk() ends exactly for requests of at most 2^63 bytes: above that
    the size it doubles wraps to 0 before it is big enough. *)
Theorem firstk_terminates n : (exists fuel k, firstk fuel n = Some k) <-> n <= 2 ^ 63.
Proof.
  split.
  - intros (fuel & k & E). destruct (Z_le_gt_dec n (2 ^ 63)) as [|Hgt]; [done|]. rewrite firstk_diverges in E by lia. done.
  - intros Hn. destruct (firstk_spec n Hn) as (k & E & _). by exists 64%nat, k.
Qed.

(** With memory of a power of two, bd_init() looks up the bits of a block
    past the last one, takes it for free and panics; here for 1 KB to 16 KB. *)
Theorem bd_init_power_of_two : Forall (fun k => bd_init 4096 (4096 + 2 ^ k) heap0 = Panic "bd_init: free mem") [10; 11; 12; 13; 14].
Proof. repeat constructor; vm_compute; reflexivity. Qed.
End BuddyClient.
