(* ===== verification/Mkfs.v ===== *)
(** * The file-system builder (mkfs/mkfs.c)

    mkfs writes the initial disk image: the super block, an empty log, the
    inodes, the bitmap, and the root directory with the given files.  The
    image is a map from sectors to blocks, as the disk of the kernel is.

    The host's part: the command line is a list of path names, each with the
    bytes its reads deliver ([None] when the file cannot be opened), and the
    host is little-endian.  An exit(1) or a failed assert is a [Panic]. *)

From S2P Require Import Prelude Bytes CString KState Spinlock Kernel Riscv Kalloc Vm Sched Console Virtio Disk Bio Cache Log Commit Transaction Fs Tx Balloc Dinode Inode FileIO Atomic.

Module Mkfs.
Import Disk Cache Commit Fs Tx Balloc Dinode Inode FileIO Atomic.

(** ** Constants and state *)

Definition FSSIZE : Z := 2000.
Definition NINODES : Z := 200.
Definition nbitmap : Z := FSSIZE / (BSIZE * 8) + 1.
Definition ninodeblocks : Z := NINODES / IPB + 1.
Definition nlog : Z := LOGSIZE.
Definition nmeta : Z := 2 + nlog + ninodeblocks + nbitmap.
Definition nblocks : Z := FSSIZE - nmeta.
Definition zeroes : block := replicate 1024 0.

(** struct dinode. *)
Record dinode := mkDinode {
  d_type : Z; d_major : Z; d_minor : Z; d_nlink : Z; d_size : Z; d_addrs : list Z
}.
Definition set_d_size (v : Z) (d : dinode) : dinode :=
  mkDinode (d_type d) (d_major d) (d_minor d) (d_nlink d) v (d_addrs d).
Definition set_d_addr (k v : Z) (d : dinode) : dinode :=
  mkDinode (d_type d) (d_major d) (d_minor d) (d_nlink d) (d_size d) (<[Z.to_nat k := v]> (d_addrs d)).

(** The image file and the variables freeinode and freeblock. *)
Record builder := mkBuilder { img : disk; freeinode : Z; freeblock : Z }.
Definition set_img (v : disk) (s : builder) : builder := mkBuilder v (freeinode s) (freeblock s).
Definition set_freeinode (v : Z) (s : builder) : builder := mkBuilder (img s) v (freeblock s).
Definition set_freeblock (v : Z) (s : builder) : builder := mkBuilder (img s) (freeinode s) v.

Abbreviation H := (M builder).

(** ** Byte order *)

Definition xshort (x : Z) : Z :=
  let y := setb [0; 0] 0 x in
  let y := setb y 1 (Z.shiftr x 8) in
  ld16 y 0.

Definition xint (x : Z) : Z :=
  let y := setb [0; 0; 0; 0] 0 x in
  let y := setb y 1 (Z.shiftr x 8) in
  let y := setb y 2 (Z.shiftr x 16) in
  let y := setb y 3 (Z.shiftr x 24) in
  ld32 y 0.

(** The super block main() fills in. *)
Definition sb : superblock :=
  mkSb FSMAGIC (xint FSSIZE) (xint nblocks) (xint NINODES) (xint nlog) (xint 2) (xint (2 + nlog))
    (xint (2 + nlog + ninodeblocks)).

(** memmove(buf, &sb, sizeof(sb)) into a zeroed buffer. *)
Definition sb_bytes : block :=
  let b := st32 zeroes 0 (sb_magic sb) in
  let b := st32 b 4 (sb_size sb) in
  let b := st32 b 8 (sb_nblocks sb) in
  let b := st32 b 12 (sb_ninodes sb) in
  let b := st32 b 16 (sb_nlog sb) in
  let b := st32 b 20 (sb_logstart sb) in
  let b := st32 b 24 (sb_inodestart sb) in
  st32 b 28 (sb_bmapstart sb).

(** ** Sectors *)

(** The sector at file offset [sec * BSIZE], computed in 32 bits. *)
Definition sector (sec : Z) : nat * Z := (0%nat, u32 (sec * BSIZE) / BSIZE).

Definition wsect (sec : Z) (buf : block) : H unit :=
  modify (fun s => set_img (<[sector sec := buf]> (img s)) s).

Definition rsect (sec : Z) : H block :=
  r <- gets (fun s => img s !! sector sec) ;;
  match r with Some d => ret d | None => panic "read" end.

(** ** Inodes *)

Definition get_dinode (buf : block) (off : Z) : dinode :=
  mkDinode (di_type buf off) (di_major buf off) (di_minor buf off) (di_nlink buf off) (di_size buf off) (di_addrs buf off).

Definition put_dinode (buf : block) (off : Z) (d : dinode) : block :=
  let buf := st16 buf off (d_type d) in
  let buf := st16 buf (off + 2) (d_major d) in
  let buf := st16 buf (off + 4) (d_minor d) in
  let buf := st16 buf (off + 6) (d_nlink d) in
  let buf := st32 buf (off + 8) (d_size d) in
  store_addrs buf (off + 12) (d_addrs d).

Definition winode (inum : Z) (ip : dinode) : H unit :=
  let bn := IBLOCK inum sb in
  buf <- rsect bn ;;
  wsect bn (put_dinode buf (dinode_off inum) ip).

Definition rinode (inum : Z) : H dinode :=
  let bn := IBLOCK inum sb in
  buf <- rsect bn ;;
  ret (get_dinode buf (dinode_off inum)).

Definition ialloc (type : Z) : H Z :=
  inum <- gets freeinode ;;
  modify (set_freeinode (u32 (inum + 1))) ;;
  winode inum (mkDinode (s16 (xshort type)) 0 0 (s16 (xshort 1)) (xint 0) (replicate 13 0)) ;;
  ret inum.

(** ** Blocks *)

Fixpoint mark_used (k : nat) (i : Z) (buf : block) : block :=
  match k with
  | O => buf
  | S k' => mark_used k' (i + 1) (setb buf (i / 8) (Z.lor (getb buf (i / 8)) (Z.shiftl 1 (i mod 8))))
  end.

Definition balloc (used : Z) : H unit :=
  if negb (used <? BSIZE * 8) then panic "assert" else
  wsect (sb_bmapstart sb) (mark_used (Z.to_nat used) 0 zeroes).

(** freeblock++ *)
Definition next_block : H Z :=
  b <- gets freeblock ;;
  modify (set_freeblock (u32 (b + 1))) ;;
  ret b.

(** The entry of block [fbn] in the indirect block [a], allocated if it has none. *)
Definition indirect_entry (a fbn : Z) : H Z :=
  indirect <- rsect a ;;
  indirect <- (if ld32 indirect (4 * (fbn - NDIRECT)) =? 0
               then
                 b <- next_block ;;
                 let indirect := st32 indirect (4 * (fbn - NDIRECT)) (xint b) in
                 wsect a indirect ;;
                 ret indirect
               else ret indirect) ;;
  ret (xint (ld32 indirect (4 * (fbn - NDIRECT)))).

(** The block number of block [fbn] of the file, allocated if it has none. *)
Definition append_block (din : dinode) (fbn : Z) : H (dinode * Z) :=
  if fbn <? NDIRECT then
    din <- (if xint (d_addrs din !!! Z.to_nat fbn) =? 0
            then b <- next_block ;; ret (set_d_addr fbn (xint b) din)
            else ret din) ;;
    ret (din, xint (d_addrs din !!! Z.to_nat fbn))
  else
    din <- (if xint (d_addrs din !!! Z.to_nat NDIRECT) =? 0
            then b <- next_block ;; ret (set_d_addr NDIRECT (xint b) din)
            else ret din) ;;
    x <- indirect_entry (xint (d_addrs din !!! Z.to_nat NDIRECT)) fbn ;;
    ret (din, x).

(** One round of the loop of iappend(): the state is [din], [off], and the
    bytes from [p] on. *)
Definition append_round (din : dinode) (off : Z) (p : list Z) : H (dinode * Z * list Z) :=
  let n := Z.of_nat (length p) in
  let fbn := off / BSIZE in
  if negb (fbn <? MAXFILE) then panic "assert" else
  r <- append_block din fbn ;;
  let '(din, x) := r in
  let n1 := Z.min n ((fbn + 1) * BSIZE - off) in
  buf <- rsect x ;;
  wsect x (set_bytes buf (off - fbn * BSIZE) (take (Z.to_nat n1) p)) ;;
  ret (din, u32 (off + n1), drop (Z.to_nat n1) p).

Definition iappend (inum : Z) (xp : list Z) : H unit :=
  din <- rinode inum ;;
  r <- loop (S (length xp)) (fun '(din, off, p) =>
         match p with
         | [] => ret (inr (din, off))
         | _ => r <- append_round din off p ;; ret (inl r)
         end) (din, xint (d_size din), xp) ;;
  let '(din, off) := r in
  winode inum (set_d_size (xint off) din).

(** ** The program *)

Definition dirent (inum : Z) (name : list Z) : list Z :=
  let de := replicate 16 0 in
  let de := st16 de 0 (xshort inum) in
  CString.strncpy de name 2 0 DIRSIZ.

(** A file named on the command line: its path and what its reads deliver. *)
Record input := mkInput { path : list Z; chunks : option (list (list Z)) }.

Definition user_dir : list Z := [117; 115; 101; 114; 47].   (* user/ *)

(** The name without "user/", and without a leading underscore. *)
Definition shortname (p : list Z) : list Z :=
  if CString.strncmp p user_dir 0 0 5 =? 0 then drop 5 p else p.
Definition strip_underscore (p : list Z) : list Z :=
  if getb p 0 =? 95 then drop 1 p else p.

Definition add_file (rootino : Z) (f : input) : H unit :=
  let name := shortname (path f) in
  if existsb (fun c => c =? 47) name then panic "assert" else
  match chunks f with
  | None => panic "open"
  | Some cs =>
      let name := strip_underscore name in
      inum <- ialloc T_FILE ;;
      iappend rootino (dirent inum name) ;;
      iter_each cs (iappend inum)
  end.

Definition main (args : list input) : H unit :=
  modify (set_freeblock nmeta) ;;
  iter_each (seqZ 0 FSSIZE) (fun i => wsect i zeroes) ;;
  wsect 1 sb_bytes ;;
  rootino <- ialloc T_DIR ;;
  if negb (rootino =? ROOTINO) then panic "assert" else
  iappend rootino (dirent rootino [46]) ;;
  iappend rootino (dirent rootino [46; 46]) ;;
  iter_each args (add_file rootino) ;;
  din <- rinode rootino ;;
  let off := xint (d_size din) in
  let off := u32 ((off / BSIZE + 1) * BSIZE) in
  winode rootino (set_d_size (xint off) din) ;;
  used <- gets freeblock ;;
  balloc (s32 used).

(** Before main() runs. *)
Definition start : builder := mkBuilder ∅ 1 0.

End Mkfs.
