(* ===== verification/MkfsProof.v ===== *)
(** * The image mkfs builds is a file system of the kernel

    The image satisfies what the theorems about the kernel's file system
    assume of a disk: the geometry of its super block, an empty log, a bitmap
    that marks exactly the blocks in use, files whose blocks are allocated,
    disjoint, without holes, and hold the bytes they should, and, unless the
    root directory's entries fill its blocks exactly, a tree in which the
    kernel finds every file under its name. *)

From S2P Require Import Prelude Bytes CString KState Spinlock Kernel Riscv Kalloc Vm Sched Console Virtio Disk Bio Cache Log Commit Transaction Fs Tx Balloc Dinode Inode FileIO Atomic FileSystem Icache Dir DirProof Tree Mkfs.

Module MkfsProof.
Import Disk Cache Commit Fs Tx Balloc Dinode Inode FileIO Atomic Icache DirProof Tree Mkfs.

Abbreviation fblk := (fblk 0%nat).
Abbreviation fbyte := (fbyte 0%nat).
Abbreviation blk_of := (blk_of 0%nat).
Implicit Types (ct : disk) (i : inode) (data : list Z).

(** ** Files under construction *)

(** [a] is a block of the file. *)
Definition own ct i (a : Z) : Prop := a <> 0 /\ blk_of ct i a.

(** The first [nb] blocks of the file are mapped, to blocks below [hi], and
    hold [data] followed by zeros. *)
Record file_in ct (hi : Z) i (nb : Z) data : Prop := {
  fi_len : length (i_addrs i) = 13%nat;
  fi_nb : 0 <= nb <= MAXFILE;
  fi_mapped : forall bn, 0 <= bn < MAXFILE -> fblk ct i bn <> 0 <-> bn < nb;
  fi_range : forall a, own ct i a -> nmeta <= a < hi;
  fi_ne : forall bn, 0 <= bn < MAXFILE -> fblk ct i bn <> 0 -> fblk ct i bn <> ind i;
  fi_inj : forall bn bn', 0 <= bn < MAXFILE -> 0 <= bn' < MAXFILE ->
    fblk ct i bn = fblk ct i bn' -> fblk ct i bn <> 0 -> bn = bn';
  fi_bytes : forall x, 0 <= x < MAXFILE * BSIZE -> fbyte ct i x = getb data x
}.

Definition zero_at ct (b : Z) : Prop := ct !! (0%nat, b) = Some zeroes.

(** The file takes the blocks from [fb] to [fb'] and only its blocks change. *)
Record grown ct (fb : Z) i ct' (fb' : Z) i' : Prop := {
  gr_le : fb <= fb';
  gr_own : forall a, own ct' i' a <-> own ct i a \/ fb <= a < fb';
  gr_same : forall a, ~ own ct' i' a -> ct' !! (0%nat, a) = ct !! (0%nat, a);
  gr_blocks : forall a d, ct !! (0%nat, a) = Some d -> length d = 1024%nat ->
    exists d', ct' !! (0%nat, a) = Some d' /\ length d' = 1024%nat
}.

Lemma grew_refl ct fb i : grown ct fb i ct fb i.
Proof. split; [lia|intuition lia|done|eauto]. Qed.

Lemma grew_trans ct fb i ct1 fb1 i1 ct2 fb2 i2 :
  grown ct fb i ct1 fb1 i1 -> grown ct1 fb1 i1 ct2 fb2 i2 -> grown ct fb i ct2 fb2 i2.
Proof.
  intros [A1 A2 A3 A4] [B1 B2 B3 B4]. split; [lia|..].
  - intros a. rewrite B2, A2. intuition lia.
  - intros a Ha. rewrite B3 by done. apply A3. intros Ho. apply Ha, B2. by left.
  - intros a d H1 H2. destruct (A4 a d H1 H2) as (d1 & ? & ?). by eapply B4.
Qed.

Lemma own_fblk ct i bn : 0 <= bn < MAXFILE -> fblk ct i bn <> 0 -> own ct i (fblk ct i bn).
Proof. intros Hb Hne. split; [done|]. right. by exists bn. Qed.
Lemma own_ind ct i : ind i <> 0 -> own ct i (ind i).
Proof. intros Hne. split; [done|]. by left. Qed.

Lemma bn_range x : 0 <= x < MAXFILE * BSIZE -> 0 <= x / BSIZE < MAXFILE.
Proof. intros Hx. split; [apply Z.div_pos; lia|apply Z.div_lt_upper_bound; lia]. Qed.

Lemma getb_zeroes x : getb zeroes x = 0.
Proof.
  change (list_getb zeroes x = 0). unfold list_getb. case_test; [done|]. unfold zeroes.
  destruct (decide (Z.to_nat x < 1024)%nat); [by rewrite lookup_replicate_2|].
  by rewrite lookup_ge_None_2 by (rewrite length_replicate; lia).
Qed.

(** A file whose blocks did not change. *)
Lemma file_in_ext ct ct' hi hi' i nb data : file_in ct hi i nb data -> hi <= hi' ->
  (forall a, own ct i a -> ct' !! (0%nat, a) = ct !! (0%nat, a)) ->
  file_in ct' hi' i nb data /\ forall a, own ct' i a <-> own ct i a.
Proof.
  intros [F1 F2 F3 F4 F5 F6 F7] Hhi Hs.
  assert (Hf : forall bn, fblk ct' i bn = fblk ct i bn).
  { intros bn. unfold fblk. destruct (bn <? NDIRECT); [done|]. destruct (Z.eqb_spec (ind i) 0); [done|].
    by rewrite (Hs (ind i)) by by apply own_ind. }
  assert (Ho : forall a, own ct' i a <-> own ct i a) by (intros a; unfold own, blk_of; by setoid_rewrite Hf).
  split; [|done]. split; try done; try setoid_rewrite Hf; try done.
  - intros a Ha%Ho. specialize (F4 a Ha). lia.
  - intros x Hx. rewrite <-F7 by done. apply fbyte_ext; [lia|apply Hf|].
    intros Hne. apply Hs, own_fblk; [by apply bn_range|done].
Qed.

(** ** A new block of the file *)

Section map_block.
Context ct ct' i i' (fb nb : Z) data.
Context (F : file_in ct fb i nb data) (Hnb : nb < MAXFILE) (Hz : zero_at ct' fb) (Hfb : nmeta <= fb).
Context (Hblk : forall bn, 0 <= bn < MAXFILE -> fblk ct' i' bn = if bool_decide (bn = nb) then fb else fblk ct i bn).
Context (Hind : ind i' = ind i) (Hlen : length (i_addrs i') = 13%nat).
Context (Hsame : forall a, a <> ind i -> ct' !! (0%nat, a) = ct !! (0%nat, a)).

Lemma own_mapped a : own ct' i' a <-> own ct i a \/ fb <= a < fb + 1.
Proof using F Hnb Hfb Hblk Hind.
  clear Hlen Hz Hsame.
  assert (Hm : 0 < nmeta) by done. pose proof (fi_nb _ _ _ _ _ F).
  assert (Hn : fblk ct i nb = 0).
  { destruct (decide (fblk ct i nb = 0)) as [|Hne]; [done|]. apply (fi_mapped _ _ _ _ _ F) in Hne; lia. }
  unfold own, blk_of. rewrite Hind. split.
  - intros [Ha [->|(bn & Hb & ->)]]; [left; by eauto|]. rewrite Hblk in * by done.
    case_bool_decide; [lia|]. left. split; [done|]. right. by exists bn.
  - intros [[Ha [->|(bn & Hb & ->)]]|Ha]; [by eauto| |].
    + split; [done|]. right. exists bn. rewrite Hblk by done. rewrite bool_decide_false; [done|]. congruence.
    + assert (a = fb) as -> by lia. split; [lia|]. right. exists nb. split; [lia|]. rewrite Hblk by lia. by rewrite bool_decide_true.
Qed.

Lemma file_in_mapped : file_in ct' (fb + 1) i' (nb + 1) data.
Proof using All.
  assert (Hm : 0 < nmeta) by done. pose proof own_mapped as Ho. destruct F as [F1 F2 F3 F4 F5 F6 F7].
  assert (Hlt : forall bn, 0 <= bn < MAXFILE -> fblk ct i bn <> fb).
  { intros bn Hb E. assert (Hw : own ct i (fblk ct i bn)) by (apply own_fblk; [done|lia]). apply F4 in Hw. lia. }
  split; [done|lia|..].
  - intros bn Hb. rewrite Hblk by done. case_bool_decide; [lia|]. rewrite F3 by done. lia.
  - intros a [Ha|Ha]%Ho; [specialize (F4 a Ha)|]; lia.
  - intros bn Hb. rewrite Hblk, Hind by done. case_bool_decide; [|by apply F5].
    intros _ E. assert (Hw : own ct i (ind i)) by (apply own_ind; lia). apply F4 in Hw. lia.
  - intros bn bn' Hb Hb'. rewrite !Hblk by done. repeat case_bool_decide; try congruence; [| |by apply F6]; intros E; exfalso; [by apply (Hlt bn')|by apply (Hlt bn)].
  - intros x Hx. pose proof (bn_range x Hx) as Hb. rewrite <-F7 by done. destruct (decide (x / BSIZE = nb)) as [E|E].
    + unfold fbyte. rewrite Hblk by done. rewrite bool_decide_true by done. destruct (Z.eqb_spec fb 0); [lia|]. rewrite Hz, getb_zeroes.
      destruct (Z.eqb_spec (fblk ct i (x / BSIZE)) 0) as [|Hne]; [done|]. apply F3 in Hne; lia.
    + apply fbyte_ext; [lia|rewrite Hblk by done; by rewrite bool_decide_false|]. intros Hne. by apply Hsame, F5.
Qed.
End map_block.

(** A direct block: [din.addrs[nb] = freeblock++]. *)
Definition with_addr (k : Z) (v : Z) (i : inode) : inode := set_i_addrs (<[Z.to_nat k := v]> (i_addrs i)) i.

Lemma append_direct ct fb i nb data : file_in ct fb i nb data -> nb < NDIRECT -> nmeta <= fb -> zero_at ct fb ->
  file_in ct (fb + 1) (with_addr nb fb i) (nb + 1) data /\ grown ct fb i ct (fb + 1) (with_addr nb fb i).
Proof.
  intros F Hnb Hfb Hz. pose proof (fi_nb _ _ _ _ _ F) as H0. pose proof (fi_len _ _ _ _ _ F) as Hl.
  assert (Hi : ind (with_addr nb fb i) = ind i) by (unfold ind; cbn; apply list_lookup_total_insert_ne; lia).
  assert (Hb : forall bn, 0 <= bn < MAXFILE -> fblk ct (with_addr nb fb i) bn = if bool_decide (bn = nb) then fb else fblk ct i bn).
  { intros bn Hbn. unfold fblk. rewrite Hi. destruct (Z.ltb_spec bn NDIRECT).
    - cbn. case_bool_decide as E; [subst; by rewrite list_lookup_total_insert_eq by lia|]. by rewrite list_lookup_total_insert_ne by lia.
    - by rewrite bool_decide_false by lia. }
  split; [apply (file_in_mapped ct ct i); try done; try lia; by cbn; rewrite length_insert|].
  split; [lia|apply (own_mapped ct ct i _ fb nb data); try done; lia|done|eauto].
Qed.

(** The indirect block: [din.addrs[NDIRECT] = freeblock++]. *)
Lemma append_indirect ct fb i data : file_in ct fb i NDIRECT data -> ind i = 0 -> nmeta <= fb -> zero_at ct fb ->
  file_in ct (fb + 1) (with_addr NDIRECT fb i) NDIRECT data /\ grown ct fb i ct (fb + 1) (with_addr NDIRECT fb i).
Proof.
  intros [F1 F2 F3 F4 F5 F6 F7] Hi0 Hfb Hz. assert (Hm : 0 < nmeta) by done. set (i' := with_addr NDIRECT fb i).
  assert (Hi : ind i' = fb) by (unfold ind, i'; cbn; apply list_lookup_total_insert_eq; lia).
  assert (Hb : forall bn, 0 <= bn < MAXFILE -> fblk ct i' bn = fblk ct i bn).
  { intros bn Hbn. unfold fblk. rewrite Hi, Hi0. cbn [Z.eqb]. destruct (Z.ltb_spec bn NDIRECT).
    - unfold i'. cbn. apply list_lookup_total_insert_ne. lia.
    - rewrite Hz. destruct (fb =? 0); [done|]. unfold ld32, ldn. by rewrite !getb_zeroes. }
  assert (Ho : forall a, own ct i' a <-> own ct i a \/ fb <= a < fb + 1).
  { intros a. unfold own, blk_of. rewrite Hi, Hi0. split.
    - intros [Ha [->|(bn & Hbn & ->)]]; [lia|]. rewrite Hb in * by done. left. split; [done|]. right. by exists bn.
    - intros [[Ha [->|(bn & Hbn & ->)]]|Ha]; [done| |]; (split; [try done; lia|]).
      + right. exists bn. by rewrite Hb.
      + left. lia. }
  split; [|split; [lia|done|done|eauto]].
  split; [by cbn; rewrite length_insert|done|..].
  - intros bn Hbn. rewrite Hb by done. by apply F3.
  - intros a [Ha|Ha]%Ho; [specialize (F4 a Ha)|]; lia.
  - intros bn Hbn Hne. rewrite Hb, Hi in * by done. pose proof (F4 _ (own_fblk _ _ _ Hbn Hne)). lia.
  - intros bn bn' Hbn Hbn'. rewrite !Hb by done. by apply F6.
  - intros x Hx. rewrite <-F7 by done. apply fbyte_ext; [lia|by apply Hb, bn_range|done].
Qed.

(** An entry of the indirect block. *)
Lemma append_entry ct fb i nb data d : file_in ct fb i nb data -> NDIRECT <= nb < MAXFILE -> nmeta <= fb < 2 ^ 32 -> zero_at ct fb ->
  ind i <> 0 -> ct !! (0%nat, ind i) = Some d -> length d = 1024%nat ->
  let ct' := <[(0%nat, ind i) := st32 d (4 * (nb - NDIRECT)) fb]> ct in
  file_in ct' (fb + 1) i (nb + 1) data /\ grown ct fb i ct' (fb + 1) i.
Proof.
  intros F Hnb Hfb Hz Hi Hd Hl ct'. assert (Hlt : ind i < fb) by (apply (fi_range _ _ _ _ _ F), own_ind, Hi).
  assert (Hb : forall bn, 0 <= bn < MAXFILE -> fblk ct' i bn = if bool_decide (bn = nb) then fb else fblk ct i bn).
  { intros bn Hbn. unfold fblk. destruct (Z.ltb_spec bn NDIRECT); [by rewrite bool_decide_false by lia|].
    destruct (Z.eqb_spec (ind i) 0); [done|]. unfold ct'. rewrite lookup_insert_eq, Hd. unfold ld32, st32. case_bool_decide as E.
    - subst. rewrite ldn_stn_eq by (intros c Hc; cbn; lia). apply Z.mod_small. assert (Hm : 0 < nmeta) by done. cbn. lia.
    - apply ldn_stn_ne. lia. }
  assert (Hs : forall a, a <> ind i -> ct' !! (0%nat, a) = ct !! (0%nat, a)).
  { intros a Ha. apply lookup_insert_ne. congruence. }
  assert (Hz' : zero_at ct' fb) by (unfold zero_at; by rewrite Hs by lia).
  split; [apply (file_in_mapped ct ct' i); try done; try lia; apply F|].
  split; [lia|apply (own_mapped ct ct' i i fb nb data); try done; lia| |].
  - intros a Ha. apply Hs. intros ->. apply Ha. by apply own_ind.
  - intros a d0 Hd0 Hl0. destruct (decide (a = ind i)) as [->|Hne]; [|rewrite Hs by done; eauto].
    eexists. split; [apply lookup_insert_eq|]. unfold st32. by rewrite length_stn.
Qed.

(** ** The bytes *)

Lemma getb_app data p x : 0 <= x -> getb (data ++ p) x =
  if bool_decide (x < Z.of_nat (length data)) then getb data x else u8 (default 0 (p !! Z.to_nat (x - Z.of_nat (length data)))).
Proof.
  intros Hx. cbn. unfold list_getb. destruct (Z.ltb_spec x 0); [lia|]. case_bool_decide.
  - by rewrite lookup_app_l by lia.
  - rewrite lookup_app_r by lia. by replace (Z.to_nat x - length data)%nat with (Z.to_nat (x - Z.of_nat (length data))) by lia.
Qed.

Lemma getb_past (l : list Z) x : Z.of_nat (length l) <= x -> getb l x = 0.
Proof. intros Hx. cbn. unfold list_getb. case_test; [done|]. by rewrite lookup_ge_None_2 by lia. Qed.

Lemma append_bytes ct hi i nb data p d : file_in ct hi i nb data ->
  let off := Z.of_nat (length data) in
  off / BSIZE < nb -> off mod BSIZE + Z.of_nat (length p) <= BSIZE ->
  ct !! (0%nat, fblk ct i (off / BSIZE)) = Some d -> length d = 1024%nat ->
  let ct' := <[(0%nat, fblk ct i (off / BSIZE)) := set_bytes d (off mod BSIZE) p]> ct in
  file_in ct' hi i nb (data ++ p) /\ grown ct hi i ct' hi i.
Proof.
  intros [F1 F2 F3 F4 F5 F6 F7] off Hlt Hp Hd Hl ct'. pose proof (Z.mod_pos_bound off BSIZE ltac:(lia)) as Hmod.
  assert (Hob : 0 <= off / BSIZE < MAXFILE) by (split; [apply Z.div_pos; lia|lia]).
  assert (Hne : fblk ct i (off / BSIZE) <> 0) by (by apply F3).
  assert (Hi : fblk ct i (off / BSIZE) <> ind i) by (by apply F5).
  assert (Hb : forall bn, fblk ct' i bn = fblk ct i bn).
  { intros bn. unfold fblk at 1 2. destruct (bn <? NDIRECT); [done|]. destruct (ind i =? 0); [done|].
    unfold ct'. rewrite lookup_insert_ne by congruence. done. }
  assert (Ho : forall a, own ct' i a <-> own ct i a) by (intros a; unfold own, blk_of; by setoid_rewrite Hb).
  assert (Hv : valid_range d (off mod BSIZE) (Z.of_nat (length p))) by (intros b Hbb; cbn; lia).
  split; [split; try done; try (setoid_rewrite Hb; done)|].
  - intros a Ha%Ho. by apply F4.
  - intros x Hx. pose proof (bn_range x Hx) as Hxb. unfold fbyte. rewrite Hb, getb_app by lia.
    destruct (decide (x / BSIZE = off / BSIZE)) as [E|E].
    + rewrite E. destruct (Z.eqb_spec (fblk ct i (off / BSIZE)) 0); [done|]. unfold ct'. rewrite lookup_insert_eq, getb_set_bytes by done.
      fold off. pose proof (Z.div_mod x BSIZE ltac:(lia)). pose proof (Z.div_mod off BSIZE ltac:(lia)).
      pose proof (F7 x Hx) as Hxv. unfold fbyte in Hxv. rewrite E, Hd in Hxv. destruct (Z.eqb_spec (fblk ct i (off / BSIZE)) 0); [done|].
      repeat case_bool_decide; try lia; [by replace (x mod BSIZE - off mod BSIZE) with (x - off) by lia|].
      rewrite Hxv. rewrite lookup_ge_None_2 by lia. by apply getb_past; fold off; lia.
    + assert (Hv' : fbyte ct i x = getb data x) by (by apply F7). unfold fbyte in Hv'.
      destruct (Z.eqb_spec (fblk ct i (x / BSIZE)) 0) as [E0|E0].
      * case_bool_decide as Hxo; [done|]. fold off in Hxo. rewrite lookup_ge_None_2; [done|].
        pose proof (Z.div_mod x BSIZE ltac:(lia)). pose proof (Z.div_mod off BSIZE ltac:(lia)). pose proof (Z.mod_pos_bound x BSIZE ltac:(lia)). fold off. nia.
      * unfold ct'. rewrite lookup_insert_ne by (intros [= E1]; symmetry in E1; by apply E, F6). rewrite Hv'. case_bool_decide as Hxo; [done|]. fold off in Hxo.
        pose proof (Z.div_mod x BSIZE ltac:(lia)). pose proof (Z.div_mod off BSIZE ltac:(lia)). pose proof (Z.mod_pos_bound x BSIZE ltac:(lia)).
        rewrite lookup_ge_None_2 by (fold off; nia). apply getb_past. fold off. lia.
  - split; [lia| | |].
    + intros a. rewrite Ho. intuition lia.
    + intros a Ha. apply lookup_insert_ne. intros [= <-]. apply Ha, Ho. by apply own_fblk.
    + intros a d0 Hd0 Hl0. destruct (decide (a = fblk ct i (off / BSIZE))) as [->|Hna].
      * eexists. split; [apply lookup_insert_eq|]. by rewrite length_set_bytes.
      * unfold ct'. rewrite lookup_insert_ne by congruence. eauto.
Qed.

(** ** Byte order and sectors *)

Lemma xshort_u16 x : xshort x = u16 x.
Proof.
  change (xshort x) with (u8 (u8 x) + 256 * (u8 (u8 (Z.shiftr x 8)) + 256 * 0)).
  assert (E : forall v, u8 (u8 v) = u8 v) by (intros; unfold u8; by rewrite Z.mod_mod). rewrite !E. unfold u8, u16. rewrite !Z.shiftr_div_pow2 by lia.
  Z.div_mod_to_equations. lia.
Qed.

Lemma xint_u32 x : xint x = u32 x.
Proof.
  change (xint x) with (u8 (u8 x) + 256 * (u8 (u8 (Z.shiftr x 8)) + 256 * (u8 (u8 (Z.shiftr x 16)) + 256 * (u8 (u8 (Z.shiftr x 24)) + 256 * 0)))).
  assert (E : forall v, u8 (u8 v) = u8 v) by (intros; unfold u8; by rewrite Z.mod_mod). rewrite !E. unfold u8, u32. rewrite !Z.shiftr_div_pow2 by lia.
  Z.div_mod_to_equations. lia.
Qed.

Lemma xint_small x : 0 <= x < 2 ^ 32 -> xint x = x.
Proof. intros Hx. rewrite xint_u32. by apply u32_small. Qed.

Lemma sector_small b : 0 <= b < FSSIZE -> sector b = (0%nat, b).
Proof.
  unfold FSSIZE. intros Hb. unfold sector. rewrite u32_small by lia. by rewrite Z.div_mul by lia.
Qed.

Lemma sb_value : sb = mkSb FSMAGIC 2000 1954 200 30 2 32 45.
Proof. by vm_compute. Qed.

Lemma bmap_end_sb : bmap_end sb = 45.
Proof. by vm_compute. Qed.

(** ** The image while a file is built *)

Definition as_inode (inum : Z) (d : dinode) : inode :=
  mkInode 0%nat inum 0 inhabitant false (d_type d) (d_major d) (d_minor d) (d_nlink d) (d_size d) (d_addrs d).

Definition blocks ct : Prop := forall b, 0 <= b < FSSIZE -> exists d, ct !! (0%nat, b) = Some d /\ length d = 1024%nat.
Definition zeros ct (fb : Z) : Prop := forall b, fb <= b < FSSIZE -> zero_at ct b.

Lemma run_rsect b d s (Q : block -> builder -> Prop) : 0 <= b < FSSIZE -> img s !! (0%nat, b) = Some d -> Q d s -> run (rsect b) s Q.
Proof. intros Hb Hd HQ. unfold rsect. wp. rewrite sector_small, Hd by done. by wp. Qed.

Lemma run_wsect b d s (Q : unit -> builder -> Prop) : 0 <= b < FSSIZE -> Q tt (set_img (<[(0%nat, b) := d]> (img s)) s) -> run (wsect b d) s Q.
Proof. intros Hb HQ. unfold wsect. wp. by rewrite sector_small. Qed.

Lemma run_next_block s (Q : Z -> builder -> Prop) : 0 <= freeblock s < FSSIZE -> Q (freeblock s) (set_freeblock (freeblock s + 1) s) -> run next_block s Q.
Proof. unfold FSSIZE. intros Hb HQ. unfold next_block. wp. by rewrite u32_small by lia. Qed.

(** The number of data blocks of [n] bytes, and of blocks with the indirect one. *)
Definition blocks_for (n : Z) : Z := (n + BSIZE - 1) / BSIZE.
Definition count (n : Z) : Z := blocks_for n + if NDIRECT * BSIZE <? n then 1 else 0.
Definition Zlen {A} (l : list A) : Z := Z.of_nat (length l).
Definition cost (fbn nb : Z) : Z := if fbn <? nb then 0 else if fbn =? NDIRECT then 2 else 1.

Lemma count_mono n m : n <= m -> count n <= count m.
Proof.
  intros Hm. unfold count, blocks_for. pose proof (Z.div_le_mono (n + BSIZE - 1) (m + BSIZE - 1) BSIZE ltac:(lia) ltac:(lia)).
  repeat case_test; lia.
Qed.

(** The blocks one round of the loop takes. *)
Lemma count_step off p : 0 <= off -> 0 < p ->
  let fbn := off / BSIZE in let n1 := Z.min p ((fbn + 1) * BSIZE - off) in
  count (off + n1) = count off + cost fbn (blocks_for off) /\ Z.max (blocks_for off) (fbn + 1) = blocks_for (off + n1) /\
  fbn <= blocks_for off /\ count (off + n1) <= count (off + p).
Proof.
  intros Ho Hp fbn n1. pose proof (Z.div_mod off BSIZE ltac:(lia)) as Hd. pose proof (Z.mod_pos_bound off BSIZE ltac:(lia)) as Hm.
  fold fbn in Hd. assert (Hb : blocks_for (off + n1) = fbn + 1).
  { unfold blocks_for. symmetry. apply (Z.div_unique_pos _ _ _ (off + n1 + BSIZE - 1 - BSIZE * (fbn + 1))); lia. }
  assert (Hc : blocks_for off = if off mod BSIZE =? 0 then fbn else fbn + 1).
  { unfold blocks_for. symmetry. case_test.
    - apply (Z.div_unique_pos _ _ _ (BSIZE - 1)); lia.
    - apply (Z.div_unique_pos _ _ _ (off mod BSIZE - 1)); lia. }
  split; [|split; [|split; [|apply count_mono; lia]]].
  - unfold count, cost. rewrite Hb, Hc. repeat case_test; lia.
  - rewrite Hb, Hc. case_test; lia.
  - rewrite Hc. case_test; lia.
Qed.

Section building.
Context (inum : Z).

(** [din] is the inode in memory; its first [nb] blocks are mapped. *)
Record building (s : builder) (din : dinode) (nb : Z) data : Prop := {
  bd_file : file_in (img s) (freeblock s) (as_inode inum din) nb data;
  bd_ind : ind (as_inode inum din) <> 0 <-> NDIRECT < nb;
  bd_free : nmeta <= freeblock s <= FSSIZE;
  bd_blocks : blocks (img s);
  bd_zeros : zeros (img s) (freeblock s)
}.

(** The fields an append leaves alone. *)
Definition kept (d d' : dinode) : Prop :=
  d_type d' = d_type d /\ d_major d' = d_major d /\ d_minor d' = d_minor d /\ d_nlink d' = d_nlink d /\ d_size d' = d_size d.

Definition step_to (s : builder) (din : dinode) (s' : builder) (din' : dinode) : Prop :=
  grown (img s) (freeblock s) (as_inode inum din) (img s') (freeblock s') (as_inode inum din') /\
  freeinode s' = freeinode s /\ kept din din'.

Lemma step_refl s din : step_to s din s din.
Proof. split; [apply grew_refl|done]. Qed.
Lemma step_trans s din s1 din1 s2 din2 : step_to s din s1 din1 -> step_to s1 din1 s2 din2 -> step_to s din s2 din2.
Proof.
  intros (G1 & F1 & K1) (G2 & F2 & K2). split; [by eapply grew_trans|]. split; [congruence|].
  unfold kept in *. intuition congruence.
Qed.

Lemma grown_blocks ct fb i ct' fb' i' : grown ct fb i ct' fb' i' -> blocks ct -> blocks ct'.
Proof. intros G Hb b Hr. destruct (Hb b Hr) as (d & H1 & H2). by eapply G. Qed.

Lemma grown_zeros ct fb i nb data ct' fb' i' : grown ct fb i ct' fb' i' -> file_in ct' fb' i' nb data -> zeros ct fb -> zeros ct' fb'.
Proof.
  intros G F Hz b Hb. unfold zero_at. pose proof (gr_le _ _ _ _ _ _ G). rewrite (gr_same _ _ _ _ _ _ G); [apply Hz; lia|].
  intros Ho%(fi_range _ _ _ _ _ F). lia.
Qed.

(** The step lemmas above, on the state of the builder. *)
Lemma building_step s din nb data s' din' nb' data' : building s din nb data ->
  file_in (img s') (freeblock s') (as_inode inum din') nb' data' /\
    grown (img s) (freeblock s) (as_inode inum din) (img s') (freeblock s') (as_inode inum din') ->
  (ind (as_inode inum din') <> 0 <-> NDIRECT < nb') -> freeblock s' <= FSSIZE -> freeinode s' = freeinode s -> kept din din' ->
  building s' din' nb' data' /\ step_to s din s' din'.
Proof.
  intros [B1 B2 B3 B4 B5] [F G] Hi Hf Hn Hk. pose proof (gr_le _ _ _ _ _ _ G). split; [|done]. split; try done.
  - lia.
  - by eapply grown_blocks.
  - by eapply grown_zeros.
Qed.

Lemma own_small s din nb data a : building s din nb data -> own (img s) (as_inode inum din) a -> 0 < a < FSSIZE.
Proof.
  intros [B1 _ B3 _ _] Ho%(fi_range _ _ _ _ _ B1). assert (0 < nmeta) by done. lia.
Qed.

Lemma addr_small s din nb data a : building s din nb data -> a = 0 \/ own (img s) (as_inode inum din) a -> 0 <= a < 2 ^ 32.
Proof. intros B [->|Ho]; [lia|]. apply (own_small _ _ _ _ _ B) in Ho. unfold FSSIZE in Ho. lia. Qed.

Lemma fblk_or ct i bn : 0 <= bn < MAXFILE -> fblk ct i bn = 0 \/ own ct i (fblk ct i bn).
Proof. intros Hb. destruct (decide (fblk ct i bn = 0)); [by left|right; by apply own_fblk]. Qed.

Lemma ind_or ct i : ind i = 0 \/ own ct i (ind i).
Proof. destruct (decide (ind i = 0)); [by left|right; by apply own_ind]. Qed.

Lemma run_append_direct s din nb data fbn (Q : dinode * Z -> builder -> Prop) : building s din nb data ->
  0 <= fbn < NDIRECT -> fbn <= nb -> freeblock s + cost fbn nb <= FSSIZE ->
  (forall din' s', building s' din' (Z.max nb (fbn + 1)) data -> step_to s din s' din' -> freeblock s' = freeblock s + cost fbn nb ->
     Q (din', fblk (img s') (as_inode inum din') fbn) s') ->
  run (append_block din fbn) s Q.
Proof.
  unfold cost. intros B Hf Hle Hsp HQ. unfold append_block. destruct (Z.ltb_spec fbn NDIRECT); [|lia].
  assert (Ha : forall ct d, d_addrs d !!! Z.to_nat fbn = fblk ct (as_inode inum d) fbn).
  { intros ct d. unfold fblk. by destruct (Z.ltb_spec fbn NDIRECT); [|lia]. }
  assert (Hx : forall s' d nb', building s' d nb' data -> xint (d_addrs d !!! Z.to_nat fbn) = fblk (img s') (as_inode inum d) fbn).
  { intros s' d nb' B'. rewrite (Ha (img s')). eapply xint_small, addr_small; [done|]. apply fblk_or. lia. }
  pose proof (fi_mapped _ _ _ _ _ (bd_file _ _ _ _ B) fbn ltac:(lia)) as Hm. rewrite (Hx _ _ _ B). wp.
  destruct (Z.ltb_spec fbn nb) as [Hlt|Hge].
  - destruct (Z.eqb_spec (fblk (img s) (as_inode inum din) fbn) 0) as [E|E]; [by apply Hm in Hlt|]. wp. rewrite (Hx _ _ _ B).
    apply HQ; [by rewrite Z.max_l by lia|apply step_refl|lia].
  - assert (fbn = nb) as -> by lia.
    destruct (Z.eqb_spec (fblk (img s) (as_inode inum din) nb) 0) as [E|E]; [|apply Hm in E; lia].
    destruct (Z.eqb_spec nb NDIRECT); [lia|]. pose proof (bd_free _ _ _ _ B) as Hfr. assert (H0 : 0 < nmeta) by done.
    wp. apply run_next_block; [lia|]. wp. rewrite (xint_small (freeblock s)) by (unfold FSSIZE in *; lia).
    edestruct (building_step s din nb data (set_freeblock (freeblock s + 1) s) (set_d_addr nb (freeblock s) din) (nb + 1) data) as [B' S']; [done|..].
    + apply (append_direct (img s) (freeblock s) (as_inode inum din)); [apply B|done|lia|apply B; lia].
    + unfold ind. cbn. rewrite list_lookup_total_insert_ne by lia. pose proof (bd_ind _ _ _ _ B) as Hi. unfold ind in Hi. cbn in Hi. rewrite Hi. lia.
    + cbn. lia.
    + done.
    + done.
    + rewrite (Hx _ _ _ B'). apply HQ; [by rewrite Z.max_r by lia|done|done].
Qed.

(** A new entry of the indirect block. *)
Lemma run_new_entry s i nb data (Q : Z -> builder -> Prop) :
  file_in (img s) (freeblock s) i nb data -> NDIRECT <= nb < MAXFILE -> nmeta <= freeblock s < FSSIZE ->
  blocks (img s) -> zero_at (img s) (freeblock s) -> ind i <> 0 ->
  (forall s', file_in (img s') (freeblock s') i (nb + 1) data /\ grown (img s) (freeblock s) i (img s') (freeblock s') i ->
     freeblock s' = freeblock s + 1 -> freeinode s' = freeinode s -> Q (fblk (img s') i nb) s') ->
  run (indirect_entry (ind i) nb) s Q.
Proof.
  intros F Hnb Hfb Hbl Hz Hi HQ. assert (H0 : 0 < nmeta) by done. pose proof (fi_range _ _ _ _ _ F _ (own_ind _ _ Hi)) as Hr.
  destruct (Hbl (ind i)) as (d & Hd & Hl); [lia|]. unfold indirect_entry. wp. eapply run_rsect; [lia|done|]. wp.
  assert (Hent : forall ct d', ct !! (0%nat, ind i) = Some d' -> fblk ct i nb = ld32 d' (4 * (nb - NDIRECT))).
  { intros ct d' Hd'. unfold fblk. destruct (Z.ltb_spec nb NDIRECT); [lia|]. destruct (Z.eqb_spec (ind i) 0); [done|]. by rewrite Hd'. }
  pose proof (Hent _ _ Hd) as Hn. rewrite <-Hn. pose proof (fi_mapped _ _ _ _ _ F nb ltac:(lia)) as Hm.
  destruct (Z.eqb_spec (fblk (img s) i nb) 0) as [E|E]; [|apply Hm in E; lia].
  wp. apply run_next_block; [lia|]. wp. apply run_wsect; [lia|]. wp. rewrite (xint_small (freeblock s)) by (unfold FSSIZE in *; lia).
  set (s' := set_img _ _). pose proof (append_entry (img s) (freeblock s) i nb data d F Hnb ltac:(unfold FSSIZE in *; lia) Hz Hi Hd Hl) as HF.
  assert (Hd' : img s' !! (0%nat, ind i) = Some (st32 d (4 * (nb - NDIRECT)) (freeblock s))) by apply lookup_insert_eq.
  rewrite xint_small by apply (ldn_range 4). rewrite <-(Hent _ _ Hd'). apply HQ; [exact HF|done|done].
Qed.

(** An entry that is there. *)
Lemma run_old_entry s i nb data fbn (Q : Z -> builder -> Prop) :
  file_in (img s) (freeblock s) i nb data -> NDIRECT <= fbn < nb -> freeblock s <= FSSIZE -> blocks (img s) -> ind i <> 0 ->
  Q (fblk (img s) i fbn) s -> run (indirect_entry (ind i) fbn) s Q.
Proof.
  intros F Hnb Hfb Hbl Hi HQ. assert (H0 : 0 < nmeta) by done. pose proof (fi_range _ _ _ _ _ F _ (own_ind _ _ Hi)) as Hr.
  pose proof (fi_nb _ _ _ _ _ F) as Hn. destruct (Hbl (ind i)) as (d & Hd & Hl); [lia|].
  assert (Hent : fblk (img s) i fbn = ld32 d (4 * (fbn - NDIRECT))).
  { unfold fblk. destruct (Z.ltb_spec fbn NDIRECT); [lia|]. destruct (Z.eqb_spec (ind i) 0); [done|]. by rewrite Hd. }
  unfold indirect_entry. wp. eapply run_rsect; [lia|done|]. wp. rewrite <-Hent.
  destruct (Z.eqb_spec (fblk (img s) i fbn) 0) as [E|E]; [exfalso; by apply (fi_mapped _ _ _ _ _ F fbn ltac:(lia)); [lia|]|].
  wp. rewrite <-Hent, xint_small; [done|]. rewrite Hent. apply (ldn_range 4).
Qed.

Lemma run_append_indirect s din nb data fbn (Q : dinode * Z -> builder -> Prop) : building s din nb data ->
  NDIRECT <= fbn < MAXFILE -> fbn <= nb -> freeblock s + cost fbn nb <= FSSIZE ->
  (forall din' s', building s' din' (Z.max nb (fbn + 1)) data -> step_to s din s' din' -> freeblock s' = freeblock s + cost fbn nb ->
     Q (din', fblk (img s') (as_inode inum din') fbn) s') ->
  run (append_block din fbn) s Q.
Proof.
  unfold cost. intros B Hf Hle Hsp HQ. unfold append_block. destruct (Z.ltb_spec fbn NDIRECT); [lia|]. assert (H0 : 0 < nmeta) by done.
  pose proof B as [B1 B2 B3 B4 B5]. pose proof (addr_small _ _ _ _ _ B (ind_or _ _)) as Hi. set (i := as_inode inum din) in *.
  change (d_addrs din !!! Z.to_nat NDIRECT) with (ind i). rewrite xint_small by done.
  destruct (Z.ltb_spec fbn nb) as [Hlt|Hge].
  - destruct (Z.eqb_spec (ind i) 0) as [E|E]; [exfalso; apply B2; [lia|done]|]. wp. change (d_addrs din !!! Z.to_nat NDIRECT) with (ind i).
    rewrite xint_small by done. eapply (run_old_entry s i nb data fbn); [done|lia|lia|done|done|]. wp.
    apply HQ; [by rewrite Z.max_l by lia|apply step_refl|lia].
  - assert (fbn = nb) as -> by lia. rewrite Z.max_r in HQ by lia. destruct (Z.eqb_spec nb NDIRECT) as [->|Hne].
    + destruct (Z.eqb_spec (ind i) 0) as [E|E]; [|apply B2 in E; lia]. wp. apply run_next_block; [lia|]. wp.
      rewrite (xint_small (freeblock s)) by (unfold FSSIZE in *; lia). set (din' := set_d_addr NDIRECT (freeblock s) din).
      destruct (append_indirect (img s) (freeblock s) i data B1 E ltac:(lia) (B5 (freeblock s) ltac:(lia))) as [F1 G1].
      change (with_addr NDIRECT (freeblock s) i) with (as_inode inum din') in F1, G1.
      assert (Hi' : ind (as_inode inum din') = freeblock s).
      { unfold ind. cbn. apply list_lookup_total_insert_eq. pose proof (fi_len _ _ _ _ _ B1) as Hl. cbn in Hl. lia. }
      change (d_addrs din' !!! Z.to_nat NDIRECT) with (ind (as_inode inum din')). rewrite xint_small by (rewrite Hi'; unfold FSSIZE in *; lia).
      eapply run_new_entry; [exact F1|lia|cbn; lia|by eapply grown_blocks|apply B5; cbn; lia|lia|].
      intros s' [F2 G2] Ef Ei. wp. cbn in Ef, Ei. destruct (building_step s din NDIRECT data s' din' (NDIRECT + 1) data B) as [B' S']; try done.
      * split; [done|]. eapply grew_trans; [exact G1|exact G2].
      * rewrite Hi'. lia.
      * lia.
      * apply HQ; [done|done|lia].
    + destruct (Z.eqb_spec (ind i) 0) as [E|E]; [exfalso; apply B2; [lia|done]|]. wp. change (d_addrs din !!! Z.to_nat NDIRECT) with (ind i).
      rewrite xint_small by done. eapply run_new_entry; [exact B1|lia|lia|done|apply B5; lia|done|].
      intros s' HF Ef Ei. wp. destruct (building_step s din nb data s' din (nb + 1) data B HF) as [B' S']; try done.
      * fold i. rewrite B2. lia.
      * lia.
      * apply HQ; [done|done|lia].
Qed.

Lemma run_append_block s din nb data fbn (Q : dinode * Z -> builder -> Prop) : building s din nb data ->
  0 <= fbn < MAXFILE -> fbn <= nb -> freeblock s + cost fbn nb <= FSSIZE ->
  (forall din' s', building s' din' (Z.max nb (fbn + 1)) data -> step_to s din s' din' -> freeblock s' = freeblock s + cost fbn nb ->
     Q (din', fblk (img s') (as_inode inum din') fbn) s') ->
  run (append_block din fbn) s Q.
Proof.
  intros B Hf. destruct (Z_lt_ge_dec fbn NDIRECT); [apply run_append_direct|apply run_append_indirect]; try done; lia.
Qed.

(** ** Appending *)

Lemma Zlen_app {A} (l k : list A) : Zlen (l ++ k) = Zlen l + Zlen k.
Proof. unfold Zlen. rewrite length_app. lia. Qed.

Lemma run_append_round s din data p (Q : dinode * Z * list Z -> builder -> Prop) :
  building s din (blocks_for (Zlen data)) data -> p <> [] -> Zlen data + Zlen p <= MAXFILE * BSIZE ->
  freeblock s + count (Zlen data + Zlen p) - count (Zlen data) <= FSSIZE ->
  (forall q p' din' s', p = q ++ p' -> q <> [] -> building s' din' (blocks_for (Zlen (data ++ q))) (data ++ q) -> step_to s din s' din' ->
     freeblock s' = freeblock s + count (Zlen (data ++ q)) - count (Zlen data) -> Q (din', Zlen (data ++ q), p') s') ->
  run (append_round din (Zlen data) p) s Q.
Proof.
  intros B Hp Hmax Hsp HQ. set (off := Zlen data) in *. assert (Hp0 : 0 < Zlen p) by (destruct p; [done|unfold Zlen; cbn; lia]).
  assert (Ho : 0 <= off) by (unfold off, Zlen; lia). unfold append_round. change (Z.of_nat (length p)) with (Zlen p).
  pose proof (Z.div_mod off BSIZE ltac:(lia)) as Hdm. pose proof (Z.mod_pos_bound off BSIZE ltac:(lia)) as Hmod.
  set (fbn := off / BSIZE) in *. set (n1 := Z.min (Zlen p) ((fbn + 1) * BSIZE - off)). assert (Hf : 0 <= fbn < MAXFILE) by lia.
  destruct (Z.ltb_spec fbn MAXFILE); [cbn [negb]|lia].
  assert (Hq : Zlen (take (Z.to_nat n1) p) = n1) by (unfold Zlen in *; rewrite length_take; lia).
  assert (Hcount : count (off + n1) = count off + cost fbn (blocks_for off) /\ Z.max (blocks_for off) (fbn + 1) = blocks_for (off + n1) /\
    fbn <= blocks_for off /\ count (off + n1) <= count (off + Zlen p)) by (apply count_step; lia).
  destruct Hcount as (C1 & C2 & C3 & C4).
  wp. eapply (run_append_block s din (blocks_for off) data fbn); [done|lia|lia|lia|]. intros din' s' B' S' Hfb. wp. rewrite C2 in B'.
  pose proof (bd_file _ _ _ _ B') as F'. assert (Hfb' : fbn < blocks_for (off + n1)) by lia.
  assert (Hne : fblk (img s') (as_inode inum din') fbn <> 0) by (by apply (fi_mapped _ _ _ _ _ F')).
  pose proof (own_small _ _ _ _ _ B' (own_fblk _ _ _ Hf Hne)) as Hx. destruct (bd_blocks _ _ _ _ B' _ ltac:(split; [apply Z.lt_le_incl|]; apply Hx)) as (d & Hd & Hl).
  eapply run_rsect; [lia|done|]. wp. apply run_wsect; [lia|]. wp. rewrite u32_small by lia.
  replace (off - fbn * BSIZE) with (off mod BSIZE) by lia. replace (off + n1) with (Zlen (data ++ take (Z.to_nat n1) p)) by (rewrite Zlen_app, Hq; done).
  assert (Hroom : off mod BSIZE + Zlen (take (Z.to_nat n1) p) <= BSIZE) by lia.
  pose proof (append_bytes _ _ _ _ _ (take (Z.to_nat n1) p) d F' Hfb' Hroom Hd Hl) as HF.
  eapply HQ.
  - by rewrite take_drop.
  - intros E. rewrite E in Hq. unfold Zlen in Hq. cbn in Hq. lia.
  - rewrite Zlen_app, Hq. eapply (building_step s' din'); [done|exact HF|apply B'|apply B'|done|done].
  - eapply step_trans; [exact S'|]. split; [apply HF|done].
  - cbn. rewrite Zlen_app, Hq. fold off. lia.
Qed.

Lemma run_append_loop s din data xp (Q : dinode * Z -> builder -> Prop) : building s din (blocks_for (Zlen data)) data ->
  Zlen data + Zlen xp <= MAXFILE * BSIZE -> freeblock s + count (Zlen data + Zlen xp) - count (Zlen data) <= FSSIZE ->
  (forall din' s', building s' din' (blocks_for (Zlen (data ++ xp))) (data ++ xp) -> step_to s din s' din' ->
     freeblock s' = freeblock s + count (Zlen (data ++ xp)) - count (Zlen data) -> Q (din', Zlen (data ++ xp)) s') ->
  run (loop (S (length xp)) (fun '(din, off, p) =>
         match p with [] => ret (inr (din, off)) | _ => r <- append_round din off p ;; ret (inl r) end) (din, Zlen data, xp)) s Q.
Proof.
  intros B Hmax Hsp HQ.
  eapply (run_loop _ (fun '(d, off, p) s' => exists q, xp = q ++ p /\ off = Zlen (data ++ q) /\
    building s' d (blocks_for (Zlen (data ++ q))) (data ++ q) /\ step_to s din s' d /\
    freeblock s' = freeblock s + count (Zlen (data ++ q)) - count (Zlen data)) (fun '(_, _, p) _ => length p)); [| |cbn; lia].
  - intros [[d off] p] s' (q & Hx & -> & B' & S' & Hf). pose proof (Zlen_app data q) as L1. pose proof (Zlen_app q p) as L2. rewrite <-Hx in L2.
    destruct p as [|b p].
    + wp. rewrite app_nil_r in Hx. subst q. by apply HQ.
    + wp. apply run_append_round; [done|done|lia| |].
      * replace (Zlen (data ++ q) + Zlen (b :: p)) with (Zlen data + Zlen xp) by lia. lia.
      * intros q' p' d' s2 Hp Hq B2 S2 Hf2. wp. rewrite <-app_assoc in *. split.
        -- exists (q ++ q'). split_and!; [rewrite <-app_assoc; congruence|done|done|by eapply step_trans|lia].
        -- rewrite Hp. destruct q'; [done|]. rewrite length_app. cbn. lia.
  - exists []. rewrite app_nil_r. split_and!; [done|done|done|apply step_refl|lia].
Qed.
End building.

(** ** The inode table *)

Definition slot ct (inum : Z) : dinode :=
  get_dinode (default zeroes (ct !! (0%nat, IBLOCK inum sb))) (dinode_off inum).

#[global] Arguments slot : simpl never.
#[global] Arguments zeroes : simpl never.

Lemma IBLOCK_range inum : 0 <= inum < 208 -> IBLOCK inum sb = inum / IPB + 32 /\ 32 <= IBLOCK inum sb < 45.
Proof.
  intros Hi. unfold IBLOCK. rewrite sb_value. cbn [sb_inodestart]. assert (0 <= inum / IPB < 13) by (split; [apply Z.div_pos|apply Z.div_lt_upper_bound]; lia).
  rewrite u32_small; lia.
Qed.

Definition of_inode (i : inode) : dinode :=
  mkDinode (i_type i) (i_major i) (i_minor i) (i_nlink i) (i_size i) (i_addrs i).

(** [s'] is [s] with inode [inum] replaced by [din]. *)
Record wrote (s : builder) (inum : Z) (din : dinode) (s' : builder) : Prop := {
  wo_inode : freeinode s' = freeinode s;
  wo_free : freeblock s' = freeblock s;
  wo_slot : slot (img s') inum = din;
  wo_others : forall k, 0 <= k < 208 -> k <> inum -> slot (img s') k = slot (img s) k;
  wo_same : forall b, b < 32 \/ 45 <= b -> img s' !! (0%nat, b) = img s !! (0%nat, b);
  wo_blocks : blocks (img s) -> blocks (img s')
}.

Lemma run_winode s inum din (Q : unit -> builder -> Prop) : 0 <= inum < 208 -> blocks (img s) -> dinode_fits (as_inode inum din) ->
  (forall s', wrote s inum din s' -> Q tt s') -> run (winode inum din) s Q.
Proof.
  intros Hi Hb Hfit HQ. destruct (IBLOCK_range inum Hi) as [E R]. destruct (Hb (IBLOCK inum sb)) as (d & Hd & Hl); [unfold FSSIZE; lia|].
  pose proof (df_len _ Hfit) as Hlen. destruct (dinode_off_bound inum) as [O1 O2].
  unfold winode. wp. eapply run_rsect; [unfold FSSIZE; lia|done|]. wp. apply run_wsect; [unfold FSSIZE; lia|]. apply HQ.
  change (put_dinode d (dinode_off inum) din) with (store_dinode d (dinode_off inum) (as_inode inum din)). split; [done|done|..].
  - unfold slot. cbn [img set_img]. rewrite lookup_insert_eq. cbn [default].
    pose proof (load_store_dinode d (dinode_off inum) (as_inode inum din) O1 ltac:(lia) Hlen Hfit (as_inode inum din) eq_refl eq_refl eq_refl eq_refl eq_refl) as HL.
    apply (f_equal of_inode) in HL. etrans; [exact HL|]. by destruct din.
  - intros k Hk Hne. unfold slot. cbn [img set_img]. destruct (IBLOCK_range k Hk) as [Ek _].
    destruct (decide (IBLOCK k sb = IBLOCK inum sb)) as [Eb|Eb]; [|by rewrite lookup_insert_ne by congruence].
    rewrite Eb, lookup_insert_eq, Hd. cbn [default]. assert (Hap : dinode_off inum + 64 <= dinode_off k \/ dinode_off k + 64 <= dinode_off inum) by (apply dinode_apart; lia).
    pose proof (load_store_other d (dinode_off inum) (dinode_off k) (as_inode inum din) (as_inode k din) Hlen Hap) as HL.
    exact (f_equal of_inode HL).
  - intros b Hbb. cbn. apply lookup_insert_ne. intros [= Eb]. lia.
  - intros _ b Hbb. cbn [img set_img]. destruct (decide (b = IBLOCK inum sb)) as [->|Hne]; [|rewrite lookup_insert_ne by congruence; by apply Hb].
    eexists. split; [apply lookup_insert_eq|]. by rewrite length_store_dinode.
Qed.

Lemma run_rinode s inum (Q : dinode -> builder -> Prop) : 0 <= inum < 208 -> blocks (img s) -> Q (slot (img s) inum) s -> run (rinode inum) s Q.
Proof.
  intros Hi Hb HQ. destruct (IBLOCK_range inum Hi) as [E R]. destruct (Hb (IBLOCK inum sb)) as (d & Hd & Hl); [unfold FSSIZE; lia|].
  unfold rinode. wp. eapply run_rsect; [unfold FSSIZE; lia|done|]. wp. unfold slot in HQ. by rewrite Hd in HQ.
Qed.

(** ** The image as a set of files *)

(** File [k] has inode number [k + 1]. *)
Definition ino ct (k : nat) : inode := as_inode (Z.of_nat k + 1) (slot ct (Z.of_nat k + 1)).

Definition total (G : list (Z * list Z)) : Z := foldr (fun f n => count (Zlen f.2) + n) 0 G.

Record built (s : builder) (G : list (Z * list Z)) : Prop := {
  bt_next : freeinode s = Zlen G + 1;
  bt_few : Zlen G < 208;
  bt_free : freeblock s = nmeta + total G;
  bt_room : freeblock s <= FSSIZE;
  bt_blocks : blocks (img s);
  bt_zeros : zeros (img s) (freeblock s);
  bt_file : forall k ty data, G !! k = Some (ty, data) ->
    building (Z.of_nat k + 1) s (slot (img s) (Z.of_nat k + 1)) (blocks_for (Zlen data)) data /\
    i_type (ino (img s) k) = ty /\ i_major (ino (img s) k) = 0 /\ i_minor (ino (img s) k) = 0 /\ i_nlink (ino (img s) k) = 1 /\
    i_size (ino (img s) k) = Zlen data;
  bt_apart : forall k k' a, (k < length G)%nat -> (k' < length G)%nat -> own (img s) (ino (img s) k) a -> own (img s) (ino (img s) k') a -> k = k';
  bt_tight : forall a, nmeta <= a < freeblock s -> exists k, (k < length G)%nat /\ own (img s) (ino (img s) k) a;
  bt_meta : forall b, 0 <= b < 32 -> img s !! (0%nat, b) = Some (if b =? 1 then sb_bytes else zeroes);
  bt_unused : forall inum, Zlen G < inum < 208 -> d_type (slot (img s) inum) = 0
}.

Lemma building_size inum s din nb data v : building inum s din nb data -> building inum s (set_d_size v din) nb data.
Proof. intros [[F1 F2 F3 F4 F5 F6 F7] B2 B3 B4 B5]. split; [|done..]. split; assumption. Qed.

Lemma building_fits inum s din nb data : building inum s din nb data -> - 2 ^ 15 <= d_type din < 2 ^ 15 -> d_major din = 0 -> d_minor din = 0 ->
  d_nlink din = 1 -> 0 <= d_size din < 2 ^ 32 -> dinode_fits (as_inode inum din).
Proof.
  intros B H1 H2 H3 H4 H5. pose proof (fi_len _ _ _ _ _ (bd_file _ _ _ _ _ B)) as Hl. split; cbn; try lia; [done|].
  intros j a Hj. eapply addr_small; [exact B|]. pose proof (lookup_lt_Some _ _ _ Hj). apply list_lookup_total_correct in Hj as <-.
  cbn in Hl. destruct (decide (j = 12%nat)) as [->|Hne]; [apply (ind_or (img s) (as_inode inum din))|].
  pose proof (fblk_or (img s) (as_inode inum din) (Z.of_nat j) ltac:(lia)) as Hf. unfold fblk in Hf.
  destruct (Z.ltb_spec (Z.of_nat j) NDIRECT); [|lia]. by rewrite Nat2Z.id in Hf.
Qed.

(** Blocks outside the inode table and above the metadata: a file seen in
    another state where its blocks are the same. *)
Lemma building_ext inum s s' din nb data : building inum s din nb data -> freeblock s <= freeblock s' <= FSSIZE ->
  blocks (img s') -> zeros (img s') (freeblock s') ->
  (forall a, own (img s) (as_inode inum din) a -> img s' !! (0%nat, a) = img s !! (0%nat, a)) ->
  building inum s' din nb data /\ forall a, own (img s') (as_inode inum din) a <-> own (img s) (as_inode inum din) a.
Proof.
  intros [B1 B2 B3 B4 B5] Hf Hb Hz Hs. destruct (file_in_ext _ (img s') _ (freeblock s') _ _ _ B1 ltac:(lia) Hs) as [F O].
  split; [|done]. split; try done. lia.
Qed.

Lemma zeros_wrote s inum d s' : wrote s inum d s' -> nmeta <= freeblock s -> zeros (img s) (freeblock s) -> zeros (img s') (freeblock s').
Proof.
  intros W Hf Hz b. rewrite (wo_free _ _ _ _ W). intros Hb. unfold zero_at. rewrite (wo_same _ _ _ _ W); [by apply Hz|]. right. change nmeta with 46 in Hf. lia.
Qed.

Lemma building_wrote inum s din nb data k d s' : building inum s din nb data -> wrote s k d s' ->
  building inum s' din nb data /\ forall a, own (img s') (as_inode inum din) a <-> own (img s) (as_inode inum din) a.
Proof.
  intros B W. pose proof (bd_free _ _ _ _ _ B) as Hf. apply building_ext; [done|rewrite (wo_free _ _ _ _ W); lia|apply W, B|..].
  - eapply zeros_wrote; [done|lia|apply B].
  - intros a Ha%(fi_range _ _ _ _ _ (bd_file _ _ _ _ _ B)). apply (wo_same _ _ _ _ W). change nmeta with 46 in Ha. lia.
Qed.

Lemma total_insert G k ty data ty' data' : G !! k = Some (ty, data) -> total (<[k := (ty', data')]> G) = total G + count (Zlen data') - count (Zlen data).
Proof.
  revert k. induction G as [|f G IH]; intros [|k] Hk; [done|done|injection Hk as ->; cbn -[count Zlen]; lia|].
  change (<[S k := (ty', data')]> (f :: G)) with (f :: <[k := (ty', data')]> G). cbn -[count Zlen]. fold (total G) (total (<[k := (ty', data')]> G)).
  rewrite IH by done. lia.
Qed.

Lemma count_pos n : 0 <= n -> 0 <= count n.
Proof. intros Hn. unfold count, blocks_for. pose proof (Z.div_pos (n + BSIZE - 1) BSIZE). case_test; lia. Qed.

Lemma total_pos G : 0 <= total G.
Proof.
  induction G as [|f G IH]; [done|]. cbn -[count Zlen]. fold (total G). pose proof (count_pos (Zlen f.2) ltac:(unfold Zlen; lia)). lia.
Qed.

(** ** Appending to a file of the image *)

Section append.
Context (s s1 s2 : builder) (G : list (Z * list Z)) (k : nat) (ty : Z) (data data' : list Z) (din1 : dinode).
Context (Bt : built s G) (Hk : G !! k = Some (ty, data)).
Context (St : step_to (Z.of_nat k + 1) s (slot (img s) (Z.of_nat k + 1)) s1 din1).
Context (B1 : building (Z.of_nat k + 1) s1 din1 (blocks_for (Zlen data')) data').
Context (Hfb : freeblock s1 = freeblock s + count (Zlen data') - count (Zlen data)).
Context (W : wrote s1 (Z.of_nat k + 1) (set_d_size (Zlen data') din1) s2).

Lemma k_range : 0 <= Z.of_nat k + 1 < 208.
Proof. pose proof (lookup_lt_Some _ _ _ Hk). pose proof (bt_few _ _ Bt). unfold Zlen in *. lia. Qed.

Lemma slot_kept j : (j < length G)%nat -> j <> k -> ino (img s2) j = ino (img s) j.
Proof.
  intros Hj Hne. unfold ino. rewrite (wo_others _ _ _ _ W).
  - f_equal. unfold slot. destruct (IBLOCK_range (Z.of_nat j + 1)) as [_ R]; [pose proof (bt_few _ _ Bt); unfold Zlen in *; lia|].
    destruct St as [Gr _]. rewrite (gr_same _ _ _ _ _ _ Gr); [done|]. intros Ho%(fi_range _ _ _ _ _ (bd_file _ _ _ _ _ B1)). change nmeta with 46 in Ho. lia.
  - pose proof (bt_few _ _ Bt); unfold Zlen in *; lia.
  - lia.
Qed.

Lemma ino_new : ino (img s2) k = as_inode (Z.of_nat k + 1) (set_d_size (Zlen data') din1).
Proof. unfold ino. by rewrite (wo_slot _ _ _ _ W). Qed.

Lemma own_new a : own (img s2) (ino (img s2) k) a <-> own (img s) (ino (img s) k) a \/ freeblock s <= a < freeblock s2.
Proof.
  rewrite ino_new. destruct (building_wrote _ _ _ _ _ _ _ _ B1 W) as [_ O]. rewrite (wo_free _ _ _ _ W).
  etrans; [exact (O a)|]. destruct St as [Gr _]. apply Gr.
Qed.

Lemma other_file j tyj dj : G !! j = Some (tyj, dj) -> j <> k ->
  building (Z.of_nat j + 1) s2 (slot (img s) (Z.of_nat j + 1)) (blocks_for (Zlen dj)) dj /\
  forall a, own (img s2) (ino (img s) j) a <-> own (img s) (ino (img s) j) a.
Proof.
  intros Hj Hne. destruct (bt_file _ _ Bt j tyj dj Hj) as (Bj & _). destruct St as (Gr & _).
  pose proof (gr_le _ _ _ _ _ _ Gr). pose proof (bd_free _ _ _ _ _ B1).
  destruct (building_ext _ s s1 _ _ _ Bj ltac:(lia) (bd_blocks _ _ _ _ _ B1) (bd_zeros _ _ _ _ _ B1)) as [Bj1 O1].
  - intros a Ha. apply (gr_same _ _ _ _ _ _ Gr). rewrite (gr_own _ _ _ _ _ _ Gr). intros [Hk'|Hr].
    + apply Hne. eapply (bt_apart _ _ Bt); [by eapply lookup_lt_Some|by eapply lookup_lt_Some|exact Ha|exact Hk'].
    + apply (fi_range _ _ _ _ _ (bd_file _ _ _ _ _ Bj)) in Ha. lia.
  - destruct (building_wrote _ _ _ _ _ _ _ _ Bj1 W) as [B2 O2]. split; [done|]. intros a. by rewrite <-O1, <-O2.
Qed.

Lemma own_other j a : (j < length G)%nat -> j <> k -> own (img s2) (ino (img s2) j) a <-> own (img s) (ino (img s) j) a.
Proof.
  intros Hj Hne. rewrite slot_kept by done. destruct (lookup_lt_is_Some_2 G j Hj) as [[tyj dj] HGj]. by eapply other_file.
Qed.

Lemma built_append : built s2 (<[k := (ty, data')]> G).
Proof.
  pose proof St as (Gr & Hino & K1 & K2 & K3 & K4 & K5). pose proof (gr_le _ _ _ _ _ _ Gr). destruct (building_wrote _ _ _ _ _ _ _ _ B1 W) as [B2 _].
  destruct (bt_file _ _ Bt k ty data Hk) as (_ & T1 & T2 & T3 & T4 & _). cbn in T1, T2, T3, T4. pose proof (wo_free _ _ _ _ W) as Wf. pose proof (lookup_lt_Some _ _ _ Hk) as Hlt.
  assert (Hnz : forall b, 0 <= b < 32 -> ~ own (img s1) (as_inode (Z.of_nat k + 1) din1) b).
  { intros b Hb Ho%(fi_range _ _ _ _ _ (bd_file _ _ _ _ _ B1)). change nmeta with 46 in Ho. lia. }
  split; unfold Zlen; rewrite ?length_insert; fold (Zlen G).
  - rewrite (wo_inode _ _ _ _ W), Hino. apply Bt.
  - apply Bt.
  - rewrite (total_insert _ _ _ _ _ _ Hk), Wf, Hfb, (bt_free _ _ Bt). lia.
  - apply B2.
  - apply B2.
  - apply B2.
  - intros j tyj dj. destruct (decide (j = k)) as [->|Hne].
    + rewrite list_lookup_insert_eq by done. intros [= <- <-]. rewrite ino_new, (wo_slot _ _ _ _ W). cbn. rewrite K1, K2, K3, K4.
      split; [|done]. by apply building_size.
    + rewrite list_lookup_insert_ne by done. intros HGj. pose proof (lookup_lt_Some _ _ _ HGj) as Hj.
      destruct (bt_file _ _ Bt j tyj dj HGj) as (_ & Hrest). rewrite (slot_kept j Hj Hne). destruct (other_file j tyj dj HGj Hne) as [Bj _].
      pose proof (f_equal of_inode (slot_kept j Hj Hne)) as E. split; [|done]. change (of_inode (ino ?ct j)) with (slot ct (Z.of_nat j + 1)) in E.
      destruct (slot (img s2) (Z.of_nat j + 1)), (slot (img s) (Z.of_nat j + 1)). cbn in E. by rewrite E.
  - intros j j' a Hj Hj'. destruct (decide (j = k)) as [->|Hne], (decide (j' = k)) as [->|Hne']; [done|..].
    + rewrite own_new, own_other by done. intros [H1|H1] H2; [by eapply Bt|]. exfalso.
      destruct (lookup_lt_is_Some_2 G j' Hj') as [[tyj dj] HGj]. destruct (bt_file _ _ Bt j' tyj dj HGj) as (Bj & _).
      apply (fi_range _ _ _ _ _ (bd_file _ _ _ _ _ Bj)) in H2. lia.
    + rewrite own_new, own_other by done. intros H2 [H1|H1]; [by eapply Bt|]. exfalso.
      destruct (lookup_lt_is_Some_2 G j Hj) as [[tyj dj] HGj]. destruct (bt_file _ _ Bt j tyj dj HGj) as (Bj & _).
      apply (fi_range _ _ _ _ _ (bd_file _ _ _ _ _ Bj)) in H2. lia.
    + rewrite !own_other by done. apply Bt; done.
  - intros a Ha. destruct (Z_lt_ge_dec a (freeblock s)) as [Hl|Hl].
    + destruct (bt_tight _ _ Bt a ltac:(lia)) as (j & Hj & Ho). exists j. split; [done|]. destruct (decide (j = k)) as [->|Hne]; [apply own_new; by left|by apply own_other].
    + exists k. split; [done|]. apply own_new. right. lia.
  - intros b Hb. rewrite (wo_same _ _ _ _ W) by lia. rewrite (gr_same _ _ _ _ _ _ Gr) by by apply Hnz. by apply Bt.
  - intros inum Hin. rewrite (wo_others _ _ _ _ W) by (unfold Zlen in *; lia). rewrite <-(bt_unused _ _ Bt inum Hin). unfold slot. do 2 f_equal.
    destruct (IBLOCK_range inum) as [_ R]; [unfold Zlen in *; lia|]. rewrite (gr_same _ _ _ _ _ _ Gr); [done|].
    intros Ho%(fi_range _ _ _ _ _ (bd_file _ _ _ _ _ B1)). change nmeta with 46 in Ho. lia.
Qed.
End append.

Lemma run_iappend s G k ty data xp (Q : unit -> builder -> Prop) : built s G -> G !! k = Some (ty, data) -> - 2 ^ 15 <= ty < 2 ^ 15 ->
  Zlen data + Zlen xp <= MAXFILE * BSIZE -> nmeta + total (<[k := (ty, data ++ xp)]> G) <= FSSIZE ->
  (forall s', built s' (<[k := (ty, data ++ xp)]> G) -> Q tt s') -> run (iappend (Z.of_nat k + 1) xp) s Q.
Proof.
  intros Bt Hk Hty Hmax Hsp HQ. rewrite (total_insert _ _ _ _ _ _ Hk), Zlen_app in Hsp. pose proof (bt_free _ _ Bt) as Hfb.
  pose proof (k_range _ _ _ _ _ Bt Hk) as Hr. destruct (bt_file _ _ Bt k ty data Hk) as (B & T1 & T2 & T3 & T4 & T5).
  unfold iappend. wp. apply run_rinode; [done|apply Bt|]. wp. set (din := slot (img s) (Z.of_nat k + 1)) in *. cbn in T1, T2, T3, T4, T5. fold din in T1, T2, T3, T4, T5.
  rewrite T5, xint_small by (unfold Zlen in *; lia). eapply run_append_loop; [exact B|done|lia|].
  intros din' s1 B' St Hf. wp. pose proof St as (_ & _ & K1 & K2 & K3 & K4 & K5). pose proof (Zlen_app data xp) as L. rewrite xint_small by (unfold Zlen in *; lia).
  apply run_winode; [done|apply B'| |].
  - eapply building_fits; [by apply building_size|cbn; try congruence..]. unfold Zlen in *. lia.
  - intros s2 W. apply HQ. eapply built_append; [done|done|exact St|done|exact Hf|exact W].
Qed.

(** ** A new file *)

Definition new_inode (ty : Z) : dinode := mkDinode ty 0 0 1 0 (replicate 13 0).

Lemma fblk_new inum ty ct bn : 0 <= bn -> fblk ct (as_inode inum (new_inode ty)) bn = 0.
Proof.
  intros Hb. unfold fblk, ind. cbn [i_addrs as_inode d_addrs new_inode]. destruct (Z.ltb_spec bn NDIRECT); [|done].
  apply (lookup_total_replicate_2 13 0). lia.
Qed.

Lemma own_none inum ty ct a : ~ own ct (as_inode inum (new_inode ty)) a.
Proof. intros [Ha [->|(bn & Hb & ->)]]; apply Ha; [done|]. apply fblk_new. lia. Qed.

Lemma building_new inum s ty : nmeta <= freeblock s <= FSSIZE -> blocks (img s) -> zeros (img s) (freeblock s) ->
  building inum s (new_inode ty) 0 [].
Proof.
  intros H1 H2 H3. split; try done. split; [done|done|..].
  - intros bn Hb. rewrite fblk_new by lia. lia.
  - by intros a Ho%own_none.
  - intros bn Hb. by rewrite fblk_new by lia.
  - intros bn bn' Hb Hb' _. by rewrite fblk_new by lia.
  - intros x Hx. unfold fbyte. rewrite fblk_new by (apply Z.div_pos; lia). cbn. unfold list_getb. by destruct (x <? 0).
Qed.

Lemma total_app G G' : total (G ++ G') = total G + total G'.
Proof. induction G as [|f G IH]; [done|]. cbn -[count Zlen]. fold (total (G ++ G')) (total G). rewrite IH. lia. Qed.

Lemma built_alloc s G ty s' : built s G -> Zlen G + 1 < 208 ->
  wrote (set_freeinode (Zlen G + 2) s) (Zlen G + 1) (new_inode ty) s' -> built s' (G ++ [(ty, [])]).
Proof.
  intros Bt Hlt W. pose proof (wo_free _ _ _ _ W) as Wf. cbn in Wf. assert (Hg : 0 <= Zlen G) by (unfold Zlen; lia).
  assert (Hold : forall j, (j < length G)%nat -> slot (img s') (Z.of_nat j + 1) = slot (img s) (Z.of_nat j + 1)).
  { intros j Hj. apply (wo_others _ _ _ _ W); unfold Zlen in *; lia. }
  assert (Hino : forall j, (j < length G)%nat -> ino (img s') j = ino (img s) j) by (intros j Hj; unfold ino; by rewrite Hold).
  assert (Hb : forall j tyj dj, G !! j = Some (tyj, dj) -> building (Z.of_nat j + 1) s' (slot (img s) (Z.of_nat j + 1)) (blocks_for (Zlen dj)) dj /\
    forall a, own (img s') (ino (img s) j) a <-> own (img s) (ino (img s) j) a).
  { intros j tyj dj Hj. destruct (bt_file _ _ Bt j tyj dj Hj) as (Bj & _). eapply (building_wrote _ (set_freeinode (Zlen G + 2) s)); [|exact W]. destruct Bj as [C1 C2 C3 C4 C5]. by split. }
  assert (Hown : forall j a, (j < length G)%nat -> own (img s') (ino (img s') j) a <-> own (img s) (ino (img s) j) a).
  { intros j a Hj. rewrite Hino by done. destruct (lookup_lt_is_Some_2 G j Hj) as [[tyj dj] HGj]. by eapply Hb. }
  assert (Hnew : ino (img s') (length G) = as_inode (Z.of_nat (length G) + 1) (new_inode ty)) by (unfold ino; f_equal; apply W).
  assert (Hf : nmeta <= freeblock s) by (pose proof (bt_free _ _ Bt); pose proof (total_pos G); lia).
  assert (Hz : zeros (img s') (freeblock s')) by (eapply zeros_wrote; [exact W|done|apply Bt]).
  assert (Hlen : Zlen (G ++ [(ty, [])]) = Zlen G + 1) by (rewrite Zlen_app; done).
  split; rewrite ?Hlen, ?length_app; cbn [length].
  - rewrite (wo_inode _ _ _ _ W). cbn. lia.
  - done.
  - rewrite total_app, Wf, (bt_free _ _ Bt). change (total [(ty, [])]) with 0. lia.
  - rewrite Wf. apply Bt.
  - apply W, Bt.
  - done.
  - intros j tyj dj [Hj|[Hj Hs]]%lookup_app_Some.
    + pose proof (lookup_lt_Some _ _ _ Hj). rewrite Hino, Hold by done. split; [by eapply Hb|]. by apply (bt_file _ _ Bt j tyj dj).
    + apply list_lookup_singleton_Some in Hs as [Hs [= <- <-]]. assert (j = length G) as -> by lia. rewrite Hnew. split; [|done].
      pose proof (wo_slot _ _ _ _ W) as Es. unfold Zlen in Es. rewrite Es. apply building_new; [rewrite Wf; split; [done|apply Bt]|apply W, Bt|done].
  - intros j j' a Hj Hj'. destruct (decide (j = length G)) as [->|Hne], (decide (j' = length G)) as [->|Hne']; [done|..].
    + rewrite Hnew. by intros Ho%own_none.
    + rewrite Hnew. by intros _ Ho%own_none.
    + rewrite !Hown by lia. apply Bt; lia.
  - intros a. rewrite Wf. intros Ha. destruct (bt_tight _ _ Bt a Ha) as (j & Hj & Ho). exists j. split; [lia|]. by apply Hown.
  - intros b Hb'. rewrite (wo_same _ _ _ _ W) by lia. by apply Bt.
  - intros inum Hin. rewrite (wo_others _ _ _ _ W) by lia. apply (bt_unused _ _ Bt). lia.
Qed.

Lemma run_ialloc s G ty (Q : Z -> builder -> Prop) : built s G -> Zlen G + 1 < 208 -> 0 <= ty < 2 ^ 15 ->
  (forall s', built s' (G ++ [(ty, [])]) -> Q (Zlen G + 1) s') -> run (ialloc ty) s Q.
Proof.
  intros Bt Hlt Hty HQ. assert (Hg : 0 <= Zlen G) by (unfold Zlen; lia). unfold ialloc. wp. rewrite (bt_next _ _ Bt). wp. rewrite u32_small by lia.
  replace (mkDinode _ _ _ _ _ _) with (new_inode ty).
  2: { unfold new_inode. rewrite !xshort_u16. unfold u16. rewrite Z.mod_small by lia. unfold s16. by rewrite (Z.mod_small (ty + 2 ^ 15)), Z.add_simpl_r by lia. }
  replace (Zlen G + 1 + 1) with (Zlen G + 2) by lia.
  apply run_winode; [lia|apply Bt| |].
  - split; try (cbn; lia). intros j a Hj. change (i_addrs _) with (replicate 13 0) in Hj. apply lookup_replicate in Hj as [-> _]. lia.
  - intros s' W. wp. apply HQ. by eapply built_alloc.
Qed.

(** ** The bitmap *)

Lemma length_mark_used k : forall (i : Z) (d : block), length (mark_used k i d) = length d.
Proof. induction k as [|k IH]; intros i d; cbn [mark_used]; [done|]. by rewrite IH, length_setb. Qed.

Lemma bit_mark_used k : forall (i : Z) (d : block) b, length d = 1024%nat -> 0 <= i -> i + Z.of_nat k <= BPB -> 0 <= b ->
  bit (mark_used k i d) b = if bool_decide (i <= b < i + Z.of_nat k) then true else bit d b.
Proof.
  induction k as [|k IH]; intros i d b Hl Hi Hk Hb; cbn [mark_used]; [by rewrite bool_decide_false by lia|].
  rewrite IH by (rewrite ?length_setb; lia). change (setb d (i / 8) _) with (Balloc.mark i d). rewrite bit_mark by (done || lia).
  repeat case_bool_decide; try lia; done.
Qed.

Lemma bit_zeroes b : 0 <= b -> bit zeroes b = false.
Proof. intros Hb. rewrite bit_testbit, getb_zeroes by done. apply Z.bits_0. Qed.

(** ** The finished image *)

Section finished.
Context (s s1 : builder) (G : list (Z * list Z)) (size : Z) (Bt : built s G).
Context (W : wrote s 1 (set_d_size size (slot (img s) 1)) s1).
Let d : disk := <[(0%nat, 45) := mark_used (Z.to_nat (freeblock s)) 0 zeroes]> (img s1).

Lemma free_range : nmeta <= freeblock s <= FSSIZE.
Proof using Bt. pose proof (bt_free _ _ Bt). pose proof (bt_room _ _ Bt). pose proof (total_pos G). lia. Qed.

Lemma final_same b : b < 32 \/ 46 <= b -> d !! (0%nat, b) = img s !! (0%nat, b).
Proof using W. intros Hb. unfold d. rewrite lookup_insert_ne by (intros [= ?]; lia). apply (wo_same _ _ _ _ W). lia. Qed.

Lemma final_slot inum : 0 <= inum < 208 -> slot d inum = slot (img s1) inum.
Proof.
  intros Hi. unfold slot, d. destruct (IBLOCK_range inum Hi) as [_ R]. by rewrite lookup_insert_ne by (intros [= ?]; lia).
Qed.

Lemma final_ino k : (k < length G)%nat ->
  ino d k = if bool_decide (k = 0%nat) then set_i_size size (ino (img s) 0) else ino (img s) k.
Proof using Bt W.
  intros Hk. pose proof (bt_few _ _ Bt). unfold ino. rewrite final_slot by (unfold Zlen in *; lia). case_bool_decide as E.
  - subst k. change (Z.of_nat 0 + 1) with 1. by rewrite (wo_slot _ _ _ _ W).
  - by rewrite (wo_others _ _ _ _ W) by (unfold Zlen in *; lia).
Qed.

Lemma final_blocks : blocks d.
Proof using Bt W.
  intros b Hb. unfold d. destruct (decide (b = 45)) as [->|Hne].
  - eexists. split; [apply lookup_insert_eq|]. by rewrite length_mark_used.
  - rewrite lookup_insert_ne by congruence. apply W; [apply Bt|done].
Qed.

Lemma final_used b : 0 <= b < FSSIZE -> used 0 sb d b = bool_decide (b < freeblock s).
Proof using Bt.
  intros Hb. pose proof free_range as Hf. change nmeta with 46 in Hf. unfold FSSIZE in *. unfold used, BBLOCK. rewrite sb_value. cbn [sb_bmapstart].
  rewrite (Z.div_small b), (Z.mod_small b) by lia. change (u32 (0 + 45)) with 45. unfold d. rewrite lookup_insert_eq.
  rewrite bit_mark_used by (done || lia). rewrite bit_zeroes by lia. repeat case_bool_decide; try lia; done.
Qed.

Lemma final_file k ty data : G !! k = Some (ty, data) ->
  file_in d (freeblock s) (ino d k) (blocks_for (Zlen data)) data /\ forall a, own d (ino d k) a <-> own (img s) (ino (img s) k) a.
Proof using Bt W.
  intros Hk. pose proof (lookup_lt_Some _ _ _ Hk) as Hlt. destruct (bt_file _ _ Bt k ty data Hk) as (B & _). destruct B as [F _ _ _ _].
  destruct (file_in_ext (img s) d (freeblock s) (freeblock s) _ _ _ F (Z.le_refl _)) as [F' O'].
  { intros a Ha%(fi_range _ _ _ _ _ F). apply final_same. change nmeta with 46 in Ha. lia. }
  rewrite final_ino by done. case_bool_decide as E; [subst k|by split].
  split; [|exact O']. destruct F' as [F1 F2 F3 F4 F5 F6 F7]. split; assumption.
Qed.

Lemma final_geom : geom 0 sb d.
Proof using Bt W.
  pose proof free_range as Hf. change nmeta with 46 in Hf. unfold FSSIZE in Hf.
  split; rewrite ?bmap_end_sb; rewrite ?sb_value; cbn; try lia; [apply final_blocks|].
  intros b Hb. rewrite <-sb_value, final_used by (unfold FSSIZE; lia). apply bool_decide_true. lia.
Qed.

Lemma final_ok k ty data : G !! k = Some (ty, data) -> file_ok 0 sb d (ino d k).
Proof using Bt W.
  intros Hk. pose proof free_range as Hf. unfold FSSIZE in Hf. destruct (final_file k ty data Hk) as [[F1 F2 F3 F4 F5 F6 F7] _].
  assert (Hg : forall a, own d (ino d k) a -> good 0 sb d a).
  { intros a Ha%F4. change nmeta with 46 in *. unfold good. rewrite final_used, bool_decide_true, bmap_end_sb by (unfold FSSIZE; lia).
    change (sb_size sb) with 2000. lia. }
  split; [done|done|..|done].
  - intros bn Hb Hne. split; [by apply Hg, own_fblk|by apply F5].
  - intros Hne. by apply Hg, own_ind.
Qed.

Lemma final_on_disk k : (k < length G)%nat -> on_disk 0 sb d (ino d k).
Proof using Bt W.
  intros Hk. pose proof (bt_few _ _ Bt). destruct (IBLOCK_range (Z.of_nat k + 1)) as [_ R]; [unfold Zlen in *; lia|].
  destruct (final_blocks (IBLOCK (Z.of_nat k + 1) sb)) as (b & Hb & Hl); [unfold FSSIZE; lia|].
  exists b. split; [exact Hb|]. split; [done|]. unfold ino, slot, as_inode. rewrite Hb. done.
Qed.
End finished.

(** ** What the image should hold *)

Definition name_of (f : input) : list Z := strip_underscore (shortname (path f)).
Definition contents (f : input) : list Z := concat (default [] (chunks f)).

(** The root directory: dot, dotdot and one entry per file. *)
Definition dir_data (files : list input) : list Z :=
  dirent ROOTINO [46] ++ dirent ROOTINO [46; 46] ++
  concat (imap (fun j f => dirent (Z.of_nat j + 2) (name_of f)) files).

Definition expected (files : list input) : list (Z * list Z) :=
  (T_DIR, dir_data files) :: ((fun f => (T_FILE, contents f)) <$> files).

(** The files can be read, their names are C strings without a slash, and
    they fit. *)
Record fits (files : list input) : Prop := {
  ft_path : forall f, f ∈ files -> Forall is_char (path f);
  ft_open : forall f, f ∈ files -> is_Some (chunks f);
  ft_slash : forall f, f ∈ files -> existsb (fun c => c =? 47) (shortname (path f)) = false;
  ft_max : forall f, f ∈ files -> Zlen (contents f) <= MAXFILE * BSIZE;
  ft_inodes : Zlen files + 2 <= NINODES;
  ft_blocks : nmeta + total (expected files) <= FSSIZE
}.

Lemma length_dirent inum name : length (dirent inum name) = 16%nat.
Proof.
  assert (Hz : forall k (m : block) a, length (CString.zero_fill k m a) = length m).
  { induction k as [|k IH]; intros m a; cbn [CString.zero_fill]; [done|]. by rewrite IH, length_setb. }
  assert (Hc : forall k (m : block) a b, length (CString.strncpy_loop k m name a b) = length m).
  { induction k as [|k IH]; intros m a b; cbn [CString.strncpy_loop]; [done|]. case_test; by rewrite ?IH, ?Hz, length_setb. }
  unfold dirent, CString.strncpy. rewrite Hc. unfold st16. by rewrite length_stn, length_replicate.
Qed.

Lemma dir_data_snoc files f :
  dir_data (files ++ [f]) = dir_data files ++ dirent (Zlen files + 2) (name_of f).
Proof.
  unfold dir_data. rewrite imap_app, concat_app, !app_assoc. cbn. rewrite app_nil_r. by replace (Z.of_nat (length files + 0) + 2) with (Zlen files + 2) by (unfold Zlen; lia).
Qed.

Lemma Zlen_dir_data files : Zlen (dir_data files) = 16 * (Zlen files + 2).
Proof.
  induction files as [|f files IH] using rev_ind; [unfold dir_data; cbn [imap concat]; rewrite !Zlen_app; unfold Zlen; rewrite !length_dirent; done|].
  rewrite dir_data_snoc, !Zlen_app, IH. change (Zlen [f]) with 1. unfold Zlen at 2. rewrite length_dirent. lia.
Qed.

Lemma total_expected files : total (expected files) = count (16 * (Zlen files + 2)) + total ((fun f => (T_FILE, contents f)) <$> files).
Proof. unfold expected. cbn [total foldr]. by rewrite <-Zlen_dir_data. Qed.

Lemma total_prefix pre post : total (expected pre) <= total (expected (pre ++ post)).
Proof.
  rewrite !total_expected, fmap_app, total_app. pose proof (total_pos ((fun f => (T_FILE, contents f)) <$> post)). pose proof (Zlen_app pre post).
  pose proof (count_mono (16 * (Zlen pre + 2)) (16 * (Zlen (pre ++ post) + 2)) ltac:(unfold Zlen in *; lia)). lia.
Qed.

(** ** The program *)

(** The image after zeroing and writing the super block. *)
Lemma run_init (Q : unit -> builder -> Prop) : (forall s, built s [] -> Q tt s) ->
  run (iter_each (seqZ 0 FSSIZE) (fun b => wsect b zeroes)) (set_freeblock nmeta start) (fun _ s => run (wsect 1 sb_bytes) s Q).
Proof.
  intros HQ. eapply (run_iter_each _ _ _ (fun pre s => freeinode s = 1 /\ freeblock s = nmeta /\ forall b, b ∈ pre -> zero_at (img s) b)).
  - split_and!; [done|done|]. intros b Hb. by apply not_elem_of_nil in Hb.
  - intros pre x post s Hl (H1 & H2 & H3). assert (Hx : x ∈ seqZ 0 FSSIZE) by (rewrite Hl; set_solver). apply elem_of_seqZ in Hx.
    apply run_wsect; [lia|]. split_and!; [done|done|]. intros b Hb. unfold zero_at. cbn [img set_img].
    destruct (decide (b = x)) as [->|Hne]; [apply lookup_insert_eq|]. rewrite lookup_insert_ne by congruence. apply H3. set_solver.
  - intros s (H1 & H2 & H3). apply run_wsect; [done|]. apply HQ.
    assert (Hz : forall b, 0 <= b < FSSIZE -> b <> 1 -> zero_at (<[(0%nat, 1) := sb_bytes]> (img s)) b).
    { intros b Hb Hne. unfold zero_at. rewrite lookup_insert_ne by congruence. apply H3, elem_of_seqZ. lia. }
    split; cbn [freeinode freeblock img set_img]; rewrite ?H1, ?H2; try done.
    + intros b Hb. destruct (decide (b = 1)) as [->|Hne]; [eexists; split; [apply lookup_insert_eq|done]|]. exists zeroes. by rewrite Hz.
    + intros b Hb. change nmeta with 46 in Hb. apply Hz; lia.
    + intros k k' a Hk. cbn in Hk. lia.
    + intros a Ha. lia.
    + intros b Hb. destruct (Z.eqb_spec b 1) as [->|Hne]; [apply lookup_insert_eq|]. apply Hz; [unfold FSSIZE; lia|done].
    + intros inum Hin. change (Zlen []) with 0 in Hin. unfold slot. destruct (IBLOCK_range inum) as [_ R]; [lia|].
      rewrite Hz by (unfold FSSIZE; lia). cbn [default get_dinode d_type]. unfold di_type, ld16, ldn. by rewrite !getb_zeroes.
Qed.

(** The reads of one file. *)
Lemma run_chunks s G cs (Q : unit -> builder -> Prop) : built s (G ++ [(T_FILE, [])]) -> Zlen (concat cs) <= MAXFILE * BSIZE ->
  nmeta + total (G ++ [(T_FILE, concat cs)]) <= FSSIZE ->
  (forall s', built s' (G ++ [(T_FILE, concat cs)]) -> Q tt s') -> run (iter_each cs (iappend (Zlen G + 1))) s Q.
Proof.
  intros Bt Hmax Hsp HQ. eapply (run_iter_each _ _ _ (fun pre s => built s (G ++ [(T_FILE, concat pre)]))); [done| |exact HQ].
  intros pre x post s' -> Bt'. rewrite concat_app in *. cbn [concat] in *. rewrite !Zlen_app in Hmax.
  assert (Hk : (G ++ [(T_FILE, concat pre)]) !! length G = Some (T_FILE, concat pre)) by (by apply list_lookup_middle).
  assert (Hins : forall y, <[length G := y]> (G ++ [(T_FILE, concat pre)]) = G ++ [y]).
  { intros y. by rewrite insert_app_r_alt, Nat.sub_diag by lia. }
  assert (H0 : 0 <= Zlen (concat post)) by (unfold Zlen; lia).
  unfold Zlen at 1. eapply (run_iappend s' _ (length G)); [exact Bt'|exact Hk|lia|lia| |].
  - rewrite Hins. rewrite !total_app in *. cbn [total foldr snd] in *. rewrite !Zlen_app in *.
    pose proof (count_mono (Zlen (concat pre) + Zlen x) (Zlen (concat pre) + (Zlen x + Zlen (concat post))) ltac:(lia)). lia.
  - intros s2. rewrite Hins, app_nil_r. done.
Qed.

Lemma run_add_file s pre f post (Q : unit -> builder -> Prop) : fits (pre ++ f :: post) -> built s (expected pre) ->
  (forall s', built s' (expected (pre ++ [f])) -> Q tt s') -> run (add_file ROOTINO f) s Q.
Proof.
  intros Hfit Bt HQ. assert (Hf : f ∈ pre ++ f :: post) by set_solver. unfold add_file.
  rewrite (ft_slash _ Hfit f Hf). destruct (ft_open _ Hfit f Hf) as [cs Hcs]. rewrite Hcs.
  pose proof (ft_inodes _ Hfit) as Hi. rewrite Zlen_app in Hi. assert (Hi' : Zlen pre + 2 < 200) by (unfold Zlen, NINODES in *; cbn in Hi; lia).
  assert (Hc : contents f = concat cs) by (unfold contents; by rewrite Hcs).
  assert (He : Zlen (expected pre) = Zlen pre + 1) by (unfold Zlen, expected; cbn; rewrite length_fmap; lia).
  assert (Hsp : nmeta + total (expected (pre ++ [f])) <= FSSIZE).
  { pose proof (ft_blocks _ Hfit) as Hb. pose proof (total_prefix (pre ++ [f]) post) as Ht. rewrite <-app_assoc in Ht. cbn [app] in Ht. lia. }
  assert (Hex : expected (pre ++ [f]) = (T_DIR, dir_data (pre ++ [f])) :: ((fun f => (T_FILE, contents f)) <$> pre) ++ [(T_FILE, concat cs)]).
  { unfold expected. by rewrite fmap_app, <-Hc. }
  wp. eapply run_ialloc; [exact Bt|lia|lia|]. intros s1 B1. wp. rewrite He in *.
  set (rest := (fun f => (T_FILE, contents f)) <$> pre) in *. assert (Hdir : expected pre ++ [(T_FILE, [])] = (T_DIR, dir_data pre) :: rest ++ [(T_FILE, [])]) by done.
  rewrite Hdir in B1. pose proof (dir_data_snoc pre f) as Hsn. pose proof (Zlen_dir_data (pre ++ [f])) as Hzl. rewrite Zlen_app in Hzl. change (Zlen [f]) with 1 in Hzl.
  replace (Zlen pre + 1 + 1) with (Zlen pre + 2) by lia.
  eapply (run_iappend s1 _ 0); [exact B1|done|lia| | |].
  - rewrite <-Zlen_app. unfold name_of in Hsn. rewrite <-Hsn, Hzl. lia.
  - unfold name_of in Hsn. rewrite <-Hsn. rewrite Hex in Hsp. change (<[0%nat := ?y]> (?x :: ?l)) with (y :: l). cbn [total foldr snd] in *.
    fold (total (rest ++ [(T_FILE, [])])) (total (rest ++ [(T_FILE, concat cs)])) in *. rewrite !total_app in *. cbn [total foldr snd] in *.
    pose proof (count_mono (Zlen (@nil Z)) (Zlen (concat cs)) ltac:(unfold Zlen; cbn; lia)). lia.
  - intros s2. unfold name_of in Hsn. rewrite <-Hsn. change (<[0%nat := ?y]> (?x :: ?l)) with (y :: l). rewrite app_comm_cons. intros B2.
    assert (Hl : Zlen ((T_DIR, dir_data (pre ++ [f])) :: rest) + 1 = Zlen pre + 2) by (unfold Zlen, rest; cbn; rewrite length_fmap; lia).
    rewrite <-Hl. eapply run_chunks; [exact B2|rewrite <-Hc; by apply (ft_max _ Hfit)| |].
    + rewrite <-app_comm_cons, <-Hex. lia.
    + intros s3. rewrite <-app_comm_cons, <-Hex. apply HQ.
Qed.

(** ** The image for the kernel *)

Definition dir_size (files : list input) : Z := (Zlen (dir_data files) / BSIZE + 1) * BSIZE.

Record image_ok (d : disk) (files : list input) : Prop := {
  im_super : exists b, d !! (0%nat, 1) = Some b /\ decode_sb b = sb;
  im_geom : geom 0 sb d;
  im_log : exists hd, d !! (0%nat, sb_logstart sb) = Some hd /\ ld32 hd 0 = 0;
  im_root : i_inum (ino d 0) = ROOTINO /\ i_type (ino d 0) = T_DIR /\ i_nlink (ino d 0) = 1 /\ i_size (ino d 0) = dir_size files /\
    file_on 0 sb d (ino d 0) (getb (dir_data files));
  im_holes : no_holes 0 d (ino d 0) <-> (Zlen files + 2) mod 64 <> 0;
  im_files : forall k f, files !! k = Some f ->
    i_inum (ino d (S k)) = Z.of_nat k + 2 /\ i_type (ino d (S k)) = T_FILE /\ i_nlink (ino d (S k)) = 1 /\ i_size (ino d (S k)) = Zlen (contents f) /\
    file_on 0 sb d (ino d (S k)) (getb (contents f)) /\ no_holes 0 d (ino d (S k));
  im_apart : forall k k' a, (k <= length files)%nat -> (k' <= length files)%nat -> a <> 0 ->
    blk_of d (ino d k) a -> blk_of d (ino d k') a -> k = k';
  im_used : forall b, 0 <= b < FSSIZE -> used 0 sb d b = true <->
    b < nmeta \/ exists k, (k <= length files)%nat /\ blk_of d (ino d k) b;
  im_inodes : forall inum, Zlen files + 1 < inum < NINODES -> d_type (slot d inum) = 0
}.

Lemma blocks_for_le n b : 0 <= n -> b < blocks_for n <-> b * BSIZE < n.
Proof.
  intros Hn. unfold blocks_for. pose proof (Z.div_mod (n + BSIZE - 1) BSIZE ltac:(lia)). pose proof (Z.mod_pos_bound (n + BSIZE - 1) BSIZE ltac:(lia)). lia.
Qed.

Lemma holes_iff d hi i nb data : file_in d hi i nb data -> 0 <= i_size i <= MAXFILE * BSIZE -> no_holes 0 d i <-> i_size i <= nb * BSIZE.
Proof.
  intros F Hs. pose proof (fi_nb _ _ _ _ _ F). split.
  - intros Hh. destruct (Z_le_gt_dec (i_size i) (nb * BSIZE)) as [|Hgt]; [done|exfalso].
    pose proof (Hh nb ltac:(lia) ltac:(lia)) as Hne. apply (fi_mapped _ _ _ _ _ F) in Hne; lia.
  - intros Hle b Hb Hlt. apply (fi_mapped _ _ _ _ _ F); lia.
Qed.

Lemma expected_lookup files k f : files !! k = Some f -> expected files !! S k = Some (T_FILE, contents f).
Proof. intros Hk. change (expected files !! S k) with (((fun f => (T_FILE, contents f)) <$> files) !! k). by rewrite list_lookup_fmap, Hk. Qed.

(** From the last state of the program to the image. *)
Lemma finished_ok s s1 files : built s (expected files) -> Zlen files + 2 <= NINODES -> wrote s 1 (set_d_size (dir_size files) (slot (img s) 1)) s1 ->
  image_ok (<[(0%nat, 45) := mark_used (Z.to_nat (freeblock s)) 0 zeroes]> (img s1)) files.
Proof.
  intros Bt Hi W. set (G := expected files) in *. set (d := <[_ := _]> (img s1)). assert (Hlen : length G = S (length files)) by (unfold G, expected; cbn; by rewrite length_fmap).
  pose proof (Zlen_dir_data files) as Hzd. assert (Hz0 : 0 <= Zlen files) by (unfold Zlen; lia). unfold NINODES in Hi.
  assert (Hr : G !! 0%nat = Some (T_DIR, dir_data files)) by done. assert (Hds : 0 <= dir_size files <= MAXFILE * BSIZE).
  { unfold dir_size. rewrite Hzd. assert (0 <= 16 * (Zlen files + 2) / BSIZE < 4) by (split; [apply Z.div_pos; lia|apply Z.div_lt_upper_bound; lia]). lia. }
  assert (Hfile : forall k ty data, G !! k = Some (ty, data) -> i_size (ino d k) <= MAXFILE * BSIZE -> file_on 0 sb d (ino d k) (getb data)).
  { intros k ty data Hk Hs. split; [by eapply (final_on_disk s s1 G); [..|eapply lookup_lt_Some]|]. split; [by eapply (final_ok s s1 G)|].
    intros x Hx. destruct (final_file s s1 G _ Bt W k ty data Hk) as [F _]. apply (fi_bytes _ _ _ _ _ F). lia. }
  assert (Hown : forall k a, (k <= length files)%nat -> own d (ino d k) a <-> own (img s) (ino (img s) k) a).
  { intros k a Hk. destruct (lookup_lt_is_Some_2 G k ltac:(lia)) as [[ty data] HG]. by eapply (final_file s s1 G). }
  split.
  - exists sb_bytes. split; [unfold d; rewrite (final_same s s1 _ W) by lia; by apply Bt|by vm_compute].
  - by eapply (final_geom s s1 G).
  - exists zeroes. split; [|unfold ld32, ldn; by rewrite !getb_zeroes]. change (sb_logstart sb) with 2. unfold d. rewrite (final_same s s1 _ W) by lia.
    exact (bt_meta _ _ Bt 2 ltac:(lia)).
  - destruct (bt_file _ _ Bt 0%nat _ _ Hr) as (_ & T1 & _ & _ & T4 & _). assert (Hs : i_size (ino d 0) = dir_size files) by (unfold d; by rewrite (final_ino s s1 G _ Bt W) by lia).
    split_and!; [done|unfold d; by rewrite (final_ino s s1 G _ Bt W) by lia|unfold d; by rewrite (final_ino s s1 G _ Bt W) by lia|done|].
    eapply Hfile; [exact Hr|lia].
  - destruct (final_file s s1 G _ Bt W 0%nat _ _ Hr) as [F _]. fold d in F. assert (Hs : i_size (ino d 0) = dir_size files) by (unfold d; by rewrite (final_ino s s1 G _ Bt W) by lia).
    rewrite (holes_iff _ _ _ _ _ F) by lia. rewrite Hs. unfold dir_size, blocks_for. rewrite Hzd. clear. Z.div_mod_to_equations. lia.
  - intros k f Hk. pose proof (expected_lookup _ _ _ Hk) as HG. pose proof (lookup_lt_Some _ _ _ Hk) as Hlt.
    destruct (bt_file _ _ Bt (S k) _ _ HG) as (B & T1 & _ & _ & T4 & T5). destruct (final_file s s1 G _ Bt W (S k) _ _ HG) as [F _]. fold d in F.
    assert (Ei : ino d (S k) = ino (img s) (S k)) by (unfold d; by rewrite (final_ino s s1 G _ Bt W) by lia). pose proof (fi_nb _ _ _ _ _ F) as Hnb.
    assert (Hn : Zlen (contents f) <= blocks_for (Zlen (contents f)) * BSIZE).
    { pose proof (blocks_for_le (Zlen (contents f)) (blocks_for (Zlen (contents f))) ltac:(unfold Zlen; lia)). lia. }
    split_and!; [rewrite Ei; cbn; lia|by rewrite Ei|by rewrite Ei|by rewrite Ei|eapply Hfile; [exact HG|rewrite Ei, T5; lia]|].
    apply (holes_iff _ _ _ _ _ F); rewrite Ei, T5; [unfold Zlen in *; lia|done].
  - intros k k' a Hk Hk' Ha H1 H2. apply (bt_apart _ _ Bt k k' a); [lia|lia|apply (Hown k a Hk), (conj Ha H1)|apply (Hown k' a Hk'), (conj Ha H2)].
  - intros b Hb. unfold d. rewrite (final_used s s1 G Bt) by done. fold d. rewrite bool_decide_eq_true. split.
    + intros Hlt. destruct (Z_lt_ge_dec b nmeta) as [|Hge]; [by left|right]. destruct (bt_tight _ _ Bt b ltac:(lia)) as (k & Hk & Ho). exists k. split; [lia|].
      apply (Hown k b ltac:(lia)) in Ho as [_ Ho]. exact Ho.
    + pose proof (free_range s G Bt) as Hf. intros [Hlt|(k & Hk & Ho)]; [lia|]. destruct (Z.eq_dec b 0) as [->|Hne]; [change nmeta with 46 in Hf; lia|].
      destruct (lookup_lt_is_Some_2 G k ltac:(lia)) as [[ty data] HG]. destruct (bt_file _ _ Bt k _ _ HG) as (B & _).
      apply (fi_range _ _ _ _ _ (bd_file _ _ _ _ _ B)). apply (Hown k b Hk), (conj Hne Ho).
  - intros inum Hin. unfold NINODES in Hin. unfold d. rewrite final_slot by lia. rewrite (wo_others _ _ _ _ W) by lia. apply (bt_unused _ _ Bt). unfold Zlen in *. lia.
Qed.

Lemma run_main files (Q : unit -> builder -> Prop) : fits files -> (forall s, image_ok (img s) files -> Q tt s) -> run (main files) start Q.
Proof.
  intros Hf HQ. assert (Hz : 0 <= Zlen files) by (unfold Zlen; lia).
  pose proof (Zlen_dir_data files) as Hzd. pose proof (ft_inodes _ Hf) as Hi. unfold NINODES in Hi. unfold main.
  apply (proj2 (run_bind _ _ _ _)), (proj2 (run_modify _ _ _)), (proj2 (run_bind _ _ _ _)).
  eapply run_mono; [apply (run_init (fun _ s => built s [])); done|].
  intros [] s H0. cbv beta in H0. apply (proj2 (run_bind _ _ _ _)). eapply run_mono; [exact H0|]. intros [] s0 B0. cbv beta in B0.
  wp. eapply run_ialloc; [exact B0|done|lia|]. intros s1 B1. wp. change (Zlen [] + 1) with ROOTINO. cbn [Z.eqb negb Pos.eqb].
  assert (Hsp : nmeta + total (expected []) <= FSSIZE) by done.
  wp. eapply (run_iappend s1 _ 0); [exact B1|done|lia|done|done|]. intros s2 B2. wp.
  eapply (run_iappend s2 _ 0); [exact B2|done|lia|done|done|]. intros s3 B3. wp.
  eapply (run_iter_each _ _ _ (fun pre s => built s (expected pre))); [exact B3| |].
  - intros pre x post s' -> B. by eapply run_add_file.
  - intros s4 B4. wp. apply run_rinode; [done|apply B4|]. wp.
    destruct (bt_file _ _ B4 0%nat _ _ eq_refl) as (B & T1 & T2 & T3 & T4 & T5). cbn in T1, T2, T3, T4, T5. change (Z.of_nat 0 + 1) with ROOTINO in *.
    assert (Hq : 0 <= 16 * (Zlen files + 2) / BSIZE < 4) by (split; [apply Z.div_pos; lia|apply Z.div_lt_upper_bound; lia]).
    assert (T6 : d_size (slot (img s4) ROOTINO) = Zlen (dir_data files)) by exact T5.
    rewrite T6, (xint_small (Zlen _)) by lia. rewrite u32_small by (rewrite Hzd; lia). rewrite xint_small by (rewrite Hzd; lia). fold (dir_size files).
    apply run_winode; [done|apply B4| |].
    + eapply building_fits; [apply building_size; exact B|cbn; try congruence..]; [rewrite T1; lia|unfold dir_size; rewrite Hzd; lia].
    + intros s5 W. wp. rewrite (wo_free _ _ _ _ W). pose proof (free_range _ _ B4) as Hfr. change nmeta with 46 in Hfr. unfold FSSIZE in Hfr.
      unfold balloc. rewrite s32_small by lia. destruct (Z.ltb_spec (freeblock s4) (BSIZE * 8)); [cbn [negb]|lia].
      apply run_wsect; [done|]. change (sb_bmapstart sb) with 45. apply HQ. by apply finished_ok.
Qed.

(** ** The root directory for the kernel *)

Definition entries (files : list input) : list (Z * list Z) :=
  [(ROOTINO, [46]); (ROOTINO, [46; 46])] ++ imap (fun j f => (Z.of_nat j + 2, take 14 (name_of f))) files.

Lemma getb_list (l : list Z) x : 0 <= x -> getb l x = u8 (default 0 (l !! Z.to_nat x)).
Proof. intros Hx. change (getb l x) with (list_getb l x). unfold list_getb. by destruct (Z.ltb_spec x 0); [lia|]. Qed.

(** The record of an entry, read back. *)
Lemma dirent_inum inum name : 0 <= inum < 2 ^ 16 -> ld16 (dirent inum name) 0 = inum.
Proof.
  intros Hi. destruct (strncpy_spec 14 (st16 (replicate 16 0) 0 (xshort inum)) name 2 0) as [_ H2].
  { intros a Ha. apply valid_stn. cbn. lia. }
  change (CString.strncpy_loop 14 (st16 (replicate 16 0) 0 (xshort inum)) name 2 0) with (dirent inum name) in H2.
  unfold ld16. rewrite (ldn_ext 2 _ (st16 (replicate 16 0) 0 (xshort inum))) by (intros b Hb; apply H2; lia).
  unfold st16. rewrite ldn_stn_eq; [|intros a Ha; cbn; lia]. rewrite xshort_u16. unfold u16. rewrite Z.mod_mod by done. apply Z.mod_small. lia.
Qed.

Lemma dirent_name inum name : Forall is_char name -> cname (get_bytes 14 (dirent inum name) 2) = take 14 name.
Proof.
  intros Hn. destruct (strncpy_spec 14 (st16 (replicate 16 0) 0 (xshort inum)) name 2 0) as [H1 _].
  { intros a Ha. apply valid_stn. cbn. lia. }
  change (CString.strncpy_loop 14 (st16 (replicate 16 0) 0 (xshort inum)) name 2 0) with (dirent inum name) in H1. rewrite H1.
  assert (Hb : forall j c, name !! j = Some c -> getb name (0 + Z.of_nat j) = c).
  { intros j c Hj. rewrite getb_list, Z.add_0_l, Nat2Z.id, Hj by lia. apply u8_small. pose proof (Forall_lookup_1 _ _ _ _ Hn Hj). cbv beta in *. lia. }
  apply cname_get; [rewrite length_take; lia| | |].
  - apply Forall_take. eapply Forall_impl; [exact Hn|]. intros c Hc. cbv beta in *. lia.
  - intros j c Hj. apply Hb. by apply lookup_take_Some in Hj as [Hj _].
  - rewrite length_take. intros Hl. by rewrite getb_list, Z.add_0_l, Nat2Z.id, lookup_ge_None_2 by lia.
Qed.

(** Records of 16 bytes, one after the other. *)
Lemma getb_records (L : list (list Z)) : Forall (fun l => length l = 16%nat) L -> forall k j, 0 <= j < 16 ->
  getb (concat L) (16 * Z.of_nat k + j) = getb (default [] (L !! k)) j.
Proof.
  induction 1 as [|l L Hl HL IH]; intros k j Hj; [by rewrite !getb_list by lia|]. cbn [concat]. destruct k as [|k].
  - rewrite !getb_list by lia. rewrite lookup_app_l by lia. done.
  - cbn [lookup list_lookup]. change (list_lookup k L) with (L !! k). rewrite <-IH by done. rewrite !getb_list by lia. rewrite lookup_app_r by lia. do 3 f_equal. lia.
Qed.

Definition records (files : list input) : list (Z * list Z) :=
  [(ROOTINO, [46]); (ROOTINO, [46; 46])] ++ imap (fun j f => (Z.of_nat j + 2, name_of f)) files.

Lemma dir_data_records files : dir_data files = concat ((fun r => dirent r.1 r.2) <$> records files).
Proof. unfold dir_data, records. rewrite fmap_app, fmap_imap, concat_app. done. Qed.

Lemma entries_records files : entries files = (fun r => (r.1, take 14 r.2)) <$> records files.
Proof. unfold entries, records. rewrite fmap_app, fmap_imap. done. Qed.

Lemma Forall_name_of f : Forall is_char (path f) -> Forall is_char (name_of f).
Proof. intros H. unfold name_of, strip_underscore, shortname. repeat case_match; auto using Forall_drop. Qed.

Lemma records_ok files : fits files -> Forall (fun r => 1 <= r.1 <= Zlen files + 1 /\ Forall is_char r.2) (records files).
Proof.
  intros Hf. unfold records. apply Forall_app. assert (0 <= Zlen files) by (unfold Zlen; lia). split.
  - repeat constructor; cbn; lia.
  - apply Forall_forall. intros r Hr. apply elem_of_lookup_imap in Hr as (j & f & -> & Hj). cbn. pose proof (lookup_lt_Some _ _ _ Hj).
    split; [unfold Zlen; lia|]. apply Forall_name_of, (ft_path _ Hf). by eapply list_elem_of_lookup_2.
Qed.

Lemma length_dir_records files : Z.of_nat (length (records files)) = Zlen files + 2.
Proof. unfold records. rewrite length_app, length_imap. cbn. unfold Zlen. lia. Qed.

(** ** Looking names up *)

Lemma find_in e l off m o : find_ent e l off = Some (m, o) -> m <> 0 /\ (m, e) ∈ l.
Proof.
  revert off. induction l as [|[n nm] l IH]; intros off Hd; cbn [find_ent] in Hd; [done|]. destruct (negb (n =? 0) && bool_decide (nm = e)) eqn:E.
  - apply andb_true_iff in E as [E1 E2]. apply bool_decide_eq_true in E2 as ->. injection Hd as <- <-. split; [by apply negb_true_iff, Z.eqb_neq in E1|left].
  - destruct (IH _ Hd). split; [done|by right].
Qed.

Lemma find_nodup e m l l' off : NoDup l.*2 -> (m, e) ∈ l -> m <> 0 -> exists o, find_ent e (l ++ l') off = Some (m, o).
Proof.
  revert off. induction l as [|[n nm] l IH]; intros off Hnd Hin Hm; [by apply not_elem_of_nil in Hin|]. cbn in Hnd. apply NoDup_cons in Hnd as [Hno Hnd]. cbn [app find_ent].
  apply elem_of_cons in Hin as [[= <- <-]|Hin].
  - rewrite bool_decide_true by done. destruct (Z.eqb_spec m 0); [done|]. by eexists.
  - rewrite (bool_decide_false (nm = e)), andb_false_r; [by apply IH|]. intros ->. apply Hno. apply list_elem_of_fmap. by exists (m, e).
Qed.

Section image.
Variables (d : disk) (files : list input).
Hypotheses (Hok : image_ok d files) (Hf : fits files).
Abbreviation root := (dino 0 sb d ROOTINO).

(** The kernel's view of an inode of the image. *)
Lemma dino_ino k : (k <= length files)%nat -> dfields (ino d k) = dfields (dino 0 sb d (Z.of_nat k + 1)).
Proof using Hok.
  intros Hk. apply (on_disk_dino 0 sb d (ino d k)). destruct k as [|k]; [apply (im_root _ _ Hok)|].
  destruct (lookup_lt_is_Some_2 files k ltac:(lia)) as [f Hx]. apply (im_files _ _ Hok _ _ Hx).
Qed.

Lemma root_bytes x : 0 <= x < dir_size files -> fbyte d root x = getb (dir_data files) x.
Proof using Hok.
  intros Hx. destruct (im_root _ _ Hok) as (_ & _ & _ & Hs & _ & _ & Hb). destruct (dfields_eq _ _ (dino_ino 0 ltac:(lia))) as (_ & _ & _ & Ha).
  rewrite (fbyte_same 0 d (ino d 0) root x) by done. apply Hb. lia.
Qed.

(** The entries of the root directory: those of mkfs, then unused ones. *)
Lemma root_entries : exists n, dents 0 d root = entries files ++ replicate n (0, []).
Proof using Hok Hf.
  destruct (im_root _ _ Hok) as (_ & _ & _ & Hs & _). destruct (dfields_eq _ _ (dino_ino 0 ltac:(lia))) as (_ & _ & Hs' & _). rewrite Hs in Hs'. change (Z.of_nat 0 + 1) with ROOTINO in Hs'.
  pose proof (Zlen_dir_data files) as Hz. pose proof (length_dir_records files) as Hr. set (N := dir_size files / 16).
  assert (HN : Z.of_nat (length (records files)) <= N /\ 16 * N = dir_size files) by (unfold N, dir_size; rewrite Hz, Hr; Z.div_mod_to_equations; lia).
  exists (Z.to_nat N - length (records files))%nat. rewrite entries_records.
  assert (Hl : length (dents 0 d root) = Z.to_nat N) by (rewrite length_dents, <-Hs'; done).
  apply list_eq_same_length with (n := Z.to_nat N); [|done|]; [rewrite length_app, length_fmap, length_replicate; lia|].
  intros k x y Hk Hx Hy. pose proof (lookup_dents 0 d root (Z.of_nat k) ltac:(rewrite <-Hs'; fold N; lia)) as Hd. rewrite Nat2Z.id, Hx in Hd. injection Hd as ->.
  set (R := default [] (((fun r => dirent r.1 r.2) <$> records files) !! k)).
  assert (HR : forall j, 0 <= j < 16 -> getb R (0 + j) = fbyte d root (16 * Z.of_nat k + j)).
  { intros j Hj. rewrite root_bytes by lia. rewrite dir_data_records, getb_records; [done| |done]. apply Forall_forall. intros l (r & -> & _)%list_elem_of_fmap. exact (length_dirent r.1 r.2). }
  rewrite <-(read_inum 0 R 0 d root _ HR), <-(read_name 0 R 0 d root _ HR). unfold R. clear HR R. rewrite list_lookup_fmap.
  destruct (records files !! k) as [[n nm]|] eqn:E; cbn [fmap option_fmap option_map from_option id fst snd]; change (0 + 2) with 2.
  - destruct (Forall_lookup_1 _ _ _ _ (records_ok files Hf) E) as [Hn Hnm]. cbn [fst snd] in *. pose proof (ft_inodes _ Hf) as Hi. unfold NINODES in Hi.
    rewrite dirent_inum, dirent_name by (done || lia). rewrite lookup_app_l, list_lookup_fmap, E in Hy by (rewrite length_fmap; by eapply lookup_lt_Some). by injection Hy as <-.
  - apply lookup_ge_None_1 in E. rewrite lookup_app_r in Hy by (by rewrite length_fmap). by apply lookup_replicate in Hy as [-> _].
Qed.
(** A file of the image is in order for the kernel. *)
Lemma ino_file k : (k <= length files)%nat -> file_ok 0 sb d (ino d k) /\ i_nlink (ino d k) = 1 /\ i_type (ino d k) = if decide (k = 0%nat) then T_DIR else T_FILE.
Proof using Hok.
  intros Hk. destruct k as [|k].
  - destruct (im_root _ _ Hok) as (_ & H1 & H2 & _ & _ & H3 & _). done.
  - destruct (lookup_lt_is_Some_2 files k ltac:(lia)) as [f Hx]. destruct (im_files _ _ Hok _ _ Hx) as (_ & H1 & H2 & _ & (_ & H3 & _) & _). done.
Qed.

Lemma root_dir_ok : (Zlen files + 2) mod 64 <> 0 -> dir_ok 0 sb d (ino d 0).
Proof using Hok Hf.
  intros Hne. destruct (im_root _ _ Hok) as (_ & _ & _ & Hs & _ & H3 & _). split; [done|by apply (im_holes _ _ Hok)|..]; rewrite Hs; unfold dir_size; rewrite Zlen_dir_data.
  - pose proof (ft_inodes _ Hf) as Hi. unfold NINODES in Hi. assert (0 <= Zlen files) by (unfold Zlen; lia). clear - Hi H. Z.div_mod_to_equations. lia.
  - clear. Z.div_mod_to_equations. lia.
Qed.

Lemma root_find e m off : dir_find 0 d root e = Some (m, off) -> 1 <= m <= Zlen files + 1.
Proof using Hok Hf.
  intros Hd. unfold dir_find in Hd. destruct root_entries as [n Hn]. rewrite Hn in Hd. destruct (find_in _ _ _ _ _ Hd) as [Hm He].
  apply elem_of_app in He as [He|He]; [|apply elem_of_replicate in He as [[= -> _] _]; done].
  rewrite entries_records in He. apply list_elem_of_fmap in He as (r & [= -> _] & Hr). by apply (proj1 (Forall_forall _ _) (records_ok files Hf) r Hr).
Qed.

(** The image is a tree of the kernel's file system, unless its root
    directory has a hole. *)
Lemma image_tree : (Zlen files + 2) mod 64 <> 0 -> tree 0 sb d (fun n => 1 <= n <= Zlen files + 1).
Proof using Hok Hf.
  intros Hne. pose proof (ft_inodes _ Hf) as Hi. unfold NINODES in Hi.
  assert (Hk : forall n, 1 <= n <= Zlen files + 1 -> exists k, (k <= length files)%nat /\ n = Z.of_nat k + 1).
  { intros n Hn. exists (Z.to_nat (n - 1)). unfold Zlen in *. lia. }
  split.
  - intros n Hn. destruct (Hk n Hn) as (k & Hle & ->). destruct (dfields_eq _ _ (dino_ino k Hle)) as (Ht & Hl & Hs & Ha). destruct (ino_file k Hle) as (H1 & H2 & H3).
    split; [|lia|by rewrite <-Ht, H3; case_decide|by rewrite <-Hl, H2|by eapply (file_ok_same 0 sb d (ino d k))|].
    + split; [lia|]. change (sb_inodestart sb) with 32. change (sb_bmapstart sb) with 45. assert ((Z.of_nat k + 1) / IPB < 13) by (apply Z.div_lt_upper_bound; change IPB with 16; lia). lia.
    + rewrite <-Ht, H3. case_decide as Hk0; [intros _|done]. subst k. eapply (dir_ok_same 0 sb d (ino d 0)); [done|done|done|by apply root_dir_ok].
  - intros n e m off Hn Ht Hd. destruct (Hk n Hn) as (k & Hle & ->). destruct (dfields_eq _ _ (dino_ino k Hle)) as (Ht' & _). destruct (ino_file k Hle) as (_ & _ & H3).
    rewrite <-Ht', H3 in Ht. case_decide; [subst k; by eapply root_find|done].
  - intros n m a Hn Hm Hnm Ha0 H1 H2. destruct (Hk n Hn) as (k & Hle & ->). destruct (Hk m Hm) as (k' & Hle' & ->).
    destruct (dfields_eq _ _ (dino_ino k Hle)) as (_ & _ & _ & Ha). destruct (dfields_eq _ _ (dino_ino k' Hle')) as (_ & _ & _ & Ha').
    apply Hnm. do 2 f_equal. apply (im_apart _ _ Hok k k' a Hle Hle' Ha0); by eapply blk_of_same.
Qed.

(** The kernel finds every file under its name. *)
Lemma image_names k f : NoDup (entries files).*2 -> files !! k = Some f -> resolve 0 sb d ROOTINO [take 14 (name_of f)] = Some (Z.of_nat k + 2).
Proof using Hok Hf.
  intros Hnd Hx. cbn [resolve]. destruct (dfields_eq _ _ (dino_ino 0 ltac:(lia))) as (Ht & _). change (Z.of_nat 0 + 1) with ROOTINO in Ht. rewrite <-Ht.
  destruct (im_root _ _ Hok) as (_ & -> & _). cbn [Z.eqb Pos.eqb]. destruct root_entries as [n Hn]. unfold dir_find. rewrite Hn.
  destruct (find_nodup (take 14 (name_of f)) (Z.of_nat k + 2) (entries files) (replicate n (0, [])) 0) as [o ->]; [done| |lia|done].
  apply elem_of_app. right. apply elem_of_lookup_imap. by exists k, f.
Qed.
End image.

(** C7: mkfs builds a file system of the kernel.  For files that can be read,
    whose names are C strings without a slash, that are no larger than a file
    may be, and that fit the inodes and the blocks of the disk, mkfs ends
    without an error.  Its image has the super block and the geometry the
    kernel's theorems assume, an empty log, and every file with its bytes, in
    blocks that are allocated, disjoint and without holes; the bitmap marks
    exactly the blocks in use, and the other inodes are free.  The entries of
    the root directory are dot, dotdot and the files, then unused ones, and
    when the names (cut to 14 bytes) are distinct the kernel's lookup of a
    name from the root gives the inode of the file.  When the number of
    entries is not a multiple of 64 the inodes are a tree in the sense of the
    theorems about the kernel's paths and links; when it is a multiple of 64
    mkfs gives the root directory one block too many, which is a hole. *)
Theorem mkfs_correct files : fits files -> exists s, main files start = Ok tt s /\ image_ok (img s) files /\
  ((Zlen files + 2) mod 64 <> 0 -> tree 0 sb (img s) (fun n => 1 <= n <= Zlen files + 1)) /\
  (exists n, dents 0 (img s) (dino 0 sb (img s) ROOTINO) = entries files ++ replicate n (0, [])) /\
  (NoDup (entries files).*2 -> forall k f, files !! k = Some f ->
    resolve 0 sb (img s) ROOTINO [take 14 (name_of f)] = Some (Z.of_nat k + 2)).
Proof.
  intros Hf. destruct (proj1 (run_eq _ _ _) (run_main files (fun _ s => image_ok (img s) files) Hf (fun s H => H))) as ([] & s & H1 & H2).
  exists s. split_and!; [exact H1|exact H2|by apply image_tree|by apply root_entries|]. intros Hnd k f. by apply image_names.
Qed.

Definition readme : input := mkInput [95; 82; 69; 65; 68; 77; 69] (Some [[104; 105]; [33; 10]]).

Lemma mkfs_correct_witness : fits [readme] /\ exists s, main [readme] start = Ok tt s /\ image_ok (img s) [readme] /\
  tree 0 sb (img s) (fun n => 1 <= n <= 2) /\ resolve 0 sb (img s) ROOTINO [[82; 69; 65; 68; 77; 69]] = Some 2.
Proof.
  assert (Hf : fits [readme]).
  { split; try (intros f ->%list_elem_of_singleton); [repeat constructor; cbn; lia|by eexists|done|done|done|by vm_compute]. }
  split; [exact Hf|]. destruct (mkfs_correct [readme] Hf) as (s & H1 & H2 & H3 & _ & H4). exists s.
  split_and!; [exact H1|exact H2|apply H3; by vm_compute|]. apply (H4 ltac:(apply (bool_decide_unpack _); by vm_compute) 0%nat readme eq_refl).
Defined.

End MkfsProof.
